(* ===== verification/_CoqProject ===== *)
-Q . S2P
Prelude.v
Paths.v
Heap.v
Pmm.v
PmmInit.v
Slab.v
HeapTrace.v
Pipe.v
PipeProps.v
Tmpfs.v
TmpfsData.v
TmpfsTree.v
TmpfsOps.v
TmpfsProps.v
Vmm.v
VmmRef.v
VmmMap.v
VmmProps.v
VmmUnmap.v
VmmClone.v
Vfs.v
VfsMount.v
VfsFiles.v
VfsSafe.v
VfsResolve.v
VfsDemo.v
VfsTmpfs.v
Mempool.v
VmmDemo.v
Inotify.v
InotifyQueue.v
InotifyOps.v
InotifyPaths.v
InotifyDemo.v
ExecCache.v
ExecMem.v
ExecInv.v
ExecLock.v
ExecLoads.v
ExecSafe.v
ExecVfs.v
ExecDemo.v
Printf.v
Users.v
UsersPerm.v
UsersInv.v
UsersFile.v
UsersText.v
UsersProps.v
UsersDemo.v
TcpRecv.v
TcpRanges.v
TcpWindow.v
TcpConn.v
TcpSeg.v
Tcp.v
TcpTable.v
TcpFrame.v
TcpStream.v
TcpWire.v
TcpMem.v
TcpSend.v
TcpEnd.v
TcpShape.v
TcpSafe.v
TcpSock.v
TcpDemo.v
Net.v
Arp.v
ArpProps.v
Ip.v
IpFrag.v
IpPath.v
IpMem.v
Icmp.v
Udp.v
UdpProps.v
Stack.v
StackSafe.v
NetDemo.v
