(* ===== verification/Prelude.v ===== *)
(** * inDevOS: the memory, file, notification and network core of the kernel

    The development verifies the parts of the inDevOS kernel that manage its
    own data structures: physical pages, the kernel heap, address spaces,
    memory pools, pipes, the in-memory filesystem, the virtual filesystem
    layer, file change notification, the exec image cache, users and
    permissions, and the network stack from the device to TCP and UDP.  The C
    sources are under src/; file names below are relative to it.

    ** The parts and how they fit

    - mem.c, page layer: [Pmm] (page bitmap, scan for a run of free pages,
      free, reserve) and [PmmInit] ([kmem_init] over a bootloader memory map,
      with the pointers of the two tables it sets up).
    - mem.c, heap: [Slab] models the size classes on top of pages, [kalloc] and
      [kfree].  [Heap] states what every client relies on as the classes
      [KHeap] (operations) and [KHeapLaws] (laws); [Slab] proves the instance.
      [HeapTrace] follows whole histories of allocations and frees.
    - mem.c, address spaces: [Vmm] (page tables as words in frames, reference
      counts of copy-on-write frames, map, unmap, clone, destroy, the log of
      TLB shootdowns), over the classes [KFrames] and [KFramesLaws].  [VmmRef],
      [VmmMap], [VmmProps], [VmmUnmap] and [VmmClone] hold the proofs,
      [VmmDemo] concrete address spaces and pools.
    - mem.c, memory pools: [Mempool].
    - pipe.c: [Pipe] and [PipeProps].
    - tmpfs.c: [Tmpfs] (the operations of tmpfs_ops), [TmpfsData] (file
      contents), [TmpfsTree] (the name space), [TmpfsOps] and [TmpfsProps].
    - vfs.c: [Vfs] (every function of the file as a state monad), [VfsMount],
      [VfsFiles], [VfsSafe], [VfsResolve], with [VfsDemo].  [Paths] has the path
      functions shared with tmpfs.c and inotify.c.  Filesystem drivers are a
      record of optional operations, as vfs_fs_ops_t is, over a state the
      layer does not look into.  What the layer tells other subsystems is kept
      as a list of notes in the order of the calls.
      [VfsTmpfs] puts the model of tmpfs.c behind the layer as its driver.
    - inotify.c: [Inotify], [InotifyQueue], [InotifyOps], [InotifyPaths], with
      [InotifyDemo].
    - exec_cache.c: [ExecCache], with threads: a function is a program of atomic
      steps, one per critical section, heap call and filesystem call, and the
      steps of concurrent calls interleave freely.  What the cache uses of the
      filesystem is the classes [ExecFiles] and [ExecFilesLaws].  [ExecMem],
      [ExecInv], [ExecLock], [ExecLoads] and [ExecSafe] hold the invariant and a
      small program logic with resources per thread; [ExecVfs] proves the
      instance for vfs.c over tmpfs.c and [ExecDemo] runs it.
    - term.c, formatted output: [Printf].
    - users.c: [Users] (tables, session, access check), [UsersPerm] (the
      permission table as a map), [UsersInv], [UsersFile] and [UsersText] (the
      files it keeps its tables in), [UsersProps], with [UsersDemo].
    - net_tcp.c: [TcpRecv] (the receive ring and the ranges held beyond a gap),
      [TcpConn] (the connection record), [TcpSeg] (segments as bytes), [Tcp]
      (every function on one connection, as an action on the connection and the
      globals), [TcpTable] (the connection list, listeners, timers and sockets;
      a step that follows a pointer to freed memory has no result).  What it
      uses of the layers below is the classes [NetDown] and [NetDownLaws].
      [TcpRanges], [TcpWindow] and [TcpStream] are about the byte stream,
      [TcpWire] about the wire format, [TcpSend] about what a sender hands to
      the network and [TcpEnd] about two hosts, [TcpFrame], [TcpMem],
      [TcpShape], [TcpSafe] and [TcpSock] about memory and ownership, with
      [TcpDemo].
    - net_device.c and the counters of net_ethernet.c: [Net] has the state of the
      layers below the transports and the monad of actions on it; the driver and
      the clocks are the class [NetHw].  Triples for the actions are at its end.
    - net_arp.c: [Arp] (the part that flushes waiting datagrams is in [Ip]) and
      [ArpProps].
    - net_ip.c: [Ip], with [IpFrag] (headers, fragments and their
      reassembly), [IpPath] (from host to host, over a machine of the classes
      [NetLab] and [NetLabLaws] on which sending and allocating succeed: an
      assumption on the run, which a heap that fills up does not meet) and
      [IpMem] (ownership of buffers).  The state of these layers carries a log
      of the accesses to buffers on the heap, which no operation reads: an entry
      is the address, the number of bytes and the heap at that moment, written
      where the code copies into or out of a block or hands it to a callee.  [IpMem] proves that these layers are an
      instance of [NetDown] and, with their buffers hidden, of the heap classes,
      so that the theorems on TCP hold over them.
    - net_icmp.c: [Icmp].  net_udp.c: [Udp] and [UdpProps] (checksums, the table
      of sockets, from host to host).
    - net_ethernet.c, net_thread.c and the calls into the transports: [Stack] puts
      the layers together; [StackSafe] is about its memory, and [NetDemo] has
      concrete networks.

    Clients of the heap are verified against [KHeapLaws] only, so their
    theorems hold for the allocator of mem.c and for any other allocator with
    the same contract.

    ** Correspondence

    A C struct is a [Record] with the fields of the source, a static array a
    list indexed with [zget] and [zset], a pointer to a heap block its address
    with the block's contents beside it, and a function a [Definition] or
    [Fixpoint] of the same name from arguments and state to result and state.
    Machine integers are integers with the wrap-around of their width written
    out ([u8] to [u64], [s32], [+32], [-64], ...).  NULL pointers are [None] or 0.
    Without a bound are the field width of [vsnprintf], an int in the source,
    and the next watch descriptor of [Inotify], whose theorems bound the calls.
    A division by zero, which the processor traps, gives zero; in [Tcp] that
    would need a congestion window that wraps around to exactly zero.

    ** What the theorems show

    - Allocation: live blocks never overlap and are usable memory outside the
      allocator's tables, a request fails exactly if a size check refuses it or
      there is no room, free undoes allocate, the tables set up at boot are
      consistent ([HeapTrace], [PmmInit]).
    - Address spaces: mapping and unmapping change exactly the pages asked for,
      no frame is released before its shootdown, clones share frames
      copy-on-write, the reference count of a frame frees it with its last
      holder ([VmmProps], [VmmUnmap], [VmmClone], [VmmRef]).
    - Pipes: the ring buffer is a FIFO, byte streams arrive intact over any
      run, waiters are woken, memory is owned and returned ([PipeProps]).
    - tmpfs: the tree invariant over runs that unlink no directory with entries
      (and stay within the 32-bit sizes); exact contents of reads, writes,
      renames, listings; files unlinked while open ([TmpfsData], [TmpfsProps]).
    - Virtual filesystem: the mount of a path is the longest match, drivers only
      see handles they returned and that are not closed, path resolution
      terminates and follows symbolic links as a walk over components does
      ([VfsMount], [VfsSafe], [VfsResolve]).
    - inotify: the byte queue is a bounded queue of events, instances stay well
      formed, watch paths agree with path resolution ([InotifyQueue],
      [InotifyOps], [InotifyPaths]).
    - Pools: blocks handed out are distinct and disjoint ([Mempool]).
    - Exec image cache: under every interleaving no memory is used after it was
      freed, lost or freed twice, the table stays within its budget, and an
      image found in the cache was read after the last invalidation of its path
      ([ExecSafe]).
    - Formatted output stays within its buffer ([Printf]).
    - Users and permissions: unique names, uids and paths under any calls, the
      permission table is a map that follows renames and removals in the
      virtual filesystem, access is decided by the class of the caller, and
      what the files contain after a save and give back on a load
      ([UsersProps]).
    - TCP: segments that arrive in any order, repeated or overlapping, give the
      application the peer's stream in order, acknowledged up to what arrived
      while the connection is established; every segment is read back from
      the wire as it was sent; no frame, timer or call uses a freed connection,
      and the heap holds exactly what the connections and sockets own
      ([TcpStream], [TcpWire], [TcpSock]).  Over two hosts and a network that loses,
      repeats and reorders, the receiver reads a prefix of what the sender was
      offered ([TcpEnd]).
    - Network stack: a datagram reaches the other host once and unchanged, in one
      frame or in fragments that arrive in any order, and a UDP datagram the
      socket of its port ([IpPath], [UdpProps]); a ping is answered ([Icmp]);
      UDP sockets have ports of their own and queues in order ([UdpProps]); the
      ARP cache is a bounded map ([ArpProps]); over every sequence of frames,
      ticks and calls the layers below TCP access their buffers only while they
      are allocated and within their size, TCP follows no freed connection, and
      the layers together lose no memory ([StackSafe]).  TCP's own packet,
      retransmission and ring buffers are values with an address: that they are
      owned and freed once is proved, accesses to them are not logged.

    Some theorems state a defect of the code exactly: a page bitmap one unit
    too short, frames beyond the reference counts, directories orphaned by
    unlink, a chunk count that wraps, a mount point mounted twice, an overflow
    reported with room left, a component dropped from a watch path, a pool
    block freed twice, user files whose every second line is lost on loading
    and whose buffer overflows on saving, permissions lost in a rename of a
    path to itself.

    ** Bounds and fuel

    Loops over tables use the table's size as the source does.  The other
    loops take fuel that is shown or evident to suffice: the page scan [2 * n
    + 1] rounds for [n] pages (two passes); path resolution [VFS_SYMLOOP_MAX +
    1] times [VFS_MAX_PATH] rounds, since each round consumes a byte and each of
    at most [VFS_SYMLOOP_MAX] links refills less than [VFS_MAX_PATH] (proved in
    [VfsResolve]); reading events one round per event header that fits in the
    queue; copy loops of tmpfs and whole-file reads one round per byte, since
    each moves at least one; path walks one round per byte of the path; formats
    and the lines of the user files one round per byte.  Eviction from the exec
    cache takes one round per slot and one more.  An exec load reads in at most
    as many rounds as the file has bytes.  [tcp_send] takes one round per byte,
    since a segment has at least one, and option parsing one round per byte.
    Folding the carries of a 32-bit sum takes two rounds; fragmentation takes at
    most one round per byte; the loops over loopback frames, received frames and
    ephemeral ports have the bounds of the source (1024, 8, 16384).

    ** Not modelled

    Locks and interrupts: outside the exec cache a call of an entry point is one
    step.  That is what the code gives where one lock is held throughout; where
    a function releases its lock in between or takes none ([tcp_handle_packet],
    [ip_handle_packet], [ip_arp_resolved]), the steps of other processors and
    interrupts at that point are left out.  [pipe_trylock] is modelled with the
    state of the lock as argument.  In the exec cache the heap of the cache and the heap the
    filesystem draws on are two heaps.  Compare-and-swap loops of mem.c run
    without interference.  The console, profiling and statistics output;
    floating-point conversions of [vsnprintf].  The scheduler, system calls, program
    loading, device drivers, disk filesystems, graphics, sound, the
    desktop and user programs: they work on device registers, DMA memory or
    assembly state, or need a model of processes; where a modelled part calls
    them they are arguments (disk filesystems as operation tables, the clock,
    shmf_as_destroy, the network driver).  Of the network, IPv6, DHCP, DNS, Unix
    sockets and telnet.  The callbacks of TCP clients, the handlers of UDP ports
    and IPv6 packets are recorded as events; what they call in turn are later
    calls. *)
From stdpp Require Export base tactics numbers list list_numbers gmap strings.
From Stdlib Require Export ZArith Lia.

#[export] Set Default Goal Selector "!".
#[global] Open Scope Z_scope.

(** ** Machine integers

    A [w]-bit C integer is a [Z]; every place where the source computes at a
    fixed width writes the conversion out. *)

Declare Scope cint_scope.
Delimit Scope cint_scope with cint.

Definition u8 (x : Z) : Z := x mod 2 ^ 8.
Definition u16 (x : Z) : Z := x mod 2 ^ 16.
Definition u32 (x : Z) : Z := x mod 2 ^ 32.
Definition u64 (x : Z) : Z := x mod 2 ^ 64.
Definition s8 (x : Z) : Z := (x + 2 ^ 7) mod 2 ^ 8 - 2 ^ 7.
Definition s32 (x : Z) : Z := (x + 2 ^ 31) mod 2 ^ 32 - 2 ^ 31.
Definition s64 (x : Z) : Z := (x + 2 ^ 63) mod 2 ^ 64 - 2 ^ 63.

Notation "x '+32' y" := (u32 (x + y)) (at level 50, left associativity) : cint_scope.
Notation "x '-32' y" := (u32 (x - y)) (at level 50, left associativity) : cint_scope.
Notation "x '+64' y" := (u64 (x + y)) (at level 50, left associativity) : cint_scope.
Notation "x '-64' y" := (u64 (x - y)) (at level 50, left associativity) : cint_scope.
#[global] Open Scope cint_scope.

Definition is_u8 (x : Z) : Prop := 0 <= x < 2 ^ 8.
Definition is_u32 (x : Z) : Prop := 0 <= x < 2 ^ 32.
Definition is_u64 (x : Z) : Prop := 0 <= x < 2 ^ 64.

(** Has flag: the C test [x & m]. *)
Definition has (x m : Z) : bool := negb (Z.land x m =? 0).

Lemma u32_small x : 0 <= x < 2 ^ 32 -> u32 x = x.
Proof. intros. unfold u32. by apply Z.mod_small. Qed.
Lemma u64_small x : 0 <= x < 2 ^ 64 -> u64 x = x.
Proof. intros. unfold u64. by apply Z.mod_small. Qed.
Lemma u8_small x : 0 <= x < 2 ^ 8 -> u8 x = x.
Proof. intros. unfold u8. by apply Z.mod_small. Qed.
Lemma s32_small x : - 2 ^ 31 <= x < 2 ^ 31 -> s32 x = x.
Proof. intros. unfold s32. rewrite Z.mod_small; lia. Qed.
Lemma u32_bound x : 0 <= u32 x < 2 ^ 32.
Proof. apply Z.mod_pos_bound. lia. Qed.
Lemma u64_bound x : 0 <= u64 x < 2 ^ 64.
Proof. apply Z.mod_pos_bound. lia. Qed.
Lemma u8_bound x : 0 <= u8 x < 2 ^ 8.
Proof. apply Z.mod_pos_bound. lia. Qed.

Lemma u32_add_l x y : u32 (u32 x + y) = u32 (x + y).
Proof. unfold u32. apply Z.add_mod_idemp_l. lia. Qed.
Lemma u32_sub_l x y : u32 (u32 x - y) = u32 (x - y).
Proof. unfold u32. by rewrite Zminus_mod_idemp_l. Qed.

Create Rewrite HintDb cint.
#[export] Hint Rewrite u32_small u64_small u8_small s32_small using lia : cint.

(** Simplify in-range conversions everywhere. *)
Ltac cint := autorewrite with cint in *.

(** ** Error numbers (include/indevos_errno.h); functions return [-E]. *)

Abbreviation EPERM := 1 (only parsing).
Abbreviation ENOENT := 2 (only parsing).
Abbreviation EIO := 5 (only parsing).
Abbreviation EBADF := 9 (only parsing).
Abbreviation EAGAIN := 11 (only parsing).
Abbreviation ENOMEM := 12 (only parsing).
Abbreviation EBUSY := 16 (only parsing).
Abbreviation EEXIST := 17 (only parsing).
Abbreviation EXDEV := 18 (only parsing).
Abbreviation ENODEV := 19 (only parsing).
Abbreviation ENOTDIR := 20 (only parsing).
Abbreviation EISDIR := 21 (only parsing).
Abbreviation EINVAL := 22 (only parsing).
Abbreviation ENFILE := 23 (only parsing).
Abbreviation ENOTTY := 25 (only parsing).
Abbreviation EFBIG := 27 (only parsing).
Abbreviation ENOSPC := 28 (only parsing).
Abbreviation EROFS := 30 (only parsing).
Abbreviation EPIPE := 32 (only parsing).
Abbreviation ENAMETOOLONG := 36 (only parsing).
Abbreviation ENOSYS := 38 (only parsing).
Abbreviation ENOTEMPTY := 39 (only parsing).
Abbreviation ELOOP := 40 (only parsing).

(** ** Case analysis automation *)

(** Turn the boolean comparisons of the translated code into propositions. *)
Ltac bool_hyps :=
  repeat match goal with
  | H : (_ =? _) = true |- _ => apply Z.eqb_eq in H
  | H : (_ =? _) = false |- _ => apply Z.eqb_neq in H
  | H : (_ <? _) = true |- _ => apply Z.ltb_lt in H
  | H : (_ <? _) = false |- _ => apply Z.ltb_ge in H
  | H : (_ <=? _) = true |- _ => apply Z.leb_le in H
  | H : (_ <=? _) = false |- _ => apply Z.leb_gt in H
  | H : (_ =? _)%nat = true |- _ => apply Nat.eqb_eq in H
  | H : (_ =? _)%nat = false |- _ => apply Nat.eqb_neq in H
  | H : (_ <? _)%nat = true |- _ => apply Nat.ltb_lt in H
  | H : (_ <? _)%nat = false |- _ => apply Nat.ltb_ge in H
  | H : (_ <=? _)%nat = true |- _ => apply Nat.leb_le in H
  | H : (_ <=? _)%nat = false |- _ => apply Nat.leb_gt in H
  | H : (_ && _) = true |- _ => apply andb_true_iff in H as [? ?]
  | H : (_ || _) = false |- _ => apply orb_false_iff in H as [? ?]
  | H : negb _ = true |- _ => apply negb_true_iff in H
  | H : negb _ = false |- _ => apply negb_false_iff in H
  end.

(** Split on the innermost [if]/[match] of the goal or of a hypothesis. *)
Ltac case_if :=
  match goal with
  | |- context [if ?b then _ else _] =>
      lazymatch b with context [if _ then _ else _] => fail | _ => destruct b eqn:? end
  | H : context [if ?b then _ else _] |- _ =>
      lazymatch b with context [if _ then _ else _] => fail | _ => destruct b eqn:? end
  end.

(** ** Arrays

    A C array is a list; [zget]/[zset] index it with a machine integer.  Reads
    out of range give the default element: the invariants of the components
    show that the translated code never makes one. *)

Definition zget {A} `{Inhabited A} (l : list A) (i : Z) : A := l !!! Z.to_nat i.
Definition zset {A} (l : list A) (i : Z) (x : A) : list A := <[Z.to_nat i := x]> l.

(** Length as an integer. *)
Definition zlen {A} (l : list A) : Z := Z.of_nat (length l).

Section arrays.
Context {A : Type} `{!Inhabited A}.
Implicit Types (l : list A) (i j : Z) (x : A).

Lemma zget_zset_eq l i x : 0 <= i < zlen l -> zget (zset l i x) i = x.
Proof.
  intros ?. unfold zget, zset, zlen in *.
  apply list_lookup_total_correct, list_lookup_insert_eq. lia.
Qed.

Lemma zget_zset_ne l i j x : 0 <= i -> 0 <= j -> i <> j -> zget (zset l i x) j = zget l j.
Proof.
  intros ???. unfold zget, zset. rewrite !list_lookup_total_alt.
  rewrite list_lookup_insert_ne; [done | lia].
Qed.

Lemma zlen_zset l i x : zlen (zset l i x) = zlen l.
Proof. unfold zlen, zset. by rewrite length_insert. Qed.

Lemma zlen_nonneg l : 0 <= zlen l.
Proof. unfold zlen. lia. Qed.

Lemma zset_zget l i : 0 <= i < zlen l -> zset l i (zget l i) = l.
Proof.
  intros ?. unfold zset, zget, zlen in *. apply list_insert_id.
  apply list_lookup_lookup_total_lt. lia.
Qed.

Lemma zget_lookup l i x : l !! Z.to_nat i = Some x -> zget l i = x.
Proof. apply list_lookup_total_correct. Qed.

Lemma lookup_zget l i : 0 <= i < zlen l -> l !! Z.to_nat i = Some (zget l i).
Proof. intros ?. unfold zget, zlen in *. apply list_lookup_lookup_total_lt. lia. Qed.
End arrays.

Create Rewrite HintDb arr.
#[export] Hint Rewrite @zlen_zset @length_insert : arr.
#[export] Hint Rewrite @zget_zset_eq @zget_zset_ne using (rewrite ?zlen_zset; lia) : arr.

(** The loop [for (i = start; i < start + n; i++) a = f(i, a)]. *)
Fixpoint zfor {A} (n : nat) (i : Z) (f : Z -> A -> A) (a : A) : A :=
  match n with
  | O => a
  | S n => zfor n (i + 1) f (f i a)
  end.

(** Rule of the counting loop: an invariant indexed by the counter. *)
Lemma zfor_ind {A} (P : Z -> A -> Prop) f n i a :
  P i a ->
  (forall j b, i <= j < i + Z.of_nat n -> P j b -> P (j + 1) (f j b)) ->
  P (i + Z.of_nat n) (zfor n i f a).
Proof.
  revert i a. induction n as [|n IH]; intros i a Hi Hstep; cbn [zfor].
  - by replace (i + Z.of_nat 0) with i by lia.
  - replace (i + Z.of_nat (S n)) with (i + 1 + Z.of_nat n) by lia.
    apply IH.
    + apply Hstep; [lia | done].
    + intros j b ??. apply Hstep; [lia | done].
Qed.

(** Split conjunctions and close the arithmetic or trivial parts. *)
Ltac split_lia := repeat match goal with |- _ /\ _ => split end; try lia; try done.

(** Left folds by induction on the prefix already processed. *)
Lemma foldl_prefix_ind {A B} (P : list B -> A -> Prop) (f : A -> B -> A) a l :
  P [] a ->
  (forall pre x post acc, l = pre ++ x :: post -> P pre acc -> P (pre ++ [x]) (f acc x)) ->
  P l (foldl f a l).
Proof.
  intros H0 Hs.
  enough (forall post pre acc, l = pre ++ post -> P pre acc -> P l (foldl f acc post)) as H
    by (by apply (H l [])).
  induction post as [|x post IH]; intros pre acc Hl Hp.
  - cbn. by rewrite Hl, app_nil_r.
  - cbn. apply (IH (pre ++ [x])).
    + by rewrite <- app_assoc.
    + by eapply Hs.
Qed.

Section filters.
Context {A : Type} (P : A -> Prop) `{!forall x, Decision (P x)}.

Lemma filter_none (l : list A) : (forall x, x ∈ l -> ~ P x) -> filter P l = [].
Proof.
  induction l as [|x l IH]; intros Hn; [done|].
  rewrite filter_cons_False by (apply Hn; left). apply IH. intros y Hy. apply Hn. by right.
Qed.

Lemma filter_all (l : list A) : (forall x, x ∈ l -> P x) -> filter P l = l.
Proof.
  induction l as [|x l IH]; intros Ha; [done|].
  rewrite filter_cons_True by (apply Ha; left). f_equal. apply IH. intros y Hy. apply Ha. by right.
Qed.
End filters.

(** Extensionality for arrays. *)
Lemma zlist_eq {A} `{!Inhabited A} (l1 l2 : list A) :
  zlen l1 = zlen l2 -> (forall i, 0 <= i < zlen l1 -> zget l1 i = zget l2 i) -> l1 = l2.
Proof.
  unfold zlen, zget. intros Hlen Heq. apply list_eq_same_length with (length l2); [done | lia |].
  intros i x y Hi Hx Hy. specialize (Heq (Z.of_nat i) ltac:(lia)). rewrite Nat2Z.id in Heq.
  by rewrite (list_lookup_total_correct _ _ _ Hx), (list_lookup_total_correct _ _ _ Hy) in Heq.
Qed.

Lemma zlen_cons {A} (x : A) l : zlen (x :: l) = zlen l + 1.
Proof. unfold zlen. cbn. lia. Qed.

Lemma zlen_reverse {A} (l : list A) : zlen (reverse l) = zlen l.
Proof. unfold zlen. by rewrite length_reverse. Qed.

Lemma zlen_app {A} (l1 l2 : list A) : zlen (l1 ++ l2) = zlen l1 + zlen l2.
Proof. unfold zlen. rewrite length_app. lia. Qed.

Lemma zget_app_l {A} `{!Inhabited A} (l1 l2 : list A) i : 0 <= i < zlen l1 -> zget (l1 ++ l2) i = zget l1 i.
Proof. unfold zget, zlen. intros ?. apply lookup_total_app_l. lia. Qed.

Lemma zget_app_r {A} `{!Inhabited A} (l1 l2 : list A) i :
  zlen l1 <= i -> zget (l1 ++ l2) i = zget l2 (i - zlen l1).
Proof. unfold zget, zlen. intros ?. rewrite lookup_total_app_r by lia. f_equal. lia. Qed.

(** The first [n] elements, and the rest. *)
Definition ztake {A} (n : Z) (l : list A) : list A := take (Z.to_nat n) l.
Definition zdrop {A} (n : Z) (l : list A) : list A := drop (Z.to_nat n) l.

Lemma zlen_ztake {A} n (l : list A) : 0 <= n -> zlen (ztake n l) = Z.min n (zlen l).
Proof. unfold zlen, ztake. rewrite length_take. lia. Qed.
Lemma zlen_zdrop {A} n (l : list A) : 0 <= n -> zlen (zdrop n l) = Z.max 0 (zlen l - n).
Proof. unfold zlen, zdrop. rewrite length_drop. lia. Qed.
Lemma ztake_zdrop {A} n (l : list A) : ztake n l ++ zdrop n l = l.
Proof. apply take_drop. Qed.
Lemma zget_ztake {A} `{!Inhabited A} n (l : list A) i : 0 <= i < n -> zget (ztake n l) i = zget l i.
Proof. unfold zget, ztake. intros ?. apply lookup_total_take_lt. lia. Qed.
Lemma zget_zdrop {A} `{!Inhabited A} n (l : list A) i :
  0 <= n -> 0 <= i -> zget (zdrop n l) i = zget l (n + i).
Proof. unfold zget, zdrop. intros ??. rewrite lookup_total_drop. f_equal. lia. Qed.
Lemma ztake_all {A} n (l : list A) : zlen l <= n -> ztake n l = l.
Proof. unfold zlen, ztake. intros ?. apply take_ge. lia. Qed.
Lemma zdrop_all {A} n (l : list A) : zlen l <= n -> zdrop n l = [].
Proof. unfold zlen, zdrop. intros ?. apply drop_ge. lia. Qed.
Lemma zdrop_app_len {A} (a b : list A) : zdrop (zlen a) (a ++ b) = b.
Proof. unfold zdrop, zlen. rewrite Nat2Z.id. apply drop_app_length. Qed.
Lemma ztake_app_len {A} (a b : list A) : ztake (zlen a) (a ++ b) = a.
Proof. unfold ztake, zlen. rewrite Nat2Z.id. apply take_app_length. Qed.
Lemma zlen_nil_inv {A} (l : list A) : zlen l = 0 -> l = [].
Proof. destruct l; [done|]. unfold zlen. cbn. lia. Qed.

Lemma forallb_zget {A} `{!Inhabited A} (f : A -> bool) (l : list A) i :
  forallb f l = true -> 0 <= i < zlen l -> f (zget l i) = true.
Proof.
  rewrite forallb_forall. intros Hf Hi. apply Hf, list_elem_of_In, list_elem_of_lookup.
  exists (Z.to_nat i). by apply lookup_zget.
Qed.

(** The loop [for (j = i; j < i + n; j++) if (f(j)) return j;]. *)
Fixpoint zfind (n : nat) (i : Z) (f : Z -> bool) : option Z :=
  match n with
  | O => None
  | S n => if f i then Some i else zfind n (i + 1) f
  end.

Lemma zfind_spec n i f :
  match zfind n i f with
  | Some j => i <= j < i + Z.of_nat n /\ f j = true /\ forall k, i <= k < j -> f k = false
  | None => forall k, i <= k < i + Z.of_nat n -> f k = false
  end.
Proof.
  revert i. induction n as [|n IH]; intros i; cbn [zfind]; [intros; lia|].
  destruct (f i) eqn:E; [split_lia|]. specialize (IH (i + 1)).
  destruct (zfind n (i + 1) f) as [j|].
  - destruct IH as (Hj & Hf & Hlt). split_lia. intros k Hk. destruct (decide (k = i)) as [->|]; [done | apply Hlt; lia].
  - intros k Hk. destruct (decide (k = i)) as [->|]; [done | apply IH; lia].
Qed.

Lemma zfind_ext n i f g : (forall k, i <= k < i + Z.of_nat n -> f k = g k) -> zfind n i f = zfind n i g.
Proof.
  revert i. induction n as [|n IH]; intros i Hfg; cbn; [done|].
  rewrite Hfg by lia. destruct (g i); [done|]. apply IH. intros k Hk. apply Hfg. lia.
Qed.

(** [memcpy(l + off, d, len(d))] inside one object. *)
Definition splice {A} (l : list A) (off : Z) (d : list A) : list A := ztake off l ++ d ++ zdrop (off + zlen d) l.

Lemma zlen_splice {A} (l d : list A) off :
  0 <= off -> off + zlen d <= zlen l -> zlen (splice l off d) = zlen l.
Proof.
  intros Ho Hl. unfold splice. pose proof (Zle_0_nat (length d)). unfold zlen in *.
  rewrite !length_app. unfold ztake, zdrop. rewrite length_take, length_drop. lia.
Qed.

Lemma zget_splice {A} `{!Inhabited A} (l d : list A) off i :
  0 <= off -> off + zlen d <= zlen l -> 0 <= i < zlen l ->
  zget (splice l off d) i = if decide (off <= i < off + zlen d) then zget d (i - off) else zget l i.
Proof.
  intros Ho Hl Hi. unfold splice. pose proof (zlen_nonneg d).
  assert (zlen (ztake off l) = off) as Et by (rewrite zlen_ztake; lia).
  case_decide.
  - rewrite zget_app_r, Et, zget_app_l by lia. done.
  - destruct (decide (i < off)).
    + rewrite zget_app_l, zget_ztake by lia. done.
    + rewrite zget_app_r, Et, zget_app_r, zget_zdrop by lia. f_equal. lia.
Qed.

Lemma splice_at {A} (a r d : list A) : splice (a ++ r) (zlen a) d = a ++ d ++ zdrop (zlen d) r.
Proof.
  unfold splice. rewrite ztake_app_len. f_equal. f_equal. unfold zdrop, zlen.
  rewrite Z2Nat.inj_add, !Nat2Z.id by lia. by rewrite <- drop_drop, drop_app_length.
Qed.

(** C strings: the bytes before the terminator. *)
Definition cstr : Type := list Z.
Definition bytes_of (s : string) : cstr := (fun c => Z.of_N (Ascii.N_of_ascii c)) <$> String.list_ascii_of_string s.
(** The string that starts at these bytes. *)
Fixpoint until_nul (bytes : list Z) : cstr :=
  match bytes with
  | [] => []
  | c :: rest => if c =? 0 then [] else c :: until_nul rest
  end.

(** [kstrncpy] into an array of [n] bytes keeps at most [n - 1]. *)
Definition kstrncpy (src : cstr) (n : Z) : cstr := ztake (n - 1) src.

Definition bytes_eqb (a b : cstr) : bool := bool_decide (a = b).

(** How many [0 <= i < n] satisfy [f]. *)
Fixpoint zcount (n : nat) (f : Z -> bool) : Z :=
  match n with
  | O => 0
  | S n => zcount n f + (if f (Z.of_nat n) then 1 else 0)
  end.

Lemma zcount_ext n f g : (forall i, 0 <= i < Z.of_nat n -> f i = g i) -> zcount n f = zcount n g.
Proof.
  induction n as [|n IH]; intros Hfg; cbn; [done|]. rewrite (Hfg (Z.of_nat n)) by lia.
  rewrite IH; [done|]. intros. apply Hfg. lia.
Qed.

Lemma zcount_false n : zcount n (fun _ => false) = 0.
Proof. induction n as [|n IH]; cbn [zcount]; lia. Qed.
Lemma zcount_add n m f : zcount (n + m) f = zcount n f + zcount m (fun j => f (Z.of_nat n + j)).
Proof.
  induction m as [|m IH]; [rewrite Nat.add_0_r; cbn; lia|]. rewrite Nat.add_succ_r. cbn [zcount]. rewrite IH, Nat2Z.inj_add. lia.
Qed.

Lemma zcount_bounds n f : 0 <= zcount n f <= Z.of_nat n.
Proof. induction n as [|n IH]; cbn [zcount]; [done|]. case_match; lia. Qed.

(** Changing the value at one index. *)
Lemma zcount_change n f g i :
  0 <= i < Z.of_nat n -> (forall j, 0 <= j < Z.of_nat n -> j <> i -> g j = f j) ->
  zcount n g = zcount n f - (if f i then 1 else 0) + (if g i then 1 else 0).
Proof.
  induction n as [|n IH]; intros Hi Hoth; [lia|]. cbn [zcount].
  destruct (decide (i = Z.of_nat n)) as [->|Hne].
  - rewrite (zcount_ext n g f); [lia|]. intros j Hj. apply Hoth; lia.
  - rewrite IH by (intros; try apply Hoth; lia). rewrite (Hoth (Z.of_nat n)) by lia. lia.
Qed.

Lemma zcount_pos n f i : 0 <= i < Z.of_nat n -> f i = true -> 1 <= zcount n f.
Proof.
  induction n as [|n IH]; intros Hi Hf; [lia|]. cbn [zcount]. pose proof (zcount_bounds n f).
  destruct (decide (i = Z.of_nat n)) as [->|]; [rewrite Hf; lia|].
  specialize (IH ltac:(lia) Hf). case_match; lia.
Qed.

Lemma zcount_zero n f i : zcount n f = 0 -> 0 <= i < Z.of_nat n -> f i = false.
Proof.
  intros Hz Hi. destruct (f i) eqn:E; [|done]. pose proof (zcount_pos n f i Hi E). lia.
Qed.

(** The sum of [f i] for [0 <= i < n]. *)
Fixpoint zsum (n : nat) (f : Z -> Z) : Z :=
  match n with
  | O => 0
  | S n => zsum n f + f (Z.of_nat n)
  end.

Lemma zsum_ext n f g : (forall i, 0 <= i < Z.of_nat n -> f i = g i) -> zsum n f = zsum n g.
Proof.
  induction n as [|n IH]; intros Hfg; cbn; [done|]. rewrite (Hfg (Z.of_nat n)) by lia.
  rewrite IH; [done|]. intros. apply Hfg. lia.
Qed.

Lemma zsum_change n f g i :
  0 <= i < Z.of_nat n -> (forall j, 0 <= j < Z.of_nat n -> j <> i -> g j = f j) ->
  zsum n g = zsum n f - f i + g i.
Proof.
  induction n as [|n IH]; intros Hi Hoth; [lia|]. cbn [zsum].
  destruct (decide (i = Z.of_nat n)) as [->|Hne].
  - rewrite (zsum_ext n g f); [lia|]. intros j Hj. apply Hoth; lia.
  - rewrite IH by (intros; try apply Hoth; lia). rewrite (Hoth (Z.of_nat n)) by lia. lia.
Qed.

Lemma zsum_ge n f i : (forall j, 0 <= j < Z.of_nat n -> 0 <= f j) -> 0 <= i < Z.of_nat n -> 0 <= f i <= zsum n f.
Proof.
  assert (forall m, (forall j, 0 <= j < Z.of_nat m -> 0 <= f j) -> 0 <= zsum m f) as Hpos.
  { induction m as [|m IH]; intros Hf; cbn; [done|]. specialize (IH ltac:(intros; apply Hf; lia)).
    specialize (Hf (Z.of_nat m)). lia. }
  induction n as [|n IH]; intros Hf Hi; [lia|]. cbn [zsum].
  assert (0 <= zsum n f) by (apply Hpos; intros; apply Hf; lia). pose proof (Hf (Z.of_nat n) ltac:(lia)).
  destruct (decide (i = Z.of_nat n)) as [->|]; [lia|]. specialize (IH ltac:(intros; apply Hf; lia) ltac:(lia)). lia.
Qed.

(** Two witnesses are one when the count is one. *)
Lemma zcount_one n f i j : zcount n f = 1 -> 0 <= i < Z.of_nat n -> 0 <= j < Z.of_nat n -> f i = true -> f j = true -> i = j.
Proof.
  intros H1 Hi Hj Fi Fj. destruct (decide (i = j)) as [|Hne]; [done|].
  pose (g k := if k =? i then false else f k).
  pose proof (zcount_change n f g i Hi ltac:(intros k Hk Hki; unfold g; by rewrite (proj2 (Z.eqb_neq k i)))) as Hc.
  rewrite Fi in Hc. unfold g at 2 in Hc. rewrite Z.eqb_refl in Hc.
  assert (g j = true) as Gj by (unfold g; by rewrite (proj2 (Z.eqb_neq j i))).
  pose proof (zcount_pos n g j Hj Gj). lia.
Qed.

Lemma zfind_same n i f k : zfind n i f = Some k <->
  i <= k < i + Z.of_nat n /\ f k = true /\ forall j, i <= j < k -> f j = false.
Proof.
  pose proof (zfind_spec n i f) as Hs. split.
  - intros E. by rewrite E in Hs.
  - intros (Hk & Hf & Hlt). destruct (zfind n i f) as [j|].
    + destruct Hs as (Hj & Hfj & Hltj). f_equal. destruct (Z.lt_trichotomy j k) as [|[|]]; [|done|].
      * rewrite Hlt in Hfj by lia. done.
      * rewrite Hltj in Hf by lia. done.
    + rewrite Hs in Hf by lia. done.
Qed.
