(* ===== verification/Paths.v ===== *)
(** * Paths

    What the filesystem layers share: the flags of src/vfs.h, and paths as
    strings of bytes, split at slashes the way src/tmpfs.c and src/vfs.c walk
    them. *)
From S2P Require Import Prelude.

Definition VFS_O_READ : Z := 1.
Definition VFS_O_WRITE : Z := 2.
Definition VFS_O_CREATE : Z := 4.
Definition VFS_O_TRUNC : Z := 8.
Definition VFS_O_APPEND : Z := 16.
Definition VFS_SEEK_SET : Z := 0.
Definition VFS_SEEK_CUR : Z := 1.
Definition VFS_SEEK_END : Z := 2.
Definition VFS_SA_MODE : Z := 1.
Definition VFS_SA_OWNER : Z := 2.
Definition VFS_SA_QUIET : Z := 0x100.

(** [vfs_stat_t]. *)
Record stat := mk_stat {
  st_mode : Z; st_uid : Z; st_gid : Z; st_nlink : Z; st_blksize : Z;
  st_size : Z; st_ino : Z; st_blocks : Z; st_atime : Z; st_mtime : Z; st_ctime : Z }.

(** [while ( *p == '/') p++]. *)
Fixpoint skip_slashes (p : cstr) : cstr :=
  match p with
  | 47 :: p => skip_slashes p
  | _ => p
  end.
(** The component before the next slash, and the text from that slash on. *)
Fixpoint component (p : cstr) : cstr * cstr :=
  match p with
  | [] => ([], [])
  | c :: p' => if c =? 47 then ([], p) else let '(a, r) := component p' in (c :: a, r)
  end.

(** The pieces between slashes, and the names among them. *)
Fixpoint split_slash (p : cstr) : list cstr :=
  match p with
  | [] => [[]]
  | c :: p => if c =? 47 then [] :: split_slash p
              else match split_slash p with [] => [[c]] | w :: ws => (c :: w) :: ws end
  end.
Definition path_names (p : cstr) : list cstr := filter (fun w => w <> []) (split_slash p).
Definition ends_slash (p : cstr) : bool := match last p with Some c => c =? 47 | None => false end.

Lemma path_names_slash (p : cstr) : path_names (47 :: p) = path_names p.
Proof. done. Qed.

Lemma skip_slashes_ne c (p : cstr) : c <> 47 -> skip_slashes (c :: p) = c :: p.
Proof. intros Hne. cbn. repeat case_match; done. Qed.

Lemma path_names_skip (p : cstr) : path_names (skip_slashes p) = path_names p.
Proof. induction p as [|c p IH]; [done|]. destruct (decide (c = 47)) as [->|]; [exact IH|]. by rewrite skip_slashes_ne. Qed.

Lemma skip_slashes_app (p : cstr) : exists k, p = replicate k 47 ++ skip_slashes p.
Proof.
  induction p as [|c p (k & IH)]; [by exists O|]. destruct (decide (c = 47)) as [->|Hne].
  - exists (S k). cbn. by f_equal.
  - exists O. by rewrite skip_slashes_ne.
Qed.

Lemma skip_slashes_head (p : cstr) : match skip_slashes p with [] => True | c :: _ => c <> 47 end.
Proof.
  induction p as [|c p IH]; [done|]. destruct (decide (c = 47)) as [->|Hne]; [exact IH|].
  by rewrite skip_slashes_ne.
Qed.

Lemma component_app (p : cstr) part slash : component p = (part, slash) ->
  p = part ++ slash /\ (47 ∉ part) /\ match slash with [] => True | c :: _ => c = 47 end.
Proof.
  revert part slash. induction p as [|c p IH]; cbn; intros part slash E.
  - simplify_eq. split_and!; [done | apply not_elem_of_nil | done].
  - destruct (Z.eqb_spec c 47) as [->|Hne].
    + simplify_eq. split_and!; [done | apply not_elem_of_nil | done].
    + destruct (component p) as [a r]. injection E as <- <-. destruct (IH _ _ eq_refl) as (-> & Hn & Hs).
      split_and!; [done | | done]. intros [?|?]%elem_of_cons; [congruence | done].
Qed.

Lemma split_slash_app part slash : 47 ∉ part -> match slash with [] => True | c :: _ => c = 47 end ->
  split_slash (part ++ slash) = part :: tail (split_slash slash).
Proof.
  intros Hn Hs. induction part as [|c part IH]; cbn.
  - destruct slash as [|c slash]; [done|]. subst c. done.
  - apply not_elem_of_cons in Hn as [Hne Hn]. rewrite (proj2 (Z.eqb_neq c 47)) by done. by rewrite IH.
Qed.

Lemma path_names_app part slash : part <> [] -> 47 ∉ part -> match slash with [] => True | c :: _ => c = 47 end ->
  path_names (part ++ slash) = part :: path_names slash.
Proof.
  intros Hne Hn Hs. unfold path_names. rewrite split_slash_app by done. rewrite filter_cons_True by done. f_equal.
  destruct slash as [|c slash]; [done|]. by subst c.
Qed.

Lemma ends_slash_skip part slash : slash <> [] -> match slash with [] => True | c :: _ => c = 47 end ->
  ends_slash (part ++ slash) = match skip_slashes slash with [] => true | p => ends_slash p end.
Proof.
  intros Hne Hs. unfold ends_slash. rewrite last_app. destruct (skip_slashes_app slash) as [k E]. rewrite E at 1.
  rewrite last_app. destruct (skip_slashes slash) as [|c p] eqn:Es; [|by destruct (last (c :: p)) eqn:El; [|by apply last_None in El]].
  rewrite app_nil_r in E. cbn. destruct slash as [|c slash]; [done|]. subst c.
  destruct k as [|k]; [done|]. rewrite replicate_S_end, last_snoc. done.
Qed.

Lemma path_names_nil_skip (p : cstr) : path_names p = [] <-> skip_slashes p = [].
Proof.
  rewrite <- path_names_skip. pose proof (skip_slashes_head p) as Hh. destruct (skip_slashes p) as [|c q]; [done|].
  destruct (component (c :: q)) as [part slash] eqn:Ec. destruct (component_app _ _ _ Ec) as (E & Hn & Hs).
  assert (part <> []) as Hne by (intros ->; cbn in E; destruct slash; simplify_eq).
  rewrite E, path_names_app by done. split; [done|]. by intros [-> _]%app_nil.
Qed.

Lemma ends_slash_drop (p : cstr) : skip_slashes p <> [] -> ends_slash (skip_slashes p) = ends_slash p.
Proof.
  intros Hne. destruct (skip_slashes_app p) as [k E]. unfold ends_slash. rewrite E at 2. rewrite last_app.
  by destruct (last (skip_slashes p)) eqn:El; [|apply last_None in El].
Qed.
