(* ===== verification/Heap.v ===== *)
(** * The kernel heap as an interface

    [kalloc]/[kfree] (src/mem.c) as the other components see them: a class of
    operations over an abstract heap state and a class of laws.  Clients
    (pipes, tmpfs, page tables) are verified against the laws; Slab.v shows
    that the allocator of src/mem.c satisfies them. *)
From S2P Require Import Prelude.

(** Operations.  Pointers are 64-bit addresses, [0] is [NULL].
    [hp_pages_available] is the free-page counter
    of src/mem.c that tmpfs reads.  [heap_live h p n]: [p] points to a live block of [n] bytes. *)
Class KHeap (H : Type) := {
  hp_kalloc : Z -> H -> Z * H;
  hp_kfree : Z -> H -> H;
  hp_pages_available : H -> Z;
  heap_ok : H -> Prop;
  heap_live : H -> Z -> Z -> Prop;
}.

(** What [kalloc] and [kfree] promise. *)
Class KHeapLaws (H : Type) `{!KHeap H} := {
  live_nonnull h p n : heap_ok h -> heap_live h p n -> 0 < p < 2 ^ 64 /\ 0 < n /\ p + n <= 2 ^ 64;
  live_functional h p n m : heap_ok h -> heap_live h p n -> heap_live h p m -> n = m;
  live_disjoint h p n q m :
    heap_ok h -> heap_live h p n -> heap_live h q m -> p <> q -> p + n <= q \/ q + m <= p;
  kalloc_fail h h' n :
    heap_ok h -> 0 <= n -> hp_kalloc n h = (0, h') -> heap_ok h' /\ forall q k, heap_live h' q k <-> heap_live h q k;
  kalloc_fresh h h' n p :
    heap_ok h -> 0 <= n -> hp_kalloc n h = (p, h') -> p <> 0 ->
    heap_ok h' /\ exists m, n <= m /\ (forall k, ~ heap_live h p k) /\
      forall q k, heap_live h' q k <-> (q = p /\ k = m) \/ heap_live h q k;
  kfree_live h p n :
    heap_ok h -> heap_live h p n ->
    heap_ok (hp_kfree p h) /\ forall q k, heap_live (hp_kfree p h) q k <-> heap_live h q k /\ q <> p;
}.

Section derived.
Context {H : Type} `{KHeapLaws H}.
Implicit Types (h : H).

(** A fresh block is disjoint from every block that was live before. *)
Lemma kalloc_disjoint h h' n p q k :
  heap_ok h -> 0 <= n -> hp_kalloc n h = (p, h') -> p <> 0 -> heap_live h q k ->
  q <> p /\ exists m, heap_live h' p m /\ n <= m /\ (p + m <= q \/ q + k <= p).
Proof.
  intros Hok Hn Ha Hp Hq.
  destruct (kalloc_fresh h h' n p Hok Hn Ha Hp) as (Hok' & m & Hnm & Hfresh & Hiff).
  assert (q <> p) as Hne by (intros ->; by eapply Hfresh).
  split; [done|]. exists m.
  assert (heap_live h' p m) by (apply Hiff; by left).
  assert (heap_live h' q k) by (apply Hiff; by right).
  repeat split; [done | done |].
  destruct (live_disjoint h' p m q k); auto.
Qed.
End derived.
