(* ===== verification/Pmm.v ===== *)
(** * Physical memory manager: the page bitmap and the page allocator

    src/bitmap.h and the page layer of src/mem.c: [_kalloc_internal]
    (contiguous pages, first fit from a cursor with one wrap-around) and the
    page branch of [kfree]. *)
From S2P Require Import Prelude.

Definition PAGE_SIZE : Z := 4096.

(** ** src/bitmap.h *)

Module Bitmap.

Definition bitmap_test (bitmap : list Z) (bit : Z) : bool :=
  let byte_index := bit / 8 in
  let bit_mask := u8 (Z.shiftl 1 (bit mod 8)) in
  negb (Z.land (zget bitmap byte_index) bit_mask =? 0).

Definition bitmap_on (bitmap : list Z) (bit : Z) : list Z :=
  zset bitmap (bit / 8) (u8 (Z.lor (zget bitmap (bit / 8)) (Z.shiftl 1 (bit mod 8)))).

Definition bitmap_off (bitmap : list Z) (bit : Z) : list Z :=
  zset bitmap (bit / 8) (u8 (Z.land (zget bitmap (bit / 8)) (Z.lnot (Z.shiftl 1 (bit mod 8))))).

Lemma land_pow2_eqb x k : 0 <= k -> negb (Z.land x (2 ^ k) =? 0) = Z.testbit x k.
Proof.
  intros Hk. destruct (Z.testbit x k) eqn:E.
  - apply negb_true_iff, Z.eqb_neq. intros Hz.
    apply (f_equal (fun z => Z.testbit z k)) in Hz.
    rewrite Z.land_spec, Z.bits_0, Z.pow2_bits_true, E in Hz by done. done.
  - apply negb_false_iff, Z.eqb_eq, Z.bits_inj'. intros n Hn.
    rewrite Z.land_spec, Z.bits_0. destruct (decide (k = n)) as [->|Hne].
    + by rewrite E.
    + by rewrite Z.pow2_bits_false, andb_false_r by done.
Qed.

Lemma bitmap_test_spec bm i : 0 <= i -> bitmap_test bm i = Z.testbit (zget bm (i / 8)) (i mod 8).
Proof.
  intros Hi. unfold bitmap_test. pose proof (Z.mod_pos_bound i 8 eq_refl) as Hm.
  rewrite Z.shiftl_1_l, u8_small.
  - apply land_pow2_eqb. lia.
  - split; [lia|]. apply Z.pow_lt_mono_r; lia.
Qed.

Lemma testbit_u8 x k : 0 <= k < 8 -> Z.testbit (u8 x) k = Z.testbit x k.
Proof. intros. unfold u8. apply Z.mod_pow2_bits_low. lia. Qed.

(** Both updates act on bit [k] of the byte that holds it. *)
Lemma testbit_set_byte bm i j x :
  0 <= i < 8 * zlen bm -> 0 <= j ->
  Z.testbit (zget (zset bm (i / 8) x) (j / 8)) (j mod 8) =
  if i / 8 =? j / 8 then Z.testbit x (j mod 8) else Z.testbit (zget bm (j / 8)) (j mod 8).
Proof.
  intros Hi Hj. pose proof (Z.div_lt_upper_bound i 8 (zlen bm)).
  pose proof (Z.div_pos i 8). pose proof (Z.div_pos j 8).
  case_if; bool_hyps.
  - rewrite <- Heqb, zget_zset_eq by lia. done.
  - rewrite zget_zset_ne by lia. done.
Qed.

Lemma same_bit i j : 0 <= i -> 0 <= j -> i / 8 = j / 8 -> (i mod 8 =? j mod 8) = (i =? j).
Proof.
  intros ?? He. pose proof (Z.div_mod i 8). pose proof (Z.div_mod j 8).
  apply eq_true_iff_eq. rewrite !Z.eqb_eq. lia.
Qed.

Lemma diff_byte i j : i / 8 <> j / 8 -> (i =? j) = false.
Proof. intros Hd. apply Z.eqb_neq. congruence. Qed.

Lemma bitmap_test_on bm i j :
  0 <= i < 8 * zlen bm -> 0 <= j ->
  bitmap_test (bitmap_on bm i) j = (i =? j) || bitmap_test bm j.
Proof.
  intros Hi Hj. rewrite !bitmap_test_spec by lia. unfold bitmap_on.
  rewrite testbit_set_byte by lia.
  pose proof (Z.mod_pos_bound i 8 eq_refl). pose proof (Z.mod_pos_bound j 8 eq_refl).
  case_if; bool_hyps.
  - rewrite testbit_u8, Z.lor_spec, Z.shiftl_1_l, Z.pow2_bits_eqb, same_bit, Heqb by lia.
    by rewrite orb_comm.
  - by rewrite diff_byte.
Qed.

Lemma bitmap_test_off bm i j :
  0 <= i < 8 * zlen bm -> 0 <= j ->
  bitmap_test (bitmap_off bm i) j = negb (i =? j) && bitmap_test bm j.
Proof.
  intros Hi Hj. rewrite !bitmap_test_spec by lia. unfold bitmap_off.
  rewrite testbit_set_byte by lia.
  pose proof (Z.mod_pos_bound i 8 eq_refl). pose proof (Z.mod_pos_bound j 8 eq_refl).
  case_if; bool_hyps.
  - rewrite testbit_u8, Z.land_spec, Z.lnot_spec, Z.shiftl_1_l, Z.pow2_bits_eqb, same_bit, Heqb by lia.
    by rewrite andb_comm.
  - by rewrite diff_byte.
Qed.

Lemma zlen_bitmap_on bm i : zlen (bitmap_on bm i) = zlen bm.
Proof. apply zlen_zset. Qed.
Lemma zlen_bitmap_off bm i : zlen (bitmap_off bm i) = zlen bm.
Proof. apply zlen_zset. Qed.

#[export] Hint Rewrite zlen_bitmap_on zlen_bitmap_off : arr.

(** Number of clear bits among the first [n]. *)
Definition free_count (bm : list Z) (n : nat) : Z :=
  zlen (filter (fun i => bitmap_test bm i = false) (seqZ 0 (Z.of_nat n))).

Lemma free_count_S bm n :
  free_count bm (S n) = free_count bm n + (if bitmap_test bm (Z.of_nat n) then 0 else 1).
Proof.
  unfold free_count. rewrite seqZ_S, Z.add_0_l, filter_app. unfold zlen. rewrite length_app. cbn.
  destruct (bitmap_test bm (Z.of_nat n)) eqn:E; rewrite ?decide_True, ?decide_False by congruence; cbn; lia.
Qed.

Lemma free_count_0 bm : free_count bm 0 = 0.
Proof. done. Qed.

Lemma free_count_ext bm bm' n :
  (forall i, 0 <= i < Z.of_nat n -> bitmap_test bm i = bitmap_test bm' i) ->
  free_count bm n = free_count bm' n.
Proof.
  induction n as [|n IH]; intros Hext; [done|].
  rewrite !free_count_S, IH by (intros; apply Hext; lia).
  by rewrite Hext by lia.
Qed.

(** Clearing (setting) one bit that was set (clear) moves the count by one. *)
Lemma free_count_flip bm bm' n i :
  0 <= i < Z.of_nat n -> bitmap_test bm i = true -> bitmap_test bm' i = false ->
  (forall j, 0 <= j < Z.of_nat n -> j <> i -> bitmap_test bm j = bitmap_test bm' j) ->
  free_count bm' n = free_count bm n + 1.
Proof.
  induction n as [|n IH]; intros Hi Ht Hf Hext; [lia|].
  rewrite !free_count_S. destruct (decide (i = Z.of_nat n)) as [->|Hne].
  - rewrite Ht, Hf, (free_count_ext bm' bm); [lia|].
    intros j ?. symmetry. apply Hext; lia.
  - rewrite IH by (done || lia || (intros; apply Hext; lia)).
    rewrite (Hext (Z.of_nat n)) by lia. lia.
Qed.

Lemma free_count_bounds bm n : 0 <= free_count bm n <= Z.of_nat n.
Proof.
  induction n as [|n IH]; [rewrite free_count_0; lia|].
  rewrite free_count_S. destruct (bitmap_test bm (Z.of_nat n)); lia.
Qed.

End Bitmap.
Import Bitmap.

(** ** State of the page allocator (globals of src/mem.c) *)

Record pmm := mk_pmm {
  max_pages_available : Z;
  lowest_address : Z;
  vmm_higher_half_offset : Z;
  num_pages_in_map : Z;
  page_bitmap : list Z;
  allocation_cursor : Z;
  num_pages_available : Z;
  entry_map : list Z;        (* PageEntry.pages_allocated, one per page *)
}.

Definition set_page_bitmap (bm : list Z) (s : pmm) : pmm :=
  mk_pmm (max_pages_available s) (lowest_address s) (vmm_higher_half_offset s) (num_pages_in_map s)
    bm (allocation_cursor s) (num_pages_available s) (entry_map s).
Definition set_allocation_cursor (c : Z) (s : pmm) : pmm :=
  mk_pmm (max_pages_available s) (lowest_address s) (vmm_higher_half_offset s) (num_pages_in_map s)
    (page_bitmap s) c (num_pages_available s) (entry_map s).
Definition set_num_pages_available (n : Z) (s : pmm) : pmm :=
  mk_pmm (max_pages_available s) (lowest_address s) (vmm_higher_half_offset s) (num_pages_in_map s)
    (page_bitmap s) (allocation_cursor s) n (entry_map s).
Definition set_entry (i v : Z) (s : pmm) : pmm :=
  mk_pmm (max_pages_available s) (lowest_address s) (vmm_higher_half_offset s) (num_pages_in_map s)
    (page_bitmap s) (allocation_cursor s) (num_pages_available s) (zset (entry_map s) i v).
Definition entry (s : pmm) (i : Z) : Z := zget (entry_map s) i.

Definition DIV_ROUNDUP (x y : Z) : Z := u64 (x + y - 1) / y.

(** ** Addresses and pages *)

Definition _get_addr_from_page (s : pmm) (page : Z) : Z :=
  u64 (lowest_address s + page * PAGE_SIZE + vmm_higher_half_offset s).

Definition _get_page_from_addr (s : pmm) (addr : Z) : Z :=
  u64 (addr - lowest_address s - vmm_higher_half_offset s) / PAGE_SIZE.

(** [_reserve_pages] *)
Definition _reserve_pages (startPage pages : Z) (bm : list Z) : list Z :=
  zfor (Z.to_nat pages) startPage (fun i b => bitmap_on b i) bm.

(** ** The allocation loop of [_kalloc_internal]

    Outcome of the scan: [Found start cursor], [Exhausted] (the loop broke
    after its second pass) or [OutOfFuel]. *)
Inductive scan_result := Found (start cursor : Z) | Exhausted | OutOfFuel.

(** The body of the loop up to the size test: the page at [cursor] starts,
    extends or breaks the current run. *)
Definition scan_page (page_state : bool) (cursor start_alloc_page allocated_pages : Z)
    (allocating : bool) : Z * Z * bool :=
  if negb allocating then
    if negb page_state then (cursor, 1, true)
    else (start_alloc_page, allocated_pages, allocating)
  else
    if page_state then (start_alloc_page, allocated_pages, false)
    else (start_alloc_page, allocated_pages +64 1, allocating).

Fixpoint alloc_scan (fuel : nat) (bm : list Z) (num_pages pages_to_alloc reset_value : Z)
    (cursor start_alloc_page allocated_pages : Z) (looped allocating : bool) : scan_result :=
  match fuel with
  | O => OutOfFuel
  | S fuel =>
      let page_state := bitmap_test bm cursor in
      let '(start_alloc_page, allocated_pages, allocating) :=
        scan_page page_state cursor start_alloc_page allocated_pages allocating in
      if allocated_pages =? pages_to_alloc then Found start_alloc_page cursor
      else
        let cursor := cursor +64 1 in
        if num_pages <=? cursor then
          if looped then Exhausted
          else alloc_scan fuel bm num_pages pages_to_alloc reset_value
                 reset_value start_alloc_page allocated_pages true false
        else alloc_scan fuel bm num_pages pages_to_alloc reset_value
               cursor start_alloc_page allocated_pages looped allocating
  end.

(** Two passes over the map visit at most [2 * num_pages] pages. *)
Definition scan_fuel (s : pmm) : nat := Z.to_nat (2 * num_pages_in_map s + 1).

(** What a successful scan writes back: the cursor moves past the block, its
    pages are reserved and its first entry records its size. *)
Definition commit_alloc (s : pmm) (use_global_cursor : bool)
    (start_alloc_page cursor allocated_pages : Z) : pmm :=
  let c := cursor +64 1 in
  let c := if num_pages_in_map s <=? c then 0 else c in
  let s := if use_global_cursor then set_allocation_cursor c s else s in
  let s := set_page_bitmap (_reserve_pages start_alloc_page allocated_pages (page_bitmap s)) s in
  let s := set_entry start_alloc_page (u32 allocated_pages) s in
  set_num_pages_available (num_pages_available s -64 allocated_pages) s.

(** [_kalloc_internal]: the address of the block, or [0]. *)
Definition _kalloc_internal (numBytes start_page : Z) (use_global_cursor : bool) (s : pmm) : Z * pmm :=
  if numBytes =? 0 then (0, s)
  else if (2 ^ 64 - 1) / 2 <? numBytes then (0, s)
  else
    let pages_to_alloc := DIV_ROUNDUP numBytes PAGE_SIZE in
    if max_pages_available s =? 0 then (0, s)
    else if max_pages_available s / 4 <? pages_to_alloc then (0, s)
    else
      let cursor := if use_global_cursor then allocation_cursor s else start_page in
      match alloc_scan (scan_fuel s) (page_bitmap s) (num_pages_in_map s) pages_to_alloc
              start_page cursor 0 0 false false with
      | Found start cursor =>
          let s := commit_alloc s use_global_cursor start cursor pages_to_alloc in
          (_get_addr_from_page s start, s)
      | Exhausted | OutOfFuel => (0, s)
      end.

(** [kfree] once the page index is known and the page is not a slab page. *)
Definition kfree_pages (page_index : Z) (s : pmm) : pmm :=
  if num_pages_in_map s <=? page_index then s
  else if entry s page_index =? 0 then s
  else
    let pages_to_free := entry s page_index in
    if num_pages_in_map s <? page_index +64 pages_to_free then s
    else
      let s := set_page_bitmap
                 (zfor (Z.to_nat pages_to_free) page_index (fun i b => bitmap_off b i) (page_bitmap s)) s in
      let s := set_entry page_index 0 s in
      set_num_pages_available (num_pages_available s +64 pages_to_free) s.

(** [kalloc_high]: blocks above 1 MiB, with a local cursor. *)
Definition kalloc_high (numBytes : Z) (s : pmm) : Z * pmm :=
  let one_mb_page := (0x100000 -64 lowest_address s) / PAGE_SIZE in
  _kalloc_internal numBytes one_mb_page false s.

(** ** Correctness of the scan *)

(** [n] free pages from [s] on, inside the map. *)
Definition free_run (bm : list Z) (np s n : Z) : Prop :=
  0 <= s /\ s + n <= np /\ forall i, s <= i < s + n -> bitmap_test bm i = false.

Section scan.
Context (bm : list Z) (np n reset : Z).
Context (Hn : 0 < n) (Hnp : np < 2 ^ 63) (Hreset : 0 <= reset < np).

(** State of the loop at [cursor] (equal to [np] only between iterations). *)
Record scan_inv (cursor start allocated : Z) (looped allocating : bool) : Prop := {
  si_cursor : 0 <= cursor <= np;
  si_alloc : 0 <= allocated < n;
  si_run : allocating = true ->
    0 <= start /\ allocated = cursor - start /\ 0 < allocated /\
    forall i, start <= i < cursor -> bitmap_test bm i = false;
  si_none : looped = true -> reset <= cursor /\
    (allocating = true -> reset <= start) /\
    forall s, reset <= s < (if allocating then start else cursor) -> ~ free_run bm np s n;
}.

Lemma taken_no_run i s : bitmap_test bm i = true -> s <= i < s + n -> ~ free_run bm np s n.
Proof. intros Ht Hi (_ & _ & Hrun). rewrite Hrun in Ht by lia. done. Qed.

(** One page: either the run is complete, or the invariant holds at the next. *)
Lemma scan_page_inv cursor start allocated looped allocating :
  scan_inv cursor start allocated looped allocating -> cursor < np ->
  let '(start', allocated', allocating') :=
    scan_page (bitmap_test bm cursor) cursor start allocated allocating in
  (allocated' = n -> free_run bm np start' n /\ cursor = start' + n - 1) /\
  (allocated' <> n -> scan_inv (cursor + 1) start' allocated' looped allocating').
Proof.
  intros [Hc Ha Hr Hl] Hlt. unfold scan_page.
  destruct allocating; destruct (bitmap_test bm cursor) eqn:Hbit; cbn [negb];
    try (destruct (Hr eq_refl) as (? & ? & ? & Hrun)); cint.
  - split; [lia|]. intros _. split; [lia | lia | done |].
    intros Hlp. destruct (Hl Hlp) as (? & Hrs & Hno). specialize (Hrs eq_refl).
    repeat split; [lia | done |]. intros s Hs.
    destruct (decide (s < start)); [apply Hno; lia | eapply taken_no_run; [exact Hbit | lia]].
  - assert (forall i, start <= i < cursor + 1 -> bitmap_test bm i = false) as Hrun'.
    { intros i ?. destruct (decide (i = cursor)) as [->|]; [done | apply Hrun; lia]. }
    split.
    + intros He. split; [|lia]. split; [lia|]. split; [lia|]. intros i ?. apply Hrun'. lia.
    + intros Hne. split; [lia | lia | intros _; repeat split; [lia.. | done] |].
      intros Hlp. destruct (Hl Hlp) as (? & Hrs & Hno). repeat split; [lia | auto | done].
  - split; [lia|]. intros _. split; [lia | lia | done |].
    intros Hlp. destruct (Hl Hlp) as (? & _ & Hno). repeat split; [lia | done |].
    intros s Hs. destruct (decide (s < cursor)); [apply Hno; lia | eapply taken_no_run; [exact Hbit | lia]].
  - split.
    + intros He. split; [|lia]. split; [lia|]. split; [lia|].
      intros i ?. by replace i with cursor by lia.
    + intros Hne. split; [lia | lia | intros _; repeat split; [lia.. |] |].
      * intros i ?. by replace i with cursor by lia.
      * intros Hlp. destruct (Hl Hlp) as (? & _ & Hno). repeat split; [lia | lia | done].
Qed.

(** The end of the map: no run can start in what is left. *)
Lemma scan_inv_end cursor start allocated allocating :
  scan_inv cursor start allocated true allocating -> np <= cursor ->
  forall s, reset <= s -> ~ free_run bm np s n.
Proof.
  intros [Hc Ha Hr Hl] Hend s Hs Hrun. destruct (Hl eq_refl) as (? & ? & Hno).
  destruct Hrun as (? & ? & ?) eqn:Erun. clear Erun.
  destruct allocating.
  - destruct (Hr eq_refl) as (? & ? & ? & _).
    apply (Hno s); [lia | by repeat split].
  - apply (Hno s); [lia | by repeat split].
Qed.

(** Pages still to visit. *)
Definition scan_measure (cursor : Z) (looped : bool) : Z :=
  np - cursor + (if looped then 0 else np).

(** Enough fuel is never exhausted; a block found is a free run; giving up
    means no free run starts at or after [reset]. *)
Lemma alloc_scan_spec fuel cursor start allocated looped allocating :
  scan_inv cursor start allocated looped allocating -> cursor < np ->
  scan_measure cursor looped < Z.of_nat fuel ->
  match alloc_scan fuel bm np n reset cursor start allocated looped allocating with
  | Found s c => free_run bm np s n /\ c = s + n - 1
  | Exhausted => forall s, reset <= s -> ~ free_run bm np s n
  | OutOfFuel => False
  end.
Proof.
  revert cursor start allocated looped allocating.
  induction fuel as [|fuel IH]; intros cursor start allocated looped allocating Hinv Hlt Hfuel.
  { unfold scan_measure in Hfuel. destruct looped; lia. }
  pose proof (scan_page_inv _ _ _ _ _ Hinv Hlt) as Hstep. cbn [alloc_scan].
  destruct Hinv as [Hc _ _ _].
  destruct (scan_page _ _ _ _ _) as [[start' allocated'] allocating'].
  destruct Hstep as [Hfound Hnext]. unfold scan_measure in *.
  case_if; bool_hyps; [auto|]. cint. specialize (Hnext ltac:(lia)).
  case_if; bool_hyps.
  - destruct looped; [by eapply scan_inv_end |].
    apply IH; [| lia | lia]. destruct Hnext as [_ ? _ _].
    split; [lia | done | done |]. intros _. repeat split; [lia | done | intros; lia].
  - apply IH; [done | lia | destruct looped; lia].
Qed.
End scan.

(** ** Ranges of bits *)

Definition in_range (a n j : Z) : bool := (a <=? j) && (j <? a + n).

Lemma in_range_spec a n j : in_range a n j = true <-> a <= j < a + n.
Proof. unfold in_range. rewrite andb_true_iff, Z.leb_le, Z.ltb_lt. lia. Qed.

Lemma in_range_false a n j : in_range a n j = false <-> ~ (a <= j < a + n).
Proof. rewrite <- in_range_spec. destruct (in_range a n j); intuition congruence. Qed.

Lemma in_range_succ a j k : a <= k -> in_range a (k + 1 - a) j = in_range a (k - a) j || (k =? j).
Proof.
  intros ?. apply eq_true_iff_eq.
  rewrite orb_true_iff, !in_range_spec, Z.eqb_eq. lia.
Qed.

Lemma in_range_empty a j : in_range a 0 j = false.
Proof. apply in_range_false. lia. Qed.

Section ranges.
Context (bm : list Z) (a n : Z) (Ha : 0 <= a) (Hn : 0 <= n) (Hlen : a + n <= 8 * zlen bm).

Lemma zlen_reserve_pages : zlen (_reserve_pages a n bm) = zlen bm.
Proof.
  apply (zfor_ind (fun _ b => zlen b = zlen bm)); [done|].
  intros j b _ <-. apply zlen_bitmap_on.
Qed.

Lemma test_reserve_pages j :
  0 <= j -> bitmap_test (_reserve_pages a n bm) j = in_range a n j || bitmap_test bm j.
Proof.
  intros Hj.
  pose proof (zfor_ind (fun k b => zlen b = zlen bm /\
    bitmap_test b j = in_range a (k - a) j || bitmap_test bm j)
    (fun i b => bitmap_on b i) (Z.to_nat n) a bm) as H.
  destruct H as [_ H].
  - split; [done|]. by rewrite Z.sub_diag, in_range_empty.
  - intros k b Hk [Hl Hb]. rewrite zlen_bitmap_on, bitmap_test_on, Hb, in_range_succ by lia.
    split; [done|]. by destruct (k =? j), (in_range a (k - a) j).
  - unfold _reserve_pages. rewrite H. do 2 f_equal. lia.
Qed.

(** The loop of [kfree]. *)
Definition release_pages : list Z := zfor (Z.to_nat n) a (fun i b => bitmap_off b i) bm.

Lemma zlen_release_pages : zlen release_pages = zlen bm.
Proof.
  apply (zfor_ind (fun _ b => zlen b = zlen bm)); [done|].
  intros j b _ <-. apply zlen_bitmap_off.
Qed.

Lemma test_release_pages j :
  0 <= j -> bitmap_test release_pages j = negb (in_range a n j) && bitmap_test bm j.
Proof.
  intros Hj.
  pose proof (zfor_ind (fun k b => zlen b = zlen bm /\
    bitmap_test b j = negb (in_range a (k - a) j) && bitmap_test bm j)
    (fun i b => bitmap_off b i) (Z.to_nat n) a bm) as H.
  destruct H as [_ H].
  - split; [done|]. by rewrite Z.sub_diag, in_range_empty.
  - intros k b Hk [Hl Hb]. rewrite zlen_bitmap_off, bitmap_test_off, Hb, in_range_succ by lia.
    split; [done|]. by destruct (k =? j), (in_range a (k - a) j).
  - unfold release_pages. rewrite H. do 3 f_equal. lia.
Qed.
End ranges.

(** Freeing a range of taken bits, one bit at a time, on the level of tests. *)
Lemma free_count_range bm bm' np a n :
  0 <= a -> 0 <= n -> a + n <= Z.of_nat np ->
  (forall j, a <= j < a + n -> bitmap_test bm j = true) ->
  (forall j, 0 <= j < Z.of_nat np -> bitmap_test bm' j = negb (in_range a n j) && bitmap_test bm j) ->
  free_count bm' np = free_count bm np + n.
Proof.
  intros Ha Hn Hlen Htaken Htest.
  induction np as [|np IH] in n, Hn, Hlen, Htaken, Htest |- *.
  { rewrite !free_count_0. lia. }
  rewrite !free_count_S, Htest by lia.
  destruct (decide (a + n <= Z.of_nat np)).
  - rewrite (IH n) by (done || lia || (intros; apply Htest; lia)).
    rewrite (proj2 (in_range_false a n (Z.of_nat np))) by lia. cbn. lia.
  - destruct (decide (n = 0)) as [->|].
    + rewrite (free_count_ext bm' bm), in_range_empty.
      * cbn. lia.
      * intros j ?. rewrite Htest, in_range_empty by lia. done.
    + rewrite (IH (n - 1)) by (lia || (intros; apply Htaken; lia) ||
        (intros j ?; rewrite Htest by lia; f_equal; f_equal;
         apply eq_true_iff_eq; rewrite !in_range_spec; lia)).
      rewrite Htaken, (proj2 (in_range_spec a n (Z.of_nat np))) by lia. cbn. lia.
Qed.

(** ** Invariant of the page allocator *)

Definition SLAB_TAG : Z := 2 ^ 31.

(** Pages owned by an entry: a tagged entry is a single slab page. *)
Definition span (e : Z) : Z := if e <? SLAB_TAG then e else 1.

Record pmm_ok (s : pmm) : Prop := {
  ok_np : 0 < num_pages_in_map s < 2 ^ 31;
  ok_bitmap : num_pages_in_map s <= 8 * zlen (page_bitmap s);
  ok_entries : num_pages_in_map s <= zlen (entry_map s);
  ok_cursor : 0 <= allocation_cursor s < num_pages_in_map s;
  ok_max : 0 <= max_pages_available s;
  ok_base : 0 < lowest_address s + vmm_higher_half_offset s;
  ok_align : (lowest_address s + vmm_higher_half_offset s) mod PAGE_SIZE = 0;
  ok_top : lowest_address s + vmm_higher_half_offset s + num_pages_in_map s * PAGE_SIZE <= 2 ^ 64;
  ok_avail : num_pages_available s = free_count (page_bitmap s) (Z.to_nat (num_pages_in_map s));
  ok_entry : forall i, 0 <= i < num_pages_in_map s ->
    0 <= entry s i < 2 ^ 32 /\ i + span (entry s i) <= num_pages_in_map s /\
    (forall j, i <= j < i + span (entry s i) -> bitmap_test (page_bitmap s) j = true) /\
    (forall j, i < j < i + span (entry s i) -> entry s j = 0);
}.

(** Page [i] is the first page of a live allocation of [n] pages. *)
Definition block (s : pmm) (i n : Z) : Prop :=
  0 <= i < num_pages_in_map s /\ entry s i <> 0 /\ n = span (entry s i).

Section blocks.
Context (s : pmm) (Hok : pmm_ok s).

Lemma span_pos e : 0 <= e -> e <> 0 -> 0 < span e.
Proof. intros ??. unfold span. case_if; lia. Qed.

Lemma block_bounds i n : block s i n -> 0 < n /\ 0 <= i /\ i + n <= num_pages_in_map s.
Proof.
  intros (Hi & He & ->). destruct (ok_entry s Hok i Hi) as (? & ? & _).
  split; [apply span_pos; lia | lia].
Qed.

Lemma block_taken i n j : block s i n -> i <= j < i + n -> bitmap_test (page_bitmap s) j = true.
Proof. intros (Hi & He & ->) Hj. destruct (ok_entry s Hok i Hi) as (_ & _ & Ht & _). by apply Ht. Qed.

(** Live page allocations do not overlap. *)
Lemma blocks_disjoint i n j m : block s i n -> block s j m -> i <> j -> i + n <= j \/ j + m <= i.
Proof.
  intros (Hi & Hei & ->) (Hj & Hej & ->) Hne.
  destruct (ok_entry s Hok i Hi) as (_ & _ & _ & Hzi).
  destruct (ok_entry s Hok j Hj) as (_ & _ & _ & Hzj).
  destruct (decide (i < j)).
  - left. destruct (decide (i + span (entry s i) <= j)); [done|]. destruct Hej. apply Hzi. lia.
  - right. destruct (decide (j + span (entry s j) <= i)); [done|]. destruct Hei. apply Hzj. lia.
Qed.

Lemma free_entry_0 i :
  0 <= i < num_pages_in_map s -> bitmap_test (page_bitmap s) i = false -> entry s i = 0.
Proof.
  intros Hi Hf. destruct (decide (entry s i = 0)) as [|He]; [done|].
  assert (block s i (span (entry s i))) as Hb by (repeat split; lia || done).
  pose proof (block_bounds _ _ Hb). rewrite (block_taken _ _ i Hb) in Hf by lia. done.
Qed.
End blocks.

(** Address of page [i], without the machine arithmetic. *)
Definition page_addr (s : pmm) (i : Z) : Z :=
  lowest_address s + vmm_higher_half_offset s + i * PAGE_SIZE.

Lemma get_addr_exact s i :
  pmm_ok s -> 0 <= i < num_pages_in_map s -> _get_addr_from_page s i = page_addr s i.
Proof.
  intros Hok Hi. pose proof (ok_base s Hok). pose proof (ok_top s Hok).
  unfold _get_addr_from_page, page_addr, PAGE_SIZE in *. rewrite u64_small; lia.
Qed.

(** Every address inside page [i] maps back to [i]. *)
Lemma get_page_exact s i off :
  pmm_ok s -> 0 <= i < num_pages_in_map s -> 0 <= off < PAGE_SIZE ->
  _get_page_from_addr s (page_addr s i + off) = i.
Proof.
  intros Hok Hi Hoff. pose proof (ok_base s Hok). pose proof (ok_top s Hok).
  unfold _get_page_from_addr, page_addr, PAGE_SIZE in *.
  rewrite u64_small by lia. symmetry. apply Z.div_unique with off; lia.
Qed.

Lemma page_addr_pos s i : pmm_ok s -> 0 <= i -> 0 < page_addr s i.
Proof. intros Hok ?. pose proof (ok_base s Hok). unfold page_addr, PAGE_SIZE. lia. Qed.

Lemma page_addr_align s i : pmm_ok s -> page_addr s i mod PAGE_SIZE = 0.
Proof. intros Hok. unfold page_addr. rewrite Z.mod_add by done. by apply ok_align. Qed.

(** The parts of the state the allocator never changes. *)
Definition same_layout (s s' : pmm) : Prop :=
  max_pages_available s' = max_pages_available s /\ lowest_address s' = lowest_address s /\
  vmm_higher_half_offset s' = vmm_higher_half_offset s /\ num_pages_in_map s' = num_pages_in_map s /\
  zlen (page_bitmap s') = zlen (page_bitmap s) /\ zlen (entry_map s') = zlen (entry_map s).

#[global] Instance same_layout_refl : Reflexive same_layout.
Proof. intros s. by repeat split. Qed.
#[global] Instance same_layout_trans : Transitive same_layout.
Proof. intros s1 s2 s3 (? & ? & ? & ? & ? & ?) (? & ? & ? & ? & ? & ?). repeat split; congruence. Qed.

Lemma same_layout_addr s s' i : same_layout s s' -> page_addr s' i = page_addr s i.
Proof. intros (? & ? & ? & _). unfold page_addr. congruence. Qed.

(** ** Allocation and release of page runs, abstractly

    [s'] is [s] with the free pages [i .. i+k) turned into one block whose
    entry is [v]. *)
Record takes (s s' : pmm) (i k v : Z) : Prop := {
  tk_layout : same_layout s s';
  tk_cursor : 0 <= allocation_cursor s' < num_pages_in_map s;
  tk_bits : forall j, 0 <= j -> bitmap_test (page_bitmap s') j = in_range i k j || bitmap_test (page_bitmap s) j;
  tk_entry : entry s' i = v;
  tk_other : forall j, 0 <= j -> j <> i -> entry s' j = entry s j;
  tk_avail : num_pages_available s' = num_pages_available s - k;
}.

Lemma takes_ok s s' i k v :
  pmm_ok s -> free_run (page_bitmap s) (num_pages_in_map s) i k -> 0 < k ->
  0 <= v < 2 ^ 32 -> span v = k -> takes s s' i k v -> pmm_ok s'.
Proof.
  intros Hok (Hi0 & Hik & Hfree) Hk Hv Hsp [Hlay Hcur Hbits He Hoth Hav].
  pose proof Hlay as (HL1 & HL2 & HL3 & HL4 & HL5 & HL6).
  split; rewrite ?HL1, ?HL2, ?HL3, ?HL4, ?HL5, ?HL6; try apply Hok; try done.
  - rewrite Hav, (ok_avail s Hok).
    rewrite (free_count_range (page_bitmap s') (page_bitmap s) _ i k); [lia | lia.. | |].
    + intros j ?. rewrite Hbits, (proj2 (in_range_spec i k j)) by lia. done.
    + intros j ?. rewrite Hbits by lia. destruct (in_range i k j) eqn:E; [|done].
      apply in_range_spec in E. cbn. apply Hfree. lia.
  - intros j Hj. destruct (decide (j = i)) as [->|Hne].
    + rewrite He, Hsp. split; [lia|]. split; [lia|]. split.
      * intros l ?. rewrite Hbits, (proj2 (in_range_spec i k l)) by lia. done.
      * intros l ?. rewrite Hoth by lia. apply (free_entry_0 s Hok); [lia | apply Hfree; lia].
    + rewrite Hoth by lia. destruct (ok_entry s Hok j Hj) as (? & ? & Ht & Hz).
      split; [lia|]. split; [lia|]. split.
      * intros l ?. rewrite Hbits, Ht by lia. apply orb_true_r.
      * intros l ?. destruct (decide (l = i)) as [->|]; [|rewrite Hoth by lia; apply Hz; lia].
        assert (bitmap_test (page_bitmap s) i = true) as Hti by (apply Ht; lia).
        rewrite Hfree in Hti by lia. done.
Qed.

Lemma takes_blocks s s' i k v :
  pmm_ok s -> free_run (page_bitmap s) (num_pages_in_map s) i k -> 0 < k ->
  0 <= v -> span v = k -> takes s s' i k v ->
  forall j n, block s' j n <-> (j = i /\ n = k) \/ block s j n.
Proof.
  intros Hok (Hi0 & Hik & Hfree) Hk Hv Hsp [Hlay Hcur Hbits He Hoth Hav] j n.
  destruct Hlay as (_ & _ & _ & Hnp & _ & _).
  assert (entry s i = 0) as Hz by (apply (free_entry_0 s Hok); [lia | apply Hfree; lia]).
  assert (v <> 0) by (intros ->; change (span 0) with 0 in Hsp; lia).
  unfold block. rewrite Hnp. split.
  - intros (Hj & Hej & ->). destruct (decide (j = i)) as [->|]; [left; by rewrite He|].
    right. rewrite Hoth in * by lia. by split_lia.
  - intros [[-> ->] | (Hj & Hej & ->)].
    + rewrite He. repeat split; lia.
    + assert (j <> i) by (intros ->; lia). rewrite Hoth by lia. by split_lia.
Qed.

(** [s'] is [s] with the block at page [i] given back. *)
Record gives (s s' : pmm) (i k : Z) : Prop := {
  gv_layout : same_layout s s';
  gv_cursor : allocation_cursor s' = allocation_cursor s;
  gv_bits : forall j, 0 <= j -> bitmap_test (page_bitmap s') j = negb (in_range i k j) && bitmap_test (page_bitmap s) j;
  gv_entry : entry s' i = 0;
  gv_other : forall j, 0 <= j -> j <> i -> entry s' j = entry s j;
  gv_avail : num_pages_available s' = num_pages_available s + k;
}.

Lemma gives_ok s s' i k : pmm_ok s -> block s i k -> gives s s' i k -> pmm_ok s'.
Proof.
  intros Hok Hb [Hlay Hcur Hbits He Hoth Hav].
  pose proof Hlay as (HL1 & HL2 & HL3 & HL4 & HL5 & HL6).
  pose proof (block_bounds s Hok i k Hb) as (Hk & Hi & Hik).
  split; rewrite ?HL1, ?HL2, ?HL3, ?HL4, ?HL5, ?HL6, ?Hcur; try apply Hok.
  - rewrite Hav, (ok_avail s Hok).
    rewrite (free_count_range (page_bitmap s) (page_bitmap s') _ i k); [lia | lia.. | |].
    + intros j ?. by apply (block_taken s Hok i k).
    + intros j ?. apply Hbits. lia.
  - intros j Hj. destruct (decide (j = i)) as [->|Hne].
    + rewrite He. change (span 0) with 0. split; [lia|]. split; [lia|]. split; intros; lia.
    + rewrite Hoth by lia. destruct (ok_entry s Hok j Hj) as (? & ? & Ht & Hz).
      split; [lia|]. split; [lia|]. split.
      * intros l ?. rewrite Hbits, Ht, andb_true_r by lia. apply negb_true_iff, in_range_false. intros Hl.
        destruct (decide (entry s j = 0)) as [Hj0|Hj0].
        { rewrite Hj0 in *. change (span 0) with 0 in *. lia. }
        destruct (blocks_disjoint s Hok i k j (span (entry s j))); [done | by split_lia | done | lia..].
      * intros l ?. destruct (decide (l = i)) as [->|]; [done | rewrite Hoth by lia; apply Hz; lia].
Qed.

Lemma gives_blocks s s' i k :
  gives s s' i k -> 0 <= i -> forall j n, block s' j n <-> block s j n /\ j <> i.
Proof.
  intros [Hlay Hcur Hbits He Hoth Hav] Hi j n. destruct Hlay as (_ & _ & _ & Hnp & _ & _).
  unfold block. rewrite Hnp. destruct (decide (j = i)) as [->|Hne].
  - rewrite He. naive_solver.
  - split.
    + intros (Hj & Hej & ->). rewrite Hoth in * by lia. by split_lia.
    + intros [(Hj & Hej & ->) _]. rewrite Hoth by lia. by split_lia.
Qed.

(** ** Specification of the allocator *)

(** Number of pages requested. *)
Definition pages_for (numBytes : Z) : Z := (numBytes + PAGE_SIZE - 1) / PAGE_SIZE.

Lemma pages_for_pos n : 0 < n -> 0 < pages_for n /\ n <= pages_for n * PAGE_SIZE.
Proof.
  intros Hn. unfold pages_for, PAGE_SIZE.
  pose proof (Z.div_mod (n + 4096 - 1) 4096). pose proof (Z.mod_pos_bound (n + 4096 - 1) 4096). lia.
Qed.

(** The request passes the size checks. *)
Definition size_ok (s : pmm) (numBytes : Z) : Prop :=
  0 < numBytes <= (2 ^ 64 - 1) / 2 /\ max_pages_available s <> 0 /\
  pages_for numBytes <= max_pages_available s / 4.

Lemma commit_alloc_takes s glob i k :
  pmm_ok s -> free_run (page_bitmap s) (num_pages_in_map s) i k -> 0 < k ->
  takes s (commit_alloc s glob i (i + k - 1) k) i k k.
Proof.
  intros Hok (Hi & Hik & Hfree) Hk.
  pose proof (ok_np s Hok). pose proof (ok_bitmap s Hok). pose proof (ok_entries s Hok).
  pose proof (ok_cursor s Hok). unfold commit_alloc.
  split.
  - destruct glob; cbn; unfold same_layout; cbn; rewrite zlen_reserve_pages, zlen_zset by lia; done.
  - destruct glob; cbn; [|lia]. rewrite u64_small by lia. case_if; bool_hyps; lia.
  - intros j Hj. destruct glob; cbn; apply test_reserve_pages; lia.
  - unfold entry. destruct glob; cbn; rewrite zget_zset_eq, u32_small by lia; done.
  - intros j Hj Hne. unfold entry. destruct glob; cbn; rewrite zget_zset_ne by lia; done.
  - pose proof (free_count_range (_reserve_pages i k (page_bitmap s)) (page_bitmap s)
      (Z.to_nat (num_pages_in_map s)) i k) as Hc.
    pose proof (free_count_bounds (_reserve_pages i k (page_bitmap s)) (Z.to_nat (num_pages_in_map s))).
    pose proof (free_count_bounds (page_bitmap s) (Z.to_nat (num_pages_in_map s))).
    pose proof (ok_avail s Hok).
    assert (free_count (page_bitmap s) (Z.to_nat (num_pages_in_map s)) =
      free_count (_reserve_pages i k (page_bitmap s)) (Z.to_nat (num_pages_in_map s)) + k).
    { apply Hc; [lia.. | |]; intros j ?; rewrite test_reserve_pages by lia.
      - by rewrite (proj2 (in_range_spec i k j)) by lia.
      - destruct (in_range i k j) eqn:E; [|done]. apply in_range_spec in E. cbn. apply Hfree. lia. }
    destruct glob; cbn; rewrite u64_small; lia.
Qed.

(** The scan never looks below the cursor it starts from and the page it wraps to. *)
Lemma alloc_scan_above lo fuel bm np k reset cursor start alloc looped allocating st cur :
  0 <= lo -> np < 2 ^ 63 -> 0 < k -> lo <= reset < np -> lo <= cursor < np ->
  (alloc = 0 /\ allocating = false) \/ lo <= start ->
  alloc_scan fuel bm np k reset cursor start alloc looped allocating = Found st cur -> lo <= st.
Proof.
  intros Hlo Hnp Hk Hr. revert cursor start alloc looped allocating.
  induction fuel as [|fuel IH]; intros cursor start alloc looped allocating Hc Hs Hf; [done|].
  cbn [alloc_scan] in Hf. destruct (scan_page _ _ _ _ _) as [[start' alloc'] allocating'] eqn:Hp.
  assert ((alloc' = 0 /\ allocating' = false) \/ lo <= start') as Hs'.
  { unfold scan_page in Hp. destruct allocating, (bitmap_test bm cursor); cbn in Hp; simplify_eq; intuition; lia. }
  case_if; bool_hyps; [simplify_eq; lia|]. rewrite u64_small in Hf by lia.
  case_if; bool_hyps.
  - destruct looped; [done|]. apply IH in Hf; [done | lia |]. destruct Hs' as [[? _]|?]; auto.
  - apply IH in Hf; [done | lia | done].
Qed.

Lemma kalloc_internal_spec s numBytes start glob p s' :
  pmm_ok s -> 0 <= numBytes -> 0 <= start < num_pages_in_map s ->
  _kalloc_internal numBytes start glob s = (p, s') ->
  (p = 0 /\ s' = s /\ (size_ok s numBytes -> forall i, start <= i ->
     ~ free_run (page_bitmap s) (num_pages_in_map s) i (pages_for numBytes))) \/
  (exists i, size_ok s numBytes /\ p = page_addr s i /\ (glob = false -> start <= i) /\
     free_run (page_bitmap s) (num_pages_in_map s) i (pages_for numBytes) /\
     takes s s' i (pages_for numBytes) (pages_for numBytes)).
Proof.
  intros Hok Hnb Hst Heq. pose proof (ok_np s Hok) as Hnp.
  unfold _kalloc_internal in Heq.
  case_if; bool_hyps; [left; simplify_eq; split_lia; intros (? & ? & ?); lia |].
  case_if; bool_hyps; [left; simplify_eq; split_lia; intros (? & ? & ?); lia |].
  change ((2 ^ 64 - 1) / 2) with (2 ^ 63 - 1) in *.
  assert (DIV_ROUNDUP numBytes PAGE_SIZE = pages_for numBytes) as Hpf.
  { unfold DIV_ROUNDUP, pages_for, PAGE_SIZE. rewrite u64_small; lia. }
  rewrite Hpf in Heq. destruct (pages_for_pos numBytes) as [Hp0 _]; [lia|].
  set (k := pages_for numBytes) in *.
  case_if; bool_hyps; [left; simplify_eq; split_lia; intros (? & ? & ?); lia |].
  case_if; bool_hyps; [left; simplify_eq; split_lia; intros (? & ? & ?); lia |].
  set (c0 := if glob then allocation_cursor s else start) in Heq.
  assert (0 <= c0 < num_pages_in_map s) as Hc0 by (pose proof (ok_cursor s Hok); subst c0; destruct glob; lia).
  pose proof (alloc_scan_spec (page_bitmap s) (num_pages_in_map s) k start ltac:(lia) ltac:(lia) ltac:(lia)
    (scan_fuel s) c0 0 0 false false) as Hscan.
  specialize (Hscan ltac:(split; [lia | lia | done | done]) ltac:(lia)
    ltac:(unfold scan_measure, scan_fuel; rewrite Z2Nat.id; lia)).
  destruct (alloc_scan _ _ _ _ _ _ _ _ _ _) as [i c| |] eqn:Hres; [| left; by simplify_eq | done].
  right. destruct Hscan as [Hrun ->].
  assert (glob = false -> start <= i) as Hge.
  { intros ->. apply (alloc_scan_above start) in Hres; try lia; try done; by left. }
  exists i. pose proof (commit_alloc_takes s glob i k Hok Hrun Hp0) as Htk.
  simplify_eq. split; [by unfold size_ok; split_lia |]. split; [|by split].
  rewrite get_addr_exact.
  - apply same_layout_addr, Htk.
  - eapply takes_ok; [done | done | done | | | done].
    + destruct Hrun. lia.
    + unfold span, SLAB_TAG. destruct Hrun. case_if; bool_hyps; lia.
  - destruct Htk as [(_ & _ & _ & -> & _) _ _ _ _ _]. destruct Hrun. lia.
Qed.

(** Releasing a live page block (not a slab page) gives its pages back. *)
Lemma kfree_pages_gives s i k :
  pmm_ok s -> block s i k -> entry s i < SLAB_TAG -> gives s (kfree_pages i s) i k.
Proof.
  intros Hok Hb Htag. pose proof (block_bounds s Hok i k Hb) as (Hk & Hi & Hik).
  pose proof Hb as (Hlt & He & Hsp).
  pose proof (ok_np s Hok). pose proof (ok_bitmap s Hok). pose proof (ok_entries s Hok).
  assert (entry s i = k) as Hek.
  { subst k. unfold span. rewrite (proj2 (Z.ltb_lt _ _)); done. }
  unfold kfree_pages. rewrite Hek.
  rewrite (proj2 (Z.leb_gt _ _)), (proj2 (Z.eqb_neq k 0)) by lia.
  rewrite u64_small, (proj2 (Z.ltb_ge _ _)) by lia.
  fold (release_pages (page_bitmap s) i k).
  split; cbn.
  - unfold same_layout; cbn. rewrite zlen_release_pages, zlen_zset by lia. done.
  - done.
  - intros j Hj. apply test_release_pages; lia.
  - unfold entry; cbn. apply zget_zset_eq. lia.
  - intros j Hj Hne. unfold entry; cbn. apply zget_zset_ne; lia.
  - pose proof (free_count_range (page_bitmap s) (release_pages (page_bitmap s) i k)
      (Z.to_nat (num_pages_in_map s)) i k) as Hc.
    pose proof (free_count_bounds (release_pages (page_bitmap s) i k) (Z.to_nat (num_pages_in_map s))).
    pose proof (free_count_bounds (page_bitmap s) (Z.to_nat (num_pages_in_map s))).
    rewrite (ok_avail s Hok). rewrite u64_small; [lia|]. rewrite <- Hc; [lia.. | |].
    + intros j ?. by apply (block_taken s Hok i k).
    + intros j ?. apply test_release_pages; lia.
Qed.

(** Pages outside the map and pages that start no block are left alone. *)
Lemma kfree_pages_noop s i : 0 <= i -> (num_pages_in_map s <= i \/ entry s i = 0) -> kfree_pages i s = s.
Proof.
  intros Hi [Hge | Hz]; unfold kfree_pages.
  - by rewrite (proj2 (Z.leb_le _ _)).
  - rewrite Hz. by destruct (_ <=? _).
Qed.
