(* ===== verification/PmmInit.v ===== *)
(** * Initialisation of the page allocator

    [kmem_init] of src/mem.c: statistics over the bootloader's memory map, the
    page bitmap and the entry map carved out of it, and the pages of the
    remaining usable entries made available.  Under what the Limine protocol
    documents of its memory map, the result satisfies the allocator's
    invariant and neither table is ever handed out. *)
From S2P Require Import Prelude Pmm.
Import Bitmap.

Definition ALIGN_UP (x base : Z) : Z := u64 (u64 (x + base - 1) / base * base).

(** ** Initialisation from the memory map *)

Definition LIMINE_MEMMAP_USABLE : Z := 0.

Record memmap_entry := mk_entry { me_base : Z; me_length : Z; me_type : Z }.

Record mem_stats := mk_stats {
  total_memory_bytes : Z; st_max_pages : Z; highest_address : Z; st_lowest : Z }.

(** One iteration of the statistics loop. *)
Definition init_stats_entry (st : mem_stats) (entry : memmap_entry) : mem_stats :=
  if me_type entry =? LIMINE_MEMMAP_USABLE then
    mk_stats
      (total_memory_bytes st +64 me_length entry)
      (st_max_pages st +64 me_length entry / PAGE_SIZE)
      (Z.max (highest_address st) (me_base entry +64 me_length entry))
      (if st_lowest st =? 0 then me_base entry else Z.min (st_lowest st) (me_base entry))
  else st.

(** [_init_stats]: statistics, the higher-half offset ([None]: no response
    from the bootloader) and the number of pages spanned by the map. *)
Definition _init_stats (memmap : list memmap_entry) (hhdm : option Z) : mem_stats * Z * Z :=
  let offset := match hhdm with Some o => o | None => 0xFFFF800000000000 end in
  let st := foldl init_stats_entry (mk_stats 0 0 0 0) memmap in
  let map_size_bytes := highest_address st -64 st_lowest st in
  (st, offset, map_size_bytes / PAGE_SIZE).

(** Carve [size] bytes from the first usable entry that holds them: the
    address taken and the map with that entry shortened. *)
Fixpoint carve (size : Z) (memmap : list memmap_entry) : option (Z * list memmap_entry) :=
  match memmap with
  | [] => None
  | e :: rest =>
      if (me_type e =? LIMINE_MEMMAP_USABLE) && (size <=? me_length e) then
        Some (me_base e, mk_entry (me_base e +64 size) (me_length e -64 size) (me_type e) :: rest)
      else
        '(a, rest') ← carve size rest; Some (a, e :: rest')
  end.

(** A table at its virtual address. *)
Record table := mk_table { t_addr : Z; t_data : list Z }.

(** [_create_page_bitmap]: the pointer [page_bitmap] and the bytes there, which
    mark all pages as taken.  [None]: the source leaves the pointer [NULL]. *)
Definition _create_page_bitmap (offset num_pages max_pages : Z) (memmap : list memmap_entry)
    : option (table * Z * list memmap_entry) :=
  let bitmap_size := ALIGN_UP (num_pages / 8) PAGE_SIZE in
  '(base, memmap') ← carve bitmap_size memmap;
  Some (mk_table (base +64 offset) (replicate (Z.to_nat bitmap_size) 0xFF), max_pages -64 bitmap_size / PAGE_SIZE, memmap').

(** [_create_entry_map]: the pointer [entry_map] and one zeroed 4-byte
    [PageEntry] per page there. *)
Definition _create_entry_map (offset num_pages max_pages : Z) (memmap : list memmap_entry)
    : option (table * Z * list memmap_entry) :=
  let map_size := ALIGN_UP (u64 (4 * num_pages)) PAGE_SIZE in
  '(base, memmap') ← carve map_size memmap;
  Some (mk_table (base +64 offset) (replicate (Z.to_nat (map_size / 4)) 0), max_pages -64 map_size / PAGE_SIZE, memmap').

(** One page of a usable entry becomes available. *)
Definition free_page_bit (i : Z) (s : pmm) : pmm :=
  set_num_pages_available (num_pages_available s +64 1)
    (set_page_bitmap (bitmap_off (page_bitmap s) i) s).

(** [_get_free_pages]: every page of a usable entry becomes available. *)
Definition get_free_pages_entry (s : pmm) (entry : memmap_entry) : pmm :=
  if me_type entry =? LIMINE_MEMMAP_USABLE then
    let start_bit := (me_base entry -64 lowest_address s) / PAGE_SIZE in
    let pages_free := me_length entry / PAGE_SIZE in
    zfor (Z.to_nat pages_free) start_bit free_page_bit s
  else s.

Definition _get_free_pages (memmap : list memmap_entry) (s : pmm) : pmm :=
  foldl get_free_pages_entry s memmap.

(** [kmem_init]: the pointers [page_bitmap] and [entry_map], which never change
    afterwards, and the state of the allocator. *)
Definition kmem_init (memmap : list memmap_entry) (hhdm : option Z) : option (Z * Z * pmm) :=
  let '(st, offset, np) := _init_stats memmap hhdm in
  '(bm, max1, memmap1) ← _create_page_bitmap offset np (st_max_pages st) memmap;
  '(em, max2, memmap2) ← _create_entry_map offset np max1 memmap1;
  Some (t_addr bm, t_addr em, _get_free_pages memmap2 (mk_pmm max2 (st_lowest st) offset np (t_data bm) 0 0 (t_data em))).

(** ** What Limine documents of its memory map

    Usable entries are page aligned in base and length, do not overlap each
    other, do not contain page 0 and lie in the physical address space. *)

Definition usable (e : memmap_entry) : bool := me_type e =? LIMINE_MEMMAP_USABLE.

Record entry_ok (e : memmap_entry) : Prop := {
  eo_base : PAGE_SIZE <= me_base e;
  eo_len : 0 <= me_length e;
  eo_top : me_base e + me_length e < 2 ^ 43;
  eo_base_al : me_base e mod PAGE_SIZE = 0;
  eo_len_al : me_length e mod PAGE_SIZE = 0;
}.

Definition disjoint_entries (e1 e2 : memmap_entry) : Prop :=
  usable e1 -> usable e2 ->
  me_base e1 + me_length e1 <= me_base e2 \/ me_base e2 + me_length e2 <= me_base e1.

Record memmap_ok (mm : list memmap_entry) : Prop := {
  mm_entries : forall e, e ∈ mm -> usable e -> entry_ok e;
  mm_disjoint : forall i j e1 e2, mm !! i = Some e1 -> mm !! j = Some e2 -> i <> j -> disjoint_entries e1 e2;
}.

(** Page [j] (counted from [low]) lies in usable entry [e]. *)
Definition covers (low : Z) (e : memmap_entry) (j : Z) : bool :=
  usable e && in_range ((me_base e - low) / PAGE_SIZE) (me_length e / PAGE_SIZE) j.

Definition covered (low : Z) (mm : list memmap_entry) (j : Z) : bool := existsb (fun e => covers low e j) mm.

Lemma covered_app low m1 m2 j : covered low (m1 ++ m2) j = covered low m1 j || covered low m2 j.
Proof. apply existsb_app. Qed.

(** ** Statistics *)

Lemma init_stats_spec mm :
  (forall e, e ∈ mm -> usable e -> entry_ok e) ->
  let st := foldl init_stats_entry (mk_stats 0 0 0 0) mm in
  (forall e, e ∈ mm -> usable e -> st_lowest st <= me_base e /\ me_base e + me_length e <= highest_address st) /\
  ((st_lowest st = 0 /\ highest_address st = 0 /\ forall e, e ∈ mm -> usable e = false) \/
   (exists e, e ∈ mm /\ usable e /\ st_lowest st = me_base e)) /\
  0 <= highest_address st < 2 ^ 43 /\ highest_address st mod PAGE_SIZE = 0.
Proof.
  intros Hmm. cbn zeta.
  apply (foldl_prefix_ind (fun pre st =>
    (forall e, e ∈ pre -> usable e -> st_lowest st <= me_base e /\ me_base e + me_length e <= highest_address st) /\
    ((st_lowest st = 0 /\ highest_address st = 0 /\ forall e, e ∈ pre -> usable e = false) \/
     (exists e, e ∈ pre /\ usable e /\ st_lowest st = me_base e)) /\
    0 <= highest_address st < 2 ^ 43 /\ highest_address st mod PAGE_SIZE = 0)).
  { cbn. split; [set_solver|]. split; [left; set_solver | split; done]. }
  intros pre x post st Hl (Hb & Hlow & Hhi & Hal).
  assert (x ∈ mm) as Hx by (subst; set_solver).
  unfold init_stats_entry. fold (usable x). destruct (usable x) eqn:Hu; cbn.
  - destruct (Hmm x Hx) as [? ? ? Hba Hla]; [by rewrite Hu|]. unfold PAGE_SIZE in *.
    rewrite u64_small by lia. split; [|split; [|split]].
    + intros e He Hue. apply elem_of_app in He as [He | ->%list_elem_of_singleton].
      * destruct (Hb e He Hue). case_if; bool_hyps; [|split_lia].
        destruct Hlow as [(_ & _ & Hn) | (e' & He' & Hue' & ?)].
        { rewrite (Hn e He) in Hue. done. }
        destruct (Hmm e' ltac:(subst; set_solver) Hue'). unfold PAGE_SIZE in *. lia.
      * case_if; bool_hyps; split_lia.
    + right. case_if; bool_hyps.
      * exists x. rewrite Hu. split; [set_solver | done].
      * destruct Hlow as [(? & _) | (e & He & Hue & Hle)]; [lia|].
        destruct (Z.min_spec (st_lowest st) (me_base x)) as [[? ->] | [? ->]].
        -- exists e. split; [set_solver | done].
        -- exists x. rewrite Hu. split; [set_solver | done].
    + lia.
    + destruct (Z.max_spec (highest_address st) (me_base x + me_length x)) as [[? ->] | [? ->]]; [|done].
      rewrite Z.add_mod, Hba, Hla by done. done.
  - split; [|split; [|done]].
    + intros e He Hue. apply elem_of_app in He as [He | ->%list_elem_of_singleton]; [auto | by rewrite Hu in Hue].
    + destruct Hlow as [(? & ? & Hn) | (e & He & Hue & ?)].
      * left. split; [done|]. split; [done|]. intros e He.
        apply elem_of_app in He as [He | ->%list_elem_of_singleton]; auto.
      * right. exists e. split; [set_solver | done].
Qed.

(** ** Coverage in terms of addresses *)

Lemma covers_spec low e j :
  entry_ok e -> low mod PAGE_SIZE = 0 -> usable e ->
  covers low e j = true <-> me_base e <= low + j * PAGE_SIZE < me_base e + me_length e.
Proof.
  intros [_ _ _ Hb Hl] Hlow Hu. unfold covers. rewrite Is_true_true in Hu. rewrite Hu, andb_true_l, in_range_spec.
  unfold PAGE_SIZE in *.
  pose proof (Z.div_mod (me_base e) 4096). pose proof (Z.div_mod (me_length e) 4096).
  pose proof (Z.div_mod low 4096).
  replace ((me_base e - low) / 4096) with (me_base e / 4096 - low / 4096).
  - lia.
  - apply Z.div_unique_exact; lia.
Qed.

Lemma covers_usable low e j : covers low e j = true -> usable e.
Proof. unfold covers. intros [? _]%andb_true_iff. by apply Is_true_true. Qed.

Lemma covered_spec low mm j :
  covered low mm j = true <-> exists i e, mm !! i = Some e /\ covers low e j = true.
Proof.
  unfold covered. rewrite existsb_exists. split.
  - intros (e & [i Hi]%list_elem_of_In%list_elem_of_lookup & Hc). eauto.
  - intros (i & e & Hi & Hc). exists e. split; [|done].
    apply list_elem_of_In, list_elem_of_lookup. eauto.
Qed.

Lemma covered_addr mm (Hmm : memmap_ok mm) low j :
  low mod PAGE_SIZE = 0 ->
  covered low mm j = true <->
  exists e, e ∈ mm /\ usable e /\ me_base e <= low + j * PAGE_SIZE < me_base e + me_length e.
Proof.
  intros Hlow. rewrite covered_spec. split.
  - intros (i & e & Hi & Hc). exists e. pose proof (covers_usable _ _ _ Hc) as Hu.
    assert (e ∈ mm) as He by (apply list_elem_of_lookup; eauto).
    split; [done|]. split; [done|]. apply covers_spec; [|done..]. by apply (mm_entries mm Hmm).
  - intros (e & He & Hu & Hin). pose proof (mm_entries mm Hmm e He Hu) as Heo.
    apply list_elem_of_lookup in He as [i Hi]. exists i, e. split; [done|]. by apply covers_spec.
Qed.

(** ** Carving *)

Lemma carve_insert size mm a mm' :
  carve size mm = Some (a, mm') ->
  exists n e, mm !! n = Some e /\ usable e /\ size <= me_length e /\ a = me_base e /\
    mm' = <[n := mk_entry (me_base e +64 size) (me_length e -64 size) (me_type e)]> mm.
Proof.
  revert a mm'. induction mm as [|x mm IH]; intros a mm' Hc; [done|]. cbn in Hc.
  case_if; bool_hyps.
  - simplify_eq. exists 0%nat, x. split; [done|]. split; [|done].
    apply Is_true_true. by apply Z.eqb_eq.
  - destruct (carve size mm) as [[a' rest']|]; [|done]. cbn in Hc. simplify_eq.
    destruct (IH a rest' eq_refl) as (n & e & Hn & ? & ? & ? & ->).
    exists (S n), e. done.
Qed.

Section carve.
Context (mm : list memmap_entry) (Hmm : memmap_ok mm) (size : Z).
Context (Hsize : 0 <= size) (Hal : size mod PAGE_SIZE = 0).

Lemma carved_entry_ok e :
  entry_ok e -> size <= me_length e -> 
  entry_ok (mk_entry (me_base e +64 size) (me_length e -64 size) (me_type e)) /\
  me_base e +64 size = me_base e + size /\ me_length e -64 size = me_length e - size.
Proof.
  intros [? ? ? Hb Hl] Hle. unfold PAGE_SIZE in *.
  assert (me_base e +64 size = me_base e + size) as E1 by (apply u64_small; lia).
  assert (me_length e -64 size = me_length e - size) as E2 by (apply u64_small; lia).
  rewrite E1, E2. split; [|done]. split; cbn; unfold PAGE_SIZE; try lia.
  - rewrite Z.add_mod, Hb, Hal by done. done.
  - rewrite Zminus_mod, Hl, Hal by done. done.
Qed.

Lemma carve_ok a mm' : carve size mm = Some (a, mm') -> memmap_ok mm'.
Proof.
  intros (n & e & Hn & Hu & Hle & -> & ->)%carve_insert.
  assert (entry_ok e) as Heo.
  { apply (mm_entries mm Hmm); [|done]. apply list_elem_of_lookup. eauto. }
  destruct (carved_entry_ok e Heo Hle) as (Heo' & E1 & E2).
  split.
  - intros x [i Hi]%list_elem_of_lookup Hux.
    apply list_lookup_insert_Some in Hi as [(_ & <- & _) | (_ & Hi)]; [done|].
    apply (mm_entries mm Hmm); [|done]. apply list_elem_of_lookup. eauto.
  - intros i j e1 e2 H1 H2 Hij Hu1 Hu2. destruct Heo.
    apply list_lookup_insert_Some in H1 as [(<- & <- & _) | (_ & H1)];
    apply list_lookup_insert_Some in H2 as [(<- & <- & _) | (_ & H2)]; cbn; rewrite ?E1, ?E2.
    + done.
    + destruct (mm_disjoint mm Hmm n j e e2 Hn H2 Hij Hu Hu2); lia.
    + destruct (mm_disjoint mm Hmm i n e1 e H1 Hn Hij Hu1 Hu); lia.
    + by apply (mm_disjoint mm Hmm i j).
Qed.

Lemma carve_aligned a mm' : carve size mm = Some (a, mm') -> a mod PAGE_SIZE = 0.
Proof.
  intros (n & e & Hn & Hu & Hle & -> & ->)%carve_insert.
  apply (mm_entries mm Hmm); [|done]. apply list_elem_of_lookup. eauto.
Qed.

Lemma carve_base a mm' : carve size mm = Some (a, mm') -> 0 <= a < 2 ^ 43.
Proof.
  intros (n & e & Hn & Hu & Hle & -> & ->)%carve_insert.
  assert (entry_ok e) as [H1 H2 H3 _ _] by (apply (mm_entries mm Hmm); [apply list_elem_of_lookup; eauto | done]). unfold PAGE_SIZE in H1. lia.
Qed.

Lemma carve_within lo hi a mm' :
  carve size mm = Some (a, mm') ->
  (forall e, e ∈ mm -> usable e -> lo <= me_base e /\ me_base e + me_length e <= hi) ->
  forall e, e ∈ mm' -> usable e -> lo <= me_base e /\ me_base e + me_length e <= hi.
Proof.
  intros (n & e & Hn & Hu & Hle & -> & ->)%carve_insert Hin x [i Hi]%list_elem_of_lookup Hux.
  assert (e ∈ mm) as He by (apply list_elem_of_lookup; eauto).
  pose proof (Hin e He Hu).
  destruct (carved_entry_ok e (mm_entries mm Hmm e He Hu) Hle) as (_ & E1 & E2).
  apply list_lookup_insert_Some in Hi as [(_ & <- & _) | (_ & Hi)].
  - cbn. rewrite E1, E2. lia.
  - apply Hin; [|done]. apply list_elem_of_lookup. eauto.
Qed.

(** Exactly the carved pages are no longer covered. *)
Lemma carve_covered low a mm' j :
  low mod PAGE_SIZE = 0 -> carve size mm = Some (a, mm') ->
  covered low mm' j = true <->
  covered low mm j = true /\ ~ (a <= low + j * PAGE_SIZE < a + size).
Proof.
  intros Hlow (n & e & Hn & Hu & Hle & -> & ->)%carve_insert.
  assert (forall i x, mm !! i = Some x -> usable x -> entry_ok x) as Hmem.
  { intros i x Hi. apply (mm_entries mm Hmm), list_elem_of_lookup. eauto. }
  pose proof (Hmem n e Hn Hu) as Heo.
  destruct (carved_entry_ok e Heo Hle) as (Heo' & E1 & E2).
  rewrite !covered_spec. split.
  - intros (i & x & Hi & Hc).
    apply list_lookup_insert_Some in Hi as [(<- & <- & _) | (Hne & Hi)].
    + apply covers_spec in Hc; [|done..]. cbn in Hc. rewrite E1, E2 in Hc.
      split; [|lia]. exists n, e. split; [done|]. apply covers_spec; [done..|]. lia.
    + split; [eauto|]. pose proof (covers_usable _ _ _ Hc) as Hux.
      apply covers_spec in Hc; [|by eapply Hmem | done..].
      destruct (mm_disjoint mm Hmm n i e x Hn Hi Hne Hu Hux); lia.
  - intros [(i & x & Hi & Hc) Hno]. destruct (decide (n = i)) as [->|Hne].
    + exists i, (mk_entry (me_base e +64 size) (me_length e -64 size) (me_type e)).
      split; [apply list_lookup_insert_eq; by eapply lookup_lt_Some|].
      assert (x = e) as -> by congruence.
      apply covers_spec in Hc; [|done..]. apply covers_spec; [done..|]. cbn. rewrite E1, E2. lia.
    + exists i, x. split; [by rewrite list_lookup_insert_ne | done].
Qed.
End carve.

(** ** Making the usable pages available *)

Section free_pages.
Context (low np : Z) (Hnp : 0 < np < 2 ^ 31) (Hlow : 0 <= low) (Hlal : low mod PAGE_SIZE = 0).

(** Progress of [_get_free_pages]: exactly the pages covered by [mm] are free. *)
Record freed (s0 : pmm) (cov : Z -> bool) (s : pmm) : Prop := {
  fr_layout : same_layout s0 s;
  fr_cursor : allocation_cursor s = allocation_cursor s0;
  fr_entries : entry_map s = entry_map s0;
  fr_bits : forall j, 0 <= j < np -> bitmap_test (page_bitmap s) j = negb (cov j);
  fr_avail : num_pages_available s = free_count (page_bitmap s) (Z.to_nat np);
}.

Lemma free_page_bit_freed s0 cov s i :
  np <= 8 * zlen (page_bitmap s0) -> 0 <= i < np -> cov i = false ->
  freed s0 cov s -> freed s0 (fun j => cov j || (i =? j)) (free_page_bit i s).
Proof.
  intros Hlen Hi Hcov [Hl Hc He Hb Ha]. pose proof Hl as (HL1 & HL2 & HL3 & HL4 & HL5 & HL6).
  assert (forall j, 0 <= j -> bitmap_test (bitmap_off (page_bitmap s) i) j =
    negb (i =? j) && bitmap_test (page_bitmap s) j) as Ht.
  { intros j ?. apply bitmap_test_off; lia. }
  split; cbn.
  - unfold same_layout; cbn. rewrite zlen_bitmap_off. done.
  - done.
  - done.
  - intros j ?. rewrite Ht, Hb by lia. by destruct (i =? j), (cov j).
  - rewrite (free_count_flip (page_bitmap s) _ (Z.to_nat np) i), Ha.
    + pose proof (free_count_bounds (page_bitmap s) (Z.to_nat np)). rewrite u64_small; lia.
    + lia.
    + by rewrite Hb, Hcov by lia.
    + by rewrite Ht, Z.eqb_refl by lia.
    + intros j ??. rewrite Ht, (proj2 (Z.eqb_neq i j)) by lia. done.
Qed.

Lemma freed_ext s0 cov cov' s :
  (forall j, 0 <= j < np -> cov j = cov' j) -> freed s0 cov s -> freed s0 cov' s.
Proof. intros Hext [Hl Hc He Hb Ha]. split; [done.. | | done]. intros j ?. rewrite Hb, Hext; done. Qed.

Lemma get_free_pages_spec mm s0 :
  memmap_ok mm -> lowest_address s0 = low -> np <= 8 * zlen (page_bitmap s0) ->
  (forall e, e ∈ mm -> usable e -> low <= me_base e /\ me_base e + me_length e <= low + np * PAGE_SIZE) ->
  freed s0 (fun _ => false) s0 -> freed s0 (covered low mm) (_get_free_pages mm s0).
Proof.
  intros Hmm Hl0 Hlen Hin H0. unfold _get_free_pages.
  apply (foldl_prefix_ind (fun pre s => freed s0 (covered low pre) s)); [done|].
  intros pre x post s Hmmx Hs. unfold get_free_pages_entry. fold (usable x).
  destruct (usable x) eqn:Hu.
  2:{ eapply freed_ext; [|exact Hs]. intros j _. rewrite covered_app. cbn. unfold covers.
      by rewrite Hu, orb_false_r. }
  assert (mm !! length pre = Some x) as Hxi by (subst; by apply list_lookup_middle).
  assert (x ∈ mm) as Hx by (apply list_elem_of_lookup; eauto).
  assert (Is_true (usable x)) as Hu' by by rewrite Hu.
  pose proof (mm_entries mm Hmm x Hx Hu') as Heo. pose proof (Hin x Hx Hu') as [Hx1 Hx2].
  set (b := (me_base x - low) / PAGE_SIZE). set (k := me_length x / PAGE_SIZE).
  assert (0 <= b /\ 0 <= k /\ b + k <= np) as (Hb0 & Hk0 & Hbk).
  { destruct Heo. subst b k. unfold PAGE_SIZE in *.
    pose proof (Z.div_mod (me_base x - low) 4096). pose proof (Z.div_mod (me_length x) 4096).
    rewrite Zminus_mod, eo_base_al0, Hlal, Z.mod_0_l in H by done.
    pose proof (Z.div_pos (me_base x - low) 4096). pose proof (Z.div_pos (me_length x) 4096). lia. }
  assert ((me_base x -64 lowest_address s) / PAGE_SIZE = b) as ->.
  { destruct Hs as [(_ & -> & _) _ _ _ _]. rewrite Hl0. destruct Heo. unfold PAGE_SIZE in *.
    rewrite u64_small by lia. done. }
  pose proof (zfor_ind (fun i s => freed s0 (fun j => covered low pre j || in_range b (i - b) j) s)
    free_page_bit (Z.to_nat k) b s) as Hloop.
  eapply freed_ext; [|apply Hloop].
  - intros j _. rewrite covered_app. cbn. unfold covers. fold b k. rewrite Hu, orb_false_r, andb_true_l.
    do 2 f_equal. lia.
  - eapply freed_ext; [|exact Hs]. intros j _. by rewrite Z.sub_diag, in_range_empty, orb_false_r.
  - intros i s' Hi Hs'.
    assert (covered low pre i || in_range b (i - b) i = false) as Hci.
    { apply orb_false_iff. split; [|apply in_range_false; lia].
      apply not_true_is_false. intros (i' & e & Hi' & Hc)%covered_spec.
      assert (mm !! i' = Some e) as Hmi by (subst; by apply lookup_app_l_Some).
      pose proof (covers_usable _ _ _ Hc) as Hue.
      assert (entry_ok e) as Hee by (apply (mm_entries mm Hmm); [apply list_elem_of_lookup; eauto | done]).
      apply covers_spec in Hc; [|done..].
      assert (covers low x i = true) as Hcx.
      { unfold covers. fold b k. rewrite Hu. apply in_range_spec. lia. }
      apply covers_spec in Hcx; [|done..]. apply lookup_lt_Some in Hi'.
      destruct (mm_disjoint mm Hmm i' (length pre) e x Hmi Hxi ltac:(lia) Hue Hu'); lia. }
    eapply freed_ext; [|exact (free_page_bit_freed s0 _ s' i Hlen ltac:(lia) Hci Hs')].
    intros j _. cbn beta. rewrite in_range_succ by lia. by rewrite orb_assoc.
Qed.
End free_pages.

(** ** [kmem_init] establishes the invariant *)

(** Sizes of the two tables. *)
Definition bitmap_bytes (np : Z) : Z := ALIGN_UP (np / 8) PAGE_SIZE.
Definition entry_map_bytes (np : Z) : Z := ALIGN_UP (u64 (4 * np)) PAGE_SIZE.

Lemma align_up_spec x : 0 <= x < 2 ^ 62 ->
  x <= ALIGN_UP x PAGE_SIZE < x + PAGE_SIZE /\ ALIGN_UP x PAGE_SIZE mod PAGE_SIZE = 0.
Proof.
  intros Hx. unfold ALIGN_UP, PAGE_SIZE. rewrite (u64_small (x + 4096 - 1)) by lia.
  pose proof (Z.div_mod (x + 4096 - 1) 4096). pose proof (Z.mod_pos_bound (x + 4096 - 1) 4096).
  rewrite u64_small by lia. split; [lia | by rewrite Z.mod_mul].
Qed.

(** The bitmap has a bit for every page unless one to seven pages are left
    over after a multiple of 32768. *)
Lemma bitmap_bytes_enough np :
  0 <= np < 2 ^ 31 -> np mod 32768 = 0 \/ 8 <= np mod 32768 -> np <= 8 * bitmap_bytes np.
Proof.
  intros Hnp Hm. unfold bitmap_bytes.
  destruct (align_up_spec (np / 8)) as [Hb Hal].
  { pose proof (Z.div_pos np 8). pose proof (Z.div_le_upper_bound np 8 np). lia. }
  unfold PAGE_SIZE in *. apply Z.div_exact in Hal; [|done].
  pose proof (Z.div_mod np 8). pose proof (Z.mod_pos_bound np 8).
  pose proof (Z.div_mod np 32768). pose proof (Z.mod_pos_bound np 32768). lia.
Qed.

(** A bitmap of ones marks every page taken. *)
Lemma all_taken n i : 0 <= i < 8 * n -> bitmap_test (replicate (Z.to_nat n) 255) i = true.
Proof.
  intros Hi. rewrite bitmap_test_spec by lia.
  pose proof (Z.div_lt_upper_bound i 8 n). pose proof (Z.div_pos i 8).
  unfold zget. rewrite lookup_total_replicate_2 by lia.
  pose proof (Z.mod_pos_bound i 8 eq_refl).
  change 255 with (Z.ones 8). apply Z.ones_spec_low. lia.
Qed.

Lemma all_taken_count n np : Z.of_nat np <= 8 * n -> free_count (replicate (Z.to_nat n) 255) np = 0.
Proof.
  induction np as [|np IH]; intros Hle; [done|].
  rewrite free_count_S, IH, all_taken by lia. done.
Qed.

Lemma zget_zeros n i : 0 <= i < Z.of_nat n -> zget (replicate n 0) i = 0.
Proof. intros ?. unfold zget. apply lookup_total_replicate_2. lia. Qed.

(** A state whose entry map is zero and whose free pages are counted is well formed. *)
Lemma fresh_pmm_ok s :
  0 < num_pages_in_map s < 2 ^ 31 -> num_pages_in_map s <= 8 * zlen (page_bitmap s) ->
  num_pages_in_map s <= zlen (entry_map s) -> allocation_cursor s = 0 -> 0 <= max_pages_available s ->
  0 < lowest_address s + vmm_higher_half_offset s ->
  (lowest_address s + vmm_higher_half_offset s) mod PAGE_SIZE = 0 ->
  lowest_address s + vmm_higher_half_offset s + num_pages_in_map s * PAGE_SIZE <= 2 ^ 64 ->
  num_pages_available s = free_count (page_bitmap s) (Z.to_nat (num_pages_in_map s)) ->
  (forall i, 0 <= i < num_pages_in_map s -> entry s i = 0) -> pmm_ok s.
Proof.
  intros ? ? ? Hc ? ? ? ? ? He. split; try done.
  - rewrite Hc. lia.
  - intros i Hi. rewrite He by done. change (span 0) with 0. split_lia; intros; lia.
Qed.

(** Geometry of the map: [np] pages from the lowest usable address on. *)
Lemma init_geometry mm off :
  memmap_ok mm -> (exists e, e ∈ mm /\ usable e /\ 0 < me_length e) ->
  let '(st, o, np) := _init_stats mm (Some off) in
  o = off /\ 0 < np < 2 ^ 31 /\ PAGE_SIZE <= st_lowest st /\ st_lowest st mod PAGE_SIZE = 0 /\
  st_lowest st + np * PAGE_SIZE < 2 ^ 43 /\
  forall e, e ∈ mm -> usable e ->
    st_lowest st <= me_base e /\ me_base e + me_length e <= st_lowest st + np * PAGE_SIZE.
Proof.
  intros Hmm (e0 & He0 & Hu0 & Hpos).
  pose proof (init_stats_spec mm (mm_entries mm Hmm)) as (Hbnd & Hlow & Hhi & Hhal).
  unfold _init_stats. set (st := foldl init_stats_entry (mk_stats 0 0 0 0) mm) in *.
  destruct Hlow as [(_ & _ & Hn) | (el & Hel & Huel & Hlow)].
  { rewrite (Hn e0 He0) in Hu0. done. }
  destruct (mm_entries mm Hmm el Hel Huel) as [Hlb _ _ Hlal _]. rewrite <- Hlow in Hlb, Hlal.
  pose proof (Hbnd e0 He0 Hu0). unfold PAGE_SIZE in Hlb. rewrite u64_small by lia.
  set (np := (highest_address st - st_lowest st) / PAGE_SIZE) in *.
  assert (np * PAGE_SIZE = highest_address st - st_lowest st) as Hnp.
  { subst np. pose proof (Z.div_mod (highest_address st - st_lowest st) PAGE_SIZE) as Hd.
    rewrite Zminus_mod, Hhal, Hlal in Hd by done. unfold PAGE_SIZE in *. rewrite Z.mod_0_l in Hd; lia. }
  assert (0 < np < 2 ^ 31) by (unfold PAGE_SIZE in Hnp; lia).
  split_lia. intros e He Hue. specialize (Hbnd e He Hue). split_lia.
Qed.

(** The state built from the tables and a (carved) map. *)
Lemma tables_ok mm low np off max em_len :
  memmap_ok mm -> 0 < np < 2 ^ 31 -> PAGE_SIZE <= low -> low mod PAGE_SIZE = 0 -> 0 <= max ->
  0 <= off <= 2 ^ 64 - 2 ^ 43 -> off mod PAGE_SIZE = 0 -> low + np * PAGE_SIZE < 2 ^ 43 ->
  np <= 8 * bitmap_bytes np -> np <= Z.of_nat em_len ->
  (forall e, e ∈ mm -> usable e -> low <= me_base e /\ me_base e + me_length e <= low + np * PAGE_SIZE) ->
  let s0 := mk_pmm max low off np (replicate (Z.to_nat (bitmap_bytes np)) 255) 0 0 (replicate em_len 0) in
  pmm_ok (_get_free_pages mm s0) /\ same_layout s0 (_get_free_pages mm s0) /\
  (forall j, 0 <= j < np -> bitmap_test (page_bitmap (_get_free_pages mm s0)) j = negb (covered low mm j)) /\
  forall i, 0 <= i < np -> entry (_get_free_pages mm s0) i = 0.
Proof.
  intros Hmm Hnp Hlow Hlal Hmax Hoff Hofal Htop Hbm Hem Hin s0.
  assert (zlen (page_bitmap s0) = bitmap_bytes np) as Hzl.
  { unfold zlen, s0; cbn. rewrite length_replicate. lia. }
  assert (freed np s0 (fun _ => false) s0) as H0.
  { split; try done; unfold s0; cbn.
    - intros j ?. apply all_taken. lia.
    - symmetry. apply all_taken_count. lia. }
  destruct (get_free_pages_spec low np Hnp ltac:(unfold PAGE_SIZE in *; lia) Hlal mm s0 Hmm eq_refl
    ltac:(lia) Hin H0) as [Hl Hc He Hb Ha].
  assert (forall i, 0 <= i < np -> entry (_get_free_pages mm s0) i = 0) as Hze.
  { intros i Hi. unfold entry. rewrite He. cbn. apply zget_zeros. lia. }
  split; [|by split]. pose proof Hl as (HL1 & HL2 & HL3 & HL4 & HL5 & HL6).
  unfold PAGE_SIZE in *.
  apply fresh_pmm_ok; rewrite ?HL1, ?HL2, ?HL3, ?HL4, ?HL5, ?HL6, ?Hc, ?Ha;
    unfold s0; cbn [lowest_address vmm_higher_half_offset num_pages_in_map page_bitmap allocation_cursor
      max_pages_available entry_map]; unfold PAGE_SIZE; try done; try lia.
  - unfold zlen. rewrite length_replicate. lia.
  - unfold zlen. rewrite length_replicate. lia.
  - rewrite Z.add_mod, Hlal, Hofal by done. done.
Qed.

Lemma entry_map_whole n : n mod PAGE_SIZE = 0 -> n / 4 * 4 = n.
Proof. unfold PAGE_SIZE. intros H%Z.div_exact; [|done]. pose proof (Z.div_unique n 4 (1024 * (n / 4096)) 0). lia. Qed.

Lemma shift_range off b n l x : b + off <= l + off + x < b + off + n <-> b <= l + x < b + n.
Proof. lia. Qed.

(** Whether an address is one of the [n] bytes at [b]. *)
Definition within (b n a : Z) : Prop := b <= a < b + n.

Lemma kmem_init_spec mm off bp ep s :
  memmap_ok mm -> (exists e, e ∈ mm /\ usable e /\ 0 < me_length e) ->
  0 <= off <= 2 ^ 64 - 2 ^ 43 -> off mod PAGE_SIZE = 0 ->
  let np := (_init_stats mm (Some off)).2 in
  np mod 32768 = 0 \/ 8 <= np mod 32768 ->
  kmem_init mm (Some off) = Some (bp, ep, s) ->
  pmm_ok s /\ num_pages_in_map s = np /\ (forall i, 0 <= i < np -> entry s i = 0) /\
  vmm_higher_half_offset s = off /\ zlen (page_bitmap s) = bitmap_bytes np /\ zlen (entry_map s) * 4 = entry_map_bytes np /\
  bp mod PAGE_SIZE = 0 /\ ep mod PAGE_SIZE = 0 /\
  bitmap_bytes np mod PAGE_SIZE = 0 /\ entry_map_bytes np mod PAGE_SIZE = 0 /\ forall j, 0 <= j < np ->
    bitmap_test (page_bitmap s) j = false <->
    (exists e, e ∈ mm /\ usable e /\ within (me_base e + off) (me_length e) (page_addr s j)) /\
    ~ within bp (bitmap_bytes np) (page_addr s j) /\ ~ within ep (entry_map_bytes np) (page_addr s j).
Proof.
  intros Hmm Hex Hoff Hofal np Hsz Hinit. subst np.
  pose proof (init_geometry mm off Hmm Hex) as Hgeo. unfold kmem_init in Hinit.
  destruct (_init_stats mm (Some off)) as [[st o] np]. cbn [fst snd] in *.
  destruct Hgeo as (-> & Hnp & Hlow & Hlal & Htop & Hin).
  pose proof (bitmap_bytes_enough np ltac:(lia) Hsz) as Hbm.
  assert (bitmap_bytes np mod PAGE_SIZE = 0 /\ 0 <= bitmap_bytes np) as [Hb2 Hb3].
  { pose proof (Z.div_pos np 8). pose proof (Z.div_le_upper_bound np 8 np).
    destruct (align_up_spec (np / 8)) as [? ?]; [lia | unfold bitmap_bytes; split_lia]. }
  assert (entry_map_bytes np mod PAGE_SIZE = 0 /\ 4 * np <= entry_map_bytes np) as [He2 He3].
  { unfold entry_map_bytes. rewrite (u64_small (4 * np)) by lia. destruct (align_up_spec (4 * np)); split_lia. }
  unfold _create_page_bitmap, _create_entry_map in Hinit.
  fold (bitmap_bytes np) in Hinit. fold (entry_map_bytes np) in Hinit.
  destruct (carve (bitmap_bytes np) mm) as [[ba mm1]|] eqn:Hc1; [|done]. cbn in Hinit.
  destruct (carve (entry_map_bytes np) mm1) as [[ea mm2]|] eqn:Hc2; [|done]. cbn in Hinit.
  pose proof (carve_ok mm Hmm _ Hb3 Hb2 _ _ Hc1) as Hmm1.
  pose proof (carve_ok mm1 Hmm1 (entry_map_bytes np) ltac:(lia) He2 _ _ Hc2) as Hmm2.
  pose proof (carve_within mm Hmm _ Hb3 Hb2 _ _ _ _ Hc1 Hin) as Hin1.
  pose proof (carve_within mm1 Hmm1 (entry_map_bytes np) ltac:(lia) He2 _ _ _ _ Hc2 Hin1) as Hin2.
  pose proof (carve_base mm Hmm _ _ _ Hc1) as Hba. pose proof (carve_base mm1 Hmm1 _ _ _ Hc2) as Hea.
  pose proof (carve_aligned mm Hmm _ _ _ Hc1) as Hba'. pose proof (carve_aligned mm1 Hmm1 _ _ _ Hc2) as Hea'.
  injection Hinit as <- <- <-. rewrite (u64_small (ba + off)), (u64_small (ea + off)) by lia.
  assert (np <= Z.of_nat (Z.to_nat (entry_map_bytes np / 4))) as Hem.
  { pose proof (Z.div_le_lower_bound (entry_map_bytes np) 4 np). lia. }
  destruct (tables_ok mm2 (st_lowest st) np off _ _ Hmm2 Hnp Hlow Hlal
    (proj1 (u64_bound (u64 (st_max_pages st - bitmap_bytes np / PAGE_SIZE) - entry_map_bytes np / PAGE_SIZE))) Hoff Hofal
    Htop Hbm Hem Hin2) as (Hok & (_ & Hl2 & Hl3 & Hl4 & Hl5 & Hl6) & Hbits & Hze).
  split; [exact Hok|]. split; [exact Hl4|]. split; [exact Hze|]. split; [exact Hl3|].
  split; [rewrite Hl5; cbn [page_bitmap]; unfold zlen; rewrite length_replicate; lia|].
  split; [rewrite Hl6; cbn [entry_map]; unfold zlen; rewrite length_replicate, Z2Nat.id by lia; by apply entry_map_whole|].
  rewrite (Z.add_mod ba), (Z.add_mod ea), Hba', Hea', Hofal by done. do 4 (split; [done|]). intros j Hj.
  unfold page_addr, within. rewrite Hl2, Hl3, Hbits by done. cbn [lowest_address vmm_higher_half_offset].
  rewrite negb_false_iff, (carve_covered mm1 Hmm1 (entry_map_bytes np) ltac:(lia) He2 _ _ _ j Hlal Hc2),
    (carve_covered mm Hmm _ Hb3 Hb2 _ _ _ j Hlal Hc1), (covered_addr mm Hmm _ j Hlal).
  setoid_rewrite shift_range. tauto.
Qed.

(** C35 [kmem_init] establishes the allocator's invariant: for a memory map as
    Limine documents it, if the bitmap is large enough for the map, the state
    after boot is well formed and the free pages are exactly the usable pages
    that hold neither the bytes at the pointer [page_bitmap] nor those at the
    pointer [entry_map]. *)
Theorem kmem_init_establishes mm off bp ep s :
  memmap_ok mm -> (exists e, e ∈ mm /\ usable e /\ 0 < me_length e) ->
  0 <= off <= 2 ^ 64 - 2 ^ 43 -> off mod PAGE_SIZE = 0 ->
  let np := (_init_stats mm (Some off)).2 in
  np mod 32768 = 0 \/ 8 <= np mod 32768 ->
  kmem_init mm (Some off) = Some (bp, ep, s) ->
  pmm_ok s /\ num_pages_in_map s = np /\
  forall j, 0 <= j < np ->
    bitmap_test (page_bitmap s) j = false <->
    (exists e, e ∈ mm /\ usable e /\ within (me_base e + off) (me_length e) (page_addr s j)) /\
    ~ within bp (zlen (page_bitmap s)) (page_addr s j) /\ ~ within ep (4 * zlen (entry_map s)) (page_addr s j).
Proof.
  intros Hmm Hex Hoff Hofal np Hsz Hinit.
  destruct (kmem_init_spec mm off bp ep s Hmm Hex Hoff Hofal Hsz Hinit) as (? & ? & _ & _ & Hb & He & _ & _ & _ & _ & ?).
  rewrite Hb, (Z.mul_comm 4), He. by eauto.
Qed.

Definition demo_map : list memmap_entry :=
  [mk_entry 0x1000 0x9e000 0; mk_entry 0x9f000 0x61000 1; mk_entry 0x100000 0x100000 0].

Lemma demo_map_ok : memmap_ok demo_map.
Proof.
  split.
  - intros e He _. unfold demo_map in He.
    repeat (apply elem_of_cons in He as [-> | He]; [split; vm_compute; (done || congruence || split; congruence) |]).
    by apply not_elem_of_nil in He.
  - intros i j e1 e2 H1 H2 Hij Hu1 Hu2.
    destruct i as [|[|[|]]], j as [|[|[|]]]; cbn in H1, H2; simplify_eq; try done; vm_compute; intuition congruence.
Qed.

Lemma kmem_init_establishes_witness :
  exists s, kmem_init demo_map (Some 0xFFFF800000000000) = Some (0xFFFF800000001000, 0xFFFF800000002000, s) /\ pmm_ok s.
Proof.
  eexists. split; [vm_compute; reflexivity|].
  apply (kmem_init_establishes demo_map 0xFFFF800000000000 0xFFFF800000001000 0xFFFF800000002000 _ demo_map_ok);
    [ exists (mk_entry 0x1000 0x9e000 0); split_lia; [left | vm_compute; done..]
    | lia | done | right; vm_compute; congruence | vm_compute; reflexivity ].
Defined.

(** The page bitmap is rounded from [num_pages / 8], not from the number of
    bytes that hold [num_pages] bits: when one to seven pages remain after a
    multiple of 32768, the bitmap that [_create_page_bitmap] returns has fewer
    bits than the map has pages. *)
Theorem page_bitmap_too_short off np max mm bm max' mm' :
  0 < np < 2 ^ 31 -> 0 < np mod 32768 < 8 ->
  _create_page_bitmap off np max mm = Some (bm, max', mm') -> 8 * zlen (t_data bm) < np.
Proof.
  intros Hnp Hm Hc. unfold _create_page_bitmap in Hc. fold (bitmap_bytes np) in Hc.
  destruct (carve (bitmap_bytes np) mm) as [[a mm1]|]; [|done]. cbn in Hc. injection Hc as <- _ _.
  cbn [t_data]. unfold zlen. rewrite length_replicate.
  pose proof (Z.div_pos np 8). pose proof (Z.div_le_upper_bound np 8 np).
  destruct (align_up_spec (np / 8)) as [Hb Hal]; [lia|]. fold (bitmap_bytes np) in *.
  unfold PAGE_SIZE in *. apply Z.div_exact in Hal; [|done].
  pose proof (Z.div_mod np 8). pose proof (Z.mod_pos_bound np 8).
  pose proof (Z.div_mod np 32768). lia.
Qed.

Lemma page_bitmap_too_short_witness :
  exists bm max' mm', _create_page_bitmap 0xFFFF800000000000 32769 40000 [mk_entry 0x1000 0x8001000 0] = Some (bm, max', mm') /\
    8 * zlen (t_data bm) < 32769.
Proof.
  do 3 eexists. split; [vm_compute; reflexivity|].
  eapply (page_bitmap_too_short 0xFFFF800000000000 32769 40000 [mk_entry 0x1000 0x8001000 0]);
    [lia | vm_compute; split; congruence | vm_compute; reflexivity].
Defined.
