(* ===== verification/Slab.v ===== *)
(** * The slab layer and the kernel heap

    The rest of [kalloc]/[kfree] in src/mem.c: requests of up to 2048 bytes
    come from power-of-two size classes carved out of single pages, larger
    ones from the page allocator.  The file ends with the instance that
    discharges the laws of Heap.v. *)
From S2P Require Import Prelude Heap Pmm.
Import Bitmap.

Definition SLAB_MIN_SHIFT : Z := 5.
Definition SLAB_MAX_SHIFT : Z := 11.
Definition SLAB_MAX_SIZE : Z := Z.shiftl 1 SLAB_MAX_SHIFT.
Definition SLAB_CLASSES : Z := SLAB_MAX_SHIFT - SLAB_MIN_SHIFT + 1.
Definition SLAB_CLASS (e : Z) : Z := Z.land (Z.shiftr e 24) 0xF.
Definition SLAB_INUSE (e : Z) : Z := Z.land e 0xFFFF.

(** The allocator's whole state.  The free objects of a class are linked
    through their own first word; the list holds their addresses. *)
Record kmem := mk_kmem {
  pm : pmm;
  slab_free_list : list (list Z);
  slab_free_count : list Z;
}.

Definition set_pm (p : pmm) (s : kmem) : kmem := mk_kmem p (slab_free_list s) (slab_free_count s).
Definition set_class (c : Z) (fl : list Z) (cnt : Z) (s : kmem) : kmem :=
  mk_kmem (pm s) (zset (slab_free_list s) c fl) (zset (slab_free_count s) c cnt).
Definition flist (s : kmem) (c : Z) : list Z := zget (slab_free_list s) c.
Definition fcount (s : kmem) (c : Z) : Z := zget (slab_free_count s) c.

(** [slab_class_for]: the loop on [shift]; 59 steps take it to the width of
    the shift. *)
Fixpoint slab_shift (fuel : nat) (shift n : Z) : Z :=
  match fuel with
  | O => shift
  | S fuel => if Z.shiftl 1 shift <? n then slab_shift fuel (shift + 1) n else shift
  end.
Definition slab_class_for (n : Z) : Z := slab_shift 59 SLAB_MIN_SHIFT n - SLAB_MIN_SHIFT.

Definition slab_page_base (obj : Z) : Z := Z.land obj (u64 (Z.lnot (PAGE_SIZE - 1))).

(** [slab_unlink_page]: drop the free objects of [page], counting them. *)
Fixpoint unlink_page (page : Z) (fl : list Z) (cnt : Z) : list Z * Z :=
  match fl with
  | [] => ([], cnt)
  | o :: rest =>
      if slab_page_base o =? page then unlink_page page rest (cnt -32 1)
      else let '(rest', cnt') := unlink_page page rest cnt in (o :: rest', cnt')
  end.
Definition slab_unlink_page (cls page : Z) (s : kmem) : kmem :=
  let '(fl, cnt) := unlink_page page (flist s cls) (fcount s cls) in set_class cls fl cnt s.

(** The refill of [slab_alloc]: a fresh page becomes objects of the class.
    [size] divides the page, so the loop runs [PAGE_SIZE / size] times. *)
Definition slab_refill (cls page : Z) (s : kmem) : kmem :=
  let size := u32 (Z.shiftl 1 (cls + SLAB_MIN_SHIFT)) in
  let s := set_pm (set_entry (_get_page_from_addr (pm s) page)
                     (Z.lor SLAB_TAG (u32 (Z.shiftl cls 24))) (pm s)) s in
  let '(fl, cnt) :=
    zfor (Z.to_nat (PAGE_SIZE / size)) 0
      (fun k '(fl, cnt) => (page + k * size :: fl, cnt +32 1)) (flist s cls, fcount s cls) in
  set_class cls fl cnt s.

(** Take the first free object. *)
Definition slab_pop (cls : Z) (s : kmem) : Z * kmem :=
  match flist s cls with
  | [] => (0, s)
  | obj :: rest =>
      let s := set_class cls rest (fcount s cls -32 1) s in
      let i := _get_page_from_addr (pm s) obj in
      (obj, set_pm (set_entry i (entry (pm s) i +32 1) (pm s)) s)
  end.

Definition slab_alloc (cls : Z) (s : kmem) : Z * kmem :=
  match flist s cls with
  | [] =>
      let '(page, p) := _kalloc_internal PAGE_SIZE 0 true (pm s) in
      let s := set_pm p s in
      if page =? 0 then (0, s) else slab_pop cls (slab_refill cls page s)
  | _ => slab_pop cls s
  end.

Definition kalloc (numBytes : Z) (s : kmem) : Z * kmem :=
  if (0 <? numBytes) && (numBytes <=? SLAB_MAX_SIZE) && negb (max_pages_available (pm s) =? 0)
  then slab_alloc (slab_class_for numBytes) s
  else let '(p, m) := _kalloc_internal numBytes 0 true (pm s) in (p, set_pm m s).

(** [slab_free]; the final [kfree(page)] meets an entry that was just set to
    1, so it takes the page branch. *)
Definition slab_free (ptr page_index : Z) (s : kmem) : kmem :=
  let e := entry (pm s) page_index in
  let cls := SLAB_CLASS e in
  let size := u32 (Z.shiftl 1 (cls + SLAB_MIN_SHIFT)) in
  let page := slab_page_base ptr in
  if negb (has e SLAB_TAG) || (SLAB_INUSE e =? 0) || negb ((ptr -64 page) mod size =? 0) then s
  else
    let s := set_class cls (ptr :: flist s cls) (fcount s cls +32 1) s in
    let e := e -32 1 in
    let s := set_pm (set_entry page_index e (pm s)) s in
    let per_page := PAGE_SIZE / size in
    if (SLAB_INUSE e =? 0) && (u32 (2 * per_page) <=? fcount s cls) then
      let s := slab_unlink_page cls page s in
      let s := set_pm (set_entry page_index 1 (pm s)) s in
      set_pm (kfree_pages (_get_page_from_addr (pm s) page) (pm s)) s
    else s.

Definition kfree (ptr : Z) (s : kmem) : kmem :=
  if ptr =? 0 then s
  else
    let page_index := _get_page_from_addr (pm s) ptr in
    if (page_index <? num_pages_in_map (pm s)) && has (entry (pm s) page_index) SLAB_TAG
    then slab_free ptr page_index s
    else set_pm (kfree_pages page_index (pm s)) s.

Definition kalloc_usable_size (ptr : Z) (s : kmem) : Z :=
  if ptr =? 0 then 0
  else
    let page_index := _get_page_from_addr (pm s) ptr in
    if page_index <? num_pages_in_map (pm s) then
      let e := entry (pm s) page_index in
      if has e SLAB_TAG then u32 (Z.shiftl 1 (SLAB_CLASS e + SLAB_MIN_SHIFT))
      else u64 (e * PAGE_SIZE)
    else 0.

(** The slab layer is empty at boot. *)
Definition kmem_boot (p : pmm) : kmem :=
  mk_kmem p (replicate (Z.to_nat SLAB_CLASSES) []) (replicate (Z.to_nat SLAB_CLASSES) 0).

(** ** Size classes *)

Definition class_size (c : Z) : Z := 2 ^ (c + SLAB_MIN_SHIFT).
Definition per_page (c : Z) : Z := PAGE_SIZE / class_size c.
Definition is_class (c : Z) : Prop := 0 <= c < SLAB_CLASSES.

(** Split on the seven classes. *)
Ltac class_cases c H :=
  unfold is_class, SLAB_CLASSES, SLAB_MAX_SHIFT, SLAB_MIN_SHIFT in H;
  let E := fresh in
  assert (c = 0 \/ c = 1 \/ c = 2 \/ c = 3 \/ c = 4 \/ c = 5 \/ c = 6) as E by lia;
  clear H; repeat (destruct E as [E | E]); subst c.

Lemma class_facts c : is_class c ->
  32 <= class_size c /\ 1 <= per_page c <= 128 /\ per_page c * class_size c = PAGE_SIZE /\
  u32 (Z.shiftl 1 (c + SLAB_MIN_SHIFT)) = class_size c.
Proof. intros Hc. class_cases c Hc; vm_compute; intuition congruence. Qed.

Lemma class_tag c : is_class c -> Z.lor SLAB_TAG (u32 (Z.shiftl c 24)) = SLAB_TAG + c * 2 ^ 24.
Proof. intros Hc. class_cases c Hc; reflexivity. Qed.

(** A tagged entry: class [c], [u] objects in use. *)
Definition slab_entry (c u : Z) : Z := SLAB_TAG + c * 2 ^ 24 + u.

Lemma slab_entry_decode c u : is_class c -> 0 <= u < 2 ^ 16 ->
  SLAB_CLASS (slab_entry c u) = c /\ SLAB_INUSE (slab_entry c u) = u /\
  SLAB_TAG <= slab_entry c u < 2 ^ 32 /\ span (slab_entry c u) = 1.
Proof.
  intros Hc Hu. unfold is_class, SLAB_CLASSES, SLAB_MAX_SHIFT, SLAB_MIN_SHIFT in Hc.
  unfold SLAB_CLASS, SLAB_INUSE, slab_entry, span, SLAB_TAG.
  change 0xF with (Z.ones 4). change 0xFFFF with (Z.ones 16).
  rewrite !Z.land_ones, Z.shiftr_div_pow2 by lia.
  replace ((2 ^ 31 + c * 2 ^ 24 + u) / 2 ^ 24) with (128 + c) by (apply Z.div_unique with u; lia).
  split; [|split; [|split]].
  - symmetry. apply Z.mod_unique with 8; lia.
  - symmetry. apply Z.mod_unique with (2 ^ 15 + c * 2 ^ 8); lia.
  - lia.
  - rewrite (proj2 (Z.ltb_ge _ _)) by lia. done.
Qed.

Lemma has_tag e : 0 <= e < 2 ^ 32 -> has e SLAB_TAG = (SLAB_TAG <=? e).
Proof.
  intros He. unfold has, SLAB_TAG. rewrite land_pow2_eqb by lia.
  destruct (2 ^ 31 <=? e) eqn:E; bool_hyps.
  - apply Z.testbit_true; [lia|]. replace (e / 2 ^ 31) with 1 by (apply Z.div_unique with (e - 2 ^ 31); lia). done.
  - apply Z.testbit_false; [lia|]. rewrite Z.div_small by lia. done.
Qed.

(** The loop of [slab_class_for] stops at the least class that fits. *)
Lemma slab_shift_spec fuel shift n :
  0 <= shift -> 
  let r := slab_shift fuel shift n in
  shift <= r <= shift + Z.of_nat fuel /\ (r < shift + Z.of_nat fuel -> n <= 2 ^ r) /\
  (forall k, shift <= k < r -> 2 ^ k < n).
Proof.
  revert shift. induction fuel as [|fuel IH]; intros shift Hs; cbn [slab_shift].
  { split_lia. }
  rewrite Z.shiftl_1_l. destruct (2 ^ shift <? n) eqn:E; bool_hyps.
  - destruct (IH (shift + 1) ltac:(lia)) as (? & Hn & Hk). split; [lia|]. split; [intros; apply Hn; lia|].
    intros k ?. destruct (decide (k = shift)) as [->|]; [done | apply Hk; lia].
  - split_lia.
Qed.

Lemma slab_class_for_spec n : 0 < n <= SLAB_MAX_SIZE ->
  is_class (slab_class_for n) /\ n <= class_size (slab_class_for n) /\
  forall c, is_class c -> n <= class_size c -> slab_class_for n <= c.
Proof.
  intros Hn. unfold slab_class_for, is_class, class_size, SLAB_CLASSES, SLAB_MAX_SHIFT, SLAB_MIN_SHIFT.
  change SLAB_MAX_SIZE with (2 ^ 11) in Hn.
  destruct (slab_shift_spec 59 5 n ltac:(lia)) as (Hb & Hfit & Hleast).
  set (r := slab_shift 59 5 n) in *.
  assert (r <= 11) as Hr.
  { destruct (decide (r <= 11)); [done|]. specialize (Hleast 11 ltac:(lia)). lia. }
  replace (r - 5 + 5) with r by lia. split; [lia|]. split; [apply Hfit; lia|].
  intros c Hc Hcn. destruct (decide (r - 5 <= c)); [done|].
  specialize (Hleast (c + 5) ltac:(lia)). lia.
Qed.

(** The page that holds an object. *)
Lemma slab_page_base_spec a : 0 <= a < 2 ^ 64 -> slab_page_base a = a - a mod PAGE_SIZE.
Proof.
  intros Ha. unfold slab_page_base, PAGE_SIZE. change (u64 (Z.lnot (4096 - 1))) with (Z.ones 64 - Z.ones 12).
  replace (a - a mod 4096) with (Z.shiftl (Z.shiftr a 12) 12).
  2:{ rewrite Z.shiftl_mul_pow2, Z.shiftr_div_pow2 by lia. change (2 ^ 12) with 4096.
      pose proof (Z.div_mod a 4096). lia. }
  apply Z.bits_inj'. intros k Hk.
  change (Z.ones 64 - Z.ones 12) with (Z.shiftl (Z.ones 52) 12).
  rewrite Z.land_spec, !Z.shiftl_spec by lia.
  destruct (decide (k < 12)).
  - by rewrite !(Z.testbit_neg_r _ (k - 12)), andb_false_r by lia.
  - rewrite Z.shiftr_spec by lia. replace (k - 12 + 12) with k by lia.
    destruct (decide (k < 64)).
    + by rewrite Z.ones_spec_low, andb_true_r by lia.
    + rewrite (Z.bits_above_log2 a k); [done | lia |].
      destruct (decide (a = 0)) as [->|]; [cbn; lia|]. apply Z.log2_lt_pow2; [lia|].
      apply Z.lt_le_trans with (2 ^ 64); [lia | apply Z.pow_le_mono_r; lia].
Qed.

(** ** Invariant *)

(** Object [k] of page [i] cut for class [c]. *)
Definition slot (p : pmm) (i c k : Z) : Z := page_addr p i + k * class_size c.

(** Free objects of class [c] that lie in page [i]. *)
Definition on_page (s : kmem) (c i : Z) : list Z :=
  filter (fun a => slab_page_base a = page_addr (pm s) i) (flist s c).

Record slab_ok (s : kmem) : Prop := {
  so_pmm : pmm_ok (pm s);
  so_len1 : zlen (slab_free_list s) = SLAB_CLASSES;
  so_len2 : zlen (slab_free_count s) = SLAB_CLASSES;
  so_count : forall c, is_class c -> fcount s c = u32 (zlen (flist s c));
  so_nodup : forall c, is_class c -> NoDup (flist s c);
  so_free : forall c a, is_class c -> a ∈ flist s c -> exists i k u,
    0 <= i < num_pages_in_map (pm s) /\ entry (pm s) i = slab_entry c u /\ 0 <= u < 2 ^ 16 /\
    0 <= k < per_page c /\ a = slot (pm s) i c k;
  so_page : forall i, 0 <= i < num_pages_in_map (pm s) -> SLAB_TAG <= entry (pm s) i -> exists c u,
    is_class c /\ entry (pm s) i = slab_entry c u /\ 0 <= u /\ u + zlen (on_page s c i) = per_page c;
}.

(** Live blocks of page [i]: the whole-page allocation that starts there, or
    the slab objects of the page that are on no free list. *)
Definition live_at (s : kmem) (i p n : Z) : Prop :=
  (0 < entry (pm s) i < SLAB_TAG /\ p = page_addr (pm s) i /\ n = entry (pm s) i * PAGE_SIZE) \/
  (exists c u k, is_class c /\ entry (pm s) i = slab_entry c u /\ 0 <= u < 2 ^ 16 /\ 0 <= k < per_page c /\
     p = slot (pm s) i c k /\ n = class_size c /\ p ∉ flist s c).

Definition live (s : kmem) (p n : Z) : Prop :=
  exists i, 0 <= i < num_pages_in_map (pm s) /\ live_at s i p n.

(** *** Slots *)

Section slots.
Context (p : pmm) (Hok : pmm_ok p).

Lemma slot_bounds i c k :
  is_class c -> 0 <= i < num_pages_in_map p -> 0 <= k < per_page c ->
  exists off, slot p i c k = page_addr p i + off /\ 0 <= off /\ off + class_size c <= PAGE_SIZE /\
    off = k * class_size c.
Proof.
  intros Hc Hi Hk. destruct (class_facts c Hc) as (? & ? & Hm & _).
  exists (k * class_size c). unfold slot. split_lia. nia.
Qed.

Lemma addr_bounds i off :
  0 <= i < num_pages_in_map p -> 0 <= off <= PAGE_SIZE -> 0 < page_addr p i + off <= 2 ^ 64.
Proof.
  intros Hi Ho. pose proof (ok_base p Hok). pose proof (ok_top p Hok).
  unfold page_addr, PAGE_SIZE in *. lia.
Qed.

Lemma slot_page i c k :
  is_class c -> 0 <= i < num_pages_in_map p -> 0 <= k < per_page c ->
  0 < slot p i c k < 2 ^ 64 /\ _get_page_from_addr p (slot p i c k) = i /\
  slab_page_base (slot p i c k) = page_addr p i.
Proof.
  intros Hc Hi Hk. destruct (slot_bounds i c k Hc Hi Hk) as (off & -> & ? & ? & _).
  destruct (class_facts c Hc) as (? & _). pose proof (addr_bounds i (off + 1) Hi ltac:(lia)).
  assert (0 < page_addr p i) by (apply page_addr_pos; [done | lia]).
  split; [lia|]. split; [apply get_page_exact; [done | done | lia]|].
  rewrite slab_page_base_spec by lia.
  rewrite Z.add_mod, (page_addr_align p i Hok), Z.add_0_l, Z.mod_mod, Z.mod_small by (unfold PAGE_SIZE in *; lia).
  lia.
Qed.

Lemma slot_inj i j c k l :
  is_class c -> 0 <= i < num_pages_in_map p -> 0 <= j < num_pages_in_map p ->
  0 <= k < per_page c -> 0 <= l < per_page c -> slot p i c k = slot p j c l -> i = j /\ k = l.
Proof.
  intros Hc Hi Hj Hk Hl Heq.
  destruct (slot_page i c k Hc Hi Hk) as (_ & E1 & _). destruct (slot_page j c l Hc Hj Hl) as (_ & E2 & _).
  rewrite Heq in E1. assert (i = j) as -> by congruence. split; [done|].
  destruct (class_facts c Hc) as (? & _). unfold slot in Heq. nia.
Qed.

Lemma page_addr_inj i j :
  page_addr p i = page_addr p j -> i = j.
Proof. unfold page_addr, PAGE_SIZE. lia. Qed.
End slots.

(** *** The counting argument: free objects of a page among its slots *)

Definition page_slots (p : pmm) (i c : Z) : list Z := (fun k => slot p i c k) <$> seqZ 0 (per_page c).

Lemma elem_of_page_slots p i c a :
  a ∈ page_slots p i c <-> exists k, 0 <= k < per_page c /\ a = slot p i c k.
Proof.
  unfold page_slots. rewrite list_elem_of_fmap. split.
  - intros (k & -> & Hk%elem_of_seqZ). exists k. split_lia.
  - intros (k & Hk & ->). exists k. split; [done|]. apply elem_of_seqZ. lia.
Qed.

Lemma zlen_page_slots p i c : is_class c -> zlen (page_slots p i c) = per_page c.
Proof.
  intros Hc. destruct (class_facts c Hc) as (_ & ? & _).
  unfold zlen, page_slots. rewrite length_fmap, length_seqZ. lia.
Qed.

Lemma on_page_slots s c i a :
  slab_ok s -> is_class c -> 0 <= i < num_pages_in_map (pm s) ->
  a ∈ on_page s c i -> a ∈ page_slots (pm s) i c.
Proof.
  intros Hok Hc Hi [Hpg Ha]%list_elem_of_filter.
  destruct (so_free s Hok c a Hc Ha) as (j & k & u & Hj & _ & _ & Hk & ->).
  destruct (slot_page (pm s) (so_pmm s Hok) j c k Hc Hj Hk) as (_ & _ & E).
  rewrite E in Hpg. apply page_addr_inj in Hpg as ->. apply elem_of_page_slots. eauto.
Qed.

(** A slot missing from the free list leaves room in the count ... *)
Lemma on_page_missing s c i a :
  slab_ok s -> is_class c -> 0 <= i < num_pages_in_map (pm s) ->
  a ∈ page_slots (pm s) i c -> a ∉ flist s c -> zlen (on_page s c i) < per_page c.
Proof.
  intros Hok Hc Hi Ha Hno.
  assert (length (a :: on_page s c i) <= length (page_slots (pm s) i c))%nat as Hle.
  { apply submseteq_length, NoDup_submseteq.
    - constructor; [|apply NoDup_filter, so_nodup; done].
      intros [_ ?]%list_elem_of_filter. done.
    - intros x [->|Hx]%elem_of_cons; [done | by apply on_page_slots]. }
  pose proof (zlen_page_slots (pm s) i c Hc). unfold zlen in *. cbn in Hle. lia.
Qed.

(** ... and a full count leaves none missing. *)
Lemma on_page_full s c i a :
  slab_ok s -> is_class c -> 0 <= i < num_pages_in_map (pm s) ->
  zlen (on_page s c i) = per_page c -> a ∈ page_slots (pm s) i c -> a ∈ flist s c.
Proof.
  intros Hok Hc Hi Hfull Ha. destruct (decide (a ∈ flist s c)) as [|Hno]; [done|].
  pose proof (on_page_missing s c i a Hok Hc Hi Ha Hno). lia.
Qed.

(** ** Live blocks are disjoint *)

Section live.
Context (s : kmem) (Hok : slab_ok s).
Implicit Types (i j q n r m : Z).

(** A live block lies inside the pages of its page-level block. *)
Lemma live_at_extent i q n :
  0 <= i < num_pages_in_map (pm s) -> live_at s i q n ->
  exists m, block (pm s) i m /\ page_addr (pm s) i <= q /\ q + n <= page_addr (pm s) i + m * PAGE_SIZE /\ 0 < n.
Proof.
  intros Hi [(He & -> & ->) | (c & u & k & Hc & He & Hu & Hk & -> & -> & _)].
  - exists (entry (pm s) i). split; [|unfold PAGE_SIZE; lia].
    split; [done|]. split; [lia|]. unfold span. rewrite (proj2 (Z.ltb_lt _ _)); lia.
  - exists 1. destruct (slab_entry_decode c u Hc Hu) as (_ & _ & ? & Hsp).
    destruct (slot_bounds (pm s) i c k Hc Hi Hk) as (off & -> & ? & ? & _).
    destruct (class_facts c Hc) as (? & _). split; [|lia].
    split; [done|]. rewrite He. unfold SLAB_TAG in *. split; [lia | by rewrite Hsp].
Qed.

Lemma live_bounds q n : live s q n -> 0 < q < 2 ^ 64 /\ 0 < n /\ q + n <= 2 ^ 64.
Proof.
  intros (i & Hi & (m & Hb & ? & ? & ?)%live_at_extent); [|done].
  pose proof (so_pmm s Hok) as Hp. destruct (block_bounds _ Hp i m Hb) as (? & ? & ?).
  assert (0 < page_addr (pm s) i) by (apply page_addr_pos; [done | lia]).
  pose proof (ok_top _ Hp). unfold page_addr, PAGE_SIZE in *. lia.
Qed.

(** Blocks of different pages are disjoint. *)
Lemma live_at_disj i j q n r m :
  0 <= i < num_pages_in_map (pm s) -> 0 <= j < num_pages_in_map (pm s) -> i <> j ->
  live_at s i q n -> live_at s j r m -> q + n <= r \/ r + m <= q.
Proof.
  intros Hi Hj Hne (mi & Hbi & ? & ? & ?)%live_at_extent (mj & Hbj & ? & ? & ?)%live_at_extent; [|done..].
  destruct (blocks_disjoint _ (so_pmm s Hok) i mi j mj Hbi Hbj Hne); unfold page_addr, PAGE_SIZE in *; lia.
Qed.

(** Blocks of one page are equal or disjoint. *)
Lemma live_at_same i q n r m :
  live_at s i q n -> live_at s i r m -> n = m /\ (q <> r -> q + n <= r \/ r + m <= q).
Proof.
  intros [(He1 & -> & ->) | (c & u & k & Hc & He1 & Hu & Hk & -> & -> & _)]
         [(He2 & -> & ->) | (c' & u' & k' & Hc' & He2 & Hu' & Hk' & -> & -> & _)].
  - done.
  - destruct (slab_entry_decode c' u' Hc' Hu') as (_ & _ & ? & _). lia.
  - destruct (slab_entry_decode c u Hc Hu) as (_ & _ & ? & _). lia.
  - destruct (slab_entry_decode c u Hc Hu) as (Ec & _). destruct (slab_entry_decode c' u' Hc' Hu') as (Ec' & _).
    assert (c = c') as <- by congruence. split; [done|]. unfold slot. intros Hne.
    destruct (class_facts c Hc) as (? & _). assert (k <> k') by (intros ->; done).
    destruct (decide (k < k')); [left | right]; nia.
Qed.

Lemma live_fun q n m : live s q n -> live s q m -> n = m.
Proof.
  intros (i & Hi & H1) (j & Hj & H2). destruct (decide (i = j)) as [<-|Hne].
  - by apply (live_at_same i q n q m).
  - destruct (live_at_extent i q n Hi H1) as (? & _ & _ & _ & ?).
    destruct (live_at_extent j q m Hj H2) as (? & _ & _ & _ & ?).
    destruct (live_at_disj i j q n q m Hi Hj Hne H1 H2); lia.
Qed.

Lemma live_disj q n r m : live s q n -> live s r m -> q <> r -> q + n <= r \/ r + m <= q.
Proof.
  intros (i & Hi & H1) (j & Hj & H2) Hqr. destruct (decide (i = j)) as [<-|Hne].
  - destruct (live_at_same i q n r m H1 H2) as [_ Hd]. auto.
  - exact (live_at_disj i j q n r m Hi Hj Hne H1 H2).
Qed.
End live.

(** ** Changing the entry of a live block *)

Lemma set_entry_get p i v j :
  pmm_ok p -> 0 <= i < num_pages_in_map p -> 0 <= j ->
  entry (set_entry i v p) j = if decide (j = i) then v else entry p j.
Proof.
  intros Hok Hi Hj. pose proof (ok_entries p Hok). unfold entry, set_entry; cbn. case_decide.
  - subst. apply zget_zset_eq. lia.
  - apply zget_zset_ne; lia.
Qed.

Lemma set_entry_ok p i v :
  pmm_ok p -> 0 <= i < num_pages_in_map p -> 0 <= v < 2 ^ 32 -> span v = span (entry p i) -> 
  entry p i <> 0 -> pmm_ok (set_entry i v p).
Proof.
  intros Hok Hi Hv Hsp Hnz. pose proof (ok_entries p Hok).
  assert (forall j, 0 <= j -> entry (set_entry i v p) j = if decide (j = i) then v else entry p j) as He
    by (intros; by apply set_entry_get).
  split; cbn; rewrite ?zlen_zset; try apply Hok.
  intros j Hj. rewrite He by lia. destruct (ok_entry p Hok j Hj) as (? & ? & Ht & Hz).
  assert (span (if decide (j = i) then v else entry p j) = span (entry p j)) as -> by (case_decide; congruence).
  split; [case_decide; lia|]. split; [done|]. split; [done|].
  intros l Hl. rewrite He by lia. case_decide; [|auto]. subst l. exfalso. apply Hnz, Hz. lia.
Qed.


(** ** One slab page changes *)

Lemma flist_set_class s c fl cnt c' :
  slab_ok s -> is_class c -> is_class c' ->
  flist (set_class c fl cnt s) c' = (if decide (c' = c) then fl else flist s c') /\
  fcount (set_class c fl cnt s) c' = (if decide (c' = c) then cnt else fcount s c').
Proof.
  intros Hok [Hc0 Hc1] [Hc0' Hc1']. pose proof (so_len1 s Hok). pose proof (so_len2 s Hok).
  unfold flist, fcount, set_class; cbn. case_decide; subst.
  - rewrite !zget_zset_eq by lia. done.
  - rewrite !zget_zset_ne by lia. done.
Qed.

Lemma slots_other_page s i j c k a :
  slab_ok s -> is_class c -> 0 <= i < num_pages_in_map (pm s) -> 0 <= j < num_pages_in_map (pm s) ->
  0 <= k < per_page c -> a = slot (pm s) j c k -> j <> i -> a ∉ page_slots (pm s) i c.
Proof.
  intros Hok Hc Hi Hj Hk -> Hne (l & Hl & E)%elem_of_page_slots.
  destruct (slot_inj (pm s) (so_pmm s Hok) j i c k l); done.
Qed.

Section update.
Context (s : kmem) (Hok : slab_ok s) (c i u u' : Z) (fl' : list Z).
Context (Hc : is_class c) (Hi : 0 <= i < num_pages_in_map (pm s)).
Context (He : entry (pm s) i = slab_entry c u) (Hu : 0 <= u < 2 ^ 16) (Hu' : 0 <= u' < 2 ^ 16).
Context (Hnd : NoDup fl').
Context (Hsame : forall a, a ∉ page_slots (pm s) i c -> a ∈ fl' <-> a ∈ flist s c).
Context (Hothers : forall j, j <> i ->
  zlen (filter (fun a => slab_page_base a = page_addr (pm s) j) fl') = zlen (on_page s c j)).
Context (Hsub : forall a, a ∈ fl' -> a ∈ page_slots (pm s) i c \/ a ∈ flist s c).
Context (Hcnt : u' + zlen (filter (fun a => slab_page_base a = page_addr (pm s) i) fl') = per_page c).

Definition slab_upd : kmem :=
  set_pm (set_entry i (slab_entry c u') (pm s)) (set_class c fl' (u32 (zlen fl')) s).

Lemma upd_entry j : 0 <= j ->
  entry (pm slab_upd) j = if decide (j = i) then slab_entry c u' else entry (pm s) j.
Proof. intros Hj. apply set_entry_get; [apply Hok | done | done]. Qed.

Lemma upd_flist c' : is_class c' ->
  flist slab_upd c' = (if decide (c' = c) then fl' else flist s c') /\
  fcount slab_upd c' = (if decide (c' = c) then u32 (zlen fl') else fcount s c').
Proof. intros Hc'. by apply (flist_set_class s c fl' (u32 (zlen fl')) c'). Qed.

Lemma upd_ok : slab_ok slab_upd.
Proof.
  destruct (slab_entry_decode c u Hc Hu) as (Ecu & _ & ? & Hsp).
  destruct (slab_entry_decode c u' Hc Hu') as (_ & _ & ? & Hsp').
  split.
  - apply set_entry_ok; [apply Hok | done | unfold SLAB_TAG in *; lia | congruence | unfold SLAB_TAG in *; lia].
  - cbn. rewrite zlen_zset. apply Hok.
  - cbn. rewrite zlen_zset. apply Hok.
  - intros c' Hc'. destruct (upd_flist c' Hc') as [-> ->]. case_decide; [done | by apply Hok].
  - intros c' Hc'. destruct (upd_flist c' Hc') as [-> _]. case_decide; [done | by apply Hok].
  - intros c' a Hc' Ha. destruct (upd_flist c' Hc') as [E _]. rewrite E in Ha. clear E.
    assert ((c' = c /\ a ∈ page_slots (pm s) i c) \/ a ∈ flist s c') as [[-> Hs] | Ha'].
    { case_decide; [subst | by right]. destruct (Hsub a Ha); [by left | by right]. }
    + apply elem_of_page_slots in Hs as (k & Hk & ->). exists i, k, u'.
      rewrite upd_entry, decide_True by (lia || done). done.
    + destruct (so_free s Hok c' a Hc' Ha') as (j & k & v & Hj & Hej & Hv & Hk & ->).
      destruct (decide (j = i)) as [->|Hne].
      * exists i, k, u'. rewrite upd_entry, decide_True by (lia || done).
        destruct (slab_entry_decode c' v Hc' Hv) as (Ecv & _). assert (c' = c) as -> by congruence. done.
      * exists j, k, v. rewrite upd_entry, decide_False by (lia || done). done.
  - intros j Hj. rewrite upd_entry by lia. case_decide as Hd.
    + subst j. intros _. exists c, u'. split; [done|]. split; [done|]. split; [lia|].
      unfold on_page. destruct (upd_flist c Hc) as [-> _]. rewrite decide_True by done. exact Hcnt.
    + intros Ht. destruct (so_page s Hok j Hj Ht) as (c' & v & Hc' & Hej & Hv & Hsum).
      exists c', v. split; [done|]. split; [done|]. split; [done|].
      unfold on_page in *. destruct (upd_flist c' Hc') as [-> _]. case_decide as Hcc; [|done].
      subst c'. change (page_addr (pm slab_upd) j) with (page_addr (pm s) j). by rewrite Hothers.
Qed.

Lemma upd_mem c' j k :
  is_class c' -> 0 <= j < num_pages_in_map (pm s) -> j <> i -> 0 <= k < per_page c' ->
  slot (pm s) j c' k ∈ flist slab_upd c' <-> slot (pm s) j c' k ∈ flist s c'.
Proof.
  intros Hc' Hj Hne Hk. destruct (upd_flist c' Hc') as [-> _]. case_decide; [|done].
  subst c'. apply Hsame. by eapply slots_other_page.
Qed.

Lemma upd_live_other j q n :
  0 <= j < num_pages_in_map (pm s) -> j <> i -> live_at slab_upd j q n <-> live_at s j q n.
Proof.
  intros Hj Hne. unfold live_at. rewrite upd_entry, decide_False by (lia || done).
  change (page_addr (pm slab_upd)) with (page_addr (pm s)). change (slot (pm slab_upd)) with (slot (pm s)).
  apply or_iff_compat_l. split; intros (c' & v & k & Hc' & Hej & Hv & Hk & -> & -> & Hno).
  - exists c', v, k. rewrite upd_mem in Hno by done. done.
  - exists c', v, k. rewrite <- upd_mem in Hno by done. done.
Qed.

(** Blocks of other pages are not slots of page [i]. *)
Lemma live_at_not_slot j q n :
  0 <= j < num_pages_in_map (pm s) -> j <> i -> live_at s j q n -> q ∉ page_slots (pm s) i c.
Proof.
  intros Hj Hne (m & Hb & ? & ? & ?)%live_at_extent (k & Hk & ->)%elem_of_page_slots; [|done].
  destruct (slab_entry_decode c u Hc Hu) as (_ & _ & ? & Hsp).
  assert (block (pm s) i 1) as Hbi.
  { split; [done|]. rewrite He, Hsp. unfold SLAB_TAG in *. split_lia. }
  destruct (slot_bounds (pm s) i c k Hc Hi Hk) as (off & E & ? & ? & _). rewrite E in *.
  destruct (class_facts c Hc) as (? & _).
  destruct (blocks_disjoint _ (so_pmm s Hok) j m i 1 Hb Hbi Hne); unfold page_addr, PAGE_SIZE in *; lia.
Qed.

(** Blocks of page [i] are slots. *)
Lemma live_at_slot s' q n u0 :
  pm s' = pm slab_upd \/ pm s' = pm s -> entry (pm s') i = slab_entry c u0 -> 0 <= u0 < 2 ^ 16 ->
  live_at s' i q n -> q ∈ page_slots (pm s) i c /\ n = class_size c /\ q ∉ flist s' c.
Proof.
  intros Hpm He0 Hu0. destruct (slab_entry_decode c u0 Hc Hu0) as (Ec & _ & ? & _).
  assert (slot (pm s') = slot (pm s)) as Hslot by (destruct Hpm as [-> | ->]; done).
  intros [(Hl & _) | (c' & v & k & Hc' & Hej & Hv & Hk & -> & -> & Hno)]; [lia|].
  destruct (slab_entry_decode c' v Hc' Hv) as (Ec' & _). assert (c' = c) as -> by congruence.
  rewrite Hslot in *. split; [apply elem_of_page_slots; eauto | done].
Qed.

(** Live blocks outside the page stay; those of the page are the slots not in [fl']. *)
Lemma upd_live q n :
  live slab_upd q n <->
  (q ∈ page_slots (pm s) i c /\ (q ∉ fl') /\ n = class_size c) \/
  ((q ∉ page_slots (pm s) i c) /\ live s q n).
Proof.
  destruct (upd_flist c Hc) as [Efl _]. rewrite decide_True in Efl by done.
  assert (entry (pm slab_upd) i = slab_entry c u') as He' by (rewrite upd_entry, decide_True by (lia || done); done).
  split.
  - intros (j & Hj & Hl). cbn in Hj. destruct (decide (j = i)) as [->|Hne].
    + left. destruct (live_at_slot slab_upd q n u' (or_introl eq_refl) He' Hu' Hl) as (? & ? & ?).
      by rewrite Efl in *.
    + right. apply upd_live_other in Hl; [|done..]. split; [by eapply live_at_not_slot | by exists j].
  - intros [(Hq & Hno & ->) | (Hq & j & Hj & Hl)].
    + apply elem_of_page_slots in Hq as (k & Hk & ->). exists i. split; [done|]. right.
      exists c, u', k. rewrite Efl. split_and!; done || lia.
    + exists j. split; [done|]. destruct (decide (j = i)) as [->|Hne].
      * destruct (live_at_slot s q n u (or_intror eq_refl) He Hu Hl) as (? & _). done.
      * by apply upd_live_other.
Qed.
End update.

(** A slot of a slab page is live exactly when it is on no free list. *)
Lemma slot_live s i c u q n :
  slab_ok s -> is_class c -> 0 <= i < num_pages_in_map (pm s) -> entry (pm s) i = slab_entry c u ->
  0 <= u < 2 ^ 16 -> q ∈ page_slots (pm s) i c -> live s q n <-> (q ∉ flist s c) /\ n = class_size c.
Proof.
  intros Hok Hc Hi He Hu Hq. split.
  - intros (j & Hj & Hl). destruct (decide (j = i)) as [->|Hne].
    + destruct (live_at_slot s c i u [] Hc s q n u (or_intror eq_refl) He Hu Hl) as (_ & ? & ?). done.
    + by destruct (live_at_not_slot s Hok c i u Hc Hi He Hu j q n Hj Hne Hl).
  - intros [Hno ->]. apply elem_of_page_slots in Hq as (k & Hk & ->).
    exists i. split; [done|]. right. by exists c, u, k.
Qed.

(** The page of a free object, with its counter. *)
Lemma free_obj_page s c a :
  slab_ok s -> is_class c -> a ∈ flist s c -> exists i u,
    0 <= i < num_pages_in_map (pm s) /\ entry (pm s) i = slab_entry c u /\ 0 <= u < 128 /\
    u + zlen (on_page s c i) = per_page c /\ a ∈ page_slots (pm s) i c /\
    _get_page_from_addr (pm s) a = i /\ slab_page_base a = page_addr (pm s) i /\ 0 < a < 2 ^ 64.
Proof.
  intros Hok Hc Ha. destruct (so_free s Hok c a Hc Ha) as (i & k & v & Hi & He & Hv & Hk & ->).
  destruct (slab_entry_decode c v Hc Hv) as (Ev & Eu & ? & _).
  destruct (so_page s Hok i Hi ltac:(lia)) as (c' & u & Hc' & He' & Hu & Hsum).
  destruct (class_facts c' Hc') as (_ & ? & _).
  pose proof (zlen_nonneg (on_page s c' i)).
  destruct (slab_entry_decode c' u Hc' ltac:(lia)) as (Ev' & _). assert (c' = c) as -> by congruence.
  destruct (slot_page (pm s) (so_pmm s Hok) i c k Hc Hi Hk) as (? & ? & Eb).
  assert (slot (pm s) i c k ∈ on_page s c i) as Hin by (by apply list_elem_of_filter).
  exists i, u. split_and!; try done; try lia; [|apply elem_of_page_slots; eauto].
  destruct (on_page s c i); [by apply not_elem_of_nil in Hin | unfold zlen in *; cbn in *; lia].
Qed.

(** [slab_pop] hands out the first free object, which becomes live. *)
Lemma slab_pop_spec s c obj rest :
  slab_ok s -> is_class c -> flist s c = obj :: rest ->
  exists s', slab_pop c s = (obj, s') /\ slab_ok s' /\ 0 < obj /\ (forall k, ~ live s obj k) /\
    forall q n, live s' q n <-> (q = obj /\ n = class_size c) \/ live s q n.
Proof.
  intros Hok Hc Hfl.
  destruct (free_obj_page s c obj Hok Hc ltac:(rewrite Hfl; left))
    as (i & u & Hi & He & Hu & Hsum & Hslot & Hpg & Hbase & ?).
  pose proof (so_nodup s Hok c Hc) as Hnd. rewrite Hfl in Hnd. apply NoDup_cons in Hnd as [Hnot Hnd].
  assert (zlen (on_page s c i) = zlen (filter (fun a => slab_page_base a = page_addr (pm s) i) rest) + 1) as Hfi.
  { unfold on_page. rewrite Hfl, filter_cons_True by done. apply zlen_cons. }
  exists (slab_upd s c i (u + 1) rest).
  assert (Hctx : forall a, a ∉ page_slots (pm s) i c -> a ∈ rest <-> a ∈ flist s c).
  { intros a Ha. rewrite Hfl, elem_of_cons. split; [by right|]. intros [->|]; done. }
  assert (Hsub : forall a, a ∈ rest -> a ∈ page_slots (pm s) i c \/ a ∈ flist s c).
  { intros a Ha. right. rewrite Hfl. by right. }
  split_and!; [| | lia | |].
  - unfold slab_pop. rewrite Hfl. cbn zeta.
    change (pm (set_class _ _ _ s)) with (pm s). rewrite Hpg, He. unfold slab_upd. do 3 f_equal.
    + destruct (slab_entry_decode c (u + 1) Hc ltac:(lia)) as (_ & _ & ? & _).
      unfold slab_entry, SLAB_TAG in *. rewrite u32_small; lia.
    + rewrite (so_count s Hok c Hc), Hfl, u32_sub_l, zlen_cons. f_equal. lia.
  - apply (upd_ok s Hok c i u); try done; try lia.
    intros j Hj. unfold on_page. rewrite Hfl, filter_cons_False; [done|].
    rewrite Hbase. by intros ?%page_addr_inj.
  - intros k Hl. apply (slot_live s i c u obj k) in Hl; [|done || lia..].
    rewrite Hfl in Hl. destruct Hl as [Hl _]. apply Hl. left.
  - intros q n. rewrite (upd_live s Hok c i u (u + 1) rest) by (done || lia).
    destruct (decide (q ∈ page_slots (pm s) i c)) as [Hq|Hq].
    + rewrite (slot_live s i c u q n) by (done || lia). rewrite Hfl, not_elem_of_cons.
      destruct (decide (q = obj)) as [->|]; naive_solver.
    + assert (q <> obj) by (intros ->; done). naive_solver.
Qed.

(** ** Page-level steps seen from the slab layer *)

Lemma layout_slot p p' : same_layout p p' -> forall i c k, slot p' i c k = slot p i c k.
Proof. intros H i c k. unfold slot. by rewrite (same_layout_addr p p'). Qed.

(** Pages outside the changed run keep their live blocks. *)
Lemma live_at_ext s s' i q n :
  same_layout (pm s) (pm s') -> entry (pm s') i = entry (pm s) i ->
  (forall c k, is_class c -> 0 <= k < per_page c -> entry (pm s) i <> 0 ->
     slot (pm s) i c k ∈ flist s' c <-> slot (pm s) i c k ∈ flist s c) ->
  live_at s' i q n <-> live_at s i q n.
Proof.
  intros Hl He Hm. unfold live_at. rewrite He, (same_layout_addr _ _ _ Hl).
  apply or_iff_compat_l. split; intros (c & u & k & Hc & Hej & Hu & Hk & -> & -> & Hno);
    exists c, u, k; rewrite ?(layout_slot _ _ Hl) in *;
    assert (entry (pm s) i <> 0) by
      (destruct (slab_entry_decode c u Hc Hu) as (_ & _ & ? & _); unfold SLAB_TAG in *; lia).
  - rewrite Hm in Hno by done. done.
  - rewrite Hm by done. done.
Qed.

(** A page allocation leaves the slab pages alone and adds one live block. *)
Lemma takes_slab s p' i k :
  slab_ok s -> free_run (page_bitmap (pm s)) (num_pages_in_map (pm s)) i k -> 0 < k ->
  takes (pm s) p' i k k ->
  slab_ok (set_pm p' s) /\
  forall q n, live (set_pm p' s) q n <-> (q = page_addr (pm s) i /\ n = k * PAGE_SIZE) \/ live s q n.
Proof.
  intros Hok Hrun Hk Htk. pose proof (so_pmm s Hok) as Hp. pose proof (ok_np _ Hp).
  assert (k < SLAB_TAG) as Hkt by (destruct Hrun; unfold SLAB_TAG; lia).
  assert (span k = k) as Hsp by (unfold span; by rewrite (proj2 (Z.ltb_lt _ _))).
  assert (pmm_ok p') as Hp' 
    by (apply (takes_ok (pm s) p' i k k); (done || unfold SLAB_TAG in Hkt; lia)).
  assert (entry (pm s) i = 0) as Hz.
  { destruct Hrun as (? & ? & Hf). apply (free_entry_0 _ Hp); [lia | apply Hf; lia]. }
  destruct Htk as [Hl Hcur Hb Hei Hoth Hav]. destruct Hrun as (Hi0 & Hik & Hfree).
  pose proof Hl as (_ & _ & _ & Hnp & _).
  assert (forall j q n, 0 <= j -> j <> i -> live_at (set_pm p' s) j q n <-> live_at s j q n) as Hext.
  { intros j q n Hj Hne. apply live_at_ext; cbn; [done | by apply Hoth | done]. }
  split.
  - split; cbn; try apply Hok; [done | |].
    + intros c a Hc Ha. destruct (so_free s Hok c a Hc Ha) as (j & l & u & Hj & He & Hu & Hk' & ->).
      exists j, l, u. rewrite Hnp, (layout_slot _ _ Hl), Hoth; [done | lia |].
      intros ->. destruct (slab_entry_decode c u Hc Hu) as (_ & _ & ? & _). unfold SLAB_TAG in *. lia.
    + intros j Hj Ht. rewrite Hnp in Hj. destruct (decide (j = i)) as [->|Hne]; [lia|].
      rewrite Hoth in * by lia. destruct (so_page s Hok j Hj Ht) as (c & u & ? & ? & ? & Hs).
      exists c, u. unfold on_page, flist in *. cbn. rewrite (same_layout_addr _ _ _ Hl). done.
  - intros q n. split.
    + intros (j & Hj & Hlj). cbn in Hj. rewrite Hnp in Hj. destruct (decide (j = i)) as [->|Hne].
      * left. destruct Hlj as [(_ & -> & ->) | (c & u & l & Hc & He & Hu & _)]; cbn in *.
        -- rewrite (same_layout_addr _ _ _ Hl), Hei. done.
        -- destruct (slab_entry_decode c u Hc Hu) as (_ & _ & ? & _). lia.
      * right. exists j. split; [done|]. apply Hext; [lia | done..].
    + intros [[-> ->] | (j & Hj & Hlj)].
      * exists i. cbn. rewrite Hnp. split; [lia|]. left. cbn. rewrite Hei, (same_layout_addr _ _ _ Hl). split_lia.
      * exists j. cbn. rewrite Hnp. split; [done|].
        apply Hext; [lia | | done]. intros ->.
        destruct (live_at_extent s i q n Hj Hlj) as (m & (_ & ? & _) & _). done.
Qed.

(** Giving a page block back removes it. *)
Lemma gives_slab s p' i k :
  slab_ok s -> block (pm s) i k -> entry (pm s) i < SLAB_TAG -> gives (pm s) p' i k ->
  slab_ok (set_pm p' s) /\
  forall q n, live (set_pm p' s) q n <-> live s q n /\ q <> page_addr (pm s) i.
Proof.
  intros Hok Hb Ht Hgv. pose proof (so_pmm s Hok) as Hp.
  assert (pmm_ok p') as Hp' by (by eapply gives_ok).
  pose proof Hb as (Hi & Hnz & Hspan). pose proof (ok_entry _ Hp i Hi) as ((Hge & _) & _).
  destruct Hgv as [Hl Hcur Hbits Hei Hoth Hav]. pose proof Hl as (_ & _ & _ & Hnp & _).
  assert (forall j q n, 0 <= j -> j <> i -> live_at (set_pm p' s) j q n <-> live_at s j q n) as Hext.
  { intros j q n Hj Hne. apply live_at_ext; cbn; [done | by apply Hoth | done]. }
  split.
  - split; cbn; try apply Hok; [done | |].
    + intros c a Hc Ha. destruct (so_free s Hok c a Hc Ha) as (j & l & u & Hj & He & Hu & Hk' & ->).
      exists j, l, u. rewrite Hnp, (layout_slot _ _ Hl), Hoth; [done | lia |].
      intros ->. destruct (slab_entry_decode c u Hc Hu) as (_ & _ & ? & _). lia.
    + intros j Hj Htj. rewrite Hnp in Hj. destruct (decide (j = i)) as [->|Hne].
      { rewrite Hei in Htj. unfold SLAB_TAG in Htj. lia. }
      rewrite Hoth in * by lia. destruct (so_page s Hok j Hj Htj) as (c & u & ? & ? & ? & Hs).
      exists c, u. unfold on_page, flist in *. cbn. rewrite (same_layout_addr _ _ _ Hl). done.
  - assert (live_at s i (page_addr (pm s) i) (entry (pm s) i * PAGE_SIZE)) as Hself by (left; split_lia).
    intros q n. split.
    + intros (j & Hj & Hlj). cbn in Hj. rewrite Hnp in Hj. destruct (decide (j = i)) as [->|Hne].
      * destruct (live_at_extent (set_pm p' s) i q n) as (m & (_ & ? & _) & _); [cbn; lia | done | done].
      * assert (live_at s j q n) as Hlj'.
        { apply Hext; [lia | done..]. }
        split; [by exists j|]. intros ->.
        destruct (live_at_extent s j _ n Hj Hlj') as (_ & _ & _ & _ & ?).
        destruct (live_at_disj s Hok j i _ _ _ _ Hj Hi Hne Hlj' Hself); unfold PAGE_SIZE in *; lia.
    + intros [(j & Hj & Hlj) Hq]. exists j. cbn. rewrite Hnp. split; [done|].
      assert (j <> i).
      { intros ->. destruct Hlj as [(_ & -> & _) | (c & u & l & Hc & He & Hu & _)]; [done|].
        destruct (slab_entry_decode c u Hc Hu) as (_ & _ & ? & _). lia. }
      apply Hext; [lia | done..].
Qed.

(** ** A single page block and a slab page with every object in use *)

Definition set_page_entry (s : kmem) (i v : Z) : kmem := set_pm (set_entry i v (pm s)) s.

Section convert.
Context (s : kmem) (Hok : slab_ok s) (i v : Z).
Context (Hi : 0 <= i < num_pages_in_map (pm s)).
Context (Hnz : entry (pm s) i <> 0) (Hspan : span (entry (pm s) i) = 1).
Context (Hnone : forall c, is_class c -> on_page s c i = []).
Context (Hv : v = 1 \/ exists c, is_class c /\ v = slab_entry c (per_page c)).

Lemma convert_entry j : 0 <= j ->
  entry (pm (set_page_entry s i v)) j = if decide (j = i) then v else entry (pm s) j.
Proof. intros Hj. apply set_entry_get; [apply Hok | done | done]. Qed.

Lemma full_entry c : is_class c ->
  0 <= per_page c < 2 ^ 16 /\ SLAB_CLASS (slab_entry c (per_page c)) = c /\
  SLAB_TAG <= slab_entry c (per_page c) < 2 ^ 32 /\ span (slab_entry c (per_page c)) = 1.
Proof.
  intros Hc. destruct (class_facts c Hc) as (_ & ? & _).
  destruct (slab_entry_decode c (per_page c) Hc ltac:(lia)) as (? & _ & ? & ?). split_lia.
Qed.

Lemma convert_ok : slab_ok (set_page_entry s i v).
Proof.
  assert (0 <= v < 2 ^ 32 /\ span v = 1) as [Hvb Hvs].
  { destruct Hv as [-> | (c & Hc & ->)]; [done|].
    destruct (full_entry c Hc) as (_ & _ & ? & ?). unfold SLAB_TAG in *. split_lia. }
  split; try apply Hok.
  - apply set_entry_ok; [apply Hok | done | done | congruence | done].
  - intros c a Hc Ha. destruct (so_free s Hok c a Hc Ha) as (j & k & u & Hj & He & Hu & Hk & ->).
    exists j, k, u. rewrite convert_entry by lia. rewrite decide_False; [done|]. intros ->.
    assert (slot (pm s) i c k ∈ on_page s c i) as Hin.
    { apply list_elem_of_filter. split; [|done]. by apply slot_page; [apply Hok|..]. }
    rewrite Hnone in Hin by done. by apply not_elem_of_nil in Hin.
  - intros j Hj. rewrite convert_entry by lia. case_decide as Hd.
    + subst j. intros Ht. destruct Hv as [-> | (c & Hc & ->)]; [done|].
      exists c, (per_page c). destruct (full_entry c Hc) as (? & _). split_lia.
      change (on_page (set_page_entry s i (slab_entry c (per_page c))) c i) with (on_page s c i).
      rewrite Hnone by done. unfold zlen. cbn. lia.
    + intros Ht. apply (so_page s Hok j Hj Ht).
Qed.

Lemma convert_live_other j q n :
  0 <= j -> j <> i -> live_at (set_page_entry s i v) j q n <-> live_at s j q n.
Proof.
  intros Hj Hne. apply live_at_ext; [by repeat split; cbn; rewrite ?zlen_zset | | done].
  by rewrite convert_entry, decide_False by done.
Qed.
End convert.

(** No free object lies in a page that is not a slab page. *)
Lemma untagged_none s i c :
  slab_ok s -> is_class c -> entry (pm s) i < SLAB_TAG -> on_page s c i = [].
Proof.
  intros Hok Hc Ht. destruct (on_page s c i) as [|a l] eqn:E; [done|].
  assert (a ∈ on_page s c i) as [Hpg Ha]%list_elem_of_filter by (rewrite E; left).
  destruct (so_free s Hok c a Hc Ha) as (j & k & u & Hj & He & Hu & Hk & ->).
  destruct (slot_page (pm s) (so_pmm s Hok) j c k Hc Hj Hk) as (_ & _ & Eb). rewrite Eb in Hpg.
  apply page_addr_inj in Hpg as ->. destruct (slab_entry_decode c u Hc Hu) as (_ & _ & ? & _). lia.
Qed.

(** A full slab page has no free object of another class either. *)
Lemma tagged_none s i c u c' :
  slab_ok s -> is_class c -> is_class c' -> entry (pm s) i = slab_entry c u -> 0 <= u < 2 ^ 16 ->
  c' <> c -> on_page s c' i = [].
Proof.
  intros Hok Hc Hc' He Hu Hne. destruct (on_page s c' i) as [|a l] eqn:E; [done|].
  assert (a ∈ on_page s c' i) as [Hpg Ha]%list_elem_of_filter by (rewrite E; left).
  destruct (so_free s Hok c' a Hc' Ha) as (j & k & v & Hj & Hej & Hv & Hk & ->).
  destruct (slot_page (pm s) (so_pmm s Hok) j c' k Hc' Hj Hk) as (_ & _ & Eb). rewrite Eb in Hpg.
  apply page_addr_inj in Hpg as ->. destruct (slab_entry_decode c u Hc Hu) as (E1 & _).
  destruct (slab_entry_decode c' v Hc' Hv) as (E2 & _). congruence.
Qed.

Lemma page_to_slab s i c :
  slab_ok s -> is_class c -> 0 <= i < num_pages_in_map (pm s) -> entry (pm s) i = 1 ->
  let s' := set_page_entry s i (slab_entry c (per_page c)) in
  slab_ok s' /\ forall q n, (q ∉ page_slots (pm s) i c) -> live s' q n <-> live s q n.
Proof.
  intros Hok Hc Hi He s'.
  destruct (full_entry c Hc) as (Hpp & Ecl & Htg & Hsp).
  assert (forall c, is_class c -> on_page s c i = []) as Hnone.
  { intros c' Hc'. apply untagged_none; [done | done | by rewrite He]. }
  split.
  { apply convert_ok; [done | done | by rewrite He | by rewrite He | done | by right; exists c]. }
  intros q n Hq. split.
  - intros (j & Hj & Hl). cbn in Hj. exists j. split; [done|]. destruct (decide (j = i)) as [->|Hne].
    + destruct Hl as [(Ht & _) | (c' & u & k & Hc' & Hej & Hu & Hk & -> & _)].
      { subst s'. rewrite convert_entry, decide_True in Ht by (done || lia). lia. }
      subst s'. rewrite convert_entry, decide_True in Hej by (done || lia).
      destruct (slab_entry_decode c' u Hc' Hu) as (E & _). assert (c' = c) as -> by congruence.
      destruct Hq. apply elem_of_page_slots. eauto.
    + by apply (convert_live_other s Hok i _ Hi j q n) in Hl; [|lia|].
  - intros (j & Hj & Hl). exists j. split; [done|]. destruct (decide (j = i)) as [->|Hne].
    + destruct Hl as [(_ & -> & _) | (c' & u & k & Hc' & Hej & Hu & Hk & -> & _)].
      * destruct Hq. apply elem_of_page_slots. exists 0. unfold slot.
        destruct (class_facts c Hc) as (_ & ? & _). split_lia.
      * rewrite He in Hej. destruct (slab_entry_decode c' u Hc' Hu) as (_ & _ & ? & _). unfold SLAB_TAG in *. lia.
    + apply (convert_live_other s Hok i _ Hi j q n); [lia | done | done].
Qed.

Lemma slab_to_page s i c :
  slab_ok s -> is_class c -> 0 <= i < num_pages_in_map (pm s) ->
  entry (pm s) i = slab_entry c (per_page c) ->
  let s' := set_page_entry s i 1 in
  slab_ok s' /\ entry (pm s') i = 1 /\
  forall q n, (q ∉ page_slots (pm s) i c) -> live s' q n <-> live s q n.
Proof.
  intros Hok Hc Hi He s'.
  destruct (full_entry c Hc) as (Hpp & Ecl & Htg & Hsp).
  assert (forall c', is_class c' -> on_page s c' i = []) as Hnone.
  { intros c' Hc'. destruct (decide (c' = c)) as [->|Hne]; [|by apply (tagged_none s i c (per_page c))].
    destruct (so_page s Hok i Hi ltac:(lia)) as (c' & u & Hc'' & He' & Hu & Hsum).
    destruct (class_facts c' Hc'') as (_ & ? & _). pose proof (zlen_nonneg (on_page s c' i)).
    destruct (slab_entry_decode c' u Hc'' ltac:(lia)) as (E & Eu & _).
    destruct (slab_entry_decode c (per_page c) Hc ltac:(lia)) as (_ & Eu' & _).
    assert (c' = c) as -> by congruence. assert (u = per_page c) by congruence.
    unfold zlen in *. by destruct (on_page s c i); [|cbn in *; lia]. }
  split; [|split].
  { apply convert_ok; [done | done | rewrite He; unfold SLAB_TAG in *; lia | by rewrite He | done | by left]. }
  { subst s'. rewrite convert_entry, decide_True by (done || lia). done. }
  intros q n Hq. split.
  - intros (j & Hj & Hl). cbn in Hj. exists j. split; [done|]. destruct (decide (j = i)) as [->|Hne].
    + destruct Hl as [(_ & -> & _) | (c' & u & k & Hc' & Hej & Hu & Hk & -> & _)].
      * destruct Hq. apply elem_of_page_slots. exists 0. unfold slot, s'.
        destruct (class_facts c Hc) as (_ & ? & _). split_lia.
        change (page_addr (pm (set_page_entry s i 1)) i) with (page_addr (pm s) i). lia.
      * subst s'. rewrite convert_entry, decide_True in Hej by (done || lia).
        destruct (slab_entry_decode c' u Hc' Hu) as (_ & _ & ? & _). unfold SLAB_TAG in *. lia.
    + by apply (convert_live_other s Hok i _ Hi j q n) in Hl; [|lia|].
  - intros (j & Hj & Hl). exists j. split; [done|]. destruct (decide (j = i)) as [->|Hne].
    + destruct (live_at_slot s c i (per_page c) [] Hc s q n (per_page c) (or_intror eq_refl) He ltac:(lia) Hl)
        as (? & _). done.
    + apply (convert_live_other s Hok i _ Hi j q n); [lia | done | done].
Qed.

(** ** [slab_alloc] *)

Lemma set_entry_twice i v w p : set_entry i v (set_entry i w p) = set_entry i v p.
Proof. unfold set_entry, zset; cbn. by rewrite list_insert_insert_eq. Qed.

Lemma refill_loop p i c :
  is_class c ->
  zfor (Z.to_nat (per_page c)) 0
    (fun k '(fl, cnt) => (page_addr p i + k * class_size c :: fl, cnt +32 1)) ([], 0) =
  (reverse (page_slots p i c), u32 (zlen (reverse (page_slots p i c)))).
Proof.
  intros Hc. destruct (class_facts c Hc) as (_ & ? & _).
  pose proof (zfor_ind (fun k r => r =
    (reverse ((fun k => slot p i c k) <$> seqZ 0 k), u32 (zlen (reverse ((fun k => slot p i c k) <$> seqZ 0 k)))))
    (fun k '(fl, cnt) => (page_addr p i + k * class_size c :: fl, cnt +32 1)) (Z.to_nat (per_page c)) 0 ([], 0)) as H0.
  rewrite Z2Nat.id, Z.add_0_l in H0 by lia. apply H0; [done|].
  intros k r Hk ->. rewrite <- (Z2Nat.id (k + 1)), Z2Nat.inj_add by lia.
  rewrite Nat.add_1_r, seqZ_S, Z2Nat.id, Z.add_0_l, fmap_app by lia.
  rewrite reverse_app. cbn [fmap list_fmap]. rewrite reverse_singleton. cbn [app]. f_equal.
  rewrite zlen_cons, u32_add_l. done.
Qed.

(** Inside a whole-page block nothing but its start is live. *)
Lemma page_interior s i c q n :
  slab_ok s -> is_class c -> 0 <= i < num_pages_in_map (pm s) -> entry (pm s) i = 1 ->
  q ∈ page_slots (pm s) i c -> q <> page_addr (pm s) i -> ~ live s q n.
Proof.
  intros Hok Hc Hi He (k & Hk & ->)%elem_of_page_slots Hq (j & Hj & Hlj).
  destruct (decide (j = i)) as [->|Hne].
  - destruct Hlj as [(_ & ? & _) | (c' & u & k' & Hc' & Hej & Hu & _)]; [done|].
    rewrite He in Hej. destruct (slab_entry_decode c' u Hc' Hu) as (_ & _ & ? & _). unfold SLAB_TAG in *. lia.
  - assert (live_at s i (page_addr (pm s) i) PAGE_SIZE) as Hself.
    { left. rewrite He. unfold SLAB_TAG. split_lia. }
    destruct (live_at_extent s j _ n Hj Hlj) as (_ & _ & _ & _ & ?).
    destruct (slot_bounds (pm s) i c k Hc Hi Hk) as (off & E & ? & ? & _). rewrite E in *.
    destruct (class_facts c Hc) as (? & _).
    destruct (live_at_disj s Hok j i _ _ _ _ Hj Hi Hne Hlj Hself); lia.
Qed.

Lemma slab_refill_spec s i c :
  slab_ok s -> is_class c -> 0 <= i < num_pages_in_map (pm s) -> entry (pm s) i = 1 -> flist s c = [] ->
  let s' := slab_refill c (page_addr (pm s) i) s in
  slab_ok s' /\ flist s' c = reverse (page_slots (pm s) i c) /\
  forall q n, live s' q n <-> live s q n /\ q <> page_addr (pm s) i.
Proof.
  intros Hok Hc Hi He Hfl s'. pose proof (so_pmm s Hok) as Hp.
  destruct (class_facts c Hc) as (Hcs & Hpp & Hmul & Hsz).
  destruct (page_to_slab s i c Hok Hc Hi He) as [Hok1 Hlive1].
  set (s1 := set_page_entry s i (slab_entry c (per_page c))) in *.
  destruct (full_entry c Hc) as (? & _ & Htg & _).
  assert (entry (pm s1) i = slab_entry c (per_page c)) as He1.
  { subst s1. rewrite convert_entry, decide_True by (done || lia). done. }
  assert (s' = slab_upd s1 c i 0 (reverse (page_slots (pm s) i c))) as Es'.
  { unfold s', slab_refill. rewrite Hsz, class_tag by done.
    pose proof (get_page_exact (pm s) i 0 Hp Hi ltac:(done)) as Epg. rewrite Z.add_0_r in Epg. rewrite Epg.
    change (flist (set_pm _ s) c) with (flist s c). change (fcount (set_pm _ s) c) with (fcount s c).
    rewrite (so_count s Hok c Hc), Hfl. fold (per_page c). change (u32 (zlen (@nil Z))) with 0.
    rewrite refill_loop by done. unfold slab_upd, s1, set_page_entry. cbn [pm set_pm].
    rewrite set_entry_twice. unfold set_class, set_pm, slab_entry. cbn. by rewrite Z.add_0_r. }
  assert (flist s1 c = []) as Hfl1 by done.
  assert (NoDup (reverse (page_slots (pm s) i c))) as Hnd.
  { rewrite reverse_Permutation. apply NoDup_fmap_2_strong; [|apply NoDup_seqZ].
    intros k l Hk%elem_of_seqZ Hl%elem_of_seqZ E. destruct (slot_inj (pm s) Hp i i c k l); try done; lia. }
  assert (forall a, a ∈ reverse (page_slots (pm s) i c) <-> a ∈ page_slots (pm s) i c) as Hrev.
  { intros a. by rewrite elem_of_reverse. }
  assert (forall a, a ∈ page_slots (pm s) i c -> slab_page_base a = page_addr (pm s) i) as Hbase.
  { intros a (k & Hk & ->)%elem_of_page_slots. by apply slot_page. }
  split; [|split].
  - rewrite Es'. apply (upd_ok s1 Hok1 c i (per_page c)); try done; try lia.
    + intros j Hj. unfold on_page. rewrite Hfl1, filter_none; [done|].
      intros a Ha. rewrite Hbase by (by apply Hrev).
      by intros ?%(page_addr_inj (pm s)).
    + intros a Ha. left. by apply Hrev.
    + rewrite filter_all by (intros a Ha; apply Hbase; by apply Hrev).
      rewrite zlen_reverse, zlen_page_slots by done. lia.
  - rewrite Es'. destruct (upd_flist s1 Hok1 c i 0 (reverse (page_slots (pm s) i c)) Hc c Hc) as [-> _].
    by rewrite decide_True.
  - intros q n. rewrite Es', (upd_live s1 Hok1 c i (per_page c)); try done; try lia.
    2:{ intros a Ha. rewrite Hrev, Hfl1. split; [done | by intros ?%not_elem_of_nil]. }
    rewrite Hrev. change (page_slots (pm s1) i c) with (page_slots (pm s) i c).
    assert (page_addr (pm s) i ∈ page_slots (pm s) i c) as Hfirst.
    { apply elem_of_page_slots. exists 0. unfold slot. split_lia. }
    split.
    + intros [(? & ? & _) | [Hq Hl]]; [done|]. rewrite Hlive1 in Hl by done.
      split; [done|]. by intros ->.
    + intros [Hl Hq]. right. assert (q ∉ page_slots (pm s) i c) as Hns.
      { intros Hin. by apply (page_interior s i c q n). }
      split; [done|]. by apply Hlive1.
Qed.

(** What an allocation of [m] bytes at [p] does to the live blocks. *)
Definition adds_block (s s' : kmem) (p m : Z) : Prop :=
  slab_ok s' /\ 0 < p /\ (forall k, ~ live s p k) /\
  forall q n, live s' q n <-> (q = p /\ n = m) \/ live s q n.

Lemma set_pm_self s : set_pm (pm s) s = s.
Proof. by destruct s. Qed.

(** No run of free pages fits the request. *)
Definition no_run (p : pmm) (n : Z) : Prop :=
  size_ok p n -> forall i, 0 <= i -> ~ free_run (page_bitmap p) (num_pages_in_map p) i (pages_for n).

(** The page allocator seen from the slab layer. *)
Lemma page_alloc_spec s n p m :
  slab_ok s -> 0 <= n -> _kalloc_internal n 0 true (pm s) = (p, m) ->
  (p = 0 /\ m = pm s /\ no_run (pm s) n) \/
  (exists i, 0 <= i < num_pages_in_map m /\ p = page_addr m i /\ entry m i = pages_for n /\ 0 < n /\
     adds_block s (set_pm m s) p (pages_for n * PAGE_SIZE)).
Proof.
  intros Hok Hn Ha. pose proof (so_pmm s Hok) as Hp. pose proof (ok_cursor _ Hp).
  destruct (kalloc_internal_spec (pm s) n 0 true p m Hp Hn ltac:(lia) Ha)
    as [(-> & -> & Hno) | (i & Hsz & -> & _ & Hrun & Htk)]; [left; split_and!; done | right].
  destruct Hsz as (Hpos & _). destruct (pages_for_pos n ltac:(lia)) as [Hpf _].
  destruct (takes_slab s m i (pages_for n) Hok Hrun Hpf Htk) as [Hok' Hlive].
  pose proof Hrun as (Hi0 & Hik & Hfr). pose proof (tk_layout _ _ _ _ _ Htk) as Hl.
  pose proof Hl as (_ & _ & _ & Hnp & _). exists i. rewrite (same_layout_addr _ _ _ Hl), Hnp.
  split; [lia|]. split; [done|]. split; [apply Htk|]. split; [lia|]. split; [done|].
  split; [apply page_addr_pos; [done | lia] |]. split; [|done].
  intros k (j & Hj & Hlj). destruct (live_at_extent s j _ _ Hj Hlj) as (b & Hb & ? & Hend & ?).
  assert (bitmap_test (page_bitmap (pm s)) i = true) as Htak.
  { apply (block_taken _ Hp j b i Hb). unfold page_addr, PAGE_SIZE in *. lia. }
  rewrite Hfr in Htak by lia. done.
Qed.

Lemma slab_alloc_spec s c p s' :
  slab_ok s -> is_class c -> slab_alloc c s = (p, s') ->
  (p = 0 /\ s' = s /\ flist s c = [] /\ no_run (pm s) PAGE_SIZE) \/ adds_block s s' p (class_size c).
Proof.
  intros Hok Hc Ha. unfold slab_alloc in Ha. destruct (flist s c) as [|obj rest] eqn:Hfl.
  - destruct (_kalloc_internal PAGE_SIZE 0 true (pm s)) as [page m] eqn:Hk.
    destruct (page_alloc_spec s PAGE_SIZE page m Hok ltac:(done) Hk)
      as [(-> & -> & Hno) | (i & Hi & -> & He & _ & Hok1 & Hpos & Hfresh & Hl1)].
    { left. cbn in Ha. simplify_eq. by rewrite set_pm_self. }
    right. rewrite (proj2 (Z.eqb_neq _ _)) in Ha by lia.
    change (pages_for PAGE_SIZE) with 1 in *.
    destruct (slab_refill_spec (set_pm m s) i c Hok1 Hc Hi He Hfl) as (Hok2 & Hfl2 & Hl2).
    cbn [pm set_pm] in *. set (s2 := slab_refill c (page_addr m i) (set_pm m s)) in *.
    destruct (class_facts c Hc) as (_ & Hpp & _).
    destruct (reverse (page_slots m i c)) as [|obj rest] eqn:Hrev.
    { pose proof (zlen_reverse (page_slots m i c)) as Hz. rewrite Hrev, zlen_page_slots in Hz by done.
      unfold zlen in Hz. cbn in Hz. lia. }
    destruct (slab_pop_spec s2 c obj rest Hok2 Hc Hfl2) as (s3 & E & Hok3 & Ho & Hf3 & Hl3).
    rewrite E in Ha. simplify_eq.
    assert (forall q n, live s2 q n <-> live s q n) as Hsame.
    { intros q n. rewrite Hl2, Hl1. split; [intros [[[? ?]|?] ?]; done|].
      intros Hq. split; [by right|]. intros ->. by apply Hfresh in Hq. }
    split; [done|]. split; [done|]. split; [intros k Hk'; apply Hsame in Hk'; by apply Hf3 in Hk'|].
    intros q n. by rewrite Hl3, Hsame.
  - right. destruct (slab_pop_spec s c obj rest Hok Hc Hfl) as (s3 & E & Hok3 & Ho & Hf3 & Hl3).
    rewrite E in Ha. simplify_eq. done.
Qed.

(** [kalloc] fails without a trace, or adds one fresh block that is large
    enough. *)
Lemma kalloc_spec s n p s' :
  slab_ok s -> 0 <= n -> kalloc n s = (p, s') ->
  (p = 0 /\ s' = s) \/ exists m, n <= m /\ adds_block s s' p m.
Proof.
  intros Hok Hn Ha. unfold kalloc in Ha. destruct (_ && _) eqn:E in Ha; bool_hyps.
  - destruct (slab_class_for_spec n ltac:(lia)) as (Hc & Hle & _).
    destruct (slab_alloc_spec s _ p s' Hok Hc Ha) as [(-> & -> & _)|Hadd]; [by left | right; eauto].
  - destruct (_kalloc_internal n 0 true (pm s)) as [p' m] eqn:Hk. simplify_eq.
    destruct (page_alloc_spec s n p m Hok Hn Hk) as [(-> & -> & _) | (i & _ & _ & _ & Hpos & Hadd)].
    + left. by rewrite set_pm_self.
    + right. exists (pages_for n * PAGE_SIZE). split; [|done]. by apply pages_for_pos.
Qed.

(** ** [slab_free] *)

(** What a release of the block at [p] does to the live blocks. *)
Definition drops_block (s s' : kmem) (p : Z) : Prop :=
  slab_ok s' /\ forall q n, live s' q n <-> live s q n /\ q <> p.

Lemma unlink_page_spec page fl m :
  unlink_page page fl (u32 m) =
  (filter (fun a => slab_page_base a <> page) fl,
   u32 (m - zlen (filter (fun a => slab_page_base a = page) fl))).
Proof.
  revert m. induction fl as [|o fl IH]; intros m; cbn [unlink_page].
  { cbn. by rewrite Z.sub_0_r. }
  destruct (slab_page_base o =? page) eqn:E; bool_hyps.
  - rewrite filter_cons_False, filter_cons_True by tauto. rewrite u32_sub_l, IH, zlen_cons. do 2 f_equal. lia.
  - by rewrite filter_cons_True, filter_cons_False, IH by done.
Qed.

Lemma zlen_filter_split {A} (P : A -> Prop) `{!forall x, Decision (P x)} (l : list A) :
  zlen l = zlen (filter P l) + zlen (filter (fun x => ~ P x) l).
Proof.
  induction l as [|x l IH]; [done|]. rewrite zlen_cons, IH. destruct (decide (P x)).
  - rewrite (filter_cons_True P), (filter_cons_False (fun x => ~ P x)), zlen_cons by tauto. lia.
  - rewrite (filter_cons_False P), (filter_cons_True (fun x => ~ P x)), zlen_cons by tauto. lia.
Qed.

(** A live object goes back on the free list of its class. *)
Lemma slab_push_spec s i c u a :
  slab_ok s -> is_class c -> 0 <= i < num_pages_in_map (pm s) -> entry (pm s) i = slab_entry c u ->
  0 <= u < 2 ^ 16 -> a ∈ page_slots (pm s) i c -> a ∉ flist s c ->
  u + zlen (on_page s c i) = per_page c ->
  let s' := slab_upd s c i (u - 1) (a :: flist s c) in
  1 <= u /\ drops_block s s' a /\ (u - 1) + zlen (on_page s' c i) = per_page c.
Proof.
  intros Hok Hc Hi He Hu Ha Hno Hsum s'. destruct (class_facts c Hc) as (_ & Hpp & _).
  pose proof (on_page_missing s c i a Hok Hc Hi Ha Hno) as Hmiss.
  assert (slab_page_base a = page_addr (pm s) i) as Hbase.
  { apply elem_of_page_slots in Ha as (k & Hk & ->). by apply slot_page; [apply Hok|..]. }
  assert (forall b, b ∉ page_slots (pm s) i c -> b ∈ a :: flist s c <-> b ∈ flist s c) as Hsame.
  { intros b Hb. rewrite elem_of_cons. split; [|by right]. intros [->|]; done. }
  assert (u - 1 + zlen (filter (fun b => slab_page_base b = page_addr (pm s) i) (a :: flist s c)) = per_page c) as Hcnt.
  { rewrite filter_cons_True by done. unfold on_page in Hsum. rewrite zlen_cons. lia. }
  pose proof (upd_flist s Hok c i (u - 1) (a :: flist s c) Hc c Hc) as [Efl _]. rewrite decide_True in Efl by done.
  split; [lia|]. split; [split|].
  - apply (upd_ok s Hok c i u); try done; try lia.
    + apply NoDup_cons. split; [done | by apply so_nodup].
    + intros j Hj. rewrite filter_cons_False; [done|]. rewrite Hbase. by intros ?%page_addr_inj.
    + intros b [->|?]%elem_of_cons; [by left | by right].
  - intros q n. unfold s'. rewrite (upd_live s Hok c i u); try done; try lia. rewrite not_elem_of_cons.
    split.
    + intros [(Hq & [Hqa Hqf] & ->) | [Hq Hl]].
      * split; [|done]. apply (slot_live s i c u); done.
      * split; [done|]. intros ->. done.
    + intros [Hl Hqa]. destruct (decide (q ∈ page_slots (pm s) i c)) as [Hq|Hq]; [left | by right].
      apply (slot_live s i c u) in Hl as [? ->]; done.
  - unfold on_page. unfold s'. rewrite Efl. exact Hcnt.
Qed.

(** The page of a slab with nothing in use goes back to the page allocator. *)
Lemma slab_release_spec s i c :
  slab_ok s -> is_class c -> 0 <= i < num_pages_in_map (pm s) -> entry (pm s) i = slab_entry c 0 ->
  zlen (on_page s c i) = per_page c ->
  let s1 := set_page_entry (slab_unlink_page c (page_addr (pm s) i) s) i 1 in
  let s2 := set_pm (kfree_pages i (pm s1)) s1 in
  slab_ok s2 /\ forall q n, live s2 q n <-> live s q n.
Proof.
  intros Hok Hc Hi He Hfull s1 s2. destruct (class_facts c Hc) as (_ & Hpp & _).
  set (page := page_addr (pm s) i) in *.
  set (fl' := filter (fun a => slab_page_base a <> page) (flist s c)).
  set (t := slab_upd s c i (per_page c) fl').
  assert (forall a, a ∈ page_slots (pm s) i c -> slab_page_base a = page) as Hbase.
  { intros a (k & Hk & ->)%elem_of_page_slots. by apply slot_page; [apply Hok|..]. }
  assert (forall a, a ∉ page_slots (pm s) i c -> a ∈ fl' <-> a ∈ flist s c) as Hsame.
  { intros a Ha. unfold fl'. rewrite list_elem_of_filter. split; [tauto|]. intros Hf. split; [|done].
    intros Hp. apply Ha, (on_page_slots s c i a Hok Hc Hi). by apply list_elem_of_filter. }
  assert (slab_ok t) as Hokt.
  { apply (upd_ok s Hok c i 0); try done; try lia.
    - by apply NoDup_filter, so_nodup.
    - intros j Hj. unfold on_page, fl'. rewrite list_filter_filter_l; [done|].
      intros a -> ?. by apply Hj, (page_addr_inj (pm s)).
    - intros a [_ Ha]%list_elem_of_filter. by right.
    - rewrite filter_none; [change (zlen []) with 0; lia|]. intros a [Ha _]%list_elem_of_filter. done. }
  assert (entry (pm t) i = slab_entry c (per_page c)) as Het.
  { unfold t. rewrite upd_entry, decide_True by (done || lia). done. }
  destruct (slab_to_page t i c Hokt Hc Hi Het) as (Hok1 & He1 & Hl1).
  assert (s1 = set_page_entry t i 1) as Es1.
  { unfold s1, slab_unlink_page. rewrite (so_count s Hok c Hc), unlink_page_spec. fold fl'.
    unfold t, slab_upd, set_page_entry, set_class, set_pm. cbn. rewrite set_entry_twice. do 2 f_equal. f_equal.
    pose proof (zlen_filter_split (fun a => slab_page_base a = page) (flist s c)). unfold fl'. cbn beta in *. lia. }
  rewrite <- Es1 in *.
  assert (block (pm s1) i 1) as Hb.
  { rewrite Es1 in *. split; [done|]. by rewrite He1. }
  destruct (gives_slab s1 (kfree_pages i (pm s1)) i 1 Hok1 Hb ltac:(by rewrite He1)) as [Hok2 Hl2].
  { apply kfree_pages_gives; [apply Hok1 | done | by rewrite He1]. }
  split; [exact Hok2|]. intros q n. unfold s2. rewrite Hl2.
  assert (page_addr (pm s1) i = page) as -> by (by rewrite Es1).
  assert (page ∈ page_slots (pm s) i c) as Hfirst.
  { apply elem_of_page_slots. exists 0. unfold slot. split_lia. }
  destruct (decide (q ∈ page_slots (pm s) i c)) as [Hq|Hq].
  - split.
    + intros [Hl Hne]. exfalso. revert Hl. apply (page_interior s1 i c); try done; by rewrite Es1.
    + intros Hl. apply (slot_live s i c 0) in Hl as [Hno _]; try done; try lia.
      destruct Hno. by apply (on_page_full s c i).
  - assert (live s1 q n <-> live s q n) as ->.
    { rewrite Hl1 by done. unfold t. rewrite (upd_live s Hok c i 0); try done; try lia. tauto. }
    split; [tauto|]. intros Hl. split; [done|]. by intros ->.
Qed.

Lemma slab_free_spec s i c u k :
  slab_ok s -> is_class c -> 0 <= i < num_pages_in_map (pm s) -> entry (pm s) i = slab_entry c u ->
  0 <= u < 2 ^ 16 -> 0 <= k < per_page c -> slot (pm s) i c k ∉ flist s c ->
  drops_block s (slab_free (slot (pm s) i c k) i s) (slot (pm s) i c k).
Proof.
  intros Hok Hc Hi He Hu Hk Hno. set (a := slot (pm s) i c k) in *.
  destruct (class_facts c Hc) as (Hcs & Hpp & Hmul & Hsz).
  destruct (slab_entry_decode c u Hc Hu) as (Ecl & Eu & Htag & _).
  destruct (so_page s Hok i Hi ltac:(lia)) as (c' & u' & Hc' & He' & Hu' & Hsum).
  pose proof (zlen_nonneg (on_page s c' i)). destruct (class_facts c' Hc') as (_ & ? & _).
  destruct (slab_entry_decode c' u' Hc' ltac:(lia)) as (Ecl' & Eu' & _).
  assert (c' = c) as -> by congruence. assert (u' = u) as -> by congruence.
  assert (a ∈ page_slots (pm s) i c) as Ha by (apply elem_of_page_slots; eauto).
  destruct (slab_push_spec s i c u a Hok Hc Hi He Hu Ha Hno Hsum) as (Hu1 & [Hok1 Hl1] & Hsum1).
  destruct (slot_page (pm s) (so_pmm s Hok) i c k Hc Hi Hk) as (Ha64 & _ & Hbase). fold a in Ha64, Hbase.
  destruct (slot_bounds (pm s) i c k Hc Hi Hk) as (off & Eoff & Hoff & Hoff' & Ek). fold a in Eoff.
  assert (slab_entry c u -32 1 = slab_entry c (u - 1)) as Edec.
  { rewrite u32_small; unfold slab_entry, SLAB_TAG in *; lia. }
  destruct (slab_entry_decode c (u - 1) Hc ltac:(lia)) as (_ & Eu1 & _).
  set (s1 := slab_upd s c i (u - 1) (a :: flist s c)) in *.
  pose proof (upd_flist s Hok c i (u - 1) (a :: flist s c) Hc c Hc) as [_ Ecnt]. rewrite decide_True in Ecnt by done.
  unfold slab_free. rewrite He, Ecl, Eu, Hsz, Hbase, has_tag, (proj2 (Z.leb_le _ _)) by (unfold SLAB_TAG in *; lia).
  rewrite (proj2 (Z.eqb_neq u 0)) by lia.
  assert ((a -64 page_addr (pm s) i) mod class_size c = 0) as ->.
  { rewrite Eoff, u64_small by (unfold PAGE_SIZE in *; lia).
    replace (page_addr (pm s) i + off - page_addr (pm s) i) with (k * class_size c) by lia. apply Z.mod_mul. lia. }
  cbn [negb orb Z.eqb]. rewrite Edec, Eu1, (so_count s Hok c Hc), u32_add_l, <- (zlen_cons a).
  change (set_pm _ (set_class c _ _ s)) with s1.
  change (fcount s1 c) with (fcount (slab_upd s c i (u - 1) (a :: flist s c)) c). rewrite Ecnt.
  case_if; [|done]. bool_hyps.
  assert (u = 1) as -> by lia.
  assert (0 <= i < num_pages_in_map (pm s1)) as Hi1 by done.
  assert (entry (pm s1) i = slab_entry c 0) as He1.
  { unfold s1. rewrite upd_entry, decide_True by (done || lia). done. }
  destruct (slab_release_spec s1 i c Hok1 Hc Hi1 He1 ltac:(lia)) as [Hok2 Hl2].
  change (page_addr (pm s1) i) with (page_addr (pm s) i) in *.
  assert (_get_page_from_addr (pm (set_page_entry (slab_unlink_page c (page_addr (pm s) i) s1) i 1))
            (page_addr (pm s) i) = i) as Epg.
  { pose proof (get_page_exact (pm s) i 0 (so_pmm s Hok) Hi ltac:(done)) as Epg. rewrite Z.add_0_r in Epg.
    etransitivity; [|exact Epg]. unfold slab_unlink_page. by destruct (unlink_page _ _ _). }
  unfold set_page_entry in *. rewrite Epg. split; [done|].
  intros q n. rewrite Hl2. apply Hl1.
Qed.

(** [kfree] of a live block removes that block and nothing else. *)
Lemma kfree_spec s p n : slab_ok s -> live s p n -> drops_block s (kfree p s) p.
Proof.
  intros Hok Hl. pose proof (live_bounds s Hok p n Hl) as (Hp & _). pose proof (so_pmm s Hok) as Hpm.
  destruct Hl as (i & Hi & [(He & -> & ->) | (c & u & k & Hc & He & Hu & Hk & -> & -> & Hno)]);
    unfold kfree; rewrite (proj2 (Z.eqb_neq _ 0)) by lia.
  - pose proof (get_page_exact (pm s) i 0 Hpm Hi ltac:(done)) as Epg. rewrite Z.add_0_r in Epg. rewrite Epg.
    rewrite has_tag by (unfold SLAB_TAG in *; lia). rewrite (proj2 (Z.leb_gt _ _)), andb_false_r by lia.
    assert (block (pm s) i (entry (pm s) i)) as Hb.
    { split; [done|]. split; [lia|]. unfold span. rewrite (proj2 (Z.ltb_lt _ _)); lia. }
    apply (gives_slab s _ i (entry (pm s) i)); try done; [lia|].
    apply kfree_pages_gives; try done. lia.
  - destruct (slot_page (pm s) Hpm i c k Hc Hi Hk) as (_ & -> & _).
    destruct (slab_entry_decode c u Hc Hu) as (_ & _ & Htag & _).
    rewrite He, has_tag, (proj2 (Z.ltb_lt _ _)), (proj2 (Z.leb_le _ _)) by (unfold SLAB_TAG in *; lia).
    by apply (slab_free_spec s i c u k).
Qed.

Lemma usable_size_live s p n : slab_ok s -> live s p n -> kalloc_usable_size p s = n.
Proof.
  intros Hok Hl. pose proof (live_bounds s Hok p n Hl) as (Hp & _). pose proof (so_pmm s Hok) as Hpm.
  pose proof (ok_np _ Hpm).
  destruct Hl as (i & Hi & [(He & -> & ->) | (c & u & k & Hc & He & Hu & Hk & -> & -> & Hno)]);
    unfold kalloc_usable_size; rewrite (proj2 (Z.eqb_neq _ 0)) by lia.
  - pose proof (get_page_exact (pm s) i 0 Hpm Hi ltac:(done)) as Epg. rewrite Z.add_0_r in Epg. rewrite Epg.
    rewrite (proj2 (Z.ltb_lt _ _)), has_tag, (proj2 (Z.leb_gt _ _)) by (unfold SLAB_TAG in *; lia).
    apply u64_small. unfold SLAB_TAG, PAGE_SIZE in *. lia.
  - destruct (slot_page (pm s) Hpm i c k Hc Hi Hk) as (_ & -> & _).
    destruct (slab_entry_decode c u Hc Hu) as (Ecl & _ & Htag & _).
    rewrite He, has_tag, (proj2 (Z.ltb_lt _ _)), (proj2 (Z.leb_le _ _)), Ecl by (unfold SLAB_TAG in *; lia).
    by destruct (class_facts c Hc) as (_ & _ & _ & ->).
Qed.

(** The empty slab layer over a well-formed page allocator. *)
Lemma kmem_boot_ok p :
  pmm_ok p -> (forall i, 0 <= i < num_pages_in_map p -> entry p i = 0) -> slab_ok (kmem_boot p).
Proof.
  intros Hp Hz. assert (forall c, is_class c -> flist (kmem_boot p) c = [] /\ fcount (kmem_boot p) c = 0) as Hfl.
  { intros c Hc. class_cases c Hc; done. }
  split; try done.
  - intros c Hc. by destruct (Hfl c Hc) as [-> ->].
  - intros c Hc. destruct (Hfl c Hc) as [-> _]. constructor.
  - intros c a Hc Ha. destruct (Hfl c Hc) as [E _]. rewrite E in Ha. by apply not_elem_of_nil in Ha.
  - intros i Hi Ht. cbn in *. rewrite Hz in Ht by done. done.
Qed.

Global Instance kmem_heap : KHeap kmem := {|
  hp_kalloc := kalloc;
  hp_kfree := kfree;
  hp_pages_available := fun s => num_pages_available (pm s);
  heap_ok := slab_ok;
  heap_live := live;
|}.

(** The allocator of src/mem.c keeps every promise of Heap.v. *)
Global Instance kmem_heap_laws : KHeapLaws kmem.
Proof.
  split; cbn.
  - intros h p n Hok. by apply live_bounds.
  - intros h p n m Hok. by apply live_fun.
  - intros h p n q m Hok. by apply live_disj.
  - intros h h' n Hok Hn Ha. destruct (kalloc_spec h n 0 h' Hok Hn Ha) as [[_ ->] | (m & _ & _ & ? & _)]; [done | lia].
  - intros h h' n p Hok Hn Ha Hp. destruct (kalloc_spec h n p h' Hok Hn Ha) as [[-> _] | (m & Hm & ? & _ & ? & ?)]; [done|].
    eauto.
  - intros h p n. apply kfree_spec.
Qed.
