(* ===== verification/HeapTrace.v ===== *)
(** * The heap in use

    [kalloc]/[kfree] as a client of src/mem.c sees them: runs of the two
    operations from the state that [kmem_init] leaves behind.  The file holds
    the allocator's headline theorems. *)
From S2P Require Import Prelude Heap Pmm PmmInit Slab.
Import Bitmap.

(** One call.  A client frees [NULL] or a block it holds. *)
Inductive heap_step : kmem -> kmem -> Prop :=
| step_alloc n p s s' : 0 <= n < 2 ^ 64 -> kalloc n s = (p, s') -> heap_step s s'
| step_free p n s : live s p n -> heap_step s (kfree p s)
| step_free_null s : heap_step s (kfree 0 s).

Lemma heap_step_ok s s' : heap_step s s' -> slab_ok s -> slab_ok s'.
Proof.
  intros [n p t t' Hn Ha | p n t Hl | t] Hok.
  - destruct (kalloc_spec t n p t' Hok ltac:(lia) Ha) as [[_ ->] | (m & _ & ? & _)]; done.
  - by destruct (kfree_spec t p n Hok Hl).
  - done.
Qed.

Lemma heap_run_ok s s' : rtc heap_step s s' -> slab_ok s -> slab_ok s'.
Proof. induction 1; eauto using heap_step_ok. Qed.

(** ** Which pages the heap owns

    [owned F p]: every page that is free or part of a block satisfies [F].
    The three page-level changes keep it. *)
Definition owned (F : Z -> Prop) (p : pmm) : Prop :=
  (forall j, 0 <= j < num_pages_in_map p -> bitmap_test (page_bitmap p) j = false -> F j) /\
  (forall i n j, block p i n -> i <= j < i + n -> F j).

Inductive page_step (p : pmm) : pmm -> Prop :=
| ps_takes p' i k : free_run (page_bitmap p) (num_pages_in_map p) i k -> 0 < k < SLAB_TAG ->
    takes p p' i k k -> page_step p p'
| ps_gives p' i k : block p i k -> gives p p' i k -> page_step p p'
| ps_retag i v : 0 <= i < num_pages_in_map p -> entry p i <> 0 -> v <> 0 -> 0 <= v < 2 ^ 32 ->
    span v = span (entry p i) -> page_step p (set_entry i v p).

Lemma page_step_ok p p' : page_step p p' -> pmm_ok p -> pmm_ok p'.
Proof.
  intros [p1 i k Hrun Hk Ht | p1 i k Hb Hg | i v Hi He Hv Hvb Hsp] Hok.
  - apply (takes_ok p p1 i k k); try done; try lia; [unfold SLAB_TAG in *; lia|].
    unfold span. by rewrite (proj2 (Z.ltb_lt _ _)) by lia.
  - by apply (gives_ok p p1 i k).
  - by apply set_entry_ok.
Qed.

Lemma page_step_owned F p p' : page_step p p' -> pmm_ok p -> owned F p -> owned F p'.
Proof.
  intros [p1 i k Hrun Hk Ht | p1 i k Hb Hg | i v Hi He Hv Hvb Hsp] Hok [Hfree Hblk].
  - pose proof (tk_layout _ _ _ _ _ Ht) as (_ & _ & _ & Hnp & _). split.
    + intros j Hj Hbit. rewrite Hnp in Hj. rewrite (tk_bits _ _ _ _ _ Ht) in Hbit by lia.
      apply orb_false_iff in Hbit as [_ Hbit]. by apply Hfree.
    + intros l n j Hl Hj. assert (span k = k) as Hsp by (unfold span; by rewrite (proj2 (Z.ltb_lt _ _)) by lia).
      apply (takes_blocks p p1 i k k Hok Hrun ltac:(lia) ltac:(lia) Hsp Ht) in Hl as [[-> ->] | Hl].
      * destruct Hrun as (? & ? & Hr). apply Hfree; [lia | apply Hr; lia].
      * by eapply Hblk.
  - pose proof (gv_layout _ _ _ _ Hg) as (_ & _ & _ & Hnp & _). pose proof (block_bounds p Hok i k Hb). split.
    + intros j Hj Hbit. rewrite Hnp in Hj. rewrite (gv_bits _ _ _ _ Hg) in Hbit by lia.
      destruct (in_range i k j) eqn:E; cbn in Hbit; [|by apply Hfree].
      apply (Hblk i k); [done|]. apply in_range_spec in E. lia.
    + intros l n j Hl Hj. apply (gives_blocks p p1 i k Hg ltac:(lia)) in Hl as [Hl _]. by eapply Hblk.
  - split; [done|]. intros l n j (Hl & Hnz & ->) Hj. cbn in Hl.
    rewrite set_entry_get in *; try apply Hok; try done; try lia.
    apply (Hblk l (span (entry p l))); [|by case_decide; subst; rewrite ?Hsp in *].
    split; [done|]. split; [|done]. case_decide; by subst.
Qed.

(** ** The operations as page steps *)

Lemma internal_steps s n p m :
  slab_ok s -> 0 <= n -> _kalloc_internal n 0 true (pm s) = (p, m) -> rtc page_step (pm s) m.
Proof.
  intros Hok Hn Ha. pose proof (so_pmm s Hok) as Hp. pose proof (ok_cursor _ Hp). pose proof (ok_np _ Hp).
  destruct (kalloc_internal_spec (pm s) n 0 true p m Hp Hn ltac:(lia) Ha)
    as [(_ & -> & _) | (i & (Hpos & _) & _ & _ & Hrun & Htk)]; [done|].
  apply rtc_once, (ps_takes _ _ i (pages_for n)); [done| |done].
  destruct (pages_for_pos n ltac:(lia)) as [? _]. destruct Hrun as (? & ? & _). unfold SLAB_TAG. lia.
Qed.

Lemma retag_step p i c u :
  pmm_ok p -> is_class c -> 0 <= i < num_pages_in_map p -> 0 <= u < 2 ^ 16 ->
  (entry p i = 1 \/ exists v, 0 <= v < 2 ^ 16 /\ entry p i = slab_entry c v) ->
  page_step p (set_entry i (slab_entry c u) p).
Proof.
  intros Hp Hc Hi Hu He. destruct (slab_entry_decode c u Hc Hu) as (_ & _ & ? & Hsp).
  assert (entry p i <> 0 /\ span (entry p i) = 1) as [? ?].
  { destruct He as [-> | (v & Hv & ->)]; [done|].
    destruct (slab_entry_decode c v Hc Hv) as (_ & _ & ? & ?). unfold SLAB_TAG in *. split_lia. }
  apply ps_retag; unfold SLAB_TAG in *; try lia; congruence.
Qed.

Lemma slab_pop_steps s c : slab_ok s -> is_class c -> rtc page_step (pm s) (pm (slab_pop c s).2).
Proof.
  intros Hok Hc. unfold slab_pop. destruct (flist s c) as [|o rest] eqn:Hfl; [done|].
  destruct (free_obj_page s c o Hok Hc ltac:(rewrite Hfl; left)) as (i & u & Hi & He & Hu & _ & _ & Hpg & _).
  cbn. rewrite Hpg, He. apply rtc_once.
  destruct (slab_entry_decode c u Hc ltac:(lia)) as (_ & _ & ? & _).
  assert (slab_entry c u +32 1 = slab_entry c (u + 1)) as ->.
  { unfold is_class, SLAB_CLASSES, SLAB_MAX_SHIFT, SLAB_MIN_SHIFT in Hc.
    rewrite u32_small; unfold slab_entry, SLAB_TAG in *; lia. }
  apply retag_step; [apply Hok | done | done | lia | right; exists u; split_lia].
Qed.

Lemma slab_alloc_steps s c : slab_ok s -> is_class c -> rtc page_step (pm s) (pm (slab_alloc c s).2).
Proof.
  intros Hok Hc. unfold slab_alloc. destruct (flist s c) as [|o rest] eqn:Hfl; [|by apply slab_pop_steps].
  destruct (_kalloc_internal PAGE_SIZE 0 true (pm s)) as [page m] eqn:Hk.
  pose proof (internal_steps s PAGE_SIZE page m Hok ltac:(done) Hk) as Hst.
  destruct (page_alloc_spec s PAGE_SIZE page m Hok ltac:(done) Hk)
    as [(-> & -> & _) | (i & Hi & -> & He & _ & Hok1 & Hpos & _)]; [done|].
  rewrite (proj2 (Z.eqb_neq _ _)) by lia. change (pages_for PAGE_SIZE) with 1 in *.
  destruct (slab_refill_spec (set_pm m s) i c Hok1 Hc Hi He Hfl) as (Hok2 & _ & _).
  cbn [pm set_pm] in *. etransitivity; [exact Hst|]. etransitivity; [|by apply slab_pop_steps].
  apply rtc_once. unfold slab_refill. cbn [pm set_pm].
  pose proof (get_page_exact m i 0 (so_pmm _ Hok1) Hi ltac:(done)) as Epg. rewrite Z.add_0_r in Epg.
  rewrite Epg, class_tag by done. destruct (zfor _ _ _ _) as [fl cnt]. cbn.
  replace (SLAB_TAG + c * 2 ^ 24) with (slab_entry c 0) by (unfold slab_entry; lia).
  apply retag_step; [apply Hok1 | done | done | lia | by left].
Qed.

Lemma kalloc_steps s n : slab_ok s -> 0 <= n -> rtc page_step (pm s) (pm (kalloc n s).2).
Proof.
  intros Hok Hn. unfold kalloc. case_if; bool_hyps.
  - apply slab_alloc_steps; [done|]. by apply slab_class_for_spec.
  - destruct (_kalloc_internal n 0 true (pm s)) as [p m] eqn:Hk. by eapply internal_steps.
Qed.

Lemma gives_step p i k :
  pmm_ok p -> 0 <= i < num_pages_in_map p -> entry p i = k -> 0 < k < SLAB_TAG ->
  page_step p (kfree_pages i p).
Proof.
  intros Hp Hi He Hk. assert (block p i k) as Hb.
  { split; [done|]. rewrite He. split; [lia|]. unfold span. by rewrite (proj2 (Z.ltb_lt _ _)) by lia. }
  apply (ps_gives _ _ i k Hb), kfree_pages_gives; [done | done | lia].
Qed.

Lemma slab_free_steps s i c u a :
  slab_ok s -> is_class c -> 0 <= i < num_pages_in_map (pm s) -> entry (pm s) i = slab_entry c u ->
  0 <= u < 2 ^ 16 -> slab_page_base a = page_addr (pm s) i ->
  rtc page_step (pm s) (pm (slab_free a i s)).
Proof.
  intros Hok Hc Hi He Hu Hbase. pose proof (so_pmm s Hok) as Hp.
  destruct (slab_entry_decode c u Hc Hu) as (Ecl & Eu & Htag & _).
  unfold slab_free. case_if; [done|]. bool_hyps. rewrite He, Ecl, Eu in *.
  assert (slab_entry c u -32 1 = slab_entry c (u - 1)) as ->.
  { rewrite u32_small; unfold slab_entry, SLAB_TAG in *; lia. }
  assert (page_step (pm s) (set_entry i (slab_entry c (u - 1)) (pm s))) as Hst1.
  { apply retag_step; [done | done | done | lia | right; eauto]. }
  case_if; [|by apply rtc_once]. etransitivity; [by apply rtc_once|].
  unfold slab_unlink_page. cbn [pm set_pm set_class flist fcount].
  destruct (unlink_page _ _ _) as [fl cnt]. cbn [pm set_pm set_class].
  set (p1 := set_entry i (slab_entry c (u - 1)) (pm s)) in *.
  pose proof (page_step_ok _ _ Hst1 Hp) as Hp1.
  destruct (slab_entry_decode c (u - 1) Hc ltac:(lia)) as (_ & _ & Htag1 & Hsp1).
  assert (entry p1 i = slab_entry c (u - 1)) as He1.
  { unfold p1. rewrite set_entry_get, decide_True by (done || lia). done. }
  assert (page_step p1 (set_entry i 1 p1)) as Hst2.
  { apply ps_retag; try done; try lia; rewrite He1; [unfold SLAB_TAG in *; lia | done]. }
  pose proof (page_step_ok _ _ Hst2 Hp1) as Hp2.
  assert (_get_page_from_addr (set_entry i 1 p1) (slab_page_base a) = i) as ->.
  { pose proof (get_page_exact (set_entry i 1 p1) i 0 Hp2 Hi ltac:(done)) as E. rewrite Z.add_0_r in E.
    etransitivity; [|exact E]. rewrite Hbase. done. }
  eapply rtc_l; [exact Hst2|]. apply rtc_once. apply (gives_step _ i 1); try done.
  rewrite set_entry_get, decide_True by (done || lia). done.
Qed.

Lemma kfree_steps s p n : slab_ok s -> live s p n -> rtc page_step (pm s) (pm (kfree p s)).
Proof.
  intros Hok Hl. pose proof (live_bounds s Hok p n Hl) as (Hp & _). pose proof (so_pmm s Hok) as Hpm.
  destruct Hl as (i & Hi & [(He & -> & ->) | (c & u & k & Hc & He & Hu & Hk & -> & -> & Hno)]);
    unfold kfree; rewrite (proj2 (Z.eqb_neq _ 0)) by lia.
  - pose proof (get_page_exact (pm s) i 0 Hpm Hi ltac:(done)) as Epg. rewrite Z.add_0_r in Epg. rewrite Epg.
    rewrite has_tag, (proj2 (Z.leb_gt _ _)), andb_false_r by (unfold SLAB_TAG in *; lia).
    apply rtc_once. by apply (gives_step _ i (entry (pm s) i)).
  - destruct (slot_page (pm s) Hpm i c k Hc Hi Hk) as (_ & -> & Hbase).
    destruct (slab_entry_decode c u Hc Hu) as (_ & _ & Htag & _).
    rewrite He, has_tag, (proj2 (Z.ltb_lt _ _)), (proj2 (Z.leb_le _ _)) by (unfold SLAB_TAG in *; lia).
    by apply (slab_free_steps s i c u).
Qed.

Lemma page_steps_layout p p' : rtc page_step p p' -> same_layout p p'.
Proof.
  induction 1 as [|x y z Hxy _ IH]; [done|]. etransitivity; [|exact IH].
  destruct Hxy as [p1 i k _ _ Ht | p1 i k _ Hg | i v]; [apply Ht | apply Hg |].
  unfold same_layout, set_entry; cbn. by rewrite zlen_zset.
Qed.

Lemma page_steps_owned F p p' : rtc page_step p p' -> pmm_ok p -> owned F p -> owned F p'.
Proof. induction 1; eauto using page_step_owned, page_step_ok. Qed.

Lemma heap_step_pages s s' : heap_step s s' -> slab_ok s -> rtc page_step (pm s) (pm s').
Proof.
  intros [n p t t' Hn Ha | p n t Hl | t] Hok.
  - pose proof (kalloc_steps t n Hok ltac:(lia)) as H. by rewrite Ha in H.
  - by eapply kfree_steps.
  - done.
Qed.

Lemma heap_run_pages s s' : rtc heap_step s s' -> slab_ok s -> rtc page_step (pm s) (pm s').
Proof.
  induction 1; [done|]. intros. etransitivity; [by apply heap_step_pages|]. eauto using heap_step_ok.
Qed.

(** ** Headline theorems *)

(** Memory that the boot map calls usable, seen through the higher half. *)
Definition usable_addr (mm : list memmap_entry) (off a : Z) : Prop :=
  exists e, e ∈ mm /\ usable e /\ me_base e + off <= a < me_base e + me_length e + off.

Lemma page_within b n a pb :
  b mod PAGE_SIZE = 0 -> n mod PAGE_SIZE = 0 -> pb mod PAGE_SIZE = 0 ->
  pb <= a < pb + PAGE_SIZE -> within b n a <-> within b n pb.
Proof.
  unfold within, PAGE_SIZE. intros Hb Hn Hpb Ha.
  apply Z.div_exact in Hb, Hn, Hpb; [|done..]. lia.
Qed.

(** The page of a run that holds an address of it. *)
Lemma page_of_addr s i k a :
  page_addr s i <= a -> a < page_addr s i + k * PAGE_SIZE ->
  exists j, i <= j < i + k /\ page_addr s j <= a < page_addr s j + PAGE_SIZE.
Proof.
  intros H1 H2. exists (i + (a - page_addr s i) / PAGE_SIZE). unfold page_addr, PAGE_SIZE in *.
  pose proof (Z.div_mod (a - (lowest_address s + vmm_higher_half_offset s + i * 4096)) 4096).
  pose proof (Z.mod_pos_bound (a - (lowest_address s + vmm_higher_half_offset s + i * 4096)) 4096). lia.
Qed.

Section boot.
Context (mm : list memmap_entry) (off bp ep : Z) (p0 : pmm).
Context (Hmm : memmap_ok mm) (Hex : exists e, e ∈ mm /\ usable e /\ 0 < me_length e).
Context (Hoff : 0 <= off <= 2 ^ 64 - 2 ^ 43) (Hofal : off mod PAGE_SIZE = 0).
Context (Hsz : (_init_stats mm (Some off)).2 mod 32768 = 0 \/ 8 <= (_init_stats mm (Some off)).2 mod 32768).
Context (Hinit : kmem_init mm (Some off) = Some (bp, ep, p0)).

Lemma boot_ok : slab_ok (kmem_boot p0).
Proof.
  destruct (kmem_init_spec mm off bp ep p0 Hmm Hex Hoff Hofal Hsz Hinit) as (Hok & Hnp & Hz & _).
  apply kmem_boot_ok; [done|]. by rewrite Hnp.
Qed.

(** The heap owns usable memory outside its own tables. *)
Lemma boot_memory s :
  rtc heap_step (kmem_boot p0) s ->
  forall p n a, live s p n -> p <= a < p + n ->
    usable_addr mm off a /\ ~ within bp (zlen (page_bitmap p0)) a /\ ~ within ep (4 * zlen (entry_map p0)) a.
Proof.
  intros Hrun. pose proof boot_ok as Hok0. pose proof (heap_run_pages _ _ Hrun Hok0) as Hst.
  pose proof (heap_run_ok _ _ Hrun Hok0) as Hok.
  destruct (kmem_init_spec mm off bp ep p0 Hmm Hex Hoff Hofal Hsz Hinit)
    as (Hp0 & Hnp & Hz & Hofs & Hzb & Hze & Hba & Hea & Hbb & Heb & Hfree).
  rewrite Hzb, (Z.mul_comm 4), Hze, <- Hnp in *.
  set (F j := bitmap_test (page_bitmap p0) j = false /\ 0 <= j < num_pages_in_map p0).
  assert (owned F (pm s)) as [_ Hblk].
  { apply (page_steps_owned F (pm (kmem_boot p0))); [done | done |]. split; [done|].
    intros i n j (Hi & Hnz & _). cbn in Hi. by rewrite Hz in Hnz. }
  intros p n a (i & Hi & Hl) Ha. pose proof (page_steps_layout _ _ Hst) as Hlay.
  destruct (live_at_extent s i p n Hi Hl) as (k & Hb & H0 & Hend & _).
  rewrite (same_layout_addr _ _ _ Hlay) in *. cbn [pm kmem_boot] in *.
  destruct (page_of_addr p0 i k a) as (j & Hj & Hpa); [lia | unfold page_addr, PAGE_SIZE in *; lia|].
  destruct (Hblk i k j Hb Hj) as [Hbit Hj'].
  apply Hfree in Hbit as ((e & He & Hu & Hr) & Hnb & Hne); [|done].
  pose proof (page_addr_align p0 j Hp0) as Hpb.
  destruct (mm_entries mm Hmm e He Hu) as [_ _ _ Heb1 Heb2].
  rewrite (page_within bp _ a _ Hba Hbb Hpb Hpa), (page_within ep _ a _ Hea Heb Hpb Hpa).
  split; [|done]. exists e. split; [done|]. split; [done|].
  apply (page_within _ _ a _) in Hr; [unfold within in Hr; lia | | done..].
  rewrite Z.add_mod, Heb1, Hofal by done. done.
Qed.
End boot.

(** C1 The kernel heap is safe from boot on.  After [kmem_init] on a memory map
    as the boot loader documents it, and after any run of [kalloc] and [kfree]
    in which clients free only what they hold: two live blocks never overlap;
    every byte of a live block is usable memory of the map and lies outside
    the bytes at the pointers [page_bitmap] and [entry_map]; the count of available pages is the
    number of clear bits of the bitmap. *)
Theorem heap_safe mm off bp ep p0 s :
  memmap_ok mm -> (exists e, e ∈ mm /\ usable e /\ 0 < me_length e) ->
  0 <= off <= 2 ^ 64 - 2 ^ 43 -> off mod PAGE_SIZE = 0 ->
  (_init_stats mm (Some off)).2 mod 32768 = 0 \/ 8 <= (_init_stats mm (Some off)).2 mod 32768 ->
  kmem_init mm (Some off) = Some (bp, ep, p0) ->
  rtc heap_step (kmem_boot p0) s ->
  (forall p n q m, live s p n -> live s q m -> p <> q -> p + n <= q \/ q + m <= p) /\
  (forall p n a, live s p n -> p <= a < p + n ->
     usable_addr mm off a /\ ~ within bp (zlen (page_bitmap p0)) a /\ ~ within ep (4 * zlen (entry_map p0)) a) /\
  num_pages_available (pm s) = free_count (page_bitmap (pm s)) (Z.to_nat (num_pages_in_map (pm s))).
Proof.
  intros Hmm Hex Hoff Hal Hsz Hinit Hrun.
  pose proof (heap_run_ok _ _ Hrun (boot_ok mm off bp ep p0 Hmm Hex Hoff Hal Hsz Hinit)) as Hok.
  split; [intros p n q m; by apply live_disj|]. split; [by apply (boot_memory mm off bp ep p0)|]. apply Hok.
Qed.

(** A run on the demo map: a two-page block, then a small object. *)
Lemma heap_safe_witness :
  exists p0 s, kmem_init demo_map (Some 0xFFFF800000000000) = Some (0xFFFF800000001000, 0xFFFF800000002000, p0) /\
    rtc heap_step (kmem_boot p0) s /\
    num_pages_available (pm s) = free_count (page_bitmap (pm s)) (Z.to_nat (num_pages_in_map (pm s))).
Proof.
  eexists _, _. split; [vm_compute; reflexivity|].
  match goal with |- rtc heap_step ?b _ /\ _ => set (boot := b) end.
  assert (rtc heap_step boot (kalloc 24 (kalloc 5000 boot).2).2) as Hrun.
  { eapply rtc_l; [apply (step_alloc 5000 (kalloc 5000 boot).1); [lia | apply surjective_pairing]|].
    eapply rtc_once, (step_alloc 24 (kalloc 24 (kalloc 5000 boot).2).1); [lia | apply surjective_pairing]. }
  split; [exact Hrun|].
  eapply (heap_safe demo_map 0xFFFF800000000000 0xFFFF800000001000 0xFFFF800000002000 _ _ demo_map_ok);
    [ exists (mk_entry 0x1000 0x9e000 0); split_lia; [left | vm_compute; done..]
    | lia | done | right; vm_compute; congruence | vm_compute; reflexivity | exact Hrun ].
Defined.

(** Eight pages, every other one free, no block live. *)
Definition striped : pmm := mk_pmm 8 0x1000 0xFFFF800000000000 8 [0x55] 0 4 (replicate 8 0).

Lemma striped_ok : slab_ok (kmem_boot striped).
Proof.
  assert (forall i, 0 <= i < 8 -> entry striped i = 0) as Hz by (intros i Hi; apply (zget_zeros 8 i); lia).
  apply kmem_boot_ok; [|done]. apply fresh_pmm_ok; done.
Qed.

(** Why the page allocator refuses [n] bytes: a size check fails, or no run of
    enough consecutive pages is free anywhere in the map. *)
Lemma page_alloc_null s n p m :
  slab_ok s -> 0 <= n -> _kalloc_internal n 0 true (pm s) = (p, m) -> p = 0 <-> no_run (pm s) n.
Proof.
  intros Hok Hn Hk. pose proof (so_pmm s Hok) as Hp. pose proof (ok_cursor _ Hp).
  destruct (kalloc_internal_spec (pm s) n 0 true p m Hp Hn ltac:(lia) Hk)
    as [(-> & _ & Hno) | (i & Hsz & -> & _ & Hrun & _)]; [done|].
  pose proof Hrun as (Hi & _). pose proof (page_addr_pos (pm s) i Hp Hi).
  split; [lia|]. intros Hno. by destruct (Hno Hsz i Hi).
Qed.

Lemma slab_alloc_null s c p s' :
  slab_ok s -> is_class c -> slab_alloc c s = (p, s') -> p = 0 <-> flist s c = [] /\ no_run (pm s) PAGE_SIZE.
Proof.
  intros Hok Hc Ha. split.
  - intros ->. destruct (slab_alloc_spec s c 0 s' Hok Hc Ha) as [(_ & _ & ? & ?) | (_ & ? & _)]; [done | lia].
  - intros [Hfl Hno]. unfold slab_alloc in Ha. rewrite Hfl in Ha.
    destruct (_kalloc_internal PAGE_SIZE 0 true (pm s)) as [page m] eqn:Hk.
    apply (page_alloc_null s PAGE_SIZE page m) in Hno as ->; [|done..]. cbn in Ha. by simplify_eq.
Qed.

Lemma no_run_page p :
  no_run p PAGE_SIZE <->
  (size_ok p PAGE_SIZE -> forall i, 0 <= i < num_pages_in_map p -> bitmap_test (page_bitmap p) i = true).
Proof.
  unfold no_run. change (pages_for PAGE_SIZE) with 1. split; intros H Hsz i Hi.
  - destruct (bitmap_test (page_bitmap p) i) eqn:E; [done|]. destruct (H Hsz i ltac:(lia)).
    split; [lia|]. split; [lia|]. intros j Hj. by replace j with i by lia.
  - intros (_ & Hle & Hfr). specialize (Hfr i ltac:(lia)). by rewrite (H Hsz i ltac:(lia)) in Hfr.
Qed.

(** C34 [kalloc] returns [NULL] exactly when it must, and then leaves the heap
    untouched.  A small request gets [NULL] exactly if its size class has no
    free object and the page allocator can give no page: its size checks
    refuse one page or every page is taken.  A large request gets [NULL]
    exactly if a size check refuses it (no bytes, more than half of the
    address space, more than a quarter of the pages) or no run of enough
    consecutive pages is free anywhere in the map, whatever the position of
    the allocation cursor. *)
Theorem kalloc_null_complete s n p s' :
  slab_ok s -> 0 <= n -> kalloc n s = (p, s') ->
  (p = 0 -> s' = s) /\
  (p = 0 <->
   if (0 <? n) && (n <=? SLAB_MAX_SIZE) && negb (max_pages_available (pm s) =? 0)
   then flist s (slab_class_for n) = [] /\
        (size_ok (pm s) PAGE_SIZE -> forall i, 0 <= i < num_pages_in_map (pm s) ->
           bitmap_test (page_bitmap (pm s)) i = true)
   else size_ok (pm s) n -> forall i, 0 <= i ->
        ~ free_run (page_bitmap (pm s)) (num_pages_in_map (pm s)) i (pages_for n)).
Proof.
  intros Hok Hn Ha. split.
  { intros ->. by destruct (kalloc_spec s n 0 s' Hok Hn Ha) as [[_ ->] | (m & _ & _ & ? & _)]; [|lia]. }
  unfold kalloc in Ha. case_if; bool_hyps.
  - destruct (slab_class_for_spec n ltac:(lia)) as (Hc & _).
    by rewrite (slab_alloc_null s _ p s' Hok Hc Ha), no_run_page.
  - destruct (_kalloc_internal n 0 true (pm s)) as [q m] eqn:Hk. simplify_eq.
    by apply (page_alloc_null s n p m).
Qed.

(** Two pages are asked for and only single ones are free; one page is there. *)
Lemma kalloc_null_complete_witness :
  (kalloc 8000 (kmem_boot striped) = (0, kmem_boot striped) /\ ~ free_run (page_bitmap striped) 8 3 2) /\
  (kalloc 3000 (kmem_boot striped)).1 <> 0.
Proof.
  split.
  - split; [vm_compute; reflexivity|].
    apply (kalloc_null_complete (kmem_boot striped) 8000 0 (kmem_boot striped) striped_ok);
      [lia | vm_compute; reflexivity | done | | lia].
    split; [change ((2 ^ 64 - 1) / 2) with (2 ^ 63 - 1); lia | split; [done | vm_compute; congruence]].
  - rewrite (proj2 (kalloc_null_complete (kmem_boot striped) 3000 _ _ striped_ok ltac:(lia) (surjective_pairing _))).
    change ((0 <? 3000) && (3000 <=? SLAB_MAX_SIZE) && negb (max_pages_available (pm (kmem_boot striped)) =? 0)) with false.
    cbv iota. intros H. apply (H ltac:(split; [change ((2 ^ 64 - 1) / 2) with (2 ^ 63 - 1); lia | split; [done | vm_compute; congruence]]) 1 ltac:(lia)).
    split; [lia|]. split; [vm_compute; congruence|]. change (pages_for 3000) with 1. intros j Hj. by replace j with 1 by lia.
Defined.

(** C20 A round trip through the heap: a block that [kalloc] hands out was not
    live before, is live for at least the bytes asked for, reports its real
    size through [kalloc_usable_size], and [kfree] of it leaves exactly the
    blocks that were live before. *)
Theorem kalloc_kfree_roundtrip s n p s' :
  slab_ok s -> 0 <= n -> kalloc n s = (p, s') -> p <> 0 ->
  let m := kalloc_usable_size p s' in
  n <= m /\ live s' p m /\ (forall k, ~ live s p k) /\
  slab_ok (kfree p s') /\ forall q k, live (kfree p s') q k <-> live s q k.
Proof.
  intros Hok Hn Ha Hp m. destruct (kalloc_spec s n p s' Hok Hn Ha) as [[-> _] | (m' & Hm & Hok' & _ & Hfr & Hl)]; [done|].
  assert (live s' p m') as Hlive by (apply Hl; by left).
  assert (m = m') as -> by (by apply usable_size_live).
  destruct (kfree_spec s' p m' Hok' Hlive) as [Hok2 Hl2]. split_and!; try done.
  intros q k. rewrite Hl2, Hl. split; [intros [[[-> _]|?] ?]; done|].
  intros Hq. split; [by right|]. intros ->. by apply Hfr in Hq.
Qed.

Lemma kalloc_kfree_roundtrip_witness :
  exists p s', kalloc 100 (kmem_boot striped) = (p, s') /\ live s' p 128 /\
    forall q k, live (kfree p s') q k <-> live (kmem_boot striped) q k.
Proof.
  do 2 eexists. split; [vm_compute; reflexivity|].
  match goal with |- live ?s' ?p _ /\ _ =>
    destruct (kalloc_kfree_roundtrip (kmem_boot striped) 100 p s' striped_ok ltac:(lia)
      ltac:(vm_compute; reflexivity) ltac:(lia)) as (_ & Hlive & _ & _ & Hiff) end.
  split; [exact Hlive | exact Hiff].
Defined.

(** Freeing a block of whole pages twice is harmless: its entry is zero
    after the first [kfree], and the second one changes nothing. *)
Theorem kfree_pages_twice s i :
  slab_ok s -> 0 <= i < num_pages_in_map (pm s) -> 0 < entry (pm s) i < SLAB_TAG ->
  kfree (page_addr (pm s) i) (kfree (page_addr (pm s) i) s) = kfree (page_addr (pm s) i) s.
Proof.
  intros Hok Hi He. set (p := page_addr (pm s) i).
  assert (live s p (entry (pm s) i * PAGE_SIZE)) as Hl by (exists i; split; [done | by left]).
  pose proof (so_pmm s Hok) as Hp. pose proof (page_addr_pos (pm s) i Hp ltac:(lia)) as Hpos.
  assert (forall m, same_layout (pm s) m -> pmm_ok m -> _get_page_from_addr m p = i) as Hpg.
  { intros m Hlay Hm. pose proof (get_page_exact m i 0 Hm) as E. rewrite (same_layout_addr _ _ _ Hlay), Z.add_0_r in E.
    destruct Hlay as (_ & _ & _ & Hnp & _). rewrite Hnp in E. by apply E. }
  set (s' := kfree p s). assert (s' = set_pm (kfree_pages i (pm s)) s) as Es.
  { unfold s', kfree. rewrite (Hpg (pm s)), has_tag, (proj2 (Z.leb_gt _ _)), andb_false_r by
      (done || unfold SLAB_TAG in *; lia). by rewrite (proj2 (Z.eqb_neq p 0)) by lia. }
  assert (block (pm s) i (entry (pm s) i)) as Hb.
  { split; [done|]. split; [lia|]. unfold span. by rewrite (proj2 (Z.ltb_lt _ _)) by lia. }
  pose proof (kfree_pages_gives (pm s) i _ Hp Hb ltac:(lia)) as Hg.
  pose proof (gives_ok _ _ _ _ Hp Hb Hg) as Hp'.
  rewrite Es. unfold kfree. cbn [pm set_pm]. rewrite (Hpg _ (gv_layout _ _ _ _ Hg) Hp'), (gv_entry _ _ _ _ Hg).
  rewrite (proj2 (Z.eqb_neq p 0)), andb_false_r by lia.
  rewrite (kfree_pages_noop _ i) by (try lia; right; apply Hg). done.
Qed.

Lemma kfree_pages_twice_witness :
  let s := (kalloc 4096 (kmem_boot striped)).2 in
  kfree (page_addr (pm s) 1) (kfree (page_addr (pm s) 1) s) = kfree (page_addr (pm s) 1) s.
Proof.
  intros s. apply (kfree_pages_twice s 1); [|vm_compute; split; congruence..].
  apply (heap_step_ok (kmem_boot striped)); [|exact striped_ok].
  eapply (step_alloc 4096); [lia | apply surjective_pairing].
Defined.

(** ** [kalloc_high] *)

(** [kalloc_high] allocates above 1 MiB: if the map starts at or below
    1 MiB and reaches beyond it, a block it returns is a run of free pages
    whose physical address is at least 1 MiB, and it returns [NULL] only if
    there is no such run. *)
Theorem kalloc_high_above s numBytes p s' :
  pmm_ok s -> 0 <= numBytes -> 0 <= lowest_address s <= 0x100000 -> lowest_address s mod PAGE_SIZE = 0 ->
  0x100000 < lowest_address s + num_pages_in_map s * PAGE_SIZE ->
  kalloc_high numBytes s = (p, s') ->
  (p = 0 /\ s' = s /\ (size_ok s numBytes -> forall i, 0x100000 <= lowest_address s + i * PAGE_SIZE ->
     ~ free_run (page_bitmap s) (num_pages_in_map s) i (pages_for numBytes))) \/
  (exists i, p = page_addr s i /\ 0x100000 + vmm_higher_half_offset s <= p /\
     free_run (page_bitmap s) (num_pages_in_map s) i (pages_for numBytes) /\
     takes s s' i (pages_for numBytes) (pages_for numBytes)).
Proof.
  intros Hok Hn Hlow Hal Htop Ha. pose proof (ok_np s Hok) as Hnp.
  unfold kalloc_high in Ha. rewrite u64_small in Ha by lia.
  set (m := (0x100000 - lowest_address s) / PAGE_SIZE) in *.
  assert (0x100000 = lowest_address s + m * PAGE_SIZE) as Hm.
  { unfold m, PAGE_SIZE in *. apply Z.div_exact in Hal; [|done].
    pose proof (Z.div_mod (0x100000 - lowest_address s) 4096). 
    assert ((0x100000 - lowest_address s) mod 4096 = 0); [|lia].
    rewrite Hal. replace (0x100000 - 4096 * (lowest_address s / 4096)) with
      ((256 - lowest_address s / 4096) * 4096) by lia. apply Z.mod_mul. lia. }
  assert (0 <= m < num_pages_in_map s) as Hmb by (unfold PAGE_SIZE in *; lia).
  destruct (kalloc_internal_spec s numBytes m false p s' Hok Hn Hmb Ha)
    as [(-> & -> & Hno) | (i & Hsz & -> & Hge & Hrun & Htk)].
  - left. split_and!; try done. intros Hs i Hi. apply Hno; [done|]. unfold PAGE_SIZE in *. lia.
  - right. exists i. split_and!; try done. specialize (Hge eq_refl). unfold page_addr, PAGE_SIZE in *. lia.
Qed.

Lemma kalloc_high_above_witness :
  exists p s', kalloc_high 4096 (mk_pmm 8 0xFF000 0xFFFF800000000000 8 [0x54] 0 5 (replicate 8 0)) = (p, s') /\
    0x100000 + 0xFFFF800000000000 <= p.
Proof.
  do 2 eexists. split; [vm_compute; reflexivity|].
  match goal with |- _ <= ?p =>
    destruct (kalloc_high_above (mk_pmm 8 0xFF000 0xFFFF800000000000 8 [0x54] 0 5 (replicate 8 0)) 4096 p _
      ltac:(apply fresh_pmm_ok; [done.. | intros i Hi; apply (zget_zeros 8 i); cbn in *; lia])
      ltac:(lia) ltac:(cbn; lia) ltac:(done) ltac:(cbn; unfold PAGE_SIZE; lia) ltac:(vm_compute; reflexivity))
      as [(? & _) | (i & _ & Hp & _)] end; [done | exact Hp].
Defined.

(** When the lowest usable address lies above 1 MiB the subtraction wraps: the
    page the scan starts from is beyond the map, and so is the bit it reads. *)
Theorem kalloc_high_underflow s :
  0x100000 < lowest_address s < 2 ^ 43 -> num_pages_in_map s < 2 ^ 31 ->
  num_pages_in_map s < (0x100000 -64 lowest_address s) / PAGE_SIZE.
Proof.
  intros Hl Hn. unfold u64, PAGE_SIZE.
  replace ((1048576 - lowest_address s) mod 2 ^ 64) with (1048576 - lowest_address s + 2 ^ 64)
    by (symmetry; rewrite <- (Z.mod_add _ 1) by lia; apply Z.mod_small; lia).
  apply Z.lt_le_trans with (2 ^ 31); [lia|]. apply Z.div_le_lower_bound; lia.
Qed.
