(* ===== verification/Pipe.v ===== *)
(** * Pipes

    src/pipe.c: a table of 64 pipes, each a ring of 4096 bytes taken from the
    kernel heap.  The ring is shown to implement a FIFO queue; the table is
    verified against the heap laws of Heap.v. *)
From S2P Require Import Prelude Heap.

Create HintDb pipe.

Definition PIPE_BUF_SIZE : Z := 4096.
Definition MAX_PIPES : Z := 64.

(** [pipe_t].  [buffer] is the pointer ([0] is [NULL]) and [bytes] what it
    points to; [lock] tells that some CPU is inside a critical section. *)
Record pipe_t := mk_pipe {
  buffer : Z;
  bytes : list Z;
  buf_size : Z;
  read_pos : Z;
  write_pos : Z;
  count : Z;
  lock : bool;
  readers : Z;
  writers : Z;
  active : bool;
  waiting_reader : Z;
  waiting_writer : Z;
  pty : Z;
  in_gen : Z;
  out_gen : Z;
}.

(** What an operation does outside the pipe, in order. *)
Inductive event :=
| thread_wake (thr : Z)
| kpoll_wake
| fifo_pipe_gone.

Definition wake (thr : Z) : list event := if thr =? 0 then [] else [thread_wake thr].

(** The zeroed structure of [pipe_init]. *)
Definition zero_pipe : pipe_t := mk_pipe 0 [] 0 0 0 0 false 0 0 false 0 0 0 0 0.
#[global] Instance pipe_inhabited : Inhabited pipe_t := populate zero_pipe.
Definition pipe_init : list pipe_t := replicate (Z.to_nat MAX_PIPES) zero_pipe.

(** ** [pipe_read] and [pipe_write]

    Each body is one critical section.  The result is the return value, the
    bytes stored into the caller's buffer, the wake-ups and the pipe.  [has_buf]
    tells whether the caller's pointer is not [NULL]. *)

Definition copy_out (p : pipe_t) (to_read : Z) : list Z * Z :=
  zfor (Z.to_nat to_read) 0
    (fun _ '(dst, pos) => (dst ++ [zget (bytes p) pos], (pos +32 1) mod buf_size p)) ([], read_pos p).

Definition copy_in (p : pipe_t) (src : list Z) (to_write : Z) : list Z * Z :=
  zfor (Z.to_nat to_write) 0
    (fun i '(buf, pos) => (zset buf pos (zget src i), (pos +32 1) mod buf_size p)) (bytes p, write_pos p).

Definition pipe_read (has_buf : bool) (n : Z) (p : pipe_t) : Z * list Z * list event * pipe_t :=
  if negb has_buf then (-1, [], [], p)
  else if negb (active p) || (buffer p =? 0) then (-1, [], [], p)
  else if count p =? 0 then ((if writers p =? 0 then 0 else - EAGAIN), [], [], p)
  else
    let to_read := if n <? count p then u32 n else count p in
    let '(dst, pos) := copy_out p to_read in
    let out_gen' := if negb (to_read =? 0) && (count p =? buf_size p) then out_gen p +32 1 else out_gen p in
    (s32 to_read, dst,
     wake (waiting_writer p) ++ (if to_read =? 0 then [] else [kpoll_wake]),
     mk_pipe (buffer p) (bytes p) (buf_size p) pos (write_pos p) (count p -32 to_read) (lock p)
       (readers p) (writers p) (active p) (waiting_reader p) 0 (pty p) (in_gen p) out_gen').

Definition pipe_write (src : option (list Z)) (n : Z) (p : pipe_t) : Z * list event * pipe_t :=
  match src with
  | None => (- EPIPE, [], p)
  | Some src =>
      if negb (active p) || (buffer p =? 0) then (- EPIPE, [], p)
      else if readers p =? 0 then (- EPIPE, [], p)
      else
        let space := buf_size p -32 count p in
        if space =? 0 then (- EAGAIN, [], p)
        else
          let to_write := if n <? space then u32 n else space in
          let '(buf, pos) := copy_in p src to_write in
          let in_gen' := if to_write =? 0 then in_gen p else in_gen p +32 1 in
          (s32 to_write,
           wake (waiting_reader p) ++ (if to_write =? 0 then [] else [kpoll_wake]),
           mk_pipe (buffer p) buf (buf_size p) (read_pos p) pos (count p +32 to_write) (lock p)
             (readers p) (writers p) (active p) 0 (waiting_writer p) (pty p) in_gen' (out_gen p))
  end.

(** The non-blocking variants as the source writes them, bodies included. *)
Definition pipe_try_read (has_buf : bool) (n : Z) (p : pipe_t) : Z * list Z * list event * pipe_t :=
  if negb has_buf then (-1, [], [], p)
  else if lock p then (- EAGAIN, [], [], p)
  else if negb (active p) || (buffer p =? 0) then (-1, [], [], p)
  else if count p =? 0 then ((if writers p =? 0 then 0 else - EAGAIN), [], [], p)
  else
    let to_read := if n <? count p then u32 n else count p in
    let '(dst, pos) := copy_out p to_read in
    let out_gen' := if negb (to_read =? 0) && (count p =? buf_size p) then out_gen p +32 1 else out_gen p in
    (s32 to_read, dst,
     wake (waiting_writer p) ++ (if to_read =? 0 then [] else [kpoll_wake]),
     mk_pipe (buffer p) (bytes p) (buf_size p) pos (write_pos p) (count p -32 to_read) (lock p)
       (readers p) (writers p) (active p) (waiting_reader p) 0 (pty p) (in_gen p) out_gen').

Definition pipe_try_write (src : option (list Z)) (n : Z) (p : pipe_t) : Z * list event * pipe_t :=
  match src with
  | None => (- EPIPE, [], p)
  | Some src =>
      if lock p then (- EAGAIN, [], p)
      else if negb (active p) || (buffer p =? 0) || (readers p =? 0) then (- EPIPE, [], p)
      else
        let space := buf_size p -32 count p in
        if space =? 0 then (- EAGAIN, [], p)
        else
          let to_write := if n <? space then u32 n else space in
          let '(buf, pos) := copy_in p src to_write in
          let in_gen' := if to_write =? 0 then in_gen p else in_gen p +32 1 in
          (s32 to_write,
           wake (waiting_reader p) ++ (if to_write =? 0 then [] else [kpoll_wake]),
           mk_pipe (buffer p) buf (buf_size p) (read_pos p) pos (count p +32 to_write) (lock p)
             (readers p) (writers p) (active p) 0 (waiting_writer p) (pty p) in_gen' (out_gen p))
  end.

(** ** Endpoints *)

Definition set_ends (r w : Z) (p : pipe_t) : pipe_t :=
  mk_pipe (buffer p) (bytes p) (buf_size p) (read_pos p) (write_pos p) (count p) (lock p)
    r w (active p) (waiting_reader p) (waiting_writer p) (pty p) (in_gen p) (out_gen p).
Definition set_waiting (wr ww : Z) (p : pipe_t) : pipe_t :=
  mk_pipe (buffer p) (bytes p) (buf_size p) (read_pos p) (write_pos p) (count p) (lock p)
    (readers p) (writers p) (active p) wr ww (pty p) (in_gen p) (out_gen p).

Definition pipe_fork_dup_reader (p : pipe_t) : pipe_t :=
  if active p then set_ends (s32 (readers p + 1)) (writers p) p else p.
Definition pipe_fork_dup_writer (p : pipe_t) : pipe_t :=
  if active p then set_ends (readers p) (s32 (writers p + 1)) p else p.
Definition pipe_available (p : pipe_t) : Z := if active p then s32 (count p) else -1.
Definition pipe_set_waiting_reader (thr : Z) (p : pipe_t) : pipe_t :=
  if active p then set_waiting thr (waiting_writer p) p else p.
Definition pipe_set_waiting_writer (thr : Z) (p : pipe_t) : pipe_t :=
  if active p then set_waiting (waiting_reader p) thr p else p.

(** The critical section of the two close operations: the counts, whether this
    was the last end, and the wake-ups that follow. *)
Definition close_read_end (p : pipe_t) : list event * bool * pipe_t :=
  let r := if 0 <? readers p then readers p - 1 else readers p in
  let p' := set_ends r (writers p) p in
  let p' := if r =? 0 then set_waiting 0 0 p' else p' in
  (wake (waiting_writer p) ++ wake (waiting_reader p) ++ [kpoll_wake], (r =? 0) && (writers p =? 0), p').
Definition close_write_end (p : pipe_t) : list event * bool * pipe_t :=
  let w := if 0 <? writers p then writers p - 1 else writers p in
  let p' := set_ends (readers p) w p in
  let p' := if w =? 0 then set_waiting 0 0 p' else p' in
  (wake (waiting_reader p) ++ wake (waiting_writer p) ++ [kpoll_wake], (readers p =? 0) && (w =? 0), p').

(** ** Operations on the heap and the table *)

Section table.
Context {H : Type} `{!KHeap H}.
Implicit Types (h : H) (p : pipe_t) (tbl : list pipe_t).

Definition pipe_destroy (h : H) (p : pipe_t) : list event * H * pipe_t :=
  if negb (active p) then ([], h, p)
  else
    let h := if buffer p =? 0 then h else hp_kfree (buffer p) h in
    ([fifo_pipe_gone], h,
     mk_pipe 0 [] 0 0 0 0 (lock p) 0 0 false (waiting_reader p) (waiting_writer p) (pty p)
       (in_gen p) (out_gen p)).

Definition pipe_close_read (h : H) (p : pipe_t) : list event * H * pipe_t :=
  if negb (active p) then ([], h, p)
  else
    let '(ev, should_destroy, p) := close_read_end p in
    if should_destroy then let '(ev', h, p) := pipe_destroy h p in (ev ++ ev', h, p)
    else (ev, h, p).

Definition pipe_close_write (h : H) (p : pipe_t) : list event * H * pipe_t :=
  if negb (active p) then ([], h, p)
  else
    let '(ev, should_destroy, p) := close_write_end p in
    if should_destroy then let '(ev', h, p) := pipe_destroy h p in (ev ++ ev', h, p)
    else (ev, h, p).

(** The first slot that is not active. *)
Fixpoint free_slot (i : Z) (tbl : list pipe_t) : option Z :=
  match tbl with
  | [] => None
  | p :: tbl => if active p then free_slot (i + 1) tbl else Some i
  end.

(** [pipe_create]: the index of the new pipe.  The generation counters keep
    the values of the slot's earlier use. *)
Definition pipe_create (h : H) (tbl : list pipe_t) : option Z * H * list pipe_t :=
  match free_slot 0 tbl with
  | None => (None, h, tbl)
  | Some i =>
      let p := zget tbl i in
      let '(buf, h) := hp_kalloc PIPE_BUF_SIZE h in
      if buf =? 0 then
        (None, h, zset tbl i (mk_pipe 0 [] (buf_size p) (read_pos p) (write_pos p) (count p)
           (lock p) (readers p) (writers p) (active p) (waiting_reader p) (waiting_writer p) (pty p)
           (in_gen p) (out_gen p)))
      else
        (Some i, h, zset tbl i (mk_pipe buf (replicate (Z.to_nat PIPE_BUF_SIZE) 0) PIPE_BUF_SIZE 0 0 0
           false 1 1 true 0 0 0 (in_gen p) (out_gen p)))
  end.
End table.

(** ** Rings

    [ring l pos n]: the [n] bytes from [pos] on, wrapping at the end of [l]. *)
Definition ring (l : list Z) (pos n : Z) : list Z := (fun i => zget l ((pos + i) mod zlen l)) <$> seqZ 0 n.

Lemma zlen_ring l pos n : 0 <= n -> zlen (ring l pos n) = n.
Proof. intros. unfold zlen, ring. rewrite length_fmap, length_seqZ. lia. Qed.

Lemma zget_ring l pos n i : 0 <= i < n -> zget (ring l pos n) i = zget l ((pos + i) mod zlen l).
Proof.
  intros Hi. apply zget_lookup. unfold ring. rewrite list_lookup_fmap, lookup_seqZ_lt by lia.
  cbn. do 3 f_equal. lia.
Qed.

Lemma ring_snoc l pos n : 0 <= n -> ring l pos (n + 1) = ring l pos n ++ [zget l ((pos + n) mod zlen l)].
Proof.
  intros Hn. unfold ring. rewrite seqZ_app by lia. by rewrite fmap_app, Z.add_0_l.
Qed.

Lemma ring_split l pos n m :
  0 <= n -> 0 <= m -> 0 < zlen l -> ring l pos (n + m) = ring l pos n ++ ring l ((pos + n) mod zlen l) m.
Proof.
  intros Hn Hm Hl. apply zlist_eq; [rewrite zlen_app, !zlen_ring; lia|].
  rewrite zlen_ring by lia. intros i Hi. rewrite zget_ring by lia. destruct (decide (i < n)).
  - rewrite zget_app_l, zget_ring by (rewrite ?zlen_ring; lia). done.
  - rewrite zget_app_r, zlen_ring, zget_ring by (rewrite ?zlen_ring; lia).
    rewrite Z.add_mod_idemp_l by lia. do 2 f_equal. lia.
Qed.

Lemma copy_out_spec p k :
  zlen (bytes p) = buf_size p -> 0 < buf_size p < 2 ^ 31 -> 0 <= read_pos p < buf_size p -> 0 <= k ->
  copy_out p k = (ring (bytes p) (read_pos p) k, (read_pos p + k) mod buf_size p).
Proof.
  intros Hl Hs Hr Hk. unfold copy_out.
  pose proof (zfor_ind (fun i r => r = (ring (bytes p) (read_pos p) i, (read_pos p + i) mod buf_size p))
    (fun _ '(dst, pos) => (dst ++ [zget (bytes p) pos], (pos +32 1) mod buf_size p)) (Z.to_nat k) 0 ([], read_pos p))
    as Hind.
  rewrite Z2Nat.id, Z.add_0_l in Hind by lia. apply Hind.
  { by rewrite Z.add_0_r, Z.mod_small by lia. }
  intros i r Hi ->. pose proof (Z.mod_pos_bound (read_pos p + i) (buf_size p)).
  rewrite ring_snoc, Hl, u32_small, Z.add_mod_idemp_l by lia. do 2 f_equal. lia.
Qed.

(** What [copy_in] leaves at position [j]. *)
Lemma copy_in_spec p src k :
  zlen (bytes p) = buf_size p -> 0 < buf_size p < 2 ^ 31 -> 0 <= write_pos p < buf_size p ->
  0 <= k <= buf_size p ->
  exists buf, copy_in p src k = (buf, (write_pos p + k) mod buf_size p) /\ zlen buf = buf_size p /\
    forall j, 0 <= j < buf_size p ->
      zget buf j = let i := (j - write_pos p) mod buf_size p in if i <? k then zget src i else zget (bytes p) j.
Proof.
  intros Hl Hs Hw Hk. unfold copy_in.
  pose proof (zfor_ind (fun i (r : list Z * Z) => r.2 = (write_pos p + i) mod buf_size p /\ zlen r.1 = buf_size p /\
    forall j, 0 <= j < buf_size p ->
      zget r.1 j = let d := (j - write_pos p) mod buf_size p in if d <? i then zget src d else zget (bytes p) j)
    (fun i '(buf, pos) => (zset buf pos (zget src i), (pos +32 1) mod buf_size p)) (Z.to_nat k) 0
    (bytes p, write_pos p)) as Hind.
  rewrite Z2Nat.id, Z.add_0_l in Hind by lia.
  destruct (zfor _ _ _ _) as [buf pos]; cbn in Hind. exists buf.
  destruct Hind as (-> & Hlen & Hget); [| |by split_and!].
  { rewrite Z.add_0_r, Z.mod_small by lia. split_and!; try done. intros j Hj.
    pose proof (Z.mod_pos_bound (j - write_pos p) (buf_size p)). rewrite (proj2 (Z.ltb_ge _ _)) by lia. done. }
  intros i [b ps] Hi (E & Hlen & Hget). cbn in E, Hlen, Hget |- *. subst ps. set (sz := buf_size p) in *.
  pose proof (Z.mod_pos_bound (write_pos p + i) sz ltac:(lia)) as Hpb.
  split; [|split].
  - rewrite u32_small, Z.add_mod_idemp_l by lia. f_equal. lia.
  - by rewrite zlen_zset.
  - intros j Hj. destruct (decide (j = (write_pos p + i) mod sz)) as [->|Hne].
    + rewrite zget_zset_eq by lia. rewrite Zminus_mod_idemp_l.
      replace (write_pos p + i - write_pos p) with i by lia. rewrite Z.mod_small by lia.
      by rewrite (proj2 (Z.ltb_lt _ _)) by lia.
    + rewrite zget_zset_ne, Hget by lia. cbn. set (d := (j - write_pos p) mod sz).
      assert (d <> i) as Hdi.
      { intros E. apply Hne. rewrite <- E. unfold d. rewrite Z.add_mod_idemp_r by lia.
        replace (write_pos p + (j - write_pos p)) with j by lia. by rewrite Z.mod_small. }
      destruct (d <? i) eqn:E1, (d <? i + 1) eqn:E2; bool_hyps; done || lia.
Qed.

(** Writing appends to the ring. *)
Lemma ring_write l l' src r n k :
  0 < zlen l -> zlen l' = zlen l -> 0 <= r < zlen l -> 0 <= n -> 0 <= k -> n + k <= zlen l -> k <= zlen src ->
  (forall j, 0 <= j < zlen l ->
     zget l' j = let i := (j - (r + n) mod zlen l) mod zlen l in if i <? k then zget src i else zget l j) ->
  ring l' r (n + k) = ring l r n ++ ztake k src.
Proof.
  intros Hl Hl' Hr Hn Hk Hnk Hsrc Hget. set (sz := zlen l) in *.
  apply zlist_eq; [rewrite zlen_app, !zlen_ring, zlen_ztake; lia|].
  rewrite zlen_ring by lia. intros i Hi. rewrite zget_ring, Hl' by lia. fold sz.
  pose proof (Z.mod_pos_bound (r + i) sz ltac:(lia)). rewrite Hget by lia. cbn.
  assert (((r + i) mod sz - (r + n) mod sz) mod sz = (i - n) mod sz) as ->.
  { rewrite <- Zminus_mod. f_equal. lia. }
  destruct (decide (i < n)).
  - rewrite zget_app_l, zget_ring by (rewrite ?zlen_ring; lia). fold sz.
    replace ((i - n) mod sz) with (i - n + sz).
    2:{ symmetry. rewrite <- (Z.mod_add _ 1) by lia. rewrite Z.mod_small; lia. }
    by rewrite (proj2 (Z.ltb_ge _ _)) by lia.
  - rewrite zget_app_r, zlen_ring, zget_ztake by (rewrite ?zlen_ring; lia).
    rewrite Z.mod_small, (proj2 (Z.ltb_lt _ _)) by lia. done.
Qed.

(** ** Invariant and specification *)

Record pipe_wf (p : pipe_t) : Prop := {
  pw_buffer : buffer p <> 0;
  pw_size : buf_size p = PIPE_BUF_SIZE;
  pw_len : zlen (bytes p) = PIPE_BUF_SIZE;
  pw_read : 0 <= read_pos p < PIPE_BUF_SIZE;
  pw_count : 0 <= count p <= PIPE_BUF_SIZE;
  pw_write : write_pos p = (read_pos p + count p) mod PIPE_BUF_SIZE;
  pw_readers : 0 <= readers p;
  pw_writers : 0 <= writers p;
  pw_open : 0 < readers p + writers p;
}.

Definition pipe_ok (p : pipe_t) : Prop := if active p then pipe_wf p else buffer p = 0.

Definition contents (p : pipe_t) : list Z := ring (bytes p) (read_pos p) (count p).

(** A pipe is a queue of at most [PIPE_BUF_SIZE] bytes with counted ends. *)
Record fifo := mk_fifo { fq : list Z; f_readers : Z; f_writers : Z }.

Definition fifo_read (n : Z) (f : fifo) : Z * list Z * fifo :=
  if decide (fq f = []) then ((if f_writers f =? 0 then 0 else - EAGAIN), [], f)
  else (Z.min n (zlen (fq f)), ztake n (fq f), mk_fifo (zdrop n (fq f)) (f_readers f) (f_writers f)).

Definition fifo_write (src : list Z) (n : Z) (f : fifo) : Z * fifo :=
  let room := PIPE_BUF_SIZE - zlen (fq f) in
  if f_readers f =? 0 then (- EPIPE, f)
  else if room =? 0 then (- EAGAIN, f)
  else (Z.min n room, mk_fifo (fq f ++ ztake (Z.min n room) src) (f_readers f) (f_writers f)).

Definition abs (p : pipe_t) : fifo := mk_fifo (contents p) (readers p) (writers p).

Lemma zlen_contents p : pipe_wf p -> zlen (contents p) = count p.
Proof. intros Hw. apply zlen_ring, Hw. Qed.

Lemma read_count n c : 0 <= c <= PIPE_BUF_SIZE -> 0 <= n ->
  (if n <? c then u32 n else c) = Z.min n c.
Proof. unfold PIPE_BUF_SIZE. intros. case_if; bool_hyps; [rewrite u32_small|]; lia. Qed.

Lemma pipe_read_spec p n :
  pipe_wf p -> active p = true -> 0 <= n ->
  let '(ret, out, _, p') := pipe_read true n p in
  (ret, out, abs p') = fifo_read n (abs p) /\ pipe_wf p' /\ active p' = true.
Proof.
  intros Hw Ha Hn. pose proof Hw as [Hb Hs Hl Hr Hc Hwr H1 H2 H3]. unfold PIPE_BUF_SIZE in *.
  unfold pipe_read, fifo_read, abs. cbn [negb fq f_writers f_readers]. rewrite Ha. cbn [negb orb].
  rewrite (proj2 (Z.eqb_neq _ 0)) by done.
  destruct (decide (contents p = [])) as [He|He].
  { pose proof (zlen_contents p Hw) as Hz. rewrite He in Hz. change (zlen []) with 0 in Hz. rewrite <- Hz. done. }
  assert (count p <> 0) as Hnz.
  { intros E. apply He. apply zlen_nil_inv. by rewrite zlen_contents. }
  rewrite (proj2 (Z.eqb_neq _ 0)), read_count by done. set (k := Z.min n (count p)).
  rewrite copy_out_spec by (rewrite ?Hs; lia). rewrite Hs, u32_small, s32_small, zlen_contents by (done || lia).
  split; [|split; [|done]].
  - assert (ring (bytes p) (read_pos p) (k + (count p - k)) = contents p) as Ec by (unfold contents; f_equal; lia).
    rewrite ring_split, Hl in Ec by lia.
    assert (ztake n (contents p) = ring (bytes p) (read_pos p) k) as Et.
    { rewrite <- Ec. unfold k. destruct (decide (n <= count p)).
      - rewrite Z.min_l by lia. unfold ztake. apply take_app_length'.
        pose proof (zlen_ring (bytes p) (read_pos p) n). unfold zlen in *. lia.
      - rewrite Z.min_r, Z.sub_diag, app_nil_r by lia. apply ztake_all. rewrite zlen_ring; lia. }
    assert (zdrop n (contents p) = ring (bytes p) ((read_pos p + k) mod 4096) (count p - k)) as Ed.
    { rewrite <- Ec. unfold k. destruct (decide (n <= count p)).
      - rewrite Z.min_l by lia. unfold zdrop. apply drop_app_length'.
        pose proof (zlen_ring (bytes p) (read_pos p) n). unfold zlen in *. lia.
      - rewrite Z.min_r, Z.sub_diag, app_nil_r by lia. apply zdrop_all. rewrite zlen_ring; lia. }
    rewrite Et, Ed. done.
  - pose proof (Z.mod_pos_bound (read_pos p + k) 4096 ltac:(lia)).
    split; cbn; unfold PIPE_BUF_SIZE; try done; try lia.
    rewrite Hwr, Z.add_mod_idemp_l by lia. f_equal. lia.
Qed.

Lemma pipe_write_spec p src n :
  pipe_wf p -> active p = true -> 0 <= n <= zlen src ->
  let '(ret, _, p') := pipe_write (Some src) n p in
  (ret, abs p') = fifo_write src n (abs p) /\ pipe_wf p' /\ active p' = true.
Proof.
  intros Hw Ha Hn. pose proof Hw as [Hb Hs Hl Hr Hc Hwr H1 H2 H3].
  unfold pipe_write, fifo_write, abs. cbn [negb fq f_writers f_readers]. rewrite Ha. cbn [negb orb].
  rewrite (proj2 (Z.eqb_neq (buffer p) 0)), zlen_contents by done. unfold PIPE_BUF_SIZE in *.
  destruct (readers p =? 0); [done|]. rewrite Hs, u32_small by lia.
  destruct (4096 - count p =? 0) eqn:E; [done|]. bool_hyps.
  rewrite read_count by (unfold PIPE_BUF_SIZE; lia). set (k := Z.min n (4096 - count p)).
  pose proof (Z.mod_pos_bound (read_pos p + count p) 4096 ltac:(lia)).
  destruct (copy_in_spec p src k) as (buf & -> & Hlen & Hget); [rewrite ?Hs; lia..|].
  rewrite Hs in *. rewrite u32_small, s32_small by lia. split; [|split; [|done]].
  - do 2 f_equal. unfold contents. cbn. apply ring_write; try lia.
    rewrite Hl. rewrite Hwr in Hget. exact Hget.
  - split; cbn; unfold PIPE_BUF_SIZE; try done; try lia.
    rewrite Hwr, Z.add_mod_idemp_l by lia. f_equal. lia.
Qed.

(** ** The subsystem: one call at a time *)

(** A [pipe_t *] argument is a table index, [None] for [NULL]. *)
Inductive pipe_op :=
| OpCreate
| OpDestroy (i : option Z)
| OpRead (i : option Z) (has_buf : bool) (n : Z)
| OpWrite (i : option Z) (src : option (list Z)) (n : Z)
| OpTryRead (i : option Z) (has_buf : bool) (n : Z)
| OpTryWrite (i : option Z) (src : option (list Z)) (n : Z)
| OpCloseRead (i : option Z)
| OpCloseWrite (i : option Z)
| OpDupReader (i : option Z)
| OpDupWriter (i : option Z)
| OpSetWaitingReader (i : option Z) (thr : Z)
| OpSetWaitingWriter (i : option Z) (thr : Z)
| OpAvailable (i : option Z).

Record answer := mk_answer { ret : Z; out : list Z; evs : list event }.

Section system.
Context {H : Type} `{!KHeap H}.

Record psys := mk_psys { heap : H; table : list pipe_t }.

Definition pipe_at (st : psys) (i : Z) : pipe_t := zget (table st) i.
Definition set_pipe (st : psys) (i : Z) (p : pipe_t) : psys := mk_psys (heap st) (zset (table st) i p).

(** An operation on the pipe alone. *)
Definition on_pipe (i : option Z) (null : Z) (st : psys) (f : pipe_t -> answer * pipe_t) : answer * psys :=
  match i with
  | None => (mk_answer null [] [], st)
  | Some i => let '(a, p) := f (pipe_at st i) in (a, set_pipe st i p)
  end.

(** An operation on the pipe and the heap. *)
Definition on_heap (i : option Z) (st : psys) (f : H -> pipe_t -> list event * H * pipe_t) : answer * psys :=
  match i with
  | None => (mk_answer 0 [] [], st)
  | Some i =>
      let '(ev, h, p) := f (heap st) (pipe_at st i) in
      (mk_answer 0 [] ev, mk_psys h (zset (table st) i p))
  end.

Definition silent (p : pipe_t) : answer * pipe_t := (mk_answer 0 [] [], p).

Definition pipe_step (op : pipe_op) (st : psys) : answer * psys :=
  match op with
  | OpCreate =>
      let '(r, h, tbl) := pipe_create (heap st) (table st) in
      (mk_answer (default (-1) r) [] [], mk_psys h tbl)
  | OpDestroy i => on_heap i st pipe_destroy
  | OpRead i b n => on_pipe i (-1) st (fun p => let '(r, o, e, p) := pipe_read b n p in (mk_answer r o e, p))
  | OpTryRead i b n => on_pipe i (-1) st (fun p => let '(r, o, e, p) := pipe_try_read b n p in (mk_answer r o e, p))
  | OpWrite i src n => on_pipe i (- EPIPE) st (fun p => let '(r, e, p) := pipe_write src n p in (mk_answer r [] e, p))
  | OpTryWrite i src n =>
      on_pipe i (- EPIPE) st (fun p => let '(r, e, p) := pipe_try_write src n p in (mk_answer r [] e, p))
  | OpCloseRead i => on_heap i st pipe_close_read
  | OpCloseWrite i => on_heap i st pipe_close_write
  | OpDupReader i => on_pipe i 0 st (fun p => silent (pipe_fork_dup_reader p))
  | OpDupWriter i => on_pipe i 0 st (fun p => silent (pipe_fork_dup_writer p))
  | OpSetWaitingReader i thr => on_pipe i 0 st (fun p => silent (pipe_set_waiting_reader thr p))
  | OpSetWaitingWriter i thr => on_pipe i 0 st (fun p => silent (pipe_set_waiting_writer thr p))
  | OpAvailable i => on_pipe i (-1) st (fun p => (mk_answer (pipe_available p) [] [], p))
  end.

(** What callers guarantee: pointers into the table, buffers as long as they
    say, and fewer than [INT_MAX] copies of an end. *)
Definition valid_index (i : option Z) : Prop := match i with None => True | Some i => 0 <= i < MAX_PIPES end.
Definition valid_src (src : option (list Z)) (n : Z) : Prop :=
  match src with None => True | Some s => 0 <= n <= zlen s end.
Definition end_bound (count : pipe_t -> Z) (i : option Z) (st : psys) : Prop :=
  match i with None => True | Some i => count (pipe_at st i) < 2 ^ 31 - 1 end.

Definition op_pre (op : pipe_op) (st : psys) : Prop :=
  match op with
  | OpCreate => True
  | OpRead i _ n | OpTryRead i _ n => valid_index i /\ 0 <= n
  | OpWrite i src n | OpTryWrite i src n => valid_index i /\ valid_src src n
  | OpDupReader i => valid_index i /\ end_bound readers i st
  | OpDupWriter i => valid_index i /\ end_bound writers i st
  | OpDestroy i | OpCloseRead i | OpCloseWrite i | OpSetWaitingReader i _ | OpSetWaitingWriter i _
  | OpAvailable i => valid_index i
  end.

(** Runs, with the log of calls and answers. *)
Inductive pipe_run : psys -> list (pipe_op * answer) -> psys -> Prop :=
| run_nil st : pipe_run st [] st
| run_snoc st log st1 op a st2 :
    pipe_run st log st1 -> op_pre op st1 -> pipe_step op st1 = (a, st2) ->
    pipe_run st (log ++ [(op, a)]) st2.
End system.
Arguments psys : clear implicits.

(** ** The non-blocking variants *)

Lemma try_read_eq b n p :
  pipe_try_read b n p = if b && lock p then (- EAGAIN, [], [], p) else pipe_read b n p.
Proof. unfold pipe_try_read, pipe_read. by destruct b, (lock p). Qed.

Lemma try_write_eq src n p :
  pipe_try_write src n p = if lock p then ((match src with None => - EPIPE | _ => - EAGAIN end), [], p)
                           else pipe_write src n p.
Proof.
  unfold pipe_try_write, pipe_write. destruct src, (lock p); try done.
  destruct (negb (active p) || (buffer p =? 0)), (readers p =? 0); done.
Qed.

(** ** Preservation *)

(** An operation that leaves the buffer with its pipe. *)
Definition keeps (p p' : pipe_t) : Prop :=
  active p' = active p /\ buffer p' = buffer p /\ (pipe_ok p -> pipe_ok p').

#[global] Instance keeps_refl : Reflexive keeps.
Proof. intros p. done. Qed.

Lemma pipe_ok_active p : pipe_ok p -> active p = true -> pipe_wf p.
Proof. unfold pipe_ok. intros H E. by rewrite E in H. Qed.

Lemma keeps_intro p p' :
  active p' = active p -> buffer p' = buffer p -> (pipe_wf p -> active p = true -> pipe_wf p') -> keeps p p'.
Proof.
  intros Ha Hb Hw. split; [done|]. split; [done|]. unfold pipe_ok. rewrite Ha, Hb.
  destruct (active p) eqn:E; [|done]. intros ?. by apply Hw.
Qed.

Lemma pipe_read_keeps b n p : 0 <= n -> keeps p (pipe_read b n p).2.
Proof.
  intros Hn. apply keeps_intro; [unfold pipe_read; repeat case_match; simplify_eq; done.. |].
  intros Hw Ha. destruct b; [|done]. pose proof (pipe_read_spec p n Hw Ha Hn) as Hs.
  by destruct (pipe_read true n p) as [[[r o] e] p'], Hs as (_ & ? & _).
Qed.

Lemma pipe_write_keeps src n p : valid_src src n -> keeps p (pipe_write src n p).2.
Proof.
  intros Hn. apply keeps_intro; [unfold pipe_write; repeat case_match; simplify_eq; done.. |].
  intros Hw Ha. destruct src as [src|]; [|done]. pose proof (pipe_write_spec p src n Hw Ha Hn) as Hs.
  by destruct (pipe_write (Some src) n p) as [[r e] p'], Hs as (_ & ? & _).
Qed.

Lemma pipe_try_read_keeps b n p : 0 <= n -> keeps p (pipe_try_read b n p).2.
Proof. intros Hn. rewrite try_read_eq. case_if; [done | by apply pipe_read_keeps]. Qed.

Lemma pipe_try_write_keeps src n p : valid_src src n -> keeps p (pipe_try_write src n p).2.
Proof. intros Hn. rewrite try_write_eq. case_if; [done | by apply pipe_write_keeps]. Qed.

Lemma ends_wf p r w wr ww :
  pipe_wf p -> 0 <= r -> 0 <= w -> 0 < r + w -> pipe_wf (set_waiting wr ww (set_ends r w p)).
Proof. intros []; split; done. Qed.

Lemma dup_reader_keeps p : readers p < 2 ^ 31 - 1 -> keeps p (pipe_fork_dup_reader p).
Proof.
  intros Hb. apply keeps_intro; [unfold pipe_fork_dup_reader; by destruct (active p) eqn:?..|].
  intros Hw Ha. unfold pipe_fork_dup_reader. rewrite Ha. pose proof (pw_readers p Hw). pose proof (pw_writers p Hw).
  rewrite s32_small by lia. apply (ends_wf p (readers p + 1) (writers p) (waiting_reader p) (waiting_writer p)); done || lia.
Qed.

Lemma dup_writer_keeps p : writers p < 2 ^ 31 - 1 -> keeps p (pipe_fork_dup_writer p).
Proof.
  intros Hb. apply keeps_intro; [unfold pipe_fork_dup_writer; by destruct (active p) eqn:?..|].
  intros Hw Ha. unfold pipe_fork_dup_writer. rewrite Ha. pose proof (pw_readers p Hw). pose proof (pw_writers p Hw).
  rewrite s32_small by lia. apply (ends_wf p (readers p) (writers p + 1) (waiting_reader p) (waiting_writer p)); done || lia.
Qed.

Lemma set_waiting_keeps wr ww p : keeps p (set_waiting wr ww p).
Proof. apply keeps_intro; [done..|]. intros [] _; split; done. Qed.

Lemma set_waiting_reader_keeps thr p : keeps p (pipe_set_waiting_reader thr p).
Proof. unfold pipe_set_waiting_reader. case_if; [apply set_waiting_keeps | done]. Qed.
Lemma set_waiting_writer_keeps thr p : keeps p (pipe_set_waiting_writer thr p).
Proof. unfold pipe_set_waiting_writer. case_if; [apply set_waiting_keeps | done]. Qed.

#[export] Hint Resolve pipe_read_keeps pipe_write_keeps pipe_try_read_keeps pipe_try_write_keeps
  dup_reader_keeps dup_writer_keeps set_waiting_reader_keeps set_waiting_writer_keeps : pipe.

Section invariant.
Context {H : Type} `{!KHeap H} `{!KHeapLaws H}.
Implicit Types (st : psys H) (h : H) (p : pipe_t) (F : Z -> Z -> Prop).

Definition in_table (i : Z) : Prop := 0 <= i < MAX_PIPES.
Definition owned_by_pipe st (q : Z) : Prop :=
  exists i, in_table i /\ active (pipe_at st i) = true /\ buffer (pipe_at st i) = q.

(** [F] is what the rest of the kernel has allocated.  Every other live block
    is the buffer of exactly one active pipe. *)
Record sys_ok F st : Prop := {
  sy_heap : heap_ok (heap st);
  sy_len : zlen (table st) = MAX_PIPES;
  sy_pipe : forall i, in_table i -> pipe_ok (pipe_at st i);
  sy_own : forall i, in_table i -> active (pipe_at st i) = true ->
    exists n, PIPE_BUF_SIZE <= n /\ heap_live (heap st) (buffer (pipe_at st i)) n;
  sy_inj : forall i j, in_table i -> in_table j -> active (pipe_at st i) = true ->
    active (pipe_at st j) = true -> buffer (pipe_at st i) = buffer (pipe_at st j) -> i = j;
  sy_frame : forall q n, F q n -> heap_live (heap st) q n /\ ~ owned_by_pipe st q;
  sy_all : forall q n, heap_live (heap st) q n -> F q n \/ owned_by_pipe st q;
}.

Lemma pipe_at_set st i p j : zlen (table st) = MAX_PIPES -> in_table i -> in_table j ->
  pipe_at (set_pipe st i p) j = if decide (j = i) then p else pipe_at st j.
Proof.
  unfold in_table, pipe_at, set_pipe. intros Hl Hi Hj; cbn. case_decide.
  - subst. apply zget_zset_eq. lia.
  - apply zget_zset_ne; lia.
Qed.

(** A local step. *)
Lemma keeps_ok F st i p :
  sys_ok F st -> in_table i -> keeps (pipe_at st i) p -> sys_ok F (set_pipe st i p).
Proof.
  intros [Hh Hl Hp Ho Hi Hf Ha] Hin (Ka & Kb & Kok).
  assert (forall j, in_table j ->
    active (pipe_at (set_pipe st i p) j) = active (pipe_at st j) /\
    buffer (pipe_at (set_pipe st i p) j) = buffer (pipe_at st j)) as Hsame.
  { intros j Hj. rewrite pipe_at_set by done. case_decide; by subst. }
  assert (forall q, owned_by_pipe (set_pipe st i p) q <-> owned_by_pipe st q) as Hown.
  { intros q. unfold owned_by_pipe. split; intros (j & Hj & Hja & Hjb); exists j;
      destruct (Hsame j Hj) as [E1 E2]; rewrite ?E1, ?E2 in *; done. }
  split; cbn.
  - done.
  - by rewrite zlen_zset.
  - intros j Hj. rewrite pipe_at_set by done. case_decide; subst; auto.
  - intros j Hj. destruct (Hsame j Hj) as [-> ->]. by apply Ho.
  - intros j k Hj Hk. destruct (Hsame j Hj) as [-> ->], (Hsame k Hk) as [-> ->]. by apply Hi.
  - intros q n Hq. rewrite Hown. by apply Hf.
  - intros q n Hq. rewrite Hown. by eapply Ha.
Qed.

(** The last end is gone: the buffer goes back to the heap. *)
Lemma release_ok F st i p :
  sys_ok F st -> in_table i -> active (pipe_at st i) = true -> active p = false -> buffer p = 0 ->
  sys_ok F (mk_psys (hp_kfree (buffer (pipe_at st i)) (heap st)) (zset (table st) i p)).
Proof.
  intros [Hh Hl Hp Ho Hi Hf Ha] Hin Hact Hpa Hpb.
  destruct (Ho i Hin Hact) as (n & _ & Hlive).
  destruct (kfree_live _ _ _ Hh Hlive) as [Hh' Hl'].
  set (st' := mk_psys _ _).
  assert (forall j, in_table j -> pipe_at st' j = if decide (j = i) then p else pipe_at st j) as Hat.
  { intros j Hj. change (pipe_at st' j) with (pipe_at (set_pipe st i p) j). by apply pipe_at_set. }
  assert (forall j, in_table j -> active (pipe_at st' j) = true -> j <> i /\ pipe_at st' j = pipe_at st j) as Hact'.
  { intros j Hj. rewrite Hat by done. case_decide; [congruence | done]. }
  split; cbn; try done.
  - by rewrite zlen_zset.
  - intros j Hj. rewrite Hat by done. case_decide; [unfold pipe_ok; by rewrite Hpa | auto].
  - intros j Hj Hja. destruct (Hact' j Hj Hja) as [Hne E]. rewrite E in *.
    destruct (Ho j Hj Hja) as (m & Hm & Hlm). exists m. split; [done|]. apply Hl'. split; [done|].
    intros Eb. by apply Hne, Hi.
  - intros j k Hj Hk Hja Hka. destruct (Hact' j Hj Hja) as [_ E1], (Hact' k Hk Hka) as [_ E2].
    rewrite E1, E2 in *. by apply Hi.
  - intros q m Hq. destruct (Hf q m Hq) as [Hqm Hno]. split.
    + apply Hl'. split; [done|]. intros ->. apply Hno. by exists i.
    + intros (j & Hj & Hja & Hjb). destruct (Hact' j Hj Hja) as [_ E]. rewrite E in *. apply Hno. by exists j.
  - intros q m [Hq Hne]%Hl'. destruct (Ha q m Hq) as [|(j & Hj & Hja & Hjb)]; [by left | right].
    exists j. split; [done|]. rewrite Hat by done. case_decide; [subst; done | done].
Qed.

(** A fresh buffer for an inactive slot. *)
Lemma acquire_ok F st i p h n :
  sys_ok F st -> in_table i -> active (pipe_at st i) = false -> active p = true -> pipe_wf p ->
  heap_ok h -> PIPE_BUF_SIZE <= n -> (forall k, ~ heap_live (heap st) (buffer p) k) ->
  (forall q k, heap_live h q k <-> (q = buffer p /\ k = n) \/ heap_live (heap st) q k) ->
  sys_ok F (mk_psys h (zset (table st) i p)).
Proof.
  intros [Hh Hl Hp Ho Hi Hf Ha] Hin Hact Hpa Hpw Hh' Hn Hfresh Hl'. set (st' := mk_psys _ _).
  assert (forall j, in_table j -> pipe_at st' j = if decide (j = i) then p else pipe_at st j) as Hat.
  { intros j Hj. change (pipe_at st' j) with (pipe_at (set_pipe st i p) j). by apply pipe_at_set. }
  assert (forall j, in_table j -> active (pipe_at st j) = true -> buffer (pipe_at st j) <> buffer p) as Hnew.
  { intros j Hj Hja E. destruct (Ho j Hj Hja) as (m & _ & Hm). rewrite E in Hm. by apply Hfresh in Hm. }
  split; cbn; try done.
  - by rewrite zlen_zset.
  - intros j Hj. rewrite Hat by done. case_decide; [unfold pipe_ok; by rewrite Hpa | auto].
  - intros j Hj. rewrite Hat by done. case_decide.
    + intros _. exists n. split; [done|]. apply Hl'. by left.
    + intros Hja. destruct (Ho j Hj Hja) as (m & Hm & Hlm). exists m. split; [done|]. apply Hl'. by right.
  - intros j k Hj Hk. rewrite !Hat by done. repeat case_decide; subst; try done.
    + intros _ Hka E. by destruct (Hnew k Hk Hka).
    + intros Hja _ E. by destruct (Hnew j Hj Hja).
    + by apply Hi.
  - intros q m Hq. destruct (Hf q m Hq) as [Hqm Hno]. split; [apply Hl'; by right|].
    intros (j & Hj & Hja & Hjb). rewrite Hat in Hja, Hjb by done. case_decide.
    + subst. by apply Hfresh in Hqm.
    + apply Hno. by exists j.
  - intros q m [[-> ->] | Hq]%Hl'.
    + right. exists i. rewrite Hat, decide_True by done. done.
    + destruct (Ha q m Hq) as [|(j & Hj & Hja & Hjb)]; [by left | right]. exists j.
      split; [done|]. rewrite Hat by done. case_decide; [congruence | done].
Qed.
End invariant.

Lemma free_slot_spec k tbl :
  match free_slot k tbl with
  | Some i => k <= i < k + zlen tbl /\ active (zget tbl (i - k)) = false /\
              forall j, 0 <= j < i - k -> active (zget tbl j) = true
  | None => forall j, 0 <= j < zlen tbl -> active (zget tbl j) = true
  end.
Proof.
  assert (forall p (l : list pipe_t) j, 0 < j -> zget (p :: l) j = zget l (j - 1)) as Hcons.
  { intros p l j Hj. unfold zget. replace (Z.to_nat j) with (S (Z.to_nat (j - 1))) by lia. done. }
  revert k. induction tbl as [|p tbl IH]; intros k; cbn [free_slot].
  { intros j Hj. unfold zlen in Hj. cbn in Hj. lia. }
  pose proof (zlen_nonneg tbl). rewrite (zlen_cons p). destruct (active p) eqn:Ep.
  - specialize (IH (k + 1)). destruct (free_slot (k + 1) tbl) as [i|].
    + destruct IH as (Hi & Hia & Hlt). rewrite Hcons by lia.
      split; [lia|]. split; [by replace (i - k - 1) with (i - (k + 1)) by lia|].
      intros j Hj. destruct (decide (j = 0)) as [->|]; [done|]. rewrite Hcons by lia. apply Hlt. lia.
    + intros j Hj. destruct (decide (j = 0)) as [->|]; [done|]. rewrite Hcons by lia. apply IH. lia.
  - rewrite Z.sub_diag. split_lia.
Qed.

(** ** The heap-level operations *)

Section steps.
Context {H : Type} `{!KHeap H} `{!KHeapLaws H}.
Implicit Types (st : psys H) (h : H) (p : pipe_t) (F : Z -> Z -> Prop).

(** Either the pipe stays with its buffer, or it was the last reference. *)
Definition closes (h : H) (p : pipe_t) (ev : list event) (h' : H) (p' : pipe_t) : Prop :=
  (h' = h /\ keeps p p' /\ contents p' = contents p /\ fifo_pipe_gone ∉ ev) \/
  (active p = true /\ h' = hp_kfree (buffer p) h /\ active p' = false /\ buffer p' = 0 /\ fifo_pipe_gone ∈ ev).

Lemma wake_not_gone thr : fifo_pipe_gone ∉ wake thr.
Proof. unfold wake. case_if; [apply not_elem_of_nil | by intros [|[]%not_elem_of_nil]%elem_of_cons]. Qed.

Lemma closed_not_gone a b : fifo_pipe_gone ∉ wake a ++ wake b ++ [kpoll_wake].
Proof.
  rewrite !not_elem_of_app. split_and!; [apply wake_not_gone..|].
  by intros [|[]%not_elem_of_nil]%elem_of_cons.
Qed.

Lemma pipe_destroy_closes h p :
  pipe_ok p -> let '(ev, h', p') := pipe_destroy h p in closes h p ev h' p'.
Proof.
  intros Hok. unfold pipe_destroy. destruct (active p) eqn:Ha; cbn.
  - right. pose proof (pipe_ok_active p Hok Ha) as Hw.
    rewrite (proj2 (Z.eqb_neq _ 0)) by apply Hw. split_and!; try done. left.
  - left. split_and!; [done | done | done | apply not_elem_of_nil].
Qed.

(** Dropping an end of an open pipe: it stays open, or both counts are zero. *)
Lemma close_end_spec h p r w p' ev :
  pipe_ok p -> active p = true -> 0 <= r -> 0 <= w -> fifo_pipe_gone ∉ ev ->
  (p' = set_ends r w p \/ p' = set_waiting 0 0 (set_ends r w p)) ->
  let '(ev', h', q) := if (r =? 0) && (w =? 0) then let '(ev', h', q) := pipe_destroy h p' in (ev ++ ev', h', q)
                       else (ev, h, p') in
  closes h p ev' h' q.
Proof.
  intros Hok Ha Hr Hw Hev Hp'. pose proof (pipe_ok_active p Hok Ha) as Hwf.
  assert (active p' = active p /\ buffer p' = buffer p) as [Ea Eb] by (by destruct Hp' as [-> | ->]).
  case_if; bool_hyps.
  - unfold pipe_destroy. rewrite Ea, Ha, Eb. cbn. rewrite (proj2 (Z.eqb_neq _ 0)) by apply Hwf.
    right. split_and!; try done. apply elem_of_app. right. left.
  - left. split_and!; try done; [|by destruct Hp' as [-> | ->]]. apply keeps_intro; [done..|]. intros _ _.
    destruct Hp' as [-> | ->]; [apply (ends_wf p r w (waiting_reader p) (waiting_writer p)) | apply ends_wf];
      try done; lia.
Qed.

Lemma pipe_close_read_closes h p :
  pipe_ok p -> let '(ev, h', p') := pipe_close_read h p in closes h p ev h' p'.
Proof.
  intros Hok. unfold pipe_close_read. destruct (active p) eqn:Ha; cbn [negb].
  2:{ left. split_and!; [done | done | done | apply not_elem_of_nil]. }
  pose proof (pipe_ok_active p Hok Ha) as Hw. unfold close_read_end.
  apply (close_end_spec h p _ (writers p)); try done; [case_if; bool_hyps; pose proof (pw_readers p Hw); lia |
    apply Hw | apply closed_not_gone | by destruct (_ =? 0); auto].
Qed.

Lemma pipe_close_write_closes h p :
  pipe_ok p -> let '(ev, h', p') := pipe_close_write h p in closes h p ev h' p'.
Proof.
  intros Hok. unfold pipe_close_write. destruct (active p) eqn:Ha; cbn [negb].
  2:{ left. split_and!; [done | done | done | apply not_elem_of_nil]. }
  pose proof (pipe_ok_active p Hok Ha) as Hw. unfold close_write_end.
  apply (close_end_spec h p (readers p)); try done; [apply Hw | case_if; bool_hyps; pose proof (pw_writers p Hw); lia |
    apply closed_not_gone | by destruct (_ =? 0); auto].
Qed.
End steps.

Section runs.
Context {H : Type} `{!KHeap H} `{!KHeapLaws H}.
Implicit Types (st : psys H) (h : H) (p : pipe_t) (F : Z -> Z -> Prop).

Lemma sys_ok_heap F st h :
  sys_ok F st -> heap_ok h -> (forall q n, heap_live h q n <-> heap_live (heap st) q n) ->
  sys_ok F (mk_psys h (table st)).
Proof.
  intros [Hh Hl Hp Ho Hi Hf Ha] Hh' Heq. split; cbn; try done.
  - intros i Hin Hact. destruct (Ho i Hin Hact) as (n & Hn & Hln). exists n. split; [done | by apply Heq].
  - intros q n Hq. rewrite Heq. by apply Hf.
  - intros q n Hq%Heq. by eapply Ha.
Qed.

(** What [pipe_create] does to the table: nothing visible, or one inactive
    slot becomes an empty pipe with one end of each kind. *)
Lemma pipe_create_spec F st r h tbl :
  sys_ok F st -> pipe_create (heap st) (table st) = (r, h, tbl) ->
  let st' := mk_psys h tbl in
  sys_ok F st' /\
  match r with
  | None =>
      (forall j, in_table j -> active (pipe_at st' j) = active (pipe_at st j) /\
         (active (pipe_at st j) = true -> pipe_at st' j = pipe_at st j)) /\
      ((forall j, in_table j -> active (pipe_at st j) = true) \/ (hp_kalloc PIPE_BUF_SIZE (heap st)).1 = 0)
  | Some i =>
      in_table i /\ active (pipe_at st i) = false /\ active (pipe_at st' i) = true /\
      abs (pipe_at st' i) = mk_fifo [] 1 1 /\
      waiting_reader (pipe_at st' i) = 0 /\ waiting_writer (pipe_at st' i) = 0 /\
      forall j, in_table j -> j <> i -> pipe_at st' j = pipe_at st j
  end.
Proof.
  intros Hok Hc st'. pose proof (sy_len F st Hok) as Hlen. unfold pipe_create in Hc.
  pose proof (free_slot_spec 0 (table st)) as Hslot.
  destruct (free_slot 0 (table st)) as [i|].
  2:{ simplify_eq. unfold st'. destruct st as [h0 t0]. cbn in *.
      split; [done|]. split; [done|]. left. intros j Hj. apply Hslot. unfold in_table in Hj. lia. }
  destruct Hslot as (Hi & Hia & _). rewrite Z.sub_0_r in Hia.
  assert (in_table i) as Hin by (unfold in_table; lia).
  destruct (hp_kalloc PIPE_BUF_SIZE (heap st)) as [buf h1] eqn:Hk.
  pose proof (sy_pipe F st Hok i Hin) as Hpi. unfold pipe_ok, pipe_at in Hpi. rewrite Hia in Hpi.
  destruct (buf =? 0) eqn:Eb; bool_hyps; simplify_eq.
  - destruct (kalloc_fail (heap st) h PIPE_BUF_SIZE (sy_heap F st Hok) ltac:(done) Hk) as [Hh' Heq].
    split.
    + pose proof (sys_ok_heap F st h Hok Hh' Heq) as Hok1.
      apply (keeps_ok F _ i _ Hok1 Hin). split; [done|]. split; [by cbn|]. unfold pipe_ok. cbn. by rewrite Hia.
    + split; [|by right]. intros j Hj. unfold st', pipe_at. cbn. destruct (decide (j = i)) as [->|Hne].
      * rewrite zget_zset_eq by (unfold in_table in *; lia). cbn. split; [done | by rewrite Hia].
      * rewrite zget_zset_ne by (unfold in_table in *; lia). done.
  - destruct (kalloc_fresh (heap st) h PIPE_BUF_SIZE buf (sy_heap F st Hok) ltac:(done) Hk Eb) as (Hh' & m & Hm & Hfr & Heq).
    split.
    + apply (acquire_ok F st i _ h m); try done.
    + assert (pipe_at st' i = mk_pipe buf (replicate (Z.to_nat PIPE_BUF_SIZE) 0) PIPE_BUF_SIZE 0 0 0
        false 1 1 true 0 0 0 (in_gen (zget (table st) i)) (out_gen (zget (table st) i))) as ->.
      { unfold st', pipe_at. cbn [table]. apply zget_zset_eq. lia. }
      split_and!; try done. intros j Hj Hne. unfold st', pipe_at. cbn [table].
      apply zget_zset_ne; unfold in_table in *; lia.
Qed.

Lemma on_pipe_ok F st i null f a st' :
  sys_ok F st -> valid_index i -> (forall j, i = Some j -> keeps (pipe_at st j) (f (pipe_at st j)).2) ->
  on_pipe i null st f = (a, st') -> sys_ok F st'.
Proof.
  intros Hok Hi Hf Hs. destruct i as [i|]; cbn in Hs; [|by simplify_eq].
  specialize (Hf i eq_refl). destruct (f (pipe_at st i)) as [b p]. simplify_eq.
  by apply keeps_ok.
Qed.

Lemma on_heap_ok F st i f a st' :
  sys_ok F st -> valid_index i ->
  (forall h p, pipe_ok p -> let '(ev, h', p') := f h p in closes h p ev h' p') ->
  on_heap i st f = (a, st') -> sys_ok F st'.
Proof.
  intros Hok Hi Hf Hs. destruct i as [i|]; cbn in Hs; [|by simplify_eq].
  specialize (Hf (heap st) (pipe_at st i) (sy_pipe F st Hok i Hi)).
  destruct (f (heap st) (pipe_at st i)) as [[ev h'] p']. simplify_eq.
  destruct Hf as [(-> & Hk & _ & _) | (Ha & -> & Hpa & Hpb & _)].
  - by apply (keeps_ok F st i p').
  - by apply release_ok.
Qed.

(** Every call keeps the invariant. *)
Lemma pipe_step_ok F st op a st' :
  sys_ok F st -> op_pre op st -> pipe_step op st = (a, st') -> sys_ok F st'.
Proof.
  intros Hok Hpre Hs. destruct op; cbn in Hpre, Hs.
  { destruct (pipe_create (heap st) (table st)) as [[r h] tbl] eqn:Hc. simplify_eq.
    by apply (pipe_create_spec F st r h tbl). }
  - revert Hs. by apply on_heap_ok, pipe_destroy_closes.
  - revert Hs. apply on_pipe_ok; [done | tauto |]. intros j ->.
    pose proof (pipe_read_keeps has_buf n (pipe_at st j) ltac:(tauto)) as Hk.
    by destruct (pipe_read _ _ _) as [[[? ?] ?] ?].
  - revert Hs. apply on_pipe_ok; [done | tauto |]. intros j ->.
    pose proof (pipe_write_keeps src n (pipe_at st j) ltac:(tauto)) as Hk.
    by destruct (pipe_write _ _ _) as [[? ?] ?].
  - revert Hs. apply on_pipe_ok; [done | tauto |]. intros j ->.
    pose proof (pipe_try_read_keeps has_buf n (pipe_at st j) ltac:(tauto)) as Hk.
    by destruct (pipe_try_read _ _ _) as [[[? ?] ?] ?].
  - revert Hs. apply on_pipe_ok; [done | tauto |]. intros j ->.
    pose proof (pipe_try_write_keeps src n (pipe_at st j) ltac:(tauto)) as Hk.
    by destruct (pipe_try_write _ _ _) as [[? ?] ?].
  - revert Hs. by apply on_heap_ok, pipe_close_read_closes.
  - revert Hs. by apply on_heap_ok, pipe_close_write_closes.
  - revert Hs. apply on_pipe_ok; [done | tauto |]. intros j ->. apply dup_reader_keeps. apply Hpre.
  - revert Hs. apply on_pipe_ok; [done | tauto |]. intros j ->. apply dup_writer_keeps. apply Hpre.
  - revert Hs. apply on_pipe_ok; [done | done |]. intros j _. apply set_waiting_reader_keeps.
  - revert Hs. apply on_pipe_ok; [done | done |]. intros j _. apply set_waiting_writer_keeps.
  - revert Hs. by apply on_pipe_ok.
Qed.

Lemma pipe_run_ok F st log st' : pipe_run st log st' -> sys_ok F st -> sys_ok F st'.
Proof. induction 1; eauto using pipe_step_ok. Qed.
End runs.

(** ** Streams

    What a log says about pipe [i]: the bytes that writers handed over, the
    bytes that readers received, and whether the pipe was torn down. *)
Definition sent1 (i : Z) (e : pipe_op * answer) : list Z :=
  match e.1 with
  | OpWrite (Some j) (Some src) _ | OpTryWrite (Some j) (Some src) _ =>
      if j =? i then ztake (ret e.2) src else []
  | _ => []
  end.
Definition got1 (i : Z) (e : pipe_op * answer) : list Z :=
  match e.1 with
  | OpRead (Some j) _ _ | OpTryRead (Some j) _ _ => if j =? i then out e.2 else []
  | _ => []
  end.
Definition gone1 (i : Z) (e : pipe_op * answer) : bool :=
  match e.1 with
  | OpDestroy (Some j) | OpCloseRead (Some j) | OpCloseWrite (Some j) =>
      (j =? i) && existsb (fun v => match v with fifo_pipe_gone => true | _ => false end) (evs e.2)
  | _ => false
  end.
Definition sent (i : Z) (log : list (pipe_op * answer)) : list Z := log ≫= sent1 i.
Definition got (i : Z) (log : list (pipe_op * answer)) : list Z := log ≫= got1 i.
Definition gone (i : Z) (log : list (pipe_op * answer)) : bool := existsb (gone1 i) log.

Lemma gone_event ev :
  existsb (fun v => match v with fifo_pipe_gone => true | _ => false end) ev = true <-> fifo_pipe_gone ∈ ev.
Proof.
  rewrite existsb_exists. split.
  - intros (v & Hv & E). destruct v; try done. by apply list_elem_of_In.
  - intros Hv. exists fifo_pipe_gone. split; [by apply list_elem_of_In | done].
Qed.

(** Bytes in, bytes out, for one read or write. *)
Lemma read_flow b n p :
  pipe_ok p -> active p = true -> 0 <= n ->
  let '(_, o, _, p') := pipe_read b n p in active p' = true /\ contents p = o ++ contents p'.
Proof.
  intros Hok Ha Hn. destruct b; [|done]. pose proof (pipe_read_spec p n (pipe_ok_active p Hok Ha) Ha Hn) as Hs.
  destruct (pipe_read true n p) as [[[r o] e] p'], Hs as (Heq & _ & Ha'). split; [done|].
  unfold fifo_read, abs in Heq. cbn in Heq. case_decide as Hd.
  - injection Heq as _ -> -> _ _. done.
  - injection Heq as _ -> -> _ _. by rewrite ztake_zdrop.
Qed.

Lemma write_flow src n p :
  pipe_ok p -> active p = true -> valid_src src n ->
  let '(r, _, p') := pipe_write src n p in
  active p' = true /\ contents p' = contents p ++ match src with Some s => ztake r s | None => [] end.
Proof.
  intros Hok Ha Hn. destruct src as [src|]; [|by cbn; rewrite app_nil_r].
  pose proof (pipe_write_spec p src n (pipe_ok_active p Hok Ha) Ha Hn) as Hs.
  destruct (pipe_write (Some src) n p) as [[r e] p'], Hs as (Heq & _ & Ha'). split; [done|].
  unfold fifo_write, abs in Heq. cbn in Heq. repeat case_if; simplify_eq; cbn in *; rewrite ?app_nil_r; try congruence.
  all: injection Heq as -> -> _ _; cbn; by rewrite ?app_nil_r.
Qed.

Section streams.
Context {H : Type} `{!KHeap H} `{!KHeapLaws H}.
Implicit Types (st : psys H).

Definition flows (i : Z) (st st' : psys H) (e : pipe_op * answer) : Prop :=
  active (pipe_at st' i) = true /\
  contents (pipe_at st i) ++ sent1 i e = got1 i e ++ contents (pipe_at st' i).

Lemma pipe_at_zset h tbl j p i :
  zlen tbl = MAX_PIPES -> in_table j -> in_table i ->
  pipe_at (H := H) (mk_psys h (zset tbl j p)) i = if decide (i = j) then p else zget tbl i.
Proof.
  unfold in_table, pipe_at. intros Hl Hi Hj; cbn. case_decide; [subst; apply zget_zset_eq | apply zget_zset_ne]; lia.
Qed.

(** A call on another pipe, or on none. *)
Lemma on_pipe_flow F st j null f a st' i op :
  sys_ok F st -> valid_index j -> in_table i -> active (pipe_at st i) = true ->
  on_pipe j null st f = (a, st') ->
  (j <> Some i -> sent1 i (op, a) = [] /\ got1 i (op, a) = []) ->
  (j = Some i -> let '(b, p) := f (pipe_at st i) in
     active p = true /\ contents (pipe_at st i) ++ sent1 i (op, b) = got1 i (op, b) ++ contents p) ->
  flows i st st' (op, a).
Proof.
  intros Hok Hj Hi Ha Hs Hother Hself. destruct j as [j|]; cbn in Hs.
  2:{ destruct Hother as [Es Eg]; [done|]. simplify_eq. unfold flows. by rewrite Es, Eg, app_nil_r. }
  destruct (decide (j = i)) as [->|Hne].
  - specialize (Hself eq_refl). destruct (f (pipe_at st i)) as [b p]. simplify_eq. unfold flows.
    rewrite pipe_at_set by (done || by eapply sy_len). by rewrite decide_True.
  - destruct Hother as [Es Eg]; [congruence|]. destruct (f (pipe_at st j)) as [b p]. simplify_eq. unfold flows.
    rewrite pipe_at_set by (done || by eapply sy_len). rewrite decide_False by done. by rewrite Es, Eg, app_nil_r.
Qed.

Lemma on_heap_flow F st j f a st' i op :
  sys_ok F st -> valid_index j -> in_table i -> active (pipe_at st i) = true ->
  (forall h p, pipe_ok p -> let '(ev, h', p') := f h p in closes h p ev h' p') ->
  on_heap j st f = (a, st') -> sent1 i (op, a) = [] -> got1 i (op, a) = [] ->
  (j = Some i -> fifo_pipe_gone ∉ evs a) -> flows i st st' (op, a).
Proof.
  intros Hok Hj Hi Ha Hf Hs Es Eg Hng. unfold flows. rewrite Es, Eg, app_nil_r. cbn [app].
  destruct j as [j|]; cbn in Hs; [|by simplify_eq].
  specialize (Hf (heap st) (pipe_at st j) (sy_pipe F st Hok j Hj)).
  destruct (f (heap st) (pipe_at st j)) as [[ev h'] p']. simplify_eq.
  rewrite pipe_at_zset by (done || by eapply sy_len). case_decide as Hd; [|done].
  subst j. specialize (Hng eq_refl). cbn in Hng.
  destruct Hf as [(_ & (Ka & _) & Kc & _) | (_ & _ & _ & _ & ?)]; [|done]. split; congruence.
Qed.

Lemma pipe_step_flow F st op a st' i :
  sys_ok F st -> op_pre op st -> pipe_step op st = (a, st') -> in_table i ->
  active (pipe_at st i) = true -> gone1 i (op, a) = false -> flows i st st' (op, a).
Proof.
  intros Hok Hpre Hs Hi Ha Hng. pose proof (sy_pipe F st Hok i Hi) as Hpi.
  assert (forall j, (j =? i) && existsb (fun v => match v with fifo_pipe_gone => true | _ => false end) (evs a) = false ->
    Some j = Some i -> fifo_pipe_gone ∉ evs a) as Hgone.
  { intros j Hj [= ->]. rewrite Z.eqb_refl in Hj. cbn in Hj. rewrite <- gone_event, Hj. done. }
  assert (forall j b n, j = Some i -> 0 <= n -> let '(_, o, _, p') := pipe_read b n (pipe_at st i) in
    active p' = true /\ contents (pipe_at st i) = o ++ contents p') as Hread by (intros; by apply read_flow).
  assert (forall src n, valid_src src n -> let '(r, _, p') := pipe_write src n (pipe_at st i) in
    active p' = true /\ contents p' = contents (pipe_at st i) ++ match src with Some s => ztake r s | None => [] end)
    as Hwrite by (intros; by apply write_flow).
  destruct op; cbn in Hpre, Hs.
  - destruct (pipe_create (heap st) (table st)) as [[r h] tbl] eqn:Hc. simplify_eq.
    destruct (pipe_create_spec F st r h tbl Hok Hc) as [_ Hr]. unfold flows. cbn. rewrite app_nil_r.
    destruct r as [k|].
    + destruct Hr as (Hk & Hka & _ & _ & _ & _ & Hoth). rewrite Hoth by congruence. done.
    + destruct Hr as [Hsame _]. destruct (Hsame i Hi) as [E1 E2]. rewrite E2 by done. done.
  - eapply (on_heap_flow F); try done; [apply pipe_destroy_closes|]. intros ->. exact (Hgone i Hng eq_refl).
  - destruct Hpre as [Hpi1 Hn]. eapply (on_pipe_flow F); try done.
    + destruct i0 as [j|]; [|done]. intros Hj. cbn. rewrite (proj2 (Z.eqb_neq j i)) by congruence. done.
    + intros ->. specialize (Hread (Some i) has_buf n eq_refl Hn).
      destruct (pipe_read _ _ _) as [[[r o] e] p']. cbn. rewrite Z.eqb_refl, app_nil_r. done.
  - destruct Hpre as [Hpi1 Hn]. eapply (on_pipe_flow F); try done.
    + destruct i0 as [j|]; [|done]. intros Hj. cbn. rewrite (proj2 (Z.eqb_neq j i)) by congruence. by destruct src.
    + intros ->. specialize (Hwrite src n Hn).
      destruct (pipe_write _ _ _) as [[r e] p']. cbn. rewrite Z.eqb_refl. destruct Hwrite as [? ->]. by destruct src.
  - destruct Hpre as [Hpi1 Hn]. eapply (on_pipe_flow F); try done.
    + destruct i0 as [j|]; [|done]. intros Hj. cbn. rewrite (proj2 (Z.eqb_neq j i)) by congruence. done.
    + intros ->. rewrite try_read_eq. case_if; [cbn; by rewrite Z.eqb_refl, app_nil_r|].
      specialize (Hread (Some i) has_buf n eq_refl Hn).
      destruct (pipe_read _ _ _) as [[[r o] e] p']. cbn. rewrite Z.eqb_refl, app_nil_r. done.
  - destruct Hpre as [Hpi1 Hn]. eapply (on_pipe_flow F); try done.
    + destruct i0 as [j|]; [|done]. intros Hj. cbn. rewrite (proj2 (Z.eqb_neq j i)) by congruence. by destruct src.
    + intros ->. rewrite try_write_eq. case_if; [cbn; rewrite Z.eqb_refl; destruct src; cbn; by rewrite app_nil_r|].
      specialize (Hwrite src n Hn).
      destruct (pipe_write _ _ _) as [[r e] p']. cbn. rewrite Z.eqb_refl. destruct Hwrite as [? ->]. by destruct src.
  - eapply (on_heap_flow F); try done; [apply pipe_close_read_closes|]. intros ->. exact (Hgone i Hng eq_refl).
  - eapply (on_heap_flow F); try done; [apply pipe_close_write_closes|]. intros ->. exact (Hgone i Hng eq_refl).
  - eapply (on_pipe_flow F); try done; [tauto|]. intros _. cbn. unfold pipe_fork_dup_reader. rewrite Ha, app_nil_r. done.
  - eapply (on_pipe_flow F); try done; [tauto|]. intros _. cbn. unfold pipe_fork_dup_writer. rewrite Ha, app_nil_r. done.
  - eapply (on_pipe_flow F); try done. intros _. cbn. unfold pipe_set_waiting_reader. rewrite Ha, app_nil_r. done.
  - eapply (on_pipe_flow F); try done. intros _. cbn. unfold pipe_set_waiting_writer. rewrite Ha, app_nil_r. done.
  - eapply (on_pipe_flow F); try done. intros _. cbn. rewrite app_nil_r. done.
Qed.

Lemma pipe_run_flow F st log st' i :
  pipe_run st log st' -> sys_ok F st -> in_table i -> active (pipe_at st i) = true -> gone i log = false ->
  active (pipe_at st' i) = true /\
  contents (pipe_at st i) ++ sent i log = got i log ++ contents (pipe_at st' i).
Proof.
  intros Hrun Hok Hi Ha. induction Hrun as [st|st log st1 op a st2 Hrun IH Hpre Hstep]; intros Hng.
  { cbn. by rewrite app_nil_r. }
  unfold gone in Hng. rewrite existsb_app in Hng. cbn in Hng. rewrite orb_false_r in Hng.
  apply orb_false_iff in Hng as [Hng1 Hng2]. destruct (IH Hok Ha Hng1) as [Ha1 E1].
  destruct (pipe_step_flow F st1 op a st2 i (pipe_run_ok F _ _ _ Hrun Hok) Hpre Hstep Hi Ha1 Hng2) as [Ha2 E2].
  split; [done|]. unfold sent, got in *. rewrite !bind_app. cbn. rewrite !app_nil_r, app_assoc, E1, <- !app_assoc.
  by rewrite E2.
Qed.
End streams.
