(* ===== verification/PipeProps.v ===== *)
(** * Properties of the pipe subsystem

    The theorems about src/pipe.c: refinement of a FIFO queue, integrity of
    the byte stream over any run of calls, ownership of the buffers, wake-ups
    and readiness edges.  The witnesses run the pipes on the allocator of
    Slab.v. *)
From S2P Require Import Prelude Heap Pmm PmmInit Slab HeapTrace Pipe.

(** ** The pipe a call works on *)

Definition target (op : pipe_op) : option Z :=
  match op with
  | OpCreate => None
  | OpDestroy i | OpRead i _ _ | OpWrite i _ _ | OpTryRead i _ _ | OpTryWrite i _ _ | OpCloseRead i
  | OpCloseWrite i | OpDupReader i | OpDupWriter i | OpSetWaitingReader i _ | OpSetWaitingWriter i _
  | OpAvailable i => i
  end.

Section local.
Context {H : Type} `{!KHeap H} `{!KHeapLaws H}.
Implicit Types (st : psys H).

(** The call as a function of its pipe. *)
Definition local_step (op : pipe_op) (h : H) (p : pipe_t) : answer * pipe_t :=
  match op with
  | OpCreate => silent p
  | OpDestroy _ => let '(ev, _, p) := pipe_destroy h p in (mk_answer 0 [] ev, p)
  | OpRead _ b n => let '(r, o, e, p) := pipe_read b n p in (mk_answer r o e, p)
  | OpTryRead _ b n => let '(r, o, e, p) := pipe_try_read b n p in (mk_answer r o e, p)
  | OpWrite _ src n => let '(r, e, p) := pipe_write src n p in (mk_answer r [] e, p)
  | OpTryWrite _ src n => let '(r, e, p) := pipe_try_write src n p in (mk_answer r [] e, p)
  | OpCloseRead _ => let '(ev, _, p) := pipe_close_read h p in (mk_answer 0 [] ev, p)
  | OpCloseWrite _ => let '(ev, _, p) := pipe_close_write h p in (mk_answer 0 [] ev, p)
  | OpDupReader _ => silent (pipe_fork_dup_reader p)
  | OpDupWriter _ => silent (pipe_fork_dup_writer p)
  | OpSetWaitingReader _ thr => silent (pipe_set_waiting_reader thr p)
  | OpSetWaitingWriter _ thr => silent (pipe_set_waiting_writer thr p)
  | OpAvailable _ => (mk_answer (pipe_available p) [] [], p)
  end.

Lemma on_pipe_at F st j null f a st' i :
  sys_ok F st -> valid_index j -> in_table i -> on_pipe j null st f = (a, st') ->
  (j <> Some i /\ pipe_at st' i = pipe_at st i) \/ (j = Some i /\ (a, pipe_at st' i) = f (pipe_at st i)).
Proof.
  intros Hok Hj Hi Hs. destruct j as [j|]; cbn in Hs; [|left; by simplify_eq].
  destruct (f (pipe_at st j)) as [b p] eqn:Ef. simplify_eq.
  rewrite pipe_at_set by (done || by eapply sy_len). case_decide; [right | left]; subst; [done | split; congruence].
Qed.

Lemma on_heap_at F st j f a st' i :
  sys_ok F st -> valid_index j -> in_table i -> on_heap j st f = (a, st') ->
  (j <> Some i /\ pipe_at st' i = pipe_at st i) \/
  (j = Some i /\ (a, pipe_at st' i) = let '(ev, _, p) := f (heap st) (pipe_at st i) in (mk_answer 0 [] ev, p)).
Proof.
  intros Hok Hj Hi Hs. destruct j as [j|]; cbn in Hs; [|left; by simplify_eq].
  destruct (f (heap st) (pipe_at st j)) as [[ev h'] p] eqn:Ef. simplify_eq.
  rewrite pipe_at_zset by (done || by eapply sy_len). case_decide; [right | left].
  - subst j. by rewrite Ef.
  - split; [congruence | done].
Qed.

(** A call changes the pipe it names and no other active pipe. *)
Lemma pipe_step_at F st op a st' i :
  sys_ok F st -> op_pre op st -> pipe_step op st = (a, st') -> in_table i -> active (pipe_at st i) = true ->
  (target op <> Some i /\ pipe_at st' i = pipe_at st i) \/
  (target op = Some i /\ (a, pipe_at st' i) = local_step op (heap st) (pipe_at st i)).
Proof.
  intros Hok Hpre Hs Hi Ha. destruct op; cbn in Hpre, Hs; cbn [target local_step].
  { left. destruct (pipe_create (heap st) (table st)) as [[r h] tbl] eqn:Hc. simplify_eq.
    destruct (pipe_create_spec F st r h tbl Hok Hc) as [_ Hr]. split; [done|]. destruct r as [k|].
    - destruct Hr as (Hk & Hka & _ & _ & _ & _ & Hoth). apply Hoth; congruence.
    - destruct Hr as [Hsame _]. destruct (Hsame i Hi) as [_ E]. auto. }
  all: first [ by apply (on_heap_at F st _ _ a st' i) in Hs
             | eapply (on_pipe_at F st _ _ _ a st' i) in Hs; [exact Hs | tauto..] ].
Qed.
End local.

(** ** Wake-ups *)

(** A reader (writer) has something to do: data (room), end of file (a broken
    pipe), or no pipe at all. *)
Definition readable (p : pipe_t) : bool := negb (count p =? 0) || (writers p =? 0) || negb (active p).
Definition writable (p : pipe_t) : bool := (count p <? buf_size p) || (readers p =? 0) || negb (active p).

Lemma elem_of_wake thr : thr <> 0 -> thread_wake thr ∈ wake thr.
Proof. intros Hn. unfold wake. rewrite (proj2 (Z.eqb_neq thr 0)) by done. left. Qed.

Lemma readable_false p : readable p = false -> count p = 0 /\ writers p <> 0 /\ active p = true.
Proof. unfold readable. rewrite !orb_false_iff, !negb_false_iff, Z.eqb_eq, Z.eqb_neq. tauto. Qed.

Lemma writable_false p : pipe_wf p -> writable p = false -> count p = buf_size p /\ readers p <> 0 /\ active p = true.
Proof.
  intros Hw. unfold writable. rewrite !orb_false_iff, !negb_false_iff, Z.ltb_ge, Z.eqb_neq.
  pose proof (pw_count p Hw). rewrite (pw_size p Hw). intros [[? ?] ?]. split_and!; try done; lia.
Qed.

Section wakeups.
Context {H : Type} `{!KHeap H}.
Implicit Types (h : H) (p : pipe_t).

(** Both close operations wake whoever waits. *)
Lemma close_read_wakes h p :
  active p = true -> let '(ev, _, _) := pipe_close_read h p in
  (waiting_reader p <> 0 -> thread_wake (waiting_reader p) ∈ ev) /\
  (waiting_writer p <> 0 -> thread_wake (waiting_writer p) ∈ ev).
Proof.
  intros Ha. unfold pipe_close_read. rewrite Ha. cbn [negb]. unfold close_read_end.
  destruct (_ && _); [destruct (pipe_destroy _ _) as [[ev' ?] ?]|];
    rewrite !elem_of_app; auto 6 using elem_of_wake.
Qed.

Lemma close_write_wakes h p :
  active p = true -> let '(ev, _, _) := pipe_close_write h p in
  (waiting_reader p <> 0 -> thread_wake (waiting_reader p) ∈ ev) /\
  (waiting_writer p <> 0 -> thread_wake (waiting_writer p) ∈ ev).
Proof.
  intros Ha. unfold pipe_close_write. rewrite Ha. cbn [negb]. unfold close_write_end.
  destruct (_ && _); [destruct (pipe_destroy _ _) as [[ev' ?] ?]|];
    rewrite !elem_of_app; auto 6 using elem_of_wake.
Qed.

Lemma write_wakes src n p :
  waiting_reader p <> 0 -> let '(_, ev, p') := pipe_write src n p in
  p' = p \/ thread_wake (waiting_reader p) ∈ ev.
Proof.
  intros Hw. unfold pipe_write. repeat case_match; simplify_eq; auto;
    right; rewrite elem_of_app; auto using elem_of_wake.
Qed.

Lemma read_wakes b n p :
  waiting_writer p <> 0 -> let '(_, _, ev, p') := pipe_read b n p in
  p' = p \/ thread_wake (waiting_writer p) ∈ ev.
Proof.
  intros Hw. unfold pipe_read. repeat case_match; simplify_eq; auto;
    right; rewrite elem_of_app; auto using elem_of_wake.
Qed.

Lemma local_wakes_reader op h p a p' T :
  pipe_ok p -> waiting_reader p = T -> T <> 0 -> readable p = false ->
  (forall i thr, op <> OpSetWaitingReader i thr) -> (forall i, op <> OpDestroy i) ->
  (forall i, op = OpDupWriter i -> writers p < 2 ^ 31 - 1) ->
  (a, p') = local_step op h p ->
  (waiting_reader p' = T /\ readable p' = false) \/ thread_wake T ∈ evs a.
Proof.
  intros Hok HT Hnz Hnr Hset Hdes Hdup Hs. destruct (readable_false p Hnr) as (Hc & Hw & Ha).
  assert (forall b n, pipe_read b n p = (if b then - EAGAIN else -1, [], [], p)) as Hread.
  { intros b n. unfold pipe_read. rewrite Ha, Hc. destruct b; [|done]. cbn.
    pose proof (pipe_ok_active p Hok Ha) as Hwf. rewrite (proj2 (Z.eqb_neq (buffer p) 0)) by apply Hwf. cbn.
    by rewrite (proj2 (Z.eqb_neq (writers p) 0)). }
  destruct op; cbn [local_step] in Hs.
  - left. unfold silent in Hs. by simplify_eq.
  - by destruct (Hdes i).
  - rewrite Hread in Hs. left. by simplify_eq.
  - pose proof (write_wakes src n p) as Hww. destruct (pipe_write src n p) as [[r e] q]. simplify_eq/=.
    destruct (Hww Hnz) as [->|]; [by left | by right].
  - rewrite try_read_eq, Hread in Hs. left. by destruct (has_buf && lock p); simplify_eq.
  - rewrite try_write_eq in Hs. destruct (lock p); [left; by simplify_eq|].
    pose proof (write_wakes src n p) as Hww. destruct (pipe_write src n p) as [[r e] q]. simplify_eq/=.
    destruct (Hww Hnz) as [->|]; [by left | by right].
  - right. pose proof (close_read_wakes h p Ha) as Hwk. destruct (pipe_close_read h p) as [[ev ?] ?].
    simplify_eq/=. by apply Hwk.
  - right. pose proof (close_write_wakes h p Ha) as Hwk. destruct (pipe_close_write h p) as [[ev ?] ?].
    simplify_eq/=. by apply Hwk.
  - left. unfold silent, pipe_fork_dup_reader in Hs. rewrite Ha in Hs. by simplify_eq.
  - left. unfold silent, pipe_fork_dup_writer in Hs. rewrite Ha in Hs. simplify_eq. split; [done|].
    pose proof (pw_writers p (pipe_ok_active p Hok Ha)). specialize (Hdup i eq_refl).
    unfold readable. cbn. rewrite Hc, Ha, s32_small by lia. cbn. rewrite orb_false_r. apply Z.eqb_neq. lia.
  - by destruct (Hset i thr).
  - left. unfold silent, pipe_set_waiting_writer in Hs. rewrite Ha in Hs. by simplify_eq.
  - left. by simplify_eq.
Qed.

Lemma local_wakes_writer op h p a p' T :
  pipe_ok p -> waiting_writer p = T -> T <> 0 -> writable p = false ->
  (forall i thr, op <> OpSetWaitingWriter i thr) -> (forall i, op <> OpDestroy i) ->
  (forall i, op = OpDupReader i -> readers p < 2 ^ 31 - 1) ->
  (a, p') = local_step op h p -> active p = true ->
  (waiting_writer p' = T /\ writable p' = false) \/ thread_wake T ∈ evs a.
Proof.
  intros Hok HT Hnz Hnr Hset Hdes Hdup Hs Ha. pose proof (pipe_ok_active p Hok Ha) as Hwf.
  destruct (writable_false p Hwf Hnr) as (Hc & Hw & _).
  assert (forall src n, (pipe_write src n p).2 = p) as Hwrite.
  { intros src n. unfold pipe_write. rewrite Ha, Hc, Z.sub_diag. destruct src; [|done]. cbn.
    rewrite (proj2 (Z.eqb_neq (buffer p) 0)) by apply Hwf. by rewrite (proj2 (Z.eqb_neq (readers p) 0)). }
  destruct op; cbn [local_step] in Hs.
  - left. unfold silent in Hs. by simplify_eq.
  - by destruct (Hdes i).
  - pose proof (read_wakes has_buf n p) as Hww. destruct (pipe_read has_buf n p) as [[[r o] e] q]. simplify_eq/=.
    destruct (Hww Hnz) as [->|]; [by left | by right].
  - specialize (Hwrite src n). destruct (pipe_write src n p) as [[r e] q]. cbn in Hwrite. left. by simplify_eq/=.
  - rewrite try_read_eq in Hs. destruct (has_buf && lock p); [left; by simplify_eq|].
    pose proof (read_wakes has_buf n p) as Hww. destruct (pipe_read has_buf n p) as [[[r o] e] q]. simplify_eq/=.
    destruct (Hww Hnz) as [->|]; [by left | by right].
  - rewrite try_write_eq in Hs. left. destruct (lock p); [by simplify_eq|].
    specialize (Hwrite src n). destruct (pipe_write src n p) as [[r e] q]. cbn in Hwrite. by simplify_eq/=.
  - right. pose proof (close_read_wakes h p Ha) as Hwk. destruct (pipe_close_read h p) as [[ev ?] ?].
    simplify_eq/=. by apply Hwk.
  - right. pose proof (close_write_wakes h p Ha) as Hwk. destruct (pipe_close_write h p) as [[ev ?] ?].
    simplify_eq/=. by apply Hwk.
  - left. unfold silent, pipe_fork_dup_reader in Hs. rewrite Ha in Hs. simplify_eq. split; [done|].
    pose proof (pw_readers p Hwf). specialize (Hdup i eq_refl).
    unfold writable. cbn. rewrite Hc, Z.ltb_irrefl, Ha, s32_small by lia. cbn. rewrite orb_false_r. apply Z.eqb_neq. lia.
  - left. unfold silent, pipe_fork_dup_writer in Hs. rewrite Ha in Hs. by simplify_eq.
  - left. unfold silent, pipe_set_waiting_reader in Hs. rewrite Ha in Hs. by simplify_eq.
  - by destruct (Hset i thr).
  - left. by simplify_eq.
Qed.
End wakeups.

(** ** A subsystem to run *)

Lemma pipe_boot_ok {H} `{!KHeap H} (h : H) : heap_ok h -> sys_ok (heap_live h) (mk_psys h pipe_init).
Proof.
  intros Hh. assert (forall i, in_table i -> pipe_at (mk_psys h pipe_init) i = zero_pipe) as Hz.
  { intros i Hi. unfold pipe_at, pipe_init, zget; cbn [table].
    apply lookup_total_replicate_2. unfold in_table, MAX_PIPES in *. lia. }
  split; cbn; try done.
  - intros i Hi. by rewrite Hz.
  - intros i Hi Ha. by rewrite Hz in Ha.
  - intros i j Hi _ Ha. by rewrite Hz in Ha.
  - intros q n Hq. split; [done|]. intros (i & Hi & Ha & _). by rewrite Hz in Ha.
  - by left.
Qed.

(** The table of [pipe_init] on a heap of eight pages. *)
Definition demo_sys : psys kmem := mk_psys (kmem_boot striped) pipe_init.

Lemma demo_sys_ok : sys_ok (live (kmem_boot striped)) demo_sys.
Proof. exact (pipe_boot_ok (kmem_boot striped) striped_ok). Qed.

(** The state after a list of calls. *)
Fixpoint run_ops (ops : list pipe_op) (st : psys kmem) : psys kmem :=
  match ops with [] => st | op :: ops => run_ops ops (pipe_step op st).2 end.

Fixpoint run_log (ops : list pipe_op) (st : psys kmem) : list (pipe_op * answer) :=
  match ops with
  | [] => []
  | op :: ops => (op, (pipe_step op st).1) :: run_log ops (pipe_step op st).2
  end.

(** Calls on pipe 0 that need no look at the state. *)
Definition demo_call (op : pipe_op) : Prop :=
  match op with
  | OpCreate => True
  | OpWrite (Some 0) (Some s) n => 0 <= n <= zlen s
  | OpRead (Some 0) _ n => 0 <= n
  | OpSetWaitingReader (Some 0) _ | OpSetWaitingWriter (Some 0) _ | OpCloseRead (Some 0)
  | OpCloseWrite (Some 0) => True
  | _ => False
  end.

Lemma demo_call_pre op (st : psys kmem) : demo_call op -> op_pre op st.
Proof.
  destruct op as [|[[]|]|[[]|]|[[]|] [|]|[[]|]|[[]|]|[[]|]|[[]|]|[[]|]|[[]|]|[[]|]|[[]|]|[[]|]];
    done || (cbn; unfold MAX_PIPES; intros; split_lia).
Qed.

Lemma pipe_run_cons (st : psys kmem) op a st1 log st2 :
  op_pre op st -> pipe_step op st = (a, st1) -> pipe_run st1 log st2 -> pipe_run st ((op, a) :: log) st2.
Proof.
  intros Hp Hs Hr. induction Hr as [st2|st2 log st3 op' a' st4 Hr IH Hp' Hs'].
  - apply (run_snoc st [] st); [constructor | done | done].
  - apply (run_snoc st ((op, a) :: log) st3); [by apply IH | done | done].
Qed.

Lemma demo_steps ops : Forall demo_call ops ->
  forall st : psys kmem, pipe_run st (run_log ops st) (run_ops ops st).
Proof.
  induction 1 as [|op ops Hop _ IH]; intros st; cbn; [constructor|].
  destruct (pipe_step op st) as [a st1] eqn:Es. by eapply pipe_run_cons; [apply demo_call_pre | |].
Qed.

Ltac demo_calls := repeat (constructor; [vm_compute; intuition congruence|]); constructor.

(** [pipe_read] implements the read of a bounded FIFO queue on every branch:
    no pipe or buffer gives -1; an empty queue gives 0 once the last writer is
    gone and -EAGAIN before; otherwise the oldest bytes, as many as asked for
    and present, move to the caller in order and leave the queue. *)
Theorem pipe_read_refines p n :
  pipe_ok p -> 0 <= n ->
  pipe_read false n p = (-1, [], [], p) /\
  let '(r, o, _, p') := pipe_read true n p in
  pipe_ok p' /\ (r, o, abs p') = if active p then fifo_read n (abs p) else (-1, [], abs p).
Proof.
  intros Hok Hn. split; [done|]. destruct (active p) eqn:Ha.
  - pose proof (pipe_read_spec p n (pipe_ok_active p Hok Ha) Ha Hn) as Hs.
    destruct (pipe_read true n p) as [[[r o] e] p'], Hs as (? & ? & Ha'). split; [|done].
    unfold pipe_ok. by rewrite Ha'.
  - unfold pipe_read. by rewrite Ha.
Qed.

(** [pipe_write] implements the write of a bounded FIFO queue on every
    branch: -EPIPE without a pipe, a buffer or a reader; -EAGAIN when the queue
    is full; otherwise a prefix of the caller's bytes, as long as fits, is
    appended in order and its length returned. *)
Theorem pipe_write_refines p src n :
  pipe_ok p -> 0 <= n <= zlen src ->
  pipe_write None n p = (- EPIPE, [], p) /\
  let '(r, _, p') := pipe_write (Some src) n p in
  pipe_ok p' /\ (r, abs p') = if active p then fifo_write src n (abs p) else (- EPIPE, abs p).
Proof.
  intros Hok Hn. split; [done|]. destruct (active p) eqn:Ha.
  - pose proof (pipe_write_spec p src n (pipe_ok_active p Hok Ha) Ha Hn) as Hs.
    destruct (pipe_write (Some src) n p) as [[r e] p'], Hs as (? & ? & Ha'). split; [|done].
    unfold pipe_ok. by rewrite Ha'.
  - unfold pipe_write. by rewrite Ha.
Qed.

(** A pipe that holds three bytes across its wrap. *)
Definition demo_pipe : pipe_t :=
  mk_pipe 4096 ([2; 3] ++ replicate 4093 0 ++ [1]) PIPE_BUF_SIZE 4095 2 3 false 1 1 true 0 0 0 0 0.

Lemma demo_pipe_wf : pipe_wf demo_pipe.
Proof. by split. Qed.

Lemma pipe_read_refines_witness :
  abs demo_pipe = mk_fifo [1; 2; 3] 1 1 /\
  (let '(r, o, _, p') := pipe_read true 2 demo_pipe in (r, o, abs p')) = (2, [1; 2], mk_fifo [3] 1 1).
Proof.
  split; [vm_compute; reflexivity|].
  destruct (pipe_read_refines demo_pipe 2 demo_pipe_wf ltac:(lia)) as [_ Href].
  destruct (pipe_read true 2 demo_pipe) as [[[r o] e] p'] eqn:E. destruct Href as [_ Href]. rewrite Href.
  vm_compute. reflexivity.
Defined.

Lemma pipe_write_refines_witness :
  (let '(r, _, p') := pipe_write (Some [4; 5; 6]) 2 demo_pipe in (r, abs p')) = (2, mk_fifo [1; 2; 3; 4; 5] 1 1).
Proof.
  destruct (pipe_write_refines demo_pipe [4; 5; 6] 2 demo_pipe_wf ltac:(vm_compute; intuition congruence)) as [_ Href].
  destruct (pipe_write (Some [4; 5; 6]) 2 demo_pipe) as [[r e] p'] eqn:E. destruct Href as [_ Href]. rewrite Href.
  vm_compute. reflexivity.
Defined.

Section properties.
Context {H : Type} `{!KHeap H} `{!KHeapLaws H}.
Implicit Types (st : psys H).

(** C16 Streams are intact.  Over any run of calls by any number of readers and
    writers, on this and on other pipes, as long as the pipe is not torn
    down: what it held at the start followed by every byte that a write
    reported as accepted is, byte for byte, what readers received followed
    by what it holds at the end.  No byte is lost, duplicated, reordered or
    delivered from another pipe. *)
Theorem pipe_stream_intact F st log st' i :
  sys_ok F st -> pipe_run st log st' -> in_table i -> active (pipe_at st i) = true -> gone i log = false ->
  contents (pipe_at st i) ++ sent i log = got i log ++ contents (pipe_at st' i).
Proof. intros Hok Hrun Hi Ha Hg. by apply (pipe_run_flow F st log st' i). Qed.

(** C27 The subsystem neither leaks nor steals memory.  After any run from an
    empty table: the blocks that were live before are live and belong to no
    pipe; every other live block is the buffer of exactly one active pipe
    and holds [PIPE_BUF_SIZE] bytes; and when every pipe is closed the live
    blocks are exactly those of the start. *)
Theorem pipe_buffers_owned (h : H) log st' :
  heap_ok h -> pipe_run (mk_psys h pipe_init) log st' ->
  heap_ok (heap st') /\
  (forall q n, heap_live h q n -> heap_live (heap st') q n /\ ~ owned_by_pipe st' q) /\
  (forall q n, heap_live (heap st') q n -> heap_live h q n \/
     PIPE_BUF_SIZE <= n /\ exists i, in_table i /\ active (pipe_at st' i) = true /\ buffer (pipe_at st' i) = q /\
     forall j, in_table j -> active (pipe_at st' j) = true -> buffer (pipe_at st' j) = q -> j = i) /\
  ((forall i, in_table i -> active (pipe_at st' i) = false) ->
   forall q n, heap_live (heap st') q n <-> heap_live h q n).
Proof.
  intros Hh Hrun. pose proof (pipe_run_ok _ _ _ _ Hrun (pipe_boot_ok h Hh)) as Hok.
  split; [apply Hok|]. split; [apply Hok|]. split.
  - intros q n Hq. destruct (sy_all _ _ Hok q n Hq) as [|(i & Hi & Ha & Hb)]; [by left | right]. split.
    + destruct (sy_own _ _ Hok i Hi Ha) as (m & Hm & Hlm). rewrite Hb in Hlm.
      by rewrite (live_functional _ q n m (sy_heap _ _ Hok) Hq Hlm).
    + exists i. split_and!; try done. intros j Hj Hja Hjb. apply (sy_inj _ _ Hok); try done. congruence.
  - intros Hall q n. split; [|apply Hok]. intros Hq.
    destruct (sy_all _ _ Hok q n Hq) as [|(i & Hi & Ha & _)]; [done|]. by rewrite Hall in Ha.
Qed.

(** [pipe_create] hands out an unused slot as an empty pipe with one
    reader and one writer and no leftover waiter, without touching any other
    pipe; it fails only when all slots are active or the heap refuses the
    buffer, and then no pipe changes. *)
Theorem pipe_create_fresh F st r h tbl :
  sys_ok F st -> pipe_create (heap st) (table st) = (r, h, tbl) ->
  let st' := mk_psys h tbl in
  sys_ok F st' /\
  match r with
  | None =>
      (forall j, in_table j -> active (pipe_at st' j) = active (pipe_at st j) /\
         (active (pipe_at st j) = true -> pipe_at st' j = pipe_at st j)) /\
      ((forall j, in_table j -> active (pipe_at st j) = true) \/ (hp_kalloc PIPE_BUF_SIZE (heap st)).1 = 0)
  | Some i =>
      in_table i /\ active (pipe_at st i) = false /\ active (pipe_at st' i) = true /\
      abs (pipe_at st' i) = mk_fifo [] 1 1 /\
      waiting_reader (pipe_at st' i) = 0 /\ waiting_writer (pipe_at st' i) = 0 /\
      forall j, in_table j -> j <> i -> pipe_at st' j = pipe_at st j
  end.
Proof. intros Hok Hc. exact (pipe_create_spec F st r h tbl Hok Hc). Qed.

(** C36 No wake-up is lost.  While a thread is registered on a pipe that has
    nothing for it, every call of the subsystem other than [pipe_destroy] and
    the registration of a thread either leaves the registration and the
    condition as they are or wakes that thread; so does any such call that
    makes the pipe readable (writable).  ([pipe_destroy] itself wakes nobody.) *)
Theorem pipe_no_lost_wakeup F st op a st' i :
  sys_ok F st -> op_pre op st -> pipe_step op st = (a, st') -> in_table i -> active (pipe_at st i) = true ->
  (forall j, op <> OpDestroy j) -> (forall j t, op <> OpSetWaitingReader j t) ->
  (forall j t, op <> OpSetWaitingWriter j t) ->
  (let T := waiting_reader (pipe_at st i) in
   T <> 0 -> readable (pipe_at st i) = false ->
   (waiting_reader (pipe_at st' i) = T /\ readable (pipe_at st' i) = false) \/ thread_wake T ∈ evs a) /\
  (let T := waiting_writer (pipe_at st i) in
   T <> 0 -> writable (pipe_at st i) = false ->
   (waiting_writer (pipe_at st' i) = T /\ writable (pipe_at st' i) = false) \/ thread_wake T ∈ evs a).
Proof.
  intros Hok Hpre Hs Hi Ha Hd Hr Hw. pose proof (sy_pipe F st Hok i Hi) as Hpi.
  destruct (pipe_step_at F st op a st' i Hok Hpre Hs Hi Ha) as [[_ E] | [Ht E]].
  { rewrite E. split; intros; by left. }
  split; intros T HT Hn.
  - apply (local_wakes_reader op (heap st) (pipe_at st i)); try done.
    intros j ->. cbn in Ht. subst j. apply Hpre.
  - apply (local_wakes_writer op (heap st) (pipe_at st i)); try done.
    intros j ->. cbn in Ht. subst j. apply Hpre.
Qed.
End properties.

(** The non-blocking variants differ from the blocking ones in one way only:
    when another CPU holds the pipe's lock they return -EAGAIN (a [NULL]
    argument is still reported first) and touch nothing. *)
Theorem pipe_try_equiv b src n p :
  pipe_try_read b n p = (if b && lock p then (- EAGAIN, [], [], p) else pipe_read b n p) /\
  pipe_try_write src n p =
    (if lock p then ((match src with None => - EPIPE | _ => - EAGAIN end), [], p) else pipe_write src n p).
Proof. split; [apply try_read_eq | apply try_write_eq]. Qed.

(** The edge counters move exactly on edges: a write moves [in_gen] by one if
    and only if it added bytes, and never [out_gen]; a read moves [out_gen] by
    one if and only if it took bytes from a full pipe, and never [in_gen]. *)
Theorem pipe_edges p src n :
  pipe_wf p -> active p = true -> 0 <= n <= zlen src ->
  (let '(r, _, p') := pipe_write (Some src) n p in
   out_gen p' = out_gen p /\ in_gen p' = if 0 <? r then in_gen p +32 1 else in_gen p) /\
  (let '(r, _, _, p') := pipe_read true n p in
   in_gen p' = in_gen p /\
   out_gen p' = if (0 <? r) && (count p =? PIPE_BUF_SIZE) then out_gen p +32 1 else out_gen p).
Proof.
  intros Hw Ha Hn. pose proof Hw as [Hb Hs Hl Hr Hc Hwr H1 H2 H3]. unfold PIPE_BUF_SIZE in *. split.
  - unfold pipe_write. rewrite Ha, (proj2 (Z.eqb_neq (buffer p) 0)), Hs, u32_small by (done || lia). cbn [negb orb].
    destruct (readers p =? 0); [done|]. destruct (4096 - count p =? 0) eqn:E; [done|]. bool_hyps.
    rewrite read_count by (unfold PIPE_BUF_SIZE; lia). destruct (copy_in _ _ _) as [buf pos]. cbn.
    rewrite s32_small by lia. destruct (Z.min n (4096 - count p) =? 0) eqn:E1, (0 <? Z.min n (4096 - count p)) eqn:E2;
      bool_hyps; done || lia.
  - unfold pipe_read. rewrite Ha, (proj2 (Z.eqb_neq (buffer p) 0)), Hs by done. cbn [negb orb].
    destruct (count p =? 0) eqn:E; bool_hyps; [by destruct (writers p =? 0)|].
    rewrite read_count by (unfold PIPE_BUF_SIZE; lia). destruct (copy_out _ _) as [buf pos]. cbn.
    rewrite s32_small by lia. destruct (Z.min n (count p) =? 0) eqn:E1, (0 <? Z.min n (count p)) eqn:E2;
      bool_hyps; done || lia.
Qed.

Lemma pipe_edges_witness :
  in_gen (pipe_write (Some [9]) 1 demo_pipe).2 = in_gen demo_pipe + 1.
Proof.
  destruct (pipe_edges demo_pipe [9] 1 demo_pipe_wf eq_refl
    ltac:(vm_compute; intuition congruence)) as [Hw _].
  destruct (pipe_write (Some [9]) 1 demo_pipe) as [[r e] p'] eqn:E. destruct Hw as [_ Hw].
  transitivity (if 0 <? r then in_gen demo_pipe +32 1 else in_gen demo_pipe); [exact Hw|].
  assert (r = 1) as -> by (change r with (r, e, p').1.1; rewrite <- E; vm_compute; reflexivity).
  vm_compute. reflexivity.
Defined.

(** Two writes and two reads on a fresh pipe. *)
Definition demo_talk : list pipe_op :=
  [OpWrite (Some 0) (Some [1; 2; 3]) 3; OpRead (Some 0) true 2; OpWrite (Some 0) (Some [4]) 1; OpRead (Some 0) true 1].
Definition demo_open : psys kmem := run_ops [OpCreate] demo_sys.

Lemma demo_open_ok : sys_ok (live (kmem_boot striped)) demo_open.
Proof. refine (pipe_run_ok _ _ _ _ (demo_steps _ _ demo_sys) demo_sys_ok). demo_calls. Qed.

Lemma pipe_stream_intact_witness :
  sent 0 (run_log demo_talk demo_open) = [1; 2; 3; 4] /\
  sent 0 (run_log demo_talk demo_open) =
  got 0 (run_log demo_talk demo_open) ++ contents (pipe_at (run_ops demo_talk demo_open) 0).
Proof.
  split; [vm_compute; reflexivity|].
  apply (pipe_stream_intact _ demo_open _ (run_ops demo_talk demo_open) 0 demo_open_ok);
    [apply demo_steps; demo_calls | done | vm_compute; reflexivity..].
Defined.

(** A pipe is opened and closed again: the heap is as before. *)
Lemma pipe_buffers_owned_witness :
  slab_ok (kmem_boot striped) /\ (forall q n, live (heap (run_ops [OpCreate; OpCloseRead (Some 0); OpCloseWrite (Some 0)] demo_sys)) q n <->
    live (kmem_boot striped) q n).
Proof.
  split; [exact striped_ok|]. pose (ops := [OpCreate; OpCloseRead (Some 0); OpCloseWrite (Some 0)]).
  destruct (pipe_buffers_owned (kmem_boot striped) (run_log ops demo_sys) (run_ops ops demo_sys))
    as (_ & _ & _ & Hall); [exact striped_ok | apply demo_steps; demo_calls|]. apply Hall.
  intros i Hi. apply negb_true_iff.
  exact (forallb_zget (fun p => negb (active p)) (table (run_ops ops demo_sys)) i eq_refl Hi).
Defined.

Lemma pipe_create_fresh_witness :
  exists h tbl, pipe_create (heap demo_sys) (table demo_sys) = (Some 0, h, tbl) /\
    abs (pipe_at (mk_psys h tbl) 0) = mk_fifo [] 1 1.
Proof.
  destruct (pipe_create (heap demo_sys) (table demo_sys)) as [[r h] tbl] eqn:Hc.
  assert (r = Some 0) as -> by (change r with (r, h, tbl).1.1; rewrite <- Hc; vm_compute; reflexivity).
  exists h, tbl. split; [done|]. by apply (pipe_create_fresh _ demo_sys (Some 0) h tbl demo_sys_ok Hc).
Defined.

(** A reader waits on the empty pipe; a write wakes it. *)
Lemma pipe_no_lost_wakeup_witness :
  let st := run_ops [OpSetWaitingReader (Some 0) 77] demo_open in
  let a := (pipe_step (OpWrite (Some 0) (Some [5]) 1) st).1 in
  let st' := (pipe_step (OpWrite (Some 0) (Some [5]) 1) st).2 in
  (waiting_reader (pipe_at st' 0) = 77 /\ readable (pipe_at st' 0) = false) \/ thread_wake 77 ∈ evs a.
Proof.
  intros st a st'.
  assert (sys_ok (live (kmem_boot striped)) st) as Hok.
  { refine (pipe_run_ok _ _ _ _ (demo_steps _ _ demo_open) demo_open_ok). demo_calls. }
  apply (pipe_no_lost_wakeup _ st (OpWrite (Some 0) (Some [5]) 1) a st' 0 Hok);
    [vm_compute; intuition congruence | apply surjective_pairing | done | vm_compute; reflexivity | done | done | done
    | done | vm_compute; reflexivity].
Defined.
