(* ===== verification/Tmpfs.v ===== *)
(** * tmpfs: state and operations

    src/tmpfs.c, the in-memory filesystem of /tmp: a table of directory
    entries (nodes) that name inodes, file data in 64 KiB chunks from the
    kernel heap.  This file holds the translation; TmpfsData.v proves what it
    does to file contents and TmpfsTree.v what it does to the name space. *)
From S2P Require Import Prelude Paths Heap.

Definition TMPFS_MAX_NODES : Z := 1024.
Definition TMPFS_MAX_NAME : Z := 64.
Definition TMPFS_CHUNK : Z := 65536.
Definition TMPFS_MIN_BYTES : Z := 64 * 1024 * 1024.
Definition TMPFS_RESERVE : Z := 48 * 1024 * 1024.
Definition TMPFS_LINK_MAX : Z := 1023.

(** Octal constants 0170000, 0040000, 0100000, 0120000. *)
Definition T_IFMT : Z := 0xF000.
Definition T_IFDIR : Z := 0x4000.
Definition T_IFREG : Z := 0x8000.
Definition T_IFLNK : Z := 0xA000.

(** [tmpfs_inode_t].  [chunks] is the slot table's address; [slots] are its
    entries, a chunk's address and bytes or [None] for a hole, so that
    [nchunk_slots] is their number.  [target] is a symlink's text with its
    address. *)
Record inode := mk_inode {
  i_used : bool;
  i_mode : Z;
  i_uid : Z;
  i_gid : Z;
  i_nlink : Z;
  i_opens : Z;
  i_chunks : Z;
  i_slots : list (option (Z * list Z));
  i_size : Z;
  i_target : option (Z * cstr);
  i_mtime : Z;
  i_ctime : Z;
}.

(** [tmpfs_node_t]: a directory entry. *)
Record node := mk_node { n_used : bool; n_parent : Z; n_ino : Z; n_name : cstr }.

(** [tmpfs_handle_t] with its own address. *)
Record handle := mk_handle { h_addr : Z; h_ino : Z; h_pos : Z; h_flags : Z }.

Definition zero_inode : inode := mk_inode false 0 0 0 0 0 0 [] 0 None 0 0.
Definition zero_node : node := mk_node false 0 0 [].
#[global] Instance inode_inhabited : Inhabited inode := populate zero_inode.
#[global] Instance node_inhabited : Inhabited node := populate zero_node.

(** Field updates. *)
Definition set_mode (m : Z) (n : inode) : inode :=
  mk_inode (i_used n) m (i_uid n) (i_gid n) (i_nlink n) (i_opens n) (i_chunks n) (i_slots n) (i_size n)
    (i_target n) (i_mtime n) (i_ctime n).
Definition set_owner (u g : Z) (n : inode) : inode :=
  mk_inode (i_used n) (i_mode n) u g (i_nlink n) (i_opens n) (i_chunks n) (i_slots n) (i_size n)
    (i_target n) (i_mtime n) (i_ctime n).
Definition set_nlink (k : Z) (n : inode) : inode :=
  mk_inode (i_used n) (i_mode n) (i_uid n) (i_gid n) k (i_opens n) (i_chunks n) (i_slots n) (i_size n)
    (i_target n) (i_mtime n) (i_ctime n).
Definition set_opens (k : Z) (n : inode) : inode :=
  mk_inode (i_used n) (i_mode n) (i_uid n) (i_gid n) (i_nlink n) k (i_chunks n) (i_slots n) (i_size n)
    (i_target n) (i_mtime n) (i_ctime n).
Definition set_slots (c : Z) (sl : list (option (Z * list Z))) (n : inode) : inode :=
  mk_inode (i_used n) (i_mode n) (i_uid n) (i_gid n) (i_nlink n) (i_opens n) c sl (i_size n)
    (i_target n) (i_mtime n) (i_ctime n).
Definition set_size (k : Z) (n : inode) : inode :=
  mk_inode (i_used n) (i_mode n) (i_uid n) (i_gid n) (i_nlink n) (i_opens n) (i_chunks n) (i_slots n) k
    (i_target n) (i_mtime n) (i_ctime n).
Definition set_target (t : option (Z * cstr)) (n : inode) : inode :=
  mk_inode (i_used n) (i_mode n) (i_uid n) (i_gid n) (i_nlink n) (i_opens n) (i_chunks n) (i_slots n) (i_size n)
    t (i_mtime n) (i_ctime n).
Definition set_mtime (t : Z) (n : inode) : inode :=
  mk_inode (i_used n) (i_mode n) (i_uid n) (i_gid n) (i_nlink n) (i_opens n) (i_chunks n) (i_slots n) (i_size n)
    (i_target n) t (i_ctime n).
Definition set_ctime (t : Z) (n : inode) : inode :=
  mk_inode (i_used n) (i_mode n) (i_uid n) (i_gid n) (i_nlink n) (i_opens n) (i_chunks n) (i_slots n) (i_size n)
    (i_target n) (i_mtime n) t.

Section tmpfs.
Context {H : Type} `{!KHeap H}.

(** The module's globals, the heap, and the clock that [rtc_unix_epoch] reads. *)
Record tmpfs := mk_tmpfs {
  nodes : list node;
  inodes : list inode;
  tmpfs_ready : bool;
  tmpfs_limit_bytes : Z;
  tmpfs_used_bytes : Z;
  t_heap : H;
  t_now : Z;
}.

Definition node_at (s : tmpfs) (i : Z) : node := zget (nodes s) i.
Definition inode_at (s : tmpfs) (i : Z) : inode := zget (inodes s) i.

Definition set_node (i : Z) (n : node) (s : tmpfs) : tmpfs :=
  mk_tmpfs (zset (nodes s) i n) (inodes s) (tmpfs_ready s) (tmpfs_limit_bytes s) (tmpfs_used_bytes s)
    (t_heap s) (t_now s).
Definition set_inode (i : Z) (n : inode) (s : tmpfs) : tmpfs :=
  mk_tmpfs (nodes s) (zset (inodes s) i n) (tmpfs_ready s) (tmpfs_limit_bytes s) (tmpfs_used_bytes s)
    (t_heap s) (t_now s).
Definition upd_inode (i : Z) (f : inode -> inode) (s : tmpfs) : tmpfs := set_inode i (f (inode_at s i)) s.
Definition set_mem (h : H) (used : Z) (s : tmpfs) : tmpfs :=
  mk_tmpfs (nodes s) (inodes s) (tmpfs_ready s) (tmpfs_limit_bytes s) used h (t_now s).
Definition set_heap (h : H) (s : tmpfs) : tmpfs := set_mem h (tmpfs_used_bytes s) s.

(** The inode a node names ([NI]). *)
Definition NI (s : tmpfs) (i : Z) : inode := inode_at s (n_ino (node_at s i)).
Definition tmpfs_isdir (s : tmpfs) (i : Z) : bool := Z.land (i_mode (NI s i)) T_IFMT =? T_IFDIR.
Definition tmpfs_islnk (s : tmpfs) (i : Z) : bool := Z.land (i_mode (NI s i)) T_IFMT =? T_IFLNK.
Definition tmpfs_now (s : tmpfs) : Z := t_now s.

Definition tmpfs_init_root (s : tmpfs) : tmpfs :=
  mk_tmpfs
    (zset (replicate (Z.to_nat TMPFS_MAX_NODES) zero_node) 0 (mk_node true (-1) 0 []))
    (zset (replicate (Z.to_nat TMPFS_MAX_NODES) zero_inode) 0
       (set_nlink 1 (set_mode (Z.lor T_IFDIR 0x3FF) (mk_inode true 0 0 0 0 0 0 [] 0 None 0 0))))
    true (tmpfs_limit_bytes s) (tmpfs_used_bytes s) (t_heap s) (t_now s).

Definition tmpfs_size_from_ram (s : tmpfs) : tmpfs :=
  let free_b := u64 (hp_pages_available (t_heap s) * 4096) in
  let lim := free_b / 4 in
  let lim := if lim <? TMPFS_MIN_BYTES then TMPFS_MIN_BYTES else lim in
  mk_tmpfs (nodes s) (inodes s) (tmpfs_ready s) lim (tmpfs_used_bytes s) (t_heap s) (t_now s).

Definition scan_nodes (f : Z -> bool) : option Z := zfind (Z.to_nat (TMPFS_MAX_NODES - 1)) 1 f.
Definition index_or_minus1 (r : option Z) : Z := default (-1) r.

Definition is_child (s : tmpfs) (parent : Z) (i : Z) : bool :=
  n_used (node_at s i) && (n_parent (node_at s i) =? parent).
Definition tmpfs_find_child (s : tmpfs) (parent : Z) (name : cstr) : Z :=
  index_or_minus1 (scan_nodes (fun i => is_child s parent i && bytes_eqb (n_name (node_at s i)) name)).
Definition tmpfs_has_children (s : tmpfs) (dir : Z) : bool :=
  match scan_nodes (is_child s dir) with Some _ => true | None => false end.

Definition tmpfs_alloc_node (s : tmpfs) : Z := index_or_minus1 (scan_nodes (fun i => negb (n_used (node_at s i)))).
Definition tmpfs_alloc_inode (mode : Z) (s : tmpfs) : Z * tmpfs :=
  match scan_nodes (fun i => negb (i_used (inode_at s i))) with
  | Some i => (i, set_inode i (mk_inode true mode 0 0 1 0 0 [] 0 None (tmpfs_now s) (tmpfs_now s)) s)
  | None => (-1, s)
  end.

(** [tmpfs_free_data]: every chunk, then the table. *)
Definition free_chunk (m : H * Z) (c : option (Z * list Z)) : H * Z :=
  match c with
  | Some (p, _) => (hp_kfree p m.1, m.2 -64 TMPFS_CHUNK)
  | None => m
  end.
Definition tmpfs_free_data (ino : Z) (s : tmpfs) : tmpfs :=
  let n := inode_at s ino in
  let s := if i_chunks n =? 0 then s
           else let '(h, u) := foldl free_chunk (t_heap s, tmpfs_used_bytes s) (i_slots n) in
                set_mem (hp_kfree (i_chunks n) h) u s in
  upd_inode ino (set_slots 0 []) s.

Definition tmpfs_put_inode (ino : Z) (s : tmpfs) : tmpfs :=
  let n := inode_at s ino in
  if (ino <=? 0) || negb (i_used n) || negb (i_nlink n =? 0) || negb (i_opens n =? 0) then s
  else
    let s := tmpfs_free_data ino s in
    let s := match i_target n with Some (p, _) => set_heap (hp_kfree p (t_heap s)) s | None => s end in
    set_inode ino zero_inode s.

Definition tmpfs_add_node (parent : Z) (name : cstr) (ino : Z) (s : tmpfs) : Z * tmpfs :=
  let i := tmpfs_alloc_node s in
  if i <? 0 then (- ENOSPC, s)
  else
    let s := set_node i (mk_node true parent ino (kstrncpy name TMPFS_MAX_NAME)) s in
    (i, upd_inode (if 0 <=? parent then n_ino (node_at s parent) else 0) (set_mtime (tmpfs_now s)) s).

Definition tmpfs_drop_node (i : Z) (s : tmpfs) : tmpfs :=
  let ino := n_ino (node_at s i) in
  let parent := n_parent (node_at s i) in
  let s := if 0 <=? parent then upd_inode (n_ino (node_at s parent)) (set_mtime (tmpfs_now s)) s else s in
  let s := set_node i zero_node s in
  let s := if i_nlink (inode_at s ino) =? 0 then s
           else upd_inode ino (fun n => set_nlink (i_nlink n -32 1) n) s in
  let s := upd_inode ino (set_ctime (tmpfs_now s)) s in
  tmpfs_put_inode ino s.

(** ** File data *)

(** [tmpfs_shrink]: drop the chunks past [len], zero the tail of the last one.
    [keep] is computed in 32 bits. *)
Definition shrink_slot (keep : Z) (i : Z) (m : H * Z * list (option (Z * list Z))) : H * Z * list (option (Z * list Z)) :=
  let '(h, u, sl) := m in
  match zget sl i with
  | Some (p, _) => (hp_kfree p h, u -64 TMPFS_CHUNK, zset sl i None)
  | None => (h, u, sl)
  end.
Definition tmpfs_shrink (ino len : Z) (s : tmpfs) : tmpfs :=
  let n := inode_at s ino in
  let keep := (len +32 (TMPFS_CHUNK - 1)) / TMPFS_CHUNK in
  let nslots := zlen (i_slots n) in
  let '(h, u, sl) := zfor (Z.to_nat (nslots - keep)) keep (shrink_slot keep)
                       (t_heap s, tmpfs_used_bytes s, i_slots n) in
  let r := len mod TMPFS_CHUNK in
  let sl := if negb (r =? 0) && negb (keep =? 0) && (keep <=? nslots) then
              match zget sl (keep - 1) with
              | Some (p, c) => zset sl (keep - 1) (Some (p, splice c r (replicate (Z.to_nat (TMPFS_CHUNK - r)) 0)))
              | None => sl
              end
            else sl in
  upd_inode ino (set_slots (i_chunks n) sl) (set_mem h u s).

(** [tmpfs_slots]: the slot table doubles until it covers [need] bytes; 32
    doublings exceed any 32-bit count. *)
Fixpoint double_until (fuel : nat) (ns want : Z) : Z :=
  match fuel with
  | O => ns
  | S fuel => if ns <? want then double_until fuel (u32 (ns * 2)) want else ns
  end.
Definition tmpfs_slots (ino need : Z) (s : tmpfs) : Z * tmpfs :=
  let n := inode_at s ino in
  if 0xFFFFFFFF <? need then (- ENOSPC, s)
  else if tmpfs_limit_bytes s <? need then (- ENOSPC, s)
  else
    let want := u32 ((need +64 (TMPFS_CHUNK - 1)) / TMPFS_CHUNK) in
    if want <=? zlen (i_slots n) then (0, s)
    else
      let ns := double_until 32 (if zlen (i_slots n) =? 0 then 4 else zlen (i_slots n)) want in
      let '(t, h) := hp_kalloc (ns * 8) (t_heap s) in
      if t =? 0 then (- ENOSPC, set_heap h s)
      else
        let h := if i_chunks n =? 0 then h else hp_kfree (i_chunks n) h in
        let old := if i_chunks n =? 0 then [] else i_slots n in
        (0, upd_inode ino (set_slots t (old ++ replicate (Z.to_nat (ns - zlen old)) None)) (set_heap h s)).

(** [tmpfs_chunk]: whether chunk [ci] is there, allocated if need be. *)
Definition tmpfs_chunk (ino ci : Z) (s : tmpfs) : bool * tmpfs :=
  let n := inode_at s ino in
  if zlen (i_slots n) <=? ci then (false, s)
  else match zget (i_slots n) ci with
       | Some _ => (true, s)
       | None =>
           if tmpfs_limit_bytes s <? tmpfs_used_bytes s +64 TMPFS_CHUNK then (false, s)
           else if u64 (hp_pages_available (t_heap s) * 4096) <? TMPFS_RESERVE + TMPFS_CHUNK then (false, s)
           else
             let '(c, h) := hp_kalloc TMPFS_CHUNK (t_heap s) in
             if c =? 0 then (false, set_heap h s)
             else
               let sl := zset (i_slots n) ci (Some (c, replicate (Z.to_nat TMPFS_CHUNK) 0)) in
               (true, upd_inode ino (set_slots (i_chunks n) sl)
                        (set_mem h (tmpfs_used_bytes s +64 TMPFS_CHUNK) s))
       end.

(** [tmpfs_hin]: the inode of a handle. *)
Definition tmpfs_hin (h : handle) (s : tmpfs) : option Z :=
  if (h_ino h <=? 0) || (TMPFS_MAX_NODES <=? h_ino h) || negb (i_used (inode_at s (h_ino h))) then None
  else Some (h_ino h).

(** The copy loops: one round per chunk touched, so [size] rounds are enough. *)
Fixpoint read_loop (fuel : nat) (n : inode) (pos size done : Z) (acc : list Z) : list Z :=
  match fuel with
  | O => acc
  | S fuel =>
      if done <? size then
        let off := pos +32 done in
        let ci := off / TMPFS_CHUNK in
        let co := off mod TMPFS_CHUNK in
        let c := TMPFS_CHUNK - co in
        let c := if size -32 done <? c then size -32 done else c in
        let piece := match (if ci <? zlen (i_slots n) then zget (i_slots n) ci else None) with
                     | Some (_, src) => ztake c (zdrop co src)
                     | None => replicate (Z.to_nat c) 0
                     end in
        read_loop fuel n pos size (done +32 c) (acc ++ piece)
      else acc
  end.
Definition tmpfs_read (h : handle) (size : Z) (s : tmpfs) : Z * list Z * handle :=
  match tmpfs_hin h s with
  | None => (- EBADF, [], h)
  | Some ino =>
      let n := inode_at s ino in
      if i_size n <=? h_pos h then (0, [], h)
      else
        let avail := i_size n -32 h_pos h in
        let size := if avail <? size then avail else size in
        (s32 size, read_loop (Z.to_nat size) n (h_pos h) size 0 [],
         mk_handle (h_addr h) (h_ino h) (h_pos h +32 size) (h_flags h))
  end.

Definition store_chunk (ino ci co : Z) (d : list Z) (s : tmpfs) : tmpfs :=
  let n := inode_at s ino in
  match zget (i_slots n) ci with
  | Some (p, c) => upd_inode ino (set_slots (i_chunks n) (zset (i_slots n) ci (Some (p, splice c co d)))) s
  | None => s
  end.
Fixpoint write_loop (fuel : nat) (ino pos : Z) (src : list Z) (size done : Z) (s : tmpfs) : Z * tmpfs :=
  match fuel with
  | O => (done, s)
  | S fuel =>
      if done <? size then
        let off := pos +32 done in
        let ci := off / TMPFS_CHUNK in
        let co := off mod TMPFS_CHUNK in
        let c := TMPFS_CHUNK - co in
        let c := if size -32 done <? c then size -32 done else c in
        let '(ok, s) := tmpfs_chunk ino ci s in
        if ok then write_loop fuel ino pos src size (done +32 c)
                     (store_chunk ino ci co (ztake c (zdrop done src)) s)
        else (done, s)
      else (done, s)
  end.
Definition tmpfs_write (h : handle) (src : list Z) (size : Z) (s : tmpfs) : Z * handle * tmpfs :=
  match tmpfs_hin h s with
  | None => (- EBADF, h, s)
  | Some ino =>
      if negb (has (h_flags h) VFS_O_WRITE) then (- EBADF, h, s)
      else
        let h := if has (h_flags h) VFS_O_APPEND
                 then mk_handle (h_addr h) (h_ino h) (i_size (inode_at s ino)) (h_flags h) else h in
        if size =? 0 then (0, h, s)
        else
          let '(rc, s) := tmpfs_slots ino (h_pos h + size) s in
          if rc <? 0 then (rc, h, s)
          else
            let '(done, s) := write_loop (Z.to_nat size) ino (h_pos h) src size 0 s in
            if done =? 0 then (- ENOSPC, h, s)
            else
              let h := mk_handle (h_addr h) (h_ino h) (h_pos h +32 done) (h_flags h) in
              let s := if i_size (inode_at s ino) <? h_pos h then upd_inode ino (set_size (h_pos h)) s else s in
              (s32 done, h, upd_inode ino (fun n => set_mtime (tmpfs_now s) (set_ctime (tmpfs_now s) n)) s)
  end.

Definition tmpfs_set_len (ino len : Z) (s : tmpfs) : Z * tmpfs :=
  let '(rc, s) := if i_size (inode_at s ino) <? len then tmpfs_slots ino len s
                  else (0, tmpfs_shrink ino (u32 len) s) in
  if rc <? 0 then (rc, s)
  else (0, upd_inode ino (fun n => set_mtime (tmpfs_now s) (set_ctime (tmpfs_now s) (set_size (u32 len) n))) s).

Definition tmpfs_ftruncate (h : handle) (len : Z) (s : tmpfs) : Z * tmpfs :=
  match tmpfs_hin h s with None => (- EBADF, s) | Some ino => tmpfs_set_len ino len s end.

Definition tmpfs_seek (h : handle) (offset whence : Z) (s : tmpfs) : Z * handle :=
  match tmpfs_hin h s with
  | None => (- EBADF, h)
  | Some ino =>
      let np := if whence =? VFS_SEEK_SET then Some offset
                else if whence =? VFS_SEEK_CUR then Some (h_pos h + offset)
                else if whence =? VFS_SEEK_END then Some (i_size (inode_at s ino) + offset)
                else None in
      match np with
      | None => (- EINVAL, h)
      | Some np =>
          if np <? 0 then (- EINVAL, h)
          else (s32 (u32 np), mk_handle (h_addr h) (h_ino h) (u32 np) (h_flags h))
      end
  end.

Definition tmpfs_get_size (h : handle) (s : tmpfs) : Z :=
  match tmpfs_hin h s with None => - EBADF | Some ino => s32 (i_size (inode_at s ino)) end.

(** ** Names *)

(** A missing component is made: inode first, then the entry. *)
Definition make_entry (mode : Z) (cur : Z) (part : cstr) (s : tmpfs) : Z * tmpfs :=
  let '(ino, s) := tmpfs_alloc_inode mode s in
  if ino <? 0 then (- ENOSPC, s)
  else
    let '(r, s) := tmpfs_add_node cur part ino s in
    if r <? 0 then (r, tmpfs_put_inode ino (upd_inode ino (set_nlink 0) s)) else (r, s).

(** The walk of [tmpfs_lookup]; each round consumes at least one byte. *)
Fixpoint lookup_loop (fuel : nat) (create_dirs create_file want_dir : bool) (cur : Z) (p : cstr) (s : tmpfs)
    : Z * tmpfs :=
  match fuel with
  | O => (- EINVAL, s)
  | S fuel =>
      let '(part, slash) := component p in
      let n := zlen part in
      if n =? 0 then (- EINVAL, s)
      else if TMPFS_MAX_NAME <=? n then (- ENAMETOOLONG, s)
      else
        let child := tmpfs_find_child s cur part in
        let is_last := match slash with [] => true | _ => false end in
        let next child s :=
          if negb (tmpfs_isdir s child) then (- ENOTDIR, s)
          else
            let p := skip_slashes slash in
            match p with
            | [] => ((if want_dir then child else - ENOENT), s)
            | _ => lookup_loop fuel create_dirs create_file want_dir child p s
            end in
        if child <? 0 then
          if is_last && create_file && negb want_dir then make_entry (Z.lor T_IFREG 0x1A4) cur part s
          else if (negb is_last && create_dirs) || (is_last && create_dirs && want_dir) then
            let '(r, s) := make_entry (Z.lor T_IFDIR 0x1ED) cur part s in
            if r <? 0 then (r, s)
            else if is_last then (r, s)
            else next r s
          else (- ENOENT, s)
        else if is_last then
          if want_dir && negb (tmpfs_isdir s child) then (- ENOTDIR, s)
          else if negb want_dir && tmpfs_isdir s child && create_file then (- EISDIR, s)
          else (child, s)
        else next child s
  end.

Definition ensure_root (s : tmpfs) : tmpfs := if tmpfs_ready s then s else tmpfs_init_root s.

Definition tmpfs_lookup (rel_path : option cstr) (create_dirs create_file want_dir : bool) (s : tmpfs) : Z * tmpfs :=
  let s := ensure_root s in
  let p := skip_slashes (default [] rel_path) in
  match p with
  | [] => ((if want_dir then 0 else - ENOENT), s)
  | _ => lookup_loop (length p) create_dirs create_file want_dir 0 p s
  end.

Definition tmpfs_lookup_any (rel : option cstr) (s : tmpfs) : Z * tmpfs :=
  match default [] rel with
  | [] => (0, s)
  | _ =>
      let '(i, s) := tmpfs_lookup rel false false false s in
      if (i <? 0) && negb (i =? - ENOTDIR) && negb (i =? - ENAMETOOLONG) then
        let '(j, s) := tmpfs_lookup rel false false true s in
        if 0 <=? j then (j, s) else (i, s)
      else (i, s)
  end.

(** The path without trailing slashes, and its split at the last slash. *)
Fixpoint strip_trailing (p : cstr) : cstr :=
  match p with
  | [] => []
  | c :: p => match strip_trailing p with
              | [] => if c =? 47 then [] else [c]
              | q => c :: q
              end
  end.
Fixpoint split_last (p : cstr) : option (cstr * cstr) :=
  match p with
  | [] => None
  | c :: p => match split_last p with
              | Some (d, l) => Some (c :: d, l)
              | None => if c =? 47 then Some ([], p) else None
              end
  end.
(** [tmpfs_parent]: the parent directory (or an error) and the leaf. *)
Definition tmpfs_parent (rel : option cstr) (s : tmpfs) : Z * cstr * tmpfs :=
  let tmp := kstrncpy (default [] rel) 512 in
  let t := strip_trailing (skip_slashes tmp) in
  match t with
  | [] => (- EEXIST, [], s)
  | _ =>
      match split_last t with
      | None => if TMPFS_MAX_NAME <=? zlen t then (- ENAMETOOLONG, [], s)
                else (0, kstrncpy t TMPFS_MAX_NAME, ensure_root s)
      | Some (d, nm) =>
          if TMPFS_MAX_NAME <=? zlen nm then (- ENAMETOOLONG, [], s)
          else let '(r, s) := tmpfs_lookup (Some d) false false true s in (r, kstrncpy nm TMPFS_MAX_NAME, s)
      end
  end.

(** ** The operations of [tmpfs_ops] *)

Definition tmpfs_open (rel_path : option cstr) (flags : Z) (s : tmpfs) : option handle * tmpfs :=
  let '(idx, s) := tmpfs_lookup rel_path false false false s in
  let '(idx, s) := if (idx <? 0) && has flags VFS_O_CREATE then tmpfs_lookup rel_path true true false s else (idx, s) in
  if idx <? 0 then (None, s)
  else if tmpfs_isdir s idx || tmpfs_islnk s idx then (None, s)
  else
    let ino := n_ino (node_at s idx) in
    let s := if has flags VFS_O_TRUNC then
               upd_inode ino (fun n => set_mtime (tmpfs_now s) (set_ctime (tmpfs_now s) (set_size 0 n)))
                 (tmpfs_free_data ino s)
             else s in
    let '(h, hp) := hp_kalloc 12 (t_heap s) in
    let s := set_heap hp s in
    if h =? 0 then (None, s)
    else
      (Some (mk_handle h ino (if has flags VFS_O_APPEND then i_size (inode_at s ino) else 0) flags),
       upd_inode ino (fun n => set_opens (s32 (i_opens n + 1)) n) s).

Definition tmpfs_close (h : option handle) (s : tmpfs) : Z * tmpfs :=
  match h with
  | None => (0, s)
  | Some h =>
      let s := match tmpfs_hin h s with
               | Some ino =>
                   let s := if 0 <? i_opens (inode_at s ino)
                            then upd_inode ino (fun n => set_opens (i_opens n - 1) n) s else s in
                   tmpfs_put_inode ino s
               | None => s
               end in
      (0, set_heap (hp_kfree (h_addr h) (t_heap s)) s)
  end.

(** The ancestor walk of [tmpfs_rename]; it leaves the tree at the root, so
    the number of nodes bounds it. *)
Fixpoint is_ancestor (fuel : nat) (src a : Z) (s : tmpfs) : bool :=
  match fuel with
  | O => false
  | S fuel => if a <? 0 then false else if a =? src then true else is_ancestor fuel src (n_parent (node_at s a)) s
  end.

Definition rename_entry (src dparent : Z) (leaf : cstr) (s : tmpfs) : tmpfs :=
  let s := upd_inode (n_ino (node_at s (n_parent (node_at s src)))) (set_mtime (tmpfs_now s)) s in
  let n := node_at s src in
  let s := set_node src (mk_node (n_used n) dparent (n_ino n) (kstrncpy leaf TMPFS_MAX_NAME)) s in
  let s := upd_inode (n_ino (node_at s dparent)) (set_mtime (tmpfs_now s)) s in
  upd_inode (n_ino (node_at s src)) (set_ctime (tmpfs_now s)) s.

Definition tmpfs_rename (old_rel new_rel : option cstr) (s : tmpfs) : Z * tmpfs :=
  let '(src, s) := tmpfs_lookup_any old_rel s in
  if src <=? 0 then ((if src <? 0 then src else - EBUSY), s)
  else
    let '(dparent, leaf, s) := tmpfs_parent new_rel s in
    if dparent =? - EEXIST then (- EBUSY, s)
    else if dparent <? 0 then (dparent, s)
    else if is_ancestor (Z.to_nat TMPFS_MAX_NODES) src dparent s then (- EINVAL, s)
    else
      let dst := tmpfs_find_child s dparent leaf in
      if dst =? src then (0, s)
      else if 0 <? dst then
        if n_ino (node_at s dst) =? n_ino (node_at s src) then (0, s)
        else if negb (Bool.eqb (tmpfs_isdir s dst) (tmpfs_isdir s src)) then
          ((if tmpfs_isdir s dst then - EISDIR else - ENOTDIR), s)
        else if tmpfs_isdir s dst && tmpfs_has_children s dst then (- ENOTEMPTY, s)
        else (0, rename_entry src dparent leaf (tmpfs_drop_node dst s))
      else (0, rename_entry src dparent leaf s).

Definition tmpfs_rmdir (rel_path : option cstr) (s : tmpfs) : Z * tmpfs :=
  let '(idx, s) := tmpfs_lookup rel_path false false true s in
  if idx <? 0 then (idx, s)
  else if idx =? 0 then (- EBUSY, s)
  else if tmpfs_has_children s idx then (- ENOTEMPTY, s)
  else (0, tmpfs_drop_node idx s).

(** A directory entry as [tmpfs_readdir] reports it. *)
Record dirent := mk_dirent { d_name : cstr; d_inode : Z; d_isdir : bool; d_lnk : bool; d_size : Z }.
Definition tmpfs_readdir (rel_path : option cstr) (max_entries : Z) (s : tmpfs) : Z * list dirent * tmpfs :=
  let '(idx, s) := tmpfs_lookup rel_path false false true s in
  if idx <? 0 then (idx, [], s)
  else
    let es := zfor (Z.to_nat (TMPFS_MAX_NODES - 1)) 1
      (fun i acc =>
         if negb (zlen acc <? max_entries) then acc
         else if is_child s idx i then
           acc ++ [mk_dirent (kstrncpy (n_name (node_at s i)) 256) (u32 (n_ino (node_at s i)) +32 1)
                     (tmpfs_isdir s i) (tmpfs_islnk s i) (i_size (NI s i))]
         else acc) [] in
    (s32 (zlen es), es, s).

Definition tmpfs_create (rel_path : option cstr) (s : tmpfs) : Z * tmpfs :=
  let '(idx, s) := tmpfs_lookup rel_path true true false s in ((if idx <? 0 then idx else 0), s).
Definition tmpfs_mkdir (rel_path : option cstr) (s : tmpfs) : Z * tmpfs :=
  let '(idx, s) := tmpfs_lookup rel_path true false true s in ((if idx <? 0 then idx else 0), s).

Definition tmpfs_unlink (rel_path : option cstr) (s : tmpfs) : Z * tmpfs :=
  let '(idx, s) := tmpfs_lookup rel_path false false false s in
  if idx <? 0 then
    let '(idx, s) := tmpfs_lookup rel_path false false true s in
    if idx <? 0 then (idx, s)
    else if tmpfs_has_children s idx then (- EBUSY, s)
    else if idx =? 0 then (- EBUSY, s)
    else (0, tmpfs_drop_node idx s)
  else if idx =? 0 then (- EBUSY, s)
  else (0, tmpfs_drop_node idx s).

Definition tmpfs_exists (rel_path : option cstr) (s : tmpfs) : Z * tmpfs :=
  match default [] rel_path with
  | [] => (1, s)
  | _ => let '(i, s) := tmpfs_lookup_any rel_path s in ((if 0 <=? i then 1 else 0), s)
  end.

Definition tmpfs_stat (rel_path : option cstr) (has_st : bool) (s : tmpfs) : Z * option stat * tmpfs :=
  if negb has_st then (- EINVAL, None, s) else
  let '(idx, s) := tmpfs_lookup_any rel_path s in
  if idx <? 0 then (idx, None, s)
  else
    let n := NI s idx in
    let mk nlink size blocks :=
      mk_stat (i_mode n) (i_uid n) (i_gid n) nlink 512 size (n_ino (node_at s idx) +64 1) blocks
        (i_mtime n) (i_mtime n) (i_ctime n) in
    let st :=
      if tmpfs_isdir s idx then
        mk (zfor (Z.to_nat (TMPFS_MAX_NODES - 1)) 1
              (fun i nl => if is_child s idx i && tmpfs_isdir s i then nl +32 1 else nl) 2) 0 0
      else mk (if i_nlink n =? 0 then 1 else i_nlink n) (i_size n)
             (if tmpfs_islnk s idx then 0 else (i_size n + 511) / 512) in
    (0, Some st, s).

Definition tmpfs_truncate (rel_path : option cstr) (len : Z) (s : tmpfs) : Z * tmpfs :=
  let '(idx, s) := tmpfs_lookup rel_path false false false s in
  if idx <? 0 then (idx, s)
  else if tmpfs_isdir s idx then (- EISDIR, s)
  else if tmpfs_islnk s idx then (- EINVAL, s)
  else tmpfs_set_len (n_ino (node_at s idx)) len s.

Definition tmpfs_readlink (rel_path : option cstr) (cap : Z) (s : tmpfs) : Z * list Z * tmpfs :=
  match default [] rel_path with
  | [] => (- EINVAL, [], s)
  | _ =>
      let '(idx, s) := tmpfs_lookup_any rel_path s in
      if idx <? 0 then (idx, [], s)
      else
        match (if tmpfs_islnk s idx then i_target (NI s idx) else None) with
        | None => (- EINVAL, [], s)
        | Some (_, t) =>
            let n := i_size (NI s idx) in
            let n := if cap <? n then cap else n in
            (s32 n, ztake n t, s)
        end
  end.

Definition tmpfs_symlink (rel_path : option cstr) (target : cstr) (s : tmpfs) : Z * tmpfs :=
  let tl := zlen target in
  if tl =? 0 then (- ENOENT, s)
  else if TMPFS_LINK_MAX <? tl then (- ENAMETOOLONG, s)
  else
    let '(par, leaf, s) := tmpfs_parent rel_path s in
    if par <? 0 then (par, s)
    else if 0 <=? tmpfs_find_child s par leaf then (- EEXIST, s)
    else
      let '(t, h) := hp_kalloc (tl + 1) (t_heap s) in
      let s := set_heap h s in
      if t =? 0 then (- ENOSPC, s)
      else
        let '(ino, s) := tmpfs_alloc_inode (Z.lor T_IFLNK 0x1FF) s in
        if ino <? 0 then (- ENOSPC, set_heap (hp_kfree t (t_heap s)) s)
        else
          let s := upd_inode ino (fun n => set_size (u32 tl) (set_target (Some (t, target)) n)) s in
          let '(r, s) := tmpfs_add_node par leaf ino s in
          if r <? 0 then (r, tmpfs_put_inode ino (upd_inode ino (set_nlink 0) s)) else (0, s).

Definition tmpfs_link (old_rel new_rel : option cstr) (s : tmpfs) : Z * tmpfs :=
  let '(src, s) := tmpfs_lookup_any old_rel s in
  if src <? 0 then (src, s)
  else if tmpfs_isdir s src then (- EPERM, s)
  else
    let '(par, leaf, s) := tmpfs_parent new_rel s in
    if par <? 0 then (par, s)
    else if 0 <=? tmpfs_find_child s par leaf then (- EEXIST, s)
    else
      let '(r, s) := tmpfs_add_node par leaf (n_ino (node_at s src)) s in
      if r <? 0 then (r, s)
      else (0, upd_inode (n_ino (node_at s src))
                 (fun n => set_ctime (tmpfs_now s) (set_nlink (i_nlink n +32 1) n)) s).

Definition tmpfs_setattr (rel_path : option cstr) (what mode uid gid : Z) (s : tmpfs) : Z * tmpfs :=
  let '(idx, s) := tmpfs_lookup_any rel_path s in
  if idx <? 0 then (idx, s)
  else
    let ino := n_ino (node_at s idx) in
    let isl := tmpfs_islnk s idx in
    let s := if has what VFS_SA_MODE && negb isl
             then upd_inode ino (fun n => set_mode (Z.lor (Z.land (i_mode n) T_IFMT) (Z.land mode 0xFFF)) n) s else s in
    let s := if has what VFS_SA_OWNER then
               let s := if uid =? 0xFFFFFFFF then s else upd_inode ino (fun n => set_owner uid (i_gid n) n) s in
               let s := if gid =? 0xFFFFFFFF then s else upd_inode ino (fun n => set_owner (i_uid n) gid n) s in
               if negb (tmpfs_islnk s idx) && negb (tmpfs_isdir s idx)
               then upd_inode ino (fun n => set_mode (Z.land (i_mode n) (u32 (Z.lnot 0xC00))) n) s else s
             else s in
    (0, upd_inode ino (set_ctime (tmpfs_now s)) s).

(** [tmpfs_mount_tmp]: [optical] tells that / is the read-only install CD and
    [vfs_mount] is what registering the mount point returned. *)
Definition tmpfs_mount_tmp (optical : bool) (vfs_mount : Z) (s : tmpfs) : Z * tmpfs :=
  if negb optical then (0, s)
  else
    let s := tmpfs_size_from_ram (ensure_root s) in
    if vfs_mount =? 0 then (vfs_mount, s)
    else if vfs_mount =? - EBUSY then (0, s) else (vfs_mount, s).
End tmpfs.
Arguments tmpfs : clear implicits.
