(* ===== verification/TmpfsData.v ===== *)
(** * tmpfs: file contents

    What the operations of src/tmpfs.c do to the bytes of files: chunks with
    holes read as one zero-filled byte array, and reads, writes, truncation
    and the memory accounting are correct for it. *)
From S2P Require Import Prelude Paths Heap Tmpfs.

(** ** Bytes of an inode *)

Definition slot_byte (sl : list (option (Z * list Z))) (off : Z) : Z :=
  match zget sl (off / TMPFS_CHUNK) with
  | Some (_, c) => zget c (off mod TMPFS_CHUNK)
  | None => 0
  end.
Definition byte_at (n : inode) (off : Z) : Z := slot_byte (i_slots n) off.

(** The file as its readers see it. *)
Definition file_bytes (n : inode) : list Z := byte_at n <$> seqZ 0 (i_size n).

Definition slots_wf (sl : list (option (Z * list Z))) : Prop :=
  forall p c, Some (p, c) ∈ sl -> zlen c = TMPFS_CHUNK.

Lemma zget_elem (sl : list (option (Z * list Z))) i x : zget sl i = Some x -> Some x ∈ sl.
Proof.
  unfold zget. rewrite list_lookup_total_alt. destruct (sl !! Z.to_nat i) as [y|] eqn:E; [|done].
  cbn. intros ->. apply list_elem_of_lookup. eauto.
Qed.

Definition bytes_range (sl : list (option (Z * list Z))) (off n : Z) : list Z := slot_byte sl <$> seqZ off n.

Lemma zlen_bytes_range sl off n : 0 <= n -> zlen (bytes_range sl off n) = n.
Proof. intros. unfold zlen, bytes_range. rewrite length_fmap, length_seqZ. lia. Qed.

Lemma zget_bytes_range sl off n i : 0 <= i < n -> zget (bytes_range sl off n) i = slot_byte sl (off + i).
Proof.
  intros Hi. apply zget_lookup. unfold bytes_range. rewrite list_lookup_fmap, lookup_seqZ_lt by lia.
  cbn. do 2 f_equal. lia.
Qed.

Lemma bytes_range_split sl off n m :
  0 <= n -> 0 <= m -> bytes_range sl off (n + m) = bytes_range sl off n ++ bytes_range sl (off + n) m.
Proof. intros. unfold bytes_range. by rewrite seqZ_app, fmap_app by lia. Qed.

Lemma div_mod_chunk ci co : 0 <= ci -> 0 <= co < TMPFS_CHUNK ->
  (ci * TMPFS_CHUNK + co) / TMPFS_CHUNK = ci /\ (ci * TMPFS_CHUNK + co) mod TMPFS_CHUNK = co.
Proof.
  unfold TMPFS_CHUNK. intros. split.
  - symmetry. apply Z.div_unique with co; lia.
  - symmetry. apply Z.mod_unique with ci; lia.
Qed.

Lemma slot_byte_at sl ci co : 0 <= ci -> 0 <= co < TMPFS_CHUNK ->
  slot_byte sl (ci * TMPFS_CHUNK + co) = match zget sl ci with Some (_, c) => zget c co | None => 0 end.
Proof. intros Hi Ho. unfold slot_byte. by destruct (div_mod_chunk ci co Hi Ho) as [-> ->]. Qed.

Lemma zget_replicate0 n i : 0 <= i < n -> zget (replicate (Z.to_nat n) 0) i = 0.
Proof. intros. unfold zget. apply lookup_total_replicate_2. lia. Qed.

Lemma zlen_replicate {A} n (x : A) : 0 <= n -> zlen (replicate (Z.to_nat n) x) = n.
Proof. intros. unfold zlen. rewrite length_replicate. lia. Qed.

Lemma zget_out {A} `{!Inhabited A} (l : list A) i : zlen l <= i -> zget l i = inhabitant.
Proof.
  unfold zlen, zget. intros. rewrite list_lookup_total_alt, lookup_ge_None_2; [done | lia].
Qed.

(** ** Reading *)

(** One round copies the bytes of the range it covers. *)
Lemma piece_spec sl off c :
  slots_wf sl -> 0 <= off -> 0 <= c -> off mod TMPFS_CHUNK + c <= TMPFS_CHUNK ->
  match (if off / TMPFS_CHUNK <? zlen sl then zget sl (off / TMPFS_CHUNK) else None) with
  | Some (_, src) => ztake c (zdrop (off mod TMPFS_CHUNK) src)
  | None => replicate (Z.to_nat c) 0
  end = bytes_range sl off c.
Proof.
  intros Hwf Ho Hc Hfit. assert (0 < TMPFS_CHUNK) as HC by done.
  pose proof (Z.mod_pos_bound off TMPFS_CHUNK HC) as Hmb. pose proof (Z.div_pos off TMPFS_CHUNK Ho HC) as Hdp.
  pose proof (Z.div_mod off TMPFS_CHUNK ltac:(done)) as Hdm.
  set (ci := off / TMPFS_CHUNK) in *. set (co := off mod TMPFS_CHUNK) in *.
  assert ((if ci <? zlen sl then zget sl ci else None) = zget sl ci) as ->.
  { case_if; bool_hyps; [done|]. by rewrite zget_out by lia. }
  assert (forall i, 0 <= i < c -> slot_byte sl (off + i) = match zget sl ci with Some (_, s) => zget s (co + i) | None => 0 end)
    as Hb.
  { intros i Hi. replace (off + i) with (ci * TMPFS_CHUNK + (co + i)) by lia. apply slot_byte_at; lia. }
  destruct (zget sl ci) as [[p src]|] eqn:E.
  - pose proof (Hwf p src (zget_elem sl ci _ E)) as Hl. apply zlist_eq.
    + rewrite zlen_ztake, zlen_zdrop, zlen_bytes_range; lia.
    + rewrite zlen_ztake, zlen_zdrop by lia. intros i Hi.
      rewrite zget_ztake, zget_zdrop, zget_bytes_range, Hb by lia. done.
  - apply zlist_eq; [rewrite zlen_replicate, zlen_bytes_range; lia|]. rewrite zlen_replicate by lia.
    intros i Hi. rewrite zget_replicate0, zget_bytes_range, Hb by lia. done.
Qed.

(** The size of a round. *)
Lemma round_size off size done : 0 <= off -> 0 <= done < size -> size < 2 ^ 32 ->
  let c := TMPFS_CHUNK - off mod TMPFS_CHUNK in
  let c := if size -32 done <? c then size -32 done else c in
  0 < c /\ done + c <= size /\ off mod TMPFS_CHUNK + c <= TMPFS_CHUNK.
Proof.
  intros Ho Hd Hs. assert (0 < TMPFS_CHUNK) as HC by done.
  pose proof (Z.mod_pos_bound off TMPFS_CHUNK HC). cbn zeta. rewrite u32_small by lia. case_if; bool_hyps; lia.
Qed.

Lemma read_loop_spec fuel n pos size done acc :
  slots_wf (i_slots n) -> 0 <= pos -> 0 <= done <= size -> pos + size < 2 ^ 32 -> size - done <= Z.of_nat fuel ->
  read_loop fuel n pos size done acc = acc ++ bytes_range (i_slots n) (pos + done) (size - done).
Proof.
  intros Hwf Hp. revert done acc. induction fuel as [|fuel IH]; intros done acc Hd Hb Hf; cbn [read_loop].
  { replace (size - done) with 0 by lia. by rewrite app_nil_r. }
  case_if; bool_hyps.
  2:{ replace (size - done) with 0 by lia. by rewrite app_nil_r. }
  rewrite (u32_small (pos + done)) by lia.
  pose proof (round_size (pos + done) size done ltac:(lia) ltac:(lia) ltac:(lia)) as Hr. cbn zeta in Hr.
  set (c := if size -32 done <? _ then _ else _) in *. destruct Hr as (Hc & Hdc & Hfit).
  rewrite piece_spec by (done || lia). rewrite (u32_small (done + c)), IH by lia.
  rewrite <- app_assoc. f_equal.
  replace (size - done) with (c + (size - (done + c))) by lia. rewrite bytes_range_split by lia.
  f_equal. f_equal; lia.
Qed.

(** ** Counting chunks *)

Fixpoint count_chunks (sl : list (option (Z * list Z))) : Z :=
  match sl with
  | [] => 0
  | Some _ :: sl => 1 + count_chunks sl
  | None :: sl => count_chunks sl
  end.
Definition one (c : option (Z * list Z)) : Z := match c with Some _ => 1 | None => 0 end.

Lemma count_chunks_cons c sl : count_chunks (c :: sl) = one c + count_chunks sl.
Proof. by destruct c. Qed.

Lemma count_chunks_app a b : count_chunks (a ++ b) = count_chunks a + count_chunks b.
Proof. induction a as [|c a IH]; [done|]. cbn [app]. rewrite !count_chunks_cons, IH. lia. Qed.

Lemma count_chunks_holes k : count_chunks (replicate k None) = 0.
Proof. by induction k. Qed.

Lemma count_chunks_bounds sl : 0 <= count_chunks sl <= zlen sl.
Proof.
  induction sl as [|c sl IH]; [done|]. rewrite count_chunks_cons, zlen_cons.
  assert (0 <= one c <= 1) by (destruct c; cbn; lia). lia.
Qed.

Lemma zset_split {A} `{!Inhabited A} (l : list A) i x :
  0 <= i < zlen l -> exists a b, l = a ++ zget l i :: b /\ zset l i x = a ++ x :: b.
Proof.
  intros Hi. pose proof (lookup_zget l i Hi) as Hl.
  exists (take (Z.to_nat i) l), (drop (S (Z.to_nat i)) l). split.
  - symmetry. by apply take_drop_middle.
  - unfold zset. apply insert_take_drop. unfold zlen in Hi. lia.
Qed.

Lemma count_chunks_zset sl i c :
  0 <= i < zlen sl -> count_chunks (zset sl i c) = count_chunks sl - one (zget sl i) + one c.
Proof.
  intros Hi. destruct (zset_split sl i c Hi) as (a & b & E & ->).
  assert (count_chunks sl = count_chunks a + (one (zget sl i) + count_chunks b)) as ->
    by (rewrite E at 1; by rewrite count_chunks_app, count_chunks_cons).
  rewrite count_chunks_app, count_chunks_cons. lia.
Qed.

Definition sum_chunks (l : list inode) : Z := foldr (fun n a => count_chunks (i_slots n) + a) 0 l.

Lemma sum_chunks_cons n l : sum_chunks (n :: l) = count_chunks (i_slots n) + sum_chunks l.
Proof. done. Qed.

Lemma sum_chunks_app a b : sum_chunks (a ++ b) = sum_chunks a + sum_chunks b.
Proof. unfold sum_chunks. induction a as [|n a IH]; cbn; [done|]. rewrite IH. lia. Qed.

Lemma sum_chunks_zset l i n :
  0 <= i < zlen l -> sum_chunks (zset l i n) = sum_chunks l - count_chunks (i_slots (zget l i)) + count_chunks (i_slots n).
Proof.
  intros Hi. destruct (zset_split l i n Hi) as (a & b & E & ->).
  assert (sum_chunks l = sum_chunks a + (count_chunks (i_slots (zget l i)) + sum_chunks b)) as ->
    by (rewrite E at 1; by rewrite sum_chunks_app, sum_chunks_cons).
  rewrite sum_chunks_app, sum_chunks_cons. lia.
Qed.

Lemma sum_chunks_nonneg l : 0 <= sum_chunks l.
Proof. unfold sum_chunks. induction l as [|n l IH]; cbn; [done|]. pose proof (count_chunks_bounds (i_slots n)). lia. Qed.

Lemma sum_chunks_ge l i : 0 <= i < zlen l -> count_chunks (i_slots (zget l i)) <= sum_chunks l.
Proof.
  intros Hi. destruct (zset_split l i zero_inode Hi) as (a & b & E & _).
  assert (sum_chunks l = sum_chunks a + (count_chunks (i_slots (zget l i)) + sum_chunks b)) as ->
    by (rewrite E at 1; by rewrite sum_chunks_app, sum_chunks_cons). pose proof (sum_chunks_nonneg a). pose proof (sum_chunks_nonneg b). lia.
Qed.

(** ** Invariant *)

Section data.
Context {H : Type} `{!KHeap H}.
Implicit Types (s : tmpfs H).

Definition in_inodes (i : Z) : Prop := 0 <= i < TMPFS_MAX_NODES.

Record inode_shape (n : inode) : Prop := {
  is_size : 0 <= i_size n < 2 ^ 32;
  is_slots : slots_wf (i_slots n);
  is_count : zlen (i_slots n) <= 131072;
  is_table : i_chunks n = 0 -> i_slots n = [];
  is_free : i_used n = false -> i_slots n = [];
}.

(** Shape of the tables, and the accounting: the byte count is exact and
    within the limit. *)
Record data_ok s : Prop := {
  d_len : zlen (inodes s) = TMPFS_MAX_NODES;
  d_shape : forall i, in_inodes i -> inode_shape (inode_at s i);
  d_used : tmpfs_used_bytes s = TMPFS_CHUNK * sum_chunks (inodes s);
  d_limit : tmpfs_used_bytes s <= tmpfs_limit_bytes s < 2 ^ 63;
}.

(** Bytes past the end of a file are zero, so that growing it exposes zeros. *)
Definition tail_zero (n : inode) : Prop := forall off, i_size n <= off -> byte_at n off = 0.
Definition fs_data_ok s : Prop := data_ok s /\ forall i, in_inodes i -> tail_zero (inode_at s i).

(** Only the chunks of inode [ino], the heap and the byte count change. *)
Record data_only (ino : Z) s s' : Prop := {
  do_nodes : nodes s' = nodes s;
  do_other : forall j, in_inodes j -> j <> ino -> inode_at s' j = inode_at s j;
  do_self : exists c sl, inode_at s' ino = set_slots c sl (inode_at s ino);
  do_ready : tmpfs_ready s' = tmpfs_ready s;
  do_limit : tmpfs_limit_bytes s' = tmpfs_limit_bytes s;
  do_now : t_now s' = t_now s;
}.

Lemma set_slots_self n : set_slots (i_chunks n) (i_slots n) n = n.
Proof. by destruct n. Qed.

Lemma data_only_refl ino s : data_only ino s s.
Proof. split; try done. exists (i_chunks (inode_at s ino)), (i_slots (inode_at s ino)). by rewrite set_slots_self. Qed.

Lemma data_only_trans ino s1 s2 s3 : data_only ino s1 s2 -> data_only ino s2 s3 -> data_only ino s1 s3.
Proof.
  intros [? Ho1 (c1 & sl1 & E1) ? ? ?] [? Ho2 (c2 & sl2 & E2) ? ? ?]. split; try congruence.
  - intros j Hj Hne. rewrite Ho2, Ho1 by done. done.
  - exists c2, sl2. by rewrite E2, E1.
Qed.

(** Entries, kind, owner counts and link text stay as they are. *)
Definition meta_of (n : inode) := (i_used n, i_mode n, (i_uid n, i_gid n), i_nlink n, i_opens n, i_target n).
Definition names_kept (ino : Z) s s' : Prop :=
  nodes s' = nodes s /\ tmpfs_ready s' = tmpfs_ready s /\ meta_of (inode_at s' ino) = meta_of (inode_at s ino).

Lemma kept_data ino s s' : data_only ino s s' -> names_kept ino s s'.
Proof. intros Hd. split; [apply Hd|]. split; [apply Hd|]. by destruct (do_self _ _ _ Hd) as (? & ? & ->). Qed.
Lemma kept_refl ino s : names_kept ino s s.
Proof. done. Qed.
Lemma kept_trans ino s1 s2 s3 : names_kept ino s1 s2 -> names_kept ino s2 s3 -> names_kept ino s1 s3.
Proof. intros (? & ? & ?) (? & ? & ?). split_and!; congruence. Qed.

Lemma inode_at_set i n s j : zlen (inodes s) = TMPFS_MAX_NODES -> in_inodes i -> in_inodes j ->
  inode_at (set_inode i n s) j = if decide (j = i) then n else inode_at s j.
Proof.
  unfold in_inodes, inode_at, set_inode. intros Hl Hi Hj; cbn. case_decide.
  - subst. apply zget_zset_eq. lia.
  - apply zget_zset_ne; lia.
Qed.

Lemma inode_at_upd i f s j : zlen (inodes s) = TMPFS_MAX_NODES -> in_inodes i -> in_inodes j ->
  inode_at (upd_inode i f s) j = if decide (j = i) then f (inode_at s i) else inode_at s j.
Proof. apply inode_at_set. Qed.

(** One inode gets new slots; heap and count move along. *)
Lemma set_slots_ok ino c sl h u s :
  data_ok s -> in_inodes ino -> slots_wf sl -> zlen sl <= 131072 -> (c = 0 -> sl = []) -> (i_used (inode_at s ino) = false -> sl = []) ->
  u = tmpfs_used_bytes s + TMPFS_CHUNK * (count_chunks sl - count_chunks (i_slots (inode_at s ino))) ->
  u <= tmpfs_limit_bytes s ->
  let s' := upd_inode ino (set_slots c sl) (set_mem h u s) in
  data_ok s' /\ data_only ino s s' /\ inode_at s' ino = set_slots c sl (inode_at s ino).
Proof.
  intros Hok Hi Hwf Hcnt Hc Hfree Hu Hlim s'. pose proof (d_len s Hok) as Hl.
  assert (forall j, in_inodes j -> inode_at s' j = if decide (j = ino) then set_slots c sl (inode_at s ino) else inode_at s j)
    as Hat by (intros j Hj; by apply (inode_at_upd ino (set_slots c sl) (set_mem h u s) j)).
  assert (inode_at s' ino = set_slots c sl (inode_at s ino)) as Hself by (by rewrite Hat, decide_True).
  split; [split|split; [split|]]; try done; cbn.
  - by rewrite zlen_zset.
  - intros j Hj. rewrite Hat by done. case_decide; [|by apply Hok].
    subst j. destruct (d_shape s Hok ino Hi). split; cbn; try done.
  - rewrite sum_chunks_zset by (unfold in_inodes in Hi; lia). rewrite Hu, (d_used s Hok). cbn.
    unfold inode_at. lia.
  - pose proof (d_limit s Hok). lia.
  - intros j Hj Hne. by rewrite Hat, decide_False.
  - eauto.
Qed.

(** ** Slots and chunks *)

Lemma double_until_spec fuel ns want :
  0 < ns < 2 ^ 31 -> want <= 65536 -> 65536 <= ns * 2 ^ Z.of_nat fuel ->
  let r := double_until fuel ns want in ns <= r /\ want <= r /\ r <= Z.max ns 131072.
Proof.
  revert ns. induction fuel as [|fuel IH]; intros ns Hns Hw Hf; cbn [double_until].
  { cbn in Hf. lia. }
  case_if; bool_hyps; [|cbn zeta; lia]. rewrite u32_small by lia.
  assert (0 < ns * 2 < 2 ^ 31) as Hns2 by lia.
  specialize (IH (ns * 2) Hns2 Hw). rewrite Nat2Z.inj_succ, Z.pow_succ_r in Hf by lia.
  specialize (IH ltac:(lia)). cbn zeta in *. lia.
Qed.

Lemma slot_byte_app sl k off : 0 <= off -> slot_byte (sl ++ replicate k None) off = slot_byte sl off.
Proof.
  intros Ho. unfold slot_byte. pose proof (Z.div_pos off TMPFS_CHUNK Ho ltac:(done)).
  destruct (decide (off / TMPFS_CHUNK < zlen sl)).
  - by rewrite zget_app_l by lia.
  - rewrite zget_app_r, (zget_out sl) by lia.
    destruct (decide (off / TMPFS_CHUNK - zlen sl < Z.of_nat k)).
    + unfold zget. by rewrite lookup_total_replicate_2 by lia.
    + rewrite zget_out; [done|]. unfold zlen in *. rewrite length_replicate. lia.
Qed.

Lemma slots_wf_app sl k : slots_wf sl -> slots_wf (sl ++ replicate k None).
Proof.
  intros Hwf p c [?|Hr]%elem_of_app; [by eapply Hwf|]. by apply elem_of_replicate in Hr as [? _].
Qed.

Lemma slots_wf_zset sl i x : slots_wf sl -> match x with Some (_, c) => zlen c = TMPFS_CHUNK | None => True end -> slots_wf (zset sl i x).
Proof.
  intros Hwf Hx p c [j Hj]%list_elem_of_lookup.
  apply list_lookup_insert_Some in Hj as [(_ & -> & _) | (_ & Hj)]; [done|].
  eapply Hwf, list_elem_of_lookup. eauto.
Qed.

Lemma zlen_zero_nil {A} (l : list A) : zlen l = 0 <-> l = [].
Proof. split; [apply zlen_nil_inv | by intros ->]. Qed.

(** The table grows; no byte changes. *)
Lemma tmpfs_slots_spec ino need s rc s' :
  data_ok s -> in_inodes ino -> i_used (inode_at s ino) = true -> 0 <= need ->
  tmpfs_slots ino need s = (rc, s') ->
  data_ok s' /\ data_only ino s s' /\
  (forall off, 0 <= off -> byte_at (inode_at s' ino) off = byte_at (inode_at s ino) off) /\
  (rc = - ENOSPC \/ rc = 0 /\ need < 2 ^ 32 /\ need <= zlen (i_slots (inode_at s' ino)) * TMPFS_CHUNK).
Proof.
  intros Hok Hi Hused Hneed Hs. pose proof (is_count _ (d_shape s Hok ino Hi)) as Hsl. unfold tmpfs_slots in Hs. set (n := inode_at s ino) in *.
  assert (forall h, data_ok (set_heap h s) /\ data_only ino s (set_heap h s)) as Hheap.
  { intros h. destruct Hok. split; [split; done | by split; try done; apply (data_only_refl ino s)]. }
  pose proof (data_only_refl ino s) as Hrefl.
  case_if; bool_hyps; [simplify_eq; split_and!; try done; by left|].
  case_if; bool_hyps; [simplify_eq; split_and!; try done; by left|].
  pose proof (Z.div_pos (need + (TMPFS_CHUNK - 1)) TMPFS_CHUNK ltac:(unfold TMPFS_CHUNK; lia) ltac:(done)).
  assert ((need + (TMPFS_CHUNK - 1)) / TMPFS_CHUNK <= 65536) as Hw.
  { assert ((need + (TMPFS_CHUNK - 1)) / TMPFS_CHUNK < 65537); [|lia].
    apply Z.div_lt_upper_bound; unfold TMPFS_CHUNK; lia. }
  rewrite u64_small, u32_small in Hs by (unfold TMPFS_CHUNK in *; lia).
  set (want := (need + (TMPFS_CHUNK - 1)) / TMPFS_CHUNK) in *.
  assert (need <= want * TMPFS_CHUNK) as Hcover.
  { pose proof (Z.div_mod (need + (TMPFS_CHUNK - 1)) TMPFS_CHUNK ltac:(done)).
    pose proof (Z.mod_pos_bound (need + (TMPFS_CHUNK - 1)) TMPFS_CHUNK ltac:(done)). unfold want. lia. }
  case_if; bool_hyps.
  { simplify_eq. split_and!; try done. right. unfold n, TMPFS_CHUNK in *. lia. }
  set (ns0 := if zlen (i_slots n) =? 0 then 4 else zlen (i_slots n)) in *.
  assert (0 < ns0 <= 131072 /\ zlen (i_slots n) <= ns0) as [Hns0 Hle].
  { pose proof (zlen_nonneg (i_slots n)). unfold ns0. case_if; bool_hyps; lia. }
  destruct (double_until_spec 32 ns0 want ltac:(lia) Hw ltac:(cbn; lia)) as (Hns1 & Hns2 & Hns3).
  set (ns := double_until 32 ns0 want) in *.
  destruct (hp_kalloc (ns * 8) (t_heap s)) as [t h].
  destruct (t =? 0) eqn:Et; bool_hyps; [simplify_eq; destruct (Hheap h); split_and!; try done; by left|].
  assert ((if i_chunks n =? 0 then [] else i_slots n) = i_slots n) as Eold.
  { case_if; bool_hyps; [|done]. symmetry. by apply (is_table _ (d_shape s Hok ino Hi)). }
  rewrite Eold in Hs. set (sl := i_slots n ++ replicate (Z.to_nat (ns - zlen (i_slots n))) None) in *.
  assert (zlen sl = ns) as Hlen.
  { unfold sl. rewrite zlen_app, zlen_replicate; lia. }
  destruct (set_slots_ok ino t sl (if i_chunks n =? 0 then h else hp_kfree (i_chunks n) h) (tmpfs_used_bytes s) s Hok Hi)
    as (Hok' & Hdo & Hself).
  - apply slots_wf_app, (d_shape s Hok ino Hi).
  - lia.
  - done.
  - fold n. congruence.
  - unfold sl. rewrite count_chunks_app, count_chunks_holes. unfold n. lia.
  - apply Hok.
  - assert (s' = upd_inode ino (set_slots t sl)
      (set_mem (if i_chunks n =? 0 then h else hp_kfree (i_chunks n) h) (tmpfs_used_bytes s) s)) as -> by (by simplify_eq).
    rewrite Hself. cbn. split; [done|]. split; [done|]. fold n. change (i_slots (set_slots t sl n)) with sl. rewrite Hlen.
    split; [|right; simplify_eq; unfold TMPFS_CHUNK in *; lia].
    intros off Ho. by apply slot_byte_app.
Qed.

Lemma slot_byte_fill sl ci p off :
  zget sl ci = None -> 0 <= ci < zlen sl -> 0 <= off ->
  slot_byte (zset sl ci (Some (p, replicate (Z.to_nat TMPFS_CHUNK) 0))) off = slot_byte sl off.
Proof.
  intros Hn Hi Ho. unfold slot_byte. pose proof (Z.div_pos off TMPFS_CHUNK Ho ltac:(done)).
  destruct (decide (off / TMPFS_CHUNK = ci)) as [->|Hne].
  - rewrite zget_zset_eq, Hn by lia. apply zget_replicate0. by apply Z.mod_pos_bound.
  - by rewrite zget_zset_ne by lia.
Qed.

(** A chunk is made if need be; no byte changes. *)
Lemma tmpfs_chunk_spec ino ci s ok s' :
  data_ok s -> in_inodes ino -> i_used (inode_at s ino) = true -> 0 <= ci ->
  tmpfs_chunk ino ci s = (ok, s') ->
  data_ok s' /\ data_only ino s s' /\
  (forall off, 0 <= off -> byte_at (inode_at s' ino) off = byte_at (inode_at s ino) off) /\
  zlen (i_slots (inode_at s' ino)) = zlen (i_slots (inode_at s ino)) /\
  (ok = true -> ci < zlen (i_slots (inode_at s' ino)) /\ exists p c, zget (i_slots (inode_at s' ino)) ci = Some (p, c)).
Proof.
  intros Hok Hi Hused Hci Hs. unfold tmpfs_chunk in Hs. set (n := inode_at s ino) in *.
  pose proof (data_only_refl ino s) as Hrefl.
  case_if; bool_hyps; [by simplify_eq|].
  destruct (zget (i_slots n) ci) as [[p c]|] eqn:Eg.
  { simplify_eq. split_and!; try done. intros _. fold n. split; [lia | eauto]. }
  case_if; [by simplify_eq|]. case_if; [by simplify_eq|]. bool_hyps.
  destruct (hp_kalloc TMPFS_CHUNK (t_heap s)) as [p h].
  destruct (p =? 0) eqn:Ep; bool_hyps.
  { simplify_eq. split; [destruct Hok; by split|]. split; [by split; try done; apply (data_only_refl ino s)|]. done. }
  set (sl := zset (i_slots n) ci (Some (p, replicate (Z.to_nat TMPFS_CHUNK) 0))) in *.
  pose proof (d_used s Hok) as Hu. pose proof (sum_chunks_nonneg (inodes s)). pose proof (d_limit s Hok) as Hlim.
  rewrite u64_small in * by (unfold TMPFS_CHUNK in *; lia).
  pose proof (d_shape s Hok ino Hi) as Hsh.
  destruct (set_slots_ok ino (i_chunks n) sl h (tmpfs_used_bytes s + TMPFS_CHUNK) s Hok Hi) as (Hok' & Hdo & Hself).
  - apply slots_wf_zset; [apply Hsh|]. by apply zlen_replicate.
  - unfold sl. rewrite zlen_zset. apply Hsh.
  - intros E. exfalso. assert (zlen (i_slots n) = 0) by (unfold n; by rewrite (is_table _ Hsh E)). lia.
  - fold n. congruence.
  - fold n. unfold sl. rewrite count_chunks_zset, Eg by lia. cbn. lia.
  - done.
  - simplify_eq. rewrite Hself. fold n. change (i_slots (set_slots (i_chunks n) sl n)) with sl.
    split; [done|]. split; [done|]. split; [|split].
    + intros off Ho. apply slot_byte_fill; done || lia.
    + unfold sl. by rewrite zlen_zset.
    + intros _. unfold sl. rewrite zlen_zset, zget_zset_eq by lia. split; [lia | eauto].
Qed.

Lemma store_chunk_spec ino ci co d s p c :
  data_ok s -> in_inodes ino -> i_used (inode_at s ino) = true -> 0 <= ci < zlen (i_slots (inode_at s ino)) ->
  zget (i_slots (inode_at s ino)) ci = Some (p, c) -> 0 <= co -> co + zlen d <= TMPFS_CHUNK ->
  let s' := store_chunk ino ci co d s in
  data_ok s' /\ data_only ino s s' /\
  zlen (i_slots (inode_at s' ino)) = zlen (i_slots (inode_at s ino)) /\
  forall off, 0 <= off -> byte_at (inode_at s' ino) off =
    if decide (ci * TMPFS_CHUNK + co <= off < ci * TMPFS_CHUNK + co + zlen d)
    then zget d (off - (ci * TMPFS_CHUNK + co)) else byte_at (inode_at s ino) off.
Proof.
  intros Hok Hi Hused Hci Eg Hco Hd s'. set (n := inode_at s ino) in *.
  pose proof (d_shape s Hok ino Hi) as Hsh. pose proof (is_slots _ Hsh p c (zget_elem _ _ _ Eg)) as Hl.
  set (sl := zset (i_slots n) ci (Some (p, splice c co d))).
  assert (s' = upd_inode ino (set_slots (i_chunks n) sl) (set_mem (t_heap s) (tmpfs_used_bytes s) s)) as Es'.
  { unfold s', store_chunk. fold n. rewrite Eg. by destruct s. }
  destruct (set_slots_ok ino (i_chunks n) sl (t_heap s) (tmpfs_used_bytes s) s Hok Hi) as (Hok' & Hdo & Hself).
  - apply slots_wf_zset; [apply Hsh|]. rewrite zlen_splice; lia.
  - unfold sl. rewrite zlen_zset. apply Hsh.
  - intros E. exfalso. assert (zlen (i_slots n) = 0) by (unfold n; by rewrite (is_table _ Hsh E)). lia.
  - fold n. congruence.
  - fold n. unfold sl. rewrite count_chunks_zset, Eg by lia. cbn. lia.
  - apply Hok.
  - rewrite Es', Hself. fold n. change (i_slots (set_slots (i_chunks n) sl n)) with sl.
    split; [done|]. split; [done|]. split; [unfold sl; by rewrite zlen_zset|].
    intros off Ho. unfold byte_at. change (i_slots (set_slots (i_chunks n) sl n)) with sl.
    pose proof (Z.div_mod off TMPFS_CHUNK ltac:(done)) as Hdm. pose proof (Z.mod_pos_bound off TMPFS_CHUNK ltac:(done)).
    pose proof (Z.div_pos off TMPFS_CHUNK Ho ltac:(done)). pose proof (zlen_nonneg d).
    unfold slot_byte, sl. destruct (decide (off / TMPFS_CHUNK = ci)) as [E|Hne].
    + rewrite E, zget_zset_eq, zget_splice, Eg by lia.
      destruct (decide (co <= off mod TMPFS_CHUNK < co + zlen d)).
      * rewrite decide_True by lia. f_equal. lia.
      * rewrite decide_False by lia. done.
    + rewrite zget_zset_ne, decide_False by (unfold TMPFS_CHUNK in *; lia). done.
Qed.

(** The write loop stores a prefix of the source and touches nothing else. *)
Lemma write_loop_spec fuel ino pos src size done s r s' :
  data_ok s -> in_inodes ino -> i_used (inode_at s ino) = true ->
  0 <= pos -> 0 <= done <= size -> size <= zlen src -> pos + size < 2 ^ 32 -> size - done <= Z.of_nat fuel ->
  write_loop fuel ino pos src size done s = (r, s') ->
  done <= r <= size /\ data_ok s' /\ data_only ino s s' /\
  forall off, 0 <= off -> byte_at (inode_at s' ino) off =
    if decide (pos + done <= off < pos + r) then zget src (off - pos) else byte_at (inode_at s ino) off.
Proof.
  intros Hok Hi Hused Hp. revert done s Hok Hused.
  induction fuel as [|fuel IH]; intros done s Hok Hused Hd Hsrc Hb Hf Hs; cbn [write_loop] in Hs.
  { simplify_eq. split_and!; try done; try lia; [apply data_only_refl|]. intros. by rewrite decide_False by lia. }
  case_if; bool_hyps.
  2:{ simplify_eq. split_and!; try done; try lia; [apply data_only_refl|]. intros. by rewrite decide_False by lia. }
  rewrite (u32_small (pos + done)) in Hs by lia.
  pose proof (round_size (pos + done) size done ltac:(lia) ltac:(lia) ltac:(lia)) as Hr. cbn zeta in Hr.
  set (c := if size -32 done <? _ then _ else _) in *. destruct Hr as (Hc & Hdc & Hfit).
  set (ci := (pos + done) / TMPFS_CHUNK) in *. set (co := (pos + done) mod TMPFS_CHUNK) in *.
  pose proof (Z.div_mod (pos + done) TMPFS_CHUNK ltac:(done)) as Hdm. fold ci co in Hdm.
  pose proof (Z.mod_pos_bound (pos + done) TMPFS_CHUNK ltac:(done)) as Hmb. fold co in Hmb.
  pose proof (Z.div_pos (pos + done) TMPFS_CHUNK ltac:(lia) ltac:(done)) as Hci. fold ci in Hci.
  destruct (tmpfs_chunk ino ci s) as [ok s1] eqn:Ech.
  destruct (tmpfs_chunk_spec ino ci s ok s1 Hok Hi Hused Hci Ech) as (Hok1 & Hdo1 & Hby1 & Hlen1 & Hget1).
  assert (i_used (inode_at s1 ino) = true) as Hused1 by (destruct (do_self _ _ _ Hdo1) as (? & ? & ->); done).
  destruct ok.
  2:{ simplify_eq. split_and!; try done; try lia. intros off Ho. rewrite decide_False by lia. by apply Hby1. }
  destruct (Hget1 eq_refl) as (Hlt & p & ch & Hget).
  assert (zlen (ztake c (zdrop done src)) = c) as Hpl by (rewrite zlen_ztake, zlen_zdrop; lia).
  destruct (store_chunk_spec ino ci co (ztake c (zdrop done src)) s1 p ch Hok1 Hi Hused1 ltac:(lia) Hget ltac:(lia) ltac:(lia))
    as (Hok2 & Hdo2 & _ & Hby2).
  set (s2 := store_chunk ino ci co (ztake c (zdrop done src)) s1) in *.
  assert (i_used (inode_at s2 ino) = true) as Hused2 by (destruct (do_self _ _ _ Hdo2) as (? & ? & ->); done).
  rewrite (u32_small (done + c)) in Hs by lia.
  destruct (IH (done + c) s2 Hok2 Hused2 ltac:(lia) Hsrc Hb ltac:(lia) Hs) as (Hr & Hok' & Hdo' & Hby).
  split; [lia|]. split; [done|]. split; [by eapply data_only_trans, data_only_trans|].
  intros off Ho. rewrite Hby, Hby2, Hby1, Hpl by done.
  replace (ci * TMPFS_CHUNK + co) with (pos + done) by lia.
  destruct (decide (pos + (done + c) <= off < pos + r)); [by rewrite decide_True by lia|].
  destruct (decide (pos + done <= off < pos + done + c)).
  - rewrite decide_True, zget_ztake, zget_zdrop by lia. f_equal. lia.
  - by rewrite decide_False by lia.
Qed.

(** ** Attributes *)

(** An update that leaves the chunks alone. *)
Lemma upd_attr_ok ino f s :
  data_ok s -> in_inodes ino ->
  (let n := inode_at s ino in i_slots (f n) = i_slots n /\ i_chunks (f n) = i_chunks n /\
     i_used (f n) = i_used n /\ 0 <= i_size (f n) < 2 ^ 32) ->
  data_ok (upd_inode ino f s).
Proof.
  intros Hok Hi (Esl & Ech & Eu & Hsz). pose proof (d_len s Hok) as Hl. split; cbn.
  - by rewrite zlen_zset.
  - intros j Hj. rewrite inode_at_upd by done. case_decide; [|by apply Hok].
    subst j. destruct (d_shape s Hok ino Hi). split; rewrite ?Esl, ?Ech, ?Eu; done.
  - rewrite sum_chunks_zset by (unfold in_inodes in Hi; lia). rewrite Esl, (d_used s Hok). unfold inode_at. lia.
  - apply Hok.
Qed.

Lemma hin_spec h s ino : tmpfs_hin h s = Some ino ->
  ino = h_ino h /\ 0 < ino /\ in_inodes ino /\ i_used (inode_at s ino) = true.
Proof.
  unfold tmpfs_hin, in_inodes. intros Hs. case_if; [done|]. simplify_eq. bool_hyps.
  split_and!; try done; lia.
Qed.

(** What a successful [tmpfs_write] does to the file. *)
Definition overwritten (n n' : inode) (pos : Z) (d : list Z) : Prop :=
  i_size n' = Z.max (i_size n) (pos + zlen d) /\
  forall off, 0 <= off -> byte_at n' off =
    if decide (pos <= off < pos + zlen d) then zget d (off - pos) else byte_at n off.

(** The new size and times at the end of a write or a truncation. *)
Lemma stamp_ok ino k s :
  data_ok s -> in_inodes ino -> 0 <= k < 2 ^ 32 ->
  let s' := upd_inode ino (fun n => set_mtime (t_now s) (set_ctime (t_now s) (set_size k n))) s in
  data_ok s' /\ names_kept ino s s' /\
  (forall j, in_inodes j -> j <> ino -> inode_at s' j = inode_at s j) /\
  i_size (inode_at s' ino) = k /\ i_slots (inode_at s' ino) = i_slots (inode_at s ino).
Proof.
  intros Hok Hi Hk s'. pose proof (d_len s Hok) as Hl.
  split; [by apply upd_attr_ok|]. split.
  { split_and!; try done. unfold s'. by rewrite inode_at_upd, decide_True by done. }
  split.
  - intros j Hj Hne. unfold s'. by rewrite inode_at_upd, decide_False.
  - unfold s'. by rewrite inode_at_upd, decide_True by done.
Qed.

Lemma upd_upd ino f g s :
  zlen (inodes s) = TMPFS_MAX_NODES -> in_inodes ino ->
  upd_inode ino f (upd_inode ino g s) = upd_inode ino (fun n => f (g n)) s.
Proof.
  intros Hl Hi. unfold upd_inode. rewrite inode_at_set, decide_True by done.
  unfold set_inode, zset; cbn. by rewrite list_insert_insert_eq.
Qed.

(** An inode whose bytes and size are as before keeps its zero tail. *)
Lemma same_bytes_ok ino s t :
  fs_data_ok s -> data_ok t -> data_only ino s t -> in_inodes ino ->
  (forall off, 0 <= off -> byte_at (inode_at t ino) off = byte_at (inode_at s ino) off) -> fs_data_ok t.
Proof.
  intros [Hok Htl] Hokt Ht Hi Hbt. split; [done|]. intros j Hj off Hoff.
  pose proof (is_size _ (d_shape t Hokt j Hj)). destruct (decide (j = ino)) as [->|Hne].
  - rewrite Hbt by lia. apply (Htl ino Hi). by destruct (do_self _ _ _ Ht) as (? & ? & E); rewrite E in Hoff.
  - rewrite (do_other _ _ _ Ht) in * by done. by apply (Htl j Hj).
Qed.

(** The end of a write that stored [done] bytes. *)
Lemma write_finish h1 pos src size done ino s s2 r h' s' :
  fs_data_ok s -> data_ok s2 -> data_only ino s s2 -> in_inodes ino ->
  0 <= pos -> 0 < done <= size -> size <= zlen src -> pos + size < 2 ^ 32 -> size < 2 ^ 31 ->
  (forall off, 0 <= off -> byte_at (inode_at s2 ino) off =
     if decide (pos <= off < pos + done) then zget src (off - pos) else byte_at (inode_at s ino) off) ->
  (let h := mk_handle (h_addr h1) (h_ino h1) (pos +32 done) (h_flags h1) in
   let s := if i_size (inode_at s2 ino) <? h_pos h then upd_inode ino (set_size (h_pos h)) s2 else s2 in
   (s32 done, h, upd_inode ino (fun n => set_mtime (tmpfs_now s) (set_ctime (tmpfs_now s) n)) s)) = (r, h', s') ->
  fs_data_ok s' /\ names_kept ino s s' /\
  (forall j, in_inodes j -> j <> ino -> inode_at s' j = inode_at s j) /\
  0 < r <= size /\ h_pos h' = pos + r /\ overwritten (inode_at s ino) (inode_at s' ino) pos (ztake r src).
Proof.
  intros [Hok Htl] Hok2 Hdo Hi Hp Hd Hsrc Hb H31 Hby Hs. cbn zeta in Hs. cbn [h_pos] in Hs.
  rewrite u32_small, s32_small in Hs by lia. injection Hs as <- <- Es.
  assert (i_size (inode_at s2 ino) = i_size (inode_at s ino)) as Esz by (by destruct (do_self _ _ _ Hdo) as (? & ? & ->)).
  pose proof (is_size _ (d_shape s Hok ino Hi)) as Hnsz.
  set (k := Z.max (i_size (inode_at s ino)) (pos + done)).
  assert (s' = upd_inode ino (fun n => set_mtime (t_now s2) (set_ctime (t_now s2) (set_size k n))) s2) as Es'.
  { rewrite <- Es, Esz. destruct (i_size (inode_at s ino) <? pos + done) eqn:E; bool_hyps.
    - rewrite upd_upd by (done || apply Hok2). replace (pos + done) with k by lia. done.
    - unfold upd_inode. f_equal. replace k with (i_size (inode_at s2 ino)) by lia. by destruct (inode_at s2 ino). }
  destruct (stamp_ok ino k s2 Hok2 Hi ltac:(lia)) as (Hok' & Hn' & Ho' & Hk & Hsl).
  rewrite <- Es' in *. clear Es Es'.
  assert (zlen (ztake done src) = done) as Hzl by (rewrite zlen_ztake; lia).
  assert (overwritten (inode_at s ino) (inode_at s' ino) pos (ztake done src)) as How.
  { split; rewrite Hzl; [done|]. intros off Ho. unfold byte_at at 1. rewrite Hsl. fold (byte_at (inode_at s2 ino) off).
    rewrite Hby by done. case_decide; [|done]. by rewrite zget_ztake by lia. }
  split_and!; try done; try lia.
  - split; [done|]. intros j Hj off Hoff. destruct (decide (j = ino)) as [->|Hne].
    + destruct How as [Ez Hbz]. rewrite Hbz, Hzl by (rewrite Ez in Hoff; lia).
      rewrite decide_False by (rewrite Ez, Hzl in Hoff; lia). apply (Htl ino Hi). rewrite Ez in Hoff. lia.
    + rewrite Ho', (do_other _ _ _ Hdo) in * by done. by apply Htl.
  - eapply kept_trans; [by apply kept_data | exact Hn'].
  - intros j Hj Hne. rewrite Ho', (do_other _ _ _ Hdo) by done. done.
Qed.

Lemma tmpfs_write_spec h src size s r h' s' ino :
  fs_data_ok s -> tmpfs_hin h s = Some ino -> 0 <= h_pos h < 2 ^ 32 -> 0 <= size <= zlen src -> size < 2 ^ 31 ->
  tmpfs_write h src size s = (r, h', s') ->
  let n := inode_at s ino in
  let pos := if has (h_flags h) VFS_O_APPEND then i_size n else h_pos h in
  fs_data_ok s' /\ names_kept ino s s' /\
  (forall j, in_inodes j -> j <> ino -> inode_at s' j = inode_at s j) /\
  ((r <= 0 /\ (has (h_flags h) VFS_O_WRITE = false -> r = - EBADF /\ s' = s) /\
    i_size (inode_at s' ino) = i_size n /\
    forall off, 0 <= off -> byte_at (inode_at s' ino) off = byte_at n off) \/
   (0 < r <= size /\ has (h_flags h) VFS_O_WRITE = true /\ h_pos h' = pos + r /\ pos + size < 2 ^ 32 /\
    overwritten n (inode_at s' ino) pos (ztake r src))).
Proof.
  intros Hfs Hh Hpos Hsz Hsz31 Hs n pos. pose proof Hfs as [Hok Htl].
  destruct (hin_spec h s ino Hh) as (_ & _ & Hi & Hused).
  pose proof (is_size _ (d_shape s Hok ino Hi)) as Hnsz. fold n in Hnsz.
  unfold tmpfs_write in Hs. rewrite Hh in Hs.
  destruct (has (h_flags h) VFS_O_WRITE) eqn:Hw; cbn [negb] in Hs.
  2:{ simplify_eq. split_and!; try done. left. split_and!; try done; lia. }
  set (h1 := if has (h_flags h) VFS_O_APPEND then _ else h) in Hs.
  assert (h_pos h1 = pos /\ 0 <= pos < 2 ^ 32) as [Epos Hpb].
  { unfold h1, pos. destruct (has (h_flags h) VFS_O_APPEND); done. }
  rewrite Epos in Hs.
  destruct (size =? 0) eqn:Es0; bool_hyps.
  { simplify_eq. split_and!; try done. left. split_and!; try done; lia. }
  destruct (tmpfs_slots ino (pos + size) s) as [rc s1] eqn:Esl.
  destruct (tmpfs_slots_spec ino (pos + size) s rc s1 Hok Hi Hused ltac:(lia) Esl) as (Hok1 & Hdo1 & Hby1 & Hrc).
  assert (forall t, data_only ino s t -> i_used (inode_at t ino) = true /\ i_size (inode_at t ino) = i_size n) as Hattr
    by (intros t Ht; destruct (do_self _ _ _ Ht) as (? & ? & ->); done).
  destruct (rc <? 0) eqn:Erc; bool_hyps.
  { simplify_eq. split; [by eapply same_bytes_ok|]. split; [by apply kept_data|]. split; [apply Hdo1|]. left.
    split_and!; try done; [lia | by apply Hattr]. }
  destruct Hrc as [->|(-> & Hlim & _)]; [done|].
  destruct (write_loop (Z.to_nat size) ino pos src size 0 s1) as [done s2] eqn:Ewl.
  destruct (Hattr s1 Hdo1) as [Hused1 _].
  destruct (write_loop_spec (Z.to_nat size) ino pos src size 0 s1 done s2 Hok1 Hi Hused1 ltac:(lia) ltac:(lia) ltac:(lia) ltac:(lia)
    ltac:(lia) Ewl) as (Hdone & Hok2 & Hdo2 & Hby2).
  pose proof (data_only_trans _ _ _ _ Hdo1 Hdo2) as Hdo. destruct (Hattr s2 Hdo) as [_ Hsize2].
  assert (forall off, 0 <= off -> byte_at (inode_at s2 ino) off =
    if decide (pos <= off < pos + done) then zget src (off - pos) else byte_at n off) as Hby.
  { intros off Ho. rewrite Hby2, Hby1, Z.add_0_r by done. done. }
  destruct (done =? 0) eqn:Ed0; bool_hyps.
  { simplify_eq. assert (forall off, 0 <= off -> byte_at (inode_at s' ino) off = byte_at n off) as Hby'
      by (intros off Ho; rewrite Hby by done; by rewrite decide_False by lia).
    split; [by eapply same_bytes_ok|]. split; [by apply kept_data|]. split; [apply Hdo|]. left. split_and!; try done; lia. }
  destruct (write_finish h1 pos src size done ino s s2 r h' s') as (? & ? & ? & ? & ? & ?); try done; try lia.
  split_and!; try done. right. split_and!; try done; lia.
Qed.

(** ** Truncation *)

Lemma shrink_loop keep h u sl0 :
  0 <= keep -> slots_wf sl0 -> TMPFS_CHUNK * count_chunks sl0 <= u < 2 ^ 64 ->
  let '(_, u', sl) := zfor (Z.to_nat (zlen sl0 - keep)) keep (shrink_slot keep) (h, u, sl0) in
  zlen sl = zlen sl0 /\ slots_wf sl /\ count_chunks sl <= count_chunks sl0 /\ u' = u + TMPFS_CHUNK * (count_chunks sl - count_chunks sl0) /\
  forall j, 0 <= j -> zget sl j = if decide (keep <= j) then None else zget sl0 j.
Proof.
  intros Hk Hwf Hu.
  pose proof (zfor_ind (fun i (m : H * Z * list (option (Z * list Z))) =>
    zlen m.2 = zlen sl0 /\ slots_wf m.2 /\ count_chunks m.2 <= count_chunks sl0 /\ m.1.2 = u + TMPFS_CHUNK * (count_chunks m.2 - count_chunks sl0) /\
    forall j, 0 <= j -> zget m.2 j = if decide (keep <= j < i) then None else zget sl0 j)
    (shrink_slot keep) (Z.to_nat (zlen sl0 - keep)) keep (h, u, sl0)) as Hind.
  destruct (zfor _ _ _ _) as [[h' u'] sl]. cbn in Hind.
  destruct Hind as (Hl & Hw & Hle & Hu' & Hg).
  { split_and!; try done; [lia|]. intros j Hj. by rewrite decide_False by lia. }
  { intros i [[h1 u1] sl1] Hi (Hl & Hw & Hle & Hu1 & Hg). cbn in Hl, Hw, Hle, Hu1, Hg. unfold shrink_slot.
    pose proof (count_chunks_bounds sl1). 
    destruct (zget sl1 i) as [[p c]|] eqn:E; cbn.
    - assert (count_chunks (zset sl1 i None) = count_chunks sl1 - 1) as Ec
        by (rewrite count_chunks_zset, E by lia; cbn; lia).
      pose proof (count_chunks_bounds (zset sl1 i None)).
      rewrite zlen_zset, Ec, u64_small by (unfold TMPFS_CHUNK in *; lia). split; [done|].
      split; [by apply slots_wf_zset|]. split; [lia|]. split; [lia|]. intros j Hj. destruct (decide (j = i)) as [->|].
      + rewrite zget_zset_eq, decide_True by lia. done.
      + rewrite zget_zset_ne, Hg by lia. destruct (decide (keep <= j < i)), (decide (keep <= j < i + 1)); done || lia.
    - split_and!; try done. intros j Hj. rewrite Hg by done. destruct (decide (j = i)) as [->|].
      + rewrite decide_False, decide_True by lia. rewrite Hg, decide_False in E by lia. done.
      + destruct (decide (keep <= j < i)), (decide (keep <= j < i + 1)); done || lia. }
  split_and!; try done. intros j Hj. rewrite Hg by done.
  destruct (decide (keep <= j)); [|by rewrite decide_False by lia].
  case_decide; [done|]. by rewrite zget_out by lia.
Qed.

(** Zeroing the tail of the last chunk that stays. *)
Lemma shrink_tail sl0 sl len keep :
  let r := len mod TMPFS_CHUNK in
  let sl' := if negb (r =? 0) && negb (keep =? 0) && (keep <=? zlen sl0) then
               match zget sl (keep - 1) with
               | Some (p, c) => zset sl (keep - 1) (Some (p, splice c r (replicate (Z.to_nat (TMPFS_CHUNK - r)) 0)))
               | None => sl
               end
             else sl in
  0 <= len -> keep = (len + (TMPFS_CHUNK - 1)) / TMPFS_CHUNK -> zlen sl = zlen sl0 -> slots_wf sl ->
  (forall j, 0 <= j -> zget sl j = if decide (keep <= j) then None else zget sl0 j) ->
  slots_wf sl' /\ zlen sl' = zlen sl0 /\ count_chunks sl' = count_chunks sl /\
  forall off, 0 <= off -> slot_byte sl' off = if decide (off < len) then slot_byte sl0 off else 0.
Proof.
  intros r sl' Hlen Hkeep Hl Hw Hg.
  pose proof (Z.div_mod (len + (TMPFS_CHUNK - 1)) TMPFS_CHUNK ltac:(done)) as Hk1. rewrite <- Hkeep in Hk1.
  pose proof (Z.mod_pos_bound (len + (TMPFS_CHUNK - 1)) TMPFS_CHUNK ltac:(done)) as Hk2.
  pose proof (Z.mod_pos_bound len TMPFS_CHUNK ltac:(done)) as Hr. fold r in Hr.
  pose proof (Z.div_mod len TMPFS_CHUNK ltac:(done)) as Hlr. fold r in Hlr.
  (* without the zeroed tail, bytes below [keep] chunks stay *)
  assert (forall off, 0 <= off -> slot_byte sl off = if decide (off < keep * TMPFS_CHUNK) then slot_byte sl0 off else 0) as Hcut.
  { intros off Ho. unfold slot_byte. pose proof (Z.div_pos off TMPFS_CHUNK Ho ltac:(done)).
    pose proof (Z.div_mod off TMPFS_CHUNK ltac:(done)). pose proof (Z.mod_pos_bound off TMPFS_CHUNK ltac:(done)).
    rewrite Hg by done. destruct (decide (keep <= off / TMPFS_CHUNK)).
    - rewrite decide_False by (unfold TMPFS_CHUNK in *; lia). done.
    - rewrite decide_True by (unfold TMPFS_CHUNK in *; lia). done. }
  unfold sl'. destruct (negb (r =? 0) && negb (keep =? 0) && (keep <=? zlen sl0)) eqn:Ec; bool_hyps.
  - assert (keep * TMPFS_CHUNK = len - r + TMPFS_CHUNK) as Hkl by (unfold TMPFS_CHUNK in *; lia).
    assert (0 <= keep - 1 < zlen sl) as Hki by (unfold TMPFS_CHUNK in *; lia).
    destruct (zget sl (keep - 1)) as [[p c]|] eqn:E.
    + pose proof (Hw p c (zget_elem _ _ _ E)) as Hcl.
      assert (zlen (replicate (Z.to_nat (TMPFS_CHUNK - r)) 0) = TMPFS_CHUNK - r) as Hrl by (apply zlen_replicate; lia).
      split; [apply slots_wf_zset; [done | rewrite zlen_splice; lia]|]. split; [by rewrite zlen_zset|].
      split; [rewrite count_chunks_zset, E by lia; cbn; lia|].
      intros off Ho. pose proof (Z.div_mod off TMPFS_CHUNK ltac:(done)) as Hdm.
      pose proof (Z.mod_pos_bound off TMPFS_CHUNK ltac:(done)).
      destruct (decide (off / TMPFS_CHUNK = keep - 1)) as [Eo|Hne].
      * unfold slot_byte at 1. rewrite Eo, zget_zset_eq, zget_splice, Hrl by lia.
        assert (slot_byte sl0 off = zget c (off mod TMPFS_CHUNK)) as E0.
        { assert (slot_byte sl off = zget c (off mod TMPFS_CHUNK)) as <- by (unfold slot_byte; by rewrite Eo, E).
          rewrite Hcut by done. by rewrite decide_True by (unfold TMPFS_CHUNK in *; lia). }
        destruct (decide (off < len)).
        -- rewrite decide_False by (unfold TMPFS_CHUNK in *; lia). done.
        -- rewrite decide_True by (unfold TMPFS_CHUNK in *; lia). apply zget_replicate0. lia.
      * unfold slot_byte at 1. pose proof (Z.div_pos off TMPFS_CHUNK Ho ltac:(done)).
        rewrite zget_zset_ne by lia. fold (slot_byte sl off). rewrite Hcut by done.
        destruct (decide (off < len)), (decide (off < keep * TMPFS_CHUNK)); try done; unfold TMPFS_CHUNK in *; lia.
    + split_and!; try done. intros off Ho. rewrite Hcut by done.
      destruct (decide (off < len)), (decide (off < keep * TMPFS_CHUNK)); try done; [unfold TMPFS_CHUNK in *; lia|].
      assert (off / TMPFS_CHUNK = keep - 1) as Eo.
      { symmetry. apply Z.div_unique with (off - (keep - 1) * TMPFS_CHUNK); unfold TMPFS_CHUNK in *; lia. }
      assert (slot_byte sl off = 0) as <- by (unfold slot_byte; by rewrite Eo, E).
      rewrite Hcut by done. by rewrite decide_True.
  - split_and!; try done. intros off Ho. rewrite Hcut by done.
    destruct (decide (off < len)), (decide (off < keep * TMPFS_CHUNK)); try done; [unfold TMPFS_CHUNK in *; lia|].
    assert (r <> 0) as Hr0 by (unfold TMPFS_CHUNK in *; lia).
    assert (off / TMPFS_CHUNK = keep - 1) as Eo.
    { symmetry. apply Z.div_unique with (off - (keep - 1) * TMPFS_CHUNK); unfold TMPFS_CHUNK in *; lia. }
    unfold slot_byte. rewrite Eo. rewrite zget_out; [done|].
    rewrite (proj2 (Z.eqb_neq r 0)) in Ec by done. cbn [negb andb] in Ec.
    destruct (keep =? 0) eqn:E0; bool_hyps; [unfold TMPFS_CHUNK in *; lia|]. cbn in Ec. bool_hyps. lia.
Qed.

Lemma tmpfs_shrink_spec ino len s :
  data_ok s -> in_inodes ino -> 0 <= len <= 0xFFFF0000 ->
  let s' := tmpfs_shrink ino len s in
  data_ok s' /\ data_only ino s s' /\
  forall off, 0 <= off -> byte_at (inode_at s' ino) off = if decide (off < len) then byte_at (inode_at s ino) off else 0.
Proof.
  intros Hok Hi Hlen s'. unfold s', tmpfs_shrink. set (n := inode_at s ino).
  pose proof (d_shape s Hok ino Hi) as Hsh. pose proof (d_limit s Hok) as Hlim. pose proof (d_len s Hok) as Hil.
  rewrite u32_small by (unfold TMPFS_CHUNK; lia). set (keep := (len + (TMPFS_CHUNK - 1)) / TMPFS_CHUNK).
  pose proof (Z.div_mod (len + (TMPFS_CHUNK - 1)) TMPFS_CHUNK ltac:(done)) as Hk1. fold keep in Hk1.
  pose proof (Z.mod_pos_bound (len + (TMPFS_CHUNK - 1)) TMPFS_CHUNK ltac:(done)) as Hk2.
  pose proof (Z.div_pos (len + (TMPFS_CHUNK - 1)) TMPFS_CHUNK ltac:(unfold TMPFS_CHUNK; lia) ltac:(done)) as Hk0.
  fold keep in Hk0.
  pose proof (sum_chunks_ge (inodes s) ino ltac:(unfold in_inodes in Hi; lia)) as Hge. fold (inode_at s ino) n in Hge.
  pose proof (d_used s Hok) as Hu.
  pose proof (shrink_loop keep (t_heap s) (tmpfs_used_bytes s) (i_slots n) Hk0 (is_slots _ Hsh)
    ltac:(unfold TMPFS_CHUNK in *; lia)) as Hloop.
  destruct (zfor _ _ _ _) as [[h u] sl]. destruct Hloop as (Hl & Hw & Hcle & Eu & Hg).
  set (r := len mod TMPFS_CHUNK).
  pose proof (Z.mod_pos_bound len TMPFS_CHUNK ltac:(done)) as Hr. fold r in Hr.
  pose proof (Z.div_mod len TMPFS_CHUNK ltac:(done)) as Hlr. fold r in Hlr.
  set (sl' := if negb (r =? 0) && _ && _ then _ else sl).
  assert (slots_wf sl' /\ zlen sl' = zlen (i_slots n) /\ count_chunks sl' = count_chunks sl /\
    forall off, 0 <= off -> slot_byte sl' off = if decide (off < len) then byte_at n off else 0) as (Hw' & Hl' & Hc' & Hb').
  { exact (shrink_tail (i_slots n) sl len keep (proj1 Hlen) eq_refl Hl Hw Hg). }
  destruct (set_slots_ok ino (i_chunks n) sl' h u s Hok Hi Hw') as (Hok' & Hdo' & Hself).
  - rewrite Hl'. apply Hsh.
  - intros E. apply zlen_zero_nil. rewrite Hl'. apply zlen_zero_nil. by apply (is_table _ Hsh).
  - intros E. apply zlen_zero_nil. rewrite Hl'. apply zlen_zero_nil. by apply (is_free _ Hsh).
  - rewrite Hc'. fold n. exact Eu.
  - unfold TMPFS_CHUNK in *. lia.
  - split; [done|]. split; [done|]. intros off Ho. rewrite Hself. by apply Hb'.
Qed.

Lemma tmpfs_set_len_spec ino len s rc s' :
  fs_data_ok s -> in_inodes ino -> i_used (inode_at s ino) = true -> 0 <= len ->
  (len <= i_size (inode_at s ino) -> len <= 0xFFFF0000) ->
  tmpfs_set_len ino len s = (rc, s') ->
  fs_data_ok s' /\ names_kept ino s s' /\
  (forall j, in_inodes j -> j <> ino -> inode_at s' j = inode_at s j) /\
  ((rc = - ENOSPC /\ i_size (inode_at s ino) < len /\ i_size (inode_at s' ino) = i_size (inode_at s ino) /\
    forall off, 0 <= off -> byte_at (inode_at s' ino) off = byte_at (inode_at s ino) off) \/
   (rc = 0 /\ i_size (inode_at s' ino) = len /\
    forall off, 0 <= off < len -> byte_at (inode_at s' ino) off = byte_at (inode_at s ino) off)).
Proof.
  intros Hfs Hi Hused Hl Hsmall Hs. pose proof Hfs as [Hok Htl]. unfold tmpfs_set_len in Hs.
  pose proof (is_size _ (d_shape s Hok ino Hi)) as Hsz.
  assert (exists s1, data_ok s1 /\ data_only ino s s1 /\
    (forall off, 0 <= off -> byte_at (inode_at s1 ino) off =
       if decide (off < len \/ i_size (inode_at s ino) < len) then byte_at (inode_at s ino) off else 0) /\
    ((rc = - ENOSPC /\ s' = s1 /\ i_size (inode_at s ino) < len) \/ (rc = 0 /\ len < 2 ^ 32 /\
      s' = upd_inode ino (fun n => set_mtime (t_now s1) (set_ctime (t_now s1) (set_size len n))) s1)))
    as (s1 & Hok1 & Hdo & Hby & Hcase).
  { destruct (i_size (inode_at s ino) <? len) eqn:E; bool_hyps.
    - destruct (tmpfs_slots ino len s) as [rc1 s1] eqn:Esl.
      destruct (tmpfs_slots_spec ino len s rc1 s1 Hok Hi Hused ltac:(lia) Esl) as (Hok1 & Hdo1 & Hby1 & Hrc1).
      exists s1. split; [done|]. split; [done|]. split; [intros off Ho; by rewrite Hby1, decide_True by (done || lia)|].
      destruct Hrc1 as [->|(-> & ? & _)]; [change (- ENOSPC <? 0) with true in Hs; left; injection Hs as <- <-; done | change (0 <? 0) with false in Hs]. right.
      rewrite u32_small in Hs by lia. injection Hs as <- <-. done.
    - rewrite u32_small in Hs by lia.
      destruct (tmpfs_shrink_spec ino len s Hok Hi ltac:(lia)) as (Hok1 & Hdo1 & Hby1).
      exists (tmpfs_shrink ino len s). split; [done|]. split; [done|]. split.
      + intros off Ho. rewrite Hby1 by done. destruct (decide (off < len)); [by rewrite decide_True by lia|].
        by rewrite decide_False by lia.
      + right. cbn in Hs. split; [by simplify_eq|]. split; [lia|]. by simplify_eq. }
  assert (i_size (inode_at s1 ino) = i_size (inode_at s ino)) as Esz by (by destruct (do_self _ _ _ Hdo) as (? & ? & ->)).
  destruct Hcase as [(-> & -> & Hlt) | (-> & Hlt & ->)].
  - assert (forall off, 0 <= off -> byte_at (inode_at s1 ino) off = byte_at (inode_at s ino) off) as Hsame
      by (intros off Ho; rewrite Hby by done; by rewrite decide_True by lia).
    split; [by eapply same_bytes_ok|]. split; [by apply kept_data|]. split; [apply Hdo|]. left. done.
  - destruct (stamp_ok ino len s1 Hok1 Hi ltac:(lia)) as (Hok' & Hn' & Ho' & Hk & Hsl).
    set (s' := upd_inode ino _ s1) in *.
    assert (forall off, 0 <= off -> byte_at (inode_at s' ino) off =
      if decide (off < len \/ i_size (inode_at s ino) < len) then byte_at (inode_at s ino) off else 0) as Hby'.
    { intros off Ho. unfold byte_at at 1. rewrite Hsl. by apply Hby. }
    split; [split; [done|]|].
    + intros j Hj off Hoff. destruct (decide (j = ino)) as [->|Hne].
      * rewrite Hk in Hoff. rewrite Hby' by lia. destruct (decide (off < len \/ _)); [|done]. apply (Htl ino Hi). lia.
      * rewrite Ho', (do_other _ _ _ Hdo) in * by done. by apply Htl.
    + split; [eapply kept_trans; [by apply kept_data | exact Hn']|]. split; [intros j Hj Hne; rewrite Ho', (do_other _ _ _ Hdo) by done; done|].
      right. split_and!; try done. intros off Ho. rewrite Hby' by lia. by rewrite decide_True by lia.
Qed.

(** ** Files as byte strings *)

Lemma zlen_file n : 0 <= i_size n -> zlen (file_bytes n) = i_size n.
Proof. intros. unfold file_bytes, zlen. rewrite length_fmap, length_seqZ. lia. Qed.

Lemma zget_file n i : 0 <= i < i_size n -> zget (file_bytes n) i = byte_at n i.
Proof. intros. apply (zget_bytes_range (i_slots n) 0 (i_size n) i). lia. Qed.

Lemma file_ext n l : 0 <= i_size n -> zlen l = i_size n -> (forall i, 0 <= i < i_size n -> byte_at n i = zget l i) -> file_bytes n = l.
Proof.
  intros H0 Hl Hb. apply zlist_eq; [by rewrite zlen_file|]. rewrite zlen_file by done.
  intros i Hi. rewrite zget_file by done. by apply Hb.
Qed.

(** Zero-fill a byte string up to [k]. *)
Definition padded (l : list Z) (k : Z) : list Z := l ++ replicate (Z.to_nat (k - zlen l)) 0.

Lemma zlen_padded l k : zlen (padded l k) = Z.max (zlen l) k.
Proof. unfold padded. pose proof (zlen_nonneg l). unfold zlen at 1. rewrite length_app, length_replicate. unfold zlen in *. lia. Qed.

Lemma zget_padded l k i : 0 <= i < Z.max (zlen l) k -> zget (padded l k) i = if decide (i < zlen l) then zget l i else 0.
Proof.
  intros Hi. unfold padded. case_decide; [by rewrite zget_app_l by lia|].
  rewrite zget_app_r by lia. apply zget_replicate0. lia.
Qed.
End data.

(** ** Theorems *)

Section theorems.
Context {H : Type} `{!KHeap H}.
Implicit Types (s : tmpfs H).

(** C37 [tmpfs_read] returns exactly the bytes of the file from the handle's
    position, as many as asked for and present, holes as zeros; it returns
    their number and advances the position by it. *)
Theorem tmpfs_read_exact h size s ino r out h' :
  fs_data_ok s -> tmpfs_hin h s = Some ino -> 0 <= h_pos h -> 0 <= size < 2 ^ 31 ->
  tmpfs_read h size s = (r, out, h') ->
  let f := file_bytes (inode_at s ino) in
  out = ztake size (zdrop (h_pos h) f) /\ r = zlen out /\ h_pos h' = h_pos h + r.
Proof.
  intros [Hok _] Hh Hp Hsz Hr f. destruct (hin_spec h s ino Hh) as (_ & _ & Hi & _).
  pose proof (d_shape s Hok ino Hi) as Hsh. pose proof (is_size _ Hsh) as Hn.
  unfold tmpfs_read in Hr. rewrite Hh in Hr. set (n := inode_at s ino) in *.
  assert (zlen f = i_size n) as Hfl by (apply zlen_file; lia).
  case_if; bool_hyps.
  { simplify_eq. rewrite zdrop_all by lia. unfold ztake. rewrite take_nil. cbn. split_lia. }
  rewrite (u32_small (i_size n - h_pos h)) in Hr by lia.
  set (k := if i_size n - h_pos h <? size then i_size n - h_pos h else size) in *.
  assert (k = Z.min size (i_size n - h_pos h)) as Hk by (unfold k; case_if; bool_hyps; lia).
  rewrite read_loop_spec, s32_small, u32_small in Hr by (apply Hsh || lia). simplify_eq. cbn [app].
  rewrite Z.add_0_r, Z.sub_0_r, zlen_bytes_range by lia. split; [|done].
  apply zlist_eq; [rewrite zlen_bytes_range, zlen_ztake, zlen_zdrop; lia|].
  rewrite zlen_bytes_range by lia. intros i Hi'.
  rewrite zget_bytes_range, zget_ztake, zget_zdrop by lia. unfold f. by rewrite zget_file by lia.
Qed.

(** C15 [tmpfs_write] stores a prefix of the caller's bytes at the handle's
    position (at the end of the file for an append handle): the new content is
    the old one, zero-filled up to that position if need be, with exactly that
    prefix over it.  A write that fails changes no byte and no size.  No other
    inode and no directory entry changes. *)
Theorem tmpfs_write_exact h src size s r h' s' ino :
  fs_data_ok s -> tmpfs_hin h s = Some ino -> 0 <= h_pos h < 2 ^ 32 -> 0 <= size <= zlen src -> size < 2 ^ 31 ->
  tmpfs_write h src size s = (r, h', s') ->
  let f := file_bytes (inode_at s ino) in
  let pos := if has (h_flags h) VFS_O_APPEND then zlen f else h_pos h in
  fs_data_ok s' /\ names_kept ino s s' /\
  (forall j, in_inodes j -> j <> ino -> inode_at s' j = inode_at s j) /\
  r <= size /\
  file_bytes (inode_at s' ino) =
    (if 0 <? r then splice (padded f (pos + r)) pos (ztake r src) else f) /\
  (0 < r -> h_pos h' = pos + r).
Proof.
  intros Hfs Hh Hp Hsz H31 Hw f pos.
  destruct (hin_spec h s ino Hh) as (_ & _ & Hi & _). pose proof Hfs as [Hok _].
  pose proof (is_size _ (d_shape s Hok ino Hi)) as Hn.
  assert (zlen f = i_size (inode_at s ino)) as Hfl by (apply zlen_file; lia).
  destruct (tmpfs_write_spec h src size s r h' s' ino Hfs Hh Hp Hsz H31 Hw) as (Hfs' & Hno & Hoth & Hcase).
  pose proof Hfs' as [Hok' _]. pose proof (is_size _ (d_shape s' Hok' ino Hi)) as Hn'.
  rewrite <- Hfl in Hcase. fold pos in Hcase.
  assert (0 <= pos) as Hpos by (unfold pos; case_if; lia).
  destruct Hcase as [(Hr & _ & Hsize & Hby) | (Hr & _ & Hpos' & Hlim & Hsize & Hby)].
  - rewrite (proj2 (Z.ltb_ge 0 r)) by lia. split_and!; try done; try lia.
    apply file_ext; [lia | lia |]. intros i Hi'. rewrite Hby by lia. unfold f. by rewrite zget_file by lia.
  - rewrite (proj2 (Z.ltb_lt 0 r)) by lia. split_and!; try done; try lia.
    assert (zlen (ztake r src) = r) as Hzl by (rewrite zlen_ztake; lia). rewrite Hzl in *.
    apply file_ext; [lia | rewrite zlen_splice, zlen_padded; rewrite ?zlen_padded; lia |].
    intros i Hi'. rewrite Hby by lia. rewrite zget_splice by (rewrite ?zlen_padded; lia). rewrite Hzl.
    case_decide; [done|]. rewrite zget_padded by lia. case_decide.
    + unfold f. by rewrite zget_file by lia.
    + apply Hfs; [done | lia].
Qed.

(** Resizing keeps the bytes that fit and fills with zeros: after a
    successful [tmpfs_set_len] the file is its old content cut or zero-filled
    to [len]; if it fails (only when growing) nothing changes. *)
Theorem tmpfs_set_len_exact ino len s rc s' :
  fs_data_ok s -> in_inodes ino -> i_used (inode_at s ino) = true -> 0 <= len ->
  (len <= i_size (inode_at s ino) -> len <= 0xFFFF0000) ->
  tmpfs_set_len ino len s = (rc, s') ->
  let f := file_bytes (inode_at s ino) in
  fs_data_ok s' /\ names_kept ino s s' /\
  (forall j, in_inodes j -> j <> ino -> inode_at s' j = inode_at s j) /\
  ((rc = 0 /\ file_bytes (inode_at s' ino) = ztake len (padded f len)) \/
   (rc = - ENOSPC /\ zlen f < len /\ file_bytes (inode_at s' ino) = f)).
Proof.
  intros Hfs Hi Hu Hl Hsm Hs f. pose proof Hfs as [Hok Htl].
  pose proof (is_size _ (d_shape s Hok ino Hi)) as Hn.
  assert (zlen f = i_size (inode_at s ino)) as Hfl by (apply zlen_file; lia).
  destruct (tmpfs_set_len_spec ino len s rc s' Hfs Hi Hu Hl Hsm Hs) as (Hfs' & Hno & Hoth & Hcase).
  split_and!; try done. destruct Hcase as [(-> & Hlt & Hsize & Hby) | (-> & Hsize & Hby)]; [right | left].
  - split_and!; try done; try lia. apply file_ext; [lia | lia |]. intros i Hi'. rewrite Hby by lia.
    unfold f. by rewrite zget_file by lia.
  - split; [done|]. apply file_ext; [lia | rewrite zlen_ztake, zlen_padded; lia |].
    intros i Hi'. rewrite Hby, zget_ztake, zget_padded by lia. case_decide.
    + unfold f. by rewrite zget_file by lia.
    + apply (Htl ino Hi). lia.
Qed.

(** [tmpfs_shrink] computes the number of chunks to keep in 32 bits, and the
    sum wraps for lengths above 0xFFFF0000: the file keeps its new length and
    loses every byte. *)
Theorem tmpfs_shrink_wraps ino len s off :
  data_ok s -> in_inodes ino -> 0xFFFF0000 < len < 2 ^ 32 -> 0 <= off ->
  byte_at (inode_at (tmpfs_shrink ino len s) ino) off = 0.
Proof.
  intros Hok Hi Hlen Ho. unfold tmpfs_shrink. set (n := inode_at s ino).
  assert ((len +32 (TMPFS_CHUNK - 1)) / TMPFS_CHUNK = 0) as ->.
  { unfold u32, TMPFS_CHUNK. replace ((len + (65536 - 1)) mod 2 ^ 32) with (len + 65535 - 2 ^ 32).
    - apply Z.div_small. lia.
    - symmetry. rewrite <- (Z.mod_add _ (-1)) by lia. rewrite Z.mod_small; lia. }
  pose proof (d_shape s Hok ino Hi) as Hsh. pose proof (d_limit s Hok). pose proof (d_used s Hok).
  pose proof (sum_chunks_ge (inodes s) ino ltac:(rewrite (d_len s Hok); exact Hi)) as Hge. fold (inode_at s ino) n in Hge.
  pose proof (shrink_loop 0 (t_heap s) (tmpfs_used_bytes s) (i_slots n) ltac:(lia) (is_slots _ Hsh)
    ltac:(unfold TMPFS_CHUNK in *; lia)) as Hloop.
  destruct (zfor _ _ _ _) as [[h u] sl]. destruct Hloop as (_ & _ & _ & _ & Hg).
  cbn [negb andb Z.eqb]. rewrite andb_false_r. cbn [andb].
  rewrite inode_at_upd, decide_True by (done || apply (d_len s Hok)).
  unfold byte_at, slot_byte. cbn [i_slots set_slots].
  pose proof (Z.div_pos off TMPFS_CHUNK Ho ltac:(done)). rewrite Hg by done. by rewrite decide_True.
Qed.
End theorems.
