(* ===== verification/TmpfsTree.v ===== *)
(** * tmpfs: the name space

    The directory tree of src/tmpfs.c: every entry hangs off the root through
    directories, names are unique in their directory, link counts are exact,
    and an inode lives exactly as long as an entry or an open handle refers to
    it.  The operations that change names keep these facts; the one exception
    is stated as a theorem of its own. *)
From S2P Require Import Prelude Paths Heap Tmpfs TmpfsData.

Section tree.
Context {H : Type} `{!KHeap H}.
Implicit Types (s : tmpfs H) (i j p x : Z).

Abbreviation N := (Z.to_nat TMPFS_MAX_NODES) (only parsing).

(** ** Invariant *)

Definition used s i : bool := n_used (node_at s i).
Definition parent s i : Z := n_parent (node_at s i).
Definition ino_of s i : Z := n_ino (node_at s i).
Definition dir_mode (n : inode) : bool := Z.land (i_mode n) T_IFMT =? T_IFDIR.
Definition links s x : Z := zcount N (fun i => used s i && (ino_of s i =? x)).
Definition name_ok (name : cstr) : Prop := 0 < zlen name < TMPFS_MAX_NAME /\ 47 ∉ name.

Record tree_ok s : Prop := {
  tr_nodes : zlen (nodes s) = TMPFS_MAX_NODES;
  tr_inodes : zlen (inodes s) = TMPFS_MAX_NODES;
  tr_ready : tmpfs_ready s = true;
  tr_root : used s 0 = true /\ parent s 0 = -1 /\ ino_of s 0 = 0 /\ tmpfs_isdir s 0 = true;
  tr_node : forall i, 0 < i < TMPFS_MAX_NODES -> used s i = true ->
    in_inodes (parent s i) /\ used s (parent s i) = true /\ tmpfs_isdir s (parent s i) = true /\
    0 < ino_of s i < TMPFS_MAX_NODES /\ name_ok (n_name (node_at s i));
  tr_names : forall i j, 0 < i < TMPFS_MAX_NODES -> 0 < j < TMPFS_MAX_NODES -> used s i = true -> used s j = true ->
    parent s i = parent s j -> n_name (node_at s i) = n_name (node_at s j) -> i = j;
  tr_depth : exists d : Z -> nat, forall i, 0 < i < TMPFS_MAX_NODES -> used s i = true -> (d (parent s i) < d i)%nat;
  tr_live : forall i, in_inodes i -> used s i = true -> i_used (inode_at s (ino_of s i)) = true;
  tr_links : forall x, 0 < x < TMPFS_MAX_NODES -> i_used (inode_at s x) = true ->
    i_nlink (inode_at s x) = links s x /\ 0 <= i_opens (inode_at s x) /\
    (links s x = 0 -> 0 < i_opens (inode_at s x)) /\ (dir_mode (inode_at s x) = true -> links s x = 1 /\ i_opens (inode_at s x) = 0);
}.

(** What the invariant reads of an inode. *)
Definition same_meta (n n' : inode) : Prop :=
  i_used n' = i_used n /\
  (i_used n = true -> dir_mode n' = dir_mode n /\ i_nlink n' = i_nlink n /\ i_opens n' = i_opens n).

#[global] Instance same_meta_refl : Reflexive same_meta.
Proof. intros n. done. Qed.
#[global] Instance same_meta_trans : Transitive same_meta.
Proof. intros a b c [Ha1 Ha2] [Hb1 Hb2]. split; [congruence|]. intros Hu. destruct (Ha2 Hu) as (? & ? & ?).
  destruct Hb2 as (? & ? & ?); [congruence|]. split_and!; congruence. Qed.

(** The same, and the same contents. *)
Definition same_file (n n' : inode) : Prop :=
  same_meta n n' /\ (i_used n = true -> i_slots n' = i_slots n /\ i_size n' = i_size n).

#[global] Instance same_file_refl : Reflexive same_file.
Proof. intros n. done. Qed.
#[global] Instance same_file_trans : Transitive same_file.
Proof.
  intros a b c [Ha1 Ha2] [Hb1 Hb2]. split; [by etrans|]. intros Hu. destruct (Ha2 Hu) as (<- & <-).
  apply Hb2. by rewrite (proj1 Ha1).
Qed.

Lemma isdir_mode s i : tmpfs_isdir s i = dir_mode (inode_at s (ino_of s i)).
Proof. done. Qed.

Lemma dir_used s i : tree_ok s -> in_inodes i -> used s i = true -> in_inodes (ino_of s i) /\ i_used (inode_at s (ino_of s i)) = true.
Proof.
  intros Hok Hi Hu. split; [|by apply tr_live]. destruct (decide (i = 0)) as [->|].
  - destruct (tr_root s Hok) as (_ & _ & -> & _). unfold in_inodes, TMPFS_MAX_NODES. lia.
  - destruct (tr_node s Hok i) as (_ & _ & _ & ? & _); [unfold in_inodes in *; lia | done |]. unfold in_inodes. lia.
Qed.

(** Changes that the tree does not see. *)
Lemma tree_ext s s' :
  tree_ok s -> nodes s' = nodes s -> zlen (inodes s') = TMPFS_MAX_NODES -> tmpfs_ready s' = true ->
  (forall x, in_inodes x -> same_meta (inode_at s x) (inode_at s' x)) -> tree_ok s'.
Proof.
  intros Hok Hn Hl Hr Hm.
  assert (forall i, node_at s' i = node_at s i) as Hat by (intros; unfold node_at; by rewrite Hn).
  assert (forall i, used s' i = used s i /\ parent s' i = parent s i /\ ino_of s' i = ino_of s i) as Hsame.
  { intros i. unfold used, parent, ino_of. by rewrite Hat. }
  assert (forall i, in_inodes i -> used s i = true -> tmpfs_isdir s' i = tmpfs_isdir s i) as Hdir.
  { intros i Hi Hu. rewrite !isdir_mode. destruct (Hsame i) as (_ & _ & ->).
    destruct (dir_used s i Hok Hi Hu) as [Hx Hux]. by destruct (Hm _ Hx) as [_ Hm2]; destruct (Hm2 Hux). }
  assert (forall x, links s' x = links s x) as Hlinks.
  { intros x. apply zcount_ext. intros i _. by destruct (Hsame i) as (-> & _ & ->). }
  pose proof Hok as [_ _ _ (R1 & R2 & R3 & R4) Hnode Hnames (d & Hd) Hlive Hlnk].
  split; try done.
  - rewrite Hn. apply Hok.
  - destruct (Hsame 0) as (-> & -> & ->). rewrite Hdir by done. done.
  - intros i Hi. destruct (Hsame i) as (-> & -> & ->). rewrite Hat. intros Hu.
    destruct (Hnode i Hi Hu) as (Hp & Hpu & Hpd & ? & ?). destruct (Hsame (parent s i)) as (-> & _ & _).
    rewrite Hdir by done. done.
  - intros i j Hi Hj. destruct (Hsame i) as (-> & -> & _), (Hsame j) as (-> & -> & _). rewrite !Hat. by apply Hnames.
  - exists d. intros i Hi. destruct (Hsame i) as (-> & -> & _). by apply Hd.
  - intros i Hi. destruct (Hsame i) as (-> & _ & ->). intros Hu. destruct (dir_used s i Hok Hi Hu) as [Hx Hux].
    destruct (Hm _ Hx) as [-> _]. done.
  - intros x Hx. destruct (Hm x) as [-> Hm2]; [unfold in_inodes; lia|]. intros Hu. rewrite Hlinks.
    destruct (Hm2 Hu) as (-> & -> & ->). by apply Hlnk.
Qed.

(** ** The three changes of the tree: a new entry, an entry gone, an entry moved *)

Lemma links_change s s' i x :
  in_inodes i -> (forall j, in_inodes j -> j <> i -> node_at s' j = node_at s j) ->
  links s' x = links s x - (if used s i && (ino_of s i =? x) then 1 else 0)
                         + (if used s' i && (ino_of s' i =? x) then 1 else 0).
Proof.
  intros Hi Hoth. unfold links. apply (zcount_change N (fun i => used s i && (ino_of s i =? x)) (fun i => used s' i && (ino_of s' i =? x)) i); [done|].
  intros j Hj Hne. unfold used, ino_of. by rewrite Hoth.
Qed.

Lemma links_unused s x : tree_ok s -> i_used (inode_at s x) = false -> links s x = 0.
Proof.
  intros Hok Hx. pose proof (zcount_bounds N (fun i => used s i && (ino_of s i =? x))) as Hb.
  destruct (decide (links s x = 0)) as [|Hne]; [done|]. exfalso. apply Hne. unfold links.
  assert (zcount N (fun i => used s i && (ino_of s i =? x)) = zcount N (fun _ => false)) as ->.
  { apply zcount_ext. intros i Hi. destruct (used s i) eqn:Hu; [|done]. cbn.
    apply Z.eqb_neq. intros <-. pose proof (tr_live s Hok i Hi Hu). congruence. }
  by vm_compute.
Qed.

Lemma links_pos s i : in_inodes i -> used s i = true -> 1 <= links s (ino_of s i).
Proof. intros Hi Hu. apply (zcount_pos N _ i); [done|]. by rewrite Hu, Z.eqb_refl. Qed.

Lemma links_bound s x : 0 <= links s x <= TMPFS_MAX_NODES.
Proof. apply zcount_bounds. Qed.

Lemma links_nodes s s' x : nodes s' = nodes s -> links s' x = links s x.
Proof. intros E. apply zcount_ext. intros i _. unfold used, ino_of, node_at. by rewrite E. Qed.

Lemma links_one s x i j : links s x = 1 -> in_inodes i -> in_inodes j -> used s i = true -> used s j = true ->
  ino_of s i = x -> ino_of s j = x -> i = j.
Proof.
  unfold links. intros H1 Hi Hj Ui Uj Ei Ej.
  refine (zcount_one N (fun i => used s i && (ino_of s i =? x)) i j H1 Hi Hj _ _); cbv beta; apply andb_true_iff;
    (split; [assumption | apply Z.eqb_eq; assumption]).
Qed.

#[local] Opaque links.

(** A frame: outside entry [i] and inode [x] the two states agree. *)
Record frame s s' i x : Prop := {
  fr_nodes : zlen (nodes s') = TMPFS_MAX_NODES;
  fr_inodes : zlen (inodes s') = TMPFS_MAX_NODES;
  fr_ready : tmpfs_ready s' = true;
  fr_node : forall j, in_inodes j -> j <> i -> node_at s' j = node_at s j;
  fr_inode : forall y, in_inodes y -> y <> x -> same_meta (inode_at s y) (inode_at s' y);
}.

(** The other entries that name [x] still find it, as the same kind of file. *)
Definition shared s s' i x : Prop := forall j, in_inodes j -> j <> i -> used s j = true -> ino_of s j = x ->
  i_used (inode_at s' x) = true /\ dir_mode (inode_at s' x) = dir_mode (inode_at s x).

Lemma frame_used s s' i x j : frame s s' i x -> in_inodes j -> j <> i ->
  used s' j = used s j /\ parent s' j = parent s j /\ ino_of s' j = ino_of s j /\ n_name (node_at s' j) = n_name (node_at s j).
Proof. intros Hf Hj Hne. unfold used, parent, ino_of. by rewrite (fr_node _ _ _ _ Hf). Qed.

Lemma frame_inode s s' i x j : tree_ok s -> frame s s' i x -> shared s s' i x -> in_inodes j -> j <> i -> used s j = true ->
  i_used (inode_at s' (ino_of s j)) = true /\ tmpfs_isdir s' j = tmpfs_isdir s j.
Proof.
  intros Hok Hf Hs Hj Hne Hu. rewrite !isdir_mode. destruct (frame_used _ _ _ _ _ Hf Hj Hne) as (_ & _ & -> & _).
  destruct (dir_used s j Hok Hj Hu) as [Hi Hiu].
  destruct (decide (ino_of s j = x)) as [He|He]; [destruct (Hs j); auto; by rewrite He|].
  destruct (fr_inode _ _ _ _ Hf _ Hi He) as [-> Hm]. by destruct (Hm Hiu).
Qed.

(** What a used entry [i] of the new state needs; and what inode [x] needs. *)
Definition entry_ok s s' i x : Prop :=
  used s' i = true ->
  in_inodes (parent s' i) /\ parent s' i <> i /\ used s (parent s' i) = true /\ tmpfs_isdir s (parent s' i) = true /\
  ino_of s' i = x /\ 0 < x < TMPFS_MAX_NODES /\ i_used (inode_at s' x) = true /\ name_ok (n_name (node_at s' i)) /\
  (forall j, 0 < j < TMPFS_MAX_NODES -> j <> i -> used s j = true -> parent s j = parent s' i ->
     n_name (node_at s j) <> n_name (node_at s' i)).
Definition inode_ok s' x : Prop :=
  i_used (inode_at s' x) = true ->
  i_nlink (inode_at s' x) = links s' x /\ 0 <= i_opens (inode_at s' x) /\
  (links s' x = 0 -> 0 < i_opens (inode_at s' x)) /\ (dir_mode (inode_at s' x) = true -> links s' x = 1 /\ i_opens (inode_at s' x) = 0).

(** One entry and one inode change at a time. *)
Lemma tree_step s s' i x :
  tree_ok s -> 0 < i < TMPFS_MAX_NODES -> frame s s' i x -> shared s s' i x -> entry_ok s s' i x -> inode_ok s' x ->
  (forall y, y <> x -> in_inodes y -> links s' y = links s y) ->
  (forall j, 0 < j < TMPFS_MAX_NODES -> j <> i -> used s j = true -> parent s j = i -> used s' i = true /\ tmpfs_isdir s' i = true) ->
  (exists d : Z -> nat, forall j, 0 < j < TMPFS_MAX_NODES -> used s' j = true -> (d (parent s' j) < d j)%nat) ->
  tree_ok s'.
Proof.
  intros Hok Hi Hf Hs He Hx Hl Hk Hd.
  assert (forall j, 0 < j < TMPFS_MAX_NODES -> in_inodes j) as Hin by (unfold in_inodes; lia).
  pose proof Hok as [_ _ _ (R1 & R2 & R3 & R4) Hnode Hnames _ Hlive Hlnk].
  assert (in_inodes 0 /\ 0 <> i) as [H0 H0i] by (unfold in_inodes, TMPFS_MAX_NODES; lia).
  split; try apply Hf; try done.
  - destruct (frame_used _ _ _ _ _ Hf H0 H0i) as (-> & -> & -> & _).
    destruct (frame_inode _ _ _ _ _ Hok Hf Hs H0 H0i R1) as [_ ->]. done.
  - intros j Hj Hu. destruct (decide (j = i)) as [->|Hne].
    + destruct (He Hu) as (A & B & C & D & E & F & G & I & J). rewrite E.
      destruct (frame_used _ _ _ _ _ Hf A B) as (-> & _). destruct (frame_inode _ _ _ _ _ Hok Hf Hs A B C) as [_ ->]. done.
    + destruct (frame_used _ _ _ _ _ Hf (Hin j Hj) Hne) as (E & -> & -> & ->). rewrite E in Hu.
      destruct (Hnode j Hj Hu) as (A & B & C & D). split; [done|]. destruct (decide (parent s j = i)) as [Hp|Hp].
      * rewrite Hp. by destruct (Hk j Hj Hne Hu Hp).
      * destruct (frame_used _ _ _ _ _ Hf A Hp) as (-> & _). by destruct (frame_inode _ _ _ _ _ Hok Hf Hs A Hp B) as [_ ->].
  - intros j k Hj Hk' Huj Huk Hpp Hnn.
    destruct (decide (j = i)) as [->|Hnj], (decide (k = i)) as [->|Hnk]; [done|..].
    + destruct (frame_used _ _ _ _ _ Hf (Hin k Hk') Hnk) as (E1 & E2 & _ & E4). destruct (He Huj) as (_ & _ & _ & _ & _ & _ & _ & _ & J).
      destruct (J k Hk' Hnk); congruence.
    + destruct (frame_used _ _ _ _ _ Hf (Hin j Hj) Hnj) as (E1 & E2 & _ & E4). destruct (He Huk) as (_ & _ & _ & _ & _ & _ & _ & _ & J).
      destruct (J j Hj Hnj); congruence.
    + destruct (frame_used _ _ _ _ _ Hf (Hin j Hj) Hnj) as (? & ? & _ & ?), (frame_used _ _ _ _ _ Hf (Hin k Hk') Hnk) as (? & ? & _ & ?).
      apply Hnames; congruence.
  - intros j Hj Hu. destruct (decide (j = i)) as [->|Hne]; [by destruct (He Hu) as (_ & _ & _ & _ & -> & _ & ? & _)|].
    destruct (frame_used _ _ _ _ _ Hf Hj Hne) as (E & _ & -> & _). rewrite E in Hu. by apply (frame_inode s s' i x).
  - intros y Hy Hyu. destruct (decide (y = x)) as [->|Hne]; [by apply Hx|]. rewrite Hl by auto.
    destruct (fr_inode _ _ _ _ Hf y (Hin y Hy) Hne) as [E1 E2].
    rewrite E1 in Hyu. destruct (E2 Hyu) as (-> & -> & ->). by apply Hlnk.
Qed.

Lemma tree_add s s' i p x name :
  tree_ok s -> 0 < i < TMPFS_MAX_NODES -> used s i = false ->
  in_inodes p -> used s p = true -> tmpfs_isdir s p = true -> name_ok name ->
  (forall j, 0 < j < TMPFS_MAX_NODES -> used s j = true -> parent s j = p -> n_name (node_at s j) <> name) ->
  0 < x < TMPFS_MAX_NODES -> frame s s' i x -> node_at s' i = mk_node true p x name ->
  i_used (inode_at s' x) = true -> i_nlink (inode_at s' x) = links s x + 1 -> 0 <= i_opens (inode_at s' x) ->
  (dir_mode (inode_at s' x) = true -> i_opens (inode_at s' x) = 0) ->
  (i_used (inode_at s x) = true -> dir_mode (inode_at s x) = false /\ dir_mode (inode_at s' x) = false) ->
  tree_ok s'.
Proof.
  intros Hok Hi Hfree Hp Hpu Hpd Hname Hfresh Hx Hf Hnew Hxu Hxn Hxo Hxz Hxd.
  assert (in_inodes i) as Hii by (unfold in_inodes in *; lia).
  assert (used s' i = true /\ parent s' i = p /\ ino_of s' i = x) as (U1 & U2 & U3).
  { unfold used, parent, ino_of. by rewrite Hnew. }
  assert (p <> i) as Hpi by (intros ->; congruence).
  assert (forall y, links s' y = links s y + if x =? y then 1 else 0) as Hlk.
  { intros y. rewrite (links_change s s' i y Hii (fr_node _ _ _ _ Hf)), Hfree, U1, U3. cbn. lia. }
  apply (tree_step s s' i x); try done.
  - intros j Hj _ Hu Hjx. destruct (dir_used s j Hok Hj Hu) as [_ Hju]. rewrite Hjx in Hju. destruct (Hxd Hju). split; congruence.
  - intros _. rewrite U2, U3, Hnew. cbn. split_and!; try done; try lia. intros j Hj _. by apply Hfresh.
  - intros _. rewrite Hlk, Z.eqb_refl. pose proof (links_bound s x). split_and!; try lia. intros Hdm.
    destruct (i_used (inode_at s x)) eqn:E; [by destruct (Hxd eq_refl); congruence|]. rewrite links_unused by done. auto.
  - intros y Hy _. rewrite Hlk, (proj2 (Z.eqb_neq x y)) by done. lia.
  - intros j Hj Hne Hu Hpj. destruct (tr_node s Hok j Hj Hu) as (_ & B & _). rewrite Hpj in B. congruence.
  - destruct (tr_depth s Hok) as (d & Hd).
    exists (fun j => if j =? i then S (d p) else d j). intros j Hj Hu. destruct (decide (j = i)) as [->|Hne].
    + rewrite U2, Z.eqb_refl, (proj2 (Z.eqb_neq p i)) by done. lia.
    + destruct (frame_used _ _ _ _ j Hf ltac:(unfold in_inodes; lia) Hne) as (E & -> & _). rewrite E in Hu.
      rewrite (proj2 (Z.eqb_neq j i)) by done. destruct (tr_node s Hok j Hj Hu) as (A & B & _).
      rewrite (proj2 (Z.eqb_neq _ i)); [by apply Hd|]. intros Ep. rewrite Ep in B. congruence.
Qed.

Lemma tree_drop s s' i x :
  tree_ok s -> 0 < i < TMPFS_MAX_NODES -> used s i = true -> x = ino_of s i ->
  (forall j, 0 < j < TMPFS_MAX_NODES -> used s j = true -> parent s j <> i) ->
  frame s s' i x -> used s' i = false ->
  (i_used (inode_at s' x) = true ->
     dir_mode (inode_at s' x) = dir_mode (inode_at s x) /\ i_nlink (inode_at s' x) = links s x - 1 /\
     i_opens (inode_at s' x) = i_opens (inode_at s x) /\ (links s x = 1 -> 0 < i_opens (inode_at s x))) ->
  (i_used (inode_at s' x) = false -> links s x = 1) -> tree_ok s'.
Proof.
  intros Hok Hi Hu Hx Hkids Hf Hu' Hxu Hxf.
  assert (in_inodes i) as Hii by (unfold in_inodes in *; lia).
  assert (forall y, links s' y = links s y - if x =? y then 1 else 0) as Hlk.
  { intros y. rewrite (links_change s s' i y Hii (fr_node _ _ _ _ Hf)), Hu, Hu', <- Hx. cbn. lia. }
  destruct (tr_node s Hok i Hi Hu) as (_ & _ & _ & Hxr & _). rewrite <- Hx in Hxr.
  assert (i_used (inode_at s x) = true) as Hxs by (rewrite Hx; by apply tr_live).
  destruct (tr_links s Hok x Hxr Hxs) as (L1 & L2 & L3 & L4).
  assert (1 <= links s x) as Hpos by (rewrite Hx; by apply links_pos).
  apply (tree_step s s' i x); try assumption.
  - intros j Hj Hne Huj Hjx. destruct (i_used (inode_at s' x)) eqn:E; [by destruct (Hxu eq_refl)|].
    destruct Hne. apply (links_one s x); auto.
  - intros E. congruence.
  - intros E. destruct (Hxu E) as (D1 & D2 & D3 & D4). rewrite Hlk, Z.eqb_refl, D1, D2, D3.
    split_and!; try lia. intros Hdm. specialize (L4 Hdm). lia.
  - intros y Hy _. rewrite Hlk, (proj2 (Z.eqb_neq x y)) by done. lia.
  - intros j Hj Hne Huj Hpj. by destruct (Hkids j Hj Huj).
  - destruct (tr_depth s Hok) as (d & Hd). exists d. intros j Hj Huj. destruct (decide (j = i)) as [->|Hne]; [congruence|].
    destruct (frame_used _ _ _ _ j Hf ltac:(unfold in_inodes; lia) Hne) as (E & -> & _). rewrite E in Huj. by apply Hd.
Qed.

(** ** Ancestors *)

Fixpoint up s (k : nat) (a : Z) : option Z :=
  match k with
  | O => Some a
  | S k => if a <=? 0 then None else up s k (parent s a)
  end.

Lemma up_in s k a b : tree_ok s -> in_inodes a -> used s a = true -> up s k a = Some b -> in_inodes b /\ used s b = true.
Proof.
  intros Hok. revert a. induction k as [|k IH]; cbn; intros a Ha Hu E; [by simplify_eq|].
  destruct (Z.leb_spec a 0); [done|]. destruct (tr_node s Hok a) as (? & ? & _); [unfold in_inodes in *; lia | done |]. eauto.
Qed.

Lemma up_chain s (d : Z -> nat) k a b :
  tree_ok s -> (forall i, 0 < i < TMPFS_MAX_NODES -> used s i = true -> (d (parent s i) < d i)%nat) ->
  in_inodes a -> used s a = true -> up s k a = Some b ->
  exists l, length l = S k /\ NoDup l /\ forall y, y ∈ l -> in_inodes y /\ (d y <= d a)%nat.
Proof.
  intros Hok Hd. revert a. induction k as [|k IH]; cbn; intros a Ha Hu E.
  - exists [a]. split_and!; [done | apply NoDup_singleton |]. intros y ->%list_elem_of_singleton. done.
  - destruct (Z.leb_spec a 0); [done|]. assert (0 < a < TMPFS_MAX_NODES) as Ha' by (unfold in_inodes in *; lia).
    destruct (tr_node s Hok a Ha' Hu) as (Hp & Hpu & _). destruct (IH _ Hp Hpu E) as (l & Hl & Hnd & Hin).
    specialize (Hd a Ha' Hu). exists (a :: l). split_and!; [cbn; lia | |].
    + apply NoDup_cons. split; [|done]. intros Hal. destruct (Hin a Hal). lia.
    + intros y [->|Hy]%elem_of_cons; [done|]. destruct (Hin y Hy). split; [done | lia].
Qed.

(** No path to the root is longer than the table. *)
Lemma up_short s k a b : tree_ok s -> in_inodes a -> used s a = true -> up s k a = Some b -> (k < N)%nat.
Proof.
  intros Hok Ha Hu E. destruct (tr_depth s Hok) as (d & Hd). destruct (up_chain s d k a b) as (l & Hl & Hnd & Hin); try done.
  assert (l ⊆+ seqZ 0 TMPFS_MAX_NODES) as Hs.
  { apply NoDup_submseteq; [done|]. intros y Hy%Hin. apply elem_of_seqZ. unfold in_inodes in Hy. lia. }
  apply submseteq_length in Hs. rewrite length_seqZ in Hs. lia.
Qed.

Lemma is_ancestor_up s fuel src a : tree_ok s -> in_inodes a -> used s a = true -> 0 <= src ->
  is_ancestor fuel src a s = true <-> exists k, (k < fuel)%nat /\ up s k a = Some src.
Proof.
  intros Hok. revert a. induction fuel as [|fuel IH]; cbn [is_ancestor]; intros a Ha Hu Hsrc.
  { split; [done | intros (k & ? & _); lia]. }
  destruct (Z.ltb_spec a 0); [unfold in_inodes in *; lia|]. destruct (Z.eqb_spec a src) as [->|Hne].
  { split; [|done]. intros _. exists O. split; [lia | done]. }
  destruct (decide (a = 0)) as [->|Hpos].
  - destruct (tr_root s Hok) as (_ & Hr & _). unfold parent in Hr. rewrite Hr. split.
    + destruct fuel; cbn; done.
    + intros ([|k] & ? & E); cbn in E; simplify_eq.
  - destruct (tr_node s Hok a) as (Hp & Hpu & _); [unfold in_inodes in *; lia | done |].
    unfold parent in Hp, Hpu. rewrite (IH _ Hp Hpu Hsrc). split.
    + intros (k & Hk & E). exists (S k). split; [lia|]. cbn. rewrite (proj2 (Z.leb_gt a 0)) by lia. done.
    + intros ([|k] & Hk & E); cbn in E; [congruence|]. rewrite (proj2 (Z.leb_gt a 0)) in E by lia. exists k. split; [lia | done].
Qed.

Definition below s src a : Prop := exists k, up s k a = Some src.

(** The walk of [tmpfs_rename] decides the relation: its bound loses nothing. *)
Lemma is_ancestor_below s src a : tree_ok s -> in_inodes a -> used s a = true -> 0 <= src ->
  is_ancestor N src a s = true <-> below s src a.
Proof.
  intros Hok Ha Hu Hs. rewrite is_ancestor_up by done. split; [intros (k & _ & E); by exists k|].
  intros (k & E). exists k. split; [by eapply up_short | done].
Qed.

Lemma below_refl s a : below s a a.
Proof. by exists O. Qed.
Lemma below_parent s src a : 0 < a -> below s src (parent s a) -> below s src a.
Proof. intros Ha (k & E). exists (S k). cbn. by rewrite (proj2 (Z.leb_gt a 0)). Qed.
Lemma below_up s src a : 0 < a -> a <> src -> below s src a -> below s src (parent s a).
Proof.
  intros Ha Hne ([|k] & E); cbn in E; [congruence|]. rewrite (proj2 (Z.leb_gt a 0)) in E by done. by exists k.
Qed.

Lemma tree_move s s' i p name :
  tree_ok s -> 0 < i < TMPFS_MAX_NODES -> used s i = true ->
  in_inodes p -> used s p = true -> tmpfs_isdir s p = true -> name_ok name -> ~ below s i p ->
  (forall j, 0 < j < TMPFS_MAX_NODES -> j <> i -> used s j = true -> parent s j = p -> n_name (node_at s j) <> name) ->
  frame s s' i (ino_of s i) -> same_meta (inode_at s (ino_of s i)) (inode_at s' (ino_of s i)) ->
  node_at s' i = mk_node true p (ino_of s i) name -> tree_ok s'.
Proof.
  intros Hok Hi Hu Hp Hpu Hpd Hname Hnb Hfresh Hf Hm Hnew.
  assert (in_inodes i) as Hii by (unfold in_inodes in *; lia).
  assert (used s' i = true /\ parent s' i = p /\ ino_of s' i = ino_of s i) as (U1 & U2 & U3).
  { unfold used, parent, ino_of. by rewrite Hnew. }
  assert (p <> i) as Hpi by (intros ->; apply Hnb, below_refl).
  assert (forall y, links s' y = links s y) as Hlk.
  { intros y. rewrite (links_change s s' i y Hii (fr_node _ _ _ _ Hf)), Hu, U1, U3. lia. }
  destruct (tr_node s Hok i Hi Hu) as (_ & _ & _ & Hxr & _).
  assert (i_used (inode_at s (ino_of s i)) = true) as Hxs by (by apply tr_live).
  destruct Hm as [M1 M2], (M2 Hxs) as (M3 & M4 & M5). rewrite Hxs in M1.
  apply (tree_step s s' i (ino_of s i)); try assumption.
  - intros j _ _ _ _. done.
  - intros _. rewrite U2, U3, Hnew. cbn. split_and!; done || lia.
  - intros _. rewrite Hlk, M3, M4, M5. by apply tr_links.
  - intros y _ _. apply Hlk.
  - intros j Hj Hne Huj Hpj. split; [done|]. destruct (tr_node s Hok j Hj Huj) as (_ & _ & C & _). rewrite Hpj in C.
    rewrite isdir_mode, U3, M3. done.
  - destruct (tr_depth s Hok) as (d & Hd).
    exists (fun j => if is_ancestor N i j s then d j + d p + 1 else d j)%nat. intros j Hj Huj.
    assert (forall a, in_inodes a -> used s a = true -> ~ below s i a -> is_ancestor N i a s = false) as Hno.
    { intros a Ha Hau Hb. apply not_true_iff_false. by rewrite is_ancestor_below by (done || lia). }
    destruct (decide (j = i)) as [->|Hne].
    + rewrite U2, (Hno p) by done. rewrite (proj2 (is_ancestor_below s i i Hok Hii Hu ltac:(lia))); [lia | apply below_refl].
    + destruct (frame_used _ _ _ _ j Hf ltac:(unfold in_inodes; lia) Hne) as (E & -> & _). rewrite E in Huj.
      destruct (tr_node s Hok j Hj Huj) as (A & B & _). specialize (Hd j Hj Huj).
      destruct (is_ancestor N i j s) eqn:Ej.
      * case_match; lia.
      * rewrite Hno; [lia | done | done |]. intros Hb%below_parent; [|lia].
        apply is_ancestor_below in Hb; [congruence | done | unfold in_inodes; lia | done | lia].
Qed.

(** ** Inodes come and go *)

Definition fs_ok s : Prop := tree_ok s /\ fs_data_ok s.

(** Outside inode [x] and the heap nothing changes. *)
Record inode_only x s s' : Prop := {
  io_nodes : nodes s' = nodes s;
  io_ready : tmpfs_ready s' = tmpfs_ready s;
  io_other : forall y, in_inodes y -> y <> x -> inode_at s' y = inode_at s y;
}.

Lemma inode_only_trans x s1 s2 s3 : inode_only x s1 s2 -> inode_only x s2 s3 -> inode_only x s1 s3.
Proof. intros [? ? Ho1] [? ? Ho2]. split; [congruence.. |]. intros y Hy Hne. by rewrite Ho2, Ho1. Qed.

Lemma tail_zero_nil n : i_slots n = [] -> tail_zero n.
Proof. intros E off _. unfold byte_at, slot_byte. rewrite E. unfold zget. by destruct (Z.to_nat (off / TMPFS_CHUNK)). Qed.

Lemma data_set s x n :
  fs_data_ok s -> in_inodes x -> inode_shape n -> tail_zero n -> i_slots n = i_slots (inode_at s x) ->
  fs_data_ok (set_inode x n s) /\ inode_only x s (set_inode x n s) /\ inode_at (set_inode x n s) x = n.
Proof.
  intros [Hok Htl] Hx Hsh Ht Esl. pose proof (d_len s Hok) as Hl.
  assert (forall j, in_inodes j -> inode_at (set_inode x n s) j = if decide (j = x) then n else inode_at s j) as Hat
    by (intros; by apply inode_at_set).
  split_and!; [split; [split|]|split|]; cbn; try done.
  - by rewrite zlen_zset.
  - intros j Hj. rewrite Hat by done. case_decide; [done | by apply Hok].
  - rewrite sum_chunks_zset by (unfold in_inodes in Hx; lia). rewrite Esl, (d_used s Hok). unfold inode_at. lia.
  - apply Hok.
  - intros j Hj. rewrite Hat by done. case_decide; [done | by apply Htl].
  - intros y Hy Hne. by rewrite Hat, decide_False.
  - by rewrite Hat, decide_True.
Qed.

(** An attribute update: contents and use stay. *)
Lemma data_attr s x f :
  fs_data_ok s -> in_inodes x ->
  (forall n, i_slots (f n) = i_slots n /\ i_chunks (f n) = i_chunks n /\ i_used (f n) = i_used n /\ i_size (f n) = i_size n) ->
  fs_data_ok (upd_inode x f s) /\ inode_only x s (upd_inode x f s) /\ inode_at (upd_inode x f s) x = f (inode_at s x).
Proof.
  intros Hfs Hx Hf. pose proof Hfs as [Hok Htl]. destruct (Hf (inode_at s x)) as (E1 & E2 & E3 & E4).
  apply data_set; [done | done | | |done].
  - destruct (d_shape s Hok x Hx). split; rewrite ?E1, ?E2, ?E3, ?E4; done.
  - intros off Hoff. unfold byte_at. rewrite E1. apply (Htl x Hx). lia.
Qed.

Lemma free_chunks h u sl : TMPFS_CHUNK * count_chunks sl <= u < 2 ^ 64 ->
  (foldl free_chunk (h, u) sl).2 = u - TMPFS_CHUNK * count_chunks sl.
Proof.
  revert h u. induction sl as [|c sl IH]; intros h u Hu; [by rewrite Z.sub_0_r|].
  rewrite count_chunks_cons in *. pose proof (count_chunks_bounds sl). cbn [foldl]. destruct c as [[p d]|]; cbn.
  - rewrite u64_small by (unfold TMPFS_CHUNK in *; cbn in *; lia). rewrite IH; cbn in *; unfold TMPFS_CHUNK in *; lia.
  - rewrite IH; cbn in *; lia.
Qed.

Lemma free_data_ok s x : fs_data_ok s -> in_inodes x ->
  let s' := tmpfs_free_data x s in
  fs_data_ok s' /\ data_only x s s' /\ inode_at s' x = set_slots 0 [] (inode_at s x).
Proof.
  intros [Hok Htl] Hx s'. pose proof (d_shape s Hok x Hx) as Hsh. pose proof (d_limit s Hok). pose proof (d_used s Hok).
  pose proof (sum_chunks_ge (inodes s) x ltac:(rewrite (d_len s Hok); exact Hx)) as Hge. fold (inode_at s x) in Hge.
  assert (exists h u, s' = upd_inode x (set_slots 0 []) (set_mem h u s) /\
            u = tmpfs_used_bytes s - TMPFS_CHUNK * count_chunks (i_slots (inode_at s x))) as (h & u & Es & Eu).
  { unfold s', tmpfs_free_data. destruct (Z.eqb_spec (i_chunks (inode_at s x)) 0) as [Ez|].
    - exists (t_heap s), (tmpfs_used_bytes s). rewrite (is_table _ Hsh Ez). split; [by destruct s|]. cbn. lia.
    - pose proof (free_chunks (t_heap s) (tmpfs_used_bytes s) (i_slots (inode_at s x)) ltac:(unfold TMPFS_CHUNK in *; lia)) as Hf.
      destruct (foldl _ _ _) as [h u]. exists (hp_kfree (i_chunks (inode_at s x)) h), u. done. }
  pose proof (count_chunks_bounds (i_slots (inode_at s x))).
  destruct (set_slots_ok x 0 [] h u s Hok Hx) as (Hok' & Hdo & Hself); [by intros ? ? []%elem_of_nil|done|done|done|cbn; lia|unfold TMPFS_CHUNK in *; lia|].
  rewrite <- Es in Hok', Hdo, Hself. split_and!; [split; [done|]|done|done].
  intros j Hj. destruct (decide (j = x)) as [->|Hne].
  - rewrite Hself. by apply tail_zero_nil.
  - rewrite (do_other _ _ _ Hdo) by done. by apply Htl.
Qed.

Lemma data_heap s h : fs_data_ok s -> fs_data_ok (set_heap h s).
Proof. intros [[? ? ? ?] Htl]. split; [split|]; done. Qed.

Lemma zero_shape : inode_shape zero_inode.
Proof. split; try done. by intros ? ? []%elem_of_nil. Qed.

Definition put_gone (n : inode) : bool := i_used n && (i_nlink n =? 0) && (i_opens n =? 0).

Lemma put_inode_ok s x : fs_data_ok s -> 0 < x < TMPFS_MAX_NODES ->
  let s' := tmpfs_put_inode x s in
  fs_data_ok s' /\ inode_only x s s' /\
  inode_at s' x = if put_gone (inode_at s x) then zero_inode else inode_at s x.
Proof.
  intros Hfs Hx s'. assert (in_inodes x) as Hxi by (unfold in_inodes; lia).
  unfold s', tmpfs_put_inode, put_gone. rewrite (proj2 (Z.leb_gt x 0)) by lia.
  destruct (i_used (inode_at s x)), (i_nlink (inode_at s x) =? 0), (i_opens (inode_at s x) =? 0); try done.
  cbn [orb negb andb]. destruct (free_data_ok s x Hfs Hxi) as (Hfs1 & Hdo & Hself).
  set (s1 := tmpfs_free_data x s) in *.
  set (s2 := match i_target (inode_at s x) with Some (p, _) => _ | None => s1 end).
  assert (fs_data_ok s2 /\ nodes s2 = nodes s1 /\ tmpfs_ready s2 = tmpfs_ready s1 /\ forall y, inode_at s2 y = inode_at s1 y)
    as (Hfs2 & En2 & Er2 & Ei2).
  { unfold s2. destruct (i_target _) as [[p t]|]; [|done]. split_and!; try done. by apply data_heap. }
  destruct (data_set s2 x zero_inode Hfs2 Hxi zero_shape) as (Hfs3 & Hio & Hself3).
  { by apply tail_zero_nil. }
  { rewrite Ei2, Hself. done. }
  split_and!; [done| |done]. destruct Hio as [? ? Ho]. split.
  - rewrite io_nodes0, En2. apply Hdo.
  - rewrite io_ready0, Er2. apply Hdo.
  - intros y Hy Hne. rewrite Ho, Ei2 by done. by apply Hdo.
Qed.

Lemma node_at_set i n s j : zlen (nodes s) = TMPFS_MAX_NODES -> in_inodes i -> in_inodes j ->
  node_at (set_node i n s) j = if decide (j = i) then n else node_at s j.
Proof.
  unfold in_inodes, node_at, set_node. intros Hl Hi Hj; cbn. case_decide.
  - subst. apply zget_zset_eq. lia.
  - apply zget_zset_ne; lia.
Qed.

Lemma data_node s i n : fs_data_ok s -> fs_data_ok (set_node i n s).
Proof. intros [[? ? ? ?] Htl]. split; [split|]; done. Qed.

(** Nothing changed that the tree reads. *)
Record touched s s' : Prop := {
  to_nodes : nodes s' = nodes s;
  to_ready : tmpfs_ready s' = tmpfs_ready s;
  to_meta : forall y, in_inodes y -> same_file (inode_at s y) (inode_at s' y);
}.

#[global] Instance touched_refl : Reflexive touched.
Proof. intros s. done. Qed.
#[global] Instance touched_trans : Transitive touched.
Proof. intros a b c [? ? M1] [? ? M2]. split; [congruence.. |]. intros y Hy. etrans; eauto. Qed.

Lemma touched_ok s s' : fs_ok s -> touched s s' -> fs_data_ok s' -> fs_ok s'.
Proof.
  intros [Ht _] [Hn Hr Hm] Hfs. split; [|done]. apply (tree_ext s); try done; [apply Hfs | rewrite Hr; apply Ht |]. intros x Hx. by apply Hm.
Qed.

Definition quiet (f : inode -> inode) : Prop := forall n,
  (i_slots (f n) = i_slots n /\ i_chunks (f n) = i_chunks n /\ i_used (f n) = i_used n /\ i_size (f n) = i_size n) /\
  dir_mode (f n) = dir_mode n /\ i_nlink (f n) = i_nlink n /\ i_opens (f n) = i_opens n.

Lemma quiet_mtime t : quiet (set_mtime t).
Proof. done. Qed.
Lemma quiet_ctime t : quiet (set_ctime t).
Proof. done. Qed.

Lemma touch s x f : fs_data_ok s -> in_inodes x -> quiet f ->
  fs_data_ok (upd_inode x f s) /\ touched s (upd_inode x f s).
Proof.
  intros Hfs Hx Hq. destruct (data_attr s x f Hfs Hx) as (H1 & Hio & Hs); [intros n; apply Hq|].
  split; [done|]. destruct Hio. split; try done. intros y Hy. destruct (decide (y = x)) as [->|Hne].
  - rewrite Hs. destruct (Hq (inode_at s x)) as ((? & _ & ? & ?) & ? & ? & ?). split; [split|]; done.
  - by rewrite io_other0.
Qed.

Lemma scan_nodes_spec f :
  match scan_nodes f with
  | Some i => 0 < i < TMPFS_MAX_NODES /\ f i = true /\ forall j, 0 < j < i -> f j = false
  | None => forall j, 0 < j < TMPFS_MAX_NODES -> f j = false
  end.
Proof.
  unfold scan_nodes. pose proof (zfind_spec (Z.to_nat (TMPFS_MAX_NODES - 1)) 1 f) as Hs.
  destruct (zfind _ _ _) as [i|]; unfold TMPFS_MAX_NODES in *.
  - destruct Hs as (? & ? & Hb). split_and!; try done; try lia. intros j Hj. apply Hb. lia.
  - intros j Hj. apply Hs. lia.
Qed.

Lemma kstrncpy_id name : zlen name < TMPFS_MAX_NAME -> kstrncpy name TMPFS_MAX_NAME = name.
Proof. intros Hl. unfold kstrncpy. apply ztake_all. lia. Qed.

Lemma add_node_spec s p name x r s' :
  zlen (nodes s) = TMPFS_MAX_NODES -> fs_data_ok s -> in_inodes p -> used s p = true -> in_inodes (ino_of s p) ->
  zlen name < TMPFS_MAX_NAME -> tmpfs_add_node p name x s = (r, s') ->
  (r = - ENOSPC /\ s' = s /\ forall j, 0 < j < TMPFS_MAX_NODES -> used s j = true) \/
  (0 < r < TMPFS_MAX_NODES /\ used s r = false /\ fs_data_ok s' /\ tmpfs_ready s' = tmpfs_ready s /\
   zlen (nodes s') = TMPFS_MAX_NODES /\ node_at s' r = mk_node true p x name /\
   (forall j, in_inodes j -> j <> r -> node_at s' j = node_at s j) /\
   forall y, in_inodes y -> same_file (inode_at s y) (inode_at s' y)).
Proof.
  intros Hl Hfs Hp Hpu Hpi Hname Hs. unfold tmpfs_add_node, tmpfs_alloc_node, index_or_minus1 in Hs.
  pose proof (scan_nodes_spec (fun i => negb (n_used (node_at s i)))) as Hscan.
  destruct (scan_nodes _) as [i|]; cbn [from_option id] in Hs.
  2:{ left. injection Hs as <- <-. split_and!; try done. intros j Hj. specialize (Hscan j Hj). unfold used. by destruct (n_used _). }
  right. destruct Hscan as (Hi & Hfree & _). apply negb_true_iff in Hfree.
  rewrite (proj2 (Z.ltb_ge i 0)), (proj2 (Z.leb_le 0 p)) in Hs by (unfold in_inodes in Hp; lia).
  rewrite kstrncpy_id in Hs by done. injection Hs as <- <-.
  assert (in_inodes i) as Hii by (unfold in_inodes; lia).
  assert (p <> i) as Hne by (intros ->; unfold used in Hpu; congruence).
  set (s1 := set_node i _ s). replace (n_ino (node_at s1 p)) with (ino_of s p) by (unfold s1; by rewrite node_at_set, decide_False).
  destruct (touch s1 (ino_of s p) (set_mtime (tmpfs_now s1))) as (Hfs' & [Hn' Hr' Hm']);
    [by apply data_node | done | apply quiet_mtime |].
  assert (forall j, node_at (upd_inode (ino_of s p) (set_mtime (tmpfs_now s1)) s1) j = node_at s1 j) as Hnn by done.
  split_and!; try done; try lia.
  - cbn. by rewrite zlen_zset.
  - rewrite Hnn. unfold s1. by rewrite node_at_set, decide_True.
  - intros j Hj Hji. rewrite Hnn. unfold s1. by rewrite node_at_set, decide_False.
Qed.

(** [name] is not yet in directory [p]. *)
Definition fresh_in s p (name : cstr) : Prop :=
  forall j, 0 < j < TMPFS_MAX_NODES -> used s j = true -> parent s j = p -> n_name (node_at s j) <> name.
Definition dir_at s p : Prop := in_inodes p /\ used s p = true /\ tmpfs_isdir s p = true.
(** Entry [r] is new, under [p], names [x]; the other entries are as before. *)
Record entry_added s s' r p x (name : cstr) : Prop := {
  ea_range : 0 < r < TMPFS_MAX_NODES;
  ea_free : used s r = false;
  ea_new : node_at s' r = mk_node true p x name;
  ea_other : forall j, in_inodes j -> j <> r -> node_at s' j = node_at s j;
}.

(** An entry for a fresh inode: [s1] is [s] with inode [x] set up. *)
Lemma new_entry s s1 s2 p name x r :
  fs_ok s -> dir_at s p -> name_ok name -> fresh_in s p name ->
  0 < x < TMPFS_MAX_NODES -> i_used (inode_at s x) = false -> fs_data_ok s1 -> inode_only x s s1 ->
  i_used (inode_at s1 x) = true -> i_nlink (inode_at s1 x) = 1 -> i_opens (inode_at s1 x) = 0 ->
  tmpfs_add_node p name x s1 = (r, s2) ->
  let s' := if r <? 0 then tmpfs_put_inode x (upd_inode x (set_nlink 0) s2) else s2 in
  fs_ok s' /\
  ((r = - ENOSPC /\ touched s s' /\ forall j, 0 < j < TMPFS_MAX_NODES -> used s j = true) \/
   (entry_added s s' r p x name /\ forall y, in_inodes y -> same_file (inode_at s1 y) (inode_at s' y))).
Proof.
  intros Hfs (Hp & Hpu & Hpd) Hname Hfresh Hx Hxu Hfs1 Hio U1 L1 O1 Hadd s'. pose proof Hfs as [Ht Hd].
  assert (in_inodes x) as Hxi by (unfold in_inodes; lia).
  assert (forall j, node_at s1 j = node_at s j) as Hnn by (intros; unfold node_at; by rewrite (io_nodes _ _ _ Hio)).
  destruct (dir_used s p Ht Hp Hpu) as [Hpi _].
  destruct (add_node_spec s1 p name x r s2) as [(-> & -> & Hfull) | (Hr & Hru & Hfs2 & Hr2 & Hl2 & Hnew & Hoth & Hm)]; try done.
  { rewrite (io_nodes _ _ _ Hio). apply Ht. }
  { unfold used. by rewrite Hnn. }
  { unfold ino_of. by rewrite Hnn. }
  { apply Hname. }
  - change (- ENOSPC <? 0) with true in s'. cbn in s'.
    destruct (data_attr s1 x (set_nlink 0) Hfs1 Hxi) as (Hfs3 & [N3 R3 I3] & E3); [done|].
    destruct (put_inode_ok _ x Hfs3 Hx) as (Hfs4 & [N4 R4 I4] & E4). rewrite E3 in E4. unfold put_gone in E4. cbn in E4.
    rewrite U1, O1 in E4. fold s' in Hfs4, N4, R4, I4, E4.
    assert (touched s s') as Hto.
    { split; [rewrite N4, N3; apply Hio | rewrite R4, R3; apply Hio |]. intros y Hy. destruct (decide (y = x)) as [->|Hne].
      - rewrite E4. split; [split|]; cbn; congruence.
      - by rewrite I4, I3, (io_other _ _ _ Hio). }
    split; [by eapply touched_ok|]. left. split_and!; try done. intros j Hj. specialize (Hfull j Hj). unfold used in *. by rewrite Hnn in Hfull.
  - unfold s'. rewrite (proj2 (Z.ltb_ge r 0)) by lia. clear s'. destruct (Hm x Hxi) as [[M1 M2] _]. destruct (M2 U1) as (M3 & M4 & M5).
    assert (entry_added s s2 r p x name) as Hea.
    { split; try done. - unfold used in *. by rewrite Hnn in Hru. - intros j Hj Hne. by rewrite Hoth. }
    split; [|right; done]. split; [|done].
    apply (tree_add s s2 r p x name); try done; try congruence.
    + apply Hea.
    + split; [done | apply Hfs2 | rewrite Hr2, (io_ready _ _ _ Hio); apply Ht | apply Hea |].
      intros y Hy Hne. rewrite <- (io_other _ _ _ Hio) by done. by apply (Hm y Hy).
    + rewrite links_unused by done. lia.
    + lia.
Qed.

Lemma alloc_inode_spec s mode x s1 : fs_data_ok s -> tmpfs_alloc_inode mode s = (x, s1) ->
  (x = -1 /\ s1 = s /\ forall y, 0 < y < TMPFS_MAX_NODES -> i_used (inode_at s y) = true) \/
  (0 < x < TMPFS_MAX_NODES /\ i_used (inode_at s x) = false /\ fs_data_ok s1 /\ inode_only x s s1 /\
   inode_at s1 x = mk_inode true mode 0 0 1 0 0 [] 0 None (t_now s) (t_now s)).
Proof.
  intros Hfs Hs. unfold tmpfs_alloc_inode in Hs.
  pose proof (scan_nodes_spec (fun i => negb (i_used (inode_at s i)))) as Hscan.
  destruct (scan_nodes _) as [i|]; injection Hs as <- <-.
  - right. destruct Hscan as (Hi & Hfree & _). apply negb_true_iff in Hfree.
    assert (in_inodes i) as Hii by (unfold in_inodes; lia).
    destruct (data_set s i (mk_inode true mode 0 0 1 0 0 [] 0 None (tmpfs_now s) (tmpfs_now s))) as (? & ? & ?); try done.
    + split; try done. by intros ? ? []%elem_of_nil.
    + symmetry. by apply (is_free _ (d_shape s (proj1 Hfs) i Hii)).
  - left. split_and!; try done. intros y Hy. specialize (Hscan y Hy). by destruct (i_used _).
Qed.

Lemma make_entry_spec s mode p name r s' :
  fs_ok s -> dir_at s p -> name_ok name -> fresh_in s p name -> make_entry mode p name s = (r, s') ->
  fs_ok s' /\
  ((r = - ENOSPC /\ touched s s') \/
   exists x, entry_added s s' r p x name /\ i_used (inode_at s x) = false /\
     (forall y, in_inodes y -> y <> x -> same_file (inode_at s y) (inode_at s' y)) /\
     0 < x < TMPFS_MAX_NODES /\ i_used (inode_at s' x) = true /\ dir_mode (inode_at s' x) = (Z.land mode T_IFMT =? T_IFDIR) /\
     i_opens (inode_at s' x) = 0).
Proof.
  intros Hfs Hp Hname Hfresh Hs. unfold make_entry in Hs.
  destruct (tmpfs_alloc_inode mode s) as [x s1] eqn:Ea.
  destruct (alloc_inode_spec s mode x s1 (proj2 Hfs) Ea) as [(-> & -> & Hfull) | (Hx & Hxu & Hfs1 & Hio & E1)].
  { injection Hs as <- <-. split; [done|]. by left. }
  rewrite (proj2 (Z.ltb_ge x 0)) in Hs by lia. destruct (tmpfs_add_node p name x s1) as [r1 s2] eqn:Eadd.
  destruct (new_entry s s1 s2 p name x r1) as (Hfs' & Hcase); try done; try by rewrite E1.
  assert (r = r1 /\ s' = if r1 <? 0 then tmpfs_put_inode x (upd_inode x (set_nlink 0) s2) else s2) as [-> ->].
  { destruct (r1 <? 0); by injection Hs as <- <-. }
  split; [done|]. destruct Hcase as [(? & ? & _) | (Hea & Hm)]; [by left|]. right. exists x.
  destruct (Hm x ltac:(unfold in_inodes; lia)) as [[M1 M2] _]. rewrite E1 in M1, M2. destruct (M2 eq_refl) as (M3 & _ & M5).
  split_and!; try done; try lia. intros y Hy Hne. rewrite <- (io_other _ _ _ Hio) by done. by apply Hm.
Qed.

(** ** Paths *)

(** [i] is reached from [cur] by these names. *)
Fixpoint resolves s (cur : Z) (names : list cstr) (i : Z) : Prop :=
  match names with
  | [] => i = cur
  | w :: ws => exists c, 0 < c < TMPFS_MAX_NODES /\ used s c = true /\ parent s c = cur /\ n_name (node_at s c) = w /\ resolves s c ws i
  end.

Lemma find_child_spec s p name :
  match tmpfs_find_child s p name with
  | Zneg _ => fresh_in s p name
  | c => 0 < c < TMPFS_MAX_NODES /\ used s c = true /\ parent s c = p /\ n_name (node_at s c) = name
  end.
Proof.
  unfold tmpfs_find_child, index_or_minus1.
  pose proof (scan_nodes_spec (fun i => is_child s p i && bytes_eqb (n_name (node_at s i)) name)) as Hs.
  destruct (scan_nodes _) as [c|]; cbn [from_option id].
  - destruct Hs as (Hc & Hf & _). unfold is_child in Hf. apply andb_true_iff in Hf as [[Hu Hp]%andb_true_iff Hn].
    apply Z.eqb_eq in Hp. apply bool_decide_eq_true in Hn. destruct c as [|c|c]; [lia | done | lia].
  - intros j Hj Hu Hp Hn. specialize (Hs j Hj). cbn in Hs. apply not_true_iff_false in Hs. apply Hs.
    unfold is_child. rewrite !andb_true_iff. unfold used, parent in *. rewrite Hu, Hp, Z.eqb_refl.
    split; [done|]. by apply bool_decide_eq_true.
Qed.

Lemma find_child_cases s p name c : tmpfs_find_child s p name = c ->
  (c < 0 /\ fresh_in s p name) \/
  (0 < c < TMPFS_MAX_NODES /\ used s c = true /\ parent s c = p /\ n_name (node_at s c) = name).
Proof. intros <-. pose proof (find_child_spec s p name) as Hs. destruct (tmpfs_find_child s p name); [right; done..|left; split; [lia | done]]. Qed.

Lemma find_child_unique s c : tree_ok s -> 0 < c < TMPFS_MAX_NODES -> used s c = true ->
  tmpfs_find_child s (parent s c) (n_name (node_at s c)) = c.
Proof.
  intros Hok Hc Hu. destruct (find_child_cases s (parent s c) (n_name (node_at s c)) _ eq_refl) as [(_ & Hf) | (A & B & C & D)].
  - by destruct (Hf c Hc Hu).
  - by apply (tr_names s Hok).
Qed.

(** What is there stays there. *)
Record grows s s' : Prop := {
  gr_node : forall j, in_inodes j -> used s j = true -> node_at s' j = node_at s j;
  gr_inode : forall y, in_inodes y -> i_used (inode_at s y) = true -> same_file (inode_at s y) (inode_at s' y);
  gr_new : forall y, in_inodes y -> i_used (inode_at s y) = false -> i_used (inode_at s' y) = true -> i_opens (inode_at s' y) = 0;
}.

#[global] Instance grows_refl : Reflexive grows.
Proof. intros s. split; try done. congruence. Qed.
#[global] Instance grows_trans : Transitive grows.
Proof.
  intros a b c [N1 M1 W1] [N2 M2 W2]. split.
  - intros j Hj Hu. rewrite N2; [by apply N1 | done |]. unfold used. by rewrite N1.
  - intros y Hy Hu. etrans; [by apply M1|]. apply M2; [done|]. by destruct (M1 y Hy Hu) as [[-> _] _].
  - intros y Hy Ha Hc. destruct (i_used (inode_at b y)) eqn:Eb; [|by apply W2].
    destruct (M2 y Hy Eb) as [[_ Hm] _]. destruct (Hm Eb) as (_ & _ & ->). by apply W1.
Qed.

Lemma grows_dir s s' j : tree_ok s -> grows s s' -> in_inodes j -> used s j = true ->
  used s' j = true /\ parent s' j = parent s j /\ n_name (node_at s' j) = n_name (node_at s j) /\ tmpfs_isdir s' j = tmpfs_isdir s j.
Proof.
  intros Ht Hg Hj Hu. destruct (dir_used s j Ht Hj Hu) as [Hx Hxu].
  rewrite !isdir_mode. unfold used, parent, ino_of in *. rewrite (gr_node _ _ Hg j Hj Hu). split_and!; try done.
  by destruct (gr_inode _ _ Hg _ Hx Hxu) as [[_ Hm] _]; destruct (Hm Hxu).
Qed.

Lemma grows_resolves s s' cur names i : tree_ok s -> grows s s' -> resolves s cur names i -> resolves s' cur names i.
Proof.
  intros Ht Hg. revert cur. induction names as [|w ws IH]; intros cur; cbn; [done|].
  intros (c & Hc & Hu & Hp & Hn & Hr). destruct (grows_dir s s' c Ht Hg ltac:(unfold in_inodes; lia) Hu) as (U & P & E & _).
  exists c. split_and!; try done; try lia; [congruence.. | by apply IH].
Qed.

Lemma touched_grows s s' : touched s s' -> grows s s'.
Proof.
  intros [Hn _ Hm]. split; [|by auto|].
  - intros j _ _. unfold node_at. by rewrite Hn.
  - intros y Hy Hf Hu. destruct (Hm y Hy) as [[E _] _]. congruence.
Qed.

Lemma make_entry_grows s mode p name r s' :
  fs_ok s -> dir_at s p -> name_ok name -> fresh_in s p name -> make_entry mode p name s = (r, s') ->
  fs_ok s' /\ grows s s' /\
  (0 <= r -> 0 < r < TMPFS_MAX_NODES /\ used s' r = true /\ parent s' r = p /\ n_name (node_at s' r) = name /\
     tmpfs_isdir s' r = (Z.land mode T_IFMT =? T_IFDIR)).
Proof.
  intros Hfs Hp Hname Hfresh Hs. destruct (make_entry_spec s mode p name r s' Hfs Hp Hname Hfresh Hs) as (Hfs' & Hcase).
  split; [done|]. destruct Hcase as [(-> & Hto) | (x & [Hr Hru Hnew Hoth] & Hxu & Hm & Hx & Hxu' & Hd & Ho)].
  - split; [by apply touched_grows|]. done.
  - split; [split|].
    + intros j Hj Hu. apply Hoth; [done|]. intros ->. congruence.
    + intros y Hy Hu. apply Hm; [done|]. intros ->. congruence.
    + intros y Hy Hf Hu. destruct (decide (y = x)) as [->|Hne]; [done|]. destruct (Hm y Hy Hne) as [[E _] _]. congruence.
    + intros _. rewrite isdir_mode. unfold used, parent, ino_of. rewrite Hnew. cbn. split_and!; done || lia.
Qed.

Lemma name_ok_part (p : cstr) part slash : component p = (part, slash) -> zlen part <> 0 -> zlen part < TMPFS_MAX_NAME -> name_ok part.
Proof.
  intros E Hz Hl. destruct (component_app p part slash E) as (_ & Hn & _). split; [|done]. unfold zlen in *. lia.
Qed.

(** The answers of the walk: never an index it did not reach. *)
Definition walk_result s cur (p : cstr) (want_dir : bool) (r : Z) : Prop :=
  0 <= r -> 0 < r < TMPFS_MAX_NODES /\ used s r = true /\ resolves s cur (path_names p) r /\
    (if want_dir then tmpfs_isdir s r = true else ends_slash p = false).

Lemma walk_more s s' cur c (p part : cstr) w ws (want_dir : bool) r :
  component p = (part, w :: ws) -> part <> [] -> fs_ok s -> grows s s' ->
  0 < c < TMPFS_MAX_NODES -> used s c = true -> parent s c = cur -> n_name (node_at s c) = part ->
  skip_slashes (w :: ws) <> [] -> walk_result s' c (skip_slashes (w :: ws)) want_dir r -> walk_result s' cur p want_dir r.
Proof.
  intros Ec Hne Hfs Hg Hc Hu Hp Hn Hsk Hr H0. destruct (Hr H0) as (R1 & R2 & R3 & R4).
  destruct (component_app p part _ Ec) as (-> & Hs & Hh). split_and!; try done; try lia.
  - rewrite path_names_app by done. rewrite path_names_skip in R3.
    destruct (grows_dir s s' c (proj1 Hfs) Hg ltac:(unfold in_inodes; lia) Hu) as (? & ? & ? & _).
    exists c. split_and!; try done; try lia; congruence.
  - destruct want_dir; [done|]. rewrite ends_slash_skip by done. destruct (skip_slashes (w :: ws)); done.
Qed.

Lemma walk_end s' cur (p part slash : cstr) (want_dir : bool) c :
  component p = (part, slash) -> part <> [] ->
  0 < c < TMPFS_MAX_NODES -> used s' c = true -> parent s' c = cur -> n_name (node_at s' c) = part ->
  path_names slash = [] -> (if want_dir then tmpfs_isdir s' c = true else slash = []) -> walk_result s' cur p want_dir c.
Proof.
  intros Ec Hne Hc Hu Hp Hn Hps Hw H0. destruct (component_app p part _ Ec) as (-> & Hs & Hh). split_and!; try done; try lia.
  - rewrite path_names_app, Hps by done. exists c. done.
  - destruct want_dir; [done|]. subst slash. rewrite app_nil_r. unfold ends_slash.
    destruct (last part) as [k|] eqn:El; [|done]. apply Z.eqb_neq. intros ->. apply Hs. by apply last_Some_elem_of.
Qed.

Lemma lookup_loop_sound fuel cd cf w cur (p : cstr) s r s' :
  fs_ok s -> dir_at s cur -> lookup_loop fuel cd cf w cur p s = (r, s') ->
  fs_ok s' /\ grows s s' /\ walk_result s' cur p w r /\ (cd = false -> cf = false -> s' = s).
Proof.
  revert cur p s. induction fuel as [|fuel IH]; intros cur p s Hfs Hcur Hs.
  { injection Hs as <- <-. done. }
  cbn [lookup_loop] in Hs. destruct (component p) as [part slash] eqn:Ec.
  destruct (Z.eqb_spec (zlen part) 0) as [|Hz]; [by injection Hs as <- <-|].
  destruct (Z.leb_spec TMPFS_MAX_NAME (zlen part)) as [|Hl]; [by injection Hs as <- <-|].
  pose proof (name_ok_part p part slash Ec Hz Hl) as Hname. assert (part <> []) as Hne by (by intros ->).
  assert (forall c s1, fs_ok s1 -> grows s s1 -> (cd = false -> cf = false -> s1 = s) ->
    0 < c < TMPFS_MAX_NODES -> used s1 c = true -> parent s1 c = cur -> n_name (node_at s1 c) = part -> slash <> [] ->
    (if negb (tmpfs_isdir s1 c) then (- ENOTDIR, s1) else
       match skip_slashes slash with [] => ((if w then c else - ENOENT), s1) | _ => lookup_loop fuel cd cf w c (skip_slashes slash) s1 end)
      = (r, s') ->
    fs_ok s' /\ grows s s' /\ walk_result s' cur p w r /\ (cd = false -> cf = false -> s' = s)) as Hnext.
  { intros c s1 Hfs1 Hg1 Hnc Hc Hu Hp Hn Hsl Hs1. destruct (tmpfs_isdir s1 c) eqn:Ed; cbn [negb] in Hs1; [|by injection Hs1 as <- <-].
    assert (in_inodes c) as Hci by (unfold in_inodes; lia).
    destruct (skip_slashes slash) as [|c0 p0] eqn:Esk.
    - injection Hs1 as <- <-. split_and!; try done. destruct w; [|done]. eapply walk_end; try done.
      by rewrite <- path_names_skip, Esk.
    - destruct (IH c (c0 :: p0) s1 Hfs1) as (F & G & W & Nc); [split; done | done |].
      split_and!; [done | by etrans | | ].
      + destruct slash as [|w0 ws]; [done|]. rewrite <- Esk in W. eapply (walk_more s1 s'); try done. by rewrite Esk.
      + intros A B. rewrite Nc by done. by apply Hnc. }
  destruct (find_child_cases s cur part _ eq_refl) as [(Hneg & Hfresh) | (Hc & Hu & Hp & Hn)].
  - rewrite (proj2 (Z.ltb_lt _ 0)) in Hs by done.
    assert (forall mode r1 s1, make_entry mode cur part s = (r1, s1) -> fs_ok s1 /\ grows s s1 /\
      (0 <= r1 -> 0 < r1 < TMPFS_MAX_NODES /\ used s1 r1 = true /\ parent s1 r1 = cur /\ n_name (node_at s1 r1) = part /\
         tmpfs_isdir s1 r1 = (Z.land mode T_IFMT =? T_IFDIR))) as Hmk by (intros; by eapply make_entry_grows).
    destruct slash as [|s0 sl]; cbn [negb andb orb] in Hs.
    + destruct (cf && negb w) eqn:Ecf.
      * destruct (Hmk _ _ _ Hs) as (F & G & R). apply andb_true_iff in Ecf as [-> ->%negb_true_iff].
        split_and!; try done. intros H0. destruct (R H0) as (? & ? & ? & ? & ?). refine (walk_end s' cur p part [] false r Ec Hne _ _ _ _ _ _ H0); done.
      * destruct (cd && w) eqn:Ecd; cbn [orb] in Hs; [|by injection Hs as <- <-].
        destruct (make_entry _ cur part s) as [r1 s1] eqn:Em. destruct (Hmk _ _ _ Em) as (F & G & R).
        apply andb_true_iff in Ecd as [-> ->].
        assert (r = r1 /\ s' = s1) as [-> ->] by (destruct (r1 <? 0); by injection Hs as <- <-).
        split_and!; try done. intros H0. destruct (R H0) as (? & ? & ? & ? & ?). refine (walk_end s1 cur p part [] true r1 Ec Hne _ _ _ _ _ _ H0); done.
    + destruct cd; cbn [orb] in Hs; [|by injection Hs as <- <-].
      destruct (make_entry _ cur part s) as [r1 s1] eqn:Em. destruct (Hmk _ _ _ Em) as (F & G & R).
      destruct (Z.ltb_spec r1 0) as [|H0]; [injection Hs as <- <-; split_and!; try done; intros ?; lia|].
      destruct (R H0) as (? & ? & ? & ? & ?). by apply (Hnext r1 s1).
  - rewrite (proj2 (Z.ltb_ge _ 0)) in Hs by lia. destruct slash as [|s0 sl]; [|by apply (Hnext (tmpfs_find_child s cur part) s)].
    destruct w; cbn [andb negb] in Hs.
    + destruct (tmpfs_isdir s _) eqn:Ed; cbn [negb] in Hs; injection Hs as <- <-; split_and!; try done. by eapply walk_end.
    + destruct (_ && cf); injection Hs as <- <-; split_and!; try done. by eapply walk_end.
Qed.

Lemma lookup_loop_complete fuel (w : bool) cur (p : cstr) s i :
  fs_ok s -> match p with [] => False | c :: _ => c <> 47 end -> (length p <= fuel)%nat ->
  resolves s cur (path_names p) i -> (if w then tmpfs_isdir s i = true else ends_slash p = false) ->
  lookup_loop fuel false false w cur p s = (i, s).
Proof.
  intros [Ht _]. revert cur p. induction fuel as [|fuel IH]; intros cur p Hh Hl Hr Hw; [by destruct p; cbn in *; [|lia]|].
  cbn [lookup_loop]. destruct (component p) as [part slash] eqn:Ec. destruct (component_app _ _ _ Ec) as (E & Hn & Hs).
  assert (part <> []) as Hne by (intros ->; cbn in E; subst p; by destruct slash).
  rewrite E, path_names_app in Hr by done. destruct Hr as (c & Hc & Hu & Hp & Hnm & Hr).
  destruct (tr_node s Ht c Hc Hu) as (_ & _ & _ & _ & Hname & _). rewrite Hnm in Hname.
  rewrite (proj2 (Z.eqb_neq _ 0)), (proj2 (Z.leb_gt TMPFS_MAX_NAME _)) by lia.
  pose proof (find_child_unique s c Ht Hc Hu) as Hf. rewrite Hp, Hnm in Hf. rewrite Hf, (proj2 (Z.ltb_ge c 0)) by lia.
  destruct slash as [|s0 sl].
  { change (i = c) in Hr. subst i. destruct w; [by rewrite Hw|]. by rewrite andb_false_r. }
  destruct (decide (skip_slashes (s0 :: sl) = [])) as [Esk|Hsk].
  - rewrite Esk. apply path_names_nil_skip in Esk as Epn. rewrite Epn in Hr. cbn in Hr. subst i.
    rewrite E, ends_slash_skip, Esk in Hw by done. destruct w; [by rewrite Hw | done].
  - destruct (path_names (s0 :: sl)) as [|w1 ws] eqn:Epn; [by apply path_names_nil_skip in Epn|].
    destruct Hr as (c2 & Hc2 & Hu2 & Hp2 & Hr2). destruct (tr_node s Ht c2 Hc2 Hu2) as (_ & _ & Hd & _). rewrite Hp2 in Hd.
    rewrite Hd. cbn [negb]. pose proof (skip_slashes_head (s0 :: sl)) as Hh2. destruct (skip_slashes_app (s0 :: sl)) as [k Ek].
    assert (length (skip_slashes (s0 :: sl)) <= length (s0 :: sl))%nat as Hlen by (rewrite Ek at 2; rewrite length_app; lia).
    rewrite E, length_app in Hl. assert (length part <> 0)%nat by (by destruct part).
    assert (resolves s c (path_names (skip_slashes (s0 :: sl))) i) as Hr' by (rewrite path_names_skip, Epn; exists c2; done).
    rewrite E, ends_slash_skip in Hw by done.
    destruct (skip_slashes (s0 :: sl)) as [|q0 q] eqn:Esk; [done|]. apply IH; try done. lia.
Qed.

(** What a path names: the root, or an entry reached from it. *)
Definition names_node s (rel : option cstr) (want_dir : bool) (i : Z) : Prop :=
  resolves s 0 (path_names (default [] rel)) i /\
  (if want_dir then tmpfs_isdir s i = true else path_names (default [] rel) <> [] /\ ends_slash (default [] rel) = false).

Lemma root_dir s : tree_ok s -> dir_at s 0.
Proof. intros Ht. destruct (tr_root s Ht) as (? & _ & _ & ?). split; [unfold in_inodes, TMPFS_MAX_NODES; lia | done]. Qed.

Lemma lookup_sound rel cd cf w s r s' :
  fs_ok s -> tmpfs_lookup rel cd cf w s = (r, s') ->
  fs_ok s' /\ grows s s' /\ (cd = false -> cf = false -> s' = s) /\
  (0 <= r -> in_inodes r /\ used s' r = true /\ names_node s' rel w r /\ (w = false -> 0 < r)).
Proof.
  intros Hfs Hs. unfold tmpfs_lookup, ensure_root in Hs. rewrite (tr_ready s (proj1 Hfs)) in Hs.
  destruct (skip_slashes (default [] rel)) as [|c p] eqn:Esk.
  - injection Hs as <- <-. split_and!; try done. destruct w; [|done]. intros _.
    destruct (root_dir s (proj1 Hfs)) as (? & ? & ?). split_and!; try done. split; [|done].
    by apply path_names_nil_skip in Esk as ->.
  - destruct (lookup_loop_sound _ _ _ _ _ _ _ _ _ Hfs (root_dir s (proj1 Hfs)) Hs) as (F & G & W & Nc).
    split_and!; try done. intros H0. destruct (W H0) as (R1 & R2 & R3 & R4).
    split_and!; try done; [unfold in_inodes; lia| |lia]. rewrite <- Esk, path_names_skip in R3. split; [done|].
    destruct w; [done|]. rewrite <- Esk, ends_slash_drop in R4 by (by rewrite Esk). split; [|done].
    intros E%path_names_nil_skip. congruence.
Qed.

Lemma lookup_complete rel w s i :
  fs_ok s -> names_node s rel w i -> tmpfs_lookup rel false false w s = (i, s).
Proof.
  intros Hfs [Hr Hw]. unfold tmpfs_lookup, ensure_root. rewrite (tr_ready s (proj1 Hfs)).
  pose proof (skip_slashes_head (default [] rel)) as Hh.
  rewrite <- path_names_skip in Hr. destruct (skip_slashes (default [] rel)) as [|c p] eqn:Esk.
  - change (i = 0) in Hr. subst i. destruct w; [done|]. destruct Hw as [Hne _]. by apply path_names_nil_skip in Esk.
  - apply lookup_loop_complete; try done. destruct w; [done|]. destruct Hw as [_ Hw].
    rewrite <- Esk, ends_slash_drop; [done | by rewrite Esk].
Qed.
End tree.
