(* ===== verification/TmpfsOps.v ===== *)
(** * tmpfs: the operations of the name space

    Every operation of [tmpfs_ops] keeps the invariants of TmpfsData.v and
    TmpfsTree.v, and what each one does to the tree. *)
From S2P Require Import Prelude Paths Heap Tmpfs TmpfsData TmpfsTree.

Section ops.
Context {H : Type} `{!KHeap H}.
Implicit Types (s : tmpfs H) (i j x : Z).

#[local] Opaque links.

(** ** Removing an entry *)

(** The inode after losing one of its names. *)
Definition after_drop s s' x : Prop :=
  if (links s x =? 1) && (i_opens (inode_at s x) =? 0) then inode_at s' x = zero_inode
  else i_used (inode_at s' x) = true /\ i_mode (inode_at s' x) = i_mode (inode_at s x) /\
       i_nlink (inode_at s' x) = links s x - 1 /\ i_opens (inode_at s' x) = i_opens (inode_at s x) /\
       i_slots (inode_at s' x) = i_slots (inode_at s x) /\ i_size (inode_at s' x) = i_size (inode_at s x).

Lemma drop_node_effect s i :
  fs_ok s -> 0 < i < TMPFS_MAX_NODES -> used s i = true ->
  let s' := tmpfs_drop_node i s in
  let x := ino_of s i in
  fs_data_ok s' /\ frame s s' i x /\ node_at s' i = zero_node /\ after_drop s s' x /\
  (forall y, in_inodes y -> y <> x -> same_file (inode_at s y) (inode_at s' y)).
Proof.
  intros [Ht Hd] Hi Hu s' x. destruct (tr_node s Ht i Hi Hu) as (Hp & Hpu & _ & Hx & _). fold x in Hx.
  assert (in_inodes i /\ in_inodes x) as [Hii Hxi] by (unfold in_inodes; lia).
  assert (i_used (inode_at s x) = true) as Hxu by (by apply tr_live).
  destruct (tr_links s Ht x Hx Hxu) as (Hnl & Hop & _). pose proof (links_pos s i Hii Hu) as Hpos. fold x in Hpos.
  pose proof (links_bound s x) as Hlb. unfold after_drop. remember (links s x) as L eqn:EL. clear EL.
  unfold s', tmpfs_drop_node. fold (parent s i). fold (ino_of s i). fold x.
  rewrite (proj2 (Z.leb_le 0 (parent s i))) by (unfold in_inodes in Hp; lia). fold (ino_of s (parent s i)).
  destruct (dir_used s (parent s i) Ht Hp Hpu) as [Hpi _].
  destruct (data_attr s (ino_of s (parent s i)) (set_mtime (tmpfs_now s)) Hd Hpi) as (Hd1 & [N1 R1 I1] & E1); [done|].
  set (s1 := upd_inode (ino_of s (parent s i)) _ s) in *. set (s2 := set_node i zero_node s1).
  assert (fs_data_ok s2) as Hd2 by (by apply data_node).
  assert (forall y, in_inodes y -> i_used (inode_at s2 y) = i_used (inode_at s y) /\ i_mode (inode_at s2 y) = i_mode (inode_at s y) /\
    i_nlink (inode_at s2 y) = i_nlink (inode_at s y) /\ i_opens (inode_at s2 y) = i_opens (inode_at s y) /\
    i_slots (inode_at s2 y) = i_slots (inode_at s y) /\ i_size (inode_at s2 y) = i_size (inode_at s y)) as Hat.
  { intros y Hy. change (inode_at s2 y) with (inode_at s1 y). destruct (decide (y = ino_of s (parent s i))) as [->|Hne].
    - by rewrite E1. - by rewrite I1. }
  destruct (Hat x Hxi) as (A1 & A2 & A3 & A4 & A5 & A6). rewrite A3, Hnl.
  rewrite (proj2 (Z.eqb_neq L 0)) by lia.
  destruct (data_attr s2 x (fun n => set_nlink (i_nlink n -32 1) n) Hd2 Hxi) as (Hd3 & [N3 R3 I3] & E3); [done|].
  set (s3 := upd_inode x (fun n => _) s2) in *.
  destruct (data_attr s3 x (set_ctime (tmpfs_now s3)) Hd3 Hxi) as (Hd4 & [N4 R4 I4] & E4); [done|].
  set (s4 := upd_inode x (set_ctime _) s3) in *.
  destruct (put_inode_ok s4 x Hd4 Hx) as (Hd5 & [N5 R5 I5] & E5).
  rewrite E4, E3 in E5. unfold put_gone in E5. cbn in E5. rewrite A1, A3, A4, Hxu, Hnl, u32_small in E5
    by (unfold TMPFS_MAX_NODES in *; lia).
  assert (nodes (tmpfs_put_inode x s4) = zset (nodes s) i zero_node) as En.
  { rewrite N5, N4, N3. done. }
  assert (forall j, in_inodes j -> node_at (tmpfs_put_inode x s4) j = if decide (j = i) then zero_node else node_at s j) as Hnd.
  { intros j Hj. rewrite <- (node_at_set i zero_node s j) by (done || apply Ht). unfold node_at. by rewrite En. }
  assert (forall y, in_inodes y -> y <> x -> same_file (inode_at s y) (inode_at (tmpfs_put_inode x s4) y)) as Hsf.
  { intros y Hy Hne. rewrite I5, I4, I3 by done. destruct (Hat y Hy) as (B1 & B2 & B3 & B4 & B5 & B6).
    split; [split; [done|]|done]. intros _. unfold dir_mode. by rewrite B2. }
  split; [done|]. split; [split|split; [|split]].
  - rewrite En, zlen_zset. apply Ht.
  - apply Hd5.
  - rewrite R5, R4, R3. change (tmpfs_ready s1 = true). rewrite R1. apply Ht.
  - intros j Hj Hne. by rewrite Hnd, decide_False.
  - intros y Hy Hne. by apply Hsf.
  - by rewrite Hnd, decide_True.
  - replace (L - 1 =? 0) with (L =? 1) in E5 by (destruct (Z.eqb_spec L 1), (Z.eqb_spec (L - 1) 0); lia).
    cbn [andb] in E5. destruct (_ && _); [done|]. rewrite E5. cbn. split_and!; done || congruence.
  - done.
Qed.

Definition childless s i : Prop := forall j, 0 < j < TMPFS_MAX_NODES -> used s j = true -> parent s j <> i.

Lemma drop_node_ok s i :
  fs_ok s -> 0 < i < TMPFS_MAX_NODES -> used s i = true -> childless s i -> fs_ok (tmpfs_drop_node i s).
Proof.
  intros Hfs Hi Hu Hc. destruct (drop_node_effect s i Hfs Hi Hu) as (Hd & Hf & Hn & Ha & _). split; [|done].
  destruct Hfs as [Ht _]. destruct (tr_node s Ht i Hi Hu) as (_ & _ & _ & Hx & _).
  assert (i_used (inode_at s (ino_of s i)) = true) as Hxu by (apply tr_live; [done | unfold in_inodes; lia | done]).
  destruct (tr_links s Ht _ Hx Hxu) as (_ & Hop & _). unfold after_drop in Ha.
  apply (tree_drop s _ i (ino_of s i)); try done.
  - unfold used. by rewrite Hn.
  - intros Hu'. destruct (Z.eqb_spec (links s (ino_of s i)) 1), (Z.eqb_spec (i_opens (inode_at s (ino_of s i))) 0); cbn [andb] in Ha;
      [by rewrite Ha in Hu'|..]; destruct Ha as (_ & Hm & Hl & Ho & _); unfold dir_mode; rewrite Hm; (split_and!; [done | lia | lia | lia]).
  - intros Hu'. destruct (Z.eqb_spec (links s (ino_of s i)) 1); [done|]. cbn [andb] in Ha. destruct Ha as [Ha _]. congruence.
Qed.

Lemma has_children_spec s i : tmpfs_has_children s i = false <-> childless s i.
Proof.
  unfold tmpfs_has_children. pose proof (scan_nodes_spec (is_child s i)) as Hs. destruct (scan_nodes _) as [c|].
  - destruct Hs as (Hc & Hch & _). unfold is_child in Hch. apply andb_true_iff in Hch as [Hu Hp%Z.eqb_eq].
    split; [done|]. intros Hn. by destruct (Hn c Hc Hu).
  - split; [|done]. intros _ j Hj Hu Hp. specialize (Hs j Hj). unfold is_child, used, parent in *. rewrite Hu, Hp, Z.eqb_refl in Hs. done.
Qed.

Lemma file_childless s i : tree_ok s -> tmpfs_isdir s i = false -> childless s i.
Proof.
  intros Ht Hd j Hj Hu Hp. destruct (tr_node s Ht j Hj Hu) as (_ & _ & C & _). rewrite Hp in C. congruence.
Qed.

(** ** Names *)

Lemma lookup_any_sound rel s i s' : fs_ok s -> tmpfs_lookup_any rel s = (i, s') ->
  s' = s /\ (0 <= i -> in_inodes i /\ used s i = true /\ resolves s 0 (path_names (default [] rel)) i).
Proof.
  intros Hfs Hs. unfold tmpfs_lookup_any in Hs. pose proof (root_dir s (proj1 Hfs)) as (R1 & R2 & _).
  destruct (default [] rel) as [|c p] eqn:Ep; [injection Hs as <- <-; by split|].
  destruct (tmpfs_lookup rel false false false s) as [i1 s1] eqn:E1.
  destruct (lookup_sound _ _ _ _ _ _ _ Hfs E1) as (_ & _ & N1 & L1). rewrite N1 in * by done. clear N1.
  rewrite <- Ep. destruct ((i1 <? 0) && _ && _) eqn:Ec.
  - destruct (tmpfs_lookup rel false false true s) as [j s2] eqn:E2.
    destruct (lookup_sound _ _ _ _ _ _ _ Hfs E2) as (_ & _ & N2 & L2). rewrite N2 in * by done.
    destruct (Z.leb_spec 0 j) as [_|_]; injection Hs as <- <-; (split; [done|]); intros H0.
    + destruct (L2 H0) as (? & ? & [? _] & _). done.
    + destruct (L1 H0) as (? & ? & [? _] & _). done.
  - injection Hs as <- <-. split; [done|]. intros H0. destruct (L1 H0) as (? & ? & [? _] & _). done.
Qed.

Lemma strip_trailing_app (p : cstr) : exists k, p = strip_trailing p ++ replicate k 47.
Proof.
  induction p as [|c p (k & IH)]; [by exists O|]. cbn. destruct (strip_trailing p) as [|d q] eqn:E.
  - cbn in IH. destruct (Z.eqb_spec c 47) as [->|]; [exists (S k) | exists k]; cbn; by f_equal.
  - exists k. rewrite IH at 1. done.
Qed.

Lemma strip_trailing_last (p : cstr) : last (strip_trailing p) <> Some 47.
Proof.
  induction p as [|c p IH]; [done|]. cbn. destruct (strip_trailing p) as [|d q] eqn:E.
  - destruct (Z.eqb_spec c 47); cbn; [done|]. congruence.
  - rewrite last_cons. by destruct (last (d :: q)) eqn:El; [|by apply last_None in El].
Qed.

Lemma split_last_spec (p : cstr) :
  match split_last p with
  | Some (d, l) => p = d ++ 47 :: l /\ (47 ∉ l)
  | None => 47 ∉ p
  end.
Proof.
  induction p as [|c p IH]; [apply not_elem_of_nil|]. cbn. destruct (split_last p) as [[d l]|].
  - destruct IH as [-> ?]. done.
  - destruct (Z.eqb_spec c 47) as [->|Hne]; [done|]. intros [?|?]%elem_of_cons; [congruence | done].
Qed.

Lemma split_slash_join (a b : cstr) : split_slash (a ++ 47 :: b) = split_slash a ++ split_slash b.
Proof.
  induction a as [|c a IH]; [done|]. cbn. rewrite IH. destruct (c =? 47); [done|].
  destruct (split_slash a) eqn:E; [|done]. destruct a; cbn in E; [done|]. by repeat case_match.
Qed.

Lemma path_names_join (a b : cstr) : path_names (a ++ 47 :: b) = path_names a ++ path_names b.
Proof. unfold path_names. by rewrite split_slash_join, filter_app. Qed.

Lemma path_names_trailing (p : cstr) k : path_names (p ++ replicate k 47) = path_names p.
Proof.
  induction k as [|k IH]; [by rewrite app_nil_r|]. cbn. rewrite path_names_join.
  assert (path_names (replicate k 47) = []) as ->; [|by rewrite app_nil_r]. clear. induction k; [done|]. change (path_names (47 :: replicate k 47) = []). by rewrite path_names_slash.
Qed.

Lemma path_names_one (p : cstr) : p <> [] -> 47 ∉ p -> path_names p = [p].
Proof. intros Hne Hn. rewrite <- (app_nil_r p) at 1. by rewrite path_names_app. Qed.

Lemma parent_sound rel s r leaf s' : fs_ok s -> tmpfs_parent rel s = (r, leaf, s') ->
  s' = s /\ (0 <= r -> dir_at s r /\ name_ok leaf /\
    (zlen (default [] rel) < 512 -> exists ns, path_names (default [] rel) = ns ++ [leaf] /\ resolves s 0 ns r)).
Proof.
  intros Hfs Hs. unfold tmpfs_parent in Hs. set (p := default [] rel) in *.
  set (t := strip_trailing (skip_slashes (kstrncpy p 512))) in *.
  assert (zlen p < 512 -> path_names p = path_names t) as Hp.
  { intros Hl. unfold t. rewrite <- (path_names_skip p). unfold kstrncpy. rewrite ztake_all by lia.
    destruct (strip_trailing_app (skip_slashes p)) as [k Ek]. rewrite Ek at 1. apply path_names_trailing. }
  assert (last t <> Some 47) as Hlast by apply strip_trailing_last.
  destruct t as [|c t0] eqn:Et; [by injection Hs as <- <- <-|]. rewrite <- Et in *. assert (t <> []) as Hne by (by rewrite Et).
  pose proof (split_last_spec t) as Hsp. destruct (split_last t) as [[d nm]|].
  - destruct Hsp as [E Hn]. assert (nm <> []) as Hnm by (intros ->; rewrite E, last_snoc in Hlast; done).
    destruct (Z.leb_spec TMPFS_MAX_NAME (zlen nm)) as [|Hnl]; [by injection Hs as <- <- <-|].
    destruct (tmpfs_lookup (Some d) false false true s) as [r1 s1] eqn:El. rewrite kstrncpy_id in Hs by done. injection Hs as <- <- <-.
    destruct (lookup_sound _ _ _ _ _ _ _ Hfs El) as (_ & _ & N1 & L1). rewrite N1 in * by done. split; [done|].
    intros H0. destruct (L1 H0) as (? & ? & [Hr ?] & _). split_and!; try done.
    + split; [|done]. assert (length nm <> 0)%nat by (by destruct nm). unfold zlen in *. lia.
    + intros Hl. exists (path_names d). split; [|done]. rewrite (Hp Hl), E, path_names_join. by rewrite (path_names_one nm).
  - destruct (Z.leb_spec TMPFS_MAX_NAME (zlen t)) as [|Htl]; [by injection Hs as <- <- <-|].
    rewrite kstrncpy_id in Hs by done. injection Hs as <- <- <-. unfold ensure_root. rewrite (tr_ready s (proj1 Hfs)).
    split; [done|]. intros _. split_and!; try apply root_dir; try apply Hfs.
    + split; [|done]. assert (length t <> 0)%nat by (by rewrite Et). unfold zlen in *. lia.
    + intros Hl. exists []. split; [|done]. rewrite (Hp Hl). by rewrite (path_names_one t).
Qed.

(** ** Renaming *)

Lemma upd_touch s x f : fs_data_ok s -> in_inodes x -> quiet f ->
  fs_data_ok (upd_inode x f s) /\ nodes (upd_inode x f s) = nodes s /\ tmpfs_ready (upd_inode x f s) = tmpfs_ready s /\
  forall y, in_inodes y -> same_file (inode_at s y) (inode_at (upd_inode x f s) y).
Proof. intros Hd Hx Hq. destruct (touch s x f Hd Hx Hq) as (? & [? ? ?]). done. Qed.

Definition fresh_but s (src p : Z) (name : cstr) : Prop :=
  forall j, 0 < j < TMPFS_MAX_NODES -> j <> src -> used s j = true -> parent s j = p -> n_name (node_at s j) <> name.

Lemma rename_entry_ok s src p leaf :
  fs_ok s -> 0 < src < TMPFS_MAX_NODES -> used s src = true -> dir_at s p -> name_ok leaf -> ~ below s src p ->
  fresh_but s src p leaf ->
  let s' := rename_entry src p leaf s in
  fs_ok s' /\ node_at s' src = mk_node true p (ino_of s src) leaf /\
  (forall j, in_inodes j -> j <> src -> node_at s' j = node_at s j) /\
  (forall y, in_inodes y -> same_file (inode_at s y) (inode_at s' y)).
Proof.
  intros [Ht Hd] Hs Hu (Hp & Hpu & Hpd) Hleaf Hnb Hfresh s'. assert (in_inodes src) as Hsi by (unfold in_inodes; lia).
  destruct (tr_node s Ht src Hs Hu) as (Hop & Hopu & _ & Hx & _).
  destruct (dir_used s (parent s src) Ht Hop Hopu) as [Hoi _]. destruct (dir_used s p Ht Hp Hpu) as [Hpi _].
  assert (p <> src) as Hne by (intros ->; apply Hnb, below_refl).
  unfold s', rename_entry. fold (parent s src). fold (ino_of s (parent s src)).
  destruct (upd_touch s (ino_of s (parent s src)) (set_mtime (tmpfs_now s)) Hd Hoi (quiet_mtime _)) as (Hd1 & N1 & R1 & F1).
  set (s1 := upd_inode (ino_of s (parent s src)) _ s) in *.
  assert (node_at s1 src = node_at s src) as -> by (unfold node_at; by rewrite N1).
  fold (used s src). rewrite Hu. fold (ino_of s src). rewrite kstrncpy_id by apply Hleaf.
  set (s2 := set_node src _ s1).
  assert (forall j, in_inodes j -> node_at s2 j = if decide (j = src) then mk_node true p (ino_of s src) leaf else node_at s j) as Hn2.
  { intros j Hj. unfold s2. rewrite node_at_set by (done || rewrite N1; apply Ht). by unfold node_at; rewrite N1. }
  rewrite (Hn2 p), decide_False by done. fold (ino_of s p).
  destruct (upd_touch s2 (ino_of s p) (set_mtime (tmpfs_now s2)) (data_node _ _ _ Hd1) Hpi (quiet_mtime _)) as (Hd3 & N3 & R3 & F3).
  set (s3 := upd_inode (ino_of s p) _ s2) in *.
  assert (forall j, node_at s3 j = node_at s2 j) as Hn3 by (intros; unfold node_at; by rewrite N3).
  rewrite Hn3, (Hn2 src), decide_True by done. cbn [n_ino].
  destruct (upd_touch s3 (ino_of s src) (set_ctime (tmpfs_now s3)) Hd3 ltac:(unfold in_inodes; lia) (quiet_ctime _)) as (Hd4 & N4 & R4 & F4).
  set (s4 := upd_inode (ino_of s src) _ s3) in *.
  assert (forall j, in_inodes j -> node_at s4 j = if decide (j = src) then mk_node true p (ino_of s src) leaf else node_at s j) as Hn4.
  { intros j Hj. rewrite <- Hn2 by done. unfold node_at. by rewrite N4, N3. }
  assert (forall y, in_inodes y -> same_file (inode_at s y) (inode_at s4 y)) as HF.
  { intros y Hy. etrans; [by apply F1|]. etrans; [by apply F3|]. by apply F4. }
  assert (node_at s4 src = mk_node true p (ino_of s src) leaf) as Hnew by (by rewrite Hn4, decide_True).
  assert (forall j, in_inodes j -> j <> src -> node_at s4 j = node_at s j) as Hoth by (intros j Hj Hjs; by rewrite Hn4, decide_False).
  split; [|done]. split; [|done]. apply (tree_move s s4 src p leaf); try done.
  - split; try done.
    + rewrite N4, N3. cbn. rewrite zlen_zset. apply Ht.
    + apply Hd4.
    + rewrite R4, R3. change (tmpfs_ready s1 = true). rewrite R1. apply Ht.
    + intros y Hy _. by apply HF.
  - apply HF. unfold in_inodes. lia.
Qed.

Lemma up_snoc s k a c : up s k a = Some c -> 0 < c -> up s (S k) a = Some (parent s c).
Proof.
  revert a. induction k as [|k IH]; intros a; [intros [= ->] Hc; cbn; by rewrite (proj2 (Z.leb_gt c 0))|].
  cbn [up]. destruct (Z.leb_spec a 0); [done|]. intros E Hc. by apply (IH (parent s a)).
Qed.

Lemma up_depth s (d : Z -> nat) k a b :
  tree_ok s -> (forall i, 0 < i < TMPFS_MAX_NODES -> used s i = true -> (d (parent s i) < d i)%nat) ->
  in_inodes a -> used s a = true -> up s k a = Some b -> (d b <= d a)%nat.
Proof.
  intros Ht Hd. revert a. induction k as [|k IH]; cbn; intros a Ha Hu E; [by simplify_eq|].
  destruct (Z.leb_spec a 0); [done|]. assert (0 < a < TMPFS_MAX_NODES) as Ha' by (unfold in_inodes in *; lia).
  destruct (tr_node s Ht a Ha' Hu) as (? & ? & _). specialize (Hd a Ha' Hu). specialize (IH (parent s a)). etrans; [apply IH; done | lia].
Qed.

(** A child is not above its parent. *)
Lemma child_not_above s c : tree_ok s -> 0 < c < TMPFS_MAX_NODES -> used s c = true -> ~ below s c (parent s c).
Proof.
  intros Ht Hc Hu (k & E). destruct (tr_depth s Ht) as (d & Hd). destruct (tr_node s Ht c Hc Hu) as (Hp & Hpu & _).
  pose proof (up_depth s d k _ _ Ht Hd Hp Hpu E). specialize (Hd c Hc Hu). lia.
Qed.

Lemma resolves_below s c ws p : resolves s c ws p -> below s c p.
Proof.
  revert c. induction ws as [|w ws IH]; intros c; [intros ->; apply below_refl|].
  intros (c2 & Hc2 & Hu & Hp & _ & Hr). destruct (IH c2 Hr) as (k & E). exists (S k). rewrite <- Hp. apply up_snoc; [done | lia].
Qed.

(** A path keeps its meaning when the entries along it do. *)
Lemma resolves_frame s s' cur ws p :
  resolves s cur ws p -> (forall c, below s c p -> 0 < c < TMPFS_MAX_NODES -> node_at s' c = node_at s c) -> resolves s' cur ws p.
Proof.
  intros Hr Hf. revert cur Hr. induction ws as [|w ws IH]; intros cur; [done|].
  intros (c & Hc & Hu & Hp & Hn & Hr). pose proof (Hf c (resolves_below _ _ _ _ Hr) Hc) as E.
  exists c. unfold used, parent in *. rewrite E. split_and!; try done; try lia. by apply IH.
Qed.

Lemma resolves_snoc s cur ws p c :
  resolves s cur ws p -> 0 < c < TMPFS_MAX_NODES -> used s c = true -> parent s c = p ->
  resolves s cur (ws ++ [n_name (node_at s c)]) c.
Proof.
  intros Hr Hc Hu Hp. revert cur Hr. induction ws as [|w ws IH]; intros cur; cbn.
  - intros ->. exists c. done.
  - intros (c2 & ? & ? & ? & ? & Hr). exists c2. split_and!; try done; try lia. by apply IH.
Qed.

(** The entry [src] is now [leaf] in directory [p]. *)
Record moved s s' src p (leaf : cstr) : Prop := {
  mv_new : node_at s' src = mk_node true p (ino_of s src) leaf;
  mv_old : ~ (parent s src = p /\ n_name (node_at s src) = leaf);
  mv_other : forall j, in_inodes j -> j <> src -> used s' j = true -> node_at s' j = node_at s j;
  mv_file : same_file (inode_at s (ino_of s src)) (inode_at s' (ino_of s src));
  mv_path : forall ns, resolves s 0 ns p -> resolves s' 0 (ns ++ [leaf]) src;
}.

(** Renaming into a free place, and over an entry that may go. *)
Lemma rename_free s src p leaf :
  fs_ok s -> 0 < src < TMPFS_MAX_NODES -> used s src = true -> dir_at s p -> name_ok leaf -> ~ below s src p ->
  fresh_in s p leaf -> let s' := rename_entry src p leaf s in fs_ok s' /\ moved s s' src p leaf.
Proof.
  intros Hfs Hs Hu Hp Hleaf Hnb Hfresh s'.
  destruct (rename_entry_ok s src p leaf Hfs Hs Hu Hp Hleaf Hnb) as (Hfs' & Hnew & Hoth & Hfile); [intros j Hj _; by apply Hfresh|].
  split; [done|]. split; try done.
  - intros [E1 E2]. by apply (Hfresh src).
  - intros j Hj Hne _. by apply Hoth.
  - apply Hfile. by apply (dir_used s src (proj1 Hfs)); [unfold in_inodes; lia|].
  - intros ns Hr. assert (resolves s' 0 ns p) as Hr'.
    { apply (resolves_frame s s' 0 ns p Hr). intros c Hb Hc. apply Hoth; [unfold in_inodes; lia|]. by intros ->. }
    replace leaf with (n_name (node_at s' src)) by (fold s' in Hnew; by rewrite Hnew). fold s' in Hnew.
    apply (resolves_snoc s' 0 ns p src Hr'); [lia|..]; unfold used, parent; by rewrite Hnew.
Qed.

Lemma rename_over s src p leaf dst :
  fs_ok s -> 0 < src < TMPFS_MAX_NODES -> used s src = true -> dir_at s p -> name_ok leaf -> ~ below s src p ->
  0 < dst < TMPFS_MAX_NODES -> used s dst = true -> parent s dst = p -> n_name (node_at s dst) = leaf -> dst <> src ->
  ino_of s dst <> ino_of s src -> childless s dst ->
  let s' := rename_entry src p leaf (tmpfs_drop_node dst s) in
  fs_ok s' /\ moved s s' src p leaf.
Proof.
  intros Hfs Hs Hu Hp Hleaf Hnb Hd Hdu Hdp Hdn Hne Hino Hkids s'. pose proof Hfs as [Ht _].
  pose proof (drop_node_ok s dst Hfs Hd Hdu Hkids) as Hfs1.
  destruct (drop_node_effect s dst Hfs Hd Hdu) as (_ & Hf & Hz & _ & Hsf). set (s1 := tmpfs_drop_node dst s) in *.
  assert (forall c, in_inodes c -> c <> dst -> node_at s1 c = node_at s c) as Hn1 by apply Hf.
  assert (forall i, 0 < i < TMPFS_MAX_NODES -> in_inodes i) as Hin by (unfold in_inodes; lia).
  assert (p <> dst) as Hpd by (intros ->; by apply (Hkids dst Hd Hdu)).
  assert (forall c, below s1 c p -> below s c p) as Hbel.
  { intros c (k & E). exists k. revert E. destruct Hp as (Hpi & Hpu & _). clear - Ht Hpi Hpu Hn1 Hkids Hpd Hin.
    revert p Hpi Hpu Hpd. induction k as [|k IH]; intros p Hpi Hpu Hpd; [done|]. cbn. destruct (Z.leb_spec p 0) as [|Hpp]; [done|].
    assert (0 < p < TMPFS_MAX_NODES) as Hp' by (unfold in_inodes in *; lia).
    unfold parent at 1. rewrite Hn1 by done. destruct (tr_node s Ht p Hp' Hpu) as (? & ? & _). apply IH; try done. by apply Hkids. }
  destruct Hp as (Hpi & Hpu & Hpdir).
  assert (shared s s1 dst (ino_of s dst)) as Hsh.
  { intros j Hj Hjd Huj Hjx. destruct (tr_node s Ht dst Hd Hdu) as (_ & _ & _ & Hx & _).
    destruct Hfs1 as [Ht1 _]. pose proof (tr_live s1 Ht1 j Hj) as Hl. destruct (frame_used _ _ _ _ _ Hf Hj Hjd) as (E1 & _ & E2 & _).
    rewrite E1, E2, Hjx in Hl. split; [by apply Hl|]. destruct (drop_node_effect s dst Hfs Hd Hdu) as (_ & _ & _ & Ha & _).
    unfold after_drop in Ha. fold s1 in Ha. destruct (_ && _); [rewrite Ha in Hl; by specialize (Hl Huj)|].
    destruct Ha as (_ & Hm & _). unfold dir_mode. by rewrite Hm. }
  destruct (rename_free s1 src p leaf Hfs1 Hs) as (Hfs' & [M1 M2 M3 M4 M5]).
  - destruct (frame_used _ _ _ _ src Hf (Hin _ Hs) (not_eq_sym Hne)) as (-> & _). done.
  - split; [done|]. destruct (frame_used _ _ _ _ p Hf Hpi Hpd) as (-> & _). split; [done|].
    by destruct (frame_inode _ _ _ _ p Ht Hf Hsh Hpi Hpd Hpu) as [_ ->].
  - done.
  - intros Hb. by apply Hnb, Hbel.
  - intros j Hj Huj Hpj Hnj. destruct (decide (j = dst)) as [->|Hjd]; [unfold used in Huj; by rewrite Hz in Huj|].
    destruct (frame_used _ _ _ _ j Hf (Hin _ Hj) Hjd) as (E1 & E2 & _ & E4). apply Hjd. apply (tr_names s Ht); congruence.
  - fold s' in Hfs', M1, M3, M4, M5. assert (ino_of s1 src = ino_of s src) as Ei by (unfold ino_of; by rewrite Hn1 by auto).
    rewrite Ei in M1, M4. destruct (dir_used s src Ht (Hin _ Hs) Hu) as [Hsx _].
    split; [done|]. split; try done.
    + intros [E1 E2]. destruct Hne. apply (tr_names s Ht); congruence.
    + intros j Hj Hjs Huj. rewrite M3 by done. apply Hn1; [done|]. intros ->. specialize (M3 dst Hj Hjs Huj).
      unfold used in Huj. rewrite M3, Hz in Huj. done.
    + etrans; [by apply Hsf; [|apply not_eq_sym] | done].
    + intros ns Hr. apply M5. apply (resolves_frame s s1 0 ns p Hr). intros c Hb Hc. apply Hn1; [by apply Hin|].
      intros ->. rewrite <- Hdp in Hb. by apply (child_not_above s dst Ht Hd Hdu).
Qed.

(** The outcomes of [tmpfs_rename]: an error that changes nothing, the two
    names already naming one inode, or the move. *)
Definition rename_outcome (old_rel new_rel : option cstr) s (rc : Z) s' : Prop :=
  (rc < 0 /\ s' = s) \/
  (rc = 0 /\ exists src p leaf,
     0 < src < TMPFS_MAX_NODES /\ used s src = true /\ resolves s 0 (path_names (default [] old_rel)) src /\
     (zlen (default [] new_rel) < 512 -> exists ns, path_names (default [] new_rel) = ns ++ [leaf] /\ resolves s 0 ns p) /\
     ((s' = s /\ exists dst, 0 < dst < TMPFS_MAX_NODES /\ used s dst = true /\ parent s dst = p /\
         n_name (node_at s dst) = leaf /\ ino_of s dst = ino_of s src) \/
      moved s s' src p leaf)).

Lemma rename_spec old_rel new_rel s rc s' :
  fs_ok s -> tmpfs_rename old_rel new_rel s = (rc, s') -> fs_ok s' /\ rename_outcome old_rel new_rel s rc s'.
Proof.
  intros Hfs Hs. pose proof Hfs as [Ht _]. unfold tmpfs_rename in Hs. destruct (tmpfs_lookup_any old_rel s) as [src s1] eqn:E1.
  destruct (lookup_any_sound _ _ _ _ Hfs E1) as [-> Hsrc].
  assert (forall e, e < 0 -> (e, s) = (rc, s') -> fs_ok s' /\ rename_outcome old_rel new_rel s rc s') as Herr.
  { intros e He [= <- <-]. split; [done|]. by left. }
  destruct (Z.leb_spec src 0) as [Hle|Hpos].
  { destruct (Z.ltb_spec src 0); (eapply Herr; [|exact Hs]); done. }
  destruct (Hsrc ltac:(lia)) as (Hsi & Hsu & Hsr). assert (0 < src < TMPFS_MAX_NODES) as Hs' by (unfold in_inodes in Hsi; lia).
  destruct (tmpfs_parent new_rel s) as [[p leaf] s2] eqn:E2. destruct (parent_sound _ _ _ _ _ Hfs E2) as [-> Hpar].
  destruct (Z.eqb_spec p (- EEXIST)); [eapply Herr; [|exact Hs]; done|].
  destruct (Z.ltb_spec p 0) as [|Hp0]; [by eapply Herr|]. destruct (Hpar Hp0) as (Hp & Hleaf & Hns).
  destruct (is_ancestor _ src p s) eqn:Ean; [eapply Herr; [|exact Hs]; done|].
  assert (~ below s src p) as Hnb.
  { destruct Hp as (? & ? & _). intros Hb. apply is_ancestor_below in Hb; try done; [congruence | lia]. }
  assert (forall s'', fs_ok s'' -> ((s'' = s /\ exists dst, 0 < dst < TMPFS_MAX_NODES /\ used s dst = true /\ parent s dst = p /\
      n_name (node_at s dst) = leaf /\ ino_of s dst = ino_of s src) \/ moved s s'' src p leaf) -> (0, s'') = (rc, s') ->
    fs_ok s' /\ rename_outcome old_rel new_rel s rc s') as Hgo.
  { intros s'' F M [= <- <-]. split; [done|]. right. split; [done|]. exists src, p, leaf. done. }
  destruct (find_child_cases s p leaf _ eq_refl) as [(Hneg & Hfresh) | (Hc & Hcu & Hcp & Hcn)].
  - rewrite (proj2 (Z.eqb_neq _ src)), (proj2 (Z.ltb_ge 0 _)) in Hs by lia.
    destruct (rename_free s src p leaf) as (F & M); try done. eapply Hgo; [exact F | by right | exact Hs].
  - set (dst := tmpfs_find_child s p leaf) in *. destruct (Z.eqb_spec dst src) as [Eds|Hne].
    { eapply Hgo; [exact Hfs | | exact Hs]. left. split; [done|]. exists dst. by rewrite Eds in *. }
    rewrite (proj2 (Z.ltb_lt 0 dst)) in Hs by lia. fold (ino_of s dst) (ino_of s src) in Hs.
    destruct (Z.eqb_spec (ino_of s dst) (ino_of s src)) as [Ei|Hni].
    { eapply Hgo; [exact Hfs | | exact Hs]. left. split; [done|]. by exists dst. }
    destruct (negb (Bool.eqb _ _)); [eapply Herr; [|exact Hs]; by destruct (tmpfs_isdir s dst)|].
    assert (forall b : bool, (if b then (- ENOTEMPTY, s) else (0, rename_entry src p leaf (tmpfs_drop_node dst s))) = (rc, s') ->
      (b = false -> childless s dst) -> fs_ok s' /\ rename_outcome old_rel new_rel s rc s') as Hlast.
    { intros b Hb Hk. destruct b; [by apply (Herr (- ENOTEMPTY))|]. destruct (rename_over s src p leaf dst) as (F & M); try done; [by apply Hk|].
      eapply Hgo; [exact F | by right | exact Hb]. }
    apply (Hlast _ Hs). intros Hb. apply andb_false_iff in Hb as [Hb|Hb]; [by apply file_childless | by apply has_children_spec].
Qed.

(** ** The remaining operations *)

Lemma create_ok rel cd cf w s r s' : fs_ok s -> tmpfs_lookup rel cd cf w s = (r, s') -> fs_ok s'.
Proof. intros Hfs Hs. by apply lookup_sound in Hs as (? & _). Qed.

Lemma rmdir_ok rel s rc s' : fs_ok s -> tmpfs_rmdir rel s = (rc, s') -> fs_ok s'.
Proof.
  intros Hfs Hs. unfold tmpfs_rmdir in Hs. destruct (tmpfs_lookup rel false false true s) as [i s1] eqn:E.
  destruct (lookup_sound _ _ _ _ _ _ _ Hfs E) as (_ & _ & N1 & L1). rewrite N1 in * by done. clear N1.
  destruct (Z.ltb_spec i 0) as [|H0]; [by injection Hs as <- <-|]. destruct (Z.eqb_spec i 0); [by injection Hs as <- <-|].
  destruct (tmpfs_has_children s i) eqn:Ek; [by injection Hs as <- <-|]. injection Hs as <- <-.
  destruct (L1 H0) as (? & ? & _). apply drop_node_ok; try done; [unfold in_inodes in *; lia | by apply has_children_spec].
Qed.

(** [tmpfs_unlink] of anything but a directory that is not empty. *)
Lemma unlink_ok rel s rc s' : fs_ok s -> tmpfs_unlink rel s = (rc, s') ->
  (forall i, names_node s rel false i -> 0 <= i -> childless s i) -> fs_ok s'.
Proof.
  intros Hfs Hs Hk. unfold tmpfs_unlink in Hs. destruct (tmpfs_lookup rel false false false s) as [i s1] eqn:E.
  destruct (lookup_sound _ _ _ _ _ _ _ Hfs E) as (_ & _ & N1 & L1). rewrite N1 in * by done. clear N1.
  destruct (Z.ltb_spec i 0) as [_|H0].
  - destruct (tmpfs_lookup rel false false true s) as [j s2] eqn:E2.
    destruct (lookup_sound _ _ _ _ _ _ _ Hfs E2) as (_ & _ & N2 & L2). rewrite N2 in * by done. clear N2.
    destruct (Z.ltb_spec j 0) as [|H0]; [by injection Hs as <- <-|].
    destruct (tmpfs_has_children s j) eqn:Ek; [by injection Hs as <- <-|]. destruct (Z.eqb_spec j 0); [by injection Hs as <- <-|].
    injection Hs as <- <-. destruct (L2 H0) as (? & ? & _). apply drop_node_ok; try done; [unfold in_inodes in *; lia | by apply has_children_spec].
  - destruct (Z.eqb_spec i 0); [by injection Hs as <- <-|]. injection Hs as <- <-.
    destruct (L1 H0) as (? & ? & ? & _). apply drop_node_ok; try done; [unfold in_inodes in *; lia | by apply Hk].
Qed.

(** One inode changes, no entry does. *)
Lemma tree_inode s s' x :
  tree_ok s -> 0 < x < TMPFS_MAX_NODES -> inode_only x s s' -> zlen (inodes s') = TMPFS_MAX_NODES ->
  i_used (inode_at s x) = true ->
  (i_used (inode_at s' x) = true -> dir_mode (inode_at s' x) = dir_mode (inode_at s x) /\
     i_nlink (inode_at s' x) = i_nlink (inode_at s x) /\ 0 <= i_opens (inode_at s' x) /\
     (links s x = 0 -> 0 < i_opens (inode_at s' x)) /\ (dir_mode (inode_at s x) = true -> i_opens (inode_at s' x) = 0)) ->
  (i_used (inode_at s' x) = false -> links s x = 0) -> tree_ok s'.
Proof.
  intros Ht Hx [Hn Hr Ho] Hl Hu Hon Hoff.
  assert (forall j, node_at s' j = node_at s j) as Hat by (intros; unfold node_at; by rewrite Hn).
  assert (forall j, used s' j = used s j /\ parent s' j = parent s j /\ ino_of s' j = ino_of s j) as Hsame.
  { intros j. unfold used, parent, ino_of. by rewrite Hat. }
  assert (forall j, in_inodes j -> used s j = true -> i_used (inode_at s' (ino_of s j)) = true /\ tmpfs_isdir s' j = tmpfs_isdir s j) as Hlive.
  { intros j Hj Huj. rewrite !isdir_mode. destruct (Hsame j) as (_ & _ & ->). destruct (dir_used s j Ht Hj Huj) as [Hi Hiu].
    destruct (decide (ino_of s j = x)) as [E|E]; [|by rewrite Ho].
    destruct (i_used (inode_at s' x)) eqn:Eu; [rewrite E, Eu; split; [done | by apply Hon]|].
    pose proof (links_pos s j Hj Huj) as Hp. rewrite E, Hoff in Hp by done. lia. }
  assert (forall y, links s' y = links s y) as Hlk.
  { intros y. by apply links_nodes. }
  pose proof Ht as [Hl1 _ Hrd (R1 & R2 & R3 & R4) Hnode Hnames (d & Hd) _ Hlnk].
  split; try congruence.
  - destruct (Hsame 0) as (-> & -> & ->). by destruct (Hlive 0) as [_ ->].
  - intros i Hi. destruct (Hsame i) as (-> & -> & ->). rewrite Hat. intros Hui.
    destruct (Hnode i Hi Hui) as (Hp & Hpu & Hpd & ? & ?). destruct (Hsame (parent s i)) as (-> & _ & _).
    by destruct (Hlive _ Hp Hpu) as [_ ->].
  - intros i j Hi Hj. destruct (Hsame i) as (-> & -> & _), (Hsame j) as (-> & -> & _). rewrite !Hat. by apply Hnames.
  - exists d. intros i Hi. destruct (Hsame i) as (-> & -> & _). by apply Hd.
  - intros i Hi. destruct (Hsame i) as (-> & _ & ->). intros Hui. by apply Hlive.
  - intros y Hy. rewrite Hlk. destruct (decide (y = x)) as [->|Hne]; [|rewrite Ho by (done || unfold in_inodes; lia); by apply Hlnk].
    intros Hyu. destruct (Hon Hyu) as (-> & -> & D3 & D4 & D5). destruct (Hlnk x Hy Hu) as (? & _ & _ & L4).
    split_and!; try done. intros Hdm. split; [by apply L4 | by apply D5].
Qed.

Lemma heap_fs s h : fs_ok s -> fs_ok (set_heap h s).
Proof. intros Hfs. apply (touched_ok s); [done | by split | by apply data_heap, Hfs]. Qed.

Lemma close_ok h s rc s' : fs_ok s -> tmpfs_close h s = (rc, s') -> fs_ok s'.
Proof.
  intros Hfs Hs. destruct h as [h|]; [|by injection Hs as <- <-]. cbn in Hs.
  destruct (tmpfs_hin h s) as [x|] eqn:Eh; injection Hs as <- <-; [|by apply heap_fs]. apply heap_fs.
  destruct (hin_spec h s x Eh) as (_ & Hpos & Hxi & Hxu). pose proof Hfs as [Ht Hd].
  assert (0 < x < TMPFS_MAX_NODES) as Hx by (unfold in_inodes in Hxi; lia).
  destruct (tr_links s Ht x Hx Hxu) as (L1 & L2 & L3 & L4).
  set (s1 := if 0 <? i_opens (inode_at s x) then _ else s).
  assert (fs_data_ok s1 /\ inode_only x s s1 /\ inode_at s1 x = set_opens (Z.max 0 (i_opens (inode_at s x) - 1)) (inode_at s x)) as (Hd1 & Hio & E1).
  { unfold s1. destruct (Z.ltb_spec 0 (i_opens (inode_at s x))).
    - destruct (data_attr s x (fun n => set_opens (i_opens n - 1) n) Hd Hxi) as (? & ? & E); [done|].
      split_and!; try done. rewrite E. f_equal. lia.
    - split_and!; try done. replace (Z.max 0 _) with (i_opens (inode_at s x)) by lia. by destruct (inode_at s x). }
  destruct (put_inode_ok s1 x Hd1 Hx) as (Hd2 & Hio2 & E2). rewrite E1 in E2. unfold put_gone in E2. cbn in E2. rewrite Hxu in E2.
  cbn [andb] in E2. split; [|done]. apply (tree_inode s _ x); try done; [by eapply inode_only_trans | apply Hd2|..].
  - intros Hu'. destruct (_ && _) eqn:Eg; [by rewrite E2 in Hu'|]. rewrite E2. cbn. split_and!; try done; try lia.
    intros Hdm. destruct (L4 Hdm) as [_ ->]. lia.
  - intros Hu'. destruct (_ && _) eqn:Eg; [apply andb_true_iff in Eg as [Eg%Z.eqb_eq _]; lia|]. rewrite E2 in Hu'. cbn in Hu'. congruence.
Qed.

(** Contents of one inode change, its attributes do not. *)
Lemma kept_tree s s' x : fs_ok s -> fs_data_ok s' -> names_kept x s s' ->
  (forall j, in_inodes j -> j <> x -> inode_at s' j = inode_at s j) -> fs_ok s'.
Proof.
  intros [Ht _] Hd (Hn & Hr & Hm) Ho. split; [|done]. apply (tree_ext s); try done; [apply Hd | rewrite Hr; apply Ht |].
  intros y Hy. destruct (decide (y = x)) as [->|Hne]; [|by rewrite Ho]. unfold meta_of in Hm.
  injection Hm as E1 E2 _ _ E5 E6 _. split; [done|]. intros _. unfold dir_mode. by rewrite E2.
Qed.

Lemma set_len_fs x len s rc s' : fs_ok s -> in_inodes x -> i_used (inode_at s x) = true -> 0 <= len ->
  (len <= i_size (inode_at s x) -> len <= 0xFFFF0000) -> tmpfs_set_len x len s = (rc, s') -> fs_ok s'.
Proof.
  intros Hfs Hx Hu Hl Hsm Hs. destruct (tmpfs_set_len_spec x len s rc s' (proj2 Hfs) Hx Hu Hl Hsm Hs) as (Hd & Hk & Ho & _).
  by eapply kept_tree.
Qed.

Lemma write_fs h src size s r h' s' : fs_ok s -> 0 <= h_pos h < 2 ^ 32 -> 0 <= size <= zlen src -> size < 2 ^ 31 ->
  tmpfs_write h src size s = (r, h', s') -> fs_ok s'.
Proof.
  intros Hfs Hp Hsz H31 Hs. destruct (tmpfs_hin h s) as [x|] eqn:Eh.
  - destruct (tmpfs_write_spec h src size s r h' s' x (proj2 Hfs) Eh Hp Hsz H31 Hs) as (Hd & Hk & Ho & _). by eapply kept_tree.
  - unfold tmpfs_write in Hs. rewrite Eh in Hs. by injection Hs as <- <- <-.
Qed.

Lemma open_ok rel flags s h s' : fs_ok s ->
  (forall x, in_inodes x -> i_opens (inode_at s x) < 2 ^ 31 - 1) -> tmpfs_open rel flags s = (h, s') -> fs_ok s'.
Proof.
  intros Hfs Hb Hs. unfold tmpfs_open in Hs. destruct (tmpfs_lookup rel false false false s) as [i0 s0] eqn:E0.
  destruct (lookup_sound _ _ _ _ _ _ _ Hfs E0) as (_ & _ & N0 & L0). rewrite N0 in * by done. clear N0.
  set (res := if (i0 <? 0) && has flags VFS_O_CREATE then _ else (i0, s)) in Hs.
  assert (exists i s1, res = (i, s1) /\ fs_ok s1 /\ grows s s1 /\ (0 <= i -> in_inodes i /\ used s1 i = true /\ 0 < i)) as (i & s1 & Er & Hfs1 & Hg & Hi).
  { unfold res. destruct ((i0 <? 0) && has flags VFS_O_CREATE).
    - destruct (tmpfs_lookup rel true true false s) as [i s1] eqn:E1. exists i, s1.
      destruct (lookup_sound _ _ _ _ _ _ _ Hfs E1) as (? & ? & _ & L1). split_and!; try done. intros ?. destruct L1 as (? & ? & _ & ?); auto.
    - exists i0, s. split_and!; try done. intros ?. destruct L0 as (? & ? & _ & ?); auto. }
  rewrite Er in Hs. clear res Er. destruct (Z.ltb_spec i 0) as [|Hi0]; [by injection Hs as <- <-|].
  destruct (Hi Hi0) as (Hii & Hiu & Hip). destruct (tmpfs_isdir s1 i || tmpfs_islnk s1 i) eqn:Edl; [by injection Hs as <- <-|].
  apply orb_false_iff in Edl as [Hnd _]. rewrite isdir_mode in Hnd. fold (ino_of s1 i) in Hs. set (x := ino_of s1 i) in *.
  pose proof Hfs1 as [Ht1 Hd1]. destruct (tr_node s1 Ht1 i) as (_ & _ & _ & Hx & _); [unfold in_inodes in Hii; lia | done |]. fold x in Hx.
  assert (in_inodes x) as Hxi by (unfold in_inodes; lia). assert (i_used (inode_at s1 x) = true) as Hxu by (by apply tr_live).
  set (s2 := if has flags VFS_O_TRUNC then _ else s1) in Hs.
  assert (fs_data_ok s2 /\ inode_only x s1 s2 /\ meta_of (inode_at s2 x) = meta_of (inode_at s1 x)) as (Hd2 & Hio2 & Em2).
  { unfold s2. destruct (has flags VFS_O_TRUNC); [|done]. destruct (free_data_ok s1 x Hd1 Hxi) as (Hd2 & Hdo & E2).
    set (t := tmpfs_free_data x s1) in *. destruct (d_shape t (proj1 Hd2) x Hxi) as [? ? ? ? ?].
    destruct (data_set t x (set_mtime (tmpfs_now s1) (set_ctime (tmpfs_now s1) (set_size 0 (inode_at t x))))) as (? & [? ? Ho] & E3); try done.
    { apply tail_zero_nil. cbn. by rewrite E2. }
    split_and!; [done| |].
    - split; [apply Hdo | apply Hdo |]. intros y Hy Hne. unfold upd_inode. rewrite Ho by done. by apply Hdo.
    - unfold upd_inode. rewrite E3, E2. done. }
  assert (fs_ok s2) as Hfs2 by (eapply (kept_tree s1 s2 x); [done | done | split_and!; [apply Hio2 | apply Hio2 | done] | apply Hio2]).
  destruct (hp_kalloc 12 (t_heap s2)) as [ha hp]. destruct (ha =? 0); injection Hs as <- <-; [by apply heap_fs|].
  pose proof (heap_fs s2 hp Hfs2) as [Ht3 Hd3]. set (s3 := set_heap hp s2) in *.
  assert (inode_at s3 x = inode_at s2 x) as E3 by done. unfold meta_of in Em2. injection Em2 as M1 M2 _ _ M5 M6 _.
  assert (i_used (inode_at s3 x) = true) as Hxu3 by congruence.
  destruct (data_attr s3 x (fun n => set_opens (s32 (i_opens n + 1)) n) Hd3 Hxi) as (Hd4 & Hio4 & E4); [done|].
  split; [|done]. destruct (tr_links s3 Ht3 x Hx Hxu3) as (L1 & L2 & L3 & L4).
  assert (i_opens (inode_at s3 x) < 2 ^ 31 - 1) as Hbx.
  { rewrite E3, M6. destruct (i_used (inode_at s x)) eqn:Eu.
    - destruct (gr_inode _ _ Hg x Hxi Eu) as [[_ Hm] _]. destruct (Hm Eu) as (_ & _ & ->). by apply Hb.
    - rewrite (gr_new _ _ Hg x Hxi Eu Hxu). lia. }
  apply (tree_inode s3 _ x); try done; [apply Hd4|..]; rewrite E4; cbn; [|congruence].
  rewrite s32_small by lia. intros _. split_and!; try done; try lia.
  intros Hdm. rewrite E3 in Hdm. unfold dir_mode in *. rewrite M2 in Hdm. congruence.
Qed.

Lemma symlink_ok rel target s rc s' : fs_ok s -> tmpfs_symlink rel target s = (rc, s') -> fs_ok s'.
Proof.
  intros Hfs Hs. unfold tmpfs_symlink in Hs. destruct (zlen target =? 0); [by injection Hs as <- <-|].
  destruct (Z.ltb_spec TMPFS_LINK_MAX (zlen target)) as [|Htl]; [by injection Hs as <- <-|].
  destruct (tmpfs_parent rel s) as [[p leaf] s1] eqn:E1. destruct (parent_sound _ _ _ _ _ Hfs E1) as [-> Hpar].
  destruct (Z.ltb_spec p 0) as [|Hp0]; [by injection Hs as <- <-|]. destruct (Hpar Hp0) as (Hp & Hleaf & _).
  destruct (find_child_cases s p leaf _ eq_refl) as [(Hneg & Hfresh) | (Hc & _)].
  2:{ rewrite (proj2 (Z.leb_le 0 _)) in Hs by lia. by injection Hs as <- <-. }
  rewrite (proj2 (Z.leb_gt 0 _)) in Hs by lia. destruct (hp_kalloc _ _) as [t h]. pose proof (heap_fs s h Hfs) as Hfs1.
  set (s1 := set_heap h s) in *. destruct (t =? 0); [by injection Hs as <- <-|].
  destruct (tmpfs_alloc_inode _ s1) as [x s2] eqn:Ea.
  destruct (alloc_inode_spec s1 _ x s2 (proj2 Hfs1) Ea) as [(-> & -> & _) | (Hx & Hxu & Hd2 & Hio & E2)].
  { injection Hs as <- <-. by apply heap_fs. }
  rewrite (proj2 (Z.ltb_ge x 0)) in Hs by lia. assert (in_inodes x) as Hxi by (unfold in_inodes; lia).
  set (g n := set_size (u32 (zlen target)) (set_target (Some (t, target)) n)) in *.
  assert (0 <= u32 (zlen target) < 2 ^ 32) as Hu by apply u32_bound.
  destruct (data_set s2 x (g (inode_at s2 x)) Hd2 Hxi) as (Hd3 & Hio3 & E3).
  { rewrite E2. split; try done. by intros ? ? []%elem_of_nil. }
  { apply tail_zero_nil. by rewrite E2. }
  { done. }
  change (set_inode x (g (inode_at s2 x)) s2) with (upd_inode x g s2) in *.
  destruct (tmpfs_add_node p leaf x (upd_inode x g s2)) as [r s3] eqn:Eadd.
  destruct (new_entry s1 (upd_inode x g s2) s3 p leaf x r) as (Hfs' & _); try done; try by rewrite E3, E2.
  { by eapply inode_only_trans. }
  by destruct (r <? 0); injection Hs as <- <-.
Qed.

Lemma link_ok old_rel new_rel s rc s' : fs_ok s -> tmpfs_link old_rel new_rel s = (rc, s') -> fs_ok s'.
Proof.
  intros Hfs Hs. pose proof Hfs as [Ht Hd]. unfold tmpfs_link in Hs.
  destruct (tmpfs_lookup_any old_rel s) as [src s1] eqn:E1. destruct (lookup_any_sound _ _ _ _ Hfs E1) as [-> Hsrc].
  destruct (Z.ltb_spec src 0) as [|Hs0]; [by injection Hs as <- <-|]. destruct (Hsrc Hs0) as (Hsi & Hsu & _).
  destruct (tmpfs_isdir s src) eqn:Edir; [by injection Hs as <- <-|].
  destruct (tmpfs_parent new_rel s) as [[p leaf] s2] eqn:E2. destruct (parent_sound _ _ _ _ _ Hfs E2) as [-> Hpar].
  destruct (Z.ltb_spec p 0) as [|Hp0]; [by injection Hs as <- <-|]. destruct (Hpar Hp0) as ((Hp & Hpu & Hpd) & Hleaf & _).
  destruct (find_child_cases s p leaf _ eq_refl) as [(Hneg & Hfresh) | (Hc & _)].
  2:{ rewrite (proj2 (Z.leb_le 0 _)) in Hs by lia. by injection Hs as <- <-. }
  rewrite (proj2 (Z.leb_gt 0 _)) in Hs by lia. fold (ino_of s src) in Hs. set (x := ino_of s src) in *.
  destruct (tmpfs_add_node p leaf x s) as [r s3] eqn:Ea. destruct (dir_used s p Ht Hp Hpu) as [Hpi _].
  destruct (add_node_spec s p leaf x r s3) as [(-> & -> & _) | (Hr & Hru & Hd3 & Hr3 & Hl3 & Hnew & Hoth & Hm)]; try done; [apply Ht | apply Hleaf | by injection Hs as <- <- |].
  rewrite (proj2 (Z.ltb_ge r 0)) in Hs by lia. injection Hs as <- <-.
  rewrite Hoth by (done || intros ->; congruence). fold (ino_of s src). fold x.
  assert (src <> 0) as Hsn by (intros ->; destruct (tr_root s Ht) as (_ & _ & _ & ?); congruence).
  destruct (tr_node s Ht src) as (_ & _ & _ & Hx & _); [unfold in_inodes in Hsi; lia | done |]. fold x in Hx.
  assert (in_inodes x) as Hxi by (unfold in_inodes; lia). assert (i_used (inode_at s x) = true) as Hxu by (by apply tr_live).
  destruct (tr_links s Ht x Hx Hxu) as (L1 & L2 & L3 & L4). pose proof (links_bound s x) as Hlb.
  destruct (Hm x Hxi) as [[M1 M2] _]. destruct (M2 Hxu) as (M3 & M4 & M5).
  destruct (data_attr s3 x (fun n => set_ctime (tmpfs_now s3) (set_nlink (i_nlink n +32 1) n)) Hd3 Hxi) as (Hd4 & [N4 R4 I4] & E4); [done|].
  set (s4 := upd_inode x (fun n => _) s3) in *. split; [|done].
  apply (tree_add s s4 r p x leaf); try done; rewrite ?E4; cbn.
  - split; [by rewrite N4 | apply Hd4 | rewrite R4, Hr3; apply Ht | |].
    + intros j Hj Hne. unfold node_at. rewrite N4. by apply Hoth.
    + intros y Hy Hne. rewrite I4 by done. by apply Hm.
  - congruence.
  - rewrite M4, L1, u32_small by (unfold TMPFS_MAX_NODES in *; lia). done.
  - lia.
  - rewrite M5. intros Hdm. apply L4. by rewrite <- M3.
  - intros _. rewrite isdir_mode in Edir. fold x in Edir. split; [done|]. unfold dir_mode in *. cbn. by rewrite M3.
Qed.

Lemma touch_fs s x f : fs_ok s -> in_inodes x -> quiet f -> fs_ok (upd_inode x f s).
Proof. intros Hfs Hx Hq. destruct (touch s x f (proj2 Hfs) Hx Hq) as (? & ?). by eapply touched_ok. Qed.

(** Neither chmod nor chown changes the file type. *)
Lemma quiet_chmod mode : quiet (fun n => set_mode (Z.lor (Z.land (i_mode n) T_IFMT) (Z.land mode 0xFFF)) n).
Proof.
  intros n. split_and!; try done. unfold dir_mode. cbn [i_mode set_mode]. f_equal.
  rewrite Z.land_lor_distr_l, <- !Z.land_assoc. change (Z.land 4095 T_IFMT) with 0. by rewrite Z.land_0_r, Z.lor_0_r.
Qed.
Lemma quiet_chown_bits : quiet (fun n => set_mode (Z.land (i_mode n) (u32 (Z.lnot 0xC00))) n).
Proof. intros n. split_and!; try done. unfold dir_mode. cbn [i_mode set_mode]. by rewrite <- Z.land_assoc. Qed.

Lemma setattr_ok rel what mode uid gid s rc s' : fs_ok s -> tmpfs_setattr rel what mode uid gid s = (rc, s') -> fs_ok s'.
Proof.
  intros Hfs Hs. unfold tmpfs_setattr in Hs. destruct (tmpfs_lookup_any rel s) as [i s1] eqn:E1.
  destruct (lookup_any_sound _ _ _ _ Hfs E1) as [-> Hi]. destruct (Z.ltb_spec i 0) as [|Hi0]; [by injection Hs as <- <-|].
  destruct (Hi Hi0) as (Hii & Hiu & _). destruct (dir_used s i (proj1 Hfs) Hii Hiu) as [Hx _]. fold (ino_of s i) in Hs.
  injection Hs as <- <-. apply touch_fs; [|done|apply quiet_ctime].
  set (s1 := if has what VFS_SA_MODE && _ then _ else s).
  assert (fs_ok s1) as Hfs1 by (unfold s1; case_match; [by apply touch_fs, quiet_chmod | done]).
  destruct (has what VFS_SA_OWNER); [|done].
  set (s2 := if uid =? _ then s1 else _). assert (fs_ok s2) as Hfs2 by (unfold s2; case_match; [done | by apply touch_fs]).
  set (s3 := if gid =? _ then s2 else _). assert (fs_ok s3) as Hfs3 by (unfold s3; case_match; [done | by apply touch_fs]).
  case_match; [by apply touch_fs, quiet_chown_bits | done].
Qed.

Lemma truncate_ok rel len s rc s' : fs_ok s -> 0 <= len <= 0xFFFF0000 -> tmpfs_truncate rel len s = (rc, s') -> fs_ok s'.
Proof.
  intros Hfs Hl Hs. unfold tmpfs_truncate in Hs. destruct (tmpfs_lookup rel false false false s) as [i s1] eqn:E1.
  destruct (lookup_sound _ _ _ _ _ _ _ Hfs E1) as (_ & _ & N1 & L1). rewrite N1 in * by done.
  destruct (Z.ltb_spec i 0) as [|H0]; [by injection Hs as <- <-|]. destruct (tmpfs_isdir s i); [by injection Hs as <- <-|].
  destruct (tmpfs_islnk s i); [by injection Hs as <- <-|]. destruct (L1 H0) as (Hi & Hu & _).
  destruct (dir_used s i (proj1 Hfs) Hi Hu) as [Hx Hxu]. eapply set_len_fs; [exact Hfs | exact Hx | exact Hxu | | | exact Hs]; lia.
Qed.

Lemma ftruncate_ok h len s rc s' : fs_ok s -> 0 <= len <= 0xFFFF0000 -> tmpfs_ftruncate h len s = (rc, s') -> fs_ok s'.
Proof.
  intros Hfs Hl Hs. unfold tmpfs_ftruncate in Hs. destruct (tmpfs_hin h s) as [x|] eqn:Eh; [|by injection Hs as <- <-].
  destruct (hin_spec h s x Eh) as (_ & _ & Hx & Hu). eapply set_len_fs; [exact Hfs | exact Hx | exact Hu | | | exact Hs]; lia.
Qed.

(** ** Every operation *)

(** One call into tmpfs.  [unlink] stands for calls on files and on
    directories without entries; the write count is at most the buffer and
    lengths stay where the 32-bit chunk count does not wrap. *)
Inductive fs_step s : tmpfs H -> Prop :=
  | st_open rel flags h s' : (forall x, in_inodes x -> i_opens (inode_at s x) < 2 ^ 31 - 1) ->
      tmpfs_open rel flags s = (h, s') -> fs_step s s'
  | st_close h rc s' : tmpfs_close h s = (rc, s') -> fs_step s s'
  | st_write h src size r h' s' : 0 <= h_pos h < 2 ^ 32 -> 0 <= size <= zlen src -> size < 2 ^ 31 ->
      tmpfs_write h src size s = (r, h', s') -> fs_step s s'
  | st_truncate rel len rc s' : 0 <= len <= 0xFFFF0000 -> tmpfs_truncate rel len s = (rc, s') -> fs_step s s'
  | st_ftruncate h len rc s' : 0 <= len <= 0xFFFF0000 -> tmpfs_ftruncate h len s = (rc, s') -> fs_step s s'
  | st_create rel rc s' : tmpfs_create rel s = (rc, s') -> fs_step s s'
  | st_mkdir rel rc s' : tmpfs_mkdir rel s = (rc, s') -> fs_step s s'
  | st_rmdir rel rc s' : tmpfs_rmdir rel s = (rc, s') -> fs_step s s'
  | st_unlink rel rc s' : (forall i, names_node s rel false i -> 0 <= i -> childless s i) ->
      tmpfs_unlink rel s = (rc, s') -> fs_step s s'
  | st_rename old new rc s' : tmpfs_rename old new s = (rc, s') -> fs_step s s'
  | st_link old new rc s' : tmpfs_link old new s = (rc, s') -> fs_step s s'
  | st_symlink rel target rc s' : tmpfs_symlink rel target s = (rc, s') -> fs_step s s'
  | st_setattr rel what mode uid gid rc s' : tmpfs_setattr rel what mode uid gid s = (rc, s') -> fs_step s s'.

Lemma fs_step_ok s s' : fs_ok s -> fs_step s s' -> fs_ok s'.
Proof.
  intros Hfs Hst. destruct Hst.
  - by eapply open_ok.
  - by eapply close_ok.
  - by eapply write_fs.
  - by eapply truncate_ok.
  - by eapply ftruncate_ok.
  - unfold tmpfs_create in *. destruct (tmpfs_lookup _ _ _ _ _) eqn:E. simplify_eq. by eapply create_ok.
  - unfold tmpfs_mkdir in *. destruct (tmpfs_lookup _ _ _ _ _) eqn:E. simplify_eq. by eapply create_ok.
  - by eapply rmdir_ok.
  - by eapply unlink_ok.
  - by eapply rename_spec.
  - by eapply link_ok.
  - by eapply symlink_ok.
  - by eapply setattr_ok.
Qed.

(** ** The fresh filesystem *)

Lemma sum_chunks_replicate k : sum_chunks (replicate k zero_inode) = 0.
Proof. induction k as [|k IH]; [done|]. cbn [replicate]. by rewrite sum_chunks_cons, IH. Qed.

Lemma zget_replicate {A} `{!Inhabited A} k (x : A) i : x = inhabitant -> zget (replicate k x) i = x.
Proof.
  intros E. unfold zget. destruct (decide (Z.to_nat i < k)%nat); [by apply lookup_total_replicate_2|].
  assert (replicate k x !! Z.to_nat i = None) as En by (apply lookup_replicate_None; lia).
  by rewrite list_lookup_total_alt, En.
Qed.

Lemma init_root_ok s : tmpfs_used_bytes s = 0 -> 0 <= tmpfs_limit_bytes s < 2 ^ 63 -> fs_ok (tmpfs_init_root s).
Proof.
  intros Hz Hl. set (s0 := tmpfs_init_root s).
  set (root := set_nlink 1 (set_mode (Z.lor T_IFDIR 0x3FF) (mk_inode true 0 0 0 0 0 0 [] 0 None 0 0))).
  assert (forall j, 0 <= j -> node_at s0 j = if decide (j = 0) then mk_node true (-1) 0 [] else zero_node) as Hn.
  { intros j Hj. unfold node_at, s0, tmpfs_init_root. cbn [nodes]. case_decide.
    - subst j. apply zget_zset_eq. rewrite zlen_replicate; done.
    - rewrite zget_zset_ne by lia. by apply zget_replicate. }
  assert (forall j, 0 <= j -> inode_at s0 j = if decide (j = 0) then root else zero_inode) as Hi.
  { intros j Hj. unfold inode_at, s0, tmpfs_init_root. cbn [inodes]. case_decide.
    - subst j. apply zget_zset_eq. rewrite zlen_replicate; done.
    - rewrite zget_zset_ne by lia. by apply zget_replicate. }
  assert (forall j, 0 < j -> used s0 j = false) as Hu by (intros j Hj; unfold used; by rewrite Hn, decide_False by lia).
  assert (forall j, 0 < j -> i_used (inode_at s0 j) = false) as Hiu by (intros j Hj; by rewrite Hi, decide_False by lia).
  split; split.
  - cbn [s0 tmpfs_init_root nodes]. rewrite zlen_zset, zlen_replicate; done.
  - cbn [s0 tmpfs_init_root inodes]. rewrite zlen_zset, zlen_replicate; done.
  - done.
  - rewrite isdir_mode. unfold used, parent, ino_of. rewrite Hn, decide_True by lia. cbn. rewrite Hi, decide_True by lia. done.
  - intros i Hr Hui. rewrite Hu in Hui by lia. done.
  - intros i j Hr _ Hui. rewrite Hu in Hui by lia. done.
  - exists (fun _ => O). intros i Hr Hui. rewrite Hu in Hui by lia. done.
  - intros i Hr Hui. destruct (decide (i = 0)) as [->|]; [|rewrite Hu in Hui by (unfold in_inodes in Hr; lia); done].
    unfold ino_of. rewrite Hn, decide_True by lia. cbn. by rewrite Hi, decide_True by lia.
  - intros x Hr Hxu. rewrite Hiu in Hxu by lia. done.
  - split.
    + cbn [s0 tmpfs_init_root inodes]. rewrite zlen_zset, zlen_replicate; done.
    + intros i Hr. rewrite Hi by (unfold in_inodes in Hr; lia). case_decide; [|apply zero_shape].
      split; try done. by intros ? ? []%elem_of_nil.
    + cbn [s0 tmpfs_init_root inodes tmpfs_used_bytes]. rewrite sum_chunks_zset by (rewrite zlen_replicate; done).
      rewrite sum_chunks_replicate, zget_replicate by done. cbn. lia.
    + cbn. lia.
  - intros i Hr. rewrite Hi by (unfold in_inodes in Hr; lia). case_decide; by apply tail_zero_nil.
Qed.
End ops.
