(* ===== verification/TmpfsProps.v ===== *)
(** * tmpfs: theorems

    What the filesystem of src/tmpfs.c promises to its callers, from the
    lemmas of TmpfsTree.v and TmpfsOps.v, with concrete instances of the
    theorems of this file and of TmpfsData.v. *)
From S2P Require Import Prelude Paths Heap Pmm PmmInit Slab HeapTrace Tmpfs TmpfsData TmpfsTree TmpfsOps.

Section props.
Context {H : Type} `{!KHeap H}.
Implicit Types (s : tmpfs H) (i j x : Z).

#[local] Opaque links.

Lemma resolves_unique s cur ws i j : tree_ok s -> resolves s cur ws i -> resolves s cur ws j -> i = j.
Proof.
  intros Ht. revert cur. induction ws as [|w ws IH]; intros cur; cbn; [congruence|].
  intros (c & Hc & Hu & Hp & Hn & Hr) (c' & Hc' & Hu' & Hp' & Hn' & Hr').
  assert (c = c') as <- by (apply (tr_names s Ht); congruence). by apply (IH c).
Qed.

(** Fewer entries, fewer paths. *)
Lemma resolves_sub s s' cur ws i :
  (forall j, 0 < j < TMPFS_MAX_NODES -> used s' j = true -> node_at s' j = node_at s j) ->
  resolves s' cur ws i -> resolves s cur ws i.
Proof.
  intros Hsub. revert cur. induction ws as [|w ws IH]; intros cur; cbn; [done|].
  intros (c & Hc & Hu & Hp & Hn & Hr). pose proof (Hsub c Hc Hu) as E. exists c. unfold used, parent in *. rewrite E in *.
  split_and!; try done; try lia. by apply IH.
Qed.

Lemma resolves_in s cur ws i : tree_ok s -> in_inodes cur -> used s cur = true -> resolves s cur ws i ->
  in_inodes i /\ used s i = true /\ (ws <> [] -> 0 < i).
Proof.
  intros Ht. revert cur. induction ws as [|w ws IH]; intros cur Hc Hu; [by intros ->|].
  intros (c & Hcr & Hcu & _ & _ & Hr). destruct (IH c) as (? & ? & Hpos); try done; [unfold in_inodes; lia|].
  split_and!; try done. intros _. destruct ws; [cbn in Hr; lia | by apply Hpos].
Qed.

Lemma names_file s rel i : tree_ok s -> names_node s rel false i -> 0 < i < TMPFS_MAX_NODES /\ used s i = true.
Proof.
  intros Ht [Hr [Hne _]]. destruct (root_dir s Ht) as (H0 & Hu0 & _). destruct (resolves_in s 0 _ i Ht H0 Hu0 Hr) as (Hi & Hu & Hp).
  split; [|done]. specialize (Hp Hne). unfold in_inodes in Hi. lia.
Qed.

(** C14 Over any sequence of operations on a fresh tmpfs, the tree stays a tree
    of directories with unique names, link counts count the entries, an inode
    lives exactly while an entry or an open handle refers to it, and the byte
    count is the number of chunks held and within the limit.  Excluded are
    [unlink] of a directory that has entries, truncation to more than
    0xFFFF0000 bytes, writes of 2^31 bytes or more, and 2^31 opens of one
    inode. *)
Theorem tmpfs_sound s0 s :
  tmpfs_used_bytes s0 = 0 -> 0 <= tmpfs_limit_bytes s0 < 2 ^ 63 ->
  rtc fs_step (tmpfs_init_root s0) s -> fs_ok s.
Proof.
  intros Hz Hl Hr. pose proof (init_root_ok s0 Hz Hl) as Hi.
  induction Hr as [|a b c Hst _ IH]; [done|]. apply IH. by eapply fs_step_ok.
Qed.

(** Looking up a path changes nothing and returns exactly the entry the
    path's names lead to from the root: a directory if one is wanted, and
    otherwise no path that is empty or ends in a slash. *)
Theorem tmpfs_lookup_exact rel want_dir s r s' :
  fs_ok s -> tmpfs_lookup rel false false want_dir s = (r, s') ->
  s' = s /\ forall i, 0 <= i -> (r = i <-> names_node s rel want_dir i).
Proof.
  intros Hfs Hs. destruct (lookup_sound _ _ _ _ _ _ _ Hfs Hs) as (_ & _ & N & L). rewrite N in * by done.
  split; [done|]. intros i Hi. split.
  - intros ->. by apply L.
  - intros Hn. rewrite (lookup_complete rel want_dir s i Hfs Hn) in Hs. by injection Hs as <-.
Qed.

(** A file or directory that [tmpfs_create] or [tmpfs_mkdir] reports made
    is found under its path, and everything that was there before is still
    there with the same contents. *)
Theorem tmpfs_create_found rel (dir : bool) s s' :
  fs_ok s -> (if dir then tmpfs_mkdir rel s else tmpfs_create rel s) = (0, s') ->
  (exists i, tmpfs_lookup rel false false dir s' = (i, s') /\ in_inodes i /\ used s' i = true) /\ grows s s' /\ fs_ok s'.
Proof.
  intros Hfs Hs.
  assert (exists r, tmpfs_lookup rel true (negb dir) dir s = (r, s') /\ 0 <= r) as (r & El & Hr).
  { destruct dir; unfold tmpfs_mkdir, tmpfs_create in Hs; destruct (tmpfs_lookup _ _ _ _ _) as [r s1] eqn:E; exists r;
      injection Hs as Hr <-; (split; [done|]); destruct (Z.ltb_spec r 0); lia. }
  destruct (lookup_sound _ _ _ _ _ _ _ Hfs El) as (Hfs' & Hg & _ & L). destruct (L Hr) as (? & ? & Hn & _).
  split_and!; try done. exists r. split; [|done]. by apply lookup_complete.
Qed.


(** A file that is unlinked while open: its path is gone, the handle still
    reaches the inode with every byte, and the last close frees the inode. *)
Theorem tmpfs_unlink_deferred rel s s' h x i :
  fs_ok s -> tmpfs_hin h s = Some x -> names_node s rel false i -> ino_of s i = x -> tmpfs_isdir s i = false ->
  0 < i_opens (inode_at s x) -> tmpfs_unlink rel s = (0, s') ->
  fs_ok s' /\ (tmpfs_lookup rel false false false s').1 < 0 /\
  tmpfs_hin h s' = Some x /\ file_bytes (inode_at s' x) = file_bytes (inode_at s x) /\
  (links s x = 1 -> i_opens (inode_at s x) = 1 -> inode_at (tmpfs_close (Some h) s').2 x = zero_inode).
Proof.
  intros Hfs Hh Hn Hx Hnd Hop Hs. pose proof Hfs as [Ht _]. destruct (hin_spec h s x Hh) as (Ex & Hx0 & Hxi & Hxu).
  pose proof (lookup_complete rel false s i Hfs Hn) as El. destruct (lookup_sound _ _ _ _ _ _ _ Hfs El) as (_ & _ & _ & L).
  destruct (names_file s rel i Ht Hn) as (Hi & Hiu).
  unfold tmpfs_unlink in Hs. rewrite El in Hs. rewrite (proj2 (Z.ltb_ge i 0)), (proj2 (Z.eqb_neq i 0)) in Hs by lia.
  injection Hs as <-. pose proof (file_childless s i Ht Hnd) as Hk.
  pose proof (drop_node_ok s i Hfs Hi Hiu Hk) as Hfs'. destruct (drop_node_effect s i Hfs Hi Hiu) as (_ & Hf & Hz & Ha & _).
  set (s' := tmpfs_drop_node i s) in *. rewrite Hx in *. unfold after_drop in Ha.
  rewrite (proj2 (Z.eqb_neq (i_opens (inode_at s x)) 0)), andb_false_r in Ha by lia. destruct Ha as (A1 & A2 & A3 & A4 & A5 & A6).
  assert (tmpfs_hin h s' = Some x) as Hh'.
  { unfold tmpfs_hin. rewrite <- Ex, A1. unfold in_inodes in Hxi. by rewrite (proj2 (Z.leb_gt x 0)), (proj2 (Z.leb_gt _ x)) by lia. }
  split_and!; try done.
  - destruct (tmpfs_lookup rel false false false s') as [r s2] eqn:El2. destruct (Z.ltb_spec r 0) as [|Hr]; [done|]. exfalso.
    destruct (lookup_sound _ _ _ _ _ _ _ Hfs' El2) as (_ & _ & N & L2). rewrite N in * by done. destruct (L2 Hr) as (_ & Hru & [Hr2 _] & _).
    assert (r = i) as ->; [|unfold used in Hru; by rewrite Hz in Hru].
    apply (resolves_unique s 0 (path_names (default [] rel)) r i Ht); [|apply Hn].
    apply (resolves_sub s s'); [|done]. intros j Hj Huj. apply (fr_node _ _ _ _ Hf); [unfold in_inodes; lia|].
    intros ->. unfold used in Huj. by rewrite Hz in Huj.
  - unfold file_bytes, byte_at. by rewrite A5, A6.
  - intros Hl1 Ho1. rewrite Hl1 in A3. rewrite Ho1 in A4. cbn [tmpfs_close snd]. rewrite Hh', A4. cbn [Z.ltb Z.compare].
    destruct (data_attr s' x (fun n => set_opens (i_opens n - 1) n) (proj2 Hfs') Hxi) as (Hd2 & _ & E2); [done|].
    change (inode_at (tmpfs_put_inode x (upd_inode x (fun n => set_opens (i_opens n - 1) n) s')) x = zero_inode).
    destruct (put_inode_ok _ x Hd2 ltac:(unfold in_inodes in Hxi; lia)) as (_ & _ & E3). rewrite E3, E2.
    unfold put_gone. cbn. by rewrite A1, A3, A4.
Qed.

(** [tmpfs_unlink] of a directory that still has entries (its guard against
    that is only reached for paths that end in a slash) returns success, frees
    the directory, and leaves its entries with a parent that does not exist. *)
Theorem tmpfs_unlink_orphans rel s i c :
  fs_ok s -> names_node s rel false i -> 0 < c < TMPFS_MAX_NODES -> used s c = true -> parent s c = i ->
  let s' := (tmpfs_unlink rel s).2 in
  (tmpfs_unlink rel s).1 = 0 /\ used s' c = true /\ parent s' c = i /\ used s' i = false /\ ~ tree_ok s'.
Proof.
  intros Hfs Hn Hc Hcu Hcp s'. pose proof Hfs as [Ht _]. destruct (names_file s rel i Ht Hn) as (Hi & Hiu).
  assert (tmpfs_unlink rel s = (0, tmpfs_drop_node i s)) as E.
  { unfold tmpfs_unlink. rewrite (lookup_complete rel false s i Hfs Hn).
    by rewrite (proj2 (Z.ltb_ge i 0)), (proj2 (Z.eqb_neq i 0)) by lia. }
  unfold s'. rewrite E. cbn [fst snd]. destruct (drop_node_effect s i Hfs Hi Hiu) as (_ & Hf & Hz & _).
  assert (c <> i) as Hne by (intros ->; apply (child_not_above s i Ht Hi Hiu); rewrite Hcp; apply below_refl).
  destruct (frame_used _ _ _ _ c Hf ltac:(unfold in_inodes; lia) Hne) as (E1 & E2 & _).
  assert (used (tmpfs_drop_node i s) i = false) as Hgone by (unfold used; by rewrite Hz).
  rewrite E1, E2. split_and!; try done. intros Ht'. destruct (tr_node _ Ht' c Hc) as (_ & Hpu & _); [by rewrite E1|].
  rewrite E2, Hcp in Hpu. congruence.
Qed.

Definition dirent_of s i : dirent :=
  mk_dirent (kstrncpy (n_name (node_at s i)) 256) (u32 (n_ino (node_at s i)) +32 1)
    (tmpfs_isdir s i) (tmpfs_islnk s i) (i_size (NI s i)).

Lemma readdir_loop {A} (f : Z -> bool) (g : Z -> A) mx n i (acc : list A) :
  zlen acc <= mx ->
  zfor n i (fun i acc => if negb (zlen acc <? mx) then acc else if f i then acc ++ [g i] else acc) acc =
  acc ++ ztake (mx - zlen acc) (g <$> filter (fun i => f i = true) (seqZ i (Z.of_nat n))).
Proof.
  revert i acc. induction n as [|n IH]; intros i acc Hl; cbn [zfor].
  { rewrite seqZ_nil by lia. unfold ztake. destruct (Z.to_nat _); by rewrite app_nil_r. }
  rewrite (seqZ_cons i) by lia. replace (Z.pred (Z.of_nat (S n))) with (Z.of_nat n) by lia. replace (Z.succ i) with (i + 1) by lia.
  destruct (Z.ltb_spec (zlen acc) mx) as [Hlt|Hge]; cbn [negb].
  - destruct (f i) eqn:Ef.
    + rewrite IH by (rewrite zlen_app; unfold zlen in *; cbn; lia). rewrite filter_cons_True by done. rewrite <- app_assoc. f_equal.
      rewrite zlen_app. unfold ztake, zlen in *. cbn [length app fmap list_fmap].
      replace (Z.to_nat (mx - Z.of_nat (length acc))) with (S (Z.to_nat (mx - (Z.of_nat (length acc) + Z.of_nat 1)))) by lia. done.
    + rewrite IH by done. by rewrite filter_cons_False by congruence.
  - rewrite IH by done. unfold ztake.
    replace (Z.to_nat (mx - zlen acc)) with O by lia. done.
Qed.

(** [tmpfs_readdir] lists exactly the entries of the directory, in table
    order, cut at the caller's capacity, each with its name, kind and size. *)
Theorem tmpfs_readdir_exact rel max_entries s idx r es s' :
  fs_ok s -> names_node s rel true idx -> 0 <= max_entries < 2 ^ 31 ->
  tmpfs_readdir rel max_entries s = (r, es, s') ->
  s' = s /\ r = zlen es /\
  es = ztake max_entries (dirent_of s <$> filter (fun i => used s i = true /\ parent s i = idx) (seqZ 1 (TMPFS_MAX_NODES - 1))).
Proof.
  intros Hfs Hn Hm Hs. unfold tmpfs_readdir in Hs. rewrite (lookup_complete rel true s idx Hfs Hn) in Hs.
  destruct (root_dir s (proj1 Hfs)) as (H0 & Hu0 & _). destruct (resolves_in s 0 _ idx (proj1 Hfs) H0 Hu0 (proj1 Hn)) as (Hi & _).
  rewrite (proj2 (Z.ltb_ge idx 0)) in Hs by (unfold in_inodes in Hi; lia).
  assert (zlen (@nil dirent) <= max_entries) as Hnil by (unfold zlen; cbn; lia).
  pose proof (readdir_loop (is_child s idx) (dirent_of s) max_entries (Z.to_nat (TMPFS_MAX_NODES - 1)) 1 [] Hnil) as Hloop.
  rewrite Z2Nat.id in Hloop by (unfold TMPFS_MAX_NODES; lia). unfold dirent_of at 1 in Hloop. rewrite Hloop in Hs. clear Hloop.
  injection Hs as <- <- <-. cbn [app].
  rewrite Z.sub_0_r. set (l := ztake _ _).
  assert (zlen l <= max_entries) as Hl by (unfold l; rewrite zlen_ztake; lia).
  split; [done|]. split; [apply s32_small; unfold zlen in *; lia|]. unfold l. do 2 f_equal.
  apply list_filter_iff. intros j. unfold is_child. rewrite andb_true_iff, Z.eqb_eq. done.
Qed.
End props.

(** ** A small filesystem: the directory /d with the file f, open for writing *)

(** 64 MiB of free pages, more than the reserve that writes leave. *)
Definition roomy : pmm := mk_pmm 16384 0x1000 0xFFFF800000000000 16384 (replicate (Z.to_nat 2048) 0) 0 16384 (replicate (Z.to_nat 16384) 0).
Definition root_fs : tmpfs kmem :=
  tmpfs_init_root (mk_tmpfs [] [] false TMPFS_MIN_BYTES 0 (kmem_boot roomy) 1700000000).
Definition d_fs : tmpfs kmem := (make_entry (Z.lor T_IFDIR 0x1ED) 0 (bytes_of "d") root_fs).2.
Definition f_fs : tmpfs kmem := (make_entry (Z.lor T_IFREG 0x1A4) 1 (bytes_of "f") d_fs).2.
Definition open_fs : tmpfs kmem := upd_inode 2 (fun n => set_opens (s32 (i_opens n + 1)) n) f_fs.
Definition f_handle : handle := mk_handle 64 2 0 VFS_O_WRITE.

Lemma root_fs_ok : fs_ok root_fs.
Proof. apply init_root_ok; [done | cbn; unfold TMPFS_MIN_BYTES; lia]. Qed.

Lemma fresh_check {H} `{!KHeap H} (s : tmpfs H) p name :
  zlen (nodes s) = TMPFS_MAX_NODES ->
  forallb (fun n => negb (n_used n && (n_parent n =? p) && bytes_eqb (n_name n) name)) (nodes s) = true -> fresh_in s p name.
Proof.
  intros Hl Hb j Hj Hu Hp Hn. pose proof (forallb_zget _ _ j Hb ltac:(lia)) as Hc. cbn beta in Hc. fold (node_at s j) in Hc.
  unfold used, parent in *. rewrite Hu, Hp, Hn, Z.eqb_refl in Hc. unfold bytes_eqb in Hc. by rewrite bool_decide_eq_true_2 in Hc.
Qed.

Lemma d_name_ok : name_ok (bytes_of "d") /\ name_ok (bytes_of "f").
Proof. split; (split; [vm_compute; done|]); vm_compute; intros Hx; by apply list_elem_of_singleton in Hx. Qed.

Lemma d_fs_ok : fs_ok d_fs.
Proof.
  destruct (make_entry (Z.lor T_IFDIR 0x1ED) 0 (bytes_of "d") root_fs) as [r s'] eqn:E. unfold d_fs. rewrite E.
  destruct (make_entry_spec root_fs (Z.lor T_IFDIR 0x1ED) 0 (bytes_of "d") r s' root_fs_ok) as (Hfs & _).
  - apply root_dir, root_fs_ok.
  - apply d_name_ok.
  - apply fresh_check; [apply root_fs_ok | by vm_compute].
  - exact E.
  - exact Hfs.
Qed.

Lemma f_fs_ok : fs_ok f_fs.
Proof.
  destruct (make_entry (Z.lor T_IFREG 0x1A4) 1 (bytes_of "f") d_fs) as [r s'] eqn:E. unfold f_fs. rewrite E.
  destruct (make_entry_spec d_fs (Z.lor T_IFREG 0x1A4) 1 (bytes_of "f") r s' d_fs_ok) as (Hfs & _).
  - split; [split; done|]. by vm_compute.
  - apply d_name_ok.
  - apply fresh_check; [apply d_fs_ok | by vm_compute].
  - exact E.
  - exact Hfs.
Qed.

Lemma open_fs_ok : fs_ok open_fs.
Proof.
  destruct f_fs_ok as [Ht Hd]. assert (in_inodes 2) as Hi by (split; done).
  destruct (data_attr f_fs 2 (fun n => set_opens (s32 (i_opens n + 1)) n) Hd Hi) as (Hd' & Hio & E); [done|].
  split; [|exact Hd']. apply (tree_inode f_fs open_fs 2); [exact Ht | split; done | exact Hio | apply Hd' | by vm_compute |..];
    unfold open_fs; rewrite E; [|by vm_compute]. intros _. split_and!; [by vm_compute | by vm_compute | by vm_compute | by vm_compute |].
  vm_compute. done.
Qed.

Lemma f_path : names_node open_fs (Some (bytes_of "/d/f")) false 2.
Proof.
  split; [|split; by vm_compute]. change (path_names _) with [bytes_of "d"; bytes_of "f"].
  exists 1. split; [split; done|]. split; [by vm_compute|]. split; [by vm_compute|]. split; [by vm_compute|].
  exists 2. split; [split; done|]. by vm_compute.
Qed.

Lemma d_path : names_node open_fs (Some (bytes_of "/d")) false 1.
Proof.
  split; [|split; by vm_compute]. change (path_names _) with [bytes_of "d"].
  exists 1. split; [split; done|]. by vm_compute.
Qed.

Lemma tmpfs_sound_witness :
  fs_ok (tmpfs_rename (Some (bytes_of "a/b")) (Some (bytes_of "c"))
           (tmpfs_create (Some (bytes_of "a/b")) (tmpfs_mkdir (Some (bytes_of "a")) root_fs).2).2).2.
Proof.
  apply (tmpfs_sound (mk_tmpfs [] [] false TMPFS_MIN_BYTES 0 (kmem_boot roomy) 1700000000)); [reflexivity | split; reflexivity || discriminate |].
  fold root_fs. eapply rtc_l; [eapply st_mkdir, surjective_pairing|].
  eapply rtc_l; [eapply st_create, surjective_pairing|].
  eapply rtc_l; [eapply st_rename, surjective_pairing | apply rtc_refl].
Defined.

Lemma tmpfs_lookup_exact_witness : (tmpfs_lookup (Some (bytes_of "/d/f")) false false false open_fs).1 = 2.
Proof.
  pose proof (tmpfs_lookup_exact (Some (bytes_of "/d/f")) false open_fs _ _ open_fs_ok (surjective_pairing _)) as [_ Hr].
  apply (Hr 2); [discriminate | exact f_path].
Defined.

Lemma tmpfs_create_found_witness :
  exists s' i, tmpfs_create (Some (bytes_of "g")) root_fs = (0, s') /\
    tmpfs_lookup (Some (bytes_of "g")) false false false s' = (i, s').
Proof.
  exists (tmpfs_create (Some (bytes_of "g")) root_fs).2.
  assert ((tmpfs_create (Some (bytes_of "g")) root_fs) = (0, (tmpfs_create (Some (bytes_of "g")) root_fs).2)) as E.
  { rewrite (surjective_pairing (tmpfs_create _ _)) at 1. apply (f_equal2 pair); [by vm_compute | reflexivity]. }
  destruct (tmpfs_create_found (Some (bytes_of "g")) false root_fs (tmpfs_create (Some (bytes_of "g")) root_fs).2 root_fs_ok E) as [(i & Hi & _) _].
  exists i. split; [exact E | exact Hi].
Defined.


Lemma tmpfs_unlink_deferred_witness :
  let s' := (tmpfs_unlink (Some (bytes_of "/d/f")) open_fs).2 in
  tmpfs_hin f_handle s' = Some 2 /\ inode_at (tmpfs_close (Some f_handle) s').2 2 = zero_inode.
Proof.
  assert (tmpfs_unlink (Some (bytes_of "/d/f")) open_fs = (0, (tmpfs_unlink (Some (bytes_of "/d/f")) open_fs).2)) as E.
  { rewrite (surjective_pairing (tmpfs_unlink _ _)) at 1. apply (f_equal2 pair); [by vm_compute | reflexivity]. }
  destruct (tmpfs_unlink_deferred (Some (bytes_of "/d/f")) open_fs (tmpfs_unlink (Some (bytes_of "/d/f")) open_fs).2 f_handle 2 2 open_fs_ok) as (_ & _ & Hh & _ & Hc);
    [by vm_compute | exact f_path | by vm_compute | by vm_compute | by vm_compute | exact E |].
  split; [exact Hh|]. apply Hc; by vm_compute.
Defined.

Lemma tmpfs_unlink_orphans_witness : ~ tree_ok (tmpfs_unlink (Some (bytes_of "/d")) open_fs).2.
Proof.
  apply (tmpfs_unlink_orphans (Some (bytes_of "/d")) open_fs 1 2 open_fs_ok d_path); [split; reflexivity | by vm_compute | by vm_compute].
Defined.

Lemma tmpfs_readdir_exact_witness :
  exists r es s', tmpfs_readdir (Some (bytes_of "/d")) 8 open_fs = (r, es, s') /\ s' = open_fs /\ r = zlen es.
Proof.
  destruct (tmpfs_readdir (Some (bytes_of "/d")) 8 open_fs) as [[r es] s'] eqn:E. exists r, es, s'. split; [reflexivity|].
  destruct (tmpfs_readdir_exact (Some (bytes_of "/d")) 8 open_fs 1 r es s' open_fs_ok) as (E1 & E2 & _).
  - split; [exact (proj1 d_path) | by vm_compute].
  - split; reflexivity || discriminate.
  - exact E.
  - split; [exact E1 | exact E2].
Defined.

(** Instances of the theorems on file contents. *)

Definition written_fs : tmpfs kmem := (tmpfs_write f_handle [7; 8; 9] 3 open_fs).2.
Lemma written_fs_ok : fs_data_ok written_fs.
Proof.
  unfold written_fs. destruct (tmpfs_write f_handle [7; 8; 9] 3 open_fs) as [[r h'] s'] eqn:E.
  destruct (tmpfs_write_spec f_handle [7; 8; 9] 3 open_fs r h' s' 2 (proj2 open_fs_ok)) as (Hfs & _);
    [by vm_compute | split; reflexivity || discriminate | split; reflexivity || discriminate | reflexivity | exact E | exact Hfs].
Qed.
Lemma written_bytes : file_bytes (inode_at written_fs 2) = [7; 8; 9] /\ tmpfs_hin f_handle written_fs = Some 2.
Proof. split; vm_compute; reflexivity. Qed.

Lemma tmpfs_read_exact_witness :
  exists r out h', tmpfs_read f_handle 16 written_fs = (r, out, h') /\ out = [7; 8; 9] /\ r = 3.
Proof.
  destruct written_bytes as [Hb Hh]. destruct (tmpfs_read f_handle 16 written_fs) as [[r out] h'] eqn:E. exists r, out, h'. split; [reflexivity|].
  destruct (tmpfs_read_exact f_handle 16 written_fs 2 r out h' written_fs_ok Hh) as (H1 & H2 & _);
    [discriminate | split; reflexivity || discriminate | exact E|].
  rewrite Hb in H1. split; [exact H1|]. rewrite H2, H1. reflexivity.
Defined.

Lemma tmpfs_write_exact_witness :
  exists h' s', tmpfs_write f_handle [7; 8; 9] 3 open_fs = (3, h', s') /\ file_bytes (inode_at s' 2) = [7; 8; 9].
Proof.
  assert ((tmpfs_write f_handle [7; 8; 9] 3 open_fs).1.1 = 3) as E3 by (vm_compute; reflexivity).
  destruct (tmpfs_write f_handle [7; 8; 9] 3 open_fs) as [[r h'] s'] eqn:E. cbn in E3. subst r. exists h', s'. split; [reflexivity|].
  destruct (tmpfs_write_exact f_handle [7; 8; 9] 3 open_fs 3 h' s' 2 (proj2 open_fs_ok)) as (_ & _ & _ & _ & Hb & _);
    [by vm_compute | split; reflexivity || discriminate | split; reflexivity || discriminate | reflexivity | exact E |].
  exact Hb.
Defined.

Lemma tmpfs_set_len_exact_witness :
  exists rc s', tmpfs_set_len 2 5 open_fs = (rc, s') /\ nodes s' = nodes open_fs.
Proof.
  destruct (tmpfs_set_len 2 5 open_fs) as [rc s'] eqn:E. exists rc, s'. split; [reflexivity|].
  destruct (tmpfs_set_len_exact 2 5 open_fs rc s' (proj2 open_fs_ok)) as (_ & Hk & _);
    [split; reflexivity || discriminate | by vm_compute | discriminate | discriminate | exact E |].
  exact (proj1 Hk).
Defined.

Lemma tmpfs_shrink_wraps_witness :
  byte_at (inode_at (tmpfs_shrink 2 0xFFFF8000 open_fs) 2) 5 = 0.
Proof.
  apply (tmpfs_shrink_wraps 2 0xFFFF8000 open_fs 5 (proj1 (proj2 open_fs_ok)));
    [split; reflexivity || discriminate | split; reflexivity | discriminate].
Defined.
