(* ===== verification/Vmm.v ===== *)
(** * The virtual memory manager: state and operations

    The second half of src/mem.c: four-level page tables built from frames of
    the kernel heap, copy-on-write reference counts, and the operations that
    map, unmap, clone and tear down address spaces.  Page tables are words in
    memory, addressed by the virtual address of their frame in the
    higher-half map.  TLB maintenance and frees are recorded in a trace, in
    the order in which the code performs them. *)
From S2P Require Import Prelude Heap.

Definition VMM_PRESENT : Z := 2 ^ 0.
Definition VMM_WRITABLE : Z := 2 ^ 1.
Definition VMM_USER : Z := 2 ^ 2.
Definition VMM_HUGE : Z := 2 ^ 7.
Definition VMM_COW : Z := 2 ^ 9.
Definition VMM_DEVICE : Z := 2 ^ 10.
Definition VMM_SHARED : Z := 2 ^ 11.
Definition PTE_ADDR_MASK : Z := 0x000FFFFFFFFFF000.
Definition PTE_FLAGS_MASK : Z := u64 (Z.lnot PTE_ADDR_MASK).
Definition PT_PAGE : Z := 4096.

Definition PML4_INDEX (v : Z) : Z := Z.land (Z.shiftr v 39) 0x1FF.
Definition PDP_INDEX (v : Z) : Z := Z.land (Z.shiftr v 30) 0x1FF.
Definition PD_INDEX (v : Z) : Z := Z.land (Z.shiftr v 21) 0x1FF.
Definition PT_INDEX (v : Z) : Z := Z.land (Z.shiftr v 12) 0x1FF.

(** What the page allocator tells beyond [KHeap]: whether a frame, given by
    its virtual address, is a live one-page allocation (1), free (-1) or
    neither (0), and the addresses between which all blocks lie. *)
Class KFrames (H : Type) `{!KHeap H} := {
  hp_frame_kind : Z -> H -> Z;
  hp_base : H -> Z;
  hp_top : H -> Z;
}.

Class KFramesLaws (H : Type) `{!KHeap H, !KFrames H} := {
  kind_live h v : heap_ok h -> heap_live h v PT_PAGE -> hp_frame_kind v h = 1;
  kind_one h v : heap_ok h -> 0 <= v < 2 ^ 64 -> v mod PT_PAGE = 0 -> hp_frame_kind v h = 1 -> heap_live h v PT_PAGE;
  live_window h p n : heap_ok h -> heap_live h p n -> hp_base h <= p /\ p + n <= hp_top h;
  kalloc_window h n : hp_base (hp_kalloc n h).2 = hp_base h /\ hp_top (hp_kalloc n h).2 = hp_top h;
  kfree_window h p : hp_base (hp_kfree p h) = hp_base h /\ hp_top (hp_kfree p h) = hp_top h;
  kalloc_page h h' p : heap_ok h -> hp_kalloc PT_PAGE h = (p, h') -> p <> 0 ->
    heap_live h' p PT_PAGE /\ p mod PT_PAGE = 0;
}.

(** Entries cleared, TLB maintenance and releases, in program order. *)
Inductive vevent :=
  | Cleared (table index : Z)
  | Invlpg (va : Z)
  | ShootdownAs (as_phys : Z)
  | ShootdownAll
  | Freed (v : Z).

Section vmm.
Context {H : Type} `{!KHeap H, !KFrames H}.

(** The globals of the component; [v_hhdm] is [vmm_higher_half_offset]. *)
Record vmm := mk_vmm {
  v_heap : H;
  v_mem : gmap Z (list Z);
  v_hhdm : Z;
  kernel_pml4 : Z;
  vmm_page_refcounts : option (list Z);
  vmm_max_phys_pages : Z;
  v_cr3 : Z;
  v_trace : list vevent;
}.

Definition set_vheap (h : H) (s : vmm) : vmm :=
  mk_vmm h (v_mem s) (v_hhdm s) (kernel_pml4 s) (vmm_page_refcounts s) (vmm_max_phys_pages s) (v_cr3 s) (v_trace s).
Definition set_vmem (m : gmap Z (list Z)) (s : vmm) : vmm :=
  mk_vmm (v_heap s) m (v_hhdm s) (kernel_pml4 s) (vmm_page_refcounts s) (vmm_max_phys_pages s) (v_cr3 s) (v_trace s).
Definition set_refs (r : option (list Z)) (s : vmm) : vmm :=
  mk_vmm (v_heap s) (v_mem s) (v_hhdm s) (kernel_pml4 s) r (vmm_max_phys_pages s) (v_cr3 s) (v_trace s).
Definition emit (e : vevent) (s : vmm) : vmm :=
  mk_vmm (v_heap s) (v_mem s) (v_hhdm s) (kernel_pml4 s) (vmm_page_refcounts s) (vmm_max_phys_pages s) (v_cr3 s)
    (v_trace s ++ [e]).

Definition phys_to_virt (s : vmm) (phys : Z) : Z := phys +64 v_hhdm s.
Definition virt_to_phys (s : vmm) (v : Z) : Z := v -64 v_hhdm s.

(** [table\[index\]], read and written. *)
Definition word (s : vmm) (table index : Z) : Z := zget (default [] (v_mem s !! table)) index.
Definition set_word (table index w : Z) (s : vmm) : vmm :=
  set_vmem (<[table := zset (default [] (v_mem s !! table)) index w]> (v_mem s)) s.

(** [*pte = 0]. *)
Definition clear_entry (table index : Z) (s : vmm) : vmm := emit (Cleared table index) (set_word table index 0 s).

(** ** Frames and reference counts *)

Definition kfree_frame (v : Z) (s : vmm) : vmm := emit (Freed v) (set_vheap (hp_kfree v (v_heap s)) s).

Definition set_ref (pfn r : Z) (s : vmm) : vmm :=
  match vmm_page_refcounts s with
  | Some l => set_refs (Some (zset l pfn r)) s
  | None => s
  end.

Definition vmm_alloc_frame (s : vmm) : Z * vmm :=
  let '(page, h) := hp_kalloc PT_PAGE (v_heap s) in
  let s := set_vheap h s in
  if page =? 0 then (0, s)
  else
    let s := set_vmem (<[page := replicate 512 0]> (v_mem s)) s in
    let phys := virt_to_phys s page in
    let s := match vmm_page_refcounts s with
             | Some _ => if phys / PT_PAGE <? vmm_max_phys_pages s then set_ref (phys / PT_PAGE) 0 s else s
             | None => s
             end in
    (phys, s).

Definition vmm_free_frame (phys_addr : Z) (s : vmm) : vmm :=
  if phys_addr =? 0 then s else kfree_frame (phys_to_virt s phys_addr) s.

Definition vmm_page_get_ref (phys_addr : Z) (s : vmm) : Z :=
  match vmm_page_refcounts s with
  | None => 0
  | Some l => if vmm_max_phys_pages s <=? phys_addr / PT_PAGE then 0 else zget l (phys_addr / PT_PAGE)
  end.

(** The compare-and-swap loops run without interference here: their first
    exchange succeeds. *)
Definition vmm_page_ref (phys_addr : Z) (s : vmm) : vmm :=
  match vmm_page_refcounts s with
  | None => s
  | Some l =>
      let pfn := phys_addr / PT_PAGE in
      if vmm_max_phys_pages s <=? pfn then s
      else if 255 <=? zget l pfn then s
      else set_ref pfn (zget l pfn + 1) s
  end.

Definition vmm_page_unref (phys_addr : Z) (s : vmm) : vmm :=
  match vmm_page_refcounts s with
  | None => s
  | Some l =>
      let pfn := phys_addr / PT_PAGE in
      if vmm_max_phys_pages s <=? pfn then s
      else
        let old := zget l pfn in
        if 255 <=? old then s
        else if old =? 0 then s
        else if old =? 1 then vmm_free_frame phys_addr (set_ref pfn 255 s)
        else set_ref pfn (old - 1) s
  end.

Definition vmm_refcount_init (total_memory_bytes : Z) (s : vmm) : vmm :=
  let n := total_memory_bytes / PT_PAGE in
  let '(p, h) := hp_kalloc n (v_heap s) in
  mk_vmm h (v_mem s) (v_hhdm s) (kernel_pml4 s)
    (if p =? 0 then None else Some (replicate (Z.to_nat n) 0)) n (v_cr3 s) (v_trace s).

Definition user_frame_kind (phys : Z) (s : vmm) : Z := hp_frame_kind (phys_to_virt s phys) (v_heap s).

Definition vmm_leaf_release (phys_addr : Z) (s : vmm) : vmm :=
  if phys_addr =? 0 then s
  else
    let untracked := if user_frame_kind phys_addr s =? 1 then vmm_free_frame phys_addr s else s in
    match vmm_page_refcounts s with
    | None => untracked
    | Some l =>
        let pfn := phys_addr / PT_PAGE in
        if vmm_max_phys_pages s <=? pfn then untracked
        else
          let r := zget l pfn in
          if 255 <=? r then s
          else
            let kind := user_frame_kind phys_addr s in
            if kind <? 0 then s
            else if kind =? 0 then s
            else if r =? 0 then vmm_free_frame phys_addr (set_ref pfn 255 s)
            else vmm_page_unref phys_addr s
    end.

Definition vmm_cow_release_old (phys_addr : Z) (s : vmm) : vmm :=
  if phys_addr =? 0 then s
  else
    let slow := vmm_leaf_release phys_addr (emit ShootdownAll s) in
    match vmm_page_refcounts s with
    | None => slow
    | Some l =>
        let pfn := phys_addr / PT_PAGE in
        if pfn <? vmm_max_phys_pages s then
          let r := zget l pfn in
          if 255 <=? r then s
          else if r <=? 1 then slow
          else set_ref pfn (r - 1) s
        else slow
    end.

(** ** Walking and changing the tables *)

Definition has_present (w : Z) : bool := has w VMM_PRESENT.
Definition entry_table (s : vmm) (w : Z) : Z := phys_to_virt s (Z.land w PTE_ADDR_MASK).

Definition vmm_get_next_level (table index : Z) (create : bool) (parent_flags : Z) (s : vmm) : Z * vmm :=
  let w := word s table index in
  if has_present w then (entry_table s w, s)
  else if negb create then (0, s)
  else
    let '(new_phys, s) := vmm_alloc_frame s in
    if new_phys =? 0 then (0, s)
    else
      (phys_to_virt s new_phys,
       set_word table index (Z.lor (Z.lor (Z.lor new_phys VMM_PRESENT) VMM_WRITABLE) parent_flags) s).

(** The three steps to the last-level table; 0 if one is missing. *)
Definition walk_to_pt (pml4 va : Z) (create : bool) (pf : Z) (s : vmm) : Z * vmm :=
  let '(pdpt, s) := vmm_get_next_level pml4 (PML4_INDEX va) create pf s in
  if pdpt =? 0 then (0, s) else
  let '(pd, s) := vmm_get_next_level pdpt (PDP_INDEX va) create pf s in
  if pd =? 0 then (0, s) else
  vmm_get_next_level pd (PD_INDEX va) create pf s.

Definition vmm_map_page_in (pml4 virtual_addr physical_addr flags : Z) (s : vmm) : Z * vmm :=
  if pml4 =? 0 then (-1, s)
  else
    let pf := if has flags VMM_USER then VMM_USER else 0 in
    let '(pt, s) := walk_to_pt pml4 virtual_addr true pf s in
    if pt =? 0 then (-1, s)
    else
      let w := Z.lor (Z.lor (Z.land physical_addr PTE_ADDR_MASK) flags) VMM_PRESENT in
      (0, emit (Invlpg virtual_addr) (set_word pt (PT_INDEX virtual_addr) w s)).

Definition vmm_unmap_page_in (pml4 virtual_addr : Z) (s : vmm) : Z * vmm :=
  if pml4 =? 0 then (-1, s)
  else
    let '(pt, s) := walk_to_pt pml4 virtual_addr false 0 s in
    if pt =? 0 then (-1, s)
    else (0, emit (Invlpg virtual_addr) (clear_entry pt (PT_INDEX virtual_addr) s)).

Definition vmm_is_mapped_in (pml4 virtual_addr : Z) (s : vmm) : Z :=
  if pml4 =? 0 then 0
  else
    let '(pt, s) := walk_to_pt pml4 virtual_addr false 0 s in
    if pt =? 0 then 0
    else
      let entry := word s pt (PT_INDEX virtual_addr) in
      if has_present entry then Z.land entry PTE_ADDR_MASK else 0.

(** The address of the entry: table and index. *)
Definition vmm_get_pte_in (pml4 virtual_addr : Z) (s : vmm) : option (Z * Z) :=
  if pml4 =? 0 then None
  else
    let '(pt, s) := walk_to_pt pml4 virtual_addr false 0 s in
    if pt =? 0 then None else Some (pt, PT_INDEX virtual_addr).

Definition vmm_map_page (va pa flags : Z) (s : vmm) : Z * vmm := vmm_map_page_in (kernel_pml4 s) va pa flags s.
Definition vmm_unmap_page (va : Z) (s : vmm) : Z * vmm := vmm_unmap_page_in (kernel_pml4 s) va s.
Definition vmm_is_mapped (va : Z) (s : vmm) : Z := vmm_is_mapped_in (kernel_pml4 s) va s.
Definition vmm_get_pte (va : Z) (s : vmm) : option (Z * Z) := vmm_get_pte_in (kernel_pml4 s) va s.

Fixpoint map_range_loop (n : nat) (i pml4 virt_start phys_start flags : Z) (s : vmm) : Z * vmm :=
  match n with
  | O => (0, s)
  | S n =>
      let '(r, s) := vmm_map_page_in pml4 (virt_start +64 i * PT_PAGE) (phys_start +64 i * PT_PAGE) flags s in
      if r =? 0 then map_range_loop n (i + 1) pml4 virt_start phys_start flags s else (r, s)
  end.
Definition vmm_map_range (pml4 virt_start phys_start num_pages flags : Z) (s : vmm) : Z * vmm :=
  map_range_loop (Z.to_nat num_pages) 0 pml4 virt_start phys_start flags s.

(** ** Unmapping a range *)

Definition VMM_UNMAP_BATCH : Z := 128.
Definition VMM_TABLE_BATCH : Z := 16.
Record vmm_unmap_batch := mk_batch { b_frames : list Z; b_tables : list Z; need_flush : bool; as_phys : Z }.

Definition vmm_unmap_batch_flush (b : vmm_unmap_batch) (s : vmm) : vmm_unmap_batch * vmm :=
  let s := if need_flush b then emit (ShootdownAs (as_phys b)) s else s in
  let s := foldl (fun s f => vmm_leaf_release f s) s (b_frames b) in
  let s := foldl (fun s t => vmm_free_frame t s) s (b_tables b) in
  (mk_batch [] [] false (as_phys b), s).

Definition vmm_table_empty (s : vmm) (t : Z) : bool :=
  match zfind 512 0 (fun i => negb (word s t i =? 0)) with Some _ => false | None => true end.

(** The parent entry is given by its table and index. *)
Definition vmm_unmap_drop_table (b : vmm_unmap_batch) (ptable pindex : Z) (s : vmm) : vmm_unmap_batch * vmm :=
  let phys := Z.land (word s ptable pindex) PTE_ADDR_MASK in
  let s := clear_entry ptable pindex s in
  let b := mk_batch (b_frames b) (b_tables b) true (as_phys b) in
  let '(b, s) := if zlen (b_tables b) =? VMM_TABLE_BATCH then vmm_unmap_batch_flush b s else (b, s) in
  (mk_batch (b_frames b) (b_tables b ++ [phys]) (need_flush b) (as_phys b), s).

(** The inner loop over the entries of one last-level table. *)
Fixpoint unmap_pt_loop (n : nat) (pt va : Z) (b : vmm_unmap_batch) (cleared : Z) (s : vmm)
    : vmm_unmap_batch * Z * vmm :=
  match n with
  | O => (b, cleared, s)
  | S n =>
      let ent := word s pt (PT_INDEX va) in
      if negb (has_present ent) then unmap_pt_loop n pt (va +64 PT_PAGE) b cleared s
      else
        let s := emit (Invlpg va) (clear_entry pt (PT_INDEX va) s) in
        let b := mk_batch (b_frames b) (b_tables b) true (as_phys b) in
        let phys := Z.land ent PTE_ADDR_MASK in
        if negb (has ent VMM_USER) || (phys =? 0) || has ent VMM_DEVICE
        then unmap_pt_loop n pt (va +64 PT_PAGE) b (cleared + 1) s
        else
          let '(b, s) := if zlen (b_frames b) =? VMM_UNMAP_BATCH then vmm_unmap_batch_flush b s else (b, s) in
          unmap_pt_loop n pt (va +64 PT_PAGE) (mk_batch (b_frames b ++ [phys]) (b_tables b) (need_flush b) (as_phys b))
            (cleared + 1) s
  end.

(** The next multiple of [2^k] after [va]. *)
Definition next_boundary (va k : Z) : Z := Z.land (va +64 2 ^ k) (u64 (Z.lnot (2 ^ k - 1))).

(** Tables that the unmap emptied, bottom-up. *)
Definition drop_empty_tables (pml4 pdpt pd pt va : Z) (b : vmm_unmap_batch) (s : vmm) : vmm_unmap_batch * vmm :=
  if vmm_table_empty s pt then
    let '(b, s) := vmm_unmap_drop_table b pd (PD_INDEX va) s in
    if vmm_table_empty s pd then
      let '(b, s) := vmm_unmap_drop_table b pdpt (PDP_INDEX va) s in
      if vmm_table_empty s pdpt then vmm_unmap_drop_table b pml4 (PML4_INDEX va) s else (b, s)
    else (b, s)
  else (b, s).

Fixpoint unmap_loop (fuel : nat) (pml4 va end_ : Z) (b : vmm_unmap_batch) (cleared : Z) (s : vmm)
    : vmm_unmap_batch * Z * vmm :=
  match fuel with
  | O => (b, cleared, s)
  | S fuel =>
      if negb (va <? end_) || (256 <=? PML4_INDEX va) then (b, cleared, s)
      else
        let e4 := word s pml4 (PML4_INDEX va) in
        if negb (has_present e4) then unmap_loop fuel pml4 (next_boundary va 39) end_ b cleared s
        else
          let pdpt := entry_table s e4 in
          let e3 := word s pdpt (PDP_INDEX va) in
          if negb (has_present e3) || has e3 VMM_HUGE then unmap_loop fuel pml4 (next_boundary va 30) end_ b cleared s
          else
            let pd := entry_table s e3 in
            let e2 := word s pd (PD_INDEX va) in
            let next := next_boundary va 21 in
            if negb (has_present e2) || has e2 VMM_HUGE then unmap_loop fuel pml4 next end_ b cleared s
            else
              let pt := entry_table s e2 in
              let stop := if next <? end_ then next else end_ in
              let n := (stop - va + (PT_PAGE - 1)) / PT_PAGE in
              let '(b, cleared, s) := unmap_pt_loop (Z.to_nat n) pt va b cleared s in
              let '(b, s) := drop_empty_tables pml4 pdpt pd pt va b s in
              unmap_loop fuel pml4 (va + n * PT_PAGE) end_ b cleared s
  end.

Definition vmm_unmap_range_release_in (pml4 virtual_addr pages : Z) (s : vmm) : Z * vmm :=
  if (pml4 =? 0) || (pages =? 0) then ((if pml4 =? 0 then -1 else 0), s)
  else
    let va := Z.land virtual_addr (u64 (Z.lnot (PT_PAGE - 1))) in
    let end_ := va +64 pages * PT_PAGE in
    let '(b, cleared, s) := unmap_loop (Z.to_nat (end_ / PT_PAGE + 1)) pml4 va end_ (mk_batch [] [] false (virt_to_phys s pml4)) 0 s in
    let '(_, s) := vmm_unmap_batch_flush b s in
    (s32 cleared, s).

Definition vmm_unmap_page_release_in (pml4 virtual_addr : Z) (s : vmm) : Z * vmm :=
  let '(r, s) := vmm_unmap_range_release_in pml4 virtual_addr 1 s in ((if 0 <? r then 0 else -1), s).

(** ** Address spaces *)

Definition vmm_create_address_space (s : vmm) : Z * vmm :=
  let '(new_phys, s) := vmm_alloc_frame s in
  if new_phys =? 0 then (0, s)
  else
    let new_pml4 := phys_to_virt s new_phys in
    let s := zfor 256 0 (fun i s => set_word new_pml4 i 0 s) s in
    let s := zfor 256 256 (fun i s => set_word new_pml4 i (word s (kernel_pml4 s) i) s) s in
    (new_pml4, s).

(** Account for one more mapping of a frame. *)
Definition share_frame (phys : Z) (s : vmm) : vmm :=
  if vmm_page_get_ref phys s =? 0 then vmm_page_ref phys (vmm_page_ref phys s) else vmm_page_ref phys s.

(** One present leaf entry of [vmm_clone_table]. *)
Definition clone_leaf (src dst i : Z) (s : vmm) : vmm :=
  let pte := word s src i in
  let phys := Z.land pte PTE_ADDR_MASK in
  if has pte VMM_DEVICE then set_word dst i pte s
  else if has pte VMM_SHARED then share_frame phys (set_word dst i pte s)
  else if has pte VMM_USER && has pte VMM_WRITABLE then
    let pte := Z.lor (Z.land pte (u64 (Z.lnot VMM_WRITABLE))) VMM_COW in
    share_frame phys (set_word dst i pte (set_word src i pte s))
  else share_frame phys (set_word dst i pte s).

Fixpoint vmm_clone_table (level : nat) (src : Z) (s : vmm) : Z * vmm :=
  match level with
  | O => (0, s)
  | S below =>
      let '(new_phys, s) := vmm_alloc_frame s in
      if new_phys =? 0 then (0, s)
      else
        let dst := phys_to_virt s new_phys in
        let top := Nat.eqb level 4 in
        let s := zfor (if top then 256 else 512) 0
          (fun i s =>
             let w := word s src i in
             if negb (has_present w) then set_word dst i 0 s
             else
               match below with
               | O => clone_leaf src dst i s
               | S _ =>
                   let '(child, s) := vmm_clone_table below (entry_table s w) s in
                   if child =? 0 then set_word dst i 0 s
                   else set_word dst i (Z.lor (virt_to_phys s child) (Z.land (word s src i) PTE_FLAGS_MASK)) s
               end) s in
        let s := if top then zfor 256 256 (fun i s => set_word dst i (word s (kernel_pml4 s) i) s) s else s in
        (dst, s)
  end.

Definition vmm_clone_address_space (src_pml4 : Z) (s : vmm) : Z * vmm :=
  if src_pml4 =? 0 then (0, s)
  else
    let '(new_pml4, s) := vmm_clone_table 4 src_pml4 s in
    (new_pml4, if new_pml4 =? 0 then s else emit ShootdownAll s).

Definition vmm_switch_address_space (pml4 : Z) (s : vmm) : vmm :=
  if pml4 =? 0 then s
  else mk_vmm (v_heap s) (v_mem s) (v_hhdm s) (kernel_pml4 s) (vmm_page_refcounts s) (vmm_max_phys_pages s)
         (virt_to_phys s pml4) (v_trace s).

Fixpoint vmm_free_table (level : nat) (table : Z) (s : vmm) : vmm :=
  match level with
  | O => s
  | S below =>
      let s := zfor (if Nat.eqb level 4 then 256 else 512) 0
        (fun i s =>
           let w := word s table i in
           if negb (has_present w) then s
           else
             match below with
             | O => if has w VMM_DEVICE then s else vmm_leaf_release (Z.land w PTE_ADDR_MASK) s
             | S _ => vmm_free_table below (entry_table s w) s
             end) s in
      kfree_frame table s
  end.

(** [shmf_as_destroy] writes back the shared file mappings of the address
    space (src/mmap_shared.c). *)
Definition vmm_destroy_address_space (shmf_as_destroy : Z -> vmm -> vmm) (pml4 : Z) (s : vmm) : vmm :=
  if (pml4 =? 0) || (pml4 =? kernel_pml4 s) then s
  else vmm_free_table 4 pml4 (shmf_as_destroy pml4 s).

Definition vmm_get_kernel_pml4 (s : vmm) : Z := kernel_pml4 s.
(** [vmm_init]: the tables the boot loader left in CR3. *)
Definition vmm_init (s : vmm) : vmm :=
  mk_vmm (v_heap s) (v_mem s) (v_hhdm s) (phys_to_virt s (Z.land (v_cr3 s) PTE_ADDR_MASK)) (vmm_page_refcounts s)
    (vmm_max_phys_pages s) (v_cr3 s) (v_trace s).
End vmm.
Arguments vmm : clear implicits.
