(* ===== verification/VmmRef.v ===== *)
(** * Frames and their owners

    The copy-on-write reference counts of src/mem.c against the number of
    page-table entries that map a frame, over any heap with the laws of
    Heap.v and Vmm.v; the page allocator provides them. *)
From S2P Require Import Prelude Heap Pmm Slab Vmm.
Import Bitmap.

(** [pmm_user_frame_kind] *)
Definition pmm_user_frame_kind (v : Z) (s : kmem) : Z :=
  if (zlen (entry_map (pm s)) =? 0) || (zlen (page_bitmap (pm s)) =? 0) then 0
  else
    let idx := _get_page_from_addr (pm s) v in
    if num_pages_in_map (pm s) <=? idx then 0
    else
      let e := entry (pm s) idx in
      if e =? 1 then 1
      else if (e =? 0) && negb (bitmap_test (page_bitmap (pm s)) idx) then -1
      else 0.

(** The part of the layout that no operation changes. *)
Definition window (p : pmm) : Z * Z * Z := (lowest_address p, vmm_higher_half_offset p, num_pages_in_map p).

Lemma kalloc_internal_window n st g p : window (_kalloc_internal n st g p).2 = window p.
Proof. unfold _kalloc_internal. repeat case_match; cbn; try done; by destruct g. Qed.
Lemma kfree_pages_window i p : window (kfree_pages i p) = window p.
Proof. unfold kfree_pages. repeat case_match; done. Qed.
Lemma slab_refill_window c page s : window (pm (slab_refill c page s)) = window (pm s).
Proof. unfold slab_refill. by destruct (zfor _ _ _ _). Qed.
Lemma slab_pop_window c s : window (pm (slab_pop c s).2) = window (pm s).
Proof. unfold slab_pop. by destruct (flist s c). Qed.
Lemma slab_alloc_window c s : window (pm (slab_alloc c s).2) = window (pm s).
Proof.
  unfold slab_alloc. destruct (flist s c); [|apply slab_pop_window].
  pose proof (kalloc_internal_window PAGE_SIZE 0 true (pm s)) as Hw. destruct (_kalloc_internal _ _ _ _) as [page p].
  destruct (page =? 0); [done|]. by rewrite slab_pop_window, slab_refill_window.
Qed.
Lemma kalloc_pm_window n s : window (pm (kalloc n s).2) = window (pm s).
Proof.
  unfold kalloc. destruct (_ && _); [apply slab_alloc_window|].
  pose proof (kalloc_internal_window n 0 true (pm s)) as Hw. by destruct (_kalloc_internal _ _ _ _).
Qed.
Lemma kfree_pm_window v s : window (pm (kfree v s)) = window (pm s).
Proof.
  unfold kfree, slab_free, slab_unlink_page. repeat case_match; cbn; rewrite ?kfree_pages_window; done.
Qed.

Definition kmem_base (s : kmem) : Z := page_addr (pm s) 0.
Definition kmem_top (s : kmem) : Z := page_addr (pm s) (num_pages_in_map (pm s)).
Lemma window_bounds s s' : window (pm s') = window (pm s) -> kmem_base s' = kmem_base s /\ kmem_top s' = kmem_top s.
Proof. unfold window, kmem_base, kmem_top, page_addr. intros [= -> -> ->]. done. Qed.

#[global] Instance kmem_frames : KFrames kmem :=
  {| hp_frame_kind := pmm_user_frame_kind; hp_base := kmem_base; hp_top := kmem_top |}.

Lemma kind_cases v s : slab_ok s ->
  pmm_user_frame_kind v s = 1 <->
  _get_page_from_addr (pm s) v < num_pages_in_map (pm s) /\ entry (pm s) (_get_page_from_addr (pm s) v) = 1.
Proof.
  intros Hok. pose proof (so_pmm s Hok) as Hpm. pose proof (ok_np _ Hpm). pose proof (ok_bitmap _ Hpm). pose proof (ok_entries _ Hpm).
  unfold pmm_user_frame_kind. rewrite !(proj2 (Z.eqb_neq (zlen _) 0)) by lia. cbn [orb].
  destruct (Z.leb_spec (num_pages_in_map (pm s)) (_get_page_from_addr (pm s) v)); [lia|].
  destruct (Z.eqb_spec (entry (pm s) (_get_page_from_addr (pm s) v)) 1); [lia|]. case_match; lia.
Qed.

#[global] Instance kmem_frames_laws : KFramesLaws kmem.
Proof.
  split; cbn; unfold PT_PAGE; change 4096 with PAGE_SIZE.
  - intros h v Hok Hl. pose proof (so_pmm h Hok) as Hpm. apply kind_cases; [done|].
    destruct Hl as (i & Hi & [(He & -> & Hn) | (c & u & k & Hc & _ & _ & _ & _ & Hn & _)]); [|exfalso; class_cases c Hc; done].
    pose proof (get_page_exact (pm h) i 0 Hpm Hi ltac:(done)) as E. rewrite Z.add_0_r in E. rewrite E. unfold PAGE_SIZE in *. lia.
  - intros h v Hok Hv Hal Hk. pose proof (so_pmm h Hok) as Hpm. apply kind_cases in Hk as [Hi He]; [|done].
    set (i := _get_page_from_addr (pm h) v) in *. pose proof (ok_align _ Hpm) as Ha. pose proof (ok_top _ Hpm). pose proof (ok_base _ Hpm).
    assert (0 <= i) as Hi0 by (apply Z.div_pos; [apply u64_bound | done]).
    exists i. split; [lia|]. left. rewrite He. split; [done|]. split; [|lia]. unfold page_addr.
    set (b := lowest_address (pm h) + vmm_higher_half_offset (pm h)) in *.
    assert (u64 (v - lowest_address (pm h) - vmm_higher_half_offset (pm h)) = i * PAGE_SIZE) as Eu.
    { pose proof (Z.div_mod (u64 (v - lowest_address (pm h) - vmm_higher_half_offset (pm h))) PAGE_SIZE ltac:(done)) as Hdm.
      fold (_get_page_from_addr (pm h) v) in Hdm. fold i in Hdm.
      enough (u64 (v - lowest_address (pm h) - vmm_higher_half_offset (pm h)) mod PAGE_SIZE = 0) by lia.
      unfold u64.
      replace (v - lowest_address (pm h) - vmm_higher_half_offset (pm h)) with (v - b) by (unfold b; lia).
      rewrite Z.mod_mod_divide by (by exists (2 ^ 52)).
      rewrite Zminus_mod, Hal, Ha. done. }
    unfold u64 in Eu. replace (v - lowest_address (pm h) - vmm_higher_half_offset (pm h)) with (v - b) in Eu by (unfold b; lia).
    unfold PAGE_SIZE in *. pose proof (Z.div_mod (v - b) (2 ^ 64) ltac:(done)) as Hq. rewrite Eu in Hq. nia.
  - intros h p n Hok (i & Hi & Hl). destruct (live_at_extent h i p n Hi Hl) as (b & Hb & H1 & H2 & _).
    destruct (block_bounds _ (so_pmm h Hok) _ _ Hb) as (? & ? & ?).
    unfold kmem_base, kmem_top, page_addr, PAGE_SIZE in *. lia.
  - intros h n. apply window_bounds, kalloc_pm_window.
  - intros h p. apply window_bounds, kfree_pm_window.
  - intros h h' p Hok Ha Hp. unfold kalloc in Ha.
    change ((0 <? PAGE_SIZE) && (PAGE_SIZE <=? SLAB_MAX_SIZE)) with false in Ha. cbn [andb] in Ha.
    destruct (_kalloc_internal PAGE_SIZE 0 true (pm h)) as [p' m] eqn:Ek. injection Ha as <- <-.
    destruct (page_alloc_spec h PAGE_SIZE p' m Hok ltac:(done) Ek) as [(-> & _) | (i & Hi & -> & _ & _ & Hok' & _ & _ & Hl)]; [done|].
    split; [|exact (page_addr_align m i (so_pmm _ Hok'))]. apply Hl. by left.
Qed.

#[global] Instance vevent_eq_dec : EqDecision vevent.
Proof. solve_decision. Defined.

Section owners.
Context {H : Type} `{!KHeap H, !KHeapLaws H, !KFrames H, !KFramesLaws H}.
Implicit Types (s : vmm H).

(** Frame [f] has a slot in the reference counts. *)
Record tracked s (f : Z) : Prop := {
  tk_refs : exists l, vmm_page_refcounts s = Some l /\ zlen l = vmm_max_phys_pages s;
  tk_range : 0 < f /\ f / PT_PAGE < vmm_max_phys_pages s;
}.

(** [k] page-table entries map the frame and its count says so: 0 or 1 for a
    single owner, [k] for up to 254. *)
Record owners s (f k : Z) : Prop := {
  ow_tracked : tracked s f;
  ow_heap : heap_ok (v_heap s);
  ow_live : heap_live (v_heap s) (phys_to_virt s f) PT_PAGE;
  ow_range : 1 <= k <= 254;
  ow_count : vmm_page_get_ref f s = k \/ (k = 1 /\ vmm_page_get_ref f s = 0);
}.

Definition freed s (f : Z) : Z := zlen (filter (fun e => e = Freed (phys_to_virt s f)) (v_trace s)).

Inductive frame_op := Share | Release | CowRelease.
Definition frame_do (f : Z) (s : vmm H) (op : frame_op) : vmm H :=
  match op with
  | Share => share_frame f s
  | Release => vmm_leaf_release f s
  | CowRelease => vmm_cow_release_old f s
  end.
Definition owners_after (k : Z) (op : frame_op) : Z := match op with Share => k + 1 | _ => k - 1 end.

(** At least one owner at every step, and at most 254. *)
Fixpoint owned_run (k : Z) (ops : list frame_op) : Prop :=
  match ops with
  | [] => True
  | op :: ops => 1 <= k /\ owners_after k op <= 254 /\ owned_run (owners_after k op) ops
  end.

(** Reading and writing counts. *)
Lemma get_ref_tracked s f l : vmm_page_refcounts s = Some l -> f / PT_PAGE < vmm_max_phys_pages s ->
  vmm_page_get_ref f s = zget l (f / PT_PAGE).
Proof. intros E Hf. unfold vmm_page_get_ref. rewrite E. by rewrite (proj2 (Z.leb_gt _ _)) by lia. Qed.

Lemma set_ref_tracked s f r : tracked s f -> tracked (set_ref (f / PT_PAGE) r s) f /\
  vmm_page_get_ref f (set_ref (f / PT_PAGE) r s) = r /\ v_heap (set_ref (f / PT_PAGE) r s) = v_heap s /\
  v_trace (set_ref (f / PT_PAGE) r s) = v_trace s /\ v_hhdm (set_ref (f / PT_PAGE) r s) = v_hhdm s.
Proof.
  intros [(l & El & Hl) [Hf Hr]]. unfold set_ref. rewrite El. assert (0 <= f / PT_PAGE) as H0 by (apply Z.div_pos; [lia | done]).
  split_and!; try done.
  - split; cbn; [|done]. exists (zset l (f / PT_PAGE) r). by rewrite zlen_zset.
  - unfold vmm_page_get_ref. cbn. rewrite (proj2 (Z.leb_gt _ _)) by lia. apply zget_zset_eq. lia.
Qed.

Lemma page_ref_tracked s f : tracked s f -> 0 <= vmm_page_get_ref f s < 255 ->
  vmm_page_ref f s = set_ref (f / PT_PAGE) (vmm_page_get_ref f s + 1) s.
Proof.
  intros [(l & El & Hl) [Hf Hr]] Hg. rewrite (get_ref_tracked s f l El Hr) in *. unfold vmm_page_ref. rewrite El.
  by rewrite (proj2 (Z.leb_gt (vmm_max_phys_pages s) _)), (proj2 (Z.leb_gt 255 _)) by lia.
Qed.

(** One more owner. *)
Lemma share_owners s f k : owners s f k -> k + 1 <= 254 ->
  owners (share_frame f s) f (k + 1) /\ v_trace (share_frame f s) = v_trace s /\ v_hhdm (share_frame f s) = v_hhdm s.
Proof.
  intros [Ht Hok Hl Hk Hc] Hk1. unfold share_frame.
  assert (exists s', share_frame f s = s' /\ tracked s' f /\ vmm_page_get_ref f s' = k + 1 /\ v_heap s' = v_heap s /\
            v_trace s' = v_trace s /\ v_hhdm s' = v_hhdm s) as (s' & E & T & G & Hh & Htr & Hho).
  { unfold share_frame. destruct Hc as [Hc|[-> Hc]].
    - rewrite (proj2 (Z.eqb_neq _ 0)) by lia. rewrite page_ref_tracked by (done || lia). rewrite Hc.
      destruct (set_ref_tracked s f (k + 1) Ht) as (? & ? & ? & ? & ?). eexists; split; [done|]. done.
    - rewrite Hc. cbn [Z.eqb]. rewrite (page_ref_tracked s) by (done || lia). rewrite Hc.
      destruct (set_ref_tracked s f (0 + 1) Ht) as (T1 & G1 & Hh1 & Htr1 & Hho1). set (s1 := set_ref (f / PT_PAGE) (0 + 1) s) in *.
      rewrite (page_ref_tracked s1) by (done || lia). rewrite G1. destruct (set_ref_tracked s1 f (0 + 1 + 1) T1) as (? & ? & ? & ? & ?).
      eexists; split; [done|]. split_and!; try done; congruence. }
  unfold share_frame in E. rewrite E. split; [|done]. split; [done | congruence | | lia | by left].
  unfold phys_to_virt. rewrite Hh, Hho. done.
Qed.

(** Giving the frame back. *)
Lemma free_owners s f : tracked s f -> heap_ok (v_heap s) -> heap_live (v_heap s) (phys_to_virt s f) PT_PAGE ->
  let s' := vmm_free_frame f (set_ref (f / PT_PAGE) 255 s) in
  tracked s' f /\ heap_ok (v_heap s') /\ ~ heap_live (v_heap s') (phys_to_virt s' f) PT_PAGE /\
  vmm_page_get_ref f s' = 255 /\ v_trace s' = v_trace s ++ [Freed (phys_to_virt s f)] /\ v_hhdm s' = v_hhdm s.
Proof.
  intros Ht Hok Hl s'. destruct (set_ref_tracked s f 255 Ht) as (T1 & G1 & Hh1 & Htr1 & Hho1).
  unfold s', vmm_free_frame. destruct Ht as [_ [Hf _]]. rewrite (proj2 (Z.eqb_neq f 0)) by lia.
  set (s1 := set_ref (f / PT_PAGE) 255 s) in *. assert (phys_to_virt s1 f = phys_to_virt s f) as Ev by (unfold phys_to_virt; by rewrite Hho1).
  destruct (kfree_live (v_heap s) (phys_to_virt s f) PT_PAGE Hok Hl) as [Hok' Hl'].
  assert (v_heap (kfree_frame (phys_to_virt s1 f) s1) = hp_kfree (phys_to_virt s f) (v_heap s)) as Eh by (cbn; by rewrite Ev, Hh1).
  split_and!.
  - destruct T1 as [Tr Tf]. split; [exact Tr | exact Tf].
  - by rewrite Eh.
  - rewrite Eh, Hl'. change (phys_to_virt (kfree_frame (phys_to_virt s1 f) s1) f) with (phys_to_virt s1 f). rewrite Ev. tauto.
  - exact G1.
  - cbn. by rewrite Htr1, Ev.
  - exact Hho1.
Qed.

(** The outcome of giving up one ownership: the last owner frees the frame,
    every other one only lowers the count. *)
Definition released (pre : list vevent) s s' f k : Prop :=
  v_hhdm s' = v_hhdm s /\
  if decide (k = 1)
  then tracked s' f /\ heap_ok (v_heap s') /\ ~ heap_live (v_heap s') (phys_to_virt s' f) PT_PAGE /\
       vmm_page_get_ref f s' = 255 /\
       v_trace s' = v_trace s ++ pre ++ [Freed (phys_to_virt s f)]
  else owners s' f (k - 1) /\ v_trace s' = v_trace s.

Lemma lower_owners s f k : owners s f k -> 2 <= k ->
  let s' := set_ref (f / PT_PAGE) (k - 1) s in owners s' f (k - 1) /\ v_trace s' = v_trace s /\ v_hhdm s' = v_hhdm s.
Proof.
  intros [Ht Hok Hl Hk Hc] Hk2 s'. destruct (set_ref_tracked s f (k - 1) Ht) as (T & G & Hh & Htr & Hho).
  split; [|done]. split; [done | | | lia | by left].
  - unfold s'. by rewrite Hh.
  - unfold s', phys_to_virt in *. by rewrite Hh, Hho.
Qed.

Lemma leaf_release_tracked s f l : tracked s f -> vmm_page_refcounts s = Some l -> user_frame_kind f s = 1 ->
  vmm_leaf_release f s =
  let r := vmm_page_get_ref f s in
  if 255 <=? r then s
  else if r =? 0 then vmm_free_frame f (set_ref (f / PT_PAGE) 255 s)
  else if r =? 1 then vmm_free_frame f (set_ref (f / PT_PAGE) 255 s)
  else set_ref (f / PT_PAGE) (r - 1) s.
Proof.
  intros [_ [Hf Hr]] El Hkd. rewrite (get_ref_tracked s f l El Hr). unfold vmm_leaf_release, vmm_page_unref. rewrite El, Hkd.
  rewrite (proj2 (Z.eqb_neq f 0)), (proj2 (Z.leb_gt (vmm_max_phys_pages s) _)) by lia. cbn zeta.
  destruct (255 <=? zget l (f / PT_PAGE)); [done|]. change (1 <? 0) with false. change (1 =? 0) with false. cbn iota.
  by destruct (zget l (f / PT_PAGE) =? 0), (zget l (f / PT_PAGE) =? 1).
Qed.

Lemma release_owners s f k : owners s f k -> released [] s (vmm_leaf_release f s) f k.
Proof.
  intros Ho. pose proof Ho as [Ht Hok Hl Hk Hc]. destruct (tk_refs s f Ht) as (l & El & Hl').
  rewrite (leaf_release_tracked s f l Ht El (kind_live _ _ Hok Hl)). unfold released. cbn zeta.
  destruct (free_owners s f Ht Hok Hl) as (F1 & F2 & F3 & F4 & F5 & F6).
  destruct Hc as [Hc|[-> Hc]]; rewrite Hc.
  - rewrite (proj2 (Z.leb_gt 255 k)), (proj2 (Z.eqb_neq k 0)) by lia. destruct (Z.eqb_spec k 1) as [->|Hne].
    + split; [done|]. by rewrite decide_True.
    + destruct (lower_owners s f k Ho ltac:(lia)) as (? & ? & ?). split; [done|]. by rewrite decide_False.
  - cbn [Z.leb Z.compare Z.eqb]. split; [done|]. by rewrite decide_True.
Qed.

Lemma emit_owners s f k e : owners s f k -> owners (emit e s) f k.
Proof. intros [[T1 T2] ? ? ? ?]. split; try done. Qed.

Lemma cow_release_owners s f k : owners s f k -> released [ShootdownAll] s (vmm_cow_release_old f s) f k.
Proof.
  intros Ho. pose proof Ho as [Ht Hok Hl Hk Hc]. destruct (tk_refs s f Ht) as (l & El & _). destruct (tk_range s f Ht) as [Hf Hr].
  unfold vmm_cow_release_old. rewrite El, (proj2 (Z.eqb_neq f 0)), (proj2 (Z.ltb_lt _ _)) by lia.
  pose proof (get_ref_tracked s f l El Hr) as Eg. rewrite <- Eg. rewrite (proj2 (Z.leb_gt 255 _)) by (destruct Hc as [->|[-> ->]]; lia).
  destruct (Z.leb_spec (vmm_page_get_ref f s) 1) as [Hle|Hgt].
  - assert (k = 1) as -> by (destruct Hc; lia). pose proof (release_owners _ f 1 (emit_owners s f 1 ShootdownAll Ho)) as [R1 R2].
    split; [done|]. rewrite decide_True in * by done. destruct R2 as (? & ? & ? & ? & E). split_and!; try done.
    rewrite E. cbn. by rewrite <- app_assoc.
  - destruct Hc as [Hc|[_ Hc]]; [|lia]. rewrite Hc. destruct (lower_owners s f k Ho ltac:(lia)) as (? & ? & ?).
    split; [done|]. by rewrite decide_False by lia.
Qed.

Lemma freed_app s s' f : v_hhdm s' = v_hhdm s -> v_trace s' = v_trace s -> freed s' f = freed s f.
Proof. intros E1 E2. unfold freed, phys_to_virt. by rewrite E1, E2. Qed.

Lemma freed_once pre s s' f : v_hhdm s' = v_hhdm s -> (pre = [] \/ pre = [ShootdownAll]) ->
  v_trace s' = v_trace s ++ pre ++ [Freed (phys_to_virt s f)] -> freed s' f = freed s f + 1.
Proof.
  intros E1 Hp E2. unfold freed. assert (phys_to_virt s' f = phys_to_virt s f) as -> by (unfold phys_to_virt; by rewrite E1).
  rewrite E2, !filter_app, !zlen_app. destruct Hp as [->| ->]; cbn [app]; rewrite ?filter_cons_False by done;
    rewrite filter_cons_True by done; unfold zlen; cbn; lia.
Qed.

(** A step with an owner left, and the step of the last owner. *)
Lemma frame_step s f k op : owners s f k -> owners_after k op <= 254 ->
  let s' := frame_do f s op in
  if decide (owners_after k op = 0)
  then heap_ok (v_heap s') /\ ~ heap_live (v_heap s') (phys_to_virt s' f) PT_PAGE /\ vmm_page_get_ref f s' = 255 /\
       freed s' f = freed s f + 1
  else owners s' f (owners_after k op) /\ freed s' f = freed s f.
Proof.
  intros Ho Hk s'. pose proof (ow_range _ _ _ Ho).
  assert (forall pre, (pre = [] \/ pre = [ShootdownAll]) -> released pre s s' f k -> owners_after k op = k - 1 ->
    if decide (owners_after k op = 0)
    then heap_ok (v_heap s') /\ ~ heap_live (v_heap s') (phys_to_virt s' f) PT_PAGE /\ vmm_page_get_ref f s' = 255 /\
         freed s' f = freed s f + 1
    else owners s' f (owners_after k op) /\ freed s' f = freed s f) as Hrel.
  { intros pre Hp [R1 R2] ->. destruct (decide (k = 1)) as [->|].
    - destruct R2 as (_ & ? & ? & ? & E). split_and!; try done. by eapply freed_once.
    - rewrite decide_False by lia. destruct R2 as [? E]. split; [done|]. by apply freed_app. }
  destruct op; cbn in s'.
  - cbn [owners_after] in *. rewrite decide_False by lia. destruct (share_owners s f k Ho Hk) as (? & ? & ?).
    split; [done|]. by apply freed_app.
  - apply (Hrel []); [by left | by apply release_owners | done].
  - apply (Hrel [ShootdownAll]); [by right | by apply cow_release_owners | done].
Qed.

(** C19 The reference count of a copy-on-write frame, for a frame the counts
    cover.  The holders are counted by the calls: one more for each share, one
    less for each release or copy-on-write release, each by a holder, and never
    more than 254.  In any such sequence of calls the frame stays allocated
    while holders are left; the release by the last of them frees it, and it
    is freed exactly once.  (That the page-table entries of the system are the
    holders is not part of the statement.) *)
Theorem cow_frame_lifecycle f ops s k :
  owners s f k -> owned_run k ops ->
  let n := foldl owners_after k ops in
  let s' := foldl (frame_do f) s ops in
  if decide (n = 0)
  then ~ heap_live (v_heap s') (phys_to_virt s' f) PT_PAGE /\ vmm_page_get_ref f s' = 255 /\ freed s' f = freed s f + 1
  else owners s' f n /\ heap_live (v_heap s') (phys_to_virt s' f) PT_PAGE /\ freed s' f = freed s f.
Proof.
  revert s k. induction ops as [|op ops IH]; intros s k Ho Hrun; cbn [foldl].
  { pose proof (ow_range _ _ _ Ho). rewrite decide_False by lia. split; [done|]. split; [apply Ho | done]. }
  destruct Hrun as (Hk & Hmax & Hrun). pose proof (frame_step s f k op Ho Hmax) as Hst. cbn zeta in Hst.
  destruct (decide (owners_after k op = 0)) as [E0|Hne].
  - destruct Hst as (_ & Hnl & Hg & Hfr). destruct ops as [|op2 ops]; [|rewrite E0 in Hrun; destruct Hrun as [? _]; lia].
    cbn [foldl]. rewrite E0, decide_True by done. done.
  - destruct Hst as [Ho' Hfr]. specialize (IH _ _ Ho' Hrun). cbn zeta in IH. rewrite <- Hfr. exact IH.
Qed.

(** The reference counts are sized by the amount of usable memory but
    indexed by physical page number.  A frame beyond them is not counted: after
    a second mapping is made, the first release frees it while the other
    mapping still uses it. *)
Theorem refcount_gap f s l :
  vmm_page_refcounts s = Some l -> vmm_max_phys_pages s <= f / PT_PAGE -> 0 < f ->
  heap_ok (v_heap s) -> heap_live (v_heap s) (phys_to_virt s f) PT_PAGE ->
  share_frame f s = s /\ ~ heap_live (v_heap (vmm_leaf_release f (share_frame f s))) (phys_to_virt s f) PT_PAGE.
Proof.
  intros El Hf H0 Hok Hl.
  assert (vmm_page_ref f s = s) as Er by (unfold vmm_page_ref; by rewrite El, (proj2 (Z.leb_le _ _)) by done).
  assert (share_frame f s = s) as Es by (unfold share_frame; case_match; by rewrite ?Er).
  split; [done|]. rewrite Es. unfold vmm_leaf_release. rewrite El, (proj2 (Z.eqb_neq f 0)), (proj2 (Z.leb_le _ _)) by lia.
  unfold user_frame_kind. rewrite (kind_live _ _ Hok Hl). cbn [Z.eqb Pos.eqb]. unfold vmm_free_frame.
  rewrite (proj2 (Z.eqb_neq f 0)) by lia. cbn [v_heap kfree_frame emit set_vheap].
  destruct (kfree_live _ _ _ Hok Hl) as [_ Hl']. rewrite Hl'. tauto.
Qed.
End owners.
