(* ===== verification/VmmMap.v ===== *)
(** * Page tables as a tree

    The four-level tables of src/mem.c: tables reached by different index
    paths are different, so writing one entry changes the translation of one
    page only.  Mapping, unmapping, unmapping a range, and creating an address
    space, in terms of the translation they leave. *)
From S2P Require Import Prelude Heap Vmm.

(** ** Indices of an address *)

Lemma land_511 x : Z.land x 0x1FF = x mod 512.
Proof. change 0x1FF with (Z.ones 9). by rewrite Z.land_ones. Qed.

Lemma index_div v k : 0 <= k -> Z.land (Z.shiftr v k) 0x1FF = (v / 2 ^ k) mod 512.
Proof. intros Hk. by rewrite land_511, Z.shiftr_div_pow2. Qed.

Definition is_index (i : Z) : Prop := 0 <= i < 512.
Lemma index_range v k : 0 <= k -> is_index (Z.land (Z.shiftr v k) 0x1FF).
Proof. intros Hk. rewrite index_div by done. unfold is_index. pose proof (Z.mod_pos_bound (v / 2 ^ k) 512). lia. Qed.

(** User addresses: the lower half. *)
Definition user_va (v : Z) : Prop := 0 <= v < 2 ^ 47.

Lemma user_index v : user_va v -> 0 <= PML4_INDEX v < 256.
Proof.
  intros Hv. unfold PML4_INDEX. rewrite index_div by lia. unfold user_va in Hv.
  assert (0 <= v / 2 ^ 39 < 256) by (split; [apply Z.div_pos; lia | apply Z.div_lt_upper_bound; lia]).
  rewrite Z.mod_small; lia.
Qed.

Definition va_path (v : Z) : list Z := [PML4_INDEX v; PDP_INDEX v; PD_INDEX v].

(** The indices determine the page. *)
Lemma page_of_indices v : user_va v ->
  v / 4096 = ((PML4_INDEX v * 512 + PDP_INDEX v) * 512 + PD_INDEX v) * 512 + PT_INDEX v.
Proof.
  intros Hv. unfold PML4_INDEX, PDP_INDEX, PD_INDEX, PT_INDEX. rewrite !index_div by lia. unfold user_va in Hv.
  replace (2 ^ 39) with (2 ^ 30 * 512) by lia. rewrite <- Z.div_div by lia.
  replace (2 ^ 30) with (2 ^ 21 * 512) by lia. rewrite <- !Z.div_div by lia.
  replace (2 ^ 21) with (2 ^ 12 * 512) by lia. rewrite <- !Z.div_div by lia. change (2 ^ 12) with 4096.
  set (a := v / 4096). assert (0 <= a < 2 ^ 35) as Ha by (unfold a; split; [apply Z.div_pos; lia | apply Z.div_lt_upper_bound; lia]).
  pose proof (Z.div_mod a 512 ltac:(lia)). pose proof (Z.div_mod (a / 512) 512 ltac:(lia)).
  pose proof (Z.div_mod (a / 512 / 512) 512 ltac:(lia)).
  assert (0 <= a / 512 / 512 / 512 < 256).
  { rewrite !Z.div_div by lia. split; [apply Z.div_pos; lia | apply Z.div_lt_upper_bound; lia]. }
  rewrite (Z.mod_small (a / 512 / 512 / 512)) by lia. lia.
Qed.

Lemma same_page v v' : user_va v -> user_va v' -> va_path v = va_path v' -> PT_INDEX v = PT_INDEX v' -> v / 4096 = v' / 4096.
Proof. intros Hv Hv' Hp Ht. rewrite !page_of_indices by done. unfold va_path in Hp. simplify_eq. congruence. Qed.

Lemma page_indices v v' : 0 <= v -> 0 <= v' -> v / 4096 = v' / 4096 -> va_path v = va_path v' /\ PT_INDEX v = PT_INDEX v'.
Proof.
  intros Hv Hv' E. unfold va_path, PML4_INDEX, PDP_INDEX, PD_INDEX, PT_INDEX. rewrite !index_div by lia.
  change (2 ^ 12) with 4096. replace (2 ^ 39) with (4096 * 2 ^ 27) by lia. replace (2 ^ 30) with (4096 * 2 ^ 18) by lia.
  replace (2 ^ 21) with (4096 * 2 ^ 9) by lia. rewrite <- !Z.div_div by lia. by rewrite E.
Qed.

Section tables.
Context {H : Type} `{!KHeap H, !KFrames H}.
Implicit Types (s : vmm H) (p q : list Z) (t u : Z).

(** The table reached from [r] by a path of indices. *)
Fixpoint tab s (r : Z) p : option Z :=
  match p with
  | [] => Some r
  | i :: p => let w := word s r i in if has_present w then tab s (entry_table s w) p else None
  end.

(** The entry that translates [va], if present. *)
Definition pte_of s (pml4 va : Z) : option Z :=
  match tab s pml4 (va_path va) with
  | Some t => let w := word s t (PT_INDEX va) in if has_present w then Some w else None
  | None => None
  end.

(** Paths in the user half, to tables of the levels 4 to 1. *)
Definition user_path p : Prop :=
  (length p <= 3)%nat /\ Forall is_index p /\ match p with [] => True | i :: _ => i < 256 end.

Lemma user_path_va v : user_va v -> user_path (va_path v).
Proof.
  intros Hv. split; [done|]. split.
  - repeat constructor; try apply index_range; lia.
  - by apply user_index.
Qed.

Definition table_shape s t : Prop := t <> 0 /\ exists l, v_mem s !! t = Some l /\ zlen l = 512.

(** The user half is a tree of well-formed tables, without huge pages. *)
Record pt_ok s (pml4 : Z) : Prop := {
  pk_shape : forall p t, user_path p -> tab s pml4 p = Some t -> table_shape s t;
  pk_inj : forall p q t, user_path p -> user_path q -> tab s pml4 p = Some t -> tab s pml4 q = Some t -> p = q;
  pk_small : forall p t i, user_path (p ++ [i]) -> tab s pml4 p = Some t -> has_present (word s t i) = true ->
    has (word s t i) VMM_HUGE = false;
}.

Lemma tab_snoc s r p i : tab s r (p ++ [i]) =
  match tab s r p with
  | Some t => let w := word s t i in if has_present w then Some (entry_table s w) else None
  | None => None
  end.
Proof. revert r. induction p as [|j p IH]; intros r; cbn; [done|]. case_match; [apply IH | done]. Qed.

Lemma word_set s t i w u j : table_shape s t -> is_index i -> is_index j ->
  word (set_word t i w s) u j = if decide (u = t /\ j = i) then w else word s u j.
Proof.
  intros (_ & l & El & Hl) Hi Hj. unfold word, set_word, set_vmem, is_index in *. cbn. rewrite El. cbn.
  destruct (decide (u = t)) as [->|Hne].
  - rewrite lookup_insert_eq. cbn. rewrite El. cbn. destruct (decide (j = i)) as [->|Hji].
    + rewrite decide_True by done. apply zget_zset_eq. lia.
    + rewrite decide_False by tauto. apply zget_zset_ne; lia.
  - rewrite lookup_insert_ne by done. by rewrite decide_False by tauto.
Qed.

Lemma shape_set s t i w u : table_shape s t -> table_shape s u -> table_shape (set_word t i w s) u.
Proof.
  intros (_ & l & El & Hl) (H0 & l' & El' & Hl'). split; [done|]. unfold set_word, set_vmem. cbn. rewrite El. cbn.
  destruct (decide (u = t)) as [->|Hne].
  - exists (zset l i w). by rewrite lookup_insert_eq, zlen_zset.
  - exists l'. by rewrite lookup_insert_ne.
Qed.

(** Translations read the tables only. *)
Lemma tab_ext s s' r p : v_mem s' = v_mem s -> v_hhdm s' = v_hhdm s -> tab s' r p = tab s r p.
Proof.
  intros Em Eh. revert r. induction p as [|i p IH]; intros r; cbn; [done|].
  unfold word, entry_table, phys_to_virt. rewrite Em, Eh. case_match; [apply IH | done].
Qed.
Lemma pte_ext s s' r va : v_mem s' = v_mem s -> v_hhdm s' = v_hhdm s -> pte_of s' r va = pte_of s r va.
Proof. intros Em Eh. unfold pte_of. rewrite (tab_ext s s') by done. unfold word. by rewrite Em. Qed.
Lemma pt_ok_ext s s' r : v_mem s' = v_mem s -> v_hhdm s' = v_hhdm s -> pt_ok s r -> pt_ok s' r.
Proof.
  intros Em Eh [Hs Hi Hh]. split.
  - intros p t Hp. rewrite (tab_ext s s') by done. intros Ht. unfold table_shape. rewrite Em. by eapply Hs.
  - intros p q t Hp Hq. rewrite !(tab_ext s s') by done. by apply Hi.
  - intros p t i Hp. rewrite (tab_ext s s') by done. unfold word. rewrite Em. by apply Hh.
Qed.

Lemma user_path_app p q : user_path (p ++ q) -> user_path p.
Proof.
  intros (Hl & Hf & Hh). rewrite length_app in Hl. apply Forall_app in Hf as [Hf _]. split; [lia|]. split; [done|]. by destruct p.
Qed.

Lemma user_path_last p i : user_path (p ++ [i]) -> is_index i.
Proof. intros (_ & Hf & _). apply Forall_app in Hf as [_ Hf]. by inversion Hf. Qed.

(** Writing one entry leaves every path that does not use it. *)
Lemma tab_write_other s r p t i w q :
  pt_ok s r -> user_path p -> tab s r p = Some t -> is_index i -> user_path q -> ~ (p ++ [i]) `prefix_of` q ->
  tab (set_word t i w s) r q = tab s r q.
Proof.
  intros Hok Hp Ht Hi. induction q as [|j q IH] using rev_ind; [done|]. intros Hq Hnp.
  pose proof (user_path_app _ _ Hq) as Hq'. rewrite !tab_snoc, IH; [|done|].
  2:{ intros [k ->]. apply Hnp. exists (k ++ [j]). by rewrite <- app_assoc. }
  destruct (tab s r q) as [u|] eqn:Eu; [|done]. cbn zeta.
  rewrite word_set; [|exact (pk_shape s r Hok p t Hp Ht) | done | destruct Hq as (_ & Hf & _); apply Forall_app in Hf as [_ Hf]; by inversion Hf].
  rewrite decide_False; [done|]. intros [-> ->]. apply Hnp. rewrite (pk_inj s r Hok p q t) by done. done.
Qed.

Lemma tab_write_at s r p t i w :
  pt_ok s r -> user_path p -> tab s r p = Some t -> is_index i ->
  tab (set_word t i w s) r (p ++ [i]) = if has_present w then Some (entry_table s w) else None.
Proof.
  intros Hok Hp Ht Hi. rewrite tab_snoc, (tab_write_other s r p t i w p Hok Hp Ht Hi Hp), Ht; cbn zeta.
  - rewrite word_set; [|exact (pk_shape s r Hok p t Hp Ht) | done | done]. by rewrite decide_True.
  - intros Hpre%prefix_length. rewrite length_app in Hpre. cbn in Hpre. lia.
Qed.

Lemma word_write s r p t i w u q j :
  pt_ok s r -> user_path p -> tab s r p = Some t -> is_index i -> user_path q -> tab s r q = Some u -> is_index j ->
  word (set_word t i w s) u j = if decide (q = p /\ j = i) then w else word s u j.
Proof.
  intros Hok Hp Ht Hi Hq Hu Hj. rewrite word_set; [|exact (pk_shape s r Hok p t Hp Ht) | done | done].
  destruct (decide (u = t /\ j = i)) as [[-> ->]|Hne].
  - by rewrite decide_True by (split; [by eapply (pk_inj s r Hok)|done]).
  - rewrite decide_False; [done|]. intros [-> ->]. apply Hne. split; [congruence | done].
Qed.

(** A last-level entry: the tree stays, one page changes. *)
Lemma write_leaf s r va t w :
  pt_ok s r -> user_va va -> tab s r (va_path va) = Some t ->
  let s' := set_word t (PT_INDEX va) w s in
  pt_ok s' r /\ (forall q, user_path q -> tab s' r q = tab s r q) /\
  pte_of s' r va = (if has_present w then Some w else None) /\
  (forall va', user_va va' -> va' / 4096 <> va / 4096 -> pte_of s' r va' = pte_of s r va').
Proof.
  intros Hok Hv Ht s'. pose proof (user_path_va va Hv) as Hp. assert (is_index (PT_INDEX va)) as Hi by (apply index_range; lia).
  assert (forall q, user_path q -> tab s' r q = tab s r q) as Htab.
  { intros q Hq. apply (tab_write_other s r (va_path va)); try done. intros Hpre%prefix_length.
    destruct Hq as (Hl & _). rewrite length_app in Hpre. cbn in Hpre. lia. }
  split_and!; try done.
  - split.
    + intros p u Hpp. rewrite Htab by done. intros Hu. apply shape_set; [exact (pk_shape s r Hok _ t Hp Ht) | exact (pk_shape s r Hok p u Hpp Hu)].
    + intros p q u Hpp Hq. rewrite !Htab by done. by apply Hok.
    + intros p u i Hpi. pose proof (user_path_app _ _ Hpi) as Hpp. rewrite Htab by done. intros Hu. unfold s'.
      rewrite (word_write s r (va_path va) t _ w u p); try done; [|by apply user_path_last in Hpi].
      rewrite decide_False; [by apply (pk_small s r Hok p)|]. intros [-> _]. destruct Hpi as (Hl & _). rewrite length_app in Hl. cbn in Hl. lia.
  - unfold pte_of. rewrite Htab, Ht by done. cbn zeta. unfold s'. rewrite (word_write s r (va_path va) t _ w t (va_path va)) by done.
    by rewrite decide_True.
  - intros va' Hv' Hne. unfold pte_of. pose proof (user_path_va va' Hv') as Hp'. rewrite Htab by done.
    destruct (tab s r (va_path va')) as [u|] eqn:Eu; [|done]. cbn zeta. unfold s'.
    rewrite (word_write s r (va_path va) t _ w u (va_path va')); try done; [|apply index_range; lia].
    rewrite decide_False; [done|]. intros [E1 E2]. by apply Hne, same_page.
Qed.
End tables.

(** ** Page-table entries *)

Lemma mask_testbit k : 0 <= k -> Z.testbit PTE_ADDR_MASK k = bool_decide (12 <= k < 52).
Proof.
  intros Hk. change PTE_ADDR_MASK with (Z.shiftl (Z.ones 40) 12). rewrite Z.shiftl_spec by done.
  destruct (decide (12 <= k < 52)).
  - rewrite bool_decide_true by done. apply Z.ones_spec_low. lia.
  - rewrite bool_decide_false by done. destruct (decide (k < 12)); [apply Z.testbit_neg_r; lia|]. apply Z.ones_spec_high. lia.
Qed.

(** A frame address is its own address field. *)
Lemma mask_frame x : 0 <= x < 2 ^ 52 -> x mod PT_PAGE = 0 -> Z.land x PTE_ADDR_MASK = x.
Proof.
  intros Hx Hal. apply Z.bits_inj'. intros k Hk. rewrite Z.land_spec, mask_testbit by done.
  destruct (decide (12 <= k < 52)); [by rewrite bool_decide_true, andb_true_r|]. rewrite bool_decide_false, andb_false_r by done.
  symmetry. destruct (decide (k < 12)).
  - rewrite (Z.div_mod x (2 ^ 12)) by done. change (2 ^ 12) with PT_PAGE. rewrite Hal, Z.add_0_r. change PT_PAGE with (2 ^ 12).
    rewrite Z.mul_comm, Z.mul_pow2_bits by lia. apply Z.testbit_neg_r. lia.
  - destruct (decide (x = 0)) as [->|]; [apply Z.bits_0|]. apply Z.bits_above_log2; [lia|].
    apply Z.log2_lt_pow2; [lia|]. apply Z.lt_le_trans with (2 ^ 52); [lia | apply Z.pow_le_mono_r; lia].
Qed.

Lemma mask_flags x f : Z.land f PTE_ADDR_MASK = 0 -> Z.land (Z.lor x f) PTE_ADDR_MASK = Z.land x PTE_ADDR_MASK.
Proof. intros Hf. by rewrite Z.land_lor_distr_l, Hf, Z.lor_0_r. Qed.

Lemma has_present_odd w : has_present w = Z.testbit w 0.
Proof.
  unfold has_present, has, VMM_PRESENT. change (2 ^ 0) with (Z.ones 1). rewrite Z.land_ones by lia.
  rewrite Z.bit0_odd, Zodd_mod. pose proof (Z.mod_pos_bound w (2 ^ 1) ltac:(lia)). change (2 ^ 1) with 2 in *.
  destruct (Z.eqb_spec (w mod 2) 0), (Z.eqb_spec (w mod 2) 1); done || lia.
Qed.
Lemma present_lor a b : has_present (Z.lor a b) = has_present a || has_present b.
Proof. rewrite !has_present_odd. apply Z.lor_spec. Qed.

Section spaces.
Context {H : Type} `{!KHeap H, !KHeapLaws H, !KFrames H, !KFramesLaws H}.
Implicit Types (s : vmm H) (p q : list Z) (t u : Z).

(** The heap lies in the higher-half window, so that physical addresses of
    its frames fit an entry. *)
Record vm_ok s : Prop := {
  vo_heap : heap_ok (v_heap s);
  vo_base : 0 <= v_hhdm s < hp_base (v_heap s);
  vo_top : hp_top (v_heap s) <= v_hhdm s + 2 ^ 52;
  vo_align : v_hhdm s mod PT_PAGE = 0;
}.

(** An address space: a tree of tables that are live frames. *)
Record as_ok s (r : Z) : Prop := {
  as_vm : vm_ok s;
  as_pt : pt_ok s r;
  as_live : forall p t, user_path p -> tab s r p = Some t -> heap_live (v_heap s) t PT_PAGE;
}.

Lemma frame_address s v : vm_ok s -> heap_live (v_heap s) v PT_PAGE -> v mod PT_PAGE = 0 ->
  let f := virt_to_phys s v in
  f = v - v_hhdm s /\ 0 < f < 2 ^ 52 /\ f mod PT_PAGE = 0 /\ phys_to_virt s f = v /\ Z.land f PTE_ADDR_MASK = f.
Proof.
  intros [Hok Hb Ht Ha] Hl Hal f. destruct (live_window _ _ _ Hok Hl) as [H1 H2]. destruct (live_nonnull _ _ _ Hok Hl) as (H3 & _ & H4).
  assert (f = v - v_hhdm s) as Ef by (unfold f, virt_to_phys; apply u64_small; unfold PT_PAGE in *; lia).
  assert (0 < f < 2 ^ 52) as Hr by (unfold PT_PAGE in *; lia).
  assert (f mod PT_PAGE = 0) as Hfa by (rewrite Ef, Zminus_mod, Hal, Ha; done).
  split_and!; try done; try lia.
  - unfold phys_to_virt. rewrite Ef. rewrite u64_small; lia.
  - apply mask_frame; [lia | done].
Qed.

(** A new zeroed frame, distinct from every live block. *)
Lemma alloc_frame_spec s f s' : vm_ok s -> vmm_alloc_frame s = (f, s') ->
  vm_ok s' /\ v_hhdm s' = v_hhdm s /\ kernel_pml4 s' = kernel_pml4 s /\ v_trace s' = v_trace s /\
  ((f = 0 /\ v_mem s' = v_mem s /\ (forall a n, heap_live (v_heap s') a n <-> heap_live (v_heap s) a n)) \/
   exists v, 0 < f < 2 ^ 52 /\ f mod PT_PAGE = 0 /\ phys_to_virt s f = v /\ v <> 0 /\
     v_mem s' = <[v := replicate 512 0]> (v_mem s) /\ (forall n, ~ heap_live (v_heap s) v n) /\
     (forall a n, heap_live (v_heap s') a n <-> (a = v /\ n = PT_PAGE) \/ heap_live (v_heap s) a n)).
Proof.
  intros Hvm Ha. pose proof Hvm as [Hok Hb Ht Hal]. unfold vmm_alloc_frame in Ha.
  destruct (hp_kalloc PT_PAGE (v_heap s)) as [v h] eqn:Ek.
  destruct (kalloc_window (v_heap s) PT_PAGE) as [W1 W2]. rewrite Ek in W1, W2. cbn in W1, W2.
  destruct (Z.eqb_spec v 0) as [->|Hne].
  { injection Ha as <- <-. destruct (kalloc_fail (v_heap s) h PT_PAGE Hok ltac:(done) Ek) as [Hok' Hl].
    split_and!; try done; [split; cbn; try done; lia|]. left. done. }
  destruct (kalloc_fresh (v_heap s) h PT_PAGE v Hok ltac:(done) Ek Hne) as (Hok' & m & Hm & Hfr & Hl).
  destruct (kalloc_page (v_heap s) h v Hok Ek Hne) as [Hlv Hva].
  assert (m = PT_PAGE) as -> by (apply (live_functional h v); [done | apply Hl; by left | done]).
  set (s1 := set_vmem _ (set_vheap h s)) in Ha. assert (vm_ok s1) as Hvm1 by (split; cbn; try done; lia).
  destruct (frame_address s1 v Hvm1 Hlv Hva) as (Ef & Hr & Hfa & Hpv & _). set (f1 := virt_to_phys s1 v) in *.
  set (s2 := match vmm_page_refcounts s1 with Some _ => _ | None => s1 end) in Ha.
  assert (v_heap s2 = h /\ v_mem s2 = v_mem s1 /\ v_hhdm s2 = v_hhdm s /\ kernel_pml4 s2 = kernel_pml4 s /\ v_trace s2 = v_trace s)
    as (E1 & E2 & E3 & E4 & E5).
  { unfold s2, set_ref. destruct (vmm_page_refcounts s1) eqn:Er; [|done]. destruct (_ <? _); done. }
  injection Ha as <- <-. split_and!; try done.
  - split; rewrite ?E1, ?E3; try done; lia.
  - right. exists v. rewrite E1, E2. split_and!; done || lia.
Qed.

(** Everything the address space had is still there. *)
Record keeps_as s s' (r : Z) : Prop := {
  ka_ok : as_ok s' r;
  ka_hhdm : v_hhdm s' = v_hhdm s;
  ka_kpml4 : kernel_pml4 s' = kernel_pml4 s;
  ka_tab : forall q u, user_path q -> tab s r q = Some u -> tab s' r q = Some u;
  ka_pte : forall va, user_va va -> pte_of s' r va = pte_of s r va;
  ka_kernel : forall i, 256 <= i < 512 -> word s' r i = word s r i;
  ka_live : forall a n, heap_live (v_heap s) a n -> heap_live (v_heap s') a n;
}.

Lemma keeps_refl s r : as_ok s r -> keeps_as s s r.
Proof. intros Hok. by split. Qed.
Lemma keeps_trans s1 s2 s3 r : keeps_as s1 s2 r -> keeps_as s2 s3 r -> keeps_as s1 s3 r.
Proof.
  intros K1 K2. split.
  - apply K2.
  - rewrite (ka_hhdm _ _ _ K2). apply K1.
  - rewrite (ka_kpml4 _ _ _ K2). apply K1.
  - intros q u Hq Hu. by apply K2, K1.
  - intros va Hv. rewrite (ka_pte _ _ _ K2) by done. by apply K1.
  - intros i Hi. rewrite (ka_kernel _ _ _ K2) by done. by apply K1.
  - intros a n Ha. by apply K2, K1.
Qed.

(** A zeroed frame that is no table of the tree yet. *)
Lemma tab_fresh s s' r v q :
  (forall p t, user_path p -> tab s r p = Some t -> t <> v) ->
  v_mem s' = <[v := replicate 512 0]> (v_mem s) -> v_hhdm s' = v_hhdm s -> user_path q -> tab s' r q = tab s r q.
Proof.
  intros Hfr Em Eh. induction q as [|j q IH] using rev_ind; [done|]. intros Hq. pose proof (user_path_app _ _ Hq) as Hq'.
  rewrite !tab_snoc, IH by done. destruct (tab s r q) as [u|] eqn:Eu; [|done]. cbn zeta.
  unfold word, entry_table, phys_to_virt. rewrite Em, Eh, lookup_insert_ne; [done|]. by apply not_eq_sym, (Hfr q).
Qed.

Lemma zero_table_word s v j : v_mem s !! v = Some (replicate 512 0) -> is_index j -> word s v j = 0.
Proof.
  intros E Hj. unfold word. rewrite E. cbn [default from_option id]. unfold zget. apply lookup_total_replicate_2.
  unfold is_index in Hj. lia.
Qed.

Lemma new_entry_word s f pf v : 0 < f < 2 ^ 52 -> f mod PT_PAGE = 0 -> phys_to_virt s f = v -> (pf = 0 \/ pf = VMM_USER) ->
  let w := Z.lor (Z.lor (Z.lor f VMM_PRESENT) VMM_WRITABLE) pf in
  has_present w = true /\ entry_table s w = v /\ has w VMM_HUGE = false.
Proof.
  intros Hf Ha Hv Hpf w. split_and!.
  - unfold w. rewrite !present_lor. change (has_present VMM_PRESENT) with true. by rewrite !orb_true_r.
  - unfold entry_table, w. rewrite !mask_flags; [|done|done|by destruct Hpf as [->| ->]].
    rewrite mask_frame by (done || lia). done.
  - unfold has, w. rewrite !Z.land_lor_distr_l. replace (Z.land f VMM_HUGE) with 0; [by destruct Hpf as [->| ->]|].
    rewrite <- (mask_frame f) by (done || lia). by rewrite <- Z.land_assoc, Z.land_0_r.
Qed.

(** The fresh table [v] hooked in at entry [i] of table [t]: [s1] is [s] with
    the frame allocated, [w] the new entry. *)
Section hook.
Context s s1 (r : Z) p t (i w v : Z).
Context (Has : as_ok s r) (Hp : user_path p) (Ht : tab s r p = Some t) (Hpi : user_path (p ++ [i])).
Context (Hnp : has_present (word s t i) = false) (Hvm1 : vm_ok s1) (Eh : v_hhdm s1 = v_hhdm s) (Ek : kernel_pml4 s1 = kernel_pml4 s).
Context (Em : v_mem s1 = <[v := replicate 512 0]> (v_mem s)) (Hv0 : v <> 0) (Hfr : forall n, ~ heap_live (v_heap s) v n).
Context (Hl1 : forall a n, heap_live (v_heap s1) a n <-> (a = v /\ n = PT_PAGE) \/ heap_live (v_heap s) a n).
Context (Hw : has_present w = true) (Hwt : entry_table s1 w = v) (Hwh : has w VMM_HUGE = false).

Lemma hook_fresh q u : user_path q -> tab s r q = Some u -> u <> v.
Proof. intros Hq Hu ->. by apply (Hfr PT_PAGE), (as_live s r Has q). Qed.

Lemma hook_tab1 q : user_path q -> tab s1 r q = tab s r q.
Proof. intros Hq. apply (tab_fresh s s1 r v); try done. apply hook_fresh. Qed.

Lemma hook_word1 q u j : user_path q -> tab s r q = Some u -> word s1 u j = word s u j.
Proof. intros Hq Hu. unfold word. by rewrite Em, lookup_insert_ne by (by apply not_eq_sym, (hook_fresh q)). Qed.

Lemma hook_pt1 : pt_ok s1 r.
Proof.
  split.
  - intros q u Hq. rewrite hook_tab1 by done. intros Hu. destruct (pk_shape s r (as_pt s r Has) q u Hq Hu) as (? & l & El & ?).
    split; [done|]. exists l. by rewrite Em, lookup_insert_ne by (by apply not_eq_sym, (hook_fresh q)).
  - intros q q' u Hq Hq'. rewrite !hook_tab1 by done. by apply Has.
  - intros q u j Hqj. pose proof (user_path_app _ _ Hqj) as Hq. rewrite hook_tab1 by done. intros Hu.
    rewrite (hook_word1 q) by done. by apply (pk_small s r (as_pt s r Has) q).
Qed.

Lemma hook_index : is_index i.
Proof using Hpi. by apply user_path_last in Hpi. Qed.

Let s2 := set_word t i w s1.

Lemma hook_other q : user_path q -> ~ (p ++ [i]) `prefix_of` q -> tab s2 r q = tab s r q.
Proof.
  intros Hq Hnpre. unfold s2. rewrite (tab_write_other s1 r p t i w q); try done; [by apply hook_tab1 | apply hook_pt1 | by rewrite hook_tab1 | apply hook_index].
Qed.

Lemma hook_at : tab s2 r (p ++ [i]) = Some v.
Proof.
  unfold s2. rewrite (tab_write_at s1 r p t i w); [by rewrite Hw, Hwt | apply hook_pt1 | done | by rewrite hook_tab1 | apply hook_index].
Qed.

Lemma hook_mem : v_mem s2 !! v = Some (replicate 512 0).
Proof.
  unfold s2, set_word, set_vmem. cbn. rewrite lookup_insert_ne by (by apply (hook_fresh p)). by rewrite Em, lookup_insert_eq.
Qed.

Lemma hook_deep q k : user_path (p ++ [i] ++ k :: q) -> tab s2 r (p ++ [i] ++ k :: q) = None.
Proof.
  revert k. induction q as [|j q IH] using rev_ind; intros k Hq.
  - rewrite app_assoc, tab_snoc, hook_at. cbn zeta. rewrite zero_table_word; [done | apply hook_mem |].
    destruct Hq as (_ & Hf & _). rewrite !Forall_app in Hf. destruct Hf as (_ & _ & Hf). by inversion Hf.
  - replace (p ++ [i] ++ k :: q ++ [j]) with ((p ++ [i] ++ k :: q) ++ [j]) in * by (by rewrite <- !app_assoc).
    rewrite tab_snoc, IH; [done|]. by apply user_path_app in Hq.
Qed.

Lemma hook_old q : user_path q -> (p ++ [i]) `prefix_of` q -> tab s r q = None.
Proof using Ht Hnp.
  intros Hq [k ->]. induction k as [|j k IH] using rev_ind.
  - rewrite app_nil_r, tab_snoc, Ht. cbn zeta. by rewrite Hnp.
  - rewrite app_assoc in Hq |- *. rewrite tab_snoc, IH; [done|]. by apply user_path_app in Hq.
Qed.

(** Every table of the new tree is an old one, under its old path, or [v]. *)
Lemma hook_cases q u : user_path q -> tab s2 r q = Some u -> (tab s r q = Some u /\ u <> v) \/ (q = p ++ [i] /\ u = v).
Proof.
  intros Hq Hu. destruct (decide ((p ++ [i]) `prefix_of` q)) as [[k ->]|Hn].
  - destruct k as [|k q'].
    + right. rewrite app_nil_r in Hu |- *. rewrite hook_at in Hu. by simplify_eq.
    + rewrite <- app_assoc in Hq, Hu. by rewrite hook_deep in Hu.
  - left. rewrite hook_other in Hu by done. split; [done|]. by apply (hook_fresh q).
Qed.

Lemma hook_word q u j : user_path q -> tab s r q = Some u -> is_index j -> ~ (q = p /\ j = i) -> word s2 u j = word s u j.
Proof.
  intros Hq Hu Hj Hne. unfold s2.
  rewrite (word_write s1 r p t i w u q j); try done; [|apply hook_pt1 | by rewrite hook_tab1 | apply hook_index | by rewrite hook_tab1].
  rewrite decide_False by done. by apply (hook_word1 q).
Qed.

Lemma hook_as : as_ok s2 r.
Proof.
  assert (table_shape s1 t) as Hsh by (apply (pk_shape s1 r hook_pt1 p); [done | by rewrite hook_tab1]).
  split; [by destruct Hvm1; split|split|].
  - intros q u Hq Hu. destruct (hook_cases q u Hq Hu) as [[Ho _]|[-> ->]].
    + apply shape_set; [done|]. apply (pk_shape s1 r hook_pt1 q); [done | by rewrite hook_tab1].
    + split; [done|]. exists (replicate 512 0). split; [apply hook_mem | done].
  - intros q q' u Hq Hq' Hu Hu'. destruct (hook_cases q u Hq Hu) as [[Ho Hn]|[E1 E2]], (hook_cases q' u Hq' Hu') as [[Ho' Hn']|[E3 E4]]; try congruence.
    exact (pk_inj s r (as_pt s r Has) _ _ _ Hq Hq' Ho Ho').
  - intros q u j Hqj Hu. pose proof (user_path_app _ _ Hqj) as Hq. pose proof (user_path_last _ _ Hqj) as Hj.
    destruct (hook_cases q u Hq Hu) as [[Ho _]|[-> ->]]; [|rewrite zero_table_word; [done | apply hook_mem | done]].
    destruct (decide (q = p /\ j = i)) as [[-> ->]|Hne].
    + unfold s2. assert (u = t) as -> by congruence. rewrite (word_write s1 r p t i w t p); try done; [|apply hook_pt1 | by rewrite hook_tab1 | by rewrite hook_tab1].
      by rewrite decide_True.
    + rewrite (hook_word q) by done. by apply (pk_small s r (as_pt s r Has) q).
  - intros q u Hq Hu. apply Hl1. destruct (hook_cases q u Hq Hu) as [[Ho _]|[-> ->]]; [right; by apply (as_live s r Has q) | by left].
Qed.

Lemma hook_pte va : user_va va -> pte_of s2 r va = pte_of s r va.
Proof.
  intros Hva. pose proof (user_path_va va Hva) as Hq. unfold pte_of.
  destruct (decide ((p ++ [i]) `prefix_of` va_path va)) as [Hpre|Hn].
  - rewrite (hook_old (va_path va)) by done. destruct Hpre as [[|k q'] E].
    + rewrite app_nil_r in E. rewrite E, hook_at. cbn zeta. rewrite zero_table_word; [done | apply hook_mem | apply index_range; lia].
    + rewrite E in Hq |- *. rewrite <- app_assoc in Hq |- *. by rewrite hook_deep.
  - rewrite hook_other by done. destruct (tab s r (va_path va)) as [u|] eqn:Eu; [|done]. cbn zeta.
    rewrite (hook_word (va_path va)); try done; [apply index_range; lia|]. intros [E _]. destruct Hpi as (Hlen & _).
    rewrite <- E, length_app in Hlen. cbn in Hlen. lia.
Qed.

Lemma hook_table : keeps_as s s2 r /\ tab s2 r (p ++ [i]) = Some v.
Proof.
  split; [|apply hook_at]. split; try done.
  - apply hook_as.
  - intros q u Hq Hu. destruct (decide ((p ++ [i]) `prefix_of` q)) as [Hpre|Hn]; [|by rewrite hook_other].
    by rewrite (hook_old q Hq Hpre) in Hu.
  - apply hook_pte.
  - intros j Hj. apply (hook_word []); [split; [cbn; lia|]; split; [constructor | done] | done | unfold is_index; lia |].
    intros [E ->]. subst p. destruct Hpi as (_ & _ & Hlt). cbn in Hlt. lia.
  - intros a n Ha. apply Hl1. by right.
Qed.
End hook.

Lemma next_level_spec s r p t i pf u s' :
  as_ok s r -> user_path p -> tab s r p = Some t -> user_path (p ++ [i]) -> (pf = 0 \/ pf = VMM_USER) ->
  vmm_get_next_level t i true pf s = (u, s') ->
  keeps_as s s' r /\ (u = 0 \/ (u <> 0 /\ tab s' r (p ++ [i]) = Some u)).
Proof.
  intros Has Hp Ht Hpi Hpf Hs. unfold vmm_get_next_level in Hs. destruct (has_present (word s t i)) eqn:Epr.
  { injection Hs as <- <-. split; [by apply keeps_refl|]. right.
    assert (tab s r (p ++ [i]) = Some (entry_table s (word s t i))) as E by (rewrite tab_snoc, Ht; cbn zeta; by rewrite Epr).
    split; [|done]. by apply (pk_shape s r (as_pt s r Has) (p ++ [i])). }
  cbn [negb] in Hs. destruct (vmm_alloc_frame s) as [f s1] eqn:Ea.
  destruct (alloc_frame_spec s f s1 (as_vm s r Has) Ea) as (Hvm1 & Eh & Ek & Etr & Hcase).
  destruct Hcase as [(-> & Em & Hl) | (v & Hf & Hfa & Hv & Hv0 & Em & Hfr & Hl)].
  - injection Hs as <- <-. split; [|by left]. split; try done.
    + split; [done | by apply (pt_ok_ext s), Has |]. intros q x Hq. rewrite (tab_ext s s1) by done. intros Hx. apply Hl. by apply (as_live s r Has q).
    + intros q x Hq. by rewrite (tab_ext s s1).
    + intros va _. by apply pte_ext.
    + intros j _. unfold word. by rewrite Em.
    + intros a n Hx. by apply Hl.
  - rewrite (proj2 (Z.eqb_neq f 0)) in Hs by lia. injection Hs as <- <-.
    assert (phys_to_virt s1 f = v) as Hv1 by (unfold phys_to_virt in *; by rewrite Eh).
    destruct (new_entry_word s1 f pf v) as (W1 & W2 & W3); try done. rewrite Hv1.
    destruct (hook_table s s1 r p t i (Z.lor (Z.lor (Z.lor f VMM_PRESENT) VMM_WRITABLE) pf) v) as [K T]; try done.
    split; [exact K|]. right. done.
Qed.

Lemma path_step va : user_va va ->
  user_path [] /\ user_path [PML4_INDEX va] /\ user_path [PML4_INDEX va; PDP_INDEX va] /\ user_path (va_path va).
Proof.
  intros Hv. pose proof (user_path_va va Hv) as H3. split_and!; try done.
  - split; [cbn; lia|]. split; [constructor | done].
  - apply (user_path_app _ [PDP_INDEX va; PD_INDEX va]). exact H3.
  - apply (user_path_app _ [PD_INDEX va]). exact H3.
Qed.

Lemma walk_create_spec s r va pf t s' :
  as_ok s r -> user_va va -> (pf = 0 \/ pf = VMM_USER) -> walk_to_pt r va true pf s = (t, s') ->
  keeps_as s s' r /\ (t = 0 \/ (t <> 0 /\ tab s' r (va_path va) = Some t)).
Proof.
  intros Has Hv Hpf Hs. destruct (path_step va Hv) as (P0 & P1 & P2 & P3). unfold walk_to_pt in Hs.
  destruct (vmm_get_next_level r (PML4_INDEX va) true pf s) as [t1 s1] eqn:E1.
  destruct (next_level_spec s r [] r _ pf t1 s1 Has P0 eq_refl P1 Hpf E1) as [K1 C1].
  destruct (Z.eqb_spec t1 0) as [|N1]; [injection Hs as <- <-; split; [done | by left]|]. destruct C1 as [|[_ T1]]; [done|].
  destruct (vmm_get_next_level t1 (PDP_INDEX va) true pf s1) as [t2 s2] eqn:E2.
  destruct (next_level_spec s1 r [PML4_INDEX va] t1 _ pf t2 s2 (ka_ok _ _ _ K1) P1 T1 P2 Hpf E2) as [K2 C2].
  destruct (Z.eqb_spec t2 0) as [|N2]; [injection Hs as <- <-; split; [by eapply keeps_trans | by left]|]. destruct C2 as [|[_ T2]]; [done|].
  destruct (next_level_spec s2 r [PML4_INDEX va; PDP_INDEX va] t2 _ pf t s' (ka_ok _ _ _ K2) P2 T2 P3 Hpf Hs) as [K3 C3].
  split; [|done]. eapply keeps_trans; [done|]. by eapply keeps_trans.
Qed.

(** Without creation the walk reads the table of the path. *)
Lemma walk_read_spec s r va : pt_ok s r -> user_va va ->
  walk_to_pt r va false 0 s = (default 0 (tab s r (va_path va)), s) /\
  (forall t, tab s r (va_path va) = Some t -> t <> 0).
Proof.
  intros Hpt Hv. destruct (path_step va Hv) as (P0 & P1 & P2 & P3).
  assert (forall q t, user_path q -> tab s r q = Some t -> t <> 0) as Hnz by (intros q t Hq Ht; by apply (pk_shape s r Hpt q)).
  split; [|intros t; by apply Hnz]. unfold walk_to_pt, vmm_get_next_level, va_path. cbn [tab negb].
  destruct (has_present (word s r _)) eqn:E1; [|done].
  assert (tab s r [PML4_INDEX va] = Some (entry_table s (word s r (PML4_INDEX va)))) as T1 by (cbn; by rewrite E1).
  rewrite (proj2 (Z.eqb_neq _ 0)) by (by apply (Hnz _ _ P1 T1)).
  destruct (has_present (word s (entry_table s _) _)) eqn:E2; [|done].
  assert (tab s r [PML4_INDEX va; PDP_INDEX va] = Some (entry_table s (word s (entry_table s (word s r (PML4_INDEX va))) (PDP_INDEX va)))) as T2
    by (cbn; by rewrite E1, E2).
  rewrite (proj2 (Z.eqb_neq _ 0)) by (by apply (Hnz _ _ P2 T2)).
  by destruct (has_present (word s (entry_table s _) (PD_INDEX va))).
Qed.

Lemma is_mapped_pte s r va : pt_ok s r -> user_va va -> r <> 0 ->
  vmm_is_mapped_in r va s = match pte_of s r va with Some w => Z.land w PTE_ADDR_MASK | None => 0 end.
Proof.
  intros Hpt Hv Hr. destruct (walk_read_spec s r va Hpt Hv) as [E Hnz]. unfold vmm_is_mapped_in, pte_of.
  rewrite (proj2 (Z.eqb_neq r 0)), E by done. destruct (tab s r (va_path va)) as [t|]; [|done]. cbn [default from_option id].
  rewrite (proj2 (Z.eqb_neq t 0)) by (by apply Hnz). cbn zeta. by destruct (has_present _).
Qed.

Lemma set_word_as s r va t w : as_ok s r -> user_va va -> tab s r (va_path va) = Some t ->
  as_ok (set_word t (PT_INDEX va) w s) r.
Proof.
  intros [Hvm Hpt Hl] Hv Ht. destruct (write_leaf s r va t w Hpt Hv Ht) as (Hpt' & Htab & _).
  split; [by destruct Hvm; split | done |]. intros p u Hp. rewrite Htab by done. by apply Hl.
Qed.

Lemma emit_as s r e : as_ok s r -> as_ok (emit e s) r.
Proof.
  intros [Hvm Hpt Hl]. split; [by destruct Hvm; split | by apply (pt_ok_ext s) |].
  intros p u Hp. rewrite (tab_ext s (emit e s)) by done. by apply Hl.
Qed.

(** The kernel half of the top-level table is left alone. *)
Lemma set_leaf_kernel s r va t w i : pt_ok s r -> user_va va -> tab s r (va_path va) = Some t -> 256 <= i < 512 ->
  word (set_word t (PT_INDEX va) w s) r i = word s r i.
Proof.
  intros Hpt Hv Ht Hi. destruct (path_step va Hv) as (P0 & _ & _ & P3).
  rewrite (word_write s r (va_path va) t _ w r []); try done; [apply index_range; lia | unfold is_index; lia].
Qed.
End spaces.
