(* ===== verification/VmmProps.v ===== *)
(** * Address spaces: theorems

    Mapping, unmapping and creating address spaces, from the lemmas of
    VmmMap.v, and unmapping a range with the order of TLB flushes and frees. *)
From S2P Require Import Prelude Heap Vmm VmmMap.

Section props.
Context {H : Type} `{!KHeap H, !KHeapLaws H, !KFrames H, !KFramesLaws H}.
Implicit Types (s : vmm H) (r va : Z).

Lemma root_nonzero s r : pt_ok s r -> r <> 0.
Proof. intros Hpt. apply (pk_shape s r Hpt [] r); [|done]. split; [cbn; lia|]. split; [constructor | done]. Qed.

(** Translations change at one page at most. *)
Definition same_but s s' r va : Prop :=
  forall va', user_va va' -> va' / 4096 <> va / 4096 -> pte_of s' r va' = pte_of s r va'.

Lemma map_page_spec s r va pa flags rc s' :
  as_ok s r -> user_va va -> vmm_map_page_in r va pa flags s = (rc, s') ->
  as_ok s' r /\ v_hhdm s' = v_hhdm s /\ (forall i, 256 <= i < 512 -> word s' r i = word s r i) /\
  ((rc = -1 /\ forall va', user_va va' -> pte_of s' r va' = pte_of s r va') \/
   (rc = 0 /\ pte_of s' r va = Some (Z.lor (Z.lor (Z.land pa PTE_ADDR_MASK) flags) VMM_PRESENT) /\ same_but s s' r va)).
Proof.
  intros Has Hv Hs. pose proof (root_nonzero s r (as_pt _ _ Has)) as Hr.
  unfold vmm_map_page_in in Hs. rewrite (proj2 (Z.eqb_neq r 0)) in Hs by done.
  set (pf := if has flags VMM_USER then VMM_USER else 0) in Hs.
  assert (pf = 0 \/ pf = VMM_USER) as Hpf by (unfold pf; destruct (has flags VMM_USER); [by right | by left]).
  destruct (walk_to_pt r va true pf s) as [t s1] eqn:Ew.
  destruct (walk_create_spec s r va pf t s1 Has Hv Hpf Ew) as [K Ht].
  destruct (Z.eqb_spec t 0) as [->|Hne].
  { injection Hs as <- <-. split; [apply K|]. split; [apply K|]. split; [apply K|]. left. split; [done | apply K]. }
  destruct Ht as [|[_ Ht]]; [done|]. injection Hs as <- <-.
  set (w := Z.lor _ VMM_PRESENT). set (s2 := set_word t (PT_INDEX va) w s1).
  destruct (write_leaf s1 r va t w (as_pt _ _ (ka_ok _ _ _ K)) Hv Ht) as (_ & _ & Hpte & Hoth).
  assert (forall va', pte_of (emit (Invlpg va) s2) r va' = pte_of s2 r va') as He by (intros; by apply pte_ext).
  split_and!.
  - by apply emit_as, set_word_as; [apply K|..].
  - apply K.
  - intros i Hi. change (word s2 r i = word s r i). unfold s2. rewrite set_leaf_kernel; [|apply K|done|done|done]. by apply K.
  - right. split; [done|]. split.
    + rewrite He. unfold s2. rewrite Hpte. unfold w. rewrite present_lor. change (has_present VMM_PRESENT) with true. by rewrite orb_true_r.
    + intros va' Hv' Hd. rewrite He. unfold s2. rewrite Hoth by done. by apply K.
Qed.

(** [vmm_map_page_in] maps the page and no other: afterwards the address
    translates to the frame given, every other user page translates as before,
    and the kernel half of the top-level table is untouched.  When a table
    cannot be allocated it returns -1 and no translation changes. *)
Theorem vmm_map_exact s r va pa flags rc s' :
  as_ok s r -> user_va va -> Z.land flags PTE_ADDR_MASK = 0 -> vmm_map_page_in r va pa flags s = (rc, s') ->
  as_ok s' r /\ (forall i, 256 <= i < 512 -> word s' r i = word s r i) /\
  ((rc = -1 /\ forall va', user_va va' -> vmm_is_mapped_in r va' s' = vmm_is_mapped_in r va' s) \/
   (rc = 0 /\ vmm_is_mapped_in r va s' = Z.land pa PTE_ADDR_MASK /\
    forall va', user_va va' -> va' / 4096 <> va / 4096 -> vmm_is_mapped_in r va' s' = vmm_is_mapped_in r va' s)).
Proof.
  intros Has Hv Hfl Hs. destruct (map_page_spec s r va pa flags rc s' Has Hv Hs) as (Has' & _ & Hk & Hcase).
  pose proof (root_nonzero s r (as_pt _ _ Has)) as Hr. pose proof (as_pt _ _ Has) as Hp. pose proof (as_pt _ _ Has') as Hp'.
  split_and!; try done. destruct Hcase as [[-> Hsame]|(-> & Hpte & Hoth)]; [left | right].
  - split; [done|]. intros va' Hv'. by rewrite !is_mapped_pte, Hsame.
  - split; [done|]. split.
    + rewrite is_mapped_pte, Hpte by done. rewrite !mask_flags by done. by rewrite <- Z.land_assoc.
    + intros va' Hv' Hd. by rewrite !is_mapped_pte, Hoth.
Qed.

(** [vmm_unmap_page_in] removes the translation of one page and keeps all
    others; it fails only for addresses without a last-level table, which are
    not mapped. *)
Theorem vmm_unmap_exact s r va rc s' :
  as_ok s r -> user_va va -> vmm_unmap_page_in r va s = (rc, s') ->
  as_ok s' r /\ vmm_is_mapped_in r va s' = 0 /\ (rc = 0 \/ (rc = -1 /\ s' = s)) /\
  forall va', user_va va' -> va' / 4096 <> va / 4096 -> vmm_is_mapped_in r va' s' = vmm_is_mapped_in r va' s.
Proof.
  intros Has Hv Hs. pose proof (as_pt _ _ Has) as Hp. pose proof (root_nonzero s r Hp) as Hr.
  destruct (walk_read_spec s r va Hp Hv) as [Ew Hnz]. unfold vmm_unmap_page_in in Hs. rewrite (proj2 (Z.eqb_neq r 0)), Ew in Hs by done.
  destruct (tab s r (va_path va)) as [t|] eqn:Et; cbn [default from_option id] in Hs.
  - rewrite (proj2 (Z.eqb_neq t 0)) in Hs by (by apply Hnz). injection Hs as <- <-.
    destruct (write_leaf s r va t 0 Hp Hv Et) as (_ & _ & Hpte & Hoth). pose proof (set_word_as s r va t 0 Has Hv Et) as Has1.
    set (s1 := set_word t (PT_INDEX va) 0 s) in *. pose proof (emit_as _ r (Invlpg va) (emit_as s1 r (Cleared t (PT_INDEX va)) Has1)) as Has2.
    unfold clear_entry. fold s1. set (s2 := emit (Invlpg va) _) in *.
    assert (forall va', pte_of s2 r va' = pte_of s1 r va') as He by (intros; by apply pte_ext).
    split_and!; try done; [|by left|].
    + rewrite is_mapped_pte, He, Hpte by (done || apply Has2). done.
    + intros va' Hv' Hd. rewrite !is_mapped_pte, He, Hoth by (done || apply Has2). done.
  - injection Hs as <- <-. split_and!; try done; [|by right]. rewrite is_mapped_pte by done. unfold pte_of. by rewrite Et.
Qed.

(** ** Ranges *)

Lemma page_add va j : (va + j * 4096) / 4096 = va / 4096 + j.
Proof. by rewrite Z.div_add. Qed.

Definition leaf_word (pa flags : Z) : Z := Z.lor (Z.lor (Z.land pa PTE_ADDR_MASK) flags) VMM_PRESENT.

Lemma map_range_spec n i r va pa flags s s' :
  as_ok s r -> 0 <= va -> 0 <= pa -> 0 <= i -> va + (i + Z.of_nat n) * 4096 <= 2 ^ 47 -> pa + (i + Z.of_nat n) * 4096 <= 2 ^ 64 ->
  map_range_loop n i r va pa flags s = (0, s') ->
  as_ok s' r /\
  (forall j, i <= j < i + Z.of_nat n -> pte_of s' r (va + j * 4096) = Some (leaf_word (pa + j * 4096) flags)) /\
  (forall va', user_va va' -> ~ va / 4096 + i <= va' / 4096 < va / 4096 + i + Z.of_nat n -> pte_of s' r va' = pte_of s r va').
Proof.
  revert i s. induction n as [|n IH]; intros i s Has Hva Hpa Hi Hb Hb' Hs; cbn [map_range_loop] in Hs.
  { injection Hs as <-. split_and!; try done. intros j Hj. lia. }
  unfold PT_PAGE in Hs. rewrite !u64_small in Hs by lia.
  destruct (vmm_map_page_in r (va + i * 4096) (pa + i * 4096) flags s) as [rc s1] eqn:Em.
  assert (user_va (va + i * 4096)) as Hu by (unfold user_va; lia).
  destruct (map_page_spec s r _ _ flags rc s1 Has Hu Em) as (Has1 & _ & _ & Hcase).
  destruct (Z.eqb_spec rc 0) as [->|]; [|destruct Hcase as [[-> _]|[-> _]]; done].
  destruct Hcase as [[? _]|(_ & Hpte & Hoth)]; [done|].
  destruct (IH (i + 1) s1) as (Has' & Hin & Hout); try done; try lia. split_and!; try done.
  - intros j Hj. destruct (decide (j = i)) as [->|]; [|apply Hin; lia].
    rewrite Hout; [done | done |]. rewrite page_add. lia.
  - intros va' Hv' Hn. rewrite Hout; [|done|lia]. apply Hoth; [done|]. rewrite page_add. lia.
Qed.

(** [vmm_map_range] maps consecutive pages to consecutive frames and leaves
    every page outside the range as it was. *)
Theorem vmm_map_range_exact s r va pa n flags s' :
  as_ok s r -> 0 <= va -> 0 <= pa -> 0 <= n -> va + n * 4096 <= 2 ^ 47 -> pa + n * 4096 <= 2 ^ 64 ->
  Z.land flags PTE_ADDR_MASK = 0 -> vmm_map_range r va pa n flags s = (0, s') ->
  as_ok s' r /\
  (forall j, 0 <= j < n -> vmm_is_mapped_in r (va + j * 4096) s' = Z.land (pa + j * 4096) PTE_ADDR_MASK) /\
  (forall va', user_va va' -> ~ va / 4096 <= va' / 4096 < va / 4096 + n ->
     vmm_is_mapped_in r va' s' = vmm_is_mapped_in r va' s).
Proof.
  intros Has Hva Hpa Hn Hb Hb' Hfl Hs. unfold vmm_map_range in Hs.
  destruct (map_range_spec (Z.to_nat n) 0 r va pa flags s s') as (Has' & Hin & Hout); try done; try lia.
  pose proof (root_nonzero s r (as_pt _ _ Has)) as Hr. pose proof (as_pt _ _ Has) as Hp. pose proof (as_pt _ _ Has') as Hp'.
  split_and!; try done.
  - intros j Hj. assert (user_va (va + j * 4096)) as Hu by (unfold user_va; lia). rewrite is_mapped_pte, Hin by (done || lia).
    unfold leaf_word. rewrite !mask_flags by done. by rewrite <- Z.land_assoc.
  - intros va' Hv' Hd. rewrite !is_mapped_pte, Hout by (done || lia). done.
Qed.

(** ** Creating an address space *)

(** Only the words of table [v] may differ. *)
Record only_table (v : Z) s s' : Prop := {
  ot_heap : v_heap s' = v_heap s;
  ot_hhdm : v_hhdm s' = v_hhdm s;
  ot_kpml4 : kernel_pml4 s' = kernel_pml4 s;
  ot_trace : v_trace s' = v_trace s;
  ot_mem : forall u, u <> v -> v_mem s' !! u = v_mem s !! u;
  ot_shape : table_shape s' v;
}.

Lemma fill_loop v (g : Z -> Z) n i s :
  table_shape s v -> 0 <= i -> i + Z.of_nat n <= 512 ->
  let s' := zfor n i (fun i s => set_word v i (g i) s) s in
  only_table v s s' /\ forall j, is_index j -> word s' v j = if decide (i <= j < i + Z.of_nat n) then g j else word s v j.
Proof.
  revert i s. induction n as [|n IH]; intros i s Hsh Hi Hn s'; cbn [zfor] in s'.
  { split; [by split|]. intros j Hj. rewrite decide_False by lia. done. }
  set (s1 := set_word v i (g i) s) in s'. assert (table_shape s1 v) as Hsh1 by (by apply shape_set).
  destruct (IH (i + 1) s1 Hsh1 ltac:(lia) ltac:(lia)) as [[? ? ? ? Hm ?] Hw]. fold s' in Hm, Hw. split.
  - split; try done. intros u Hu. rewrite Hm by done. unfold s1, set_word, set_vmem. cbn. by rewrite lookup_insert_ne.
  - intros j Hj. rewrite Hw by done. unfold s1. rewrite word_set by (done || unfold is_index; lia).
    destruct (decide (j = i)) as [->|].
    + rewrite decide_False, (decide_True (P := v = v /\ i = i)), decide_True by (done || lia). done.
    + rewrite (decide_False (P := v = v /\ j = i)) by tauto.
      destruct (decide (i + 1 <= j < i + 1 + Z.of_nat n)), (decide (i <= j < i + Z.of_nat (S n))); done || lia.
Qed.

Lemma zfor_ext {A} n i (f g : Z -> A -> A) (P : A -> Prop) a :
  P a -> (forall j a, i <= j < i + Z.of_nat n -> P a -> f j a = g j a /\ P (g j a)) -> zfor n i f a = zfor n i g a.
Proof.
  revert i a. induction n as [|n IH]; intros i a Ha Hfg; cbn [zfor]; [done|].
  destruct (Hfg i a ltac:(lia) Ha) as [-> Hp]. apply IH; [done|]. intros j b Hj. apply Hfg. lia.
Qed.

(** An address the allocator will not hand out next. *)
Definition taken s (a : Z) : Prop :=
  heap_live (v_heap s) a PT_PAGE \/ a < hp_base (v_heap s) \/ hp_top (v_heap s) <= a.

(** Tables of an address space that are not [v] are not touched. *)
Lemma other_table_as v s s' r :
  as_ok s r -> vm_ok s' -> v_hhdm s' = v_hhdm s -> (forall u, u <> v -> v_mem s' !! u = v_mem s !! u) ->
  (forall a n, heap_live (v_heap s) a n -> heap_live (v_heap s') a n) ->
  (forall q t, user_path q -> tab s r q = Some t -> t <> v) ->
  as_ok s' r /\ (forall va, user_va va -> pte_of s' r va = pte_of s r va).
Proof.
  intros [Hvm Hpt Hl] Hvm' Eh Hm Hlv Hne.
  assert (forall q t j, user_path q -> tab s r q = Some t -> word s' t j = word s t j) as Hw.
  { intros q t j Hq Ht. unfold word. by rewrite Hm by (by apply (Hne q)). }
  assert (forall q, user_path q -> tab s' r q = tab s r q) as Ht.
  { intros q. induction q as [|j q IH] using rev_ind; [done|]. intros Hq. pose proof (user_path_app _ _ Hq) as Hq'.
    rewrite !tab_snoc, IH by done. destruct (tab s r q) as [u|] eqn:Eu; [|done]. cbn zeta. rewrite (Hw q) by done.
    unfold entry_table, phys_to_virt. by rewrite Eh. }
  split; [split; [done|split|]|].
  - intros q t Hq. rewrite Ht by done. intros Hqt. unfold table_shape. rewrite Hm by (by apply (Hne q)). by apply (pk_shape s r Hpt q).
  - intros q q' t Hq Hq'. rewrite !Ht by done. by apply Hpt.
  - intros q t i Hqi. pose proof (user_path_app _ _ Hqi) as Hq. rewrite Ht by done. intros Hqt. rewrite (Hw q) by done. by apply (pk_small s r Hpt q).
  - intros q t Hq. rewrite Ht by done. intros Hqt. by apply Hlv, (Hl q).
  - intros va Hv. pose proof (user_path_va va Hv) as Hp. unfold pte_of. rewrite Ht by done.
    destruct (tab s r (va_path va)) as [t|] eqn:Et; [|done]. cbn zeta. by rewrite (Hw (va_path va)).
Qed.

Lemma alloc_window s : hp_base (v_heap (vmm_alloc_frame s).2) = hp_base (v_heap s) /\ hp_top (v_heap (vmm_alloc_frame s).2) = hp_top (v_heap s).
Proof.
  unfold vmm_alloc_frame. pose proof (kalloc_window (v_heap s) PT_PAGE) as Hw. destruct (hp_kalloc PT_PAGE (v_heap s)) as [v h].
  destruct (v =? 0); [done|]. unfold set_ref. by repeat case_match.
Qed.

Lemma create_spec s v s' :
  vm_ok s -> taken s (kernel_pml4 s) -> vmm_create_address_space s = (v, s') ->
  vm_ok s' /\
  ((v = 0 /\ v_mem s' = v_mem s) \/
   (v <> 0 /\ (forall n, ~ heap_live (v_heap s) v n) /\ heap_live (v_heap s') v PT_PAGE /\
    (forall i, is_index i -> word s' v i = if decide (i < 256) then 0 else word s (kernel_pml4 s) i) /\
    (forall u, u <> v -> v_mem s' !! u = v_mem s !! u) /\ table_shape s' v /\
    v_hhdm s' = v_hhdm s /\ (forall a n, heap_live (v_heap s) a n -> heap_live (v_heap s') a n))).
Proof.
  intros Hvm Hk Hs. unfold vmm_create_address_space in Hs. destruct (vmm_alloc_frame s) as [f s1] eqn:Ea.
  destruct (alloc_frame_spec s f s1 Hvm Ea) as (Hvm1 & Eh & Ek & Etr & Hcase).
  destruct Hcase as [(-> & Em & Hl) | (w & Hf & Hfa & Hw & Hw0 & Em & Hfr & Hl)].
  { injection Hs as <- <-. split; [done|]. by left. }
  rewrite (proj2 (Z.eqb_neq f 0)) in Hs by lia.
  assert (phys_to_virt s1 f = w) as Hw1 by (unfold phys_to_virt in *; by rewrite Eh). rewrite Hw1 in Hs.
  assert (heap_live (v_heap s1) w PT_PAGE) as Hlw by (apply Hl; by left).
  assert (kernel_pml4 s <> w) as Hkw.
  { intros E. destruct Hk as [Hk|Hk]; [rewrite E in Hk; by apply (Hfr PT_PAGE)|].
    destruct (live_window _ _ _ (vo_heap _ Hvm1) Hlw) as [B1 B2]. pose proof (alloc_window s) as [W1 W2]. rewrite Ea in W1, W2. cbn in W1, W2.
    unfold PT_PAGE in *. lia. }
  assert (table_shape s1 w) as Hsh by (split; [done|]; exists (replicate 512 0); by rewrite Em, lookup_insert_eq).
  destruct (fill_loop w (fun _ => 0) 256 0 s1 Hsh ltac:(lia) ltac:(lia)) as [O2 W2]. set (s2 := zfor 256 0 _ s1) in *. clearbody s2.
  set (K := kernel_pml4 s) in *.
  assert (zfor 256 256 (fun i s => set_word w i (word s (kernel_pml4 s) i) s) s2 = zfor 256 256 (fun i s0 => set_word w i (word s K i) s0) s2) as E3.
  { apply (zfor_ext _ _ _ _ (fun t => kernel_pml4 t = K /\ v_mem t !! K = v_mem s !! K)).
    - split; [rewrite (ot_kpml4 _ _ _ O2); exact Ek|]. rewrite (ot_mem _ _ _ O2), Em by done. by rewrite lookup_insert_ne.
    - intros j t _ [P1 P2]. split; [unfold word; by rewrite P1, P2|]. split; [done|]. unfold set_word, set_vmem. cbn. by rewrite lookup_insert_ne. }
  rewrite E3 in Hs. destruct (fill_loop w (fun i => word s K i) 256 256 s2 (ot_shape _ _ _ O2) ltac:(lia) ltac:(lia)) as [O3 W3].
  set (s3 := zfor 256 256 _ s2) in *. clearbody s3. injection Hs as <- <-.
  assert (v_heap s3 = v_heap s1 /\ v_hhdm s3 = v_hhdm s1) as [E1 E2].
  { rewrite (ot_heap _ _ _ O3), (ot_hhdm _ _ _ O3). split; apply O2. }
  split; [destruct Hvm1; split; rewrite ?E1, ?E2; done|]. right. rewrite E1, E2. split_and!; try done.
  - intros i Hi. rewrite W3 by done. destruct (decide (i < 256)).
    + rewrite decide_False, W2, decide_True by (done || unfold is_index in Hi; lia). done.
    + by rewrite decide_True by (unfold is_index in Hi; lia).
  - intros u Hu. rewrite (ot_mem _ _ _ O3), (ot_mem _ _ _ O2), Em by done. by rewrite lookup_insert_ne.
  - apply O3.
  - intros a n Ha. apply Hl. by right.
Qed.

(** A table whose lower half is zero is an empty address space. *)
Lemma empty_space s' v : vm_ok s' -> v <> 0 -> heap_live (v_heap s') v PT_PAGE -> table_shape s' v ->
  (forall i, is_index i -> i < 256 -> word s' v i = 0) ->
  as_ok s' v /\ (forall q t, user_path q -> tab s' v q = Some t -> q = [] /\ t = v).
Proof.
  intros Hvm' Hv0 Hlv Hsh Hw0.
  assert (forall q t, user_path q -> tab s' v q = Some t -> q = [] /\ t = v) as Htab.
  { intros [|i q] t Hq Ht; [by injection Ht as <-|]. cbn in Ht. destruct Hq as (_ & Hf & Hlt). inversion Hf.
    by rewrite Hw0 in Ht. }
  assert (as_ok s' v) as Has.
  { split; [done|split|].
    - intros q t Hq Ht. by destruct (Htab q t Hq Ht) as [_ ->].
    - intros q q' t Hq Hq' Ht Ht'. destruct (Htab q t Hq Ht) as [-> _]. by destruct (Htab q' t Hq' Ht') as [-> _].
    - intros q t i Hqi Ht. pose proof (user_path_app _ _ Hqi) as Hq. destruct (Htab q t Hq Ht) as [-> ->].
      pose proof (user_path_last _ _ Hqi) as Hi. destruct Hqi as (_ & _ & Hlt). by rewrite Hw0.
    - intros q t Hq Ht. by destruct (Htab q t Hq Ht) as [_ ->]. }
  done.
Qed.

(** A new address space maps nothing in its user half, shares the kernel's
    half entry by entry, and does not disturb any other address space. *)
Theorem vmm_create_exact s v s' :
  vm_ok s -> taken s (kernel_pml4 s) -> vmm_create_address_space s = (v, s') -> v <> 0 ->
  as_ok s' v /\ (forall va, user_va va -> vmm_is_mapped_in v va s' = 0) /\
  (forall i, 256 <= i < 512 -> word s' v i = word s (kernel_pml4 s) i) /\
  (forall r, as_ok s r -> r <> v /\ as_ok s' r /\ forall va, user_va va -> vmm_is_mapped_in r va s' = vmm_is_mapped_in r va s).
Proof.
  intros Hvm Hk Hs Hv0. destruct (create_spec s v s' Hvm Hk Hs) as (Hvm' & [[? _]|(_ & Hfr & Hlv & Hw & Hm & Hsh & Eh & Hl)]); [done|].
  assert (forall i, is_index i -> i < 256 -> word s' v i = 0) as Hw0 by (intros i Hi Hlt; by rewrite Hw, decide_True).
  destruct (empty_space s' v Hvm' Hv0 Hlv Hsh Hw0) as [Has Htab].
  split_and!; try done.
  - intros va Hv. rewrite is_mapped_pte by (done || apply Has). unfold pte_of. destruct (tab s' v (va_path va)) as [t|] eqn:Et; [|done].
    by destruct (Htab _ t (user_path_va va Hv) Et).
  - intros i Hi. rewrite Hw, decide_False by (unfold is_index; lia). done.
  - intros r Hr. assert (forall q t, user_path q -> tab s r q = Some t -> t <> v) as Hne.
    { intros q t Hq Ht ->. by apply (Hfr PT_PAGE), (as_live _ _ Hr q). }
    assert (user_path []) as Hnil by (split; [cbn; lia|]; split; [constructor | done]).
    split; [by apply (Hne [])|].
    destruct (other_table_as v s s' r Hr Hvm' Eh Hm Hl Hne) as [Hr' Hpte]. split; [done|]. intros va Hv.
    pose proof (root_nonzero s r (as_pt _ _ Hr)). by rewrite !is_mapped_pte, Hpte by (done || apply Hr || apply Hr').
Qed.
End props.
