(* ===== verification/VmmUnmap.v ===== *)
(** * Unmapping a range

    [vmm_unmap_range_release_in] of src/mem.c: the translations it leaves, the
    number it returns, and the order of cleared entries, TLB shootdowns and
    released frames. *)
From S2P Require Import Prelude Heap Vmm VmmMap.

(** ** The order of flushes and frees *)

(** Whether an entry of [as_] was cleared and no shootdown followed, along a
    trace; [None] if a frame is released at such a moment. *)
Fixpoint flush_order (as_ : Z) (pending : bool) (evs : list vevent) : option bool :=
  match evs with
  | [] => Some pending
  | Cleared _ _ :: evs => flush_order as_ true evs
  | Invlpg _ :: evs => flush_order as_ pending evs
  | ShootdownAs a :: evs => flush_order as_ (if a =? as_ then false else pending) evs
  | ShootdownAll :: evs => flush_order as_ false evs
  | Freed _ :: evs => if pending then None else flush_order as_ false evs
  end.

Lemma flush_order_app a p l l' : flush_order a p (l ++ l') = p' ← flush_order a p l; flush_order a p' l'.
Proof. revert p. induction l as [|[] l IH]; intros p; cbn; try apply IH; [done|]. destruct p; [done | apply IH]. Qed.

Definition is_freed (e : vevent) : Prop := match e with Freed _ => True | _ => False end.
Lemma flush_order_frees a l : Forall is_freed l -> flush_order a false l = Some false.
Proof. induction 1 as [|[] l He _ IH]; done. Qed.

Section unmap.
Context {H : Type} `{!KHeap H, !KFrames H}.
Implicit Types (s : vmm H) (r va : Z) (b : vmm_unmap_batch) (p q : list Z).

(** Only frames are released. *)
Record only_frees s s' : Prop := {
  of_mem : v_mem s' = v_mem s;
  of_hhdm : v_hhdm s' = v_hhdm s;
  of_trace : exists l, v_trace s' = v_trace s ++ l /\ Forall is_freed l;
}.
Lemma only_frees_refl s s' : v_mem s' = v_mem s -> v_hhdm s' = v_hhdm s -> v_trace s' = v_trace s -> only_frees s s'.
Proof. intros. split; try done. exists []. by rewrite app_nil_r. Qed.
Lemma only_frees_trans s1 s2 s3 : only_frees s1 s2 -> only_frees s2 s3 -> only_frees s1 s3.
Proof.
  intros [M1 H1 (l1 & T1 & F1)] [M2 H2 (l2 & T2 & F2)]. split; [congruence | congruence |]. exists (l1 ++ l2).
  rewrite T2, T1, app_assoc. split; [done | by apply Forall_app].
Qed.

Lemma set_ref_frees k n s : only_frees s (set_ref k n s).
Proof. unfold set_ref. case_match; by apply only_frees_refl. Qed.
Lemma free_frame_frees f s : only_frees s (vmm_free_frame f s).
Proof.
  unfold vmm_free_frame. case_match; [by apply only_frees_refl|]. split; try done. eexists [_]. split; [done|]. by repeat constructor.
Qed.
#[local] Hint Resolve set_ref_frees free_frame_frees : core.
Lemma poison_frees k n f s : only_frees s (vmm_free_frame f (set_ref k n s)).
Proof. eapply only_frees_trans; [apply set_ref_frees | apply free_frame_frees]. Qed.
#[local] Hint Resolve poison_frees : core.
Lemma unref_frees f s : only_frees s (vmm_page_unref f s).
Proof. unfold vmm_page_unref. repeat case_match; auto; by apply only_frees_refl. Qed.
#[local] Hint Resolve unref_frees : core.
Lemma leaf_release_frees f s : only_frees s (vmm_leaf_release f s).
Proof. unfold vmm_leaf_release. cbn zeta. repeat case_match; auto; by apply only_frees_refl. Qed.

Lemma fold_frees {A} (g : A -> vmm H -> vmm H) l s :
  (forall x t, only_frees t (g x t)) -> only_frees s (foldl (fun t x => g x t) s l).
Proof.
  intros Hg. revert s. induction l as [|x l IH]; intros s; cbn; [by apply only_frees_refl|].
  eapply only_frees_trans; [apply Hg | apply IH].
Qed.

(** A stretch of the unmap: whatever was pending is covered by [need_flush],
    before and after. *)
Record batch_step b s b' s' : Prop := {
  bs_as : as_phys b' = as_phys b;
  bs_trace : exists l, v_trace s' = v_trace s ++ l /\
    forall pd, (pd = true -> need_flush b = true) ->
      exists pd', flush_order (as_phys b) pd l = Some pd' /\ (pd' = true -> need_flush b' = true);
}.
Lemma batch_refl b s b' s' :
  as_phys b' = as_phys b -> v_trace s' = v_trace s -> (need_flush b = true -> need_flush b' = true) -> batch_step b s b' s'.
Proof. intros Ha Ht Hn. split; [done|]. exists []. rewrite app_nil_r. split; [done|]. intros pd Hp. exists pd. auto. Qed.
Lemma batch_trans b1 s1 b2 s2 b3 s3 : batch_step b1 s1 b2 s2 -> batch_step b2 s2 b3 s3 -> batch_step b1 s1 b3 s3.
Proof.
  intros [A1 (l1 & T1 & P1)] [A2 (l2 & T2 & P2)]. split; [congruence|]. exists (l1 ++ l2). split; [by rewrite T2, T1, app_assoc|].
  intros pd Hp. destruct (P1 pd Hp) as (p1 & E1 & Hp1). destruct (P2 p1 Hp1) as (p2 & E2 & Hp2). exists p2.
  rewrite flush_order_app, E1. rewrite A1 in E2. done.
Qed.

(** The flush itself leaves nothing pending. *)
Lemma flush_step b s b' s' : vmm_unmap_batch_flush b s = (b', s') ->
  b' = mk_batch [] [] false (as_phys b) /\ v_mem s' = v_mem s /\ v_hhdm s' = v_hhdm s /\ batch_step b s b' s'.
Proof.
  intros Hf. unfold vmm_unmap_batch_flush in Hf. set (s1 := if need_flush b then _ else s) in Hf.
  pose proof (fold_frees vmm_leaf_release (b_frames b) s1 leaf_release_frees) as F1. set (s2 := foldl _ s1 _) in *.
  pose proof (fold_frees vmm_free_frame (b_tables b) s2 free_frame_frees) as F2. set (s3 := foldl _ s2 _) in *.
  destruct (only_frees_trans _ _ _ F1 F2) as [M Hh (l & T & F)]. injection Hf as <- <-. clearbody s3.
  assert (v_mem s1 = v_mem s /\ v_hhdm s1 = v_hhdm s) as [M1 H1] by (unfold s1; by destruct (need_flush b)).
  split_and!; [done | congruence | congruence |]. split; [done|]. unfold s1 in T. destruct (need_flush b) eqn:En.
  - exists (ShootdownAs (as_phys b) :: l). split; [rewrite T; cbn; by rewrite <- app_assoc|]. intros pd _. exists false. cbn.
    rewrite Z.eqb_refl. by rewrite flush_order_frees.
  - exists l. split; [done|]. intros pd Hp. destruct pd; [by specialize (Hp eq_refl)|]. exists false. by rewrite flush_order_frees.
Qed.

(** Clearing an entry and asking for a flush. *)
Lemma clear_step b t i s : batch_step b s (mk_batch (b_frames b) (b_tables b) true (as_phys b)) (clear_entry t i s).
Proof. split; [done|]. exists [Cleared t i]. split; [done|]. intros pd _. by exists true. Qed.

Lemma drop_table_step b t i s b' s' : vmm_unmap_drop_table b t i s = (b', s') ->
  v_mem s' = v_mem (set_word t i 0 s) /\ v_hhdm s' = v_hhdm s /\ batch_step b s b' s'.
Proof.
  unfold vmm_unmap_drop_table. pose proof (clear_step b t i s) as Hc. cbn [b_tables b_frames as_phys need_flush].
  destruct (zlen (b_tables b) =? VMM_TABLE_BATCH).
  - destruct (vmm_unmap_batch_flush _ _) as [b1 s1] eqn:Ef. intros Hs. injection Hs as <- <-.
    destruct (flush_step _ _ _ _ Ef) as (-> & M & Hh & Hst). split_and!; try done.
    eapply batch_trans; [exact Hc|]. eapply batch_trans; [exact Hst|]. by apply batch_refl.
  - intros Hs. injection Hs as <- <-. split_and!; try done. eapply batch_trans; [exact Hc|]. by apply batch_refl.
Qed.

Lemma unmap_pt_trace n pt va b c s b' c' s' : unmap_pt_loop n pt va b c s = (b', c', s') -> batch_step b s b' s'.
Proof.
  revert va b c s. induction n as [|n IH]; intros va b c s Hs; cbn [unmap_pt_loop] in Hs.
  { injection Hs as <- <- <-. by apply batch_refl. }
  destruct (negb (has_present _)); [by eapply IH|]. cbn [b_frames b_tables as_phys need_flush] in Hs.
  set (s1 := emit _ _) in Hs. set (b1 := mk_batch (b_frames b) (b_tables b) true (as_phys b)) in *.
  assert (batch_step b s b1 s1) as Hc.
  { eapply batch_trans; [apply clear_step|]. split; [done|]. eexists [_]. split; [done|]. intros pd _. by exists pd. }
  destruct (_ || _); [eapply batch_trans; [exact Hc | by eapply IH]|].
  destruct (zlen (b_frames b) =? VMM_UNMAP_BATCH).
  - destruct (vmm_unmap_batch_flush b1 s1) as [b2 s2] eqn:Ef. destruct (flush_step _ _ _ _ Ef) as (_ & _ & _ & Hst).
    eapply batch_trans; [exact Hc|]. eapply batch_trans; [exact Hst|]. eapply batch_trans; [|by eapply IH]. by apply batch_refl.
  - eapply batch_trans; [exact Hc|]. eapply batch_trans; [|by eapply IH]. by apply batch_refl.
Qed.

Lemma drop_empty_trace r pdpt pd pt va b s b' s' : drop_empty_tables r pdpt pd pt va b s = (b', s') -> batch_step b s b' s'.
Proof.
  unfold drop_empty_tables. destruct (vmm_table_empty s pt); [|intros Hs; injection Hs as <- <-; by apply batch_refl].
  destruct (vmm_unmap_drop_table b pd _ s) as [b1 s1] eqn:E1. apply drop_table_step in E1 as (_ & _ & S1).
  destruct (vmm_table_empty s1 pd); [|intros Hs; injection Hs as <- <-; done].
  destruct (vmm_unmap_drop_table b1 pdpt _ s1) as [b2 s2] eqn:E2. apply drop_table_step in E2 as (_ & _ & S2).
  pose proof (batch_trans _ _ _ _ _ _ S1 S2) as S12.
  destruct (vmm_table_empty s2 pdpt); [|intros Hs; injection Hs as <- <-; done].
  intros Hs. apply drop_table_step in Hs as (_ & _ & S3). by eapply batch_trans.
Qed.

Lemma unmap_loop_trace fuel r va e b c s b' c' s' : unmap_loop fuel r va e b c s = (b', c', s') -> batch_step b s b' s'.
Proof.
  revert va b c s. induction fuel as [|fuel IH]; intros va b c s Hs; cbn [unmap_loop] in Hs.
  { injection Hs as <- <- <-. by apply batch_refl. }
  destruct (_ || _); [injection Hs as <- <- <-; by apply batch_refl|].
  destruct (negb (has_present _)); [by eapply IH|].
  destruct (_ || _); [by eapply IH|]. destruct (_ || _); [by eapply IH|].
  destruct (unmap_pt_loop _ _ _ _ _ _) as [[b1 c1] s1] eqn:E1. apply unmap_pt_trace in E1.
  destruct (drop_empty_tables _ _ _ _ _ _ _) as [b2 s2] eqn:E2. apply drop_empty_trace in E2.
  eapply batch_trans; [exact E1|]. eapply batch_trans; [exact E2 | by eapply IH].
Qed.

(** C12 Unmapping a range never releases a frame or a page table while an entry
    it cleared has not been shot down on the other processors, and it returns
    with every cleared entry shot down. *)
Theorem vmm_unmap_flush_first s r va n :
  exists l, v_trace (vmm_unmap_range_release_in r va n s).2 = v_trace s ++ l /\
    flush_order (virt_to_phys s r) false l = Some false.
Proof.
  unfold vmm_unmap_range_release_in. destruct (_ || _); [exists []; by rewrite app_nil_r|].
  destruct (unmap_loop _ _ _ _ _ _ _) as [[b1 c1] s1] eqn:E1. apply unmap_loop_trace in E1.
  destruct (vmm_unmap_batch_flush b1 s1) as [b2 s2] eqn:E2. apply flush_step in E2 as (-> & _ & _ & E2).
  destruct (batch_trans _ _ _ _ _ _ E1 E2) as [_ (l & T & P)]. exists l. split; [done|].
  destruct (P false ltac:(done)) as (pd & E & Hp). cbn in E. rewrite E. destruct pd; [|done]. by specialize (Hp eq_refl).
Qed.
End unmap.

(** ** The translations it leaves *)

Section translations.
Context {H : Type} `{!KHeap H, !KFrames H}.
Implicit Types (s : vmm H) (r va : Z) (p q : list Z).

Definition present_at s r (page : Z) : bool := match pte_of s r (page * 4096) with Some _ => true | None => false end.
(** How many pages of [\[a, b)] are mapped. *)
Definition mapped_pages s r (a b : Z) : Z := zcount (Z.to_nat (b - a)) (fun j => present_at s r (a + j)).

(** The pages of [\[a, b)] are unmapped, [n] of them were mapped; the rest of
    the address space is as before. *)
Record unmapped r (a b n : Z) s s' : Prop := {
  um_ok : pt_ok s' r;
  um_hhdm : v_hhdm s' = v_hhdm s;
  um_pte : forall va, user_va va -> pte_of s' r va = if decide (a <= va / 4096 < b) then None else pte_of s r va;
  um_kernel : forall i, 256 <= i < 512 -> word s' r i = word s r i;
  um_count : n = mapped_pages s r a b;
}.

Lemma page_pte s r va : 0 <= va -> pte_of s r va = pte_of s r (va / 4096 * 4096).
Proof.
  intros Hv. unfold pte_of. assert (0 <= va / 4096 * 4096) by (pose proof (Z.div_pos va 4096); lia).
  destruct (page_indices va (va / 4096 * 4096)) as [-> ->]; [done | done | by rewrite Z.div_mul | done].
Qed.

Lemma mapped_pages_nil s r a b : b <= a -> mapped_pages s r a b = 0.
Proof. intros Hab. unfold mapped_pages. by rewrite Z2Nat.nonpos by lia. Qed.
Lemma mapped_pages_ext s s' r a b :
  (forall k, a <= k < b -> pte_of s' r (k * 4096) = pte_of s r (k * 4096)) -> mapped_pages s' r a b = mapped_pages s r a b.
Proof. intros He. apply zcount_ext. intros i Hi. unfold present_at. by rewrite He by lia. Qed.
Lemma mapped_pages_none s r a b : (forall k, a <= k < b -> pte_of s r (k * 4096) = None) -> mapped_pages s r a b = 0.
Proof.
  intros He. unfold mapped_pages. rewrite (zcount_ext _ _ (fun _ => false)); [apply zcount_false|].
  intros i Hi. unfold present_at. by rewrite He by lia.
Qed.
Lemma mapped_pages_split s r a b c : a <= b <= c -> mapped_pages s r a c = mapped_pages s r a b + mapped_pages s r b c.
Proof.
  intros Hab. unfold mapped_pages. replace (Z.to_nat (c - a)) with (Z.to_nat (b - a) + Z.to_nat (c - b))%nat by lia.
  rewrite zcount_add. f_equal. apply zcount_ext. intros i Hi. f_equal. lia.
Qed.

Lemma unmapped_quiet r a s s' : pt_ok s' r -> v_hhdm s' = v_hhdm s -> (forall va, user_va va -> pte_of s' r va = pte_of s r va) ->
  (forall i, 256 <= i < 512 -> word s' r i = word s r i) -> unmapped r a a 0 s s'.
Proof.
  intros Hok Hh Hp Hk. split; try done; [|by rewrite mapped_pages_nil]. intros va Hv. rewrite decide_False by lia. by apply Hp.
Qed.
(** Pages that were not mapped extend the range. *)
Lemma unmapped_skip r a b s : pt_ok s r -> (forall va, user_va va -> a <= va / 4096 < b -> pte_of s r va = None) ->
  0 <= a -> b <= 2 ^ 35 -> unmapped r a b 0 s s.
Proof.
  intros Hok Hn Ha Hb. split; try done.
  - intros va Hv. destruct (decide (a <= va / 4096 < b)); [by apply Hn | done].
  - rewrite mapped_pages_none; [done|]. intros k Hk. apply Hn; [unfold user_va; lia|]. rewrite Z.div_mul; lia.
Qed.

Lemma unmapped_trans r a b c n m s1 s2 s3 :
  0 <= a <= b -> b <= c <= 2 ^ 35 -> unmapped r a b n s1 s2 -> unmapped r b c m s2 s3 -> unmapped r a c (n + m) s1 s3.
Proof.
  intros Hab Hbc [O1 H1 P1 K1 C1] [O2 H2 P2 K2 C2]. split; [done | congruence | | |].
  - intros va Hv. rewrite P2, P1 by done. repeat case_decide; done || lia.
  - intros i Hi. by rewrite K2, K1.
  - rewrite (mapped_pages_split s1 r a b c) by lia. rewrite C1, C2. f_equal. apply mapped_pages_ext. intros k Hk.
    rewrite P1 by (unfold user_va; lia). rewrite decide_False; [done|]. rewrite Z.div_mul; lia.
Qed.

(** Changes outside the tables. *)
Lemma unmapped_ext r a b n s s1 s2 : v_mem s2 = v_mem s1 -> v_hhdm s2 = v_hhdm s1 -> unmapped r a b n s s1 -> unmapped r a b n s s2.
Proof.
  intros Em Eh [O1 H1 P1 K1 C1]. split; [by apply (pt_ok_ext s1) | congruence | | | done].
  - intros va Hv. rewrite (pte_ext s1 s2) by done. by apply P1.
  - intros i Hi. unfold word. rewrite Em. by apply K1.
Qed.

(** One page. *)
Lemma clear_leaf s r va t w :
  pt_ok s r -> user_va va -> tab s r (va_path va) = Some t -> word s t (PT_INDEX va) = w -> has_present w = true ->
  let s' := set_word t (PT_INDEX va) 0 s in
  unmapped r (va / 4096) (va / 4096 + 1) 1 s s' /\ (forall q, user_path q -> tab s' r q = tab s r q).
Proof.
  intros Hok Hv Ht Hw Hpr s'. destruct (write_leaf s r va t 0 Hok Hv Ht) as (Hok' & Htab & Hpte & Hoth). fold s' in Hok', Htab, Hpte, Hoth.
  split; [|done]. split; try done.
  - intros va' Hv'. destruct (decide (_ <= _ < _)) as [Hd|Hd]; [|apply Hoth; [done | lia]].
    rewrite page_pte by apply Hv'. replace (va' / 4096) with (va / 4096) by lia. rewrite <- page_pte by apply Hv. done.
  - intros i Hi. by apply set_leaf_kernel.
  - unfold mapped_pages. replace (va / 4096 + 1 - va / 4096) with 1 by lia. change (Z.to_nat 1) with 1%nat. cbn [zcount].
    change (Z.of_nat 0) with 0. unfold present_at. rewrite Z.add_0_r, <- page_pte by apply Hv. unfold pte_of. rewrite Ht. cbn zeta. by rewrite Hw, Hpr.
Qed.

(** The inner loop: consecutive pages of one last-level table. *)
Lemma unmap_pt_spec n pt p va b c s b' c' s' r :
  pt_ok s r -> user_path p -> tab s r p = Some pt -> va mod 4096 = 0 ->
  (forall j, 0 <= j < Z.of_nat n -> user_va (va + j * 4096) /\ va_path (va + j * 4096) = p) ->
  va / 4096 + Z.of_nat n <= 2 ^ 35 -> 0 <= va ->
  unmap_pt_loop n pt va b c s = (b', c', s') ->
  unmapped r (va / 4096) (va / 4096 + Z.of_nat n) (c' - c) s s' /\ (forall q, user_path q -> tab s' r q = tab s r q).
Proof.
  revert va b c s. induction n as [|n IH]; intros va b c s Hok Hp Ht Hal Hj Hn Hva Hs; cbn [unmap_pt_loop] in Hs.
  { injection Hs as <- <- <-. split; [|done]. replace (va / 4096 + Z.of_nat 0) with (va / 4096) by lia. rewrite Z.sub_diag. by apply unmapped_quiet. }
  destruct (Hj 0 ltac:(lia)) as [Hv Hvp]. rewrite Z.mul_0_l, Z.add_0_r in Hv, Hvp.
  assert (va +64 PT_PAGE = va + 4096) as Enext by (apply u64_small; unfold user_va, PT_PAGE in *; lia).
  assert ((va + 4096) / 4096 = va / 4096 + 1) as Ediv by (rewrite <- (Z.mul_1_l 4096) at 1; by rewrite Z.div_add).
  assert ((va + 4096) mod 4096 = 0) as Hal' by (rewrite <- (Z.mul_1_l 4096) at 1; by rewrite Z.mod_add).
  assert (forall j, 0 <= j < Z.of_nat n -> user_va (va + 4096 + j * 4096) /\ va_path (va + 4096 + j * 4096) = p) as Hj'.
  { intros j Hjn. replace (va + 4096 + j * 4096) with (va + (j + 1) * 4096) by lia. apply Hj. lia. }
  rewrite Enext in Hs. subst p. destruct (has_present (word s pt (PT_INDEX va))) eqn:Epr; cbn [negb] in Hs.
  - destruct (clear_leaf s r va pt _ Hok Hv Ht eq_refl Epr) as [U1 T1]. set (s1 := set_word pt (PT_INDEX va) 0 s) in *.
    assert (forall b1 s2, v_mem s2 = v_mem s1 -> v_hhdm s2 = v_hhdm s1 -> unmap_pt_loop n pt (va + 4096) b1 (c + 1) s2 = (b', c', s') ->
      unmapped r (va / 4096) (va / 4096 + Z.of_nat (S n)) (c' - c) s s' /\ (forall q, user_path q -> tab s' r q = tab s r q)) as Hgo.
    { intros b1 s2 Em Eh Hs2. pose proof (unmapped_ext _ _ _ _ _ _ _ Em Eh U1) as U2.
      destruct (IH (va + 4096) b1 (c + 1) s2) as [U3 T3]; try done; try lia.
      - apply U2.
      - rewrite (tab_ext s1 s2) by done. by rewrite T1.
      - split.
        + replace (c' - c) with (1 + (c' - (c + 1))) by lia. rewrite Ediv in U3. pose proof (Z.div_pos va 4096 Hva ltac:(lia)).
          eapply unmapped_trans; [| |exact U2|]; [lia | lia |]. by replace (va / 4096 + Z.of_nat (S n)) with (va / 4096 + 1 + Z.of_nat n) by lia.
        + intros q Hq. rewrite T3 by done. rewrite (tab_ext s1 s2) by done. by apply T1. }
    destruct (_ || _); [by eapply Hgo; [..|exact Hs]|]. cbn [b_frames] in Hs. destruct (zlen (b_frames b) =? VMM_UNMAP_BATCH).
    + destruct (vmm_unmap_batch_flush _ _) as [b2 s2] eqn:Ef. destruct (flush_step _ _ _ _ Ef) as (_ & M & Hh & _). by eapply Hgo.
    + by eapply Hgo; [..|exact Hs].
  - destruct (IH (va + 4096) b c s) as [U T]; try done; try lia. split; [|done]. rewrite Ediv in U.
    replace (c' - c) with (0 + (c' - c)) by lia. pose proof (Z.div_pos va 4096 Hva ltac:(lia)).
    eapply (unmapped_trans _ _ (va / 4096 + 1)); [lia | lia | |].
    + apply unmapped_skip; [done | | lia | lia]. intros va' Hv' Hr. unfold pte_of.
      destruct (page_indices va' va ltac:(apply Hv') Hva ltac:(lia)) as [-> ->]. rewrite Ht. cbn zeta. by rewrite Epr.
    + by replace (va / 4096 + Z.of_nat (S n)) with (va / 4096 + 1 + Z.of_nat n) by lia.
Qed.

(** *** Emptied tables *)

Lemma tab_app s r p q : tab s r (p ++ q) = t ← tab s r p; tab s t q.
Proof. revert r. induction p as [|i p IH]; intros r; cbn; [done|]. case_match; [apply IH | done]. Qed.

Lemma table_empty_word s t j : vmm_table_empty s t = true -> is_index j -> word s t j = 0.
Proof.
  unfold vmm_table_empty. intros He Hj. pose proof (zfind_spec 512 0 (fun i => negb (word s t i =? 0))) as Hz.
  destruct (zfind 512 0 _) as [k|]; [done|]. specialize (Hz j ltac:(unfold is_index in Hj; lia)). by apply negb_false_iff, Z.eqb_eq in Hz.
Qed.

(** Unhooking an empty table changes no translation. *)
Lemma drop_entry s r p t i c a :
  pt_ok s r -> user_path (p ++ [i]) -> tab s r p = Some t -> tab s r (p ++ [i]) = Some c -> vmm_table_empty s c = true ->
  let s' := set_word t i 0 s in
  unmapped r a a 0 s s' /\ (forall q, user_path q -> ~ (p ++ [i]) `prefix_of` q -> tab s' r q = tab s r q).
Proof.
  intros Hok Hpi Ht Hc Hce s'. pose proof (user_path_app _ _ Hpi) as Hp. pose proof (user_path_last _ _ Hpi) as Hi.
  assert (forall q, user_path q -> ~ (p ++ [i]) `prefix_of` q -> tab s' r q = tab s r q) as Hoth.
  { intros q Hq. by apply tab_write_other. }
  assert (forall q, (p ++ [i]) `prefix_of` q -> tab s' r q = None) as Hgone.
  { intros q [k ->]. rewrite tab_app. unfold s'. by rewrite (tab_write_at s r p t i 0 Hok Hp Ht Hi). }
  assert (forall q u, user_path q -> tab s' r q = Some u -> tab s r q = Some u) as Hold.
  { intros q u Hq Hu. destruct (decide ((p ++ [i]) `prefix_of` q)) as [Hpre|Hn]; [by rewrite Hgone in Hu | by rewrite <- Hoth]. }
  assert (forall q u j, user_path q -> tab s r q = Some u -> is_index j -> ~ (q = p /\ j = i) -> word s' u j = word s u j) as Hword.
  { intros q u j Hq Hu Hj Hn. unfold s'. rewrite (word_write s r p t i 0 u q); try done. by rewrite decide_False. }
  split; [|done]. apply unmapped_quiet; [split | done | |].
  - intros q u Hq Hu. apply shape_set; [exact (pk_shape s r Hok p t Hp Ht) | exact (pk_shape s r Hok q u Hq (Hold q u Hq Hu))].
  - intros q q' u Hq Hq' Hu Hu'. exact (pk_inj s r Hok q q' u Hq Hq' (Hold q u Hq Hu) (Hold q' u Hq' Hu')).
  - intros q u j Hqj Hu. pose proof (user_path_app _ _ Hqj) as Hq. apply Hold in Hu; [|done]. unfold s'.
    rewrite (word_write s r p t i 0 u q); try done; [|by apply user_path_last in Hqj].
    case_decide; [done|]. by apply (pk_small s r Hok q).
  - intros va Hv. pose proof (user_path_va va Hv) as Hvp. unfold pte_of.
    destruct (decide ((p ++ [i]) `prefix_of` va_path va)) as [Hpre|Hn].
    + rewrite Hgone by done. destruct Hpre as [k Ek]. rewrite Ek, tab_app, Hc. cbn [mbind option_bind].
      destruct k as [|j k]; cbn [tab].
      * rewrite (table_empty_word s c) by (done || apply index_range; lia). done.
      * rewrite (table_empty_word s c); [done | done |]. destruct Hvp as (_ & Hf & _). rewrite Ek in Hf.
        apply Forall_app in Hf as [_ Hf]. by inversion Hf.
    + rewrite Hoth by done. destruct (tab s r (va_path va)) as [u|] eqn:Eu; [|done]. cbn zeta.
      rewrite (Hword (va_path va)); try done; [apply index_range; lia|]. intros [E _]. destruct Hpi as (Hl & _).
      rewrite <- E, length_app in Hl. cbn in Hl. lia.
  - intros j Hj. apply (Hword []); [split; [cbn; lia|]; split; [constructor | done] | done | unfold is_index; lia |].
    intros [E ->]. subst p. destruct Hpi as (_ & _ & Hlt). cbn in Hlt. lia.
Qed.

Lemma not_prefix_longer (p q : list Z) i : (length q <= length p)%nat -> ~ (p ++ [i]) `prefix_of` q.
Proof. intros Hl Hpre%prefix_length. rewrite length_app in Hpre. cbn in Hpre. lia. Qed.

(** One table of the chain, then possibly the one above it. *)
Lemma drop_chain s r p t i c a b b' s1 :
  pt_ok s r -> user_path (p ++ [i]) -> tab s r p = Some t -> tab s r (p ++ [i]) = Some c -> vmm_table_empty s c = true ->
  vmm_unmap_drop_table b t i s = (b', s1) ->
  unmapped r a a 0 s s1 /\ (forall q, user_path q -> (length q <= length p)%nat -> tab s1 r q = tab s r q).
Proof.
  intros Hok Hpi Ht Hc Hce Hd. destruct (drop_table_step _ _ _ _ _ _ Hd) as (M & Hh & _).
  destruct (drop_entry s r p t i c a Hok Hpi Ht Hc Hce) as [U T]. split; [by apply (unmapped_ext _ _ _ _ _ (set_word t i 0 s))|].
  intros q Hq Hl. rewrite (tab_ext (set_word t i 0 s) s1) by done. by apply T, not_prefix_longer.
Qed.

Lemma drop_empty_spec s r va pdpt pd pt a b b' s' :
  pt_ok s r -> user_va va -> 0 <= a <= 2 ^ 35 ->
  tab s r [PML4_INDEX va] = Some pdpt -> tab s r [PML4_INDEX va; PDP_INDEX va] = Some pd -> tab s r (va_path va) = Some pt ->
  drop_empty_tables r pdpt pd pt va b s = (b', s') -> unmapped r a a 0 s s'.
Proof.
  intros Hok Hv Ha T1 T2 T3 Hs. destruct (path_step va Hv) as (P0 & P1 & P2 & P3). unfold drop_empty_tables in Hs.
  destruct (vmm_table_empty s pt) eqn:E3; [|injection Hs as <- <-; by apply unmapped_quiet].
  destruct (vmm_unmap_drop_table b pd _ s) as [b1 s1] eqn:D1.
  destruct (drop_chain s r [PML4_INDEX va; PDP_INDEX va] pd (PD_INDEX va) pt a b b1 s1) as [U1 K1]; try done.
  destruct (vmm_table_empty s1 pd) eqn:E2; [|injection Hs as <- <-; done].
  destruct (vmm_unmap_drop_table b1 pdpt _ s1) as [b2 s2] eqn:D2.
  destruct (drop_chain s1 r [PML4_INDEX va] pdpt (PDP_INDEX va) pd a b1 b2 s2) as [U2 K2]; try done.
  { apply U1. } { rewrite K1; [done | done | cbn; lia]. } { cbn [app]. rewrite K1; [done | done | cbn; lia]. }
  pose proof (unmapped_trans r a a a 0 0 s s1 s2 ltac:(lia) ltac:(lia) U1 U2) as U12.
  destruct (vmm_table_empty s2 pdpt) eqn:E1; [|injection Hs as <- <-; done].
  destruct (drop_chain s2 r [] r (PML4_INDEX va) pdpt a b2 b' s') as [U3 _]; try done.
  { apply U2. } { cbn [app]. rewrite K2, K1; [done | done | cbn; lia | done | cbn; lia]. }
  exact (unmapped_trans r a a a 0 0 s s2 s' ltac:(lia) ltac:(lia) U12 U3).
Qed.

(** *** The outer loop *)

Lemma align_down x k : 0 <= x < 2 ^ 64 -> 0 <= k <= 64 -> Z.land x (u64 (Z.lnot (2 ^ k - 1))) = x / 2 ^ k * 2 ^ k.
Proof.
  intros Hx Hk. assert (2 ^ k - 1 = Z.ones k) as -> by (rewrite Z.ones_equiv; lia).
  assert (x = Z.land x (Z.ones 64)) as Ex by (rewrite Z.land_ones, Z.mod_small by lia; done).
  unfold u64. rewrite <- (Z.land_ones _ 64) by lia. rewrite (Z.land_comm _ (Z.ones 64)), Z.land_assoc, <- Ex.
  rewrite <- Z.ldiff_land, Z.ldiff_ones_r by lia. rewrite Z.shiftl_mul_pow2, Z.shiftr_div_pow2 by lia. done.
Qed.

Lemma next_boundary_eq va k : user_va va -> 0 <= k <= 39 -> next_boundary va k = (va / 2 ^ k + 1) * 2 ^ k.
Proof.
  intros Hv Hk. assert (0 < 2 ^ k <= 2 ^ 39) as Hp by (split; [lia | apply Z.pow_le_mono_r; lia]). unfold user_va in Hv.
  unfold next_boundary. rewrite u64_small by lia. rewrite align_down by lia.
  rewrite <- (Z.mul_1_l (2 ^ k)) at 1. by rewrite Z.div_add by lia.
Qed.

(** What a skip over missing tables passes. *)
Lemma same_block va k page va' : 12 <= k -> 0 <= va -> va mod 4096 = 0 -> va / 4096 <= page < (va / 2 ^ k + 1) * 2 ^ k / 4096 ->
  va' / 4096 = page -> va' / 2 ^ k = va / 2 ^ k.
Proof.
  intros Hk Hva Hal Hp Hv'. assert (2 ^ k = 4096 * 2 ^ (k - 12)) as E by (rewrite <- (Z.pow_add_r 2 12) by lia; f_equal; lia).
  assert (0 < 2 ^ (k - 12)) as Hpos by lia. rewrite E in *. rewrite <- !Z.div_div in * by lia. rewrite Hv'.
  replace ((va / 4096 / 2 ^ (k - 12) + 1) * (4096 * 2 ^ (k - 12)) / 4096) with ((va / 4096 / 2 ^ (k - 12) + 1) * 2 ^ (k - 12)) in Hp
    by (symmetry; rewrite (Z.mul_comm 4096), Z.mul_assoc; apply Z.div_mul; lia).
  set (A := va / 4096) in *. set (m := 2 ^ (k - 12)) in *. apply Z.le_antisymm.
  - apply Z.lt_succ_r. apply Z.div_lt_upper_bound; lia.
  - apply Z.div_le_mono; lia.
Qed.

Lemma path_blocks va va' : user_va va -> user_va va' ->
  (va' / 2 ^ 39 = va / 2 ^ 39 -> PML4_INDEX va' = PML4_INDEX va) /\
  (va' / 2 ^ 30 = va / 2 ^ 30 -> PML4_INDEX va' = PML4_INDEX va /\ PDP_INDEX va' = PDP_INDEX va) /\
  (va' / 2 ^ 21 = va / 2 ^ 21 -> va_path va' = va_path va).
Proof.
  intros Hv Hv'. unfold va_path, PML4_INDEX, PDP_INDEX, PD_INDEX. rewrite !index_div by lia. unfold user_va in *. split_and!.
  - by intros ->.
  - replace (2 ^ 39) with (2 ^ 30 * 2 ^ 9) by lia. rewrite <- !Z.div_div by lia. by intros ->.
  - replace (2 ^ 39) with (2 ^ 21 * 2 ^ 18) by lia. replace (2 ^ 30) with (2 ^ 21 * 2 ^ 9) by lia. rewrite <- !Z.div_div by lia. by intros ->.
Qed.

Lemma unmapped_rebase r a b n s s' : unmapped r a a n s s' -> unmapped r b b n s s'.
Proof.
  intros [O1 H1 P1 K1 C1]. rewrite mapped_pages_nil in C1 by lia. split; try done; [|by rewrite mapped_pages_nil].
  intros va Hv. rewrite P1 by done. by rewrite !decide_False by lia.
Qed.

(** The loop continues behind a block without translations. *)
Lemma unmapped_block r va k e n s s' :
  pt_ok s r -> 12 <= k <= 39 -> user_va va -> va mod 4096 = 0 -> va < e <= 2 ^ 47 -> e mod 4096 = 0 ->
  (forall va', user_va va' -> va' / 2 ^ k = va / 2 ^ k -> pte_of s r va' = None) ->
  let next := next_boundary va k in
  unmapped r (next / 4096) (Z.max (next / 4096) (e / 4096)) n s s' -> unmapped r (va / 4096) (e / 4096) n s s'.
Proof.
  intros Hok Hk Hv Hal He Hea Hnone. cbv zeta. rewrite next_boundary_eq by (done || lia). set (nb := (va / 2 ^ k + 1) * 2 ^ k). intros U.
  assert (va / 4096 < e / 4096 <= 2 ^ 35) as Hr.
  { pose proof (Z.div_mod va 4096). pose proof (Z.div_mod e 4096). lia. }
  assert (0 <= va / 4096) as Hva by (apply Z.div_pos; [apply Hv | lia]).
  assert (forall b, b <= nb / 4096 -> b <= 2 ^ 35 -> unmapped r (va / 4096) b 0 s s) as Hskip.
  { intros b Hb Hb'. apply unmapped_skip; try done. intros va' Hv' Hin. apply Hnone; [done|].
    apply (same_block va k (va' / 4096)); done || lia || apply Hv || (fold nb; lia). }
  assert (va / 4096 <= nb / 4096) as Hge.
  { apply Z.div_le_mono; [lia|]. unfold nb. pose proof (Z.mul_succ_div_gt va (2 ^ k) ltac:(lia)). lia. }
  destruct (decide (nb / 4096 <= e / 4096)) as [Hle|Hgt].
  - rewrite Z.max_r in U by lia. apply (unmapped_trans r _ (nb / 4096) _ 0 n s s); [lia | lia | apply Hskip; lia | done].
  - rewrite Z.max_l in U by lia. apply (unmapped_rebase _ _ (e / 4096)) in U.
    apply (unmapped_trans r _ (e / 4096) _ 0 n s s); [lia | lia | apply Hskip; lia | done].
Qed.

Lemma next_boundary_grows va k : user_va va -> va mod 4096 = 0 -> 12 <= k <= 39 ->
  va + 4096 <= next_boundary va k /\ next_boundary va k mod 4096 = 0.
Proof.
  intros Hv Hal Hk. rewrite next_boundary_eq by (done || lia).
  assert (2 ^ k = 4096 * 2 ^ (k - 12)) as E by (rewrite <- (Z.pow_add_r 2 12) by lia; f_equal; lia).
  assert (((va / 2 ^ k + 1) * 2 ^ k) mod 4096 = 0) as Hm by (rewrite E, (Z.mul_comm 4096), Z.mul_assoc; by apply Z.mod_mul).
  split; [|done]. pose proof (Z.mul_succ_div_gt va (2 ^ k) ltac:(lia)). set (nb := (va / 2 ^ k + 1) * 2 ^ k) in *.
  pose proof (Z.div_mod va 4096). pose proof (Z.div_mod nb 4096). lia.
Qed.

(** The pages of the last-level table that one round of the loop visits. *)
Lemma round_pages va e n : user_va va -> va mod 4096 = 0 -> va < e <= 2 ^ 47 -> e mod 4096 = 0 ->
  let next := next_boundary va 21 in let stop := if next <? e then next else e in
  n = (stop - va + (PT_PAGE - 1)) / PT_PAGE ->
  1 <= n /\ va + n * 4096 <= e /\ (va + n * 4096) mod 4096 = 0 /\
  forall j, 0 <= j < n -> user_va (va + j * 4096) /\ va_path (va + j * 4096) = va_path va.
Proof.
  intros Hv Hal He Hea next stop Hn. destruct (next_boundary_grows va 21 Hv Hal ltac:(lia)) as [G1 G2]. fold next in G1, G2.
  assert (stop mod 4096 = 0 /\ va + 4096 <= stop <= e /\ stop <= next) as (S1 & S2 & S3).
  { unfold stop. pose proof (Z.div_mod va 4096). pose proof (Z.div_mod e 4096). destruct (Z.ltb_spec next e); lia. }
  assert (stop = va + n * 4096) as En.
  { unfold PT_PAGE in Hn. pose proof (Z.div_mod va 4096). pose proof (Z.div_mod stop 4096).
    replace (stop - va + (4096 - 1)) with ((stop / 4096 - va / 4096) * 4096 + 4095) in Hn by lia.
    rewrite Z.div_add_l in Hn by lia. change (4095 / 4096) with 0 in Hn. lia. }
  split_and!; [lia | lia | by rewrite <- En |]. intros j Hj. assert (user_va (va + j * 4096)) as Hu by (unfold user_va in *; lia).
  split; [done|]. apply (path_blocks va (va + j * 4096) Hv Hu). unfold next in *. rewrite next_boundary_eq in * by (done || lia).
  apply (same_block va 21 ((va + j * 4096) / 4096)); [lia | apply Hv | done | | done]. rewrite Z.div_add by lia. split; [lia|].
  pose proof (Z.div_mod va 4096). set (nb := (va / 2 ^ 21 + 1) * 2 ^ 21) in *. pose proof (Z.div_mod nb 4096). lia.
Qed.

Lemma tab_missing s r va p i q : va_path va = p ++ i :: q -> (t ← tab s r p; Some (has_present (word s t i))) <> Some true -> pte_of s r va = None.
Proof.
  intros E Hn. unfold pte_of. rewrite E, tab_app. destruct (tab s r p) as [t|]; [|done]. cbn in *. by destruct (has_present (word s t i)).
Qed.

Lemma unmap_loop_spec fuel r va e b c s b' c' s' :
  pt_ok s r -> 0 <= va -> va mod 4096 = 0 -> e mod 4096 = 0 -> e <= 2 ^ 47 -> e - va < Z.of_nat fuel * 4096 ->
  unmap_loop fuel r va e b c s = (b', c', s') ->
  unmapped r (va / 4096) (Z.max (va / 4096) (e / 4096)) (c' - c) s s'.
Proof.
  revert va b c s. induction fuel as [|fuel IH]; intros va b c s Hok Hva Hal Hea He Hfuel Hs.
  all: destruct (decide (va < e)) as [Hlt|Hge].
  2,4: rewrite Z.max_l by (apply Z.div_le_mono; lia);
    (assert ((b', c', s') = (b, c, s)) as [= -> -> ->] by (cbn [unmap_loop] in Hs; try rewrite (proj2 (Z.ltb_ge va e)) in Hs by lia; done));
    rewrite Z.sub_diag; by apply unmapped_quiet.
  { lia. }
  assert (user_va va) as Hv by (unfold user_va; lia). destruct (user_index va Hv) as [_ Hx].
  cbn [unmap_loop] in Hs. rewrite (proj2 (Z.ltb_lt va e)), (proj2 (Z.leb_gt 256 _)) in Hs by lia. cbn [negb orb] in Hs.
  rewrite Z.max_r by (apply Z.div_le_mono; lia). destruct (path_step va Hv) as (P0 & P1 & P2 & P3).
  assert (forall k, 12 <= k <= 39 -> (forall va', user_va va' -> va' / 2 ^ k = va / 2 ^ k -> pte_of s r va' = None) ->
    unmap_loop fuel r (next_boundary va k) e b c s = (b', c', s') -> unmapped r (va / 4096) (e / 4096) (c' - c) s s') as Hskip.
  { intros k Hk Hnone Hl. destruct (next_boundary_grows va k Hv Hal Hk). apply (unmapped_block r va k); try done.
    eapply IH; [done | lia | done | done | done | | exact Hl]. lia. }
  destruct (has_present (word s r (PML4_INDEX va))) eqn:E4; cbn [negb] in Hs; cycle 1.
  { apply (Hskip 39); [lia | | done]. intros va' Hv' Hb. pose proof (proj1 (path_blocks va va' Hv Hv') Hb) as Ei.
    apply (tab_missing s r va' [] (PML4_INDEX va') [PDP_INDEX va'; PD_INDEX va']); [done|]. cbn. rewrite Ei, E4. done. }
  set (pdpt := entry_table s (word s r (PML4_INDEX va))) in *.
  assert (tab s r [PML4_INDEX va] = Some pdpt) as T1 by (cbn; by rewrite E4).
  destruct (has_present (word s pdpt (PDP_INDEX va))) eqn:E3; cbn [negb orb] in Hs; cycle 1.
  { apply (Hskip 30); [lia | | done]. intros va' Hv' Hb. destruct (proj1 (proj2 (path_blocks va va' Hv Hv')) Hb) as [Ei Ei'].
    apply (tab_missing s r va' [PML4_INDEX va'] (PDP_INDEX va') [PD_INDEX va']); [done|]. rewrite Ei, Ei', T1. cbn. by rewrite E3. }
  rewrite (pk_small s r Hok [PML4_INDEX va] pdpt) in Hs by done.
  set (pd := entry_table s (word s pdpt (PDP_INDEX va))) in *.
  assert (tab s r [PML4_INDEX va; PDP_INDEX va] = Some pd) as T2 by (cbn; fold pdpt; by rewrite E4, E3).
  destruct (has_present (word s pd (PD_INDEX va))) eqn:E2; cbn [negb orb] in Hs; cycle 1.
  { apply (Hskip 21); [lia | | done]. intros va' Hv' Hb. pose proof (proj2 (proj2 (path_blocks va va' Hv Hv')) Hb) as Ep.
    apply (tab_missing s r va' [PML4_INDEX va; PDP_INDEX va] (PD_INDEX va) []); [done|]. rewrite T2. cbn. by rewrite E2. }
  rewrite (pk_small s r Hok [PML4_INDEX va; PDP_INDEX va] pd) in Hs by done.
  set (pt := entry_table s (word s pd (PD_INDEX va))) in *.
  assert (tab s r (va_path va) = Some pt) as T3 by (cbn; fold pdpt; rewrite E4; fold pd; by rewrite E3, E2).
  set (n := (_ - va + (PT_PAGE - 1)) / PT_PAGE) in Hs.
  destruct (round_pages va e n Hv Hal ltac:(lia) Hea eq_refl) as (N1 & N2 & N3 & N4). clearbody n.
  destruct (unmap_pt_loop (Z.to_nat n) pt va b c s) as [[b1 c1] s1] eqn:L1.
  destruct (unmap_pt_spec (Z.to_nat n) pt (va_path va) va b c s b1 c1 s1 r) as [U1 K1]; try done.
  { intros j Hj. apply N4. lia. }
  { rewrite Z2Nat.id, <- Z.div_add by lia. apply (Z.div_le_upper_bound _ 4096); lia. }
  rewrite Z2Nat.id, <- Z.div_add in U1 by lia.
  destruct (drop_empty_tables r pdpt pd pt va b1 s1) as [b2 s2] eqn:D.
  assert (0 <= (va + n * 4096) / 4096 <= 2 ^ 35 /\ va / 4096 <= (va + n * 4096) / 4096 <= e / 4096 /\ e / 4096 <= 2 ^ 35) as (B1 & B2 & B3).
  { split_and!; try (apply Z.div_pos; lia); try (apply Z.div_le_mono; lia); apply Z.div_le_upper_bound; lia. }
  pose proof (drop_empty_spec s1 r va pdpt pd pt ((va + n * 4096) / 4096) b1 b2 s2 (um_ok _ _ _ _ _ _ U1) Hv B1
    (eq_trans (K1 _ P1) T1) (eq_trans (K1 _ P2) T2) (eq_trans (K1 _ P3) T3) D) as U2.
  pose proof (IH (va + n * 4096) b2 c1 s2 (um_ok _ _ _ _ _ _ U2) ltac:(lia) N3 Hea He ltac:(lia) Hs) as U3.
  rewrite Z.max_r in U3 by lia. replace (c' - c) with ((c1 - c) + (0 + (c' - c1))) by lia.
  eapply unmapped_trans; [| |exact U1|]; [|lia|].
  - split; [apply Z.div_pos; lia | lia].
  - eapply unmapped_trans; [| |exact U2 | exact U3]; lia.
Qed.

Lemma unmap_range_spec s r va n rc s' :
  pt_ok s r -> r <> 0 -> 0 <= va -> 1 <= n -> va / 4096 * 4096 + n * 4096 <= 2 ^ 47 -> vmm_unmap_range_release_in r va n s = (rc, s') ->
  exists c, rc = s32 c /\ unmapped r (va / 4096) (va / 4096 + n) c s s'.
Proof.
  intros Hok Hr Hva Hn Hb Hs. unfold vmm_unmap_range_release_in in Hs.
  rewrite (proj2 (Z.eqb_neq r 0)), (proj2 (Z.eqb_neq n 0)) in Hs by lia. cbn [orb] in Hs.
  pose proof (Z.div_mod va 4096 ltac:(lia)) as Hd. pose proof (Z.mod_pos_bound va 4096 ltac:(lia)).
  change (PT_PAGE - 1) with (2 ^ 12 - 1) in Hs. assert (va < 2 ^ 47 + 4096) by lia.
  rewrite (align_down va 12) in Hs by lia. change (2 ^ 12) with 4096 in Hs. set (a := va / 4096) in *. unfold PT_PAGE in Hs.
  rewrite u64_small in Hs by lia. destruct (unmap_loop _ _ _ _ _ _ _) as [[b1 c1] s1] eqn:E1.
  assert ((a * 4096 + n * 4096) / 4096 = a + n) as Ee by (rewrite <- Z.mul_add_distr_r; by apply Z.div_mul).
  apply unmap_loop_spec in E1; try done; try lia.
  - rewrite Z.div_mul, Ee, Z.max_r, Z.sub_0_r in E1 by lia. destruct (vmm_unmap_batch_flush b1 s1) as [b2 s2] eqn:E2.
    apply flush_step in E2 as (_ & M & Hh & _). injection Hs as <- <-. exists c1. split; [done|]. by eapply unmapped_ext.
  - by apply Z.mod_mul.
  - rewrite <- Z.mul_add_distr_r. by apply Z.mod_mul.
Qed.

(** [vmm_unmap_range_release_in] removes exactly the translations of the
    range, whatever tables it drops on the way, keeps every other page and the
    kernel half, and returns the number of pages that were mapped. *)
Theorem vmm_unmap_range_exact s r va n rc s' :
  pt_ok s r -> r <> 0 -> 0 <= va -> 1 <= n -> va / 4096 * 4096 + n * 4096 <= 2 ^ 47 ->
  vmm_unmap_range_release_in r va n s = (rc, s') ->
  pt_ok s' r /\ rc = s32 (mapped_pages s r (va / 4096) (va / 4096 + n)) /\
  (forall va', user_va va' -> vmm_is_mapped_in r va' s' =
     if decide (va / 4096 <= va' / 4096 < va / 4096 + n) then 0 else vmm_is_mapped_in r va' s) /\
  (forall i, 256 <= i < 512 -> word s' r i = word s r i).
Proof.
  intros Hok Hr Hva Hn Hb Hs. destruct (unmap_range_spec s r va n rc s' Hok Hr Hva Hn Hb Hs) as (c & -> & [O1 H1 P1 K1 C1]).
  split_and!; try done; [by rewrite C1|]. intros va' Hv'. rewrite !is_mapped_pte, P1 by done. by case_decide.
Qed.
End translations.
