(* ===== verification/VmmClone.v ===== *)
(** * Cloning an address space

    [vmm_clone_table] and [vmm_clone_address_space] of src/mem.c, the memory
    half of fork: the copy translates every page to the frame of the original,
    and no private page stays writable in either of the two. *)
From S2P Require Import Prelude Heap Vmm VmmMap VmmProps.

(** ** Entries *)

(** The entry that both address spaces have after a leaf was cloned. *)
Definition cow_of (w : Z) : Z :=
  if has w VMM_DEVICE || has w VMM_SHARED then w
  else if has w VMM_USER && has w VMM_WRITABLE then Z.lor (Z.land w (u64 (Z.lnot VMM_WRITABLE))) VMM_COW
  else w.
Definition clone_word (w : Z) : Z := if has_present w then cow_of w else 0.
Definition source_word (w : Z) : Z := if has_present w then cow_of w else w.

Lemma has_bit w k : 0 <= k -> has w (2 ^ k) = Z.testbit w k.
Proof.
  intros Hk. unfold has. rewrite Z.testbit_eqb by done. rewrite <- (Z.shiftr_div_pow2 w k), <- Z.bit0_mod by done.
  rewrite Z.shiftr_spec, Z.add_0_l by done.
  assert (Z.land w (2 ^ k) = if Z.testbit w k then 2 ^ k else 0) as ->.
  { apply Z.bits_inj'. intros j Hj. rewrite Z.land_spec, Z.pow2_bits_eqb by done. destruct (Z.eqb_spec k j) as [->|Hne].
    - rewrite andb_true_r. destruct (Z.testbit w j); [by rewrite Z.pow2_bits_true | by rewrite Z.bits_0].
    - rewrite andb_false_r. destruct (Z.testbit w k); [by rewrite Z.pow2_bits_false | by rewrite Z.bits_0]. }
  destruct (Z.testbit w k); [|done]. assert (0 < 2 ^ k) by lia. by rewrite (proj2 (Z.eqb_neq _ 0)) by lia.
Qed.

Lemma cow_bits w k : 0 <= k < 64 -> k <> 1 -> k <> 9 ->
  Z.testbit (Z.lor (Z.land w (u64 (Z.lnot VMM_WRITABLE))) VMM_COW) k = Z.testbit w k.
Proof.
  intros Hk H1 H9. rewrite Z.lor_spec, Z.land_spec. unfold VMM_COW. rewrite Z.pow2_bits_false, orb_false_r by lia.
  unfold u64. rewrite Z.mod_pow2_bits_low by lia. rewrite Z.lnot_spec by lia. unfold VMM_WRITABLE. rewrite Z.pow2_bits_false by lia.
  apply andb_true_r.
Qed.
Lemma cow_not_writable w : has (Z.lor (Z.land w (u64 (Z.lnot VMM_WRITABLE))) VMM_COW) VMM_WRITABLE = false.
Proof. unfold VMM_WRITABLE. rewrite has_bit by lia. rewrite Z.lor_spec, Z.land_spec. cbn. by rewrite andb_false_r. Qed.

(** The frame and the flags other than write access stay. *)
Lemma cow_address w : Z.land (cow_of w) PTE_ADDR_MASK = Z.land w PTE_ADDR_MASK.
Proof.
  unfold cow_of. destruct (_ || _); [done|]. destruct (_ && _); [|done]. rewrite mask_flags by done. rewrite <- Z.land_assoc.
  f_equal.
Qed.
Lemma cow_flag w k : 0 <= k < 64 -> k <> 1 -> k <> 9 -> has (cow_of w) (2 ^ k) = has w (2 ^ k).
Proof.
  intros Hk H1 H9. rewrite !has_bit by lia. unfold cow_of. destruct (_ || _); [done|]. destruct (_ && _); [|done]. by apply cow_bits.
Qed.
Lemma cow_present w : has_present (cow_of w) = has_present w.
Proof. apply cow_flag; lia. Qed.

(** A writable user page that is neither device memory nor shared does not
    stay writable. *)
Definition private_writable (w : Z) : bool :=
  has w VMM_WRITABLE && has w VMM_USER && negb (has w VMM_DEVICE) && negb (has w VMM_SHARED).
Lemma cow_private w : private_writable (cow_of w) = false.
Proof.
  unfold private_writable. unfold VMM_USER at 1, VMM_DEVICE, VMM_SHARED. rewrite !cow_flag by lia. unfold cow_of.
  change (2 ^ 10) with VMM_DEVICE. change (2 ^ 11) with VMM_SHARED. change (2 ^ 2) with VMM_USER.
  destruct (has w VMM_DEVICE), (has w VMM_SHARED); cbn [orb negb]; rewrite ?andb_false_r; try done.
  destruct (has w VMM_USER) eqn:Eu, (has w VMM_WRITABLE) eqn:Ew; cbn [andb]; rewrite ?cow_not_writable, ?Ew; done.
Qed.
Lemma cow_idem w : cow_of (cow_of w) = cow_of w.
Proof.
  pose proof (cow_private w) as Hp. unfold private_writable in Hp. unfold cow_of at 1.
  destruct (has (cow_of w) VMM_DEVICE), (has (cow_of w) VMM_SHARED), (has (cow_of w) VMM_USER), (has (cow_of w) VMM_WRITABLE); done.
Qed.
Lemma source_idem w : source_word (source_word w) = source_word w.
Proof. unfold source_word. destruct (has_present w) eqn:E; [|by rewrite E]. by rewrite cow_present, E, cow_idem. Qed.

Section clone.
Context {H : Type} `{!KHeap H, !KHeapLaws H, !KFrames H, !KFramesLaws H}.
Implicit Types (s : vmm H) (r : Z) (p q : list Z) (t u : Z).

(** Reference counting does not touch the tables. *)
Record same_tables s s' : Prop := {
  sm_mem : v_mem s' = v_mem s;
  sm_heap : v_heap s' = v_heap s;
  sm_hhdm : v_hhdm s' = v_hhdm s;
  sm_kpml4 : kernel_pml4 s' = kernel_pml4 s;
}.
Lemma share_tables f s : same_tables s (share_frame f s).
Proof.
  unfold share_frame, vmm_page_ref, set_ref. by repeat case_match.
Qed.

(** Only the tables [a] and [b] are written. *)
Record two_tables (a b : Z) s s' : Prop := {
  tt_heap : v_heap s' = v_heap s;
  tt_hhdm : v_hhdm s' = v_hhdm s;
  tt_kpml4 : kernel_pml4 s' = kernel_pml4 s;
  tt_mem : forall u, u <> a -> u <> b -> v_mem s' !! u = v_mem s !! u;
  tt_a : table_shape s' a;
  tt_b : table_shape s' b;
}.

Lemma set_word_two a b t i w s : table_shape s a -> table_shape s b -> t = a \/ t = b -> two_tables a b s (set_word t i w s).
Proof.
  intros Ha Hb Ht. assert (table_shape s t) by (by destruct Ht as [->| ->]). split; try done; try by apply shape_set.
  intros u Hua Hub. cbn. rewrite lookup_insert_ne; [done|]. destruct Ht; congruence.
Qed.
Lemma two_tables_trans a b s1 s2 s3 : two_tables a b s1 s2 -> two_tables a b s2 s3 -> two_tables a b s1 s3.
Proof. intros [H1 H2 H3 H4 _ _] [? ? ? H4' ? ?]. split; try congruence; try done. intros u Ha Hb. by rewrite H4', H4. Qed.
Lemma two_tables_same a b s1 s2 s3 : two_tables a b s1 s2 -> same_tables s2 s3 -> two_tables a b s1 s3.
Proof.
  intros [H1 H2 H3 H4 H5 H6] [E1 E2 E3 E4]. split; try congruence; unfold table_shape in *; rewrite E1; done.
Qed.
Lemma same_tables_word s s' t i : same_tables s s' -> word s' t i = word s t i.
Proof. intros [E _ _ _]. unfold word. by rewrite E. Qed.

(** One leaf entry. *)
Lemma clone_leaf_words src dst i s : table_shape s src -> table_shape s dst -> src <> dst -> is_index i ->
  let s' := clone_leaf src dst i s in
  two_tables src dst s s' /\
  forall u j, is_index j -> word s' u j = if decide ((u = src \/ u = dst) /\ j = i) then cow_of (word s src i) else word s u j.
Proof.
  intros Hs Hd Hne Hi. set (w := word s src i).
  assert (forall w', w' = w -> two_tables src dst s (set_word dst i w' s) /\
    forall u j, is_index j -> word (set_word dst i w' s) u j = if decide ((u = src \/ u = dst) /\ j = i) then w else word s u j) as Hone.
  { intros w' ->. split; [apply set_word_two; auto|]. intros u j Hj. rewrite word_set by done. repeat case_decide; try tauto.
    destruct H1 as [[->| ->] ->]; [done | tauto]. }
  unfold clone_leaf, cow_of. fold w. destruct (has w VMM_DEVICE); [by apply Hone|]. cbn [orb].
  destruct (Hone w eq_refl) as [T1 W1]. pose proof (share_tables (Z.land w PTE_ADDR_MASK) (set_word dst i w s)) as Sm.
  assert (two_tables src dst s (share_frame (Z.land w PTE_ADDR_MASK) (set_word dst i w s)) /\
    forall u j, is_index j -> word (share_frame (Z.land w PTE_ADDR_MASK) (set_word dst i w s)) u j =
      if decide ((u = src \/ u = dst) /\ j = i) then w else word s u j) as Hshare.
  { split; [by eapply two_tables_same|]. intros u j Hj. rewrite (same_tables_word _ _ _ _ Sm). by apply W1. }
  destruct (has w VMM_SHARED); [done|]. destruct (has w VMM_USER && has w VMM_WRITABLE); [|done].
  set (c := Z.lor _ _). set (s1 := set_word src i c s). pose proof (set_word_two src dst src i c s Hs Hd ltac:(auto)) as T2.
  pose proof (set_word_two src dst dst i c s1 (tt_a _ _ _ _ T2) (tt_b _ _ _ _ T2) ltac:(auto)) as T3.
  pose proof (share_tables (Z.land w PTE_ADDR_MASK) (set_word dst i c s1)) as Sm'. split.
  - eapply two_tables_same; [|done]. by eapply two_tables_trans.
  - intros u j Hj. rewrite (same_tables_word _ _ _ _ Sm'). rewrite word_set by (done || apply T2). unfold s1. rewrite word_set by done.
    repeat case_decide; tauto.
Qed.

(** The loop over a last-level table. *)
Definition leaf_body (src dst i : Z) (s : vmm H) : vmm H :=
  if negb (has_present (word s src i)) then set_word dst i 0 s else clone_leaf src dst i s.

Lemma leaf_loop src dst n i s : table_shape s src -> table_shape s dst -> src <> dst -> 0 <= i -> i + Z.of_nat n <= 512 ->
  let s' := zfor n i (leaf_body src dst) s in
  two_tables src dst s s' /\
  (forall j, is_index j -> word s' src j = if decide (i <= j < i + Z.of_nat n) then source_word (word s src j) else word s src j) /\
  (forall j, is_index j -> word s' dst j = if decide (i <= j < i + Z.of_nat n) then clone_word (word s src j) else word s dst j).
Proof.
  intros Hs Hd Hne. revert i s Hs Hd. induction n as [|n IH]; intros i s Hs Hd Hi Hn; cbn [zfor].
  { split_and!; [by split | |]; intros j Hj; by rewrite decide_False by lia. }
  set (s1 := leaf_body src dst i s). assert (is_index i) as Hii by (unfold is_index; lia).
  assert (two_tables src dst s s1 /\
    (forall j, is_index j -> word s1 src j = if decide (j = i) then source_word (word s src j) else word s src j) /\
    (forall j, is_index j -> word s1 dst j = if decide (j = i) then clone_word (word s src j) else word s dst j)) as (T1 & W1 & W2).
  { unfold s1, leaf_body, source_word, clone_word. destruct (has_present (word s src i)) eqn:Ep; cbn [negb].
    - destruct (clone_leaf_words src dst i s Hs Hd Hne Hii) as [T W]. split; [done|].
      split; intros j Hj; rewrite W by done; repeat case_decide; try tauto; subst; by rewrite Ep.
    - split; [apply set_word_two; auto|]. split; intros j Hj; rewrite word_set by done; repeat case_decide; try tauto; subst; by rewrite Ep. }
  destruct (IH (i + 1) s1 (tt_a _ _ _ _ T1) (tt_b _ _ _ _ T1) ltac:(lia) ltac:(lia)) as (T2 & V1 & V2).
  split_and!; [by eapply two_tables_trans | |]; intros j Hj.
  - rewrite V1, W1 by done. repeat case_decide; try lia; done.
  - rewrite V2, W1, W2 by done. repeat case_decide; try lia; done.
Qed.

#[local] Opaque zfor.

(** ** Stability of the tables *)

Lemma tab_walk_eq s s' t q : v_hhdm s' = v_hhdm s ->
  (forall p j q' u, q = p ++ j :: q' -> tab s t p = Some u -> word s' u j = word s u j) -> tab s' t q = tab s t q.
Proof.
  intros Eh. revert t. induction q as [|j q IH]; intros t Hw; cbn [tab]; [done|].
  rewrite (Hw [] j q t eq_refl eq_refl). unfold entry_table, phys_to_virt. rewrite Eh. fold (phys_to_virt s). cbn zeta.
  destruct (has_present (word s t j)) eqn:Ep; [|done]. apply IH. intros p k q' u -> Hu.
  apply (Hw (j :: p) k q' u eq_refl). cbn [tab]. by rewrite Ep.
Qed.

Lemma user_path_short q j : user_path (q ++ [j]) -> (length q < 3)%nat.
Proof. intros (Hl & _). rewrite length_app in Hl. cbn in Hl. lia. Qed.

(** An address space whose upper tables are kept. *)
Lemma as_stable s s' r : as_ok s r -> vm_ok s' -> v_hhdm s' = v_hhdm s ->
  (forall a n, heap_live (v_heap s) a n -> heap_live (v_heap s') a n) ->
  (forall q u, user_path q -> tab s r q = Some u -> table_shape s' u) ->
  (forall q u j, user_path q -> (length q < 3)%nat -> tab s r q = Some u -> is_index j -> word s' u j = word s u j) ->
  as_ok s' r /\ (forall q, user_path q -> tab s' r q = tab s r q).
Proof.
  intros [Hvm Hpt Hl] Hvm' Eh Hlv Hsh Hw.
  assert (forall q, user_path q -> tab s' r q = tab s r q) as Ht.
  { intros q Hq. apply tab_walk_eq; [done|]. intros p j q' u -> Hu. pose proof (user_path_app _ _ Hq) as Hp.
    apply (Hw p); try done.
    - destruct Hq as (Hlen & _). rewrite length_app in Hlen. cbn in Hlen. lia.
    - destruct Hq as (_ & Hf & _). apply Forall_app in Hf as [_ Hf]. by inversion Hf. }
  split; [|done]. split; [done|split|].
  - intros q u Hq. rewrite Ht by done. by apply Hsh.
  - intros q q' u Hq Hq'. rewrite !Ht by done. by apply Hpt.
  - intros q u j Hqj. pose proof (user_path_app _ _ Hqj) as Hq. rewrite Ht by done. intros Hu.
    pose proof (user_path_short _ _ Hqj). pose proof (user_path_last _ _ Hqj). rewrite (Hw q) by done.
    by apply (pk_small s r Hpt q).
  - intros q u Hq. rewrite Ht by done. intros Hu. by apply Hlv, (Hl q).
Qed.

(** ** What cloning the subtree at [p] may change *)

Record cloned s s' r p : Prop := {
  cl_as : as_ok s' r;
  cl_hhdm : v_hhdm s' = v_hhdm s;
  cl_kpml4 : kernel_pml4 s' = kernel_pml4 s;
  cl_live : forall a n, heap_live (v_heap s) a n -> heap_live (v_heap s') a n;
  cl_window : hp_base (v_heap s') = hp_base (v_heap s) /\ hp_top (v_heap s') = hp_top (v_heap s);
  cl_tab : forall q, user_path q -> tab s' r q = tab s r q;
  cl_word : forall q t j, user_path q -> length q = 3%nat -> tab s r q = Some t -> is_index j ->
    word s' t j = word s t j \/ (p `prefix_of` q /\ word s' t j = source_word (word s t j));
  cl_mem : forall u, taken s u -> (forall q, user_path q -> length q = 3%nat -> p `prefix_of` q -> tab s r q <> Some u) ->
    v_mem s' !! u = v_mem s !! u;
}.

Lemma cloned_taken s s' r p u : cloned s s' r p -> taken s u -> taken s' u.
Proof.
  intros Hc [Hl|Ho]; [left; by apply Hc | right]. destruct (cl_window _ _ _ _ Hc) as [-> ->]. done.
Qed.

Lemma cloned_trans s1 s2 s3 r p q : p `prefix_of` q -> cloned s1 s2 r p -> cloned s2 s3 r q -> cloned s1 s3 r p.
Proof.
  intros Hpq C1 C2. split.
  - apply C2.
  - rewrite (cl_hhdm _ _ _ _ C2). apply C1.
  - rewrite (cl_kpml4 _ _ _ _ C2). apply C1.
  - intros a n Ha. by apply C2, C1.
  - destruct (cl_window _ _ _ _ C2) as [-> ->]. apply C1.
  - intros k Hk. rewrite (cl_tab _ _ _ _ C2) by done. by apply C1.
  - intros k t j Hk Hlen Ht Hj. pose proof (cl_tab _ _ _ _ C1 k Hk) as Et. rewrite Ht in Et.
    destruct (cl_word _ _ _ _ C1 k t j Hk Hlen Ht Hj) as [W1|[P1 W1]], (cl_word _ _ _ _ C2 k t j Hk Hlen Et Hj) as [W2|[P2 W2]];
      rewrite W2, W1; [by left | right | by right | right]; (split; [by etrans|]); [done|]. by rewrite source_idem.
  - intros u Hu Hn. rewrite (cl_mem _ _ _ _ C2 u); [|by eapply cloned_taken|].
    + by apply C1.
    + intros k Hk Hlen Hp. rewrite (cl_tab _ _ _ _ C1) by done. apply Hn; try done. by etrans.
Qed.

(** Writing a table that was not there before. *)
Lemma cloned_fresh_table s s1 s2 r p dst : cloned s s1 r p -> ~ taken s dst ->
  v_heap s2 = v_heap s1 -> v_hhdm s2 = v_hhdm s1 -> kernel_pml4 s2 = kernel_pml4 s1 ->
  (forall u, u <> dst -> v_mem s2 !! u = v_mem s1 !! u) -> as_ok s r -> cloned s s2 r p.
Proof.
  intros C Hd Eh Eo Ek Em Has.
  assert (forall q u, user_path q -> tab s r q = Some u -> u <> dst) as Hne.
  { intros q u Hq Hu ->. apply Hd. left. by apply (as_live _ _ Has q). }
  assert (forall q u j, user_path q -> tab s r q = Some u -> word s2 u j = word s1 u j) as Hw.
  { intros q u j Hq Hu. unfold word. rewrite Em; [done|]. by apply (Hne q). }
  pose proof (cl_tab _ _ _ _ C) as Ht. destruct (as_stable s1 s2 r) as [Has2 Ht2].
  - apply C.
  - pose proof (as_vm _ _ (cl_as _ _ _ _ C)) as [? ? ? ?]. split; rewrite ?Eh, ?Eo; done.
  - done.
  - intros a n. by rewrite Eh.
  - intros q u Hq Hu. pose proof (pk_shape _ _ (as_pt _ _ (cl_as _ _ _ _ C)) q u Hq Hu) as Hs. rewrite Ht in Hu by done.
    unfold table_shape. rewrite Em by (by apply (Hne q)). exact Hs.
  - intros q u j Hq _ Hu Hj. rewrite Ht in Hu by done. by apply (Hw q).
  - split; try done.
    + rewrite Eo. apply C.
    + rewrite Ek. apply C.
    + intros a n Ha. rewrite Eh. by apply C.
    + rewrite Eh. apply C.
    + intros q Hq. rewrite Ht2 by done. by apply Ht.
    + intros q t j Hq Hlen Htt Hj. rewrite (Hw q) by done. by apply C.
    + intros u Hu Hn. rewrite Em; [by apply C|]. intros ->. by apply Hd.
Qed.

(** ** The copy *)

(** [dst] is a copy of the subtree of [r] at [p]: its tables are distinct
    frames of [F], it has no table where the original has none, and its leaves
    are the cloned entries. *)
Record copy_of s s' r p dst (F : Z -> Prop) : Prop := {
  cp_fresh : forall u, F u -> heap_live (v_heap s') u PT_PAGE /\ ~ taken s u;
  cp_tab : forall q u, user_path (p ++ q) -> tab s' dst q = Some u -> F u /\ table_shape s' u /\ is_Some (tab s r (p ++ q));
  cp_inj : forall q q' u, user_path (p ++ q) -> user_path (p ++ q') -> tab s' dst q = Some u -> tab s' dst q' = Some u -> q = q';
  cp_small : forall q u i, user_path (p ++ q ++ [i]) -> tab s' dst q = Some u -> has_present (word s' u i) = true ->
    has (word s' u i) VMM_HUGE = false;
  cp_leaf : forall q u t i, user_path (p ++ q) -> length (p ++ q) = 3%nat -> tab s' dst q = Some u -> tab s r (p ++ q) = Some t ->
    is_index i -> word s' u i = clone_word (word s t i) /\ word s' t i = source_word (word s t i);
}.

Lemma clone_alloc s f s1 r p : as_ok s r -> vmm_alloc_frame s = (f, s1) ->
  cloned s s1 r p /\ (forall u, taken s u -> v_mem s1 !! u = v_mem s !! u) /\
  (f <> 0 -> let dst := phys_to_virt s1 f in
     dst <> 0 /\ dst mod PT_PAGE = 0 /\ ~ taken s dst /\ heap_live (v_heap s1) dst PT_PAGE /\ v_mem s1 !! dst = Some (replicate 512 0)).
Proof.
  intros Has Ha. destruct (alloc_frame_spec s f s1 (as_vm _ _ Has) Ha) as (Hvm1 & Eh & Ek & _ & Hcase).
  pose proof (alloc_window s) as Hwin. rewrite Ha in Hwin. cbn in Hwin.
  assert (exists X, (forall u, u <> X -> v_mem s1 !! u = v_mem s !! u) /\ ~ taken s X \/ v_mem s1 = v_mem s) as Hmem.
  { destruct Hcase as [(-> & Em & _)|(v & Hf & Hfa & Hv & Hv0 & Em & Hfr & Hl)]; [exists 0; by right|]. exists v. left.
    split; [intros u Hu; by rewrite Em, lookup_insert_ne|]. intros [Hl'|Ho]; [by apply (Hfr PT_PAGE)|].
    assert (heap_live (v_heap s1) v PT_PAGE) as Hlv by (apply Hl; by left).
    destruct (live_window _ _ _ (vo_heap _ Hvm1) Hlv). unfold PT_PAGE in *. lia. }
  assert (forall a n, heap_live (v_heap s) a n -> heap_live (v_heap s1) a n) as Hlv.
  { intros a n Hx. destruct Hcase as [(_ & _ & Hl)|(v & _ & _ & _ & _ & _ & _ & Hl)]; apply Hl; auto. }
  assert (forall u, taken s u -> v_mem s1 !! u = v_mem s !! u) as Hm.
  { intros u Hu. destruct Hmem as (X & [[Hm HX]|Em]); [apply Hm; intros ->; done | by rewrite Em]. }
  assert (forall q u, user_path q -> tab s r q = Some u -> v_mem s1 !! u = v_mem s !! u) as Hmt.
  { intros q u Hq Hu. apply Hm. left. by apply (as_live _ _ Has q). }
  destruct (as_stable s s1 r Has Hvm1 Eh Hlv) as [Has1 Ht].
  { intros q u Hq Hu. unfold table_shape. rewrite (Hmt q) by done. exact (pk_shape _ _ (as_pt _ _ Has) q u Hq Hu). }
  { intros q u j Hq _ Hu _. unfold word. by rewrite (Hmt q). }
  split; [|split; [done|]].
  - split; try done; [|intros u Hu _; by apply Hm]. intros q t j Hq _ Ht' _. left. unfold word. by rewrite (Hmt q).
  - intros Hf0. destruct Hcase as [(-> & _)|(v & Hf & Hfa & Hv & Hv0 & Em & Hfr & Hl)]; [done|].
    assert (phys_to_virt s1 f = v) as -> by (unfold phys_to_virt in *; by rewrite Eh). cbn zeta.
    assert (heap_live (v_heap s1) v PT_PAGE) as Hlv' by (apply Hl; by left).
    split_and!; try done; [| |by rewrite Em, lookup_insert_eq].
    { rewrite <- Hv. unfold phys_to_virt, u64. change (2 ^ 64) with (2 ^ 52 * PT_PAGE). rewrite Z.mul_comm, Z.rem_mul_r by done.
      rewrite Z.mul_comm, Z.mod_add, Z.mod_mod by done. rewrite Z.add_mod, Hfa, (vo_align _ (as_vm _ _ Has)) by done. done. }
    intros [Hl'|Ho]; [by apply (Hfr PT_PAGE)|].
    destruct (live_window _ _ _ (vo_heap _ Hvm1) Hlv'). unfold PT_PAGE in *. lia.
Qed.

Lemma zero_table_shape s v : v <> 0 -> v_mem s !! v = Some (replicate 512 0) -> table_shape s v.
Proof. intros Hv Em. split; [done|]. by exists (replicate 512 0). Qed.

(** The result of cloning a table. *)
Definition clone_result s s' r p dst : Prop :=
  cloned s s' r p /\ (dst = 0 \/ (dst <> 0 /\ dst mod PT_PAGE = 0 /\ exists F, F dst /\ copy_of s s' r p dst F)).

Lemma user_path_tail p q : length p = 3%nat -> user_path (p ++ q) -> q = [].
Proof. intros Hl (Hlen & _). rewrite length_app in Hlen. destruct q; [done | cbn in Hlen; lia]. Qed.

Lemma clone_level1 s r p src dst s' : as_ok s r -> user_path p -> length p = 3%nat -> tab s r p = Some src ->
  vmm_clone_table 1 src s = (dst, s') -> clone_result s s' r p dst.
Proof.
  intros Has Hp Hlen Ht Hs. unfold vmm_clone_table in Hs. destruct (vmm_alloc_frame s) as [f s1] eqn:Ea.
  destruct (clone_alloc s f s1 r p Has Ea) as (C1 & Hm1 & Hd). destruct (Z.eqb_spec f 0) as [->|Hf].
  { injection Hs as <- <-. split; [done | by left]. }
  destruct (Hd Hf) as (Hd0 & Hda & Hdt & Hdl & Hdm). set (d := phys_to_virt s1 f) in *. cbn [Nat.eqb] in Hs.
  pose proof (cl_tab _ _ _ _ C1) as Et1. pose proof (cl_as _ _ _ _ C1) as Has1.
  assert (taken s src) as Hst by (left; by apply (as_live _ _ Has p)).
  assert (table_shape s1 src) as Hss by (apply (pk_shape _ _ (as_pt _ _ Has1) p); [done | by rewrite Et1]).
  assert (src <> d) as Hsd by (intros E; apply Hdt; by rewrite <- E).
  destruct (leaf_loop src d 512 0 s1 Hss (zero_table_shape _ _ Hd0 Hdm) Hsd ltac:(lia) ltac:(lia)) as (T & W1 & W2).
  change (fun i s => _) with (leaf_body src d) in Hs. set (s2 := zfor 512 0 (leaf_body src d) s1) in *. clearbody s2. injection Hs as <- <-.
  assert (forall j, word s1 src j = word s src j) as Hw1 by (intros j; unfold word; by rewrite Hm1).
  assert (forall u, taken s u -> u <> src -> v_mem s2 !! u = v_mem s !! u) as Hm2.
  { intros u Hu Hus. rewrite (tt_mem _ _ _ _ T); [by apply Hm1 | done |]. intros ->. done. }
  assert (forall q u, user_path q -> tab s r q = Some u -> u = src -> q = p) as Hinj.
  { intros q u Hq Hu ->. exact (pk_inj _ _ (as_pt _ _ Has) q p src Hq Hp Hu Ht). }
  assert (forall q u, user_path q -> tab s r q = Some u -> taken s u) as Htk by (intros q u Hq Hu; left; by apply (as_live _ _ Has q)).
  split.
  - destruct (as_stable s s2 r Has) as [Has2 Et2].
    + pose proof (as_vm _ _ Has1) as [? ? ? ?]. split; rewrite ?(tt_heap _ _ _ _ T), ?(tt_hhdm _ _ _ _ T); done.
    + rewrite (tt_hhdm _ _ _ _ T). apply C1.
    + intros a n Hl. rewrite (tt_heap _ _ _ _ T). by apply C1.
    + intros q u Hq Hu. destruct (decide (u = src)) as [->|Hne]; [apply T|]. unfold table_shape. rewrite Hm2 by (done || by apply (Htk q)).
      exact (pk_shape _ _ (as_pt _ _ Has) q u Hq Hu).
    + intros q u j Hq Hl3 Hu Hj. destruct (decide (u = src)) as [E|Hne]; [rewrite (Hinj q u Hq Hu E) in Hl3; lia|].
      unfold word. by rewrite Hm2 by (done || by apply (Htk q)).
    + split; try done.
      * rewrite (tt_hhdm _ _ _ _ T). apply C1.
      * rewrite (tt_kpml4 _ _ _ _ T). apply C1.
      * intros a n Hl. rewrite (tt_heap _ _ _ _ T). by apply C1.
      * rewrite (tt_heap _ _ _ _ T). apply C1.
      * intros q t j Hq Hl3 Hu Hj. destruct (decide (t = src)) as [->|Hne].
        -- right. rewrite (Hinj q src Hq Hu eq_refl). split; [done|]. by rewrite W1, decide_True, Hw1 by (done || unfold is_index in Hj; lia).
        -- left. unfold word. by rewrite Hm2 by (done || by apply (Htk q)).
      * intros u Hu Hn. apply Hm2; [done|]. intros ->. by apply (Hn p).
  - right. split; [done|]. split; [done|]. exists (fun u => u = d). split; [done|]. split.
    + intros u ->. split; [|done]. by rewrite (tt_heap _ _ _ _ T).
    + intros q u Hq Hu. pose proof (user_path_tail p q Hlen Hq) as ->. injection Hu as <-. rewrite app_nil_r. split_and!; [done | apply T | by exists src].
    + intros q q' u Hq Hq' _ _. by rewrite (user_path_tail p q Hlen Hq), (user_path_tail p q' Hlen Hq').
    + intros q u i Hq. apply (user_path_tail p) in Hq; [by destruct q | done].
    + intros q u t i Hq _ Hu Htt Hi. pose proof (user_path_tail p q Hlen Hq) as ->. injection Hu as <-. rewrite app_nil_r in Htt.
      assert (t = src) as -> by congruence. by rewrite W1, W2, !decide_True, Hw1 by (done || unfold is_index in Hi; lia).
Qed.

(** ** The loop over an upper table *)

Record clone_inv s r p dst (i : Z) s' : Prop := {
  ci_cloned : cloned s s' r p;
  ci_todo : forall q t j k, i <= k -> (p ++ [k]) `prefix_of` q -> user_path q -> length q = 3%nat -> tab s r q = Some t ->
    word s' t j = word s t j;
  ci_copy : exists F, F dst /\ copy_of s s' r p dst F;
  ci_zero : forall k, i <= k < 512 -> word s' dst k = 0;
}.

Lemma cloned_refl s r p : as_ok s r -> cloned s s r p.
Proof. intros Has. split; try done. intros q t j _ _ _ _. by left. Qed.

Lemma clone_inv_start s s1 r p src f : as_ok s r -> user_path p -> (length p < 3)%nat -> tab s r p = Some src ->
  vmm_alloc_frame s = (f, s1) -> f <> 0 -> clone_inv s r p (phys_to_virt s1 f) 0 s1 /\ phys_to_virt s1 f <> 0 /\ phys_to_virt s1 f mod PT_PAGE = 0.
Proof.
  intros Has Hp Hlen Ht Ea Hf. destruct (clone_alloc s f s1 r p Has Ea) as (C1 & Hm1 & Hd). destruct (Hd Hf) as (Hd0 & Hda & Hdt & Hdl & Hdm).
  set (d := phys_to_virt s1 f) in *. split; [|done].
  assert (forall q u, user_path (p ++ q) -> tab s1 d q = Some u -> q = [] /\ u = d) as Htab.
  { intros [|k q] u Hq Hu; [by injection Hu as <-|]. cbn [tab] in Hu. rewrite zero_table_word in Hu; [done | done |].
    destruct Hq as (_ & Hq & _). apply Forall_app in Hq as [_ Hq]. by inversion Hq. }
  split; [done | | |].
  - intros q t j k _ _ Hq _ Htq. unfold word. rewrite Hm1; [done|]. left. by apply (as_live _ _ Has q).
  - exists (fun u => u = d). split; [done|]. split.
    + by intros u ->.
    + intros q u Hq Hu. destruct (Htab q u Hq Hu) as [-> ->]. rewrite app_nil_r. split_and!; [done | by apply zero_table_shape | by exists src].
    + intros q q' u Hq Hq' Hu Hu'. destruct (Htab q u Hq Hu) as [-> _]. by destruct (Htab q' u Hq' Hu') as [-> _].
    + intros q u i Hq Hu. rewrite app_assoc in Hq. destruct (Htab q u (user_path_app _ _ Hq) Hu) as [-> ->].
      rewrite zero_table_word; [done | done |]. by apply user_path_last in Hq.
    + intros q u t i Hq Hl3 Hu. destruct (Htab q u Hq Hu) as [-> _]. rewrite app_nil_r in Hl3. lia.
  - intros k Hk. by apply zero_table_word.
Qed.

Section step.
Context s r p (dst i w : Z) (s1 s2 : vmm H) (child : Z).
Context (Has : as_ok s r) (Hp : user_path p) (Hpi : user_path (p ++ [i])).
Context (Hinv : clone_inv s r p dst i s1) (C2 : cloned s1 s2 r (p ++ [i])).
Context (Hchild : (child = 0 /\ w = 0) \/
  (child <> 0 /\ has_present w = true /\ entry_table s2 w = child /\ has w VMM_HUGE = false /\
   exists F, copy_of s1 s2 r (p ++ [i]) child F)).

Lemma step_index : is_index i.
Proof using Hpi. by apply user_path_last in Hpi. Qed.

(** Fresh frames are no tables of the original. *)
Lemma step_mem u : heap_live (v_heap s1) u PT_PAGE -> ~ taken s u -> v_mem s2 !! u = v_mem s1 !! u.
Proof using Has Hinv C2.
  intros Hl Hn. apply (cl_mem _ _ _ _ C2); [by left|]. intros q Hq _ _ Hu. apply Hn. left.
  rewrite (cl_tab _ _ _ _ (ci_cloned _ _ _ _ _ _ Hinv)) in Hu by done. by apply (as_live _ _ Has q).
Qed.

Let s3 := set_word dst i w s2.

Lemma step_cloned F : copy_of s s1 r p dst F -> F dst -> cloned s s3 r p.
Proof using Has Hinv C2.
  intros Hc Fd. apply (cloned_fresh_table s s2 s3 r p dst); try done.
  - eapply cloned_trans; [|apply Hinv | exact C2]. by exists [i].
  - by apply (cp_fresh _ _ _ _ _ _ Hc).
  - intros u Hu. cbn. by rewrite lookup_insert_ne.
Qed.

Lemma step_dst F : copy_of s s1 r p dst F -> F dst ->
  table_shape s2 dst /\ forall u j, is_index j -> word s3 u j =
    if decide (u = dst /\ j = i) then w else word s2 u j.
Proof using Has Hinv C2 Hpi Hp.
  intros Hc Fd. destruct (cp_fresh _ _ _ _ _ _ Hc dst Fd) as [Hl Hn].
  assert (table_shape s2 dst) as Hsh.
  { unfold table_shape. rewrite step_mem by done. apply (cp_tab _ _ _ _ _ _ Hc []); [by rewrite app_nil_r | done]. }
  split; [done|]. intros u j Hj. apply word_set; [done | apply step_index | done].
Qed.

(** The part of the copy that was there before. *)
Lemma step_old F q : copy_of s s1 r p dst F -> F dst -> user_path (p ++ q) -> head q <> Some i -> tab s3 dst q = tab s1 dst q.
Proof using Has Hinv C2 Hpi Hp.
  intros Hc Fd Hq Hh. destruct (step_dst F Hc Fd) as [Hsh Hw].
  apply tab_walk_eq; [unfold s3; cbn; rewrite (cl_hhdm _ _ _ _ C2); done|]. intros a j b u -> Hu.
  assert (user_path (p ++ a)) as Ha by (rewrite app_assoc in Hq; by apply user_path_app in Hq).
  assert (is_index j) as Hj.
  { destruct Hq as (_ & Hf & _). apply Forall_app in Hf as [_ Hf]. apply Forall_app in Hf as [_ Hf]. by inversion Hf. }
  rewrite Hw by done. rewrite decide_False.
  - destruct (cp_tab _ _ _ _ _ _ Hc a u Ha Hu) as (Fu & _). destruct (cp_fresh _ _ _ _ _ _ Hc u Fu). unfold word. by rewrite step_mem.
  - intros [-> ->]. apply Hh. rewrite (cp_inj _ _ _ _ _ _ Hc a [] dst Ha) by (rewrite ?app_nil_r; done). done.
Qed.

(** The part of the copy that was made in this round. *)
Lemma step_none F q : copy_of s s1 r p dst F -> F dst -> w = 0 -> tab s3 dst (i :: q) = None.
Proof using Has Hinv C2 Hpi Hp.
  intros Hc Fd Hw0. cbn [tab]. destruct (step_dst F Hc Fd) as [_ Hw]. rewrite Hw, decide_True by (done || apply step_index). by rewrite Hw0.
Qed.
Lemma step_new F G q : copy_of s s1 r p dst F -> F dst -> copy_of s1 s2 r (p ++ [i]) child G ->
  has_present w = true -> entry_table s2 w = child -> user_path (p ++ [i] ++ q) -> tab s3 dst (i :: q) = tab s2 child q.
Proof using Has Hinv C2 Hpi Hp.
  intros Hc Fd Hg Hw He Hq. cbn [tab]. destruct (step_dst F Hc Fd) as [_ Hww]. rewrite Hww, decide_True by (done || apply step_index).
  rewrite Hw. replace (entry_table s3 w) with child by (rewrite <- He; done). apply tab_walk_eq; [done|]. intros a j b u -> Hu.
  rewrite app_assoc in Hq. assert (user_path ((p ++ [i]) ++ a)) as Ha by (rewrite app_assoc in Hq; by apply user_path_app in Hq).
  rewrite Hww.
  - rewrite decide_False; [done|]. intros [-> _]. destruct (cp_tab _ _ _ _ _ _ Hg a dst Ha Hu) as (Gd & _).
    destruct (cp_fresh _ _ _ _ _ _ Hg dst Gd) as [_ Hn]. apply Hn. left. by apply (cp_fresh _ _ _ _ _ _ Hc).
  - destruct Hq as (_ & Hf & _). apply Forall_app in Hf as [_ Hf]. apply Forall_app in Hf as [_ Hf]. by inversion Hf.
Qed.

(** Tables of the copy that are kept, with their words. *)
Lemma step_old_word F q u j : copy_of s s1 r p dst F -> F dst -> user_path (p ++ q) -> tab s1 dst q = Some u -> is_index j ->
  ~ (q = [] /\ j = i) -> word s3 u j = word s1 u j.
Proof using Has Hinv C2 Hpi Hp.
  intros Hc Fd Hq Hu Hj Hn. destruct (step_dst F Hc Fd) as [_ Hw]. rewrite Hw by done. rewrite decide_False.
  - destruct (cp_tab _ _ _ _ _ _ Hc q u Hq Hu) as (Fu & _). destruct (cp_fresh _ _ _ _ _ _ Hc u Fu). unfold word. by rewrite step_mem.
  - intros [-> ->]. apply Hn. split; [|done]. apply (cp_inj _ _ _ _ _ _ Hc q [] dst); rewrite ?app_nil_r; done.
Qed.
Lemma step_old_shape F q u : copy_of s s1 r p dst F -> F dst -> user_path (p ++ q) -> tab s1 dst q = Some u -> table_shape s3 u.
Proof using Has Hinv C2 Hpi Hp.
  intros Hc Fd Hq Hu. destruct (step_dst F Hc Fd) as [Hsh _]. apply shape_set; [done|].
  destruct (cp_tab _ _ _ _ _ _ Hc q u Hq Hu) as (Fu & Hs & _). destruct (cp_fresh _ _ _ _ _ _ Hc u Fu). unfold table_shape. by rewrite step_mem.
Qed.

(** Where a table of the new copy comes from. *)
Lemma step_cases F q u : copy_of s s1 r p dst F -> F dst -> user_path (p ++ q) -> tab s3 dst q = Some u ->
  (head q <> Some i /\ tab s1 dst q = Some u) \/
  (exists q', q = i :: q' /\ child <> 0 /\ user_path ((p ++ [i]) ++ q') /\ tab s2 child q' = Some u).
Proof using Has Hinv C2 Hpi Hp Hchild.
  intros Hc Fd Hq Hu. destruct (decide (head q = Some i)) as [Hh|Hh].
  - right. destruct q as [|k q']; [done|]. injection Hh as ->. exists q'.
    destruct Hchild as [[-> Hw0]|(Hc0 & Hw1 & He & _ & G & Hg)]; [by rewrite (step_none F) in Hu|].
    rewrite (step_new F G) in Hu by done. rewrite <- app_assoc. done.
  - left. by rewrite (step_old F) in Hu.
Qed.

Lemma step_copy F : (length p < 3)%nat -> copy_of s s1 r p dst F -> F dst -> exists F', F' dst /\ copy_of s s3 r p dst F'.
Proof using Has Hinv C2 Hpi Hp Hchild.
  intros Hlen Hc Fd. pose proof (ci_cloned _ _ _ _ _ _ Hinv) as C1.
  assert (exists G, child <> 0 -> copy_of s1 s2 r (p ++ [i]) child G) as [G Hg].
  { destruct Hchild as [[-> _]|(_ & _ & _ & _ & G & Hg)]; [by exists (fun _ => True) | by exists G]. }
  assert (forall u, ~ taken s1 u -> ~ taken s u) as Hnt by (intros u Hn Ht; by apply Hn, (cloned_taken s s1 r p)).
  destruct (step_dst F Hc Fd) as [Hsh Hw].
  assert (forall q u j, child <> 0 -> user_path ((p ++ [i]) ++ q) -> tab s2 child q = Some u -> is_index j -> u <> dst /\ word s3 u j = word s2 u j) as Hnw.
  { intros q u j Hc0 Hq Hu Hj. destruct (cp_tab _ _ _ _ _ _ (Hg Hc0) q u Hq Hu) as (Gu & _).
    assert (u <> dst) as Hud.
    { intros ->. destruct (cp_fresh _ _ _ _ _ _ (Hg Hc0) dst Gu) as [_ Hn]. apply Hn. left. by apply (cp_fresh _ _ _ _ _ _ Hc). }
    split; [done|]. rewrite Hw, decide_False by (done || tauto). done. }
  exists (fun u => F u \/ (child <> 0 /\ G u)). split; [by left|]. split.
  - intros u [Fu|[Hc0 Gu]].
    + destruct (cp_fresh _ _ _ _ _ _ Hc u Fu). split; [|done]. by apply C2.
    + destruct (cp_fresh _ _ _ _ _ _ (Hg Hc0) u Gu). split; [done | by apply Hnt].
  - intros q u Hq Hu. destruct (step_cases F q u Hc Fd Hq Hu) as [[_ Ho]|(q' & -> & Hc0 & Hq' & Hu')].
    + destruct (cp_tab _ _ _ _ _ _ Hc q u Hq Ho) as (? & _ & ?). split_and!; [by left | by eapply step_old_shape | done].
    + destruct (cp_tab _ _ _ _ _ _ (Hg Hc0) q' u Hq' Hu') as (? & ? & Hs). rewrite <- app_assoc in Hs.
      rewrite (cl_tab _ _ _ _ C1) in Hs by (by rewrite <- app_assoc in Hq'). split_and!; [by right | by apply shape_set | exact Hs].
  - intros q q' u Hq Hq' Hu Hu'.
    destruct (step_cases F q u Hc Fd Hq Hu) as [[_ Ho]|(a & -> & Hc0 & Ha & Hua)], (step_cases F q' u Hc Fd Hq' Hu') as [[_ Ho']|(a' & -> & Hc0' & Ha' & Hua')].
    + by apply (cp_inj _ _ _ _ _ _ Hc q q' u).
    + destruct (cp_tab _ _ _ _ _ _ Hc q u Hq Ho) as (Fu & _), (cp_tab _ _ _ _ _ _ (Hg Hc0') a' u Ha' Hua') as (Gu & _).
      destruct (cp_fresh _ _ _ _ _ _ (Hg Hc0') u Gu) as [_ []]. left. by apply (cp_fresh _ _ _ _ _ _ Hc).
    + destruct (cp_tab _ _ _ _ _ _ Hc q' u Hq' Ho') as (Fu & _), (cp_tab _ _ _ _ _ _ (Hg Hc0) a u Ha Hua) as (Gu & _).
      destruct (cp_fresh _ _ _ _ _ _ (Hg Hc0) u Gu) as [_ []]. left. by apply (cp_fresh _ _ _ _ _ _ Hc).
    + f_equal. by apply (cp_inj _ _ _ _ _ _ (Hg Hc0) a a' u).
  - intros q u j Hqj Hu. rewrite app_assoc in Hqj. pose proof (user_path_app _ _ Hqj) as Hq. pose proof (user_path_last _ _ Hqj) as Hj.
    destruct (step_cases F q u Hc Fd Hq Hu) as [[_ Ho]|(a & -> & Hc0 & Ha & Hua)].
    + destruct (decide (q = [] /\ j = i)) as [[-> ->]|Hne].
      * injection Ho as <-. rewrite Hw, decide_True by done. by destruct Hchild as [[_ ->]|(_ & _ & _ & ? & _)].
      * rewrite (step_old_word F q) by done. apply (cp_small _ _ _ _ _ _ Hc q); [by rewrite app_assoc | done].
    + destruct (Hnw a u j Hc0 Ha Hua Hj) as [_ ->]. apply (cp_small _ _ _ _ _ _ (Hg Hc0) a); [|done].
      by rewrite <- !app_assoc in *.
  - intros q u t j Hq Hl3 Hu Ht Hj. destruct (step_cases F q u Hc Fd Hq Hu) as [[Hh Ho]|(a & -> & Hc0 & Ha & Hua)].
    + rewrite (step_old_word F q) by (done || (intros [-> _]; rewrite app_nil_r in Hl3; lia)).
      assert (word s3 t j = word s1 t j) as ->; [|by apply (cp_leaf _ _ _ _ _ _ Hc q)]. rewrite Hw by done.
      rewrite decide_False by (intros [-> _]; apply (cp_fresh _ _ _ _ _ _ Hc dst Fd); left; by apply (as_live _ _ Has (p ++ q))).
      destruct (cl_word _ _ _ _ C2 (p ++ q) t j) as [|[[b E] _]]; try done; [by rewrite (cl_tab _ _ _ _ C1)|].
      rewrite <- app_assoc in E. apply app_inv_head in E. by rewrite E in Hh.
    + destruct (Hnw a u j Hc0 Ha Hua Hj) as [_ ->]. rewrite <- app_assoc in Ha. rewrite Hw by done.
      rewrite decide_False by (intros [-> _]; apply (cp_fresh _ _ _ _ _ _ Hc dst Fd); left; by apply (as_live _ _ Has (p ++ i :: a))).
      rewrite <- (ci_todo _ _ _ _ _ _ Hinv (p ++ i :: a) t j i); try done; [|exists a; by rewrite <- app_assoc].
      apply (cp_leaf _ _ _ _ _ _ (Hg Hc0) a u t j); try done; rewrite <- app_assoc; try done.
      rewrite (cl_tab _ _ _ _ C1) by done. done.
Qed.

Lemma step_inv : (length p < 3)%nat -> clone_inv s r p dst (i + 1) s3.
Proof using Has Hinv C2 Hpi Hp Hchild.
  intros Hlen. destruct (ci_copy _ _ _ _ _ _ Hinv) as (F & Fd & Hc). destruct (step_dst F Hc Fd) as [_ Hw].
  pose proof (ci_cloned _ _ _ _ _ _ Hinv) as C1. destruct (cp_fresh _ _ _ _ _ _ Hc dst Fd) as [Hdl Hdn]. split.
  - by apply (step_cloned F).
  - intros q t j k Hk Hpre Hq Hl3 Ht. rewrite <- (ci_todo _ _ _ _ _ _ Hinv q t j k) by (done || lia).
    assert (heap_live (v_heap s) t PT_PAGE) as Htl by (by apply (as_live _ _ Has q)).
    assert (v_mem s3 !! t = v_mem s1 !! t) as Em; [|unfold word; by rewrite Em].
    unfold s3. cbn. rewrite lookup_insert_ne by (intros ->; apply Hdn; by left).
    apply (cl_mem _ _ _ _ C2); [left; by apply C1|]. intros q' Hq' _ Hpre'. rewrite (cl_tab _ _ _ _ C1) by done. intros Ht'.
    assert (q' = q) as -> by exact (pk_inj _ _ (as_pt _ _ Has) q' q t Hq' Hq Ht' Ht).
    destruct Hpre as [a ->], Hpre' as [b E]. rewrite <- !app_assoc in E. apply app_inv_head in E. cbn in E. injection E as E _. lia.
  - by apply (step_copy F).
  - intros k Hk. pose proof step_index as Hi. unfold is_index in Hi. rewrite Hw, decide_False by (unfold is_index; lia).
    unfold word. rewrite step_mem by done. apply (ci_zero _ _ _ _ _ _ Hinv). lia.
Qed.
End step.

(** One round of the loop: the entry of the original decides. *)
Definition upper_body (below : nat) (src dst i : Z) (s : vmm H) : vmm H :=
  if negb (has_present (word s src i)) then set_word dst i 0 s
  else
    let '(child, s) := vmm_clone_table below (entry_table s (word s src i)) s in
    if child =? 0 then set_word dst i 0 s
    else set_word dst i (Z.lor (virt_to_phys s child) (Z.land (word s src i) PTE_FLAGS_MASK)) s.

Lemma flags_entry s w v : vm_ok s -> heap_live (v_heap s) v PT_PAGE -> v mod PT_PAGE = 0 -> has_present w = true -> has w VMM_HUGE = false ->
  let e := Z.lor (virt_to_phys s v) (Z.land w PTE_FLAGS_MASK) in
  has_present e = true /\ entry_table s e = v /\ has e VMM_HUGE = false.
Proof.
  intros Hvm Hl Hal Hp Hh e. destruct (frame_address s v Hvm Hl Hal) as (_ & Hr & _ & Hpv & Hm). set (f := virt_to_phys s v) in *.
  assert (forall k, 0 <= k < 12 -> Z.testbit f k = false) as Hlow.
  { intros k Hk. rewrite <- Hm, Z.land_spec, mask_testbit, bool_decide_false, andb_false_r by lia. done. }
  assert (forall k, 0 <= k < 12 -> Z.testbit e k = Z.testbit w k) as He.
  { intros k Hk. unfold e. rewrite Z.lor_spec, Hlow, Z.land_spec by done. cbn [orb]. unfold PTE_FLAGS_MASK, u64.
    rewrite Z.mod_pow2_bits_low, Z.lnot_spec, mask_testbit, bool_decide_false by lia. apply andb_true_r. }
  split_and!.
  - rewrite has_present_odd, He, <- has_present_odd by lia. done.
  - unfold entry_table, e. rewrite mask_flags; [by rewrite Hm|]. by rewrite <- Z.land_assoc, Z.land_0_r.
  - unfold VMM_HUGE in *. rewrite has_bit in * by lia. rewrite He by lia. done.
Qed.

Lemma upper_step s r p src dst below i s1 : as_ok s r -> user_path p -> (length p < 3)%nat -> tab s r p = Some src -> user_path (p ++ [i]) ->
  (forall s t d s', as_ok s r -> tab s r (p ++ [i]) = Some t -> vmm_clone_table below t s = (d, s') -> clone_result s s' r (p ++ [i]) d) ->
  clone_inv s r p dst i s1 -> clone_inv s r p dst (i + 1) (upper_body below src dst i s1).
Proof.
  intros Has Hp Hlen Ht Hpi IH Hinv. pose proof (ci_cloned _ _ _ _ _ _ Hinv) as C1. pose proof (cl_as _ _ _ _ C1) as Has1.
  assert (tab s1 r p = Some src) as Ht1 by (by rewrite (cl_tab _ _ _ _ C1)).
  unfold upper_body. destruct (has_present (word s1 src i)) eqn:Ep; cbn [negb]; cycle 1.
  { apply (step_inv s r p dst i 0 s1 s1 0); try done; [by apply cloned_refl | by left]. }
  assert (tab s1 r (p ++ [i]) = Some (entry_table s1 (word s1 src i))) as Hti by (rewrite tab_snoc, Ht1; cbn zeta; by rewrite Ep).
  destruct (vmm_clone_table below _ s1) as [child s2] eqn:Ec. destruct (IH _ _ _ _ Has1 Hti Ec) as [C2 Hc].
  assert (word s2 src i = word s1 src i) as Hw.
  { unfold word. rewrite (cl_mem _ _ _ _ C2); [done | left; by apply (as_live _ _ Has1 p) |]. intros q Hq Hl3 _ Hq'.
    rewrite (pk_inj _ _ (as_pt _ _ Has1) q p src Hq Hp Hq' Ht1) in Hl3. lia. }
  destruct (Z.eqb_spec child 0) as [E0|Hne].
  - apply (step_inv s r p dst i 0 s1 s2 0); try done. by left.
  - destruct Hc as [?|(_ & Hal & F & Fd & Hg)]; [done|]. rewrite Hw.
    destruct (cp_fresh _ _ _ _ _ _ Hg child Fd) as [Hl _].
    destruct (flags_entry s2 (word s1 src i) child) as (E1 & E2 & E3); try done.
    + apply C2.
    + by apply (pk_small s1 r (as_pt _ _ Has1) p).
    + apply (step_inv s r p dst i _ s1 s2 child); try done. right. split_and!; try done. by exists F.
Qed.

Lemma upper_loop s r p src dst below s1 lim : as_ok s r -> user_path p -> (length p < 3)%nat -> tab s r p = Some src ->
  (forall i, 0 <= i < lim -> user_path (p ++ [i])) -> 0 <= lim ->
  (forall i, 0 <= i < lim -> forall s t d s', as_ok s r -> tab s r (p ++ [i]) = Some t -> vmm_clone_table below t s = (d, s') ->
     clone_result s s' r (p ++ [i]) d) ->
  clone_inv s r p dst 0 s1 -> clone_inv s r p dst lim (zfor (Z.to_nat lim) 0 (upper_body below src dst) s1).
Proof.
  intros Has Hp Hlen Ht Hpi Hlim IH Hinv. pose proof (zfor_ind (fun i s' => clone_inv s r p dst i s') (upper_body below src dst) (Z.to_nat lim) 0 s1 Hinv) as Hz.
  rewrite Z.add_0_l, Z2Nat.id in Hz by lia. apply Hz. intros j b Hj Hb. apply upper_step; try done; [by apply Hpi | by apply IH].
Qed.

Lemma clone_level n s r p src dst s' : (n < 3)%nat -> as_ok s r -> user_path p -> (length p + S n = 4)%nat -> tab s r p = Some src ->
  vmm_clone_table (S n) src s = (dst, s') -> clone_result s s' r p dst.
Proof.
  revert s p src dst s'. induction n as [|n IH]; intros s p src dst s' Hn Has Hp Hl Ht Hs.
  { apply (clone_level1 s r p src); try done. lia. }
  change (vmm_clone_table (S (S n)) src s) with
    (let '(f, s1) := vmm_alloc_frame s in if f =? 0 then (0, s1) else
     let s2 := zfor (if Nat.eqb (S (S n)) 4 then 256%nat else 512%nat) 0 (upper_body (S n) src (phys_to_virt s1 f)) s1 in
     (phys_to_virt s1 f, if Nat.eqb (S (S n)) 4
        then zfor 256 256 (fun i s => set_word (phys_to_virt s1 f) i (word s (kernel_pml4 s) i) s) s2 else s2)) in Hs.
  replace (Nat.eqb (S (S n)) 4) with false in Hs by (symmetry; apply Nat.eqb_neq; lia).
  destruct (vmm_alloc_frame s) as [f s1] eqn:Ea. destruct (Z.eqb_spec f 0) as [->|Hf].
  { injection Hs as <- <-. split; [by apply (clone_alloc s 0 s1) | by left]. }
  destruct (clone_inv_start s s1 r p src f Has Hp ltac:(lia) Ht Ea Hf) as (Hinv & Hd0 & Hda).
  cbn zeta in Hs. apply pair_eq in Hs as [<- <-].
  assert (forall i, 0 <= i < 512 -> user_path (p ++ [i])) as Hpi.
  { intros i Hi. destruct Hp as (H1 & H2 & H3). split; [rewrite length_app; cbn; lia|]. split.
    - apply Forall_app. split; [done|]. constructor; [unfold is_index; lia | constructor].
    - destruct p; [cbn in Hl; lia | done]. }
  pose proof (upper_loop s r p src (phys_to_virt s1 f) (S n) s1 512 Has Hp ltac:(lia) Ht Hpi ltac:(lia)) as Hloop.
  destruct Hloop as [C1 _ (F & Fd & Hc) _]; [|done|].
  - intros i Hi s0 t d s0' Has0 Ht0 Hs0. apply (IH s0 (p ++ [i]) t d s0'); try done; [lia | by apply Hpi | rewrite length_app; cbn; lia].
  - split; [exact C1|]. right. split; [done|]. split; [done|]. by exists F.
Qed.

(** The kernel half of the new top-level table is filled in last. *)
Lemma kernel_copy s r v lim s1 K F : copy_of s s1 r [] v F -> F v -> cloned s s1 r [] -> as_ok s r -> taken s K -> kernel_pml4 s1 = K ->
  v_mem s1 !! K = v_mem s !! K -> lim = 256%nat ->
  let s2 := zfor lim 256 (fun i s => set_word v i (word s (kernel_pml4 s) i) s) s1 in
  copy_of s s2 r [] v F /\ cloned s s2 r [] /\ (forall i, 256 <= i < 512 -> word s2 v i = word s K i).
Proof.
  intros Hc Fv C1 Has HK Ek Em -> s2. assert (user_path []) as Hnil by (split; [cbn; lia|]; split; [constructor | done]).
  destruct (cp_fresh _ _ _ _ _ _ Hc v Fv) as [Hvl Hvn]. assert (K <> v) as HKv by (intros ->; done).
  destruct (cp_tab _ _ _ _ _ _ Hc [] v Hnil eq_refl) as (_ & Hsh & _).
  assert (s2 = zfor 256 256 (fun i s0 => set_word v i (word s K i) s0) s1) as E2.
  { apply (zfor_ext _ _ _ _ (fun s0 => kernel_pml4 s0 = K /\ v_mem s0 !! K = v_mem s !! K)); [done|]. intros j s0 _ [P1 P2].
    split; [unfold word; by rewrite P1, P2|]. split; [done|]. cbn. by rewrite lookup_insert_ne. }
  destruct (fill_loop v (fun i => word s K i) 256 256 s1 Hsh ltac:(lia) ltac:(lia)) as [O W]. rewrite <- E2 in O, W. clearbody s2. clear E2.
  assert (forall q, user_path q -> tab s2 v q = tab s1 v q) as Ht.
  { intros q Hq. apply tab_walk_eq; [apply O|]. intros a j b u -> Hu. destruct (decide (u = v)) as [->|Hne].
    - assert (a = []) as -> by (apply (cp_inj _ _ _ _ _ _ Hc a [] v); try done; by apply user_path_app in Hq).
      destruct Hq as (_ & Hf & Hlt). inversion Hf. cbn in Hlt. rewrite W, decide_False by (done || lia). done.
    - unfold word. by rewrite (ot_mem _ _ _ O). }
  assert (forall q u j, user_path (q ++ [j]) -> tab s1 v q = Some u -> word s2 u j = word s1 u j) as Hw.
  { intros q u j Hq Hu. destruct (decide (u = v)) as [->|Hne]; [|unfold word; by rewrite (ot_mem _ _ _ O)].
    assert (q = []) as -> by (apply (cp_inj _ _ _ _ _ _ Hc q [] v); try done; by apply user_path_app in Hq).
    pose proof (user_path_last _ _ Hq). destruct Hq as (_ & _ & Hlt). cbn in Hlt. rewrite W, decide_False by (done || lia). done. }
  split_and!.
  - split.
    + intros u Fu. rewrite (ot_heap _ _ _ O). by apply Hc.
    + intros q u Hq. rewrite Ht by done. intros Hu. destruct (cp_tab _ _ _ _ _ _ Hc q u Hq Hu) as (? & ? & ?). split_and!; try done.
      destruct (decide (u = v)) as [->|Hne]; [apply O|]. unfold table_shape. by rewrite (ot_mem _ _ _ O).
    + intros q q' u Hq Hq'. rewrite !Ht by done. by apply Hc.
    + intros q u i Hq. cbn [app] in Hq. rewrite Ht by (by apply user_path_app in Hq). intros Hu. rewrite (Hw q) by done. by apply (cp_small _ _ _ _ _ _ Hc q).
    + intros q u t i Hq Hl3. rewrite Ht by done. intros Hu Htt Hi. destruct (cp_leaf _ _ _ _ _ _ Hc q u t i Hq Hl3 Hu Htt Hi) as [<- <-].
      assert (u <> v) by (intros ->; rewrite (cp_inj _ _ _ _ _ _ Hc q [] v) in Hl3; done).
      assert (t <> v) by (intros ->; apply Hvn; left; by apply (as_live _ _ Has q)). unfold word. by rewrite !(ot_mem _ _ _ O).
  - apply (cloned_fresh_table s s1 s2 r [] v); try done; apply O.
  - intros i Hi. rewrite W, decide_True by (unfold is_index; lia). done.
Qed.

Lemma clone_top s r v s' : as_ok s r -> taken s (kernel_pml4 s) ->
  (forall q, user_path q -> tab s r q <> Some (kernel_pml4 s)) -> vmm_clone_table 4 r s = (v, s') -> v <> 0 ->
  cloned s s' r [] /\ (exists F, F v /\ copy_of s s' r [] v F) /\ (forall i, 256 <= i < 512 -> word s' v i = word s (kernel_pml4 s) i).
Proof.
  intros Has Hk Hkt Hs Hv. change (vmm_clone_table 4 r s) with
    (let '(f, s1) := vmm_alloc_frame s in if f =? 0 then (0, s1) else
     (phys_to_virt s1 f, zfor 256 256 (fun i s => set_word (phys_to_virt s1 f) i (word s (kernel_pml4 s) i) s)
        (zfor 256 0 (upper_body 3 r (phys_to_virt s1 f)) s1))) in Hs.
  assert (user_path []) as Hnil by (split; [cbn; lia|]; split; [constructor | done]).
  destruct (vmm_alloc_frame s) as [f s1] eqn:Ea. destruct (Z.eqb_spec f 0) as [->|Hf]; [by injection Hs as <- <-|].
  destruct (clone_inv_start s s1 r [] r f Has Hnil ltac:(cbn; lia) eq_refl Ea Hf) as (Hinv & Hd0 & Hda).
  apply pair_eq in Hs as [Ev <-]. rewrite Ev in *.
  assert (forall i, 0 <= i < 256 -> user_path ([] ++ [i])) as Hpi.
  { intros i Hi. split; [cbn; lia|]. split; [|cbn; lia]. constructor; [unfold is_index; lia | constructor]. }
  pose proof (upper_loop s r [] r v 3 s1 256 Has Hnil ltac:(cbn; lia) eq_refl Hpi ltac:(lia)) as Hloop.
  change (Z.to_nat 256) with 256%nat in Hloop. set (s2 := zfor 256 0 _ s1) in *. clearbody s2.
  destruct Hloop as [C1 _ (F & Fd & Hc) _]; [|done|].
  - intros i Hi s0 t d s0' Has0 Ht0 Hs0. apply (clone_level 2 s0 r [i] t); try done; [lia | by apply Hpi].
  - destruct (kernel_copy s r v 256 s2 (kernel_pml4 s) F) as (Hc' & C' & Hw); try done; [apply C1 | |].
    + apply (cl_mem _ _ _ _ C1); [done|]. intros q Hq _ _. by apply Hkt.
    + split; [done|]. split; [by exists F | done].
Qed.

Lemma copy_as s s' r v F : cloned s s' r [] -> F v -> copy_of s s' r [] v F -> as_ok s' v.
Proof.
  intros C Fv Hc. split; [apply C|split|].
  - intros q u Hq Hu. by apply (cp_tab _ _ _ _ _ _ Hc q).
  - intros q q' u Hq Hq'. by apply Hc.
  - intros q u i Hq. by apply (cp_small _ _ _ _ _ _ Hc q).
  - intros q u Hq Hu. destruct (cp_tab _ _ _ _ _ _ Hc q u Hq Hu) as (Fu & _). by apply Hc.
Qed.

(** A page for which the copy has a table. *)
Lemma copy_pte s s' r v F va u : copy_of s s' r [] v F -> cloned s s' r [] -> user_va va -> tab s' v (va_path va) = Some u ->
  pte_of s' v va = cow_of <$> pte_of s r va /\ pte_of s' r va = cow_of <$> pte_of s r va.
Proof.
  intros Hc C Hv Hu. pose proof (user_path_va va Hv) as Hp. destruct (cp_tab _ _ _ _ _ _ Hc _ u Hp Hu) as (_ & _ & [t Ht]). cbn [app] in Ht.
  destruct (cp_leaf _ _ _ _ _ _ Hc (va_path va) u t (PT_INDEX va) Hp eq_refl Hu Ht) as [E1 E2]; [apply index_range; lia|].
  unfold pte_of. rewrite (cl_tab _ _ _ _ C), Hu, Ht by done. cbn zeta. rewrite E1, E2. unfold clone_word, source_word.
  destruct (has_present (word s t (PT_INDEX va))) eqn:Ep; [by rewrite cow_present, Ep | by rewrite Ep].
Qed.

(** C13 Cloning an address space: the copy is an address space of its own with
    the kernel's upper half.  A page the copy maps has the same entry in both
    spaces: the one of the original, except that a writable user page that is
    neither device nor shared memory is now copy-on-write.  So no private page
    that user code may access is writable in either; an entry without the user
    bit is copied as it is.  Pages the copy does not map keep
    their frame in the original.  The copy maps every page of the original for
    which it has a last-level table. *)
Theorem vmm_clone_exact s r v s' :
  as_ok s r -> taken s (kernel_pml4 s) -> (forall q, user_path q -> tab s r q <> Some (kernel_pml4 s)) ->
  vmm_clone_address_space r s = (v, s') -> v <> 0 ->
  as_ok s' r /\ as_ok s' v /\
  (forall i, 256 <= i < 512 -> word s' v i = word s (kernel_pml4 s) i) /\
  (forall va, user_va va -> vmm_is_mapped_in r va s' = vmm_is_mapped_in r va s) /\
  (forall va w, user_va va -> pte_of s' v va = Some w ->
     pte_of s' r va = Some w /\ Z.land w PTE_ADDR_MASK = vmm_is_mapped_in r va s /\ private_writable w = false /\
     exists x, pte_of s r va = Some x /\ w = cow_of x) /\
  (forall va, user_va va -> tab s' v (va_path va) <> None -> vmm_is_mapped_in v va s' = vmm_is_mapped_in r va s).
Proof.
  intros Has Hk Hkt Hs Hv. pose proof (root_nonzero s r (as_pt _ _ Has)) as Hr. unfold vmm_clone_address_space in Hs.
  rewrite (proj2 (Z.eqb_neq r 0)) in Hs by done. destruct (vmm_clone_table 4 r s) as [v0 s1] eqn:Ec.
  apply pair_eq in Hs as [-> E]. rewrite (proj2 (Z.eqb_neq v 0)) in E by done. subst s'.
  destruct (clone_top s r v s1 Has Hk Hkt Ec Hv) as (C & (F & Fv & Hc) & Hkw).
  pose proof (copy_as s s1 r v F C Fv Hc) as Hasv. pose proof (cl_as _ _ _ _ C) as Hasr.
  pose proof (emit_as _ _ ShootdownAll Hasv) as Hasv'. pose proof (emit_as _ _ ShootdownAll Hasr) as Hasr'.
  assert (forall x va, pte_of (emit ShootdownAll s1) x va = pte_of s1 x va) as Ep by (intros; by apply pte_ext).
  assert (forall va w, user_va va -> pte_of s1 v va = Some w -> exists u, tab s1 v (va_path va) = Some u) as Htab.
  { intros va w _ Hw. unfold pte_of in Hw. destruct (tab s1 v (va_path va)) as [u|]; [by exists u | done]. }
  split_and!; try done.
  - intros va Hva. rewrite !is_mapped_pte, Ep by (done || apply Hasr' || apply Has). pose proof (user_path_va va Hva) as Hp.
    unfold pte_of. rewrite (cl_tab _ _ _ _ C) by done. destruct (tab s r (va_path va)) as [t|] eqn:Et; [|done]. cbn zeta.
    destruct (cl_word _ _ _ _ C (va_path va) t (PT_INDEX va) Hp eq_refl Et ltac:(apply index_range; lia)) as [->|[_ ->]]; [done|].
    unfold source_word. destruct (has_present (word s t (PT_INDEX va))) eqn:E0; [|by rewrite E0]. by rewrite cow_present, E0, cow_address.
  - intros va w Hva. rewrite !Ep. intros Hw. destruct (Htab va w Hva Hw) as [u Hu].
    destruct (copy_pte s s1 r v F va u Hc C Hva Hu) as [P1 P2]. rewrite P1 in Hw. destruct (pte_of s r va) as [x|] eqn:Ex; [|done].
    injection Hw as <-. rewrite is_mapped_pte, Ex by (done || apply Has). split; [done|]. split; [apply cow_address|]. split; [apply cow_private | by exists x].
  - intros va Hva Ht. rewrite (tab_ext s1 (emit ShootdownAll s1)) in Ht by done. destruct (tab s1 v (va_path va)) as [u|] eqn:Hu; [|done].
    rewrite !is_mapped_pte, Ep by (done || apply Hasv' || apply Has). destruct (copy_pte s s1 r v F va u Hc C Hva Hu) as [-> _].
    destruct (pte_of s r va); [apply cow_address | done].
Qed.
End clone.
