(* ===== verification/Vfs.v ===== *)
(** * The virtual filesystem: state and operations

    src/vfs.c: mount table, open files, path resolution, the listing cache,
    and one entry point per file operation, which finds the filesystem of a
    path and calls its operation.  Filesystems are records of optional
    operations over a state [W] of their own, so that the layer is modelled for
    any of them.  What the layer tells other subsystems (the exec image cache,
    the permission table, inotify), and which handles it passes to a
    filesystem, is recorded in order. *)
From S2P Require Import Prelude Paths Heap.

Definition VFS_MAX_MOUNTPOINTS : Z := 32.
Definition VFS_MAX_OPEN_FILES : Z := 64.
Definition VFS_MAX_PATH : Z := 1024.
Definition VFS_MAX_NAME : Z := 256.
Definition VFS_READDIR_MAX : Z := 2048.
Definition VFS_READDIR_LIMIT : Z := 262144.
Definition VFS_FILE : Z := 1.
Definition VFS_DIRECTORY : Z := 2.
Definition VFS_SYMLOOP_MAX : Z := 40.

Definition IN_ACCESS : Z := 0x1.
Definition IN_MODIFY : Z := 0x2.
Definition IN_ATTRIB : Z := 0x4.
Definition IN_CLOSE_WRITE : Z := 0x8.
Definition IN_CLOSE_NOWRITE : Z := 0x10.
Definition IN_OPEN : Z := 0x20.
Definition IN_CREATE : Z := 0x100.
Definition IN_DELETE : Z := 0x200.
Definition IN_ISDIR : Z := 0x40000000.

(** Which filesystem implementation a mount uses: the identity of its table of
    operations. *)
Inductive fskind := FsFat32 | FsExfat | FsExt4ro | FsExt4 | FsTmpfs | FsOther (n : Z).
#[global] Instance fskind_eq_dec : EqDecision fskind.
Proof. solve_decision. Defined.

(** [vfs_dirent_t]. *)
Record vfs_dirent := mk_vdirent { de_name : cstr; de_inode : Z; de_type : Z; de_lnk : Z; de_size : Z }.

(** [vfs_fs_ops_t]: every operation may be missing.  The first argument is the
    mount's [fs_data]; results come before the new state. *)
Record vfs_fs_ops (W : Type) := mk_ops {
  op_open : option (Z -> cstr -> Z -> W -> Z * W);
  op_close : option (Z -> Z -> W -> Z * W);
  op_read : option (Z -> Z -> Z -> W -> Z * list Z * W);
  op_write : option (Z -> Z -> list Z -> W -> Z * W);
  op_seek : option (Z -> Z -> Z -> Z -> W -> Z * W);
  op_get_size : option (Z -> Z -> W -> Z * W);
  op_readdir : option (Z -> cstr -> Z -> W -> Z * list vfs_dirent * W);
  op_create : option (Z -> cstr -> W -> Z * W);
  op_mkdir : option (Z -> cstr -> W -> Z * W);
  op_unlink : option (Z -> cstr -> W -> Z * W);
  op_exists : option (Z -> cstr -> W -> Z * W);
  op_ioctl : option (Z -> Z -> Z -> Z -> W -> Z * W);
  op_rename : option (Z -> cstr -> cstr -> W -> Z * W);
  op_rmdir : option (Z -> cstr -> W -> Z * W);
  op_truncate : option (Z -> cstr -> Z -> W -> Z * W);
  op_ftruncate : option (Z -> Z -> Z -> W -> Z * W);
  op_sync : option (Z -> W -> Z * W);
  op_stat : option (Z -> cstr -> W -> Z * stat * W);
  op_read_only : option (Z -> W -> Z * W);
  op_readlink : option (Z -> cstr -> Z -> W -> Z * cstr * W);
  op_symlink : option (Z -> cstr -> cstr -> W -> Z * W);
  op_link : option (Z -> cstr -> cstr -> W -> Z * W);
  op_lstat : option (Z -> cstr -> W -> Z * stat * W);
  op_setattr : option (Z -> cstr -> Z -> Z -> Z -> Z -> W -> Z * W);
  op_times : option (Z -> cstr -> Z -> option Z * option Z -> W -> Z * (option Z * option Z) * W);
}.
Arguments op_open {W}. Arguments op_close {W}. Arguments op_read {W}. Arguments op_write {W}. Arguments op_seek {W}.
Arguments op_get_size {W}. Arguments op_readdir {W}. Arguments op_create {W}. Arguments op_mkdir {W}. Arguments op_unlink {W}.
Arguments op_exists {W}. Arguments op_ioctl {W}. Arguments op_rename {W}. Arguments op_rmdir {W}. Arguments op_truncate {W}.
Arguments op_ftruncate {W}. Arguments op_sync {W}. Arguments op_stat {W}. Arguments op_read_only {W}. Arguments op_readlink {W}.
Arguments op_symlink {W}. Arguments op_link {W}. Arguments op_lstat {W}. Arguments op_setattr {W}. Arguments op_times {W}.

(** The FAT32 entry points that src/vfs.c calls directly (src/fat32.c). *)
Record fat32_direct (W : Type) := mk_fat32 {
  fat32_rename : cstr -> cstr -> W -> Z * W;
  fat32_remove_empty_directory : cstr -> W -> Z * W;
  fat32_truncate_to : cstr -> Z -> W -> Z * W;
  fat32_truncate_handle_v : Z -> Z -> W -> Z * W;
}.
Arguments fat32_rename {W}. Arguments fat32_remove_empty_directory {W}. Arguments fat32_truncate_to {W}.
Arguments fat32_truncate_handle_v {W}.

(** [vfs_filesystem_t], [vfs_file_t] (its [fs] pointer is a slot of the mount
    table) and [vfs_dircache_t]. *)
Record vfs_filesystem := mk_fs {
  mount_path : cstr;
  mount_path_len : Z;
  fs_ops : option fskind;
  fs_data : Z;
  mounted : bool;
}.
Record vfs_file := mk_vf { in_use : bool; vf_fs : option Z; fs_handle : Z; vf_flags : Z; vf_path : cstr }.
Record vfs_dircache := mk_dc { dc_key : Z; dc_path : option (Z * cstr); dc_ents : option (Z * list vfs_dirent); dc_total : Z; dc_stamp : Z }.

Definition zero_fs : vfs_filesystem := mk_fs [] 0 None 0 false.
Definition zero_vf : vfs_file := mk_vf false None 0 0 [].
Definition zero_dc : vfs_dircache := mk_dc 0 None None 0 0.
#[global] Instance fs_inhabited : Inhabited vfs_filesystem := populate zero_fs.
#[global] Instance vf_inhabited : Inhabited vfs_file := populate zero_vf.
#[global] Instance dc_inhabited : Inhabited vfs_dircache := populate zero_dc.
#[global] Instance vdirent_inhabited : Inhabited vfs_dirent := populate (mk_vdirent [] 0 0 0 0).

(** What the layer reports, in order. *)
Inductive vnote :=
  | FsOpened (slot handle : Z)
  | FsUsed (slot handle : Z)
  | FsClosed (slot handle : Z)
  | ExecFlush
  | ExecInvalidate (path : cstr)
  | ExecInvalidateTree (path : cstr)
  | PermForgetTree (path : cstr)
  | PermRenameTree (from to : cstr)
  | InotifyEvent (path : cstr) (mask : Z)
  | InotifyRename (from to : cstr) (isdir : bool).

(** [kstrncmp(s1, s2, n) == 0]; a string is followed by its NUL. *)
Fixpoint strncmp_eq (s1 s2 : cstr) (n : nat) {struct n} : bool :=
  match n with
  | O => true
  | S n =>
      match s1, s2 with
      | a :: s1, b :: s2 => if a =? b then strncmp_eq s1 s2 n else false
      | [], [] => true
      | _, _ => false
      end
  end.

Section vfs.
Context {W : Type} `{!KHeap W}.
Context (ops_of : fskind -> vfs_fs_ops W) (fat32 : fat32_direct W).

Record vfs := mk_vfs {
  mount_table : list vfs_filesystem;
  open_files : list vfs_file;
  dircache : list vfs_dircache;
  dircache_clock : Z;
  inotify_active : bool;
  v_world : W;
  v_notes : list vnote;
}.

Definition set_mounts (m : list vfs_filesystem) (s : vfs) : vfs :=
  mk_vfs m (open_files s) (dircache s) (dircache_clock s) (inotify_active s) (v_world s) (v_notes s).
Definition set_files (f : list vfs_file) (s : vfs) : vfs :=
  mk_vfs (mount_table s) f (dircache s) (dircache_clock s) (inotify_active s) (v_world s) (v_notes s).
Definition set_dircache (d : list vfs_dircache) (c : Z) (s : vfs) : vfs :=
  mk_vfs (mount_table s) (open_files s) d c (inotify_active s) (v_world s) (v_notes s).
Definition set_world (w : W) (s : vfs) : vfs :=
  mk_vfs (mount_table s) (open_files s) (dircache s) (dircache_clock s) (inotify_active s) w (v_notes s).
Definition add_note (n : vnote) (s : vfs) : vfs :=
  mk_vfs (mount_table s) (open_files s) (dircache s) (dircache_clock s) (inotify_active s) (v_world s) (v_notes s ++ [n]).

(** ** Effects *)

Definition st (A : Type) : Type := vfs -> A * vfs.
#[global] Instance st_ret : MRet st := fun A a s => (a, s).
#[global] Instance st_bind : MBind st := fun A B f m s => let '(a, s) := m s in f a s.
Definition gets {A} (f : vfs -> A) : st A := fun s => (f s, s).
Definition modify (f : vfs -> vfs) : st unit := fun s => (tt, f s).
Definition note (n : vnote) : st unit := modify (add_note n).
Definition when (b : bool) (m : st unit) : st unit := if b then m else mret tt.
Definition world {A} (f : W -> A * W) : st A := fun s => let '(a, w) := f (v_world s) in (a, set_world w s).
Definition kalloc_v (n : Z) : st Z := world (hp_kalloc n).
Definition kfree_v (p : Z) : st unit := world (fun w => (tt, hp_kfree p w)).

Definition fs_at (s : vfs) (slot : Z) : vfs_filesystem := zget (mount_table s) slot.
Definition file_at (s : vfs) (fd : Z) : vfs_file := zget (open_files s) fd.

(** [fs->ops->sel] of the mount in [slot], applied to its [fs_data]; [none] if
    the filesystem lacks it. *)
Definition fs_op {A B} (sel : vfs_fs_ops W -> option (Z -> A)) (slot : Z) (none : st B) (some : A -> st B) : st B :=
  fun s => match k ← fs_ops (fs_at s slot); sel (ops_of k) with
           | Some op => some (op (fs_data (fs_at s slot))) s
           | None => none s
           end.

Definition vfs_init (active : bool) (w : W) : vfs :=
  mk_vfs (replicate (Z.to_nat VFS_MAX_MOUNTPOINTS) zero_fs) (replicate (Z.to_nat VFS_MAX_OPEN_FILES) zero_vf)
    (replicate 32 zero_dc) 0 active w [].

(** ** Mount table *)

Definition free_mount (s : vfs) : option Z := zfind (Z.to_nat VFS_MAX_MOUNTPOINTS) 0 (fun i => negb (mounted (fs_at s i))).
Definition mount_named (path : cstr) (s : vfs) : option Z :=
  zfind (Z.to_nat VFS_MAX_MOUNTPOINTS) 0 (fun i => mounted (fs_at s i) && bytes_eqb (mount_path (fs_at s i)) path).

(** The path as the table stores it: cut to [VFS_MAX_PATH - 1] bytes, one
    trailing slash removed. *)
Definition mount_name (path : cstr) : cstr :=
  let p := ztake (VFS_MAX_PATH - 1) path in
  if (1 <? zlen p) && (zget p (zlen p - 1) =? 47) then ztake (zlen p - 1) p else p.

Definition vfs_mount (path : option cstr) (ops : option fskind) (data : Z) : st Z :=
  match path, ops with
  | Some path, Some k =>
      if negb (bool_decide (head path = Some 47)) then mret (- EINVAL)
      else
        dup ← gets (mount_named path);
        match dup with
        | Some _ => mret (- EBUSY)
        | None =>
            slot ← gets free_mount;
            match slot with
            | None => mret (- ENOMEM)
            | Some i =>
                let p := mount_name path in
                modify (fun s => set_mounts (zset (mount_table s) i (mk_fs p (zlen p) (Some k) data true)) s);;
                note ExecFlush;;
                mret 0
            end
        end
  | _, _ => mret (- EINVAL)
  end.

Definition vfs_fd_ok (s : vfs) (fd : Z) : bool := negb (fd <? 0) && (fd <? VFS_MAX_OPEN_FILES) && in_use (file_at s fd).

(** An operation of an open file's filesystem on its handle. *)
Definition file_op {A B} (sel : vfs_fs_ops W -> option (Z -> Z -> A)) (vf : vfs_file) (none : st B) (some : A -> st B) : st B :=
  match vf_fs vf with
  | None => none
  | Some slot => fs_op sel slot none (fun op => note (FsUsed slot (fs_handle vf));; some (op (fs_handle vf)))
  end.

Definition vfs_close_locked (fd : Z) : st Z :=
  ok ← gets (fun s => vfs_fd_ok s fd);
  if negb ok then mret (- EBADF)
  else
    vf ← gets (fun s => file_at s fd);
    ret ← match vf_fs vf with
          | None => mret 0
          | Some slot => fs_op op_close slot (mret 0)
                           (fun close => note (FsClosed slot (fs_handle vf));; world (close (fs_handle vf)))
          end;
    modify (fun s => set_files (zset (open_files s) fd (mk_vf false (vf_fs vf) 0 (vf_flags vf) (vf_path vf))) s);;
    mret ret.

(** The loop over the open files of a mount. *)
Fixpoint close_files (n : nat) (j slot : Z) : st unit :=
  match n with
  | O => mret tt
  | S n =>
      b ← gets (fun s => in_use (file_at s j) && bool_decide (vf_fs (file_at s j) = Some slot));
      (if (b : bool) then _ ← vfs_close_locked j; mret tt else mret tt);;
      close_files n (j + 1) slot
  end.

Definition vfs_unmount (path : option cstr) : st Z :=
  match path with
  | None => mret (- EINVAL)
  | Some path =>
      m ← gets (mount_named path);
      match m with
      | None => mret (- ENOENT)
      | Some i =>
          close_files (Z.to_nat VFS_MAX_OPEN_FILES) 0 i;;
          modify (fun s => let f := fs_at s i in
            set_mounts (zset (mount_table s) i (mk_fs (mount_path f) (mount_path_len f) (fs_ops f) (fs_data f) false)) s);;
          note ExecFlush;;
          mret 0
      end
  end.

(** One step of the search: the best mount so far and its length. *)
Definition better_mount (path : cstr) (s : vfs) (i : Z) (best : option Z * Z) : option Z * Z :=
  let fs := fs_at s i in
  if negb (mounted fs) then best
  else
    let mlen := mount_path_len fs in
    if (mlen =? 1) && bool_decide (head (mount_path fs) = Some 47)
    then (if best.2 <? 1 then (Some i, 1) else best)
    else if strncmp_eq path (mount_path fs) (Z.to_nat mlen) then
      let after := if mlen <? zlen path then zget path mlen else 0 in
      if ((after =? 47) || (after =? 0)) && (best.2 <? mlen) then (Some i, mlen) else best
    else best.

Definition vfs_find_mount (path : option cstr) (s : vfs) : option (Z * cstr) :=
  match path with
  | None => None
  | Some path =>
      if negb (bool_decide (head path = Some 47)) then None
      else
        let '(best, best_len) := zfor (Z.to_nat VFS_MAX_MOUNTPOINTS) 0 (better_mount path s) (None, 0) in
        match best with
        | None => None
        | Some i =>
            let rel := zdrop best_len path in
            Some (i, if bool_decide (head rel = Some 47) then tail rel else rel)
        end
  end.

Definition VFS_MAGIC_MSDOS : Z := 0x4d44.
Definition VFS_MAGIC_EXFAT : Z := 0x2011BAB0.
Definition VFS_MAGIC_EXT4 : Z := 0xEF53.
Definition VFS_MAGIC_TMPFS : Z := 0x01021994.

(** The result, and [*dev] and [*magic]. *)
Definition vfs_mount_info (path : option cstr) (s : vfs) : Z * option (Z * Z) :=
  match vfs_find_mount path s with
  | None => (- ENOENT, None)
  | Some (slot, _) =>
      let '(mg, disk) := match fs_ops (fs_at s slot) with
                         | Some FsFat32 => (VFS_MAGIC_MSDOS, true)
                         | Some FsExfat => (VFS_MAGIC_EXFAT, true)
                         | Some FsExt4ro | Some FsExt4 => (VFS_MAGIC_EXT4, true)
                         | _ => (VFS_MAGIC_TMPFS, false)
                         end in
      (s32 (mount_path_len (fs_at s slot)), Some (if (disk : bool) then Z.lor (Z.shiftl 8 8) (slot + 1) else 0x20 + slot, mg))
  end.

(** ** Files *)

Definition vfs_fs_ro (slot : Z) : st bool :=
  fs_op op_read_only slot (mret false) (fun ro => r ← world ro; mret (negb (r =? 0))).
Definition vfs_fs_has (slot : Z) (rel : cstr) : st bool :=
  fs_op op_exists slot (mret false) (fun ex => r ← world (ex rel); mret (negb (r =? 0))).
Definition vfs_isdir_locked (slot : Z) (rel : cstr) : st bool :=
  active ← gets inotify_active;
  if negb active then mret false
  else fs_op op_stat slot (mret false)
         (fun f => r ← world (f rel); mret ((r.1 =? 0) && (Z.land (st_mode r.2) 0xF000 =? 0x4000))).
(** The path for an event of an open file; empty while nobody watches. *)
Definition vfs_ino_fd (fd : Z) (s : vfs) : cstr :=
  if inotify_active s then ztake (VFS_MAX_PATH - 1) (vf_path (file_at s fd)) else [].

Definition WRITE_FLAGS : Z := Z.lor (Z.lor (Z.lor VFS_O_WRITE VFS_O_CREATE) VFS_O_TRUNC) VFS_O_APPEND.

Definition free_fd (s : vfs) : option Z := zfind (Z.to_nat VFS_MAX_OPEN_FILES) 0 (fun i => negb (in_use (file_at s i))).

(** [O_CREATE]: the flags to open with and whether the file is new. *)
Definition auto_create (slot : Z) (rel : cstr) (flags : Z) : st (Z * bool) :=
  if negb (has flags VFS_O_CREATE) then mret (flags, false)
  else fs_op op_create slot (mret (flags, false)) (fun create =>
    has_exists ← fs_op op_exists slot (mret false) (fun _ => mret true);
    there ← vfs_fs_has slot rel;
    if (there : bool) then mret (flags, false)
    else
      r ← world (create rel);
      if (r =? 0) && has_exists then mret (Z.land flags (u32 (Z.lnot VFS_O_TRUNC)), true) else mret (flags, false)).

Definition open_events (path : cstr) (flags : Z) (created isdir : bool) : st unit :=
  active ← gets inotify_active;
  when active (
    when created (note (InotifyEvent path IN_CREATE));;
    note (InotifyEvent path (Z.lor IN_OPEN (if isdir then IN_ISDIR else 0)));;
    when (has flags VFS_O_TRUNC && negb created) (note (InotifyEvent path IN_MODIFY))).

Definition vfs_open (path : option cstr) (flags : Z) : st Z :=
  fm ← gets (vfs_find_mount path);
  match fm with
  | None => mret (- ENODEV)
  | Some (slot, rel) =>
      fs_op op_open slot (mret (- ENODEV)) (fun open =>
      ro ← (if has flags WRITE_FLAGS then vfs_fs_ro slot else mret false);
      if (ro : bool) then
        there ← (if has flags VFS_O_CREATE then mret true else vfs_fs_has slot rel);
        mret (if (there : bool) then - EROFS else - ENOENT)
      else
        slot_fd ← gets free_fd;
        match slot_fd with
        | None => mret (- ENFILE)
        | Some fd =>
            fc ← auto_create slot rel flags;
            handle ← world (open rel fc.1);
            if handle =? 0 then mret (- ENOENT)
            else
              let p := default [] path in
              note (FsOpened slot handle);;
              when (has flags WRITE_FLAGS) (note (ExecInvalidate p));;
              modify (fun s => set_files (zset (open_files s) fd (mk_vf true (Some slot) handle flags (ztake (VFS_MAX_PATH - 1) p))) s);;
              isdir ← vfs_isdir_locked slot rel;
              open_events p flags fc.2 isdir;;
              mret fd
        end)
  end.

Definition vfs_close (fd : Z) : st Z :=
  ok ← gets (fun s => vfs_fd_ok s fd);
  ip ← gets (fun s => if (ok : bool) then vfs_ino_fd fd s else []);
  cm ← gets (fun s => if has (vf_flags (file_at s fd)) WRITE_FLAGS then IN_CLOSE_WRITE else IN_CLOSE_NOWRITE);
  ret ← vfs_close_locked fd;
  when (negb (bool_decide (ip = []))) (note (InotifyEvent ip cm));;
  mret ret.

(** The event after a successful operation on an open file. *)
Definition fd_event (fd : Z) (b : bool) (mask : Z) : st unit :=
  ip ← gets (fun s => if b then vfs_ino_fd fd s else []);
  when (negb (bool_decide (ip = []))) (note (InotifyEvent ip mask)).

Definition vfs_read (fd size : Z) : st (Z * list Z) :=
  ok ← gets (fun s => vfs_fd_ok s fd);
  if negb ok then mret (- EBADF, [])
  else
    vf ← gets (fun s => file_at s fd);
    file_op op_read vf (mret (- EINVAL, [])) (fun read =>
    r ← world (read size);
    fd_event fd (0 <? r.1) IN_ACCESS;;
    mret r).

Definition vfs_write (fd : Z) (buffer : list Z) : st Z :=
  ok ← gets (fun s => vfs_fd_ok s fd);
  if negb ok then mret (- EBADF)
  else
    vf ← gets (fun s => file_at s fd);
    if negb (has (vf_flags vf) VFS_O_WRITE) then mret (- EBADF)
    else file_op op_write vf (mret (- EINVAL)) (fun write =>
      r ← world (write buffer);
      when (0 <? r) (note (ExecInvalidate (vf_path vf)));;
      fd_event fd (0 <? r) IN_MODIFY;;
      mret r).

Definition vfs_seek (fd offset whence : Z) : st Z :=
  ok ← gets (fun s => vfs_fd_ok s fd);
  if negb ok then mret (- EBADF)
  else
    vf ← gets (fun s => file_at s fd);
    file_op op_seek vf (mret (- EINVAL)) (fun seek => world (seek offset whence)).

Definition vfs_ioctl (fd cmd arg : Z) : st Z :=
  ok ← gets (fun s => vfs_fd_ok s fd);
  if negb ok then mret (- EBADF)
  else
    vf ← gets (fun s => file_at s fd);
    file_op op_ioctl vf (mret (- ENOTTY)) (fun ioctl => world (ioctl cmd arg)).

(** ** Directories *)

(** [while (last > 0 && p\[last\] != '/') last--]. *)
Fixpoint back_to_slash (last : nat) (p : cstr) : Z :=
  match last with
  | O => 0
  | S l => if zget p (Z.of_nat last) =? 47 then Z.of_nat last else back_to_slash l p
  end.
(** The length of the parent's path of a mount point, and its name there. *)
Definition mount_leaf (m : vfs_filesystem) : Z * cstr :=
  let last := back_to_slash (Z.to_nat (mount_path_len m - 1)) (mount_path m) in
  ((if last =? 0 then 1 else last), zdrop (last + 1) (mount_path m)).

(** [while (pl > 1 && path\[pl - 1\] == '/') pl--]. *)
Fixpoint trim_len (pl : nat) (p : cstr) : Z :=
  match pl with
  | S (S _ as l) => if zget p (Z.of_nat l) =? 47 then trim_len l p else Z.of_nat pl
  | _ => Z.of_nat pl
  end.

(** Mount points directly under the directory, unless already listed. *)
Definition overlay_mount (path : cstr) (pl max : Z) (s : vfs) (i : Z) (es : list vfs_dirent) : list vfs_dirent :=
  if negb (zlen es <? max) then es
  else
    let m := fs_at s i in
    if negb (mounted m) || (mount_path_len m <=? 1) then es
    else
      let '(parent_len, nm) := mount_leaf m in
      if negb (parent_len =? pl) || negb (strncmp_eq (mount_path m) path (Z.to_nat pl)) then es
      else if existsb (fun e => bytes_eqb (de_name e) nm) es then es
      else es ++ [mk_vdirent (ztake (VFS_MAX_NAME - 1) nm) 0 VFS_DIRECTORY 0 0].

Definition vfs_readdir (path : cstr) (max : Z) : st (Z * list vfs_dirent) :=
  fm ← gets (vfs_find_mount (Some path));
  r ← (match fm with
      | None => mret (- ENODEV, [])
      | Some (slot, rel) =>
          fs_op op_readdir slot (mret (- ENODEV, [])) (fun readdir =>
          r ← world (readdir rel max);
          linked ← fs_op op_readlink slot (mret false) (fun _ => mret true);
          let es := if 0 <? r.1 then ztake r.1 r.2 else [] in
          mret (r.1, if (linked : bool) then es
                     else (fun e => mk_vdirent (de_name e) (de_inode e) (de_type e) 0 (de_size e)) <$> es))
      end : st (Z * list vfs_dirent));
  es ← gets (fun s => zfor (Z.to_nat VFS_MAX_MOUNTPOINTS) 0 (overlay_mount path (trim_len (length path) path) max s) r.2);
  mret (if (r.1 <? 0) && (zlen es =? zlen r.2) then (r.1, []) else (s32 (zlen es), es)).

(** A whole listing in a heap block: its address and entries.  The capacity
    doubles from [VFS_READDIR_MAX] until the listing fits or the limit is
    reached, eight rounds at most. *)
Definition DIRENT_SIZE : Z := 268.
Fixpoint readdir_rounds (fuel : nat) (path : cstr) (cap extra : Z) : st (Z * option (Z * list vfs_dirent)) :=
  match fuel with
  | O => mret (- ENOMEM, None)
  | S fuel =>
      e ← kalloc_v (DIRENT_SIZE * (cap +32 extra));
      if e =? 0 then mret (- ENOMEM, None)
      else
        r ← vfs_readdir path cap;
        if r.1 <? 0 then kfree_v e;; mret (r.1, None)
        else if (u32 r.1 <? cap) || (VFS_READDIR_LIMIT <=? cap) then mret (r.1, Some (e, r.2))
        else kfree_v e;; readdir_rounds fuel path (u32 (cap * 2)) extra
  end.
Definition vfs_readdir_alloc (path : cstr) (extra : Z) : st (Z * option (Z * list vfs_dirent)) :=
  readdir_rounds 8 path VFS_READDIR_MAX extra.

(** *** The listing cache *)

Definition VFS_DIRCACHE_SLOTS : Z := 32.
Definition dc_at (s : vfs) (i : Z) : vfs_dircache := zget (dircache s) i.
Definition set_dc (i : Z) (c : vfs_dircache) (clock : Z) : st unit :=
  modify (fun s => set_dircache (zset (dircache s) i c) clock s).

Definition dircache_copy (i pos max : Z) : st (Z * list vfs_dirent) :=
  c ← gets (fun s => dc_at s i);
  if u32 (dc_total c) <=? pos then mret (0, [])
  else
    let n := Z.min (u32 (dc_total c) -32 pos) max in
    clock ← gets (fun s => dircache_clock s +64 1);
    set_dc i (mk_dc (dc_key c) (dc_path c) (dc_ents c) (dc_total c) clock) clock;;
    mret (s32 n, ztake n (zdrop pos (default [] (snd <$> dc_ents c)))).

Definition dc_lookup (key : Z) (path : cstr) (s : vfs) : option Z :=
  zfind (Z.to_nat VFS_DIRCACHE_SLOTS) 0 (fun i => (dc_key (dc_at s i) =? key) &&
    match dc_path (dc_at s i) with Some (_, p) => bytes_eqb p path | None => false end).
(** The slot to fill: the handle's own, a free one, else the least recently
    used. *)
Definition dc_victim (key : Z) (s : vfs) : Z :=
  match zfind (Z.to_nat VFS_DIRCACHE_SLOTS) 0 (fun i => dc_key (dc_at s i) =? key) with
  | Some i => i
  | None =>
      match zfind (Z.to_nat VFS_DIRCACHE_SLOTS) 0 (fun i => dc_key (dc_at s i) =? 0) with
      | Some i => i
      | None => zfor (Z.to_nat (VFS_DIRCACHE_SLOTS - 1)) 1 (fun i slot => if dc_stamp (dc_at s i) <? dc_stamp (dc_at s slot) then i else slot) 0
      end
  end.
Definition kfree_opt {A} (x : option (Z * A)) : st unit :=
  match x with Some (p, _) => when (negb (p =? 0)) (kfree_v p) | None => mret tt end.

(** [augment] adds entries to a listing: it gets the path, the entries and
    their number, and the capacity. *)
Definition dir_augment : Type := cstr -> list vfs_dirent -> Z -> Z -> Z * list vfs_dirent.

Definition dircache_fill (key : Z) (path : cstr) (pos max : Z) (n e : Z) (es : list vfs_dirent) : st (Z * list vfs_dirent) :=
  pc ← kalloc_v (zlen path + 1);
  if pc =? 0 then kfree_v e;; mret (- ENOMEM, [])
  else
    slot ← gets (dc_victim key);
    old ← gets (fun s => dc_at s slot);
    clock ← gets dircache_clock;
    set_dc slot (mk_dc key (Some (pc, path)) (Some (e, es)) n (dc_stamp old)) clock;;
    r ← dircache_copy slot pos max;
    kfree_opt (dc_ents old);;
    kfree_opt (dc_path old);;
    mret r.

Definition dircache_build (key : Z) (path : cstr) (pos max : Z) (augment : option dir_augment) (extra : Z)
    : st (Z * list vfs_dirent) :=
  ne ← vfs_readdir_alloc path (match augment with Some _ => extra | None => 0 end);
  match augment with
  | None =>
      match ne.2 with
      | None => mret (ne.1, [])
      | Some (e, es) => dircache_fill key path pos max ne.1 e es
      end
  | Some f =>
      e ← match ne.2 with
          | Some (e, _) => mret e
          | None => kalloc_v (DIRENT_SIZE * (if extra =? 0 then 1 else extra))
          end;
      if e =? 0 then mret (- ENOMEM, [])
      else
        let '(n, es) := f path (default [] (snd <$> ne.2)) ne.1 ((if 0 <? ne.1 then ne.1 else 0) + s32 extra) in
        if n <? 0 then kfree_v e;; mret (n, [])
        else dircache_fill key path pos max n e es
  end.

Definition vfs_dircache_read (key : Z) (path : cstr) (pos max : Z) (augment : option dir_augment) (extra : Z)
    : st (Z * list vfs_dirent) :=
  hit ← gets (fun s => if 0 <? pos then dc_lookup key path s else None);
  match hit with
  | Some i => dircache_copy i pos max
  | None => dircache_build key path pos max augment extra
  end.

Fixpoint dircache_drop_loop (n : nat) (i key : Z) : st unit :=
  match n with
  | O => mret tt
  | S n =>
      c ← gets (fun s => dc_at s i);
      (if dc_key c =? key then
         clock ← gets dircache_clock;
         set_dc i (mk_dc 0 None None 0 (dc_stamp c)) clock;;
         kfree_opt (dc_ents c);;
         kfree_opt (dc_path c)
       else mret tt);;
      dircache_drop_loop n (i + 1) key
  end.
Definition vfs_dircache_drop (key : Z) : st unit := dircache_drop_loop (Z.to_nat VFS_DIRCACHE_SLOTS) 0 key.

(** ** Names *)

Definition vfs_create (path : option cstr) : st Z :=
  fm ← gets (vfs_find_mount path);
  match fm with
  | None => mret (- ENODEV)
  | Some (slot, rel) =>
      fs_op op_create slot (mret (- ENODEV)) (fun create =>
      ro ← vfs_fs_ro slot;
      if (ro : bool) then mret (- EROFS)
      else
        active ← gets inotify_active;
        had ← (if (active : bool) then vfs_fs_has slot rel else mret false);
        r ← world (create rel);
        when ((r =? 0) && negb had) (note (InotifyEvent (default [] path) IN_CREATE));;
        mret r)
  end.

Definition vfs_mkdir (path : option cstr) : st Z :=
  fm ← gets (vfs_find_mount path);
  match fm with
  | None => mret (- ENODEV)
  | Some (slot, rel) =>
      fs_op op_mkdir slot (mret (- ENODEV)) (fun mkdir =>
      ro ← vfs_fs_ro slot;
      if (ro : bool) then there ← vfs_fs_has slot rel; mret (if (there : bool) then - EEXIST else - EROFS)
      else
        active ← gets inotify_active;
        had ← (if (active : bool) then vfs_fs_has slot rel else mret false);
        r ← world (mkdir rel);
        when ((r =? 0) && negb had) (note (InotifyEvent (default [] path) (Z.lor IN_CREATE IN_ISDIR)));;
        mret r)
  end.

Definition vfs_exists (path : option cstr) : st Z :=
  fm ← gets (vfs_find_mount path);
  match fm with
  | None => mret 0
  | Some (slot, rel) => fs_op op_exists slot (mret 0) (fun ex => world (ex rel))
  end.

Definition vfs_has_root_mount (s : vfs) : bool :=
  match vfs_find_mount (Some [47]) s with Some _ => true | None => false end.

(** One round per component; [buf] is the path made so far. *)
Fixpoint mkdir_p_loop (fuel : nat) (buf p : cstr) : st Z :=
  match fuel, p with
  | _, [] => mret 0
  | O, _ => mret 0
  | S fuel, _ =>
      if (1 <? zlen buf) && (VFS_MAX_PATH <=? zlen buf + 1) then mret (- ENAMETOOLONG)
      else
        let buf := if 1 <? zlen buf then buf ++ [47] else buf in
        let '(part, p) := component p in
        if VFS_MAX_PATH <=? zlen buf + zlen part then mret (- ENAMETOOLONG)
        else
          let buf := buf ++ part in
          there ← vfs_exists (Some buf);
          if negb (there =? 0) then mkdir_p_loop fuel buf (skip_slashes p)
          else
            rc ← vfs_mkdir (Some buf);
            there ← (if rc <? 0 then vfs_exists (Some buf) else mret 1);
            if (rc <? 0) && (there =? 0) then mret rc else mkdir_p_loop fuel buf (skip_slashes p)
  end.

Definition vfs_mkdir_p (path : option cstr) : st Z :=
  match path with
  | None | Some [] => mret (- EINVAL)
  | Some p =>
      if bytes_eqb p [47] then mret 0
      else
        root ← gets vfs_has_root_mount;
        if negb root then mret (- ENODEV)
        else
          let buf := if bool_decide (head p = Some 47) then [47] else [] in
          mkdir_p_loop (length p) buf (skip_slashes p)
  end.

(** [while (n > 0 && buf\[n - 1\] != '/') n--]. *)
Fixpoint after_slash (n : nat) (p : cstr) : Z :=
  match n with
  | O => 0
  | S l => if zget p (Z.of_nat l) =? 47 then Z.of_nat n else after_slash l p
  end.

Definition vfs_ensure_parent_impl (path : option cstr) : st Z :=
  match path with
  | None | Some [] => mret (- EINVAL)
  | Some p =>
      let buf := ztake (VFS_MAX_PATH - 1) p in
      let buf := ztake (trim_len (length buf) buf) buf in
      let n := after_slash (length buf) buf in
      if n <=? 1 then mret 0 else vfs_mkdir_p (Some (ztake (n - 1) buf))
  end.
Definition vfs_ensure_parent (path : option cstr) : st Z := vfs_ensure_parent_impl path.

Definition vfs_unlink (path : option cstr) : st Z :=
  fm ← gets (vfs_find_mount path);
  match fm with
  | None => mret (- ENODEV)
  | Some (slot, rel) =>
      fs_op op_unlink slot (mret (- ENODEV)) (fun unlink =>
      ro ← vfs_fs_ro slot;
      if (ro : bool) then there ← vfs_fs_has slot rel; mret (if (there : bool) then - EROFS else - ENOENT)
      else
        isdir ← vfs_isdir_locked slot rel;
        r ← world (unlink rel);
        let p := default [] path in
        when (r =? 0) (
          note (ExecInvalidate p);;
          note (PermForgetTree p);;
          note (InotifyEvent p (Z.lor IN_DELETE (if (isdir : bool) then IN_ISDIR else 0))));;
        mret r)
  end.

Definition vfs_fd_get_path (fd buflen : Z) (s : vfs) : Z * cstr :=
  if (buflen =? 0) || (fd <? 0) || (VFS_MAX_OPEN_FILES <=? fd) then (- EINVAL, [])
  else if negb (in_use (file_at s fd)) then (- EBADF, [])
  else if buflen <=? zlen (vf_path (file_at s fd)) + 1 then (- ENAMETOOLONG, [])
  else (0, vf_path (file_at s fd)).

(** What a rename or a removal reports. *)
Definition rename_notes (from to : cstr) (isdir : bool) : st unit :=
  note (ExecInvalidateTree from);;
  note (ExecInvalidateTree to);;
  note (PermRenameTree from to);;
  note (InotifyRename from to isdir).
Definition rmdir_notes (p : cstr) : st unit :=
  note (ExecInvalidateTree p);;
  note (PermForgetTree p);;
  note (InotifyEvent p (Z.lor IN_DELETE IN_ISDIR)).

Definition vfs_rename (oldpath newpath : option cstr) : st Z :=
  match oldpath, newpath with
  | Some o, Some n =>
      root ← gets vfs_has_root_mount;
      if negb root then mret (- ENODEV)
      else
        f1 ← gets (vfs_find_mount oldpath);
        f2 ← gets (vfs_find_mount newpath);
        if negb (bool_decide (fst <$> f1 = fst <$> f2)) then mret (- EXDEV)
        else
          let fallback (isdir : bool) : st Z :=
            r ← world (fat32_rename fat32 o n);
            if r =? 0 then rename_notes o n isdir;; mret 0
            else mret (if r <? 0 then r else - EIO) in
          match f1, f2 with
          | Some (slot, r1), Some (_, r2) =>
              ro ← vfs_fs_ro slot;
              if (ro : bool) then there ← vfs_fs_has slot r1; mret (if (there : bool) then - EROFS else - ENOENT)
              else
                isdir ← vfs_isdir_locked slot r1;
                fs_op op_rename slot (fallback isdir) (fun rename =>
                r ← world (rename r1 r2);
                when (r =? 0) (rename_notes o n isdir);;
                mret r)
          | _, _ => fallback false
          end
  | _, _ => mret (- EINVAL)
  end.

Definition vfs_rmdir (path : option cstr) : st Z :=
  match path with
  | None => mret (- EINVAL)
  | Some p =>
      let fallback : st Z :=
        r ← world (fat32_remove_empty_directory fat32 p);
        when (r =? 0) (rmdir_notes p);;
        mret r in
      fm ← gets (vfs_find_mount path);
      match fm with
      | None => fallback
      | Some (slot, rel) =>
          ro ← vfs_fs_ro slot;
          if (ro : bool) then there ← vfs_fs_has slot rel; mret (if (there : bool) then - EROFS else - ENOENT)
          else fs_op op_rmdir slot fallback (fun rmdir =>
            r ← world (rmdir rel);
            when (r =? 0) (rmdir_notes p);;
            mret r)
      end
  end.

(** ** Metadata and links *)

Definition zero_stat : stat := mk_stat 0 0 0 0 0 0 0 0 0 0 0.

Definition vfs_stat (path : option cstr) : st (Z * stat) :=
  match path with
  | None => mret (- EINVAL, zero_stat)
  | Some _ =>
      fm ← gets (vfs_find_mount path);
      match fm with
      | None => mret (- ENOSYS, zero_stat)
      | Some (slot, rel) => fs_op op_stat slot (mret (- ENOSYS, zero_stat)) (fun f => world (f rel))
      end
  end.

Definition vfs_lstat (path : option cstr) : st (Z * stat) :=
  match path with
  | None => mret (- EINVAL, zero_stat)
  | Some _ =>
      fm ← gets (vfs_find_mount path);
      match fm with
      | None => mret (- ENOSYS, zero_stat)
      | Some (slot, rel) =>
          fs_op op_lstat slot (fs_op op_stat slot (mret (- ENOSYS, zero_stat)) (fun f => world (f rel))) (fun f => world (f rel))
      end
  end.

Definition vfs_times (path : option cstr) (set : Z) (times : option Z * option Z) : st (Z * (option Z * option Z)) :=
  match path with
  | None => mret (- EINVAL, times)
  | Some _ =>
      fm ← gets (vfs_find_mount path);
      match fm with
      | None => mret (- ENOSYS, times)
      | Some (slot, rel) => fs_op op_times slot (mret (- ENOSYS, times)) (fun f => world (f rel set times))
      end
  end.

(** [while (o > 0 && out\[o - 1\] != '/') o--; if (o > 0) o--]. *)
Definition drop_last (out : cstr) : cstr := ztake (Z.max 0 (after_slash (length out) out - 1)) out.

(** [readlink] of the filesystem that holds [out]: length and target. *)
Definition read_link (out : cstr) (cap : Z) : st (Z * cstr) :=
  fm ← gets (vfs_find_mount (Some out));
  match fm with
  | None => mret (- EINVAL, [])
  | Some (slot, rel) => fs_op op_readlink slot (mret (- EINVAL, [])) (fun readlink => world (readlink rel cap))
  end.

(** The loop of [vfs_resolve]: [out] is the path resolved so far, [rest] what
    is left of the input.  [None] if the rounds given do not suffice. *)
Fixpoint resolve_loop (fuel : nat) (out rest : cstr) (loops outsz : Z) (follow_last : bool) : st (option (Z * cstr)) :=
  match fuel with
  | O => mret None
  | S fuel =>
      let s := skip_slashes rest in
      if bool_decide (s = []) then mret (Some (0, out))
      else
        let '(part, e) := component s in
        if bytes_eqb part [46] then resolve_loop fuel out e loops outsz follow_last
        else if bytes_eqb part [46; 46] then resolve_loop fuel (drop_last out) e loops outsz follow_last
        else if outsz <? zlen out + 1 + zlen part + 1 then mret (Some (- ENAMETOOLONG, out))
        else
          let out' := out ++ 47 :: part in
          if bool_decide (e = []) && negb follow_last then resolve_loop fuel out' e loops outsz follow_last
          else
            link ← read_link out' (VFS_MAX_PATH - 1);
            if link.1 <? 0 then resolve_loop fuel out' e loops outsz follow_last
            else if VFS_SYMLOOP_MAX <? loops + 1 then mret (Some (- ELOOP, out'))
            else if link.1 =? 0 then mret (Some (- ENOENT, out'))
            else
              let n := Z.min link.1 (VFS_MAX_PATH - 1) in
              if VFS_MAX_PATH <? n + zlen e + 1 then mret (Some (- ENAMETOOLONG, out'))
              else resolve_loop fuel (if bool_decide (head link.2 = Some 47) then [] else out)
                     (ztake n link.2 ++ e) (loops + 1) outsz follow_last
  end.

(** Every round takes at least one byte of [rest]; a link refills it with less
    than [VFS_MAX_PATH] bytes, at most [VFS_SYMLOOP_MAX] times. *)
Definition resolve_fuel : nat := Z.to_nat ((VFS_SYMLOOP_MAX + 1) * VFS_MAX_PATH).

Definition vfs_resolve (path : option cstr) (outsz : Z) (follow_last : bool) : st (option (Z * cstr)) :=
  match path with
  | None => mret (Some (- EINVAL, []))
  | Some p =>
      if negb (bool_decide (head p = Some 47)) || (outsz <? 2) then mret (Some (- EINVAL, []))
      else if VFS_MAX_PATH <=? zlen p then mret (Some (- ENAMETOOLONG, []))
      else
        rest ← kalloc_v (2 * VFS_MAX_PATH);
        if rest =? 0 then mret (Some (- ENOMEM, []))
        else
          r ← resolve_loop resolve_fuel [] p 0 outsz follow_last;
          kfree_v rest;;
          mret (match r with
                | Some (0, []) => Some (0, [47])
                | _ => r
                end)
  end.

Definition vfs_readlink (path : option cstr) (cap : Z) : st (Z * cstr) :=
  match path with
  | None => mret (- EINVAL, [])
  | Some p => read_link p cap
  end.

Definition vfs_symlink (target path : option cstr) : st Z :=
  match path, target with
  | Some p, Some t =>
      fm ← gets (vfs_find_mount path);
      match fm with
      | None => mret (- ENOENT)
      | Some (slot, rel) =>
          ro ← vfs_fs_ro slot;
          if (ro : bool) then there ← vfs_fs_has slot rel; mret (if (there : bool) then - EEXIST else - EROFS)
          else fs_op op_symlink slot (mret (- EPERM)) (fun symlink =>
            r ← world (symlink rel t);
            when (r =? 0) (note (InotifyEvent p IN_CREATE));;
            mret r)
      end
  | _, _ => mret (- EINVAL)
  end.

Definition vfs_link (oldpath newpath : option cstr) : st Z :=
  match oldpath, newpath with
  | Some o, Some n =>
      f1 ← gets (vfs_find_mount oldpath);
      f2 ← gets (vfs_find_mount newpath);
      match f1 with
      | None => mret (- ENOENT)
      | Some (slot, r1) =>
          match f2 with
          | None => mret (- EXDEV)
          | Some (slot2, r2) =>
              if negb (slot =? slot2) then mret (- EXDEV)
              else
                ro ← vfs_fs_ro slot;
                if (ro : bool) then mret (- EROFS)
                else fs_op op_link slot (mret (- EPERM)) (fun link =>
                  r ← world (link r1 r2);
                  when (r =? 0) (
                    note (ExecInvalidate o);;
                    note (ExecInvalidate n);;
                    note (InotifyEvent n IN_CREATE);;
                    note (InotifyEvent o IN_ATTRIB));;
                  mret r)
          end
      end
  | _, _ => mret (- EINVAL)
  end.

Definition vfs_setattr (path : option cstr) (what mode uid gid : Z) : st Z :=
  match path with
  | None => mret (- EINVAL)
  | Some p =>
      fm ← gets (vfs_find_mount path);
      match fm with
      | None => mret (- ENOSYS)
      | Some (slot, rel) =>
          fs_op op_setattr slot (mret (- ENOSYS)) (fun setattr =>
          ro ← vfs_fs_ro slot;
          if (ro : bool) then there ← vfs_fs_has slot rel; mret (if (there : bool) then - EROFS else - ENOENT)
          else
            r ← world (setattr rel (Z.land what (Z.lor VFS_SA_MODE VFS_SA_OWNER)) mode uid gid);
            when ((r =? 0) && negb (has what VFS_SA_QUIET)) (note (InotifyEvent p IN_ATTRIB));;
            mret r)
      end
  end.

Definition vfs_has_inode_perms (path : option cstr) (s : vfs) : bool :=
  match vfs_find_mount path s with
  | None => false
  | Some (slot, _) => match k ← fs_ops (fs_at s slot); op_setattr (ops_of k) with Some _ => true | None => false end
  end.

Definition vfs_truncate (path : option cstr) (len : Z) : st Z :=
  match path with
  | None => mret (- EINVAL)
  | Some p =>
      let fallback : st Z :=
        if 0xFFFFFFFF <? len then mret (- EINVAL)
        else
          r ← world (fat32_truncate_to fat32 p (u32 len));
          when (r =? 0) (note (InotifyEvent p IN_MODIFY));;
          mret (if r =? 0 then 0 else if r <? -1 then r else - EIO) in
      note (ExecInvalidate p);;
      fm ← gets (vfs_find_mount path);
      match fm with
      | None => fallback
      | Some (slot, rel) =>
          ro ← vfs_fs_ro slot;
          if (ro : bool) then mret (- EROFS)
          else fs_op op_truncate slot fallback (fun truncate =>
            r ← world (truncate rel len);
            when (r =? 0) (note (InotifyEvent p IN_MODIFY));;
            mret r)
      end
  end.

Definition is_fat32 (vf : vfs_file) (s : vfs) : bool :=
  match vf_fs vf with Some slot => bool_decide (fs_ops (fs_at s slot) = Some FsFat32) | None => false end.

Definition vfs_ftruncate (fd len : Z) : st Z :=
  ok ← gets (fun s => vfs_fd_ok s fd);
  if negb ok then mret (- EBADF)
  else
    vf ← gets (fun s => file_at s fd);
    r ← file_op op_ftruncate vf
          (fat ← gets (is_fat32 vf);
           if negb fat then mret 0
           else if 0xFFFFFFFF <? len then mret (- EINVAL)
           else note (FsUsed (default 0 (vf_fs vf)) (fs_handle vf));; world (fat32_truncate_handle_v fat32 (fs_handle vf) (u32 len)))
          (fun ftruncate => world (ftruncate len));
    note (ExecInvalidate (vf_path vf));;
    fd_event fd (r =? 0) IN_MODIFY;;
    mret r.

Fixpoint sync_loop (n : nat) (i r : Z) : st Z :=
  match n with
  | O => mret r
  | S n =>
      m ← gets (fun s => mounted (fs_at s i));
      r ← (if (m : bool) then fs_op op_sync i (mret r) (fun sync => x ← world sync; mret (if x =? 0 then r else - EIO)) else mret r);
      sync_loop n (i + 1) r
  end.
Definition vfs_sync_all : st Z := sync_loop (Z.to_nat VFS_MAX_MOUNTPOINTS) 0 0.

(** ** Whole files *)

(** Reads until [size] bytes are there, or a read gives none. *)
Fixpoint read_rounds (fuel : nat) (fd size : Z) (got : list Z) : st (list Z) :=
  match fuel with
  | O => mret got
  | S fuel =>
      if negb (zlen got <? size) then mret got
      else
        r ← vfs_read fd (size - zlen got);
        if r.1 <=? 0 then mret got else read_rounds fuel fd size (got ++ ztake r.1 r.2)
  end.

(** The result, and the buffer's address and bytes. *)
Definition vfs_read_file_alloc (path : option cstr) (max_size : Z) : st (Z * option (Z * list Z)) :=
  match path with
  | None => mret (- EINVAL, None)
  | Some _ =>
      fd ← vfs_open path VFS_O_READ;
      if fd <? 0 then mret (fd, None)
      else
        vf ← gets (fun s => file_at s fd);
        size0 ← file_op op_get_size vf (mret (-1)) (fun get_size => world get_size);
        size ← (if size0 <? 0 then
                  e ← vfs_seek fd 0 VFS_SEEK_END;
                  if e <? 0 then mret e else _ ← vfs_seek fd 0 VFS_SEEK_SET; mret e
                else mret size0);
        if size <? 0 then _ ← vfs_close fd; mret (- EIO, None)
        else if negb (max_size =? 0) && (max_size <? u32 size) then _ ← vfs_close fd; mret (- EFBIG, None)
        else
          buf ← kalloc_v (u32 size +32 1);
          if buf =? 0 then _ ← vfs_close fd; mret (- ENOMEM, None)
          else
            got ← read_rounds (Z.to_nat (u32 size)) fd (u32 size) [];
            _ ← vfs_close fd;
            mret (s32 (zlen got), Some (buf, got))
  end.

Fixpoint write_rounds (fuel : nat) (fd : Z) (buf : list Z) : st bool :=
  match fuel, buf with
  | _, [] => mret true
  | O, _ => mret true
  | S fuel, _ =>
      n ← vfs_write fd buf;
      if n <=? 0 then mret false else write_rounds fuel fd (zdrop n buf)
  end.

Definition vfs_write_file (path : option cstr) (buf : list Z) : st Z :=
  match path with
  | None => mret (- EINVAL)
  | Some _ =>
      _ ← vfs_ensure_parent path;
      fd ← vfs_open path (Z.lor (Z.lor VFS_O_WRITE VFS_O_CREATE) VFS_O_TRUNC);
      if fd <? 0 then mret fd
      else
        ok ← write_rounds (length buf) fd buf;
        if negb ok then _ ← vfs_close fd; mret (- EIO) else vfs_close fd
  end.

(** The directories of a fresh disk and the note in the user's documents. *)
Definition layout_dirs : list cstr := bytes_of <$>
  ["/bin"; "/etc"; "/tmp"; "/apps"; "/os"; "/os/apps"; "/home"; "/home/user"; "/home/user/Documents"; "/home/user/Desktop";
   "/home/user/Downloads"; "/Desktop"]%string.
Definition readme_path : cstr := bytes_of "/home/user/Documents/readme.txt".
Definition readme_text : cstr := bytes_of
"Welcome to inDevOS.

Your files live under /home/user.
  Documents   notes and text files
  Desktop     icons shown on the desktop
  Downloads   incoming files

Programs are in /bin. Temporary files go in /tmp.
".
Fixpoint seed_dirs (dirs : list cstr) : st unit :=
  match dirs with
  | [] => mret tt
  | d :: dirs => _ ← vfs_mkdir_p (Some d); seed_dirs dirs
  end.
Definition vfs_seed_standard_layout (tmpfs_mount_tmp : st Z) : st unit :=
  root ← gets vfs_has_root_mount;
  if negb root then mret tt
  else
    seed_dirs layout_dirs;;
    _ ← tmpfs_mount_tmp;
    there ← vfs_exists (Some readme_path);
    if there =? 0 then _ ← vfs_write_file (Some readme_path) readme_text; mret tt else mret tt.
End vfs.
