(* ===== verification/VfsMount.v ===== *)
(** * Mounts: which filesystem a path belongs to

    The search of [vfs_find_mount] in src/vfs.c against its specification, the
    longest mounted path that is a prefix of the path at a component boundary,
    and what [vfs_mount] and [vfs_unmount] do to the table. *)
From S2P Require Import Prelude Paths Heap Vfs.

(** ** Strings *)

Lemma strncmp_eq_prefix s1 s2 : strncmp_eq s1 s2 (length s2) = true <-> s2 `prefix_of` s1.
Proof.
  revert s1. induction s2 as [|b s2 IH]; intros s1; cbn; [split; intros _; [apply prefix_nil | done]|].
  destruct s1 as [|a s1]; [split; [done | intros [k E]; done]|]. destruct (Z.eqb_spec a b) as [->|Hne].
  - rewrite IH. split; intros [k E]; exists k; [by rewrite E | by injection E as ->].
  - split; [done|]. intros [k E]. by injection E as -> _.
Qed.

(** [m] is a mount point above [p]: the root, or a prefix at the end of a
    component. *)
Definition covers (m p : cstr) : Prop :=
  m = [47] \/ (m <> [47] /\ exists rest, p = m ++ rest /\ match rest with [] => True | c :: _ => c = 47 end).

Section mount.
Context {W : Type}.
Implicit Types (s : vfs (W := W)) (p : cstr).

Record mounts_ok s : Prop := {
  mo_len : zlen (mount_table s) = VFS_MAX_MOUNTPOINTS;
  mo_path : forall i, 0 <= i < VFS_MAX_MOUNTPOINTS -> mounted (fs_at s i) = true ->
    mount_path_len (fs_at s i) = zlen (mount_path (fs_at s i)) /\ head (mount_path (fs_at s i)) = Some 47;
  mo_ops : forall i, 0 <= i < VFS_MAX_MOUNTPOINTS -> mounted (fs_at s i) = true -> is_Some (fs_ops (fs_at s i));
}.

Definition mount_len s i : Z := zlen (mount_path (fs_at s i)).

(** The best mount among the first [n]. *)
Definition best_of s p (n : Z) (best : option Z * Z) : Prop :=
  match best.1 with
  | None => best.2 = 0 /\ forall j, 0 <= j < n -> mounted (fs_at s j) = true -> ~ covers (mount_path (fs_at s j)) p
  | Some i => 0 <= i < n /\ mounted (fs_at s i) = true /\ covers (mount_path (fs_at s i)) p /\ best.2 = mount_len s i /\
      forall j, 0 <= j < n -> mounted (fs_at s j) = true -> covers (mount_path (fs_at s j)) p ->
        mount_len s j <= mount_len s i /\ (mount_len s j = mount_len s i -> i <= j)
  end.

(** The test of the loop is [covers]. *)
Lemma covers_test m p : head m = Some 47 -> 0 ∉ p ->
  (if (zlen m =? 1) && bool_decide (head m = Some 47) then true
   else strncmp_eq p m (Z.to_nat (zlen m)) &&
        (let after := if zlen m <? zlen p then zget p (zlen m) else 0 in (after =? 47) || (after =? 0))) = true <-> covers m p.
Proof.
  intros Hh H0. destruct (Z.eqb_spec (zlen m) 1) as [E1|N1]; cbn [andb].
  { assert (m = [47]) as -> by (destruct m as [|c [|d m]]; cbn in *; [done | by simplify_eq | unfold zlen in E1; cbn in E1; lia]).
    rewrite bool_decide_true by done. split; [by left | done]. }
  assert (m <> [47]) as Hne by (intros ->; done). replace (Z.to_nat (zlen m)) with (length m) by (unfold zlen; lia).
  rewrite andb_true_iff, strncmp_eq_prefix. split.
  - intros [[rest ->] Ha]. right. split; [done|]. exists rest. split; [done|]. destruct rest as [|c rest]; [done|].
    rewrite zlen_app, (proj2 (Z.ltb_lt _ _)), zget_app_r in Ha by (rewrite ?zlen_cons; pose proof (zlen_nonneg rest); lia).
    rewrite Z.sub_diag in Ha. change (zget (c :: rest) 0) with c in Ha. destruct (Z.eqb_spec c 47) as [|]; [done|].
    apply Z.eqb_eq in Ha. subst c.
    destruct H0. apply elem_of_app. right. apply elem_of_cons. by left.
  - intros [?|(_ & rest & -> & Hr)]; [done|]. split; [by exists rest|]. destruct rest as [|c rest].
    + by rewrite app_nil_r, Z.ltb_irrefl.
    + subst c. rewrite zlen_app, (proj2 (Z.ltb_lt _ _)), zget_app_r by (rewrite ?zlen_cons; pose proof (zlen_nonneg rest); lia).
      by rewrite Z.sub_diag.
Qed.

Lemma better_mount_step s p i best : mounts_ok s -> 0 <= i < VFS_MAX_MOUNTPOINTS -> 0 ∉ p ->
  best_of s p i best -> best_of s p (i + 1) (better_mount p s i best).
Proof.
  intros Hm Hi H0 Hb. unfold better_mount. destruct (mounted (fs_at s i)) eqn:Em; cbn [negb]; cycle 1.
  { unfold best_of in *. destruct best as [[b|] bl]; cbn [fst snd] in *.
    - destruct Hb as (B1 & B2 & B3 & B4 & B5). split_and!; try done; try lia. intros j Hj Hjm. apply B5; [|done].
      destruct (decide (j = i)) as [->|]; [congruence | lia].
    - destruct Hb as [-> Hb]. split; [done|]. intros j Hj Hjm. apply Hb; [|done]. destruct (decide (j = i)) as [->|]; [congruence | lia]. }
  destruct (mo_path s Hm i Hi Em) as [El Eh]. rewrite El. pose proof (covers_test (mount_path (fs_at s i)) p Eh H0) as Ht. cbn zeta in Ht.
  fold (mount_len s i) in *. assert (1 <= mount_len s i) as Hl1.
  { unfold mount_len. destruct (mount_path (fs_at s i)) as [|c l]; [done|]. rewrite zlen_cons. pose proof (zlen_nonneg l). lia. }
  assert (forall bl', (covers (mount_path (fs_at s i)) p <-> bl' = true) ->
    best_of s p (i + 1) (if bl' && (best.2 <? mount_len s i) then (Some i, mount_len s i) else best)) as Hgen.
  { intros bl' Hc. unfold best_of in *. destruct (bl' && (best.2 <? mount_len s i)) eqn:Eb.
    - apply andb_true_iff in Eb as [Eb Elt]. apply Z.ltb_lt in Elt. apply Hc in Eb. cbn [fst snd]. split_and!; try done; try lia.
      intros j Hj Hjm Hjc. destruct (decide (j = i)) as [->|Hne]; [lia|]. destruct best as [[b|] bl]; cbn [fst snd] in *.
      + destruct Hb as (B1 & B2 & B3 & B4 & B5). destruct (B5 j ltac:(lia) Hjm Hjc). lia.
      + destruct Hb as [_ Hb]. by destruct (Hb j ltac:(lia) Hjm).
    - destruct best as [[b|] bl]; cbn [fst snd] in *.
      + destruct Hb as (B1 & B2 & B3 & B4 & B5). split_and!; try done; try lia. intros j Hj Hjm Hjc.
        destruct (decide (j = i)) as [->|Hne]; [|apply B5; [lia | done..]]. apply Hc in Hjc. rewrite Hjc in Eb. apply Z.ltb_ge in Eb. lia.
      + destruct Hb as [-> Hb]. split; [done|]. intros j Hj Hjm Hjc. destruct (decide (j = i)) as [->|Hne]; [|by apply (Hb j); [lia|..]].
        apply Hc in Hjc. rewrite Hjc in Eb. apply Z.ltb_ge in Eb. lia. }
  destruct ((mount_len s i =? 1) && _) eqn:E1.
  - apply andb_true_iff in E1 as [E1 _]. apply Z.eqb_eq in E1. specialize (Hgen true ltac:(tauto)). by rewrite E1 in Hgen.
  - specialize (Hgen (strncmp_eq p (mount_path (fs_at s i)) (Z.to_nat (mount_len s i)) &&
      (let after := if mount_len s i <? zlen p then zget p (mount_len s i) else 0 in (after =? 47) || (after =? 0))) ltac:(tauto)).
    cbn zeta in Hgen. by destruct (strncmp_eq p _ _).
Qed.

Lemma find_mount_best s p : mounts_ok s -> head p = Some 47 -> 0 ∉ p ->
  match vfs_find_mount (Some p) s with
  | Some (i, rel) => best_of s p VFS_MAX_MOUNTPOINTS (Some i, mount_len s i) /\
      (p = mount_path (fs_at s i) ++ rel \/ p = mount_path (fs_at s i) ++ 47 :: rel)
  | None => best_of s p VFS_MAX_MOUNTPOINTS (None, 0)
  end.
Proof.
  intros Hm Hh H0. unfold vfs_find_mount. rewrite bool_decide_true by done. cbn [negb].
  pose proof (zfor_ind (fun i b => best_of s p i b) (better_mount p s) (Z.to_nat VFS_MAX_MOUNTPOINTS) 0 (None, 0)) as Hz.
  destruct (zfor _ 0 _ _) as [best bl] eqn:Ez. cbn beta in Hz. change (0 + Z.of_nat (Z.to_nat VFS_MAX_MOUNTPOINTS)) with VFS_MAX_MOUNTPOINTS in Hz.
  assert (best_of s p VFS_MAX_MOUNTPOINTS (best, bl)) as Hb.
  { apply Hz; [split; [done | intros; lia]|]. intros j b Hj. apply better_mount_step; [done | lia | done]. }
  destruct best as [i|]; [|destruct Hb as [_ Hb]; by split]. pose proof Hb as (B1 & B2 & B3 & B4 & _). cbn in B4. subst bl. split; [done|].
  unfold mount_len. destruct B3 as [E|(_ & rest & -> & Hr)].
  - rewrite E. destruct p as [|c p]; [done|]. injection Hh as ->. change (zdrop (zlen [47]) (47 :: p)) with p.
    case_bool_decide as Hd; [|by left]. right. destruct p as [|d p]; [done|]. by injection Hd as ->.
  - rewrite zdrop_app_len. case_bool_decide as Hd; [right | left; done]. destruct rest as [|d rest]; [done|]. by injection Hd as ->.
Qed.

(** C21 [vfs_find_mount] sends a path to the mounted filesystem with the longest
    mount path that ends at a component boundary of it (the first of those in
    the table), with the rest of the path behind the separating slash; it
    finds nothing exactly when no mount covers the path. *)
Theorem vfs_find_mount_longest s p : mounts_ok s -> head p = Some 47 -> 0 ∉ p ->
  match vfs_find_mount (Some p) s with
  | Some (i, rel) =>
      0 <= i < VFS_MAX_MOUNTPOINTS /\ mounted (fs_at s i) = true /\ covers (mount_path (fs_at s i)) p /\
      (p = mount_path (fs_at s i) ++ rel \/ p = mount_path (fs_at s i) ++ 47 :: rel) /\
      forall j, 0 <= j < VFS_MAX_MOUNTPOINTS -> mounted (fs_at s j) = true -> covers (mount_path (fs_at s j)) p ->
        zlen (mount_path (fs_at s j)) <= zlen (mount_path (fs_at s i)) /\
        (zlen (mount_path (fs_at s j)) = zlen (mount_path (fs_at s i)) -> i <= j)
  | None => forall j, 0 <= j < VFS_MAX_MOUNTPOINTS -> mounted (fs_at s j) = true -> ~ covers (mount_path (fs_at s j)) p
  end.
Proof.
  intros Hm Hh H0. pose proof (find_mount_best s p Hm Hh H0) as Hb. destruct (vfs_find_mount (Some p) s) as [[i rel]|].
  - destruct Hb as [(B1 & B2 & B3 & _ & B5) Hr]. done.
  - apply Hb.
Qed.

Lemma better_mount_cases p s i best :
  better_mount p s i best = best \/ (mounted (fs_at s i) = true /\ (better_mount p s i best).1 = Some i).
Proof.
  unfold better_mount. destruct (mounted (fs_at s i)); cbn [negb]; [|by left].
  destruct (_ && _); [destruct (_ <? _); auto|]. destruct (strncmp_eq _ _ _); [|by left]. cbn zeta. destruct (_ && _); auto.
Qed.

(** The search only reads the table. *)
Lemma find_mount_slot path s i rel : vfs_find_mount path s = Some (i, rel) -> 0 <= i < VFS_MAX_MOUNTPOINTS /\ mounted (fs_at s i) = true.
Proof.
  unfold vfs_find_mount. destruct path as [p|]; [|done]. destruct (negb _); [done|].
  pose proof (zfor_ind (fun n (b : option Z * Z) => match b.1 with Some i => 0 <= i < n /\ mounted (fs_at s i) = true | None => True end)
    (better_mount p s) (Z.to_nat VFS_MAX_MOUNTPOINTS) 0 (None, 0) ltac:(done)) as Hz.
  destruct (zfor _ 0 _ _) as [[b|] bl]; [|done]. intros E. injection E as -> _.
  change (0 + Z.of_nat (Z.to_nat VFS_MAX_MOUNTPOINTS)) with VFS_MAX_MOUNTPOINTS in Hz. apply Hz.
  intros j b Hj Hb. destruct (better_mount_cases p s j b) as [->|[Hjm ->]]; [|split; [lia | done]].
  destruct b.1; [|done]. destruct Hb. split; [lia | done].
Qed.

(** ** Mounting *)

Lemma mount_name_head p : head p = Some 47 -> head (mount_name p) = Some 47.
Proof.
  intros Hh. destruct p as [|c p]; [done|]. injection Hh as ->. unfold mount_name.
  assert (exists q, ztake (VFS_MAX_PATH - 1) (47 :: p) = 47 :: q) as [q E] by (eexists; reflexivity). rewrite E.
  destruct (1 <? zlen (47 :: q)) eqn:El; cbn [andb]; [|done]. destruct (_ =? 47); [|done]. apply Z.ltb_lt in El.
  unfold ztake. destruct (Z.to_nat (zlen (47 :: q) - 1)) as [|n] eqn:En; [lia|]. done.
Qed.

Lemma fs_at_set s i f j : zlen (mount_table s) = VFS_MAX_MOUNTPOINTS -> 0 <= i < VFS_MAX_MOUNTPOINTS -> 0 <= j < VFS_MAX_MOUNTPOINTS ->
  fs_at (set_mounts (zset (mount_table s) i f) s) j = if decide (j = i) then f else fs_at s j.
Proof.
  intros Hl Hi Hj. unfold fs_at. cbn. case_decide as E; [subst j; apply zget_zset_eq; lia | apply zget_zset_ne; lia].
Qed.

(** What a mount request does to the table. *)
Lemma vfs_mount_spec path k d s r s' : vfs_mount (Some path) (Some k) d s = (r, s') ->
  (r <> 0 /\ s' = s) \/
  (r = 0 /\ head path = Some 47 /\ mount_named path s = None /\ exists i, free_mount s = Some i /\
    s' = add_note ExecFlush (set_mounts (zset (mount_table s) i (mk_fs (mount_name path) (zlen (mount_name path)) (Some k) d true)) s)).
Proof.
  unfold vfs_mount. case_bool_decide as Hh; cbn [negb]; [|intros E; injection E as <- <-; by left].
  unfold mbind, st_bind, gets. destruct (mount_named path s) eqn:En; [intros E; injection E as <- <-; by left|].
  destruct (free_mount s) as [i|] eqn:Ef; [|intros E; injection E as <- <-; by left].
  intros E. injection E as <- <-. right. split_and!; try done. by exists i.
Qed.

(** [vfs_mount] compares the path it is given with the stored mount paths
    before it removes a trailing slash from it: mounting ["/dir/"] succeeds
    although ["/dir"] is mounted, and the table then holds the same mount path
    twice. *)
Theorem vfs_mount_twice s i p k d j :
  mounts_ok s -> 0 <= i < VFS_MAX_MOUNTPOINTS -> mounted (fs_at s i) = true -> mount_path (fs_at s i) = p ->
  zlen p < VFS_MAX_PATH - 1 -> free_mount s = Some j ->
  (forall q, 0 <= q < VFS_MAX_MOUNTPOINTS -> mounted (fs_at s q) = true -> mount_path (fs_at s q) <> p ++ [47]) ->
  let '(r, s') := vfs_mount (Some (p ++ [47])) (Some k) d s in
  r = 0 /\ i <> j /\ mounted (fs_at s' i) = true /\ mounted (fs_at s' j) = true /\
  mount_path (fs_at s' i) = p /\ mount_path (fs_at s' j) = p.
Proof.
  intros Hm Hi Him Hp Hl Hf Hno. destruct (mo_path s Hm i Hi Him) as [_ Hh]. rewrite Hp in Hh. pose proof (mo_len s Hm) as Hlen.
  destruct (vfs_mount _ _ _ s) as [r s'] eqn:E. pose proof (zfind_spec (Z.to_nat VFS_MAX_MOUNTPOINTS) 0 (fun i => negb (mounted (fs_at s i)))) as Hz.
  fold (free_mount s) in Hz. rewrite Hf in Hz. destruct Hz as (Hj & Hjm & _). apply negb_true_iff in Hjm.
  change (0 + Z.of_nat (Z.to_nat VFS_MAX_MOUNTPOINTS)) with VFS_MAX_MOUNTPOINTS in Hj. assert (i <> j) as Hij by congruence.
  assert (mount_named (p ++ [47]) s = None) as Hnm.
  { pose proof (zfind_spec (Z.to_nat VFS_MAX_MOUNTPOINTS) 0 (fun i => mounted (fs_at s i) && bytes_eqb (mount_path (fs_at s i)) (p ++ [47]))) as Hz.
    fold (mount_named (p ++ [47]) s) in Hz. destruct (mount_named (p ++ [47]) s) as [q|]; [|done]. destruct Hz as (Hq & Hqq & _).
    apply andb_true_iff in Hqq as [Hqm Hqe]. apply bool_decide_eq_true in Hqe. by destruct (Hno q Hq Hqm). }
  assert (head (p ++ [47]) = Some 47) as Hh2 by (by destruct p).
  assert (mount_name (p ++ [47]) = p) as Hmn.
  { unfold mount_name. rewrite ztake_all by (rewrite zlen_app; change (zlen [47]) with 1; lia). rewrite zlen_app. change (zlen [47]) with 1.
    assert (1 <= zlen p) by (destruct p as [|c l]; [done|]; rewrite zlen_cons; pose proof (zlen_nonneg l); lia).
    rewrite (proj2 (Z.ltb_lt 1 _)), zget_app_r by lia. replace (zlen p + 1 - 1 - zlen p) with 0 by lia. change (zget [47] 0 =? 47) with true.
    cbn [andb]. replace (zlen p + 1 - 1) with (zlen p) by lia. unfold ztake, zlen. rewrite Nat2Z.id. apply take_app_length. }
  destruct (vfs_mount_spec _ _ _ _ _ _ E) as [[Hr ->]|(-> & _ & _ & i' & Hf' & ->)].
  - exfalso. unfold vfs_mount in E. rewrite bool_decide_true in E by done. cbn [negb] in E.
    unfold mbind, st_bind, gets in E. rewrite Hnm, Hf in E. injection E as E _. lia.
  - assert (i' = j) as -> by congruence. rewrite Hmn.
    assert (forall x, fs_at (add_note ExecFlush (set_mounts x s)) = fs_at (set_mounts x s)) as En by done. rewrite !En, !fs_at_set by done.
    rewrite decide_False, decide_True by done. done.
Qed.
End mount.
