(* ===== verification/VfsFiles.v ===== *)
(** * Open files and the handles behind them

    Every operation of src/vfs.c keeps the tables consistent: an open file
    belongs to a mounted filesystem, and a filesystem is never given a handle
    that it did not hand out or that was closed. *)
From S2P Require Import Prelude Paths Heap Vfs VfsMount.

(** ** The life of handles *)

(** One occurrence less. *)
Fixpoint remove_one {A} `{!EqDecision A} (x : A) (l : list A) : option (list A) :=
  match l with
  | [] => None
  | y :: l => if decide (x = y) then Some l else cons y <$> remove_one x l
  end.
Lemma remove_one_perm {A} `{!EqDecision A} (x : A) l : x ∈ l -> exists k, remove_one x l = Some k /\ l ≡ₚ x :: k.
Proof.
  induction l as [|y l IH]; [intros Hx; by apply not_elem_of_nil in Hx|]. cbn. destruct (decide (x = y)) as [->|Hne]; [by exists l|].
  intros [|Hx]%elem_of_cons; [done|]. destruct (IH Hx) as (k & -> & Hk). exists (y :: k). split; [done|]. rewrite Hk. apply Permutation_swap.
Qed.

(** The handles that are open after the calls recorded; [None] if a call used
    or closed a handle that was not open. *)
Fixpoint handles (live : list (Z * Z)) (notes : list vnote) : option (list (Z * Z)) :=
  match notes with
  | [] => Some live
  | FsOpened slot h :: notes => handles ((slot, h) :: live) notes
  | FsUsed slot h :: notes => if decide ((slot, h) ∈ live) then handles live notes else None
  | FsClosed slot h :: notes => live ← remove_one (slot, h) live; handles live notes
  | _ :: notes => handles live notes
  end.

Lemma handles_app live l l' : handles live (l ++ l') = live' ← handles live l; handles live' l'.
Proof.
  revert live. induction l as [|n l IH]; intros live; [done|]. destruct n; cbn; try apply IH.
  - case_decide; [apply IH | done].
  - destruct (remove_one (slot, handle) live); [apply IH | done].
Qed.

(** Notes that are not about handles. *)
Definition neutral (n : vnote) : Prop := match n with FsOpened _ _ | FsUsed _ _ | FsClosed _ _ => False | _ => True end.
Lemma handles_neutral live l : Forall neutral l -> handles live l = Some live.
Proof. induction 1 as [|n l Hn _ IH]; [done|]. by destruct n. Qed.

Definition fd_pair (vf : vfs_file) : option (Z * Z) := if in_use vf then slot ← vf_fs vf; Some (slot, fs_handle vf) else None.

Section files.
Context {W : Type} `{!KHeap W}.
Context (ops_of : fskind -> vfs_fs_ops W) (fat32 : fat32_direct W).
Abbreviation st := (st (W := W)).
Implicit Types (s : vfs (W := W)).

(** The handles held by open files. *)
Definition fd_handles s : list (Z * Z) := omap fd_pair (open_files s).

(** Every filesystem can close. *)
Definition all_close : Prop := forall k, op_close (ops_of k) <> None.

(** The handles of open files are open; with [all_close], nothing else is. *)
Definition held (live fds : list (Z * Z)) : Prop := fds ⊆+ live /\ (all_close -> live ≡ₚ fds).

Record vfs_ok s : Prop := {
  vk_mounts : mounts_ok s;
  vk_files : zlen (open_files s) = VFS_MAX_OPEN_FILES;
  vk_file : forall fd, 0 <= fd < VFS_MAX_OPEN_FILES -> in_use (file_at s fd) = true ->
    exists slot, vf_fs (file_at s fd) = Some slot /\ 0 <= slot < VFS_MAX_MOUNTPOINTS /\ mounted (fs_at s slot) = true;
  vk_handles : exists live, handles [] (v_notes s) = Some live /\ held live (fd_handles s);
}.

Lemma file_at_set s fd vf j : zlen (open_files s) = VFS_MAX_OPEN_FILES -> 0 <= fd < VFS_MAX_OPEN_FILES -> 0 <= j < VFS_MAX_OPEN_FILES ->
  file_at (set_files (zset (open_files s) fd vf) s) j = if decide (j = fd) then vf else file_at s j.
Proof. intros Hl Hi Hj. unfold file_at. cbn. case_decide as E; [subst j; apply zget_zset_eq; lia | apply zget_zset_ne; lia]. Qed.

(** Replacing one file. *)
Lemma fd_handles_split s fd : zlen (open_files s) = VFS_MAX_OPEN_FILES -> 0 <= fd < VFS_MAX_OPEN_FILES ->
  exists l1 l2, fd_handles s = l1 ++ from_option (fun p => [p]) [] (fd_pair (file_at s fd)) ++ l2 /\
    forall vf, fd_handles (set_files (zset (open_files s) fd vf) s) = l1 ++ from_option (fun p => [p]) [] (fd_pair vf) ++ l2.
Proof.
  intros Hl Hi. destruct (lookup_lt_is_Some_2 (open_files s) (Z.to_nat fd)) as [x Hx]; [unfold zlen in Hl; lia|].
  pose proof (take_drop_middle _ _ _ Hx) as Hs. assert (file_at s fd = x) as -> by (by apply zget_lookup).
  exists (omap fd_pair (take (Z.to_nat fd) (open_files s))), (omap fd_pair (drop (S (Z.to_nat fd)) (open_files s))). split.
  - unfold fd_handles. rewrite <- Hs at 1. rewrite omap_app. cbn. by destruct (fd_pair x).
  - intros vf. unfold fd_handles. cbn. unfold zset. rewrite insert_take_drop by (unfold zlen in Hl; lia). rewrite omap_app. cbn. by destruct (fd_pair vf).
Qed.

(** ** Operations that leave the tables alone *)

Record untouched s s' : Prop := {
  ut_mounts : mount_table s' = mount_table s;
  ut_files : open_files s' = open_files s;
  ut_notes : exists l, v_notes s' = v_notes s ++ l /\ Forall neutral l;
}.
Definition quiet {A} (m : st A) : Prop := forall s, untouched s (m s).2.
Definition keeps {A} (m : st A) : Prop := forall s, vfs_ok s -> vfs_ok (m s).2.

Lemma untouched_refl s s' : mount_table s' = mount_table s -> open_files s' = open_files s -> v_notes s' = v_notes s -> untouched s s'.
Proof. intros. split; try done. exists []. by rewrite app_nil_r. Qed.
Lemma untouched_trans s1 s2 s3 : untouched s1 s2 -> untouched s2 s3 -> untouched s1 s3.
Proof.
  intros [M1 F1 (l1 & N1 & L1)] [M2 F2 (l2 & N2 & L2)]. split; [congruence | congruence |]. exists (l1 ++ l2).
  rewrite N2, N1, app_assoc. split; [done | by apply Forall_app].
Qed.
Lemma mounts_ok_eq s s' : mount_table s' = mount_table s -> mounts_ok s -> mounts_ok s'.
Proof. intros M [Km Kp Ko]. split; unfold fs_at; rewrite M; done. Qed.
Lemma untouched_ok s s' : untouched s s' -> vfs_ok s -> vfs_ok s'.
Proof.
  intros [M F (l & N & L)] [K1 K2 K3 (live & K4 & K5)]. unfold fd_handles, fs_at, file_at in *. split.
  - by apply (mounts_ok_eq s).
  - by rewrite F.
  - unfold file_at, fs_at. rewrite F, M. done.
  - exists live. rewrite N, handles_app, K4. cbn. rewrite handles_neutral by done. unfold fd_handles. by rewrite F.
Qed.

Lemma quiet_ret {A} (a : A) : quiet (mret a).
Proof. intros s. by apply untouched_refl. Qed.
Lemma quiet_bind {A B} (m : st A) (f : A -> st B) : quiet m -> (forall a, quiet (f a)) -> quiet (m ≫= f).
Proof.
  intros Hm Hf s. unfold mbind, st_bind. specialize (Hm s). destruct (m s) as [a s1]. eapply untouched_trans; [done|]. apply Hf.
Qed.
Lemma quiet_gets {A} (f : vfs -> A) : quiet (gets f).
Proof. intros s. by apply untouched_refl. Qed.
Lemma quiet_world {A} (f : W -> A * W) : quiet (world f).
Proof. intros s. unfold world. destruct (f _). by apply untouched_refl. Qed.
Lemma quiet_note n : neutral n -> quiet (note n).
Proof. intros Hn s. split; try done. exists [n]. split; [done|]. by constructor. Qed.
Lemma quiet_when b m : quiet m -> quiet (when b m).
Proof. intros Hm. unfold when. destruct b; [done | apply quiet_ret]. Qed.
Lemma quiet_dc i c k : quiet (set_dc (W := W) i c k).
Proof. intros s. by apply untouched_refl. Qed.
Lemma quiet_fs_op {A B} (sel : vfs_fs_ops W -> option (Z -> A)) slot (none : st B) some :
  quiet none -> (forall op, quiet (some op)) -> quiet (fs_op ops_of sel slot none some).
Proof. intros Hn Hs s. unfold fs_op. destruct (k ← _; _); [apply Hs | apply Hn]. Qed.

Lemma keeps_quiet {A} (m : st A) : quiet m -> keeps m.
Proof. intros Hm s. by apply untouched_ok. Qed.
Lemma keeps_bind {A B} (m : st A) (f : A -> st B) : keeps m -> (forall a, keeps (f a)) -> keeps (m ≫= f).
Proof. intros Hm Hf s Hs. unfold mbind, st_bind. specialize (Hm s Hs). destruct (m s) as [a s1]. by apply Hf. Qed.
End files.

Create HintDb vfs.
#[export] Hint Resolve quiet_ret quiet_gets quiet_world quiet_when quiet_dc : vfs.

(** Take a body apart down to its effects. *)
Ltac quiet :=
  repeat match goal with
  | |- quiet (mbind _ _) => apply quiet_bind; [|intros ?]
  | |- quiet (when _ _) => apply quiet_when
  | |- quiet (fs_op _ _ _ _ _) => apply quiet_fs_op; [|intros ?]
  | |- quiet (note _) => apply quiet_note; exact I
  | |- quiet ((fun _ => _) _) => cbn beta
  | |- quiet (if ?b then _ else _) => destruct b
  | |- quiet (match ?x with _ => _ end) => destruct x
  | |- quiet ((match ?x with _ => _ end) _) => destruct x
  | |- quiet _ => solve [eauto 2 with vfs]
  end.

Section quiet_ops.
Context {W : Type} `{!KHeap W}.
Context (ops_of : fskind -> vfs_fs_ops W) (fat32 : fat32_direct W).

Lemma fs_ro_quiet slot : quiet (vfs_fs_ro ops_of slot).
Proof. unfold vfs_fs_ro. quiet. Qed.
Lemma fs_has_quiet slot rel : quiet (vfs_fs_has ops_of slot rel).
Proof. unfold vfs_fs_has. quiet. Qed.
Lemma isdir_quiet slot rel : quiet (vfs_isdir_locked ops_of slot rel).
Proof. unfold vfs_isdir_locked. quiet. Qed.
Hint Resolve fs_ro_quiet fs_has_quiet isdir_quiet : vfs.
Lemma kalloc_quiet n : quiet (kalloc_v (W := W) n).
Proof. unfold kalloc_v. quiet. Qed.
Lemma kfree_quiet n : quiet (kfree_v (W := W) n).
Proof. unfold kfree_v. quiet. Qed.
Hint Resolve kalloc_quiet kfree_quiet : vfs.
Lemma auto_create_quiet slot rel flags : quiet (auto_create ops_of slot rel flags).
Proof. unfold auto_create. quiet. Qed.
Lemma open_events_quiet path flags c d : quiet (open_events (W := W) path flags c d).
Proof. unfold open_events. quiet. Qed.
Lemma fd_event_quiet fd b mask : quiet (fd_event (W := W) fd b mask).
Proof. unfold fd_event. quiet. Qed.
Lemma vfs_readdir_quiet path max : quiet (vfs_readdir ops_of path max).
Proof. unfold vfs_readdir. quiet. Qed.
Hint Resolve auto_create_quiet open_events_quiet fd_event_quiet vfs_readdir_quiet : vfs.
Lemma readdir_rounds_quiet fuel path cap extra : quiet (readdir_rounds ops_of fuel path cap extra).
Proof. revert cap. induction fuel as [|fuel IH]; intros cap; cbn [readdir_rounds]; quiet. Qed.
Lemma dircache_copy_quiet i pos max : quiet (dircache_copy (W := W) i pos max).
Proof. unfold dircache_copy. quiet. Qed.
Lemma kfree_opt_quiet {A} (x : option (Z * A)) : quiet (kfree_opt (W := W) x).
Proof. unfold kfree_opt. quiet. Qed.
Hint Resolve readdir_rounds_quiet dircache_copy_quiet kfree_opt_quiet : vfs.
Lemma dircache_fill_quiet key path pos max n e es : quiet (dircache_fill (W := W) key path pos max n e es).
Proof. unfold dircache_fill. quiet. Qed.
Hint Resolve dircache_fill_quiet : vfs.
Lemma dircache_read_quiet key path pos max augment extra : quiet (vfs_dircache_read ops_of key path pos max augment extra).
Proof. unfold vfs_dircache_read, dircache_build, vfs_readdir_alloc. quiet. Qed.
Lemma dircache_drop_quiet key : quiet (vfs_dircache_drop (W := W) key).
Proof. unfold vfs_dircache_drop. generalize 0. induction (Z.to_nat VFS_DIRCACHE_SLOTS) as [|n IH]; intros i; cbn [dircache_drop_loop]; quiet. Qed.
Lemma vfs_create_quiet path : quiet (vfs_create ops_of path).
Proof. unfold vfs_create. quiet. Qed.
Lemma vfs_mkdir_quiet path : quiet (vfs_mkdir ops_of path).
Proof. unfold vfs_mkdir. quiet. Qed.
Lemma vfs_exists_quiet path : quiet (vfs_exists ops_of path).
Proof. unfold vfs_exists. quiet. Qed.
Hint Resolve vfs_create_quiet vfs_mkdir_quiet vfs_exists_quiet : vfs.
Lemma mkdir_p_loop_quiet fuel buf p : quiet (mkdir_p_loop ops_of fuel buf p).
Proof. revert buf p. induction fuel as [|fuel IH]; intros buf p; cbn [mkdir_p_loop]; quiet. Qed.
Hint Resolve mkdir_p_loop_quiet : vfs.
Lemma vfs_mkdir_p_quiet path : quiet (vfs_mkdir_p ops_of path).
Proof. unfold vfs_mkdir_p. quiet. Qed.
Hint Resolve vfs_mkdir_p_quiet : vfs.
Lemma vfs_ensure_parent_quiet path : quiet (vfs_ensure_parent ops_of path).
Proof. unfold vfs_ensure_parent, vfs_ensure_parent_impl. cbn zeta. quiet. Qed.
Lemma vfs_unlink_quiet path : quiet (vfs_unlink ops_of path).
Proof. unfold vfs_unlink. quiet. Qed.
Lemma rename_notes_quiet a b d : quiet (rename_notes (W := W) a b d).
Proof. unfold rename_notes. quiet. Qed.
Lemma rmdir_notes_quiet p : quiet (rmdir_notes (W := W) p).
Proof. unfold rmdir_notes. quiet. Qed.
Hint Resolve rename_notes_quiet rmdir_notes_quiet : vfs.
Lemma vfs_rename_quiet a b : quiet (vfs_rename ops_of fat32 a b).
Proof. unfold vfs_rename. cbn zeta. quiet. Qed.
Lemma vfs_rmdir_quiet p : quiet (vfs_rmdir ops_of fat32 p).
Proof. unfold vfs_rmdir. cbn zeta. quiet. Qed.
Lemma vfs_stat_quiet p : quiet (vfs_stat ops_of p).
Proof. unfold vfs_stat. quiet. Qed.
Lemma vfs_lstat_quiet p : quiet (vfs_lstat ops_of p).
Proof. unfold vfs_lstat. quiet. Qed.
Lemma vfs_times_quiet p a b : quiet (vfs_times ops_of p a b).
Proof. unfold vfs_times. quiet. Qed.
Lemma read_link_quiet p cap : quiet (read_link ops_of p cap).
Proof. unfold read_link. quiet. Qed.
Hint Resolve read_link_quiet : vfs.
Lemma resolve_loop_quiet fuel out rest loops outsz fl : quiet (resolve_loop ops_of fuel out rest loops outsz fl).
Proof.
  revert out rest loops. induction fuel as [|fuel IH]; intros out rest loops; cbn [resolve_loop]; [quiet|]. cbn zeta. quiet.
Qed.
Hint Resolve resolve_loop_quiet : vfs.
Lemma vfs_resolve_quiet p outsz fl : quiet (vfs_resolve ops_of p outsz fl).
Proof. unfold vfs_resolve. generalize resolve_fuel. intros fuel. quiet. Qed.
Lemma vfs_symlink_quiet t p : quiet (vfs_symlink ops_of t p).
Proof. unfold vfs_symlink. quiet. Qed.
Lemma vfs_link_quiet a b : quiet (vfs_link ops_of a b).
Proof. unfold vfs_link. quiet. Qed.
Lemma vfs_setattr_quiet p w m u g : quiet (vfs_setattr ops_of p w m u g).
Proof. unfold vfs_setattr. quiet. Qed.
Lemma vfs_truncate_quiet p len : quiet (vfs_truncate ops_of fat32 p len).
Proof. unfold vfs_truncate. cbn zeta. quiet. Qed.
Lemma vfs_sync_quiet : quiet (vfs_sync_all ops_of).
Proof.
  unfold vfs_sync_all. generalize 0 at 1. generalize 0. induction (Z.to_nat VFS_MAX_MOUNTPOINTS) as [|n IH]; intros r i; cbn [sync_loop]; quiet.
Qed.
End quiet_ops.
#[export] Hint Resolve fs_ro_quiet fs_has_quiet isdir_quiet kalloc_quiet kfree_quiet auto_create_quiet open_events_quiet fd_event_quiet
  vfs_ensure_parent_quiet : vfs.

(** ** Operations on open files *)

Section fd_ops.
Context {W : Type} `{!KHeap W}.
Context (ops_of : fskind -> vfs_fs_ops W) (fat32 : fat32_direct W).
Abbreviation vfs_ok := (vfs_ok ops_of).
Abbreviation keeps := (keeps ops_of).
Implicit Types (s : vfs (W := W)) (fd slot : Z).

Definition fd_valid s fd : Prop := 0 <= fd < VFS_MAX_OPEN_FILES /\ in_use (file_at s fd) = true.
Lemma fd_ok_valid s fd : vfs_fd_ok s fd = true <-> fd_valid s fd.
Proof.
  unfold vfs_fd_ok, fd_valid. rewrite !andb_true_iff, negb_true_iff, Z.ltb_ge, Z.ltb_lt. tauto.
Qed.

Lemma use_ok s fd slot : vfs_ok s -> fd_valid s fd -> vf_fs (file_at s fd) = Some slot ->
  vfs_ok (add_note (FsUsed slot (fs_handle (file_at s fd))) s).
Proof.
  intros Hok [Hfd Hu] Hs. pose proof Hok as [K1 K2 K3 (live & K4 & K5)]. split; [by apply (mounts_ok_eq s) | exact K2 | exact K3 |]. exists live. split; [|exact K5].
  cbn. rewrite handles_app, K4. cbn. rewrite decide_True; [done|]. destruct (fd_handles_split s fd K2 Hfd) as (l1 & l2 & El & _).
  unfold fd_pair in El. rewrite Hu, Hs in El. cbn in El. eapply elem_of_submseteq; [|exact (proj1 K5)]. rewrite El. set_solver.
Qed.

Lemma file_op_ok {A B} (sel : vfs_fs_ops W -> option (Z -> Z -> A)) (none : st B) some s fd :
  vfs_ok s -> fd_valid s fd -> vfs_ok (none s).2 -> (forall op, quiet (some op)) ->
  vfs_ok (file_op ops_of sel (file_at s fd) none some s).2.
Proof.
  intros Hok Hfd Hn Hs. unfold file_op. destruct (vf_fs (file_at s fd)) as [slot|] eqn:Ef; [|done].
  unfold fs_op. destruct (k ← _; _) as [op|]; [|done]. unfold mbind, st_bind, note, modify. cbn iota beta.
  eapply untouched_ok; [apply Hs|]. by apply use_ok.
Qed.

(** An operation that starts by looking the descriptor up. *)
Lemma keeps_fd {A} fd (e : A) (k : vfs_file -> st A) : (forall s, vfs_ok s -> fd_valid s fd -> vfs_ok (k (file_at s fd) s).2) ->
  keeps (ok ← gets (fun s => vfs_fd_ok s fd); if negb ok then mret e else vf ← gets (fun s => file_at s fd); k vf).
Proof.
  intros Hk s Hs. unfold mbind, st_bind, gets. cbn iota beta. destruct (vfs_fd_ok s fd) eqn:E; cbn [negb]; [|done].
  apply Hk; [done|]. by apply fd_ok_valid.
Qed.

Lemma vfs_read_keeps fd size : keeps (vfs_read ops_of fd size).
Proof. apply keeps_fd. intros s Hs Hf. apply file_op_ok; try done. intros op. quiet. Qed.
Lemma vfs_write_keeps fd buf : keeps (vfs_write ops_of fd buf).
Proof.
  apply keeps_fd. intros s Hs Hf. destruct (negb _); [done|]. apply file_op_ok; try done. intros op. quiet.
Qed.
Lemma vfs_seek_keeps fd a b : keeps (vfs_seek ops_of fd a b).
Proof. apply keeps_fd. intros s Hs Hf. apply file_op_ok; try done. intros op. quiet. Qed.
Lemma vfs_ioctl_keeps fd a b : keeps (vfs_ioctl ops_of fd a b).
Proof. apply keeps_fd. intros s Hs Hf. apply file_op_ok; try done. intros op. quiet. Qed.

Lemma bind_ok {A B} (m : st A) (f : A -> st B) s : vfs_ok (m s).2 -> (forall a, keeps (f a)) -> vfs_ok ((m ≫= f) s).2.
Proof. intros Hm Hf. unfold mbind, st_bind. destruct (m s) as [a s1]. by apply Hf. Qed.

Lemma vfs_ftruncate_keeps fd len : keeps (vfs_ftruncate ops_of fat32 fd len).
Proof.
  apply keeps_fd. intros s Hs Hf. apply bind_ok; [|intros a; apply keeps_quiet; quiet].
  apply file_op_ok; try done; [|intros op; quiet]. unfold mbind, st_bind, gets. cbn iota beta. unfold is_fat32.
  destruct (vf_fs (file_at s fd)) as [slot|] eqn:Ef; [|done]. case_bool_decide; cbn [negb]; [|done]. destruct (_ <? len); [done|].
  eapply untouched_ok; [apply quiet_world|]. by apply use_ok.
Qed.

(** ** Opening and closing *)

Lemma held_close x l1 l2 live live' : held ops_of live (l1 ++ x :: l2) ->
  (~ all_close ops_of /\ live' = live) \/ live ≡ₚ x :: live' -> held ops_of live' (l1 ++ l2).
Proof.
  intros [H1 H2] [[Hn ->]|Hl].
  - split; [|done]. etrans; [|exact H1]. apply submseteq_app; [done|]. apply submseteq_cons_r. by left.
  - split.
    + apply (submseteq_app_inv_l (l1 ++ l2) live' [x]). cbn. rewrite <- Hl. etrans; [|exact H1].
      apply Permutation_submseteq. by rewrite <- Permutation_middle.
    + intros Hc. apply (Permutation_cons_inv (a := x)). rewrite <- Hl, (H2 Hc). by rewrite Permutation_middle.
Qed.

(** The call of [close]. *)
Lemma close_call s fd slot live : vfs_ok s -> handles [] (v_notes s) = Some live -> held ops_of live (fd_handles s) ->
  fd_valid s fd -> vf_fs (file_at s fd) = Some slot -> mounted (fs_at s slot) = true -> 0 <= slot < VFS_MAX_MOUNTPOINTS ->
  let h := fs_handle (file_at s fd) in
  exists s1 r, fs_op ops_of op_close slot (mret 0) (fun close => note (FsClosed slot h);; world (close h)) s = (r, s1) /\
    mount_table s1 = mount_table s /\ open_files s1 = open_files s /\
    exists live', handles [] (v_notes s1) = Some live' /\ ((~ all_close ops_of /\ live' = live) \/ live ≡ₚ (slot, h) :: live').
Proof.
  intros [K1 K2 _ _] K4 [K5 _] [Hfd Hu] Hs Hm Hslot. cbn zeta. unfold fs_op. destruct (mo_ops _ K1 slot Hslot Hm) as [kd ->]. cbn.
  destruct (op_close (ops_of kd)) as [op|] eqn:Ec.
  2:{ exists s, 0. split_and!; try done. exists live. split; [done|]. left. split; [|done]. intros Hc. by apply (Hc kd). }
  unfold mbind, st_bind, note, modify, world. cbn. destruct (op _ _ _) as [r w]. eexists _, r. split_and!; try done.
  destruct (fd_handles_split s fd K2 Hfd) as (l1 & l2 & El & _). unfold fd_pair in El. rewrite Hu, Hs in El. cbn in El.
  destruct (remove_one_perm (slot, fs_handle (file_at s fd)) live) as (k & Ek & Hk).
  { eapply elem_of_submseteq; [|exact K5]. rewrite El. set_solver. }
  exists k. cbn. rewrite handles_app, K4. cbn. rewrite Ek. auto.
Qed.

Lemma vfs_close_locked_spec fd s : vfs_ok s ->
  let s' := (vfs_close_locked ops_of fd s).2 in
  vfs_ok s' /\ mount_table s' = mount_table s /\ zlen (open_files s') = zlen (open_files s) /\
  forall j, 0 <= j < VFS_MAX_OPEN_FILES -> in_use (file_at s' j) = true -> in_use (file_at s j) = true /\ vf_fs (file_at s' j) = vf_fs (file_at s j) /\ j <> fd.
Proof.
  intros Hok. unfold vfs_close_locked. unfold mbind, st_bind, gets, modify. cbn iota beta zeta.
  destruct (vfs_fd_ok s fd) eqn:E; cbn [negb].
  2:{ unfold mret, st_ret. cbn [snd]. split; [done|]. split; [done|]. split; [done|]. intros j Hj Hu. split_and!; try done. intros ->. assert (vfs_fd_ok s fd = true) by (by apply fd_ok_valid). congruence. }
  apply fd_ok_valid in E as Hv. pose proof Hv as [Hfd Hu]. pose proof Hok as [K1 K2 K3 (live & K4 & K5)].
  destruct (K3 fd Hfd Hu) as (slot & Hs & Hslot & Hm).
  destruct (close_call s fd slot live Hok K4 K5 Hv Hs Hm Hslot) as (s1 & r & Em & M1 & F1 & live' & L1 & L2).
  unfold mbind, st_bind in Em. rewrite Hs, Em. cbn iota beta.
  set (vf := file_at s fd) in *. assert (zlen (open_files s1) = VFS_MAX_OPEN_FILES) as K2' by (by rewrite F1).
  set (vf' := mk_vf false _ 0 _ _). set (s2 := set_files (zset (open_files s1) fd vf') s1). unfold mret, st_ret. cbn [snd].
  assert (forall j, 0 <= j < VFS_MAX_OPEN_FILES -> file_at s2 j = if decide (j = fd) then vf' else file_at s j) as Hfile.
  { intros j Hj. unfold s2. rewrite file_at_set by done. case_decide; [done|]. unfold file_at. by rewrite F1. }
  assert (forall j, fs_at s2 j = fs_at s j) as Hfs by (intros j; unfold fs_at; cbn; by rewrite M1).
  split_and!; [split| | |].
  - by apply (mounts_ok_eq s).
  - cbn. by rewrite zlen_zset.
  - intros j Hj. rewrite Hfile by done. case_decide; [done|]. intros Hju. setoid_rewrite Hfs. by apply K3.
  - exists live'. split; [done|]. destruct (fd_handles_split s1 fd K2' Hfd) as (l1 & l2 & El & Eset). unfold s2. rewrite Eset. cbn.
    assert (file_at s1 fd = vf) as Ev by (unfold file_at; by rewrite F1). rewrite Ev in El. unfold fd_pair in El. rewrite Hu, Hs in El. cbn in El.
    assert (fd_handles s1 = fd_handles s) as Eh by (unfold fd_handles; by rewrite F1). rewrite Eh in El. rewrite El in K5. by eapply held_close.
  - done.
  - unfold s2. cbn. by rewrite zlen_zset, F1.
  - intros j Hj. rewrite Hfile by done. case_decide; [done|]. done.
Qed.

Lemma vfs_close_locked_keeps fd : keeps (vfs_close_locked ops_of fd).
Proof. intros s Hs. by apply vfs_close_locked_spec. Qed.
Lemma vfs_close_keeps fd : keeps (vfs_close ops_of fd).
Proof.
  unfold vfs_close. do 3 (apply keeps_bind; [apply keeps_quiet; quiet|intros ?]).
  apply keeps_bind; [apply vfs_close_locked_keeps|]. intros r. apply keeps_quiet. quiet.
Qed.
End fd_ops.
