(* ===== verification/VfsSafe.v ===== *)
(** * The tables of the virtual filesystem are never corrupted

    Opening, closing, mounting and unmounting (src/vfs.c) keep the invariant
    of [VfsFiles], and with them every sequence of calls does. *)
From S2P Require Import Prelude Paths Heap Vfs VfsMount VfsFiles.

Section open_close.
Context {W : Type} `{!KHeap W}.
Context (ops_of : fskind -> vfs_fs_ops W) (fat32 : fat32_direct W).
Abbreviation st := (st (W := W)).
Abbreviation vfs_ok := (vfs_ok ops_of).
Abbreviation keeps := (keeps ops_of).
Implicit Types (s : vfs (W := W)) (fd slot : Z).

Lemma free_fd_spec s fd : free_fd s = Some fd -> 0 <= fd < VFS_MAX_OPEN_FILES /\ in_use (file_at s fd) = false.
Proof.
  unfold free_fd. intros E. pose proof (zfind_spec (Z.to_nat VFS_MAX_OPEN_FILES) 0 (fun i => negb (in_use (file_at s i)))) as Hz.
  rewrite E in Hz. destruct Hz as (Hr & Hu & _). apply negb_true_iff in Hu. split; [exact Hr | done].
Qed.

(** The new entry of [vfs_open], the filesystem having handed out [h]. *)
Definition opened slot h fd flags path s : vfs :=
  set_files (zset (open_files s) fd (mk_vf true (Some slot) h flags path)) (add_note (FsOpened slot h) s).

Lemma opened_ok slot h fd flags path s :
  vfs_ok s -> 0 <= slot < VFS_MAX_MOUNTPOINTS -> mounted (fs_at s slot) = true ->
  0 <= fd < VFS_MAX_OPEN_FILES -> in_use (file_at s fd) = false ->
  vfs_ok (opened slot h fd flags path s) /\ fd_valid (opened slot h fd flags path s) fd.
Proof.
  intros [K1 K2 K3 (live & K4 & K5)] Hslot Hm Hfd Hu. set (s' := opened _ _ _ _ _ _).
  assert (forall j, 0 <= j < VFS_MAX_OPEN_FILES -> file_at s' j = if decide (j = fd) then mk_vf true (Some slot) h flags path else file_at s j) as Hfile.
  { intros j Hj. unfold s', opened. by apply (file_at_set (add_note (FsOpened slot h) s)). }
  split; [split|].
  - by apply (mounts_ok_eq s).
  - cbn. by rewrite zlen_zset.
  - intros j Hj. rewrite Hfile by done. case_decide; [intros _; by exists slot|]. apply K3. done.
  - exists ((slot, h) :: live). split; [unfold s'; cbn; by rewrite handles_app, K4|].
    destruct (fd_handles_split (add_note (FsOpened slot h) s) fd K2 Hfd) as (l1 & l2 & El & Eset).
    assert (fd_handles s' = l1 ++ [(slot, h)] ++ l2) as -> by exact (Eset (mk_vf true (Some slot) h flags path)).
    unfold fd_pair in El. change (file_at (add_note (FsOpened slot h) s) fd) with (file_at s fd) in El. rewrite Hu in El. cbn in El.
    assert (fd_handles s = l1 ++ l2) as El' by exact El. rewrite El' in K5. destruct K5 as [H1 H2]. cbn [app]. split.
    + rewrite <- Permutation_middle. by apply submseteq_skip.
    + intros Hc. rewrite <- Permutation_middle. apply Permutation_skip. by apply H2.
  - split; [done|]. rewrite Hfile by done. by rewrite decide_True.
Qed.

Lemma untouched_valid s s' fd : untouched s s' -> fd_valid s fd -> fd_valid s' fd.
Proof. intros [_ F _] [Hf Hu]. split; [done|]. unfold file_at. by rewrite F. Qed.

(** A quiet step in front. *)
Lemma bind_quiet {A B} (m : st A) (f : A -> st B) (Q : B * vfs (W := W) -> Prop) s : quiet m ->
  (forall a s1, m s = (a, s1) -> untouched s s1 -> Q (f a s1)) -> Q ((m ≫= f) s).
Proof.
  intros Hm Hf. unfold mbind, st_bind. pose proof (Hm s) as Hu. destruct (m s) as [a s1] eqn:E. by apply Hf.
Qed.

Definition open_post (r : Z * vfs (W := W)) : Prop := vfs_ok r.2 /\ (0 <= r.1 -> fd_valid r.2 r.1).
Lemma open_fail (e : Z) s : vfs_ok s -> e < 0 -> open_post ((mret e : st Z) s).
Proof. intros Hs He. split; [done | cbn; lia]. Qed.

Lemma vfs_open_post path flags s : vfs_ok s -> open_post (vfs_open ops_of path flags s).
Proof.
  intros Hs. unfold vfs_open. unfold mbind at 1, st_bind, gets at 1. cbn iota beta.
  destruct (vfs_find_mount path s) as [[slot rel]|] eqn:Em; [|by apply open_fail].
  destruct (find_mount_slot _ _ _ _ Em) as [Hslot Hm].
  unfold fs_op. destruct (k ← _; _) as [open|]; [|by apply open_fail].
  apply bind_quiet; [quiet|]. intros ro s1 _ U1. assert (vfs_ok s1) as O1 by (by eapply untouched_ok). destruct ro.
  { apply bind_quiet; [quiet|]. intros th s2 _ U2. apply open_fail; [by eapply untouched_ok | by destruct th]. }
  unfold mbind at 1, st_bind, gets at 1. cbn iota beta. destruct (free_fd s1) as [fd|] eqn:Ef; [|by apply open_fail].
  apply free_fd_spec in Ef as [Hfd Hu].
  apply bind_quiet; [quiet|]. intros fc s2 _ U2. apply bind_quiet; [quiet|]. intros h s3 _ U3.
  assert (untouched s s3) as U by eauto using untouched_trans. assert (vfs_ok s3) as O3 by (by eapply untouched_ok).
  destruct (h =? 0); [by apply open_fail|]. cbn zeta.
  set (p := default [] path). set (n := when _ _). set (vp := ztake _ p).
  assert (in_use (file_at s3 fd) = false) as Hu3.
  { unfold file_at in *. destruct U2 as [_ F2 _], U3 as [_ F3 _]. by rewrite F3, F2. }
  assert (mounted (fs_at s3 slot) = true) as Hm3 by (destruct U as [M _ _]; unfold fs_at; by rewrite M).
  destruct (opened_ok slot h fd flags vp s3 O3 Hslot Hm3 Hfd Hu3) as [O4 V4].
  set (tail := (isdir ← vfs_isdir_locked _ _ _; _) : st Z). assert (quiet tail) as Qt by (unfold tail; quiet).
  assert (forall s', (tail s').1 = fd) as Rt.
  { intros s'. unfold tail, mbind, st_bind. destruct (vfs_isdir_locked _ _ _ s'). by destruct (open_events _ _ _ _ _). }
  unfold mbind at 1, st_bind, note, modify. cbn iota beta. unfold mbind at 1, st_bind.
  assert (n (add_note (FsOpened slot h) s3) = (tt, if has flags WRITE_FLAGS then add_note (ExecInvalidate p) (add_note (FsOpened slot h) s3) else add_note (FsOpened slot h) s3)) as En.
  { unfold n, when. by destruct (has flags WRITE_FLAGS). }
  rewrite En. unfold mbind at 1, st_bind. cbn iota beta. set (s5 := set_files _ _).
  assert (untouched (opened slot h fd flags vp s3) s5) as U5.
  { unfold s5. destruct (has flags WRITE_FLAGS); [|by apply untouched_refl]. split; try done. exists [ExecInvalidate p]. split; [done|]. by constructor. }
  split; [by eapply untouched_ok, untouched_ok|]. intros _. rewrite Rt. by eapply untouched_valid, untouched_valid.
Qed.

(** ** Mounting *)

Lemma free_mount_spec s i : free_mount s = Some i -> 0 <= i < VFS_MAX_MOUNTPOINTS /\ mounted (fs_at s i) = false.
Proof.
  unfold free_mount. intros E. pose proof (zfind_spec (Z.to_nat VFS_MAX_MOUNTPOINTS) 0 (fun i => negb (mounted (fs_at s i)))) as Hz.
  rewrite E in Hz. destruct Hz as (Hr & Hu & _). apply negb_true_iff in Hu. split; [exact Hr | done].
Qed.

Lemma vfs_mount_keeps path k d : keeps (vfs_mount (W := W) path k d).
Proof.
  intros s Hs. destruct path as [p|]; [|done]. destruct k as [k|]; [|done].
  destruct (vfs_mount (Some p) (Some k) d s) as [r s'] eqn:E. cbn [snd].
  destruct (vfs_mount_spec _ _ _ _ _ _ E) as [[_ ->]|(_ & Hh & _ & i & Hi & ->)]; [done|].
  apply free_mount_spec in Hi as [Hi Hm]. set (f := mk_fs _ _ _ _ _).
  eapply untouched_ok; [apply quiet_note; exact I|]. pose proof Hs as [[Km Kp Ko] K2 K3 K4].
  assert (forall j, 0 <= j < VFS_MAX_MOUNTPOINTS -> fs_at (set_mounts (zset (mount_table s) i f) s) j = if decide (j = i) then f else fs_at s j) as Hf
    by (intros j Hj; by apply fs_at_set).
  split; [split|done| |done].
  - cbn. by rewrite zlen_zset.
  - intros j Hj. rewrite Hf by done. case_decide; [|by apply Kp]. intros _. split; [done|]. by apply mount_name_head.
  - intros j Hj. rewrite Hf by done. case_decide; [done | by apply Ko].
  - intros fd Hfd Hu. destruct (K3 fd Hfd Hu) as (slot & Hs1 & Hs2 & Hs3). exists slot. split; [exact Hs1|]. split; [exact Hs2|].
    rewrite Hf by done. by case_decide.
Qed.

(** After the loop of [vfs_unmount] no open file belongs to the mount. *)
Lemma close_files_spec slot : forall n j s, vfs_ok s -> 0 <= j ->
  (forall fd, 0 <= fd < VFS_MAX_OPEN_FILES -> fd < j -> in_use (file_at s fd) = true -> vf_fs (file_at s fd) <> Some slot) ->
  let s' := (close_files ops_of n j slot s).2 in
  vfs_ok s' /\ mount_table s' = mount_table s /\
  forall fd, 0 <= fd < VFS_MAX_OPEN_FILES -> fd < j + Z.of_nat n -> in_use (file_at s' fd) = true -> vf_fs (file_at s' fd) <> Some slot.
Proof.
  induction n as [|n IH]; intros j s Hs Hj Hd; cbn [close_files].
  { split_and!; try done. intros fd Hfd Hlt. apply Hd; [done | lia]. }
  replace (j + Z.of_nat (S n)) with (j + 1 + Z.of_nat n) by lia.
  unfold mbind, st_bind, gets. cbn iota beta zeta. destruct (in_use (file_at s j) && bool_decide _) eqn:Eb.
  - pose proof (vfs_close_locked_spec ops_of j s Hs) as (O1 & M1 & _ & D1). destruct (vfs_close_locked ops_of j s) as [r s1]. cbn [snd] in *.
    unfold mret, st_ret. destruct (IH (j + 1) s1 O1 ltac:(lia)) as (O2 & M2 & D2).
    { intros fd Hfd Hlt Hu. destruct (D1 fd Hfd Hu) as (Hu0 & -> & Hne). apply Hd; [done | lia | done]. }
    split_and!; try done. congruence.
  - unfold mret, st_ret. apply IH; [done | lia|]. intros fd Hfd Hlt Hu. destruct (decide (fd = j)) as [->|]; [|apply Hd; [done | lia | done]].
    rewrite Hu in Eb. by apply bool_decide_eq_false in Eb.
Qed.

Lemma vfs_unmount_keeps path : keeps (vfs_unmount ops_of path).
Proof.
  intros s Hs. destruct path as [p|]; [|done]. unfold vfs_unmount. unfold mbind at 1, st_bind, gets. cbn iota beta.
  destruct (mount_named p s) as [i|] eqn:Em; [|done].
  assert (0 <= i < VFS_MAX_MOUNTPOINTS) as Hi.
  { unfold mount_named in Em. apply zfind_same in Em. change (Z.of_nat (Z.to_nat VFS_MAX_MOUNTPOINTS)) with VFS_MAX_MOUNTPOINTS in Em. lia. }
  pose proof (close_files_spec i (Z.to_nat VFS_MAX_OPEN_FILES) 0 s Hs ltac:(lia) ltac:(lia)) as (O1 & M1 & D1).
  unfold mbind at 1, st_bind. destruct (close_files ops_of _ 0 i s) as [u s1]. cbn [snd] in *.
  unfold mbind, st_bind, modify. cbn iota beta zeta. set (f := mk_fs _ _ _ _ _).
  eapply untouched_ok; [apply quiet_note; exact I|]. pose proof O1 as [[Km Kp Ko] K2 K3 K4].
  assert (forall j, 0 <= j < VFS_MAX_MOUNTPOINTS -> fs_at (set_mounts (zset (mount_table s1) i f) s1) j = if decide (j = i) then f else fs_at s1 j) as Hf
    by (intros j Hj; by apply fs_at_set).
  split; [split|done| |done].
  - cbn. by rewrite zlen_zset.
  - intros j Hj. rewrite Hf by done. case_decide; [done | by apply Kp].
  - intros j Hj. rewrite Hf by done. case_decide; [done | by apply Ko].
  - intros fd Hfd Hu. destruct (K3 fd Hfd Hu) as (slot & Hs1 & Hs2 & Hs3). exists slot. split; [exact Hs1|]. split; [exact Hs2|].
    rewrite Hf by done. case_decide as E; [|done]. subst slot. exfalso. exact (D1 fd Hfd ltac:(lia) Hu Hs1).
Qed.

(** ** Whole files *)

Lemma read_rounds_keeps : forall fuel fd size got, keeps (read_rounds ops_of fuel fd size got).
Proof.
  induction fuel as [|fuel IH]; intros fd size got; cbn [read_rounds]; [apply keeps_quiet; quiet|]. destruct (negb _); [apply keeps_quiet; quiet|].
  apply keeps_bind; [apply vfs_read_keeps|]. intros r. destruct (_ <=? 0); [apply keeps_quiet; quiet | apply IH].
Qed.
Lemma write_rounds_keeps : forall fuel fd buf, keeps (write_rounds ops_of fuel fd buf).
Proof.
  induction fuel as [|fuel IH]; intros fd [|x buf]; cbn [write_rounds]; try solve [apply keeps_quiet; quiet].
  apply keeps_bind; [apply vfs_write_keeps|]. intros r. destruct (_ <=? 0); [apply keeps_quiet; quiet | apply IH].
Qed.
Lemma keeps_then {A B} (m : st A) (b : B) : keeps m -> keeps (_ ← m; mret b).
Proof. intros Hm. apply keeps_bind; [done|]. intros a. apply keeps_quiet. quiet. Qed.

Lemma vfs_write_file_keeps path buf : keeps (vfs_write_file ops_of path buf).
Proof.
  unfold vfs_write_file. destruct path as [p|]; [|apply keeps_quiet; quiet]. apply keeps_bind; [apply keeps_quiet; quiet|]. intros _.
  apply keeps_bind; [intros s Hs; by apply vfs_open_post|]. intros fd. destruct (fd <? 0); [apply keeps_quiet; quiet|].
  apply keeps_bind; [apply write_rounds_keeps|]. intros ok. destruct (negb ok); [apply keeps_then|]; apply vfs_close_keeps.
Qed.

Lemma file_size_keeps fd size0 : keeps (if size0 <? 0 then
    e ← vfs_seek ops_of fd 0 VFS_SEEK_END; if e <? 0 then mret e else _ ← vfs_seek ops_of fd 0 VFS_SEEK_SET; mret e
  else mret size0).
Proof.
  destruct (size0 <? 0); [|apply keeps_quiet; quiet]. apply keeps_bind; [apply vfs_seek_keeps|].
  intros e. destruct (e <? 0); [apply keeps_quiet; quiet | apply keeps_then, vfs_seek_keeps].
Qed.
Lemma vfs_read_file_alloc_keeps path max_size : keeps (vfs_read_file_alloc ops_of path max_size).
Proof.
  unfold vfs_read_file_alloc. destruct path as [p|]; [|apply keeps_quiet; quiet]. intros s Hs. unfold mbind at 1, st_bind.
  destruct (vfs_open_post (Some p) VFS_O_READ s Hs) as [O V]. destruct (vfs_open _ _ _ s) as [fd s1]. cbn [fst snd] in *.
  destruct (fd <? 0) eqn:E; [done|]. apply Z.ltb_ge in E. unfold mbind at 1, st_bind, gets. cbn iota beta.
  apply bind_ok; [apply file_op_ok; [done | by apply V | done | intros op; quiet]|]. intros size0.
  apply keeps_bind; [apply file_size_keeps|]. intros size. destruct (size <? 0); [apply keeps_then, vfs_close_keeps|].
  destruct (negb _ && _); [apply keeps_then, vfs_close_keeps|]. apply keeps_bind; [apply keeps_quiet; quiet|]. intros a.
  destruct (a =? 0); [apply keeps_then, vfs_close_keeps|]. apply keeps_bind; [apply read_rounds_keeps|]. intros got.
  apply keeps_then, vfs_close_keeps.
Qed.

Lemma vfs_seed_keeps tmp : keeps tmp -> keeps (vfs_seed_standard_layout ops_of tmp).
Proof.
  intros Ht. unfold vfs_seed_standard_layout. apply keeps_bind; [apply keeps_quiet; quiet|]. intros root.
  destruct (negb root); [apply keeps_quiet; quiet|]. apply keeps_bind.
  { apply keeps_quiet. induction layout_dirs as [|d dirs IH]; cbn [seed_dirs]; [quiet|]. apply quiet_bind; [apply vfs_mkdir_p_quiet | done]. }
  intros _. apply keeps_bind; [done|]. intros _. apply keeps_bind; [apply keeps_quiet, vfs_exists_quiet|]. intros there.
  destruct (there =? 0); [apply keeps_then, vfs_write_file_keeps | apply keeps_quiet; quiet].
Qed.
End open_close.

(** ** Every sequence of calls *)

Inductive vcall : Type :=
  | CMount (path : option cstr) (ops : option fskind) (data : Z) | CUnmount (path : option cstr)
  | COpen (path : option cstr) (flags : Z) | CClose (fd : Z) | CRead (fd size : Z) | CWrite (fd : Z) (buf : list Z)
  | CSeek (fd offset whence : Z) | CIoctl (fd cmd arg : Z) | CFtruncate (fd len : Z)
  | CReaddir (path : cstr) (max : Z) | CReaddirAlloc (path : cstr) (extra : Z)
  | CDircacheRead (key : Z) (path : cstr) (pos max : Z) (augment : option dir_augment) (extra : Z) | CDircacheDrop (key : Z)
  | CCreate (path : option cstr) | CMkdir (path : option cstr) | CMkdirP (path : option cstr) | CEnsureParent (path : option cstr)
  | CExists (path : option cstr) | CUnlink (path : option cstr) | CRename (old new : option cstr) | CRmdir (path : option cstr)
  | CStat (path : option cstr) | CLstat (path : option cstr) | CTimes (path : option cstr) (set : Z) (times : option Z * option Z)
  | CResolve (path : option cstr) (outsz : Z) (follow : bool) | CReadlink (path : option cstr) (cap : Z)
  | CSymlink (target path : option cstr) | CLink (old new : option cstr) | CSetattr (path : option cstr) (what mode uid gid : Z)
  | CTruncate (path : option cstr) (len : Z) | CSync
  | CSeed (overlay : bool)
  | CReadFile (path : option cstr) (max_size : Z) | CWriteFile (path : option cstr) (buf : list Z).

Section calls.
Context {W : Type} `{!KHeap W}.
Context (ops_of : fskind -> vfs_fs_ops W) (fat32 : fat32_direct W).

(** A call, its result dropped.  In [CSeed], [overlay] tells that
    [tmpfs_mount_tmp] mounts the RAM filesystem. *)
Definition vfs_do (c : vcall) : st (W := W) unit :=
  match c with
  | CMount path ops data => _ ← vfs_mount path ops data; mret tt
  | CUnmount path => _ ← vfs_unmount ops_of path; mret tt
  | COpen path flags => _ ← vfs_open ops_of path flags; mret tt
  | CClose fd => _ ← vfs_close ops_of fd; mret tt
  | CRead fd size => _ ← vfs_read ops_of fd size; mret tt
  | CWrite fd buf => _ ← vfs_write ops_of fd buf; mret tt
  | CSeek fd offset whence => _ ← vfs_seek ops_of fd offset whence; mret tt
  | CIoctl fd cmd arg => _ ← vfs_ioctl ops_of fd cmd arg; mret tt
  | CFtruncate fd len => _ ← vfs_ftruncate ops_of fat32 fd len; mret tt
  | CReaddir path max => _ ← vfs_readdir ops_of path max; mret tt
  | CReaddirAlloc path extra => _ ← vfs_readdir_alloc ops_of path extra; mret tt
  | CDircacheRead key path pos max augment extra => _ ← vfs_dircache_read ops_of key path pos max augment extra; mret tt
  | CDircacheDrop key => vfs_dircache_drop key
  | CCreate path => _ ← vfs_create ops_of path; mret tt
  | CMkdir path => _ ← vfs_mkdir ops_of path; mret tt
  | CMkdirP path => _ ← vfs_mkdir_p ops_of path; mret tt
  | CEnsureParent path => _ ← vfs_ensure_parent ops_of path; mret tt
  | CExists path => _ ← vfs_exists ops_of path; mret tt
  | CUnlink path => _ ← vfs_unlink ops_of path; mret tt
  | CRename old new => _ ← vfs_rename ops_of fat32 old new; mret tt
  | CRmdir path => _ ← vfs_rmdir ops_of fat32 path; mret tt
  | CStat path => _ ← vfs_stat ops_of path; mret tt
  | CLstat path => _ ← vfs_lstat ops_of path; mret tt
  | CTimes path set times => _ ← vfs_times ops_of path set times; mret tt
  | CResolve path outsz follow => _ ← vfs_resolve ops_of path outsz follow; mret tt
  | CReadlink path cap => _ ← vfs_readlink ops_of path cap; mret tt
  | CSymlink target path => _ ← vfs_symlink ops_of target path; mret tt
  | CLink old new => _ ← vfs_link ops_of old new; mret tt
  | CSetattr path what mode uid gid => _ ← vfs_setattr ops_of path what mode uid gid; mret tt
  | CTruncate path len => _ ← vfs_truncate ops_of fat32 path len; mret tt
  | CSync => _ ← vfs_sync_all ops_of; mret tt
  | CSeed overlay => vfs_seed_standard_layout ops_of (if overlay then vfs_mount (Some (bytes_of "/tmp")) (Some FsTmpfs) 0 else mret 0)
  | CReadFile path max_size => _ ← vfs_read_file_alloc ops_of path max_size; mret tt
  | CWriteFile path buf => _ ← vfs_write_file ops_of path buf; mret tt
  end.

Fixpoint vfs_run (cs : list vcall) (s : vfs) : vfs :=
  match cs with
  | [] => s
  | c :: cs => vfs_run cs (vfs_do c s).2
  end.

Lemma vfs_do_keeps c : keeps ops_of (vfs_do c).
Proof.
  destruct c; cbn [vfs_do]; try (apply vfs_seed_keeps; destruct overlay; [apply vfs_mount_keeps | apply keeps_quiet; quiet]);
    try apply keeps_then;
    auto using vfs_mount_keeps, vfs_unmount_keeps, vfs_close_keeps, vfs_read_keeps, vfs_write_keeps, vfs_seek_keeps, vfs_ioctl_keeps,
      vfs_ftruncate_keeps, vfs_read_file_alloc_keeps, vfs_write_file_keeps;
    try (intros s Hs; by apply vfs_open_post); apply keeps_quiet;
    auto using vfs_readdir_quiet, readdir_rounds_quiet, dircache_read_quiet, dircache_drop_quiet, vfs_create_quiet, vfs_mkdir_quiet, vfs_mkdir_p_quiet,
      vfs_ensure_parent_quiet, vfs_exists_quiet, vfs_unlink_quiet, vfs_rename_quiet, vfs_rmdir_quiet, vfs_stat_quiet, vfs_lstat_quiet,
      vfs_times_quiet, vfs_resolve_quiet, vfs_symlink_quiet, vfs_link_quiet, vfs_setattr_quiet, vfs_truncate_quiet, vfs_sync_quiet.
  - apply readdir_rounds_quiet.
  - unfold vfs_readlink. destruct path; [|quiet]. apply read_link_quiet.
Qed.
Lemma vfs_run_ok cs : forall s, vfs_ok ops_of s -> vfs_ok ops_of (vfs_run cs s).
Proof. induction cs as [|c cs IH]; intros s Hs; [done|]. cbn. apply IH. by apply vfs_do_keeps. Qed.

Lemma vfs_init_ok active w : vfs_ok ops_of (vfs_init active w).
Proof.
  assert (forall n i, zget (replicate n zero_fs) i = zero_fs /\ zget (replicate n zero_vf) i = zero_vf) as Hz.
  { intros n i. unfold zget. generalize (Z.to_nat i). induction n as [|n IH]; intros [|k]; [done..|]. apply (IH k). }
  split; [split|..]; [done|..].
  - intros i _. unfold fs_at. cbn. by rewrite (proj1 (Hz _ _)).
  - intros i _. unfold fs_at. cbn. by rewrite (proj1 (Hz _ _)).
  - done.
  - intros fd _. unfold file_at. cbn. by rewrite (proj2 (Hz _ _)).
  - exists []. done.
Qed.

(** C11 from the boot state and for any filesystem drivers, whatever calls are
    made, no filesystem is ever given a handle that it did not return from
    [open] or that was closed before, every open file belongs to a mounted
    filesystem and holds a handle of its own, and, if every driver has a
    [close], no handle is lost: the handles still open are exactly those of
    the open files. *)
Theorem vfs_handles_safe (calls : list vcall) (active : bool) (w : W) :
  let s := vfs_run calls (vfs_init active w) in
  (exists live, handles [] (v_notes s) = Some live /\ fd_handles s ⊆+ live /\
    ((forall k, op_close (ops_of k) <> None) -> live ≡ₚ fd_handles s)) /\
  forall fd, 0 <= fd < VFS_MAX_OPEN_FILES -> in_use (file_at s fd) = true ->
    exists slot, vf_fs (file_at s fd) = Some slot /\ 0 <= slot < VFS_MAX_MOUNTPOINTS /\ mounted (fs_at s slot) = true.
Proof.
  destruct (vfs_run_ok calls _ (vfs_init_ok active w)) as [_ _ Hf (live & Hl & H1 & H2)]. split; [|exact Hf].
  by exists live.
Qed.
End calls.
