(* ===== verification/VfsResolve.v ===== *)
(** * Resolution of paths and symbolic links

    [vfs_resolve] of src/vfs.c: it always finishes, its result is in normal
    form, and it follows the links the way a walk over the components of the
    path does. *)
From S2P Require Import Prelude Paths Heap Vfs VfsMount.

(** ** Paths in normal form *)

(** The names of a resolved path. *)
Definition proper (w : cstr) : Prop := w <> [] /\ w <> [46] /\ w <> [46; 46] /\ 47 ∉ w.

(** The text of a resolved path, empty for the root. *)
Definition render (ns : list cstr) : cstr := concat (cons 47 <$> ns).
Definition render_root (ns : list cstr) : cstr := if bool_decide (ns = []) then [47] else render ns.

Lemma render_snoc ns w : render (ns ++ [w]) = render ns ++ 47 :: w.
Proof. unfold render. rewrite fmap_app, concat_app. cbn. by rewrite app_nil_r. Qed.
Lemma render_nil ns : render ns = [] -> ns = [].
Proof. by destruct ns. Qed.

Lemma after_slash_skip (p w : cstr) : 47 ∉ w -> after_slash (length (p ++ 47 :: w)) (p ++ 47 :: w) = zlen p + 1.
Proof.
  intros Hw. assert (forall k, (k <= length w)%nat -> after_slash (length p + 1 + k) (p ++ 47 :: w) = zlen p + 1) as Hk.
  { induction k as [|k IH]; intros Hl.
    - rewrite Nat.add_0_r, Nat.add_1_r. cbn [after_slash]. unfold zget. rewrite Nat2Z.id, lookup_total_app_r, Nat.sub_diag by lia. cbn.
      unfold zlen. lia.
    - rewrite Nat.add_succ_r. cbn [after_slash]. rewrite IH by lia.
      assert (zget (p ++ 47 :: w) (Z.of_nat (length p + 1 + k)) ∈ w) as Hin.
      { unfold zget. rewrite Nat2Z.id, lookup_total_app_r by lia. replace (length p + 1 + k - length p)%nat with (S k) by lia. cbn.
        apply list_elem_of_lookup_total_2. lia. }
      destruct (Z.eqb_spec (zget (p ++ 47 :: w) (Z.of_nat (length p + 1 + k))) 47) as [E|]; [|done]. rewrite E in Hin. done. }
  rewrite <- (Hk (length w)) by lia. f_equal. rewrite length_app. cbn. lia.
Qed.
Lemma drop_last_snoc (p w : cstr) : 47 ∉ w -> drop_last (p ++ 47 :: w) = p.
Proof.
  intros Hw. unfold drop_last. rewrite after_slash_skip by done. rewrite Z.max_r by (unfold zlen; lia).
  replace (zlen p + 1 - 1) with (zlen p) by lia. unfold ztake, zlen. rewrite Nat2Z.id. by rewrite take_app_length.
Qed.
Lemma drop_last_render ns : Forall proper ns -> drop_last (render ns) = render (removelast ns).
Proof.
  destruct ns as [|w ns _] using rev_ind; [done|]. intros [_ Hw]%Forall_app. apply Forall_cons_1 in Hw as [Hw _].
  rewrite render_snoc, removelast_last. apply drop_last_snoc, Hw.
Qed.
Lemma proper_removelast ns : Forall proper ns -> Forall proper (removelast ns).
Proof. destruct ns as [|w ns _] using rev_ind; [done|]. intros [Hn _]%Forall_app. by rewrite removelast_last. Qed.

(** The next component. *)
Lemma component_skip (p : cstr) part e : skip_slashes p <> [] -> component (skip_slashes p) = (part, e) ->
  part <> [] /\ (47 ∉ part) /\ (match e with [] => True | c :: _ => c = 47 end) /\ zlen e + 1 <= zlen p /\
  path_names p = part :: path_names e /\ ends_slash p = ends_slash e.
Proof.
  intros Hne Ec. destruct (component_app _ _ _ Ec) as (E & Hn & Hs). pose proof (skip_slashes_head p) as Hh.
  assert (part <> []) as Hp by (intros ->; destruct e as [|c e]; cbn in E; [congruence|]; rewrite E in Hh; congruence).
  split_and!; try done.
  - destruct (skip_slashes_app p) as [k Ek]. rewrite Ek, E. unfold zlen. rewrite !length_app. destruct part; [done|]. cbn. lia.
  - rewrite <- path_names_skip, E. by apply path_names_app.
  - rewrite <- ends_slash_drop by done. rewrite E. unfold ends_slash. rewrite last_app. destruct (last e) as [c|] eqn:El; [done|].
    destruct (last part) as [c|] eqn:Elp; [|done]. apply Z.eqb_neq. intros ->. apply Hn. by apply last_Some_elem_of.
Qed.

(** Prefixing the rest with the target of a link. *)
Lemma split_slash_ne (t : cstr) : split_slash t <> [].
Proof. destruct t as [|c t]; cbn; [done|]. destruct (c =? 47); [done|]. by destruct (split_slash t). Qed.
Lemma split_slash_cat (t e : cstr) : split_slash (t ++ 47 :: e) = split_slash t ++ split_slash e.
Proof.
  induction t as [|c t IH]; [done|]. cbn. destruct (c =? 47); [by rewrite IH|]. rewrite IH.
  destruct (split_slash t) eqn:E; [by apply split_slash_ne in E | done].
Qed.
Lemma path_names_cat (t e : cstr) : match e with [] => True | c :: _ => c = 47 end -> path_names (t ++ e) = path_names t ++ path_names e.
Proof.
  intros He. destruct e as [|c e]; [by rewrite !app_nil_r|]. subst c. rewrite path_names_slash. unfold path_names.
  by rewrite split_slash_cat, filter_app.
Qed.
Lemma ends_slash_cat (t e : cstr) : ends_slash (t ++ e) = if bool_decide (e = []) then ends_slash t else ends_slash e.
Proof.
  unfold ends_slash. rewrite last_app. case_bool_decide as He; [by subst e|]. by destruct (last e) eqn:El; [|apply last_None in El].
Qed.

Section resolve.
Context {W : Type} `{!KHeap W}.
Context (ops_of : fskind -> vfs_fs_ops W).
Implicit Types (s : vfs (W := W)).

(** ** A walk over the components

    [link] gives the target of the link at a path.  [walk link follow dir cs ts n r]:
    from the directory [dir], the components [cs] lead to [r] over [n] links;
    [ts] tells that a slash follows the last component, which is then followed
    in any case. *)
Inductive walk (link : list cstr -> option cstr) (follow : bool) : list cstr -> list cstr -> bool -> Z -> list cstr -> Prop :=
  | walk_done dir ts : walk link follow dir [] ts 0 dir
  | walk_dot dir cs ts n r : walk link follow dir cs ts n r -> walk link follow dir ([46] :: cs) ts n r
  | walk_dotdot dir cs ts n r : walk link follow (removelast dir) cs ts n r -> walk link follow dir ([46; 46] :: cs) ts n r
  | walk_last dir c : proper c -> follow = false -> walk link follow dir [c] false 0 (dir ++ [c])
  | walk_plain dir c cs ts n r : proper c -> cs <> [] \/ ts = true \/ follow = true -> link (dir ++ [c]) = None ->
      walk link follow (dir ++ [c]) cs ts n r -> walk link follow dir (c :: cs) ts n r
  | walk_link dir c cs ts n r t : proper c -> cs <> [] \/ ts = true \/ follow = true -> link (dir ++ [c]) = Some t ->
      walk link follow (if bool_decide (head t = Some 47) then [] else dir) (path_names t ++ cs)
        (if bool_decide (cs = []) && negb ts then ends_slash t else ts) n r ->
      walk link follow dir (c :: cs) ts (n + 1) r.

(** [link] is what the mounted filesystems answer in the states of [Inv]. *)
Record links_as (link : list cstr -> option cstr) (Inv : vfs (W := W) -> Prop) : Prop := {
  la_read : forall s ns, Inv s -> Forall proper ns -> ns <> [] ->
    match read_link ops_of (render ns) (VFS_MAX_PATH - 1) s with
    | (r, s') => Inv s' /\ match link ns with Some t => r = (zlen t, t) | None => r.1 < 0 end
    end;
  la_target : forall ns t, link ns = Some t -> 0 < zlen t <= VFS_MAX_PATH - 1;
  la_alloc : forall s n, Inv s -> Inv (kalloc_v n s).2;
}.

(** ** Termination and the form of the result *)

Definition normal (outsz : Z) (out : cstr) : Prop := exists ns, out = render ns /\ Forall proper ns /\ zlen out < outsz.

Lemma normal_snoc outsz out part : normal outsz out -> part <> [] -> 47 ∉ part -> part <> [46] -> part <> [46; 46] ->
  zlen out + 1 + zlen part + 1 <= outsz -> normal outsz (out ++ 47 :: part).
Proof.
  intros (ns & -> & Hns & _) H1 H2 H3 H4 Hl. exists (ns ++ [part]). split_and!; [by rewrite render_snoc | |].
  - apply Forall_app. split; [done|]. by apply Forall_singleton.
  - unfold zlen in *. rewrite length_app. cbn. lia.
Qed.
Lemma normal_drop outsz out : normal outsz out -> normal outsz (drop_last out).
Proof.
  intros (ns & -> & Hns & Hl). exists (removelast ns). split_and!; [by apply drop_last_render | by apply proper_removelast|].
  unfold drop_last. unfold zlen, ztake in *. rewrite length_take. lia.
Qed.

(** The errors of the walk. *)
Definition walk_errors : list Z := [- ENAMETOOLONG; - ELOOP; - ENOENT].

Lemma resolve_loop_total outsz fl : 0 < outsz -> forall fuel out rest loops s,
  normal outsz out -> 0 <= loops <= VFS_SYMLOOP_MAX ->
  (VFS_SYMLOOP_MAX - loops) * VFS_MAX_PATH + zlen rest + 1 <= Z.of_nat fuel ->
  match (resolve_loop ops_of fuel out rest loops outsz fl s).1 with
  | None => False
  | Some (r, o) => (r = 0 /\ normal outsz o) \/ r ∈ walk_errors
  end.
Proof.
  intros Ho. induction fuel as [|fuel IH]; intros out rest loops s Hn Hl Hf.
  { exfalso. unfold VFS_MAX_PATH, zlen in *. nia. }
  cbn [resolve_loop]. case_bool_decide as Hs; [by left|]. destruct (component (skip_slashes rest)) as [part e] eqn:Ec.
  destruct (component_skip _ _ _ Hs Ec) as (Hp & Hp47 & He & Hlen & _ & _).
  destruct (bytes_eqb part [46]) eqn:E1; [apply IH; [done | done | lia]|].
  destruct (bytes_eqb part [46; 46]) eqn:E2; [apply IH; [by apply normal_drop | done | lia]|].
  apply bool_decide_eq_false in E1, E2. destruct (Z.ltb_spec outsz (zlen out + 1 + zlen part + 1)) as [|Hsz]; [right; set_solver|].
  assert (normal outsz (out ++ 47 :: part)) as Hn' by (apply normal_snoc; done).
  destruct (bool_decide (e = []) && negb fl); [apply IH; [done | done | lia]|].
  unfold mbind, st_bind. destruct (read_link _ _ _ s) as [[n t] s1]. cbn [fst snd].
  destruct (Z.ltb_spec n 0); [apply IH; [done | done | lia]|]. destruct (Z.ltb_spec VFS_SYMLOOP_MAX (loops + 1)); [right; set_solver|].
  destruct (Z.eqb_spec n 0); [right; set_solver|]. set (m := Z.min n (VFS_MAX_PATH - 1)).
  destruct (Z.ltb_spec VFS_MAX_PATH (m + zlen e + 1)) as [|Hm]; [right; set_solver|]. apply IH.
  - case_bool_decide; [|done]. exists []. done.
  - lia.
  - assert (zlen (ztake m t ++ e) <= m + zlen e). { unfold zlen, ztake. rewrite length_app, length_take. unfold m. unfold VFS_MAX_PATH. lia. }
    unfold VFS_MAX_PATH, zlen in *. nia.
Qed.

(** C29 [vfs_resolve] always finishes, within the rounds its fuel allows.  It
    succeeds with an absolute path that fits the caller's buffer and whose
    components are names, without [.], [..], empty ones or a final slash, or
    it returns one of five errors. *)
Theorem vfs_resolve_total (path : option cstr) (outsz : Z) (follow_last : bool) s :
  match (vfs_resolve ops_of path outsz follow_last s).1 with
  | None => False
  | Some (r, out) => (r = 0 /\ exists ns, out = render_root ns /\ Forall proper ns /\ zlen out < outsz) \/
      r ∈ [- EINVAL; - ENOMEM; - ENAMETOOLONG; - ELOOP; - ENOENT]
  end.
Proof.
  unfold vfs_resolve. destruct path as [p|]; [|right; set_solver]. destruct (negb _ || (outsz <? 2)) eqn:E0; [right; set_solver|].
  apply orb_false_iff in E0 as [_ Ho%Z.ltb_ge]. destruct (Z.leb_spec VFS_MAX_PATH (zlen p)); [right; set_solver|].
  unfold mbind, st_bind. destruct (kalloc_v _ s) as [rest s1]. destruct (rest =? 0); [right; set_solver|].
  pose proof (resolve_loop_total outsz follow_last ltac:(lia) resolve_fuel [] p 0 s1) as Hr.
  destruct (resolve_loop _ _ _ _ _ _ _ s1) as [r s2]. cbn [fst] in Hr. destruct (kfree_v rest s2) as [u s3]. cbn [fst mret st_ret].
  assert (match r with None => False | Some (r, o) => (r = 0 /\ normal outsz o) \/ r ∈ walk_errors end) as Hr'.
  { apply Hr; [exists []; split_and!; [done | done | unfold zlen; cbn; lia] | done |]. unfold resolve_fuel, VFS_SYMLOOP_MAX, VFS_MAX_PATH in *. lia. }
  destruct r as [[r o]|]; [|done]. destruct Hr' as [[-> (ns & -> & Hns & Hl)]|Hr'].
  - destruct (render ns) as [|c o] eqn:Er; left.
    + split; [done|]. exists []. split_and!; [done | done | unfold zlen; cbn; lia].
    + split; [done|]. exists ns. split_and!; [|done..]. unfold render_root. rewrite bool_decide_false; [done|]. by intros ->.
  - assert (r ∈ [- EINVAL; - ENOMEM; - ENAMETOOLONG; - ELOOP; - ENOENT]) by (unfold walk_errors in Hr'; set_solver).
    destruct r; [|right; done..]. exfalso. unfold walk_errors in Hr'. set_solver.
Qed.

(** ** The loop follows the walk *)

Section walk.
Context (link : list cstr -> option cstr) (Inv : vfs (W := W) -> Prop) (Hla : links_as link Inv).

(** One round of the loop that reaches [readlink]. *)
Lemma read_link_cases s ns part : Inv s -> Forall proper ns -> proper part ->
  exists r s', read_link ops_of (render ns ++ 47 :: part) (VFS_MAX_PATH - 1) s = (r, s') /\ Inv s' /\
    match link (ns ++ [part]) with Some t => r = (zlen t, t) /\ 0 < zlen t <= VFS_MAX_PATH - 1 | None => r.1 < 0 end.
Proof.
  intros Hs Hns Hp. rewrite <- render_snoc. pose proof (la_read _ _ Hla s (ns ++ [part]) Hs) as Hr.
  destruct (read_link _ _ _ s) as [r s']. exists r, s'.
  destruct Hr as [Hi Hl]; [apply Forall_app; split; [done | by apply Forall_singleton] | by destruct ns|].
  split_and!; try done. destruct (link _) as [t|] eqn:El; [|done]. split; [done|]. by apply (la_target _ _ Hla (ns ++ [part])).
Qed.

(** The arms of [walk] that apply to a component that is a name. *)
Lemma last_cond cs ts (e : cstr) fl : cs = path_names e -> ts = ends_slash e -> (match e with [] => True | c :: _ => c = 47 end) ->
  bool_decide (e = []) && negb fl = false -> cs <> [] \/ ts = true \/ fl = true.
Proof.
  intros -> -> He. destruct fl; [auto|]. cbn. rewrite andb_true_r. intros Hne%bool_decide_eq_false.
  destruct (decide (path_names e = [])) as [Hn|]; [|auto]. right. left. destruct e as [|c e] using rev_ind; [done|]. clear IHe.
  unfold ends_slash. rewrite last_snoc. apply Z.eqb_eq. apply path_names_nil_skip in Hn. destruct (skip_slashes_app (e ++ [c])) as [k Ek].
  rewrite Hn, app_nil_r in Ek. assert (c ∈ replicate k 47) as Hc by (rewrite <- Ek; set_solver). by apply elem_of_replicate in Hc as [-> _].
Qed.
Lemma empty_cond (e : cstr) : match e with [] => True | c :: _ => c = 47 end ->
  bool_decide (path_names e = []) && negb (ends_slash e) = bool_decide (e = []).
Proof.
  intros He. destruct (decide (e = [])) as [->|E2]; [done|]. rewrite (bool_decide_false (e = [])) by done.
  destruct (last_cond _ _ e false eq_refl eq_refl He) as [H|[H|H]]; [by rewrite bool_decide_false | by rewrite bool_decide_false | | done].
  rewrite H. by rewrite andb_false_r.
Qed.

(** Walks by their first component. *)
Lemma walk_dot_inv fl dir cs ts n r : walk link fl dir ([46] :: cs) ts n r -> walk link fl dir cs ts n r.
Proof. intros Hw. by inversion Hw as [| | |? ? Hc|? ? ? ? ? ? Hc|? ? ? ? ? ? ? Hc]; subst; [|destruct Hc as (?&?&?)..]. Qed.
Lemma walk_dotdot_inv fl dir cs ts n r : walk link fl dir ([46; 46] :: cs) ts n r -> walk link fl (removelast dir) cs ts n r.
Proof. intros Hw. by inversion Hw as [| | |? ? Hc|? ? ? ? ? ? Hc|? ? ? ? ? ? ? Hc]; subst; [|destruct Hc as (?&?&?&?)..]. Qed.
Lemma walk_count fl dir cs ts n r : walk link fl dir cs ts n r -> 0 <= n.
Proof. induction 1; lia. Qed.
Definition target_dir (dir : list cstr) (t : cstr) : list cstr := if bool_decide (head t = Some 47) then [] else dir.
Lemma target_dir_proper dir t : Forall proper dir -> Forall proper (target_dir dir t).
Proof. intros Hd. unfold target_dir. by case_bool_decide. Qed.
Definition target_ts (cs : list cstr) (ts : bool) (t : cstr) : bool := if bool_decide (cs = []) && negb ts then ends_slash t else ts.
Lemma walk_name_inv fl dir c cs ts n r : proper c -> walk link fl dir (c :: cs) ts n r ->
  (cs = [] /\ ts = false /\ fl = false /\ n = 0 /\ r = dir ++ [c]) \/
  ((cs <> [] \/ ts = true \/ fl = true) /\
    match link (dir ++ [c]) with
    | None => walk link fl (dir ++ [c]) cs ts n r
    | Some t => exists n', n = n' + 1 /\ walk link fl (target_dir dir t) (path_names t ++ cs) (target_ts cs ts t) n' r
    end).
Proof.
  intros (? & ? & ? & ?) Hw. inversion Hw; subst; try done; [by left | right | right].
  - destruct (link (dir ++ [c])); [done|]. done.
  - destruct (link (dir ++ [c])) as [t'|]; [|done]. simplify_eq. split; [done|]. by exists n0.
Qed.

(** What the loop may return for the walk from [ns] over [cs]. *)
Definition loop_post (fl : bool) (loops : Z) (ns cs : list cstr) (ts : bool) (res : option (Z * cstr)) : Prop :=
  match res with
  | None => True
  | Some (r, out) =>
      (r = 0 /\ exists n ns', 0 <= n /\ loops + n <= VFS_SYMLOOP_MAX /\ walk link fl ns cs ts n ns' /\ out = render ns') \/
      r = - ENAMETOOLONG \/
      (r = - ELOOP /\ forall n ns', walk link fl ns cs ts n ns' -> VFS_SYMLOOP_MAX < loops + n)
  end.

(** A round that takes the walk one component further over [d] links. *)
Lemma post_step fl loops d ns cs ts ns1 cs1 ts1 res : 0 <= d ->
  (forall n r, walk link fl ns1 cs1 ts1 n r -> walk link fl ns cs ts (n + d) r) ->
  (forall n r, walk link fl ns cs ts n r -> exists n', n = n' + d /\ walk link fl ns1 cs1 ts1 n' r) ->
  loop_post fl (loops + d) ns1 cs1 ts1 res -> loop_post fl loops ns cs ts res.
Proof.
  intros Hd Hto Hfrom. destruct res as [[r out]|]; [|done]. intros [(-> & n & ns' & Hn & Hl & Hw & ->)|[->|[-> Hno]]].
  - left. split; [done|]. exists (n + d), ns'. split_and!; [lia | lia | by apply Hto | done].
  - right. by left.
  - right. right. split; [done|]. intros n ns' Hw. destruct (Hfrom _ _ Hw) as (n' & -> & Hw'). specialize (Hno _ _ Hw'). lia.
Qed.

(** The round of a component that is a name. *)
Definition loop_ok (outsz : Z) (fl : bool) (fuel : nat) : Prop := forall ns rest loops s,
  Inv s -> Forall proper ns -> 0 <= loops <= VFS_SYMLOOP_MAX ->
  loop_post fl loops ns (path_names rest) (ends_slash rest) (resolve_loop ops_of fuel (render ns) rest loops outsz fl s).1.

Definition name_round (fuel : nat) (out part e : cstr) (loops outsz : Z) (fl : bool) : st (W := W) (option (Z * cstr)) :=
  if outsz <? zlen out + 1 + zlen part + 1 then mret (Some (- ENAMETOOLONG, out))
  else
    let out' := out ++ 47 :: part in
    if bool_decide (e = []) && negb fl then resolve_loop ops_of fuel out' e loops outsz fl
    else
      link ← read_link ops_of out' (VFS_MAX_PATH - 1);
      if link.1 <? 0 then resolve_loop ops_of fuel out' e loops outsz fl
      else if VFS_SYMLOOP_MAX <? loops + 1 then mret (Some (- ELOOP, out'))
      else if link.1 =? 0 then mret (Some (- ENOENT, out'))
      else
        let n := Z.min link.1 (VFS_MAX_PATH - 1) in
        if VFS_MAX_PATH <? n + zlen e + 1 then mret (Some (- ENAMETOOLONG, out'))
        else resolve_loop ops_of fuel (if bool_decide (head link.2 = Some 47) then [] else out) (ztake n link.2 ++ e) (loops + 1) outsz fl.

Lemma resolve_name outsz fl fuel ns (part e : cstr) loops s : loop_ok outsz fl fuel ->
  Inv s -> Forall proper ns -> 0 <= loops <= VFS_SYMLOOP_MAX -> proper part -> match e with [] => True | c :: _ => c = 47 end ->
  loop_post fl loops ns (part :: path_names e) (ends_slash e) (name_round fuel (render ns) part e loops outsz fl s).1.
Proof.
  intros IH Hs Hns Hl Hp He. unfold name_round. destruct (outsz <? _); [right; by left|]. cbn zeta.
  assert (Forall proper (ns ++ [part])) as Hns' by (apply Forall_app; split; [done | by apply Forall_singleton]).
  destruct (bool_decide (e = []) && negb fl) eqn:Ee.
  { apply andb_true_iff in Ee as [Ee%bool_decide_eq_true Hfl%negb_true_iff]. subst e. rewrite <- render_snoc.
    destruct fuel; [done|]. cbn. left. split; [done|]. exists 0, (ns ++ [part]). split_and!; [lia | lia | by constructor | done]. }
  pose proof (last_cond _ _ e fl eq_refl eq_refl He Ee) as Hc.
  assert (forall n r, walk link fl ns (part :: path_names e) (ends_slash e) n r -> match link (ns ++ [part]) with
    | None => walk link fl (ns ++ [part]) (path_names e) (ends_slash e) n r
    | Some t => exists n', n = n' + 1 /\ walk link fl (target_dir ns t) (path_names t ++ path_names e) (target_ts (path_names e) (ends_slash e) t) n' r
    end) as Hinv.
  { intros n r Hw. destruct (walk_name_inv _ _ _ _ _ _ _ Hp Hw) as [(H1 & H2 & H3 & _)|[_ H]]; [|done]. by destruct Hc as [H|[H|H]]; congruence. }
  destruct (read_link_cases s ns part Hs Hns Hp) as ([n t] & s1 & Er & Hs1 & Hlk). unfold mbind, st_bind. rewrite Er. cbn [fst snd].
  destruct (link (ns ++ [part])) as [t'|] eqn:El.
  - destruct Hlk as [[= -> ->] Ht]. rewrite (proj2 (Z.ltb_ge _ _)) by lia. destruct (Z.ltb_spec VFS_SYMLOOP_MAX (loops + 1)).
    { right. right. split; [done|]. intros n r Hw. destruct (Hinv _ _ Hw) as (n' & -> & Hw'). apply walk_count in Hw'. lia. }
    rewrite (proj2 (Z.eqb_neq _ _)) by lia. rewrite Z.min_l by lia. destruct (_ <? _); [right; by left|]. unfold ztake.
    rewrite take_ge by (unfold zlen; lia).
    replace (if bool_decide (head t' = Some 47) then [] else render ns) with (render (target_dir ns t')) by (unfold target_dir; by destruct (bool_decide (head t' = Some 47))).
    eapply (post_step fl loops 1); [lia | | exact Hinv |].
    + intros n r Hw. by apply (walk_link _ _ _ _ _ _ _ _ t').
    + unfold target_ts. rewrite empty_cond, <- path_names_cat, <- ends_slash_cat by done. apply IH; [done | by apply target_dir_proper | lia].
  - cbn in Hlk. rewrite (proj2 (Z.ltb_lt _ _)) by lia. rewrite <- render_snoc. eapply (post_step fl loops 0); [lia | ..|].
    + intros n' r Hw. rewrite Z.add_0_r. by apply walk_plain.
    + intros n' r Hw. exists n'. rewrite Z.add_0_r. by apply Hinv in Hw.
    + rewrite Z.add_0_r. by apply IH.
Qed.

Lemma resolve_loop_walk outsz fl fuel : loop_ok outsz fl fuel.
Proof.
  induction fuel as [|fuel IH]; [done|]. intros ns rest loops s Hs Hns Hl. cbn [resolve_loop].
  case_bool_decide as Hsk.
  { rewrite (proj2 (path_names_nil_skip rest) Hsk). left. split; [done|]. exists 0, ns. split_and!; [lia | lia | constructor | done]. }
  destruct (component (skip_slashes rest)) as [part e] eqn:Ec.
  destruct (component_skip _ _ _ Hsk Ec) as (Hp & Hp47 & He & _ & -> & ->).
  destruct (bytes_eqb part [46]) eqn:E1; [|destruct (bytes_eqb part [46; 46]) eqn:E2].
  - apply bool_decide_eq_true in E1. subst part. apply (post_step fl loops 0 _ _ _ ns (path_names e) (ends_slash e)); [lia | ..|].
    + intros n r Hw. rewrite Z.add_0_r. by constructor.
    + intros n r Hw%walk_dot_inv. exists n. by rewrite Z.add_0_r.
    + rewrite Z.add_0_r. by apply IH.
  - apply bool_decide_eq_true in E2. subst part. rewrite drop_last_render by done.
    apply (post_step fl loops 0 _ _ _ (removelast ns) (path_names e) (ends_slash e)); [lia | ..|].
    + intros n r Hw. rewrite Z.add_0_r. by constructor.
    + intros n r Hw%walk_dotdot_inv. exists n. by rewrite Z.add_0_r.
    + rewrite Z.add_0_r. apply IH; [done | by apply proper_removelast | done].
  - apply bool_decide_eq_false in E1, E2. by apply resolve_name.
Qed.
Lemma walk_det fl dir cs ts n r : walk link fl dir cs ts n r -> forall n' r', walk link fl dir cs ts n' r' -> n' = n /\ r' = r.
Proof.
  induction 1 as [dir ts|dir cs ts n r _ IH|dir cs ts n r _ IH|dir c Hc Hfl|dir c cs ts n r Hc Hcond El _ IH|dir c cs ts n r t Hc Hcond El _ IH]; intros n' r' Hw.
  - by inversion Hw.
  - by apply IH, walk_dot_inv.
  - by apply IH, walk_dotdot_inv.
  - destruct (walk_name_inv _ _ _ _ _ _ _ Hc Hw) as [(_ & _ & _ & -> & ->)|[[?|[?|?]] _]]; [done | congruence..].
  - destruct (walk_name_inv _ _ _ _ _ _ _ Hc Hw) as [(? & ? & ? & _)|[_ Hw']]; [destruct Hcond as [|[|]]; congruence|].
    rewrite El in Hw'. by apply IH.
  - destruct (walk_name_inv _ _ _ _ _ _ _ Hc Hw) as [(? & ? & ? & _)|[_ Hw']]; [destruct Hcond as [|[|]]; congruence|].
    rewrite El in Hw'. destruct Hw' as (k & -> & Hw'). destruct (IH _ _ Hw') as [-> ->]. done.
Qed.

Lemma root_result (ns : list cstr) : (match render ns with [] => Some (0, [47]) | _ => Some (0, render ns) end) = Some (0, render_root ns).
Proof. unfold render_root. case_bool_decide as E; [by subst ns|]. destruct (render ns) eqn:Er; [by apply render_nil in Er | done]. Qed.
End walk.

(** What [vfs_resolve] returns for the walk over the components of [p]. *)
Definition walk_post link (p : cstr) (follow_last : bool) (res : option (Z * cstr)) : Prop :=
  (forall out, res = Some (0, out) ->
    exists n ns, n <= VFS_SYMLOOP_MAX /\ walk link follow_last [] (path_names p) (ends_slash p) n ns /\ out = render_root ns) /\
  (forall n ns, walk link follow_last [] (path_names p) (ends_slash p) n ns -> n <= VFS_SYMLOOP_MAX ->
    res = Some (0, render_root ns) \/ exists e out, res = Some (e, out) /\ e ∈ [- EINVAL; - ENOMEM; - ENAMETOOLONG]).

Lemma vfs_resolve_post link Inv (p : cstr) (outsz : Z) (follow_last : bool) s : links_as link Inv -> Inv s ->
  walk_post link p follow_last (vfs_resolve ops_of (Some p) outsz follow_last s).1.
Proof.
  intros Hla Hs. unfold walk_post, vfs_resolve. destruct (negb _ || _) eqn:E0; [split; [done | intros; right; eexists _, _; split; [done | set_solver]]|].
  apply orb_false_iff in E0 as [_ Ho%Z.ltb_ge].
  destruct (Z.leb_spec VFS_MAX_PATH (zlen p)); [split; [done | intros; right; eexists _, _; split; [done | set_solver]]|].
  unfold mbind, st_bind. pose proof (la_alloc _ _ Hla s (2 * VFS_MAX_PATH) Hs) as Hs1.
  destruct (kalloc_v _ s) as [rest s1]. destruct (rest =? 0); [split; [done | intros; right; eexists _, _; split; [done | set_solver]]|].
  pose proof (resolve_loop_total outsz follow_last ltac:(lia) resolve_fuel [] p 0 s1) as Ht.
  pose proof (resolve_loop_walk link Inv Hla outsz follow_last resolve_fuel [] p 0 s1 Hs1 ltac:(done) ltac:(done)) as Hp.
  change (render []) with (@nil Z) in Hp. destruct (resolve_loop _ _ _ _ _ _ _ s1) as [r s2]. cbn [fst] in Ht, Hp.
  destruct (kfree_v rest s2) as [u s3]. cbn [fst mret st_ret]. destruct r as [[r o]|].
  - clear Ht. destruct Hp as [(-> & n & ns & Hn & Hl & Hw & ->)|[->|[-> Hno]]].
    + rewrite root_result. split.
      * intros out [= <-]. exists n, ns. split_and!; [lia | done | done].
      * intros n' ns' Hw' _. left. by destruct (walk_det _ _ _ _ _ _ _ Hw _ _ Hw') as [-> ->].
    + split; [done|]. intros. right. eexists _, _. split; [done | set_solver].
    + split; [done|]. intros n ns Hw Hle. specialize (Hno _ _ Hw). lia.
  - exfalso. apply Ht; [exists []; split_and!; [done | done | unfold zlen; cbn; lia] | done |].
    unfold resolve_fuel, VFS_SYMLOOP_MAX, VFS_MAX_PATH in *. lia.
Qed.

(** C17 [vfs_resolve] follows symbolic links as a walk over the components
    does, for any view [link] of the links that the filesystems answer to.  A
    path it returns is where the walk of at most [VFS_SYMLOOP_MAX] links
    leads; and where such a walk exists, [vfs_resolve] returns its end unless
    an argument, memory or a length limit stands in the way. *)
Theorem vfs_resolve_walk link Inv (p : cstr) (outsz : Z) (follow_last : bool) s : links_as link Inv -> Inv s ->
  let res := (vfs_resolve ops_of (Some p) outsz follow_last s).1 in
  (forall out, res = Some (0, out) ->
    exists n ns, n <= VFS_SYMLOOP_MAX /\ walk link follow_last [] (path_names p) (ends_slash p) n ns /\ out = render_root ns) /\
  (forall n ns, walk link follow_last [] (path_names p) (ends_slash p) n ns -> n <= VFS_SYMLOOP_MAX ->
    res = Some (0, render_root ns) \/ exists e out, res = Some (e, out) /\ e ∈ [- EINVAL; - ENOMEM; - ENAMETOOLONG]).
Proof. apply vfs_resolve_post. Qed.
End resolve.
