(* ===== verification/VfsDemo.v ===== *)
(** * Concrete file systems

    A table with two mounts, the second of which answers [readlink], and the
    theorems of [VfsMount] and [VfsResolve] on it. *)
From S2P Require Import Prelude Paths Heap Vfs VfsMount VfsResolve.

(** A heap that hands out one address after the other. *)
#[local] Instance bump_heap : KHeap Z := {|
  hp_kalloc n h := (h, h + n);
  hp_kfree _ h := h;
  hp_pages_available _ := 0;
  heap_ok h := 0 < h;
  heap_live _ _ _ := False;
|}.

(** The links of the second mount: [/tmp/l] leads to [b], [/tmp/up] to [/x/..] and [/tmp/o] to itself. *)
Definition demo_link (rel : cstr) : option cstr :=
  if bytes_eqb rel (bytes_of "l") then Some (bytes_of "b")
  else if bytes_eqb rel (bytes_of "up") then Some (bytes_of "/x/..")
  else if bytes_eqb rel (bytes_of "o") then Some (bytes_of "o") else None.
Definition link_ops : vfs_fs_ops Z :=
  mk_ops Z None None None None None None None None None None None None None None None None None None None
    (Some (fun _ rel cap w => match demo_link rel with Some t => ((zlen t, t), w) | None => ((- EINVAL, []), w) end)) None None None None None.
Definition no_ops : vfs_fs_ops Z :=
  mk_ops Z None None None None None None None None None None None None None None None None None None None None None None None None None.
Definition demo_ops (k : fskind) : vfs_fs_ops Z := match k with FsTmpfs => link_ops | _ => no_ops end.

Definition demo_vfs : vfs (W := Z) :=
  (vfs_mount (Some (bytes_of "/tmp/")) (Some FsTmpfs) 2 (vfs_mount (Some (bytes_of "/")) (Some FsFat32) 1 (vfs_init true 4096)).2).2.

(** The two entries are the only ones in use. *)
Lemma demo_mounted i : 0 <= i < VFS_MAX_MOUNTPOINTS -> mounted (fs_at demo_vfs i) = true -> i = 0 \/ i = 1.
Proof.
  intros Hi Hm. assert (i ∈ filter (fun i => mounted (fs_at demo_vfs i) = true) (seqZ 0 VFS_MAX_MOUNTPOINTS)) as Hin.
  { apply list_elem_of_filter. split; [done|]. apply elem_of_seqZ. lia. }
  assert (filter (fun i => mounted (fs_at demo_vfs i) = true) (seqZ 0 VFS_MAX_MOUNTPOINTS) = [0; 1]) as E by (vm_compute; reflexivity).
  rewrite E in Hin. clear E Hm. apply elem_of_cons in Hin as [->|Hin%list_elem_of_singleton]; [by left | by right].
Qed.
Lemma demo_mounts_ok : mounts_ok demo_vfs.
Proof.
  split; [vm_compute; reflexivity | |]; intros i Hi Hm; destruct (demo_mounted i Hi Hm) as [-> | ->]; vm_compute; eauto.
Qed.

Lemma vfs_find_mount_longest_witness : vfs_find_mount (Some (bytes_of "/tmp/a")) demo_vfs = Some (1, bytes_of "a") /\
  covers (bytes_of "/tmp") (bytes_of "/tmp/a").
Proof.
  assert (vfs_find_mount (Some (bytes_of "/tmp/a")) demo_vfs = Some (1, bytes_of "a")) as E by (vm_compute; reflexivity).
  pose proof (vfs_find_mount_longest demo_vfs (bytes_of "/tmp/a") demo_mounts_ok eq_refl ltac:(by apply (bool_decide_unpack _))) as H.
  rewrite E in H. split; [exact E|]. destruct H as (_ & _ & H & _). exact H.
Defined.

Lemma vfs_mount_twice_witness : (vfs_mount (Some (bytes_of "/tmp/")) (Some FsFat32) 3 demo_vfs).1 = 0.
Proof.
  pose proof (vfs_mount_twice demo_vfs 1 (bytes_of "/tmp") FsFat32 3 2 demo_mounts_ok ltac:(by split) ltac:(by vm_compute) ltac:(by vm_compute)
    ltac:(by vm_compute) ltac:(by vm_compute)) as H.
  assert (forall q, 0 <= q < VFS_MAX_MOUNTPOINTS -> mounted (fs_at demo_vfs q) = true -> mount_path (fs_at demo_vfs q) <> bytes_of "/tmp" ++ [47]) as Hno.
  { intros q Hq Hm. destruct (demo_mounted q Hq Hm) as [-> | ->]; by vm_compute. }
  specialize (H Hno). change (bytes_of "/tmp" ++ [47]) with (bytes_of "/tmp/") in H. destruct (vfs_mount _ _ _ _). by destruct H.
Defined.

(** ** A root with links *)

Definition demo_root : vfs (W := Z) := (vfs_mount (Some (bytes_of "/")) (Some FsTmpfs) 2 (vfs_init true 4096)).2.
Definition demo_inv (s : vfs (W := Z)) : Prop := mount_table s = mount_table demo_root.
Definition demo_links (ns : list cstr) : option cstr := match ns with [w] => demo_link w | _ => None end.

Lemma demo_link_deep (w : cstr) ns : ns <> [] -> demo_link (w ++ render ns) = None.
Proof.
  intros Hn. assert (47 ∈ w ++ render ns) as Hin by (destruct ns; [done | set_solver]). unfold demo_link.
  assert (forall t : cstr, 47 ∉ t -> bytes_eqb (w ++ render ns) t = false) as Hne.
  { intros t Ht. apply bool_decide_eq_false. by intros <-. }
  rewrite !Hne; [done | ..]; by apply (bool_decide_unpack _).
Qed.
Lemma demo_find s (q : cstr) : demo_inv s -> head q <> Some 47 -> vfs_find_mount (Some (47 :: q)) s = Some (0, q).
Proof.
  intros Hs Hq. assert (vfs_find_mount (Some (47 :: q)) s = vfs_find_mount (Some (47 :: q)) demo_root) as ->.
  { unfold vfs_find_mount, better_mount, fs_at. by rewrite Hs. }
  unfold vfs_find_mount. rewrite bool_decide_true by done. cbn [negb].
  assert (zfor (Z.to_nat VFS_MAX_MOUNTPOINTS) 0 (better_mount (47 :: q) demo_root) (None, 0) = (Some 0, 1)) as -> by (vm_compute; reflexivity).
  cbv zeta. change (zdrop 1 (47 :: q)) with q. by rewrite bool_decide_false.
Qed.
Lemma demo_links_as : links_as demo_ops demo_links demo_inv.
Proof.
  split.
  - intros s [|w ns] Hs Hp _; [done|]. apply Forall_cons in Hp as [(Hw & _ & _ & Hw47) _].
    assert (render (w :: ns) = 47 :: (w ++ render ns)) as -> by done. unfold read_link, mbind, st_bind, gets.
    rewrite demo_find; [|done|destruct w; [done|]; intros [= ->]; set_solver].
    unfold fs_op. assert (fs_at s 0 = fs_at demo_root 0) as -> by (unfold fs_at; by rewrite Hs).
    change (fs_ops (fs_at demo_root 0)) with (Some FsTmpfs). cbn. unfold world. destruct ns as [|w' ns].
    + rewrite app_nil_r. cbn. destruct (demo_link w); done.
    + rewrite demo_link_deep by done. done.
  - intros [|w [|]] t; [done| |done]. cbn. unfold demo_link. repeat case_match; intros; simplify_eq; by vm_compute.
  - intros s n Hs. exact Hs.
Qed.

(** [/up/./l] leads to [/b]; [/o] leads nowhere. *)
Lemma vfs_resolve_walk_witness :
  (exists n ns, n <= VFS_SYMLOOP_MAX /\ walk demo_links true [] (path_names (bytes_of "/up/./l")) false n ns /\ bytes_of "/b" = render_root ns) /\
  forall n ns, walk demo_links true [] [bytes_of "o"] false n ns -> VFS_SYMLOOP_MAX < n.
Proof.
  split.
  - destruct (vfs_resolve_walk demo_ops demo_links demo_inv (bytes_of "/up/./l") 1024 true demo_root demo_links_as eq_refl) as [H _].
    apply (H (bytes_of "/b")). vm_compute. reflexivity.
  - intros n ns Hw. destruct (Z.le_gt_cases n VFS_SYMLOOP_MAX) as [Hn|]; [|lia]. exfalso.
    destruct (vfs_resolve_walk demo_ops demo_links demo_inv (bytes_of "/o") 1024 true demo_root demo_links_as eq_refl) as [_ H].
    assert ((vfs_resolve demo_ops (Some (bytes_of "/o")) 1024 true demo_root).1 = Some (- ELOOP, bytes_of "/o")) as E2 by (vm_compute; reflexivity).
    rewrite E2 in H. destruct (H n ns Hw Hn) as [E|(e & o & E & He)]; apply Some_inj, pair_eq in E as [E _]; [discriminate E|].
    subst e. clear -He. revert He. apply (bool_decide_unpack (not (_ ∈ _))). exact I.
Defined.
