(* ===== verification/VfsTmpfs.v ===== *)
(** * tmpfs behind the virtual filesystem

    The operation table of src/tmpfs.c as a driver of src/vfs.c: the two
    models composed, over the kernel heap they share.  Handles are pointers to
    [tmpfs_handle_t], so the driver's state keeps the structures at their
    addresses. *)
From stdpp Require Import gmap.
From S2P Require Import Prelude Paths Heap Tmpfs TmpfsData TmpfsTree TmpfsOps Vfs.
#[local] Open Scope Z_scope.

Section driver.
Context {H : Type} `{!KHeap H}.

Record tworld := mk_tw { tw_fs : tmpfs H; tw_handles : gmap Z handle }.

(** The heap of the driver is the heap of the kernel. *)
#[global] Instance tw_heap : KHeap tworld := {|
  hp_kalloc n w := let '(p, h) := hp_kalloc n (t_heap (tw_fs w)) in (p, mk_tw (set_heap h (tw_fs w)) (tw_handles w));
  hp_kfree p w := mk_tw (set_heap (hp_kfree p (t_heap (tw_fs w))) (tw_fs w)) (tw_handles w);
  hp_pages_available w := hp_pages_available (t_heap (tw_fs w));
  heap_ok w := heap_ok (t_heap (tw_fs w));
  heap_live w := heap_live (t_heap (tw_fs w));
|}.

(** The structure at [p]; a pointer that is no handle names no inode. *)
Definition handle_at (w : tworld) (p : Z) : handle := default (mk_handle p 0 0 0) (tw_handles w !! p).
Definition on_fs {A : Type} (f : tmpfs H -> A * tmpfs H) (w : tworld) : A * tworld :=
  let '(a, s) := f (tw_fs w) in (a, mk_tw s (tw_handles w)).

Definition drv_open (rel : cstr) (flags : Z) (w : tworld) : Z * tworld :=
  let '(o, s) := tmpfs_open (Some rel) flags (tw_fs w) in
  match o with
  | Some h => (h_addr h, mk_tw s (<[h_addr h := h]> (tw_handles w)))
  | None => (0, mk_tw s (tw_handles w))
  end.
Definition drv_close (p : Z) (w : tworld) : Z * tworld :=
  if p =? 0 then on_fs (tmpfs_close None) w
  else
    let '(r, s) := tmpfs_close (Some (handle_at w p)) (tw_fs w) in
    (r, mk_tw s (delete p (tw_handles w))).
Definition drv_read (p size : Z) (w : tworld) : Z * list Z * tworld :=
  let '(r, bytes, h) := tmpfs_read (handle_at w p) size (tw_fs w) in
  (r, bytes, mk_tw (tw_fs w) (<[p := h]> (tw_handles w))).
Definition drv_write (p : Z) (buf : list Z) (w : tworld) : Z * tworld :=
  let '(r, h, s) := tmpfs_write (handle_at w p) buf (zlen buf) (tw_fs w) in
  (r, mk_tw s (<[p := h]> (tw_handles w))).
Definition drv_seek (p offset whence : Z) (w : tworld) : Z * tworld :=
  let '(r, h) := tmpfs_seek (handle_at w p) offset whence (tw_fs w) in
  (r, mk_tw (tw_fs w) (<[p := h]> (tw_handles w))).
Definition drv_dirent (d : dirent) : vfs_dirent :=
  mk_vdirent (d_name d) (d_inode d) (if d_isdir d then VFS_DIRECTORY else VFS_FILE) (if d_lnk d then 1 else 0) (d_size d).
Definition drv_readdir (rel : cstr) (max : Z) (w : tworld) : Z * list vfs_dirent * tworld :=
  let '(r, es, s) := tmpfs_readdir (Some rel) max (tw_fs w) in (r, drv_dirent <$> es, mk_tw s (tw_handles w)).
Definition drv_stat (rel : cstr) (w : tworld) : Z * stat * tworld :=
  let '(r, st, s) := tmpfs_stat (Some rel) true (tw_fs w) in (r, default zero_stat st, mk_tw s (tw_handles w)).

(** [tmpfs_ops]; the operations it leaves out are NULL. *)
Definition tmpfs_ops : vfs_fs_ops tworld := {|
  op_open := Some (fun _ => drv_open);
  op_close := Some (fun _ => drv_close);
  op_read := Some (fun _ => drv_read);
  op_write := Some (fun _ => drv_write);
  op_seek := Some (fun _ => drv_seek);
  op_get_size := Some (fun _ p w => (tmpfs_get_size (handle_at w p) (tw_fs w), w));
  op_readdir := Some (fun _ => drv_readdir);
  op_create := Some (fun _ rel => on_fs (tmpfs_create (Some rel)));
  op_mkdir := Some (fun _ rel => on_fs (tmpfs_mkdir (Some rel)));
  op_unlink := Some (fun _ rel => on_fs (tmpfs_unlink (Some rel)));
  op_exists := Some (fun _ rel => on_fs (tmpfs_exists (Some rel)));
  op_ioctl := None;
  op_rename := Some (fun _ o n => on_fs (tmpfs_rename (Some o) (Some n)));
  op_rmdir := Some (fun _ rel => on_fs (tmpfs_rmdir (Some rel)));
  op_truncate := Some (fun _ rel len => on_fs (tmpfs_truncate (Some rel) len));
  op_ftruncate := Some (fun _ p len w => on_fs (tmpfs_ftruncate (handle_at w p) len) w);
  op_sync := None;
  op_stat := Some (fun _ => drv_stat);
  op_read_only := None;
  op_readlink := Some (fun _ rel cap => on_fs (tmpfs_readlink (Some rel) cap));
  op_symlink := Some (fun _ rel target => on_fs (tmpfs_symlink (Some rel) target));
  op_link := Some (fun _ o n => on_fs (tmpfs_link (Some o) (Some n)));
  op_lstat := Some (fun _ => drv_stat);
  op_setattr := Some (fun _ rel what mode uid gid => on_fs (tmpfs_setattr (Some rel) what mode uid gid));
  op_times := None;
|}.
Definition null_ops : vfs_fs_ops tworld :=
  mk_ops tworld None None None None None None None None None None None None None None None None None None None None None None None None None.
(** A system whose only filesystem is tmpfs. *)
Definition ram_ops (k : fskind) : vfs_fs_ops tworld := match k with FsTmpfs => tmpfs_ops | _ => null_ops end.
Definition ram_boot (s : tmpfs H) : vfs (W := tworld) :=
  (vfs_mount (Some [47]) (Some FsTmpfs) 0 (vfs_init false (mk_tw s ∅))).2.
End driver.
Arguments tworld : clear implicits.
