(* ===== verification/Mempool.v ===== *)
(** * Memory pools

    The fixed-size block pools of src/mem.c ([mempool_create] to
    [mempool_destroy]) over the kernel heap of [Heap]. *)
From S2P Require Import Prelude Heap.

Definition MAX_MEMORY_POOLS : Z := 16.

(** [free_list] is the array behind the blocks; only its first [free_blocks]
    entries are meant. *)
Record memory_pool := mk_pool {
  block_size : Z;
  num_blocks : Z;
  free_blocks : Z;
  free_list : list Z;
  pool_memory : Z;
  initialized : bool;
}.
Definition zero_pool : memory_pool := mk_pool 0 0 0 [] 0 false.
#[global] Instance pool_inhabited : Inhabited memory_pool := populate zero_pool.

Section mempool.
Context {H : Type} `{!KHeap H}.

Record mpools := mk_mpools { memory_pools : list memory_pool; next_pool_id : Z; mp_heap : H }.
Implicit Types (s : mpools) (id : Z).

Definition pool_at s id : memory_pool := zget (memory_pools s) id.
Definition set_pool id (q : memory_pool) s : mpools := mk_mpools (zset (memory_pools s) id q) (next_pool_id s) (mp_heap s).
Definition mempool_boot (h : H) : mpools := mk_mpools (replicate (Z.to_nat MAX_MEMORY_POOLS) zero_pool) 0 h.

(** [base], [base + size], ...: the blocks of a pool. *)
Definition pool_blocks (base size n : Z) : list Z := (fun i => u64 (base + i * size)) <$> seqZ 0 n.

Definition mempool_create (bsize nblocks : Z) s : Z * mpools :=
  if MAX_MEMORY_POOLS <=? next_pool_id s then (-1, s)
  else if (bsize =? 0) || (nblocks =? 0) then (-1, s)
  else
    let id := next_pool_id s in
    let q := pool_at s id in
    let total := u64 (bsize * nblocks) in
    let '(p, h) := hp_kalloc (u64 (total + u64 (nblocks * 8))) (mp_heap s) in
    let s := mk_mpools (memory_pools s) id h in
    if p =? 0 then (-1, set_pool id (mk_pool (block_size q) (num_blocks q) (free_blocks q) (free_list q) 0 (initialized q)) s)
    else
      let s := set_pool id (mk_pool bsize nblocks nblocks (pool_blocks p bsize nblocks) p true) s in
      (id, mk_mpools (memory_pools s) (id + 1) (mp_heap s)).

Definition pool_valid s id : bool := negb (id <? 0) && negb (MAX_MEMORY_POOLS <=? id) && initialized (pool_at s id).

Definition mempool_alloc id s : Z * mpools :=
  if negb (pool_valid s id) then (0, s)
  else
    let q := pool_at s id in
    if free_blocks q =? 0 then (0, s)
    else
      let n := free_blocks q - 1 in
      (zget (free_list q) n, set_pool id (mk_pool (block_size q) (num_blocks q) n (free_list q) (pool_memory q) (initialized q)) s).

Definition mempool_free id (ptr : Z) s : mpools :=
  if negb (pool_valid s id) then s
  else if ptr =? 0 then s
  else
    let q := pool_at s id in
    let pool_start := pool_memory q in
    let pool_end := pool_start +64 u64 (block_size q * num_blocks q) in
    if (ptr <? pool_start) || (pool_end <=? ptr) then s
    else if negb (u64 (ptr - pool_start) mod block_size q =? 0) then s
    else if num_blocks q <=? free_blocks q then s
    else
      let n := free_blocks q in
      set_pool id (mk_pool (block_size q) (num_blocks q) (n + 1) (zset (free_list q) n ptr) (pool_memory q) (initialized q)) s.

Definition mempool_destroy id s : mpools :=
  if negb (pool_valid s id) then s
  else
    let q := pool_at s id in
    let h := if pool_memory q =? 0 then mp_heap s else hp_kfree (pool_memory q) (mp_heap s) in
    set_pool id zero_pool (mk_mpools (memory_pools s) (next_pool_id s) h).
End mempool.
Arguments mpools : clear implicits.

(** ** Blocks of a pool *)

Lemma zlen_pool_blocks base size n : 0 <= n -> zlen (pool_blocks base size n) = n.
Proof. intros Hn. unfold pool_blocks, zlen. rewrite length_fmap, length_seqZ. lia. Qed.

Lemma elem_of_pool_blocks base size n p : 0 <= base -> 0 < size -> base + size * n <= 2 ^ 64 ->
  p ∈ pool_blocks base size n <-> exists i, 0 <= i < n /\ p = base + i * size.
Proof.
  intros Hb Hs Hf. unfold pool_blocks. rewrite list_elem_of_fmap. split.
  - intros (i & -> & Hi%elem_of_seqZ). exists i. split; [lia|]. apply u64_small. nia.
  - intros (i & Hi & ->). exists i. split; [symmetry; apply u64_small; nia|]. apply elem_of_seqZ. lia.
Qed.
Lemma NoDup_pool_blocks base size n : 0 <= base -> 0 < size -> base + size * n <= 2 ^ 64 -> NoDup (pool_blocks base size n).
Proof.
  intros Hb Hs Hf. unfold pool_blocks. apply (NoDup_fmap_2_strong _ (seqZ 0 n)); [|apply NoDup_seqZ].
  intros i j Hi%elem_of_seqZ Hj%elem_of_seqZ. rewrite !u64_small by nia. nia.
Qed.

(** ** Histories of calls *)

Section safety.
Context {H : Type} `{KHeapLaws H}.
Implicit Types (s : mpools H) (id : Z) (out : list (Z * Z)).

(** The blocks handed out from a pool. *)
Definition outs id out : list Z := (filter (fun x => x.1 = id) out).*2.

Record pool_ok (h : H) (q : memory_pool) (l : list Z) : Prop := {
  po_size : 0 < block_size q;
  po_num : 0 < num_blocks q;
  po_len : zlen (free_list q) = num_blocks q;
  po_free : 0 <= free_blocks q <= num_blocks q;
  po_live : exists m, block_size q * num_blocks q + 8 * num_blocks q <= m /\ heap_live h (pool_memory q) m;
  po_perm : ztake (free_blocks q) (free_list q) ++ l ≡ₚ pool_blocks (pool_memory q) (block_size q) (num_blocks q);
}.
Record mp_ok s out : Prop := {
  mpk_len : zlen (memory_pools s) = MAX_MEMORY_POOLS;
  mpk_next : 0 <= next_pool_id s;
  mpk_heap : heap_ok (mp_heap s);
  mpk_pool : forall id, 0 <= id < MAX_MEMORY_POOLS -> initialized (pool_at s id) = true ->
    id < next_pool_id s /\ pool_ok (mp_heap s) (pool_at s id) (outs id out);
  mpk_out : forall id p, (id, p) ∈ out -> 0 <= id < MAX_MEMORY_POOLS /\ initialized (pool_at s id) = true;
  mpk_apart : forall i j, 0 <= i < MAX_MEMORY_POOLS -> 0 <= j < MAX_MEMORY_POOLS ->
    initialized (pool_at s i) = true -> initialized (pool_at s j) = true -> pool_memory (pool_at s i) = pool_memory (pool_at s j) -> i = j;
}.

(** A call and the blocks in use after it.  A client frees blocks it was
    given, or pointers that are no blocks of the pool; others use the heap,
    but not the pools' memory. *)
Inductive mp_step : mpools H * list (Z * Z) -> mpools H * list (Z * Z) -> Prop :=
  | mp_create bsize n s out r s' : 0 <= bsize -> 0 <= n -> bsize * n + 8 * n < 2 ^ 64 -> mempool_create bsize n s = (r, s') -> mp_step (s, out) (s', out)
  | mp_alloc id s out p s' : mempool_alloc id s = (p, s') -> mp_step (s, out) (s', if p =? 0 then out else (id, p) :: out)
  | mp_free id p s out out' : out ≡ₚ (id, p) :: out' -> mp_step (s, out) (mempool_free id p s, out')
  | mp_free_other id p s out : 0 <= p < 2 ^ 64 -> p ∉ pool_blocks (pool_memory (pool_at s id)) (block_size (pool_at s id)) (num_blocks (pool_at s id)) ->
      mp_step (s, out) (mempool_free id p s, out)
  | mp_destroy id s out : mp_step (s, out) (mempool_destroy id s, if pool_valid s id then filter (fun x => x.1 <> id) out else out)
  | mp_kalloc n s out p h : 0 <= n -> hp_kalloc n (mp_heap s) = (p, h) -> mp_step (s, out) (mk_mpools (memory_pools s) (next_pool_id s) h, out)
  | mp_kfree p n s out : heap_live (mp_heap s) p n -> (forall id, 0 <= id < MAX_MEMORY_POOLS -> initialized (pool_at s id) = true -> pool_memory (pool_at s id) <> p) ->
      mp_step (s, out) (mk_mpools (memory_pools s) (next_pool_id s) (hp_kfree p (mp_heap s)), out).

Lemma pool_at_set s id q j : zlen (memory_pools s) = MAX_MEMORY_POOLS -> 0 <= id < MAX_MEMORY_POOLS -> 0 <= j < MAX_MEMORY_POOLS ->
  pool_at (set_pool id q s) j = if decide (j = id) then q else pool_at s j.
Proof. intros Hl Hi Hj. unfold pool_at. cbn. case_decide as E; [subst j; apply zget_zset_eq; lia | apply zget_zset_ne; lia]. Qed.
Lemma pool_valid_spec s id : pool_valid s id = true <-> 0 <= id < MAX_MEMORY_POOLS /\ initialized (pool_at s id) = true.
Proof. unfold pool_valid. rewrite !andb_true_iff, !negb_true_iff, Z.ltb_ge, Z.leb_gt. tauto. Qed.

Lemma outs_cons id p out : outs id ((id, p) :: out) = p :: outs id out.
Proof. unfold outs. by rewrite filter_cons_True. Qed.
Lemma outs_cons_ne id j p out : j <> id -> outs id ((j, p) :: out) = outs id out.
Proof. intros Hne. unfold outs. by rewrite filter_cons_False by done. Qed.
#[global] Instance outs_perm id : Proper ((≡ₚ) ==> (≡ₚ)) (outs id).
Proof. intros l l' Hl. unfold outs. by rewrite Hl. Qed.
Lemma elem_of_outs id p out : p ∈ outs id out <-> (id, p) ∈ out.
Proof.
  unfold outs. rewrite list_elem_of_fmap. split.
  - intros ([j q] & -> & [<- Hin]%list_elem_of_filter). done.
  - intros Hin. exists (id, p). split; [done|]. by apply list_elem_of_filter.
Qed.

(** Keeping the pool's memory alive keeps the pool. *)
Lemma pool_ok_heap h h' q l : (forall m, heap_live h (pool_memory q) m -> heap_live h' (pool_memory q) m) -> pool_ok h q l -> pool_ok h' q l.
Proof. intros Hh [P1 P2 P3 P4 (m & P5 & P6) P7]. split; try done. exists m. auto. Qed.
Lemma mp_ok_heap s out h' : mp_ok s out -> heap_ok h' ->
  (forall id m, 0 <= id < MAX_MEMORY_POOLS -> initialized (pool_at s id) = true -> heap_live (mp_heap s) (pool_memory (pool_at s id)) m ->
    heap_live h' (pool_memory (pool_at s id)) m) ->
  mp_ok (mk_mpools (memory_pools s) (next_pool_id s) h') out.
Proof.
  intros [M1 M2 M3 M4 M5 M6] Hh Hl. split; try done. intros id Hid Hi. destruct (M4 id Hid Hi) as [Hn Hp]. split; [done|].
  eapply pool_ok_heap; [|exact Hp]. intros m. by apply Hl.
Qed.

(** Changing one pool. *)
Lemma mp_ok_set s out id q out' : mp_ok s out -> 0 <= id < MAX_MEMORY_POOLS ->
  (initialized q = true -> id < next_pool_id s /\ pool_ok (mp_heap s) q (outs id out') /\
    forall j, 0 <= j < MAX_MEMORY_POOLS -> j <> id -> initialized (pool_at s j) = true -> pool_memory (pool_at s j) <> pool_memory q) ->
  (forall j, j <> id -> outs j out' ≡ₚ outs j out) -> (forall p, (id, p) ∈ out' -> initialized q = true) ->
  mp_ok (set_pool id q s) out'.
Proof.
  intros [M1 M2 M3 M4 M5 M6] Hid Hq Ho Hin.
  assert (forall j, 0 <= j < MAX_MEMORY_POOLS -> pool_at (set_pool id q s) j = if decide (j = id) then q else pool_at s j) as Hat
    by (intros; by apply pool_at_set).
  split; try done.
  - cbn. by rewrite zlen_zset.
  - intros j Hj. rewrite Hat by done. case_decide as E; [subst j; intros Hi; by destruct (Hq Hi) as (? & ? & _)|]. intros Hi.
    destruct (M4 j Hj Hi) as [Hn [P1 P2 P3 P4 P5 P6]]. split; [done|]. split; try done. by rewrite Ho.
  - intros j p Hjp. destruct (decide (j = id)) as [->|Hne].
    + split; [done|]. rewrite Hat by done. rewrite decide_True by done. by eapply Hin.
    + apply elem_of_outs in Hjp. rewrite Ho in Hjp by done. apply elem_of_outs in Hjp. destruct (M5 _ _ Hjp) as [Hj Hi]. split; [done|].
      rewrite Hat by done. by rewrite decide_False.
  - intros i j Hi Hj. rewrite !Hat by done. repeat case_decide; subst; try done.
    + intros Hqi Hji E. destruct (Hq Hqi) as (_ & _ & Hne). by destruct (Hne j).
    + intros Hqi Hji E. destruct (Hq Hji) as (_ & _ & Hne). by destruct (Hne i).
    + by apply M6.
Qed.

Lemma outs_uninit s out id : mp_ok s out -> 0 <= id < MAX_MEMORY_POOLS -> initialized (pool_at s id) = false -> outs id out = [].
Proof.
  intros Hok Hid Hi. destruct (outs id out) as [|p l] eqn:E; [done|]. exfalso. assert ((id, p) ∈ out) as Hin by (apply elem_of_outs; rewrite E; set_solver).
  destruct (mpk_out _ _ Hok _ _ Hin). congruence.
Qed.

(** ** Each call keeps the invariant *)

Lemma mempool_create_ok bsize n s out r s' : mp_ok s out -> 0 <= bsize -> 0 <= n -> bsize * n + 8 * n < 2 ^ 64 ->
  mempool_create bsize n s = (r, s') -> mp_ok s' out.
Proof.
  intros Hok Hb Hn Hfit. unfold mempool_create. case_if; [by intros [= <- <-]|]. bool_hyps. case_if; [by intros [= <- <-]|]. bool_hyps.
  set (id := next_pool_id s) in *. pose proof Hok as [M1 M2 M3 M4 M5 M6]. fold id in M2, M4.
  assert (0 <= id < MAX_MEMORY_POOLS) as Hid by lia.
  assert (initialized (pool_at s id) = false) as Hun by (destruct (initialized _) eqn:E; [destruct (M4 id Hid E); lia | done]).
  rewrite (u64_small (bsize * n)), (u64_small (n * 8)), u64_small by nia. destruct (hp_kalloc _ _) as [p h] eqn:Ea.
  assert (0 <= bsize * n + n * 8) as Hsz by nia. set (s1 := mk_mpools (memory_pools s) id h). destruct (Z.eqb_spec p 0) as [->|Hp]; intros [= <- <-].
  - destruct (kalloc_fail _ _ _ M3 Hsz Ea) as [Hh Hl].
    apply (mp_ok_set s1 out); [apply (mp_ok_heap s); [done | done |]; intros; by apply Hl | done | cbn; congruence | done |].
    intros q Hq. destruct (M5 _ _ Hq). cbn. congruence.
  - destruct (kalloc_fresh _ _ _ _ M3 Hsz Ea Hp) as (Hh & m & Hm & Hnew & Hl).
    assert (mp_ok s1 out) as Hok1 by (apply (mp_ok_heap s); [done | done |]; intros; apply Hl; by right).
    set (q := mk_pool bsize n n _ p true).
    assert (mp_ok (mk_mpools (memory_pools s) (id + 1) h) out) as Hok2.
    { destruct Hok1 as [N1 N2 N3 N4 N5 N6]. split; try done; [cbn; lia|]. intros j Hj Hi. destruct (N4 j Hj Hi) as [? ?]. cbn in *. split; [lia | done]. }
    apply (mp_ok_set (mk_mpools (memory_pools s) (id + 1) h) out id q); [done | done | | done | done].
    intros _. cbn. split; [lia|]. split.
    + rewrite (outs_uninit s) by done. split; cbn; try lia; [by apply zlen_pool_blocks | |].
      * exists m. split; [lia|]. apply Hl. by left.
      * unfold ztake. rewrite app_nil_r, take_ge; [done|]. pose proof (zlen_pool_blocks p bsize n Hn) as E. unfold zlen in E. lia.
    + intros j Hj Hne Hi. intros E. destruct (M4 j Hj Hi) as [_ [_ _ _ _ (k & _ & Hk) _]]. apply (Hnew k). by rewrite <- E.
Qed.

(** The part of the free list that is meant, one block longer or shorter. *)
Lemma ztake_pop (l : list Z) n : 0 < n <= zlen l -> ztake n l = ztake (n - 1) l ++ [zget l (n - 1)].
Proof.
  intros Hn. destruct (lookup_lt_is_Some_2 l (Z.to_nat (n - 1))) as [x Hx]; [unfold zlen in Hn; lia|].
  rewrite (zget_lookup l (n - 1) x) by done. unfold ztake. replace (Z.to_nat n) with (S (Z.to_nat (n - 1))) by lia. by apply take_S_r.
Qed.
Lemma ztake_push (l : list Z) n x : 0 <= n < zlen l -> ztake (n + 1) (zset l n x) = ztake n l ++ [x].
Proof.
  intros Hn. rewrite ztake_pop by (rewrite zlen_zset; lia). replace (n + 1 - 1) with n by lia. rewrite zget_zset_eq by lia.
  f_equal. unfold ztake, zset. by rewrite take_insert_ge.
Qed.

Lemma block_range s out id p : mp_ok s out -> 0 <= id < MAX_MEMORY_POOLS -> initialized (pool_at s id) = true ->
  let q := pool_at s id in
  p ∈ pool_blocks (pool_memory q) (block_size q) (num_blocks q) <->
  (pool_memory q <= p < pool_memory q + block_size q * num_blocks q /\ (p - pool_memory q) mod block_size q = 0).
Proof.
  intros Hok Hid Hi q. destruct (mpk_pool _ _ Hok id Hid Hi) as [_ [P1 P2 _ _ (m & P5 & P6) _]]. fold q in P1, P2, P5, P6.
  destruct (live_nonnull _ _ _ (mpk_heap _ _ Hok) P6) as (? & ? & ?).
  rewrite elem_of_pool_blocks by nia. split.
  - intros (i & Hi' & ->). split; [nia|]. replace (pool_memory q + i * block_size q - pool_memory q) with (i * block_size q) by lia. by apply Z.mod_mul; lia.
  - intros [Hr Hm]. apply Z.mod_divide in Hm as [i Hm]; [|lia]. exists i. nia.
Qed.

Lemma pool_fields s out id : mp_ok s out -> 0 <= id < MAX_MEMORY_POOLS -> initialized (pool_at s id) = true ->
  let q := pool_at s id in 0 < pool_memory q /\ pool_memory q + block_size q * num_blocks q <= 2 ^ 64 - 8 * num_blocks q /\ 0 < block_size q /\ 0 < num_blocks q.
Proof.
  intros Hok Hid Hi q. destruct (mpk_pool _ _ Hok id Hid Hi) as [_ [P1 P2 _ _ (m & P5 & P6) _]]. fold q in P1, P2, P5, P6.
  destruct (live_nonnull _ _ _ (mpk_heap _ _ Hok) P6) as (? & ? & ?). lia.
Qed.

Lemma pool_count s out id : mp_ok s out -> 0 <= id < MAX_MEMORY_POOLS -> initialized (pool_at s id) = true ->
  free_blocks (pool_at s id) + zlen (outs id out) = num_blocks (pool_at s id).
Proof.
  intros Hok Hid Hi. destruct (mpk_pool _ _ Hok id Hid Hi) as [_ [P1 P2 P3 P4 _ P6]]. set (q := pool_at s id) in *.
  assert (zlen (ztake (free_blocks q) (free_list q)) = free_blocks q) as <- by (rewrite zlen_ztake; lia).
  rewrite <- zlen_app, <- (zlen_pool_blocks (pool_memory q) (block_size q) (num_blocks q)) by lia. unfold zlen. by rewrite P6.
Qed.

(** [mempool_free] past its checks. *)
Definition pushed (q : memory_pool) (p : Z) : memory_pool :=
  mk_pool (block_size q) (num_blocks q) (free_blocks q + 1) (zset (free_list q) (free_blocks q) p) (pool_memory q) (initialized q).
Lemma mempool_free_push s id p : 0 <= id < MAX_MEMORY_POOLS -> initialized (pool_at s id) = true ->
  let q := pool_at s id in
  0 < pool_memory q /\ pool_memory q + block_size q * num_blocks q <= 2 ^ 64 - 8 * num_blocks q /\ 0 < block_size q /\ 0 < num_blocks q ->
  pool_memory q <= p < pool_memory q + block_size q * num_blocks q /\ (p - pool_memory q) mod block_size q = 0 ->
  free_blocks q < num_blocks q -> mempool_free id p s = set_pool id (pushed q p) s.
Proof.
  intros Hid Hi q (F1 & F2 & F3 & F4) Hpb Hfb. unfold mempool_free. rewrite (proj2 (pool_valid_spec s id)) by done. cbn [negb]. fold q.
  rewrite (proj2 (Z.eqb_neq p 0)) by lia. cbn zeta.
  rewrite (u64_small (block_size q * num_blocks q)), !u64_small by lia. rewrite (proj2 (Z.ltb_ge _ _)), (proj2 (Z.leb_gt _ _)) by lia. cbn [orb].
  rewrite (proj2 (Z.eqb_eq _ 0)) by lia. cbn [negb]. by rewrite (proj2 (Z.leb_gt _ _)) by lia.
Qed.

Lemma mempool_alloc_ok id s out p s' : mp_ok s out -> mempool_alloc id s = (p, s') -> mp_ok s' (if p =? 0 then out else (id, p) :: out).
Proof.
  intros Hok. unfold mempool_alloc. destruct (pool_valid s id) eqn:Ev; cbn [negb]; [|by intros [= <- <-]].
  apply pool_valid_spec in Ev as [Hid Hi]. case_if; [by intros [= <- <-]|]. bool_hyps. intros [= <- <-]. set (q := pool_at s id) in *.
  destruct (mpk_pool _ _ Hok id Hid Hi) as [Hnx [P1 P2 P3 P4 P5 P6]]. fold q in P1, P2, P3, P4, P5, P6.
  pose proof (ztake_pop (free_list q) (free_blocks q) ltac:(lia)) as Et. set (p := zget _ _) in *.
  assert (p <> 0) as Hp.
  { destruct (pool_fields _ _ _ Hok Hid Hi) as (F1 & _). fold q in F1.
    assert (p ∈ pool_blocks (pool_memory q) (block_size q) (num_blocks q)) as Hin by (rewrite <- P6, Et; set_solver).
    apply (block_range _ _ _ _ Hok Hid Hi) in Hin. fold q in Hin. lia. }
  rewrite (proj2 (Z.eqb_neq _ _)) by done. apply (mp_ok_set s out); [done | done | | |].
  - intros _. rewrite outs_cons. split; [exact Hnx|]. split; [split; cbn; try done; [lia|]|].
    + rewrite <- P6, Et, <- app_assoc. done.
    + intros j Hj Hne Hij. intros E. by apply Hne, (mpk_apart _ _ Hok).
  - intros j Hj. by rewrite outs_cons_ne.
  - intros _ _. exact Hi.
Qed.

(** Pointers that are no blocks are refused. *)
Lemma mempool_free_other s out id p : mp_ok s out -> 0 <= p < 2 ^ 64 ->
  p ∉ pool_blocks (pool_memory (pool_at s id)) (block_size (pool_at s id)) (num_blocks (pool_at s id)) -> mempool_free id p s = s.
Proof.
  intros Hok Hp Hno. unfold mempool_free. destruct (pool_valid s id) eqn:Ev; cbn [negb]; [|done].
  apply pool_valid_spec in Ev as [Hid Hi]. case_if; [done|]. rewrite (block_range _ _ _ _ Hok Hid Hi) in Hno.
  destruct (pool_fields _ _ _ Hok Hid Hi) as (? & ? & ? & ?). set (q := pool_at s id) in *. cbn zeta.
  rewrite (u64_small (block_size q * num_blocks q)), u64_small by nia. case_if; [done|]. case_if; [done|]. bool_hyps. exfalso. apply Hno.
  rewrite u64_small in * by lia. split; [lia | done].
Qed.

Lemma out_block s out id p : mp_ok s out -> (id, p) ∈ out ->
  let q := pool_at s id in
  0 <= id < MAX_MEMORY_POOLS /\ initialized q = true /\
  pool_memory q <= p < pool_memory q + block_size q * num_blocks q /\ (p - pool_memory q) mod block_size q = 0.
Proof.
  intros Hok Hin q. destruct (mpk_out _ _ Hok _ _ Hin) as [Hid Hi]. split; [done|]. split; [done|].
  apply (block_range _ _ _ _ Hok Hid Hi). destruct (mpk_pool _ _ Hok id Hid Hi) as [_ [_ _ _ _ _ P6]]. rewrite <- P6.
  apply elem_of_app. right. by apply elem_of_outs.
Qed.

Lemma mempool_free_ok id p s out out' : mp_ok s out -> out ≡ₚ (id, p) :: out' -> mp_ok (mempool_free id p s) out'.
Proof.
  intros Hok Hout. destruct (out_block s out id p Hok) as (Hid & Hi & Hpb); [rewrite Hout; set_solver|].
  pose proof (pool_count _ _ _ Hok Hid Hi) as Hc. pose proof (pool_fields _ _ _ Hok Hid Hi) as Hf.
  destruct (mpk_pool _ _ Hok id Hid Hi) as [Hnx [P1 P2 P3 P4 P5 P6]].
  assert (outs id out ≡ₚ p :: outs id out') as Ho by (rewrite Hout, outs_cons; done). unfold zlen in Hc. rewrite Ho in P6, Hc. cbn [length] in Hc.
  rewrite mempool_free_push by (done || lia). set (q := pool_at s id) in *. apply (mp_ok_set s out); [done | done | | |].
  - intros _. cbn. split; [done|]. split; [split; cbn; try done; [by rewrite zlen_zset | lia|]|].
    + rewrite ztake_push by lia. rewrite <- app_assoc. exact P6.
    + intros j Hj Hne Hij E. by apply Hne, (mpk_apart _ _ Hok).
  - intros j Hj. rewrite Hout. by rewrite outs_cons_ne.
  - intros _ _. exact Hi.
Qed.

Lemma mempool_destroy_ok id s out : mp_ok s out -> mp_ok (mempool_destroy id s) (if pool_valid s id then filter (fun x => x.1 <> id) out else out).
Proof.
  intros Hok. unfold mempool_destroy. destruct (pool_valid s id) eqn:Ev; cbn [negb]; [|done]. apply pool_valid_spec in Ev as [Hid Hi].
  set (q := pool_at s id). set (out' := filter _ out). destruct (mpk_pool _ _ Hok id Hid Hi) as [_ [_ _ _ _ (m & _ & Hm) _]]. fold q in Hm.
  destruct (live_nonnull _ _ _ (mpk_heap _ _ Hok) Hm) as (Hp & _). rewrite (proj2 (Z.eqb_neq _ 0)) by lia.
  destruct (kfree_live _ _ _ (mpk_heap _ _ Hok) Hm) as [Hh Hl].
  assert (mp_ok (set_pool id zero_pool s) out') as Hok'.
  { apply (mp_ok_set s out); [done | done | done | |].
    - intros j Hj. unfold outs, out'. rewrite list_filter_filter_l; [done|]. intros [a b] Ha. cbn in *. congruence.
    - intros p Hin. unfold out' in Hin. apply list_elem_of_filter in Hin as [Hin _]. done. }
  apply (mp_ok_heap _ _ (hp_kfree (pool_memory q) (mp_heap s)) Hok' Hh). intros j k Hj. rewrite (pool_at_set s) by (done || apply Hok).
  case_decide as E; [done|]. intros Hij Hk. apply Hl. split; [done|]. intros Eq. by apply E, (mpk_apart _ _ Hok).
Qed.

Lemma mp_step_ok x y : mp_step x y -> mp_ok x.1 x.2 -> mp_ok y.1 y.2.
Proof.
  destruct 1 as [bsize n s out r s' Hb Hn Hf E|id s out p s' E|id p s out out' Ho|id p s out Hp Hno|id s out|n s out p h Hn E|p n s out Hl Hno]; cbn; intros Hok.
  - by apply (mempool_create_ok bsize n s out r).
  - by eapply mempool_alloc_ok.
  - by eapply mempool_free_ok.
  - by rewrite (mempool_free_other s out).
  - by apply mempool_destroy_ok.
  - destruct (decide (p = 0)) as [->|Hp].
    + destruct (kalloc_fail _ _ _ (mpk_heap _ _ Hok) Hn E) as [Hh Hl]. apply mp_ok_heap; [done | done|]. intros; by apply Hl.
    + destruct (kalloc_fresh _ _ _ _ (mpk_heap _ _ Hok) Hn E Hp) as (Hh & m & _ & _ & Hl). apply mp_ok_heap; [done | done|]. intros; apply Hl; by right.
  - destruct (kfree_live _ _ _ (mpk_heap _ _ Hok) Hl) as [Hh Hl']. apply mp_ok_heap; [done | done|].
    intros id m Hid Hi Hm. apply Hl'. split; [done|]. by apply Hno.
Qed.
Lemma mp_run_ok x y : rtc mp_step x y -> mp_ok x.1 x.2 -> mp_ok y.1 y.2.
Proof. induction 1 as [|a b c Hst _ IH]; [done|]. intros Ha. by apply IH, (mp_step_ok a). Qed.
Lemma mempool_boot_ok h : heap_ok h -> mp_ok (mempool_boot h) [].
Proof.
  intros Hh. assert (forall id, initialized (pool_at (mempool_boot h) id) = false) as Hz.
  { intros id. unfold pool_at, zget. cbn. generalize (Z.to_nat id). intros k. do 17 (destruct k; [done|]). done. }
  split; try done.
  - intros id _. by rewrite Hz.
  - intros id p Hin. by apply not_elem_of_nil in Hin.
  - intros i j _ _. by rewrite Hz.
Qed.

Lemma outs_NoDup out : (forall id, NoDup (outs id out)) -> NoDup out.
Proof.
  induction out as [|[id p] out IH]; intros Hn; [constructor|]. constructor.
  - specialize (Hn id). rewrite outs_cons in Hn. apply NoDup_cons in Hn as [Hn _]. intros Hin. by apply Hn, elem_of_outs.
  - apply IH. intros j. specialize (Hn j). destruct (decide (id = j)) as [->|]; [rewrite outs_cons in Hn; by apply NoDup_cons in Hn as [_ Hn] | by rewrite outs_cons_ne in Hn].
Qed.
Lemma outs_blocks s out id : mp_ok s out -> 0 <= id < MAX_MEMORY_POOLS -> initialized (pool_at s id) = true ->
  NoDup (ztake (free_blocks (pool_at s id)) (free_list (pool_at s id)) ++ outs id out).
Proof.
  intros Hok Hid Hi. destruct (mpk_pool _ _ Hok id Hid Hi) as [_ [_ _ _ _ _ P6]]. rewrite P6.
  destruct (pool_fields _ _ _ Hok Hid Hi) as (? & ? & ? & ?). apply NoDup_pool_blocks; lia.
Qed.

Lemma alloc_null s out i : mp_ok s out -> 0 <= i < MAX_MEMORY_POOLS -> initialized (pool_at s i) = true ->
  (mempool_alloc i s).1 = 0 <-> zlen (outs i out) = num_blocks (pool_at s i).
Proof.
  intros Hok Hi Hii. destruct (mpk_pool _ _ Hok i Hi Hii) as [_ [P1 P2 P3 P4 _ P6]]. pose proof (pool_fields _ _ _ Hok Hi Hii) as (F1 & _).
  pose proof (block_range _ _ i (mempool_alloc i s).1 Hok Hi Hii) as Hb. pose proof (pool_count _ _ _ Hok Hi Hii) as Hsum. set (q := pool_at s i) in *.
  unfold mempool_alloc in *. rewrite (proj2 (pool_valid_spec s i)) in * by done. cbn [negb] in *. fold q in Hb |- *. case_if; bool_hyps; [cbn; lia|].
  cbn [fst] in *. split; [|lia]. intros E. exfalso. rewrite (ztake_pop (free_list q) (free_blocks q)) in P6 by lia.
  assert (zget (free_list q) (free_blocks q - 1) ∈ pool_blocks (pool_memory q) (block_size q) (num_blocks q)) as Hin by (rewrite <- P6; set_solver).
  apply Hb in Hin. lia.
Qed.

(** C26 Over calls to the pools that free no block twice and create no pool
    whose size overflows 64 bits, with other clients of the heap in between,
    the blocks in use are distinct and do not overlap, within a pool
    or across pools; each lies inside a live heap block that belongs to its
    pool; and [mempool_alloc] on a valid pool returns [NULL] only when all of
    its blocks are in use. *)
Theorem mempool_blocks_disjoint h s out : heap_ok h -> rtc mp_step (mempool_boot h, []) (s, out) ->
  NoDup out /\
  (forall i p j q, (i, p) ∈ out -> (j, q) ∈ out -> (i, p) <> (j, q) ->
    p + block_size (pool_at s i) <= q \/ q + block_size (pool_at s j) <= p) /\
  (forall i p, (i, p) ∈ out -> exists m, heap_live (mp_heap s) (pool_memory (pool_at s i)) m /\
    pool_memory (pool_at s i) <= p /\ p + block_size (pool_at s i) <= pool_memory (pool_at s i) + m) /\
  (forall i, pool_valid s i = true -> (mempool_alloc i s).1 = 0 <-> zlen (outs i out) = num_blocks (pool_at s i)).
Proof.
  intros Hh Hr. assert (mp_ok s out) as Hok.
  { apply (mp_run_ok _ _ Hr). by apply mempool_boot_ok. }
  assert (forall i p, (i, p) ∈ out -> let q := pool_at s i in 0 <= i < MAX_MEMORY_POOLS /\ initialized q = true /\
    exists k, 0 <= k < num_blocks q /\ p = pool_memory q + k * block_size q) as Hblk.
  { intros i p Hin q. destruct (mpk_out _ _ Hok _ _ Hin) as [Hi Hin']. split_and!; [lia | lia | done |].
    destruct (pool_fields _ _ _ Hok Hi Hin') as (? & ? & ? & ?). destruct (mpk_pool _ _ Hok i Hi Hin') as [_ [_ _ _ _ _ P6]].
    apply (elem_of_pool_blocks (pool_memory q) (block_size q) (num_blocks q) p); try (unfold q; lia). unfold q. rewrite <- P6. apply elem_of_app. right. by apply elem_of_outs. }
  split_and!.
  - apply outs_NoDup. intros id. destruct (outs id out) as [|p l] eqn:Eo; [constructor|]. rewrite <- Eo.
    destruct (mpk_out _ _ Hok id p) as [Hid Hi]; [apply elem_of_outs; rewrite Eo; set_solver|].
    pose proof (outs_blocks _ _ _ Hok Hid Hi) as Hn. by apply NoDup_app in Hn as (_ & _ & Hn).
  - intros i p j q Hp Hq Hne. destruct (Hblk _ _ Hp) as (Hi & Hii & k & Hk & ->). destruct (Hblk _ _ Hq) as (Hj & Hji & k' & Hk' & ->).
    destruct (decide (i = j)) as [->|Hij]; [assert (k <> k') by congruence; destruct (pool_fields _ _ _ Hok Hj Hji) as (_ & _ & ? & _); nia|].
    destruct (mpk_pool _ _ Hok i Hi Hii) as [_ [_ _ _ _ (m & Hm & Lm) _]]. destruct (mpk_pool _ _ Hok j Hj Hji) as [_ [_ _ _ _ (m' & Hm' & Lm') _]].
    assert (pool_memory (pool_at s i) <> pool_memory (pool_at s j)) as Hd by (intros E; by apply Hij, (mpk_apart _ _ Hok)).
    destruct (pool_fields _ _ _ Hok Hi Hii) as (_ & _ & ? & ?). destruct (pool_fields _ _ _ Hok Hj Hji) as (_ & _ & ? & ?).
    destruct (live_disjoint _ _ _ _ _ (mpk_heap _ _ Hok) Lm Lm' Hd); [left | right]; nia.
  - intros i p Hp. destruct (Hblk _ _ Hp) as (Hi & Hii & k & Hk & ->). destruct (mpk_pool _ _ Hok i Hi Hii) as [_ [P1 _ _ _ (m & Hm & Lm) _]].
    exists m. split; [done|]. nia.
  - intros i [Hi Hii]%pool_valid_spec. by apply alloc_null.
Qed.

(** [mempool_free] accepts a block that is already free as long as another
    one is in use: a block freed twice is handed out twice. *)
Theorem mempool_double_free s out id p q : mp_ok s out -> (id, p) ∈ out -> (id, q) ∈ out -> p <> q ->
  let '(a, s1) := mempool_alloc id (mempool_free id p (mempool_free id p s)) in
  let '(b, s2) := mempool_alloc id s1 in
  a = p /\ b = p.
Proof.
  intros Hok Hp Hq Hne. destruct (out_block s out id p Hok Hp) as (Hid & Hi & Hpb). pose proof (pool_fields _ _ _ Hok Hid Hi) as Hf.
  pose proof (pool_count _ _ _ Hok Hid Hi) as Hc. pose proof (mpk_len _ _ Hok) as Hl.
  destruct (mpk_pool _ _ Hok id Hid Hi) as [_ [P1 P2 P3 P4 _ _]].
  assert (2 <= zlen (outs id out)) as H2.
  { assert ([p; q] ⊆+ outs id out) as Hs by (apply NoDup_submseteq; [|
      intros x [->|[->|Hx%not_elem_of_nil]%elem_of_cons]%elem_of_cons; [by apply elem_of_outs.. | done]];
      apply NoDup_cons; split; [by intros Hx%list_elem_of_singleton | apply NoDup_singleton]).
    apply submseteq_length in Hs. cbn in Hs. unfold zlen. lia. }
  rewrite (mempool_free_push s) by (done || lia). set (x := pool_at s id) in *.
  assert (forall (t : mpools H) y, zlen (memory_pools t) = MAX_MEMORY_POOLS -> pool_at (set_pool id y t) id = y) as Hat.
  { intros t y Ht. rewrite pool_at_set by done. by rewrite decide_True. }
  assert (zlen (memory_pools (set_pool id (pushed x p) s)) = MAX_MEMORY_POOLS) as Hl1 by (cbn; by rewrite zlen_zset).
  rewrite (mempool_free_push (set_pool _ _ s)); rewrite ?Hat by done; try (done || (cbn; lia)).
  set (s' := set_pool id _ (set_pool _ _ s)). assert (zlen (memory_pools s') = MAX_MEMORY_POOLS) as Hl2 by (cbn; by rewrite !zlen_zset).
  unfold mempool_alloc at 1. assert (pool_at s' id = pushed (pushed x p) p) as E1 by (by apply Hat).
  rewrite (proj2 (pool_valid_spec s' id)) by (split; [done | by rewrite E1]). cbn [negb]. rewrite E1. cbn [pushed block_size num_blocks free_blocks free_list pool_memory initialized].
  rewrite (proj2 (Z.eqb_neq _ 0)) by lia. unfold mempool_alloc.
  rewrite (proj2 (pool_valid_spec _ id)) by (split; [done | by rewrite Hat]). cbn [negb]. rewrite Hat by done. cbn [block_size num_blocks free_blocks free_list pool_memory initialized].
  rewrite (proj2 (Z.eqb_neq _ 0)) by lia. replace (free_blocks x + 1 + 1 - 1) with (free_blocks x + 1) by lia. replace (free_blocks x + 1 - 1) with (free_blocks x) by lia.
  rewrite zget_zset_eq by (rewrite zlen_zset; lia). rewrite zget_zset_ne by (rewrite ?zlen_zset; lia). by rewrite zget_zset_eq by lia.
Qed.
End safety.
