(* ===== verification/VmmDemo.v ===== *)
(** * The virtual memory theorems at work

    A small machine: the striped heap of HeapTrace.v, a kernel table outside
    it, reference counts for sixteen frames.  Every theorem of the virtual
    memory manager applies to states reached by running it.  Memory pools at
    work are at the end. *)
From S2P Require Import Prelude Heap Pmm PmmInit Slab HeapTrace Vmm VmmRef VmmMap VmmProps VmmUnmap VmmClone Mempool.

Definition demo_hhdm : Z := 0xFFFF800000000000.
Definition demo_kernel : Z := demo_hhdm + 0x100000.
Definition demo_vmm : vmm kmem :=
  mk_vmm (kmem_boot striped) {[ demo_kernel := replicate 512 0 ]} demo_hhdm demo_kernel (Some (replicate 16 0)) 16 0x100000 [].

Lemma demo_vm_ok : vm_ok demo_vmm.
Proof. split; [exact striped_ok | vm_compute; split; congruence | vm_compute; congruence | reflexivity]. Qed.

(** A fresh address space, and one page of it mapped. *)
Definition demo_root : Z := (vmm_create_address_space demo_vmm).1.
Definition demo_space : vmm kmem := (vmm_create_address_space demo_vmm).2.
Definition demo_va : Z := 0x400000.
Definition demo_flags : Z := Z.lor VMM_WRITABLE VMM_USER.
Definition demo_mapped : vmm kmem := (vmm_map_page_in demo_root demo_va 0x6000 demo_flags demo_space).2.

Lemma demo_root_value : demo_root = 0xFFFF800000002000 /\ (vmm_map_page_in demo_root demo_va 0x6000 demo_flags demo_space).1 = 0.
Proof. vm_compute. split; reflexivity. Qed.
Lemma demo_space_eq : vmm_create_address_space demo_vmm = (demo_root, demo_space).
Proof. unfold demo_root, demo_space. apply surjective_pairing. Qed.
Lemma demo_mapped_eq : vmm_map_page_in demo_root demo_va 0x6000 demo_flags demo_space = (0, demo_mapped).
Proof. unfold demo_mapped. rewrite <- (proj2 demo_root_value). apply surjective_pairing. Qed.
#[local] Opaque demo_root demo_space demo_mapped.

Lemma demo_root_nonzero : demo_root <> 0.
Proof. rewrite (proj1 demo_root_value). discriminate. Qed.
Lemma demo_taken : taken demo_vmm (kernel_pml4 demo_vmm).
Proof. right. right. vm_compute. congruence. Qed.

Lemma demo_space_ok : as_ok demo_space demo_root.
Proof.
  destruct (create_spec demo_vmm _ _ demo_vm_ok demo_taken demo_space_eq) as [Hvm [[E _]|(Hnz & _ & Hl & Hw & _ & Hsh & _)]].
  { by destruct demo_root_nonzero. }
  apply empty_space; try done. intros i Hi Hlt. by rewrite Hw, decide_True.
Qed.

Lemma demo_va_user : user_va demo_va.
Proof. unfold user_va, demo_va. lia. Qed.

Lemma demo_mapped_ok : as_ok demo_mapped demo_root.
Proof. by apply (map_page_spec demo_space demo_root demo_va 0x6000 demo_flags 0 demo_mapped demo_space_ok demo_va_user demo_mapped_eq). Qed.

(** ** Witnesses *)

Lemma vmm_create_exact_witness :
  as_ok demo_space demo_root /\ vmm_is_mapped_in demo_root demo_va demo_space = 0 /\
  word demo_space demo_root 300 = word demo_vmm demo_kernel 300.
Proof.
  destruct (vmm_create_exact demo_vmm demo_root demo_space demo_vm_ok demo_taken demo_space_eq demo_root_nonzero) as (H1 & H2 & H3 & _).
  split; [exact H1|]. split; [exact (H2 demo_va demo_va_user) | apply H3; lia].
Defined.

Lemma vmm_map_exact_witness : vmm_is_mapped_in demo_root demo_va demo_mapped = 0x6000.
Proof.
  destruct (vmm_map_exact demo_space demo_root demo_va 0x6000 demo_flags 0 demo_mapped demo_space_ok demo_va_user eq_refl demo_mapped_eq)
    as (_ & _ & [[E _]|(_ & E & _)]); [discriminate E | exact E].
Defined.

Lemma vmm_unmap_exact_witness :
  vmm_is_mapped_in demo_root demo_va (vmm_unmap_page_in demo_root demo_va demo_mapped).2 = 0.
Proof.
  apply (vmm_unmap_exact demo_mapped demo_root demo_va _ _ demo_mapped_ok demo_va_user (surjective_pairing _)).
Defined.

Lemma vmm_map_range_exact_witness :
  let s' := (vmm_map_range demo_root 0x400000 0x6000 2 demo_flags demo_space).2 in
  vmm_is_mapped_in demo_root 0x401000 s' = 0x7000.
Proof.
  assert ((vmm_map_range demo_root 0x400000 0x6000 2 demo_flags demo_space).1 = 0) as E by (vm_compute; reflexivity).
  pose proof (surjective_pairing (vmm_map_range demo_root 0x400000 0x6000 2 demo_flags demo_space)) as Es. rewrite E in Es.
  destruct (vmm_map_range_exact demo_space demo_root 0x400000 0x6000 2 demo_flags _ demo_space_ok ltac:(lia) ltac:(lia) ltac:(lia)
    ltac:(lia) ltac:(lia) eq_refl Es) as (_ & Hin & _). exact (Hin 1 ltac:(lia)).
Defined.

Lemma vmm_unmap_range_exact_witness :
  let '(rc, s') := vmm_unmap_range_release_in demo_root 0x3FF000 3 demo_mapped in
  rc = 1 /\ vmm_is_mapped_in demo_root demo_va s' = 0.
Proof.
  destruct (vmm_unmap_range_release_in demo_root 0x3FF000 3 demo_mapped) as [rc s'] eqn:E.
  destruct (vmm_unmap_range_exact demo_mapped demo_root 0x3FF000 3 rc s' (as_pt _ _ demo_mapped_ok) demo_root_nonzero ltac:(lia) ltac:(lia)
    ltac:(vm_compute; congruence) E) as (_ & Hrc & Hm & _).
  split; [rewrite Hrc; vm_compute; reflexivity|]. rewrite (Hm demo_va demo_va_user). vm_compute. reflexivity.
Defined.

(** A frame with one mapping. *)
Definition demo_frame : Z := (vmm_alloc_frame demo_vmm).1.
Definition demo_owned : vmm kmem := (vmm_alloc_frame demo_vmm).2.
Lemma demo_frame_live : vm_ok demo_owned /\ demo_frame = 0x2000 /\ heap_live (v_heap demo_owned) (phys_to_virt demo_owned demo_frame) PT_PAGE.
Proof.
  assert (demo_frame = 0x2000) as Ef by (vm_compute; reflexivity).
  destruct (alloc_frame_spec demo_vmm demo_frame demo_owned demo_vm_ok (surjective_pairing _)) as (Hvm & Eh & _ & _ & Hc).
  split; [done|]. split; [done|]. destruct Hc as [[E0 _]|(v & _ & _ & Hv & _ & _ & _ & Hl)]; [rewrite Ef in E0; discriminate E0|].
  apply Hl. left. unfold phys_to_virt in *. by rewrite Eh.
Qed.
Lemma demo_owners : owners demo_owned demo_frame 1.
Proof.
  destruct demo_frame_live as (Hvm & Ef & Hl). split; [split| apply Hvm | done | lia | right].
  - eexists. split; vm_compute; reflexivity.
  - rewrite Ef. split; [lia | vm_compute; reflexivity].
  - split; [done | vm_compute; reflexivity].
Qed.

Lemma cow_frame_lifecycle_witness :
  let s' := foldl (frame_do demo_frame) demo_owned [Share; CowRelease; Release] in
  vmm_page_get_ref demo_frame s' = 255 /\ freed s' demo_frame = freed demo_owned demo_frame + 1.
Proof.
  apply (cow_frame_lifecycle demo_frame [Share; CowRelease; Release] demo_owned 1 demo_owners).
  cbn [owned_run owners_after]. lia.
Defined.

(** The same machine with counts for two frames only. *)
Definition demo_gap : vmm kmem :=
  mk_vmm (v_heap demo_owned) (v_mem demo_owned) demo_hhdm demo_kernel (Some (replicate 2 0)) 2 0x100000 [].
Lemma refcount_gap_witness :
  ~ heap_live (v_heap (vmm_leaf_release demo_frame (share_frame demo_frame demo_gap))) (phys_to_virt demo_gap demo_frame) PT_PAGE.
Proof.
  destruct demo_frame_live as (Hvm & Ef & Hl).
  apply (refcount_gap demo_frame demo_gap (replicate 2 0)); [reflexivity | rewrite Ef; vm_compute; congruence | rewrite Ef; lia | apply Hvm | exact Hl].
Defined.

(** A machine with room for two address spaces. *)
Definition roomy : pmm := mk_pmm 16 0x1000 demo_hhdm 16 [0; 0] 0 16 (replicate 16 0).
Lemma roomy_ok : slab_ok (kmem_boot roomy).
Proof.
  assert (forall i, 0 <= i < 16 -> entry roomy i = 0) as Hz by (intros i Hi; apply (zget_zeros 16 i); lia).
  apply kmem_boot_ok; [|done]. apply fresh_pmm_ok; done.
Qed.
Definition fork_vmm : vmm kmem :=
  mk_vmm (kmem_boot roomy) {[ demo_kernel := replicate 512 0 ]} demo_hhdm demo_kernel (Some (replicate 32 0)) 32 0x100000 [].
Lemma fork_vm_ok : vm_ok fork_vmm.
Proof. split; [exact roomy_ok | vm_compute; split; congruence | vm_compute; congruence | reflexivity]. Qed.
Definition fork_root : Z := (vmm_create_address_space fork_vmm).1.
Definition fork_space : vmm kmem := (vmm_create_address_space fork_vmm).2.
Definition fork_mapped : vmm kmem := (vmm_map_page_in fork_root demo_va 0x6000 demo_flags fork_space).2.
Definition fork_child : Z := (vmm_clone_address_space fork_root fork_mapped).1.
Definition fork_done : vmm kmem := (vmm_clone_address_space fork_root fork_mapped).2.

Lemma fork_space_eq : vmm_create_address_space fork_vmm = (fork_root, fork_space).
Proof. unfold fork_root, fork_space. apply surjective_pairing. Qed.
Lemma fork_values : fork_root = 0xFFFF800000001000 /\ (vmm_map_page_in fork_root demo_va 0x6000 demo_flags fork_space).1 = 0 /\
  fork_child = 0xFFFF800000005000.
Proof. vm_compute. split_and!; reflexivity. Qed.
Lemma fork_mapped_eq : vmm_map_page_in fork_root demo_va 0x6000 demo_flags fork_space = (0, fork_mapped).
Proof. unfold fork_mapped. rewrite <- (proj1 (proj2 fork_values)). apply surjective_pairing. Qed.
Lemma fork_done_eq : vmm_clone_address_space fork_root fork_mapped = (fork_child, fork_done).
Proof. unfold fork_child, fork_done. apply surjective_pairing. Qed.
Lemma fork_kernel : kernel_pml4 fork_mapped = demo_kernel /\ hp_top (v_heap fork_mapped) = 0xFFFF800000011000.
Proof. split; vm_compute; reflexivity. Qed.
(** The entry that the child has for the page. *)
Lemma fork_entry : pte_of fork_done fork_child demo_va = Some 0x6205.
Proof. vm_compute. reflexivity. Qed.

#[local] Opaque fork_root fork_space fork_mapped fork_child fork_done.

Lemma fork_space_ok : as_ok fork_space fork_root.
Proof.
  destruct (create_spec fork_vmm fork_root fork_space fork_vm_ok) as [Hvm [[E _]|(Hnz & _ & Hl & Hw & _ & Hsh & _)]].
  { right. right. vm_compute. congruence. }
  { exact fork_space_eq. }
  { rewrite (proj1 fork_values) in E. discriminate E. }
  apply empty_space; try assumption. intros i Hi Hlt. rewrite Hw, decide_True by assumption. reflexivity.
Qed.
Lemma fork_mapped_ok : as_ok fork_mapped fork_root.
Proof. apply (map_page_spec fork_space fork_root demo_va 0x6000 demo_flags 0 fork_mapped fork_space_ok demo_va_user fork_mapped_eq). Qed.

Lemma vmm_clone_exact_witness :
  pte_of fork_done fork_root demo_va = Some 0x6205 /\ private_writable 0x6205 = false.
Proof.
  destruct fork_kernel as [Ek Etop].
  destruct (vmm_clone_exact fork_mapped fork_root fork_child fork_done fork_mapped_ok) as (_ & _ & _ & _ & Hp & _).
  - right. right. rewrite Ek, Etop. vm_compute. congruence.
  - intros q Hq Hu. rewrite Ek in Hu. pose proof (as_live _ _ fork_mapped_ok q _ Hq Hu) as Hl.
    destruct (live_window _ _ _ (vo_heap _ (as_vm _ _ fork_mapped_ok)) Hl) as [_ Ht]. rewrite Etop in Ht. vm_compute in Ht. congruence.
  - exact fork_done_eq.
  - rewrite (proj2 (proj2 fork_values)). discriminate.
  - destruct (Hp demo_va 0x6205 demo_va_user fork_entry) as (H1 & _ & H3 & _). split; assumption.
Defined.

(** * A pool on the kernel heap

    The theorems of [Mempool] on the allocator of src/mem.c. *)

Definition demo_pools : mpools kmem := (mempool_create 64 3 (mempool_boot (kmem_boot striped))).2.
Definition demo_two : mpools kmem := (mempool_alloc 0 (mempool_alloc 0 demo_pools).2).2.
Definition demo_p : Z := (mempool_alloc 0 demo_pools).1.
Definition demo_q : Z := (mempool_alloc 0 (mempool_alloc 0 demo_pools).2).1.
Definition demo_out : list (Z * Z) := [(0, demo_q); (0, demo_p)].

Lemma striped_heap_ok : heap_ok (kmem_boot striped).
Proof. exact striped_ok. Qed.

Lemma demo_reached : rtc mp_step (mempool_boot (kmem_boot striped), []) (demo_two, demo_out).
Proof.
  set (s1 := (mempool_alloc 0 demo_pools).2). set (p := (mempool_alloc 0 demo_pools).1). set (q := (mempool_alloc 0 s1).1).
  eapply rtc_l; [apply (mp_create 64 3 _ [] (mempool_create 64 3 (mempool_boot (kmem_boot striped))).1 demo_pools); [done..|]; apply surjective_pairing|].
  pose proof (mp_alloc 0 demo_pools [] p s1 (surjective_pairing _)) as H1. assert ((p =? 0) = false) as Ep by (vm_compute; reflexivity).
  rewrite Ep in H1. eapply rtc_l; [exact H1|].
  pose proof (mp_alloc 0 s1 [(0, p)] q demo_two (surjective_pairing _)) as H2. assert ((q =? 0) = false) as Eq by (vm_compute; reflexivity).
  rewrite Eq in H2. apply rtc_once. exact H2.
Qed.

Lemma mempool_blocks_disjoint_witness : NoDup demo_out /\ (mempool_alloc 0 demo_two).1 <> 0.
Proof.
  destruct (mempool_blocks_disjoint (kmem_boot striped) demo_two demo_out striped_heap_ok demo_reached) as (H & _ & _ & Ha).
  split; [exact H|]. rewrite (Ha 0) by (vm_compute; reflexivity). vm_compute. discriminate.
Defined.

Lemma mempool_double_free_witness : (mempool_alloc 0 (mempool_free 0 demo_p (mempool_free 0 demo_p demo_two))).1 = demo_p.
Proof.
  assert (mp_ok demo_two demo_out) as Hok by (apply (mp_run_ok _ _ demo_reached), mempool_boot_ok, striped_heap_ok).
  pose proof (mempool_double_free demo_two demo_out 0 demo_p demo_q Hok) as H.
  assert ((0, demo_p) ∈ demo_out) as Hp by (right; left). assert ((0, demo_q) ∈ demo_out) as Hq by left.
  assert (demo_p <> demo_q) as Hne by (vm_compute; discriminate). specialize (H Hp Hq Hne).
  destruct (mempool_alloc 0 (mempool_free 0 demo_p (mempool_free 0 demo_p demo_two))) as [a s1]. destruct (mempool_alloc 0 s1) as [b s2].
  destruct H as [H _]. exact H.
Defined.
