(* ===== verification/Inotify.v ===== *)
(** * File change notification

    src/inotify.c: instances with a table of watches and a byte queue of
    events, the delivery of events to the watches of an object and of its
    directory, and the system call side (add, remove, read). *)
From stdpp Require Import gmap.
From S2P Require Import Prelude Paths Heap Vfs.
#[local] Open Scope Z_scope.

Definition INO_MAX_INST : Z := 32.
Definition INO_MAX_WATCH : Z := 128.
Definition INO_PATH : Z := 256.
Definition INO_QBYTES : Z := 16384.

Definition IN_MOVED_FROM : Z := 0x40.
Definition IN_MOVED_TO : Z := 0x80.
Definition IN_DELETE_SELF : Z := 0x400.
Definition IN_MOVE_SELF : Z := 0x800.
Definition IN_Q_OVERFLOW : Z := 0x4000.
Definition IN_IGNORED : Z := 0x8000.
Definition IN_ONLYDIR : Z := 0x1000000.
Definition IN_EXCL_UNLINK : Z := 0x4000000.
Definition IN_MASK_CREATE : Z := 0x10000000.
Definition IN_MASK_ADD : Z := 0x20000000.
Definition IN_ONESHOT : Z := 0x80000000.
Definition IN_ALL_EVENTS : Z := 0xfff.

(** [sizeof(ino_ev_t)]: four 32-bit fields. *)
Definition EV_SIZE : Z := 16.
Record ino_ev := mk_ev { ev_wd : Z; ev_mask : Z; ev_cookie : Z; ev_len : Z }.

Record ino_watch := mk_watch { w_wd : Z; w_mask : Z; w_is_dir : bool; w_path : cstr }.
Definition zero_watch : ino_watch := mk_watch 0 0 false [].
#[global] Instance watch_inhabited : Inhabited ino_watch := populate zero_watch.

Record ino_inst := mk_inst {
  next_wd : Z;
  gen : Z;
  qhead : Z;
  qtail : Z;
  qlast : Z;
  has_last : bool;
  overflowed : bool;
  watches : list ino_watch;
  q : list Z;
}.
Definition zero_inst : ino_inst :=
  mk_inst 0 0 0 0 0 false false (replicate (Z.to_nat INO_MAX_WATCH) zero_watch) (replicate (Z.to_nat INO_QBYTES) 0).

(** ** Paths *)

(** [while (o > 1 && out\[o - 1\] != '/') o--]. *)
Fixpoint norm_back (n : nat) (out : cstr) : Z :=
  match n with
  | O | S O => Z.of_nat n
  | S l => if zget out (Z.of_nat l) =? 47 then Z.of_nat n else norm_back l out
  end.
Definition norm_up (out : cstr) : cstr :=
  let o := zlen out in
  if 1 <? o then
    let o := norm_back (Z.to_nat (o - 1)) out in
    ztake (if 1 <? o then o - 1 else o) out
  else out.
Definition norm_add (out part : cstr) : cstr :=
  if zlen out + zlen part + 2 <? INO_PATH then (if 1 <? zlen out then out ++ [47] else out) ++ part else out.
Fixpoint norm_loop (fuel : nat) (s out : cstr) : cstr :=
  match fuel with
  | O => out
  | S fuel =>
      let s := skip_slashes s in
      if bool_decide (s = []) then out
      else
        let '(part, e) := component s in
        norm_loop fuel e
          (if bytes_eqb part [46] then out else if bytes_eqb part [46; 46] then norm_up out else norm_add out part)
  end.
Definition ino_norm (path : cstr) : cstr :=
  let out := norm_loop (S (length path)) path [47] in
  if (1 <? zlen out) && (zget out (zlen out - 1) =? 47) then ztake (zlen out - 1) out else out.

(** The directory and the last component. *)
Definition ino_split (p : cstr) : cstr * cstr :=
  let n := zlen p in
  let i := after_slash (length p) p in
  if n <=? 1 then ([], []) else if i <=? 1 then ([47], zdrop i p) else (ztake (i - 1) p, zdrop i p).

(** ** The event queue *)

Definition le32 (x : Z) : list Z := [x mod 256; x / 256 mod 256; x / 65536 mod 256; x / 16777216 mod 256].
Definition get32 (l : list Z) (off : Z) : Z :=
  zget l off + 256 * zget l (off + 1) + 65536 * zget l (off + 2) + 16777216 * zget l (off + 3).
Definition ev_bytes (e : ino_ev) : list Z := le32 (u32 (ev_wd e)) ++ le32 (ev_mask e) ++ le32 (ev_cookie e) ++ le32 (ev_len e).
Definition ev_at (l : list Z) (off : Z) : ino_ev := mk_ev (s32 (get32 l off)) (get32 l (off + 4)) (get32 l (off + 8)) (get32 l (off + 12)).

Implicit Types (i : ino_inst).

Definition set_queue (head tail last : Z) (hl ov : bool) (bytes : list Z) (g : Z) i : ino_inst :=
  mk_inst (next_wd i) g head tail last hl ov (watches i) bytes.
Definition set_watch (k : Z) (w : ino_watch) i : ino_inst :=
  mk_inst (next_wd i) (gen i) (qhead i) (qtail i) (qlast i) (has_last i) (overflowed i) (zset (watches i) k w) (q i).
Definition watch_at i (k : Z) : ino_watch := zget (watches i) k.

Definition ino_used i : Z := qtail i -32 qhead i.

Definition ino_compact i : ino_inst :=
  if qhead i =? 0 then i
  else
    let n := ino_used i in
    set_queue 0 n (if has_last i then qlast i -32 qhead i else qlast i) (has_last i) (overflowed i)
      (splice (q i) 0 (ztake n (zdrop (qhead i) (q i)))) (gen i) i.

(** The size of the name field: the name, its NUL, up to a multiple of 16. *)
Definition name_len (name : option cstr) : Z :=
  let nl := zlen (default [] name) in if nl =? 0 then 0 else u32 (Z.ldiff (nl + 1 + 15) 15).

Definition same_as_last i (wd mask cookie len : Z) (name : option cstr) : bool :=
  has_last i && (qhead i <=? qlast i) &&
  (let l := ev_at (q i) (qlast i) in
   (ev_wd l =? wd) && (ev_mask l =? mask) && (ev_cookie l =? cookie) && (ev_len l =? len) &&
   ((len =? 0) || bytes_eqb (until_nul (zdrop (qlast i + EV_SIZE) (q i))) (default [] name))).

(** Store an event at the tail; [data] is its name field. *)
Definition ino_store i (e : ino_ev) (data : list Z) : ino_inst :=
  let off := qtail i in
  let bytes := splice (splice (q i) off (ev_bytes e)) (off + EV_SIZE) data in
  set_queue (qhead i) (off +32 (EV_SIZE + ev_len e)) off true (overflowed i) bytes (gen i +32 1) i.

(** The instance and the number of events queued. *)
Definition ino_push i (wd mask cookie : Z) (name : option cstr) : ino_inst * Z :=
  let nm := default [] name in
  let len := name_len name in
  if same_as_last i wd mask cookie len name then (i, 0)
  else
    let need := EV_SIZE +32 len in
    let i := if INO_QBYTES <? qtail i +32 need then ino_compact i else i in
    if INO_QBYTES <? (qtail i +32 need) + EV_SIZE then
      if overflowed i || (INO_QBYTES <? qtail i + EV_SIZE) then (i, 0)
      else
        let i := set_queue (qhead i) (qtail i) (qlast i) (has_last i) true (q i) (gen i) i in
        (ino_store i (mk_ev (-1) IN_Q_OVERFLOW 0 0) [], 1)
    else (ino_store i (mk_ev wd mask cookie len) (if len =? 0 then [] else nm ++ replicate (Z.to_nat (len - zlen nm)) 0), 1).

(** ** Delivery *)

Definition ino_drop_watch i (k : Z) : ino_inst * Z :=
  let w := watch_at i k in
  let '(i, n) := ino_push i (w_wd w) IN_IGNORED 0 None in
  (set_watch k (mk_watch 0 (w_mask w) (w_is_dir w) (w_path w)) i, n).

Definition ino_deliver i (k m cookie : Z) (name : option cstr) : ino_inst * Z :=
  let w := watch_at i k in
  if negb (has (Z.land (w_mask w) m) IN_ALL_EVENTS) then (i, 0)
  else
    let '(i, n) := ino_push i (w_wd w) m cookie name in
    if has (w_mask w) IN_ONESHOT then let '(i, n') := ino_drop_watch i k in (i, n + n') else (i, n).

(** The event that watches on the object itself see. *)
Definition self_mask (mask : Z) : option Z :=
  let ev := Z.land mask IN_ALL_EVENTS in
  if has ev IN_DELETE then Some IN_DELETE_SELF
  else if has ev IN_MOVED_FROM then Some IN_MOVE_SELF
  else if has ev (Z.lor IN_CREATE IN_MOVED_TO) then None
  else Some ev.
Definition self_watch (np : cstr) (sm k : Z) (x : ino_inst * Z) : ino_inst * Z :=
  let '(i, n) := x in
  let w := watch_at i k in
  if (w_wd w =? 0) || negb (bytes_eqb (w_path w) np) then (i, n)
  else
    let m := if w_is_dir w && negb (has sm (Z.lor IN_DELETE_SELF IN_MOVE_SELF)) then Z.lor sm IN_ISDIR else sm in
    let '(i, a) := ino_deliver i k m 0 None in
    if negb (w_wd (watch_at i k) =? 0) && has sm IN_DELETE_SELF
    then let '(i, b) := ino_drop_watch i k in (i, n + a + b)
    else (i, n + a).
Definition parent_watch (dir base : cstr) (mask cookie k : Z) (x : ino_inst * Z) : ino_inst * Z :=
  let '(i, n) := x in
  let w := watch_at i k in
  if negb (w_wd w =? 0) && w_is_dir w && bytes_eqb (w_path w) dir
  then let '(i, a) := ino_deliver i k mask cookie (Some base) in (i, n + a)
  else (i, n).
Definition all_watches (f : Z -> ino_inst * Z -> ino_inst * Z) i : ino_inst * Z := zfor (Z.to_nat INO_MAX_WATCH) 0 f (i, 0).

(** A watch of the renamed object, or below it, gets its new path. *)
Definition move_watch (o n : cstr) (k : Z) i : ino_inst :=
  let w := watch_at i k in
  let after := if zlen o <? zlen (w_path w) then zget (w_path w) (zlen o) else 0 in
  if w_wd w =? 0 then i
  else if negb (strncmp_eq (w_path w) o (length o)) || (negb (after =? 0) && negb (after =? 47)) then i
  else
    let rest := zdrop (zlen o) (w_path w) in
    if INO_PATH <=? zlen n + zlen rest then i
    else set_watch k (mk_watch (w_wd w) (w_mask w) (w_is_dir w) (n ++ rest)) i.

(** ** The instances *)

Section inotify.
Context {H : Type} `{!KHeap H}.

(** [ino_all] holds the addresses of the instances, [0] for a free slot;
    [insts] what is stored there.  [wakes] counts the calls of [kpoll_wake]. *)
Record inotify := mk_inotify {
  inotify_active : Z;
  ino_all : list Z;
  insts : gmap Z ino_inst;
  ino_cookie : Z;
  ino_pushed : Z;
  wakes : Z;
  ino_heap : H;
}.
Implicit Types (s : inotify) (h : Z).

(** Boot: the globals are zero. *)
Definition inotify_boot (hp : H) : inotify := mk_inotify 0 (replicate (Z.to_nat INO_MAX_INST) 0) ∅ 0 0 0 hp.

(** The instance behind a pointer. *)
Definition inst_at s h : ino_inst := default zero_inst (insts s !! h).
Definition set_inst h i s : inotify :=
  mk_inotify (inotify_active s) (ino_all s) (<[h := i]> (insts s)) (ino_cookie s) (ino_pushed s) (wakes s) (ino_heap s).
Definition add_pushed (n : Z) s : inotify :=
  mk_inotify (inotify_active s) (ino_all s) (insts s) (ino_cookie s) (ino_pushed s +32 n) (wakes s) (ino_heap s).
Definition kpoll_wake s : inotify :=
  mk_inotify (inotify_active s) (ino_all s) (insts s) (ino_cookie s) (ino_pushed s) (wakes s + 1) (ino_heap s).

(** A loop over the instances. *)
Definition each_inst (f : ino_inst -> ino_inst * Z) s : inotify :=
  zfor (Z.to_nat INO_MAX_INST) 0 (fun j s =>
    let h := zget (ino_all s) j in
    if h =? 0 then s else let '(i, n) := f (inst_at s h) in add_pushed n (set_inst h i s)) s.

Definition ino_self (np : cstr) (mask : Z) s : inotify :=
  match self_mask mask with
  | None => s
  | Some sm => each_inst (all_watches (self_watch np sm)) s
  end.
Definition ino_parent (dir base : cstr) (mask cookie : Z) s : inotify :=
  if bool_decide (dir = []) then s else each_inst (all_watches (parent_watch dir base mask cookie)) s.

Definition ino_event_locked (np : cstr) (mask cookie : Z) s : inotify :=
  let '(dir, base) := ino_split np in
  if has mask IN_DELETE then ino_parent dir base mask cookie (ino_self np mask s)
  else ino_self np mask (ino_parent dir base mask cookie s).

Definition inotify_vfs_event (path : option cstr) (mask : Z) s : inotify :=
  match path with
  | None => s
  | Some path =>
      if inotify_active s =? 0 then s
      else
        let s' := ino_event_locked (ino_norm path) mask 0 s in
        if ino_pushed s' =? ino_pushed s then s' else kpoll_wake s'
  end.

Definition next_cookie (c : Z) : Z := let ck := c +32 1 in if ck =? 0 then ck +32 1 else ck.
Definition set_cookie (c : Z) s : inotify :=
  mk_inotify (inotify_active s) (ino_all s) (insts s) c (ino_pushed s) (wakes s) (ino_heap s).

Definition inotify_vfs_rename (oldpath newpath : option cstr) (is_dir : bool) s : inotify :=
  match oldpath, newpath with
  | Some oldpath, Some newpath =>
      if inotify_active s =? 0 then s
      else
        let o := ino_norm oldpath in
        let n := ino_norm newpath in
        let d := if is_dir then IN_ISDIR else 0 in
        let ck := next_cookie (ino_cookie s) in
        let s := set_cookie ck s in
        let '(od, ob) := ino_split o in
        let '(nd, nb) := ino_split n in
        let s := ino_parent od ob (Z.lor IN_MOVED_FROM d) ck s in
        let s := ino_parent nd nb (Z.lor IN_MOVED_TO d) ck s in
        let s := ino_self o IN_MOVED_FROM s in
        kpoll_wake (each_inst (fun i => (zfor (Z.to_nat INO_MAX_WATCH) 0 (move_watch o n) i, 0)) s)
  | _, _ => s
  end.

(** [sizeof(ino_inst_t)]. *)
Definition INST_SIZE : Z := 24 + INO_MAX_WATCH * 268 + INO_QBYTES.

Definition set_all (a : Z) (l : list Z) (m : gmap Z ino_inst) (hp : H) s : inotify :=
  mk_inotify a l m (ino_cookie s) (ino_pushed s) (wakes s) hp.

Definition inotify_create s : Z * inotify :=
  let '(p, hp) := hp_kalloc INST_SIZE (ino_heap s) in
  if p =? 0 then (0, set_all (inotify_active s) (ino_all s) (insts s) hp s)
  else
    let fresh := mk_inst 1 0 0 0 0 false false (watches zero_inst) (q zero_inst) in
    match zfind (Z.to_nat INO_MAX_INST) 0 (fun j => zget (ino_all s) j =? 0) with
    | None => (0, set_all (inotify_active s) (ino_all s) (insts s) (hp_kfree p hp) s)
    | Some j => (p, set_all (inotify_active s + 1) (zset (ino_all s) j p) (<[p := fresh]> (insts s)) hp s)
    end.

Definition release_slot h (j : Z) (x : Z * list Z) : Z * list Z :=
  let '(a, l) := x in if zget l j =? h then (a - 1, zset l j 0) else (a, l).
Definition inotify_release h s : inotify :=
  if h =? 0 then s
  else
    let '(a, l) := zfor (Z.to_nat INO_MAX_INST) 0 (release_slot h) (inotify_active s, ino_all s) in
    set_all a l (delete h (insts s)) (hp_kfree h (ino_heap s)) s.

Definition watch_keep (mask : Z) : Z := Z.land mask (Z.lor (Z.lor IN_ALL_EVENTS IN_ONESHOT) IN_EXCL_UNLINK).
Definition watched_slot i (np : cstr) : option Z :=
  zfind (Z.to_nat INO_MAX_WATCH) 0 (fun k => negb (w_wd (watch_at i k) =? 0) && bytes_eqb (w_path (watch_at i k)) np).
Definition free_watch i : option Z := zfind (Z.to_nat INO_MAX_WATCH) 0 (fun k => w_wd (watch_at i k) =? 0).
Definition take_wd i : ino_inst :=
  mk_inst (next_wd i + 1) (gen i) (qhead i) (qtail i) (qlast i) (has_last i) (overflowed i) (watches i) (q i).

Definition inotify_add h (abspath : cstr) (mask : Z) (is_dir : bool) s : Z * inotify :=
  if h =? 0 then (- EINVAL, s)
  else if negb (has mask IN_ALL_EVENTS) then (- EINVAL, s)
  else if has mask IN_MASK_ADD && has mask IN_MASK_CREATE then (- EINVAL, s)
  else if has mask IN_ONLYDIR && negb is_dir then (- ENOTDIR, s)
  else
    let np := ino_norm abspath in
    let keep := watch_keep mask in
    let i := inst_at s h in
    match watched_slot i np with
    | Some k =>
        let w := watch_at i k in
        if has mask IN_MASK_CREATE then (- EEXIST, s)
        else
          let m := if has mask IN_MASK_ADD then Z.lor (w_mask w) keep else keep in
          (w_wd w, set_inst h (set_watch k (mk_watch (w_wd w) m (w_is_dir w) (w_path w)) i) s)
    | None =>
        match free_watch i with
        | None => (- ENOSPC, s)
        | Some k => (next_wd i, set_inst h (set_watch k (mk_watch (next_wd i) keep is_dir np) (take_wd i)) s)
        end
    end.

Definition inotify_rm h (wd : Z) s : Z * inotify :=
  if (h =? 0) || (wd <=? 0) then (- EINVAL, s)
  else
    let i := inst_at s h in
    match zfind (Z.to_nat INO_MAX_WATCH) 0 (fun k => w_wd (watch_at i k) =? wd) with
    | None => (- EINVAL, s)
    | Some k => let '(i, n) := ino_drop_watch i k in (0, kpoll_wake (add_pushed n (set_inst h i s)))
    end.

(** The loop of [inotify_take]; [len] bytes are left in the caller's buffer. *)
Fixpoint take_loop (fuel : nat) (len : Z) (got : list Z) i : list Z * ino_inst :=
  match fuel with
  | O => (got, i)
  | S fuel =>
      if negb (qhead i <? qtail i) then (got, i)
      else
        let e := ev_at (q i) (qhead i) in
        let sz := EV_SIZE +32 ev_len e in
        if len <? zlen got + sz then (got, i)
        else
          let head := qhead i +32 sz in
          take_loop fuel len (got ++ ztake sz (zdrop (qhead i) (q i)))
            (set_queue head (qtail i) (qlast i) (has_last i && negb (qlast i <? head))
               (overflowed i && negb (ev_mask e =? IN_Q_OVERFLOW)) (q i) (gen i) i)
  end.
(** Every event takes at least [EV_SIZE] bytes of the queue. *)
Definition take_fuel : nat := Z.to_nat (INO_QBYTES / EV_SIZE + 1).

Definition inotify_take h (len : Z) s : Z * list Z * inotify :=
  if h =? 0 then (- EINVAL, [], s)
  else
    let '(got, i) := take_loop take_fuel len [] (inst_at s h) in
    let i := if qhead i =? qtail i then set_queue 0 0 (qlast i) false (overflowed i) (q i) (gen i) i else i in
    let s := set_inst h i s in
    if bool_decide (got = []) && (qhead i <? qtail i) then (- EINVAL, [], s) else (zlen got, got, s).

Definition inotify_ready h s : bool := negb (h =? 0) && negb (qtail (inst_at s h) =? qhead (inst_at s h)).
Definition inotify_gen h s : Z := if h =? 0 then 0 else gen (inst_at s h).
Definition inotify_pending_bytes h s : Z := if h =? 0 then 0 else ino_used (inst_at s h).
End inotify.
Arguments inotify : clear implicits.
