(* ===== verification/InotifyQueue.v ===== *)
(** * The inotify event queue is a queue of events

    The byte queue of src/inotify.c holds the encodings of a list of events;
    [ino_push] appends to it and [inotify_take] removes from its front. *)
From stdpp Require Import gmap.
From S2P Require Import Prelude Paths Heap Vfs Inotify.
#[local] Open Scope Z_scope.

(** ** Encoding *)

Definition u32_range (x : Z) : Prop := 0 <= x < 2 ^ 32.
Definition ev_ok (e : ino_ev) : Prop := - 2 ^ 31 <= ev_wd e < 2 ^ 31 /\ u32_range (ev_mask e) /\ u32_range (ev_cookie e) /\ u32_range (ev_len e).

Lemma get32_le32 x r : u32_range x -> get32 (le32 x ++ r) 0 = x.
Proof.
  intros Hx. unfold get32. change (zget (le32 x ++ r) 0) with (x mod 256). change (zget (le32 x ++ r) (0 + 1)) with (x / 256 mod 256).
  change (zget (le32 x ++ r) (0 + 2)) with (x / 65536 mod 256). change (zget (le32 x ++ r) (0 + 3)) with (x / 16777216 mod 256).
  unfold u32_range in Hx.
  pose proof (Z.div_mod x 256 ltac:(lia)). pose proof (Z.div_mod (x / 256) 256 ltac:(lia)). pose proof (Z.div_mod (x / 65536) 256 ltac:(lia)).
  assert (x / 256 / 256 = x / 65536) by (rewrite Z.div_div by lia; done). assert (x / 65536 / 256 = x / 16777216) by (rewrite Z.div_div by lia; done).
  assert (x / 16777216 < 256) by (apply Z.div_lt_upper_bound; lia). assert (0 <= x / 16777216) by (apply Z.div_pos; lia).
  rewrite (Z.mod_small (x / 16777216)) by lia. lia.
Qed.
Lemma get32_drop l off k : 0 <= off -> 0 <= k -> get32 l (off + k) = get32 (zdrop off l) k.
Proof. intros Ho Hk. unfold get32. rewrite !zget_zdrop by lia. by rewrite !Z.add_assoc. Qed.
Lemma get32_app a r k : get32 (a ++ r) (zlen a) = get32 r 0 /\ (k = zlen a -> get32 (a ++ r) k = get32 r 0).
Proof.
  assert (get32 (a ++ r) (zlen a) = get32 r 0) as E by (pose proof (zlen_nonneg a); rewrite <- (Z.add_0_r (zlen a)), get32_drop by lia; by rewrite zdrop_app_len).
  split; [done|]. by intros ->.
Qed.

Lemma s32_u32 x : - 2 ^ 31 <= x < 2 ^ 31 -> s32 (u32 x) = x.
Proof.
  intros Hx. unfold s32, u32. rewrite Zplus_mod_idemp_l. rewrite Z.mod_small by lia. lia.
Qed.
Lemma zlen_ev_bytes e : zlen (ev_bytes e) = EV_SIZE.
Proof. done. Qed.

(** Decoding the header at the front of some bytes. *)
Lemma ev_at_bytes l off e r : 0 <= off -> ev_ok e -> zdrop off l = ev_bytes e ++ r -> ev_at l off = e.
Proof.
  intros Ho (Hw & Hm & Hc & Hl) E. unfold ev_at. rewrite <- (Z.add_0_r off) at 1. rewrite !get32_drop by lia. rewrite E.
  assert (u32_range (u32 (ev_wd e))) as Hw' by (apply Z.mod_pos_bound; lia).
  unfold ev_bytes. rewrite <- !app_assoc. rewrite get32_le32 by done. rewrite s32_u32 by done.
  rewrite (proj2 (get32_app (le32 (u32 (ev_wd e))) _ 4) eq_refl), get32_le32 by done.
  rewrite (app_assoc (le32 (u32 (ev_wd e))) (le32 (ev_mask e))).
  rewrite (proj2 (get32_app (le32 (u32 (ev_wd e)) ++ le32 (ev_mask e)) _ 8) eq_refl), get32_le32 by done.
  rewrite (app_assoc (le32 (u32 (ev_wd e)) ++ le32 (ev_mask e)) (le32 (ev_cookie e))).
  rewrite (proj2 (get32_app ((le32 (u32 (ev_wd e)) ++ le32 (ev_mask e)) ++ le32 (ev_cookie e)) _ 12) eq_refl), get32_le32 by done.
  by destruct e.
Qed.

(** ** The abstract queue *)

Record event := mk_event { e_wd : Z; e_mask : Z; e_cookie : Z; e_name : cstr }.
#[global] Instance event_eq_dec : EqDecision event.
Proof. solve_decision. Qed.
Definition event_ok (x : event) : Prop :=
  - 2 ^ 31 <= e_wd x < 2 ^ 31 /\ u32_range (e_mask x) /\ u32_range (e_cookie x) /\ (0 ∉ e_name x) /\ zlen (e_name x) < 2 ^ 31.

(** Its header and name field. *)
Definition nlen (nm : cstr) : Z := name_len (Some nm).
Definition header (x : event) : ino_ev := mk_ev (e_wd x) (e_mask x) (e_cookie x) (nlen (e_name x)).
Definition field (nm : cstr) : list Z := if nlen nm =? 0 then [] else nm ++ replicate (Z.to_nat (nlen nm - zlen nm)) 0.
Definition enc (x : event) : list Z := ev_bytes (header x) ++ field (e_name x).
Definition esize (x : event) : Z := EV_SIZE + nlen (e_name x).
Definition encs (evs : list event) : list Z := concat (enc <$> evs).
Definition sizes (evs : list event) : Z := zlen (encs evs).
Definition overflow : event := mk_event (-1) IN_Q_OVERFLOW 0 [].
Definition is_overflow (x : event) : Prop := e_mask x = IN_Q_OVERFLOW.
#[global] Instance is_overflow_dec x : Decision (is_overflow x) := decide (e_mask x = IN_Q_OVERFLOW).

Lemma nlen_bounds nm : zlen nm < 2 ^ 31 -> (nm = [] /\ nlen nm = 0) \/ (nm <> [] /\ zlen nm + 1 <= nlen nm <= zlen nm + 16).
Proof.
  intros Hl. unfold nlen, name_len. cbn [default from_option id]. destruct (Z.eqb_spec (zlen nm) 0) as [E|Hne].
  - left. split; [by apply zlen_nil_inv | done].
  - right. split; [by intros ->|]. pose proof (zlen_nonneg nm).
    assert (Z.ldiff (zlen nm + 1 + 15) 15 = (zlen nm + 1 + 15) / 16 * 16) as ->.
    { change 15 with (Z.ones 4) at 2. by rewrite Z.ldiff_ones_r, Z.shiftl_mul_pow2, Z.shiftr_div_pow2 by lia. }
    pose proof (Z.div_mod (zlen nm + 1 + 15) 16 ltac:(lia)). pose proof (Z.mod_pos_bound (zlen nm + 1 + 15) 16 ltac:(lia)). rewrite u32_small by lia. lia.
Qed.
Lemma zlen_field nm : zlen nm < 2 ^ 31 -> zlen (field nm) = nlen nm.
Proof.
  intros Hl. unfold field. destruct (nlen_bounds nm Hl) as [[-> ->]|[Hne Hb]]; [done|]. pose proof (zlen_nonneg nm).
  rewrite (proj2 (Z.eqb_neq _ _)) by lia. rewrite zlen_app. unfold zlen at 2. rewrite length_replicate. lia.
Qed.
Lemma until_nul_app nm k r : 0 ∉ nm -> (0 < k)%nat -> until_nul ((nm ++ replicate k 0) ++ r) = nm.
Proof.
  intros H0 Hk. induction nm as [|c nm IH]; cbn; [by destruct k; [lia|]|]. apply not_elem_of_cons in H0 as [Hc H0].
  rewrite (proj2 (Z.eqb_neq c 0)) by done. by rewrite IH.
Qed.
Lemma until_nul_field nm r : 0 ∉ nm -> zlen nm < 2 ^ 31 -> nlen nm <> 0 -> until_nul (field nm ++ r) = nm.
Proof.
  intros H0 Hl Hn. unfold field. rewrite (proj2 (Z.eqb_neq _ _)) by done. destruct (nlen_bounds nm Hl) as [[_ ?]|[_ ?]]; [done|].
  apply until_nul_app; [done|]. lia.
Qed.

Lemma header_ok x : event_ok x -> ev_ok (header x).
Proof.
  intros (Hw & Hm & Hc & _ & Hl). split; [exact Hw|]. split; [exact Hm|]. split; [exact Hc|]. unfold u32_range. cbn [header ev_len].
  pose proof (zlen_nonneg (e_name x)). destruct (nlen_bounds _ Hl) as [[_ ->]|[_ ?]]; lia.
Qed.
Lemma zlen_enc x : event_ok x -> zlen (enc x) = esize x.
Proof. intros (_ & _ & _ & _ & Hl). unfold enc, esize. by rewrite zlen_app, zlen_ev_bytes, zlen_field. Qed.
Lemma esize_bounds x : event_ok x -> EV_SIZE <= esize x < 2 ^ 31 + 64.
Proof.
  intros (_ & _ & _ & _ & Hl). unfold esize. destruct (nlen_bounds _ Hl) as [[_ ->]|[_ ?]]; pose proof (zlen_nonneg (e_name x)); unfold EV_SIZE; lia.
Qed.
Lemma encs_app a b : encs (a ++ b) = encs a ++ encs b.
Proof. unfold encs. by rewrite fmap_app, concat_app. Qed.
Lemma encs_one x : encs [x] = enc x.
Proof. unfold encs. cbn. by rewrite app_nil_r. Qed.
Lemma sizes_app a b : sizes (a ++ b) = sizes a + sizes b.
Proof. unfold sizes. by rewrite encs_app, zlen_app. Qed.
Lemma sizes_one x : event_ok x -> sizes [x] = esize x.
Proof. intros Hx. unfold sizes. rewrite encs_one. by apply zlen_enc. Qed.
Lemma sizes_nonneg evs : 0 <= sizes evs.
Proof. apply zlen_nonneg. Qed.

(** The instance's queue holds [evs]. *)
Record queue_core (i : ino_inst) (evs : list event) : Prop := {
  qk_bytes : exists pre post, q i = pre ++ encs evs ++ post /\ zlen pre = qhead i /\ qtail i = qhead i + sizes evs;
  qk_len : zlen (q i) = INO_QBYTES;
  qk_evs : Forall event_ok evs;
  qk_last : has_last i = true -> exists evs' x, evs = evs' ++ [x] /\ qlast i = qhead i + sizes evs';
  qk_over : length (filter is_overflow evs) = if overflowed i then 1%nat else 0%nat;
  qk_has : evs <> [] -> has_last i = true;
}.
(** Unless an overflow marker comes last, there is room for one. *)
Record queue_ok (i : ino_inst) (evs : list event) : Prop := {
  qk_core : queue_core i evs;
  qk_room : qtail i + EV_SIZE <= INO_QBYTES \/ exists x, last evs = Some x /\ is_overflow x;
}.

Lemma queue_bounds i evs : queue_core i evs -> 0 <= qhead i /\ qtail i = qhead i + sizes evs /\ qtail i <= INO_QBYTES.
Proof.
  intros [(pre & post & E & Hp & Ht) Hl _ _ _]. rewrite E, !zlen_app in Hl. fold (sizes evs) in Hl.
  pose proof (zlen_nonneg pre). pose proof (zlen_nonneg post). lia.
Qed.

Lemma ino_used_sizes i evs : queue_core i evs -> ino_used i = sizes evs.
Proof.
  intros Hq. destruct (queue_bounds i evs Hq) as (H1 & H2 & H3). pose proof (sizes_nonneg evs). unfold ino_used.
  rewrite u32_small by (unfold INO_QBYTES in *; lia). lia.
Qed.

(** ** Compaction *)

Lemma ino_compact_ok i evs : queue_ok i evs ->
  queue_ok (ino_compact i) evs /\ qhead (ino_compact i) = 0 /\ qtail (ino_compact i) = sizes evs /\
  has_last (ino_compact i) = has_last i /\ overflowed (ino_compact i) = overflowed i /\ watches (ino_compact i) = watches i /\
  gen (ino_compact i) = gen i /\ next_wd (ino_compact i) = next_wd i.
Proof.
  intros Hq. destruct (queue_bounds i evs (qk_core _ _ Hq)) as (H1 & H2 & H3). unfold ino_compact. destruct (Z.eqb_spec (qhead i) 0) as [E0|Hh].
  { split_and!; try done. lia. }
  rewrite (ino_used_sizes i evs (qk_core _ _ Hq)). destruct Hq as [[(pre & post & E & Hp & Ht) Hl Hev Hla Hov Hhs] Hro].
  assert (ztake (sizes evs) (zdrop (qhead i) (q i)) = encs evs) as ->.
  { rewrite E, <- Hp, zdrop_app_len. unfold sizes. apply ztake_app_len. }
  split; [|done]. split; [split|]; cbn.
  - exists [], (zdrop (sizes evs) (q i)). split_and!; [exact (splice_at [] (q i) (encs evs)) | done | done].
  - rewrite zlen_splice; [done | lia|]. fold (sizes evs). pose proof (sizes_nonneg evs). lia.
  - done.
  - intros Hhl. rewrite Hhl. destruct (Hla Hhl) as (evs' & x & -> & ->). exists evs', x. split; [done|].
    pose proof (sizes_nonneg evs'). rewrite sizes_app in *. pose proof (sizes_nonneg [x]). rewrite u32_small by (unfold INO_QBYTES in *; lia). lia.
  - done.
  - done.
  - destruct Hro as [Hro|Hro]; [left; lia | by right].
Qed.

(** ** Storing an event *)

Definition with_over (ov : bool) (i : ino_inst) : ino_inst :=
  set_queue (qhead i) (qtail i) (qlast i) (has_last i) ov (q i) (gen i) i.
Lemma with_over_id i : with_over (overflowed i) i = i.
Proof. by destruct i. Qed.

Lemma ino_store_ok i evs x (ov : bool) : queue_ok i evs -> event_ok x -> qtail i + esize x <= INO_QBYTES ->
  length (filter is_overflow (evs ++ [x])) = (if ov then 1%nat else 0%nat) ->
  qtail i + esize x + EV_SIZE <= INO_QBYTES \/ is_overflow x ->
  queue_ok (ino_store (with_over ov i) (header x) (field (e_name x))) (evs ++ [x]).
Proof.
  intros Hq Hx Hfit Hov Hro. destruct (queue_bounds i evs (qk_core _ _ Hq)) as (H1 & H2 & H3). pose proof (esize_bounds x Hx) as Hs. pose proof Hx as (_ & _ & _ & _ & Hnl).
  pose proof (sizes_nonneg evs).
  destruct Hq as [[(pre & post & E & Hp & Ht) Hl Hev Hla _ _] _]. unfold ino_store. cbn [with_over set_queue q qtail qhead gen overflowed].
  assert (q i = (pre ++ encs evs) ++ post) as E' by (by rewrite <- app_assoc). assert (zlen (pre ++ encs evs) = qtail i) as Hpl by (rewrite zlen_app, Hp; fold (sizes evs); lia).
  assert (zlen post = INO_QBYTES - qtail i) as Hpo by (rewrite <- Hl, E', zlen_app; lia).
  assert (splice (splice (q i) (qtail i) (ev_bytes (header x))) (qtail i + EV_SIZE) (field (e_name x)) =
    pre ++ encs (evs ++ [x]) ++ zdrop (nlen (e_name x)) (zdrop EV_SIZE post)) as ->.
  { rewrite E', <- Hpl, splice_at. rewrite (app_assoc (pre ++ encs evs)). rewrite <- (zlen_ev_bytes (header x)), <- zlen_app, splice_at.
    rewrite zlen_field, encs_app, encs_one by done. unfold enc. by rewrite <- !app_assoc. }
  split; [split|]; cbn.
  - eexists _, _. split_and!; [done | done |]. rewrite sizes_app, sizes_one by done. unfold esize in *.
    rewrite u32_small by (unfold INO_QBYTES, EV_SIZE in *; lia). lia.
  - rewrite !zlen_app. fold (sizes (evs ++ [x])). rewrite sizes_app, sizes_one by done. unfold esize in *.
    rewrite !zlen_zdrop by (unfold EV_SIZE in *; lia). unfold EV_SIZE in *. lia.
  - apply Forall_app. split; [done|]. by apply Forall_singleton.
  - intros _. exists evs, x. split; [done|]. lia.
  - done.
  - done.
  - rewrite last_snoc. destruct Hro as [Hro|Hro]; [left | right; by exists x]. unfold esize in *. rewrite u32_small by (unfold INO_QBYTES, EV_SIZE in *; lia). lia.
Qed.

(** ** Merging *)

Lemma same_as_last_spec i evs x : queue_ok i evs -> event_ok x ->
  same_as_last i (e_wd x) (e_mask x) (e_cookie x) (nlen (e_name x)) (Some (e_name x)) = bool_decide (last evs = Some x).
Proof.
  intros Hq Hx. destruct (queue_bounds i evs (qk_core _ _ Hq)) as (H1 & H2 & H3). pose proof Hq as [[(pre & post & E & Hp & Ht) Hl Hev Hla _ Hhs] _].
  unfold same_as_last. destruct (has_last i); cbn [andb]; [|destruct evs as [|y evs]; [done|]; by discriminate (Hhs ltac:(done))]. destruct (Hla eq_refl) as (evs' & y & -> & Hlast).
  apply Forall_app in Hev as [_ Hy]. apply Forall_cons_1 in Hy as [Hy _]. pose proof (sizes_nonneg evs').
  rewrite (proj2 (Z.leb_le _ _)) by lia. cbn [andb]. rewrite last_snoc.
  assert (zdrop (qlast i) (q i) = ev_bytes (header y) ++ field (e_name y) ++ post) as Ed.
  { rewrite E, Hlast, <- Hp, encs_app, encs_one. unfold sizes. rewrite <- zlen_app, !app_assoc. rewrite <- (app_assoc (pre ++ encs evs')), zdrop_app_len.
    unfold enc. by rewrite <- !app_assoc. }
  rewrite (ev_at_bytes (q i) (qlast i) (header y) _ ltac:(lia) (header_ok y Hy) Ed). cbn [header ev_wd ev_mask ev_cookie ev_len default from_option id].
  assert (zdrop (qlast i + EV_SIZE) (q i) = field (e_name y) ++ post) as ->.
  { unfold zdrop. rewrite Z2Nat.inj_add by (unfold EV_SIZE; lia). rewrite <- drop_drop. fold (zdrop (qlast i) (q i)). rewrite Ed. exact (zdrop_app_len (ev_bytes (header y)) _). }
  destruct Hx as (_ & _ & _ & X0 & Xl), Hy as (_ & _ & _ & Y0 & Yl). apply eq_true_iff_eq. rewrite bool_decide_eq_true, !andb_true_iff, !Z.eqb_eq, orb_true_iff, Z.eqb_eq.
  split.
  - intros ((((E1 & E2) & E3) & E4) & E5). f_equal. destruct x as [xw xm xc xn], y as [yw ym yc yn]. cbn in *. f_equal; try done.
    destruct E5 as [E5|E5].
    + destruct (nlen_bounds _ Xl) as [[-> _]|[_ ?]]; [|pose proof (zlen_nonneg xn); lia]. destruct (nlen_bounds _ Yl) as [[-> _]|[_ ?]]; [done | pose proof (zlen_nonneg yn); lia].
    + apply bool_decide_eq_true in E5. destruct (decide (nlen yn = 0)) as [E0|Hn]; [|by rewrite until_nul_field in E5].
      rewrite E0 in E4. destruct (nlen_bounds _ Xl) as [[-> _]|[_ ?]]; [|pose proof (zlen_nonneg xn); lia].
      destruct (nlen_bounds _ Yl) as [[-> _]|[_ ?]]; [done | pose proof (zlen_nonneg yn); lia].
  - intros [= ->]. split_and!; try done. destruct (decide (nlen (e_name x) = 0)) as [E0|Hn]; [by left | right].
    apply bool_decide_eq_true. by apply until_nul_field.
Qed.

(** ** Pushing *)

(** The room that [ino_push] finds for an event: it compacts only when the
    event itself would not fit, and then asks for room for one more header. *)
Definition room (i : ino_inst) (evs : list event) (x : event) : Prop :=
  (if INO_QBYTES <? qtail i + esize x then sizes evs else qtail i) + esize x + EV_SIZE <= INO_QBYTES.
#[global] Instance room_dec i evs x : Decision (room i evs x) := decide (_ <= INO_QBYTES).

Lemma overflow_ok : event_ok overflow.
Proof. repeat split; try (by vm_compute). apply not_elem_of_nil. Qed.
Lemma filter_snoc_no evs x : ~ is_overflow x -> filter is_overflow (evs ++ [x]) = filter is_overflow evs.
Proof. intros Hx. rewrite filter_app, (filter_cons_False _ x) by done. by rewrite app_nil_r. Qed.

Lemma no_over_room i evs : queue_ok i evs -> overflowed i = false -> qtail i + EV_SIZE <= INO_QBYTES.
Proof.
  intros [[_ _ _ _ Ho] [Hr|(x & Hl & Hx)]] Hov; [done|]. exfalso. rewrite Hov in Ho. apply nil_length_inv in Ho.
  assert (x ∈ filter is_overflow evs) as Hin by (apply list_elem_of_filter; split; [done | by apply last_Some_elem_of]). rewrite Ho in Hin. set_solver.
Qed.

(** The outcomes of a push. *)
Definition push_post (i : ino_inst) (evs : list event) (x : event) (i' : ino_inst) (n : Z) : Prop :=
  watches i' = watches i /\ exists evs', queue_ok i' evs' /\
  (  (n = 0 /\ evs' = evs /\ last evs = Some x)
  \/ (n = 1 /\ evs' = evs ++ [x] /\ last evs <> Some x /\ room i evs x)
  \/ (n = 1 /\ evs' = evs ++ [overflow] /\ last evs <> Some x /\ ~ room i evs x /\ overflowed i = false)
  \/ (n = 0 /\ evs' = evs /\ last evs <> Some x /\ ~ room i evs x /\ overflowed i = true)).

Lemma ino_push_post i evs x name i' n : queue_ok i evs -> event_ok x -> ~ is_overflow x -> default [] name = e_name x ->
  ino_push i (e_wd x) (e_mask x) (e_cookie x) name = (i', n) -> push_post i evs x i' n.
Proof.
  intros Hq Hx Hno Hnm. unfold ino_push. rewrite Hnm.
  assert (name_len name = nlen (e_name x)) as -> by (unfold nlen, name_len; by rewrite Hnm).
  assert (forall l, same_as_last i (e_wd x) (e_mask x) (e_cookie x) l name = same_as_last i (e_wd x) (e_mask x) (e_cookie x) l (Some (e_name x))) as ->
    by (intros l; unfold same_as_last; by rewrite Hnm).
  rewrite (same_as_last_spec i evs) by done. destruct (decide (last evs = Some x)) as [Es|Hnl]; [rewrite bool_decide_true by done | rewrite bool_decide_false by done].
  { intros [= <- <-]. split; [done|]. exists evs. split; [done|]. by left. }
  destruct (queue_bounds i evs (qk_core _ _ Hq)) as (H1 & H2 & H3). pose proof (esize_bounds x Hx) as Hs. pose proof (sizes_nonneg evs).
  rewrite (u32_small (EV_SIZE + nlen (e_name x))) by (unfold esize, EV_SIZE in *; lia). fold (esize x).
  rewrite (u32_small (qtail i + esize x)) by (unfold INO_QBYTES, EV_SIZE in *; lia).
  set (j := if INO_QBYTES <? qtail i + esize x then ino_compact i else i).
  assert (queue_ok j evs /\ qtail j = (if INO_QBYTES <? qtail i + esize x then sizes evs else qtail i) /\ overflowed j = overflowed i /\ watches j = watches i) as (Jq & Jt & Jo & Jw).
  { unfold j. destruct (_ <? _); [destruct (ino_compact_ok i evs Hq) as (? & ? & ? & ? & ? & ? & _)|]; done. }
  destruct (queue_bounds j evs (qk_core _ _ Jq)) as (J1 & J2 & J3).
  rewrite (u32_small (qtail j + esize x)) by (unfold INO_QBYTES, EV_SIZE in *; lia).
  assert (room i evs x <-> qtail j + esize x + EV_SIZE <= INO_QBYTES) as Hroom by (unfold room; by rewrite <- Jt).
  destruct (Z.ltb_spec INO_QBYTES (qtail j + esize x + EV_SIZE)) as [Hfull|Hfit].
  - assert (~ room i evs x) as Hnr by (rewrite Hroom; lia). destruct (overflowed j) eqn:Eo; cbn [orb].
    { intros [= <- <-]. split; [done|]. exists evs. split; [done|]. do 3 right. by rewrite <- Jo. }
    assert (qtail j + EV_SIZE <= INO_QBYTES) as Hre by (by eapply no_over_room).
    rewrite (proj2 (Z.ltb_ge _ _)) by lia. intros [= <- <-]. split; [done|]. exists (evs ++ [overflow]). split; [|right; right; left; by rewrite <- Jo].
    apply (ino_store_ok j evs overflow true); [done | apply overflow_ok | done | | by right].
    rewrite filter_app, length_app, (qk_over _ _ (qk_core _ _ Jq)), Eo. done.
  - intros [= <- <-]. split; [done|]. exists (evs ++ [x]). split; [|right; left; by rewrite Hroom].
    rewrite <- (with_over_id j). apply (ino_store_ok j evs x); [done | done | unfold EV_SIZE in *; lia | | by left].
    rewrite filter_snoc_no by done. apply Jq.
Qed.


(** The queue reports an overflow, and drops the event, although there is
    room: the buffer is compacted only if the event itself does not fit behind
    the tail, but then room for a second header is asked for.  With read
    events at the front, and a tail that leaves exactly the room the event
    needs, the event is replaced by [IN_Q_OVERFLOW] even if the buffer is
    almost empty. *)
Theorem ino_push_spurious_overflow i evs x i' n : queue_ok i evs -> event_ok x -> ~ is_overflow x -> last evs <> Some x -> overflowed i = false ->
  sizes evs + esize x + EV_SIZE <= INO_QBYTES ->
  qtail i + esize x <= INO_QBYTES < qtail i + esize x + EV_SIZE ->
  ino_push i (e_wd x) (e_mask x) (e_cookie x) (Some (e_name x)) = (i', n) ->
  queue_ok i' (evs ++ [overflow]).
Proof.
  intros Hq Hx Hno Hla Hov Hfits Htail E. destruct (ino_push_post i evs x (Some (e_name x)) i' n Hq Hx Hno eq_refl E) as (_ & evs' & Hq' & Hcase).
  assert (~ room i evs x) as Hnr by (unfold room; rewrite (proj2 (Z.ltb_ge _ _)) by lia; lia).
  destruct Hcase as [(_ & _ & H)|[(_ & _ & _ & H)|[(_ & -> & _)|(_ & _ & _ & _ & H)]]]; [done | done | done | congruence].
Qed.

(** ** Reading *)

(** The events that fit in [len] bytes, and the rest. *)
Fixpoint fitting (len : Z) (evs : list event) : list event * list event :=
  match evs with
  | [] => ([], [])
  | x :: evs => if len <? esize x then ([], x :: evs) else let '(a, b) := fitting (len - esize x) evs in (x :: a, b)
  end.
Lemma fitting_app len evs : (fitting len evs).1 ++ (fitting len evs).2 = evs.
Proof.
  revert len. induction evs as [|x evs IH]; intros len; cbn; [done|]. destruct (len <? esize x); [done|].
  specialize (IH (len - esize x)). destruct (fitting _ evs) as [a b]. cbn in *. by rewrite IH.
Qed.

(** The state after the front event is copied out. *)
Definition popped (i : ino_inst) (x : event) : ino_inst :=
  let head := qhead i + esize x in
  set_queue head (qtail i) (qlast i) (has_last i && negb (qlast i <? head)) (overflowed i && negb (e_mask x =? IN_Q_OVERFLOW)) (q i) (gen i) i.

Lemma popped_ok i x evs : queue_core i (x :: evs) -> queue_core (popped i x) evs.
Proof.
  intros Hq. destruct (queue_bounds _ _ Hq) as (H1 & H2 & H3). destruct Hq as [(pre & post & E & Hp & Ht) Hl Hev Hla Hov Hhs].
  apply Forall_cons_1 in Hev as [Hx Hev]. pose proof (zlen_enc x Hx) as Hlx. pose proof (esize_bounds x Hx) as Hs. pose proof (sizes_nonneg evs).
  assert (sizes (x :: evs) = esize x + sizes evs) as Hsz by (change (x :: evs) with ([x] ++ evs); by rewrite sizes_app, sizes_one).
  split; cbn.
  - exists (pre ++ enc x), post. split_and!; [rewrite E; change (encs (x :: evs)) with (enc x ++ encs evs); by rewrite <- !app_assoc | rewrite zlen_app; lia | lia].
  - done.
  - done.
  - intros [Hhl Hge%negb_true_iff%Z.ltb_ge]%andb_true_iff. destruct (Hla Hhl) as (evs' & y & Ee & Hlast). destruct evs' as [|z evs'].
    + exfalso. cbn in Ee. change (sizes []) with 0 in Hlast. unfold EV_SIZE in *. lia.
    + injection Ee as <- ->. exists evs', y. split; [done|]. rewrite Hlast. change (x :: evs') with ([x] ++ evs'). rewrite sizes_app, sizes_one by done. lia.
  - destruct (decide (is_overflow x)) as [Ho|Hno].
    + rewrite filter_cons_True in Hov by done. rewrite (proj2 (Z.eqb_eq (e_mask x) _)) by done. rewrite andb_false_r. cbn in Hov. by destruct (overflowed i); simplify_eq.
    + rewrite filter_cons_False in Hov by done. rewrite (proj2 (Z.eqb_neq (e_mask x) _)) by done. by rewrite andb_true_r.
  - intros Hne. rewrite (Hhs ltac:(done)). cbn [andb]. apply negb_true_iff, Z.ltb_ge. destruct (Hla (Hhs ltac:(done))) as (evs' & y & Ee & Hlast).
    destruct evs' as [|z evs']; [by injection Ee as _ ->|]. injection Ee as <- _. rewrite Hlast. change (x :: evs') with ([x] ++ evs').
    rewrite sizes_app, sizes_one by done. pose proof (sizes_nonneg evs'). lia.
Qed.

Lemma front_ev i x evs : queue_core i (x :: evs) ->
  ev_at (q i) (qhead i) = header x /\ ztake (esize x) (zdrop (qhead i) (q i)) = enc x /\ qhead i < qtail i.
Proof.
  intros Hq. destruct (queue_bounds _ _ Hq) as (H1 & H2 & H3). destruct Hq as [(pre & post & E & Hp & Ht) Hl Hev Hla Hov].
  apply Forall_cons_1 in Hev as [Hx Hev]. pose proof (zlen_enc x Hx) as Hlx. pose proof (esize_bounds x Hx) as Hs. pose proof (sizes_nonneg evs).
  assert (zdrop (qhead i) (q i) = enc x ++ encs evs ++ post) as Ed.
  { rewrite E, <- Hp, zdrop_app_len. change (encs (x :: evs)) with (enc x ++ encs evs). by rewrite <- app_assoc. }
  split_and!.
  - apply (ev_at_bytes _ _ _ (field (e_name x) ++ encs evs ++ post) H1); [by apply header_ok|]. rewrite Ed. unfold enc. by rewrite <- app_assoc.
  - rewrite Ed, <- Hlx. apply ztake_app_len.
  - change (x :: evs) with ([x] ++ evs) in H2. rewrite sizes_app, sizes_one in H2 by done. unfold EV_SIZE in *. lia.
Qed.

Lemma take_loop_spec len : forall evs fuel got i, queue_core i evs -> (length evs < fuel)%nat -> 0 <= len -> zlen got <= len ->
  exists i', take_loop fuel len got i = (got ++ encs (fitting (len - zlen got) evs).1, i') /\
    queue_core i' (fitting (len - zlen got) evs).2 /\ watches i' = watches i /\ qtail i' = qtail i.
Proof.
  induction evs as [|x evs IH]; intros fuel got i Hq Hf Hl Hg; (destruct fuel as [|fuel]; [cbn in Hf; lia|]); cbn [take_loop fitting].
  - destruct (queue_bounds _ _ Hq) as (H1 & H2 & H3). change (sizes []) with 0 in H2. rewrite (proj2 (Z.ltb_ge _ _)) by lia. cbn [negb fst snd].
    exists i. change (encs []) with (@nil Z). by rewrite app_nil_r.
  - destruct (front_ev i x evs Hq) as (Ee & Et & Hlt). rewrite (proj2 (Z.ltb_lt _ _)) by lia. cbn [negb]. rewrite Ee. cbn [header ev_len ev_mask].
    pose proof Hq as [_ _ Hev _ _]. apply Forall_cons_1 in Hev as [Hx _]. pose proof (esize_bounds x Hx) as Hs.
    destruct (queue_bounds _ _ Hq) as (H1 & H2 & H3). rewrite (u32_small (EV_SIZE + nlen (e_name x))) by (unfold esize, EV_SIZE in *; lia). fold (esize x).
    destruct (Z.ltb_spec len (zlen got + esize x)) as [Hno|Hyes]; destruct (Z.ltb_spec (len - zlen got) (esize x)) as [Hno'|Hyes']; try lia.
    + cbn [fst snd]. exists i. change (encs []) with (@nil Z). by rewrite app_nil_r.
    + rewrite Et. rewrite (u32_small (qhead i + esize x)) by (unfold INO_QBYTES, EV_SIZE in *; lia). fold (popped i x).
      destruct (IH fuel (got ++ enc x) (popped i x) (popped_ok i x evs Hq) ltac:(cbn in Hf; lia) Hl) as (i' & E & Hq' & Hw & Ht).
      { rewrite zlen_app, zlen_enc by done. lia. }
      exists i'. rewrite E. rewrite zlen_app, zlen_enc in * by done. rewrite Z.sub_add_distr in *. destruct (fitting (len - zlen got - esize x) evs) as [a b].
      cbn [fst snd] in *. change (encs (x :: a)) with (enc x ++ encs a). by rewrite <- app_assoc.
Qed.

(** How a reader decodes the bytes: a header, and the name up to its NUL. *)
Fixpoint read_events (fuel : nat) (l : list Z) : list event :=
  match fuel, l with
  | S fuel, _ :: _ =>
      let e := ev_at l 0 in
      mk_event (ev_wd e) (ev_mask e) (ev_cookie e) (if ev_len e =? 0 then [] else until_nul (zdrop EV_SIZE l))
        :: read_events fuel (zdrop (EV_SIZE + ev_len e) l)
  | _, _ => []
  end.
Lemma read_events_encs : forall evs fuel, Forall event_ok evs -> (length (encs evs) <= fuel)%nat -> read_events fuel (encs evs) = evs.
Proof.
  induction evs as [|x evs IH]; intros fuel Hev Hf; [by destruct fuel|]. apply Forall_cons_1 in Hev as [Hx Hev].
  change (encs (x :: evs)) with (enc x ++ encs evs) in *. pose proof (zlen_enc x Hx) as Hl. pose proof (esize_bounds x Hx) as Hs. unfold zlen, EV_SIZE in *.
  rewrite length_app in Hf. destruct fuel as [|fuel]; [lia|].
  assert (zdrop 0 (enc x ++ encs evs) = ev_bytes (header x) ++ field (e_name x) ++ encs evs) as Ed by (unfold enc; by rewrite <- app_assoc).
  pose proof (ev_at_bytes (enc x ++ encs evs) 0 (header x) _ ltac:(lia) (header_ok x Hx) Ed) as Ee.
  destruct (enc x ++ encs evs) as [|c l] eqn:El; [by destruct (enc x)|]. rewrite <- El in *. cbn [read_events]. rewrite El. rewrite <- El. rewrite Ee.
  cbn [header ev_wd ev_mask ev_cookie ev_len]. pose proof Hx as (_ & _ & _ & X0 & Xl). f_equal.
  - destruct x as [w m ck nm]. cbn [e_wd e_mask e_cookie e_name] in *. f_equal. destruct (Z.eqb_spec (nlen nm) 0) as [E0|Hn].
    + destruct (nlen_bounds _ Xl) as [[-> _]|[_ ?]]; [done | pose proof (zlen_nonneg nm); lia].
    + unfold enc. cbn [header e_name]. rewrite <- app_assoc. etrans; [|by apply (until_nul_field nm (encs evs))]. f_equal.
  - assert (zdrop (EV_SIZE + nlen (e_name x)) (enc x ++ encs evs) = encs evs) as ->.
    { fold (esize x). rewrite <- (zlen_enc x Hx). apply zdrop_app_len. }
    apply IH; [done | lia].
Qed.

Lemma sizes_length evs : Forall event_ok evs -> EV_SIZE * Z.of_nat (length evs) <= sizes evs.
Proof.
  induction 1 as [|x evs Hx _ IH]; [done|]. change (x :: evs) with ([x] ++ evs) at 2. rewrite sizes_app, sizes_one by done.
  pose proof (esize_bounds x Hx). cbn [length]. lia.
Qed.

Section take.
Context {H : Type} `{!KHeap H}.
Implicit Types (s : inotify H).

Lemma inst_at_set s h i h' : inst_at (set_inst h i s) h' = if decide (h' = h) then i else inst_at s h'.
Proof. unfold inst_at. cbn. case_decide as E; [subst h'; by rewrite lookup_insert_eq | by rewrite lookup_insert_ne]. Qed.

(** The outcome of a read. *)
Definition take_post s h len evs (r : Z) (bytes : list Z) s' : Prop :=
  let '(out, rest) := fitting len evs in
  evs = out ++ rest /\ bytes = encs out /\ read_events (length bytes) bytes = out /\
  r = (if bool_decide (out = [] /\ rest <> []) then - EINVAL else sizes out) /\
  queue_ok (inst_at s' h) rest /\ watches (inst_at s' h) = watches (inst_at s h) /\
  forall h', h' <> h -> inst_at s' h' = inst_at s h'.

Lemma inotify_take_post s h len evs : h <> 0 -> 0 <= len -> queue_ok (inst_at s h) evs ->
  let '(r, bytes, s') := inotify_take h len s in take_post s h len evs r bytes s'.
Proof.
  intros Hh Hlen Hq. unfold inotify_take, take_post. rewrite (proj2 (Z.eqb_neq h 0)) by done. set (i := inst_at s h) in *.
  pose proof Hq as [Hc Hr]. pose proof (qk_evs _ _ Hc) as Hev. destruct (queue_bounds _ _ Hc) as (H1 & H2 & H3). pose proof (sizes_length evs Hev) as Hsz.
  destruct (take_loop_spec len evs take_fuel [] i Hc ltac:(unfold take_fuel; change (INO_QBYTES / EV_SIZE + 1) with 1025; unfold INO_QBYTES, EV_SIZE in *; lia) Hlen ltac:(done)) as (i' & -> & Hc' & Hw & Ht).
  change (zlen []) with 0 in *. rewrite Z.sub_0_r in *. pose proof (fitting_app len evs) as Ha. destruct (fitting len evs) as [out rest]. cbn [fst snd app] in *.
  destruct (queue_bounds _ _ Hc') as (G1 & G2 & G3).
  set (j := if qhead i' =? qtail i' then _ else i').
  assert (Forall event_ok out /\ Forall event_ok rest) as [Ho Hre] by (rewrite <- Ha in Hev; by apply Forall_app in Hev).
  pose proof (sizes_length rest Hre) as Hrl. unfold EV_SIZE in Hrl.
  assert (queue_ok j rest /\ watches j = watches i /\ ((qhead j <? qtail j) = negb (bool_decide (rest = [])))) as (Jq & Jw & Jlt).
  { unfold j. destruct (Z.eqb_spec (qhead i') (qtail i')) as [E|Hne].
    - destruct rest as [|y rest]; [|cbn [length] in Hrl; lia]. split_and!; [|done|done]. destruct Hc' as [_ Cl _ _ Co]. split; [split|]; cbn; try done.
      + exists [], (q i'). done.
      + left. by vm_compute.
    - destruct (decide (rest = [])) as [->|Hrn]; [change (sizes []) with 0 in G2; lia|]. split_and!; [split; [done|] | done |].
      + destruct Hr as [Hr|(x & Hx & Hxo)]; [left; lia | right]. exists x. split; [|done]. rewrite <- Ha, last_app in Hx. by destruct (last rest) eqn:El; [|apply last_None in El].
      + rewrite bool_decide_false by done. apply Z.ltb_lt. destruct rest; [done|]. cbn [length] in Hrl. lia. }
  assert (bool_decide (encs out = []) = bool_decide (out = [])) as Eb.
  { apply bool_decide_ext. destruct out; [done|]. split; [|done]. by destruct e. }
  assert (forall b, (if bool_decide (encs out = []) && b then (- EINVAL, [], set_inst h j s) else (zlen (encs out), encs out, set_inst h j s)) =
    (if bool_decide (out = []) && b then - EINVAL else sizes out, encs out, set_inst h j s)) as Ef.
  { intros b. rewrite Eb. destruct (bool_decide (out = [])) eqn:E; [|done]. apply bool_decide_eq_true in E. subst out. by destruct b. }
  rewrite Jlt, Ef. split_and!; try done.
  - by apply read_events_encs.
  - repeat case_bool_decide; naive_solver.
  - rewrite inst_at_set. by rewrite decide_True.
  - rewrite inst_at_set. by rewrite decide_True.
  - intros h' Hne. rewrite inst_at_set. by rewrite decide_False.
Qed.

(** C25 Reading an instance returns whole events, in order: as many of the
    first ones as fit in the caller's buffer, which decode to what was pushed;
    the others stay queued.  If not even the first fits, the call fails with
    [EINVAL] and nothing is lost.  No watch and no other instance changes. *)
Theorem inotify_take_exact s h len evs : h <> 0 -> 0 <= len -> queue_ok (inst_at s h) evs ->
  let '(r, bytes, s') := inotify_take h len s in
  let '(out, rest) := fitting len evs in
  evs = out ++ rest /\ bytes = encs out /\ read_events (length bytes) bytes = out /\
  r = (if bool_decide (out = [] /\ rest <> []) then - EINVAL else sizes out) /\
  queue_ok (inst_at s' h) rest /\ watches (inst_at s' h) = watches (inst_at s h) /\
  forall h', h' <> h -> inst_at s' h' = inst_at s h'.
Proof. apply inotify_take_post. Qed.
End take.
