(* ===== verification/InotifyOps.v ===== *)
(** * The inotify subsystem stays well formed

    Every call of src/inotify.c keeps each instance's queue, watch table and
    memory in order. *)
From stdpp Require Import gmap.
From S2P Require Import Prelude Paths Heap Vfs Inotify InotifyQueue.
#[local] Open Scope Z_scope.

(** ** Paths *)

(** A C string of less than [INO_PATH] bytes. *)
Definition path_ok (p : cstr) : Prop := (0 ∉ p) /\ zlen p < INO_PATH.

Lemma path_ok_take n (p : cstr) : path_ok p -> path_ok (ztake n p).
Proof.
  intros [H0 Hl]. split; [|unfold zlen, ztake in *; rewrite length_take; lia]. intros Hin. apply H0. unfold ztake in Hin.
  by apply (elem_of_submseteq (take (Z.to_nat n) p)); [|apply sublist_submseteq, sublist_take].
Qed.
Lemma path_ok_drop n (p : cstr) : path_ok p -> path_ok (zdrop n p).
Proof.
  intros [H0 Hl]. split; [|unfold zlen, zdrop in *; rewrite length_drop; lia]. intros Hin. apply H0. unfold zdrop in Hin.
  by apply (elem_of_submseteq (drop (Z.to_nat n) p)); [|apply sublist_submseteq, sublist_drop].
Qed.
Lemma path_ok_nil : path_ok [].
Proof. split; [apply not_elem_of_nil | done]. Qed.
Lemma path_ok_root : path_ok [47].
Proof. split; [by intros ?%list_elem_of_singleton | done]. Qed.

Lemma ino_split_ok p : path_ok p -> path_ok (ino_split p).1 /\ path_ok (ino_split p).2.
Proof.
  intros Hp. unfold ino_split. repeat case_match; cbn; auto using path_ok_take, path_ok_drop, path_ok_nil, path_ok_root.
Qed.

Lemma norm_loop_ok : forall fuel (s out : cstr), 0 ∉ s -> path_ok out -> path_ok (norm_loop fuel s out).
Proof.
  induction fuel as [|fuel IH]; intros s out Hs Ho; cbn [norm_loop]; [done|]. case_bool_decide as Hsk; [done|].
  destruct (component (skip_slashes s)) as [part e] eqn:Ec. destruct (component_app _ _ _ Ec) as (E & _ & _).
  destruct (skip_slashes_app s) as [k Ek]. rewrite E in Ek. assert ((0 ∉ part) /\ (0 ∉ e)) as [Hp He] by (rewrite Ek in Hs; rewrite !not_elem_of_app in Hs; tauto).
  apply IH; [done|]. destruct (bytes_eqb _ _); [done|]. destruct (bytes_eqb _ _).
  - unfold norm_up. case_match; [by apply path_ok_take | done].
  - unfold norm_add. destruct (Z.ltb_spec (zlen out + zlen part + 2) INO_PATH); [|done]. destruct Ho as [H0 Hl]. split.
    + destruct (1 <? zlen out); rewrite ?not_elem_of_app; split_and!; try done. by intros ?%list_elem_of_singleton.
    + destruct (1 <? zlen out); rewrite ?zlen_app; change (zlen [47]) with 1; lia.
Qed.
Lemma ino_norm_ok p : 0 ∉ p -> path_ok (ino_norm p).
Proof.
  intros Hp. unfold ino_norm. assert (path_ok (norm_loop (S (length p)) p [47])) by (apply norm_loop_ok; [done | apply path_ok_root]).
  case_match; [by apply path_ok_take | done].
Qed.

Lemma lor_u32 a b : u32_range a -> u32_range b -> u32_range (Z.lor a b).
Proof.
  unfold u32_range. intros [Ha Ha'] [Hb Hb']. split; [by apply Z.lor_nonneg|]. destruct (decide (Z.lor a b = 0)) as [->|Hn]; [done|].
  assert (0 <= Z.lor a b) by (by apply Z.lor_nonneg). apply Z.log2_lt_pow2; [lia|]. rewrite Z.log2_lor by done.
  assert (forall x, 0 <= x < 2 ^ 32 -> Z.log2 x < 32) as Hl.
  { intros x Hx. destruct (decide (x = 0)) as [->|]; [done|]. apply Z.log2_lt_pow2; lia. }
  pose proof (Hl a ltac:(lia)). pose proof (Hl b ltac:(lia)). lia.
Qed.

(** ** Instances *)

(** [b] bounds the watch descriptors. *)
Record inst_ok (b : Z) (i : ino_inst) : Prop := {
  ik_queue : exists evs, queue_ok i evs;
  ik_len : zlen (watches i) = INO_MAX_WATCH;
  ik_next : 1 <= next_wd i <= b;
  ik_wd : forall k, 0 <= k < INO_MAX_WATCH -> 0 <= w_wd (watch_at i k) < next_wd i /\ path_ok (w_path (watch_at i k));
  ik_inj : forall j k, 0 <= j < INO_MAX_WATCH -> 0 <= k < INO_MAX_WATCH -> w_wd (watch_at i j) <> 0 ->
    w_wd (watch_at i j) = w_wd (watch_at i k) -> j = k;
}.

Lemma ino_push_frame i wd mask cookie name : watches (ino_push i wd mask cookie name).1 = watches i /\ next_wd (ino_push i wd mask cookie name).1 = next_wd i.
Proof.
  unfold ino_push, ino_compact. repeat case_match; done.
Qed.

Lemma push_inst_ok b i wd mask cookie name : inst_ok b i -> b <= 2 ^ 31 -> 0 <= wd < b -> u32_range mask -> mask <> IN_Q_OVERFLOW -> u32_range cookie ->
  path_ok (default [] name) -> inst_ok b (ino_push i wd mask cookie name).1.
Proof.
  intros [(evs & Hq) K2 K3 K4 K5] Hb Hwd Hm Hno Hc [Hn0 Hnl]. destruct (ino_push_frame i wd mask cookie name) as [Ew En].
  destruct (ino_push i wd mask cookie name) as [i' n] eqn:E. cbn [fst] in *. set (x := mk_event wd mask cookie (default [] name)).
  assert (event_ok x) as Hx by (split; [cbn; lia|]; split; [exact Hm|]; split; [exact Hc|]; split; [exact Hn0|]; cbn; unfold INO_PATH in *; lia).
  destruct (ino_push_post i evs x name i' n Hq Hx Hno eq_refl E) as (_ & evs' & Hq' & _).
  split; unfold watch_at in *; rewrite ?Ew, ?En; try done. by exists evs'.
Qed.

Lemma watch_at_set i k w j : zlen (watches i) = INO_MAX_WATCH -> 0 <= k < INO_MAX_WATCH -> 0 <= j < INO_MAX_WATCH ->
  watch_at (set_watch k w i) j = if decide (j = k) then w else watch_at i j.
Proof. intros Hl Hk Hj. unfold watch_at. cbn. case_decide as E; [subst j; apply zget_zset_eq; lia | apply zget_zset_ne; lia]. Qed.

(** Replacing a watch by one with the same descriptor, or none. *)
Lemma set_watch_ok b i k w : inst_ok b i -> 0 <= k < INO_MAX_WATCH -> w_wd w = w_wd (watch_at i k) \/ w_wd w = 0 -> path_ok (w_path w) ->
  inst_ok b (set_watch k w i).
Proof.
  intros [(evs & [[Q1 Q2 Q3 Q4 Q5] Q6]) K2 K3 K4 K5] Hk Hw Hp.
  assert (forall j, 0 <= j < INO_MAX_WATCH -> watch_at (set_watch k w i) j = if decide (j = k) then w else watch_at i j) as Hat by (intros; by apply watch_at_set).
  split; try done.
  - exists evs. done.
  - cbn. by rewrite zlen_zset.
  - intros j Hj. rewrite Hat by done. case_decide; [subst j | by apply K4]. split; [|done]. destruct (K4 k Hk) as [? _]. cbn. destruct Hw as [-> | ->]; lia.
  - intros x y Hx Hy. rewrite !Hat by done. repeat case_decide; subst; try done; intros Hn E.
    + destruct Hw as [Hw|Hw]; [|done]. apply K5; [done | done | congruence | congruence].
    + destruct Hw as [Hw|Hw]; [|congruence]. apply K5; [done | done | congruence | congruence].
    + by apply K5.
Qed.

Lemma drop_watch_ok b i k : inst_ok b i -> b <= 2 ^ 31 -> 0 <= k < INO_MAX_WATCH -> inst_ok b (ino_drop_watch i k).1.
Proof.
  intros Hi Hb Hk. unfold ino_drop_watch. destruct (ik_wd _ _ Hi k Hk) as [Hw Hp]. pose proof (ik_next _ _ Hi).
  pose proof (push_inst_ok b i (w_wd (watch_at i k)) IN_IGNORED 0 None Hi Hb ltac:(lia) ltac:(done) ltac:(done) ltac:(done) path_ok_nil) as Hi'.
  destruct (ino_push _ _ _ _ _) as [i' n]. cbn [fst] in *. apply set_watch_ok; [done | done | by right | done].
Qed.

(** A delivered event carries one of the bits of [IN_ALL_EVENTS]. *)
Lemma deliver_ok b i k m cookie name : inst_ok b i -> b <= 2 ^ 31 -> 0 <= k < INO_MAX_WATCH -> u32_range m -> u32_range cookie -> path_ok (default [] name) ->
  inst_ok b (ino_deliver i k m cookie name).1.
Proof.
  intros Hi Hb Hk Hm Hc Hp. unfold ino_deliver. destruct (negb (has _ _)) eqn:Eh; [done|]. apply negb_false_iff in Eh.
  assert (m <> IN_Q_OVERFLOW) as Hno.
  { intros ->. unfold has in Eh. rewrite <- Z.land_assoc in Eh. change (Z.land IN_Q_OVERFLOW IN_ALL_EVENTS) with 0 in Eh. rewrite Z.land_0_r in Eh. discriminate Eh. }
  destruct (ik_wd _ _ Hi k Hk) as [Hw _]. pose proof (ik_next _ _ Hi).
  pose proof (push_inst_ok b i (w_wd (watch_at i k)) m cookie name Hi Hb ltac:(lia) Hm Hno Hc Hp) as Hi'.
  destruct (ino_push _ _ _ _ _) as [i' n]. cbn [fst] in *. destruct (has _ IN_ONESHOT); [|done].
  pose proof (drop_watch_ok b i' k Hi' Hb Hk) as Hd. destruct (ino_drop_watch i' k); exact Hd.
Qed.

Lemma all_watches_ok b f i : (forall k i n, 0 <= k < INO_MAX_WATCH -> inst_ok b i -> inst_ok b (f k (i, n)).1) -> inst_ok b i -> inst_ok b (all_watches f i).1.
Proof.
  intros Hf Hi. unfold all_watches. apply (zfor_ind (fun _ (x : ino_inst * Z) => inst_ok b x.1) f); [done|].
  intros k [j n] Hk Hj. apply Hf; [unfold INO_MAX_WATCH in *; lia | done].
Qed.
Lemma self_watch_ok b np sm k i n : b <= 2 ^ 31 -> u32_range sm -> 0 <= k < INO_MAX_WATCH -> inst_ok b i -> inst_ok b (self_watch np sm k (i, n)).1.
Proof.
  intros Hb Hm Hk Hi. unfold self_watch. cbn zeta. destruct ((w_wd _ =? 0) || _); [exact Hi|]. set (m := if _ && _ then _ else sm).
  assert (u32_range m) as Hm' by (unfold m; case_match; [apply lor_u32; done | done]).
  clearbody m. pose proof (deliver_ok b i k m 0 None Hi Hb Hk Hm' ltac:(done) path_ok_nil) as Hd. destruct (ino_deliver _ _ _ _ _) as [i' a]. cbn [fst] in *.
  destruct (_ && _); [|done]. pose proof (drop_watch_ok b i' k Hd Hb Hk) as Hd'. destruct (ino_drop_watch i' k); exact Hd'.
Qed.
Lemma parent_watch_ok b dir base mask cookie k i n : b <= 2 ^ 31 -> u32_range mask -> u32_range cookie -> path_ok base -> 0 <= k < INO_MAX_WATCH ->
  inst_ok b i -> inst_ok b (parent_watch dir base mask cookie k (i, n)).1.
Proof.
  intros Hb Hm Hc Hp Hk Hi. unfold parent_watch. cbn zeta. destruct (_ && _); [|exact Hi].
  pose proof (deliver_ok b i k mask cookie (Some base) Hi Hb Hk Hm Hc Hp) as Hd. by destruct (ino_deliver _ _ _ _ _).
Qed.
Lemma move_watch_ok b o n k i : path_ok n -> 0 <= k < INO_MAX_WATCH -> inst_ok b i -> inst_ok b (move_watch o n k i).
Proof.
  intros Hn Hk Hi. unfold move_watch. destruct (w_wd _ =? 0); [done|]. destruct (negb _ || _); [done|]. cbn zeta.
  destruct (Z.leb_spec INO_PATH (zlen n + zlen (zdrop (zlen o) (w_path (watch_at i k))))) as [|Hlt]; [done|]. apply set_watch_ok; [done | done | by left|]. cbn.
  destruct (path_ok_drop (zlen o) _ (proj2 (ik_wd _ _ Hi k Hk))) as [H0 _]. split; [|by rewrite zlen_app].
  rewrite not_elem_of_app. split; [apply Hn | done].
Qed.

(** ** The subsystem *)

Section ops.
Context {H : Type} `{KHeapLaws H}.
Implicit Types (s : inotify H) (h b : Z).

Definition in_slots (j : Z) : Prop := 0 <= j < INO_MAX_INST.
Record ino_ok b s : Prop := {
  nk_len : zlen (ino_all s) = INO_MAX_INST;
  nk_heap : heap_ok (ino_heap s);
  nk_inst : forall j, in_slots j -> zget (ino_all s) j <> 0 ->
    exists i m, insts s !! zget (ino_all s) j = Some i /\ inst_ok b i /\ INST_SIZE <= m /\ heap_live (ino_heap s) (zget (ino_all s) j) m;
  nk_inj : forall j k, in_slots j -> in_slots k -> zget (ino_all s) j <> 0 -> zget (ino_all s) j = zget (ino_all s) k -> j = k;
  nk_active : inotify_active s = zcount (Z.to_nat INO_MAX_INST) (fun j => negb (zget (ino_all s) j =? 0));
  nk_cookie : u32_range (ino_cookie s);
}.

(** The calls refer to instances that were created and not released. *)
Definition handle s h : Prop := h <> 0 /\ exists j, in_slots j /\ zget (ino_all s) j = h.

Lemma inst_ok_mono b c i : b <= c -> inst_ok b i -> inst_ok c i.
Proof. intros Hbc [K1 K2 K3 K4 K5]. split; try done. lia. Qed.
Lemma ino_ok_mono b c s : b <= c -> ino_ok b s -> ino_ok c s.
Proof.
  intros Hbc [N1 N2 N3 N4 N5 N6]. split; try done. intros j Hj Hn. destruct (N3 j Hj Hn) as (i & m & ? & ? & ? & ?).
  exists i, m. eauto using inst_ok_mono.
Qed.
Lemma handle_inst b s h : ino_ok b s -> handle s h -> inst_ok b (inst_at s h).
Proof. intros Hok (Hn & j & Hj & <-). destruct (nk_inst _ _ Hok j Hj Hn) as (i & m & E & Hi & _). unfold inst_at. by rewrite E. Qed.

(** Changing the contents of an instance, a counter or the cookie. *)
Lemma set_inst_ok b s h i : ino_ok b s -> inst_ok b i -> ino_ok b (set_inst h i s).
Proof.
  intros [N1 N2 N3 N4 N5 N6] Hi. split; try done. intros j Hj Hn. cbn in *. destruct (decide (zget (ino_all s) j = h)) as [E|Hne].
  - destruct (N3 j Hj Hn) as (_ & m & _ & _ & ? & ?). exists i, m. rewrite E in *. by rewrite lookup_insert_eq.
  - destruct (N3 j Hj Hn) as (i' & m & ? & ? & ? & ?). exists i', m. by rewrite lookup_insert_ne by done.
Qed.
Lemma add_pushed_ok b s n : ino_ok b s -> ino_ok b (add_pushed n s).
Proof. by intros [N1 N2 N3 N4 N5 N6]. Qed.
Lemma kpoll_wake_ok b s : ino_ok b s -> ino_ok b (kpoll_wake s).
Proof. by intros [N1 N2 N3 N4 N5 N6]. Qed.
Lemma set_cookie_ok b s c : u32_range c -> ino_ok b s -> ino_ok b (set_cookie c s).
Proof. by intros Hc [N1 N2 N3 N4 N5 N6]. Qed.

Lemma each_inst_ok b f s : (forall i, inst_ok b i -> inst_ok b (f i).1) -> ino_ok b s -> ino_ok b (each_inst f s).
Proof.
  intros Hf Hok. unfold each_inst. apply (zfor_ind (fun _ s => ino_ok b s)); [done|]. intros j s' Hj Hok'. cbn zeta.
  destruct (Z.eqb_spec (zget (ino_all s') j) 0) as [|Hn]; [done|].
  assert (inst_ok b (inst_at s' (zget (ino_all s') j))) as Hi.
  { apply handle_inst; [done|]. split; [done|]. exists j. split; [|done]. unfold in_slots, INO_MAX_INST in *. lia. }
  pose proof (Hf _ Hi) as Hi'. destruct (f _) as [i n]. apply add_pushed_ok, set_inst_ok; done.
Qed.

Lemma land_u32 a c : u32_range a -> 0 <= c -> u32_range (Z.land a c).
Proof.
  unfold u32_range. intros [Ha Ha'] Hc. split; [apply Z.land_nonneg; by left|].
  destruct (decide (Z.land a c = 0)) as [->|Hn]; [done|]. assert (0 <= Z.land a c) by (apply Z.land_nonneg; by left).
  assert (a <> 0) by (intros ->; by rewrite Z.land_0_l in Hn). apply Z.log2_lt_pow2; [lia|].
  pose proof (Z.log2_land a c Ha Hc). assert (Z.log2 a < 32) by (apply Z.log2_lt_pow2; lia). lia.
Qed.

Lemma ino_self_ok b np mask s : b <= 2 ^ 31 -> u32_range mask -> ino_ok b s -> ino_ok b (ino_self np mask s).
Proof.
  intros Hb Hm Hok. unfold ino_self. destruct (self_mask mask) as [sm|] eqn:E; [|done]. apply each_inst_ok; [|done]. intros i Hi.
  apply all_watches_ok; [|done]. intros k j n Hk Hj. apply self_watch_ok; try done. unfold self_mask in E. repeat case_match; simplify_eq; try done.
  apply land_u32; done.
Qed.
Lemma ino_parent_ok b dir base mask cookie s : b <= 2 ^ 31 -> u32_range mask -> u32_range cookie -> path_ok base -> ino_ok b s -> ino_ok b (ino_parent dir base mask cookie s).
Proof.
  intros Hb Hm Hc Hp Hok. unfold ino_parent. case_bool_decide; [done|]. apply each_inst_ok; [|done]. intros i Hi.
  apply all_watches_ok; [|done]. intros k j n Hk Hj. by apply parent_watch_ok.
Qed.

Lemma inotify_vfs_event_ok b path mask s : b <= 2 ^ 31 -> u32_range mask -> (forall p, path = Some p -> 0 ∉ p) -> ino_ok b s -> ino_ok b (inotify_vfs_event path mask s).
Proof.
  intros Hb Hm Hp Hok. destruct path as [p|]; [|done]. unfold inotify_vfs_event. destruct (_ =? 0); [done|]. cbn zeta.
  pose proof (ino_split_ok _ (ino_norm_ok p (Hp p eq_refl))) as [_ Hbase].
  assert (ino_ok b (ino_event_locked (ino_norm p) mask 0 s)) as Hok'.
  { unfold ino_event_locked. destruct (ino_split (ino_norm p)) as [dir base]. cbn [fst snd] in *.
    destruct (has mask IN_DELETE); [apply ino_parent_ok, ino_self_ok | apply ino_self_ok, ino_parent_ok]; done. }
  destruct (_ =? _); [done | by apply kpoll_wake_ok].
Qed.

Lemma inotify_vfs_rename_ok b o n d s : b <= 2 ^ 31 -> (forall p, o = Some p -> 0 ∉ p) -> (forall p, n = Some p -> 0 ∉ p) -> ino_ok b s -> ino_ok b (inotify_vfs_rename o n d s).
Proof.
  intros Hb Ho Hn Hok. destruct o as [o|], n as [n|]; try done. unfold inotify_vfs_rename. destruct (_ =? 0); [done|]. cbn zeta.
  pose proof (ino_norm_ok o (Ho o eq_refl)) as Ho'. pose proof (ino_norm_ok n (Hn n eq_refl)) as Hn'.
  pose proof (proj2 (ino_split_ok _ Ho')) as Hob. pose proof (proj2 (ino_split_ok _ Hn')) as Hnb.
  destruct (ino_split (ino_norm o)) as [od ob]. destruct (ino_split (ino_norm n)) as [nd nb]. cbn [fst snd] in *.
  assert (u32_range (next_cookie (ino_cookie s))) as Hc by (unfold next_cookie; case_match; apply Z.mod_pos_bound; lia).
  apply kpoll_wake_ok, each_inst_ok.
  - intros i Hi. cbn [fst]. apply (zfor_ind (fun _ i => inst_ok b i)); [done|]. intros k j Hk Hj. apply move_watch_ok; [done | unfold INO_MAX_WATCH in *; lia | done].
  - apply ino_self_ok; [done | done|]. apply ino_parent_ok; [done | by destruct d | done | done|]. apply ino_parent_ok; [done | by destruct d | done | done|].
    by apply set_cookie_ok.
Qed.

(** ** Creating and releasing instances *)

Definition fresh_inst : ino_inst := mk_inst 1 0 0 0 0 false false (watches zero_inst) (q zero_inst).
Lemma fresh_watch k : zget (watches zero_inst) k = zero_watch.
Proof. cbn [watches zero_inst]. unfold zget. generalize (Z.to_nat INO_MAX_WATCH). intros n. generalize (Z.to_nat k). induction n as [|n IH]; intros [|j]; [done..|]. apply (IH j). Qed.
Lemma fresh_queue_ok : queue_ok fresh_inst [].
Proof.
  split; [split|]; cbn [fresh_inst qhead qtail q has_last overflowed].
  - exists [], (q zero_inst). done.
  - unfold zlen. cbn [q zero_inst]. rewrite length_replicate. done.
  - constructor.
  - done.
  - done.
  - done.
  - left. by vm_compute.
Qed.
Lemma fresh_inst_ok b : 1 <= b -> inst_ok b fresh_inst.
Proof.
  intros Hb. split.
  - exists []. apply fresh_queue_ok.
  - unfold zlen. cbn [fresh_inst watches zero_inst]. rewrite length_replicate. done.
  - cbn. lia.
  - intros k _. unfold watch_at. cbn [fresh_inst watches next_wd]. rewrite fresh_watch. split; [done | apply path_ok_nil].
  - intros j k _ _. unfold watch_at. cbn [fresh_inst watches next_wd]. by rewrite fresh_watch.
Qed.

Lemma zget_set_slot (l : list Z) j x k : zlen l = INO_MAX_INST -> in_slots j -> in_slots k -> zget (zset l j x) k = if decide (k = j) then x else zget l k.
Proof. intros Hl Hj Hk. unfold in_slots in *. case_decide as E; [subst k; apply zget_zset_eq; lia | apply zget_zset_ne; lia]. Qed.

Lemma inotify_create_ok b s : 1 <= b -> ino_ok b s -> ino_ok b (inotify_create s).2 /\ ((inotify_create s).1 <> 0 -> handle (inotify_create s).2 (inotify_create s).1).
Proof.
  intros Hb Hok. pose proof Hok as [N1 N2 N3 N4 N5 N6]. unfold inotify_create. destruct (hp_kalloc INST_SIZE (ino_heap s)) as [p hp] eqn:Ea.
  assert (0 <= INST_SIZE) as Hsz by done. destruct (Z.eqb_spec p 0) as [->|Hp].
  { destruct (kalloc_fail _ _ _ N2 Hsz Ea) as [Hh Hl]. split; [|done]. split; try done. cbn in *. intros j Hj Hn.
    destruct (N3 j Hj Hn) as (i & m & ? & ? & ? & ?). exists i, m. rewrite Hl. done. }
  destruct (kalloc_fresh _ _ _ _ N2 Hsz Ea Hp) as (Hh & m & Hm & Hnew & Hl). fold fresh_inst.
  pose proof (zfind_spec (Z.to_nat INO_MAX_INST) 0 (fun j => zget (ino_all s) j =? 0)) as Hz. destruct (zfind _ 0 _) as [j|].
  2:{ destruct (kfree_live hp p m Hh ltac:(apply Hl; by left)) as [Hh' Hl']. split; [|done]. split; try done. cbn in *. intros j Hj Hn.
      destruct (N3 j Hj Hn) as (i & k & ? & ? & ? & Hk). exists i, k. split_and!; try done. apply Hl'. split; [apply Hl; by right|]. intros E. rewrite E in Hk. by apply (Hnew k). }
  destruct Hz as (Hj & Hfree%Z.eqb_eq & _). change (0 <= j < 0 + Z.of_nat (Z.to_nat INO_MAX_INST)) with (in_slots j) in Hj.
  assert (forall k, in_slots k -> zget (zset (ino_all s) j p) k = if decide (k = j) then p else zget (ino_all s) k) as Hat by (intros; by apply zget_set_slot).
  assert (forall k, in_slots k -> zget (ino_all s) k <> p) as Hno.
  { intros k Hk E. destruct (N3 k Hk) as (_ & m' & _ & _ & _ & Hm'); [congruence|]. rewrite E in Hm'. by apply (Hnew m'). }
  split; [split|]; cbn in *.
  - by rewrite zlen_zset.
  - done.
  - intros k Hk. rewrite Hat by done. case_decide as E.
    + intros _. exists fresh_inst, m. rewrite lookup_insert_eq. split_and!; [done | by apply fresh_inst_ok | done | apply Hl; by left].
    + intros Hn. destruct (N3 k Hk Hn) as (i & m' & ? & ? & ? & ?). exists i, m'. rewrite lookup_insert_ne by (intros E'; by apply (Hno k)).
      split_and!; try done. apply Hl. by right.
  - intros x y Hx Hy. rewrite !Hat by done. repeat case_decide; subst; try done; intros Hn E; [symmetry in E; by apply Hno in E | by apply Hno in E | by apply N4].
  - rewrite N5. symmetry. rewrite (zcount_change _ (fun j => negb (zget (ino_all s) j =? 0)) _ j).
    + rewrite Hat by done. rewrite decide_True, Hfree, (proj2 (Z.eqb_neq p 0)) by done. cbn. lia.
    + unfold in_slots, INO_MAX_INST in *. lia.
    + intros k Hk Hne. rewrite Hat by (unfold in_slots, INO_MAX_INST in *; lia). by rewrite decide_False.
  - done.
  - intros _. split; [done|]. exists j. split; [done|]. cbn. rewrite Hat by done. by rewrite decide_True.
Qed.

Lemma release_loop h j (a : Z) (l : list Z) : zlen l = INO_MAX_INST -> in_slots j -> h <> 0 -> zget l j = h -> (forall k, in_slots k -> zget l k = h -> k = j) ->
  zfor (Z.to_nat INO_MAX_INST) 0 (release_slot h) (a, l) = (a - 1, zset l j 0).
Proof.
  intros Hl Hj Hh Hlj Huniq. pose proof (zfor_ind (fun n x => x = if j <? n then (a - 1, zset l j 0) else (a, l)) (release_slot h) (Z.to_nat INO_MAX_INST) 0 (a, l)) as Hz.
  cbn beta in Hz. change (0 + Z.of_nat (Z.to_nat INO_MAX_INST)) with INO_MAX_INST in Hz. rewrite (proj2 (Z.ltb_lt j INO_MAX_INST)) in Hz by apply Hj. apply Hz.
  - rewrite (proj2 (Z.ltb_ge j 0)) by apply Hj. done.
  - intros k x Hk ->. assert (in_slots k) as Hks by (unfold in_slots in *; lia). unfold release_slot. destruct (Z.ltb_spec j k) as [Hlt|Hge].
    + rewrite (proj2 (Z.ltb_lt j (k + 1))) by lia. rewrite zget_zset_ne by (unfold in_slots in *; lia). rewrite (proj2 (Z.eqb_neq _ _)); [done|].
      intros E. apply Huniq in E; [lia | done].
    + destruct (decide (k = j)) as [->|Hne].
      * rewrite (proj2 (Z.ltb_lt j (j + 1))) by lia. by rewrite (proj2 (Z.eqb_eq _ _)).
      * rewrite (proj2 (Z.ltb_ge j (k + 1))) by lia. rewrite (proj2 (Z.eqb_neq _ _)); [done|]. intros E. apply Huniq in E; done.
Qed.

Lemma inotify_release_ok b s h : ino_ok b s -> handle s h -> ino_ok b (inotify_release h s).
Proof.
  intros Hok (Hh & j & Hj & Ej). pose proof Hok as [N1 N2 N3 N4 N5 N6]. unfold inotify_release. rewrite (proj2 (Z.eqb_neq h 0)) by done.
  assert (forall k, in_slots k -> zget (ino_all s) k = h -> k = j) as Huniq by (intros k Hk E; symmetry; apply N4; [done | done | congruence | congruence]).
  rewrite (release_loop h j) by done. destruct (N3 j Hj ltac:(congruence)) as (_ & m & _ & _ & _ & Hm). rewrite Ej in Hm.
  destruct (kfree_live _ _ _ N2 Hm) as [Hh' Hl'].
  assert (forall k, in_slots k -> zget (zset (ino_all s) j 0) k = if decide (k = j) then 0 else zget (ino_all s) k) as Hat by (intros; by apply zget_set_slot).
  split; cbn.
  - by rewrite zlen_zset.
  - done.
  - intros k Hk. rewrite Hat by done. case_decide as E; [done|]. intros Hn. destruct (N3 k Hk Hn) as (i & m' & ? & ? & ? & ?). exists i, m'.
    assert (zget (ino_all s) k <> h) as Hne by (intros E'; by apply E, Huniq). rewrite lookup_delete_ne by done. split_and!; try done. by apply Hl'.
  - intros x y Hx Hy. rewrite !Hat by done. repeat case_decide; subst; try done. by apply N4.
  - rewrite N5. symmetry. rewrite (zcount_change _ (fun j => negb (zget (ino_all s) j =? 0)) _ j).
    + rewrite Hat by done. rewrite decide_True, (proj2 (Z.eqb_neq (zget (ino_all s) j) 0)) by congruence. cbn. lia.
    + unfold in_slots, INO_MAX_INST in *. lia.
    + intros k Hk Hne. rewrite Hat by (unfold in_slots, INO_MAX_INST in *; lia). by rewrite decide_False.
  - done.
Qed.

(** ** The system calls *)

(** A new watch takes the next descriptor. *)
Lemma new_watch_ok b i k w : inst_ok b i -> 0 <= k < INO_MAX_WATCH -> w_wd w = next_wd i -> path_ok (w_path w) -> inst_ok (b + 1) (set_watch k w (take_wd i)).
Proof.
  intros [(evs & [[Q1 Q2 Q3 Q4 Q5] Q6]) K2 K3 K4 K5] Hk Hw Hp.
  assert (forall j, 0 <= j < INO_MAX_WATCH -> watch_at (set_watch k w (take_wd i)) j = if decide (j = k) then w else watch_at i j) as Hat
    by (intros; by apply (watch_at_set (take_wd i))).
  split.
  - by exists evs.
  - cbn. by rewrite zlen_zset.
  - cbn. lia.
  - intros j Hj. rewrite Hat by done. cbn. case_decide; [split; [lia | done]|]. destruct (K4 j Hj). split; [lia | done].
  - intros x y Hx Hy. rewrite !Hat by done. destruct (K4 x Hx), (K4 y Hy). repeat case_decide; subst; try done; intros Hn E; [lia | lia | by apply K5].
Qed.

Lemma inotify_add_ok b s h p mask d : ino_ok b s -> 0 ∉ p -> (h <> 0 -> handle s h) -> ino_ok (b + 1) (inotify_add h p mask d s).2.
Proof.
  intros Hok Hp Hh. assert (ino_ok (b + 1) s) as Hok' by (by apply (ino_ok_mono b); [lia|]). unfold inotify_add.
  destruct (Z.eqb_spec h 0) as [|Hn]; [done|]. specialize (Hh Hn). repeat (case_if; [done|]). cbn zeta. pose proof (handle_inst _ _ _ Hok Hh) as Hi.
  pose proof (ino_norm_ok p Hp) as Hnp. destruct (watched_slot (inst_at s h) (ino_norm p)) as [k|] eqn:Ek.
  - unfold watched_slot in Ek. apply zfind_same in Ek as (Hk & _). case_if; [done|]. cbn [snd]. apply set_inst_ok; [done|].
    apply set_watch_ok; [by apply (inst_ok_mono b); [lia|] | unfold INO_MAX_WATCH in *; lia | by left|]. cbn. apply (ik_wd _ _ Hi). unfold INO_MAX_WATCH in *. lia.
  - destruct (free_watch (inst_at s h)) as [k|] eqn:Ef; [|done]. unfold free_watch in Ef. apply zfind_same in Ef as (Hk & _). cbn [snd].
    apply set_inst_ok; [done|]. apply new_watch_ok; [done | unfold INO_MAX_WATCH in *; lia | done | done].
Qed.

Lemma inotify_rm_ok b s h wd : b <= 2 ^ 31 -> ino_ok b s -> (h <> 0 -> handle s h) -> ino_ok b (inotify_rm h wd s).2.
Proof.
  intros Hb Hok Hh. unfold inotify_rm. destruct (Z.eqb_spec h 0) as [|Hn]; [done|]. specialize (Hh Hn). cbn [orb]. case_if; [done|]. cbn zeta.
  pose proof (handle_inst _ _ _ Hok Hh) as Hi. destruct (zfind _ 0 _) as [k|] eqn:Ek; [|done]. apply zfind_same in Ek as (Hk & _).
  pose proof (drop_watch_ok b _ k Hi Hb ltac:(unfold INO_MAX_WATCH in *; lia)) as Hd. destruct (ino_drop_watch _ _) as [i n]. cbn [fst snd] in *.
  by apply kpoll_wake_ok, add_pushed_ok, set_inst_ok.
Qed.

Lemma take_loop_wd len : forall fuel got i, next_wd (take_loop fuel len got i).2 = next_wd i.
Proof. induction fuel as [|fuel IH]; intros got i; cbn [take_loop]; [done|]. cbn zeta. repeat case_if; try done. by rewrite IH. Qed.
Lemma inotify_take_ok b s h len : ino_ok b s -> 0 <= len -> (h <> 0 -> handle s h) -> ino_ok b (inotify_take h len s).2.
Proof.
  intros Hok Hl Hh. destruct (Z.eqb_spec h 0) as [->|Hn]; [done|]. specialize (Hh Hn). pose proof (handle_inst _ _ _ Hok Hh) as Hi.
  pose proof Hi as [(evs & Hq) K2 K3 K4 K5]. pose proof (inotify_take_post s h len evs Hn Hl Hq) as Hp. unfold inotify_take in *.
  rewrite (proj2 (Z.eqb_neq h 0)) in * by done. pose proof (take_loop_wd len take_fuel [] (inst_at s h)) as Hw. destruct (take_loop _ _ _ _) as [got i'] eqn:Et. cbn [snd] in Hw.
  cbn zeta in *. set (j := if qhead i' =? qtail i' then _ else i') in *. assert (next_wd j = next_wd (inst_at s h)) as Hwj by (unfold j; by case_if).
  assert (exists rest, queue_ok j rest /\ watches j = watches (inst_at s h)) as (rest & Hjq & Hjw).
  { case_if; cbn [fst snd] in Hp; unfold take_post in Hp; destruct (fitting len evs) as [out rest]; destruct Hp as (_ & _ & _ & _ & Hjq & Hjw & _); rewrite inst_at_set, decide_True in Hjq, Hjw by done; by exists rest. }
  assert (inst_ok b j) as Hj by (split; unfold watch_at in *; rewrite ?Hjw, ?Hwj; try done; by exists rest).
  case_if; cbn [snd]; by apply set_inst_ok.
Qed.

(** ** Histories *)

(** The calls: paths are C strings, masks are 32 bits wide, and an instance
    is named by a handle that is in use. *)
Inductive ino_step : inotify H -> inotify H -> Prop :=
  | step_event path mask s : u32_range mask -> (forall p, path = Some p -> 0 ∉ p) -> ino_step s (inotify_vfs_event path mask s)
  | step_rename o n d s : (forall p, o = Some p -> 0 ∉ p) -> (forall p, n = Some p -> 0 ∉ p) -> ino_step s (inotify_vfs_rename o n d s)
  | step_create s : ino_step s (inotify_create s).2
  | step_release s h : handle s h -> ino_step s (inotify_release h s)
  | step_add s h p mask d : 0 ∉ p -> (h <> 0 -> handle s h) -> ino_step s (inotify_add h p mask d s).2
  | step_rm s h wd : (h <> 0 -> handle s h) -> ino_step s (inotify_rm h wd s).2
  | step_take s h len : 0 <= len -> (h <> 0 -> handle s h) -> ino_step s (inotify_take h len s).2.

Lemma ino_step_ok b s s' : ino_step s s' -> 1 <= b <= 2 ^ 31 -> ino_ok b s -> ino_ok (b + 1) s'.
Proof.
  intros Hst Hb Hok. assert (forall t, ino_ok b t -> ino_ok (b + 1) t) as Hmono by (intros t Ht; by apply (ino_ok_mono b); [lia|]).
  destruct Hst; try (by apply inotify_add_ok); apply Hmono.
  - by apply inotify_vfs_event_ok; [lia|..].
  - by apply inotify_vfs_rename_ok; [lia|..].
  - by apply inotify_create_ok; [lia|].
  - by apply inotify_release_ok.
  - by apply inotify_rm_ok; [lia|..].
  - by apply inotify_take_ok.
Qed.
Lemma inotify_boot_ok hp : heap_ok hp -> ino_ok 1 (inotify_boot hp).
Proof.
  intros Hh. assert (forall j, in_slots j -> zget (ino_all (inotify_boot hp)) j = 0) as Hz.
  { intros j Hj. cbn [ino_all inotify_boot]. unfold zget. apply lookup_total_replicate_2. unfold in_slots in Hj. lia. }
  split; try done.
  - intros j Hj. by rewrite Hz.
  - intros j k Hj _. by rewrite Hz.
Qed.

(** C28 Whatever calls are made to inotify, up to [2 ^ 31 - 1] of them, each
    instance in use is a live heap block of its own with a well-formed event
    queue (all offsets inside the buffer, at most one overflow marker), its
    watches have distinct positive descriptors and paths that fit their
    buffers, and [inotify_active] counts the instances. *)
Theorem inotify_sound hp n s : heap_ok hp -> nsteps ino_step n (inotify_boot hp) s -> Z.of_nat n < 2 ^ 31 ->
  inotify_active s = zcount (Z.to_nat INO_MAX_INST) (fun j => negb (zget (ino_all s) j =? 0)) /\
  forall j, in_slots j -> let h := zget (ino_all s) j in h <> 0 ->
    (forall k, in_slots k -> zget (ino_all s) k = h -> k = j) /\
    (exists m, INST_SIZE <= m /\ heap_live (ino_heap s) h m) /\
    (exists evs, queue_ok (inst_at s h) evs) /\
    (forall k k', 0 <= k < INO_MAX_WATCH -> 0 <= k' < INO_MAX_WATCH -> w_wd (watch_at (inst_at s h) k) <> 0 ->
      0 < w_wd (watch_at (inst_at s h) k) < 2 ^ 31 /\ path_ok (w_path (watch_at (inst_at s h) k)) /\
      (w_wd (watch_at (inst_at s h) k) = w_wd (watch_at (inst_at s h) k') -> k = k')).
Proof.
  intros Hh Hr Hn. assert (forall m (a c : inotify H) b, nsteps ino_step m a c -> 1 <= b -> b + Z.of_nat m <= 2 ^ 31 -> ino_ok b a -> ino_ok (b + Z.of_nat m) c) as Hrun.
  { induction m as [|m IH]; intros a c b Hs H1 Hb Ha; inversion Hs as [|? ? x ? Hst Hs']; subst; [by rewrite Z.add_0_r|].
    replace (b + Z.of_nat (S m)) with (b + 1 + Z.of_nat m) by lia. apply (IH x); [done | lia | lia|]. eapply ino_step_ok; [done | lia | done]. }
  specialize (Hrun n _ s 1 Hr ltac:(lia) ltac:(lia) (inotify_boot_ok hp Hh)). split; [exact (nk_active _ _ Hrun)|]. intros j Hj h Hn0.
  assert (handle s h) as Hhd by (split; [done | by exists j]). pose proof (handle_inst _ _ _ Hrun Hhd) as [K1 K2 K3 K4 K5].
  destruct (nk_inst _ _ Hrun j Hj Hn0) as (_ & m & _ & _ & Hm & Hlv). split_and!.
  - intros k Hk E. symmetry. by apply (nk_inj _ _ Hrun).
  - by exists m.
  - done.
  - intros k k' Hk Hk' Hw. destruct (K4 k Hk) as [? ?]. split; [lia|]. split; [done|]. by apply K5.
Qed.
End ops.
