(* ===== verification/InotifyPaths.v ===== *)
(** * The paths of watches are those of the virtual filesystem

    [ino_norm] of src/inotify.c against [vfs_resolve] of src/vfs.c. *)
From stdpp Require Import gmap.
From S2P Require Import Prelude Paths Heap Vfs VfsMount VfsResolve Inotify InotifyOps.
#[local] Open Scope Z_scope.

(** Resolving [.] and [..] by the text alone. *)
Fixpoint lexical (dir cs : list cstr) : list cstr :=
  match cs with
  | [] => dir
  | c :: cs => lexical (if bytes_eqb c [46] then dir else if bytes_eqb c [46; 46] then removelast dir else dir ++ [c]) cs
  end.

Lemma walk_lexical fl dir cs ts n r : walk (fun _ => None) fl dir cs ts n r -> r = lexical dir cs.
Proof.
  assert (forall c, proper c -> bytes_eqb c [46] = false /\ bytes_eqb c [46; 46] = false) as Hp.
  { intros c (_ & H1 & H2 & _). unfold bytes_eqb. by rewrite !bool_decide_eq_false. }
  induction 1 as [| | |dir c Hc _|dir c cs ts n r Hc _ _ _ IH|]; cbn; try done; destruct (Hp _ Hc) as [-> ->]; done.
Qed.

(** ** Appending and removing a component *)

Lemma render_root_snoc ns w : render_root (ns ++ [w]) = render ns ++ 47 :: w.
Proof. unfold render_root. rewrite bool_decide_false by (by destruct ns). apply render_snoc. Qed.
Lemma render_long ns : Forall proper ns -> ns <> [] -> 1 < zlen (render ns).
Proof.
  destruct ns as [|w ns]; [done|]. intros [Hw _]%Forall_cons_1 _. change (render (w :: ns)) with (47 :: w ++ render ns). rewrite zlen_cons, zlen_app.
  pose proof (zlen_nonneg (render ns)). destruct Hw as (Hw & _). destruct w; [done|]. rewrite zlen_cons. pose proof (zlen_nonneg w). lia.
Qed.

Lemma norm_add_render ns (part : cstr) : Forall proper ns -> zlen (render_root ns) + zlen part + 2 < INO_PATH ->
  norm_add (render_root ns) part = render_root (ns ++ [part]).
Proof.
  intros Hns Hl. unfold norm_add. rewrite (proj2 (Z.ltb_lt _ _)) by lia. rewrite render_root_snoc. unfold render_root.
  case_bool_decide as E; [by subst ns|]. rewrite (proj2 (Z.ltb_lt 1 _)) by (by apply render_long). by rewrite <- app_assoc.
Qed.

Lemma norm_back_slash (p w : cstr) : w <> [] -> 47 ∉ w -> norm_back (length p + length w) (p ++ 47 :: w) = zlen p + 1.
Proof.
  intros Hw H47. assert (forall k, (1 <= k <= length w)%nat -> norm_back (length p + k) (p ++ 47 :: w) = zlen p + 1) as Hk.
  { induction k as [|k IH]; intros Hl; [lia|]. rewrite Nat.add_succ_r. destruct (length p + k)%nat as [|l] eqn:El.
    - assert (length p = 0%nat) by lia. cbn. unfold zlen. lia.
    - assert (norm_back (S (S l)) (p ++ 47 :: w) = if zget (p ++ 47 :: w) (Z.of_nat (S l)) =? 47 then Z.of_nat (S (S l)) else norm_back (S l) (p ++ 47 :: w)) as -> by done.
      destruct (decide (k = 0%nat)) as [->|Hk0].
      + rewrite Nat.add_0_r in El. unfold zget. rewrite Nat2Z.id, lookup_total_app_r by lia. replace (S l - length p)%nat with 0%nat by lia. cbn. unfold zlen. lia.
      + assert (zget (p ++ 47 :: w) (Z.of_nat (S l)) ∈ w) as Hin.
        { unfold zget. rewrite Nat2Z.id, lookup_total_app_r by lia. replace (S l - length p)%nat with (S (k - 1)) by lia. cbn. apply list_elem_of_lookup_total_2. lia. }
        destruct (Z.eqb_spec (zget (p ++ 47 :: w) (Z.of_nat (S l))) 47) as [E|_]; [rewrite E in Hin; done|]. apply IH. lia. }
  apply Hk. destruct w; [done|]. cbn. lia.
Qed.
Lemma norm_up_render ns : Forall proper ns -> norm_up (render_root ns) = render_root (removelast ns).
Proof.
  destruct ns as [|w ns _] using rev_ind; [done|]. intros [Hns Hw]%Forall_app. apply Forall_cons_1 in Hw as [(Hw & _ & _ & H47) _].
  rewrite render_root_snoc, removelast_last. unfold norm_up. assert (zlen (render ns ++ 47 :: w) = zlen (render ns) + 1 + zlen w) as Hl by (rewrite zlen_app, zlen_cons; lia).
  assert (0 < zlen w) by (destruct w; [done|]; rewrite zlen_cons; pose proof (zlen_nonneg w); lia). pose proof (zlen_nonneg (render ns)).
  rewrite (proj2 (Z.ltb_lt 1 _)) by lia. rewrite Hl. replace (Z.to_nat (zlen (render ns) + 1 + zlen w - 1)) with (length (render ns) + length w)%nat by (unfold zlen; lia).
  rewrite norm_back_slash by done. cbn zeta. unfold render_root. case_bool_decide as E.
  - subst ns. done.
  - rewrite (proj2 (Z.ltb_lt 1 _)) by (pose proof (render_long ns Hns E); lia). replace (zlen (render ns) + 1 - 1) with (zlen (render ns)) by lia. apply ztake_app_len.
Qed.

(** ** The whole path *)

Lemma norm_loop_lexical : forall fuel (s : cstr) ns, (length s < fuel)%nat -> Forall proper ns -> zlen (render_root ns) + zlen s + 2 < INO_PATH ->
  ns = [] \/ match s with [] => True | c :: _ => c = 47 end ->
  norm_loop fuel s (render_root ns) = render_root (lexical ns (path_names s)) /\ Forall proper (lexical ns (path_names s)).
Proof.
  induction fuel as [|fuel IH]; intros s ns Hf Hns Hl Hh; [lia|]. cbn [norm_loop]. case_bool_decide as Hsk.
  { by rewrite (proj2 (path_names_nil_skip s) Hsk). }
  destruct (component (skip_slashes s)) as [part e] eqn:Ec. destruct (component_skip _ _ _ Hsk Ec) as (Hp & Hp47 & He & Hlen & -> & _).
  destruct (component_app _ _ _ Ec) as (Es & _ & _). destruct (skip_slashes_app s) as [k Ek]. rewrite Es in Ek.
  assert (zlen s = Z.of_nat k + zlen part + zlen e) as Hsl by (rewrite Ek, !zlen_app; unfold zlen; rewrite length_replicate; lia).
  cbn [lexical]. destruct (bytes_eqb part [46]) eqn:E1; [|destruct (bytes_eqb part [46; 46]) eqn:E2].
  - apply IH; [unfold zlen in *; lia | done | pose proof (zlen_nonneg part); lia | by right].
  - rewrite norm_up_render by done. apply IH; [unfold zlen in *; lia | by apply proper_removelast | | by right].
    assert (zlen (render_root (removelast ns)) <= zlen (render_root ns)); [|pose proof (zlen_nonneg part); lia].
    rewrite <- norm_up_render by done. unfold norm_up. case_if; [|lia]. unfold zlen, ztake. rewrite length_take. lia.
  - apply bool_decide_eq_false in E1, E2. pose proof (zlen_nonneg e). rewrite norm_add_render by (done || lia). apply IH.
    + unfold zlen in *. lia.
    + apply Forall_app. split; [done|]. by apply Forall_singleton.
    + rewrite render_root_snoc, zlen_app, zlen_cons. unfold render_root in Hl. case_bool_decide as En.
      * subst ns. change (zlen [47]) with 1 in Hl. change (zlen (render [])) with 0. lia.
      * destruct Hh as [|Hh]; [done|]. assert (1 <= Z.of_nat k); [|lia]. destruct k; [|lia]. exfalso. cbn in Ek. rewrite Ek in Hh.
        destruct part as [|c part]; [done|]. cbn in Hh. subst c. apply Hp47. left.
    + by right.
Qed.

Lemma ino_norm_lexical (p : cstr) : zlen p + 3 < INO_PATH -> ino_norm p = render_root (lexical [] (path_names p)).
Proof.
  intros Hl. unfold ino_norm. destruct (norm_loop_lexical (S (length p)) p []) as [E Hpr]; [lia | constructor | change (zlen (render_root [])) with 1; lia | by left|].
  change (render_root []) with [47] in E. rewrite E. set (r := lexical [] (path_names p)) in *. clearbody r.
  destruct r as [|w ns _] using rev_ind; [done|]. apply Forall_app in Hpr as [_ Hw]. apply Forall_cons_1 in Hw as [(Hw & _ & _ & H47) _].
  rewrite render_root_snoc. destruct (zget _ _ =? 47) eqn:Ez; [|by rewrite andb_false_r]. exfalso. apply Z.eqb_eq in Ez. apply H47. rewrite <- Ez.
  destruct w as [|c w]; [done|]. rewrite zget_app_r by (rewrite zlen_app, zlen_cons; pose proof (zlen_nonneg (c :: w)); lia).
  rewrite zlen_app, zlen_cons. replace (zlen (render ns) + (zlen (c :: w) + 1) - 1 - zlen (render ns)) with (Z.of_nat (S (length w))) by (rewrite zlen_cons; unfold zlen; lia).
  unfold zget. rewrite Nat2Z.id. cbn [lookup_total list_lookup_total]. change (c :: w) with (c :: w). apply (list_elem_of_lookup_total_2 (c :: w) (length w)). cbn. lia.
Qed.

Section agree.
Context {W : Type} `{!KHeap W}.
Context (ops_of : fskind -> vfs_fs_ops W).

(** Where no symbolic link is in the way, a path of at most 252 bytes that
    [vfs_resolve] resolves is watched under exactly the path it resolves to:
    the normalisations of src/inotify.c and src/vfs.c agree. *)
Theorem ino_norm_agrees Inv (p : cstr) (outsz : Z) (follow_last : bool) (s : vfs (W := W)) (out : cstr) :
  links_as ops_of (fun _ => None) Inv -> Inv s -> zlen p + 3 < INO_PATH ->
  (vfs_resolve ops_of (Some p) outsz follow_last s).1 = Some (0, out) -> ino_norm p = out.
Proof.
  intros Hla Hs Hl E. destruct (vfs_resolve_post ops_of _ _ p outsz follow_last s Hla Hs) as [Hok _].
  destruct (Hok out E) as (n & ns & _ & Hw & ->). apply walk_lexical in Hw. subst ns. by apply ino_norm_lexical.
Qed.
End agree.

(** One round on a component. *)
Lemma norm_loop_step fuel (part e out : cstr) : proper part -> match e with [] => True | c :: _ => c = 47 end ->
  norm_loop (S fuel) (47 :: part ++ e) out = norm_loop fuel e (norm_add out part).
Proof.
  intros (Hne & H1 & H2 & H47) He. cbn [norm_loop]. assert (skip_slashes (47 :: part ++ e) = part ++ e) as ->.
  { destruct part as [|c part]; [done|]. change (skip_slashes ((c :: part) ++ e) = (c :: part) ++ e). apply skip_slashes_ne. intros ->. apply H47. left. }
  rewrite bool_decide_false by (by destruct part). assert (component (part ++ e) = (part, e)) as ->.
  { clear -H47 He. induction part as [|c part IH]; cbn; [destruct e as [|c e]; [done|]; subst c; done|]. apply not_elem_of_cons in H47 as [Hc H47].
    rewrite (proj2 (Z.eqb_neq c 47)) by done. by rewrite IH. }
  unfold bytes_eqb. by rewrite !bool_decide_false.
Qed.

(** A component that does not fit the buffer is left out of the path and
    the components after it are kept: what happens to [/name/x], with a name
    of 253 bytes or more, is reported as if it happened to [/x]. *)
Theorem ino_norm_drops_component (w x : cstr) : proper w -> proper x -> INO_PATH <= zlen w + 3 -> zlen x + 3 < INO_PATH ->
  ino_norm (47 :: w ++ 47 :: x) = 47 :: x.
Proof.
  intros Hw Hx Hlw Hlx. unfold ino_norm.
  assert (norm_loop (S (length (47 :: w ++ 47 :: x))) (47 :: w ++ 47 :: x) [47] = 47 :: x) as ->.
  { rewrite norm_loop_step by done. assert (norm_add [47] w = [47]) as -> by (unfold norm_add; change (zlen [47]) with 1; by rewrite (proj2 (Z.ltb_ge _ _)) by lia).
    cbn [length]. pose proof (norm_loop_step (length (w ++ 47 :: x)) x [] [47] Hx I) as E. rewrite app_nil_r in E. rewrite E.
    assert (norm_add [47] x = 47 :: x) as -> by (unfold norm_add; change (zlen [47]) with 1; by rewrite (proj2 (Z.ltb_lt _ _)) by lia).
    by destruct (length (w ++ 47 :: x)). }
  destruct (zget (47 :: x) (zlen (47 :: x) - 1) =? 47) eqn:Ez; [|by rewrite andb_false_r]. exfalso. apply Z.eqb_eq in Ez. destruct Hx as (Hne & _ & _ & H47).
  apply H47. rewrite <- Ez. rewrite zlen_cons. destruct x as [|c x]; [done|]. replace (zlen (c :: x) + 1 - 1) with (Z.of_nat (S (length x))) by (rewrite zlen_cons; unfold zlen; lia).
  unfold zget. rewrite Nat2Z.id. apply (list_elem_of_lookup_total_2 (c :: x) (length x)). cbn. lia.
Qed.
