(* ===== verification/InotifyDemo.v ===== *)
(** * Concrete inotify instances

    The theorems on src/inotify.c at concrete states. *)
From stdpp Require Import gmap.
From S2P Require Import Prelude Paths Heap Pmm PmmInit Slab HeapTrace Vfs VfsMount VfsResolve VfsDemo Inotify InotifyQueue InotifyOps InotifyPaths.
#[local] Open Scope Z_scope.

Definition demo_event : event := mk_event 1 IN_MODIFY 0 (bytes_of "file").
Lemma demo_event_ok : event_ok demo_event.
Proof. repeat split; try (by vm_compute). by apply (bool_decide_unpack _). Qed.
Definition demo_pushed : ino_inst := (ino_push fresh_inst 1 IN_MODIFY 0 (Some (bytes_of "file"))).1.


Definition demo_inotify : inotify kmem := set_inst 4096 demo_pushed (inotify_boot (kmem_boot striped)).
Lemma inotify_take_exact_witness :
  (inotify_take 4096 100 demo_inotify).1.1 = 32 /\ read_events (length (inotify_take 4096 100 demo_inotify).1.2) (inotify_take 4096 100 demo_inotify).1.2 = [demo_event].
Proof.
  assert (queue_ok demo_pushed [demo_event]) as Hq.
  { destruct (ino_push_post fresh_inst [] demo_event (Some (bytes_of "file")) demo_pushed (ino_push fresh_inst 1 IN_MODIFY 0 (Some (bytes_of "file"))).2
      fresh_queue_ok demo_event_ok ltac:(by vm_compute) eq_refl (surjective_pairing _)) as (_ & evs & Hq & Hcase).
    destruct Hcase as [(_ & _ & E)|[(_ & -> & _)|[(_ & _ & _ & Hr & _)|(_ & _ & _ & Hr & _)]]]; [discriminate E | exact Hq | exfalso; apply Hr; by vm_compute..]. }
  pose proof (inotify_take_exact demo_inotify 4096 100 [demo_event] ltac:(done) ltac:(done) Hq) as Ht.
  destruct (inotify_take 4096 100 demo_inotify) as [[r bytes] s']. destruct Ht as (_ & _ & Hrd & Hr & _). split; [exact Hr | exact Hrd].
Defined.

(** Sixteen bytes are queued and everything before them was read. *)
Definition old_event : event := mk_event 1 IN_OPEN 0 [].
Definition new_event : event := mk_event 1 IN_MODIFY 0 [].
Definition demo_late : ino_inst :=
  mk_inst 2 0 16352 16368 16352 true false (watches zero_inst) (replicate (Z.to_nat 16352) 0 ++ encs [old_event] ++ replicate 16 0).
Lemma plain_event_ok m : u32_range m -> event_ok (mk_event 1 m 0 []).
Proof. intros Hm. split; [done|]. split; [exact Hm|]. split; [done|]. split; [apply not_elem_of_nil | done]. Qed.
Lemma demo_late_ok : queue_ok demo_late [old_event].
Proof.
  split; [split|]; cbn [demo_late qhead qtail qlast q has_last overflowed].
  - exists (replicate (Z.to_nat 16352) 0), (replicate 16 0). split; [done|]. split; [unfold zlen; by rewrite length_replicate | done].
  - rewrite !zlen_app. unfold zlen. by rewrite !length_replicate.
  - constructor; [by apply plain_event_ok | constructor].
  - intros _. by exists [], old_event.
  - done.
  - done.
  - left. by vm_compute.
Qed.
Lemma ino_push_spurious_overflow_witness : queue_ok (ino_push demo_late 1 IN_MODIFY 0 (Some [])).1 [old_event; overflow].
Proof.
  apply (ino_push_spurious_overflow demo_late [old_event] new_event _ (ino_push demo_late 1 IN_MODIFY 0 (Some [])).2 demo_late_ok);
    [by apply plain_event_ok | by vm_compute | done | done | by vm_compute | by vm_compute | apply surjective_pairing].
Defined.

(** A heap of sixty-four free pages. *)
Definition wide : pmm := mk_pmm 64 0x1000 0xFFFF800000000000 64 (replicate 8 0) 0 64 (replicate 64 0).
Lemma wide_ok : heap_ok (kmem_boot wide).
Proof.
  assert (forall i, 0 <= i < 64 -> entry wide i = 0) as Hz by (intros i Hi; apply (lookup_total_replicate_2 64); lia).
  apply kmem_boot_ok; [|done]. apply fresh_pmm_ok; done.
Qed.
Definition demo_one : inotify kmem := (inotify_create (inotify_boot (kmem_boot wide))).2.
Lemma inotify_sound_witness : inotify_active demo_one = 1 /\ exists evs, queue_ok (inst_at demo_one (zget (ino_all demo_one) 0)) evs.
Proof.
  destruct (inotify_sound (kmem_boot wide) 1 demo_one wide_ok) as [_ Hs]; [apply nsteps_once, step_create | done|].
  split; [vm_compute; reflexivity|]. destruct (Hs 0 ltac:(by split) ltac:(by vm_compute)) as (_ & _ & Hq & _). exact Hq.
Defined.

(** A filesystem without links. *)
#[local] Existing Instance bump_heap.
Lemma no_links : links_as (fun _ => no_ops) (fun _ => None) (fun _ => True).
Proof.
  split; [|done|done]. intros s ns _ _ _. unfold read_link, mbind, st_bind, gets. destruct (vfs_find_mount _ s) as [[slot rel]|]; [|done].
  unfold fs_op. by destruct (fs_ops (fs_at s slot)).
Qed.
Lemma ino_norm_agrees_witness : ino_norm (bytes_of "/a/../b/./c/") = bytes_of "/b/c".
Proof.
  apply (ino_norm_agrees (fun _ => no_ops) (fun _ => True) (bytes_of "/a/../b/./c/") 1024 true demo_vfs (bytes_of "/b/c") no_links I).
  - by vm_compute.
  - vm_compute. reflexivity.
Defined.

Lemma ino_norm_drops_component_witness : ino_norm (47 :: replicate 253 97 ++ 47 :: [120]) = bytes_of "/x".
Proof.
  apply (ino_norm_drops_component (replicate 253 97) [120]); [split_and!; try done; by intros [? _]%elem_of_replicate | | by vm_compute | by vm_compute].
  split_and!; try done. by intros ?%list_elem_of_singleton.
Defined.
