(* ===== verification/ExecCache.v ===== *)
(** * The exec image cache: state and operations

    src/exec_cache.c keeps whole-file copies of recently executed programs.
    Loads run concurrently with each other and with the hooks by which the
    virtual filesystem invalidates paths, so the code is modelled as programs
    of atomic steps over a shared state: a step is one critical section of
    [exc_lock], one call of the virtual filesystem, or one call of the heap.
    [sys_step] interleaves any number of programs.  A log records what the
    steps did, for the statements about whole executions. *)
From stdpp Require Import gmap.
From S2P Require Import Prelude Paths Heap Vfs.
#[local] Open Scope Z_scope.

(** ** Programs of atomic steps *)

Inductive prog (S A : Type) : Type :=
  | Ret (a : A)
  | Atomic {B : Type} (f : S -> B * S) (k : B -> prog S A).
Arguments Ret {S A}.
Arguments Atomic {S A B}.

Fixpoint pbind {S A B : Type} (m : prog S A) (g : A -> prog S B) : prog S B :=
  match m with
  | Ret a => g a
  | Atomic f k => Atomic f (fun b => pbind (k b) g)
  end.
Declare Scope prog_scope.
Delimit Scope prog_scope with prog.
Notation "x <- m ;; k" := (pbind m (fun x => k)) (at level 100, m at next level, right associativity) : prog_scope.
#[local] Open Scope prog_scope.

(** A program on its own. *)
Fixpoint prun {S A : Type} (m : prog S A) (s : S) : A * S :=
  match m with
  | Ret a => (a, s)
  | Atomic f k => let '(b, s) := f s in prun (k b) s
  end.

(** Any thread may make the next step. *)
Inductive sys_step {S A : Type} : S * list (prog S A) -> S * list (prog S A) -> Prop :=
  | sys_step_thread s pool t B (f : S -> B * S) k :
      pool !! t = Some (Atomic f k) -> sys_step (s, pool) ((f s).2, <[t := k (f s).1]> pool).

(** The same with the order given; a thread that has finished does nothing. *)
Fixpoint sys_run {S A : Type} (schedule : list nat) (c : S * list (prog S A)) : S * list (prog S A) :=
  match schedule with
  | [] => c
  | t :: schedule =>
      sys_run schedule match c.2 !! t with
                       | Some (Atomic f k) => ((f c.1).2, <[t := k (f c.1).1]> c.2)
                       | _ => c
                       end
  end.

(** ** State *)

Definition EXC_SLOTS : Z := 8.
Definition EXC_PATH : Z := 256.
Definition EXC_MAX_TOTAL : Z := 16 * 2 ^ 20.
Definition EXC_MAX_FILE : Z := 8 * 2 ^ 20.
Definition EXC_LOADING : Z := 4.
(** [sizeof(exc_entry_t)]. *)
Definition ENTRY_SIZE : Z := 312.

(** [data] is the address of the image, [image] its bytes. *)
Record exc_entry := mk_entry {
  refs : Z;
  dead : bool;
  e_path : cstr;
  e_size : Z;
  e_mtime : Z;
  e_ino : Z;
  have_ino : bool;
  lru : Z;
  data : Z;
  image : list Z;
}.
Record exc_loading := mk_loading { used : bool; dirty : bool; ld_path : cstr }.
Record exc_id := mk_id { id_size : Z; id_mtime : Z; id_ino : Z; id_have_ino : bool; id_nlink : Z }.

Definition zero_entry : exc_entry := mk_entry 0 false [] 0 0 0 false 0 0 [].
#[global] Instance entry_inhabited : Inhabited exc_entry := populate zero_entry.
#[global] Instance loading_inhabited : Inhabited exc_loading := populate (mk_loading false false []).

(** What the cache uses of the virtual filesystem; [x_ok] is its invariant. *)
Class ExecFiles (V : Type) := {
  x_ok : V -> Prop;
  x_resolve : cstr -> V -> Z * cstr * V;
  x_open : cstr -> Z -> V -> Z * V;
  x_seek : Z -> Z -> Z -> V -> Z * V;
  x_stat : cstr -> V -> Z * stat * V;
  x_times : cstr -> V -> Z * Z * V;
  x_read : Z -> Z -> V -> Z * list Z * V;
  x_close : Z -> V -> Z * V;
}.

(** The calls keep the invariant, and a read returns no more bytes than were
    asked for. *)
Class ExecFilesLaws (V : Type) `{!ExecFiles V} := {
  x_resolve_ok p v : x_ok v -> x_ok (x_resolve p v).2;
  x_open_ok p v : x_ok v -> x_ok (x_open p VFS_O_READ v).2;
  x_seek_ok fd off whence v : x_ok v -> x_ok (x_seek fd off whence v).2;
  x_stat_ok p v : x_ok v -> x_ok (x_stat p v).2;
  x_times_ok p v : x_ok v -> x_ok (x_times p v).2;
  x_read_ok fd n v : x_ok v -> x_ok (x_read fd n v).2;
  x_close_ok fd v : x_ok v -> x_ok (x_close fd v).2;
  x_read_bounded fd n v : x_ok v -> 0 <= n -> (x_read fd n v).1.1 <= n /\ (x_read fd n v).1.1 <= zlen (x_read fd n v).1.2;
}.

(** What happened: memory taken, used and given back; a load registered, a
    piece of file read, an image inserted or found; an invalidation, with the
    caller's path; everything invalidated. *)
Inductive xevent :=
  | XAlloc (p n : Z)
  | XUse (p n : Z)
  | XFree (p : Z)
  | XReg (t : nat) (key : cstr)
  | XRead (t : nat) (bytes : list Z)
  | XInsert (t : nat) (key : cstr)
  | XHit (t : nat) (key : cstr) (bytes : list Z)
  | XInval (path : cstr) (tree : bool)
  | XInvalAll.

(** ** Names *)

Definition exc_lower (c : Z) : Z := if (65 <=? c) && (c <=? 90) then c + 32 else c.

(** [prev] is the byte of [pre] before the current one. *)
Fixpoint exc_match_from (prev : option Z) (a pre : cstr) (tree : bool) : bool :=
  match pre, a with
  | [], [] => true
  | [], c :: _ => tree && ((c =? 47) || bool_decide (prev = Some 47))
  | p :: pre, c :: a => if exc_lower c =? exc_lower p then exc_match_from (Some p) a pre tree else false
  | _ :: _, [] => false
  end.
Definition exc_match (a pre : cstr) (tree : bool) : bool := exc_match_from None a pre tree.

Fixpoint exc_norm_loop (fuel : nat) (s out : cstr) (cap : Z) : option cstr :=
  match fuel with
  | O => Some out
  | S fuel =>
      let s := skip_slashes s in
      if bool_decide (s = []) then Some out
      else
        let '(part, e) := component s in
        if bytes_eqb part [46] then exc_norm_loop fuel e out cap
        else if bytes_eqb part [46; 46] then exc_norm_loop fuel e (drop_last out) cap
        else if cap <? zlen out + 1 + zlen part + 1 then None
        else exc_norm_loop fuel e (out ++ 47 :: part) cap
  end.
Definition exc_norm (path : cstr) (cap : Z) : option cstr :=
  if negb (bool_decide (head path = Some 47)) then None
  else (fun out => if bool_decide (out = []) then [47] else out) <$> exc_norm_loop (S (length path)) path [] cap.

Section exec_cache.
Context {H V : Type} `{!KHeap H, !ExecFiles V} (total_memory_bytes : Z).

Record shared := mk_shared {
  exc : list Z;
  entries : gmap Z exc_entry;
  exc_ld : list exc_loading;
  exc_total : Z;
  exc_tick : Z;
  exc_hits : Z;
  exc_misses : Z;
  exc_active : Z;
  sh_files : V;
  sh_heap : H;
  sh_log : list xevent;
}.
Implicit Types (s : shared) (p i : Z) (t : nat).

Definition exc_boot (v : V) (h : H) : shared :=
  mk_shared (replicate (Z.to_nat EXC_SLOTS) 0) ∅ (replicate (Z.to_nat EXC_LOADING) (mk_loading false false [])) 0 0 0 0 0 v h [].

Definition set_exc l s := mk_shared l (entries s) (exc_ld s) (exc_total s) (exc_tick s) (exc_hits s) (exc_misses s) (exc_active s) (sh_files s) (sh_heap s) (sh_log s).
Definition set_entries m s := mk_shared (exc s) m (exc_ld s) (exc_total s) (exc_tick s) (exc_hits s) (exc_misses s) (exc_active s) (sh_files s) (sh_heap s) (sh_log s).
Definition set_ld l s := mk_shared (exc s) (entries s) l (exc_total s) (exc_tick s) (exc_hits s) (exc_misses s) (exc_active s) (sh_files s) (sh_heap s) (sh_log s).
Definition set_total n s := mk_shared (exc s) (entries s) (exc_ld s) n (exc_tick s) (exc_hits s) (exc_misses s) (exc_active s) (sh_files s) (sh_heap s) (sh_log s).
Definition set_counts tick hits misses s := mk_shared (exc s) (entries s) (exc_ld s) (exc_total s) tick hits misses (exc_active s) (sh_files s) (sh_heap s) (sh_log s).
Definition set_active n s := mk_shared (exc s) (entries s) (exc_ld s) (exc_total s) (exc_tick s) (exc_hits s) (exc_misses s) n (sh_files s) (sh_heap s) (sh_log s).
Definition set_vfs v s := mk_shared (exc s) (entries s) (exc_ld s) (exc_total s) (exc_tick s) (exc_hits s) (exc_misses s) (exc_active s) v (sh_heap s) (sh_log s).
Definition set_heap h s := mk_shared (exc s) (entries s) (exc_ld s) (exc_total s) (exc_tick s) (exc_hits s) (exc_misses s) (exc_active s) (sh_files s) h (sh_log s).
Definition put_log (e : xevent) s := mk_shared (exc s) (entries s) (exc_ld s) (exc_total s) (exc_tick s) (exc_hits s) (exc_misses s) (exc_active s) (sh_files s) (sh_heap s) (sh_log s ++ [e]).

Definition slot s i : Z := zget (exc s) i.
Definition entry s p : exc_entry := default zero_entry (entries s !! p).
Definition loading s i : exc_loading := zget (exc_ld s) i.
Definition set_slot i p s : shared := set_exc (zset (exc s) i p) s.
Definition set_entry p (e : exc_entry) s : shared := set_entries (<[p := e]> (entries s)) s.
Definition set_loading i (l : exc_loading) s : shared := set_ld (zset (exc_ld s) i l) s.

(** The heap. *)
Definition take_block (n : Z) s : Z * shared :=
  let '(p, h) := hp_kalloc n (sh_heap s) in
  (p, if p =? 0 then set_heap h s else put_log (XAlloc p n) (set_heap h s)).
Definition give_block p s : shared := put_log (XFree p) (set_heap (hp_kfree p (sh_heap s)) s).

(** [kfree(e->data); kfree(e)]. *)
Definition exc_free p s : shared :=
  let d := data (entry s p) in
  let s := give_block p (give_block d (put_log (XUse p ENTRY_SIZE) s)) in
  set_entries (delete p (entries s)) s.

(** ** Under the lock *)

Definition exc_budget : Z := Z.min (total_memory_bytes / 32) EXC_MAX_TOTAL.

Definition exc_recount s : shared :=
  set_active (u32 (zcount (Z.to_nat EXC_SLOTS) (fun i => negb (slot s i =? 0)) +
                   zcount (Z.to_nat EXC_LOADING) (fun i => used (loading s i)))) s.

Definition set_dead (e : exc_entry) : exc_entry :=
  mk_entry (refs e) true (e_path e) (e_size e) (e_mtime e) (e_ino e) (have_ino e) (lru e) (data e) (image e).
Definition set_refs (n : Z) (e : exc_entry) : exc_entry :=
  mk_entry n (dead e) (e_path e) (e_size e) (e_mtime e) (e_ino e) (have_ino e) (lru e) (data e) (image e).
Definition set_lru (n : Z) (e : exc_entry) : exc_entry :=
  mk_entry (refs e) (dead e) (e_path e) (e_size e) (e_mtime e) (e_ino e) (have_ino e) n (data e) (image e).

Definition exc_drop_locked i s : shared :=
  let p := slot s i in
  if p =? 0 then s
  else
    let e := entry s p in
    let s := set_total (exc_total s -64 e_size e) (set_slot i 0 s) in
    if refs e =? 0 then exc_free p s
    else set_entry p (set_dead e) (put_log (XUse p ENTRY_SIZE) s).

(** [exc\[i\] && f(exc\[i\])]. *)
Definition slot_is (f : exc_entry -> bool) s i : bool := negb (slot s i =? 0) && f (entry s (slot s i)).

Definition drop_where (f : exc_entry -> bool) s : shared :=
  zfor (Z.to_nat EXC_SLOTS) 0 (fun i s => if slot_is f s i then exc_drop_locked i s else s) s.
Definition dirty_where (f : exc_loading -> bool) s : shared :=
  zfor (Z.to_nat EXC_LOADING) 0
    (fun i s => if used (loading s i) && f (loading s i) then set_loading i (mk_loading true true (ld_path (loading s i))) s else s) s.

Definition exc_invalidate_locked (norm : cstr) (tree : bool) s : shared :=
  exc_recount (dirty_where (fun l => exc_match (ld_path l) norm tree) (drop_where (fun e => exc_match (e_path e) norm tree) s)).

(** Every slot is dropped and every load marked. *)
Definition exc_drop_all s : shared :=
  exc_recount (dirty_where (fun _ => true) (zfor (Z.to_nat EXC_SLOTS) 0 exc_drop_locked s)).

Definition exc_same (e : exc_entry) (id : exc_id) : bool :=
  (e_size e =? id_size id) && (e_mtime e =? id_mtime id) && Bool.eqb (have_ino e) (id_have_ino id) &&
  (negb (id_have_ino id) || (e_ino e =? id_ino id)).

(** The critical section that looks for the key; the entry found, or 0. *)
Definition exc_lookup t (key : cstr) (id : exc_id) s : Z * shared :=
  match zfind (Z.to_nat EXC_SLOTS) 0 (slot_is (fun e => bytes_eqb (e_path e) key) s) with
  | None => (0, exc_recount s)
  | Some i =>
      let p := slot s i in
      let e := entry s p in
      if exc_same e id then
        let tick := u64 (exc_tick s + 1) in
        let s := put_log (XHit t key (image e)) (put_log (XUse p ENTRY_SIZE) s) in
        (p, exc_recount (set_counts tick (u64 (exc_hits s + 1)) (exc_misses s)
                           (set_entry p (set_lru tick (set_refs (u32 (refs e + 1)) e)) s)))
      else (0, exc_recount (exc_drop_locked i s))
  end.

(** The critical section that registers a load; its index, or -1. *)
Definition exc_register t (key : cstr) s : Z * shared :=
  let s := set_counts (exc_tick s) (exc_hits s) (u64 (exc_misses s + 1)) s in
  match zfind (Z.to_nat EXC_LOADING) 0 (fun i => negb (used (loading s i))) with
  | None => (-1, exc_recount s)
  | Some i => (i, exc_recount (put_log (XReg t key) (set_loading i (mk_loading true false key) s)))
  end.
Definition exc_unregister i s : shared :=
  exc_recount (set_loading i (mk_loading false (dirty (loading s i)) (ld_path (loading s i))) s).

(** The slot with the smallest [lru]; -1 if all are empty. *)
Definition exc_oldest s : Z :=
  zfor (Z.to_nat EXC_SLOTS) 0
    (fun i v => if negb (slot s i =? 0) && ((v <? 0) || (lru (entry s (slot s i)) <? lru (entry s (slot s v)))) then i else v) (-1).

(** [while (exc_total + size > budget)]: each round empties a slot, so
    [EXC_SLOTS + 1] rounds are enough. *)
Fixpoint exc_evict (fuel : nat) (size : Z) s : shared :=
  match fuel with
  | O => s
  | S fuel =>
      if negb (exc_budget <? u64 (exc_total s + size)) then s
      else
        let v := exc_oldest s in
        if v <? 0 then s else exc_evict fuel size (exc_drop_locked v s)
  end.

(** A free slot, made by dropping the oldest entry if need be. *)
Definition exc_slot s : Z * shared :=
  match zfind (Z.to_nat EXC_SLOTS) 0 (fun i => slot s i =? 0) with
  | Some i => (i, s)
  | None =>
      let v := zfor (Z.to_nat (EXC_SLOTS - 1)) 1
                 (fun i v => if lru (entry s (slot s i)) <? lru (entry s (slot s v)) then i else v) 0 in
      (v, exc_drop_locked v s)
  end.

(** The critical section that inserts the image in block [keep] as the entry in
    block [ent]; the blocks that are left to free. *)
Definition exc_insert t ld (key : cstr) (id : exc_id) (keep ent : Z) (bytes : list Z) s : Z * Z * shared :=
  let ok := negb (keep =? 0) && negb (dirty (loading s ld)) in
  let s := set_loading ld (mk_loading false (dirty (loading s ld)) (ld_path (loading s ld))) s in
  if ok then
    let s := drop_where (fun e => bytes_eqb (e_path e) key) s in
    let s := exc_evict (S (Z.to_nat EXC_SLOTS)) (id_size id) s in
    let '(i, s) := exc_slot s in
    if (u64 (exc_total s + id_size id) <=? exc_budget) && negb (ent =? 0) then
      let tick := u64 (exc_tick s + 1) in
      let e := mk_entry 0 false key (id_size id) (id_mtime id) (id_ino id) (id_have_ino id) tick keep bytes in
      let s := put_log (XInsert t key) (put_log (XUse ent ENTRY_SIZE) s) in
      let s := set_entry ent e (set_slot i ent s) in
      let s := set_counts tick (exc_hits s) (exc_misses s) (set_total (u64 (exc_total s + id_size id)) s) in
      (0, 0, exc_recount s)
    else (keep, ent, exc_recount s)
  else (keep, ent, exc_recount s).

(** ** The functions *)

Definition act {B : Type} (f : shared -> B * shared) : prog shared B := Atomic f Ret.
Definition act_ (f : shared -> shared) : prog shared unit := act (fun s => (tt, f s)).
Definition vfs_call {B : Type} (f : V -> B * V) : prog shared B :=
  act (fun s => let '(b, v) := f (sh_files s) in (b, set_vfs v s)).
Definition kalloc_x (n : Z) : prog shared Z := act (take_block n).
Definition kfree_x p : prog shared unit := act_ (give_block p).

(** The hooks read [exc_active] without the lock; what they skip is logged all
    the same. *)
Definition exc_invalidate_common (path : option cstr) (tree : bool) : prog shared unit :=
  idle <- act (fun s => (exc_active s =? 0, match path with
                                            | Some p => if exc_active s =? 0 then put_log (XInval p tree) s else s
                                            | None => s
                                            end)) ;;
  match path with
  | Some p =>
      if (idle : bool) then Ret tt
      else act_ (fun s =>
        put_log (XInval p tree)
          match exc_norm p EXC_PATH with
          | Some n => exc_invalidate_locked n tree s
          | None => exc_drop_all s
          end)
  | None => Ret tt
  end.
Definition exec_cache_invalidate (path : option cstr) : prog shared unit := exc_invalidate_common path false.
Definition exec_cache_invalidate_tree (path : option cstr) : prog shared unit := exc_invalidate_common path true.

Definition exec_cache_flush : prog shared unit :=
  idle <- act (fun s => (exc_active s =? 0, if exc_active s =? 0 then put_log XInvalAll s else s)) ;;
  if (idle : bool) then Ret tt else act_ (fun s => put_log XInvalAll (exc_drop_all s)).

Definition exec_cache_stats : prog shared (Z * Z * Z * Z) :=
  act (fun s => (zcount (Z.to_nat EXC_SLOTS) (fun i => negb (slot s i =? 0)), exc_total s, exc_hits s, exc_misses s, s)).

(** Result and identity. *)
Definition exc_identify (path : cstr) (fd : Z) : prog shared (Z * exc_id) :=
  size <- vfs_call (x_seek fd 0 VFS_SEEK_END) ;;
  if size <? 0 then Ret (- EIO, mk_id 0 0 0 false 1)
  else
    _ <- vfs_call (x_seek fd 0 VFS_SEEK_SET) ;;
    r <- vfs_call (x_stat path) ;;
    let '(ret, st) := r in
    if ret =? 0 then
      let id := mk_id (u32 size) (st_mtime st) (st_ino st) true (if st_nlink st =? 0 then 1 else st_nlink st) in
      Ret (if st_size st =? size then 0 else - EAGAIN, id)
    else
      m <- vfs_call (x_times path) ;;
      Ret (0, mk_id (u32 size) (if m.1 =? 0 then m.2 else -1) 0 false 1).

(** The critical section of [exc_put]; whether the entry is to be freed. *)
Definition exc_unref p s : bool * shared :=
  let e := entry s p in
  let e := if refs e =? 0 then e else set_refs (refs e - 1) e in
  (dead e && (refs e =? 0), set_entry p e (put_log (XUse p ENTRY_SIZE) s)).
Definition exc_put p : prog shared unit :=
  free_it <- act (exc_unref p) ;;
  if (free_it : bool) then act_ (exc_free p) else Ret tt.

(** The name of the cache entry, if the path has one. *)
Definition load_key (path : cstr) : prog shared (option cstr) :=
  if bool_decide (head path = Some 47) then
    rbuf <- kalloc_x VFS_MAX_PATH ;;
    if rbuf =? 0 then Ret None
    else
      r <- vfs_call (x_resolve path) ;;
      _ <- kfree_x rbuf ;;
      Ret (if r.1 =? 0 then exc_norm r.2 EXC_PATH else None)
  else Ret None.

Definition uncacheable (ir : Z) (id : exc_id) : bool :=
  negb (ir =? 0) || (id_mtime id <? 0) || (1 <? id_nlink id) || (id_size id =? 0) ||
  (EXC_MAX_FILE <? id_size id) || (exc_budget <? id_size id).

(** The result, and the caller's buffer with its bytes. *)
Definition loaded : Type := Z * option (Z * list Z).

Definition load_hit p fd (id : exc_id) : prog shared loaded :=
  _ <- vfs_call (x_close fd) ;;
  copy <- kalloc_x (u64 (id_size id + 1)) ;;
  if copy =? 0 then _ <- exc_put p ;; Ret (- ENOMEM, None)
  else
    bytes <- act (fun s => (ztake (id_size id) (image (entry s p)),
                            put_log (XUse copy (id_size id + 1)) (put_log (XUse (data (entry s p)) (id_size id)) (put_log (XUse p ENTRY_SIZE) s)))) ;;
    _ <- exc_put p ;;
    Ret (s32 (id_size id), Some (copy, bytes)).

(** [while (got < size)]: a round that goes on reads at least a byte, so [size]
    rounds are enough. *)
Fixpoint load_rounds (fuel : nat) t fd (buf size : Z) (got : list Z) : prog shared (list Z) :=
  match fuel with
  | O => Ret got
  | S fuel =>
      if negb (zlen got <? size) then Ret got
      else
        r <- act (fun s =>
               let '(n, bytes, v) := x_read fd (size - zlen got) (sh_files s) in
               let s := set_vfs v s in
               ((n, bytes), if n <=? 0 then s else put_log (XRead t (ztake n bytes)) (put_log (XUse buf (zlen got + n)) s))) ;;
        if r.1 <=? 0 then Ret got else load_rounds fuel t fd buf size (got ++ ztake r.1 r.2)
  end.

(** Blocks for a second copy and its entry: both, or none.  The copy is made at
    the end. *)
Definition load_blocks (size : Z) : prog shared (Z * Z) :=
  keep <- kalloc_x size ;;
  ent <- kalloc_x ENTRY_SIZE ;;
  if (keep =? 0) || (ent =? 0) then
    _ <- (if keep =? 0 then Ret tt else kfree_x keep) ;;
    _ <- (if ent =? 0 then Ret tt else kfree_x ent) ;;
    Ret (0, 0)
  else
    _ <- act_ (put_log (XUse keep size)) ;;
    Ret (keep, ent).

Definition load_miss t (key : option cstr) fd (id : exc_id) : prog shared loaded :=
  ld <- match key with Some k => act (exc_register t k) | None => Ret (-1) end ;;
  buf <- kalloc_x (u64 (id_size id + 1)) ;;
  if buf =? 0 then
    _ <- vfs_call (x_close fd) ;;
    _ <- (if ld <? 0 then Ret tt else act_ (exc_unregister ld)) ;;
    Ret (- ENOMEM, None)
  else
    got <- load_rounds (Z.to_nat (id_size id)) t fd buf (id_size id) [] ;;
    _ <- vfs_call (x_close fd) ;;
    _ <- act_ (put_log (XUse buf (zlen got + 1))) ;;
    let ret : loaded := (s32 (zlen got), Some (buf, got)) in
    match key with
    | None => Ret ret
    | Some k =>
        if ld <? 0 then Ret ret
        else
          b <- (if zlen got =? id_size id then load_blocks (id_size id) else Ret (0, 0)) ;;
          b <- act (exc_insert t ld k id b.1 b.2 got) ;;
          _ <- (if b.1 =? 0 then Ret tt else kfree_x b.1) ;;
          _ <- (if b.2 =? 0 then Ret tt else kfree_x b.2) ;;
          Ret ret
    end.

Definition exec_image_load t (path : option cstr) (out_buf : bool) : prog shared loaded :=
  match path with
  | None => Ret (- EINVAL, None)
  | Some path =>
      if negb out_buf then Ret (- EINVAL, None)
      else
        key <- load_key path ;;
        fd <- vfs_call (x_open path VFS_O_READ) ;;
        if fd <? 0 then Ret (fd, None)
        else
          r <- exc_identify path fd ;;
          let '(ir, id) := r in
          if ir =? - EIO then _ <- vfs_call (x_close fd) ;; Ret (- EIO, None)
          else
            let key := if uncacheable ir id then None else key in
            hit <- match key with Some k => act (exc_lookup t k id) | None => Ret 0 end ;;
            if hit =? 0 then load_miss t key fd id else load_hit hit fd id
  end.

(** ** Concurrent calls *)

(** A call of the cache, some other use of the virtual filesystem, or some
    other use of the heap. *)
Inductive xcall :=
  | CLoad (path : option cstr) (out_buf : bool)
  | CInvalidate (path : option cstr)
  | CInvalidateTree (path : option cstr)
  | CFlush
  | CStats
  | CFiles (f : V -> V)
  | CHeap (n : Z).

Definition done_ {A : Type} (m : prog shared A) : prog shared loaded := _ <- m ;; Ret (0, None).
Definition xprog t (c : xcall) : prog shared loaded :=
  match c with
  | CLoad path out => exec_image_load t path out
  | CInvalidate path => done_ (exec_cache_invalidate path)
  | CInvalidateTree path => done_ (exec_cache_invalidate_tree path)
  | CFlush => done_ exec_cache_flush
  | CStats => done_ exec_cache_stats
  | CFiles f => done_ (vfs_call (fun v => (tt, f v)))
  | CHeap n => done_ (p <- kalloc_x n ;; if p =? 0 then Ret tt else kfree_x p)
  end.
Definition xpool (calls : list xcall) : list (prog shared loaded) := imap xprog calls.

(** The state and the pool after some interleaving of the calls. *)
Definition xreach (v : V) (h : H) (calls : list xcall) (c : shared * list (prog shared loaded)) : Prop :=
  rtc sys_step (exc_boot v h, xpool calls) c.
End exec_cache.
Arguments shared : clear implicits.
