(* ===== verification/ExecMem.v ===== *)
(** * Memory of the exec image cache

    The log of src/exec_cache.c's allocations, uses and frees against the heap:
    which blocks are outstanding after a log, if every use and free in it was
    of an outstanding block. *)
From stdpp Require Import gmap.
From S2P Require Import Prelude Paths Heap ExecCache.
#[local] Open Scope Z_scope.

(** The blocks taken and not given back, with the sizes asked for; [None] if a
    block was taken twice, used beyond its size, or used or given back while
    not outstanding. *)
Definition mem_step (acc : option (list (Z * Z))) (e : xevent) : option (list (Z * Z)) :=
  L ← acc;
  match e with
  | XAlloc p n => if bool_decide (p ∈ L.*1) then None else Some ((p, n) :: L)
  | XUse p n => if bool_decide (Exists (fun b => b.1 = p /\ n <= b.2) L) then Some L else None
  | XFree p => if bool_decide (p ∈ L.*1) then Some (filter (fun b => b.1 <> p) L) else None
  | _ => Some L
  end.
Definition mem_trace (log : list xevent) : option (list (Z * Z)) := foldl mem_step (Some []) log.

Definition is_mem (e : xevent) : bool :=
  match e with XAlloc _ _ | XUse _ _ | XFree _ => true | _ => false end.

Lemma mem_trace_snoc log e : mem_trace (log ++ [e]) = mem_step (mem_trace log) e.
Proof. unfold mem_trace. by rewrite foldl_app. Qed.

Lemma filter_fst_ne (p n : Z) (L : list (Z * Z)) : p ∉ L.*1 -> filter (fun b => b.1 <> p) ((p, n) :: L) = L.
Proof.
  intros Hp. rewrite filter_cons_False by (cbn; tauto). apply filter_all. intros [q m] Hq E. cbn in E. subst q.
  apply Hp, list_elem_of_fmap. by exists (p, m).
Qed.

(** ** Ownership

    The blocks [O] are outstanding, and beside them the heap holds what it held
    at first. *)
Section mem.
Context {H : Type} `{!KHeap H, !KHeapLaws H} (h0 : H).

Record mem_inv (h : H) (log : list xevent) (O : list (Z * Z)) : Prop := {
  mi_ok : heap_ok h;
  mi_trace : exists L, mem_trace log = Some L /\ L ≡ₚ O;
  mi_nodup : NoDup O.*1;
  mi_fits p n : (p, n) ∈ O -> exists m, heap_live h p m /\ n <= m;
  mi_base p n : heap_live h0 p n -> heap_live h p n /\ p ∉ O.*1;
  mi_all p n : heap_live h p n -> heap_live h0 p n \/ p ∈ O.*1;
}.

Lemma mem_boot : heap_ok h0 -> mem_inv h0 [] [].
Proof.
  intros Hok. split; [done | by exists [] | apply NoDup_nil_2 | by intros p n ?%elem_of_nil | |]; [|by left].
  intros p n Hl. split; [done|]. apply not_elem_of_nil.
Qed.

Lemma mem_perm h log O O' : O ≡ₚ O' -> mem_inv h log O -> mem_inv h log O'.
Proof.
  intros HO [Hok (L & HL & Hp) Hnd Hf Hb Ha]. split; [done | | | | |].
  - exists L. split; [done|]. by rewrite Hp.
  - by rewrite <- HO.
  - intros p n Hin. apply Hf. by rewrite HO.
  - intros p n Hl. rewrite <- HO. by apply Hb.
  - intros p n Hl. rewrite <- HO. by eapply Ha.
Qed.

Lemma mem_other h log O e : is_mem e = false -> mem_inv h log O -> mem_inv h (log ++ [e]) O.
Proof.
  intros He [Hok (L & HL & Hp) Hnd Hf Hb Ha]. split; [done | | done..].
  exists L. split; [|done]. rewrite mem_trace_snoc, HL. by destruct e.
Qed.

Lemma mem_use h log O p n m : (p, m) ∈ O -> n <= m -> mem_inv h log O -> mem_inv h (log ++ [XUse p n]) O.
Proof.
  intros Hin Hle [Hok (L & HL & Hp) Hnd Hf Hb Ha]. split; [done | | done..].
  exists L. split; [|done]. rewrite mem_trace_snoc, HL. cbn. rewrite bool_decide_eq_true_2; [done|].
  apply Exists_exists. exists (p, m). rewrite Hp. done.
Qed.

Lemma mem_fail h h' log O n : 0 <= n -> hp_kalloc n h = (0, h') -> mem_inv h log O -> mem_inv h' log O.
Proof.
  intros Hn Ea [Hok HL Hnd Hf Hb Ha]. destruct (kalloc_fail _ _ _ Hok Hn Ea) as [Hok' Hsame].
  split; [done | done | done | | |].
  - intros p k Hin. destruct (Hf p k Hin) as (m & Hm & Hk). exists m. by rewrite Hsame.
  - intros p k Hl. rewrite Hsame. by apply Hb.
  - intros p k Hl. rewrite Hsame in Hl. by eapply Ha.
Qed.

Lemma mem_alloc h h' log O n p :
  0 <= n -> hp_kalloc n h = (p, h') -> p <> 0 -> mem_inv h log O -> mem_inv h' (log ++ [XAlloc p n]) ((p, n) :: O).
Proof.
  intros Hn Ea Hp0 [Hok (L & HL & Hp) Hnd Hf Hb Ha].
  destruct (kalloc_fresh _ _ _ _ Hok Hn Ea Hp0) as (Hok' & m & Hnm & Hfresh & Hiff).
  assert (p ∉ O.*1) as Hnew.
  { intros ([q k] & -> & Hin)%list_elem_of_fmap. destruct (Hf q k Hin) as (j & Hj & _). by eapply Hfresh. }
  split; [done | | by constructor | | |].
  - exists ((p, n) :: L). rewrite mem_trace_snoc, HL. cbn. rewrite bool_decide_eq_false_2 by (by rewrite Hp).
    split; [done|]. by rewrite Hp.
  - intros q k [[= -> ->]|Hin]%elem_of_cons.
    + exists m. split; [|done]. apply Hiff. by left.
    + destruct (Hf q k Hin) as (j & Hj & Hk). exists j. split; [|done]. apply Hiff. by right.
  - intros q k Hl. destruct (Hb q k Hl) as [Hl' Hq]. split; [apply Hiff; by right|]. cbn.
    intros [->|Hin]%elem_of_cons; [by eapply Hfresh | done].
  - intros q k [[-> _]|Hl]%Hiff; [right; by left|]. destruct (Ha q k Hl); [by left|]. right. by right.
Qed.

Lemma mem_free h log O p n : mem_inv h log ((p, n) :: O) -> mem_inv (hp_kfree p h) (log ++ [XFree p]) O.
Proof.
  intros [Hok (L & HL & Hp) Hnd Hf Hb Ha]. apply NoDup_cons in Hnd as [Hnew Hnd]. cbn in Hnew.
  destruct (Hf p n ltac:(by left)) as (m & Hm & _).
  destruct (kfree_live _ _ _ Hok Hm) as [Hok' Hiff].
  split; [done | | done | | |].
  - exists (filter (fun b => b.1 <> p) L). rewrite mem_trace_snoc, HL. cbn. rewrite bool_decide_eq_true_2 by (rewrite Hp; by left).
    split; [done|]. rewrite Hp. by rewrite filter_fst_ne.
  - intros q k Hin. destruct (Hf q k ltac:(by right)) as (j & Hj & Hk). exists j. split; [|done]. apply Hiff. split; [done|].
    intros ->. apply Hnew, list_elem_of_fmap. by exists (p, k).
  - intros q k Hl. destruct (Hb q k Hl) as [Hl' Hq]. cbn in Hq. apply not_elem_of_cons in Hq as [Hne Hq].
    split; [|done]. by apply Hiff.
  - intros q k [Hl Hne]%Hiff. destruct (Ha q k Hl) as [|Hin]; [by left|]. cbn in Hin.
    apply elem_of_cons in Hin as [->|Hin]; [done | by right].
Qed.
End mem.
