(* ===== verification/ExecInv.v ===== *)
(** * The invariant of the exec image cache

    What holds between any two steps of concurrent calls into
    src/exec_cache.c: the table, the reference counts against the calls that
    hold entries, the registered loads, the memory, and where the bytes of the
    cached images came from. *)
From stdpp Require Import gmap.
From S2P Require Import Prelude Paths Heap ExecCache ExecMem.
#[local] Open Scope Z_scope.

(** ** Where images come from *)

(** The invalidation of an entry or load with the given key. *)
Definition kills (key : cstr) (e : xevent) : bool :=
  match e with
  | XInval path tree =>
      match exc_norm path EXC_PATH with
      | Some n => exc_match key n tree
      | None => true
      end
  | XInvalAll => true
  | _ => false
  end.
Definition untouched (key : cstr) (l : list xevent) : Prop := Forall (fun e => kills key e = false) l.

(** What the call [t] read. *)
Definition reads_of (t : nat) (l : list xevent) : list Z :=
  mjoin (omap (fun e => match e with XRead u b => if decide (u = t) then Some b else None | _ => None end) l).

(** The call [t] is registered for [key], it reads since then, and nothing
    invalidated the key. *)
Definition reading (log : list xevent) (t : nat) (key : cstr) : Prop :=
  exists l1 l2, log = l1 ++ XReg t key :: l2 /\ reads_of t l1 = [] /\ untouched key l2.

(** The bytes [d] were read by one load, after it was registered for [key], and
    nothing has invalidated the key since the registration. *)
Definition fresh (log : list xevent) (key : cstr) (d : list Z) : Prop :=
  exists t l1 l2 l3, log = l1 ++ XReg t key :: l2 ++ XInsert t key :: l3 /\ reads_of t l2 = d /\ untouched key (l2 ++ l3).

(** Every image found in the cache was fresh when it was found. *)
Definition hits_fresh (log : list xevent) : Prop :=
  forall l1 t key d l2, log = l1 ++ XHit t key d :: l2 -> fresh l1 key d.

Lemma reads_of_app t l1 l2 : reads_of t (l1 ++ l2) = reads_of t l1 ++ reads_of t l2.
Proof. unfold reads_of. rewrite omap_app. by rewrite join_app. Qed.
Lemma reads_of_snoc t l e :
  reads_of t (l ++ [e]) = reads_of t l ++ match e with XRead u b => if decide (u = t) then b else [] | _ => [] end.
Proof.
  rewrite reads_of_app. f_equal. unfold reads_of. cbn. destruct e as [| | | |u b| | | |]; try done.
  destruct (decide (u = t)); cbn; [by rewrite app_nil_r | done].
Qed.

Lemma fresh_snoc log key d e : kills key e = false -> fresh log key d -> fresh (log ++ [e]) key d.
Proof.
  intros He (t & l1 & l2 & l3 & -> & Hd & Hu). exists t, l1, l2, (l3 ++ [e]). split_and!; [|done|].
  - by rewrite <- !app_assoc, app_comm_cons, <- app_assoc.
  - unfold untouched in *. rewrite !Forall_app in *. cbn. naive_solver.
Qed.
Lemma reading_snoc log t key e : kills key e = false -> reading log t key -> reading (log ++ [e]) t key.
Proof.
  intros He (l1 & l2 & -> & Hd & Hu). exists l1, (l2 ++ [e]). split_and!; [|done|].
  - by rewrite <- app_assoc.
  - unfold untouched in *. rewrite Forall_app. cbn. naive_solver.
Qed.
Lemma reading_fresh log t key d : reading log t key -> reads_of t log = d -> fresh (log ++ [XInsert t key]) key d.
Proof.
  intros (l1 & l2 & -> & H1 & Hu) Hd. exists t, l1, l2, []. split_and!.
  - by rewrite <- app_assoc.
  - rewrite <- Hd, reads_of_app, H1. unfold reads_of. done.
  - by rewrite app_nil_r.
Qed.
Lemma hits_snoc log e :
  match e with XHit t key d => fresh log key d | _ => True end -> hits_fresh log -> hits_fresh (log ++ [e]).
Proof.
  intros He Hh l1 t key d l2 E. destruct (decide (l2 = [])) as [->|Hne].
  - apply app_inj_tail in E as [-> ->]. done.
  - destruct (exists_last Hne) as (l2' & e' & ->). rewrite app_comm_cons, app_assoc in E.
    apply app_inj_tail in E as [-> ->]. by eapply Hh.
Qed.

(** ** What a call holds

    Blocks of memory with their sizes, a reference to an entry and its image, an
    entry it has to free, a registered load; what it read and what it found. *)
Record res := mk_res {
  r_blocks : list (Z * Z);
  r_ref : option (Z * list Z);
  r_zombie : option Z;
  r_load : option (Z * cstr);
  r_read : list Z;
  r_hit : option (list Z);
}.
Definition res0 : res := mk_res [] None None None [] None.

(** How many calls satisfy [f]. *)
Fixpoint rcount (f : res -> bool) (R : list res) : Z :=
  match R with
  | [] => 0
  | r :: R => (if f r then 1 else 0) + rcount f R
  end.
Definition is_ref (p : Z) (r : res) : bool := bool_decide (fst <$> r_ref r = Some p).
Definition is_zombie (p : Z) (r : res) : bool := bool_decide (r_zombie r = Some p).

Lemma rcount_insert f R t r r' : R !! t = Some r ->
  rcount f (<[t := r']> R) = rcount f R - (if f r then 1 else 0) + (if f r' then 1 else 0).
Proof.
  revert t. induction R as [|x R IH]; intros [|t] Ht; simplify_eq/=; [lia|]. rewrite (IH t Ht). lia.
Qed.
Lemma rcount_bounds f R : 0 <= rcount f R <= Z.of_nat (length R).
Proof. induction R as [|r R IH]; cbn; [done|]. case_match; lia. Qed.
Lemma rcount_pos f R t r : R !! t = Some r -> f r = true -> 1 <= rcount f R.
Proof.
  revert t. induction R as [|x R IH]; intros [|t] Ht Hf; simplify_eq/=; pose proof (rcount_bounds f R).
  - rewrite Hf. lia.
  - specialize (IH t Ht Hf). case_match; lia.
Qed.
Lemma rcount_lt f R t r : R !! t = Some r -> f r = false -> rcount f R < Z.of_nat (length R).
Proof.
  revert t. induction R as [|x R IH]; intros [|t] Ht Hf; simplify_eq/=; pose proof (rcount_bounds f R).
  - rewrite Hf. lia.
  - specialize (IH t Ht Hf). case_match; lia.
Qed.
Lemma rcount_zero f R t r : R !! t = Some r -> rcount f R = 0 -> f r = false.
Proof. intros Ht H0. destruct (f r) eqn:E; [|done]. pose proof (rcount_pos f R t r Ht E). lia. Qed.
Lemma rcount_same f R t r r' : R !! t = Some r -> f r' = f r -> rcount f (<[t := r']> R) = rcount f R.
Proof. intros Ht Hf. rewrite (rcount_insert f R t r) by done. rewrite Hf. lia. Qed.

Lemma list_delete_insert {A} (l : list A) t x : delete t (<[t := x]> l) = delete t l.
Proof. revert t. induction l as [|y l IH]; intros [|t]; cbn; [done..|]. f_equal. apply IH. Qed.

(** The blocks of all calls; the other calls' blocks. *)
Definition held (R : list res) : list (Z * Z) := mjoin (r_blocks <$> R).
Lemma held_insert R t r r' : R !! t = Some r ->
  held R ≡ₚ r_blocks r ++ held (delete t R) /\ held (<[t := r']> R) ≡ₚ r_blocks r' ++ held (delete t R).
Proof.
  intros Ht. pose proof (lookup_lt_Some _ _ _ Ht). unfold held. split.
  - rewrite (delete_Permutation R t r) at 1 by done. done.
  - rewrite (delete_Permutation (<[t := r']> R) t r') by (by apply list_lookup_insert_eq).
    by rewrite list_delete_insert.
Qed.

(** ** Entries *)

Definition entry_ok (e : exc_entry) : Prop :=
  zlen (image e) = e_size e /\ 0 < e_size e <= EXC_MAX_FILE /\ zlen (e_path e) < EXC_PATH.

Definition entry_blocks (m : gmap Z exc_entry) : list (Z * Z) :=
  mjoin ((fun pe => [(pe.1, ENTRY_SIZE); (data pe.2, e_size pe.2)]) <$> map_to_list m).

Lemma entry_blocks_insert m p e : m !! p = None ->
  entry_blocks (<[p := e]> m) ≡ₚ (p, ENTRY_SIZE) :: (data e, e_size e) :: entry_blocks m.
Proof. intros Hp. unfold entry_blocks. rewrite map_to_list_insert by done. done. Qed.
Lemma entry_blocks_delete m p e : m !! p = Some e ->
  entry_blocks m ≡ₚ (p, ENTRY_SIZE) :: (data e, e_size e) :: entry_blocks (delete p m).
Proof. intros Hp. rewrite <- entry_blocks_insert by apply lookup_delete_eq. by rewrite insert_delete_id. Qed.
Lemma entry_blocks_update m p e e' : m !! p = Some e -> data e' = data e -> e_size e' = e_size e ->
  entry_blocks (<[p := e']> m) ≡ₚ entry_blocks m.
Proof.
  intros Hp Hd Hs. rewrite (entry_blocks_delete m p e) by done. rewrite <- insert_delete_eq.
  rewrite entry_blocks_insert by apply lookup_delete_eq. by rewrite Hd, Hs.
Qed.

Section inv.
Context {H V : Type} `{!KHeap H, !KHeapLaws H, !ExecFiles V} (total_memory_bytes : Z) (h0 : H).
Implicit Types (s : shared H V) (R : list res) (t : nat) (i p : Z).

(** ** The table *)

Definition in_slot s i (e : exc_entry) : Prop :=
  0 <= i < EXC_SLOTS /\ slot s i <> 0 /\ entries s !! slot s i = Some e.
Definition slot_size s i : Z := if slot s i =? 0 then 0 else e_size (entry s (slot s i)).
Definition total_size s : Z := zsum (Z.to_nat EXC_SLOTS) (slot_size s).

(** Loads: each registered load belongs to one call. *)
Record ld_inv (lds : list exc_loading) (log : list xevent) R : Prop := {
  li_len : zlen lds = EXC_LOADING;
  li_load t r i key : R !! t = Some r -> r_load r = Some (i, key) ->
    0 <= i < EXC_LOADING /\ used (zget lds i) = true /\ ld_path (zget lds i) = key /\ zlen key < EXC_PATH /\
    (dirty (zget lds i) = true \/ reading log t key);
  li_inj t u r r' i key key' : R !! t = Some r -> R !! u = Some r' ->
    r_load r = Some (i, key) -> r_load r' = Some (i, key') -> t = u;
  li_used i : 0 <= i < EXC_LOADING -> used (zget lds i) = true -> exists t r key, R !! t = Some r /\ r_load r = Some (i, key);
  li_reads t r : R !! t = Some r -> reads_of t log = r_read r;
  li_hit t r d : R !! t = Some r -> r_hit r = Some d -> exists key, XHit t key d ∈ log;
  li_threads : Z.of_nat (length R) < 2 ^ 32;
}.

Record tab_inv s R : Prop := {
  ti_len : zlen (exc s) = EXC_SLOTS;
  ti_slot i : 0 <= i < EXC_SLOTS -> slot s i <> 0 -> exists e, entries s !! slot s i = Some e /\ dead e = false;
  ti_inj i j : 0 <= i < EXC_SLOTS -> 0 <= j < EXC_SLOTS -> slot s i <> 0 -> slot s i = slot s j -> i = j;
  ti_alive p e : entries s !! p = Some e -> dead e = false -> exists i, 0 <= i < EXC_SLOTS /\ slot s i = p;
  ti_keys i j e f : in_slot s i e -> in_slot s j f -> e_path e = e_path f -> i = j;
  ti_entry p e : entries s !! p = Some e -> p <> 0 /\ entry_ok e;
  ti_refs p e : entries s !! p = Some e -> refs e = rcount (is_ref p) R;
  ti_zombies p e : entries s !! p = Some e -> rcount (is_zombie p) R = if dead e && (refs e =? 0) then 1 else 0;
  ti_ref t r p d : R !! t = Some r -> r_ref r = Some (p, d) -> exists e, entries s !! p = Some e /\ image e = d;
  ti_zombie t r p : R !! t = Some r -> r_zombie r = Some p -> is_Some (entries s !! p);
  ti_total : exc_total s = total_size s;
  ti_budget : 0 <= exc_total s <= exc_budget total_memory_bytes;
  ti_ld : ld_inv (exc_ld s) (sh_log s) R;
  ti_fresh i e : in_slot s i e -> fresh (sh_log s) (e_path e) (image e);
  ti_hits : hits_fresh (sh_log s);
  ti_files : x_ok (sh_files s);
}.

Lemma cache_ext s s' R :
  exc s' = exc s -> entries s' = entries s -> exc_ld s' = exc_ld s -> exc_total s' = exc_total s -> sh_log s' = sh_log s ->
  sh_files s' = sh_files s -> tab_inv s R -> tab_inv s' R.
Proof. destruct s, s'; cbn. intros -> -> -> -> -> -> []. by split. Qed.

(** An event that does not concern what is cached or being loaded. *)
Lemma ld_log lds log R e :
  (forall i, 0 <= i < EXC_LOADING -> used (zget lds i) = true -> dirty (zget lds i) = false -> kills (ld_path (zget lds i)) e = false) ->
  match e with XRead _ _ => False | _ => True end ->
  ld_inv lds log R -> ld_inv lds (log ++ [e]) R.
Proof.
  intros Hl He [Llen Lload Linj Lused Lreads Lhit Lthreads]. split; try done.
  - intros t r i key Hr Hi. destruct (Lload t r i key Hr Hi) as (Hi1 & Hu & <- & Hk & Hd). split_and!; try done; try lia.
    destruct Hd as [Hd|Hd]; [by left|]. destruct (dirty (zget lds i)) eqn:E; [by left|]. right.
    apply reading_snoc; [by apply (Hl i) | done].
  - intros t r Hr. rewrite reads_of_snoc, (Lreads t r Hr). destruct e; (done || by rewrite app_nil_r).
  - intros t r d Hr Hd. destruct (Lhit t r d Hr Hd) as (key & Hin). exists key. apply elem_of_app. by left.
Qed.
Lemma tab_log s R e :
  (forall i f, in_slot s i f -> kills (e_path f) e = false) ->
  (forall i, 0 <= i < EXC_LOADING -> used (loading s i) = true -> dirty (loading s i) = false -> kills (ld_path (loading s i)) e = false) ->
  match e with XRead _ _ => False | XHit _ key d => fresh (sh_log s) key d | _ => True end ->
  tab_inv s R -> tab_inv (put_log e s) R.
Proof.
  intros Hs Hl He [? ? ? ? ? ? ? ? ? ? ? ? Tld Tfresh ? ?]. split; try done; cbn [put_log sh_log].
  - apply ld_log; [done | by destruct e | done].
  - intros i f Hf. apply fresh_snoc; [by apply (Hs i) | by apply (Tfresh i)].
  - apply hits_snoc; [by destruct e | done].
Qed.

(** The loads do not change when what a call holds otherwise does. *)
Lemma ld_res lds log R t r r' : R !! t = Some r -> r_load r' = r_load r -> r_read r' = r_read r ->
  (forall d, r_hit r' = Some d -> r_hit r = Some d \/ exists key, XHit t key d ∈ log) ->
  ld_inv lds log R -> ld_inv lds log (<[t := r']> R).
Proof.
  intros Ht Hload Hread Hhit [Llen Lload Linj Lused Lreads Lhit Lthreads].
  assert (forall u x i key, <[t := r']> R !! u = Some x -> r_load x = Some (i, key) ->
            exists y, R !! u = Some y /\ r_load y = Some (i, key)) as Hold.
  { intros u x i key Hu Hx. apply list_lookup_insert_Some in Hu as [(-> & -> & _)|(_ & Hu)]; [|by exists x].
    exists r. by rewrite <- Hload. }
  split; try done.
  - intros u x i key Hu Hx. destruct (Hold u x i key Hu Hx) as (y & Hy & Hy'). by apply (Lload u y).
  - intros u v x y i k k' Hu Hv Hx Hy. destruct (Hold u x i k Hu Hx) as (x0 & ? & ?).
    destruct (Hold v y i k' Hv Hy) as (y0 & ? & ?). by eapply Linj.
  - intros i Hi Hu. destruct (Lused i Hi Hu) as (u & x & key & Hx & Hk). destruct (decide (u = t)) as [->|Hne].
    + exists t, r', key. split; [apply list_lookup_insert_eq; by eapply lookup_lt_Some | congruence].
    + exists u, x, key. split; [|done]. by rewrite list_lookup_insert_ne.
  - intros u x Hu. apply list_lookup_insert_Some in Hu as [(-> & -> & _)|(_ & Hu)]; [|by apply Lreads].
    rewrite Hread. by apply Lreads.
  - intros u x d Hu Hd. apply list_lookup_insert_Some in Hu as [(-> & -> & _)|(_ & Hu)]; [|by eapply Lhit].
    destruct (Hhit d Hd) as [Hh|Hh]; [by eapply Lhit | done].
  - by rewrite length_insert.
Qed.
Definition plain (e : xevent) : bool :=
  match e with XAlloc _ _ | XUse _ _ | XFree _ | XReg _ _ | XInsert _ _ => true | _ => false end.
Lemma tab_plain s R e : plain e = true -> tab_inv s R -> tab_inv (put_log e s) R.
Proof. intros He. apply tab_log; by destruct e. Qed.

(** ** Everything *)

Definition owned s R : list (Z * Z) := entry_blocks (entries s) ++ held R.
Definition core s R : Prop := mem_inv h0 (sh_heap s) (sh_log s) (owned s R) /\ tab_inv s R.
Definition active_count s : Z :=
  zcount (Z.to_nat EXC_SLOTS) (fun i => negb (slot s i =? 0)) + zcount (Z.to_nat EXC_LOADING) (fun i => used (loading s i)).
Definition inv s R : Prop := core s R /\ exc_active s = active_count s.

Lemma active_bound s : 0 <= active_count s < 2 ^ 32.
Proof.
  unfold active_count. pose proof (zcount_bounds (Z.to_nat EXC_SLOTS) (fun i => negb (slot s i =? 0))).
  pose proof (zcount_bounds (Z.to_nat EXC_LOADING) (fun i => used (loading s i))). unfold EXC_SLOTS, EXC_LOADING in *. lia.
Qed.
Lemma recount_inv s R : core s R -> inv (exc_recount s) R.
Proof.
  intros [Hm Ht]. split; [split; [done | by apply (cache_ext s)]|].
  change (active_count (exc_recount s)) with (active_count s). cbn. apply u32_small, active_bound.
Qed.

Lemma core_ext s s' R :
  exc s' = exc s -> entries s' = entries s -> exc_ld s' = exc_ld s -> exc_total s' = exc_total s -> sh_log s' = sh_log s ->
  sh_heap s' = sh_heap s -> sh_files s' = sh_files s -> core s R -> core s' R.
Proof.
  intros E1 E2 E3 E4 E5 E6 E7 [Hm Ht]. split; [|by apply (cache_ext s)]. unfold owned. by rewrite E2, E5, E6.
Qed.
Lemma core_log s R e : is_mem e = false ->
  (forall i f, in_slot s i f -> kills (e_path f) e = false) ->
  (forall i, 0 <= i < EXC_LOADING -> used (loading s i) = true -> dirty (loading s i) = false -> kills (ld_path (loading s i)) e = false) ->
  match e with XRead _ _ => False | XHit _ key d => fresh (sh_log s) key d | _ => True end ->
  core s R -> core (put_log e s) R.
Proof. intros Hm ??? [HM HT]. split; [by apply mem_other | by apply tab_log]. Qed.

Lemma owned_entry s R p e : entries s !! p = Some e ->
  owned s R ≡ₚ (p, ENTRY_SIZE) :: (data e, e_size e) :: entry_blocks (delete p (entries s)) ++ held R.
Proof. intros Hp. unfold owned. by rewrite (entry_blocks_delete _ p e Hp). Qed.

Lemma core_use s R p n m : (p, m) ∈ owned s R -> n <= m -> core s R -> core (put_log (XUse p n) s) R.
Proof. intros Hin Hn [HM HT]. split; [by eapply mem_use | by apply tab_plain]. Qed.
Lemma core_use_entry s R p e : entries s !! p = Some e -> core s R -> core (put_log (XUse p ENTRY_SIZE) s) R.
Proof. intros Hp. apply core_use with ENTRY_SIZE; [|done]. rewrite (owned_entry s R p e Hp). by left. Qed.
End inv.
