(* ===== verification/ExecLock.v ===== *)
(** * The critical sections of the exec image cache

    Each critical section of src/exec_cache.c keeps the invariant of [ExecInv],
    with what it does to the table. *)
From stdpp Require Import gmap.
From S2P Require Import Prelude Paths Heap ExecCache ExecMem ExecInv.
#[local] Open Scope Z_scope.

Section lock.
Context {H V : Type} `{!KHeap H, !KHeapLaws H, !ExecFiles V} (total_memory_bytes : Z) (h0 : H).
Implicit Types (s : shared H V) (R : list res) (t : nat) (i p : Z).
Abbreviation tab_inv := (tab_inv total_memory_bytes).
Abbreviation core := (core total_memory_bytes h0).
Abbreviation inv := (inv total_memory_bytes h0).

Lemma slot_set s i p j : zlen (exc s) = EXC_SLOTS -> 0 <= i < EXC_SLOTS -> 0 <= j ->
  slot (set_slot i p s) j = if decide (j = i) then p else slot s j.
Proof.
  intros Hl Hi Hj. unfold slot. cbn. case_decide as E; [subst j; apply zget_zset_eq; lia | apply zget_zset_ne; lia].
Qed.
Lemma entry_eq s p e : entries s !! p = Some e -> entry s p = e.
Proof. intros E. unfold entry. by rewrite E. Qed.
Lemma in_slot_entry s i e : in_slot s i e -> entry s (slot s i) = e.
Proof. intros (_ & _ & E). by apply entry_eq. Qed.
Lemma in_slot_intro s R i : tab_inv s R -> 0 <= i < EXC_SLOTS -> slot s i <> 0 -> exists e, in_slot s i e /\ dead e = false.
Proof. intros HT Hi Hp. destruct (ti_slot _ _ _ HT i Hi Hp) as (e & He & Hd). by exists e. Qed.
Lemma in_slot_size s i e : in_slot s i e -> slot_size s i = e_size e.
Proof. intros Hi. unfold slot_size. rewrite (in_slot_entry _ _ _ Hi). destruct Hi as (_ & Hp & _). by rewrite (proj2 (Z.eqb_neq _ _)). Qed.
Lemma slot_size_nonneg s R i : tab_inv s R -> 0 <= i < EXC_SLOTS -> 0 <= slot_size s i.
Proof.
  intros HT Hi. unfold slot_size. destruct (Z.eqb_spec (slot s i) 0) as [|Hp]; [done|].
  destruct (in_slot_intro s R i HT Hi Hp) as (e & He & _). rewrite (in_slot_entry _ _ _ He).
  destruct He as (_ & _ & He). destruct (ti_entry _ _ _ HT _ _ He) as (_ & _ & ? & _). lia.
Qed.

(** ** Dropping an entry *)

(** The entries after slot [i] is dropped. *)
Definition drop_to s i (e : exc_entry) (m : gmap Z exc_entry) : Prop :=
  m = delete (slot s i) (entries s) /\ refs e = 0 \/ m = <[slot s i := set_dead e]> (entries s) /\ refs e <> 0.

Section drop.
Context s R i e (HT : tab_inv s R) (Hin : in_slot s i e).
Context (m : gmap Z exc_entry) (Hm : drop_to s i e m).
Let s' : shared H V := set_entries m (set_total (exc_total s -64 e_size e) (set_slot i 0 s)).

Lemma drop_slot j : 0 <= j -> slot s' j = if decide (j = i) then 0 else slot s j.
Proof using HT Hin. intros Hj. destruct Hin as (Hi & _ & _). apply (slot_set s i 0 j (ti_len _ _ _ HT) Hi Hj). Qed.
Lemma drop_entries q : q <> slot s i -> m !! q = entries s !! q.
Proof using Hm. intros Hq. destruct Hm as [[-> _]|[-> _]]; [by rewrite lookup_delete_ne | by rewrite lookup_insert_ne]. Qed.
Lemma dropped_entry f : m !! slot s i = Some f -> f = set_dead e /\ refs e <> 0.
Proof using Hm.
  destruct Hm as [[-> _]|[-> Hr]]; [by rewrite lookup_delete_eq|]. rewrite lookup_insert_eq. by intros [= <-].
Qed.
Lemma drop_slot_ne j : 0 <= j < EXC_SLOTS -> slot s j <> 0 -> j <> i -> slot s j <> slot s i.
Proof using HT Hin. intros Hj Hp Hne E. destruct Hin as (Hi & _). by apply Hne, (ti_inj _ _ _ HT). Qed.
Lemma drop_in j f : in_slot s' j f <-> j <> i /\ in_slot s j f.
Proof using HT Hin Hm.
  unfold in_slot. split.
  - intros (Hj & Hp & He). rewrite drop_slot in Hp, He by lia. case_decide; [done|]. cbn in He.
    rewrite drop_entries in He by (by apply drop_slot_ne). done.
  - intros (Hne & Hj & Hp & He). rewrite drop_slot, decide_False by lia. split_and!; [lia | lia | done |]. cbn.
    rewrite drop_entries; [done | by apply drop_slot_ne].
Qed.

Lemma drop_total : total_size s' = total_size s - e_size e.
Proof using HT Hin Hm.
  pose proof Hin as (Hi & Hp & He). unfold total_size.
  rewrite (zsum_change _ (slot_size s) (slot_size s') i).
  - assert (slot_size s' i = 0) as -> by (unfold slot_size; by rewrite drop_slot, decide_True by lia).
    rewrite (in_slot_size _ _ _ Hin). lia.
  - unfold EXC_SLOTS in *; lia.
  - intros j Hj Hne. unfold slot_size. rewrite drop_slot, decide_False by lia.
    destruct (Z.eqb_spec (slot s j) 0) as [|Hpj]; [done|]. unfold entry. cbn. rewrite drop_entries; [done|].
    apply drop_slot_ne; unfold EXC_SLOTS in *; lia.
Qed.

Lemma drop_total_eq : exc_total s' = total_size s' /\ 0 <= exc_total s' <= exc_budget total_memory_bytes.
Proof using HT Hin Hm.
  pose proof Hin as (Hi & Hp & He). rewrite drop_total. cbn.
  pose proof (ti_total _ _ _ HT) as Ht. pose proof (ti_budget _ _ _ HT) as Hb.
  assert (e_size e <= total_size s) as Hle.
  { rewrite <- (in_slot_size _ _ _ Hin). apply (zsum_ge (Z.to_nat EXC_SLOTS)); [|unfold EXC_SLOTS in *; lia].
    intros j Hj. apply (slot_size_nonneg s R j HT). unfold EXC_SLOTS in *; lia. }
  destruct (ti_entry _ _ _ HT _ _ He) as (_ & _ & Hsz & _).
  assert (exc_budget total_memory_bytes <= EXC_MAX_TOTAL) by (unfold exc_budget; lia). unfold EXC_MAX_TOTAL in *.
  rewrite u64_small by lia. lia.
Qed.

Lemma drop_tab : tab_inv s' R.
Proof using HT Hin Hm.
  pose proof drop_total_eq as [Htot Hbud]. pose proof Hin as (Hi & Hp & He). pose proof HT as [Tlen Tslot Tinj Talive Tkeys Tentry Trefs Tzombies Tref Tzombie Ttotal Tbudget Tld Tfresh Thits Tfiles].
  destruct (Tslot i Hi Hp) as (e0 & He0 & Hd). assert (e0 = e) as -> by congruence.
  split; try done.
  - cbn. by rewrite zlen_zset.
  - intros j Hj Hpj. rewrite drop_slot in Hpj |- * by lia. case_decide; [done|]. cbn.
    rewrite drop_entries by (by apply drop_slot_ne). by apply Tslot.
  - intros j k Hj Hk. rewrite !drop_slot by lia. repeat case_decide; try done; try congruence. by apply Tinj.
  - intros q f Hq Hf. cbn in Hq. destruct (decide (q = slot s i)) as [->|Hne].
    { apply dropped_entry in Hq as [-> _]. done. }
    rewrite drop_entries in Hq by done. destruct (Talive q f Hq Hf) as (j & Hj & <-). exists j. split; [done|].
    rewrite drop_slot by lia. rewrite decide_False; [done|]. by intros ->.
  - intros j k f g [_ Hf]%drop_in [_ Hg]%drop_in. by eapply Tkeys.
  - intros q f Hq. cbn in Hq. destruct (decide (q = slot s i)) as [->|Hne].
    + apply dropped_entry in Hq as [-> _]. exact (Tentry _ _ He).
    + rewrite drop_entries in Hq by done. by apply Tentry.
  - intros q f Hq. cbn in Hq. destruct (decide (q = slot s i)) as [->|Hne].
    + apply dropped_entry in Hq as [-> _]. exact (Trefs _ _ He).
    + rewrite drop_entries in Hq by done. by apply Trefs.
  - intros q f Hq. cbn in Hq. destruct (decide (q = slot s i)) as [->|Hne].
    + apply dropped_entry in Hq as [-> Hr]. rewrite (Tzombies _ _ He), Hd. cbn. by rewrite (proj2 (Z.eqb_neq _ _)).
    + rewrite drop_entries in Hq by done. by apply Tzombies.
  - intros t r q d Hr Hq. destruct (Tref t r q d Hr Hq) as (f & Hf & Hd'). cbn.
    destruct (decide (q = slot s i)) as [->|Hne]; [|rewrite drop_entries by done; by exists f].
    assert (is_ref (slot s i) r = true) as Href by (unfold is_ref; rewrite Hq; by apply bool_decide_eq_true_2).
    pose proof (rcount_pos _ _ _ _ Hr Href) as Hpos. rewrite <- (Trefs _ _ He) in Hpos.
    destruct Hm as [[-> H0]|[-> _]]; [lia|]. exists (set_dead e). rewrite lookup_insert_eq. split; [done|]. cbn. congruence.
  - intros t r q Hr Hq. destruct (Tzombie t r q Hr Hq) as (f & Hf). cbn.
    destruct (decide (q = slot s i)) as [->|Hne]; [|rewrite drop_entries by done; by exists f].
    assert (is_zombie (slot s i) r = true) as Hz by (by apply bool_decide_eq_true_2).
    pose proof (rcount_pos _ _ _ _ Hr Hz) as Hpos. rewrite (Tzombies _ _ He), Hd in Hpos. cbn in Hpos. lia.
  - intros j f [_ Hf]%drop_in. by apply (Tfresh j).
Qed.
End drop.

Lemma free_mem s R p e : entries s !! p = Some e ->
  mem_inv h0 (sh_heap s) (sh_log s) (owned s R) ->
  mem_inv h0 (sh_heap (exc_free p s)) (sh_log (exc_free p s)) (owned (exc_free p s) R).
Proof.
  intros Hp HM. pose proof (owned_entry s R p e Hp) as Ho. unfold exc_free. rewrite (entry_eq s p e Hp). cbn.
  apply mem_free with ENTRY_SIZE. apply mem_free with (e_size e).
  apply mem_use with ENTRY_SIZE; [right; by left | done |].
  eapply mem_perm; [|exact HM]. rewrite Ho. apply perm_swap.
Qed.

(** The effect on the table. *)
Definition dropped s i s' : Prop :=
  (forall j f, in_slot s' j f <-> j <> i /\ in_slot s j f) /\
  (forall j, 0 <= j -> slot s' j = if decide (j = i) then 0 else slot s j) /\
  exc_ld s' = exc_ld s /\ exc_total s' = exc_total s - slot_size s i.

Lemma dropped_intro s R i e m : tab_inv s R -> in_slot s i e ->
  drop_to s i e m ->
  dropped s i (set_entries m (set_total (exc_total s -64 e_size e) (set_slot i 0 s))).
Proof.
  intros HT Hin Hm. split_and!; [by eapply drop_in | by eapply drop_slot | done |].
  destruct (drop_total_eq s R i e HT Hin m Hm) as [-> _]. rewrite (drop_total s R i e HT Hin m Hm).
  by rewrite (in_slot_size s i e Hin), (ti_total _ _ _ HT).
Qed.

Lemma drop_spec s R i : core s R -> 0 <= i < EXC_SLOTS ->
  core (exc_drop_locked i s) R /\ dropped s i (exc_drop_locked i s).
Proof.
  intros [HM HT] Hi. unfold exc_drop_locked. destruct (Z.eqb_spec (slot s i) 0) as [E0|Hp].
  { split; [done|]. split_and!; [| | done | unfold slot_size; rewrite E0; cbn; lia].
    - intros j f. split; [|tauto]. intros Hj. split; [|done]. intros ->. by destruct Hj as (_ & ? & _).
    - intros j Hj. case_decide; congruence. }
  destruct (in_slot_intro s R i HT Hi Hp) as (e & Hin & Hd). pose proof Hin as (_ & _ & He).
  rewrite (entry_eq s _ _ He). set (s1 := set_total (exc_total s -64 e_size e) (set_slot i 0 s)).
  destruct (Z.eqb_spec (refs e) 0) as [Hr|Hr].
  - assert (drop_to s i e (delete (slot s i) (entries s))) as Hm by (by left).
    split; [|exact (dropped_intro s R i e _ HT Hin Hm)]. split; [by apply (free_mem s1 R (slot s i) e)|].
    eapply cache_ext with (s := put_log (XFree (slot s i)) (put_log (XFree (data e)) (put_log (XUse (slot s i) ENTRY_SIZE)
      (set_entries (delete (slot s i) (entries s)) s1)))); try done; [unfold exc_free; by rewrite (entry_eq s1 _ _ He)|].
    by do 3 (apply tab_plain; [done|]); apply (drop_tab s R i e).
  - assert (drop_to s i e (<[slot s i := set_dead e]> (entries s))) as Hm by (by right).
    split; [|exact (dropped_intro s R i e _ HT Hin Hm)]. split.
    + cbn. apply (mem_use _ _ _ _ _ _ ENTRY_SIZE); [|done|].
      * unfold owned. cbn. rewrite entry_blocks_update with (e := e) by done. change (_ ++ _) with (owned s R).
        rewrite (owned_entry s R _ e He). by left.
      * eapply mem_perm; [|exact HM]. unfold owned. cbn. by rewrite entry_blocks_update with (e := e) by done.
    + eapply cache_ext with (s := put_log (XUse (slot s i) ENTRY_SIZE) (set_entries (<[slot s i := set_dead e]> (entries s)) s1)); try done.
      by apply tab_plain; [|apply (drop_tab s R i e)].
Qed.

(** ** Invalidation *)

Lemma slot_is_true f s R i : tab_inv s R -> 0 <= i < EXC_SLOTS ->
  slot_is f s i = true <-> exists e, in_slot s i e /\ f e = true.
Proof.
  intros HT Hi. unfold slot_is. split.
  - intros [Hp Hf]%andb_true_iff. apply negb_true_iff, Z.eqb_neq in Hp.
    destruct (in_slot_intro s R i HT Hi Hp) as (e & Hin & _). exists e. rewrite (in_slot_entry _ _ _ Hin) in Hf. done.
  - intros (e & Hin & Hf). rewrite (in_slot_entry _ _ _ Hin), Hf. destruct Hin as (_ & Hp & _).
    by rewrite (proj2 (Z.eqb_neq _ _)).
Qed.
Lemma slot_is_false f s R i e : tab_inv s R -> in_slot s i e -> slot_is f s i = false -> f e = false.
Proof.
  intros HT Hin Hs. destruct (f e) eqn:E; [|done]. rewrite (proj2 (slot_is_true f s R i HT (proj1 Hin))) in Hs; [done|]. by exists e.
Qed.

Lemma drop_where_spec f s R : core s R ->
  core (drop_where f s) R /\ exc_ld (drop_where f s) = exc_ld s /\
  (forall j e, in_slot (drop_where f s) j e <-> in_slot s j e /\ f e = false).
Proof.
  intros HC. unfold drop_where.
  pose (P (j : Z) (b : shared H V) := core b R /\ exc_ld b = exc_ld s /\
    forall k e, in_slot b k e <-> in_slot s k e /\ (k < j -> f e = false)).
  match goal with |- context [zfor ?n ?i ?g s] => pose proof (zfor_ind P g n i s) as Hind end.
  destruct Hind as (HC' & Hld & Hin).
  - split_and!; [done | done |]. intros k e. split; [|tauto]. intros Hk. split; [done|]. destruct Hk as (? & _). lia.
  - intros j b Hj (Hb & Hld & Hin). assert (0 <= j < EXC_SLOTS) as Hj8 by (unfold EXC_SLOTS in *; lia).
    destruct (slot_is f b j) eqn:Es.
    + destruct (drop_spec b R j Hb Hj8) as [Hb' (Din & _ & Dld & _)].
      apply (slot_is_true f b R j (proj2 Hb) Hj8) in Es as (e0 & Hin0 & Hf0).
      split_and!; [done | congruence |]. intros k e. rewrite Din, Hin. split.
      * intros (Hne & Hk & Hf). split; [done|]. intros. apply Hf. lia.
      * intros (Hk & Hf). assert (k <> j) as Hne.
        { intros ->. assert (in_slot b j e) as Hbe by (apply Hin; split; [done | lia]).
          assert (e = e0) as -> by (destruct Hbe as (_ & _ & ?), Hin0 as (_ & _ & ?); congruence).
          rewrite Hf in Hf0; [done | lia]. }
        split_and!; [done | done |]. intros. apply Hf. lia.
    + split_and!; [done | done |]. intros k e. rewrite Hin. split; [|intros (Hk & Hf); split; [done|]; intros; apply Hf; lia].
      intros (Hk & Hf). split; [done|]. intros Hlt. destruct (decide (k = j)) as [->|]; [|apply Hf; lia].
      apply (slot_is_false f b R j); [apply Hb | apply Hin; split; [done | lia] | done].
  - split_and!; [done | done |]. intros j e. rewrite Hin. split; intros (Hj & Hf); (split; [done|]); [|done].
    apply Hf. destruct Hj as (? & _). unfold EXC_SLOTS in *. lia.
Qed.

Lemma drop_all_where s : zfor (Z.to_nat EXC_SLOTS) 0 exc_drop_locked s = drop_where (fun _ => true) s.
Proof.
  unfold drop_where. generalize 0 as i, (Z.to_nat EXC_SLOTS) as n. intros i n. revert i s.
  induction n as [|n IH]; intros i s; [done|]. cbn [zfor]. rewrite IH. f_equal.
  unfold slot_is, exc_drop_locked. destruct (slot s i =? 0) eqn:E; cbn; done.
Qed.

Lemma loading_set s i x j : zlen (exc_ld s) = EXC_LOADING -> 0 <= i < EXC_LOADING -> 0 <= j ->
  loading (set_loading i x s) j = if decide (j = i) then x else loading s j.
Proof.
  intros Hl Hi Hj. unfold loading. cbn. case_decide as E; [subst j; apply zget_zset_eq; lia | apply zget_zset_ne; lia].
Qed.

Lemma tab_dirty s R i : 0 <= i < EXC_LOADING -> used (loading s i) = true ->
  tab_inv s R -> tab_inv (set_loading i (mk_loading true true (ld_path (loading s i))) s) R.
Proof.
  intros Hi Hu HT. pose proof HT as [Tlen Tslot Tinj Talive Tkeys Tentry Trefs Tzombies Tref Tzombie Ttotal Tbudget Tld Tfresh Thits Tfiles].
  split; try done. pose proof Tld as [Llen Lload Linj Lused Lreads Lhit Lthreads].
  pose proof (fun j => loading_set s i (mk_loading true true (ld_path (loading s i))) j Llen Hi) as Hget. unfold loading in Hget.
  split; try done.
  - cbn. by rewrite zlen_zset.
  - intros t r j key Hr Hj. destruct (Lload t r j key Hr Hj) as (Hj4 & Hu' & Hk & Hlen & Hd). rewrite Hget by lia.
    case_decide as E; [|done]. subst j. split_and!; try done; try lia. by left.
  - intros j Hj. rewrite Hget by lia. case_decide as E; [subst j; intros _; by apply Lused | by apply Lused].
Qed.

Lemma dirty_where_spec f s R : core s R ->
  core (dirty_where f s) R /\ (forall j e, in_slot (dirty_where f s) j e <-> in_slot s j e) /\
  (forall i, 0 <= i < EXC_LOADING -> used (loading (dirty_where f s) i) = true -> dirty (loading (dirty_where f s) i) = false ->
     f (loading (dirty_where f s) i) = false).
Proof.
  intros HC. unfold dirty_where.
  pose (P (j : Z) (b : shared H V) := core b R /\ (forall k e, in_slot b k e <-> in_slot s k e) /\
    (forall k, j <= k -> loading b k = loading s k) /\
    (forall k, 0 <= k < j -> used (loading b k) = true -> dirty (loading b k) = false -> f (loading b k) = false)).
  match goal with |- context [zfor ?n ?i ?g s] => pose proof (zfor_ind P g n i s) as Hind end.
  destruct Hind as (HC' & Hin & _ & Hf); [| |split_and!; [done | done | exact Hf]].
  { split_and!; [done | done | done | intros; lia]. }
  intros j b Hj (Hb & Hin & Hrest & Hf). assert (0 <= j < EXC_LOADING) as Hj4 by (unfold EXC_LOADING in *; lia).
  destruct (used (loading b j) && f (loading b j)) eqn:E.
  - apply andb_true_iff in E as [Hu Hfj].
    pose proof (fun x k => loading_set b j x k (li_len _ _ _ (ti_ld _ _ _ (proj2 Hb))) Hj4) as Hget.
    split_and!; [split; [apply Hb | by apply tab_dirty, Hb] | done | |].
    + intros k Hk. rewrite Hget, decide_False by lia. apply Hrest. lia.
    + intros k Hk. rewrite Hget by lia. case_decide; [done|]. apply Hf. lia.
  - split_and!; [done | done | |].
    + intros k Hk. apply Hrest. lia.
    + intros k Hk Hu Hd. destruct (decide (k = j)) as [->|]; [|apply Hf; [lia | done | done]]. by rewrite Hu in E.
Qed.

Lemma inv_log s R e : is_mem e = false ->
  (forall i f, in_slot s i f -> kills (e_path f) e = false) ->
  (forall i, 0 <= i < EXC_LOADING -> used (loading s i) = true -> dirty (loading s i) = false -> kills (ld_path (loading s i)) e = false) ->
  match e with XRead _ _ => False | XHit _ key d => fresh (sh_log s) key d | _ => True end ->
  inv s R -> inv (put_log e s) R.
Proof. intros ???? [HC Ha]. split; [by apply core_log | done]. Qed.

Lemma in_slot_recount s i e : in_slot (exc_recount s) i e <-> in_slot s i e.
Proof. done. Qed.
Lemma loading_recount s i : loading (exc_recount s) i = loading s i.
Proof. done. Qed.

(** Dropping and marking what matches leaves nothing the event invalidates. *)
Lemma invalidate_inv s R e fe fl : is_mem e = false -> match e with XRead _ _ | XHit _ _ _ => False | _ => True end ->
  (forall f, fe f = false -> kills (e_path f) e = false) -> (forall l, fl l = false -> kills (ld_path l) e = false) ->
  core s R -> inv (put_log e (exc_recount (dirty_where fl (drop_where fe s)))) R.
Proof.
  intros Hm He Hfe Hfl HC. destruct (drop_where_spec fe s R HC) as (HC1 & _ & Hin1).
  destruct (dirty_where_spec fl (drop_where fe s) R HC1) as (HC2 & Hin2 & Hld).
  apply inv_log; [done | | | by destruct e | by apply recount_inv].
  - intros i f Hf. rewrite in_slot_recount, Hin2, Hin1 in Hf. apply Hfe, Hf.
  - intros i Hi. rewrite loading_recount. intros Hu Hd. by apply Hfl, Hld.
Qed.

(** ** References *)

Section update.
Context s R t (r r' : res) p (e e' : exc_entry) (HT : tab_inv s R) (Ht : R !! t = Some r) (He : entries s !! p = Some e).
Context (Hdead : dead e' = dead e) (Hpath : e_path e' = e_path e) (Hsize : e_size e' = e_size e) (Himage : image e' = image e).
Context (Hload : r_load r' = r_load r) (Hread : r_read r' = r_read r).
Context (Hhit : forall d, r_hit r' = Some d -> r_hit r = Some d \/ exists key, XHit t key d ∈ sh_log s).
Context (Hr : forall q d, r_ref r = Some (q, d) -> q = p) (Hr' : forall q d, r_ref r' = Some (q, d) -> q = p /\ d = image e).
Context (Hz : forall q, r_zombie r = Some q -> q = p) (Hz' : forall q, r_zombie r' = Some q -> q = p).
Context (Hrefs : refs e' = refs e - (if is_ref p r then 1 else 0) + (if is_ref p r' then 1 else 0)).
Context (Hzom : (if dead e && (refs e =? 0) then 1 else 0) - (if is_zombie p r then 1 else 0) + (if is_zombie p r' then 1 else 0) =
                (if dead e' && (refs e' =? 0) then 1 else 0)).

Lemma update_ref q : q <> p -> rcount (is_ref q) (<[t := r']> R) = rcount (is_ref q) R.
Proof using Ht Hr Hr'.
  intros Hq. apply (rcount_same _ _ _ r); [done|]. unfold is_ref. apply bool_decide_ext.
  destruct (r_ref r) as [[a d]|] eqn:E, (r_ref r') as [[a' d']|] eqn:E'; cbn; try (specialize (Hr _ _ eq_refl)); try (destruct (Hr' _ _ eq_refl)); naive_solver.
Qed.
Lemma update_zombie q : q <> p -> rcount (is_zombie q) (<[t := r']> R) = rcount (is_zombie q) R.
Proof using Ht Hz Hz'.
  intros Hq. apply (rcount_same _ _ _ r); [done|]. unfold is_zombie. apply bool_decide_ext.
  split; intros E; [specialize (Hz' _ E) | specialize (Hz _ E)]; congruence.
Qed.

Lemma update_in j f : in_slot (set_entry p e' s) j f <-> exists g, in_slot s j g /\ f = if decide (slot s j = p) then e' else g.
Proof using He.
  unfold in_slot. cbn. change (slot (set_entry p e' s) j) with (slot s j). case_decide as E.
  - rewrite E, lookup_insert_eq. split; [intros (? & ? & [= <-]); by exists e | intros (g & (? & ? & _) & ->); done].
  - rewrite lookup_insert_ne by congruence. split; [intros ?; by exists f | by intros (g & ? & ->)].
Qed.

Lemma update_path j g : in_slot s j g -> e_path (if decide (slot s j = p) then e' else g) = e_path g.
Proof using He Hpath. intros (_ & _ & Hg). case_decide as E; [|done]. rewrite E in Hg. congruence. Qed.

Lemma update_total : total_size (set_entry p e' s) = total_size s.
Proof using He Hsize.
  apply zsum_ext. intros j _. unfold slot_size. change (slot (set_entry p e' s) j) with (slot s j).
  destruct (slot s j =? 0); [done|]. unfold entry. cbn. destruct (decide (p = slot s j)) as [<-|Hne].
  - by rewrite lookup_insert_eq, He.
  - by rewrite lookup_insert_ne.
Qed.

Lemma update_tab : tab_inv (set_entry p e' s) (<[t := r']> R).
Proof using All.
  pose proof HT as [Tlen Tslot Tinj Talive Tkeys Tentry Trefs Tzombies Tref Tzombie Ttotal Tbudget Tld Tfresh Thits Tfiles].
  assert (forall q f, entries (set_entry p e' s) !! q = Some f -> q = p /\ f = e' \/ q <> p /\ entries s !! q = Some f) as Hget.
  { intros q f. cbn. destruct (decide (q = p)) as [->|Hne]; [rewrite lookup_insert_eq; by intros [= <-]; left|].
    rewrite lookup_insert_ne by done. by right. }
  split; try done.
  - intros j Hj Hp. destruct (Tslot j Hj Hp) as (f & Hf & Hd). cbn. change (slot (set_entry p e' s) j) with (slot s j).
    destruct (decide (p = slot s j)) as [E|Hne]; [|rewrite lookup_insert_ne by done; by exists f].
    rewrite <- E in Hf |- *. rewrite lookup_insert_eq. exists e'. split; [done|]. rewrite Hdead. congruence.
  - intros q f [[-> ->]|[Hne Hq]]%Hget Hd; [|by apply (Talive q f)]. by apply (Talive p e); [|congruence].
  - intros j k f g (f0 & Hf & ->)%update_in (g0 & Hg & ->)%update_in Hk. apply (Tkeys j k f0 g0); [done | done|].
    by rewrite !update_path in Hk by done.
  - intros q f [[-> ->]|[Hne Hq]]%Hget; [|by apply Tentry]. destruct (Tentry p e He) as (? & ? & ? & ?). unfold entry_ok.
    rewrite Hpath, Hsize, Himage. done.
  - intros q f [[-> ->]|[Hne Hq]]%Hget; [|rewrite update_ref by done; by apply Trefs].
    rewrite (rcount_insert _ _ _ _ _ Ht), <- (Trefs p e He). lia.
  - intros q f [[-> ->]|[Hne Hq]]%Hget; [|rewrite update_zombie by done; by apply Tzombies].
    rewrite (rcount_insert _ _ _ _ _ Ht), (Tzombies p e He). exact Hzom.
  - intros u x q d Hu Hq. apply list_lookup_insert_Some in Hu as [(-> & -> & _)|(_ & Hu)].
    + destruct (Hr' q d Hq) as [-> ->]. exists e'. cbn. by rewrite lookup_insert_eq.
    + destruct (Tref u x q d Hu Hq) as (f & Hf & Hd). cbn. destruct (decide (p = q)) as [<-|Hne].
      * exists e'. rewrite lookup_insert_eq. split; congruence.
      * exists f. by rewrite lookup_insert_ne.
  - intros u x q Hu Hq. cbn. destruct (decide (p = q)) as [<-|Hne]; [rewrite lookup_insert_eq; by eexists|].
    rewrite lookup_insert_ne by done. apply list_lookup_insert_Some in Hu as [(-> & -> & _)|(_ & Hu)]; [|by eapply Tzombie].
    by destruct Hne; rewrite (Hz' q Hq).
  - by rewrite update_total.
  - by apply (ld_res _ _ _ t r).
  - intros j f (g & Hg & ->)%update_in. destruct (decide (slot s j = p)) as [E|]; [|by apply (Tfresh j)].
    rewrite Hpath, Himage. apply (Tfresh j). destruct Hg as (? & ? & _). split_and!; [lia | lia | done | by rewrite E].
Qed.
End update.

Lemma held_same R t r r' : R !! t = Some r -> r_blocks r' = r_blocks r -> held (<[t := r']> R) ≡ₚ held R.
Proof. intros Ht Hb. destruct (held_insert R t r r' Ht) as [E1 E2]. by rewrite E1, E2, Hb. Qed.

Lemma is_ref_some p d r : r_ref r = Some (p, d) -> is_ref p r = true.
Proof. intros E. apply bool_decide_eq_true_2. by rewrite E. Qed.
Lemma is_zombie_some p r : r_zombie r = Some p -> is_zombie p r = true.
Proof. intros E. by apply bool_decide_eq_true_2. Qed.
Lemma is_ref_none p r : r_ref r = None -> is_ref p r = false.
Proof. intros E. apply bool_decide_eq_false_2. by rewrite E. Qed.
Lemma is_zombie_none p r : r_zombie r = None -> is_zombie p r = false.
Proof. intros E. apply bool_decide_eq_false_2. by rewrite E. Qed.

Lemma refs_bound s R t r p e : tab_inv s R -> R !! t = Some r -> r_ref r = None -> entries s !! p = Some e ->
  0 <= refs e < 2 ^ 32 - 1.
Proof.
  intros HT Ht Hr He. rewrite (ti_refs _ _ _ HT p e He). pose proof (rcount_bounds (is_ref p) R).
  pose proof (rcount_lt (is_ref p) R t r Ht (is_ref_none p r Hr)). pose proof (li_threads _ _ _ (ti_ld _ _ _ HT)). lia.
Qed.

Definition with_hit (p : Z) (d : list Z) (r : res) : res := mk_res (r_blocks r) (Some (p, d)) None (r_load r) (r_read r) (Some d).

Lemma hit_inv s R t r i e key tick hits : core s R -> R !! t = Some r -> r_ref r = None -> r_zombie r = None ->
  in_slot s i e -> e_path e = key ->
  let p := slot s i in
  let s1 := put_log (XHit t key (image e)) (put_log (XUse p ENTRY_SIZE) s) in
  inv (exc_recount (set_counts tick hits (exc_misses s1) (set_entry p (set_lru tick (set_refs (u32 (refs e + 1)) e)) s1)))
    (<[t := with_hit p (image e) r]> R).
Proof.
  intros HC Ht Hr Hz Hin Hkey p s1. pose proof Hin as (Hi & Hp & He). fold p in Hp, He.
  assert (core s1 R) as [HM HT].
  { pose proof (core_use_entry _ _ _ _ _ _ He HC) as HC1. apply core_log; try done.
    rewrite <- Hkey. apply (ti_fresh _ _ _ (proj2 HC1) i). exact Hin. }
  pose proof (refs_bound s1 R t r p e HT Ht Hr He) as Hb.
  destruct (ti_slot _ _ _ HT i Hi Hp) as (e0 & He0 & Hd). change (entries s !! p = Some e0) in He0. assert (e0 = e) as -> by congruence.
  apply recount_inv. eapply core_ext with (s := set_entry p (set_lru tick (set_refs (u32 (refs e + 1)) e)) s1); try done.
  split.
  - eapply mem_perm; [|exact HM]. unfold owned. cbn [entries set_entry set_entries].
    rewrite entry_blocks_update with (e := e) by done. by rewrite (held_same R t r) by done.
  - apply (update_tab s1 R t r) with (e := e); try done; cbn [with_hit r_ref r_hit r_zombie].
    + intros d [= <-]. right. exists key. apply elem_of_app. right. by left.
    + by rewrite Hr.
    + by intros q d [= <- <-].
    + by rewrite Hz.
    + rewrite (is_ref_none p r Hr), (is_ref_some p (image e)) by done. cbn. rewrite u32_small by lia. lia.
    + rewrite (is_zombie_none p r Hz), is_zombie_none by done. cbn. by rewrite Hd.
Qed.

Lemma lookup_inv s R t r key id : inv s R -> R !! t = Some r -> r_ref r = None -> r_zombie r = None ->
  let '(p, s') := exc_lookup t key id s in
  (p = 0 /\ inv s' R) \/ exists d, p <> 0 /\ zlen d = id_size id /\ inv s' (<[t := with_hit p d r]> R).
Proof.
  intros [HC _] Ht Hr Hz. unfold exc_lookup. pose proof (proj2 HC) as HT.
  destruct (zfind _ _ _) as [i|] eqn:E; [|left; split; [done | by apply recount_inv]].
  apply zfind_same in E as (Hi & Hs & _). assert (0 <= i < EXC_SLOTS) as Hi8 by (unfold EXC_SLOTS in *; lia).
  apply (slot_is_true _ s R i HT Hi8) in Hs as (e & Hin & Hk). apply bool_decide_eq_true in Hk.
  pose proof (in_slot_entry s i e Hin) as Ee. rewrite Ee. destruct (exc_same e id) eqn:Es.
  - right. exists (image e). split_and!; [by apply Hin | | by eapply hit_inv].
    unfold exc_same in Es. bool_hyps. destruct Hin as (_ & _ & He). destruct (ti_entry _ _ _ HT _ _ He) as (_ & Hl & _). lia.
  - left. split; [done|]. by apply recount_inv, drop_spec.
Qed.

Definition with_ref (o : option (Z * list Z)) (z : option Z) (r : res) : res :=
  mk_res (r_blocks r) o z (r_load r) (r_read r) (r_hit r).

Lemma unref_inv s R t r p d : inv s R -> R !! t = Some r -> r_ref r = Some (p, d) -> r_zombie r = None ->
  let '(b, s') := exc_unref p s in inv s' (<[t := with_ref None (if b then Some p else None) r]> R).
Proof.
  intros [HC Ha] Ht Hr Hz. destruct (ti_ref _ _ _ (proj2 HC) t r p d Ht Hr) as (e & He & Hd).
  pose proof (core_use_entry _ _ _ _ _ _ He HC) as [HM HT]. unfold exc_unref. rewrite (entry_eq s p e He).
  set (s1 := put_log (XUse p ENTRY_SIZE) s) in *.
  pose proof (ti_refs _ _ _ HT p e He) as Hrefs. pose proof (rcount_pos _ _ _ _ Ht (is_ref_some p d r Hr)) as Hpos.
  rewrite (proj2 (Z.eqb_neq (refs e) 0)) by lia. set (e' := set_refs (refs e - 1) e).
  split; [split|done].
  - eapply mem_perm; [|exact HM]. unfold owned. cbn [entries set_entry set_entries].
    rewrite entry_blocks_update with (e := e) by done. by rewrite (held_same R t r) by done.
  - apply (update_tab s1 R t r) with (e := e); try done; cbn [with_ref r_ref r_hit r_zombie].
    + by left.
    + intros q x Hq. rewrite Hr in Hq. congruence.
    + by rewrite Hz.
    + intros q. by destruct (_ && _); [intros [= <-]|].
    + rewrite (is_ref_some p d r Hr), is_ref_none by done. cbn. lia.
    + rewrite (is_zombie_none p r Hz). rewrite (proj2 (Z.eqb_neq (refs e) 0)) by lia. rewrite andb_false_r.
      unfold is_zombie. cbn. destruct (dead e && (refs e - 1 =? 0)); [by rewrite bool_decide_eq_true_2|].
      by rewrite bool_decide_eq_false_2.
Qed.

(** ** Freeing a dead entry *)

Section free.
Context s R t (r : res) p (HT : tab_inv s R) (Ht : R !! t = Some r) (Hz : r_zombie r = Some p) (Hr : r_ref r = None).
Let s' : shared H V := set_entries (delete p (entries s)) s.
Let r' : res := with_ref None None r.

Lemma free_dead : exists e, entries s !! p = Some e /\ dead e = true /\ rcount (is_ref p) R = 0 /\ rcount (is_zombie p) R = 1.
Proof using HT Ht Hz.
  destruct (ti_zombie _ _ _ HT t r p Ht Hz) as (e & He). exists e.
  pose proof (rcount_pos _ _ _ _ Ht (is_zombie_some p r Hz)) as Hpos. rewrite (ti_zombies _ _ _ HT p e He) in *.
  rewrite <- (ti_refs _ _ _ HT p e He). destruct (dead e); [|cbn in Hpos; lia].
  destruct (Z.eqb_spec (refs e) 0); cbn in *; [done | lia].
Qed.
Lemma free_slot j : 0 <= j < EXC_SLOTS -> slot s j <> 0 -> slot s j <> p.
Proof using HT Ht Hz.
  intros Hj Hp E. destruct free_dead as (e & He & Hd & _). destruct (ti_slot _ _ _ HT j Hj Hp) as (f & Hf & Hfd). congruence.
Qed.
Lemma free_in j f : in_slot s' j f <-> in_slot s j f.
Proof using HT Ht Hz.
  unfold in_slot. change (slot s' j) with (slot s j). cbn. split; intros (Hj & Hp & Hf); (split_and!; [lia | lia | done |]).
  - by apply lookup_delete_Some in Hf as [_ ?].
  - rewrite lookup_delete_ne; [done|]. by apply not_eq_sym, free_slot.
Qed.
Lemma free_other (f : res -> bool) : f r = false -> f r' = false -> rcount f (<[t := r']> R) = rcount f R.
Proof using Ht. intros E1 E2. apply (rcount_same f R t r); [done|]. by rewrite E1, E2. Qed.

Lemma free_tab : tab_inv s' (<[t := r']> R).
Proof using HT Ht Hz Hr.
  destruct free_dead as (e & He & Hd & Hrc & Hzc).
  pose proof HT as [Tlen Tslot Tinj Talive Tkeys Tentry Trefs Tzombies Tref Tzombie Ttotal Tbudget Tld Tfresh Thits Tfiles].
  assert (forall q f, entries s' !! q = Some f -> q <> p /\ entries s !! q = Some f) as Hget.
  { intros q f Hq. apply (lookup_delete_Some (entries s)) in Hq as [? ?]. split; congruence. }
  split; try done.
  - intros j Hj Hp. destruct (Tslot j Hj Hp) as (f & Hf & Hfd). exists f. split; [|done]. cbn.
    rewrite lookup_delete_ne; [done|]. by apply not_eq_sym, free_slot.
  - intros q f [Hne Hq]%Hget Hfd. by apply (Talive q f).
  - intros j k f g Hf%free_in Hg%free_in. by apply Tkeys.
  - intros q f [Hne Hq]%Hget. by apply Tentry.
  - intros q f [Hne Hq]%Hget. rewrite free_other; [by apply Trefs | by apply is_ref_none..].
  - intros q f [Hne Hq]%Hget. rewrite free_other; [by apply Tzombies | | done].
    apply bool_decide_eq_false_2. congruence.
  - intros u x q d Hu Hq. apply list_lookup_insert_Some in Hu as [(-> & <- & _)|(_ & Hu)]; [done|].
    destruct (Tref u x q d Hu Hq) as (f & Hf & Hfd). exists f. split; [|done]. cbn. rewrite lookup_delete_ne; [done|].
    intros <-. pose proof (rcount_pos _ _ _ _ Hu (is_ref_some p d x Hq)). lia.
  - intros u x q Hu Hq. apply list_lookup_insert_Some in Hu as [(-> & <- & _)|(Hne & Hu)]; [done|].
    destruct (Tzombie u x q Hu Hq) as (f & Hf). exists f. cbn. rewrite lookup_delete_ne; [done|].
    intros <-. assert (<[t := r']> R !! u = Some x) as Hu' by (by rewrite list_lookup_insert_ne).
    pose proof (rcount_pos _ _ _ _ Hu' (is_zombie_some p x Hq)) as Hpos. rewrite (rcount_insert _ _ _ _ _ Ht) in Hpos.
    rewrite (is_zombie_some p r Hz), (is_zombie_none p r') in Hpos by done. lia.
  - change (exc_total s = total_size s'). rewrite Ttotal. apply zsum_ext. intros j Hj. unfold slot_size. change (slot s' j) with (slot s j).
    destruct (Z.eqb_spec (slot s j) 0); [done|]. unfold entry. cbn. rewrite lookup_delete_ne; [done|].
    apply not_eq_sym, free_slot; unfold EXC_SLOTS in *; lia.
  - apply (ld_res _ _ _ t r); [done..| |done]. by left.
  - intros j f Hf%free_in. by apply (Tfresh j).
Qed.
End free.

Lemma free_inv s R t r p : inv s R -> R !! t = Some r -> r_zombie r = Some p -> r_ref r = None ->
  inv (exc_free p s) (<[t := with_ref None None r]> R).
Proof.
  intros [[HM HT] Ha] Ht Hz Hr. destruct (free_dead s R t r p HT Ht Hz) as (e & He & _).
  split; [split|done].
  - eapply mem_perm; [|exact (free_mem s R p e He HM)]. unfold owned. by rewrite (held_same R t r) by done.
  - eapply cache_ext with (s := put_log (XFree p) (put_log (XFree (data e)) (put_log (XUse p ENTRY_SIZE)
      (set_entries (delete p (entries s)) s)))); try done; [unfold exc_free; by rewrite (entry_eq s _ _ He)|].
    by do 3 (apply tab_plain; [done|]); apply free_tab.
Qed.

(** ** What a call does for itself *)

Definition private (e : xevent) : bool := match e with XInval _ _ | XInvalAll | XHit _ _ _ => false | _ => true end.

(** The table is the same; what the call [t] holds, its load and the log change. *)
Lemma tab_thread s s' R t r r' l : tab_inv s R -> R !! t = Some r -> r_ref r' = r_ref r -> r_zombie r' = r_zombie r ->
  exc s' = exc s -> entries s' = entries s -> exc_total s' = exc_total s ->
  sh_log s' = sh_log s ++ l -> sh_files s' = sh_files s -> Forall (fun e => private e = true) l ->
  ld_inv (exc_ld s') (sh_log s') (<[t := r']> R) -> tab_inv s' (<[t := r']> R).
Proof.
  intros [Tlen Tslot Tinj Talive Tkeys Tentry Trefs Tzombies Tref Tzombie Ttotal Tbudget Tld Tfresh Thits Tfiles] Ht Hr Hz E1 E2 E3 El Efs Hl Hld.
  assert (forall p, rcount (is_ref p) (<[t := r']> R) = rcount (is_ref p) R) as Hcr.
  { intros p. apply (rcount_same _ _ _ r); [done|]. unfold is_ref. by rewrite Hr. }
  assert (forall p, rcount (is_zombie p) (<[t := r']> R) = rcount (is_zombie p) R) as Hcz.
  { intros p. apply (rcount_same _ _ _ r); [done|]. unfold is_zombie. by rewrite Hz. }
  assert (forall i, slot s' i = slot s i) as Hs by (intros i; unfold slot; by rewrite E1).
  assert (forall i e, in_slot s' i e <-> in_slot s i e) as Hin by (intros i e; unfold in_slot; by rewrite Hs, E2).
  assert (forall k d, fresh (sh_log s) k d -> fresh (sh_log s') k d) as Hfr.
  { intros k d Hf. rewrite El. clear -Hl Hf. induction l as [|e l IH] using rev_ind; [by rewrite app_nil_r|].
    apply Forall_app in Hl as [Hl He]. apply Forall_cons_1 in He as [He _]. rewrite app_assoc. apply fresh_snoc; [by destruct e | by apply IH]. }
  split; try done; rewrite ?E1, ?E2, ?E3, ?Efs; try done.
  - intros i. rewrite !Hs. apply Tslot.
  - intros i j. rewrite !Hs. apply Tinj.
  - intros p e Hp Hd. destruct (Talive p e Hp Hd) as (i & Hi & Hp'). exists i. by rewrite Hs.
  - intros i j e f He%Hin Hf%Hin. by apply Tkeys.
  - intros p e Hp. rewrite Hcr. by apply Trefs.
  - intros p e Hp. rewrite Hcz. by apply Tzombies.
  - intros u x p d Hu Hx. apply list_lookup_insert_Some in Hu as [(<- & <- & _)|(_ & Hu)]; [|by eapply Tref].
    apply (Tref t r p d Ht). congruence.
  - intros u x p Hu Hx. apply list_lookup_insert_Some in Hu as [(<- & <- & _)|(_ & Hu)]; [|by eapply Tzombie].
    apply (Tzombie t r p Ht). congruence.
  - rewrite Ttotal. apply zsum_ext. intros j _. unfold slot_size, entry. by rewrite Hs, E2.
  - intros i e He%Hin. by apply Hfr, (Tfresh i).
  - rewrite El. clear -Hl Thits. induction l as [|e l IH] using rev_ind; [by rewrite app_nil_r|].
    apply Forall_app in Hl as [Hl He]. apply Forall_cons_1 in He as [He _]. rewrite app_assoc. apply hits_snoc; [by destruct e | by apply IH].
Qed.

Definition with_blocks (bl : list (Z * Z)) (r : res) : res := mk_res bl (r_ref r) (r_zombie r) (r_load r) (r_read r) (r_hit r).
Definition with_load (o : option (Z * cstr)) (r : res) : res := mk_res (r_blocks r) (r_ref r) (r_zombie r) o (r_read r) (r_hit r).
Definition with_got (b : list Z) (r : res) : res := mk_res (r_blocks r) (r_ref r) (r_zombie r) (r_load r) b (r_hit r).

(** ** Registered loads *)

Lemma ld_register lds log R t r i key : ld_inv lds log R -> R !! t = Some r -> r_load r = None -> r_read r = [] ->
  0 <= i < EXC_LOADING -> used (zget lds i) = false -> zlen key < EXC_PATH ->
  ld_inv (zset lds i (mk_loading true false key)) (log ++ [XReg t key]) (<[t := with_load (Some (i, key)) r]> R).
Proof.
  intros Hld Ht Hr Hrd Hi Hu Hk. assert (ld_inv lds (log ++ [XReg t key]) R) as [Llen Lload Linj Lused Lreads Lhit Lthreads]
    by (by apply ld_log). pose proof (lookup_lt_Some _ _ _ Ht) as Hlt.
  assert (forall j, 0 <= j -> zget (zset lds i (mk_loading true false key)) j = if decide (j = i) then mk_loading true false key else zget lds j) as Hget.
  { intros j Hj. case_decide as E; [subst j; apply zget_zset_eq; lia | apply zget_zset_ne; lia]. }
  assert (forall u x k, R !! u = Some x -> r_load x = Some (i, k) -> False) as Hfree.
  { intros u x k Hx Hl. destruct (Lload u x i k Hx Hl) as (_ & Hu' & _). congruence. }
  split.
  - by rewrite zlen_zset.
  - intros u x j k Hu' Hx. apply list_lookup_insert_Some in Hu' as [(<- & <- & _)|(Hne & Hu')].
    + injection Hx as <- <-. rewrite Hget, decide_True by lia. split_and!; try done; try lia. right.
      exists log, []. split_and!; [done | | by constructor]. by rewrite (li_reads _ _ _ Hld t r Ht).
    + destruct (Lload u x j k Hu' Hx) as (Hj & Hrest). rewrite Hget by lia. rewrite decide_False; [done|].
      intros ->. by eapply Hfree.
  - intros u v x y j k k' Hu' Hv Hx Hy. apply list_lookup_insert_Some in Hu' as [(<- & <- & _)|(Hne & Hu')];
      apply list_lookup_insert_Some in Hv as [(<- & <- & _)|(Hnv & Hv)].
    + done.
    + injection Hx as <- <-. by destruct (Hfree v y k').
    + injection Hy as <- <-. by destruct (Hfree u x k).
    + by eapply Linj.
  - intros j Hj. rewrite Hget by lia. case_decide as E; intros Hu'.
    + subst j. exists t, (with_load (Some (i, key)) r), key. split; [by apply list_lookup_insert_eq | done].
    + destruct (Lused j Hj Hu') as (u & x & k & Hx & Hk'). exists u, x, k. split; [|done].
      rewrite list_lookup_insert_ne; [done|]. intros <-. congruence.
  - intros u x Hu'. apply list_lookup_insert_Some in Hu' as [(<- & <- & _)|(_ & Hu')]; [exact (Lreads t r Ht) | by apply Lreads].
  - intros u x d Hu' Hd. apply list_lookup_insert_Some in Hu' as [(<- & <- & _)|(_ & Hu')]; [exact (Lhit t r d Ht Hd) | by eapply Lhit].
  - by rewrite length_insert.
Qed.
End lock.
