(* ===== verification/ExecLoads.v ===== *)
(** * Loads of the exec image cache

    The critical sections of [exec_image_load] in src/exec_cache.c that register
    a load and insert its image keep the invariant of [ExecInv]. *)
From stdpp Require Import gmap.
From S2P Require Import Prelude Paths Heap ExecCache ExecMem ExecInv ExecLock.
#[local] Open Scope Z_scope.

Section loads.
Context {H V : Type} `{!KHeap H, !KHeapLaws H, !ExecFiles V} (total_memory_bytes : Z) (h0 : H).
Implicit Types (s : shared H V) (R : list res) (t : nat) (i p : Z).
Abbreviation tab_inv := (tab_inv total_memory_bytes).
Abbreviation core := (core total_memory_bytes h0).
Abbreviation inv := (inv total_memory_bytes h0).

Lemma register_inv s R t r key : inv s R -> R !! t = Some r -> r_load r = None -> r_read r = [] -> zlen key < EXC_PATH ->
  let '(i, s') := exc_register t key s in
  (i = -1 /\ inv s' R) \/ (0 <= i /\ inv s' (<[t := with_load (Some (i, key)) r]> R)).
Proof.
  intros [[HM HT] _] Ht Hr Hrd Hk. unfold exc_register.
  set (s1 := set_counts (exc_tick s) (exc_hits s) (u64 (exc_misses s + 1)) s).
  destruct (zfind _ _ _) as [i|] eqn:E; [right | left].
  - apply zfind_same in E as (Hi & Hu & _). apply negb_true_iff in Hu.
    assert (0 <= i < EXC_LOADING) as Hi4 by (unfold EXC_LOADING in *; lia). split; [lia|]. apply recount_inv. split.
    + cbn. apply mem_other; [done|]. eapply mem_perm; [|exact HM]. unfold owned. by rewrite (held_same R t r) by done.
    + apply (tab_thread total_memory_bytes s _ R t r _ [XReg t key]); try done; [by constructor|].
      by apply ld_register; [apply HT|..].
  - split; [done|]. apply recount_inv. by apply (core_ext _ _ s).
Qed.

Lemma ld_unregister lds log R t r i key b : ld_inv lds log R -> R !! t = Some r -> r_load r = Some (i, key) ->
  ld_inv (zset lds i (mk_loading false b key)) log (<[t := with_load None r]> R).
Proof.
  intros [Llen Lload Linj Lused Lreads Lhit Lthreads] Ht Hr. destruct (Lload t r i key Ht Hr) as (Hi & _).
  assert (forall j, 0 <= j -> zget (zset lds i (mk_loading false b key)) j = if decide (j = i) then mk_loading false b key else zget lds j) as Hget.
  { intros j Hj. case_decide as E; [subst j; apply zget_zset_eq; lia | apply zget_zset_ne; lia]. }
  split.
  - by rewrite zlen_zset.
  - intros u x j k Hu Hx. apply list_lookup_insert_Some in Hu as [(<- & <- & _)|(Hne & Hu)]; [done|].
    destruct (Lload u x j k Hu Hx) as (Hj & Hrest). rewrite Hget by lia. rewrite decide_False; [done|].
    intros ->. by destruct Hne; eapply Linj.
  - intros u v x y j k k' Hu Hv Hx Hy. apply list_lookup_insert_Some in Hu as [(<- & <- & _)|(_ & Hu)]; [done|].
    apply list_lookup_insert_Some in Hv as [(<- & <- & _)|(_ & Hv)]; [done|]. by eapply Linj.
  - intros j Hj. rewrite Hget by lia. case_decide as E; [done|]. intros Hu.
    destruct (Lused j Hj Hu) as (u & x & k & Hx & Hk). exists u, x, k. split; [|done].
    rewrite list_lookup_insert_ne; [done|]. intros <-. congruence.
  - intros u x Hu. apply list_lookup_insert_Some in Hu as [(<- & <- & _)|(_ & Hu)]; [exact (Lreads t r Ht) | by apply Lreads].
  - intros u x d Hu Hd. apply list_lookup_insert_Some in Hu as [(<- & <- & _)|(_ & Hu)]; [exact (Lhit t r d Ht Hd) | by eapply Lhit].
  - by rewrite length_insert.
Qed.

(** The load's slot is free again. *)
Definition unload i s : shared H V := set_loading i (mk_loading false (dirty (loading s i)) (ld_path (loading s i))) s.
Lemma unload_core s R t r i key : core s R -> R !! t = Some r -> r_load r = Some (i, key) ->
  core (unload i s) (<[t := with_load None r]> R).
Proof.
  intros [HM HT] Ht Hr. split.
  - eapply mem_perm; [|exact HM]. unfold owned. by rewrite (held_same R t r) by done.
  - destruct (li_load _ _ _ (ti_ld _ _ _ HT) t r i key Ht Hr) as (_ & _ & Hk & _).
    apply (tab_thread total_memory_bytes s _ R t r _ []); try done; [by rewrite app_nil_r|].
    cbn. unfold loading. rewrite Hk. apply ld_unregister; [apply HT | done..].
Qed.
Lemma unregister_inv s R t r i key : inv s R -> R !! t = Some r -> r_load r = Some (i, key) ->
  inv (exc_unregister i s) (<[t := with_load None r]> R).
Proof. intros [HC _] Ht Hr. by apply recount_inv, (unload_core s R t r i key). Qed.

(** ** Making room *)

(** Only memory events are logged, and no entry comes in. *)
Definition shrinks s s' : Prop :=
  (exists l, sh_log s' = sh_log s ++ l /\ Forall (fun e => is_mem e = true) l) /\
  (forall j e, in_slot s' j e -> in_slot s j e).

Lemma shrinks_refl s : shrinks s s.
Proof. split; [exists []; by rewrite app_nil_r | done]. Qed.
Lemma shrinks_trans s1 s2 s3 : shrinks s1 s2 -> shrinks s2 s3 -> shrinks s1 s3.
Proof.
  intros [(l & E & Hl) H1] [(l' & E' & Hl') H2]. split; [|by auto]. exists (l ++ l'). rewrite E', E, app_assoc.
  split; [done|]. by apply Forall_app.
Qed.
Lemma drop_shrinks s R i : core s R -> 0 <= i < EXC_SLOTS -> shrinks s (exc_drop_locked i s).
Proof.
  intros HC Hi. split.
  - unfold exc_drop_locked. destruct (_ =? 0); [exists []; by rewrite app_nil_r|].
    destruct (refs _ =? 0); cbn; [|eexists; split; [done|]; by repeat constructor].
    rewrite <- !app_assoc. eexists; split; [done|]. by repeat constructor.
  - intros j e Hj. by apply (proj1 (proj2 (drop_spec total_memory_bytes h0 s R i HC Hi))) in Hj as [_ ?].
Qed.

Lemma shrinks_reading s s' t key d : shrinks s s' -> reading (sh_log s) t key -> reads_of t (sh_log s) = d ->
  reading (sh_log s') t key /\ reads_of t (sh_log s') = d.
Proof.
  intros [(l & -> & Hl) _] Hr Hd. induction l as [|e l IH] using rev_ind; [by rewrite app_nil_r|].
  apply Forall_app in Hl as [Hl He]. apply Forall_cons_1 in He as [He _]. destruct (IH Hl) as [IH1 IH2]. rewrite app_assoc. split.
  - apply reading_snoc; [by destruct e | done].
  - rewrite reads_of_snoc, IH2. destruct e; (done || by rewrite app_nil_r).
Qed.

Lemma drop_where_shrinks f s R : core s R -> shrinks s (drop_where f s).
Proof.
  intros HC. unfold drop_where. pose (P (j : Z) (b : shared H V) := core b R /\ shrinks s b).
  match goal with |- context [zfor ?n ?i ?g s] => pose proof (zfor_ind P g n i s) as Hind end.
  apply Hind; [split; [done | apply shrinks_refl]|]. intros j b Hj [Hb Hs].
  assert (0 <= j < EXC_SLOTS) as Hj8 by (unfold EXC_SLOTS in *; lia). destruct (slot_is f b j); [|done].
  split; [by apply drop_spec|]. eapply shrinks_trans; [done|]. by apply (drop_shrinks b R).
Qed.

Lemma oldest_range s : -1 <= exc_oldest s < EXC_SLOTS.
Proof.
  unfold exc_oldest. match goal with |- context [zfor ?n ?i ?g ?a] =>
    pose proof (zfor_ind (fun _ v => -1 <= v < EXC_SLOTS) g n i a) as Hind end.
  apply Hind; [done|]. intros j v Hj Hv. destruct (_ && _); [unfold EXC_SLOTS in *; lia | done].
Qed.
Lemma evict_spec fuel size s R : core s R ->
  core (exc_evict total_memory_bytes fuel size s) R /\ shrinks s (exc_evict total_memory_bytes fuel size s).
Proof.
  revert s. induction fuel as [|fuel IH]; intros s HC; cbn [exc_evict]; [split; [done | apply shrinks_refl]|].
  destruct (negb _); [split; [done | apply shrinks_refl]|]. pose proof (oldest_range s).
  destruct (Z.ltb_spec (exc_oldest s) 0); [split; [done | apply shrinks_refl]|].
  assert (0 <= exc_oldest s < EXC_SLOTS) as Hv by lia. destruct (drop_spec total_memory_bytes h0 s R _ HC Hv) as [HC' _].
  destruct (IH _ HC') as [IH1 IH2]. split; [done|]. eapply shrinks_trans; [by apply (drop_shrinks s R) | done].
Qed.
Lemma slot_spec s R : core s R ->
  let '(i, s') := exc_slot s in core s' R /\ shrinks s s' /\ 0 <= i < EXC_SLOTS /\ slot s' i = 0.
Proof.
  intros HC. unfold exc_slot. destruct (zfind _ _ _) as [i|] eqn:E.
  - apply zfind_same in E as (Hi & Hs & _). apply Z.eqb_eq in Hs. split_and!; [done | apply shrinks_refl | lia | unfold EXC_SLOTS in *; lia | done].
  - match goal with |- context [zfor ?n ?i ?g ?a] => set (v := zfor n i g a);
      pose proof (zfor_ind (fun _ v => 0 <= v < EXC_SLOTS) g n i a) as Hind end.
    assert (0 <= v < EXC_SLOTS) as Hv.
    { apply Hind; [done|]. intros j w Hj Hw. destruct (_ <? _); [unfold EXC_SLOTS in *; lia | done]. }
    destruct (drop_spec total_memory_bytes h0 s R v HC Hv) as [HC' (_ & Hs & _)].
    split_and!; [done | by apply (drop_shrinks s R) | lia | lia |]. rewrite Hs, decide_True by lia. done.
Qed.

(** ** Insertion *)

Lemma rcount_none f R : (forall u x, R !! u = Some x -> f x = false) -> rcount f R = 0.
Proof.
  induction R as [|r R IH]; intros Hf; [done|]. cbn. rewrite (Hf O r eq_refl), IH; [done|]. intros u x Hu. by apply (Hf (S u)).
Qed.

Section insert.
Context s R i p (e : exc_entry) (HT : tab_inv s R) (Hi : 0 <= i < EXC_SLOTS) (Hs : slot s i = 0).
Context (Hp : p <> 0) (Hnew : entries s !! p = None) (Hok : entry_ok e) (Hrefs : refs e = 0) (Hdead : dead e = false).
Context (Hkey : forall j f, in_slot s j f -> e_path f <> e_path e) (Hfresh : fresh (sh_log s) (e_path e) (image e)).
Context (Hfit : exc_total s + e_size e <= exc_budget total_memory_bytes).
Let s' : shared H V := set_total (exc_total s + e_size e) (set_entry p e (set_slot i p s)).

Lemma insert_slot j : 0 <= j -> slot s' j = if decide (j = i) then p else slot s j.
Proof. intros Hj. apply (slot_set s i p j (ti_len _ _ _ HT) Hi Hj). Qed.
Lemma insert_slot_ne j : 0 <= j < EXC_SLOTS -> slot s j <> 0 -> slot s j <> p.
Proof. intros Hj Hq E. destruct (ti_slot _ _ _ HT j Hj Hq) as (f & Hf & _). congruence. Qed.
Lemma insert_get q f : entries s' !! q = Some f -> q = p /\ f = e \/ q <> p /\ entries s !! q = Some f.
Proof.
  cbn. destruct (decide (q = p)) as [->|Hne]; [rewrite lookup_insert_eq; by intros [= <-]; left|].
  rewrite lookup_insert_ne by done. by right.
Qed.
Lemma insert_in j f : in_slot s' j f <-> j = i /\ f = e \/ j <> i /\ in_slot s j f.
Proof.
  unfold in_slot. split.
  - intros (Hj & Hq & Hf). rewrite insert_slot in Hq, Hf by lia. cbn in Hf. case_decide as E.
    + rewrite lookup_insert_eq in Hf. left. by simplify_eq.
    + right. rewrite lookup_insert_ne in Hf; [done|]. by apply not_eq_sym, insert_slot_ne.
  - intros [[-> ->]|(Hne & Hj & Hq & Hf)]; rewrite insert_slot by lia; cbn.
    + rewrite decide_True by done. split_and!; [lia | lia | done | by rewrite lookup_insert_eq].
    + rewrite decide_False by done. split_and!; [lia | lia | done|]. rewrite lookup_insert_ne; [done|]. by apply not_eq_sym, insert_slot_ne.
Qed.
Lemma insert_unheld (f : Z -> res -> bool) :
  (forall u x, R !! u = Some x -> f p x = true -> is_Some (entries s !! p)) -> rcount (f p) R = 0.
Proof.
  intros Hf. apply rcount_none. intros u x Hu. destruct (f p x) eqn:E; [|done].
  destruct (Hf u x Hu E) as (y & Hy). congruence.
Qed.
Lemma insert_total : total_size s' = total_size s + e_size e.
Proof.
  unfold total_size. rewrite (zsum_change _ (slot_size s) (slot_size s') i).
  - assert (slot_size s i = 0) as -> by (unfold slot_size; by rewrite Hs).
    assert (in_slot s' i e) as Hin by (apply insert_in; by left). rewrite (in_slot_size _ _ _ Hin). lia.
  - unfold EXC_SLOTS in *; lia.
  - intros j Hj Hne. unfold slot_size. rewrite insert_slot, decide_False by lia.
    destruct (Z.eqb_spec (slot s j) 0) as [|Hq]; [done|]. unfold entry. cbn. rewrite lookup_insert_ne; [done|].
    apply not_eq_sym, insert_slot_ne; [unfold EXC_SLOTS in *; lia | done].
Qed.

Lemma insert_tab : tab_inv s' R.
Proof.
  pose proof HT as [Tlen Tslot Tinj Talive Tkeys Tentry Trefs Tzombies Tref Tzombie Ttotal Tbudget Tld Tfresh Thits].
  split; try done.
  - cbn. by rewrite zlen_zset.
  - intros j Hj Hq. rewrite insert_slot in Hq |- * by lia. cbn. case_decide as E.
    + exists e. by rewrite lookup_insert_eq.
    + rewrite lookup_insert_ne by (by apply not_eq_sym, insert_slot_ne). by apply Tslot.
  - intros j k Hj Hk. rewrite !insert_slot by lia. repeat case_decide; intros Hq E; [congruence | | | by apply Tinj].
    + exfalso. apply (insert_slot_ne k Hk); [by rewrite <- E | done].
    + exfalso. by apply (insert_slot_ne j Hj).
  - intros q f [[-> ->]|[Hne Hq]]%insert_get Hd.
    + exists i. split; [done|]. by rewrite insert_slot, decide_True by lia.
    + destruct (Talive q f Hq Hd) as (j & Hj & Hjq). exists j. split; [done|]. rewrite insert_slot by lia.
      rewrite decide_False; [done|]. intros ->. destruct (Tentry q f Hq) as [? _]. congruence.
  - intros j k f g [[-> ->]|[Hnj Hf]]%insert_in [[-> ->]|[Hnk Hg]]%insert_in Hfg; [done | | | by eapply Tkeys].
    + by destruct (Hkey k g Hg).
    + by destruct (Hkey j f Hf).
  - intros q f [[-> ->]|[Hne Hq]]%insert_get; [done | by apply Tentry].
  - intros q f [[-> ->]|[Hne Hq]]%insert_get; [|by apply Trefs]. rewrite Hrefs. symmetry. apply insert_unheld.
    intros u x Hu Hx%bool_decide_eq_true. destruct (r_ref x) as [[q d]|] eqn:Ex; simplify_eq/=.
    destruct (Tref u x p d Hu Ex) as (f & Hf & _). by exists f.
  - intros q f [[-> ->]|[Hne Hq]]%insert_get; [|by apply Tzombies]. rewrite Hdead. cbn. apply insert_unheld.
    intros u x Hu Hx%bool_decide_eq_true. by eapply Tzombie.
  - intros u x q d Hu Hq. destruct (Tref u x q d Hu Hq) as (f & Hf & Hd). exists f. split; [|done]. cbn.
    rewrite lookup_insert_ne; [done|]. intros <-. congruence.
  - intros u x q Hu Hq. destruct (Tzombie u x q Hu Hq) as (f & Hf). exists f. cbn. rewrite lookup_insert_ne; [done|].
    intros <-. congruence.
  - rewrite insert_total, <- Ttotal. done.
  - cbn. destruct Hok as (_ & ? & _). lia.
  - intros j f [[-> ->]|[Hnj Hf]]%insert_in; [exact Hfresh | by apply (Tfresh j)].
Qed.
End insert.

Lemma blocks_tab s R t r bl : tab_inv s R -> R !! t = Some r -> tab_inv s (<[t := with_blocks bl r]> R).
Proof.
  intros HT Ht. apply (tab_thread total_memory_bytes s s R t r _ []); try done; [by rewrite app_nil_r|].
  apply (ld_res _ _ _ t r); [done..| |apply HT]. by left.
Qed.

Lemma held_lookup R t r b : R !! t = Some r -> b ∈ r_blocks r -> b ∈ held R.
Proof. intros Ht Hb. destruct (held_insert R t r r Ht) as [-> _]. apply elem_of_app. by left. Qed.
(** A block of a call is no entry. *)
Lemma held_no_entry s R h log p n : mem_inv h0 h log (owned s R) -> (p, n) ∈ held R -> entries s !! p = None.
Proof.
  intros HM Hin. destruct (entries s !! p) as [e|] eqn:E; [|done]. pose proof (mi_nodup _ _ _ _ HM) as Hnd.
  unfold owned in Hnd. rewrite fmap_app in Hnd. apply NoDup_app in Hnd as (_ & Hd & _).
  destruct (Hd p).
  - rewrite (entry_blocks_delete _ p e E). by left.
  - apply list_elem_of_fmap. by exists (p, n).
Qed.

(** The image is in the table. *)
Lemma insert_core s R t r i key id keep ent bytes bs tick :
  core s R -> R !! t = Some r -> r_blocks r = (ent, ENTRY_SIZE) :: (keep, id_size id) :: bs ->
  0 <= i < EXC_SLOTS -> slot s i = 0 -> ent <> 0 -> (forall j f, in_slot s j f -> e_path f <> key) ->
  zlen bytes = id_size id -> 0 < id_size id <= EXC_MAX_FILE -> zlen key < EXC_PATH ->
  exc_total s + id_size id <= exc_budget total_memory_bytes -> reading (sh_log s) t key -> reads_of t (sh_log s) = bytes ->
  let e := mk_entry 0 false key (id_size id) (id_mtime id) (id_ino id) (id_have_ino id) tick keep bytes in
  let s1 := put_log (XInsert t key) (put_log (XUse ent ENTRY_SIZE) s) in
  core (set_total (exc_total s + id_size id) (set_entry ent e (set_slot i ent s1))) (<[t := with_blocks bs r]> R).
Proof.
  intros HC Ht Hb Hi Hs Hent Hkey Hlen Hsz Hk Hfit Hrd Hrb e s1.
  assert ((ent, ENTRY_SIZE) ∈ held R) as Hh by (apply (held_lookup R t r); [done|]; rewrite Hb; by left).
  assert (core s1 R) as [HM HT].
  { apply core_log; [done..|]. apply core_use with ENTRY_SIZE; [|done..]. apply elem_of_app. by right. }
  split.
  - eapply mem_perm; [|exact HM]. unfold owned. cbn.
    rewrite entry_blocks_insert by exact (held_no_entry s1 R _ _ ent _ HM Hh).
    destruct (held_insert R t r (with_blocks bs r) Ht) as [-> ->]. rewrite Hb. cbn. solve_Permutation.
  - apply blocks_tab; [|done]. apply (insert_tab s1 R i ent e); try done.
    + exact (held_no_entry s1 R _ _ ent _ HM Hh).
    + cbn. apply reading_fresh; [by apply reading_snoc|]. by rewrite reads_of_snoc, app_nil_r.
Qed.

(** What the call still holds after the critical section. *)
Definition blocks_for (keep ent : Z) (id : exc_id) (bytes : list Z) (bs : list (Z * Z)) (r : res) : Prop :=
  (keep = 0 /\ ent = 0 /\ r_blocks r = bs) \/
  (keep <> 0 /\ ent <> 0 /\ r_blocks r = (ent, ENTRY_SIZE) :: (keep, id_size id) :: bs /\
   zlen bytes = id_size id /\ 0 < id_size id <= EXC_MAX_FILE /\ r_read r = bytes).

Lemma insert_inv s R t r ld key id keep ent bytes bs :
  inv s R -> R !! t = Some r -> r_load r = Some (ld, key) -> blocks_for keep ent id bytes bs r ->
  let '(k, n, s') := exc_insert total_memory_bytes t ld key id keep ent bytes s in
  (k = 0 /\ n = 0 /\ inv s' (<[t := with_blocks bs (with_load None r)]> R)) \/
  (k = keep /\ n = ent /\ keep <> 0 /\ inv s' (<[t := with_load None r]> R)).
Proof.
  intros [HC _] Ht Hld Hb. pose proof (unload_core s R t r ld key HC Ht Hld) as HC1. unfold exc_insert. fold (unload ld s).
  assert (<[t := with_load None r]> R !! t = Some (with_load None r)) as Ht1 by (apply list_lookup_insert_eq; by eapply lookup_lt_Some).
  destruct Hb as [(-> & -> & Hb)|(Hk0 & He0 & Hb & Hlen & Hsz & Hrd)].
  { left. split_and!; [done..|]. replace (with_blocks bs (with_load None r)) with (with_load None r)
      by (unfold with_blocks, with_load; cbn; by rewrite Hb). by apply recount_inv. }
  rewrite (proj2 (Z.eqb_neq keep 0)), (proj2 (Z.eqb_neq ent 0)) by done. cbn [negb andb].
  destruct (dirty (loading s ld)) eqn:Ed; cbn [negb].
  { right. split_and!; [done..|]. by apply recount_inv. }
  destruct (li_load _ _ _ (ti_ld _ _ _ (proj2 HC)) t r ld key Ht Hld) as (_ & _ & _ & Hkl & [Hd|Hreading]); [unfold loading in Ed; congruence|].
  pose proof (li_reads _ _ _ (ti_ld _ _ _ (proj2 HC)) t r Ht) as Hreads. rewrite Hrd in Hreads.
  set (R1 := <[t := with_load None r]> R) in *. set (s1 := unload ld s) in *.
  set (f := fun e => bytes_eqb (e_path e) key).
  destruct (drop_where_spec total_memory_bytes h0 f s1 R1 HC1) as (HC2 & _ & Hin2). pose proof (drop_where_shrinks f s1 R1 HC1) as Hs2.
  set (s2 := drop_where f s1) in *. destruct (evict_spec (S (Z.to_nat EXC_SLOTS)) (id_size id) s2 R1 HC2) as [HC3 Hs3].
  set (s3 := exc_evict _ _ _ s2) in *. pose proof (slot_spec s3 R1 HC3) as Hs4. destruct (exc_slot s3) as [i s4].
  destruct Hs4 as (HC4 & Hs4 & Hi & Hz). pose proof (shrinks_trans _ _ _ Hs2 (shrinks_trans _ _ _ Hs3 Hs4)) as Hsh.
  destruct (shrinks_reading s1 s4 t key bytes Hsh Hreading Hreads) as [Hreading4 Hreads4].
  pose proof (ti_budget _ _ _ (proj2 HC4)) as Hbud.
  assert (exc_budget total_memory_bytes <= EXC_MAX_TOTAL) by (unfold exc_budget; lia). unfold EXC_MAX_TOTAL, EXC_MAX_FILE in *.
  rewrite u64_small by lia. destruct (Z.leb_spec (exc_total s4 + id_size id) (exc_budget total_memory_bytes)) as [Hfit|];
    cbn [andb]; [left | right; split_and!; [done..|]; by apply recount_inv].
  split_and!; [done..|]. apply recount_inv.
  replace (<[t := with_blocks bs (with_load None r)]> R) with (<[t := with_blocks bs (with_load None r)]> R1) by apply list_insert_insert_eq.
  eapply core_ext; [..|eapply (insert_core s4 R1 t (with_load None r) i key id keep ent bytes bs); try done]; try done.
  - cbn. by rewrite u64_small by lia.
  - intros j e Hj Hpath. destruct (proj1 (Hin2 j e)) as [_ Hf]; [by apply Hs3, Hs4|]. unfold f, bytes_eqb in Hf.
    by rewrite bool_decide_eq_true_2 in Hf.
Qed.
End loads.
