(* ===== verification/ExecSafe.v ===== *)
(** * Concurrent use of the exec image cache

    Every call into src/exec_cache.c, interleaved in any way with any others,
    keeps the invariant of [ExecInv]: a small program logic in which each step
    of a call may assume the invariant and has to keep it, whatever the other
    calls hold.  The theorems on memory, references and freshness follow. *)
From stdpp Require Import gmap.
From S2P Require Import Prelude Paths Heap ExecCache ExecMem ExecInv ExecLock ExecLoads.
#[local] Open Scope Z_scope.
#[local] Open Scope prog_scope.

Create HintDb exec.

Section logic.
Context {H V : Type} `{!KHeap H, !KHeapLaws H, !ExecFiles V, !ExecFilesLaws V} (total_memory_bytes : Z) (h0 : H).
Implicit Types (s : shared H V) (R : list res) (t : nat) (i p : Z) (r : res).
Abbreviation inv := (inv total_memory_bytes h0).
#[local] Hint Resolve x_resolve_ok x_open_ok x_seek_ok x_stat_ok x_times_ok x_read_ok x_close_ok : exec.

(** The program, run as call [t] that holds [r], ends with [Q]. *)
Fixpoint wp {A : Type} t (m : prog (shared H V) A) (Q : A -> res -> Prop) r : Prop :=
  match m with
  | Ret a => Q a r
  | Atomic f k => forall s R, inv s R -> R !! t = Some r ->
      exists r', inv (f s).2 (<[t := r']> R) /\ wp t (k (f s).1) Q r'
  end.

Lemma wp_mono {A} t (m : prog (shared H V) A) (Q Q' : A -> res -> Prop) r :
  (forall a r, Q a r -> Q' a r) -> wp t m Q r -> wp t m Q' r.
Proof.
  intros HQ. revert r. induction m as [a|B f k IH]; intros r; cbn; [apply HQ|]. intros Hw s R Hi Hr.
  destruct (Hw s R Hi Hr) as (r' & Hi' & Hk). exists r'. by auto.
Qed.
Lemma wp_bind {A B} t (m : prog (shared H V) A) (g : A -> prog (shared H V) B) Q r :
  wp t m (fun a => wp t (g a) Q) r -> wp t (pbind m g) Q r.
Proof.
  revert r. induction m as [a|C f k IH]; intros r; cbn; [done|]. intros Hw s R Hi Hr.
  destruct (Hw s R Hi Hr) as (r' & Hi' & Hk). exists r'. by auto.
Qed.
Lemma wp_act {B} t (f : shared H V -> B * shared H V) (Q : B -> res -> Prop) r :
  (forall s R, inv s R -> R !! t = Some r -> exists r', inv (f s).2 (<[t := r']> R) /\ Q (f s).1 r') -> wp t (act f) Q r.
Proof. done. Qed.

(** ** Steps *)

Lemma inv_same s R t r : inv s R -> R !! t = Some r -> inv s (<[t := r]> R).
Proof. intros Hi Hr. by rewrite list_insert_id. Qed.

Lemma files_inv s R v : x_ok v -> inv s R -> inv (set_vfs v s) R.
Proof.
  intros Hv [[HM HT] Ha]. split; [|done]. split; [done|]. destruct HT. by split.
Qed.
Lemma wp_vfs {B} t (f : V -> B * V) (Q : B -> res -> Prop) r :
  (forall v, x_ok v -> x_ok (f v).2) -> (forall b, Q b r) -> wp t (vfs_call f) Q r.
Proof.
  intros Hf HQ. apply wp_act. intros s R Hi Hr. specialize (Hf (sh_files s) (ti_files _ _ _ (proj2 (proj1 Hi)))).
  destruct (f (sh_files s)) as [b v]. exists r. split; [|apply HQ]. cbn. rewrite list_insert_id by done. by apply files_inv.
Qed.

Lemma wp_kalloc t n (Q : Z -> res -> Prop) r : 0 <= n ->
  Q 0 r -> (forall p, p <> 0 -> Q p (with_blocks ((p, n) :: r_blocks r) r)) -> wp t (kalloc_x n) Q r.
Proof.
  intros Hn H0 Hp. apply wp_act. intros s R Hi Hr. pose proof Hi as [[HM HT] Ha]. unfold take_block.
  destruct (hp_kalloc n (sh_heap s)) as [p h] eqn:E. destruct (Z.eqb_spec p 0) as [->|Hne].
  - exists r. split; [|done]. cbn. rewrite list_insert_id by done. split; [split|done].
    + by eapply mem_fail.
    + by apply (cache_ext _ s).
  - exists (with_blocks ((p, n) :: r_blocks r) r). split; [|by apply Hp]. cbn. split; [split|done].
    + cbn. eapply mem_perm; [|by eapply mem_alloc]. unfold owned. cbn.
      destruct (held_insert R t r (with_blocks ((p, n) :: r_blocks r) r) Hr) as [-> ->]. cbn. solve_Permutation.
    + apply blocks_tab; [|done]. apply tab_plain; [done|]. by apply (cache_ext _ s).
Qed.

Lemma wp_kfree t p n bs (Q : unit -> res -> Prop) r : r_blocks r ≡ₚ (p, n) :: bs -> Q tt (with_blocks bs r) -> wp t (kfree_x p) Q r.
Proof.
  intros Hb HQ. apply wp_act. intros s R Hi Hr. pose proof Hi as [[HM HT] Ha]. exists (with_blocks bs r). split; [|done]. cbn.
  split; [split|done].
  - cbn. apply mem_free with n. eapply mem_perm; [|exact HM]. unfold owned. cbn.
    destruct (held_insert R t r (with_blocks bs r) Hr) as [-> ->]. rewrite Hb. cbn. solve_Permutation.
  - apply blocks_tab; [|done]. apply tab_plain; [done|]. by apply (cache_ext _ s).
Qed.

(** A use of one of the call's own blocks. *)
Lemma use_inv s R t r p n m : inv s R -> R !! t = Some r -> (p, m) ∈ r_blocks r -> n <= m -> inv (put_log (XUse p n) s) R.
Proof.
  intros [HC Ha] Hr Hin Hn. split; [|done]. apply core_use with m; [|done..]. apply elem_of_app. right. by eapply held_lookup.
Qed.
Lemma wp_use t p n m (Q : unit -> res -> Prop) r : (p, m) ∈ r_blocks r -> n <= m -> Q tt r -> wp t (act_ (put_log (XUse p n))) Q r.
Proof. intros Hin Hn HQ. apply wp_act. intros s R Hi Hr. exists r. split; [|done]. cbn. apply inv_same; [|done]. by eapply use_inv. Qed.

(** ** References *)

Lemma wp_put t p d (Q : unit -> res -> Prop) r : r_ref r = Some (p, d) -> r_zombie r = None ->
  Q tt (with_ref None None r) -> wp t (exc_put p) Q r.
Proof.
  intros Hr Hz HQ. apply wp_bind, wp_act. intros s R Hi Ht. pose proof (unref_inv total_memory_bytes h0 s R t r p d Hi Ht Hr Hz) as Hu.
  destruct (exc_unref p s) as [b s']. exists (with_ref None (if b then Some p else None) r). split; [done|].
  destruct b; [|done]. apply wp_act. clear s R Hi Ht s' Hu. intros s R Hi Ht. exists (with_ref None None r). split; [|done].
  exact (free_inv total_memory_bytes h0 s R t _ p Hi Ht eq_refl eq_refl).
Qed.
Lemma wp_lookup t key id (Q : Z -> res -> Prop) r : r_ref r = None -> r_zombie r = None ->
  Q 0 r -> (forall p d, p <> 0 -> zlen d = id_size id -> Q p (with_hit p d r)) -> wp t (act (exc_lookup t key id)) Q r.
Proof.
  intros Hr Hz H0 Hp. apply wp_act. intros s R Hi Ht. pose proof (lookup_inv total_memory_bytes h0 s R t r key id Hi Ht Hr Hz) as Hl.
  destruct (exc_lookup t key id s) as [p s']. destruct Hl as [[-> Hi']|(d & Hne & Hd & Hi')].
  - exists r. split; [by apply inv_same | done].
  - exists (with_hit p d r). by auto.
Qed.

(** ** Loads *)

Lemma ld_read lds log R t r b : ld_inv lds log R -> R !! t = Some r ->
  ld_inv lds (log ++ [XRead t b]) (<[t := with_got (r_read r ++ b) r]> R).
Proof.
  intros [Llen Lload Linj Lused Lreads Lhit Lthreads] Ht.
  assert (forall u x, <[t := with_got (r_read r ++ b) r]> R !! u = Some x -> exists y, R !! u = Some y /\ r_load y = r_load x /\ r_hit y = r_hit x /\
            r_read x = r_read y ++ if decide (t = u) then b else []) as Hold.
  { intros u x Hu. apply list_lookup_insert_Some in Hu as [(<- & <- & _)|(Hne & Hu)].
    - exists r. by rewrite decide_True.
    - exists x. by rewrite decide_False, app_nil_r. }
  split; try done.
  - intros u x i key Hu Hx. destruct (Hold u x Hu) as (y & Hy & El & _). rewrite <- El in Hx.
    destruct (Lload u y i key Hy Hx) as (? & ? & ? & ? & [?|?]); split_and!; try done; try lia; [by left|].
    right. by apply reading_snoc.
  - intros u v x y i k k' Hu Hv Hx Hy. destruct (Hold u x Hu) as (x0 & ? & Ex & _), (Hold v y Hv) as (y0 & ? & Ey & _).
    eapply Linj; [done | done | by rewrite Ex | by rewrite Ey].
  - intros i Hi Hu. destruct (Lused i Hi Hu) as (u & x & key & Hx & Hk). destruct (decide (u = t)) as [->|Hne].
    + exists t, (with_got (r_read r ++ b) r), key. split; [apply list_lookup_insert_eq; by eapply lookup_lt_Some|]. cbn. congruence.
    + exists u, x, key. split; [|done]. by rewrite list_lookup_insert_ne.
  - intros u x Hu. destruct (Hold u x Hu) as (y & Hy & _ & _ & ->). by rewrite reads_of_snoc, (Lreads u y Hy).
  - intros u x d Hu Hd. destruct (Hold u x Hu) as (y & Hy & _ & Eh & _). rewrite <- Eh in Hd.
    destruct (Lhit u y d Hy Hd) as (key & Hin). exists key. apply elem_of_app. by left.
  - by rewrite length_insert.
Qed.
Lemma read_inv s R t r b : inv s R -> R !! t = Some r -> inv (put_log (XRead t b) s) (<[t := with_got (r_read r ++ b) r]> R).
Proof.
  intros [[HM HT] Ha] Ht. split; [split|done].
  - apply mem_other; [done|]. eapply mem_perm; [|exact HM]. unfold owned. by rewrite (held_same R t r) by done.
  - apply (tab_thread total_memory_bytes s _ R t r _ [XRead t b]); try done; [by constructor|]. by apply ld_read; [apply HT|].
Qed.

Lemma with_got_id r : with_got (r_read r) r = r.
Proof. by destruct r. Qed.

Lemma wp_rounds fuel t fd buf size m got (Q : list Z -> res -> Prop) r :
  (buf, m) ∈ r_blocks r -> size < m -> zlen got <= size -> r_read r = got ->
  (forall g, zlen g <= size -> Q g (with_got g r)) -> wp t (load_rounds fuel t fd buf size got) Q r.
Proof.
  revert got r. induction fuel as [|fuel IH]; intros got r Hb Hm Hle Hg HQ; cbn [load_rounds].
  { rewrite <- (with_got_id r), Hg. by apply HQ. }
  destruct (Z.ltb_spec (zlen got) size) as [Hlt|]; cbn [negb]; [|cbn; rewrite <- (with_got_id r), Hg; by apply HQ].
  apply wp_bind, wp_act. intros s R Hi Hr.
  assert (0 <= size - zlen got) as Hge by lia. pose proof (ti_files _ _ _ (proj2 (proj1 Hi))) as Hok.
  destruct (x_read_bounded fd (size - zlen got) (sh_files s) Hok Hge) as [Hn Hbytes].
  pose proof (x_read_ok fd (size - zlen got) (sh_files s) Hok) as Hok'.
  destruct (x_read fd (size - zlen got) (sh_files s)) as [[n bytes] v]. cbn in Hn, Hbytes, Hok'.
  pose proof (files_inv s R v Hok' Hi) as Hi1.
  destruct (Z.leb_spec n 0) as [|Hpos]; cbn.
  - exists r. split; [by apply inv_same|]. rewrite (proj2 (Z.leb_le n 0)) by lia. cbn. rewrite <- (with_got_id r), Hg. by apply HQ.
  - rewrite (proj2 (Z.leb_gt n 0)) by lia. exists (with_got (got ++ ztake n bytes) r). split.
    + rewrite <- Hg. apply read_inv; [|done]. eapply use_inv; [done | done | done | rewrite Hg; lia].
    + apply IH; [done | done | | done | done]. rewrite zlen_app, zlen_ztake by lia. lia.
Qed.

Lemma wp_register t key (Q : Z -> res -> Prop) r : r_load r = None -> r_read r = [] -> zlen key < EXC_PATH ->
  Q (-1) r -> (forall i, 0 <= i -> Q i (with_load (Some (i, key)) r)) -> wp t (act (exc_register t key)) Q r.
Proof.
  intros Hl Hrd Hk H0 Hp. apply wp_act. intros s R Hi Ht. pose proof (register_inv total_memory_bytes h0 s R t r key Hi Ht Hl Hrd Hk) as Hreg.
  destruct (exc_register t key s) as [i s']. destruct Hreg as [[-> Hi']|(Hge & Hi')].
  - exists r. split; [by apply inv_same | done].
  - exists (with_load (Some (i, key)) r). by auto.
Qed.
Lemma wp_unregister t i key (Q : unit -> res -> Prop) r : r_load r = Some (i, key) -> Q tt (with_load None r) ->
  wp t (act_ (exc_unregister i)) Q r.
Proof.
  intros Hl HQ. apply wp_act. intros s R Hi Ht. exists (with_load None r). split; [|done]. by apply (unregister_inv _ _ s R t r i key).
Qed.
Lemma wp_insert t ld key id keep ent bytes bs (Q : Z * Z -> res -> Prop) r :
  r_load r = Some (ld, key) -> blocks_for keep ent id bytes bs r ->
  Q (0, 0) (with_blocks bs (with_load None r)) -> (keep <> 0 -> Q (keep, ent) (with_load None r)) ->
  wp t (act (exc_insert total_memory_bytes t ld key id keep ent bytes)) Q r.
Proof.
  intros Hl Hb H0 Hk. apply wp_act. intros s R Hi Ht.
  pose proof (insert_inv total_memory_bytes h0 s R t r ld key id keep ent bytes bs Hi Ht Hl Hb) as Hin.
  destruct (exc_insert _ t ld key id keep ent bytes s) as [[k n] s']. destruct Hin as [(-> & -> & Hi')|(-> & -> & Hne & Hi')].
  - exists (with_blocks bs (with_load None r)). by auto.
  - exists (with_load None r). by auto.
Qed.

(** ** The calls *)

Lemma norm_loop_fits fuel path out cap k : zlen out < cap -> exc_norm_loop fuel path out cap = Some k -> zlen k < cap.
Proof.
  revert path out. induction fuel as [|fuel IH]; intros path out Ho; cbn [exc_norm_loop]; [by intros [= <-]|].
  destruct (bool_decide _); [by intros [= <-]|]. destruct (component _) as [part e]. destruct (bytes_eqb part [46]); [by apply IH|].
  destruct (bytes_eqb part [46; 46]).
  { apply IH. unfold Vfs.drop_last, zlen, ztake in *. rewrite length_take. lia. }
  destruct (Z.ltb_spec cap (zlen out + 1 + zlen part + 1)); [done|]. apply IH. rewrite zlen_app, zlen_cons. lia.
Qed.
Lemma exc_norm_fits path k : exc_norm path EXC_PATH = Some k -> zlen k < EXC_PATH.
Proof.
  unfold exc_norm. destruct (negb _); [done|]. intros (out & E & ->)%fmap_Some.
  apply norm_loop_fits in E; [|done]. destruct (bool_decide _); done.
Qed.

Lemma with_blocks_id r : with_blocks (r_blocks r) r = r.
Proof. by destruct r. Qed.

Lemma wp_load_key t path (Q : option cstr -> res -> Prop) r :
  (forall key, (forall k, key = Some k -> zlen k < EXC_PATH) -> Q key r) -> wp t (load_key path) Q r.
Proof.
  intros HQ. unfold load_key. destruct (bool_decide _); [|by apply HQ]. apply wp_bind, wp_kalloc; [done | by apply HQ|].
  intros p Hp. rewrite (proj2 (Z.eqb_neq p 0)) by done. apply wp_bind, wp_vfs; [auto with exec|]. intros [ret out]. cbn [fst snd].
  apply wp_bind. eapply wp_kfree; [cbn; reflexivity|]. change (with_blocks (r_blocks r) (with_blocks _ r)) with (with_blocks (r_blocks r) r).
  rewrite with_blocks_id. apply HQ. intros k. destruct (ret =? 0); [|done]. apply exc_norm_fits.
Qed.

Lemma wp_identify t path fd (Q : Z * exc_id -> res -> Prop) r :
  (forall ir id, 0 <= id_size id < 2 ^ 32 -> Q (ir, id) r) -> wp t (exc_identify path fd) Q r.
Proof.
  intros HQ. apply wp_bind, wp_vfs; [auto with exec|]. intros size. destruct (size <? 0); [by apply HQ|].
  apply wp_bind, wp_vfs; [auto with exec|]. intros _. apply wp_bind, wp_vfs; [auto with exec|]. intros [ret st].
  destruct (ret =? 0); [apply HQ, u32_bound|]. apply wp_bind, wp_vfs; [auto with exec|]. intros m. apply HQ, u32_bound.
Qed.

(** What a load leaves to its caller: the buffer it returns and nothing else.
    The bytes in it are what the call read, or what it found in the cache. *)
Definition loaded_ok (a : loaded) r : Prop :=
  r_ref r = None /\ r_zombie r = None /\ r_load r = None /\
  match a.2 with
  | None => r_blocks r = []
  | Some (buf, bytes) =>
      (exists n, r_blocks r = [(buf, n)] /\ zlen bytes < n) /\ a.1 = s32 (zlen bytes) /\
      (r_read r = bytes \/ r_hit r = Some bytes)
  end.

Lemma wp_copy t p d copy n id (Q : list Z -> res -> Prop) r : r_ref r = Some (p, d) -> zlen d = id_size id ->
  (copy, n) ∈ r_blocks r -> id_size id < n -> Q d r ->
  wp t (act (fun s => (ztake (id_size id) (image (entry s p)),
     put_log (XUse copy (id_size id + 1)) (put_log (XUse (data (entry s p)) (id_size id)) (put_log (XUse p ENTRY_SIZE) s))))) Q r.
Proof.
  intros Hr Hd Hin Hn HQ. apply wp_act. intros s R Hi Ht. exists r. cbn. rewrite list_insert_id by done.
  pose proof Hi as [[HM HT] Ha]. destruct (ti_ref _ _ _ HT t r p d Ht Hr) as (e & He & Himg).
  rewrite (entry_eq s p e He), Himg. destruct (ti_entry _ _ _ HT p e He) as (_ & Hlen & _). split.
  - eapply use_inv; [|done | done | lia]. split; [|done]. apply core_use with (e_size e); [|rewrite <- Hd, <- Himg; lia|].
    + rewrite (owned_entry _ R p e) by done. right. by left.
    + apply core_use_entry with e; [done | by apply Hi].
  - by rewrite ztake_all by lia.
Qed.

Lemma wp_hit t p d fd id r : r_ref r = None -> r_zombie r = None -> r_load r = None -> r_blocks r = [] ->
  zlen d = id_size id -> 0 <= id_size id < 2 ^ 32 -> wp t (load_hit p fd id) loaded_ok (with_hit p d r).
Proof.
  intros Hr Hz Hl Hb Hd Hs. apply wp_bind, wp_vfs; [auto with exec|]. intros _. rewrite u64_small by lia.
  apply wp_bind, wp_kalloc; [lia | |].
  { rewrite Z.eqb_refl. apply wp_bind. eapply wp_put; [done | done|]. by split_and!. }
  intros copy Hc. rewrite (proj2 (Z.eqb_neq copy 0)) by done. apply wp_bind.
  eapply wp_copy; [done | done | by left | lia |]. apply wp_bind. eapply wp_put; [done | done |].
  split_and!; try done. cbn. rewrite Hb, Hd. split_and!; [eexists; split; [done | lia] | done | by right].
Qed.

Lemma wp_blocks t size (Q : Z * Z -> res -> Prop) r : 0 <= size -> Q (0, 0) r ->
  (forall keep ent, keep <> 0 -> ent <> 0 -> Q (keep, ent) (with_blocks ((ent, ENTRY_SIZE) :: (keep, size) :: r_blocks r) r)) ->
  wp t (load_blocks size) Q r.
Proof.
  intros Hs H0 HQ. assert (forall bl, with_blocks (r_blocks r) (with_blocks bl r) = r) as Hback by (intros; by destruct r).
  apply wp_bind, wp_kalloc; [done | |].
  - rewrite Z.eqb_refl. apply wp_bind, wp_kalloc; [done | done |]. intros ent He. rewrite (proj2 (Z.eqb_neq ent 0)) by done. cbn [orb pbind].
    apply wp_bind. eapply wp_kfree; [cbn; reflexivity|]. by rewrite Hback.
  - intros keep Hk. rewrite (proj2 (Z.eqb_neq keep 0)) by done. apply wp_bind, wp_kalloc; [done | |].
    + rewrite Z.eqb_refl. cbn [orb]. apply wp_bind. eapply wp_kfree; [cbn; reflexivity|]. by rewrite Hback.
    + intros ent He. rewrite (proj2 (Z.eqb_neq ent 0)) by done. cbn [orb]. apply wp_bind.
      eapply wp_use; [right; by left | done |]. by apply HQ.
Qed.

(** Freeing the blocks that the insertion did not take. *)
Lemma wp_leftover t keep ent n m bs (a : loaded) r :
  (keep = 0 /\ ent = 0 /\ loaded_ok a r) \/
  (keep <> 0 /\ ent <> 0 /\ r_blocks r = (ent, m) :: (keep, n) :: bs /\ loaded_ok a (with_blocks bs r)) ->
  wp t (_ <- (if keep =? 0 then Ret tt else kfree_x keep) ;; _ <- (if ent =? 0 then Ret tt else kfree_x ent) ;; Ret a) loaded_ok r.
Proof.
  intros [(-> & -> & Ha)|(Hk & He & Hb & Ha)]; [done|].
  rewrite (proj2 (Z.eqb_neq keep 0)), (proj2 (Z.eqb_neq ent 0)) by done.
  apply wp_bind, (wp_kfree t keep n ((ent, m) :: bs)); [rewrite Hb; apply perm_swap|].
  apply wp_bind, (wp_kfree t ent m bs); done.
Qed.

(** After the file was read: insert it or not, and return it. *)
Lemma wp_finish t ld key id buf got r :
  r_ref r = None -> r_zombie r = None -> r_load r = Some (ld, key) -> r_blocks r = [(buf, id_size id + 1)] -> r_read r = got ->
  zlen got <= id_size id -> 0 < id_size id <= EXC_MAX_FILE ->
  wp t (b <- (if zlen got =? id_size id then load_blocks (id_size id) else Ret (0, 0)) ;;
        b <- act (exc_insert total_memory_bytes t ld key id b.1 b.2 got) ;;
        _ <- (if b.1 =? 0 then Ret tt else kfree_x b.1) ;;
        _ <- (if b.2 =? 0 then Ret tt else kfree_x b.2) ;;
        Ret (s32 (zlen got), Some (buf, got))) loaded_ok r.
Proof.
  intros Hr Hz Hl Hb Hrd Hle Hs.
  assert (forall r', r_ref r' = r_ref r -> r_zombie r' = r_zombie r -> r_load r' = None -> r_blocks r' = r_blocks r -> r_read r' = r_read r ->
            loaded_ok (s32 (zlen got), Some (buf, got)) r') as Hok.
  { intros r' E1 E2 E3 E4 E5. unfold loaded_ok. rewrite E1, E2, E3, E4, E5, Hb. cbn [snd]. split_and!; try done; [|by left].
    exists (id_size id + 1). split; [done | lia]. }
  assert (forall k n r', r_load r' = Some (ld, key) -> blocks_for k n id got (r_blocks r) r' ->
            r_ref r' = r_ref r -> r_zombie r' = r_zombie r -> r_read r' = r_read r ->
            wp t (b <- act (exc_insert total_memory_bytes t ld key id k n got) ;;
                  _ <- (if b.1 =? 0 then Ret tt else kfree_x b.1) ;; _ <- (if b.2 =? 0 then Ret tt else kfree_x b.2) ;;
                  Ret (s32 (zlen got), Some (buf, got))) loaded_ok r') as Hins.
  { intros k n r' El Hbl E1 E2 E5. apply wp_bind. eapply wp_insert; [done | done | |].
    - apply (wp_leftover t 0 0 0 0 []). left. split_and!; [done..|]. by apply Hok.
    - intros Hk. destruct Hbl as [(? & _)|(_ & Hn & Eb & _)]; [done|].
      apply (wp_leftover t k n (id_size id) ENTRY_SIZE (r_blocks r)). right. split_and!; try done. by apply Hok. }
  destruct (Z.eqb_spec (zlen got) (id_size id)) as [Heq|].
  - apply wp_bind, wp_blocks; [lia | by apply Hins; [|left|..] |]. intros keep ent Hk He. apply Hins; try done. right. split_and!; try done; lia.
  - by apply Hins; [|left|..].
Qed.

Lemma wp_miss t key fd id : 0 <= id_size id < 2 ^ 32 ->
  (forall k, key = Some k -> zlen k < EXC_PATH /\ 0 < id_size id <= EXC_MAX_FILE) ->
  wp t (load_miss total_memory_bytes t key fd id) loaded_ok res0.
Proof.
  intros Hs Hkey. unfold load_miss. rewrite u64_small by lia.
  assert (forall i r, r_blocks r = [] -> r_ref r = None -> r_zombie r = None -> r_read r = [] ->
            (i < 0 /\ r_load r = None \/ 0 <= i /\ exists k, key = Some k /\ r_load r = Some (i, k)) -> wp t
     (buf <- kalloc_x (id_size id + 1) ;;
      if buf =? 0 then _ <- vfs_call (x_close fd) ;; _ <- (if i <? 0 then Ret tt else act_ (exc_unregister i)) ;; Ret (- ENOMEM, None)
      else
        got <- load_rounds (Z.to_nat (id_size id)) t fd buf (id_size id) [] ;;
        _ <- vfs_call (x_close fd) ;;
        _ <- act_ (put_log (XUse buf (zlen got + 1))) ;;
        match key with
        | None => Ret (s32 (zlen got), Some (buf, got))
        | Some k =>
            if i <? 0 then Ret (s32 (zlen got), Some (buf, got))
            else
              b <- (if zlen got =? id_size id then load_blocks (id_size id) else Ret (0, 0)) ;;
              b <- act (exc_insert total_memory_bytes t i k id b.1 b.2 got) ;;
              _ <- (if b.1 =? 0 then Ret tt else kfree_x b.1) ;;
              _ <- (if b.2 =? 0 then Ret tt else kfree_x b.2) ;;
              Ret (s32 (zlen got), Some (buf, got))
        end) loaded_ok r) as Hrest.
  { intros i r Hb Hr Hz Hrd Hi. apply wp_bind, wp_kalloc; [lia | |].
    - rewrite Z.eqb_refl. apply wp_bind, wp_vfs; [auto with exec|]. intros _. apply wp_bind. destruct Hi as [[Hi Hl]|(Hi & k & _ & Hl)].
      + rewrite (proj2 (Z.ltb_lt i 0)) by lia. by split_and!.
      + rewrite (proj2 (Z.ltb_ge i 0)) by lia. eapply wp_unregister; [done|]. by split_and!.
    - intros buf Hbuf. rewrite (proj2 (Z.eqb_neq buf 0)) by done. apply wp_bind.
      eapply wp_rounds with (m := id_size id + 1); [rewrite Hb; by left | lia | unfold zlen; cbn; lia | done |]. intros got Hgot.
      apply wp_bind, wp_vfs; [auto with exec|]. intros _. apply wp_bind. eapply wp_use with (m := id_size id + 1); [rewrite Hb; by left | lia |].
      assert (r_load r = None -> loaded_ok (s32 (zlen got), Some (buf, got)) (with_got got (with_blocks ((buf, id_size id + 1) :: r_blocks r) r))) as Hret.
      { intros Hl. split_and!; try done. cbn. rewrite Hb. split_and!; [|done | by left]. exists (id_size id + 1). split; [done | lia]. }
      destruct Hi as [[Hi Hl]|(Hi & k & -> & Hl)].
      + rewrite (proj2 (Z.ltb_lt i 0)) by lia. destruct key; by apply Hret.
      + rewrite (proj2 (Z.ltb_ge i 0)) by lia. destruct (Hkey k eq_refl) as [_ Hsz]. apply wp_finish; try done. cbn. by rewrite Hb. }
  apply wp_bind. destruct key as [k|]; [|apply Hrest; try done; by left].
  destruct (Hkey k eq_refl) as [Hk _]. apply wp_register; [done | done | done | apply Hrest; try done; left; done |].
  intros i Hi. apply Hrest; try done. right. split; [done|]. by exists k.
Qed.

Lemma wp_load t path out : wp t (exec_image_load total_memory_bytes t path out) loaded_ok res0.
Proof.
  unfold exec_image_load. destruct path as [path|]; [|by split_and!]. destruct (negb out); [by split_and!|].
  apply wp_bind, wp_load_key. intros key Hkey. apply wp_bind, wp_vfs; [auto with exec|]. intros fd. destruct (fd <? 0); [by split_and!|].
  apply wp_bind, wp_identify. intros ir id Hs. destruct (ir =? - EIO).
  { apply wp_bind, wp_vfs; [auto with exec|]. intros _. by split_and!. }
  cbv zeta. set (key' := if uncacheable total_memory_bytes ir id then @None cstr else key).
  assert (forall k, key' = Some k -> zlen k < EXC_PATH /\ 0 < id_size id <= EXC_MAX_FILE) as Hkey'.
  { intros k. unfold key', uncacheable. destruct (_ || _) eqn:E; [done|]. intros ->. bool_hyps. split; [by apply Hkey | lia]. }
  clearbody key'. apply wp_bind. destruct key' as [k|].
  - apply wp_lookup; [done | done | rewrite Z.eqb_refl; by apply wp_miss|]. intros p d Hp Hd.
    rewrite (proj2 (Z.eqb_neq p 0)) by done. by apply wp_hit.
  - cbn [wp]. rewrite Z.eqb_refl. by apply wp_miss.
Qed.

(** The counter the hooks look at is zero only if there is nothing to do. *)
Lemma idle_log s R e : inv s R -> exc_active s = 0 -> is_mem e = false -> match e with XRead _ _ | XHit _ _ _ => False | _ => True end ->
  inv (put_log e s) R.
Proof.
  intros Hi H0 Hm He. pose proof Hi as [_ Ha]. rewrite H0 in Ha. unfold active_count in Ha.
  pose proof (zcount_bounds (Z.to_nat EXC_SLOTS) (fun i => negb (slot s i =? 0))).
  pose proof (zcount_bounds (Z.to_nat EXC_LOADING) (fun i => used (loading s i))).
  apply inv_log; [done | | | by destruct e | done].
  - intros i f (Hi8 & Hp & _). assert (negb (slot s i =? 0) = false) as Hs
      by (apply (zcount_zero (Z.to_nat EXC_SLOTS) (fun i => negb (slot s i =? 0))); [lia | unfold EXC_SLOTS in *; lia]).
    by rewrite (proj2 (Z.eqb_neq _ _)) in Hs.
  - intros i Hi4 Hu. assert (used (loading s i) = false) as Hs
      by (apply (zcount_zero (Z.to_nat EXC_LOADING) (fun i => used (loading s i))); [lia | unfold EXC_LOADING in *; lia]).
    congruence.
Qed.

Lemma wp_invalidate t path tree (Q : unit -> res -> Prop) r : Q tt r -> wp t (exc_invalidate_common path tree) Q r.
Proof.
  intros HQ. apply wp_bind, wp_act. intros s R Hi Hr. exists r. destruct path as [p|]; cbn; [|split; [by apply inv_same | done]].
  rewrite list_insert_id by done. destruct (Z.eqb_spec (exc_active s) 0) as [E|]; [split; [by apply idle_log | done]|].
  split; [done|]. clear s R Hi Hr n. intros s R Hi Hr. exists r. rewrite list_insert_id by done. split; [|done]. cbn.
  unfold exc_invalidate_locked, exc_drop_all. rewrite drop_all_where.
  destruct (exc_norm p EXC_PATH) as [k|] eqn:E; apply invalidate_inv; try done; try apply Hi; intros; cbn; by rewrite E.
Qed.
Lemma wp_flush t (Q : unit -> res -> Prop) r : Q tt r -> wp t exec_cache_flush Q r.
Proof.
  intros HQ. apply wp_bind, wp_act. intros s R Hi Hr. exists r. cbn. rewrite list_insert_id by done.
  destruct (Z.eqb_spec (exc_active s) 0) as [E|]; [split; [by apply idle_log | done]|].
  split; [done|]. clear s R Hi Hr n. intros s R Hi Hr. exists r. rewrite list_insert_id by done. split; [|done]. cbn.
  unfold exc_drop_all. rewrite drop_all_where. apply invalidate_inv; try done. apply Hi.
Qed.

(** A call that is given the file system's invariant. *)
Definition xcall_ok (c : xcall) : Prop :=
  match c with CFiles f => forall v : V, x_ok v -> x_ok (f v) | CHeap n => 0 <= n | _ => True end.

Lemma wp_call t c : xcall_ok c -> wp t (xprog total_memory_bytes t c) loaded_ok res0.
Proof.
  intros Hc. assert (loaded_ok (0, None) res0) as H0 by (by split_and!). destruct c as [path out|path|path| | |f|n]; cbn [xprog].
  - apply wp_load.
  - apply wp_bind, wp_invalidate. done.
  - apply wp_bind, wp_invalidate. done.
  - apply wp_bind, wp_flush. done.
  - apply wp_bind, wp_act. intros s R Hi Hr. exists res0. split; [by apply inv_same | done].
  - apply wp_bind, wp_vfs; done.
  - apply wp_bind, wp_bind, wp_kalloc; [done | done |]. intros p Hp. rewrite (proj2 (Z.eqb_neq p 0)) by done.
    eapply wp_kfree; [cbn; reflexivity|]. done.
Qed.

(** ** Any interleaving *)

(** What each call holds, with the rest of its program proved. *)
Definition sys_ok (c : shared H V * list (prog (shared H V) loaded)) R : Prop :=
  inv c.1 R /\ length R = length c.2 /\ forall t m r, c.2 !! t = Some m -> R !! t = Some r -> wp t m loaded_ok r.

Lemma sys_step_ok c c' R : sys_ok c R -> sys_step c c' -> exists R', sys_ok c' R'.
Proof.
  intros (Hi & Hlen & Hw) Hstep. destruct Hstep as [s pool t B f k Ht]. cbn in *.
  destruct (lookup_lt_is_Some_2 R t) as [r Hr]; [rewrite Hlen; by eapply lookup_lt_Some|].
  destruct (Hw t _ r Ht Hr s R Hi Hr) as (r' & Hi' & Hk). exists (<[t := r']> R). split_and!; [done | cbn; by rewrite !length_insert |].
  intros u m x Hu Hx. cbn in Hu. apply list_lookup_insert_Some in Hu as [(<- & <- & _)|(Hne & Hu)].
  - apply list_lookup_insert_Some in Hx as [(_ & <- & _)|(Hne & _)]; [done | by destruct Hne].
  - rewrite list_lookup_insert_ne in Hx by done. by apply Hw.
Qed.

Lemma boot_inv v n : heap_ok h0 -> x_ok v -> 0 <= total_memory_bytes -> Z.of_nat n < 2 ^ 32 -> inv (exc_boot v h0) (replicate n res0).
Proof.
  intros Hh Hv Hm Hn. split; [split|done].
  - unfold owned. cbn. assert (held (replicate n res0) = []) as -> by (clear; induction n as [|n IH]; [done | exact IH]). by apply mem_boot.
  - assert (forall i, 0 <= i < EXC_SLOTS -> slot (exc_boot v h0) i = 0) as Hs.
    { intros i Hi. apply lookup_total_replicate_2. unfold EXC_SLOTS in *. lia. }
    assert (forall i, 0 <= i < EXC_LOADING -> used (zget (exc_ld (exc_boot v h0)) i) = false) as Hu.
    { intros i Hi. unfold zget. cbn [exc_boot exc_ld]. rewrite lookup_total_replicate_2; [done|]. unfold EXC_LOADING in *. lia. }
    assert (forall t r, replicate n res0 !! t = Some r -> r = res0) as Hr by (by intros t r [-> _]%lookup_replicate).
    assert (0 <= exc_budget total_memory_bytes) by (unfold exc_budget, EXC_MAX_TOTAL; pose proof (Z.div_pos total_memory_bytes 32); lia).
    split; try done.
    + intros i Hi Hp. by rewrite Hs in Hp.
    + intros i j Hi Hj Hp. by rewrite Hs in Hp.
    + intros i j e f (Hi & Hp & _). by rewrite Hs in Hp.
    + intros t r p d Ht. by rewrite (Hr t r Ht).
    + intros t r p Ht. by rewrite (Hr t r Ht).
    + split; try done.
      * intros t r i key Ht. by rewrite (Hr t r Ht).
      * intros t u r r' i key key' Ht. by rewrite (Hr t r Ht).
      * intros i Hi Hui. by rewrite Hu in Hui.
      * intros t r Ht. by rewrite (Hr t r Ht).
      * intros t r d Ht. by rewrite (Hr t r Ht).
      * by rewrite length_replicate.
    + intros i e (Hi & Hp & _). by rewrite Hs in Hp.
    + intros l1 t key d l2 E. by destruct l1.
Qed.

Lemma reach_ok v calls c : heap_ok h0 -> x_ok v -> 0 <= total_memory_bytes -> Z.of_nat (length calls) < 2 ^ 32 -> Forall xcall_ok calls ->
  xreach total_memory_bytes v h0 calls c -> exists R, sys_ok c R.
Proof.
  intros Hh Hv Hm Hn Hc Hreach. unfold xreach in Hreach.
  assert (exists R, sys_ok (exc_boot v h0, xpool total_memory_bytes calls) R) as H0.
  { exists (replicate (length calls) res0). split_and!; [by apply boot_inv | cbn; unfold xpool; by rewrite length_replicate, length_imap|].
    intros t m r Ht Hr. cbn in Ht. apply list_lookup_imap_Some in Ht as (x & Hx & ->). apply lookup_replicate in Hr as [-> _].
    apply wp_call. rewrite Forall_lookup in Hc. by eapply Hc. }
  revert H0. induction Hreach as [c|c c' c'' Hstep _ IH]; [done|]. intros (R & HR). apply IH. by eapply sys_step_ok.
Qed.

End logic.

(** ** Theorems *)

Section theorems.
Context {H V : Type} `{!KHeap H, !KHeapLaws H, !ExecFiles V, !ExecFilesLaws V} (total_memory_bytes : Z) (h0 : H).
Implicit Types (s : shared H V) (pool : list (prog (shared H V) loaded)) (calls : list (@xcall V)).

Definition finished (m : prog (shared H V) loaded) : Prop := match m with Ret _ => True | Atomic _ _ => False end.
(** The buffers handed to the callers. *)
Definition returned pool : list Z :=
  omap (fun m => match m with Ret (_, Some (buf, _)) => Some buf | _ => None end) pool.

Lemma held_returned pool R : length R = length pool -> Forall finished pool ->
  (forall t m r, pool !! t = Some m -> R !! t = Some r -> wp total_memory_bytes h0 t m loaded_ok r) -> (held R).*1 = returned pool.
Proof.
  revert R. induction pool as [|m pool IH]; intros [|r R] Hlen Hf Hw; try done. apply Forall_cons in Hf as [Hm Hf].
  assert ((held R).*1 = returned pool) as E.
  { apply IH; [by injection Hlen | done |]. intros t x y Hx Hy.
    (* the program logic does not look at the index of a finished call *)
    rewrite Forall_lookup in Hf. specialize (Hf t x Hx). specialize (Hw (S t) x y Hx Hy). by destruct x. }
  specialize (Hw O m r eq_refl eq_refl). destruct m as [[ret [[buf bytes]|]]|]; [| |done]; destruct Hw as (_ & _ & _ & Hb); cbn in Hb.
  - destruct Hb as ((n & Hb & _) & _). change (held (r :: R)) with (r_blocks r ++ held R). by rewrite Hb, fmap_app, E.
  - change (held (r :: R)) with (r_blocks r ++ held R). by rewrite Hb, fmap_app, E.
Qed.

Lemma rcount_idle (f : res -> bool) pool R : length R = length pool -> Forall finished pool ->
  (forall a r, loaded_ok a r -> f r = false) ->
  (forall t m r, pool !! t = Some m -> R !! t = Some r -> wp total_memory_bytes h0 t m loaded_ok r) -> rcount f R = 0.
Proof.
  intros Hlen Hfin Hf Hw. apply rcount_none. intros u x Hu. destruct (lookup_lt_is_Some_2 pool u) as [m Hm].
  { rewrite <- Hlen. by eapply lookup_lt_Some. }
  specialize (Hw u m x Hm Hu). rewrite Forall_lookup in Hfin. specialize (Hfin u m Hm). destruct m; [|done]. by eapply Hf.
Qed.

(** C2 Memory safety of the exec image cache under any interleaving of loads,
    invalidations, flushes and other users of the heap and of the filesystem: no
    block is used beyond its size, used or freed after it was freed, or freed
    twice; blocks of others are left alone; and when all calls have returned,
    what is left are the images in the table, without references, and the
    buffers given to the callers. *)
Theorem exec_cache_safe v calls s pool :
  heap_ok h0 -> x_ok v -> 0 <= total_memory_bytes -> Z.of_nat (length calls) < 2 ^ 32 -> Forall xcall_ok calls ->
  xreach total_memory_bytes v h0 calls (s, pool) ->
  exists L, mem_trace (sh_log s) = Some L /\
    (forall p n, (p, n) ∈ L -> exists m, heap_live (sh_heap s) p m /\ n <= m) /\
    (forall p n, heap_live h0 p n -> heap_live (sh_heap s) p n /\ p ∉ L.*1) /\
    (forall p n, heap_live (sh_heap s) p n -> heap_live h0 p n \/ p ∈ L.*1) /\
    (Forall finished pool ->
       L.*1 ≡ₚ (entry_blocks (entries s)).*1 ++ returned pool /\
       forall p e, entries s !! p = Some e -> refs e = 0 /\ exists i, in_slot s i e /\ slot s i = p).
Proof.
  intros Hh Hv Hm Hn Hc Hreach. destruct (reach_ok _ _ v calls (s, pool) Hh Hv Hm Hn Hc Hreach) as (R & Hi & Hlen & Hw). cbn in *.
  destruct Hi as [[HM HT] _]. pose proof HM as [_ (L & HL & Hp) _ Hfit Hbase Hall]. exists L. split_and!; [done | | | |].
  - intros p n Hin. apply Hfit. by rewrite <- Hp.
  - intros p n Hl. rewrite Hp. by apply Hbase.
  - intros p n Hl. rewrite Hp. by apply (Hall p n).
  - intros Hfin. split.
    + rewrite Hp. unfold owned. rewrite fmap_app. by rewrite (held_returned pool R Hlen Hfin Hw).
    + intros p e He. assert (refs e = 0) as Hr.
      { rewrite (ti_refs _ _ _ HT p e He). apply (rcount_idle _ pool R Hlen Hfin); [|done].
        intros a r (Hr & _). by apply is_ref_none. }
      assert (rcount (is_zombie p) R = 0) as Hz.
      { apply (rcount_idle _ pool R Hlen Hfin); [|done]. intros a r (_ & Hz & _). by apply is_zombie_none. }
      rewrite (ti_zombies _ _ _ HT p e He), Hr in Hz. destruct (dead e) eqn:Ed; [done|].
      split; [done|]. destruct (ti_alive _ _ _ HT p e He Ed) as (i & Hi & Hs). exists i. split; [|done].
      destruct (ti_entry _ _ _ HT p e He) as [Hp0 _]. split_and!; [lia | lia | congruence | by rewrite Hs].
Qed.

(** C30 The table of the exec image cache under any interleaving: its byte count
    is the sum of the cached images and stays within the budget, the smaller of
    16 MiB and a 32nd of memory; no path is cached twice; every cached image
    has the recorded size, at most 8 MiB; and the counter that lets the hooks
    return early is the number of entries and registered loads. *)
Theorem exec_cache_bounded v calls s pool :
  heap_ok h0 -> x_ok v -> 0 <= total_memory_bytes -> Z.of_nat (length calls) < 2 ^ 32 -> Forall xcall_ok calls ->
  xreach total_memory_bytes v h0 calls (s, pool) ->
  exc_total s = total_size s /\ total_size s <= Z.min EXC_MAX_TOTAL (total_memory_bytes / 32) /\
  (forall i j e f, in_slot s i e -> in_slot s j f -> e_path e = e_path f -> i = j) /\
  (forall i e, in_slot s i e -> zlen (image e) = e_size e /\ 0 < e_size e <= EXC_MAX_FILE /\ dead e = false) /\
  exc_active s = active_count s.
Proof.
  intros Hh Hv Hm Hn Hc Hreach. destruct (reach_ok _ _ v calls (s, pool) Hh Hv Hm Hn Hc Hreach) as (R & Hi & _). cbn in Hi.
  destruct Hi as [[_ HT] Ha]. split_and!; [exact (ti_total _ _ _ HT) | | exact (ti_keys _ _ _ HT) | | done].
  - pose proof (ti_total _ _ _ HT). pose proof (ti_budget _ _ _ HT). unfold exc_budget in *. lia.
  - intros i e (Hi & Hp & He). destruct (ti_entry _ _ _ HT _ _ He) as (_ & Hl & Hs & _).
    destruct (ti_slot _ _ _ HT i Hi Hp) as (f & Hf & Hd). simplify_eq. split_and!; try done; lia.
Qed.

(** C3 Freshness of the exec image cache under any interleaving: the bytes of a
    cached image were all read by one load after it registered for the path,
    and no invalidation matching the path has happened since that
    registration; the same held whenever an image was found.  A load returns
    what it read itself or an image it found this way, with its length. *)
Theorem exec_cache_fresh v calls s pool :
  heap_ok h0 -> x_ok v -> 0 <= total_memory_bytes -> Z.of_nat (length calls) < 2 ^ 32 -> Forall xcall_ok calls ->
  xreach total_memory_bytes v h0 calls (s, pool) ->
  (forall i e, in_slot s i e -> fresh (sh_log s) (e_path e) (image e)) /\ hits_fresh (sh_log s) /\
  forall t ret buf bytes, pool !! t = Some (Ret (ret, Some (buf, bytes))) ->
    ret = s32 (zlen bytes) /\ (reads_of t (sh_log s) = bytes \/ exists key, XHit t key bytes ∈ sh_log s).
Proof.
  intros Hh Hv Hm Hn Hc Hreach. destruct (reach_ok _ _ v calls (s, pool) Hh Hv Hm Hn Hc Hreach) as (R & Hi & Hlen & Hw). cbn in *.
  destruct Hi as [[_ HT] _]. split_and!; [apply HT | apply HT |]. intros t ret buf bytes Ht.
  destruct (lookup_lt_is_Some_2 R t) as [r Hr]; [rewrite Hlen; by eapply lookup_lt_Some|].
  destruct (Hw t _ r Ht Hr) as (_ & _ & _ & _ & Hret & Hsrc). split; [done|]. pose proof (ti_ld _ _ _ HT) as Hld.
  destruct Hsrc as [<-|Hh']; [left; by apply (li_reads _ _ _ Hld) | right; by eapply (li_hit _ _ _ Hld)].
Qed.
End theorems.
