(* ===== verification/ExecVfs.v ===== *)
(** * The exec image cache on the virtual filesystem

    The calls that src/exec_cache.c makes, from the models of src/vfs.c and
    src/tmpfs.c, and the laws it relies on. *)
From stdpp Require Import gmap.
From S2P Require Import Prelude Paths Heap Tmpfs TmpfsData TmpfsTree Vfs VfsTmpfs ExecCache.
#[local] Open Scope Z_scope.

Create HintDb ram.

Section ram.
Context {H : Type} `{!KHeap H}.
Implicit Types (w : tworld H) (s : tmpfs H).

(** What reading needs of the driver's state. *)
Record tw_ok w : Prop := {
  tk_data : fs_data_ok (tw_fs w);
  tk_ready : tmpfs_ready (tw_fs w) = true;
  tk_inos i : in_inodes i -> TmpfsTree.used (tw_fs w) i = true -> in_inodes (n_ino (node_at (tw_fs w) i));
  tk_pos p h : tw_handles w !! p = Some h -> 0 <= h_pos h < 2 ^ 32;
}.

(** ** Lookups change nothing *)

Lemma find_child_range s p name : tmpfs_find_child s p name = -1 \/
  in_inodes (tmpfs_find_child s p name) /\ TmpfsTree.used s (tmpfs_find_child s p name) = true.
Proof.
  unfold tmpfs_find_child. pose proof (scan_nodes_spec (fun i => is_child s p i && bytes_eqb (n_name (node_at s i)) name)) as Hs.
  destruct (scan_nodes _) as [i|]; [right | by left]. destruct Hs as (Hi & Hc & _). bool_hyps. split; [unfold in_inodes; cbn; lia|]. unfold is_child in *. by bool_hyps.
Qed.
Lemma lookup_loop_pure fuel want cur (p : cstr) s :
  (lookup_loop fuel false false want cur p s).2 = s /\
  (0 <= (lookup_loop fuel false false want cur p s).1 ->
     in_inodes (lookup_loop fuel false false want cur p s).1 /\ TmpfsTree.used s (lookup_loop fuel false false want cur p s).1 = true).
Proof.
  revert cur p. induction fuel as [|fuel IH]; intros cur p; cbn [lookup_loop]; [by split|].
  destruct (component p) as [part slash]. destruct (zlen part =? 0); [by split|]. destruct (_ <=? zlen part); [by split|].
  pose proof (find_child_range s cur part) as Hc. rewrite !andb_false_r. cbn [andb orb].
  destruct (Z.ltb_spec (tmpfs_find_child s cur part) 0); [by split|].
  destruct Hc as [Hc|Hc]; [lia|]. destruct slash as [|c slash].
  - repeat case_match; by split.
  - destruct (negb _); [by split|]. destruct (skip_slashes (c :: slash)); [|apply IH]. split; [done|]. cbn. destruct want; [done | intros; lia].
Qed.
Lemma lookup_pure rel want s : tmpfs_ready s = true ->
  (tmpfs_lookup rel false false want s).2 = s /\
  (want = false -> 0 <= (tmpfs_lookup rel false false want s).1 ->
     in_inodes (tmpfs_lookup rel false false want s).1 /\ TmpfsTree.used s (tmpfs_lookup rel false false want s).1 = true).
Proof.
  intros Hr. unfold tmpfs_lookup, ensure_root. rewrite Hr. destruct (skip_slashes _) as [|c p].
  2: { destruct (lookup_loop_pure (length (c :: p)) want 0 (c :: p) s). by split. }
 
  split; [done|]. intros ->. cbn. intros; lia.
Qed.
Lemma lookup_any_pure rel s : tmpfs_ready s = true -> (tmpfs_lookup_any rel s).2 = s.
Proof.
  intros Hr. unfold tmpfs_lookup_any. destruct (default [] rel); [done|].
  destruct (tmpfs_lookup rel false false false s) as [i s1] eqn:E1. pose proof (lookup_pure rel false s Hr) as [P1 _]. rewrite E1 in P1. cbn in P1. subst s1.
  destruct (_ && _); [|done]. destruct (tmpfs_lookup rel false false true s) as [j s2] eqn:E2.
  pose proof (lookup_pure rel true s Hr) as [P2 _]. rewrite E2 in P2. cbn in P2. subst s2. by destruct (0 <=? j).
Qed.

(** ** The driver's operations *)

Lemma tw_ok_fs w s : tw_ok w -> fs_data_ok s -> nodes s = nodes (tw_fs w) -> tmpfs_ready s = tmpfs_ready (tw_fs w) ->
  tw_ok (mk_tw s (tw_handles w)).
Proof.
  intros [Hd Hr Hi Hp] Hs Hn Hrs. split; cbn; [done | congruence | | done]. intros i. unfold TmpfsTree.used, node_at. rewrite Hn. apply Hi.
Qed.
Lemma tw_ok_same w : tw_ok w -> tw_ok (mk_tw (tw_fs w) (tw_handles w)).
Proof. by destruct w. Qed.
Lemma tw_ok_handle w p h : tw_ok w -> 0 <= h_pos h < 2 ^ 32 -> tw_ok (mk_tw (tw_fs w) (<[p := h]> (tw_handles w))).
Proof.
  intros [Hd Hr Hi Hp] Hh. split; cbn; [done..|]. intros q g [[<- <-]|[_ Hq]]%lookup_insert_Some; [done | by eapply Hp].
Qed.
Lemma handle_at_pos w p : tw_ok w -> 0 <= h_pos (handle_at w p) < 2 ^ 32.
Proof. intros Hw. unfold handle_at. destruct (tw_handles w !! p) eqn:E; cbn; [by eapply tk_pos | lia]. Qed.

Lemma drv_open_ok rel w : tw_ok w -> tw_ok (drv_open rel VFS_O_READ w).2.
Proof.
  intros Hw. pose proof Hw as [Hd Hr Hi Hp]. unfold drv_open, tmpfs_open.
  pose proof (lookup_pure (Some rel) false (tw_fs w) Hr) as [P1 P2]. destruct (tmpfs_lookup _ _ _ _ _) as [idx s]. cbn in P1, P2. subst s.
  change (has VFS_O_READ VFS_O_CREATE) with false. change (has VFS_O_READ VFS_O_TRUNC) with false.
  change (has VFS_O_READ VFS_O_APPEND) with false. rewrite andb_false_r. cbn [fst snd].
  destruct (Z.ltb_spec idx 0); [by apply tw_ok_fs|]. destruct (_ || _); [by apply tw_ok_fs|]. cbn [tw_fs].
  set (ino := n_ino (node_at (tw_fs w) idx)). assert (in_inodes ino) as Hino by (by apply Hi; apply P2).
  destruct (hp_kalloc 12 (t_heap (tw_fs w))) as [a h]. pose proof (data_heap (tw_fs w) h Hd) as Hd1.
  destruct (a =? 0); [by apply tw_ok_fs|]. cbn.
  destruct (data_attr (Tmpfs.set_heap h (tw_fs w)) ino (fun n => set_opens (s32 (i_opens n + 1)) n) Hd1 Hino) as (Hd2 & [En Er _] & _); [done|].
  apply (tw_ok_handle (mk_tw (upd_inode ino (fun n => set_opens (s32 (i_opens n + 1)) n) (Tmpfs.set_heap h (tw_fs w))) (tw_handles w))); [|cbn; lia].
  by apply tw_ok_fs.
Qed.

Lemma drv_close_ok p w : tw_ok w -> tw_ok (drv_close p w).2.
Proof.
  intros Hw. pose proof Hw as [Hd Hr Hi Hp]. unfold drv_close, tmpfs_close, on_fs. destruct (p =? 0); [by apply tw_ok_fs|]. cbn.
  set (s1 := match tmpfs_hin (handle_at w p) (tw_fs w) with Some _ => _ | None => _ end).
  assert (fs_data_ok s1 /\ nodes s1 = nodes (tw_fs w) /\ tmpfs_ready s1 = tmpfs_ready (tw_fs w)) as (Hd1 & En1 & Er1).
  { unfold s1. destruct (tmpfs_hin _ _) as [ino|] eqn:Eh; [|done]. destruct (hin_spec _ _ _ Eh) as (_ & H0 & Hin & _).
    assert (0 < ino < TMPFS_MAX_NODES) as Hrng by (unfold in_inodes in Hin; lia).
    set (t := if 0 <? i_opens _ then _ else _).
    assert (fs_data_ok t /\ nodes t = nodes (tw_fs w) /\ tmpfs_ready t = tmpfs_ready (tw_fs w)) as (Hdt & Ent & Ert).
    { unfold t. destruct (0 <? _); [|done]. destruct (data_attr (tw_fs w) ino (fun n => set_opens (i_opens n - 1) n) Hd Hin) as (? & [? ? _] & _); done. }
    destruct (put_inode_ok t ino Hdt Hrng) as (? & [E1 E2 _] & _). split_and!; [done | by rewrite E1 | by rewrite E2]. }
  split; cbn; [by apply data_heap | congruence | |].
  - intros i. unfold TmpfsTree.used, node_at. cbn. rewrite En1. apply Hi.
  - intros q h [_ Hq]%lookup_delete_Some. by eapply Hp.
Qed.

Lemma s32_le x : 0 <= x -> s32 x <= x.
Proof.
  intros Hx. unfold s32. pose proof (Z.div_mod (x + 2 ^ 31) (2 ^ 32) ltac:(lia)). pose proof (Z.div_pos (x + 2 ^ 31) (2 ^ 32)). lia.
Qed.
Lemma drv_read_ok p n w : tw_ok w -> tw_ok (drv_read p n w).2.
Proof.
  intros Hw. pose proof (handle_at_pos w p Hw) as Hpos. unfold drv_read, tmpfs_read.
  destruct (tmpfs_hin _ _); [destruct (_ <=? _)|]; cbn; apply tw_ok_handle; try done. apply u32_bound.
Qed.
Lemma drv_read_bounded p n w : tw_ok w -> 0 <= n -> (drv_read p n w).1.1 <= n /\ (drv_read p n w).1.1 <= zlen (drv_read p n w).1.2.
Proof.
  intros Hw Hn. pose proof (handle_at_pos w p Hw) as Hpos. unfold drv_read, tmpfs_read. set (h := handle_at w p) in *.
  destruct (tmpfs_hin h (tw_fs w)) as [ino|] eqn:Eh; cbn; [|split; [lia | done]].
  destruct (hin_spec _ _ _ Eh) as (_ & _ & Hin & _). pose proof (d_shape _ (proj1 (tk_data w Hw)) ino Hin) as Hsh. pose proof (is_size _ Hsh) as Hsz.
  destruct (Z.leb_spec (i_size (inode_at (tw_fs w) ino)) (h_pos h)); cbn; [split; [lia | done]|].
  rewrite (u32_small (i_size _ - _)) by lia. set (k := if _ <? n then _ else n).
  assert (0 <= k <= n /\ k <= i_size (inode_at (tw_fs w) ino) - h_pos h) as [Hk Hk'] by (unfold k; case_if; bool_hyps; lia).
  pose proof (s32_le k ltac:(lia)). split; [lia|]. rewrite read_loop_spec; [|apply Hsh|lia..]. cbn. rewrite zlen_bytes_range by lia. lia.
Qed.
Lemma drv_seek_ok p off whence w : tw_ok w -> tw_ok (drv_seek p off whence w).2.
Proof.
  intros Hw. pose proof (handle_at_pos w p Hw) as Hpos. unfold drv_seek, tmpfs_seek.
  repeat case_match; simplify_eq/=; apply tw_ok_handle; try done; apply u32_bound.
Qed.
Lemma drv_stat_ok rel w : tw_ok w -> tw_ok (drv_stat rel w).2.
Proof.
  intros Hw. unfold drv_stat, tmpfs_stat. cbn [negb]. pose proof (lookup_any_pure (Some rel) (tw_fs w) (tk_ready w Hw)) as P.
  destruct (tmpfs_lookup_any _ _) as [i s]. cbn in P. subst s. destruct (i <? 0); by apply tw_ok_same.
Qed.
Lemma drv_readlink_ok rel cap w : tw_ok w -> tw_ok (on_fs (tmpfs_readlink (Some rel) cap) w).2.
Proof.
  intros Hw. unfold on_fs, tmpfs_readlink. destruct (default [] _); [by apply tw_ok_same|].
  pose proof (lookup_any_pure (Some rel) (tw_fs w) (tk_ready w Hw)) as P. destruct (tmpfs_lookup_any _ _) as [i s]. cbn in P. subst s.
  destruct (i <? 0); [by apply tw_ok_same|]. repeat case_match; simplify_eq/=; by apply tw_ok_same.
Qed.
Lemma tw_heap_ok w : tw_ok w -> (forall n, tw_ok (hp_kalloc n w).2) /\ forall p, tw_ok (hp_kfree p w).
Proof.
  intros Hw. split; intros; cbn; [destruct (hp_kalloc n _)|]; cbn; apply tw_ok_fs; try done; by apply data_heap, tk_data.
Qed.

(** ** The layer above it *)

(** A body of the layer keeps a property of the driver's state. *)
Definition wkeeps (P : tworld H -> Prop) {A} (m : st (W := tworld H) A) : Prop := forall v, P (v_world v) -> P (v_world (m v).2).

Section wkeeps.
Context (P : tworld H -> Prop).

Lemma wk_ret {A} (a : A) : wkeeps P (mret a).
Proof. by intros s. Qed.
Lemma wk_bind {A B} (m : st A) (f : A -> st B) : wkeeps P m -> (forall a, wkeeps P (f a)) -> wkeeps P (m ≫= f).
Proof. intros Hm Hf s Hs. unfold mbind, st_bind. specialize (Hm s Hs). destruct (m s) as [a s1]. by apply Hf. Qed.
Lemma wk_bind_ret {A B} (a : A) (f : A -> st B) : wkeeps P (f a) -> wkeeps P (mret a ≫= f).
Proof. done. Qed.
Lemma wk_gets {A} (f : vfs -> A) : wkeeps P (gets f).
Proof. by intros s. Qed.
Lemma wk_note n : wkeeps P (note n).
Proof. by intros s. Qed.
Lemma wk_files f : wkeeps P (modify (fun v => set_files (f v) v)).
Proof. by intros s. Qed.
Lemma wk_when b m : wkeeps P m -> wkeeps P (when b m).
Proof. intros Hm. unfold when. destruct b; [done | apply wk_ret]. Qed.
Lemma wk_world {A} (f : tworld H -> A * tworld H) : (forall w, P w -> P (f w).2) -> wkeeps P (world f).
Proof. intros Hf s Hs. unfold world. specialize (Hf _ Hs). by destruct (f _). Qed.
Lemma wk_fs_op {A B} (sel : vfs_fs_ops (tworld H) -> option (Z -> A)) slot (none : st B) some :
  wkeeps P none -> (forall op, sel tmpfs_ops = Some op -> forall d, wkeeps P (some (op d))) ->
  (forall op, sel null_ops = Some op -> forall d, wkeeps P (some (op d))) -> wkeeps P (fs_op ram_ops sel slot none some).
Proof.
  intros Hn Hs Hs' s Hp. unfold fs_op. destruct (fs_ops _) as [k|]; cbn; [|by apply Hn].
  destruct (sel (ram_ops k)) eqn:E; [|by apply Hn]. destruct k; cbn in E; first [by eapply Hs | by eapply Hs'].
Qed.
End wkeeps.

#[local] Hint Resolve wk_ret wk_gets wk_note wk_files : ram.
Lemma kalloc_wk n : wkeeps tw_ok (kalloc_v n).
Proof. apply wk_world. intros w Hw. by apply tw_heap_ok. Qed.
Lemma kfree_wk p : wkeeps tw_ok (kfree_v p).
Proof. apply wk_world. intros w Hw. by apply tw_heap_ok. Qed.
#[local] Hint Resolve kalloc_wk kfree_wk drv_open_ok drv_close_ok drv_read_ok drv_seek_ok drv_stat_ok drv_readlink_ok : ram.

(** Take a body apart down to the driver's operations. *)
Ltac wkeeps :=
  repeat match goal with
  | |- wkeeps _ (mbind _ _) => apply wk_bind; [|intros ?]
  | |- wkeeps _ (when _ _) => apply wk_when
  | |- wkeeps _ (fs_op _ _ _ _ _) => apply wk_fs_op; [|intros ? [= <-] ?|discriminate]
  | |- wkeeps _ (world _) => apply wk_world; intros ? ?
  | |- wkeeps _ ((fun _ => _) _) => cbn beta
  | |- wkeeps _ (if ?b then _ else _) => destruct b
  | |- wkeeps _ (match ?x with _ => _ end) => destruct x
  | |- wkeeps _ ((match ?x with _ => _ end) _) => destruct x
  | |- _ => solve [eauto 2 with ram]
  end.

Lemma read_link_wk p cap : wkeeps tw_ok (read_link ram_ops p cap).
Proof. unfold read_link. wkeeps. Qed.
#[local] Hint Resolve read_link_wk : ram.
Lemma resolve_loop_wk fuel out rest loops outsz fl : wkeeps tw_ok (resolve_loop ram_ops fuel out rest loops outsz fl).
Proof. revert out rest loops. induction fuel as [|fuel IH]; intros out rest loops; cbn [resolve_loop]; [wkeeps|]. cbn zeta. wkeeps. Qed.
#[local] Hint Resolve resolve_loop_wk : ram.
Lemma vfs_resolve_wk p outsz fl : wkeeps tw_ok (vfs_resolve ram_ops p outsz fl).
Proof. unfold vfs_resolve. generalize resolve_fuel. intros fuel. wkeeps. Qed.
Lemma vfs_stat_wk p : wkeeps tw_ok (vfs_stat ram_ops p).
Proof. unfold vfs_stat. wkeeps. Qed.
Lemma vfs_times_wk p set ts : wkeeps tw_ok (vfs_times ram_ops p set ts).
Proof. unfold vfs_times. wkeeps. Qed.
Lemma isdir_wk slot rel : wkeeps tw_ok (vfs_isdir_locked ram_ops slot rel).
Proof. unfold vfs_isdir_locked. wkeeps. Qed.
#[local] Hint Resolve isdir_wk : ram.
Lemma auto_create_read slot rel : auto_create (W := tworld H) ram_ops slot rel VFS_O_READ = mret (VFS_O_READ, false).
Proof. done. Qed.
Lemma open_events_wk p flags c d : wkeeps tw_ok (open_events p flags c d).
Proof. unfold open_events. wkeeps. Qed.
#[local] Hint Resolve open_events_wk : ram.
Lemma vfs_open_wk p : wkeeps tw_ok (vfs_open ram_ops p VFS_O_READ).
Proof.
  unfold vfs_open. apply wk_bind; [wkeeps|]. intros [[slot rel]|]; [|wkeeps]. apply wk_fs_op; [wkeeps | intros ? [= <-] d | done].
  change (has VFS_O_READ WRITE_FLAGS) with false. apply wk_bind_ret, wk_bind; [wkeeps|]. intros [fd|]; [|wkeeps].
  rewrite auto_create_read. apply wk_bind_ret. cbn [fst snd]. wkeeps.
Qed.
Lemma vfs_close_wk fd : wkeeps tw_ok (vfs_close ram_ops fd).
Proof. unfold vfs_close, vfs_close_locked. wkeeps. Qed.
Lemma vfs_read_wk fd n : wkeeps tw_ok (vfs_read ram_ops fd n).
Proof. unfold vfs_read, file_op, fd_event. wkeeps. Qed.
Lemma vfs_seek_wk fd off whence : wkeeps tw_ok (vfs_seek ram_ops fd off whence).
Proof. unfold vfs_seek, file_op. wkeeps. Qed.

Lemma vfs_read_bounded fd n (v : vfs (W := tworld H)) : tw_ok (v_world v) -> 0 <= n ->
  (vfs_read ram_ops fd n v).1.1 <= n /\ (vfs_read ram_ops fd n v).1.1 <= zlen (vfs_read ram_ops fd n v).1.2.
Proof.
  intros Hv Hn. unfold vfs_read, mbind, st_bind, gets. destruct (vfs_fd_ok v fd); cbn [negb]; [|cbn; split; [lia | done]].
  unfold file_op. destruct (vf_fs _) as [slot|]; [|cbn; split; [lia | done]].
  unfold fs_op. destruct (fs_ops _) as [k|]; cbn; [|split; [lia | done]].
  destruct k; cbn; try (split; [lia | done]). unfold world, mbind, st_bind, note, modify. cbn.
  pose proof (drv_read_bounded (fs_handle (file_at v fd)) n (v_world v) Hv Hn) as Hb.
  destruct (drv_read _ _ _) as [r w].
  by destruct (fd_event fd (0 <? r.1) IN_ACCESS _).
Qed.

(** *** What the cache calls *)

Definition ram_resolve (p : cstr) (v : vfs (W := tworld H)) : Z * cstr * vfs :=
  let '(r, v) := vfs_resolve ram_ops (Some p) VFS_MAX_PATH true v in (default (- ELOOP, []) r, v).
Definition ram_times (p : cstr) (v : vfs (W := tworld H)) : Z * Z * vfs :=
  let '(r, (m, _), v) := vfs_times ram_ops (Some p) 0 (Some 0, None) v in (r, default 0 m, v).
Lemma ram_resolve_ok p v : tw_ok (v_world v) -> tw_ok (v_world (ram_resolve p v).2).
Proof.
  intros Hv. pose proof (vfs_resolve_wk (Some p) VFS_MAX_PATH true v Hv) as Hk. unfold ram_resolve. by destruct (vfs_resolve _ _ _ _ _).
Qed.
Lemma ram_times_ok p v : tw_ok (v_world v) -> tw_ok (v_world (ram_times p v).2).
Proof.
  intros Hv. pose proof (vfs_times_wk (Some p) 0 (Some 0, None) v Hv) as Hk. unfold ram_times. by destruct (vfs_times _ _ _ _ _) as [[? []] ?].
Qed.

#[global] Instance ram_files : ExecFiles (vfs (W := tworld H)) := {|
  x_ok v := tw_ok (v_world v);
  x_resolve := ram_resolve;
  x_open p flags := vfs_open ram_ops (Some p) flags;
  x_seek := vfs_seek ram_ops;
  x_stat p := vfs_stat ram_ops (Some p);
  x_times := ram_times;
  x_read := vfs_read ram_ops;
  x_close := vfs_close ram_ops;
|}.
#[global] Instance ram_files_laws : ExecFilesLaws (vfs (W := tworld H)).
Proof.
  split.
  - exact ram_resolve_ok.
  - intros p. exact (vfs_open_wk (Some p)).
  - intros fd off whence. exact (vfs_seek_wk fd off whence).
  - intros p. exact (vfs_stat_wk (Some p)).
  - exact ram_times_ok.
  - exact vfs_read_wk.
  - exact vfs_close_wk.
  - exact vfs_read_bounded.
Qed.

(** Any filesystem tmpfs can produce will do. *)
Lemma ram_boot_ok s : fs_ok s -> x_ok (ram_boot s).
Proof.
  intros [Ht Hd]. change (tw_ok (mk_tw s ∅)). split; cbn; [done | apply Ht | | done]. intros i Hi Hu.
  destruct (decide (i = 0)) as [->|]; [destruct (tr_root _ Ht) as (_ & _ & E & _); unfold ino_of in E; by rewrite E|].
  destruct (tr_node _ Ht i) as (_ & _ & _ & Hn & _); [unfold in_inodes in *; lia | done|]. unfold ino_of in Hn. unfold in_inodes. lia.
Qed.
End ram.
