(* ===== verification/ExecDemo.v ===== *)
(** * The exec image cache: a concrete run

    Three loads of the same program and the invalidation of everything, on
    the kernel heap of src/mem.c and a tmpfs mounted at the root. *)
From stdpp Require Import gmap.
From S2P Require Import Prelude Paths Heap Pmm PmmInit Slab HeapTrace Tmpfs TmpfsData TmpfsTree TmpfsOps TmpfsProps Vfs VfsTmpfs.
From S2P Require Import ExecCache ExecMem ExecInv ExecSafe ExecVfs.
#[local] Open Scope Z_scope.

Lemma sys_run_reach {S A : Type} schedule (c : S * list (prog S A)) : rtc sys_step c (sys_run schedule c).
Proof.
  revert c. induction schedule as [|t schedule IH]; intros [s pool]; [apply rtc_refl|]. cbn.
  destruct (pool !! t) as [[a|B f k]|] eqn:E; try apply IH. destruct (f s) as [b s'] eqn:Ef. eapply rtc_l; [|apply IH].
  pose proof (sys_step_thread s pool t B f k E) as Hs. by rewrite Ef in Hs.
Qed.

(** Free memory enough for tmpfs, which leaves 48 MiB to others. *)
Definition plenty : pmm :=
  mk_pmm 16384 0x1000 0xFFFF800000000000 16384 (replicate (Z.to_nat 2048) 0) 0 16384 (replicate (Z.to_nat 16384) 0).
Definition empty_fs : tmpfs kmem := tmpfs_init_root (mk_tmpfs [] [] false TMPFS_MIN_BYTES 0 (kmem_boot plenty) 1700000000).
Definition sh_handle : handle := mk_handle 64 1 0 VFS_O_WRITE.
Definition sh_fs : tmpfs kmem :=
  (tmpfs_write sh_handle (bytes_of "elf") 3 (tmpfs_create (Some (bytes_of "sh")) empty_fs).2).2.

Lemma sh_fs_ok : fs_ok sh_fs.
Proof.
  destruct (tmpfs_create (Some (bytes_of "sh")) empty_fs) as [r s] eqn:E. unfold sh_fs. rewrite E. cbn [snd].
  destruct (tmpfs_write sh_handle (bytes_of "elf") 3 s) as [[r' h] s'] eqn:Ew.
  eapply fs_step_ok; [|eapply st_write; [| | |exact Ew]]; [|cbn; lia | by split | done].
  eapply fs_step_ok; [|by eapply st_create]. apply init_root_ok; [done | cbn; unfold TMPFS_MIN_BYTES; lia].
Qed.

Abbreviation demo_vfs := (vfs (W := tworld kmem)).
Definition demo_calls : list (@xcall demo_vfs) :=
  [CLoad (Some (bytes_of "/sh")) true; CLoad (Some (bytes_of "//sh")) true; CInvalidateTree (Some (bytes_of "/")); CLoad (Some (bytes_of "/sh")) true].
Definition demo_boot : shared kmem demo_vfs * list (prog (shared kmem demo_vfs) loaded) :=
  (exc_boot (ram_boot sh_fs) (kmem_boot striped), xpool (2 ^ 30) demo_calls).

(** The second and third load find the image of the first; everything is
    invalidated while the third holds it, which then frees it. *)
Definition demo_schedule : list nat :=
  replicate 60 0%nat ++ replicate 60 1%nat ++ replicate 11 3%nat ++ replicate 40 2%nat ++ replicate 60 3%nat.
Definition demo_end : shared kmem demo_vfs * list (prog (shared kmem demo_vfs) loaded) := sys_run demo_schedule demo_boot.

Lemma demo_reach : xreach (2 ^ 30) (ram_boot sh_fs) (kmem_boot striped) demo_calls (demo_end.1, demo_end.2).
Proof. rewrite <- surjective_pairing. apply sys_run_reach. Qed.
Lemma demo_calls_ok : Forall xcall_ok demo_calls.
Proof. by repeat constructor. Qed.

Lemma exec_cache_safe_witness : exists L, mem_trace (sh_log demo_end.1) = Some L /\
  forall p n, (p, n) ∈ L -> exists m, heap_live (sh_heap demo_end.1) p m /\ n <= m.
Proof.
  destruct (exec_cache_safe (2 ^ 30) (kmem_boot striped) (ram_boot sh_fs) demo_calls demo_end.1 demo_end.2) as (L & HL & Hb & _);
    [exact striped_ok | apply ram_boot_ok, sh_fs_ok | lia | reflexivity | exact demo_calls_ok | exact demo_reach |].
  exists L. split; [exact HL | exact Hb].
Defined.

Lemma exec_cache_bounded_witness : exc_total demo_end.1 = total_size demo_end.1 /\ total_size demo_end.1 <= 2 ^ 24.
Proof.
  destruct (exec_cache_bounded (2 ^ 30) (kmem_boot striped) (ram_boot sh_fs) demo_calls demo_end.1 demo_end.2) as (Ht & Hb & _);
    [exact striped_ok | apply ram_boot_ok, sh_fs_ok | lia | reflexivity | exact demo_calls_ok | exact demo_reach |].
  split; [exact Ht|]. unfold EXC_MAX_TOTAL in Hb. lia.
Defined.

Lemma exec_cache_fresh_witness : hits_fresh (sh_log demo_end.1) /\ XHit 3 (bytes_of "/sh") (bytes_of "elf") ∈ sh_log demo_end.1.
Proof.
  destruct (exec_cache_fresh (2 ^ 30) (kmem_boot striped) (ram_boot sh_fs) demo_calls demo_end.1 demo_end.2) as (_ & Hf & _);
    [exact striped_ok | apply ram_boot_ok, sh_fs_ok | lia | reflexivity | exact demo_calls_ok | exact demo_reach |].
  split; [exact Hf|]. apply (list_elem_of_lookup_2 _ 24%nat). vm_compute. reflexivity.
Defined.
