(* ===== verification/Printf.v ===== *)
(** * Formatted output

    [vsnprintf] and [snprintf] of src/term.c, with the flags, widths and length
    modifiers they parse, for strings, characters and integers.  The output is
    the bytes stored in the buffer; a conversion that takes a floating-point
    argument, an argument of another kind than the one passed, or a format that
    ends inside a conversion, has no result. *)
From S2P Require Import Prelude.

(** An argument: an integer, a pointer to a string (or NULL), a pointer. *)
Inductive arg :=
  | AInt (v : Z)
  | AStr (s : option cstr)
  | APtr (p : Z).

(** [buf], [remaining] and [written]; [out] is what was stored before [buf]. *)
Record sink := mk_sink { out : list Z; remaining : Z; written : Z }.

Definition append_char (c : Z) (k : sink) : sink :=
  if 1 <? remaining k then mk_sink (out k ++ [c]) (remaining k - 1) (s32 (written k + 1))
  else mk_sink (out k) (remaining k) (s32 (written k + 1)).
Fixpoint append_str (s : cstr) (k : sink) : sink :=
  match s with
  | [] => k
  | c :: s => append_str s (append_char c k)
  end.

Definition digit_char (upper : bool) (d : Z) : Z := if d <? 10 then 48 + d else (if upper then 65 else 97) + (d - 10).
(** The digits, least significant first: [tmp] of [append_uint]. *)
Fixpoint uint_digits (n : nat) (val base : Z) (upper : bool) : list Z :=
  match n with
  | O => []
  | S n => if val =? 0 then [] else digit_char upper (val mod base) :: uint_digits n (val / base) base upper
  end.
Definition uint_tmp (val base : Z) (upper : bool) : list Z := if val =? 0 then [48] else uint_digits 32 val base upper.
Definition append_uint (val base : Z) (upper : bool) (width : Z) (zero_pad : bool) (k : sink) : sink :=
  let tmp := uint_tmp val base upper in
  let k := append_str (replicate (Z.to_nat (width - zlen tmp)) (if zero_pad then 48 else 32)) k in
  append_str (rev tmp) k.

(** ** Conversions *)

(** The flags are skipped; whether the alternate form was among them. *)
Fixpoint skip_flags (fmt : cstr) (alt : bool) : bool * cstr :=
  match fmt with
  | c :: rest => if (c =? 45) || (c =? 35) || (c =? 43) || (c =? 32) then skip_flags rest (alt || (c =? 35)) else (alt, fmt)
  | [] => (alt, [])
  end.
Definition is_digit (c : Z) : bool := (48 <=? c) && (c <=? 57).
Fixpoint number (fmt : cstr) (n : Z) : Z * cstr :=
  match fmt with
  | c :: rest => if is_digit c then number rest (n * 10 + (c - 48)) else (n, fmt)
  | [] => (n, [])
  end.
(** Whether the argument is 64 bits wide. *)
Definition length_mod (fmt : cstr) : bool * cstr :=
  match fmt with
  | 104 :: 104 :: rest => (false, rest)
  | 104 :: rest => (false, rest)
  | 108 :: 108 :: rest => (true, rest)
  | 108 :: rest => (true, rest)
  | 122 :: rest | 106 :: rest | 116 :: rest => (true, rest)
  | _ => (false, fmt)
  end.

Record spec := mk_spec { s_alt : bool; s_zero : bool; s_width : Z; s_long : bool; s_conv : Z }.
(** From behind the percent sign to behind the conversion character. *)
Definition parse_spec (fmt : cstr) : option (spec * cstr) :=
  let '(alt, fmt) := skip_flags fmt false in
  let '(zero, fmt) := match fmt with 48 :: rest => (true, rest) | _ => (false, fmt) end in
  let '(width, fmt) := number fmt 0 in
  let fmt := match fmt with 46 :: rest => (number rest 0).2 | _ => fmt end in
  let '(long, fmt) := length_mod fmt in
  match fmt with
  | [] => None
  | c :: rest => Some (mk_spec alt zero width long c, rest)
  end.

Definition unsigned_arg (long : bool) (v : Z) : Z := if long then u64 v else u32 v.
Definition signed_arg (long : bool) (v : Z) : Z := if long then s64 v else s32 v.
(** [%x] and [%X]. *)
Definition append_hex (sp : spec) (upper : bool) (v : Z) (k : sink) : sink :=
  let val := unsigned_arg (s_long sp) v in
  let pre := s_alt sp && negb (val =? 0) in
  let k := if pre then append_str [48; if upper then 88 else 120] k else k in
  append_uint val 16 upper (if pre && (2 <=? s_width sp) then s_width sp - 2 else s_width sp) (s_zero sp) k.

(** One conversion: the arguments left and the sink. *)
Definition convert (sp : spec) (args : list arg) (k : sink) : option (list arg * sink) :=
  match s_conv sp, args with
  | 115, AStr s :: args => Some (args, append_str (default [40; 110; 117; 108; 108; 41] s) k)
  | 99, AInt c :: args => Some (args, append_char (u8 c) k)
  | 100, AInt v :: args | 105, AInt v :: args =>
      let val := signed_arg (s_long sp) v in
      Some (args, if val <? 0 then append_uint (u64 (- val)) 10 false (s_width sp) (s_zero sp) (append_char 45 k)
                  else append_uint (u64 val) 10 false (s_width sp) (s_zero sp) k)
  | 117, AInt v :: args => Some (args, append_uint (unsigned_arg (s_long sp) v) 10 false (s_width sp) (s_zero sp) k)
  | 120, AInt v :: args => Some (args, append_hex sp false v k)
  | 88, AInt v :: args => Some (args, append_hex sp true v k)
  | 112, APtr p :: args => Some (args, append_uint (u64 p) 16 false (s_width sp) (s_zero sp) (append_str [48; 120] k))
  | 115, _ | 99, _ | 100, _ | 105, _ | 117, _ | 120, _ | 88, _ | 112, _ => None
  | 102, _ | 103, _ | 71, _ | 101, _ | 69, _ => None
  | 37, _ => Some (args, append_char 37 k)
  | c, _ => Some (args, append_char c (append_char 37 k))
  end.

(** A round takes at least one byte of the format. *)
Fixpoint format_loop (fuel : nat) (fmt : cstr) (args : list arg) (k : sink) : option sink :=
  match fuel, fmt with
  | _, [] => Some k
  | O, _ => None
  | S fuel, c :: fmt =>
      if negb (c =? 37) then format_loop fuel fmt args (append_char c k)
      else
        '(sp, fmt) ← parse_spec fmt;
        '(args, k) ← convert sp args k;
        format_loop fuel fmt args k
  end.

(** The result, and the bytes stored at [str]: the text and its NUL, or the
    text over which the NUL is written. *)
Definition vsnprintf (size : Z) (fmt : cstr) (args : list arg) : option (Z * list Z) :=
  k ← format_loop (length fmt) fmt args (mk_sink [] size 0);
  Some (written k, if 0 <? remaining k then out k ++ [0] else if 0 <? size then ztake (size - 1) (out k) ++ [0] else out k).
Definition snprintf (size : Z) (fmt : cstr) (args : list arg) : option (Z * list Z) := vsnprintf size fmt args.

(** ** What is stored *)

Lemma s32_add1 x : s32 (s32 x + 1) = s32 (x + 1).
Proof. unfold s32. f_equal. replace ((x + 2 ^ 31) mod 2 ^ 32 - 2 ^ 31 + 1 + 2 ^ 31) with ((x + 2 ^ 31) mod 2 ^ 32 + 1) by lia.
  rewrite Zplus_mod_idemp_l. f_equal. lia. Qed.

Lemma ztake_nil n : ztake n (@nil Z) = [].
Proof. apply firstn_nil. Qed.
Lemma ztake_step n c (l : list Z) : 0 <= n -> ztake (n + 1) (c :: l) = c :: ztake n l.
Proof. intros Hn. unfold ztake. by replace (Z.to_nat (n + 1)) with (S (Z.to_nat n)) by lia. Qed.

Lemma append_str_spec t out0 n w : 0 <= n ->
  append_str t (mk_sink out0 n (s32 w)) =
  mk_sink (out0 ++ ztake (Z.max 0 (n - 1)) t) (n - zlen (ztake (Z.max 0 (n - 1)) t)) (s32 (w + zlen t)).
Proof.
  revert out0 n w. induction t as [|c t IH]; intros out0 n w Hn; cbn [append_str].
  - rewrite ztake_nil, app_nil_r. change (zlen (@nil Z)) with 0. by rewrite Z.sub_0_r, Z.add_0_r.
  - unfold append_char. cbn [remaining out written]. rewrite s32_add1. destruct (Z.ltb_spec 1 n).
    + rewrite IH by lia. rewrite <- app_assoc. replace (Z.max 0 (n - 1)) with (Z.max 0 (n - 1 - 1) + 1) by lia.
      rewrite ztake_step by lia. rewrite !zlen_cons. f_equal; [lia | f_equal; lia].
    + rewrite IH by lia. replace (Z.max 0 (n - 1)) with 0 by lia. rewrite zlen_cons. f_equal. f_equal. lia.
Qed.
Lemma append_str_app a b k : append_str (a ++ b) k = append_str b (append_str a k).
Proof. revert k. induction a as [|c a IH]; intros k; [done | apply IH]. Qed.

(** A step that appends a text, whatever the sink. *)
Definition writes (f : sink -> sink) : Prop := exists t, forall k, f k = append_str t k.

Lemma writes_id : writes (fun k => k).
Proof. by exists []. Qed.
Lemma writes_char c f : writes f -> writes (fun k => append_char c (f k)).
Proof. intros [t Ht]. exists (t ++ [c]). intros k. rewrite Ht, append_str_app. done. Qed.
Lemma writes_str s f : writes f -> writes (fun k => append_str s (f k)).
Proof. intros [t Ht]. exists (t ++ s). intros k. by rewrite Ht, append_str_app. Qed.
Lemma writes_uint v b u w z f : writes f -> writes (fun k => append_uint v b u w z (f k)).
Proof. intros Hf. unfold append_uint. by apply writes_str, writes_str. Qed.
Lemma writes_hex sp u v f : writes f -> writes (fun k => append_hex sp u v (f k)).
Proof. intros Hf. unfold append_hex. apply writes_uint. destruct (_ && _); [by apply writes_str | done]. Qed.
Create HintDb printf.
#[export] Hint Resolve writes_id writes_char writes_str writes_uint writes_hex : printf.

Lemma converts (a : list arg) f : writes f ->
  exists r : option (list arg * cstr), forall k, Some (a, f k) = (fun '(a, t) => (a, append_str t k)) <$> r.
Proof. intros [t Ht]. exists (Some (a, t)). intros k. cbn. by rewrite Ht. Qed.
Lemma convert_text sp args :
  exists r : option (list arg * cstr), forall k, convert sp args k = (fun '(a, t) => (a, append_str t k)) <$> r.
Proof.
  unfold convert. repeat case_match; first [by exists None | apply converts; auto 6 with printf].
Qed.
Lemma format_text fuel fmt args :
  exists r : option cstr, forall k, format_loop fuel fmt args k = (fun t => append_str t k) <$> r.
Proof.
  revert fmt args. induction fuel as [|fuel IH]; intros [|c fmt] args; cbn [format_loop]; try (by exists (Some [])); [by exists None|].
  destruct (negb _).
  - destruct (IH fmt args) as [r Hr]. exists (cons c <$> r). intros k. rewrite Hr. by destruct r.
  - destruct (parse_spec fmt) as [[sp fmt']|]; [|by exists None]. cbn.
    destruct (convert_text sp args) as [[[args' t]|] Hc]; [|exists None; intros k; by rewrite Hc].
    destruct (IH fmt' args') as [r Hr]. exists (app t <$> r). intros k. rewrite Hc. cbn. rewrite Hr. destruct r; [|done].
    cbn. by rewrite append_str_app.
Qed.

Lemma vsnprintf_text fmt args text : (forall k, format_loop (length fmt) fmt args k = Some (append_str text k)) -> forall size, 0 <= size ->
  vsnprintf size fmt args = Some (s32 (zlen text), if size =? 0 then [] else ztake (size - 1) text ++ [0]).
Proof.
  intros Hr size Hs. unfold vsnprintf. rewrite Hr. cbn [mbind option_bind].
  change (mk_sink [] size 0) with (mk_sink [] size (s32 0)). rewrite append_str_spec by done. cbn [app out remaining written].
  rewrite Z.add_0_l. destruct (Z.eqb_spec size 0) as [->|Hne]; [done|].
  rewrite Z.max_r, zlen_ztake by lia. by rewrite (proj2 (Z.ltb_lt 0 _)) by lia.
Qed.

(** C33 [vsnprintf] never stores beyond the size it is given: for a format and
    arguments it either has no result, for any size, or there is one text such
    that for every size the buffer receives the longest prefix of it that
    leaves room for a NUL, then the NUL, and nothing if the size is zero; the
    result is the length of the whole text, also if it was cut. *)
Theorem vsnprintf_spec fmt args :
  (forall size, vsnprintf size fmt args = None) \/
  exists text, forall size, 0 <= size ->
    vsnprintf size fmt args = Some (s32 (zlen text), if size =? 0 then [] else ztake (size - 1) text ++ [0]) /\
    ((size =? 0) = false -> zlen (ztake (size - 1) text ++ [0]) <= size).
Proof.
  destruct (format_text (length fmt) fmt args) as [[t|] Hr]; [right; exists t | left; intros; unfold vsnprintf; by rewrite Hr].
  intros size Hs. split; [by apply vsnprintf_text|]. intros Hne%Z.eqb_neq. rewrite zlen_app, zlen_ztake by lia. change (zlen [0]) with 1. lia.
Qed.

(** [printf]: its result, and the buffer and the length [term_write] gets. *)
Definition printf (fmt : cstr) (args : list arg) : option (Z * option (list Z * Z)) :=
  '(len, tmp) ← vsnprintf 512 fmt args;
  Some (len, if 0 <? len then Some (tmp, len) else None).
(** A text that does not fit is announced at its full length, so that
    [term_write] reads beyond the buffer. *)
Lemma printf_overread fmt args text : (forall k, format_loop (length fmt) fmt args k = Some (append_str text k)) -> 512 <= zlen text < 2 ^ 31 ->
  printf fmt args = Some (zlen text, Some (ztake 511 text ++ [0], zlen text)) /\ (512 < zlen text -> zlen (ztake 511 text ++ [0]) < zlen text).
Proof.
  intros Hf Ht. unfold printf. rewrite (vsnprintf_text _ _ _ Hf) by done. cbn [mbind option_bind].
  rewrite s32_small, (proj2 (Z.ltb_lt 0 _)) by lia. split; [done|]. rewrite zlen_app, zlen_ztake by lia. change (zlen [0]) with 1. lia.
Qed.

(** ** Decimal numbers *)

(** What [%u] prints. *)
Definition dec (v : Z) : cstr := rev (uint_tmp v 10 false).
Lemma append_dec v k : append_uint v 10 false 0 false k = append_str (dec v) k.
Proof. unfold append_uint. by replace (Z.to_nat (0 - zlen (uint_tmp v 10 false))) with 0%nat by (pose proof (zlen_nonneg (uint_tmp v 10 false)); lia). Qed.

Lemma digits_digit n v : 0 <= v -> Forall (fun c => is_digit c = true) (uint_digits n v 10 false).
Proof.
  revert v. induction n as [|n IH]; intros v Hv; cbn [uint_digits]; [done|]. destruct (v =? 0); [done|].
  constructor; [|apply IH; apply Z.div_pos; lia]. unfold digit_char, is_digit. pose proof (Z.mod_pos_bound v 10 ltac:(lia)).
  rewrite (proj2 (Z.ltb_lt _ _)) by lia. apply andb_true_iff. lia.
Qed.
Lemma digits_length n v k : 0 <= v < 10 ^ Z.of_nat k -> (length (uint_digits n v 10 false) <= k)%nat.
Proof.
  revert v k. induction n as [|n IH]; intros v k Hv; cbn [uint_digits]; [cbn; lia|]. destruct (Z.eqb_spec v 0); [cbn; lia|].
  destruct k as [|k]; [cbn in Hv; lia|]. cbn [length]. apply le_n_S, IH.
  rewrite Nat2Z.inj_succ, Z.pow_succ_r in Hv by lia. split; [apply Z.div_pos; lia | apply Z.div_lt_upper_bound; lia].
Qed.
Lemma dec_digit v : 0 <= v -> Forall (fun c => is_digit c = true) (dec v).
Proof.
  intros Hv. unfold dec, uint_tmp. apply Forall_rev. destruct (v =? 0); [by constructor | by apply digits_digit].
Qed.
Lemma dec_length v : 0 <= v < 2 ^ 32 -> 0 < zlen (dec v) <= 10.
Proof.
  intros Hv. unfold dec, uint_tmp, zlen. rewrite length_rev. destruct (Z.eqb_spec v 0); [cbn; lia|].
  pose proof (digits_length 32 v 10 ltac:(cbn; lia)). assert (uint_digits 32 v 10 false <> []) as Hne by (cbn; by rewrite (proj2 (Z.eqb_neq v 0))).
  destruct (uint_digits 32 v 10 false); [done|]. cbn in *. lia.
Qed.
