(* ===== verification/Users.v ===== *)
(** * Users, groups and the permission table

    src/users.c: the three tables, the session and the access check, with one
    definition per function.  Messages to the console are left out; the calls
    into the virtual filesystem are those of its model.  A string of the source
    stored in an array is the bytes before its NUL; [strncpy] is the kernel's
    own (src/string.c), which stores at most [n - 1] bytes and a NUL. *)
From S2P Require Import Prelude Paths Heap Vfs.

Definition MAX_USERS : Z := 32.
Definition MAX_GROUPS : Z := 32.
Definition MAX_USERNAME_LEN : Z := 32.
Definition MAX_GROUP_NAME_LEN : Z := 32.
Definition MAX_HOME_LEN : Z := 128.
Definition MAX_SHELL_LEN : Z := 64.
Definition MAX_GROUP_MEMBERS : Z := 16.
Definition MAX_PERM_ENTRIES : Z := 256.
Definition MAX_PERM_PATH : Z := 256.
Definition UID_ROOT : Z := 0.
Definition GID_ROOT : Z := 0.

(** Octal 0400 down to 0001. *)
Definition PERM_UR : Z := 0x100.
Definition PERM_UW : Z := 0x80.
Definition PERM_UX : Z := 0x40.
Definition PERM_GR : Z := 0x20.
Definition PERM_GW : Z := 0x10.
Definition PERM_GX : Z := 8.
Definition PERM_OR : Z := 4.
Definition PERM_OW : Z := 2.
Definition PERM_OX : Z := 1.
Definition PERM_DEFAULT_FILE : Z := Z.lor (Z.lor (Z.lor PERM_UR PERM_UW) PERM_GR) PERM_OR.
Definition ACCESS_READ : Z := 4.
Definition ACCESS_WRITE : Z := 2.
Definition ACCESS_EXEC : Z := 1.

Record user_t := mk_user {
  u_uid : Z; u_gid : Z; u_name : cstr; u_hash : Z; u_home : cstr; u_shell : cstr; u_active : bool }.
(** [g_members] is the first [member_count] entries of the array. *)
Record group_t := mk_group { g_gid : Z; g_name : cstr; g_members : list Z; g_active : bool }.
Record perm_t := mk_perm { p_path : cstr; p_uid : Z; p_gid : Z; p_mode : Z; p_active : bool }.

Definition zero_user : user_t := mk_user 0 0 [] 0 [] [] false.
Definition zero_group : group_t := mk_group 0 [] [] false.
Definition zero_perm : perm_t := mk_perm [] 0 0 0 false.
#[global] Instance user_inhabited : Inhabited user_t := populate zero_user.
#[global] Instance group_inhabited : Inhabited group_t := populate zero_group.
#[global] Instance perm_inhabited : Inhabited perm_t := populate zero_perm.

Record accounts := mk_accounts {
  users : list user_t;
  groups : list group_t;
  perms : list perm_t;
  current_uid : Z;
  current_gid : Z;
  logged_in : bool;
}.
Definition set_users (l : list user_t) (a : accounts) : accounts :=
  mk_accounts l (groups a) (perms a) (current_uid a) (current_gid a) (logged_in a).
Definition set_groups (l : list group_t) (a : accounts) : accounts :=
  mk_accounts (users a) l (perms a) (current_uid a) (current_gid a) (logged_in a).
Definition set_perms (l : list perm_t) (a : accounts) : accounts :=
  mk_accounts (users a) (groups a) l (current_uid a) (current_gid a) (logged_in a).
Definition set_session (uid gid : Z) (a : accounts) : accounts := mk_accounts (users a) (groups a) (perms a) uid gid true.

(** The tables after [memset]; root is implicit at boot. *)
Definition zero_accounts : accounts :=
  mk_accounts (replicate (Z.to_nat MAX_USERS) zero_user) (replicate (Z.to_nat MAX_GROUPS) zero_group)
    (replicate (Z.to_nat MAX_PERM_ENTRIES) zero_perm) UID_ROOT GID_ROOT true.

(** ** Utility *)

Definition password_hash (password : cstr) : Z := foldl (fun h c => u32 (u32 (Z.shiftl h 5) + h + u8 c)) 5381 password.

Definition mode_char (mode bit c : Z) : Z := if has mode bit then c else 45.
Definition perm_mode_to_string (mode : Z) : cstr :=
  [mode_char mode PERM_UR 114; mode_char mode PERM_UW 119; mode_char mode PERM_UX 120;
   mode_char mode PERM_GR 114; mode_char mode PERM_GW 119; mode_char mode PERM_GX 120;
   mode_char mode PERM_OR 114; mode_char mode PERM_OW 119; mode_char mode PERM_OX 120].

Definition next_uid (a : accounts) : Z :=
  foldl (fun m u => if u_active u && (m <=? u_uid u) then u_uid u +32 1 else m) 0 (users a).
Definition next_gid (a : accounts) : Z :=
  foldl (fun m g => if g_active g && (m <=? g_gid g) then g_gid g +32 1 else m) 0 (groups a).

(** ** Users *)

Definition found (o : option Z) : bool := match o with Some _ => true | None => false end.

Definition user_at (a : accounts) (i : Z) : user_t := zget (users a) i.
Definition user_find_by_name (username : option cstr) (a : accounts) : option Z :=
  match username with
  | None => None
  | Some n => zfind (Z.to_nat MAX_USERS) 0 (fun i => u_active (user_at a i) && bytes_eqb (u_name (user_at a i)) n)
  end.
Definition user_find_by_uid (uid : Z) (a : accounts) : option Z :=
  zfind (Z.to_nat MAX_USERS) 0 (fun i => u_active (user_at a i) && (u_uid (user_at a i) =? uid)).
Definition free_user (a : accounts) : option Z := zfind (Z.to_nat MAX_USERS) 0 (fun i => negb (u_active (user_at a i))).

Definition zeus : cstr := bytes_of "zeus".
Definition new_user (username password : cstr) (uid gid : Z) (home shell : option cstr) : user_t :=
  mk_user uid gid (kstrncpy username (MAX_USERNAME_LEN - 1)) (password_hash password)
    (kstrncpy (default [47] home) (MAX_HOME_LEN - 1)) (kstrncpy (default zeus shell) (MAX_SHELL_LEN - 1)) true.

Definition user_add (username password : option cstr) (uid gid : Z) (home shell : option cstr) (a : accounts) : Z * accounts :=
  match username, password with
  | Some n, Some p =>
      if found (user_find_by_name username a) then (-1, a)
      else if found (user_find_by_uid uid a) then (-1, a)
      else match free_user a with
           | Some i => (0, set_users (zset (users a) i (new_user n p uid gid home shell)) a)
           | None => (-1, a)
           end
  | _, _ => (-1, a)
  end.

Definition deactivate_user (u : user_t) : user_t :=
  mk_user (u_uid u) (u_gid u) (u_name u) (u_hash u) (u_home u) (u_shell u) false.
Definition root_name : cstr := bytes_of "root".
Definition user_remove (username : option cstr) (a : accounts) : Z * accounts :=
  match username with
  | None => (-1, a)
  | Some n =>
      if bytes_eqb n root_name then (-1, a)
      else match user_find_by_name username a with
           | None => (-1, a)
           | Some i => (0, set_users (zset (users a) i (deactivate_user (user_at a i))) a)
           end
  end.

Definition set_hash (h : Z) (u : user_t) : user_t :=
  mk_user (u_uid u) (u_gid u) (u_name u) h (u_home u) (u_shell u) (u_active u).
Definition user_set_password (username : option cstr) (password : cstr) (a : accounts) : Z * accounts :=
  match user_find_by_name username a with
  | None => (-1, a)
  | Some i => (0, set_users (zset (users a) i (set_hash (password_hash password) (user_at a i))) a)
  end.
Definition user_check_password (username : option cstr) (password : cstr) (a : accounts) : bool :=
  match user_find_by_name username a with
  | None => false
  | Some i => u_hash (user_at a i) =? password_hash password
  end.
Definition user_count (a : accounts) : Z := zcount (Z.to_nat MAX_USERS) (fun i => u_active (user_at a i)).
(** What [user_list] returns. *)
Definition user_list (a : accounts) : Z := user_count a.

(** ** Groups *)

Definition group_at (a : accounts) (i : Z) : group_t := zget (groups a) i.
Definition group_find_by_name (name : option cstr) (a : accounts) : option Z :=
  match name with
  | None => None
  | Some n => zfind (Z.to_nat MAX_GROUPS) 0 (fun i => g_active (group_at a i) && bytes_eqb (g_name (group_at a i)) n)
  end.
Definition group_find_by_gid (gid : Z) (a : accounts) : option Z :=
  zfind (Z.to_nat MAX_GROUPS) 0 (fun i => g_active (group_at a i) && (g_gid (group_at a i) =? gid)).
Definition free_group (a : accounts) : option Z := zfind (Z.to_nat MAX_GROUPS) 0 (fun i => negb (g_active (group_at a i))).

Definition group_add (name : option cstr) (gid : Z) (a : accounts) : Z * accounts :=
  match name with
  | None => (-1, a)
  | Some n =>
      if found (group_find_by_name name a) then (-1, a)
      else match free_group a with
           | Some i => (0, set_groups (zset (groups a) i (mk_group gid (kstrncpy n (MAX_GROUP_NAME_LEN - 1)) [] true)) a)
           | None => (-1, a)
           end
  end.
Definition group_remove (name : option cstr) (a : accounts) : Z * accounts :=
  match name with
  | None => (-1, a)
  | Some n =>
      if bytes_eqb n root_name then (-1, a)
      else match group_find_by_name name a with
           | None => (-1, a)
           | Some i =>
               let g := group_at a i in
               (0, set_groups (zset (groups a) i (mk_group (g_gid g) (g_name g) (g_members g) false)) a)
           end
  end.

Definition set_members (l : list Z) (g : group_t) : group_t := mk_group (g_gid g) (g_name g) l (g_active g).
Definition is_member (g : group_t) (uid : Z) : bool := existsb (fun m => m =? uid) (g_members g).
Definition group_add_member (group_name : option cstr) (uid : Z) (a : accounts) : Z * accounts :=
  match group_find_by_name group_name a with
  | None => (-1, a)
  | Some i =>
      let g := group_at a i in
      if is_member g uid then (0, a)
      else if MAX_GROUP_MEMBERS <=? zlen (g_members g) then (-1, a)
      else (0, set_groups (zset (groups a) i (set_members (g_members g ++ [uid]) g)) a)
  end.
(** The first occurrence goes, what follows moves down. *)
Fixpoint drop_member (l : list Z) (uid : Z) : list Z :=
  match l with
  | [] => []
  | m :: l => if m =? uid then l else m :: drop_member l uid
  end.
Definition group_remove_member (group_name : option cstr) (uid : Z) (a : accounts) : Z * accounts :=
  match group_find_by_name group_name a with
  | None => (-1, a)
  | Some i =>
      let g := group_at a i in
      if is_member g uid then (0, set_groups (zset (groups a) i (set_members (drop_member (g_members g) uid) g)) a)
      else (-1, a)
  end.
Definition group_is_member (gid uid : Z) (a : accounts) : bool :=
  match group_find_by_gid gid a with
  | None => false
  | Some i => is_member (group_at a i) uid
  end.
Definition group_count (a : accounts) : Z := zcount (Z.to_nat MAX_GROUPS) (fun i => g_active (group_at a i)).
(** What [group_list] returns. *)
Definition group_list (a : accounts) : Z := group_count a.

(** ** Session *)

Definition user_login (username password : option cstr) (a : accounts) : Z * accounts :=
  match username, password with
  | Some _, Some p =>
      if negb (user_check_password username p a) then (-1, a)
      else match user_find_by_name username a with
           | Some i => (0, set_session (u_uid (user_at a i)) (u_gid (user_at a i)) a)
           | None => (-1, a)
           end
  | _, _ => (-1, a)
  end.
Definition user_logout (a : accounts) : accounts := set_session UID_ROOT GID_ROOT a.
Definition user_current_uid (a : accounts) : Z := current_uid a.
Definition user_current_gid (a : accounts) : Z := current_gid a.
Definition user_current_name (a : accounts) : cstr :=
  match user_find_by_uid (current_uid a) a with
  | Some i => u_name (user_at a i)
  | None => bytes_of "unknown"
  end.
Definition user_is_root (a : accounts) : bool := current_uid a =? UID_ROOT.

(** ** The permission table *)

Definition perm_at (a : accounts) (i : Z) : perm_t := zget (perms a) i.
Definition perm_find (path : option cstr) (a : accounts) : option Z :=
  match path with
  | None => None
  | Some p => zfind (Z.to_nat MAX_PERM_ENTRIES) 0 (fun i => p_active (perm_at a i) && bytes_eqb (p_path (perm_at a i)) p)
  end.
Definition free_perm (a : accounts) : option Z := zfind (Z.to_nat MAX_PERM_ENTRIES) 0 (fun i => negb (p_active (perm_at a i))).

Definition perm_set (path : option cstr) (uid gid mode : Z) (a : accounts) : Z * accounts :=
  match path with
  | None => (-1, a)
  | Some p =>
      match perm_find path a with
      | Some i => (0, set_perms (zset (perms a) i (mk_perm (p_path (perm_at a i)) uid gid mode true)) a)
      | None =>
          match free_perm a with
          | Some i => (0, set_perms (zset (perms a) i (mk_perm (kstrncpy p (MAX_PERM_PATH - 1)) uid gid mode true)) a)
          | None => (-1, a)
          end
      end
  end.

(** The result, and [*uid], [*gid] and [*mode]. *)
Definition perm_get (path : option cstr) (a : accounts) : Z * (Z * Z * Z) :=
  match perm_find path a with
  | None => (-1, (UID_ROOT, GID_ROOT, PERM_DEFAULT_FILE))
  | Some i => (0, (p_uid (perm_at a i), p_gid (perm_at a i), p_mode (perm_at a i)))
  end.

Definition deactivate (e : perm_t) : perm_t := mk_perm (p_path e) (p_uid e) (p_gid e) (p_mode e) false.
Definition perm_remove (path : option cstr) (a : accounts) : Z * accounts :=
  match perm_find path a with
  | None => (-1, a)
  | Some i => (0, set_perms (zset (perms a) i (deactivate (perm_at a i))) a)
  end.

(** [strncmp(p, dir, n) == 0 && (p\[n\] == 0 || p\[n\] == '/')], [n] the length
    of [dir]. *)
Definition under (dir p : cstr) : bool :=
  strncmp_eq p dir (length dir) && match zdrop (zlen dir) p with [] => true | c :: _ => c =? 47 end.

Definition forget_entry (dir : cstr) (e : perm_t) : perm_t :=
  if p_active e && under dir (p_path e) then deactivate e else e.
Definition perm_forget_tree (path : option cstr) (a : accounts) : accounts :=
  match path with
  | None | Some [] => a
  | Some p => set_perms (forget_entry p <$> perms a) a
  end.

Definition rename_perm (from to : cstr) (e : perm_t) : perm_t :=
  if p_active e && under from (p_path e) then
    let rest := zdrop (zlen from) (p_path e) in
    if MAX_PERM_PATH <=? zlen to + zlen rest then deactivate e
    else mk_perm (to ++ rest) (p_uid e) (p_gid e) (p_mode e) true
  else e.
Definition perm_rename_tree (from to : option cstr) (a : accounts) : accounts :=
  match from, to with
  | None, _ | _, None | Some [], _ | _, Some [] => a
  | Some f, Some t =>
      let a := perm_forget_tree to a in
      set_perms (rename_perm f t <$> perms a) a
  end.

Definition grant (file_mode r w x : Z) : Z :=
  Z.lor (Z.lor (if has file_mode r then ACCESS_READ else 0) (if has file_mode w then ACCESS_WRITE else 0))
    (if has file_mode x then ACCESS_EXEC else 0).
Definition perm_check_access (path : option cstr) (uid gid mode : Z) (a : accounts) : bool :=
  if uid =? UID_ROOT then true
  else
    let '(file_uid, file_gid, file_mode) := (perm_get path a).2 in
    let granted :=
      if uid =? file_uid then grant file_mode PERM_UR PERM_UW PERM_UX
      else if (gid =? file_gid) || group_is_member file_gid uid a then grant file_mode PERM_GR PERM_GW PERM_GX
      else grant file_mode PERM_OR PERM_OW PERM_OX in
    Z.land granted mode =? u16 mode.

Definition perm_chown (path : option cstr) (uid gid : Z) (a : accounts) : Z * accounts :=
  match path with
  | None => (-1, a)
  | Some _ =>
      if negb (user_is_root a) then (-1, a)
      else let '(_, _, mode) := (perm_get path a).2 in perm_set path uid gid mode a
  end.

Section chmod.
Context {W : Type} (ops_of : fskind -> vfs_fs_ops W).

(** The filesystem keeps the bits if it can. *)
Definition perm_chmod (path : option cstr) (mode : Z) (a : accounts) : st (W := W) (Z * accounts) :=
  match path with
  | None => mret (-1, a)
  | Some _ =>
      let '(file_uid, file_gid, _) := (perm_get path a).2 in
      if negb (user_is_root a) && negb (user_current_uid a =? file_uid) then mret (-1, a)
      else
        _ ← vfs_setattr ops_of path VFS_SA_MODE (Z.land mode 0xFFF) 0 0;
        mret (perm_set path file_uid file_gid mode a)
  end.
End chmod.

(** What the virtual filesystem tells the table. *)
Definition perm_note (a : accounts) (n : vnote) : accounts :=
  match n with
  | PermForgetTree p => perm_forget_tree (Some p) a
  | PermRenameTree from to => perm_rename_tree (Some from) (Some to) a
  | _ => a
  end.
Definition perm_notes (notes : list vnote) (a : accounts) : accounts := foldl perm_note a notes.
