(* ===== verification/UsersPerm.v ===== *)
(** * The permission table as a map

    The table of src/users.c refines a map from paths to owner, group and mode;
    the access check in terms of it. *)
From S2P Require Import Prelude Paths Heap Vfs VfsMount Users.

Definition in_perms (i : Z) : Prop := 0 <= i < MAX_PERM_ENTRIES.
Record perms_ok (a : accounts) : Prop := {
  po_len : zlen (perms a) = MAX_PERM_ENTRIES;
  po_paths i j : in_perms i -> in_perms j -> p_active (perm_at a i) = true -> p_active (perm_at a j) = true ->
    p_path (perm_at a i) = p_path (perm_at a j) -> i = j;
  po_short i : in_perms i -> p_active (perm_at a i) = true -> zlen (p_path (perm_at a i)) < MAX_PERM_PATH;
}.

(** ** The abstract map *)

Definition perm_map : Type := cstr -> option (Z * Z * Z).
Definition pm_set (p : cstr) (v : Z * Z * Z) (m : perm_map) : perm_map := fun q => if decide (q = p) then Some v else m q.
Definition pm_delete (p : cstr) (m : perm_map) : perm_map := fun q => if decide (q = p) then None else m q.
Definition pm_forget (dir : cstr) (m : perm_map) : perm_map := fun q => if under dir q then None else m q.
(** What was below [from], and not below [to], is below [to], unless its path
    does not fit; nothing else is below either. *)
Definition pm_rename (from to : cstr) (m : perm_map) : perm_map := fun q =>
  if under to q then
    if zlen q <? MAX_PERM_PATH then pm_forget to m (from ++ zdrop (zlen to) q) else None
  else if under from q then None else m q.

Definition entry_val (e : perm_t) : Z * Z * Z := (p_uid e, p_gid e, p_mode e).
Definition perm_abs (a : accounts) : perm_map := fun p => (fun i => entry_val (perm_at a i)) <$> perm_find (Some p) a.

(** ** Entries *)

Definition entry_for (a : accounts) (p : cstr) (i : Z) : Prop :=
  in_perms i /\ p_active (perm_at a i) = true /\ p_path (perm_at a i) = p.

Lemma perm_find_spec a p : match perm_find (Some p) a with Some i => entry_for a p i | None => forall i, ~ entry_for a p i end.
Proof.
  cbn. pose proof (zfind_spec (Z.to_nat MAX_PERM_ENTRIES) 0 (fun i => p_active (perm_at a i) && bytes_eqb (p_path (perm_at a i)) p)) as Hz.
  destruct (zfind _ _ _) as [i|].
  - destruct Hz as (Hi & [Hb Hp]%andb_true_iff & _). split; [unfold in_perms; cbn in *; lia|]. by apply bool_decide_eq_true in Hp.
  - intros i (Hi & Ha & Hp). specialize (Hz i ltac:(unfold in_perms in Hi; cbn in *; lia)). cbn in Hz. rewrite Ha, Hp in Hz.
    unfold bytes_eqb in Hz. by rewrite bool_decide_eq_true_2 in Hz.
Qed.
Lemma perm_find_iff a p i : perms_ok a -> perm_find (Some p) a = Some i <-> entry_for a p i.
Proof.
  intros Ha. pose proof (perm_find_spec a p) as Hf. split; [intros E; by rewrite E in Hf|]. intros Hi.
  destruct (perm_find (Some p) a) as [j|]; [|by destruct (Hf i)]. f_equal. destruct Hi as (? & ? & ?), Hf as (? & ? & ?).
  apply (po_paths a Ha); try done. congruence.
Qed.
Lemma perm_abs_some a p v : perms_ok a -> perm_abs a p = Some v <-> exists i, entry_for a p i /\ entry_val (perm_at a i) = v.
Proof.
  intros Ha. unfold perm_abs. rewrite fmap_Some. split.
  - intros (i & Hi & ->). exists i. by rewrite <- perm_find_iff.
  - intros (i & Hi & <-). exists i. by rewrite perm_find_iff.
Qed.
Lemma perm_abs_none a p : perm_abs a p = None <-> forall i, ~ entry_for a p i.
Proof.
  unfold perm_abs. rewrite fmap_None. pose proof (perm_find_spec a p) as Hf. destruct (perm_find (Some p) a) as [i|]; [|done].
  split; [done | intros Hn; by destruct (Hn i)].
Qed.
(** Two maps agree where they have the same entries. *)
Lemma perm_abs_eq a (m : perm_map) p : perms_ok a ->
  (forall v, m p = Some v <-> exists i, entry_for a p i /\ entry_val (perm_at a i) = v) -> perm_abs a p = m p.
Proof.
  intros Ha Hm. apply option_eq. intros v. by rewrite perm_abs_some, Hm.
Qed.

Lemma zget_fmap {A B} `{!Inhabited A, !Inhabited B} (f : A -> B) l i : 0 <= i < zlen l -> zget (f <$> l) i = f (zget l i).
Proof. intros Hi. unfold zget, zlen in *. apply list_lookup_total_fmap. lia. Qed.
Lemma perm_at_zset a i j e : perms_ok a -> in_perms i -> in_perms j ->
  perm_at (set_perms (zset (perms a) i e) a) j = if decide (j = i) then e else perm_at a j.
Proof.
  intros Ha Hi Hj. unfold perm_at. cbn. pose proof (po_len a Ha). unfold in_perms in *. case_decide; subst.
  - apply zget_zset_eq. lia.
  - apply zget_zset_ne; lia.
Qed.
Lemma perm_at_fmap a f i : perms_ok a -> in_perms i -> perm_at (set_perms (f <$> perms a) a) i = f (perm_at a i).
Proof. intros Ha Hi. unfold perm_at. cbn. apply zget_fmap. rewrite (po_len a Ha). exact Hi. Qed.

(** ** Paths below a directory *)

Lemma under_spec dir p : under dir p = true <-> exists rest, p = dir ++ rest /\ (rest = [] \/ head rest = Some 47).
Proof.
  unfold under. rewrite andb_true_iff, strncmp_eq_prefix. split.
  - intros ((rest & ->) & Hr). rewrite zdrop_app_len in Hr. exists rest. split; [done|]. destruct rest as [|c rest]; [by left | right].
    cbn. apply Z.eqb_eq in Hr. by subst.
  - intros (rest & -> & Hr). split; [by exists rest|]. rewrite zdrop_app_len. destruct rest; [done|]. destruct Hr as [|[= ->]]; done.
Qed.
(** The tree of [from] with its top renamed. *)
Lemma under_move from to q : under to q = true <-> exists p, under from p = true /\ q = to ++ zdrop (zlen from) p.
Proof.
  rewrite under_spec. split.
  - intros (rest & -> & Hr). exists (from ++ rest). rewrite under_spec, zdrop_app_len. split; [by exists rest | done].
  - intros (p & (rest & -> & Hr)%under_spec & ->). rewrite zdrop_app_len. by exists rest.
Qed.
Lemma under_back from to p : under from p = true -> from ++ zdrop (zlen to) (to ++ zdrop (zlen from) p) = p.
Proof. intros (rest & -> & _)%under_spec. by rewrite !zdrop_app_len. Qed.

(** ** The operations *)

Section ops.
Context (a : accounts) (Ha : perms_ok a).

Lemma abs_ext (m : perm_map) p :
  (forall i, entry_for a p i -> m p = Some (entry_val (perm_at a i))) -> ((forall i, ~ entry_for a p i) -> m p = None) -> perm_abs a p = m p.
Proof using Ha.
  intros Hs Hn. pose proof (perm_find_spec a p) as Hf. unfold perm_abs. destruct (perm_find (Some p) a) as [i|]; cbn.
  - by rewrite (Hs i).
  - by rewrite Hn.
Qed.

Lemma perm_get_abs p : perm_get (Some p) a = match perm_abs a p with
  | Some v => (0, v) | None => (-1, (UID_ROOT, GID_ROOT, PERM_DEFAULT_FILE)) end.
Proof using. unfold perm_get, perm_abs. by destruct (perm_find (Some p) a). Qed.

(** Replace entry [i]. *)
Lemma zset_ok i e : in_perms i -> (p_active e = true -> zlen (p_path e) < MAX_PERM_PATH /\ forall j, entry_for a (p_path e) j -> j = i) ->
  perms_ok (set_perms (zset (perms a) i e) a).
Proof using Ha.
  intros Hi He. split.
  - cbn. rewrite zlen_zset. apply Ha.
  - intros j k Hj Hk. rewrite !perm_at_zset by done. repeat case_decide; subst; intros A1 A2 E.
    + done.
    + symmetry. apply He; done.
    + apply He; done.
    + by apply (po_paths a Ha).
  - intros j Hj. rewrite perm_at_zset by done. case_decide; [intros; by apply He | by apply (po_short a Ha)].
Qed.
Lemma entry_for_zset i e p j : in_perms i ->
  entry_for (set_perms (zset (perms a) i e) a) p j <-> (j = i /\ p_active e = true /\ p_path e = p) \/ (j <> i /\ entry_for a p j).
Proof using Ha.
  intros Hi. unfold entry_for. split.
  - intros (Hj & Hr). rewrite perm_at_zset in Hr by done. case_decide; [by left | by right].
  - intros [(-> & ? & ?)|(Hne & Hj & ?)]; (split; [done|]); rewrite perm_at_zset by done; [by rewrite decide_True | by rewrite decide_False].
Qed.

(** An entry for [p] goes where there was one, or where none was. *)
Lemma abs_put i e : in_perms i -> p_active e = true -> zlen (p_path e) < MAX_PERM_PATH -> (forall j, entry_for a (p_path e) j -> j = i) ->
  (p_active (perm_at a i) = true -> p_path (perm_at a i) = p_path e) ->
  perms_ok (set_perms (zset (perms a) i e) a) /\
  forall q, perm_abs (set_perms (zset (perms a) i e) a) q = pm_set (p_path e) (entry_val e) (perm_abs a) q.
Proof using Ha.
  intros Hi He Hlen Hu Hold. assert (perms_ok (set_perms (zset (perms a) i e) a)) as Hok by (by apply zset_ok).
  split; [done|]. intros q. unfold pm_set. case_decide as Hq.
  - subst q. apply perm_abs_some; [done|]. exists i. rewrite entry_for_zset by done. split; [by left|].
    by rewrite perm_at_zset, decide_True.
  - apply perm_abs_eq; [done|]. intros v. rewrite perm_abs_some by done. apply exist_proper. intros j. rewrite entry_for_zset by done.
    split; intros [Hj Hv].
    + assert (j <> i) as Hne by (intros ->; destruct Hj as (_ & ? & <-); by apply Hq, Hold).
      split; [by right|]. rewrite perm_at_zset, decide_False by (done || apply Hj). done.
    + destruct Hj as [(-> & _ & E)|[Hne Hj]]; [congruence|]. split; [done|].
      rewrite perm_at_zset, decide_False in Hv by (done || apply Hj). done.
Qed.
Lemma abs_drop i e : in_perms i -> p_active e = false -> p_active (perm_at a i) = true ->
  perms_ok (set_perms (zset (perms a) i e) a) /\
  forall q, perm_abs (set_perms (zset (perms a) i e) a) q = pm_delete (p_path (perm_at a i)) (perm_abs a) q.
Proof using Ha.
  intros Hi He Hact. assert (perms_ok (set_perms (zset (perms a) i e) a)) as Hok by (apply zset_ok; congruence).
  split; [done|]. intros q. unfold pm_delete. case_decide as Hq.
  - apply perm_abs_none. intros j. rewrite entry_for_zset by done. intros [(_ & ? & _)|(Hne & Hj & Aj & Pj)]; [congruence|].
    apply Hne, (po_paths a Ha); congruence || done.
  - apply perm_abs_eq; [done|]. intros v. rewrite perm_abs_some by done. apply exist_proper. intros j. rewrite entry_for_zset by done.
    split; intros [Hj Hv].
    + assert (j <> i) as Hne by (intros ->; destruct Hj as (_ & _ & ?); congruence).
      split; [by right|]. rewrite perm_at_zset, decide_False by (done || apply Hj). done.
    + destruct Hj as [(_ & ? & _)|[Hne Hj]]; [congruence|]. split; [done|].
      rewrite perm_at_zset, decide_False in Hv by (done || apply Hj). done.
Qed.

Lemma free_perm_spec : match free_perm a with
  | Some i => in_perms i /\ p_active (perm_at a i) = false | None => forall i, in_perms i -> p_active (perm_at a i) = true end.
Proof using.
  unfold free_perm. pose proof (zfind_spec (Z.to_nat MAX_PERM_ENTRIES) 0 (fun i => negb (p_active (perm_at a i)))) as Hz.
  destruct (zfind _ _ _) as [i|].
  - destruct Hz as (Hi & Hact & _). apply negb_true_iff in Hact. split; [unfold in_perms; cbn in *; lia | done].
  - intros i Hi. apply negb_false_iff, Hz. unfold in_perms in Hi. cbn in *. lia.
Qed.

Lemma perm_set_spec (p : cstr) uid gid mode rc a' : zlen p < MAX_PERM_PATH - 1 -> perm_set (Some p) uid gid mode a = (rc, a') ->
  perms_ok a' /\
  (rc = 0 /\ (forall q, perm_abs a' q = pm_set p (uid, gid, mode) (perm_abs a) q) \/
   rc = -1 /\ a' = a /\ perm_abs a p = None /\ forall i, in_perms i -> p_active (perm_at a i) = true).
Proof using Ha.
  intros Hp. unfold perm_set. pose proof (perm_find_spec a p) as Hf. pose proof free_perm_spec as Hfree.
  destruct (perm_find (Some p) a) as [i|].
  - destruct Hf as (Hi & Hact & Epath). intros [= <- <-]. rewrite Epath.
    destruct (abs_put i (mk_perm p uid gid mode true)) as [Hok Hq]; [done | done | cbn; lia | | done |].
    + intros j (Hj & Aj & Ej). apply (po_paths a Ha); try done. by rewrite Ej, Epath.
    + split; [done|]. left. split; [done | exact Hq].
  - destruct (free_perm a) as [i|]; intros [= <- <-].
    + destruct Hfree as [Hi Hact]. unfold kstrncpy. rewrite (ztake_all _ p) by lia.
      destruct (abs_put i (mk_perm p uid gid mode true)) as [Hok Hq]; [done | done | cbn; lia | | congruence |].
      * intros j Hj. by destruct (Hf j).
      * split; [done|]. left. split; [done | exact Hq].
    + split; [done|]. right. split_and!; [done | done | by apply perm_abs_none | done].
Qed.
Lemma perm_remove_spec (p : cstr) rc a' : perm_remove (Some p) a = (rc, a') ->
  perms_ok a' /\ rc = (match perm_abs a p with Some _ => 0 | None => -1 end) /\ forall q, perm_abs a' q = pm_delete p (perm_abs a) q.
Proof using Ha.
  unfold perm_remove, perm_abs at 1. pose proof (perm_find_spec a p) as Hf. destruct (perm_find (Some p) a) as [i|]; intros [= <- <-].
  - destruct Hf as (Hi & Hact & <-). destruct (abs_drop i (deactivate (perm_at a i))) as [? ?]; done.
  - split_and!; [done | done |]. intros q. unfold pm_delete. case_decide; [subst; by apply perm_abs_none | done].
Qed.

Lemma perm_forget_spec (dir : cstr) : dir <> [] ->
  perms_ok (perm_forget_tree (Some dir) a) /\ forall q, perm_abs (perm_forget_tree (Some dir) a) q = pm_forget dir (perm_abs a) q.
Proof using Ha.
  intros Hne. assert (perm_forget_tree (Some dir) a = set_perms (forget_entry dir <$> perms a) a) as -> by (by destruct dir).
  set (a' := set_perms _ a).
  assert (forall i, in_perms i -> perm_at a' i = forget_entry dir (perm_at a i)) as Hat by (intros; by apply perm_at_fmap).
  assert (forall p i, entry_for a' p i <-> entry_for a p i /\ under dir p = false) as Hent.
  { intros p i. unfold entry_for. split.
    - intros (Hi & Hr). rewrite Hat in Hr by done. unfold forget_entry in Hr. destruct (p_active _ && _) eqn:Eu; [by destruct Hr|].
      destruct Hr as [Hact <-]. rewrite Hact in Eu. done.
    - intros ((Hi & Hact & <-) & Hu). split; [done|]. rewrite Hat by done. unfold forget_entry. by rewrite Hact, Hu. }
  assert (perms_ok a') as Hok.
  { split.
    - cbn. unfold zlen. rewrite length_fmap. apply Ha.
    - intros i j Hi Hj Hai Haj E. destruct (proj1 (Hent (p_path (perm_at a' i)) i)) as [(_ & A1 & P1) _]; [done|].
      destruct (proj1 (Hent (p_path (perm_at a' j)) j)) as [(_ & A2 & P2) _]; [done|]. apply (po_paths a Ha); congruence.
    - intros i Hi Hai. destruct (proj1 (Hent (p_path (perm_at a' i)) i)) as [(_ & A1 & P1) _]; [done|]. rewrite <- P1. by apply (po_short a Ha). }
  split; [done|]. intros q. apply perm_abs_eq; [done|]. intros v. unfold pm_forget. destruct (under dir q) eqn:Eu.
  - split; [done|]. intros (i & [_ ?]%Hent & _). congruence.
  - rewrite perm_abs_some by done. apply exist_proper. intros i. rewrite Hent. split.
    + intros [Hi Hv]. split; [done|]. destruct Hi as (Hi & Hact & <-). rewrite Hat by done. unfold forget_entry. by rewrite Hact, Eu.
    + intros [[Hi _] Hv]. split; [done|]. destruct Hi as (Hi & Hact & <-). rewrite Hat in Hv by done. unfold forget_entry in Hv. by rewrite Hact, Eu in Hv.
Qed.

(** Where an entry of the table goes. *)
Definition moved (from to p : cstr) : option cstr :=
  if under from p then
    if MAX_PERM_PATH <=? zlen to + zlen (zdrop (zlen from) p) then None else Some (to ++ zdrop (zlen from) p)
  else Some p.
Lemma rename_perm_spec from to e : p_active e = true ->
  match moved from to (p_path e) with
  | Some q => rename_perm from to e = mk_perm q (p_uid e) (p_gid e) (p_mode e) true
  | None => p_active (rename_perm from to e) = false
  end.
Proof using.
  intros Hact. unfold moved, rename_perm. rewrite Hact. cbn [andb].
  destruct (under from (p_path e)); [cbn zeta; by destruct (_ <=? _)|]. destruct e. cbn in Hact. by subst.
Qed.
Lemma rename_perm_inactive from to e : p_active e = false -> rename_perm from to e = e.
Proof using. intros Hact. unfold rename_perm. by rewrite Hact. Qed.
End ops.

Lemma moved_some from to p q : under to p = false -> moved from to p = Some q ->
  if under to q then under from p = true /\ q = to ++ zdrop (zlen from) p /\ zlen q < MAX_PERM_PATH else under from q = false /\ p = q.
Proof.
  intros Hto. unfold moved. destruct (under from p) eqn:Ef.
  - destruct (Z.leb_spec MAX_PERM_PATH (zlen to + zlen (zdrop (zlen from) p))); [done|]. intros [= <-].
    rewrite (proj2 (under_move from to _)); [|by exists p]. rewrite zlen_app. split_and!; [done | done | lia].
  - intros [= ->]. by rewrite Hto.
Qed.
Lemma moved_inj from to p p' q : under to p = false -> under to p' = false -> moved from to p = Some q -> moved from to p' = Some q -> p = p'.
Proof.
  intros H1 H2 M1 M2. pose proof (moved_some _ _ _ _ H1 M1) as S1. pose proof (moved_some _ _ _ _ H2 M2) as S2.
  destruct (under to q); [|destruct S1, S2; congruence]. destruct S1 as (U1 & E1 & _), S2 as (U2 & E2 & _).
  rewrite <- (under_back from to p U1), <- (under_back from to p' U2). congruence.
Qed.

(** The renaming pass over a table without entries below the new name. *)
Section rename.
Context (b : accounts) (Hb : perms_ok b) (from to : cstr) (Hout : forall p i, entry_for b p i -> under to p = false).
#[local] Abbreviation b' := (set_perms (rename_perm from to <$> perms b) b).

Lemma renamed_at i : in_perms i -> perm_at b' i = rename_perm from to (perm_at b i).
Proof using Hb. intros Hi. by apply perm_at_fmap. Qed.
Lemma renamed_entry q i : entry_for b' q i <-> exists p, entry_for b p i /\ moved from to p = Some q.
Proof using Hb.
  unfold entry_for at 1. split.
  - intros (Hi & Hr). rewrite renamed_at in Hr by done. destruct (p_active (perm_at b i)) eqn:Eact.
    + pose proof (rename_perm_spec from to _ Eact) as Hs. destruct (moved _ _ _) as [q'|] eqn:Em; [|destruct Hr; congruence].
      rewrite Hs in Hr. destruct Hr as [_ <-]. by exists (p_path (perm_at b i)).
    + rewrite rename_perm_inactive in Hr by done. destruct Hr. congruence.
  - intros (p & (Hi & Hact & <-) & Hm). split; [done|]. rewrite renamed_at by done. pose proof (rename_perm_spec from to _ Hact) as Hs.
    rewrite Hm in Hs. by rewrite Hs.
Qed.
Lemma renamed_ok : perms_ok b'.
Proof using Hb Hout.
  assert (forall i, in_perms i -> p_active (perm_at b' i) = true ->
    exists p, entry_for b p i /\ moved from to p = Some (p_path (perm_at b' i))) as Hen.
  { intros i Hi Hact. by apply renamed_entry. }
  split.
  - cbn. unfold zlen. rewrite length_fmap. apply Hb.
  - intros i j Hi Hj Hai Haj E. destruct (Hen i Hi Hai) as (p1 & E1 & M1), (Hen j Hj Haj) as (p2 & E2 & M2). rewrite <- E in M2.
    assert (p1 = p2) as <- by (eapply moved_inj; eauto). destruct E1 as (_ & ? & ?), E2 as (_ & ? & ?). apply (po_paths b Hb); congruence.
  - intros i Hi Hai. destruct (Hen i Hi Hai) as (p1 & E1 & M1).
    pose proof (moved_some from to p1 _ (Hout _ _ E1) M1) as Hm. destruct (under to _); [apply Hm|]. destruct Hm as [_ <-].
    destruct E1 as (? & ? & <-). by apply (po_short b Hb).
Qed.
Lemma renamed_val i : entry_for b (p_path (perm_at b i)) i -> p_active (perm_at b' i) = true -> entry_val (perm_at b' i) = entry_val (perm_at b i).
Proof using Hb.
  intros (Hi & Hact & _). rewrite renamed_at by done. pose proof (rename_perm_spec from to _ Hact) as Hs.
  destruct (moved _ _ _); [by rewrite Hs | congruence].
Qed.
Lemma renamed_abs q : perm_abs b' q =
  if under to q then if zlen q <? MAX_PERM_PATH then perm_abs b (from ++ zdrop (zlen to) q) else None
  else if under from q then None else perm_abs b q.
Proof using Hb Hout.
  (* the path an entry for [q] has before *)
  pose proof renamed_ok as Hok. apply option_eq. intros v. rewrite perm_abs_some by done.
  transitivity (exists i p, entry_for b p i /\ moved from to p = Some q /\ entry_val (perm_at b i) = v).
  { apply exist_proper. intros i. rewrite renamed_entry. split.
    - intros ((p & Hp & Hm) & <-). exists p. split_and!; [done | done |]. symmetry. apply renamed_val; [by destruct Hp as (? & ? & <-)|].
      apply (renamed_entry q i). by exists p.
    - intros (p & Hp & Hm & <-). split; [by exists p|]. apply renamed_val; [by destruct Hp as (? & ? & <-)|].
      apply (renamed_entry q i). by exists p. }
  destruct (under to q) eqn:Et.
  - apply (under_move from to) in Et as Hp. destruct Hp as (p & Hu & ->). rewrite under_back by done.
    destruct (Z.ltb_spec (zlen (to ++ zdrop (zlen from) p)) MAX_PERM_PATH) as [Hl|Hl]; rewrite zlen_app in Hl.
    + rewrite perm_abs_some by done. apply exist_proper. intros i. split.
      * intros (p' & Hp' & Hm & Hv). assert (p' = p) as <-; [|done]. pose proof (moved_some _ _ _ _ (Hout _ _ Hp') Hm) as Hs.
        rewrite Et in Hs. destruct Hs as (Hu' & E & _). rewrite <- (under_back from to p Hu), E. symmetry. by apply under_back.
      * intros [Hp Hv]. exists p. split_and!; [done | | done]. unfold moved. rewrite Hu, (proj2 (Z.leb_gt _ _)); done || lia.
    + split; [|done]. intros (i & p' & Hp' & Hm & _). pose proof (moved_some _ _ _ _ (Hout _ _ Hp') Hm) as Hs. rewrite Et, zlen_app in Hs. lia.
  - destruct (under from q) eqn:Ef.
    + split; [|done]. intros (i & p' & Hp' & Hm & _). pose proof (moved_some _ _ _ _ (Hout _ _ Hp') Hm) as Hs. rewrite Et in Hs.
      destruct Hs. congruence.
    + rewrite perm_abs_some by done. apply exist_proper. intros i. split.
      * intros (p' & Hp' & Hm & Hv). pose proof (moved_some _ _ _ _ (Hout _ _ Hp') Hm) as Hs. rewrite Et in Hs. by destruct Hs as [_ ->].
      * intros [Hp Hv]. exists q. unfold moved. by rewrite Ef.
Qed.
End rename.

Lemma perm_rename_spec (a : accounts) (from to : cstr) : perms_ok a -> from <> [] -> to <> [] ->
  perms_ok (perm_rename_tree (Some from) (Some to) a) /\
  forall q, perm_abs (perm_rename_tree (Some from) (Some to) a) q = pm_rename from to (perm_abs a) q.
Proof.
  intros Ha0 Hf Ht. destruct (perm_forget_spec a Ha0 to Ht) as [Ha Habs].
  assert (perm_rename_tree (Some from) (Some to) a =
    set_perms (rename_perm from to <$> perms (perm_forget_tree (Some to) a)) (perm_forget_tree (Some to) a)) as ->.
  { clear -Hf Ht. destruct from; [done|]. destruct to; [done|]. reflexivity. }
  set (b := perm_forget_tree (Some to) a) in *. assert (forall p i, entry_for b p i -> under to p = false) as Hout.
  { intros p i Hi. destruct (under to p) eqn:Eu; [|done]. assert (perm_abs b p = None) as Hn by (rewrite Habs; unfold pm_forget; by rewrite Eu).
    by apply (proj1 (perm_abs_none b p) Hn) in Hi. }
  split; [by apply renamed_ok|]. intros q. rewrite renamed_abs by done. unfold pm_rename. rewrite !Habs. unfold pm_forget at 2.
  by destruct (under to q).
Qed.

(** ** The access check *)

Lemma has_pow2 m k : 0 <= k -> has m (2 ^ k) = Z.testbit m k.
Proof.
  intros Hk. unfold has. destruct (Z.testbit m k) eqn:E.
  - apply negb_true_iff, Z.eqb_neq. intros Hz. assert (Z.testbit (Z.land m (2 ^ k)) k = true) as Ht.
    { rewrite Z.land_spec, E, Z.pow2_bits_true by done. done. } by rewrite Hz, Z.bits_0 in Ht.
  - apply negb_false_iff, Z.eqb_eq, Z.bits_inj'. intros n Hn. rewrite Z.land_spec, Z.bits_0, Z.pow2_bits_eqb by done.
    destruct (Z.eqb_spec k n) as [->|]; [by rewrite E | by rewrite andb_false_r].
Qed.
(** Three neighbouring bits of the mode. *)
Definition mode_class (file_mode sh : Z) : Z := Z.land (Z.shiftr file_mode sh) 7.
Lemma grant_class m k : 0 <= k -> grant m (2 ^ (k + 2)) (2 ^ (k + 1)) (2 ^ k) = mode_class m k.
Proof.
  intros Hk. unfold grant, mode_class. rewrite !has_pow2 by lia. apply Z.bits_inj'. intros n Hn.
  assert (forall b (c j : Z), 0 <= j -> c = 2 ^ j -> Z.testbit (if b : bool then c else 0) n = b && (j =? n)) as Hb.
  { intros b c j Hj ->. destruct b; [by rewrite Z.pow2_bits_eqb | by rewrite Z.bits_0]. }
  rewrite !Z.lor_spec, (Hb _ ACCESS_READ 2), (Hb _ ACCESS_WRITE 1), (Hb _ ACCESS_EXEC 0), Z.land_spec, Z.shiftr_spec by done.
  change 7 with (Z.ones 3). rewrite Z.testbit_ones by lia.
  destruct (Z.eqb_spec 2 n) as [<-|]; [by rewrite (Z.add_comm 2 k), !andb_true_r, !andb_false_r, !orb_false_r|].
  destruct (Z.eqb_spec 1 n) as [<-|]; [by rewrite (Z.add_comm 1 k), !andb_true_r, !andb_false_r, !orb_false_r|].
  destruct (Z.eqb_spec 0 n) as [<-|]; [by rewrite Z.add_0_l, !andb_true_r, !andb_false_r|].
  rewrite !andb_false_r. rewrite (proj2 (Z.ltb_ge n 3)) by lia. by rewrite andb_false_r, andb_false_r.
Qed.

(** Which class of bits applies to a user. *)
Definition class_shift (a : accounts) (uid gid : Z) (v : Z * Z * Z) : Z :=
  let '(file_uid, file_gid, _) := v in
  if uid =? file_uid then 6 else if (gid =? file_gid) || group_is_member file_gid uid a then 3 else 0.
Lemma access_class path uid gid mode a : 0 <= mode < 8 -> perm_check_access path uid gid mode a =
  (uid =? UID_ROOT) || (Z.land (mode_class (perm_get path a).2.2 (class_shift a uid gid (perm_get path a).2)) mode =? mode).
Proof.
  intros Hm. unfold perm_check_access, class_shift. destruct (uid =? UID_ROOT); [done|]. cbn [orb].
  destruct (perm_get path a) as [rc [[fu fg] fm]]. cbn [snd fst].
  replace (u16 mode) with mode by (unfold u16; rewrite Z.mod_small; lia).
  destruct (uid =? fu); [|destruct (_ || _)]; [rewrite <- (grant_class fm 6) by lia | rewrite <- (grant_class fm 3) by lia | rewrite <- (grant_class fm 0) by lia];
    done.
Qed.
