(* ===== verification/UsersInv.v ===== *)
(** * Users and groups: the invariant of the tables *)
From S2P Require Import Prelude Paths Heap Vfs VfsMount Users UsersPerm.

(** Active elements of a table have different keys. *)
Section table.
Context {A K : Type} `{!Inhabited A} (act : A -> bool) (key : A -> K).

Definition distinct_by (l : list A) : Prop := forall i j, 0 <= i < zlen l -> 0 <= j < zlen l ->
  act (zget l i) = true -> act (zget l j) = true -> key (zget l i) = key (zget l j) -> i = j.

Lemma distinct_zset l i x : distinct_by l -> 0 <= i < zlen l ->
  (act x = true -> forall j, 0 <= j < zlen l -> j <> i -> act (zget l j) = true -> key (zget l j) <> key x) -> distinct_by (zset l i x).
Proof.
  intros Hl Hi Hx j k Hj Hk. rewrite zlen_zset in Hj, Hk. destruct (decide (j = i)) as [->|Hji], (decide (k = i)) as [->|Hki];
    rewrite ?zget_zset_eq, ?zget_zset_ne by lia; try done.
  - intros Ax Ak E. by destruct (Hx Ax k Hk Hki Ak).
  - intros Aj Ax E. by destruct (Hx Ax j Hj Hji Aj).
  - apply Hl; done.
Qed.
(** A change that keeps the key, or makes the element inactive. *)
Lemma distinct_keep l i x : distinct_by l -> 0 <= i < zlen l -> (act x = true -> act (zget l i) = true /\ key x = key (zget l i)) ->
  distinct_by (zset l i x).
Proof.
  intros Hl Hi Hx. apply distinct_zset; [done | done|]. intros Ax j Hj Hne Aj E. destruct (Hx Ax) as [Ai Ei].
  apply Hne, Hl; done || congruence.
Qed.
Lemma distinct_inactive l : (forall i, 0 <= i < zlen l -> act (zget l i) = false) -> distinct_by l.
Proof. intros Hi i j Hi' Hj Ai. by rewrite Hi in Ai. Qed.

(** Checked by evaluation. *)
Definition distinct_check `{!EqDecision K} (l : list A) : bool :=
  forallb (fun i => forallb (fun j => implb (act (zget l i) && act (zget l j) && bool_decide (key (zget l i) = key (zget l j))) (i =? j))
    (seqZ 0 (zlen l))) (seqZ 0 (zlen l)).
Lemma distinct_check_ok `{!EqDecision K} l : distinct_check l = true -> distinct_by l.
Proof.
  intros Hc i j Hi Hj Ai Aj E. unfold distinct_check in Hc. rewrite forallb_forall in Hc.
  specialize (Hc i ltac:(apply list_elem_of_In, elem_of_seqZ; lia)). rewrite forallb_forall in Hc.
  specialize (Hc j ltac:(apply list_elem_of_In, elem_of_seqZ; lia)). rewrite Ai, Aj, bool_decide_eq_true_2 in Hc by done. by apply Z.eqb_eq.
Qed.
End table.

(** Some active element has this property. *)
Definition some_active {A} `{!Inhabited A} (act : A -> bool) (P : A -> Prop) (l : list A) : Prop :=
  exists i, 0 <= i < zlen l /\ act (zget l i) = true /\ P (zget l i).
Lemma some_zset {A} `{!Inhabited A} (act : A -> bool) P l i x : some_active act P l -> 0 <= i < zlen l ->
  (act (zget l i) = true -> P (zget l i) -> act x = true /\ P x) -> some_active act P (zset l i x).
Proof.
  intros (k & Hk & Ak & Pk) Hi Hx. exists k. rewrite zlen_zset. split; [done|]. destruct (decide (k = i)) as [->|].
  - rewrite zget_zset_eq by done. by apply Hx.
  - by rewrite zget_zset_ne by lia.
Qed.

Definition group_ok (g : group_t) : Prop := NoDup (g_members g) /\ zlen (g_members g) <= MAX_GROUP_MEMBERS.

Record accounts_ok (a : accounts) : Prop := {
  ao_users : zlen (users a) = MAX_USERS;
  ao_groups : zlen (groups a) = MAX_GROUPS;
  ao_uids : distinct_by u_active u_uid (users a);
  ao_names : distinct_by u_active u_name (users a);
  ao_gnames : distinct_by g_active g_name (groups a);
  ao_root : some_active u_active (fun u => u_uid u = UID_ROOT /\ u_name u = root_name) (users a);
  ao_groot : some_active g_active (fun g => g_name g = root_name) (groups a);
  ao_members i : 0 <= i < MAX_GROUPS -> group_ok (group_at a i);
  ao_perms : perms_ok a;
}.

(** ** Searches *)

Lemma table_find {A} `{!Inhabited A} (f : A -> bool) (l : list A) n : zlen l = Z.of_nat n ->
  match zfind n 0 (fun i => f (zget l i)) with
  | Some i => 0 <= i < zlen l /\ f (zget l i) = true
  | None => forall i, 0 <= i < zlen l -> f (zget l i) = false
  end.
Proof.
  intros Hl. pose proof (zfind_spec n 0 (fun i => f (zget l i))) as Hz. destruct (zfind _ _ _) as [i|].
  - destruct Hz as (Hi & Hf & _). split; [lia | done].
  - intros i Hi. apply Hz. lia.
Qed.
(** A search for an active element by a key. *)
Lemma table_find_key {A K} `{!Inhabited A} (act : A -> bool) (test : A -> bool) (key : A -> K) (k : K) (l : list A) n :
  zlen l = Z.of_nat n -> (forall x, test x = true <-> key x = k) ->
  match zfind n 0 (fun i => act (zget l i) && test (zget l i)) with
  | Some i => 0 <= i < zlen l /\ act (zget l i) = true /\ key (zget l i) = k
  | None => forall i, 0 <= i < zlen l -> act (zget l i) = true -> key (zget l i) <> k
  end.
Proof.
  intros Hl Ht. pose proof (table_find (fun x => act x && test x) l n Hl) as Hz. cbn beta in Hz. destruct (zfind _ _ _) as [i|].
  - destruct Hz as (Hi & [Ha Hn]%andb_true_iff). split; [exact Hi|]. split; [exact Ha | by apply Ht].
  - intros i Hi Ha E%Ht. specialize (Hz i Hi). by rewrite Ha, E in Hz.
Qed.
Lemma bytes_eqb_true (x y : cstr) : bytes_eqb x y = true <-> x = y.
Proof. apply bool_decide_eq_true. Qed.

Lemma find_name_spec (n : cstr) a : zlen (users a) = MAX_USERS ->
  match user_find_by_name (Some n) a with
  | Some i => 0 <= i < zlen (users a) /\ u_active (user_at a i) = true /\ u_name (user_at a i) = n
  | None => forall i, 0 <= i < zlen (users a) -> u_active (user_at a i) = true -> u_name (user_at a i) <> n
  end.
Proof.
  intros Hl. apply (table_find_key u_active (fun u => bytes_eqb (u_name u) n) u_name n (users a)); [by rewrite Hl|]. intros u. apply bytes_eqb_true.
Qed.
Lemma find_uid_spec uid a : zlen (users a) = MAX_USERS ->
  match user_find_by_uid uid a with
  | Some i => 0 <= i < zlen (users a) /\ u_active (user_at a i) = true /\ u_uid (user_at a i) = uid
  | None => forall i, 0 <= i < zlen (users a) -> u_active (user_at a i) = true -> u_uid (user_at a i) <> uid
  end.
Proof.
  intros Hl. apply (table_find_key u_active (fun u => u_uid u =? uid) u_uid uid (users a)); [by rewrite Hl|]. intros u. apply Z.eqb_eq.
Qed.
Lemma gfind_name_spec (n : cstr) a : zlen (groups a) = MAX_GROUPS ->
  match group_find_by_name (Some n) a with
  | Some i => 0 <= i < zlen (groups a) /\ g_active (group_at a i) = true /\ g_name (group_at a i) = n
  | None => forall i, 0 <= i < zlen (groups a) -> g_active (group_at a i) = true -> g_name (group_at a i) <> n
  end.
Proof.
  intros Hl. apply (table_find_key g_active (fun g => bytes_eqb (g_name g) n) g_name n (groups a)); [by rewrite Hl|]. intros g. apply bytes_eqb_true.
Qed.
Lemma free_user_spec a : zlen (users a) = MAX_USERS ->
  match free_user a with
  | Some i => 0 <= i < zlen (users a) /\ negb (u_active (user_at a i)) = true
  | None => forall i, 0 <= i < zlen (users a) -> negb (u_active (user_at a i)) = false
  end.
Proof. intros Hl. apply (table_find (fun u => negb (u_active u)) (users a)). by rewrite Hl. Qed.
Lemma free_group_spec a : zlen (groups a) = MAX_GROUPS ->
  match free_group a with
  | Some i => 0 <= i < zlen (groups a) /\ negb (g_active (group_at a i)) = true
  | None => forall i, 0 <= i < zlen (groups a) -> negb (g_active (group_at a i)) = false
  end.
Proof. intros Hl. apply (table_find (fun g => negb (g_active g)) (groups a)). by rewrite Hl. Qed.

(** ** Updates of one entry *)

Lemma accounts_user a i u : accounts_ok a -> 0 <= i < zlen (users a) ->
  (u_active u = true -> forall j, 0 <= j < zlen (users a) -> j <> i -> u_active (user_at a j) = true ->
     u_uid (user_at a j) <> u_uid u /\ u_name (user_at a j) <> u_name u) ->
  (u_active (user_at a i) = true -> u_uid (user_at a i) = UID_ROOT /\ u_name (user_at a i) = root_name ->
     u_active u = true /\ u_uid u = UID_ROOT /\ u_name u = root_name) ->
  accounts_ok (set_users (zset (users a) i u) a).
Proof.
  intros [U G D1 D2 D3 R1 R2 M P] Hi Hd Hr. split; cbn; try done.
  - by rewrite zlen_zset.
  - apply distinct_zset; [done | done|]. intros Hu j Hj Hne Hj'. by apply (Hd Hu j).
  - apply distinct_zset; [done | done|]. intros Hu j Hj Hne Hj'. by apply (Hd Hu j).
  - by apply some_zset.
  - by destruct P.
Qed.
Lemma accounts_group a i g : accounts_ok a -> 0 <= i < zlen (groups a) -> group_ok g ->
  (g_active g = true -> forall j, 0 <= j < zlen (groups a) -> j <> i -> g_active (group_at a j) = true -> g_name (group_at a j) <> g_name g) ->
  (g_active (group_at a i) = true -> g_name (group_at a i) = root_name -> g_active g = true /\ g_name g = root_name) ->
  accounts_ok (set_groups (zset (groups a) i g) a).
Proof.
  intros [U G D1 D2 D3 R1 R2 M P] Hi Hg Hd Hr. split; cbn; try done.
  - by rewrite zlen_zset.
  - by apply distinct_zset.
  - by apply some_zset.
  - intros j Hj. unfold group_at. cbn. destruct (decide (j = i)) as [->|].
    + by rewrite zget_zset_eq.
    + rewrite zget_zset_ne by lia. by apply M.
  - by destruct P.
Qed.

(** ** The operations *)

Definition short (n : cstr) (len : Z) : Prop := zlen n < len - 1.
Lemma short_copy (n : cstr) len : short n len -> kstrncpy n (len - 1) = n.
Proof. unfold short. intros Hs. unfold kstrncpy. apply ztake_all. lia. Qed.

Lemma user_add_ok (n p : option cstr) uid gid home shell a : accounts_ok a -> (forall m, n = Some m -> short m MAX_USERNAME_LEN) ->
  accounts_ok (user_add n p uid gid home shell a).2.
Proof.
  intros Ha Hs. unfold user_add. destruct n as [n|]; [|done]. destruct p as [p|]; [|done].
  pose proof (find_name_spec n a (ao_users a Ha)) as Hn. destruct (user_find_by_name (Some n) a); [done|].
  pose proof (find_uid_spec uid a (ao_users a Ha)) as Hu. destruct (user_find_by_uid uid a); [done|].
  pose proof (free_user_spec a (ao_users a Ha)) as Hf. destruct (free_user a) as [i|]; [|done]. destruct Hf as [Hi Hact%negb_true_iff].
  apply accounts_user; [done | done | | congruence]. intros _ j Hj _ Aj. cbn. rewrite short_copy by (by apply Hs). split; auto.
Qed.
Lemma user_remove_ok n a : accounts_ok a -> accounts_ok (user_remove n a).2.
Proof.
  intros Ha. unfold user_remove. destruct n as [n|]; [|done]. destruct (bytes_eqb n root_name) eqn:Er; [done|].
  pose proof (find_name_spec n a (ao_users a Ha)) as Hn. destruct (user_find_by_name (Some n) a) as [i|]; [|done]. destruct Hn as (Hi & Hact & En).
  apply accounts_user; [done | done | done |]. intros _ [_ E]. exfalso.
  assert (bytes_eqb n root_name = true) by (apply bytes_eqb_true; congruence). congruence.
Qed.
Lemma user_set_password_ok n p a : accounts_ok a -> accounts_ok (user_set_password n p a).2.
Proof.
  intros Ha. unfold user_set_password. destruct n as [n|]; [|done].
  pose proof (find_name_spec n a (ao_users a Ha)) as Hn. destruct (user_find_by_name (Some n) a) as [i|]; [|done]. destruct Hn as (Hi & Hact & En).
  apply accounts_user; [done | done | | done]. intros _ j Hj Hne Aj. cbn.
  split; intros E; apply Hne; [apply (ao_uids a Ha) | apply (ao_names a Ha)]; done.
Qed.
Lemma group_add_ok n gid a : accounts_ok a -> (forall m, n = Some m -> short m MAX_GROUP_NAME_LEN) -> accounts_ok (group_add n gid a).2.
Proof.
  intros Ha Hs. unfold group_add. destruct n as [n|]; [|done].
  pose proof (gfind_name_spec n a (ao_groups a Ha)) as Hn. destruct (group_find_by_name (Some n) a); [done|].
  pose proof (free_group_spec a (ao_groups a Ha)) as Hf. destruct (free_group a) as [i|]; [|done]. destruct Hf as [Hi Hact%negb_true_iff].
  apply accounts_group; [done | done | split; [constructor | done] | | congruence].
  intros _ j Hj _ Aj. cbn. rewrite short_copy by (by apply Hs). by apply Hn.
Qed.
Lemma group_remove_ok n a : accounts_ok a -> accounts_ok (group_remove n a).2.
Proof.
  intros Ha. unfold group_remove. destruct n as [n|]; [|done]. destruct (bytes_eqb n root_name) eqn:Er; [done|].
  pose proof (gfind_name_spec n a (ao_groups a Ha)) as Hn. destruct (group_find_by_name (Some n) a) as [i|]; [|done]. destruct Hn as (Hi & Hact & En).
  apply accounts_group; [done | done | apply (ao_members a Ha i); by rewrite (ao_groups a Ha) in Hi | done |]. intros _ E. exfalso.
  assert (bytes_eqb n root_name = true) by (apply bytes_eqb_true; congruence). congruence.
Qed.

Lemma is_member_spec g uid : is_member g uid = true <-> uid ∈ g_members g.
Proof.
  unfold is_member. rewrite existsb_exists. split.
  - intros (m & Hm & ->%Z.eqb_eq). by apply list_elem_of_In.
  - intros Hm. exists uid. split; [by apply list_elem_of_In | apply Z.eqb_refl].
Qed.
(** A new member list for a group. *)
Lemma members_ok a i l : accounts_ok a -> 0 <= i < zlen (groups a) -> g_active (group_at a i) = true -> NoDup l -> zlen l <= MAX_GROUP_MEMBERS ->
  accounts_ok (set_groups (zset (groups a) i (set_members l (group_at a i))) a).
Proof.
  intros Ha Hi Hact Hn Hl. apply accounts_group; [done | done | by split | | by auto].
  intros _ j Hj Hne Aj E. by apply Hne, (ao_gnames a Ha).
Qed.
Lemma drop_member_sub l uid : drop_member l uid `sublist_of` l.
Proof. induction l as [|m l IH]; cbn; [done|]. destruct (m =? uid); [by apply sublist_cons | by apply sublist_skip]. Qed.
Lemma group_add_member_ok n uid a : accounts_ok a -> accounts_ok (group_add_member n uid a).2.
Proof.
  intros Ha. unfold group_add_member. destruct n as [n|]; [|done].
  pose proof (gfind_name_spec n a (ao_groups a Ha)) as Hn. destruct (group_find_by_name (Some n) a) as [i|]; [|done]. destruct Hn as (Hi & Hact & En).
  destruct (is_member _ _) eqn:Em; [done|]. destruct (Z.leb_spec MAX_GROUP_MEMBERS (zlen (g_members (group_at a i)))); [done|].
  destruct (ao_members a Ha i ltac:(by rewrite (ao_groups a Ha) in Hi)) as [Hd _]. apply members_ok; [done | done | done | |].
  - apply NoDup_app. split_and!; [done | | apply NoDup_singleton]. intros x Hx ->%list_elem_of_singleton.
    apply is_member_spec in Hx. congruence.
  - rewrite zlen_app. change (zlen [uid]) with 1. lia.
Qed.
Lemma group_remove_member_ok n uid a : accounts_ok a -> accounts_ok (group_remove_member n uid a).2.
Proof.
  intros Ha. unfold group_remove_member. destruct n as [n|]; [|done].
  pose proof (gfind_name_spec n a (ao_groups a Ha)) as Hn. destruct (group_find_by_name (Some n) a) as [i|]; [|done]. destruct Hn as (Hi & Hact & En).
  destruct (is_member _ _); [|done]. destruct (ao_members a Ha i ltac:(by rewrite (ao_groups a Ha) in Hi)) as [Hd Hl].
  pose proof (drop_member_sub (g_members (group_at a i)) uid) as Hsub. apply members_ok; [done | done | done | by eapply sublist_NoDup|].
  apply sublist_length in Hsub. unfold zlen in *. lia.
Qed.

(** The permission table and the session are independent of the others. *)
Lemma accounts_perms a b : accounts_ok a -> users b = users a -> groups b = groups a -> perms_ok b -> accounts_ok b.
Proof. intros [U G D1 D2 D3 R1 R2 M P] Eu Eg Hp. split; rewrite ?Eu, ?Eg; try done. intros i. unfold group_at. rewrite Eg. apply M. Qed.

Lemma perm_set_ok (p : option cstr) uid gid mode a : accounts_ok a -> (forall q, p = Some q -> short q MAX_PERM_PATH) ->
  accounts_ok (perm_set p uid gid mode a).2.
Proof.
  intros Ha Hs. destruct p as [p|]; [|done]. destruct (perm_set (Some p) uid gid mode a) as [rc a'] eqn:E.
  destruct (perm_set_spec a (ao_perms a Ha) p uid gid mode rc a' (Hs p eq_refl) E) as [Hok _]. cbn.
  unfold perm_set in E. apply (accounts_perms a); [done | | | done]; repeat case_match; simplify_eq; done.
Qed.
Lemma perm_remove_ok p a : accounts_ok a -> accounts_ok (perm_remove p a).2.
Proof.
  intros Ha. destruct p as [p|]; [|done]. destruct (perm_remove (Some p) a) as [rc a'] eqn:E.
  destruct (perm_remove_spec a (ao_perms a Ha) p rc a' E) as [Hok _]. cbn.
  unfold perm_remove in E. apply (accounts_perms a); [done | | | done]; case_match; simplify_eq; done.
Qed.
Lemma perm_forget_ok p a : accounts_ok a -> accounts_ok (perm_forget_tree p a).
Proof.
  intros Ha. destruct p as [[|c p]|]; [done | | done]. apply (accounts_perms a); [done.. |]. by apply perm_forget_spec; [apply Ha|].
Qed.
Lemma perm_rename_ok f t a : accounts_ok a -> accounts_ok (perm_rename_tree f t a).
Proof.
  intros Ha. destruct f as [[|c f]|], t as [[|d t]|]; try done.
  apply (accounts_perms a); [done.. |]. apply perm_rename_spec; [apply Ha | done..].
Qed.

Section calls.
Context {W : Type} (ops_of : fskind -> vfs_fs_ops W).

Inductive ucall :=
  | UAdd (name password : option cstr) (uid gid : Z) (home shell : option cstr)
  | URemove (name : option cstr)
  | UPassword (name : option cstr) (password : cstr)
  | ULogin (name password : option cstr)
  | ULogout
  | GAdd (name : option cstr) (gid : Z)
  | GRemove (name : option cstr)
  | GAddMember (name : option cstr) (uid : Z)
  | GRemoveMember (name : option cstr) (uid : Z)
  | PSet (path : option cstr) (uid gid mode : Z)
  | PRemove (path : option cstr)
  | PForget (path : option cstr)
  | PRename (from to : option cstr)
  | PChmod (path : option cstr) (mode : Z)
  | PChown (path : option cstr) (uid gid : Z).

(** Names and paths that fit their arrays. *)
Definition ucall_ok (c : ucall) : Prop :=
  match c with
  | UAdd (Some n) _ _ _ _ _ => short n MAX_USERNAME_LEN
  | GAdd (Some n) _ => short n MAX_GROUP_NAME_LEN
  | PSet (Some p) _ _ _ | PChmod (Some p) _ | PChown (Some p) _ _ => short p MAX_PERM_PATH
  | _ => True
  end.

Definition acc_do (c : ucall) (a : accounts) : st (W := W) accounts :=
  match c with
  | UAdd n p uid gid home shell => mret (user_add n p uid gid home shell a).2
  | URemove n => mret (user_remove n a).2
  | UPassword n p => mret (user_set_password n p a).2
  | ULogin n p => mret (user_login n p a).2
  | ULogout => mret (user_logout a)
  | GAdd n gid => mret (group_add n gid a).2
  | GRemove n => mret (group_remove n a).2
  | GAddMember n uid => mret (group_add_member n uid a).2
  | GRemoveMember n uid => mret (group_remove_member n uid a).2
  | PSet p uid gid mode => mret (perm_set p uid gid mode a).2
  | PRemove p => mret (perm_remove p a).2
  | PForget p => mret (perm_forget_tree p a)
  | PRename f t => mret (perm_rename_tree f t a)
  | PChmod p mode => r ← perm_chmod ops_of p mode a; mret r.2
  | PChown p uid gid => mret (perm_chown p uid gid a).2
  end.
Fixpoint acc_run (cs : list ucall) (a : accounts) : st (W := W) accounts :=
  match cs with
  | [] => mret a
  | c :: cs => a ← acc_do c a; acc_run cs a
  end.

Lemma session_ok uid gid a : accounts_ok a -> accounts_ok (set_session uid gid a).
Proof. intros Ha. apply (accounts_perms a); [done..|]. destruct (ao_perms a Ha). by split. Qed.
Lemma acc_do_ok c a v : ucall_ok c -> accounts_ok a -> accounts_ok (acc_do c a v).1.
Proof.
  intros Hc Ha. destruct c; cbn [acc_do]; unfold mret, st_ret; cbn [fst].
  - apply user_add_ok; [done|]. by intros m ->.
  - by apply user_remove_ok.
  - by apply user_set_password_ok.
  - unfold user_login. repeat case_match; try done. by apply session_ok.
  - by apply session_ok.
  - apply group_add_ok; [done|]. by intros m ->.
  - by apply group_remove_ok.
  - by apply group_add_member_ok.
  - by apply group_remove_member_ok.
  - apply perm_set_ok; [done|]. by intros q ->.
  - by apply perm_remove_ok.
  - by apply perm_forget_ok.
  - by apply perm_rename_ok.
  - unfold perm_chmod, mbind, st_bind. destruct path as [p|]; [|done]. destruct (perm_get _ _) as [? [[fu fg] ?]]. cbn [snd].
    destruct (_ && _); [done|]. destruct (vfs_setattr _ _ _ _ _ _ _). unfold mret, st_ret. cbn [fst snd]. apply perm_set_ok; [done|]. by intros q [= <-].
  - unfold perm_chown. destruct path as [p|]; [|done]. destruct (negb _); [done|]. destruct (perm_get _ _) as [? [[fu fg] fm]]. cbn [snd].
    apply perm_set_ok; [done|]. by intros q [= <-].
Qed.
Lemma acc_run_ok cs a v : Forall ucall_ok cs -> accounts_ok a -> accounts_ok (acc_run cs a v).1.
Proof.
  intros Hcs. revert a v. induction Hcs as [|c cs Hc _ IH]; intros a v Ha; [done|]. cbn [acc_run]. unfold mbind, st_bind.
  pose proof (acc_do_ok c a v Hc Ha). destruct (acc_do c a v) as [a1 v1]. by apply IH.
Qed.
End calls.
