(* ===== verification/UsersFile.v ===== *)
(** * Users and permissions on disk

    src/users.c: [/PASSWD], [/GROUP] and [/PERMS.DB], one line per entry.  The
    text is made with [snprintf] in a buffer on the stack, whose bytes before
    are any; a store or a read outside it has no result. *)
From S2P Require Import Prelude Paths Heap Printf Vfs Users.

(** ** Printing *)

(** [n = snprintf(buf + pos, sizeof(buf) - pos, fmt, ...); if (n > 0) pos += n]. *)
Definition print_at (fmt : cstr) (args : list arg) (s : list Z * Z) : option (list Z * Z) :=
  let '(buf, pos) := s in
  '(n, bytes) ← snprintf (u64 (zlen buf - pos)) fmt args;
  if bool_decide (bytes = []) || ((0 <=? pos) && (pos + zlen bytes <=? zlen buf))
  then Some (splice buf pos bytes, if 0 <? n then s32 (pos + n) else pos)
  else None.
Fixpoint print_all {A : Type} (f : A -> list Z * Z -> option (list Z * Z)) (l : list A) (s : list Z * Z) : option (list Z * Z) :=
  match l with
  | [] => Some s
  | x :: l => s ← f x s; print_all f l s
  end.

Definition user_fmt : cstr := bytes_of "%s:%u:%u:%u:%s:%s" ++ [10].
Definition user_args (u : user_t) : list arg :=
  [AStr (Some (u_name u)); AInt (u_hash u); AInt (u_uid u); AInt (u_gid u); AStr (Some (u_home u)); AStr (Some (u_shell u))].
Definition print_user (u : user_t) (s : list Z * Z) : option (list Z * Z) :=
  if u_active u then print_at user_fmt (user_args u) s else Some s.

Fixpoint print_members (ms : list Z) (s : list Z * Z) : option (list Z * Z) :=
  match ms with
  | [] => Some s
  | m :: ms =>
      s ← print_at (bytes_of "%u%s") [AInt m; AStr (Some (match ms with [] => [] | _ => [44] end))] s;
      print_members ms s
  end.
Definition print_group (g : group_t) (s : list Z * Z) : option (list Z * Z) :=
  if g_active g then
    s ← print_at (bytes_of "%s:%u:") [AStr (Some (g_name g)); AInt (g_gid g)] s;
    '(buf, pos) ← print_members (g_members g) s;
    Some (if pos <? zlen buf then (zset buf pos 10, pos + 1) else (buf, pos))
  else Some s.

Definition perm_fmt : cstr := bytes_of "%s:%u:%u:%u" ++ [10].
Definition print_perm (e : perm_t) (s : list Z * Z) : option (list Z * Z) :=
  if p_active e then print_at perm_fmt [AStr (Some (p_path e)); AInt (p_uid e); AInt (p_gid e); AInt (p_mode e)] s else Some s.

(** The bytes [vfs_write_file] is given. *)
Definition printed (s : list Z * Z) : option (list Z) :=
  let '(buf, pos) := s in if u32 pos <=? zlen buf then Some (ztake (u32 pos) buf) else None.

(** ** Parsing *)

(** A number: its value and what follows. *)
Fixpoint parse_uint (p : cstr) (val : Z) : Z * cstr :=
  match p with
  | c :: rest => if is_digit c then parse_uint rest (u32 (val * 10 + (c - 48))) else (val, p)
  | [] => (val, [])
  end.
Fixpoint field_bytes (p : cstr) (n : nat) (delim : Z) : cstr * cstr :=
  match p, n with
  | c :: rest, S n =>
      if (c =? delim) || (c =? 10) || (c =? 13) then ([], p)
      else let '(f, r) := field_bytes rest n delim in (c :: f, r)
  | _, _ => ([], p)
  end.
(** A field and what follows it and its delimiter. *)
Definition parse_field (p : cstr) (max delim : Z) : cstr * cstr :=
  let '(f, p) := field_bytes p (Z.to_nat (max - 1)) delim in
  (f, match p with c :: rest => if c =? delim then rest else p | [] => [] end).
(** "Skip to next line". *)
Fixpoint next_line (p : cstr) : cstr :=
  match p with
  | [] => []
  | c :: rest => if c =? 10 then rest else next_line rest
  end.

(** The entry a line gives, if it has a name, and what follows its last
    field. *)
Definition parse_user (p : cstr) : option user_t * cstr :=
  let '(username, p) := parse_field p MAX_USERNAME_LEN 58 in
  let '(hash_str, p) := parse_field p 32 58 in
  let '(uid_str, p) := parse_field p 16 58 in
  let '(gid_str, p) := parse_field p 16 58 in
  let '(home, p) := parse_field p MAX_HOME_LEN 58 in
  let '(shell, p) := parse_field p MAX_SHELL_LEN 10 in
  (if bool_decide (username = []) then None
   else Some (mk_user (parse_uint uid_str 0).1 (parse_uint gid_str 0).1 (kstrncpy username (MAX_USERNAME_LEN - 1))
                (parse_uint hash_str 0).1 (kstrncpy home (MAX_HOME_LEN - 1))
                (kstrncpy (if bool_decide (shell = []) then zeus else shell) (MAX_SHELL_LEN - 1)) true), p).

Fixpoint parse_members (n : nat) (ms : cstr) : list Z :=
  match n, ms with
  | S n, _ :: _ =>
      let '(m, rest) := parse_uint ms 0 in
      m :: parse_members n (match rest with c :: r => if c =? 44 then r else rest | [] => [] end)
  | _, _ => []
  end.
Definition parse_group (p : cstr) : option group_t * cstr :=
  let '(gname, p) := parse_field p MAX_GROUP_NAME_LEN 58 in
  let '(gid_str, p) := parse_field p 16 58 in
  let '(members_str, p) := parse_field p 256 10 in
  (if bool_decide (gname = []) then None
   else Some (mk_group (parse_uint gid_str 0).1 (kstrncpy gname (MAX_GROUP_NAME_LEN - 1))
                (parse_members (Z.to_nat MAX_GROUP_MEMBERS) members_str) true), p).

Definition parse_perm (p : cstr) : option perm_t * cstr :=
  let '(path, p) := parse_field p 256 58 in
  let '(uid_str, p) := parse_field p 16 58 in
  let '(gid_str, p) := parse_field p 16 58 in
  let '(mode_str, p) := parse_field p 16 10 in
  (if bool_decide (path = []) then None
   else Some (mk_perm (kstrncpy path (MAX_PERM_PATH - 1)) (parse_uint uid_str 0).1 (parse_uint gid_str 0).1
                (u16 (parse_uint mode_str 0).1) true), p).

(** The loop over the lines of a file, which fills a table from its start.  A
    round takes at least a byte. *)
Fixpoint load_lines {A : Type} (parse : cstr -> option A * cstr) (max : Z) (fuel : nat) (p : cstr) (idx : Z) (l : list A) : list A :=
  match fuel, p with
  | S fuel, c :: rest =>
      if negb (idx <? max) then l
      else if (c =? 10) || (c =? 13) then load_lines parse max fuel rest idx l
      else
        let '(e, p) := parse p in
        let '(idx, l) := match e with Some x => (idx + 1, zset l idx x) | None => (idx, l) end in
        load_lines parse max fuel (next_line p) idx l
  | _, _ => l
  end.
Definition load_text {A : Type} (parse : cstr -> option A * cstr) (max : Z) (bytes : list Z) (l : list A) : list A :=
  let p := until_nul bytes in load_lines parse max (length p) p 0 l.

(** ** Files *)

Definition PASSWD : cstr := bytes_of "/PASSWD".
Definition GROUP : cstr := bytes_of "/GROUP".
Definition PERMS_DB : cstr := bytes_of "/PERMS.DB".

Section files.
Context {W : Type} `{!KHeap W} (ops_of : fskind -> vfs_fs_ops W).
Implicit Types (a : accounts) (v : vfs (W := W)).

Definition users_save (stack : list Z) a v : option (Z * vfs) :=
  if negb (vfs_has_root_mount v) then Some (-1, v)
  else
    s ← print_all print_user (users a) (stack, 0);
    bytes ← printed s;
    let '(_, v) := vfs_write_file ops_of (Some PASSWD) bytes v in
    s ← print_all print_group (groups a) (s.1, 0);
    bytes ← printed s;
    let '(_, v) := vfs_write_file ops_of (Some GROUP) bytes v in
    Some (0, v).

Definition perms_save (stack : list Z) a v : option (Z * vfs) :=
  if negb (vfs_has_root_mount v) then Some (-1, v)
  else
    s ← print_all print_perm (perms a) (stack, 0);
    bytes ← printed s;
    let '(_, v) := vfs_write_file ops_of (Some PERMS_DB) bytes v in
    Some (0, v).

(** A file of at most [max] bytes, and its block freed; [None] if it cannot be
    read or is empty. *)
Definition read_text (path : cstr) (max : Z) : st (W := W) (option (list Z)) :=
  r ← vfs_read_file_alloc ops_of (Some path) max;
  match r.2 with
  | None => mret None
  | Some (vbuf, bytes) =>
      kfree_v vbuf;;
      mret (if r.1 <=? 0 then None else Some bytes)
  end.

Definition users_load a : st (W := W) (Z * accounts) :=
  root ← gets vfs_has_root_mount;
  if negb root then mret (-1, a)
  else
    text ← read_text PASSWD 4095;
    match text with
    | None => mret (-1, a)
    | Some bytes =>
        let a := set_users (load_text parse_user MAX_USERS bytes (users a)) a in
        text ← read_text GROUP 4095;
        mret (0, match text with
                 | Some bytes => set_groups (load_text parse_group MAX_GROUPS bytes (groups a)) a
                 | None => a
                 end)
    end.

Definition perms_load a : st (W := W) (Z * accounts) :=
  root ← gets vfs_has_root_mount;
  if negb root then mret (-1, a)
  else
    text ← read_text PERMS_DB 8191;
    mret (match text with
          | None => (-1, a)
          | Some bytes => (0, set_perms (load_text parse_perm MAX_PERM_ENTRIES bytes (perms a)) a)
          end).

(** The accounts of a system without a password file. *)
Definition default_accounts : accounts :=
  let a := (group_add (Some root_name) GID_ROOT zero_accounts).2 in
  let a := (group_add (Some (bytes_of "users")) 1 a).2 in
  let a := (user_add (Some root_name) (Some root_name) UID_ROOT GID_ROOT (Some (bytes_of "/home/user")) (Some zeus) a).2 in
  let a := (user_add (Some (bytes_of "user")) (Some (bytes_of "user")) 1 1 (Some (bytes_of "/home/user")) (Some zeus) a).2 in
  (group_add_member (Some (bytes_of "users")) 1 a).2.
Definition users_init : st (W := W) accounts :=
  r ← users_load zero_accounts;
  let a := if r.1 =? 0 then r.2 else default_accounts in
  r ← perms_load a;
  mret (set_session UID_ROOT GID_ROOT r.2).
End files.
