(* ===== verification/UsersText.v ===== *)
(** * The lines of the user files: printing and reading them back *)
From S2P Require Import Prelude Paths Heap Printf Vfs Users UsersFile.

(** ** Fields *)

Definition plain (delim : Z) (f : cstr) : Prop := Forall (fun c => c <> delim /\ c <> 10 /\ c <> 13 /\ c <> 0) f.
Lemma plain_digits f delim : Forall (fun c => is_digit c = true) f -> delim < 48 \/ 57 < delim -> plain delim f.
Proof. intros Hf Hd. eapply Forall_impl; [exact Hf|]. intros c Hc. unfold is_digit in Hc. bool_hyps. lia. Qed.
Lemma plain_dec v delim : 0 <= v -> delim < 48 \/ 57 < delim -> plain delim (dec v).
Proof. intros Hv. by apply plain_digits, dec_digit. Qed.

Lemma field_bytes_app f rest n delim : plain delim f -> (length f <= n)%nat ->
  (match rest with c :: _ => (c =? delim) || (c =? 10) || (c =? 13) = true | [] => True end) ->
  field_bytes (f ++ rest) n delim = (f, rest).
Proof.
  intros Hf. revert n. induction Hf as [|c f (H1 & H2 & H3 & _) _ IH]; intros n Hn Hr; cbn.
  - destruct rest as [|c rest]; [by destruct n|]. destruct n; [done|]. cbn. by rewrite Hr.
  - destruct n as [|n]; [cbn in Hn; lia|]. rewrite !(proj2 (Z.eqb_neq _ _)) by done. cbn. rewrite IH; [done | cbn in Hn; lia | done].
Qed.
Lemma parse_field_app f rest max delim : plain delim f -> zlen f < max -> parse_field (f ++ delim :: rest) max delim = (f, rest).
Proof.
  intros Hf Hl. unfold parse_field. rewrite field_bytes_app; [|done | unfold zlen in Hl; lia | by rewrite Z.eqb_refl]. by rewrite Z.eqb_refl.
Qed.

(** ** Numbers *)

Lemma parse_digits n v rest : 0 <= v < 2 ^ 32 -> v < 10 ^ Z.of_nat n ->
  parse_uint (rev (uint_digits n v 10 false) ++ rest) 0 = parse_uint rest v.
Proof.
  revert v rest. induction n as [|n IH]; intros v rest Hv Hn; [cbn in *; by replace v with 0 by lia|]. cbn [uint_digits].
  destruct (Z.eqb_spec v 0) as [->|Hne]; [done|]. cbn [rev]. rewrite <- app_assoc.
  assert (0 <= v / 10 < 2 ^ 32) as Hd by (split; [apply Z.div_pos; lia | apply Z.div_lt_upper_bound; lia]).
  rewrite IH; [|done|].
  2: { rewrite Nat2Z.inj_succ, Z.pow_succ_r in Hn by lia. apply Z.div_lt_upper_bound; lia. }
  pose proof (Z.mod_pos_bound v 10 ltac:(lia)). pose proof (Z.div_mod v 10 ltac:(lia)).
  cbn [app parse_uint]. unfold digit_char. rewrite (proj2 (Z.ltb_lt (v mod 10) 10)) by lia.
  assert (is_digit (48 + v mod 10) = true) as -> by (unfold is_digit; apply andb_true_iff; lia).
  f_equal. rewrite u32_small by lia. lia.
Qed.
(** Reading back a number in decimal. *)
Lemma parse_dec v rest : 0 <= v < 2 ^ 32 -> (match rest with c :: _ => is_digit c = false | [] => True end) ->
  parse_uint (dec v ++ rest) 0 = (v, rest).
Proof.
  intros Hv Hr. assert (parse_uint rest v = (v, rest)) as Hstop by (destruct rest; [done|]; cbn; by rewrite Hr).
  unfold dec, uint_tmp. destruct (Z.eqb_spec v 0) as [->|]; [|by rewrite parse_digits by (cbn; lia)]. by cbn; rewrite u32_small.
Qed.
Lemma parse_dec_end v : 0 <= v < 2 ^ 32 -> (parse_uint (dec v) 0).1 = v.
Proof. intros Hv. rewrite <- (app_nil_r (dec v)). by rewrite parse_dec. Qed.

(** ** Lines *)

(** What [%u] prints of an argument. *)
Definition udec (v : Z) : cstr := dec (u32 v).
Definition user_line (u : user_t) : cstr :=
  u_name u ++ 58 :: udec (u_hash u) ++ 58 :: udec (u_uid u) ++ 58 :: udec (u_gid u) ++ 58 :: u_home u ++ 58 :: u_shell u ++ [10].
Fixpoint join_members (ms : list Z) : cstr :=
  match ms with
  | [] => []
  | m :: ms => udec m ++ match ms with [] => [] | _ => 44 :: join_members ms end
  end.
Definition group_line (g : group_t) : cstr := g_name g ++ 58 :: udec (g_gid g) ++ 58 :: join_members (g_members g) ++ [10].
Definition perm_line (e : perm_t) : cstr := p_path e ++ 58 :: udec (p_uid e) ++ 58 :: udec (p_gid e) ++ 58 :: udec (p_mode e) ++ [10].

Lemma udec_small v : is_u32 v -> udec v = dec v.
Proof. intros Hv. unfold udec. by rewrite u32_small. Qed.
(** Entries a line can carry. *)
Record user_plain (u : user_t) : Prop := {
  up_active : u_active u = true;
  up_name : u_name u <> [] /\ plain 58 (u_name u) /\ zlen (u_name u) < MAX_USERNAME_LEN - 1;
  up_ids : is_u32 (u_hash u) /\ is_u32 (u_uid u) /\ is_u32 (u_gid u);
  up_home : plain 58 (u_home u) /\ zlen (u_home u) < MAX_HOME_LEN - 1;
  up_shell : u_shell u <> [] /\ plain 10 (u_shell u) /\ zlen (u_shell u) < MAX_SHELL_LEN - 1;
}.
Record group_plain (g : group_t) : Prop := {
  gp_active : g_active g = true;
  gp_name : g_name g <> [] /\ plain 58 (g_name g) /\ zlen (g_name g) < MAX_GROUP_NAME_LEN - 1;
  gp_gid : is_u32 (g_gid g);
  gp_members : Forall is_u32 (g_members g) /\ zlen (g_members g) <= MAX_GROUP_MEMBERS;
}.
Record perm_plain (e : perm_t) : Prop := {
  pp_active : p_active e = true;
  pp_path : p_path e <> [] /\ plain 58 (p_path e) /\ zlen (p_path e) < MAX_PERM_PATH - 1;
  pp_ids : is_u32 (p_uid e) /\ is_u32 (p_gid e) /\ 0 <= p_mode e < 2 ^ 16;
}.

Lemma dec_field v max delim rest : is_u32 v -> 11 <= max -> delim < 48 \/ 57 < delim -> parse_field (dec v ++ delim :: rest) max delim = (dec v, rest).
Proof. intros Hv Hm Hd. apply parse_field_app; [apply plain_dec; [apply Hv | done] | pose proof (dec_length v Hv); lia]. Qed.
Lemma kstrncpy_short (f : cstr) n : zlen f < n -> kstrncpy f n = f.
Proof. intros Hl. unfold kstrncpy. apply ztake_all. lia. Qed.

Lemma parse_user_line u rest : user_plain u -> parse_user (user_line u ++ rest) = (Some u, rest).
Proof.
  intros [Ha (Hn0 & Hn & Hnl) (Hh & Hu & Hg) (Ho & Hol) (Hs0 & Hs & Hsl)]. unfold parse_user, user_line. rewrite !udec_small by done.
  repeat (rewrite <- app_assoc; cbn [app]). rewrite parse_field_app by (done || lia).
  rewrite !dec_field by (done || lia). rewrite !parse_field_app by (done || lia). rewrite !bool_decide_eq_false_2 by done.
  rewrite !parse_dec_end, !kstrncpy_short by done. destruct u. cbn in *. by subst.
Qed.
Lemma parse_perm_line e rest : perm_plain e -> parse_perm (perm_line e ++ rest) = (Some e, rest).
Proof.
  intros [Ha (Hn0 & Hn & Hnl) (Hu & Hg & Hm)]. unfold parse_perm, perm_line. assert (is_u32 (p_mode e)) as Hm' by (unfold is_u32; lia).
  rewrite !udec_small by done.
  repeat (rewrite <- app_assoc; cbn [app]). rewrite parse_field_app by (done || unfold MAX_PERM_PATH in *; lia).
  rewrite !dec_field by (done || lia). rewrite bool_decide_eq_false_2 by done. rewrite !parse_dec_end, kstrncpy_short by done.
  unfold u16. rewrite Z.mod_small by done. destruct e. cbn in *. by subst.
Qed.

Lemma join_plain ms : Forall is_u32 ms -> plain 10 (join_members ms).
Proof.
  induction 1 as [|m ms Hm Hms IH]; [constructor|]. cbn [join_members]. rewrite udec_small by done. apply Forall_app. split; [apply plain_dec; [apply Hm | lia]|].
  destruct ms; [constructor|]. constructor; [lia | exact IH].
Qed.
Lemma join_length ms : Forall is_u32 ms -> zlen (join_members ms) <= 11 * zlen ms.
Proof.
  induction 1 as [|m ms Hm Hms IH]; [done|]. cbn [join_members]. rewrite udec_small by done. rewrite zlen_app, zlen_cons. pose proof (dec_length m Hm).
  destruct ms; [change (zlen (@nil Z)) with 0; lia|]. rewrite zlen_cons. lia.
Qed.
Lemma parse_join n ms : Forall is_u32 ms -> (length ms <= n)%nat -> parse_members n (join_members ms) = ms.
Proof.
  intros Hms. revert n. induction Hms as [|m ms Hm Hms IH]; intros n Hn; [by destruct n|]. destruct n as [|n]; [cbn in Hn; lia|].
  cbn [join_members]. rewrite udec_small by done. set (rest := match ms with [] => [] | _ => 44 :: join_members ms end).
  pose proof (dec_length m Hm) as Hl. destruct (dec m ++ rest) as [|c p] eqn:E; [apply app_eq_nil in E as [E _]; rewrite E in Hl; unfold zlen in Hl; cbn in Hl; lia|].
  cbn [parse_members]. rewrite <- E, parse_dec by (done || by unfold rest; destruct ms). f_equal.
  etransitivity; [|apply (IH n); cbn in Hn; lia]. unfold rest. by destruct ms.
Qed.
Lemma parse_group_line g rest : group_plain g -> parse_group (group_line g ++ rest) = (Some g, rest).
Proof.
  intros [Ha (Hn0 & Hn & Hnl) Hg (Hm & Hml)]. unfold parse_group, group_line. rewrite udec_small by done. pose proof (join_length _ Hm).
  repeat (rewrite <- app_assoc; cbn [app]). rewrite parse_field_app by (done || lia). rewrite dec_field by (done || lia).
  rewrite parse_field_app by (first [by apply join_plain | unfold MAX_GROUP_MEMBERS in *; lia]).
  rewrite bool_decide_eq_false_2, parse_dec_end, kstrncpy_short by done.
  rewrite parse_join by (done || unfold MAX_GROUP_MEMBERS, zlen in *; lia). destruct g. cbn in *. by subst.
Qed.

(** ** Reading the lines back *)

(** Every second element, from the first on. *)
Fixpoint evens {A : Type} (l : list A) : list A :=
  match l with
  | x :: _ :: l => x :: evens l
  | _ => l
  end.
Lemma two_ind {A} (P : list A -> Prop) : P [] -> (forall x, P [x]) -> (forall x y l, P l -> P (x :: y :: l)) -> forall l, P l.
Proof. intros H0 H1 H2. fix IH 1. intros [|x [|y l]]; [done | done | apply H2, IH]. Qed.

Lemma next_line_app body rest : 10 ∉ body -> next_line (body ++ 10 :: rest) = rest.
Proof.
  induction body as [|c body IH]; intros Hn; [done|]. cbn. apply not_elem_of_cons in Hn as [Hc Hn].
  rewrite (proj2 (Z.eqb_neq c 10)) by done. by apply IH.
Qed.
Lemma until_nul_id p : 0 ∉ p -> until_nul p = p.
Proof.
  induction p as [|c p IH]; intros Hn; [done|]. cbn. apply not_elem_of_cons in Hn as [Hc Hn]. rewrite (proj2 (Z.eqb_neq c 0)) by done. by rewrite IH.
Qed.
Lemma splice_zset {A} `{!Inhabited A} (l ys : list A) idx x : 0 <= idx -> idx + 1 + zlen ys <= zlen l ->
  splice (zset l idx x) (idx + 1) ys = splice l idx (x :: ys).
Proof.
  intros Hi Hl. pose proof (zlen_nonneg ys). assert (zlen (x :: ys) = zlen ys + 1) as Ex by apply zlen_cons.
  apply zlist_eq; [rewrite !zlen_splice, ?zlen_zset; rewrite ?zlen_zset; lia|].
  intros i Hi'. rewrite zlen_splice in Hi' by (rewrite ?zlen_zset; lia). rewrite zlen_zset in Hi'.
  rewrite !zget_splice by (rewrite ?zlen_zset; lia). rewrite Ex. destruct (decide (i = idx)) as [->|Hne].
  - rewrite decide_False, decide_True by lia. rewrite zget_zset_eq by lia. by rewrite Z.sub_diag.
  - repeat case_decide; try lia.
    + replace (i - idx) with (i - (idx + 1) + 1) by lia. unfold zget. by replace (Z.to_nat (i - (idx + 1) + 1)) with (S (Z.to_nat (i - (idx + 1)))) by lia.
    + apply zget_zset_ne; lia.
Qed.

(** A parser that reads back a line and the newline after it. *)
Section load.
Context {A : Type} `{!Inhabited A} (parse : cstr -> option A * cstr) (line : A -> cstr) (ok : A -> Prop) (max : Z).
Context (Hparse : forall x rest, ok x -> parse (line x ++ rest) = (Some x, rest)).
Context (Hline : forall x, ok x -> exists c body, line x = c :: body ++ [10] /\ (10 ∉ (c :: body)) /\ 13 <> c).

Lemma next_line_line x rest : ok x -> next_line (line x ++ rest) = rest.
Proof using Hline.
  intros (c & body & -> & Hn & _)%Hline. rewrite app_comm_cons, <- app_assoc. by apply next_line_app.
Qed.
Lemma load_one x rest fuel idx l : ok x -> (length (line x ++ rest) <= S fuel)%nat -> idx < max ->
  load_lines parse max (S fuel) (line x ++ rest) idx l = load_lines parse max fuel (next_line rest) (idx + 1) (zset l idx x).
Proof using Hparse Hline.
  intros Hx Hf Hi. destruct (Hline x Hx) as (c & body & E & Hn & Hc). apply not_elem_of_cons in Hn as [Hc10 _].
  pose proof (Hparse x rest Hx) as Hp. rewrite E in *. cbn [app load_lines] in *.
  rewrite (proj2 (Z.ltb_lt idx max)) by done. cbn [negb]. rewrite !(proj2 (Z.eqb_neq _ _)) by done. cbn [orb]. by rewrite Hp.
Qed.
Lemma load_evens xs fuel idx l : Forall ok xs -> (length (concat (line <$> xs)) <= fuel)%nat -> 0 <= idx ->
  idx + zlen (evens xs) <= max -> max <= zlen l ->
  load_lines parse max fuel (concat (line <$> xs)) idx l = splice l idx (evens xs).
Proof using Hparse Hline Inhabited0.
  revert fuel idx l. induction xs as [|x|x y xs IH] using two_ind; intros fuel idx l Hok Hf Hi Hm Hl.
  - assert (load_lines parse max fuel [] idx l = l) as E by (by destruct fuel). cbn. rewrite E. unfold splice. cbn. rewrite Z.add_0_r. symmetry. apply ztake_zdrop.
  - apply Forall_cons in Hok as [Hx _]. change (evens [x]) with [x] in *. change (zlen [x]) with 1 in Hm.
    cbn [concat fmap list_fmap] in *. destruct fuel as [|fuel].
    { destruct (Hline x Hx) as (c & body & E & _). rewrite E in Hf. cbn in Hf. lia. }
    rewrite load_one by (done || lia). cbn [next_line]. assert (load_lines parse max fuel [] (idx + 1) (zset l idx x) = zset l idx x) as -> by (by destruct fuel).
    rewrite <- (splice_zset l [] idx x) by (change (zlen (@nil A)) with 0; lia). unfold splice. cbn. rewrite Z.add_0_r. symmetry. apply ztake_zdrop.
  - apply Forall_cons in Hok as [Hx Hok]. apply Forall_cons in Hok as [Hy Hok]. cbn [evens] in *. rewrite zlen_cons in Hm.
    cbn [concat fmap list_fmap] in *. pose proof (zlen_nonneg (evens xs)). destruct fuel as [|fuel].
    { destruct (Hline x Hx) as (c & body & E & _). rewrite E in Hf. cbn in Hf. lia. }
    rewrite load_one by (done || lia). rewrite next_line_line by done.
    rewrite IH; [| done | | lia | lia | by rewrite zlen_zset].
    + apply splice_zset; lia.
    + rewrite !length_app in Hf. destruct (Hline x Hx) as (c & body & E & _). rewrite E in Hf. cbn in Hf. lia.
Qed.
End load.

(** ** What is printed *)

(** [print_at] of a text: where it fits, it is appended; the position grows by
    its length in any case; beyond the end of the buffer there is no result. *)
Lemma splice_front {A} (l d : list A) off : 0 <= off -> off + zlen d <= zlen l -> ztake (off + zlen d) (splice l off d) = ztake off l ++ d.
Proof.
  intros Ho Hl. unfold splice. rewrite app_assoc. assert (zlen (ztake off l ++ d) = off + zlen d) as <-; [|apply ztake_app_len].
  rewrite zlen_app, zlen_ztake by lia. pose proof (zlen_nonneg d). lia.
Qed.
Lemma ztake_ztake {A} n m (l : list A) : 0 <= n <= m -> ztake n (ztake m l) = ztake n l.
Proof. intros Hn. unfold ztake. rewrite take_take. f_equal. lia. Qed.

Lemma print_at_spec fmt args text buf pos :
  (forall k, format_loop (length fmt) fmt args k = Some (append_str text k)) -> 0 < zlen text -> 0 <= pos -> pos + zlen text < 2 ^ 31 ->
  zlen buf < 2 ^ 31 ->
  match print_at fmt args (buf, pos) with
  | Some (buf', pos') => zlen buf' = zlen buf /\ pos' = pos + zlen text /\ pos <= zlen buf /\
      (pos + zlen text < zlen buf -> ztake pos' buf' = ztake pos buf ++ text)
  | None => zlen buf < pos
  end.
Proof.
  intros Hf Ht Hp Hb Hbuf. unfold print_at, snprintf. pose proof (zlen_nonneg buf).
  rewrite (vsnprintf_text _ _ _ Hf) by apply u64_bound. cbn [mbind option_bind].
  rewrite (s32_small (zlen text)), (proj2 (Z.ltb_lt 0 (zlen text))) by lia. rewrite (s32_small (pos + zlen text)) by lia.
  destruct (Z.lt_total pos (zlen buf)) as [Hlt|[->|Hgt]].
  - rewrite u64_small by lia. rewrite (proj2 (Z.eqb_neq _ 0)) by lia. set (b := ztake _ text ++ [0]).
    assert (zlen b = Z.min (zlen buf - pos - 1) (zlen text) + 1) as Hlb by (unfold b; rewrite zlen_app, zlen_ztake by lia; done).
    rewrite (proj2 (Z.leb_le 0 pos)), (proj2 (Z.leb_le (pos + zlen b) (zlen buf))), orb_true_r by lia.
    split_and!; [apply zlen_splice; lia | done | lia |]. intros Hfit. unfold b. rewrite (ztake_all _ text) by lia.
    rewrite <- (ztake_ztake _ (pos + zlen (text ++ [0]))) by (rewrite zlen_app; change (zlen [0]) with 1; lia).
    rewrite splice_front by (rewrite ?zlen_app; change (zlen [0]) with 1; lia). rewrite app_assoc.
    assert (zlen (ztake pos buf ++ text) = pos + zlen text) as <-; [|apply ztake_app_len]. rewrite zlen_app, zlen_ztake; lia.
  - rewrite Z.sub_diag. change (u64 0 =? 0) with true. rewrite bool_decide_eq_true_2 by done. cbn [orb].
    split_and!; [|done | lia | lia]. apply zlen_splice; [lia|]. change (zlen (@nil Z)) with 0. lia.
  - assert (u64 (zlen buf - pos) = zlen buf - pos + 2 ^ 64) as -> by (unfold u64; symmetry; apply (Z.mod_unique _ _ (-1)); lia).
    rewrite (proj2 (Z.eqb_neq _ 0)) by lia. rewrite (ztake_all _ text) by lia. rewrite bool_decide_eq_false_2 by (by intros [_ ?]%app_eq_nil).
    rewrite zlen_app. change (zlen [0]) with 1. rewrite (proj2 (Z.leb_gt (pos + _) _)) by lia. by rewrite andb_false_r.
Qed.

(** A table printed line by line. *)
Section print.
Context {A : Type} (act : A -> bool) (fmt : cstr) (args : A -> list arg) (line : A -> cstr).
Context (Hfmt : forall x k, format_loop (length fmt) fmt (args x) k = Some (append_str (line x) k)).
Context (Hpos : forall x, 0 < zlen (line x)).

Definition print_line (x : A) (s : list Z * Z) : option (list Z * Z) := if act x then print_at fmt (args x) s else Some s.
Definition lines_of (l : list A) : cstr := concat (line <$> filter (fun x => act x = true) l).

Lemma print_lines l buf pos : 0 <= pos -> pos + zlen (lines_of l) < 2 ^ 31 -> zlen buf < 2 ^ 31 ->
  match print_all print_line l (buf, pos) with
  | Some (buf', pos') => zlen buf' = zlen buf /\ pos' = pos + zlen (lines_of l) /\
      (pos' < zlen buf -> ztake pos' buf' = ztake pos buf ++ lines_of l)
  | None => zlen buf < pos + zlen (lines_of l)
  end.
Proof using Hfmt Hpos.
  revert buf pos. induction l as [|x l IH]; intros buf pos Hp Hl Hb; cbn [print_all].
  - change (lines_of []) with (@nil Z). change (zlen (@nil Z)) with 0. rewrite Z.add_0_r, app_nil_r. done.
  - change (print_line x (buf, pos)) with (if act x then print_at fmt (args x) (buf, pos) else Some (buf, pos)). unfold lines_of in *. rewrite filter_cons in *. destruct (act x) eqn:Ea.
    2: { rewrite decide_False in * by done. by apply IH. }
    rewrite decide_True in * by done. cbn [fmap list_fmap concat] in *. rewrite zlen_app in Hl. pose proof (Hpos x).
    pose proof (zlen_nonneg (concat (line <$> filter (fun x => act x = true) l))) as Hn. rewrite zlen_app.
    pose proof (print_at_spec fmt (args x) (line x) buf pos (Hfmt x) ltac:(done) Hp ltac:(lia) Hb) as Hs.
    destruct (print_at fmt (args x) (buf, pos)) as [[buf1 pos1]|]; [|cbn; lia]. destruct Hs as (L1 & -> & _ & T1). cbn [mbind option_bind].
    specialize (IH buf1 (pos + zlen (line x)) ltac:(lia) ltac:(lia) ltac:(lia)).
    destruct (print_all print_line l _) as [[buf2 pos2]|]; [|lia]. destruct IH as (L2 & -> & T2). split_and!; [lia | lia |].
    intros Hlt. rewrite T2, T1 by lia. by rewrite <- app_assoc.
Qed.
(** What is written to the file: the lines if they are shorter than the buffer,
    no result if they are longer than it. *)
Lemma printed_lines l stack : zlen (lines_of l) < 2 ^ 31 -> zlen stack < 2 ^ 31 ->
  (zlen (lines_of l) < zlen stack -> (s ← print_all print_line l (stack, 0); printed s) = Some (lines_of l)) /\
  (zlen stack < zlen (lines_of l) -> (s ← print_all print_line l (stack, 0); printed s) = None).
Proof using Hfmt Hpos.
  intros Hl Hs. pose proof (print_lines l stack 0 ltac:(lia) ltac:(lia) Hs) as Hp. pose proof (zlen_nonneg (lines_of l)).
  destruct (print_all print_line l (stack, 0)) as [[buf pos]|].
  - destruct Hp as (Lb & -> & T). cbn [mbind option_bind printed]. rewrite Z.add_0_l in *. rewrite u32_small, Lb by lia. split; intros Hlt.
    + rewrite (proj2 (Z.leb_le _ _)) by lia. f_equal. by rewrite T.
    + by rewrite (proj2 (Z.leb_gt _ _)).
  - split; [lia | done].
Qed.
End print.

(** The lines are what [snprintf] is asked for. *)
Ltac format_line := repeat (rewrite append_str_app; cbn [append_str]); by rewrite <- ?append_dec.
Lemma user_format u k : format_loop (length user_fmt) user_fmt (user_args u) k = Some (append_str (user_line u) k).
Proof.
  unfold user_line, udec. format_line.
Qed.
Lemma perm_format e k :
  format_loop (length perm_fmt) perm_fmt [AStr (Some (p_path e)); AInt (p_uid e); AInt (p_gid e); AInt (p_mode e)] k = Some (append_str (perm_line e) k).
Proof. unfold perm_line, udec. format_line. Qed.
Lemma group_format g k : format_loop (length (bytes_of "%s:%u:")) (bytes_of "%s:%u:") [AStr (Some (g_name g)); AInt (g_gid g)] k =
  Some (append_str (g_name g ++ 58 :: udec (g_gid g) ++ [58]) k).
Proof. unfold udec. format_line. Qed.
Lemma member_format m sep k : format_loop (length (bytes_of "%u%s")) (bytes_of "%u%s") [AInt m; AStr (Some sep)] k = Some (append_str (udec m ++ sep) k).
Proof. unfold udec. format_line. Qed.

(** ** Groups: several prints to a line *)

(** Appends a text where it fits, with a byte to spare. *)
Definition appends (f : list Z * Z -> option (list Z * Z)) (text : cstr) : Prop := forall buf pos, 0 <= pos ->
  pos + zlen text < zlen buf < 2 ^ 31 ->
  exists buf', f (buf, pos) = Some (buf', pos + zlen text) /\ zlen buf' = zlen buf /\ ztake (pos + zlen text) buf' = ztake pos buf ++ text.

Lemma appends_none : appends Some [].
Proof. intros buf pos Hp Hb. exists buf. change (zlen (@nil Z)) with 0. by rewrite Z.add_0_r, app_nil_r. Qed.
Lemma appends_bind f g t1 t2 : appends f t1 -> appends g t2 -> appends (fun s => s ← f s; g s) (t1 ++ t2).
Proof.
  intros Hf Hg buf pos Hp Hb. rewrite zlen_app in *. pose proof (zlen_nonneg t1). pose proof (zlen_nonneg t2).
  destruct (Hf buf pos) as (b1 & E1 & L1 & T1); [lia | lia|]. destruct (Hg b1 (pos + zlen t1)) as (b2 & E2 & L2 & T2); [lia | lia|].
  exists b2. rewrite E1. cbn [mbind option_bind]. rewrite E2, Z.add_assoc. split_and!; [done | lia |]. by rewrite T2, T1, app_assoc.
Qed.
Lemma appends_at fmt args text : (forall k, format_loop (length fmt) fmt args k = Some (append_str text k)) -> 0 < zlen text ->
  appends (print_at fmt args) text.
Proof.
  intros Hf Ht buf pos Hp Hb. pose proof (print_at_spec fmt args text buf pos Hf Ht Hp ltac:(lia) ltac:(lia)) as Hs.
  destruct (print_at fmt args (buf, pos)) as [[buf' pos']|]; [|lia]. destruct Hs as (L & -> & _ & T). exists buf'. split_and!; [done | done|]. apply T. lia.
Qed.
Definition newline (s : list Z * Z) : option (list Z * Z) :=
  let '(buf, pos) := s in Some (if pos <? zlen buf then (zset buf pos 10, pos + 1) else (buf, pos)).
Lemma appends_newline : appends newline [10].
Proof.
  intros buf pos Hp Hb. change (zlen [10]) with 1 in *. exists (zset buf pos 10). cbn. rewrite (proj2 (Z.ltb_lt pos (zlen buf))) by lia.
  rewrite zlen_zset. split_and!; [done | done|]. apply zlist_eq.
  - rewrite zlen_app, !zlen_ztake, zlen_zset by lia. change (zlen [10]) with 1. lia.
  - intros i Hi. rewrite zlen_ztake, zlen_zset in Hi by lia. rewrite zget_ztake by lia. destruct (decide (i = pos)) as [->|].
    + rewrite zget_zset_eq by lia. assert (zlen (ztake pos buf) = pos) as E by (rewrite zlen_ztake; lia).
      rewrite zget_app_r by lia. by rewrite E, Z.sub_diag.
    + rewrite zget_zset_ne by lia. rewrite zget_app_l by (rewrite zlen_ztake; lia). by rewrite zget_ztake by lia.
Qed.

Lemma udec_pos v : 0 < zlen (udec v).
Proof. apply dec_length. unfold u32. pose proof (Z.mod_pos_bound v (2 ^ 32) ltac:(lia)). lia. Qed.
Lemma appends_members ms : appends (print_members ms) (join_members ms).
Proof.
  induction ms as [|m ms IH]; [exact appends_none|]. cbn [print_members join_members].
  set (sep := match ms with [] => [] | _ => [44] end).
  assert ((udec m ++ match ms with [] => [] | _ :: _ => 44 :: join_members ms end) = (udec m ++ sep) ++ join_members ms) as ->.
  { unfold sep. destruct ms; [by rewrite !app_nil_r | by rewrite <- app_assoc]. }
  apply appends_bind; [|exact IH]. apply appends_at; [intros; apply member_format|].
  rewrite zlen_app. pose proof (udec_pos m). pose proof (zlen_nonneg sep). lia.
Qed.
Lemma appends_group g : appends (print_group g) (if g_active g then group_line g else []).
Proof.
  unfold print_group, group_line. destruct (g_active g); [|exact appends_none].
  replace (g_name g ++ 58 :: udec (g_gid g) ++ 58 :: join_members (g_members g) ++ [10])
    with ((g_name g ++ 58 :: udec (g_gid g) ++ [58]) ++ (join_members (g_members g) ++ [10])).
  2: { rewrite <- app_assoc. cbn [app]. by rewrite <- app_assoc. }
  apply appends_bind; [|apply appends_bind; [apply appends_members | apply appends_newline]].
  apply appends_at; [intros; apply group_format|]. rewrite zlen_app, zlen_cons. pose proof (zlen_nonneg (g_name g)).
  pose proof (zlen_nonneg (udec (g_gid g) ++ [58])). lia.
Qed.
Definition group_text (l : list group_t) : cstr := concat (group_line <$> filter (fun g => g_active g = true) l).
Lemma appends_groups l : appends (print_all print_group l) (group_text l).
Proof.
  induction l as [|g l IH]; [exact appends_none|]. cbn [print_all].
  assert (group_text (g :: l) = (if g_active g then group_line g else []) ++ group_text l) as ->.
  { unfold group_text. rewrite filter_cons. destruct (g_active g); [by rewrite decide_True | by rewrite decide_False]. }
  apply appends_bind; [apply appends_group | exact IH].
Qed.
Lemma printed_groups l buf : zlen (group_text l) < zlen buf < 2 ^ 31 -> (s ← print_all print_group l (buf, 0); printed s) = Some (group_text l).
Proof.
  intros Hl. pose proof (zlen_nonneg (group_text l)). destruct (appends_groups l buf 0) as (b & E & L & T); [lia | lia|].
  rewrite E. cbn [mbind option_bind printed]. rewrite Z.add_0_l in *. rewrite u32_small, L by lia. rewrite (proj2 (Z.leb_le _ _)) by lia.
  f_equal. exact T.
Qed.

(** ** Lines and their newline *)

Definition clean (f : cstr) : Prop := Forall (fun c => c <> 10 /\ c <> 0) f.
Lemma plain_clean delim f : plain delim f -> clean f.
Proof. intros Hf. eapply Forall_impl; [exact Hf|]. intros c (_ & ? & _ & ?). done. Qed.
Lemma clean_app f g : clean f -> clean g -> clean (f ++ g).
Proof. intros. by apply Forall_app. Qed.
Lemma clean_cons c f : c <> 10 -> c <> 0 -> clean f -> clean (c :: f).
Proof. intros. by constructor. Qed.
Lemma clean_udec v : clean (udec v).
Proof. apply (plain_clean 58), plain_dec; [|lia]. unfold u32. pose proof (Z.mod_pos_bound v (2 ^ 32) ltac:(lia)). lia. Qed.
Lemma clean_join ms : clean (join_members ms).
Proof.
  induction ms as [|m ms IH]; [constructor|]. cbn [join_members]. apply clean_app; [apply clean_udec|]. destruct ms; [constructor | by apply clean_cons].
Qed.
Create HintDb text.
#[export] Hint Resolve clean_app clean_udec clean_join : text.
#[export] Hint Extern 1 (clean (_ :: _)) => apply clean_cons; [lia | lia |] : text.
#[export] Hint Extern 1 (clean []) => constructor : text.

(** A first byte that is no line end, no newline or NUL before the last
    byte. *)
Definition line_shape (l : cstr) : Prop := exists c body, l = c :: body ++ [10] /\ clean (c :: body) /\ 13 <> c.
Lemma line_shape_intro (name : cstr) delim rest : name <> [] -> plain delim name -> clean rest -> line_shape (name ++ rest ++ [10]).
Proof.
  intros Hne Hp Hr. destruct name as [|c name]; [done|]. exists c, (name ++ rest). rewrite <- app_assoc. cbn [app]. split_and!; [done | |].
  - apply plain_clean in Hp. by apply (clean_app (c :: name)).
  - apply Forall_cons in Hp as [(_ & _ & ? & _) _]. congruence.
Qed.
Lemma user_shape u : user_plain u -> line_shape (user_line u).
Proof.
  intros [_ (Hn0 & Hn & _) _ (Ho & _) (_ & Hs & _)]. unfold user_line. apply plain_clean in Ho, Hs.
  replace (58 :: udec (u_hash u) ++ 58 :: udec (u_uid u) ++ 58 :: udec (u_gid u) ++ 58 :: u_home u ++ 58 :: u_shell u ++ [10])
    with ((58 :: udec (u_hash u) ++ 58 :: udec (u_uid u) ++ 58 :: udec (u_gid u) ++ 58 :: u_home u ++ 58 :: u_shell u) ++ [10])
    by (cbn [app]; repeat (rewrite <- app_assoc; cbn [app]); done).
  eapply line_shape_intro; [done | done | auto 12 with text].
Qed.
Lemma group_shape g : group_plain g -> line_shape (group_line g).
Proof.
  intros [_ (Hn0 & Hn & _) _ _]. unfold group_line.
  replace (58 :: udec (g_gid g) ++ 58 :: join_members (g_members g) ++ [10]) with ((58 :: udec (g_gid g) ++ 58 :: join_members (g_members g)) ++ [10])
    by (cbn [app]; repeat (rewrite <- app_assoc; cbn [app]); done).
  eapply line_shape_intro; [done | done | auto 8 with text].
Qed.
Lemma perm_shape e : perm_plain e -> line_shape (perm_line e).
Proof.
  intros [_ (Hn0 & Hn & _) _]. unfold perm_line.
  replace (58 :: udec (p_uid e) ++ 58 :: udec (p_gid e) ++ 58 :: udec (p_mode e) ++ [10])
    with ((58 :: udec (p_uid e) ++ 58 :: udec (p_gid e) ++ 58 :: udec (p_mode e)) ++ [10]) by (cbn [app]; repeat (rewrite <- app_assoc; cbn [app]); done).
  eapply line_shape_intro; [done | done | auto 12 with text].
Qed.
Lemma clean_not_in f : clean f -> (10 ∉ f) /\ (0 ∉ f).
Proof. intros Hf. unfold clean in Hf. rewrite Forall_forall in Hf. split; intros Hin; by apply Hf in Hin as [? ?]. Qed.

(** ** A file read back *)

Lemma load_text_evens {A} `{!Inhabited A} (parse : cstr -> option A * cstr) (line : A -> cstr) (ok : A -> Prop) max (l xs : list A) :
  (forall x rest, ok x -> parse (line x ++ rest) = (Some x, rest)) -> (forall x, ok x -> line_shape (line x)) ->
  Forall ok xs -> zlen (evens xs) <= max -> zlen l = max ->
  load_text parse max (concat (line <$> xs)) l = evens xs ++ zdrop (zlen (evens xs)) l.
Proof.
  intros Hp Hs Hok Hm Hl. unfold load_text.
  assert (0 ∉ concat (line <$> xs)) as Hnul.
  { clear Hm Hl. induction Hok as [|x xs Hx _ IH]; [apply not_elem_of_nil|]. cbn [fmap list_fmap concat]. apply not_elem_of_app. split; [|exact IH].
    destruct (Hs x Hx) as (c & body & -> & Hc & _). rewrite app_comm_cons. apply not_elem_of_app. split; [by apply clean_not_in|].
    intros H0%list_elem_of_singleton. done. }
  rewrite until_nul_id by done. rewrite (load_evens parse line ok max Hp).
  - exact (splice_at [] l (evens xs)).
  - intros x Hx. destruct (Hs x Hx) as (c & body & E & Hc & Hr). exists c, body. split_and!; [done | by apply clean_not_in | done].
  - done.
  - done.
  - lia.
  - lia.
  - lia.
Qed.
