(* ===== verification/UsersProps.v ===== *)
(** * Users and permissions: theorems

    The tables stay well-formed under every operation, the permission table
    refines a map and follows renames and removals in the virtual filesystem,
    and the access check grants what the owner, group or other bits say. *)
From S2P Require Import Prelude Paths Heap Printf Vfs VfsMount VfsFiles Users UsersPerm UsersInv UsersFile UsersText.

(** ** Renames and removals in the virtual filesystem *)

Section hooks.
Context {W : Type} `{!KHeap W}.
Context (ops_of : fskind -> vfs_fs_ops W) (fat32 : fat32_direct W).
Implicit Types (v : vfs (W := W)).

(** A body that adds no note. *)
Definition silent {A} (m : st (W := W) A) : Prop := forall v, v_notes (m v).2 = v_notes v.
Lemma silent_ret {A} (x : A) : silent (mret x).
Proof using. by intros v. Qed.
Lemma silent_bind {A B} (m : st A) (f : A -> st B) : silent m -> (forall x, silent (f x)) -> silent (m ≫= f).
Proof using. intros Hm Hf v. unfold mbind, st_bind. specialize (Hm v). destruct (m v) as [x v1]. by rewrite Hf. Qed.
Lemma silent_gets {A} (f : vfs -> A) : silent (gets f).
Proof using. by intros v. Qed.
Lemma silent_world {A} (f : W -> A * W) : silent (world f).
Proof using. intros v. unfold world. by destruct (f _). Qed.
Lemma silent_fs_op {A B} (sel : vfs_fs_ops W -> option (Z -> A)) slot (none : st B) some :
  silent none -> (forall op, silent (some op)) -> silent (fs_op ops_of sel slot none some).
Proof using. intros Hn Hs v. unfold fs_op. destruct (k ← _; _); [apply Hs | apply Hn]. Qed.
Lemma fs_ro_silent slot : silent (vfs_fs_ro ops_of slot).
Proof using. apply silent_fs_op; [apply silent_ret|]. intros op. apply silent_bind; [apply silent_world|]. intros. apply silent_ret. Qed.
Lemma isdir_silent slot rel : silent (vfs_isdir_locked ops_of slot rel).
Proof using.
  apply silent_bind; [apply silent_gets|]. intros []; [|apply silent_ret]. apply silent_fs_op; [apply silent_ret|].
  intros op. apply silent_bind; [apply silent_world|]. intros. apply silent_ret.
Qed.

(** Bodies that, if they return 0, add these notes. *)
Definition notes_on (m : st (W := W) Z) (P : list vnote -> Prop) : Prop :=
  forall v r v', m v = (r, v') -> r = 0 -> exists l, v_notes v' = v_notes v ++ l /\ P l.
Lemma notes_bind {A} (m : st A) (f : A -> st Z) P : silent m -> (forall x, notes_on (f x) P) -> notes_on (m ≫= f) P.
Proof using.
  intros Hm Hf v r v'. unfold mbind, st_bind. specialize (Hm v). destruct (m v) as [x v1]. cbn in Hm. rewrite <- Hm. apply Hf.
Qed.
Lemma notes_fail (c : Z) P : c <> 0 -> notes_on (mret c) P.
Proof using. by intros Hc v r v' [= <- <-] ?. Qed.
Lemma notes_fs_op {A} (sel : vfs_fs_ops W -> option (Z -> A)) slot (none : st Z) some P :
  notes_on none P -> (forall op, notes_on (some op) P) -> notes_on (fs_op ops_of sel slot none some) P.
Proof using. intros Hn Hs v r v'. unfold fs_op. destruct (k ← _; _); [apply Hs | apply Hn]. Qed.

Definition renamed (o n : cstr) (l : list vnote) : Prop :=
  exists d, l = [ExecInvalidateTree o; ExecInvalidateTree n; PermRenameTree o n; InotifyRename o n d].
Lemma rename_notes_run o n d v : rename_notes o n d v =
  (tt, add_note (InotifyRename o n d) (add_note (PermRenameTree o n) (add_note (ExecInvalidateTree n) (add_note (ExecInvalidateTree o) v)))).
Proof using. done. Qed.
Lemma rename_notes_on o n d (r : Z) :
  notes_on (when (r =? 0) (rename_notes o n d);; mret r) (renamed o n).
Proof using.
  intros v r' v' E ->. unfold mbind, st_bind, when in E. destruct (Z.eqb_spec r 0) as [->|Hne].
  - rewrite rename_notes_run in E. injection E as <-. eexists. cbn. rewrite <- !app_assoc. cbn. split; [done|]. by exists d.
  - by injection E as ->.
Qed.
Lemma rename_fallback_on o n d : notes_on
  (r ← world (fat32_rename fat32 o n); if r =? 0 then rename_notes o n d;; mret 0 else mret (if r <? 0 then r else - EIO)) (renamed o n).
Proof using.
  apply notes_bind; [apply silent_world|]. intros r. destruct (Z.eqb_spec r 0) as [->|Hne].
  - exact (rename_notes_on o n d 0).
  - destruct (Z.ltb_spec r 0); by apply notes_fail.
Qed.
Lemma vfs_rename_notes (o n : cstr) : notes_on (vfs_rename ops_of fat32 (Some o) (Some n)) (renamed o n).
Proof using.
  unfold vfs_rename. cbn zeta. apply notes_bind; [apply silent_gets|]. intros root. destruct (negb root); [by apply notes_fail|].
  apply notes_bind; [apply silent_gets|]. intros f1. apply notes_bind; [apply silent_gets|]. intros f2.
  destruct (negb _); [by apply notes_fail|]. destruct f1 as [[slot r1]|]; [|apply rename_fallback_on].
  destruct f2 as [[slot2 r2]|]; [|apply rename_fallback_on].
  apply notes_bind; [apply fs_ro_silent|]. intros [].
  - intros v r v'. unfold mbind, st_bind. destruct (vfs_fs_has _ _ _ _) as [[] v1]; intros [= <- <-] ?; done.
  - apply notes_bind; [apply isdir_silent|]. intros d. apply notes_fs_op; [apply rename_fallback_on|]. intros op.
    apply notes_bind; [apply silent_world|]. intros r. apply rename_notes_on.
Qed.

Definition removed (p : cstr) (l : list vnote) : Prop :=
  exists e m, l = [e; PermForgetTree p; InotifyEvent p m] /\ (e = ExecInvalidate p \/ e = ExecInvalidateTree p).
Lemma removed_on p e m (r : Z) : e = ExecInvalidate p \/ e = ExecInvalidateTree p ->
  notes_on (when (r =? 0) (note e;; note (PermForgetTree p);; note (InotifyEvent p m));; mret r) (removed p).
Proof using.
  intros He v r' v' E ->. unfold mbind, st_bind, when in E. destruct (Z.eqb_spec r 0) as [->|Hne].
  - unfold note, modify in E. cbn in E. injection E as <-. eexists. cbn. rewrite <- !app_assoc. cbn. split; [done|]. by exists e, m.
  - by injection E as ->.
Qed.
Lemma vfs_unlink_notes (p : cstr) : notes_on (vfs_unlink ops_of (Some p)) (removed p).
Proof using.
  unfold vfs_unlink. cbn zeta. apply notes_bind; [apply silent_gets|]. intros [[slot rel]|]; [|by apply notes_fail].
  apply notes_fs_op; [by apply notes_fail|]. intros op. apply notes_bind; [apply fs_ro_silent|]. intros [].
  - intros v r v'. unfold mbind, st_bind. destruct (vfs_fs_has _ _ _ _) as [[] v1]; intros [= <- <-] ?; done.
  - apply notes_bind; [apply isdir_silent|]. intros d. apply notes_bind; [apply silent_world|]. intros r. cbn [default from_option].
    apply removed_on. by left.
Qed.
Lemma vfs_rmdir_notes (p : cstr) : notes_on (vfs_rmdir ops_of fat32 (Some p)) (removed p).
Proof using.
  assert (notes_on (r ← world (fat32_remove_empty_directory fat32 p); when (r =? 0) (rmdir_notes p);; mret r) (removed p)) as Hfall.
  { apply notes_bind; [apply silent_world|]. intros r. apply removed_on. by right. }
  unfold vfs_rmdir. cbn zeta. apply notes_bind; [apply silent_gets|]. intros [[slot rel]|]; [|done].
  apply notes_bind; [apply fs_ro_silent|]. intros [].
  - intros v r v'. unfold mbind, st_bind. destruct (vfs_fs_has _ _ _ _) as [[] v1]; intros [= <- <-] ?; done.
  - apply notes_fs_op; [done|]. intros op. apply notes_bind; [apply silent_world|]. intros r. apply removed_on. by right.
Qed.
End hooks.

(** C31 The permission table refines a map from paths to owner, group and mode.
    Looking a path up gives its entry or root and 0644; setting a path shorter
    than the array replaces its entry, and fails, changing nothing, only if
    the path has none and all 256 are taken; removing deletes it; forgetting a
    directory deletes what is at or below it; a rename moves what is at or
    below the old name to the new one, in place of what was there, and drops
    what would not fit.  No two entries ever have the same path. *)
Theorem perm_table_refines (a : accounts) : perms_ok a ->
  (forall p : cstr, perm_get (Some p) a =
     match perm_abs a p with Some v => (0, v) | None => (-1, (UID_ROOT, GID_ROOT, PERM_DEFAULT_FILE)) end) /\
  (forall (p : cstr) uid gid mode rc a', zlen p < MAX_PERM_PATH - 1 -> perm_set (Some p) uid gid mode a = (rc, a') ->
     perms_ok a' /\
     (rc = 0 /\ (forall q, perm_abs a' q = pm_set p (uid, gid, mode) (perm_abs a) q) \/
      rc = -1 /\ a' = a /\ perm_abs a p = None /\ forall i, in_perms i -> p_active (perm_at a i) = true)) /\
  (forall (p : cstr) rc a', perm_remove (Some p) a = (rc, a') ->
     perms_ok a' /\ rc = (match perm_abs a p with Some _ => 0 | None => -1 end) /\ forall q, perm_abs a' q = pm_delete p (perm_abs a) q) /\
  (forall dir : cstr, dir <> [] ->
     perms_ok (perm_forget_tree (Some dir) a) /\ forall q, perm_abs (perm_forget_tree (Some dir) a) q = pm_forget dir (perm_abs a) q) /\
  (forall from to : cstr, from <> [] -> to <> [] ->
     perms_ok (perm_rename_tree (Some from) (Some to) a) /\
     forall q, perm_abs (perm_rename_tree (Some from) (Some to) a) q = pm_rename from to (perm_abs a) q).
Proof.
  intros Ha. split_and!; intros.
  - apply perm_get_abs.
  - by eapply perm_set_spec.
  - by eapply perm_remove_spec.
  - by apply perm_forget_spec.
  - by apply perm_rename_spec.
Qed.

(** The notes the layer added, from those before. *)
Definition new_notes {W} (v v' : vfs (W := W)) : list vnote := zdrop (zlen (v_notes v)) (v_notes v').
Lemma new_notes_app {W} (v v' : vfs (W := W)) l : v_notes v' = v_notes v ++ l -> new_notes v v' = l.
Proof. intros E. unfold new_notes. rewrite E. apply zdrop_app_len. Qed.

(** C32 The permission table follows the virtual filesystem: whatever the
    filesystem, after a rename that succeeded the entries at or below the old
    name are at or below the new one, in place of what was there; after a file
    or a directory was removed, nothing is left at or below its path.  The
    exception is a rename of a path to itself, which deletes the entries at or
    below it. *)
Theorem vfs_perms_follow {W} `{!KHeap W} (ops_of : fskind -> vfs_fs_ops W) (fat32 : fat32_direct W) (v v' : vfs (W := W)) (a : accounts) :
  perms_ok a ->
  (forall o n : cstr, o <> [] -> n <> [] -> vfs_rename ops_of fat32 (Some o) (Some n) v = (0, v') ->
     let a' := perm_notes (new_notes v v') a in
     perms_ok a' /\ (forall q, perm_abs a' q = pm_rename o n (perm_abs a) q) /\
     (o = n -> forall q, perm_abs a' q = pm_forget o (perm_abs a) q)) /\
  (forall p : cstr, p <> [] -> vfs_unlink ops_of (Some p) v = (0, v') \/ vfs_rmdir ops_of fat32 (Some p) v = (0, v') ->
     let a' := perm_notes (new_notes v v') a in
     perms_ok a' /\ forall q, perm_abs a' q = pm_forget p (perm_abs a) q).
Proof.
  intros Ha. split.
  - intros o n Ho Hn E. destruct (vfs_rename_notes ops_of fat32 o n v 0 v' E eq_refl) as (l & El & d & ->).
    rewrite (new_notes_app _ _ _ El). cbn zeta. change (perm_notes _ a) with (perm_rename_tree (Some o) (Some n) a).
    destruct (perm_rename_spec a o n Ha Ho Hn) as [Hok Hq]. split_and!; [done | done |]. intros <- q. rewrite Hq. unfold pm_rename, pm_forget.
    destruct (under o q) eqn:Eu; [|done]. apply under_spec in Eu as (rest & -> & Hr). rewrite zdrop_app_len.
    rewrite (proj2 (under_spec o (o ++ rest))); [by destruct (_ <? _) | by exists rest].
  - intros p Hp Hr. assert (exists l, v_notes v' = v_notes v ++ l /\ removed p l) as (l & El & e & m & -> & He).
    { destruct Hr as [E|E]; [by eapply vfs_unlink_notes | by eapply vfs_rmdir_notes]. }
    rewrite (new_notes_app _ _ _ El). cbn zeta.
    assert (perm_notes [e; PermForgetTree p; InotifyEvent p m] a = perm_forget_tree (Some p) a) as -> by (by destruct He as [->| ->]).
    by apply perm_forget_spec.
Qed.

(** The access check: root may do anything; otherwise a request for read (4),
    write (2) and execute (1) is granted exactly if all its bits are among the
    three of the file's mode that apply: the owner's, else the group's if the
    file's group is the caller's or has the caller as a member, else the
    others'.  A path without an entry is root's, with 0644. *)
Theorem perm_check_access_spec (path : cstr) uid gid mode (a : accounts) : 0 <= mode < 8 ->
  let v := default (UID_ROOT, GID_ROOT, PERM_DEFAULT_FILE) (perm_abs a path) in
  perm_check_access (Some path) uid gid mode a = true <->
  uid = UID_ROOT \/ Z.land (mode_class v.2 (class_shift a uid gid v)) mode = mode.
Proof.
  intros Hm v. assert ((perm_get (Some path) a).2 = v) as Ev by (rewrite perm_get_abs; unfold v; by destruct (perm_abs a path)).
  rewrite access_class, Ev by done. by rewrite orb_true_iff, !Z.eqb_eq.
Qed.

(** ** Every operation *)

Lemma no_perms_ok a : zlen (perms a) = MAX_PERM_ENTRIES -> forallb (fun e => negb (p_active e)) (perms a) = true -> perms_ok a.
Proof.
  intros Hl Hc. assert (forall i, in_perms i -> p_active (perm_at a i) = false) as Hz.
  { intros i Hi. unfold in_perms in Hi. rewrite <- Hl in Hi. pose proof (forallb_zget _ _ i Hc Hi) as Hg. by apply negb_true_iff in Hg. }
  split; [done | |].
  - intros i j Hi Hj Hai. by rewrite Hz in Hai.
  - intros i Hi Hai. by rewrite Hz in Hai.
Qed.
Lemma default_accounts_ok : accounts_ok default_accounts.
Proof.
  split.
  - by vm_compute.
  - by vm_compute.
  - apply (distinct_check_ok _ _ _). by vm_compute.
  - apply (distinct_check_ok _ _ _). by vm_compute.
  - apply (distinct_check_ok _ _ _). by vm_compute.
  - exists 0. by vm_compute.
  - exists 0. by vm_compute.
  - intros i Hi. unfold group_at, group_ok.
    assert (forallb (fun g => bool_decide (NoDup (g_members g)) && (zlen (g_members g) <=? MAX_GROUP_MEMBERS)) (groups default_accounts) = true) as Hc by (by vm_compute).
    assert (zlen (groups default_accounts) = MAX_GROUPS) as Hl by (by vm_compute). rewrite <- Hl in Hi.
    pose proof (forallb_zget _ _ i Hc Hi) as Hg. cbn beta in Hg. apply andb_true_iff in Hg as [H1%bool_decide_eq_true H2%Z.leb_le]. by split.
  - apply no_perms_ok; [by vm_compute | by vm_compute].
Qed.

(** C39 Every sequence of calls on users, groups, the session and the permission
    table, from the accounts of a fresh system and with names and paths that fit
    their arrays, keeps the tables well-formed: no two active users have the
    same uid or the same name, no two groups the same name, no two permission
    entries the same path; a group has no member twice and at most 16; and the
    root user, with uid 0, and the root group are always there. *)
Theorem accounts_sound {W} (ops_of : fskind -> vfs_fs_ops W) (calls : list ucall) (v : vfs (W := W)) :
  Forall ucall_ok calls -> accounts_ok (acc_run ops_of calls default_accounts v).1.
Proof. intros Hc. apply acc_run_ok; [done | apply default_accounts_ok]. Qed.

(** ** Saving *)

Definition passwd_text (a : accounts) : cstr := lines_of u_active user_line (users a).
Definition perms_text (a : accounts) : cstr := lines_of p_active perm_line (perms a).

Lemma user_line_pos u : 0 < zlen (user_line u).
Proof. unfold user_line. rewrite zlen_app, zlen_cons. pose proof (zlen_nonneg (u_name u)). match goal with |- context [zlen ?l + 1] => pose proof (zlen_nonneg l) end. lia. Qed.
Lemma perm_line_pos e : 0 < zlen (perm_line e).
Proof. unfold perm_line. rewrite zlen_app, zlen_cons. pose proof (zlen_nonneg (p_path e)). match goal with |- context [zlen ?l + 1] => pose proof (zlen_nonneg l) end. lia. Qed.
Lemma print_users l stack : zlen (lines_of u_active user_line l) < 2 ^ 31 -> zlen stack < 2 ^ 31 ->
  match print_all print_user l (stack, 0) with
  | Some (buf, pos) => zlen buf = zlen stack /\ pos = zlen (lines_of u_active user_line l) /\
      (pos < zlen stack -> ztake pos buf = lines_of u_active user_line l)
  | None => zlen stack < zlen (lines_of u_active user_line l)
  end.
Proof.
  intros Hl Hs. exact (print_lines u_active user_fmt user_args user_line user_format user_line_pos l stack 0 ltac:(lia) Hl Hs).
Qed.

Section save.
Context {W : Type} `{!KHeap W} (ops_of : fskind -> vfs_fs_ops W).

Lemma users_save_post (a : accounts) (v : vfs (W := W)) stack :
  vfs_has_root_mount v = true -> zlen stack = 4096 -> zlen (passwd_text a) < 2 ^ 31 ->
  (zlen (passwd_text a) < 4096 -> zlen (group_text (groups a)) < 4096 ->
     users_save ops_of stack a v =
     Some (0, (vfs_write_file ops_of (Some GROUP) (group_text (groups a)) (vfs_write_file ops_of (Some PASSWD) (passwd_text a) v).2).2)) /\
  (4096 < zlen (passwd_text a) -> users_save ops_of stack a v = None).
Proof.
  intros Hr Hs Hl. unfold users_save. rewrite Hr. cbn [negb]. unfold passwd_text in *.
  pose proof (print_users (users a) stack Hl ltac:(lia)) as Hp. pose proof (zlen_nonneg (lines_of u_active user_line (users a))).
  destruct (print_all print_user (users a) (stack, 0)) as [[buf pos]|]; [|split; [lia | done]]. destruct Hp as (Lb & -> & T).
  cbn [mbind option_bind printed]. rewrite u32_small, Lb, Hs by lia. split.
  - intros Ht Hg. rewrite (proj2 (Z.leb_le _ _)) by lia. cbn [mbind option_bind]. rewrite T by lia.
    destruct (vfs_write_file ops_of (Some PASSWD) _ v) as [r v1]. cbn [fst snd].
    pose proof (printed_groups (groups a) buf ltac:(lia)) as Hgr. destruct (print_all print_group (groups a) (buf, 0)) as [s'|]; [|done].
    cbn [mbind option_bind] in *. rewrite Hgr. cbn [mbind option_bind]. by destruct (vfs_write_file _ _ _ _).
  - intros Ht. by rewrite (proj2 (Z.leb_gt _ _)).
Qed.
Lemma perms_save_post (a : accounts) (v : vfs (W := W)) stack :
  vfs_has_root_mount v = true -> zlen stack = 8192 -> zlen (perms_text a) < 2 ^ 31 ->
  (zlen (perms_text a) < 8192 -> perms_save ops_of stack a v = Some (0, (vfs_write_file ops_of (Some PERMS_DB) (perms_text a) v).2)) /\
  (8192 < zlen (perms_text a) -> perms_save ops_of stack a v = None).
Proof.
  intros Hr Hs Hl. unfold perms_save. rewrite Hr. cbn [negb]. unfold perms_text in *.
  destruct (printed_lines p_active perm_fmt (fun e => [AStr (Some (p_path e)); AInt (p_uid e); AInt (p_gid e); AInt (p_mode e)]) perm_line
    perm_format perm_line_pos (perms a) stack Hl ltac:(lia)) as [Hfit Hover]. rewrite Hs in *.
  change (print_line p_active perm_fmt _) with print_perm in *.
  destruct (print_all print_perm (perms a) (stack, 0)) as [s|]; cbn [mbind option_bind] in *.
  - split; intros Ht; [rewrite Hfit by done; cbn [mbind option_bind]; by destruct (vfs_write_file _ _ _ _) | by rewrite Hover].
  - split; [intros Ht; by specialize (Hfit Ht) | done].
Qed.
End save.

(** Saving the users, groups and permissions.  While the text of each file
    is shorter than the buffer on the stack (4096 bytes for users and for
    groups, 8192 for permissions) exactly that text is written, a line per
    entry; once the users' text is longer than 4096 bytes, or the permissions'
    longer than 8192, the code stores or reads beyond the buffer. *)
Theorem user_files_save {W} `{!KHeap W} (ops_of : fskind -> vfs_fs_ops W) (a : accounts) (v : vfs (W := W)) stack stack2 :
  vfs_has_root_mount v = true -> zlen stack = 4096 -> zlen stack2 = 8192 ->
  zlen (passwd_text a) < 2 ^ 31 -> zlen (perms_text a) < 2 ^ 31 ->
  (zlen (passwd_text a) < 4096 -> zlen (group_text (groups a)) < 4096 ->
     users_save ops_of stack a v =
     Some (0, (vfs_write_file ops_of (Some GROUP) (group_text (groups a)) (vfs_write_file ops_of (Some PASSWD) (passwd_text a) v).2).2)) /\
  (4096 < zlen (passwd_text a) -> users_save ops_of stack a v = None) /\
  (zlen (perms_text a) < 8192 -> perms_save ops_of stack2 a v = Some (0, (vfs_write_file ops_of (Some PERMS_DB) (perms_text a) v).2)) /\
  (8192 < zlen (perms_text a) -> perms_save ops_of stack2 a v = None).
Proof.
  intros Hr Hs Hs2 Hl Hl2. destruct (users_save_post ops_of a v stack Hr Hs Hl). by destruct (perms_save_post ops_of a v stack2 Hr Hs2 Hl2).
Qed.

(** ** Loading *)

Definition active_users (a : accounts) : list user_t := filter (fun u => u_active u = true) (users a).
Definition active_groups (a : accounts) : list group_t := filter (fun g => g_active g = true) (groups a).
Definition active_perms (a : accounts) : list perm_t := filter (fun e => p_active e = true) (perms a).
(** A table with these entries and no more. *)
Definition table {A : Type} (zero : A) (max : Z) (l : list A) : list A := l ++ replicate (Z.to_nat (max - zlen l)) zero.

Lemma evens_le {A} (l : list A) : zlen (evens l) <= zlen l.
Proof. induction l as [|x|x y l IH] using two_ind; [done | done|]. cbn [evens]. rewrite !zlen_cons. lia. Qed.
Lemma filter_le {A} (P : A -> Prop) `{!forall x, Decision (P x)} (l : list A) : zlen (filter P l) <= zlen l.
Proof. unfold zlen. pose proof (length_filter P l). lia. Qed.
Lemma load_table {A} `{!Inhabited A} (parse : cstr -> option A * cstr) (line : A -> cstr) (ok : A -> Prop) max (zero : A) xs :
  (forall x rest, ok x -> parse (line x ++ rest) = (Some x, rest)) -> (forall x, ok x -> line_shape (line x)) ->
  Forall ok xs -> zlen xs <= max ->
  load_text parse max (concat (line <$> xs)) (replicate (Z.to_nat max) zero) = table zero max (evens xs).
Proof.
  intros Hp Hs Hok Hm. pose proof (evens_le xs). pose proof (zlen_nonneg (evens xs)).
  rewrite (load_text_evens parse line ok); [|done..|lia | unfold zlen; rewrite length_replicate; lia]. unfold table. f_equal.
  unfold zdrop. rewrite drop_replicate. f_equal. lia.
Qed.

(** C40 Loading the files that were saved gives back every second entry only.  For
    users, groups and permissions whose strings a line can carry, and files
    that read back as they were written, the users after a load are the first,
    the third, the fifth and so on of those saved, likewise the groups and the
    permissions: the last field of a line is read together with the newline,
    and the search for the next line then skips a whole line. *)
Theorem user_files_reload {W} `{!KHeap W} (ops_of : fskind -> vfs_fs_ops W) (a : accounts) (v v1 v2 v3 : vfs (W := W)) :
  zlen (users a) = MAX_USERS -> zlen (groups a) = MAX_GROUPS -> zlen (perms a) = MAX_PERM_ENTRIES ->
  Forall user_plain (active_users a) -> Forall group_plain (active_groups a) -> Forall perm_plain (active_perms a) ->
  vfs_has_root_mount v = true -> vfs_has_root_mount v2 = true ->
  read_text ops_of PASSWD 4095 v = (Some (passwd_text a), v1) ->
  read_text ops_of GROUP 4095 v1 = (Some (group_text (groups a)), v2) ->
  read_text ops_of PERMS_DB 8191 v2 = (Some (perms_text a), v3) ->
  users_init ops_of v =
    (mk_accounts (table zero_user MAX_USERS (evens (active_users a))) (table zero_group MAX_GROUPS (evens (active_groups a)))
       (table zero_perm MAX_PERM_ENTRIES (evens (active_perms a))) UID_ROOT GID_ROOT true, v3).
Proof.
  intros Lu Lg Lp Hu Hg Hp Hr Hr2 E1 E2 E3.
  pose proof (filter_le (fun u => u_active u = true) (users a)). pose proof (filter_le (fun g => g_active g = true) (groups a)).
  pose proof (filter_le (fun e => p_active e = true) (perms a)).
  pose proof (load_table parse_user user_line user_plain MAX_USERS zero_user _ parse_user_line user_shape Hu ltac:(unfold active_users; lia)) as L1.
  pose proof (load_table parse_group group_line group_plain MAX_GROUPS zero_group _ parse_group_line group_shape Hg ltac:(unfold active_groups; lia)) as L2.
  pose proof (load_table parse_perm perm_line perm_plain MAX_PERM_ENTRIES zero_perm _ parse_perm_line perm_shape Hp ltac:(unfold active_perms; lia)) as L3.
  unfold users_init, users_load, perms_load, mbind, st_bind, gets, mret, st_ret. rewrite Hr. cbn [negb].
  rewrite E1, E2. cbn [fst snd Z.eqb]. rewrite Hr2. cbn [negb]. rewrite E3.
  unfold passwd_text, perms_text, group_text, lines_of, active_users, active_groups, active_perms in *.
  cbn [users groups perms set_users set_groups set_perms set_session zero_accounts fst snd current_uid current_gid logged_in].
  by rewrite L1, L2, L3.
Qed.

(** Thirty users with a long home directory, and eighty files in a deep
    directory with a mode of their own. *)
Definition deep_dir : cstr := bytes_of "/home/user/" ++ replicate 90 100 ++ [47].
Definition many_calls : list ucall :=
  ((fun i => UAdd (Some (117 :: dec i)) (Some []) (i + 2) 1 (Some (replicate 120 104)) None) <$> seqZ 0 30) ++
  ((fun i => PSet (Some (deep_dir ++ dec i)) 1 1 420) <$> seqZ 0 80).

(** The buffers of [users_save] and [perms_save] can overflow in normal use:
    there are calls with names and paths that fit, adding 30 users and setting
    the mode of 80 files, after which saving, to any filesystem and whatever
    the stack holds, goes beyond the buffer. *)
Theorem user_files_overflow : exists calls, Forall ucall_ok calls /\
  forall W (_ : KHeap W) (ops_of : fskind -> vfs_fs_ops W) (v : vfs (W := W)) stack stack2,
    vfs_has_root_mount v = true -> zlen stack = 4096 -> zlen stack2 = 8192 ->
    users_save ops_of stack (acc_run ops_of calls default_accounts v).1 v = None /\
    perms_save ops_of stack2 (acc_run ops_of calls default_accounts v).1 v = None.
Proof.
  exists many_calls. split.
  - apply Forall_app. split; apply Forall_fmap, Forall_forall; intros i Hi%elem_of_seqZ; pose proof (dec_length i ltac:(lia)); unfold compose; cbn [ucall_ok]; unfold short.
    + rewrite zlen_cons. unfold MAX_USERNAME_LEN. lia.
    + rewrite zlen_app. change (zlen deep_dir) with 102. unfold MAX_PERM_PATH. lia.
  - intros W HW ops_of v stack stack2 Hr Hs Hs2. set (a := (acc_run ops_of many_calls default_accounts v).1).
    assert (zlen (passwd_text a) = 4254 /\ zlen (perms_text a) = 9030) as [E1 E2] by (by vm_compute).
    clearbody a. destruct (users_save_post ops_of a v stack Hr Hs ltac:(lia)) as [_ H1], (perms_save_post ops_of a v stack2 Hr Hs2 ltac:(lia)) as [_ H2].
    split; [apply H1 | apply H2]; lia.
Qed.
