(* ===== verification/UsersDemo.v ===== *)
(** * Users and permissions: a concrete system

    The default accounts and a permission entry, saved to a tmpfs mounted at
    the root and loaded again. *)
From stdpp Require Import gmap.
From S2P Require Import Prelude Paths Heap Pmm PmmInit Slab HeapTrace Tmpfs TmpfsData TmpfsTree TmpfsOps TmpfsProps Printf Vfs VfsMount VfsTmpfs.
From S2P Require Import ExecCache ExecDemo Users UsersPerm UsersInv UsersFile UsersText UsersProps.
#[local] Open Scope Z_scope.

Abbreviation ram_vfs := (vfs (W := tworld kmem)).
Definition demo_fat32 : fat32_direct (tworld kmem) := mk_fat32 _ (fun _ _ w => (-5, w)) (fun _ w => (-5, w)) (fun _ _ w => (-5, w)) (fun _ _ w => (-5, w)).
Definition demo_v : ram_vfs := ram_boot sh_fs.
Definition demo_a : accounts := (perm_set (Some (bytes_of "/sh")) 1 1 0x1ED default_accounts).2.
Definition demo_stack : list Z := replicate (Z.to_nat 4096) 170.
Definition demo_stack2 : list Z := replicate (Z.to_nat 8192) 170.

Lemma demo_a_ok : accounts_ok demo_a.
Proof. apply perm_set_ok; [apply default_accounts_ok|]. by intros q [= <-]. Qed.

Lemma perm_table_refines_witness :
  perm_abs (perm_rename_tree (Some (bytes_of "/sh")) (Some (bytes_of "/bin")) demo_a) (bytes_of "/bin") = Some (1, 1, 0x1ED).
Proof.
  destruct (perm_table_refines demo_a (ao_perms _ demo_a_ok)) as (_ & _ & _ & _ & Hr).
  destruct (Hr (bytes_of "/sh") (bytes_of "/bin")) as [_ Hq]; [discriminate | discriminate |]. rewrite Hq. vm_compute. reflexivity.
Defined.

Lemma perm_check_access_spec_witness : perm_check_access (Some (bytes_of "/sh")) 1 1 7 demo_a = true /\
  perm_check_access (Some (bytes_of "/sh")) 2 2 2 demo_a = false.
Proof.
  split.
  - apply (perm_check_access_spec (bytes_of "/sh") 1 1 7 demo_a); [lia|]. right. vm_compute. reflexivity.
  - apply not_true_is_false. intros Hc. apply (perm_check_access_spec (bytes_of "/sh") 2 2 2 demo_a) in Hc; [|lia].
    destruct Hc as [Hc|Hc]; [discriminate Hc|]. vm_compute in Hc. discriminate Hc.
Defined.

Lemma demo_read {A B} (p : A * B) x : p.1 = x -> p = (x, p.2).
Proof. by destruct p; cbn; intros ->. Qed.

(** The entry is gone after the file was renamed to itself. *)
Definition self_v : ram_vfs := (vfs_rename ram_ops demo_fat32 (Some (bytes_of "/sh")) (Some (bytes_of "/sh")) demo_v).2.
Lemma vfs_perms_follow_witness : perm_abs demo_a (bytes_of "/sh") = Some (1, 1, 0x1ED) /\
  perm_abs (perm_notes (new_notes demo_v self_v) demo_a) (bytes_of "/sh") = None.
Proof.
  split; [vm_compute; reflexivity|].
  destruct (vfs_perms_follow ram_ops demo_fat32 demo_v self_v demo_a (ao_perms _ demo_a_ok)) as [Hr _].
  destruct (Hr (bytes_of "/sh") (bytes_of "/sh")) as (_ & _ & Hs); [discriminate | discriminate | |].
  - unfold self_v. apply demo_read. vm_compute. reflexivity.
  - rewrite (Hs eq_refl). vm_compute. reflexivity.
Defined.

Lemma accounts_sound_witness : accounts_ok (acc_run ram_ops [UAdd (Some (bytes_of "ann")) (Some (bytes_of "x")) 7 1 None None;
  URemove (Some root_name); GAddMember (Some (bytes_of "users")) 7; PSet (Some (bytes_of "/sh")) 7 1 0x1A4; PChmod (Some (bytes_of "/sh")) 0x1ED]
  default_accounts demo_v).1.
Proof. apply (accounts_sound ram_ops). repeat constructor. Defined.

(** ** Save and load *)

Definition saved_users : ram_vfs := default demo_v (snd <$> users_save ram_ops demo_stack demo_a demo_v).
Definition saved_v : ram_vfs := default demo_v (snd <$> perms_save ram_ops demo_stack2 demo_a saved_users).

Lemma user_files_save_witness : users_save ram_ops demo_stack demo_a demo_v =
  Some (0, (vfs_write_file ram_ops (Some GROUP) (group_text (groups demo_a)) (vfs_write_file ram_ops (Some PASSWD) (passwd_text demo_a) demo_v).2).2).
Proof.
  destruct (user_files_save ram_ops demo_a demo_v demo_stack demo_stack2) as [Hu _];
    [vm_compute; reflexivity | vm_compute; reflexivity | vm_compute; reflexivity | vm_compute; reflexivity | vm_compute; reflexivity |].
  apply Hu; vm_compute; reflexivity.
Defined.

Definition read1 : ram_vfs := (read_text ram_ops PASSWD 4095 saved_v).2.
Definition read2 : ram_vfs := (read_text ram_ops GROUP 4095 read1).2.

Lemma demo_users_plain : Forall user_plain (active_users demo_a).
Proof. let l := eval vm_compute in (active_users demo_a) in change (active_users demo_a) with l. repeat constructor; done. Qed.
Lemma demo_groups_plain : Forall group_plain (active_groups demo_a).
Proof. let l := eval vm_compute in (active_groups demo_a) in change (active_groups demo_a) with l. repeat constructor; done. Qed.
Lemma demo_perms_plain : Forall perm_plain (active_perms demo_a).
Proof. let l := eval vm_compute in (active_perms demo_a) in change (active_perms demo_a) with l. repeat constructor; done. Qed.

Definition demo_loaded : accounts :=
  mk_accounts (table zero_user MAX_USERS (evens (active_users demo_a))) (table zero_group MAX_GROUPS (evens (active_groups demo_a)))
    (table zero_perm MAX_PERM_ENTRIES (evens (active_perms demo_a))) UID_ROOT GID_ROOT true.

Lemma user_files_reload_witness : active_users (users_init ram_ops saved_v).1 = evens (active_users demo_a) /\
  u_name <$> active_users demo_a = [bytes_of "root"; bytes_of "user"] /\ u_name <$> evens (active_users demo_a) = [bytes_of "root"].
Proof.
  split; [|split; vm_compute; reflexivity].
  assert (users_init ram_ops saved_v = (demo_loaded, (read_text ram_ops PERMS_DB 8191 read2).2)) as E.
  2: { apply (f_equal (fun r => active_users r.1)) in E. etransitivity; [exact E|]. vm_compute. reflexivity. }
  unfold demo_loaded. apply (user_files_reload ram_ops demo_a saved_v read1 read2).
  - vm_compute; reflexivity.
  - vm_compute; reflexivity.
  - vm_compute; reflexivity.
  - exact demo_users_plain.
  - exact demo_groups_plain.
  - exact demo_perms_plain.
  - vm_compute; reflexivity.
  - vm_compute; reflexivity.
  - unfold read1. apply demo_read. vm_compute; reflexivity.
  - unfold read2. apply demo_read. vm_compute; reflexivity.
  - apply demo_read. vm_compute; reflexivity.
Defined.
