(* ===== verification/TcpRanges.v ===== *)
(** * TCP: ranges of sequence numbers

    The out-of-order list of src/net_tcp.c compares 32-bit sequence numbers by
    the sign of their difference.  Here the same routines are stated on stream
    positions, which do not wrap; they compute the union of the ranges as a
    sorted list without touching neighbours, and within half of the sequence
    space the routines of the source compute the same. *)
From stdpp Require Import sorting.
From S2P Require Import Prelude TcpRecv.

(** The reference: the routines on plain integers. *)
Definition push_range (range : Z * Z) (acc : list (Z * Z)) : list (Z * Z) :=
  match acc with
  | (ps, pe) :: rest =>
      if range.1 <=? pe then (if pe <? range.2 then (ps, range.2) :: rest else acc) else range :: acc
  | [] => [range]
  end.
Fixpoint place_range (new : Z * Z) (held : list (Z * Z)) (placed : bool) (acc : list (Z * Z)) : list (Z * Z) :=
  match held with
  | range :: held =>
      if negb placed && (new.1 <? range.1)
      then place_range new held true (push_range range (new :: acc))
      else place_range new held placed (push_range range acc)
  | [] => if placed then acc else push_range new acc
  end.
Definition coalesce (acc : list (Z * Z)) : list (Z * Z) := foldl (fun acc range => push_range range acc) [] (reverse acc).

(** A position is covered by a list of ranges. *)
Definition cover (l : list (Z * Z)) (p : Z) : Prop := Exists (fun r => r.1 <= p < r.2) l.

(** Newest first: by decreasing start, and with gaps in between. *)
Definition by_start : list (Z * Z) -> Prop := Sorted (fun r1 r2 => r2.1 <= r1.1).
Definition apart : list (Z * Z) -> Prop := Sorted (fun r1 r2 => r2.2 < r1.1).
Definition nonempty : list (Z * Z) -> Prop := Forall (fun r => r.1 < r.2).

Lemma cover_cons r l p : cover (r :: l) p <-> r.1 <= p < r.2 \/ cover l p.
Proof. apply Exists_cons. Qed.
Lemma cover_nil p : cover [] p <-> False.
Proof. apply Exists_nil. Qed.
Lemma cover_app l1 l2 p : cover (l1 ++ l2) p <-> cover l1 p \/ cover l2 p.
Proof. apply Exists_app. Qed.
Lemma cover_reverse l p : cover (reverse l) p <-> cover l p.
Proof. unfold cover. by rewrite !Exists_exists; setoid_rewrite elem_of_reverse. Qed.

Lemma apart_by_start l : nonempty l -> apart l -> by_start l.
Proof.
  intros Hn Hs. induction Hs as [|r l Hs IH Hd]; [constructor|].
  apply Forall_cons in Hn as [Hr Hn]. constructor; [by apply IH|].
  destruct Hd as [|r2 l Hd]; constructor. apply Forall_cons in Hn as [? _]. lia.
Qed.

(** The last range of the accumulator starts no later than [s]. *)
Definition starts_before (s : Z) (acc : list (Z * Z)) : Prop := match acc with [] => True | r :: _ => r.1 <= s end.

Lemma push_range_cover r acc p :
  nonempty acc -> r.1 < r.2 -> starts_before r.1 acc -> cover (push_range r acc) p <-> cover acc p \/ r.1 <= p < r.2.
Proof.
  intros Hn Hr Hs. destruct acc as [|[ps pe] acc]; cbn in *.
  - rewrite cover_cons, cover_nil. tauto.
  - apply Forall_cons in Hn as [Hp _]; cbn in Hp.
    repeat case_if; bool_hyps; rewrite !cover_cons; cbn; intuition lia.
Qed.

Lemma push_range_nonempty r acc : nonempty acc -> r.1 < r.2 -> nonempty (push_range r acc).
Proof.
  intros Hn Hr. destruct acc as [|[ps pe] acc]; cbn; [by repeat constructor|].
  pose proof Hn as Hn'. apply Forall_cons in Hn' as [Hp Hn']; cbn in Hp.
  repeat case_if; bool_hyps; try done; constructor; cbn; done || lia.
Qed.

Lemma push_range_starts r acc s : starts_before s acc -> r.1 <= s -> starts_before s (push_range r acc).
Proof. destruct acc as [|[ps pe] acc]; cbn; intros; repeat case_if; cbn; lia. Qed.

Lemma push_range_by_start r acc : by_start acc -> starts_before r.1 acc -> by_start (push_range r acc).
Proof.
  intros Hb Hs. destruct acc as [|[ps pe] acc]; cbn in *; [by repeat constructor|].
  repeat case_if; try done; [|by constructor; [|constructor]].
  apply Sorted_inv in Hb as [Hb Hd]. constructor; [done|].
  destruct Hd as [|r2 l Hd]; by constructor.
Qed.

Lemma push_range_apart r acc : apart acc -> apart (push_range r acc).
Proof.
  intros Ha. destruct acc as [|[ps pe] acc]; cbn in *; [by repeat constructor|].
  repeat case_if; bool_hyps; try done; [|by constructor; [|constructor]].
  apply Sorted_inv in Ha as [Ha Hd]. constructor; [done|].
  destruct Hd as [|r2 l Hd]; by constructor.
Qed.

Lemma push_range_len r acc : zlen acc <= zlen (push_range r acc) <= zlen acc + 1.
Proof. destruct acc as [|[ps pe] acc]; cbn; repeat case_if; rewrite ?zlen_cons; lia. Qed.

(** Ascending lists: the held ranges in the order of the array. *)
Definition ascending : list (Z * Z) -> Prop := Sorted (fun r1 r2 => r1.1 <= r2.1).

Lemma place_range_spec new held placed acc :
  nonempty acc -> nonempty held -> new.1 < new.2 -> by_start acc -> ascending held ->
  Forall (fun r => starts_before r.1 acc) held -> (placed = false -> starts_before new.1 acc) ->
  nonempty (place_range new held placed acc) /\ by_start (place_range new held placed acc) /\
  forall p, cover (place_range new held placed acc) p <->
    cover acc p \/ cover held p \/ (placed = false /\ new.1 <= p < new.2).
Proof.
  intros Hna Hnh Hnew. revert placed acc Hna. induction Hnh as [|r held Hr Hnh IH]; intros placed acc Hna Hb Hasc Hst Hpl.
  - cbn. destruct placed.
    + split_and!; [done..|]. intros p. rewrite cover_nil. intuition congruence.
    + specialize (Hpl eq_refl). split_and!; [by apply push_range_nonempty | by apply push_range_by_start |].
      intros p. rewrite push_range_cover, cover_nil by done. intuition.
  - apply Sorted_StronglySorted in Hasc as Hss; [|intros ???; lia].
    apply StronglySorted_inv in Hss as [_ Hall]. apply Sorted_inv in Hasc as [Hasc _].
    apply Forall_cons in Hst as [Hs Hst]. cbn [place_range]. case_if; bool_hyps.
    + destruct placed; [done|]. specialize (Hpl eq_refl).
      assert (nonempty (new :: acc)) by by constructor.
      assert (by_start (new :: acc)) by (constructor; [done | destruct acc; by constructor]).
      destruct (IH true (push_range r (new :: acc))) as (Hn1 & Hb1 & Hc1).
      { by apply push_range_nonempty. } { apply push_range_by_start; [done | cbn; lia]. } { done. }
      { eapply Forall_impl; [exact Hall|]. intros r' Hr'. apply push_range_starts; cbn in *; lia. } { done. }
      split_and!; [done..|]. intros p. rewrite Hc1, push_range_cover by (done || cbn; lia). rewrite !cover_cons. intuition.
    + destruct (IH placed (push_range r acc)) as (Hn1 & Hb1 & Hc1).
      { by apply push_range_nonempty. } { by apply push_range_by_start. } { done. }
      { eapply Forall_impl; [apply Forall_and; exact (conj Hall Hst)|].
        intros r' [Hr' Hr'']. apply push_range_starts; done. }
      { intros ->. apply push_range_starts; [by apply Hpl|]. cbn in *. lia. }
      split_and!; [done..|]. intros p. rewrite Hc1, push_range_cover by done. rewrite !cover_cons. intuition.
Qed.

(** At most one range more than before: the arrays of the source, with room
    for one more than the list holds, are not overrun. *)
Lemma place_range_len new held placed acc :
  zlen (place_range new held placed acc) <= zlen acc + zlen held + (if placed then 0 else 1).
Proof.
  revert placed acc. induction held as [|r held IH]; intros placed acc; cbn [place_range].
  - pose proof (push_range_len new acc). destruct placed; change (zlen []) with 0; lia.
  - rewrite zlen_cons. case_if; bool_hyps.
    + destruct placed; [done|]. pose proof (IH true (push_range r (new :: acc))).
      pose proof (push_range_len r (new :: acc)) as Hp. rewrite zlen_cons in Hp. cbn in *. lia.
    + pose proof (IH placed (push_range r acc)). pose proof (push_range_len r acc). lia.
Qed.

(** Pushing an ascending list closes its gaps. *)
Lemma push_all_spec l acc :
  nonempty l -> ascending l -> nonempty acc -> apart acc -> Forall (fun r => starts_before r.1 acc) l ->
  let c := foldl (fun acc range => push_range range acc) acc l in
  nonempty c /\ apart c /\ forall p, cover c p <-> cover acc p \/ cover l p.
Proof.
  intros Hn. revert acc. induction Hn as [|r l Hr Hn IH]; intros acc Hasc Hna Hap Hst; cbn zeta.
  - split_and!; [done..|]. intros p. cbn. rewrite cover_nil. tauto.
  - apply Sorted_StronglySorted in Hasc as Hss; [|intros ???; lia].
    apply StronglySorted_inv in Hss as [_ Hall]. apply Sorted_inv in Hasc as [Hasc _].
    apply Forall_cons in Hst as [Hs Hst]. cbn [foldl].
    destruct (IH (push_range r acc)) as (Hn1 & Ha1 & Hc1); [done|by apply push_range_nonempty|by apply push_range_apart| |].
    { eapply Forall_impl; [apply Forall_and; exact (conj Hall Hst)|].
      intros r' [Hr' Hr'']. apply push_range_starts; done. }
    split_and!; [done..|]. intros p. rewrite Hc1, push_range_cover by done. rewrite cover_cons. tauto.
Qed.

Lemma by_start_reverse l : by_start l -> ascending (reverse l).
Proof. apply Sorted_reverse. Qed.

(** Ranges in ascending order with gaps. *)
Definition asc_apart : list (Z * Z) -> Prop := StronglySorted (fun r1 r2 => r1.2 < r2.1).

Lemma apart_asc held : nonempty held -> apart (reverse held) -> asc_apart held.
Proof.
  intros Hn Ha%Sorted_reverse. rewrite reverse_involutive in Ha.
  revert Hn. induction Ha as [|r l Ha IH Hd]; intros Hn; [constructor|].
  apply Forall_cons in Hn as [Hr Hn]. specialize (IH Hn). constructor; [done|].
  destruct Hd as [|r2 l Hd]; [done|]. cbn in Hd. apply Forall_cons in Hn as [Hr2 _].
  apply StronglySorted_inv in IH as [_ IH]. constructor; [done|].
  eapply Forall_impl; [exact IH|]. cbn. intros; lia.
Qed.

Lemma asc_apart_beyond a r l : asc_apart (r :: l) -> nonempty (r :: l) -> a < r.1 -> Forall (fun x => a < x.1) (r :: l).
Proof.
  intros [_ Hs]%StronglySorted_inv Hn Ha. apply Forall_cons in Hn as [Hr Hn]. constructor; [done|].
  eapply Forall_impl; [exact Hs|]. cbn. intros; lia.
Qed.

Lemma asc_apart_ascending l : nonempty l -> asc_apart l -> ascending l.
Proof.
  intros Hn Hs%StronglySorted_Sorted. induction Hs as [|r l Hs IH Hd]; [constructor|].
  apply Forall_cons in Hn as [Hr Hn]. constructor; [by apply IH|].
  destruct Hd as [|r2 l Hd]; constructor. lia.
Qed.

(** The two passes give the union, with gaps between the ranges. *)
Lemma union_ranges new held :
  nonempty held -> asc_apart held -> new.1 < new.2 ->
  let u := coalesce (place_range new held false []) in
  nonempty u /\ asc_apart (reverse u) /\ forall p, cover u p <-> cover held p \/ new.1 <= p < new.2.
Proof.
  intros Hn Ha Hnew. cbn zeta.
  destruct (place_range_spec new held false []) as (Hn1 & Hb1 & Hc1); try done; try by constructor.
  { by apply asc_apart_ascending. }
  { by apply Forall_true. }
  destruct (push_all_spec (reverse (place_range new held false [])) []) as (Hn2 & Ha2 & Hc2).
  { by apply Forall_reverse. } { by apply by_start_reverse. } { constructor. } { constructor. } { by apply Forall_true. }
  split_and!; [done | apply apart_asc; [by apply Forall_reverse | by rewrite reverse_involutive] |].
  intros p. unfold coalesce. rewrite Hc2, cover_reverse, Hc1, !cover_nil. tauto.
Qed.

(** ** Sequence numbers

    Position [x] of a stream that starts at sequence number [irs]. *)
Definition seq_of (irs x : Z) : Z := u32 (irs + x).
Definition seq_range (irs : Z) (r : Z * Z) : Z * Z := (seq_of irs r.1, seq_of irs r.2).

Lemma seq_diff irs x y : - 2 ^ 31 <= x - y < 2 ^ 31 -> s32 (seq_of irs x - seq_of irs y) = x - y.
Proof.
  intros Hd. unfold seq_of, s32, u32.
  replace ((irs + x) mod 2 ^ 32 - (irs + y) mod 2 ^ 32 + 2 ^ 31) with
    ((irs + x) mod 2 ^ 32 - ((irs + y) mod 2 ^ 32 - 2 ^ 31)) by lia.
  rewrite Zminus_mod_idemp_l.
  replace (irs + x - ((irs + y) mod 2 ^ 32 - 2 ^ 31)) with (irs + x + 2 ^ 31 - (irs + y) mod 2 ^ 32) by lia.
  rewrite Zminus_mod_idemp_r, Z.mod_small; lia.
Qed.
Lemma seq_of_add irs x n : u32 (seq_of irs x + n) = seq_of irs (x + n).
Proof. unfold seq_of. rewrite u32_add_l. f_equal. lia. Qed.
Lemma seq_sub irs x y : 0 <= x - y < 2 ^ 32 -> u32 (seq_of irs x - seq_of irs y) = x - y.
Proof.
  intros Hd. unfold seq_of, u32. rewrite Zminus_mod_idemp_l, Zminus_mod_idemp_r, Z.mod_small; lia.
Qed.

(** All ends within half of the sequence space from [lo] on. *)
Definition within (lo : Z) : list (Z * Z) -> Prop :=
  Forall (fun r => lo <= r.1 < lo + 2 ^ 31 /\ lo <= r.2 < lo + 2 ^ 31).

Lemma ooo_push_seq irs lo r acc :
  within lo [r] -> within lo acc ->
  ooo_push (seq_range irs r) (seq_range irs <$> acc) = seq_range irs <$> push_range r acc /\ within lo (push_range r acc).
Proof.
  intros [[Hr1 Hr2] _]%Forall_cons Hw. destruct acc as [|[ps pe] acc]; cbn.
  { split; [done|]. by constructor. }
  pose proof Hw as Hw'. apply Forall_cons in Hw' as [[Hp1 Hp2] Hw']; cbn in Hp1, Hp2.
  rewrite !seq_diff by lia.
  destruct (r.1 <=? pe) eqn:E1; [rewrite (proj2 (Z.leb_le _ _)) | rewrite (proj2 (Z.leb_gt _ _))]; bool_hyps; try lia.
  - destruct (pe <? r.2) eqn:E2; [rewrite (proj2 (Z.ltb_lt _ _)) | rewrite (proj2 (Z.ltb_ge _ _))]; bool_hyps; try lia; [|done].
    split; [done|]. by constructor.
  - split; [done|]. by constructor.
Qed.

Lemma ooo_place_seq irs lo s e held placed acc :
  within lo [(s, e)] -> within lo held -> within lo acc ->
  ooo_place (seq_of irs s) (seq_of irs e) (seq_range irs <$> held) placed (seq_range irs <$> acc) =
  seq_range irs <$> place_range (s, e) held placed acc /\ within lo (place_range (s, e) held placed acc).
Proof.
  intros Hn Hh. revert placed acc. induction Hh as [|[x y] held Hr Hh IH]; intros placed acc Hw.
  { destruct placed; [done|]. by apply (ooo_push_seq irs lo (s, e)). }
  assert (within lo [(x, y)]) as Hr1 by by constructor. cbn in Hr.
  pose proof Hn as [[Hn1 _] _]%Forall_cons; cbn in Hn1.
  rewrite fmap_cons. change (seq_range irs (x, y)) with (seq_of irs x, seq_of irs y). cbn [ooo_place place_range fst].
  rewrite seq_diff by lia.
  replace (s - x <? 0) with (s <? x) by (destruct (s <? x) eqn:E; bool_hyps; symmetry; [apply Z.ltb_lt | apply Z.ltb_ge]; lia).
  case_if.
  - assert (within lo ((s, e) :: acc)) as Hw' by (constructor; [by apply Forall_cons in Hn as [? _] | done]).
    destruct (ooo_push_seq irs lo (x, y) ((s, e) :: acc) Hr1 Hw') as [E Hw2]. rewrite fmap_cons in E.
    unfold seq_range at 1 2 in E. cbn [fst snd] in E. rewrite E. by apply IH.
  - destruct (ooo_push_seq irs lo (x, y) acc Hr1 Hw) as [E Hw2]. unfold seq_range at 1 in E. cbn [fst snd] in E.
    rewrite E. by apply IH.
Qed.

Lemma ooo_coalesce_seq irs lo l :
  within lo l -> ooo_coalesce (seq_range irs <$> l) = seq_range irs <$> coalesce l /\ within lo (coalesce l).
Proof.
  intros Hw%Forall_reverse. unfold ooo_coalesce, coalesce. rewrite <- fmap_reverse.
  enough (forall l acc, within lo l -> within lo acc ->
    foldl (fun acc range => ooo_push range acc) (seq_range irs <$> acc) (seq_range irs <$> l) =
    seq_range irs <$> foldl (fun acc range => push_range range acc) acc l /\
    within lo (foldl (fun acc range => push_range range acc) acc l)) as Hg by (apply (Hg _ []); by try constructor).
  clear. induction l as [|r l IH]; intros acc Hl Ha; [done|].
  apply Forall_cons in Hl as [Hr Hl]. rewrite fmap_cons. cbn [foldl].
  destruct (ooo_push_seq irs lo r acc) as [-> Hw]; [by constructor | done |]. by apply IH.
Qed.
