(* ===== verification/TcpWindow.v ===== *)
(** * TCP: the receive window

    The ring and the held ranges against the peer's stream: [rcv_ok] relates
    them to stream positions, and each operation of TcpRecv.v keeps it. *)
From stdpp Require Import sorting.
From S2P Require Import Prelude TcpRecv TcpRanges.

(** [n] bytes of the stream [str] from position [i] on. *)
Definition slice (str : Z -> Z) (i n : Z) : list Z := str <$> seqZ i n.

Lemma zlen_slice str i n : 0 <= n -> zlen (slice str i n) = n.
Proof. intros. unfold zlen, slice. rewrite length_fmap, length_seqZ. lia. Qed.
Lemma zget_slice str i n k : 0 <= k < n -> zget (slice str i n) k = str (i + k).
Proof.
  intros Hk. apply zget_lookup. unfold slice. rewrite list_lookup_fmap, lookup_seqZ_lt by lia.
  cbn. do 2 f_equal. lia.
Qed.
Lemma slice_app str i n m : 0 <= n -> 0 <= m -> slice str i (n + m) = slice str i n ++ slice str (i + n) m.
Proof. intros. unfold slice. by rewrite seqZ_app, fmap_app by lia. Qed.
Lemma ztake_slice str i n k : 0 <= k <= n -> ztake k (slice str i n) = slice str i k.
Proof.
  intros. replace n with (k + (n - k)) by lia. rewrite slice_app by lia.
  rewrite <- (zlen_slice str i k) at 1 by lia. apply ztake_app_len.
Qed.
Lemma zdrop_slice str i n k : 0 <= k <= n -> zdrop k (slice str i n) = slice str (i + k) (n - k).
Proof.
  intros. replace n with (k + (n - k)) at 1 by lia. rewrite slice_app by lia.
  rewrite <- (zlen_slice str i k) at 1 by lia. apply zdrop_app_len.
Qed.

(** ** The two copies into the ring *)

Lemma ring_put_spec bytes size pos data :
  zlen bytes = size -> 0 < size < 2 ^ 31 -> 0 <= pos < size -> zlen data <= size ->
  zlen (ring_put bytes size pos data) = size /\
  forall j, 0 <= j < size ->
    zget (ring_put bytes size pos data) j =
    let i := (j - pos) mod size in if i <? zlen data then zget data i else zget bytes j.
Proof.
  intros Hl Hs Hp Hd. pose proof (zlen_nonneg data). unfold ring_put. rewrite !u32_small by lia.
  set (first := if zlen data <? size - pos then zlen data else size - pos).
  assert (0 <= first <= zlen data /\ first <= size - pos /\ (first < zlen data -> first = size - pos)) as (Hf & Hf2 & Hf3)
    by (unfold first; case_if; bool_hyps; lia).
  assert (zlen (ztake first data) = first) as Ht by (rewrite zlen_ztake; lia).
  assert (zlen (splice bytes pos (ztake first data)) = size) as Hl1 by (rewrite zlen_splice; lia).
  assert (forall j, 0 <= j < size -> (j - pos) mod size = if j <? pos then j - pos + size else j - pos) as Hmod.
  { intros j Hj. case_if; bool_hyps; [|apply Z.mod_small; lia].
    rewrite <- (Z.mod_add _ 1) by lia. rewrite Z.mod_small; lia. }
  destruct (first <? zlen data) eqn:E; bool_hyps.
  - specialize (Hf3 E). assert (zlen (zdrop first data) = zlen data - first) as Hz by (rewrite zlen_zdrop; lia).
    split; [rewrite zlen_splice; lia|]. intros j Hj. rewrite zget_splice, zget_splice by lia. cbn zeta. rewrite (Hmod j Hj), Hz, Ht.
    repeat case_if; bool_hyps; try lia; rewrite ?zget_zdrop, ?zget_ztake by lia; try done; f_equal; lia.
  - split; [done|]. intros j Hj. rewrite zget_splice by lia. cbn zeta. rewrite (Hmod j Hj), Ht.
    repeat case_if; bool_hyps; try lia; rewrite ?zget_ztake by lia; try done; f_equal; lia.
Qed.

(** ** The invariant

    [a] is the position of the next byte in order ([ack_num]), [held] the ranges
    beyond it.  The cell of a position does not change while bytes are appended
    or read. *)
Definition cell (r : rcv_t) (a p : Z) : Z :=
  zget (recv_bytes r) ((recv_head r + recv_buffer_used r + (p - a)) mod recv_buffer_size r).

(** The first position that does not fit into the ring any more. *)
Definition window_end (r : rcv_t) (a : Z) : Z := a + recv_buffer_size r - recv_buffer_used r.

Record rcv_ok (str : Z -> Z) (irs a : Z) (held : list (Z * Z)) (r : rcv_t) : Prop := {
  ro_buffer : recv_buffer r <> 0;
  ro_size : zlen (recv_bytes r) = recv_buffer_size r;
  ro_range : 0 < recv_buffer_size r < 2 ^ 30;
  ro_used : 0 <= recv_buffer_used r <= recv_buffer_size r;
  ro_start : recv_buffer_used r <= a;
  ro_head : 0 <= recv_head r < recv_buffer_size r;
  ro_ack : ack_num r = seq_of irs a;
  ro_ooo : ooo r = seq_range irs <$> held;
  ro_nonempty : nonempty held;
  ro_window : Forall (fun x => x.2 <= window_end r a) held;
  ro_data p : a - recv_buffer_used r <= p < a \/ a <= p /\ cover held p -> cell r a p = str p;
}.

(** While the connection is established the held ranges lie beyond a gap, in
    order, and there are at most eight. *)
Record gaps (a : Z) (held : list (Z * Z)) : Prop := {
  ga_beyond : Forall (fun x => a < x.1) held;
  ga_apart : asc_apart held;
  ga_max : zlen held <= TCP_OOO_MAX;
}.

Lemma cover_bound held e p : Forall (fun x => x.2 <= e) held -> cover held p -> p < e.
Proof. intros Hf Hc. unfold cover in Hc. induction Hc; apply Forall_cons in Hf as [? ?]; [lia | auto]. Qed.
Lemma cover_from held a p : Forall (fun x => a < x.1) held -> cover held p -> a < p.
Proof. intros Hf Hc. unfold cover in Hc. induction Hc; apply Forall_cons in Hf as [? ?]; [lia | auto]. Qed.

(** Bytes of the stream written where they belong. *)
Lemma put_cell str irs a held r q n bytes :
  rcv_ok str irs a held r -> a <= q -> 0 <= n -> q + n <= window_end r a ->
  bytes = ring_put (recv_bytes r) (recv_buffer_size r)
            ((recv_head r + recv_buffer_used r + (q - a)) mod recv_buffer_size r) (slice str q n) ->
  zlen bytes = recv_buffer_size r /\
  forall p, a - recv_buffer_used r <= p < window_end r a ->
    zget bytes ((recv_head r + recv_buffer_used r + (p - a)) mod recv_buffer_size r) =
    if decide (q <= p < q + n) then str p else cell r a p.
Proof.
  intros Hok Hq Hn Hw ->. pose proof (ro_range _ _ _ _ _ Hok) as Hs. pose proof (ro_used _ _ _ _ _ Hok).
  unfold window_end in *. set (size := recv_buffer_size r) in *. set (hu := recv_head r + recv_buffer_used r).
  destruct (ring_put_spec (recv_bytes r) size ((hu + (q - a)) mod size) (slice str q n)) as [Hl Hg].
  { apply Hok. } { lia. } { apply Z.mod_pos_bound. lia. } { rewrite zlen_slice; lia. }
  split; [done|]. intros p Hp. rewrite Hg by (apply Z.mod_pos_bound; lia). cbn zeta. rewrite zlen_slice by lia.
  replace (((hu + (p - a)) mod size - (hu + (q - a)) mod size) mod size) with ((p - q) mod size)
    by (rewrite <- Zminus_mod; f_equal; lia).
  case_decide.
  - rewrite Z.mod_small, (proj2 (Z.ltb_lt _ _)), zget_slice by lia. f_equal. lia.
  - rewrite (proj2 (Z.ltb_ge _ _)); [done|].
    destruct (decide (q <= p)); [rewrite Z.mod_small; lia|].
    rewrite <- (Z.mod_add _ 1) by lia. rewrite Z.mod_small; lia.
Qed.

(** ** In-order data *)

Lemma handle_data_ok str irs a held r len :
  rcv_ok str irs a held r -> 0 <= len < 2 ^ 31 ->
  let k := Z.min len (recv_buffer_size r - recv_buffer_used r) in
  exists r', tcp_handle_data (slice str a len) r = (k, r') /\
    ack_num r' = ack_num r /\ rcv_ok str irs (a + k) held (set_ack_num (seq_of irs (a + k)) r') /\
    recv_buffer_size r' = recv_buffer_size r /\ recv_buffer_used r' = recv_buffer_used r + k.
Proof.
  intros Hok Hlen k. pose proof Hok as [Hb Hz Hs Hu Hst Hh Hack Hooo Hne Hwin Hdata].
  unfold tcp_handle_data. rewrite zlen_slice by lia. rewrite (proj2 (Z.eqb_neq _ _) Hb). cbn [orb].
  assert (0 <= k <= len /\ k <= recv_buffer_size r - recv_buffer_used r) as [Hk1 Hk2] by lia.
  assert (k = 0 -> rcv_ok str irs (a + k) held (set_ack_num (seq_of irs (a + k)) r)) as Hzero.
  { intros ->. rewrite Z.add_0_r, <- Hack. by destruct r. }
  destruct (Z.eqb_spec len 0) as [->|Hl0].
  { assert (k = 0) as Ek by lia. exists r. split_and!; [by rewrite Ek | done | by apply Hzero | done | lia]. }
  rewrite !u32_small by lia. replace (if len <? _ then _ else _) with k by (unfold k; case_if; bool_hyps; lia).
  case_if; bool_hyps.
  2:{ exists r. split_and!; try done; [apply Hzero; lia | lia]. }
  rewrite ztake_slice by lia. eexists. split; [done|]. split; [done|].
  destruct (put_cell str irs a held r a k _ Hok ltac:(lia) ltac:(lia) ltac:(unfold window_end; lia) eq_refl) as [Hl Hg].
  rewrite Z.sub_diag, Z.add_0_r in Hl, Hg. cbn -[u32]. rewrite u32_small by lia. split_and!; try done.
  constructor; cbn; try done; try lia.
  - eapply Forall_impl; [exact Hwin|]. unfold window_end. cbn. intros; lia.
  - intros p Hp. unfold cell; cbn.
    assert (a - recv_buffer_used r <= p < window_end r a).
    { destruct Hp as [Hp|[Hp Hc]]; [unfold window_end; lia|]. pose proof (cover_bound _ _ _ Hwin Hc). lia. }
    replace (recv_head r + (recv_buffer_used r + k) + (p - (a + k))) with (recv_head r + recv_buffer_used r + (p - a)) by lia.
    rewrite Hg by done. case_decide; [done|]. apply Hdata. lia || (destruct Hp as [Hp|[Hp Hc]]; [left; lia | right; by split; [lia|]]).
Qed.

(** ** Reading *)

(** The two copies out of the ring. *)
Lemma ring_read_bytes str irs a held r n :
  rcv_ok str irs a held r -> 0 <= n <= recv_buffer_used r ->
  let size := recv_buffer_size r in
  let first := if n <? size -32 recv_head r then n else size -32 recv_head r in
  ztake first (zdrop (recv_head r) (recv_bytes r)) ++ (if first <? n then ztake (n -32 first) (recv_bytes r) else []) =
  slice str (a - recv_buffer_used r) n.
Proof.
  intros Hok Hn size first. pose proof Hok as [Hb Hz Hs Hu Hst Hh Hack Hooo Hne Hwin Hdata].
  assert (first = Z.min n (size - recv_head r)) as Ef by (unfold first, size; rewrite u32_small by lia; case_if; bool_hyps; lia).
  clearbody first. subst size. set (size := recv_buffer_size r) in *.
  assert (zlen (ztake first (zdrop (recv_head r) (recv_bytes r))) = first) as Hl1
    by (rewrite zlen_ztake, zlen_zdrop; lia).
  assert (zlen (if first <? n then ztake (n -32 first) (recv_bytes r) else []) = n - first) as Hl2.
  { case_if; bool_hyps; [rewrite zlen_ztake, u32_small by (rewrite ?u32_small; lia); lia | change (zlen []) with 0; lia]. }
  apply zlist_eq; [rewrite zlen_app, zlen_slice; lia|]. rewrite zlen_app, Hl1, Hl2. intros i Hi.
  rewrite zget_slice by lia.
  assert (zget (recv_bytes r) ((recv_head r + i) mod size) = str (a - recv_buffer_used r + i)) as <-.
  { rewrite <- Hdata by lia. unfold cell. fold size. do 2 f_equal. lia. }
  destruct (decide (i < first)).
  - rewrite zget_app_l, zget_ztake, zget_zdrop by lia. rewrite Z.mod_small by lia. done.
  - rewrite zget_app_r, Hl1 by lia. rewrite (proj2 (Z.ltb_lt _ _)), zget_ztake by (rewrite ?u32_small; lia).
    f_equal. rewrite <- (Z.mod_add _ (-1)) by lia. rewrite Z.mod_small; lia.
Qed.

Lemma ring_read_ok str irs a held r len :
  rcv_ok str irs a held r -> 0 <= len ->
  let n := Z.min (recv_buffer_used r) len in
  exists r', tcp_ring_read_locked len r = (slice str (a - recv_buffer_used r) n, r') /\
    rcv_ok str irs a held r' /\ recv_buffer_used r' = recv_buffer_used r - n /\
    recv_buffer_size r' = recv_buffer_size r.
Proof.
  intros Hok Hlen n. pose proof Hok as [Hb Hz Hs Hu Hst Hh Hack Hooo Hne Hwin Hdata]. unfold tcp_ring_read_locked.
  replace (if _ <? len then _ else _) with n by (unfold n; case_if; bool_hyps; lia).
  destruct (Z.eqb_spec n 0) as [->|Hn0]; [exists r; split_and!; try done; lia|].
  cbn zeta. rewrite (ring_read_bytes str irs a held r n Hok) by lia.
  eexists. split; [done|]. cbn -[u32]. rewrite !u32_small by lia. split_and!; try done.
  pose proof (Z.mod_pos_bound (recv_head r + n) (recv_buffer_size r)).
  constructor; cbn; try done; try lia.
  - case_if; lia.
  - eapply Forall_impl; [exact Hwin|]. unfold window_end. cbn. intros; lia.
  - intros p Hp. unfold cell; cbn. case_if; bool_hyps.
    + assert (held = []) as ->.
      { destruct held; [done|]. unfold ooo_n in *. rewrite Hooo, fmap_cons, zlen_cons in *.
        pose proof (zlen_nonneg (seq_range irs <$> held)). lia. }
      rewrite cover_nil in Hp. lia.
    + rewrite <- Hdata by (destruct Hp as [Hp|Hp]; [left; lia | by right]).
      unfold cell. rewrite <- Z.add_assoc, Z.add_mod_idemp_l by lia. do 2 f_equal. lia.
Qed.

(** ** Data beyond a gap *)

(** The held ranges afterwards: the part inside the window is added, unless
    there would be more than [TCP_OOO_MAX] of them. *)
Definition hold (q n : Z) (held : list (Z * Z)) : list (Z * Z) :=
  let u := reverse (coalesce (place_range (q, q + n) held false [])) in
  if TCP_OOO_MAX <? zlen u then held else u.

Lemma hold_spec q n held :
  nonempty held -> asc_apart held -> 0 < n ->
  let h := hold q n held in
  nonempty h /\ asc_apart h /\ (zlen held <= TCP_OOO_MAX -> zlen h <= TCP_OOO_MAX) /\
  (h = held \/ forall p, cover h p <-> cover held p \/ q <= p < q + n).
Proof.
  intros Hne Hap Hn. destruct (union_ranges (q, q + n) held) as (Hn1 & Ha1 & Hc1); [done | done | cbn; lia |].
  unfold hold. cbn zeta. case_if; bool_hyps; [by split_and!; try left|].
  split_and!; try done; [by apply Forall_reverse |].
  right. intros p. rewrite cover_reverse. apply Hc1.
Qed.

Lemma cover_bound_inv h e : nonempty h -> (forall p, cover h p -> p < e) -> Forall (fun x => x.2 <= e) h.
Proof.
  intros Hn Hc. unfold nonempty in Hn. rewrite Forall_forall in *. intros x Hx. specialize (Hn x Hx).
  assert (x.2 - 1 < e); [|lia]. apply Hc, Exists_exists. exists x. split; [done | lia].
Qed.
Lemma cover_from_inv h a : nonempty h -> (forall p, cover h p -> a < p) -> Forall (fun x => a < x.1) h.
Proof.
  intros Hn Hc. unfold nonempty in Hn. rewrite Forall_forall in *. intros x Hx. specialize (Hn x Hx).
  apply Hc, Exists_exists. exists x. split; [done | lia].
Qed.
Lemma gaps_within held a e :
  nonempty held -> Forall (fun x => a < x.1) held -> Forall (fun x => x.2 <= e) held -> e < a + 2 ^ 31 -> within a held.
Proof.
  intros Hn Hb He Hlt. unfold within, nonempty in *. rewrite !Forall_forall in *. intros x Hx.
  specialize (Hn x Hx). specialize (Hb x Hx). specialize (He x Hx). lia.
Qed.

(** The lists of the source are the reference ones, as sequence numbers. *)
Lemma ooo_union_seq irs a e held q n :
  nonempty held -> Forall (fun x => a < x.1) held -> Forall (fun x => x.2 <= e) held -> e < a + 2 ^ 31 ->
  a < q -> 0 <= n -> q + n <= e ->
  ooo_coalesce (ooo_place (seq_of irs q) (seq_of irs (q + n)) (seq_range irs <$> held) false []) =
  seq_range irs <$> coalesce (place_range (q, q + n) held false []).
Proof.
  intros Hn Hb He Hlt Hq Hn0 Hqe. pose proof (gaps_within held a e Hn Hb He Hlt) as Hw.
  assert (within a [(q, q + n)]) as Hq1 by (constructor; [cbn; lia | constructor]).
  destruct (ooo_place_seq irs a q (q + n) held false [] Hq1 Hw) as [E Hw1]; [constructor|].
  rewrite fmap_nil in E. rewrite E. by apply (ooo_coalesce_seq irs a).
Qed.

(** What [tcp_ooo_store] makes of the ranges. *)
Definition stored (r : rcv_t) (a off len : Z) (held : list (Z * Z)) : list (Z * Z) :=
  let room := window_end r a - a in
  if room <=? off then held else hold (a + off) (Z.min len (room - off)) held.

Lemma ooo_store_ok str irs a held r off len :
  rcv_ok str irs a held r -> gaps a held -> 0 < off < 2 ^ 31 -> 0 < len < 2 ^ 31 ->
  let held' := stored r a off len held in
  let r' := tcp_ooo_store off (slice str (a + off) len) r in
  rcv_ok str irs a held' r' /\ gaps a held' /\
  recv_buffer_used r' = recv_buffer_used r /\ recv_buffer_size r' = recv_buffer_size r.
Proof.
  intros Hok Hg Hoff Hlen. pose proof Hok as [Hb Hz Hs Hu Hst Hh Hack Hooo Hne Hwin Hdata]. destruct Hg as [Hga Hgp Hgm].
  unfold tcp_ooo_store, stored. rewrite zlen_slice by lia. rewrite (proj2 (Z.eqb_neq _ _) Hb), (proj2 (Z.eqb_neq len 0)) by lia.
  cbn [orb]. cbn zeta. rewrite !(u32_small (recv_buffer_size r - _)) by lia.
  replace (window_end r a - a) with (recv_buffer_size r - recv_buffer_used r) by (unfold window_end; lia).
  case_if; bool_hyps; [by split_and!|]. rewrite (u32_small (_ - off)) by lia.
  set (n := Z.min len (recv_buffer_size r - recv_buffer_used r - off)).
  replace (if _ <? len then _ else _) with n by (unfold n; case_if; bool_hyps; lia).
  rewrite Hack, !seq_of_add, Hooo.
  rewrite (ooo_union_seq irs a (window_end r a)) by (done || unfold window_end; lia).
  destruct (hold_spec (a + off) n held Hne Hgp) as (Hn1 & Ha1 & Hm1 & Hc1); [lia|]. unfold hold in *. cbn zeta in *.
  set (u := coalesce _) in *. 
  replace (zlen (seq_range irs <$> u)) with (zlen (reverse u)) by (unfold zlen; by rewrite length_fmap, length_reverse).
  case_if; bool_hyps; [by split_and!|].
  assert (forall p, cover (reverse u) p -> cover held p \/ a + off <= p < a + off + n) as Hsub.
  { destruct Hc1 as [->|Hc1]; [by left|]. intros p. apply Hc1. }
  assert (forall p, cover (reverse u) p -> a < p < window_end r a) as Hin.
  { intros p [Hc|Hp]%Hsub; [|unfold window_end; lia].
    split; [by eapply cover_from | by eapply cover_bound]. }
  rewrite ztake_slice, (u32_small (recv_head r + _)), u32_small by lia.
  destruct (put_cell str irs a held r (a + off) n _ Hok ltac:(lia) ltac:(lia) ltac:(unfold window_end; lia) eq_refl) as [Hl Hp].
  replace (a + off - a) with off in Hl, Hp by lia.
  split_and!; [|split; [apply cover_from_inv; [done|]; intros p Hp1; apply Hin in Hp1; lia | done | by apply Hm1]|done..].
  constructor; cbn; try done.
  - by rewrite fmap_reverse.
  - apply cover_bound_inv; [done|]. intros p Hp1. apply Hin in Hp1. unfold window_end in *. cbn. lia.
  - intros p Hp1. unfold cell; cbn.
    rewrite Hp by (destruct Hp1 as [|[? Hc%Hin]]; unfold window_end in *; lia).
    case_decide; [done|]. apply Hdata. destruct Hp1 as [|[? Hc]]; [by left|]. right. split; [done|].
    by destruct (Hsub p Hc).
Qed.

(** ** Closing the gap *)

(** Where the bytes in order end, and the ranges still beyond a gap. *)
Fixpoint absorb (a : Z) (held : list (Z * Z)) : Z * list (Z * Z) :=
  match held with
  | (x, y) :: rest => if y <=? a then absorb a rest else if x <=? a then (y, rest) else (a, held)
  | [] => (a, [])
  end.

(** Ranges beyond [ack_num] are kept as they are. *)
Lemma absorb_keep irs a held kept g r :
  ack_num r = seq_of irs a -> Forall (fun x => a < x.1 < a + 2 ^ 31 /\ a < x.2 < a + 2 ^ 31) held ->
  ooo_absorb (seq_range irs <$> held) kept g r = (g, set_ooo (reverse kept ++ (seq_range irs <$> held)) r).
Proof.
  intros Ha Hf. revert kept. induction Hf as [|[x y] held [Hx Hy] Hf IH]; intros kept; cbn in *.
  { by rewrite app_nil_r. }
  rewrite Ha, !seq_diff by lia. rewrite !(proj2 (Z.leb_gt _ _)) by lia. rewrite IH, reverse_cons, <- app_assoc. done.
Qed.

(** A range less, same bytes. *)
Lemma rcv_ok_drop str irs a x rest r :
  rcv_ok str irs a (x :: rest) r -> rcv_ok str irs a rest (set_ooo (seq_range irs <$> rest) r).
Proof.
  intros [Hb Hz Hs Hu Hst Hh Hack Hooo Hne Hwin Hdata].
  apply Forall_cons in Hne as [_ Hne]. apply Forall_cons in Hwin as [_ Hwin]. constructor; cbn; try done.
  intros p Hp. apply Hdata. rewrite cover_cons. tauto.
Qed.

Lemma ooo_absorb_set_ooo v held kept g r : ooo_absorb held kept g (set_ooo v r) = ooo_absorb held kept g r.
Proof.
  revert kept g r v. induction held as [|[x y] held IH]; intros kept g r v; [done|].
  cbn -[s32 u32]. destruct (s32 (y - ack_num r) <=? 0); [apply IH|].
  destruct (s32 (x - ack_num r) <=? 0); [|apply IH].
  match goal with |- _ = ooo_absorb _ ?k ?g' ?r' => exact (IH k g' r' v) end.
Qed.

Lemma set_ooo_same r : set_ooo (ooo r) r = r.
Proof. by destruct r. Qed.

(** The range that touches [ack_num] becomes readable. *)
Lemma rcv_ok_absorb str irs a x y rest r :
  rcv_ok str irs a ((x, y) :: rest) r -> x <= a < y ->
  let add := y - a in
  add <= recv_buffer_size r - recv_buffer_used r /\
  rcv_ok str irs y rest
    (set_ooo (seq_range irs <$> rest)
      (set_ack_num (seq_of irs y) (set_ring (recv_bytes r) (recv_buffer_used r + add) (recv_head r) r))).
Proof.
  intros [Hb Hz Hs Hu Hst Hh Hack Hooo Hne Hwin Hdata] Hx add.
  apply Forall_cons in Hne as [_ Hne]. apply Forall_cons in Hwin as [Hy Hwin]. cbn in Hy. unfold window_end in *.
  split; [lia|]. constructor; cbn; try done; try lia.
  - eapply Forall_impl; [exact Hwin|]. unfold window_end; cbn. intros; lia.
  - intros p Hp. unfold cell; cbn.
    replace (recv_head r + (recv_buffer_used r + add) + (p - y)) with (recv_head r + recv_buffer_used r + (p - a)) by lia.
    apply Hdata. rewrite cover_cons. cbn. destruct (decide (p < a)); [left; lia|]. right. split; [lia|].
    destruct Hp as [Hp|[_ Hp]]; [left; lia | by right].
Qed.

Lemma ooo_absorb_ok str irs a held r g :
  rcv_ok str irs a held r -> asc_apart held -> Forall (fun x => a - 2 ^ 30 <= x.1) held -> 0 <= g < 2 ^ 30 ->
  let '(a', held') := absorb a held in
  exists r', ooo_absorb (seq_range irs <$> held) [] g r = (g + (a' - a), r') /\ rcv_ok str irs a' held' r' /\
    recv_buffer_size r' = recv_buffer_size r /\ recv_buffer_used r' = recv_buffer_used r + (a' - a) /\
    Forall (fun x => a' < x.1) held'.
Proof.
  intros Hok Hs Hlow Hg. revert r Hok. induction held as [|[x y] held IH]; intros r Hok; cbn [absorb].
  { exists (set_ooo [] r). pose proof (ro_ooo _ _ _ _ _ Hok) as Ho. rewrite fmap_nil in Ho.
    cbn. rewrite <- Ho, set_ooo_same, Z.sub_diag, !Z.add_0_r. by rewrite Ho. }
  apply StronglySorted_inv in Hs as Hs'. destruct Hs' as [Hs' Hall].
  pose proof Hlow as Hlow'. apply Forall_cons in Hlow' as [Hx Hlow']. cbn in Hx.
  pose proof Hok as [Hb Hz Hsz Hu Hst Hh Hack Hooo Hne Hwin Hdata].
  pose proof Hne as Hne'. apply Forall_cons in Hne' as [Hxy Hne']. cbn in Hxy.
  pose proof Hwin as Hwin'. apply Forall_cons in Hwin' as [Hy Hwin']. cbn in Hy. unfold window_end in Hy.
  destruct (Z.leb_spec y a) as [Hya|Hya].
  - specialize (IH Hs' Hlow' _ (rcv_ok_drop _ _ _ _ _ _ Hok)). destruct (absorb a held) as [a' held'].
    destruct IH as (r' & E & Hr). exists r'. split; [|done]. rewrite ooo_absorb_set_ooo in E.
    cbn -[s32]. rewrite Hack, seq_diff, (proj2 (Z.leb_le _ _)) by lia. done.
  - destruct (Z.leb_spec x a) as [Hxa|Hxa].
    + destruct (rcv_ok_absorb _ _ _ _ _ _ _ Hok ltac:(lia)) as [Hadd Hok'].
      set (r1 := set_ack_num (seq_of irs y) (set_ring (recv_bytes r) (recv_buffer_used r + (y - a)) (recv_head r) r)).
      assert (Forall (fun z => y < z.1) held) as Hbey by done.
      exists (set_ooo (seq_range irs <$> held) r1). split; [|split_and!; try done; cbn; lia].
      cbn -[s32 u32]. rewrite Hack, !seq_diff by lia. rewrite (proj2 (Z.leb_gt _ _)), (proj2 (Z.leb_le _ _)) by lia.
      rewrite seq_sub, !(u32_small (recv_buffer_size r - _)) by lia.
      rewrite (proj2 (Z.ltb_ge (recv_buffer_size r - recv_buffer_used r) (y - a))) by lia.
      rewrite seq_of_add, !u32_small by lia. replace (a + (y - a)) with y by lia.
      rewrite seq_diff, Z.sub_diag by lia. cbn [Z.ltb Z.compare]. fold r1.
      apply (absorb_keep irs y held [] _ r1 eq_refl).
      apply Forall_forall. intros z Hz1. unfold nonempty in Hne'. rewrite Forall_forall in Hbey, Hne', Hwin'.
      specialize (Hbey z Hz1). specialize (Hne' z Hz1). specialize (Hwin' z Hz1). unfold window_end in Hwin'. cbn in *. lia.
    + pose proof (asc_apart_beyond a (x, y) held Hs Hne Hxa) as Hbey.
      exists r. split_and!; try done; [|lia].
      rewrite (absorb_keep irs a) by (try done; apply Forall_forall; intros z Hz1; unfold nonempty in Hne;
        rewrite Forall_forall in Hbey, Hne, Hwin; specialize (Hbey z Hz1); specialize (Hne z Hz1); specialize (Hwin z Hz1);
        unfold window_end in Hwin; cbn in *; lia).
      rewrite reverse_nil, app_nil_l, <- Hooo, set_ooo_same. f_equal. lia.
Qed.

Lemma absorb_spec a held :
  let '(a', held') := absorb a held in
  a <= a' /\ (exists gone, held = gone ++ held') /\ (forall p, a <= p < a' -> cover held p).
Proof.
  induction held as [|[x y] held IH]; cbn; [split_and!; [lia | by exists [] | lia]|].
  destruct (Z.leb_spec y a).
  - destruct (absorb a held) as [a' held']. destruct IH as (Ha & [gone ->] & Hc). split_and!; [done | by exists ((x, y) :: gone) |].
    intros p Hp. rewrite cover_cons. right. by apply Hc.
  - destruct (Z.leb_spec x a).
    + split_and!; [lia | by exists [(x, y)] |]. intros p Hp. rewrite cover_cons. left. cbn. lia.
    + split_and!; [lia | by exists [] | lia].
Qed.

Lemma gaps_suffix a gone held : gaps a (gone ++ held) -> asc_apart held /\ zlen held <= TCP_OOO_MAX.
Proof.
  intros [Hb Hs Hm]. apply StronglySorted_app in Hs as (_ & _ & Hs). split; [done|].
  rewrite zlen_app in Hm. pose proof (zlen_nonneg gone). lia.
Qed.

(** ** The receiver as a function of positions

    [room] bytes fit beyond [a].  A segment with the bytes from [p] on: what is
    new is taken and the gap closed, or what lies beyond a gap is held. *)
Definition accept (room a : Z) (held : list (Z * Z)) (p len : Z) : Z * list (Z * Z) :=
  if (p + len <=? a) || (len =? 0) then (a, held)
  else if p <=? a then absorb (a + Z.min (p + len - a) room) held
  else (a, if a + room <=? p then held else hold p (Z.min len (a + room - p)) held).

(** In-order data, as [take_data] handles it. *)
Lemma take_in_order str irs a held r len :
  rcv_ok str irs a held r -> gaps a held -> 0 <= len < 2 ^ 30 ->
  let k := Z.min len (recv_buffer_size r - recv_buffer_used r) in
  let '(a', held') := absorb (a + k) held in
  exists r1 r', tcp_handle_data (slice str a len) r = (k, r1) /\
    (let r2 := set_ack_num (seq_of irs a +32 k) r1 in if ooo_n r2 =? 0 then (0, r2) else tcp_ooo_merge r2) =
      (a' - (a + k), r') /\
    rcv_ok str irs a' held' r' /\ gaps a' held' /\
    recv_buffer_size r' = recv_buffer_size r /\ recv_buffer_used r' = recv_buffer_used r + (a' - a).
Proof.
  intros Hok Hg Hlen k. destruct (handle_data_ok _ _ _ _ _ len Hok ltac:(lia)) as (r1 & E1 & Eack & Hok1 & Esz & Eus).
  fold k in E1, Hok1, Eus. pose proof (ro_used _ _ _ _ _ Hok) as Hu. pose proof (ro_range _ _ _ _ _ Hok) as Hr.
  destruct (absorb (a + k) held) as [a' held'] eqn:Eab. rewrite seq_of_add.
  set (r2 := set_ack_num (seq_of irs (a + k)) r1) in *. cbn zeta. pose proof (absorb_spec (a + k) held) as Hab.
  rewrite Eab in Hab. destruct Hab as (Hle & [gone Hgone] & Hcov).
  assert (exists r', (if ooo_n r2 =? 0 then (0, r2) else tcp_ooo_merge r2) = (a' - (a + k), r') /\ rcv_ok str irs a' held' r' /\
    recv_buffer_size r' = recv_buffer_size r2 /\ recv_buffer_used r' = recv_buffer_used r2 + (a' - (a + k)) /\
    Forall (fun x => a' < x.1) held') as (r' & E2 & Hok' & Esz' & Eus' & Hbey).
  { destruct (Z.eqb_spec (ooo_n r2) 0) as [E0|E0].
    - assert (held = []) as ->.
      { unfold ooo_n in E0. rewrite (ro_ooo _ _ _ _ _ Hok1) in E0. apply zlen_nil_inv, fmap_nil_inv in E0. done. }
      cbn in Eab. injection Eab as <- <-. exists r2. rewrite Z.sub_diag, Z.add_0_r. by split_and!.
    - pose proof (ooo_absorb_ok str irs (a + k) held r2 0 Hok1) as Hm. rewrite Eab in Hm.
      unfold tcp_ooo_merge. rewrite (ro_ooo _ _ _ _ _ Hok1). apply Hm; [apply Hg | | lia].
      eapply Forall_impl; [apply Hg|]. cbn. intros; lia. }
  exists r1, r'. split_and!; try done; [| cbn in Esz'; congruence | cbn in Eus'; lia].
  subst held. destruct (gaps_suffix _ _ _ Hg) as [Ha Hm]. by constructor.
Qed.
