(* ===== verification/TcpConn.v ===== *)
(** * TCP: the connection record

    [tcp_connection_t] of src/net_tcp.h with its retransmission queue, grouped
    into the sending side, the receiving side (TcpRecv.v), what is advertised to
    the peer, ownership and statistics; and an update function per field.
    Fields that the code never reads are left out ([window_size], [srtt_ms],
    [rttvar_ms], [retransmit_timeout], [close_callback], [send_buffer_size],
    [send_buffer_used]). *)
From S2P Require Import Prelude TcpRecv.

Inductive tcp_state_t :=
| TCP_STATE_CLOSED
| TCP_STATE_LISTEN
| TCP_STATE_SYN_SENT
| TCP_STATE_SYN_RECEIVED
| TCP_STATE_ESTABLISHED
| TCP_STATE_FIN_WAIT_1
| TCP_STATE_FIN_WAIT_2
| TCP_STATE_CLOSE_WAIT
| TCP_STATE_CLOSING
| TCP_STATE_LAST_ACK
| TCP_STATE_TIME_WAIT.
#[global] Instance tcp_state_eq_dec : EqDecision tcp_state_t.
Proof. solve_decision. Defined.

(** [tcp_retransmit_entry_t]: [e_self] is its address, [e_data] the copy of the
    payload ([0] if there is none) and [e_bytes] its [data_len] bytes. *)
Record rtx_t := mk_rtx {
  e_self : Z;
  seq_start : Z;
  seq_end : Z;
  e_data : Z;
  e_bytes : list Z;
  e_flags : Z;
  sent_at : Z;
  e_rto_ms : Z;
  retries : Z;
}.

(** Sending: sequence numbers, the peer's window, congestion control and the
    segments not yet acknowledged, oldest first. *)
Record snd_t := mk_snd {
  seq_num : Z;
  initial_seq : Z;
  snd_una : Z;
  remote_window : Z;
  remote_mss : Z;
  cwnd : Z;
  ssthresh : Z;
  dup_ack_count : Z;
  last_ack_num : Z;
  in_fast_recovery : bool;
  retransmit_queue : list rtx_t;
  rto_ms : Z;
  snd_wnd : Z;
  snd_wscale : Z;
  ws_peer : bool;
}.

(** What the peer is told: segment size, window and its scale. *)
Record adv_t := mk_adv {
  local_mss : Z;
  last_wnd_adv : Z;
  rcv_wscale : Z;
  ws_ok : bool;
}.

(** Socket-layer ownership. *)
Record own_t := mk_own {
  owned : bool;
  half_close : bool;
  accepted : bool;
  user_child : bool;
  disowned : bool;
}.

Record stat_t := mk_stat {
  st_t_open : Z;
  st_t_first : Z;
  st_t_last : Z;
  st_rx : Z;
  st_ooo : Z;
  st_rexmit : Z;
  st_fast : Z;
  st_reported : bool;
}.

(** [tcp_connection_t]; [self] is its address.  Addresses are four bytes. *)
Record tcp_connection_t := mk_conn {
  self : Z;
  local_ip : list Z;
  remote_ip : list Z;
  local_port : Z;
  remote_port : Z;
  state : tcp_state_t;
  connected : bool;
  tx : snd_t;
  rx : rcv_t;
  adv : adv_t;
  own : own_t;
  last_activity : Z;
  data_callback : Z;
  connect_callback : Z;
  send_buffer : Z;
  stat : stat_t;
}.

#[global] Instance rtx_inhabited : Inhabited rtx_t := populate (mk_rtx 0 0 0 0 [] 0 0 0 0).

(** ** Updates *)

Definition set_sent_at (v : Z) (e : rtx_t) : rtx_t :=
  mk_rtx (e_self e) (seq_start e) (seq_end e) (e_data e) (e_bytes e) (e_flags e) v (e_rto_ms e) (retries e).
Definition set_e_rto_ms (v : Z) (e : rtx_t) : rtx_t :=
  mk_rtx (e_self e) (seq_start e) (seq_end e) (e_data e) (e_bytes e) (e_flags e) (sent_at e) v (retries e).
Definition set_retries (v : Z) (e : rtx_t) : rtx_t :=
  mk_rtx (e_self e) (seq_start e) (seq_end e) (e_data e) (e_bytes e) (e_flags e) (sent_at e) (e_rto_ms e) v.

Definition set_seq_num (v : Z) (t : snd_t) : snd_t :=
  mk_snd v (initial_seq t) (snd_una t) (remote_window t) (remote_mss t) (cwnd t) (ssthresh t) (dup_ack_count
    t) (last_ack_num t) (in_fast_recovery t) (retransmit_queue t) (rto_ms t) (snd_wnd t) (snd_wscale t)
    (ws_peer t).
Definition set_initial_seq (v : Z) (t : snd_t) : snd_t :=
  mk_snd (seq_num t) v (snd_una t) (remote_window t) (remote_mss t) (cwnd t) (ssthresh t) (dup_ack_count t)
    (last_ack_num t) (in_fast_recovery t) (retransmit_queue t) (rto_ms t) (snd_wnd t) (snd_wscale t) (ws_peer
    t).
Definition set_snd_una (v : Z) (t : snd_t) : snd_t :=
  mk_snd (seq_num t) (initial_seq t) v (remote_window t) (remote_mss t) (cwnd t) (ssthresh t) (dup_ack_count
    t) (last_ack_num t) (in_fast_recovery t) (retransmit_queue t) (rto_ms t) (snd_wnd t) (snd_wscale t)
    (ws_peer t).
Definition set_remote_window (v : Z) (t : snd_t) : snd_t :=
  mk_snd (seq_num t) (initial_seq t) (snd_una t) v (remote_mss t) (cwnd t) (ssthresh t) (dup_ack_count t)
    (last_ack_num t) (in_fast_recovery t) (retransmit_queue t) (rto_ms t) (snd_wnd t) (snd_wscale t) (ws_peer
    t).
Definition set_remote_mss (v : Z) (t : snd_t) : snd_t :=
  mk_snd (seq_num t) (initial_seq t) (snd_una t) (remote_window t) v (cwnd t) (ssthresh t) (dup_ack_count t)
    (last_ack_num t) (in_fast_recovery t) (retransmit_queue t) (rto_ms t) (snd_wnd t) (snd_wscale t) (ws_peer
    t).
Definition set_cwnd (v : Z) (t : snd_t) : snd_t :=
  mk_snd (seq_num t) (initial_seq t) (snd_una t) (remote_window t) (remote_mss t) v (ssthresh t)
    (dup_ack_count t) (last_ack_num t) (in_fast_recovery t) (retransmit_queue t) (rto_ms t) (snd_wnd t)
    (snd_wscale t) (ws_peer t).
Definition set_ssthresh (v : Z) (t : snd_t) : snd_t :=
  mk_snd (seq_num t) (initial_seq t) (snd_una t) (remote_window t) (remote_mss t) (cwnd t) v (dup_ack_count t)
    (last_ack_num t) (in_fast_recovery t) (retransmit_queue t) (rto_ms t) (snd_wnd t) (snd_wscale t) (ws_peer
    t).
Definition set_dup_ack_count (v : Z) (t : snd_t) : snd_t :=
  mk_snd (seq_num t) (initial_seq t) (snd_una t) (remote_window t) (remote_mss t) (cwnd t) (ssthresh t) v
    (last_ack_num t) (in_fast_recovery t) (retransmit_queue t) (rto_ms t) (snd_wnd t) (snd_wscale t) (ws_peer
    t).
Definition set_last_ack_num (v : Z) (t : snd_t) : snd_t :=
  mk_snd (seq_num t) (initial_seq t) (snd_una t) (remote_window t) (remote_mss t) (cwnd t) (ssthresh t)
    (dup_ack_count t) v (in_fast_recovery t) (retransmit_queue t) (rto_ms t) (snd_wnd t) (snd_wscale t)
    (ws_peer t).
Definition set_in_fast_recovery (v : bool) (t : snd_t) : snd_t :=
  mk_snd (seq_num t) (initial_seq t) (snd_una t) (remote_window t) (remote_mss t) (cwnd t) (ssthresh t)
    (dup_ack_count t) (last_ack_num t) v (retransmit_queue t) (rto_ms t) (snd_wnd t) (snd_wscale t) (ws_peer
    t).
Definition set_retransmit_queue (v : list rtx_t) (t : snd_t) : snd_t :=
  mk_snd (seq_num t) (initial_seq t) (snd_una t) (remote_window t) (remote_mss t) (cwnd t) (ssthresh t)
    (dup_ack_count t) (last_ack_num t) (in_fast_recovery t) v (rto_ms t) (snd_wnd t) (snd_wscale t) (ws_peer
    t).
Definition set_rto_ms (v : Z) (t : snd_t) : snd_t :=
  mk_snd (seq_num t) (initial_seq t) (snd_una t) (remote_window t) (remote_mss t) (cwnd t) (ssthresh t)
    (dup_ack_count t) (last_ack_num t) (in_fast_recovery t) (retransmit_queue t) v (snd_wnd t) (snd_wscale t)
    (ws_peer t).
Definition set_snd_wnd (v : Z) (t : snd_t) : snd_t :=
  mk_snd (seq_num t) (initial_seq t) (snd_una t) (remote_window t) (remote_mss t) (cwnd t) (ssthresh t)
    (dup_ack_count t) (last_ack_num t) (in_fast_recovery t) (retransmit_queue t) (rto_ms t) v (snd_wscale t)
    (ws_peer t).
Definition set_snd_wscale (v : Z) (t : snd_t) : snd_t :=
  mk_snd (seq_num t) (initial_seq t) (snd_una t) (remote_window t) (remote_mss t) (cwnd t) (ssthresh t)
    (dup_ack_count t) (last_ack_num t) (in_fast_recovery t) (retransmit_queue t) (rto_ms t) (snd_wnd t) v
    (ws_peer t).
Definition set_ws_peer (v : bool) (t : snd_t) : snd_t :=
  mk_snd (seq_num t) (initial_seq t) (snd_una t) (remote_window t) (remote_mss t) (cwnd t) (ssthresh t)
    (dup_ack_count t) (last_ack_num t) (in_fast_recovery t) (retransmit_queue t) (rto_ms t) (snd_wnd t)
    (snd_wscale t) v.

Definition set_last_wnd_adv (v : Z) (a : adv_t) : adv_t :=
  mk_adv (local_mss a) v (rcv_wscale a) (ws_ok a).
Definition set_rcv_wscale (v : Z) (a : adv_t) : adv_t :=
  mk_adv (local_mss a) (last_wnd_adv a) v (ws_ok a).
Definition set_ws_ok (v : bool) (a : adv_t) : adv_t :=
  mk_adv (local_mss a) (last_wnd_adv a) (rcv_wscale a) v.

Definition set_owned (v : bool) (o : own_t) : own_t :=
  mk_own v (half_close o) (accepted o) (user_child o) (disowned o).
Definition set_half_close (v : bool) (o : own_t) : own_t :=
  mk_own (owned o) v (accepted o) (user_child o) (disowned o).
Definition set_accepted (v : bool) (o : own_t) : own_t :=
  mk_own (owned o) (half_close o) v (user_child o) (disowned o).
Definition set_user_child (v : bool) (o : own_t) : own_t :=
  mk_own (owned o) (half_close o) (accepted o) v (disowned o).
Definition set_disowned (v : bool) (o : own_t) : own_t :=
  mk_own (owned o) (half_close o) (accepted o) (user_child o) v.

Definition set_st_t_open (v : Z) (s : stat_t) : stat_t :=
  mk_stat v (st_t_first s) (st_t_last s) (st_rx s) (st_ooo s) (st_rexmit s) (st_fast s) (st_reported s).
Definition set_st_t_first (v : Z) (s : stat_t) : stat_t :=
  mk_stat (st_t_open s) v (st_t_last s) (st_rx s) (st_ooo s) (st_rexmit s) (st_fast s) (st_reported s).
Definition set_st_t_last (v : Z) (s : stat_t) : stat_t :=
  mk_stat (st_t_open s) (st_t_first s) v (st_rx s) (st_ooo s) (st_rexmit s) (st_fast s) (st_reported s).
Definition set_st_rx (v : Z) (s : stat_t) : stat_t :=
  mk_stat (st_t_open s) (st_t_first s) (st_t_last s) v (st_ooo s) (st_rexmit s) (st_fast s) (st_reported s).
Definition set_st_ooo (v : Z) (s : stat_t) : stat_t :=
  mk_stat (st_t_open s) (st_t_first s) (st_t_last s) (st_rx s) v (st_rexmit s) (st_fast s) (st_reported s).
Definition set_st_rexmit (v : Z) (s : stat_t) : stat_t :=
  mk_stat (st_t_open s) (st_t_first s) (st_t_last s) (st_rx s) (st_ooo s) v (st_fast s) (st_reported s).
Definition set_st_fast (v : Z) (s : stat_t) : stat_t :=
  mk_stat (st_t_open s) (st_t_first s) (st_t_last s) (st_rx s) (st_ooo s) (st_rexmit s) v (st_reported s).
Definition set_st_reported (v : bool) (s : stat_t) : stat_t :=
  mk_stat (st_t_open s) (st_t_first s) (st_t_last s) (st_rx s) (st_ooo s) (st_rexmit s) (st_fast s) v.

Definition set_state (v : tcp_state_t) (c : tcp_connection_t) : tcp_connection_t :=
  mk_conn (self c) (local_ip c) (remote_ip c) (local_port c) (remote_port c) v (connected c) (tx c) (rx c)
    (adv c) (own c) (last_activity c) (data_callback c) (connect_callback c) (send_buffer c) (stat c).
Definition set_connected (v : bool) (c : tcp_connection_t) : tcp_connection_t :=
  mk_conn (self c) (local_ip c) (remote_ip c) (local_port c) (remote_port c) (state c) v (tx c) (rx c) (adv c)
    (own c) (last_activity c) (data_callback c) (connect_callback c) (send_buffer c) (stat c).
Definition set_tx (v : snd_t) (c : tcp_connection_t) : tcp_connection_t :=
  mk_conn (self c) (local_ip c) (remote_ip c) (local_port c) (remote_port c) (state c) (connected c) v (rx c)
    (adv c) (own c) (last_activity c) (data_callback c) (connect_callback c) (send_buffer c) (stat c).
Definition set_rx (v : rcv_t) (c : tcp_connection_t) : tcp_connection_t :=
  mk_conn (self c) (local_ip c) (remote_ip c) (local_port c) (remote_port c) (state c) (connected c) (tx c) v
    (adv c) (own c) (last_activity c) (data_callback c) (connect_callback c) (send_buffer c) (stat c).
Definition set_adv (v : adv_t) (c : tcp_connection_t) : tcp_connection_t :=
  mk_conn (self c) (local_ip c) (remote_ip c) (local_port c) (remote_port c) (state c) (connected c) (tx c)
    (rx c) v (own c) (last_activity c) (data_callback c) (connect_callback c) (send_buffer c) (stat c).
Definition set_own (v : own_t) (c : tcp_connection_t) : tcp_connection_t :=
  mk_conn (self c) (local_ip c) (remote_ip c) (local_port c) (remote_port c) (state c) (connected c) (tx c)
    (rx c) (adv c) v (last_activity c) (data_callback c) (connect_callback c) (send_buffer c) (stat c).
Definition set_last_activity (v : Z) (c : tcp_connection_t) : tcp_connection_t :=
  mk_conn (self c) (local_ip c) (remote_ip c) (local_port c) (remote_port c) (state c) (connected c) (tx c)
    (rx c) (adv c) (own c) v (data_callback c) (connect_callback c) (send_buffer c) (stat c).
Definition set_data_callback (v : Z) (c : tcp_connection_t) : tcp_connection_t :=
  mk_conn (self c) (local_ip c) (remote_ip c) (local_port c) (remote_port c) (state c) (connected c) (tx c)
    (rx c) (adv c) (own c) (last_activity c) v (connect_callback c) (send_buffer c) (stat c).
Definition set_connect_callback (v : Z) (c : tcp_connection_t) : tcp_connection_t :=
  mk_conn (self c) (local_ip c) (remote_ip c) (local_port c) (remote_port c) (state c) (connected c) (tx c)
    (rx c) (adv c) (own c) (last_activity c) (data_callback c) v (send_buffer c) (stat c).
Definition set_stat (v : stat_t) (c : tcp_connection_t) : tcp_connection_t :=
  mk_conn (self c) (local_ip c) (remote_ip c) (local_port c) (remote_port c) (state c) (connected c) (tx c)
    (rx c) (adv c) (own c) (last_activity c) (data_callback c) (connect_callback c) (send_buffer c) v.

(** Updates of a part of the connection. *)
Definition on_tx (f : snd_t -> snd_t) (c : tcp_connection_t) : tcp_connection_t := set_tx (f (tx c)) c.
Definition on_rx (f : rcv_t -> rcv_t) (c : tcp_connection_t) : tcp_connection_t := set_rx (f (rx c)) c.
Definition on_adv (f : adv_t -> adv_t) (c : tcp_connection_t) : tcp_connection_t := set_adv (f (adv c)) c.
Definition on_own (f : own_t -> own_t) (c : tcp_connection_t) : tcp_connection_t := set_own (f (own c)) c.
Definition on_stat (f : stat_t -> stat_t) (c : tcp_connection_t) : tcp_connection_t := set_stat (f (stat c)) c.
