(* ===== verification/TcpSeg.v ===== *)
(** * TCP: segments on the wire

    The checksum, header and options of src/net_tcp.c as bytes. *)
From S2P Require Import Prelude TcpRecv TcpConn.

Definition TCP_FLAG_FIN : Z := 0x01.
Definition TCP_FLAG_SYN : Z := 0x02.
Definition TCP_FLAG_RST : Z := 0x04.
Definition TCP_FLAG_PSH : Z := 0x08.
Definition TCP_FLAG_ACK : Z := 0x10.

Definition TCP_DEFAULT_MSS : Z := 536.
Definition TCP_MAX_MSS : Z := 1460.
Definition TCP_RCV_WSCALE : Z := 2.

(** [sizeof(tcp_header_t)]. *)
Definition tcp_header_size : Z := 20.

(** ** Byte order *)

Definition le16 (x : Z) : list Z := [u8 x; u8 (Z.shiftr x 8)].
Definition le32 (x : Z) : list Z := [u8 x; u8 (Z.shiftr x 8); u8 (Z.shiftr x 16); u8 (Z.shiftr x 24)].
Definition bswap16 (x : Z) : Z := Z.lor (Z.land (Z.shiftr x 8) 0xFF) (Z.shiftl (Z.land x 0xFF) 8).
Definition bswap32 (x : Z) : Z :=
  Z.lor (Z.lor (Z.lor (Z.land (Z.shiftr x 24) 0xFF) (Z.land (Z.shiftr x 8) 0xFF00))
    (u32 (Z.shiftl (Z.land x 0xFF00) 8))) (u32 (Z.shiftl (Z.land x 0xFF) 24)).
(** Fields of a frame, as loaded from memory. *)
Definition get16 (l : list Z) (i : Z) : Z := Z.lor (zget l i) (Z.shiftl (zget l (i + 1)) 8).
Definition get32 (l : list Z) (i : Z) : Z :=
  Z.lor (Z.lor (Z.lor (zget l i) (Z.shiftl (zget l (i + 1)) 8)) (Z.shiftl (zget l (i + 2)) 16)) (Z.shiftl (zget l (i + 3)) 24).
(** Fields read byte by byte in network order. *)
Definition net16 (l : list Z) (i : Z) : Z := Z.lor (Z.shiftl (zget l i) 8) (zget l (i + 1)).
Definition net32 (l : list Z) (i : Z) : Z :=
  Z.lor (Z.lor (Z.lor (Z.shiftl (zget l i) 24) (Z.shiftl (zget l (i + 1)) 16)) (Z.shiftl (zget l (i + 2)) 8)) (zget l (i + 3)).

(** ** Checksum *)

(** The loop over the 16-bit words, with the odd byte at the end. *)
Fixpoint sum_words (sum : Z) (bytes : list Z) : Z :=
  match bytes with
  | a :: b :: rest => sum_words (sum +32 Z.lor (Z.shiftl a 8) b) rest
  | [a] => sum +32 Z.shiftl a 8
  | [] => sum
  end.

Definition fold_carry (sum : Z) : Z := Z.shiftr sum 16 +32 Z.land sum 0xFFFF.

Definition tcp_checksum (src_ip dst_ip packet : list Z) (len : Z) : Z :=
  let sum := 0 +32 net16 src_ip 0 in
  let sum := sum +32 net16 src_ip 2 in
  let sum := sum +32 net16 dst_ip 0 in
  let sum := sum +32 net16 dst_ip 2 in
  let sum := sum +32 0x0006 in
  let sum := sum +32 len in
  let sum := sum_words sum (ztake len packet) in
  let sum := fold_carry sum in
  let sum := fold_carry sum in
  u16 (Z.lnot sum).

(** ** Building a segment *)

(** The header of [tcp_send_packet_with_options] and [tcp_send_rst_raw]: the
    fields are swapped to network order and stored. *)
Definition tcp_header_bytes (src_port dst_port seq ack header_size flags window checksum : Z) : list Z :=
  le16 (bswap16 src_port) ++ le16 (bswap16 dst_port) ++ le32 (bswap32 seq) ++ le32 (bswap32 ack) ++
  [u8 (Z.shiftl (header_size / 4) 4); flags] ++ le16 (bswap16 window) ++ le16 (bswap16 checksum) ++ le16 0.

Definition tcp_syn_options (c : tcp_connection_t) (syn_ack : bool) : list Z :=
  let mss := if local_mss (adv c) =? 0 then TCP_DEFAULT_MSS else local_mss (adv c) in
  let opt := [2; 4; u8 (Z.shiftr mss 8); u8 (Z.land mss 0xFF)] in
  if syn_ack && negb (ws_peer (tx c)) then opt else opt ++ [1; 3; 3; TCP_RCV_WSCALE].

(** The packet: header, options padded to a multiple of four, data. *)
Definition padding_of (options : list Z) : Z :=
  let header_size := tcp_header_size + zlen options in (4 - header_size mod 4) mod 4.
Definition header_size_of (options : list Z) : Z := tcp_header_size + zlen options + padding_of options.

Definition tcp_packet (c : tcp_connection_t) (flags wfield : Z) (options data : list Z) : list Z :=
  let header_size := header_size_of options in
  let build checksum :=
    tcp_header_bytes (local_port c) (remote_port c) (seq_num (tx c)) (ack_num (rx c)) header_size flags wfield checksum ++
    options ++ replicate (Z.to_nat (padding_of options)) 0 ++ data in
  let packet_size := u32 (header_size + zlen data) in
  build (tcp_checksum (local_ip c) (remote_ip c) (build 0) (u16 packet_size)).

Definition tcp_rst_packet (local_ip : list Z) (local_port : Z) (remote_ip : list Z) (remote_port seq ack flags : Z) : list Z :=
  let build checksum := tcp_header_bytes local_port remote_port seq ack tcp_header_size flags 0 checksum in
  build (tcp_checksum local_ip remote_ip (build 0) tcp_header_size).

(** ** Options of the peer's SYN *)

Fixpoint parse_options (fuel : nat) (opts : list Z) (i : Z) (t : snd_t) : snd_t :=
  match fuel with
  | O => t
  | S fuel =>
      if negb (i <? zlen opts) then t
      else
        let kind := zget opts i in
        if kind =? 0 then t
        else if kind =? 1 then parse_options fuel opts (i +32 1) t
        else if zlen opts <=? i +32 1 then t
        else
          let len := zget opts (i + 1) in
          if (len <? 2) || (zlen opts <? i +32 len) then t
          else
            let t :=
              if (kind =? 2) && (len =? 4) then
                let mss := net16 opts (i + 2) in if 0 <? mss then set_remote_mss mss t else t
              else if (kind =? 3) && (len =? 3) then
                let sh := zget opts (i + 2) in set_snd_wscale (if 14 <? sh then 14 else sh) (set_ws_peer true t)
              else t in
            parse_options fuel opts (i +32 len) t
  end.
Definition tcp_parse_options (opts : list Z) (t : snd_t) : snd_t := parse_options (length opts) opts 0 t.

(** ** Reading a frame *)

(** What [tcp_handle_packet_in] extracts.  [seg_payload] is the memory at
    [payload_ptr], [tcp_payload_len] bytes. *)
Record segment := mk_seg {
  sg_src_ip : list Z;
  sg_dst_ip : list Z;
  sg_src_port : Z;
  sg_dst_port : Z;
  sg_rx_flags : Z;
  sg_rx_seq : Z;
  sg_rx_ack : Z;
  sg_start : Z;
  sg_seg_len : Z;
}.

(** The first checks, up to the lookup of the connection. *)
Definition tcp_accept_frame (frame : list Z) : option segment :=
  let len := zlen frame in
  if len <? 34 then None
  else
    let ip_header_len := Z.land (zget frame 14) 0x0F * 4 in
    let tcp_start := 14 + ip_header_len in
    if (ip_header_len <? 20) || (len <? tcp_start + 20) then None
    else
      let src_ip := ztake 4 (zdrop 26 frame) in
      let dst_ip := ztake 4 (zdrop 30 frame) in
      let ip_total := net16 frame 16 in
      let ip_len_sane := (ip_header_len + 20 <=? ip_total) && (14 + ip_total <=? len) in
      let tcp_seg_len := if ip_len_sane then ip_total -32 ip_header_len else len -32 tcp_start in
      if ip_len_sane && (tcp_seg_len <=? 0xFFFF) &&
         negb (tcp_checksum src_ip dst_ip (zdrop tcp_start frame) (u16 tcp_seg_len) =? 0) then None
      else
        Some (mk_seg src_ip dst_ip (net16 frame tcp_start) (net16 frame (tcp_start + 2))
          (Z.land (zget frame (tcp_start + 13)) 0x3F) (net32 frame (tcp_start + 4)) (net32 frame (tcp_start + 8))
          tcp_start tcp_seg_len).

(** The copied header, converted from network order, and the payload. *)
Record tcp_header_t := mk_hdr { h_seq : Z; h_ack : Z; h_data_offset : Z; h_flags : Z; h_window : Z; h_opts : list Z; h_payload : list Z }.

Definition tcp_read_header (frame : list Z) (sg : segment) : option tcp_header_t :=
  let tcp_start := sg_start sg in
  let hdr := ztake tcp_header_size (zdrop tcp_start frame) in
  let data_offset := u8 (Z.shiftr (zget hdr 12) 4 * 4) in
  if data_offset <? 20 then None
  else if zlen frame <? tcp_start + data_offset then None
  else
    let tcp_payload_len := if data_offset <=? sg_seg_len sg then sg_seg_len sg -32 data_offset else 0 in
    Some (mk_hdr (bswap32 (get32 hdr 4)) (bswap32 (get32 hdr 8)) data_offset (zget hdr 13) (bswap16 (get16 hdr 14))
      (ztake (data_offset - tcp_header_size) (zdrop (tcp_start + tcp_header_size) frame))
      (ztake tcp_payload_len (zdrop (tcp_start + data_offset) frame))).
