(* ===== verification/Tcp.v ===== *)
(** * TCP: connections

    The operations of src/net_tcp.c that work on one connection: sending,
    retransmission and congestion control, the state machine of the receive
    path.  What they use of the layers below is the class [NetDown]. *)
From S2P Require Import Prelude Heap TcpRecv TcpConn TcpSeg.

(** The layers below: sending a datagram (src/net_ip.c), our addresses, and
    the clocks ([hpet_get_ticks] is what [ktime_now_ms] returns). *)
Class NetDown (W : Type) := {
  ip_send_packet : list Z -> Z -> list Z -> W -> Z * W;
  ip_select_src : list Z -> W -> list Z;
  net_get_ip_address : W -> list Z;
  ktime_now_ms : W -> Z;
  ktime_now_us : W -> Z;
  rdtsc : W -> Z;
}.

(** More error numbers of include/indevos_errno.h. *)
Abbreviation ENOBUFS := 105 (only parsing).
Abbreviation ENOTCONN := 107 (only parsing).
Abbreviation ECONNREFUSED := 111 (only parsing).

Definition TCP_RTO_MIN_MS : Z := 1000.
Definition TCP_RTO_MAX_MS : Z := 64000.
Definition TCP_MAX_RETRIES : Z := 8.
(** [sizeof(tcp_retransmit_entry_t)]. *)
Definition rtx_size : Z := 48.

(** What the user callbacks and pollers are told, in order. *)
Inductive tcp_event :=
| ConnectCallback (cb conn : Z)
| DataCallback (cb conn : Z) (data : list Z)
| KpollWake.

Section connection.
Context {W : Type} `{!KHeap W} `{!NetDown W}.

(** The global variables of the file apart from the two tables. *)
Record glob := mk_glob { g_world : W; tcp_isn_secret : Z; tcp_next_port : Z; g_events : list tcp_event }.

Definition set_world (w : W) (g : glob) : glob := mk_glob w (tcp_isn_secret g) (tcp_next_port g) (g_events g).
Definition set_isn_secret (v : Z) (g : glob) : glob := mk_glob (g_world g) v (tcp_next_port g) (g_events g).
Definition set_next_port (v : Z) (g : glob) : glob := mk_glob (g_world g) (tcp_isn_secret g) v (g_events g).
Definition add_event (e : tcp_event) (g : glob) : glob :=
  mk_glob (g_world g) (tcp_isn_secret g) (tcp_next_port g) (g_events g ++ [e]).

(** Actions on a connection. *)
Definition act (A : Type) : Type := tcp_connection_t * glob -> A * (tcp_connection_t * glob).
#[export] Instance act_ret : MRet act := fun A a s => (a, s).
#[export] Instance act_bind : MBind act := fun A B f m s => let '(a, s) := m s in f a s.
Definition conn_is : act tcp_connection_t := fun s => (s.1, s).
Definition upd (f : tcp_connection_t -> tcp_connection_t) : act unit := fun '(c, g) => (tt, (f c, g)).
Definition glob_is : act glob := fun s => (s.2, s).
Definition world {A} (f : W -> A * W) : act A :=
  fun '(c, g) => let '(a, w) := f (g_world g) in (a, (c, set_world w g)).
Definition on_glob {A} (f : glob -> A * glob) : act A := fun '(c, g) => let '(a, g) := f g in (a, (c, g)).
Definition kalloc_t (n : Z) : act Z := world (hp_kalloc n).
Definition kfree_t (p : Z) : act unit := world (fun w => (tt, hp_kfree p w)).
Definition when (b : bool) (m : act unit) : act unit := if b then m else mret tt.
Definition tcp_now_ms : act Z := fun s => (ktime_now_ms (g_world s.2), s).

(** ** Initial sequence numbers *)

Definition tcp_new_isn (g : glob) : Z * glob :=
  let g :=
    if tcp_isn_secret g =? 0 then
      let t := rdtsc (g_world g) in
      set_isn_secret (Z.lor (u32 (Z.lxor (Z.lxor t (Z.shiftr t 31)) 0x9E3779B9)) 1) g
    else g in
  (u32 (Z.shiftr (ktime_now_us (g_world g)) 2) +32 tcp_isn_secret g, g).

(** ** Sending *)

(** The window field, and what it tells the peer in bytes. *)
Definition window_field (c : tcp_connection_t) (flags : Z) : Z * Z :=
  let avail_window := recv_buffer_size (rx c) -32 recv_buffer_used (rx c) in
  if has flags TCP_FLAG_SYN then
    let wfield := if 0xFFFF <? avail_window then 0xFFFF else avail_window in (wfield, wfield)
  else
    let sh := if ws_ok (adv c) then rcv_wscale (adv c) else 0 in
    let wfield := Z.shiftr avail_window sh in
    let wfield := if 0xFFFF <? wfield then 0xFFFF else wfield in (wfield, u32 (Z.shiftl wfield sh)).

(** Sequence numbers that a segment takes, as [seq_num] advances. *)
Definition seq_advance (flags data_len : Z) : Z :=
  if (0 <? data_len) && has flags TCP_FLAG_SYN then data_len + 1
  else if 0 <? data_len then data_len
  else if has flags TCP_FLAG_SYN then 1
  else if has flags TCP_FLAG_FIN then 1
  else 0.

Definition tcp_send_packet_with_options (flags : Z) (data options : list Z) : act Z :=
  c ← conn_is;
  packet ← kalloc_t (u32 (header_size_of options + zlen data));
  if packet =? 0 then mret (- ENOMEM)
  else
    let '(wfield, bytes) := window_field c flags in
    _ ← upd (on_adv (set_last_wnd_adv bytes));
    let pkt := tcp_packet c flags wfield options data in
    result ← world (ip_send_packet (remote_ip c) 6 (ztake (u16 (header_size_of options + zlen data)) pkt));
    _ ← kfree_t packet;
    _ ← when (result =? 0) (upd (on_tx (fun t => set_seq_num (seq_num t +32 seq_advance flags (zlen data)) t)));
    mret result.

Definition tcp_send_packet (flags : Z) (data : list Z) : act Z := tcp_send_packet_with_options flags data [].

(** Resending at the segment's own sequence number. *)
Definition resend (seq flags : Z) (data options : list Z) : act unit :=
  c ← conn_is;
  _ ← upd (on_tx (set_seq_num seq));
  _ ← tcp_send_packet_with_options flags data options;
  upd (on_tx (set_seq_num (seq_num (tx c)))).

(** ** The retransmission queue *)

(** Sequence numbers that an entry covers. *)
Definition consumed (flags data_len : Z) : Z :=
  let n := data_len in
  let n := if has flags TCP_FLAG_SYN then n +32 1 else n in
  if has flags TCP_FLAG_FIN then n +32 1 else n.

Definition tcp_retransmit_enqueue (seq flags : Z) (data : list Z) : act unit :=
  entry ← kalloc_t rtx_size;
  if entry =? 0 then mret tt
  else
    now ← tcp_now_ms;
    c ← conn_is;
    let seq_end := seq +32 consumed flags (zlen data) in
    copy ← (if 0 <? zlen data then kalloc_t (zlen data) else mret 0);
    let e := mk_rtx entry seq seq_end copy (if copy =? 0 then [] else data) flags now (rto_ms (tx c)) 0 in
    upd (on_tx (fun t => set_retransmit_queue (retransmit_queue t ++ [e]) t)).

Definition free_entry (e : rtx_t) : act unit :=
  _ ← when (negb (e_data e =? 0)) (kfree_t (e_data e));
  kfree_t (e_self e).

Fixpoint free_entries (q : list rtx_t) : act unit :=
  match q with
  | [] => mret tt
  | e :: q => _ ← free_entry e; free_entries q
  end.

Definition tcp_retransmit_flush : act unit :=
  c ← conn_is;
  _ ← free_entries (retransmit_queue (tx c));
  upd (on_tx (set_retransmit_queue [])).

(** The loop that drops acknowledged entries; whether there was one. *)
Fixpoint drop_acked (ack_num : Z) (q : list rtx_t) : act bool :=
  match q with
  | [] => _ ← upd (on_tx (set_retransmit_queue [])); mret false
  | e :: q' =>
      if 0 <=? s32 (ack_num - seq_end e) then _ ← free_entry e; _ ← drop_acked ack_num q'; mret true
      else _ ← upd (on_tx (set_retransmit_queue q)); mret false
  end.

(** The effective segment size. *)
Definition peer_mss (t : snd_t) : Z := if remote_mss t =? 0 then TCP_DEFAULT_MSS else remote_mss t.

(** [ssthresh] after a loss. *)
Definition loss_ssthresh (mss cwnd : Z) : Z := let half := cwnd / 2 in if half <? 2 * mss then 2 * mss else half.

(** The congestion window after new data is acknowledged.  The source traps on a
    window of zero; here the increment is one then. *)
Definition grow_cwnd (mss : Z) (t : snd_t) : snd_t :=
  if in_fast_recovery t then set_in_fast_recovery false (set_cwnd (ssthresh t) t)
  else if cwnd t <? ssthresh t then set_cwnd (cwnd t +32 mss) t
  else
    let inc := u32 (mss * mss) / cwnd t in
    set_cwnd (cwnd t +32 (if inc =? 0 then 1 else inc)) t.

(** Third duplicate: fast retransmission of the first entry. *)
Definition fast_retransmit (mss : Z) : act unit :=
  _ ← upd (on_tx (fun t =>
        let t := set_ssthresh (loss_ssthresh mss (cwnd t)) t in
        set_in_fast_recovery true (set_cwnd (ssthresh t +32 3 * mss) t)));
  c ← conn_is;
  match retransmit_queue (tx c) with
  | [] => mret tt
  | first :: rest =>
      _ ← resend (seq_start first) (e_flags first) (e_bytes first) [];
      now ← tcp_now_ms;
      _ ← upd (on_stat (fun s => set_st_fast (st_fast s +32 1) s));
      upd (on_tx (set_retransmit_queue (set_retries (u8 (retries first + 1)) (set_sent_at now first) :: rest)))
  end.

Definition tcp_retransmit_ack (ack_num : Z) (pure_ack : bool) : act unit :=
  c ← conn_is;
  let t := tx c in
  let mss := peer_mss t in
  if (ack_num =? last_ack_num t) && (ack_num =? snd_una t) && negb (bool_decide (retransmit_queue t = [])) then
    if negb pure_ack then mret tt
    else
      let dup := dup_ack_count t +32 1 in
      _ ← upd (on_tx (set_dup_ack_count dup));
      if (dup =? 3) && negb (in_fast_recovery t) then fast_retransmit mss
      else if (3 <? dup) && in_fast_recovery t then upd (on_tx (fun t => set_cwnd (cwnd t +32 mss) t))
      else mret tt
  else
    new_data_acked ← drop_acked ack_num (retransmit_queue t);
    _ ← upd (on_tx (fun t => set_dup_ack_count 0 (set_last_ack_num ack_num (set_snd_una ack_num t))));
    when new_data_acked (upd (on_tx (grow_cwnd mss))).

(** ** Statistics *)

(** [tcp_stat_report] prints and marks the burst as reported. *)
Definition tcp_stat_report (s : stat_t) : stat_t :=
  if (st_rx s =? 0) || st_reported s then s else set_st_reported true s.

Definition tcp_stat_rx (n : Z) : act unit :=
  if n =? 0 then mret tt
  else
    now ← tcp_now_ms;
    upd (on_stat (fun s =>
      let s := if st_rx s =? 0 then set_st_t_first now s else s in
      set_st_reported false (set_st_rx (st_rx s +32 n) (set_st_t_last now s)))).

(** ** Retransmission timer *)

(** A timed-out entry is sent again; a SYN carries its options. *)
Definition rtx_resend (now : Z) (e : rtx_t) : act rtx_t :=
  _ ← upd (on_tx (fun t =>
        let mss_val := peer_mss t in
        set_dup_ack_count 0 (set_in_fast_recovery false (set_cwnd mss_val (set_ssthresh (loss_ssthresh mss_val (cwnd t)) t)))));
  c ← conn_is;
  let options := if has (e_flags e) TCP_FLAG_SYN then tcp_syn_options c (has (e_flags e) TCP_FLAG_ACK) else [] in
  _ ← resend (seq_start e) (e_flags e) (e_bytes e) options;
  _ ← upd (on_stat (fun s => set_st_rexmit (st_rexmit s +32 1) s));
  let rto := u32 (e_rto_ms e * 2) in
  mret (set_sent_at now (set_e_rto_ms (if TCP_RTO_MAX_MS <? rto then TCP_RTO_MAX_MS else rto)
    (set_retries (u8 (retries e + 1)) e))).

(** The loop over the queue of a connection; [before] was already visited. *)
Fixpoint rtx_scan (now : Z) (before todo : list rtx_t) : act unit :=
  match todo with
  | [] => upd (on_tx (set_retransmit_queue before))
  | e :: todo =>
      if e_rto_ms e <=? now -64 sent_at e then
        if TCP_MAX_RETRIES <=? retries e then
          _ ← upd (set_state TCP_STATE_CLOSED);
          _ ← upd (on_tx (set_retransmit_queue (before ++ e :: todo)));
          tcp_retransmit_flush
        else e ← rtx_resend now e; rtx_scan now (before ++ [e]) todo
      else rtx_scan now (before ++ [e]) todo
  end.

(** The body of the loop of [tcp_retransmit_check]. *)
Definition retransmit_conn (now : Z) : act unit :=
  c ← conn_is;
  _ ← when (negb (st_rx (stat c) =? 0) && negb (st_reported (stat c)) && (1500 <=? now -64 st_t_last (stat c)))
        (upd (on_stat tcp_stat_report));
  rtx_scan now [] (retransmit_queue (tx c)).

(** ** The application's side *)

(** One segment of [tcp_send] after the other; how much was sent, or the
    offset at which sending failed. *)
Fixpoint send_segments (fuel : nat) (mss len sent : Z) (data : list Z) : act Z :=
  match fuel with
  | O => mret (s32 sent)
  | S fuel =>
      if negb (sent <? len) then mret (s32 sent)
      else
        let chunk := len -32 sent in
        let chunk := if mss <? chunk then mss else chunk in
        let flags := if len <=? sent +32 chunk then Z.lor TCP_FLAG_ACK TCP_FLAG_PSH else TCP_FLAG_ACK in
        let bytes := ztake chunk (zdrop sent data) in
        c ← conn_is;
        _ ← tcp_retransmit_enqueue (seq_num (tx c)) flags bytes;
        rc ← tcp_send_packet flags bytes;
        if negb (rc =? 0) then mret (if 0 <? sent then s32 sent else - EIO)
        else send_segments fuel mss len (sent +32 chunk) data
  end.

(** What may still be sent: the smaller window minus what is in flight. *)
Definition send_limit (t : snd_t) : Z :=
  let effective_window := if snd_wnd t <? cwnd t then snd_wnd t else cwnd t in
  let in_flight := seq_num t -32 snd_una t in
  if in_flight <? effective_window then effective_window -32 in_flight else 0.

Definition tcp_send (data : list Z) : act Z :=
  c ← conn_is;
  if negb (bool_decide (state c = TCP_STATE_ESTABLISHED) || bool_decide (state c = TCP_STATE_CLOSE_WAIT)) then mret (- ENOTCONN)
  else
    let limit := send_limit (tx c) in
    if limit =? 0 then mret 0
    else
      let len := if limit <? zlen data then limit else zlen data in
      send_segments (Z.to_nat len) (peer_mss (tx c)) len 0 data.

Definition tcp_rx_window_update : act unit :=
  c ← conn_is;
  let mss := if local_mss (adv c) =? 0 then TCP_MAX_MSS else local_mss (adv c) in
  let now := recv_buffer_size (rx c) -32 recv_buffer_used (rx c) in
  if (last_wnd_adv (adv c) <? recv_buffer_size (rx c) / 2) && (last_wnd_adv (adv c) +32 2 * mss <=? now) &&
     (bool_decide (state c = TCP_STATE_ESTABLISHED) || bool_decide (state c = TCP_STATE_FIN_WAIT_1) ||
      bool_decide (state c = TCP_STATE_FIN_WAIT_2))
  then _ ← tcp_send_packet TCP_FLAG_ACK []; mret tt
  else mret tt.

(** The locked part of [tcp_conn_read] and [tcp_socket_recv]. *)
Definition conn_read (len : Z) : act (list Z) :=
  c ← conn_is;
  let '(out, r) := tcp_ring_read_locked len (rx c) in
  _ ← upd (set_rx r);
  _ ← when (negb (zlen out =? 0)) tcp_rx_window_update;
  mret out.

(** Our FIN, queued and sent. *)
Definition send_fin : act unit :=
  c ← conn_is;
  _ ← tcp_retransmit_enqueue (seq_num (tx c)) (Z.lor TCP_FLAG_FIN TCP_FLAG_ACK) [];
  _ ← tcp_send_packet (Z.lor TCP_FLAG_FIN TCP_FLAG_ACK) [];
  mret tt.

(** ** The receive path *)

Definition tcp_handle_syn (h : tcp_header_t) : act unit :=
  c ← conn_is;
  if negb (bool_decide (state c = TCP_STATE_LISTEN)) then mret tt
  else
    _ ← upd (on_rx (set_ack_num (h_seq h +32 1)));
    isn ← on_glob tcp_new_isn;
    _ ← upd (on_tx (fun t => set_initial_seq isn (set_seq_num isn t)));
    let ws := ws_peer (tx c) in
    _ ← upd (on_adv (fun a => set_rcv_wscale (if ws then TCP_RCV_WSCALE else 0) (set_ws_ok ws a)));
    _ ← when (negb ws) (upd (on_tx (set_snd_wscale 0)));
    c ← conn_is;
    _ ← tcp_send_packet_with_options (Z.lor TCP_FLAG_SYN TCP_FLAG_ACK) [] (tcp_syn_options c true);
    upd (set_state TCP_STATE_SYN_RECEIVED).

(** The initial congestion window. *)
Definition initial_window (t : snd_t) : snd_t :=
  let smss := peer_mss t in
  let iw := 2 * smss in
  let iw := if iw <? 4380 then 4380 else iw in
  let iw := if 4 * smss <? iw then 4 * smss else iw in
  set_last_ack_num (snd_una t) (set_cwnd iw t).

(** [case TCP_STATE_SYN_SENT]; the callback to run. *)
Definition syn_sent (h : tcp_header_t) : act Z :=
  if negb (Z.land (h_flags h) (Z.lor TCP_FLAG_SYN TCP_FLAG_ACK) =? Z.lor TCP_FLAG_SYN TCP_FLAG_ACK) then mret 0
  else
    c ← conn_is;
    let ws := ws_peer (tx c) in
    _ ← upd (on_adv (fun a => set_rcv_wscale (if ws then TCP_RCV_WSCALE else 0) (set_ws_ok ws a)));
    _ ← when (negb ws) (upd (on_tx (set_snd_wscale 0)));
    _ ← upd (on_rx (set_ack_num (h_seq h +32 1)));
    _ ← upd (on_tx (set_snd_una (h_ack h)));
    _ ← tcp_retransmit_ack (h_ack h) false;
    _ ← tcp_send_packet TCP_FLAG_ACK [];
    _ ← upd (fun c => set_connected true (set_state TCP_STATE_ESTABLISHED c));
    _ ← upd (on_tx initial_window);
    mret (connect_callback c).

(** [case TCP_STATE_SYN_RECEIVED]. *)
Definition syn_received (h : tcp_header_t) : act Z :=
  c ← conn_is;
  if negb (has (h_flags h) TCP_FLAG_ACK) && has (h_flags h) TCP_FLAG_SYN then
    _ ← resend (initial_seq (tx c)) (Z.lor TCP_FLAG_SYN TCP_FLAG_ACK) [] (tcp_syn_options c true);
    mret 0
  else if has (h_flags h) TCP_FLAG_ACK then
    _ ← upd (fun c => set_connected true (set_state TCP_STATE_ESTABLISHED c));
    _ ← upd (on_tx initial_window);
    _ ← upd (set_connect_callback 0);
    mret (connect_callback c)
  else mret 0.

Definition ack_now : act unit := _ ← tcp_send_packet TCP_FLAG_ACK []; mret tt.

(** The FIN of an established connection, after its payload. *)
Definition established_fin (h : tcp_header_t) (seq payload_len : Z) : act unit :=
  c ← conn_is;
  if has (h_flags h) TCP_FLAG_FIN then
    let fin_seq := seq +32 payload_len in
    if negb (fin_seq =? ack_num (rx c)) then ack_now
    else
      _ ← upd (on_rx (set_ack_num (fin_seq +32 1)));
      _ ← ack_now;
      _ ← upd (set_state TCP_STATE_CLOSE_WAIT);
      when (negb (half_close (own c)))
        (_ ← tcp_send_packet (Z.lor TCP_FLAG_FIN TCP_FLAG_ACK) []; upd (set_state TCP_STATE_LAST_ACK))
  else when (0 <? payload_len) ack_now.

(** Cut off what was received before; sequence number and payload left. *)
Definition trim (ack : Z) (h : tcp_header_t) : Z * list Z :=
  let off := s32 (h_seq h - ack) in
  let plen := zlen (h_payload h) in
  if (off <? 0) && ((u32 (- off) <? plen) || ((u32 (- off) =? plen) && has (h_flags h) TCP_FLAG_FIN))
  then (ack, zdrop (u32 (- off)) (h_payload h))
  else (h_seq h, h_payload h).

(** In-order payload: append, then what was held beyond the gap. *)
Definition take_data (seq : Z) (payload : list Z) : act (Z * Z) :=
  c ← conn_is;
  let '(taken, r) := tcp_handle_data payload (rx c) in
  let r := set_ack_num (seq +32 taken) r in
  let '(merged, r) := if ooo_n r =? 0 then (0, r) else tcp_ooo_merge r in
  _ ← upd (set_rx r);
  _ ← tcp_stat_rx (taken +32 merged);
  mret (taken, merged).

(** [case TCP_STATE_ESTABLISHED]; the bytes for the data callback. *)
Definition established (h : tcp_header_t) : act (option (list Z)) :=
  c ← conn_is;
  if zlen (h_payload h) =? 0 then _ ← established_fin h (h_seq h) 0; mret None
  else
    let '(seq, payload) := trim (ack_num (rx c)) h in
    let off := s32 (seq - ack_num (rx c)) in
    if negb (off =? 0) then
      _ ← when (0 <? off)
            (_ ← upd (on_stat (fun s => set_st_ooo (st_ooo s +32 1) s));
             when (data_callback c =? 0) (upd (on_rx (tcp_ooo_store off payload))));
      _ ← ack_now;
      mret None
    else
      '(taken, merged) ← take_data seq payload;
      let deliver := if 0 <? taken then Some (ztake taken payload) else None in
      _ ← (if taken <? zlen payload then ack_now
           else if negb (merged =? 0) then ack_now
           else established_fin h seq (zlen payload));
      mret deliver.

(** How the locked section ends. *)
Inductive outcome :=
| Keep (connect_cb : Z) (data : option (list Z))
| Destroy.

(** [case TCP_STATE_FIN_WAIT_1]. *)
Definition fin_wait_1_fin (h : tcp_header_t) (deliver : option (list Z)) : act outcome :=
  c ← conn_is;
  if Z.land (h_flags h) (Z.lor TCP_FLAG_FIN TCP_FLAG_ACK) =? Z.lor TCP_FLAG_FIN TCP_FLAG_ACK then
    _ ← upd (on_rx (set_ack_num (u32 (h_seq h + zlen (h_payload h) + 1))));
    _ ← ack_now;
    _ ← upd (set_state TCP_STATE_TIME_WAIT);
    _ ← tcp_retransmit_flush;
    mret (if owned (own c) then Keep 0 deliver else Destroy)
  else if has (h_flags h) TCP_FLAG_FIN then
    _ ← upd (on_rx (set_ack_num (u32 (h_seq h + zlen (h_payload h) + 1))));
    _ ← ack_now;
    _ ← upd (set_state TCP_STATE_CLOSING);
    mret (Keep 0 deliver)
  else mret (Keep 0 deliver).

Definition fin_wait_1 (h : tcp_header_t) : act outcome :=
  c ← conn_is;
  if (0 <? zlen (h_payload h)) && (h_seq h =? ack_num (rx c)) then
    let '(taken, r) := tcp_handle_data (h_payload h) (rx c) in
    _ ← upd (set_rx r);
    _ ← tcp_stat_rx taken;
    let deliver := if 0 <? taken then Some (ztake taken (h_payload h)) else None in
    _ ← upd (on_rx (fun r => set_ack_num (ack_num r +32 taken) r));
    if (taken <? zlen (h_payload h)) || negb (has (h_flags h) TCP_FLAG_FIN) then _ ← ack_now; mret (Keep 0 deliver)
    else fin_wait_1_fin h deliver
  else if 0 <? zlen (h_payload h) then _ ← ack_now; mret (Keep 0 None)
  else fin_wait_1_fin h None.

(** [case TCP_STATE_LAST_ACK]. *)
Definition last_ack (h : tcp_header_t) : act outcome :=
  if has (h_flags h) TCP_FLAG_ACK then
    _ ← tcp_retransmit_flush;
    _ ← upd (set_state TCP_STATE_CLOSED);
    c ← conn_is;
    mret (if disowned (own c) then Destroy else Keep 0 None)
  else mret (Keep 0 None).

(** The RST branch. *)
Definition handle_rst : act outcome :=
  _ ← upd (set_state TCP_STATE_CLOSED);
  _ ← tcp_retransmit_flush;
  c ← conn_is;
  mret (if disowned (own c) || (user_child (own c) && negb (accepted (own c))) then Destroy else Keep 0 None).

(** The locked section of [tcp_handle_packet_in]. *)
Definition tcp_input (h : tcp_header_t) : act outcome :=
  if has (h_flags h) TCP_FLAG_RST then handle_rst
  else
    c ← conn_is;
    let old_snd_wnd := snd_wnd (tx c) in
    _ ← upd (on_tx (fun t => set_snd_wnd
          (if has (h_flags h) TCP_FLAG_SYN then h_window h
           else u32 (Z.shiftl (h_window h) (if ws_ok (adv c) then snd_wscale t else 0)))
          (set_remote_window (h_window h) t)));
    c ← conn_is;
    _ ← when (has (h_flags h) TCP_FLAG_ACK)
          (tcp_retransmit_ack (h_ack h)
             ((zlen (h_payload h) =? 0) && negb (has (h_flags h) (Z.lor TCP_FLAG_SYN TCP_FLAG_FIN)) &&
              (snd_wnd (tx c) =? old_snd_wnd)));
    _ ← when (has (h_flags h) TCP_FLAG_SYN) (upd (on_tx (tcp_parse_options (h_opts h))));
    c ← conn_is;
    match state c with
    | TCP_STATE_LISTEN => _ ← when (has (h_flags h) TCP_FLAG_SYN) (tcp_handle_syn h); mret (Keep 0 None)
    | TCP_STATE_SYN_SENT => cb ← syn_sent h; mret (Keep cb None)
    | TCP_STATE_SYN_RECEIVED => cb ← syn_received h; mret (Keep cb None)
    | TCP_STATE_ESTABLISHED => d ← established h; mret (Keep 0 d)
    | TCP_STATE_FIN_WAIT_1 => fin_wait_1 h
    | TCP_STATE_LAST_ACK => last_ack h
    | _ => mret (Keep 0 None)
    end.
End connection.
