(* ===== verification/TcpTable.v ===== *)
(** * TCP: the connection list, listeners and sockets

    The rest of src/net_tcp.c: creating and destroying connections, the entry
    point of the receive path, timers and the socket layer.  A computation is
    [None] when it follows a pointer to a connection or socket that is not
    allocated. *)
From S2P Require Import Prelude Heap TcpRecv TcpConn TcpSeg Tcp.

Definition TCP_MAX_LISTENERS : Z := 8.
Definition TCP_MAX_CONNECTIONS : Z := 16.
Definition TCP_DEFAULT_BUFFER_SIZE : Z := 4096.
Definition TCP_TIME_WAIT_TIMEOUT : Z := 60000.
Definition TCP_STALE_CONN_TIMEOUT : Z := 120000.
(** [sizeof] of [tcp_connection_t] and [tcp_socket_t]. *)
Definition conn_size : Z := 312.
Definition sock_size : Z := 16.

Record tcp_socket_t := mk_sock { socket_fd : Z; connection : Z }.

Section table.
Context {W : Type} `{!KHeap W} `{!NetDown W}.

(** [tcp_connections] in list order, the registered listeners (port and
    callback), and the sockets by address. *)
Record tcp := mk_tcp {
  t_glob : glob (W := W);
  tcp_connections : list tcp_connection_t;
  tcp_listeners : list (Z * Z);
  tcp_sockets : list (Z * tcp_socket_t);
}.

Definition set_glob (g : glob) (s : tcp) : tcp := mk_tcp g (tcp_connections s) (tcp_listeners s) (tcp_sockets s).
Definition set_connections (v : list tcp_connection_t) (s : tcp) : tcp := mk_tcp (t_glob s) v (tcp_listeners s) (tcp_sockets s).
Definition set_listeners (v : list (Z * Z)) (s : tcp) : tcp := mk_tcp (t_glob s) (tcp_connections s) v (tcp_sockets s).
Definition set_sockets (v : list (Z * tcp_socket_t)) (s : tcp) : tcp := mk_tcp (t_glob s) (tcp_connections s) (tcp_listeners s) v.

Definition M (A : Type) : Type := tcp -> option (A * tcp).
#[export] Instance M_ret : MRet M := fun A a s => Some (a, s).
#[export] Instance M_bind : MBind M := fun A B f m s => match m s with Some (a, s) => f a s | None => None end.
Definition undef {A} : M A := fun _ => None.
Definition state_is : M tcp := fun s => Some (s, s).
Definition modify (f : tcp -> tcp) : M unit := fun s => Some (tt, f s).
Definition globally {A} (f : glob -> A * glob) : M A := fun s => let '(a, g) := f (t_glob s) in Some (a, set_glob g s).
Definition tworld {A} (f : W -> A * W) : M A := globally (fun g => let '(a, w) := f (g_world g) in (a, set_world w g)).
Definition now_m : M Z := fun s => Some (ktime_now_ms (g_world (t_glob s)), s).
Definition event (e : tcp_event) : M unit := globally (fun g => (tt, add_event e g)).
Definition whenM (b : bool) (m : M unit) : M unit := if b then m else mret tt.

(** Following a connection pointer. *)
Definition conn_at (p : Z) (cs : list tcp_connection_t) : option tcp_connection_t := List.find (fun c => self c =? p) cs.
Definition put_conn (c : tcp_connection_t) (cs : list tcp_connection_t) : list tcp_connection_t :=
  (fun d => if self d =? self c then c else d) <$> cs.
Definition deref (p : Z) : M tcp_connection_t :=
  fun s => match conn_at p (tcp_connections s) with Some c => Some (c, s) | None => None end.
Definition on_conn {A} (p : Z) (m : act A) : M A :=
  fun s => match conn_at p (tcp_connections s) with
           | Some c => let '(a, (c', g)) := m (c, t_glob s) in Some (a, set_connections (put_conn c' (tcp_connections s)) (set_glob g s))
           | None => None
           end.
Definition updM (p : Z) (f : tcp_connection_t -> tcp_connection_t) : M unit := on_conn p (upd f).

(** Following a socket pointer. *)
Definition sock_at (p : Z) (l : list (Z * tcp_socket_t)) : option tcp_socket_t := snd <$> List.find (fun x => x.1 =? p) l.
Definition sock_is (p : Z) : M tcp_socket_t :=
  fun s => match sock_at p (tcp_sockets s) with Some k => Some (k, s) | None => None end.
Definition put_sock (p : Z) (k : tcp_socket_t) : M unit :=
  modify (fun s => set_sockets ((fun x => if x.1 =? p then (p, k) else x) <$> tcp_sockets s) s).

(** ** Lookup *)

Definition conn_matches (local_ip : list Z) (local_port : Z) (remote_ip : list Z) (remote_port : Z) (c : tcp_connection_t) : bool :=
  bool_decide (TcpConn.local_ip c = local_ip) && bool_decide (TcpConn.remote_ip c = remote_ip) &&
  (TcpConn.local_port c =? local_port) && (TcpConn.remote_port c =? remote_port).
Definition tcp_find_connection (local_ip : list Z) (local_port : Z) (remote_ip : list Z) (remote_port : Z) (cs : list tcp_connection_t) : Z :=
  match List.find (conn_matches local_ip local_port remote_ip remote_port) cs with Some c => self c | None => 0 end.

Definition tcp_find_listener (port : Z) (ls : list (Z * Z)) : option (Z * Z) := List.find (fun l => l.1 =? port) ls.

Definition is_user_listen (port : Z) (c : tcp_connection_t) : bool :=
  bool_decide (state c = TCP_STATE_LISTEN) && owned (own c) && (local_port c =? port) && (remote_port c =? 0) && negb (user_child (own c)).
Definition tcp_find_user_listen (port : Z) (cs : list tcp_connection_t) : Z :=
  match List.find (is_user_listen port) cs with Some c => self c | None => 0 end.

Definition port_used (ip : list Z) (port : Z) (cs : list tcp_connection_t) : bool :=
  existsb (fun c => (local_port c =? port) && bool_decide (local_ip c = ip)) cs.
Fixpoint pick_port (tries : nat) (ip : list Z) (cs : list tcp_connection_t) (g : glob (W := W)) : Z * glob (W := W) :=
  match tries with
  | O => (0, g)
  | S tries =>
      let p := tcp_next_port g in
      let g := set_next_port (if 65535 <=? p then 49152 else u16 (p + 1)) g in
      if port_used ip p cs then pick_port tries ip cs g else (p, g)
  end.
Definition tcp_pick_ephemeral (ip : list Z) (cs : list tcp_connection_t) (g : glob (W := W)) : Z * glob (W := W) :=
  let g := if tcp_next_port g =? 0
           then set_next_port (u16 (49152 + u32 (Z.shiftr (rdtsc (g_world g)) 4) mod 16384)) g else g in
  pick_port (Z.to_nat 16384) ip cs g.

Definition tcp_get_connection_count (s : tcp) : Z := s32 (zlen (tcp_connections s)).

(** ** Creating and destroying *)

(** The fields after [memset] and the initialisation. *)
Definition new_conn (p send_buf recv_buf now : Z) (local_ip : list Z) (local_port : Z) (remote_ip : list Z) (remote_port : Z) : tcp_connection_t :=
  mk_conn p local_ip remote_ip local_port remote_port TCP_STATE_CLOSED false
    (mk_snd 0 0 0 TCP_DEFAULT_BUFFER_SIZE TCP_DEFAULT_MSS TCP_MAX_MSS 65535 0 0 false [] TCP_RTO_MIN_MS TCP_DEFAULT_BUFFER_SIZE 0 false)
    (mk_rcv recv_buf (replicate (Z.to_nat TCP_RECV_BUFFER_SIZE) 0) TCP_RECV_BUFFER_SIZE 0 0 0 [])
    (mk_adv TCP_MAX_MSS 0 0 false) (mk_own false false false false false) now 0 0 send_buf
    (mk_stat 0 0 0 0 0 0 0 false).

Definition tcp_create_connection (local_ip : list Z) (local_port : Z) (remote_ip : list Z) (remote_port : Z) : M Z :=
  s ← state_is;
  if TCP_MAX_CONNECTIONS <=? zlen (tcp_connections s) then mret 0
  else
    p ← tworld (hp_kalloc conn_size);
    if p =? 0 then mret 0
    else
      send_buf ← tworld (hp_kalloc TCP_DEFAULT_BUFFER_SIZE);
      recv_buf ← tworld (hp_kalloc TCP_RECV_BUFFER_SIZE);
      if (send_buf =? 0) || (recv_buf =? 0) then
        _ ← whenM (negb (send_buf =? 0)) (tworld (fun w => (tt, hp_kfree send_buf w)));
        _ ← whenM (negb (recv_buf =? 0)) (tworld (fun w => (tt, hp_kfree recv_buf w)));
        _ ← tworld (fun w => (tt, hp_kfree p w));
        mret 0
      else
        now ← now_m;
        _ ← modify (fun s => set_connections (new_conn p send_buf recv_buf now local_ip local_port remote_ip remote_port :: tcp_connections s) s);
        mret p.

(** What a connection owns, freed. *)
Definition release : act unit :=
  c ← conn_is;
  _ ← tcp_retransmit_flush;
  _ ← when (negb (send_buffer c =? 0)) (kfree_t (send_buffer c));
  _ ← when (negb (recv_buffer (rx c) =? 0)) (kfree_t (recv_buffer (rx c)));
  kfree_t (self c).

Definition tcp_destroy_connection_locked (p : Z) : M unit :=
  _ ← on_conn p release;
  modify (fun s => set_connections (List.filter (fun c => negb (self c =? p)) (tcp_connections s)) s).

(** ** Timers *)

Definition stale (now : Z) (c : tcp_connection_t) : bool :=
  let idle_time := now -64 last_activity c in
  if owned (own c) then false
  else if bool_decide (state c = TCP_STATE_TIME_WAIT) && (TCP_TIME_WAIT_TIMEOUT <? idle_time) then true
  else if (bool_decide (state c = TCP_STATE_SYN_SENT) || bool_decide (state c = TCP_STATE_SYN_RECEIVED) ||
           bool_decide (state c = TCP_STATE_CLOSING) || bool_decide (state c = TCP_STATE_LAST_ACK)) &&
          (TCP_STALE_CONN_TIMEOUT <? idle_time) then true
  else bool_decide (state c = TCP_STATE_CLOSED) && (TCP_STALE_CONN_TIMEOUT <? idle_time).

(** A loop over the list; the next pointer is read before the body runs. *)
Fixpoint each (body : Z -> M unit) (ps : list Z) : M unit :=
  match ps with
  | [] => mret tt
  | p :: ps => _ ← body p; each body ps
  end.

Definition tcp_cleanup_stale_connections : M unit :=
  s ← state_is;
  now ← now_m;
  each (fun p => c ← deref p; whenM (stale now c) (tcp_destroy_connection_locked p)) (self <$> tcp_connections s).

Definition tcp_retransmit_check : M unit :=
  s ← state_is;
  now ← now_m;
  each (fun p => on_conn p (retransmit_conn now)) (self <$> tcp_connections s).

(** ** Opening and closing *)

(** The locked part of [tcp_connect]: the result of sending the SYN. *)
Definition connect_conn (connect_callback isn : Z) : act Z :=
  now ← tcp_now_ms;
  _ ← upd (fun c => set_state TCP_STATE_SYN_SENT (set_connect_callback connect_callback c));
  _ ← upd (on_tx (fun t => set_snd_una isn (set_initial_seq isn (set_seq_num isn t))));
  _ ← upd (on_stat (set_st_t_open now));
  _ ← tcp_retransmit_enqueue isn TCP_FLAG_SYN [];
  c ← conn_is;
  tcp_send_packet_with_options TCP_FLAG_SYN [] (tcp_syn_options c false).

Definition tcp_connect (remote_ip : list Z) (remote_port connect_callback : Z) : M Z :=
  s ← state_is;
  let local_ip := ip_select_src remote_ip (g_world (t_glob s)) in
  local_port ← globally (tcp_pick_ephemeral local_ip (tcp_connections s));
  if local_port =? 0 then mret 0
  else
    p ← tcp_create_connection local_ip local_port remote_ip remote_port;
    if p =? 0 then mret 0
    else
      isn ← globally tcp_new_isn;
      rc ← on_conn p (connect_conn connect_callback isn);
      if rc =? 0 then mret p
      else
        _ ← on_conn p tcp_retransmit_flush;
        _ ← tcp_destroy_connection_locked p;
        mret 0.

(** A child of the listener [c] that nobody accepted. *)
Definition orphan_of (c d : tcp_connection_t) : bool :=
  negb (self d =? self c) && user_child (own d) && negb (accepted (own d)) && (local_port d =? local_port c).

Definition tcp_close (p : Z) : M Z :=
  if p =? 0 then mret (- EINVAL)
  else
    _ ← updM p (on_own (fun o => set_half_close false (set_owned false (if owned o then set_disowned true o else o))));
    c ← deref p;
    s ← state_is;
    _ ← whenM (bool_decide (state c = TCP_STATE_LISTEN) && disowned (own c) && negb (user_child (own c)))
          (each (fun q => d ← deref q; whenM (orphan_of c d) (tcp_destroy_connection_locked q)) (self <$> tcp_connections s));
    _ ← (match state c with
         | TCP_STATE_ESTABLISHED => on_conn p (_ ← upd (set_state TCP_STATE_FIN_WAIT_1); send_fin)
         | TCP_STATE_CLOSE_WAIT => on_conn p (_ ← upd (set_state TCP_STATE_LAST_ACK); send_fin)
         | TCP_STATE_LAST_ACK => mret tt
         | _ => tcp_destroy_connection_locked p
         end);
    mret 0.

(** ** Receiving a frame *)

Definition tcp_send_rst_raw (local_ip : list Z) (local_port : Z) (remote_ip : list Z) (remote_port seq ack flags : Z) : M unit :=
  _ ← tworld (ip_send_packet remote_ip 6 (tcp_rst_packet local_ip local_port remote_ip remote_port seq ack flags));
  mret tt.

(** The connection of a segment: the existing one, or a new one in LISTEN for
    a SYN to a listener; anything else is answered with RST. *)
Definition tcp_rx_conn (sg : segment) : M Z :=
  s ← state_is;
  let found := tcp_find_connection (sg_dst_ip sg) (sg_dst_port sg) (sg_src_ip sg) (sg_src_port sg) (tcp_connections s) in
  if negb (found =? 0) then mret found
  else if has (sg_rx_flags sg) TCP_FLAG_SYN then
    match tcp_find_listener (sg_dst_port sg) (tcp_listeners s) with
    | Some (_, accept_callback) =>
        p ← tcp_create_connection (sg_dst_ip sg) (sg_dst_port sg) (sg_src_ip sg) (sg_src_port sg);
        if p =? 0 then mret 0
        else
          _ ← updM p (fun c => set_connect_callback accept_callback (set_state TCP_STATE_LISTEN c));
          mret p
    | None =>
        if tcp_find_user_listen (sg_dst_port sg) (tcp_connections s) =? 0 then
          _ ← tcp_send_rst_raw (sg_dst_ip sg) (sg_dst_port sg) (sg_src_ip sg) (sg_src_port sg)
                0 (sg_rx_seq sg +32 1) (Z.lor TCP_FLAG_RST TCP_FLAG_ACK);
          mret 0
        else
          p ← tcp_create_connection (sg_dst_ip sg) (sg_dst_port sg) (sg_src_ip sg) (sg_src_port sg);
          if p =? 0 then mret 0
          else
            _ ← updM p (fun c => on_own (fun o => set_half_close true (set_user_child true o)) (set_state TCP_STATE_LISTEN c));
            mret p
    end
  else if has (sg_rx_flags sg) TCP_FLAG_RST then mret 0
  else
    _ ← tcp_send_rst_raw (sg_dst_ip sg) (sg_dst_port sg) (sg_src_ip sg) (sg_src_port sg) (sg_rx_ack sg) 0 TCP_FLAG_RST;
    mret 0.

(** After the lookup: the header, the locked section, the callbacks. *)
Definition tcp_rx_conn_input (frame : list Z) (sg : segment) (p : Z) : M unit :=
  now ← now_m;
  _ ← updM p (set_last_activity now);
  match tcp_read_header frame sg with
  | None => mret tt
  | Some h =>
      o ← on_conn p (tcp_input h);
      match o with
      | Destroy => tcp_destroy_connection_locked p
      | Keep connect_cb data =>
          _ ← whenM (negb (connect_cb =? 0)) (event (ConnectCallback connect_cb p));
          match data with
          | None => mret tt
          | Some bytes =>
              c ← deref p;
              whenM (negb (data_callback c =? 0)) (event (DataCallback (data_callback c) p bytes))
          end
      end
  end.

Definition tcp_handle_packet_in (frame : list Z) : M unit :=
  match tcp_accept_frame frame with
  | None => mret tt
  | Some sg => p ← tcp_rx_conn sg; if p =? 0 then mret tt else tcp_rx_conn_input frame sg p
  end.

Definition tcp_handle_packet (frame : list Z) : M unit := _ ← tcp_handle_packet_in frame; event KpollWake.

(** ** Kernel clients and sockets *)

Definition tcp_listen (port accept_callback : Z) : M Z :=
  s ← state_is;
  if accept_callback =? 0 then mret (- EINVAL)
  else if TCP_MAX_LISTENERS <=? zlen (tcp_listeners s) then mret (- ENOMEM)
  else match tcp_find_listener port (tcp_listeners s) with
       | Some _ =>
           _ ← modify (set_listeners ((fun l => if l.1 =? port then (port, accept_callback) else l) <$> tcp_listeners s));
           mret 0
       | None => _ ← modify (set_listeners (tcp_listeners s ++ [(port, accept_callback)])); mret 0
       end.

Definition tcp_conn_send (p : Z) (data : list Z) : M Z := if p =? 0 then mret (- EINVAL) else on_conn p (tcp_send data).
Definition tcp_conn_read (p len : Z) : M (list Z) :=
  if p =? 0 then mret [] else c ← deref p; if recv_buffer (rx c) =? 0 then mret [] else on_conn p (conn_read len).

Definition tcp_socket_create : M Z :=
  p ← tworld (hp_kalloc sock_size);
  if p =? 0 then mret 0 else _ ← modify (fun s => set_sockets ((p, mk_sock (-1) 0) :: tcp_sockets s) s); mret p.

Definition tcp_socket_bind (sock port : Z) : M Z :=
  if sock =? 0 then mret (- EINVAL)
  else
    s ← state_is;
    p ← tcp_create_connection (net_get_ip_address (g_world (t_glob s))) port [0; 0; 0; 0] 0;
    if p =? 0 then mret (- ENOBUFS)
    else
      _ ← updM p (fun c => on_own (set_owned true) (set_state TCP_STATE_LISTEN c));
      _ ← sock_is sock;
      _ ← put_sock sock (mk_sock 0 p);
      mret 0.

(** The connection of a socket that is not [NULL]. *)
Definition sock_conn (sock : Z) : M Z := if sock =? 0 then mret 0 else k ← sock_is sock; mret (connection k).

Definition tcp_socket_listen (sock : Z) : M Z :=
  p ← sock_conn sock;
  if p =? 0 then mret (- EINVAL) else _ ← updM p (set_state TCP_STATE_LISTEN); mret 0.

Definition acceptable (p port : Z) (c : tcp_connection_t) : bool :=
  negb (self c =? p) && user_child (own c) && negb (accepted (own c)) && negb (remote_port c =? 0) &&
  (bool_decide (state c = TCP_STATE_ESTABLISHED) || bool_decide (state c = TCP_STATE_CLOSE_WAIT)) && (local_port c =? port).

Definition tcp_socket_accept (sock : Z) : M Z :=
  p ← sock_conn sock;
  if p =? 0 then mret 0
  else
    l ← deref p;
    s ← state_is;
    match List.find (acceptable p (local_port l)) (tcp_connections s) with
    | None => mret 0
    | Some c =>
        _ ← updM (self c) (on_own (fun o => set_owned true (set_accepted true o)));
        new_sock ← tcp_socket_create;
        if new_sock =? 0 then _ ← tcp_close (self c); mret 0
        else _ ← put_sock new_sock (mk_sock 1 (self c)); mret new_sock
    end.

Definition tcp_socket_connect (sock : Z) (remote_ip : list Z) (remote_port : Z) : M Z :=
  if sock =? 0 then mret (- EINVAL)
  else
    p ← tcp_connect remote_ip remote_port 0;
    if p =? 0 then mret (- ECONNREFUSED)
    else
      _ ← updM p (on_own (fun o => set_half_close true (set_owned true o)));
      _ ← sock_is sock;
      _ ← put_sock sock (mk_sock 2 p);
      mret 0.

Definition tcp_socket_send (sock : Z) (data : list Z) : M Z :=
  p ← sock_conn sock; if p =? 0 then mret (- ENOTCONN) else on_conn p (tcp_send data).

(** The return value and the bytes stored into the caller's buffer. *)
Definition tcp_socket_recv (sock max_len : Z) : M (Z * list Z) :=
  p ← sock_conn sock;
  if p =? 0 then mret (- ENOTCONN, [])
  else
    c ← deref p;
    if recv_buffer (rx c) =? 0 then mret (- ENOTCONN, [])
    else out ← on_conn p (conn_read max_len); mret (s32 (zlen out), out).

Definition tcp_socket_close (sock : Z) : M Z :=
  if sock =? 0 then mret (- EINVAL)
  else
    k ← sock_is sock;
    _ ← whenM (negb (connection k =? 0)) (_ ← tcp_close (connection k); mret tt);
    _ ← tworld (fun w => (tt, hp_kfree sock w));
    _ ← modify (fun s => set_sockets (List.filter (fun x => negb (x.1 =? sock)) (tcp_sockets s)) s);
    mret 0.

Definition tcp_socket_accept_ready (sock : Z) : M Z :=
  p ← sock_conn sock;
  if p =? 0 then mret 0
  else
    l ← deref p;
    s ← state_is;
    mret (if existsb (fun c => negb (self c =? p) && user_child (own c) && negb (accepted (own c)) &&
            (local_port c =? local_port l) &&
            (bool_decide (state c = TCP_STATE_ESTABLISHED) || bool_decide (state c = TCP_STATE_CLOSE_WAIT))) (tcp_connections s)
          then 1 else 0).

Definition tcp_socket_shutdown_wr (sock : Z) : M Z :=
  p ← sock_conn sock;
  if p =? 0 then mret (- ENOTCONN)
  else
    c ← deref p;
    _ ← (match state c with
         | TCP_STATE_ESTABLISHED => on_conn p (_ ← upd (set_state TCP_STATE_FIN_WAIT_1); send_fin)
         | TCP_STATE_CLOSE_WAIT => on_conn p (_ ← upd (set_state TCP_STATE_LAST_ACK); send_fin)
         | _ => mret tt
         end);
    mret 0.
End table.
