(* ===== verification/TcpFrame.v ===== *)
(** * TCP: what the connection operations leave alone

    [keeps f m]: the action [m] does not change the part [f] of the connection. *)
From S2P Require Import Prelude Heap TcpRecv TcpConn TcpSeg Tcp.

Create HintDb tcp.

Section frame.
Context {W : Type} `{!KHeap W} `{!NetDown W}.
Abbreviation act := (act (W := W)).

Definition keeps {A X} (f : tcp_connection_t -> X) (m : act A) : Prop := forall s, f (m s).2.1 = f s.1.

Section part.
Context {X : Type} (f : tcp_connection_t -> X).

Lemma keeps_ret {A} (a : A) : keeps f (mret a).
Proof. done. Qed.
Lemma keeps_seq {A B} (m : act A) (k : A -> act B) : keeps f m -> (forall a, keeps f (k a)) -> keeps f (m ≫= k).
Proof. intros Hm Hk s. unfold mbind, act_bind. specialize (Hm s). destruct (m s) as [a s']. cbn in *. by rewrite Hk. Qed.
Lemma keeps_conn_is : keeps f conn_is.
Proof. done. Qed.
Lemma keeps_now : keeps f tcp_now_ms.
Proof. done. Qed.
Lemma keeps_upd (u : tcp_connection_t -> tcp_connection_t) : (forall c, f (u c) = f c) -> keeps f (upd u).
Proof. intros Hu [c g]. apply Hu. Qed.
Lemma keeps_world {A} (h : W -> A * W) : keeps f (world h).
Proof. intros [c g]. cbn. by destruct (h _). Qed.
Lemma keeps_glob {A} (h : glob -> A * glob) : keeps f (on_glob h).
Proof. intros [c g]. cbn. by destruct (h _). Qed.
Lemma keeps_when b (m : act unit) : keeps f m -> keeps f (when b m).
Proof. by destruct b. Qed.
Lemma keeps_if {A} (b : bool) (m1 m2 : act A) : keeps f m1 -> keeps f m2 -> keeps f (if b then m1 else m2).
Proof. by destruct b. Qed.
End part.
End frame.

(** Walk through an action; what is left are the updates. *)
Ltac keep :=
  repeat lazymatch goal with
  | |- forall _, _ => intro
  | |- keeps _ (mret _) => apply keeps_ret
  | |- keeps _ (_ ≫= _) => apply keeps_seq
  | |- keeps _ conn_is => apply keeps_conn_is
  | |- keeps _ tcp_now_ms => apply keeps_now
  | |- keeps _ (world _) => apply keeps_world
  | |- keeps _ (kalloc_t _) => apply keeps_world
  | |- keeps _ (kfree_t _) => apply keeps_world
  | |- keeps _ (on_glob _) => apply keeps_glob
  | |- keeps _ (when _ _) => apply keeps_when
  | |- keeps _ (if ?b then _ else _) => destruct b
  | |- keeps _ (match ?x with _ => _ end) => destruct x
  | |- keeps _ (upd _) => first [assumption | solve [eauto 2 with tcp] | apply keeps_upd]
  | |- keeps _ _ => first [assumption | solve [eauto 2 with tcp]]
  | |- _ = _ => reflexivity
  end.

(** Parts of the connection that sending does not touch. *)
Class steady {X} (f : tcp_connection_t -> X) : Prop := {
  st_tx t c : f (set_tx t c) = f c;
  st_adv a c : f (set_adv a c) = f c;
  st_stat s c : f (set_stat s c) = f c;
}.

Section sending.
Context {W : Type} `{!KHeap W} `{!NetDown W}.
Context {X : Type} (f : tcp_connection_t -> X) `{!steady f}.

Lemma keeps_on_tx u : keeps (W := W) f (upd (on_tx u)).
Proof. apply keeps_upd. intros. apply st_tx. Qed.
Lemma keeps_on_adv u : keeps (W := W) f (upd (on_adv u)).
Proof. apply keeps_upd. intros. apply st_adv. Qed.
Lemma keeps_on_stat u : keeps (W := W) f (upd (on_stat u)).
Proof. apply keeps_upd. intros. apply st_stat. Qed.
#[local] Hint Resolve keeps_on_tx keeps_on_adv keeps_on_stat : tcp.

Lemma keeps_send_options flags data options : keeps (W := W) f (tcp_send_packet_with_options flags data options).
Proof.
unfold tcp_send_packet_with_options. keep.
Qed.
#[local] Hint Resolve keeps_send_options : tcp.
Lemma keeps_send flags data : keeps (W := W) f (tcp_send_packet flags data).
Proof. apply keeps_send_options. Qed.
Lemma keeps_resend seq flags data options : keeps (W := W) f (resend seq flags data options).
Proof. unfold resend. keep. Qed.
#[local] Hint Resolve keeps_send keeps_resend : tcp.
Lemma keeps_enqueue seq flags data : keeps (W := W) f (tcp_retransmit_enqueue seq flags data).
Proof. unfold tcp_retransmit_enqueue. keep. Qed.
Lemma keeps_free_entries q : keeps (W := W) f (free_entries q).
Proof. induction q; cbn; [keep|]. unfold free_entry. keep. Qed.
#[local] Hint Resolve keeps_enqueue keeps_free_entries : tcp.
Lemma keeps_flush : keeps (W := W) f tcp_retransmit_flush.
Proof. unfold tcp_retransmit_flush. keep. Qed.
Lemma keeps_drop_acked a q : keeps (W := W) f (drop_acked a q).
Proof. induction q; cbn; [keep|]. unfold free_entry. keep. Qed.
#[local] Hint Resolve keeps_flush keeps_drop_acked : tcp.
Lemma keeps_fast_retransmit mss : keeps (W := W) f (fast_retransmit mss).
Proof. unfold fast_retransmit. keep. Qed.
#[local] Hint Resolve keeps_fast_retransmit : tcp.
Lemma keeps_retransmit_ack a p : keeps (W := W) f (tcp_retransmit_ack a p).
Proof. unfold tcp_retransmit_ack. keep. Qed.
Lemma keeps_stat_rx n : keeps (W := W) f (tcp_stat_rx n).
Proof. unfold tcp_stat_rx. keep. Qed.
Lemma keeps_rtx_resend now e : keeps (W := W) f (rtx_resend now e).
Proof. unfold rtx_resend. keep. Qed.
Lemma keeps_send_segments fuel mss len sent data : keeps (W := W) f (send_segments fuel mss len sent data).
Proof. revert sent. induction fuel; intros; cbn; keep. Qed.
#[local] Hint Resolve keeps_retransmit_ack keeps_stat_rx keeps_rtx_resend keeps_send_segments : tcp.
Lemma keeps_tcp_send data : keeps (W := W) f (tcp_send data).
Proof. unfold tcp_send. keep. Qed.
Lemma keeps_window_update : keeps (W := W) f tcp_rx_window_update.
Proof. unfold tcp_rx_window_update. keep. Qed.
Lemma keeps_send_fin : keeps (W := W) f send_fin.
Proof. unfold send_fin. keep. Qed.
Lemma keeps_ack_now : keeps (W := W) f ack_now.
Proof. unfold ack_now. keep. Qed.
End sending.

#[export] Hint Resolve keeps_on_tx keeps_on_adv keeps_on_stat keeps_send_options keeps_send keeps_resend keeps_enqueue
  keeps_free_entries keeps_flush keeps_drop_acked keeps_fast_retransmit keeps_retransmit_ack keeps_stat_rx
  keeps_rtx_resend keeps_send_segments keeps_tcp_send keeps_window_update keeps_send_fin keeps_ack_now : tcp.
#[export] Hint Extern 1 (steady _) => typeclasses eauto : tcp.

(** The receive ring, the ownership flags and the callbacks are not touched by
    sending. *)
#[export] Instance rx_steady : steady rx.
Proof. done. Qed.
#[export] Instance own_steady : steady own.
Proof. done. Qed.
#[export] Instance state_steady : steady state.
Proof. done. Qed.
#[export] Instance self_steady : steady self.
Proof. done. Qed.
#[export] Instance data_callback_steady : steady data_callback.
Proof. done. Qed.
#[export] Instance pair_steady {X Y} (f : tcp_connection_t -> X) (g : tcp_connection_t -> Y) :
  steady f -> steady g -> steady (fun c => (f c, g c)).
Proof. intros Hf Hg. constructor; intros; f_equal; apply Hf || apply Hg. Qed.
