(* ===== verification/TcpStream.v ===== *)
(** * TCP: the byte stream

    Whatever order segments arrive in, repeated or overlapping, the application
    reads the bytes the peer sent, in order and each once, and no byte is
    acknowledged that did not arrive. *)
From stdpp Require Import sorting.
From S2P Require Import Prelude Heap TcpRecv TcpRanges TcpWindow TcpConn TcpSeg Tcp TcpFrame.

(** The part of a connection that matters to the receiver. *)
Record rview := mk_rview { v_rx : rcv_t; v_state : tcp_state_t; v_callback : Z }.
Definition rxst (c : tcp_connection_t) : rview := mk_rview (rx c) (state c) (data_callback c).
#[export] Instance rxst_steady : steady rxst.
Proof. done. Qed.

Section stream.
Context {W : Type} `{!KHeap W} `{!NetDown W}.
Abbreviation act := (act (W := W)).
Context (str : Z -> Z) (irs : Z).

(** The receiving side in each state.  After a FIN the acknowledgement number is
    beyond the data, and no more data is taken.  [b] is the position of the next
    byte to be read. *)
Definition stream_inv (b a : Z) (held : list (Z * Z)) (x : rview) : Prop :=
  rcv_ok str irs a held (set_ack_num (seq_of irs a) (v_rx x)) /\ a - recv_buffer_used (v_rx x) = b /\
  match v_state x with
  | TCP_STATE_ESTABLISHED => ack_num (v_rx x) = seq_of irs a /\ gaps a held
  | TCP_STATE_FIN_WAIT_1 => ack_num (v_rx x) = seq_of irs a
  | TCP_STATE_LISTEN | TCP_STATE_SYN_SENT | TCP_STATE_SYN_RECEIVED => False
  | _ => True
  end.

(** Triples over this part. *)
Definition holds {A} (P : rview -> Prop) (m : act A) (Q : A -> rview -> Prop) : Prop :=
  forall s, P (rxst s.1) -> Q (m s).1 (rxst (m s).2.1).

Lemma holds_bind {A B} P (m : act A) (k : A -> act B) Q R :
  holds P m Q -> (forall a, holds (Q a) (k a) R) -> holds P (m ≫= k) R.
Proof. intros Hm Hk s Hs. unfold mbind, act_bind. specialize (Hm s Hs). destruct (m s) as [a s']. by apply Hk. Qed.
Lemma holds_keeps {A} P (m : act A) : keeps rxst m -> holds P m (fun _ => P).
Proof. intros Hk s Hs. by rewrite Hk. Qed.
Lemma holds_frame {A} (P Q : rview -> Prop) (m : act A) :
  keeps rxst m -> (forall x, P x -> Q x) -> holds P m (fun _ => Q).
Proof. intros Hk HPQ s Hs. rewrite Hk. by apply HPQ. Qed.
Lemma holds_upd (P Q : rview -> Prop) u :
  (forall c, P (rxst c) -> Q (rxst (u c))) -> holds P (upd u) (fun _ => Q).
Proof. intros Hu [c g] Hs. by apply Hu. Qed.
Lemma holds_ret {A} (P : A -> rview -> Prop) (a : A) : holds (P a) (mret a) P.
Proof. by intros s Hs. Qed.
Lemma holds_conn_is {B} P (k : tcp_connection_t -> act B) Q :
  (forall c, P (rxst c) -> holds (fun x => x = rxst c) (k c) Q) -> holds P (conn_is ≫= k) Q.
Proof. intros Hk s Hs. by apply (Hk s.1 Hs). Qed.
Lemma holds_weaken {A} (P P' : rview -> Prop) (m : act A) (Q Q' : A -> rview -> Prop) :
  holds P' m Q' -> (forall x, P x -> P' x) -> (forall a x, Q' a x -> Q a x) -> holds P m Q.
Proof. intros Hm HP HQ s Hs. apply HQ, Hm, HP, Hs. Qed.
Lemma holds_when P b (m : act unit) : holds P m (fun _ => P) -> holds P (when b m) (fun _ => P).
Proof. intros Hm. destruct b; [done | by intros s Hs]. Qed.

(** A new acknowledgement number on the way out of the data states. *)
Lemma inv_closed b a held r st st' cb v :
  stream_inv b a held (mk_rview r st cb) ->
  match st' with TCP_STATE_CLOSE_WAIT | TCP_STATE_LAST_ACK | TCP_STATE_TIME_WAIT | TCP_STATE_CLOSING | TCP_STATE_CLOSED => True | _ => False end ->
  stream_inv b a held (mk_rview (set_ack_num v r) st' cb) /\ stream_inv b a held (mk_rview r st' cb).
Proof. intros (Hok & Hu & _) Hst. split; (split; [by destruct r | split; [done | by destruct st']]). Qed.

Lemma established_fin_ok b a held h seq len :
  holds (fun x => stream_inv b a held x /\ v_state x = TCP_STATE_ESTABLISHED) (established_fin (W := W) h seq len)
    (fun _ => stream_inv b a held).
Proof.
  unfold established_fin. apply holds_conn_is. intros c [Hinv Hst].
  destruct (has (h_flags h) TCP_FLAG_FIN).
  - case_if.
    + apply holds_frame; [apply keeps_ack_now, _ | by intros x ->].
    + unfold rxst in Hinv, Hst. cbn in Hst.
      eapply holds_bind; [apply (holds_upd _ (fun x => x = mk_rview (set_ack_num ((seq +32 len) +32 1) (rx c)) TCP_STATE_ESTABLISHED (data_callback c)))|].
      { intros d [= Hr Hs Hb]. unfold rxst; cbn. by rewrite Hr, Hs, Hb, Hst. }
      intros []. eapply holds_bind; [apply holds_keeps, keeps_ack_now, _|]. intros [].
      eapply holds_bind.
      { apply (holds_upd _ (fun x => x = mk_rview (set_ack_num ((seq +32 len) +32 1) (rx c)) TCP_STATE_CLOSE_WAIT (data_callback c))).
        intros d [= Hd _ Hb]. unfold rxst; cbn. by rewrite Hd, Hb. }
      intros []. destruct (half_close (own c)); cbn.
      { intros [d g] Hd. cbn in Hd |- *. rewrite Hd. exact (proj1 (inv_closed _ _ _ _ _ TCP_STATE_CLOSE_WAIT _ _ Hinv I)). }
      eapply holds_bind; [apply holds_keeps, keeps_send, _|]. intros rc. apply holds_upd. intros d [= Hd _ Hb].
      unfold rxst; cbn. rewrite Hd, Hb. exact (proj1 (inv_closed _ _ _ _ _ TCP_STATE_LAST_ACK _ _ Hinv I)).
  - apply holds_frame; [apply keeps_when, keeps_ack_now, _ | by intros x ->].
Qed.

(** A segment that carries the stream's bytes from [p] on, less than half of the
    sequence space away. *)
Record genuine (a p len : Z) (h : tcp_header_t) : Prop := {
  ge_seq : h_seq h = seq_of irs p;
  ge_payload : h_payload h = slice str p len;
  ge_len : 0 <= len < 2 ^ 16;
  ge_near : a - 2 ^ 31 <= p < a + 2 ^ 31;
}.

(** Where the receiver is after it; a connection with a data callback does not
    hold anything beyond a gap. *)
Definition arrives (x : rview) (a : Z) (held : list (Z * Z)) (p len : Z) : Z * list (Z * Z) :=
  if negb (v_callback x =? 0) && (a <? p) then (a, held)
  else accept (recv_buffer_size (v_rx x) - recv_buffer_used (v_rx x)) a held p len.

Lemma trim_genuine a p len h :
  genuine a p len h -> 0 < len ->
  trim (seq_of irs a) h =
  if (p <? a) && ((a <? p + len) || ((a =? p + len) && has (h_flags h) TCP_FLAG_FIN))
  then (seq_of irs a, slice str a (p + len - a)) else (h_seq h, h_payload h).
Proof.
  intros [Hseq Hpay Hlen Hnear] Hl. unfold trim. rewrite Hpay, Hseq, zlen_slice, seq_diff by lia.
  replace (p - a <? 0) with (p <? a) by (destruct (Z.ltb_spec p a), (Z.ltb_spec (p - a) 0); done || lia).
  destruct (Z.ltb_spec p a); [|done]. cbn [andb]. rewrite u32_small by lia.
  replace (- (p - a) <? len) with (a <? p + len) by (destruct (Z.ltb_spec a (p + len)), (Z.ltb_spec (- (p - a)) len); done || lia).
  replace (- (p - a) =? len) with (a =? p + len) by (destruct (Z.eqb_spec a (p + len)), (Z.eqb_spec (- (p - a)) len); done || lia).
  case_if; [|done]. rewrite zdrop_slice; [do 2 f_equal; lia|]. bool_hyps.
  destruct (Z.ltb_spec a (p + len)); [lia|]. destruct (Z.eqb_spec a (p + len)); [lia | done].
Qed.

Lemma absorb_none a held : nonempty held -> gaps a held -> absorb a held = (a, held).
Proof.
  intros Hn [Hb _ _]. destruct held as [|[x y] held]; [done|]. apply Forall_cons in Hb as [Hx _].
  apply Forall_cons in Hn as [Hxy _]. cbn in *. by rewrite !(proj2 (Z.leb_gt _ _)) by lia.
Qed.

(** In the established state the invariant is about the connection's own ring. *)
Lemma inv_established b a held x :
  stream_inv b a held x -> v_state x = TCP_STATE_ESTABLISHED -> rcv_ok str irs a held (v_rx x) /\ gaps a held.
Proof.
  intros (Hok & _ & Hst) E. rewrite E in Hst. destruct Hst as [Hack Hg]. split; [|done].
  rewrite <- Hack in Hok. by destruct x as [[] ? ?].
Qed.
Lemma established_inv b a held r cb :
  rcv_ok str irs a held r -> gaps a held -> a - recv_buffer_used r = b ->
  stream_inv b a held (mk_rview r TCP_STATE_ESTABLISHED cb).
Proof.
  intros Hok Hg Hb. pose proof (ro_ack _ _ _ _ _ Hok) as Ha. split; [|by split]. cbn in *. rewrite <- Ha. by destruct r.
Qed.

Lemma take_data_ok b a held x0 len :
  stream_inv b a held x0 -> v_state x0 = TCP_STATE_ESTABLISHED -> 0 <= len < 2 ^ 16 ->
  let k := Z.min len (recv_buffer_size (v_rx x0) - recv_buffer_used (v_rx x0)) in
  let '(a', held') := absorb (a + k) held in
  holds (fun x => x = x0) (take_data (W := W) (seq_of irs a) (slice str a len))
    (fun r x => r = (k, a' - (a + k)) /\ stream_inv b a' held' x /\ v_state x = TCP_STATE_ESTABLISHED).
Proof.
  intros Hinv Hst Hlen k. destruct (inv_established _ _ _ _ Hinv Hst) as [Hok Hg].
  pose proof (take_in_order str irs a held (v_rx x0) len Hok Hg ltac:(lia)) as Ht. cbn zeta in Ht. fold k in Ht.
  destruct (absorb (a + k) held) as [a' held'].
  destruct Ht as (r1 & r' & E1 & E2 & Hok' & Hg' & Esz & Eus).
  unfold take_data. apply holds_conn_is. intros c Hc. subst x0. cbn [v_rx rxst] in *. rewrite E1, E2.
  eapply holds_bind; [apply (holds_upd _ (fun x => x = mk_rview r' TCP_STATE_ESTABLISHED (data_callback c)))|].
  { intros d [= Hr Hs Hb]. unfold rxst; cbn. cbn in Hst. by rewrite Hs, Hb, Hst. }
  intros []. eapply holds_bind; [apply holds_keeps, keeps_stat_rx, _|]. intros [].
  intros s Hs. unfold mret, act_ret. cbn [fst snd]. rewrite Hs. split; [done|]. split; [|done].
  apply established_inv; [done..|]. destruct Hinv as (_ & Hb & _). cbn in Hb. lia.
Qed.

(** The branch for data that is not in order. *)
Lemma out_of_order_ok b a held p len c h :
  stream_inv b a held (rxst c) -> state c = TCP_STATE_ESTABLISHED -> genuine a p len h -> 0 < len -> a < p ->
  let '(a', held') := arrives (rxst c) a held p len in
  stream_inv b a' held' (if data_callback c =? 0
                       then mk_rview (tcp_ooo_store (p - a) (h_payload h) (rx c)) TCP_STATE_ESTABLISHED (data_callback c) else rxst c).
Proof.
  intros Hinv Hst Hgen Hl Hp. unfold arrives, accept. cbn [v_callback v_rx rxst].
  rewrite (proj2 (Z.ltb_lt _ _) Hp), (proj2 (Z.leb_gt (p + len) a)), (proj2 (Z.eqb_neq len 0)), (proj2 (Z.leb_gt p a)) by lia.
  destruct (data_callback c =? 0); cbn [negb andb orb]; [|done].
  destruct (inv_established _ _ _ _ Hinv Hst) as [Hok Hg]. cbn [v_rx rxst] in Hok. destruct Hgen as [Hseq Hpay Hlen Hnear].
  destruct (ooo_store_ok str irs a held (rx c) (p - a) len Hok Hg) as (Hok' & Hg' & Hu' & _); [lia..|].
  replace (a + (p - a)) with p in Hok', Hu' by lia. rewrite <- Hpay in Hok', Hu'.
  destruct Hinv as (_ & Hb & _). cbn in Hb. apply established_inv; [| |lia].
  all: unfold stored, window_end in *.
  all: replace (a + recv_buffer_size (rx c) - recv_buffer_used (rx c) - a) with
         (recv_buffer_size (rx c) - recv_buffer_used (rx c)) in * by lia.
  all: replace (recv_buffer_size (rx c) - recv_buffer_used (rx c) <=? p - a) with
         (a + (recv_buffer_size (rx c) - recv_buffer_used (rx c)) <=? p) in *
         by (destruct (Z.leb_spec (a + (recv_buffer_size (rx c) - recv_buffer_used (rx c))) p),
             (Z.leb_spec (recv_buffer_size (rx c) - recv_buffer_used (rx c)) (p - a)); done || lia).
  all: replace (a + (p - a)) with p in * by lia.
  all: replace (recv_buffer_size (rx c) - recv_buffer_used (rx c) - (p - a)) with
         (a + (recv_buffer_size (rx c) - recv_buffer_used (rx c)) - p) in * by lia.
  all: done.
Qed.

(** In-order data, then the FIN or an acknowledgement. *)
Lemma in_order_ok b a held n c h :
  stream_inv b a held (rxst c) -> state c = TCP_STATE_ESTABLISHED -> 0 <= n < 2 ^ 16 ->
  let '(a', held') := absorb (a + Z.min n (recv_buffer_size (rx c) - recv_buffer_used (rx c))) held in
  holds (fun x => x = rxst c)
    ('(taken, merged) ← take_data (W := W) (seq_of irs a) (slice str a n);
     _ ← (if taken <? zlen (slice str a n) then ack_now
          else if negb (merged =? 0) then ack_now
          else established_fin h (seq_of irs a) (zlen (slice str a n)));
     mret (if 0 <? taken then Some (ztake taken (slice str a n)) else None)) (fun _ => stream_inv b a' held').
Proof.
  intros Hinv Hst Hn. pose proof (take_data_ok b a held (rxst c) n Hinv Hst Hn) as Ht. cbn zeta in Ht. cbn [v_rx rxst] in Ht.
  destruct (absorb _ held) as [a' held'].
  eapply holds_bind; [exact Ht|]. intros [taken merged].
  eapply holds_bind with (Q := fun _ => stream_inv b a' held'); [|intros []; by intros ? ?].
  destruct (taken <? _); [|destruct (negb (merged =? 0))].
  - apply holds_frame; [apply keeps_ack_now, _ | intros x (_ & H1 & _); exact H1].
  - apply holds_frame; [apply keeps_ack_now, _ | intros x (_ & H1 & _); exact H1].
  - eapply holds_weaken; [apply established_fin_ok | intros x (_ & H1 & H2); exact (conj H1 H2) | done].
Qed.

Lemma arrives_in_order c a held p len :
  p <= a -> 0 < len -> a < p + len -> arrives (rxst c) a held p len =
  absorb (a + Z.min (p + len - a) (recv_buffer_size (rx c) - recv_buffer_used (rx c))) held.
Proof.
  intros Hp Hl Hlt. unfold arrives, accept. rewrite (proj2 (Z.ltb_ge a p)), (proj2 (Z.leb_gt (p + len) a)),
    (proj2 (Z.eqb_neq len 0)), (proj2 (Z.leb_le p a)), andb_false_r by lia. done.
Qed.
Lemma arrives_old x a held p len : p <= a -> p + len <= a \/ len = 0 -> arrives x a held p len = (a, held).
Proof.
  intros Hp Ho. unfold arrives, accept. rewrite (proj2 (Z.ltb_ge a p)), andb_false_r by lia.
  destruct Ho as [Ho | ->]; [rewrite (proj2 (Z.leb_le _ _)) by lia | rewrite Z.eqb_refl, orb_true_r]; done.
Qed.
Lemma arrives_empty x a held p : arrives x a held p 0 = (a, held).
Proof. unfold arrives, accept. rewrite Z.eqb_refl, orb_true_r. by case_if. Qed.

Lemma established_ok b a held p len x0 h :
  stream_inv b a held x0 -> v_state x0 = TCP_STATE_ESTABLISHED -> genuine a p len h ->
  let '(a', held') := arrives x0 a held p len in
  holds (fun x => x = x0) (established (W := W) h) (fun _ => stream_inv b a' held').
Proof.
  intros Hinv Hst Hgen. pose proof Hgen as [Hseq Hpay Hlen Hnear].
  assert (zlen (h_payload h) = len) as Hz by (rewrite Hpay; apply zlen_slice; lia).
  destruct (arrives x0 a held p len) as [a' held'] eqn:Earr.
  unfold established. apply holds_conn_is. intros c <-. cbn [v_state rxst] in Hst.
  destruct (inv_established _ _ _ _ Hinv Hst) as [Hok Hg]. cbn [v_rx rxst] in Hok.
  rewrite Hz. destruct (Z.eqb_spec len 0) as [->|Hl0].
  { rewrite arrives_empty in Earr. injection Earr as <- <-.
    eapply holds_bind with (Q := fun _ => stream_inv b a held); [|intros []; by intros ? ?].
    eapply holds_weaken; [apply established_fin_ok | intros x ->; by split | done]. }
  rewrite (ro_ack _ _ _ _ _ Hok), (trim_genuine a p len h Hgen) by lia.
  destruct ((p <? a) && _) eqn:Etrim; bool_hyps.
  - rewrite seq_diff, Z.sub_diag by lia. cbn [Z.eqb negb].
    assert (0 <= p + len - a < 2 ^ 16) as Hn by (destruct (Z.ltb_spec a (p + len)), (Z.eqb_spec a (p + len)); done || lia).
    pose proof (in_order_ok b a held (p + len - a) c h Hinv Hst Hn) as Hi.
    destruct (decide (a = p + len)) as [Ea|Ea].
    + rewrite arrives_old in Earr by lia. injection Earr as <- <-.
      replace (p + len - a) with 0 in * by lia. pose proof (ro_used _ _ _ _ _ Hok).
      rewrite Z.min_l, Z.add_0_r, absorb_none in Hi by (done || lia || apply Hok). exact Hi.
    + rewrite <- (arrives_in_order c a held p len), Earr in Hi by lia. exact Hi.
  - rewrite Hseq, seq_diff by lia. destruct (Z.eqb_spec (p - a) 0) as [E0|E0]; cbn [negb].
    + assert (p = a) as -> by lia. pose proof (in_order_ok b a held len c h Hinv Hst Hlen) as Hi.
      rewrite arrives_in_order in Earr by lia. replace (a + len - a) with len in Earr by lia.
      rewrite Earr in Hi. rewrite Hpay. exact Hi.
    + eapply holds_bind with (Q := fun _ => stream_inv b a' held').
      2:{ intros []. eapply holds_bind; [apply holds_keeps, keeps_ack_now, _ | intros []; by intros ? ?]. }
      destruct (Z.ltb_spec 0 (p - a)).
      * cbn [when]. eapply holds_bind; [apply holds_keeps, keeps_on_stat, _|]. intros [].
        pose proof (out_of_order_ok b a held p len c h Hinv Hst Hgen ltac:(lia) ltac:(lia)) as Ho. rewrite Earr in Ho.
        destruct (data_callback c =? 0); cbn [when].
        -- apply holds_upd. intros d [= Hr Hs Hb]. unfold rxst; cbn. rewrite Hr, Hs, Hb, Hst. exact Ho.
        -- intros d Hd. cbn [mret act_ret fst snd]. unfold mret, act_ret. cbn [fst snd]. rewrite Hd. exact Ho.
      * assert (p + len <= a) by (destruct (Z.ltb_spec p a), (Z.ltb_spec a (p + len)); done || lia).
        rewrite arrives_old in Earr by lia. injection Earr as <- <-. intros d Hd. cbn [when]. unfold mret, act_ret. cbn [fst snd].
        rewrite Hd. exact Hinv.
Qed.

(** ** After our own FIN *)

Definition fw1_inv (b a : Z) (held : list (Z * Z)) (x : rview) : Prop := stream_inv b a held x /\ v_state x = TCP_STATE_FIN_WAIT_1.

Lemma fw1_rcv b a held x : fw1_inv b a held x -> rcv_ok str irs a held (v_rx x).
Proof.
  intros [(Hok & _ & Hst) E]. rewrite E in Hst. rewrite <- Hst in Hok. by destruct x as [[] ? ?].
Qed.

Lemma fin_wait_1_fin_ok b a held h d :
  holds (fw1_inv b a held) (fin_wait_1_fin (W := W) h d) (fun _ => stream_inv b a held).
Proof.
  unfold fin_wait_1_fin. apply holds_conn_is. intros c [Hinv Hst]. cbn [v_state rxst] in Hst.
  set (v := u32 (h_seq h + zlen (h_payload h) + 1)).
  assert (forall st' (k : act outcome), match st' with TCP_STATE_TIME_WAIT | TCP_STATE_CLOSING => True | _ => False end ->
    keeps rxst k ->
    holds (fun x => x = rxst c) (_ ← upd (on_rx (set_ack_num v)); _ ← ack_now; _ ← upd (set_state st'); k)
      (fun _ => stream_inv b a held)) as Hgo.
  { intros st' k Hst' Hk. eapply holds_bind; [apply (holds_upd _ (fun x => x = mk_rview (set_ack_num v (rx c)) (state c) (data_callback c)))|].
    { intros e [= Hr Hs Hb]. unfold rxst; cbn. by rewrite Hr, Hs, Hb. }
    intros []. eapply holds_bind; [apply holds_keeps, keeps_ack_now, _|]. intros [].
    eapply holds_bind with (Q := fun _ => stream_inv b a held); [|intros []; by apply holds_keeps].
    apply holds_upd. intros e [= Hr _ Hb].
    unfold rxst; cbn. rewrite Hr, Hb. eapply (inv_closed _ _ _ _ _ st' _ v Hinv). by destruct st'. }
  destruct (_ =? _); [|destruct (has (h_flags h) TCP_FLAG_FIN)].
  - apply Hgo; [done|]. apply keeps_seq; [apply keeps_flush, _ | intros; apply keeps_ret].
  - apply Hgo; [done | apply keeps_ret].
  - apply holds_frame; [apply keeps_ret | by intros x ->].
Qed.

Lemma handle_data_fw1 b a held c len :
  fw1_inv b a held (rxst c) -> 0 <= len < 2 ^ 16 ->
  let k := Z.min len (recv_buffer_size (rx c) - recv_buffer_used (rx c)) in
  exists r', tcp_handle_data (slice str a len) (rx c) = (k, r') /\
    fw1_inv b (a + k) held (mk_rview (set_ack_num (ack_num r' +32 k) r') TCP_STATE_FIN_WAIT_1 (data_callback c)).
Proof.
  intros Hf Hlen k. pose proof (fw1_rcv _ _ _ _ Hf) as Hok. cbn [v_rx rxst] in Hok.
  destruct (handle_data_ok _ _ _ _ _ len Hok ltac:(lia)) as (r' & E & Ea & Hok' & _ & Eu). exists r'. split; [done|].
  destruct Hf as [(_ & Hb & _) _]. cbn in Hb. rewrite Ea, (ro_ack _ _ _ _ _ Hok), seq_of_add.
  split; [|done]. split; [by destruct r'|]. split; [cbn; fold k in Eu; lia | done].
Qed.

(** In this state only data in order is taken. *)
Definition arrives_fw1 (x : rview) (a p len : Z) : Z :=
  if p =? a then a + Z.min len (recv_buffer_size (v_rx x) - recv_buffer_used (v_rx x)) else a.

Lemma fin_wait_1_ok b a held p len x0 h :
  fw1_inv b a held x0 -> genuine a p len h ->
  holds (fun x => x = x0) (fin_wait_1 (W := W) h) (fun _ => stream_inv b (arrives_fw1 x0 a p len) held).
Proof.
  intros Hf [Hseq Hpay Hlen Hnear].
  assert (zlen (h_payload h) = len) as Hz by (rewrite Hpay; apply zlen_slice; lia).
  unfold fin_wait_1. apply holds_conn_is. intros c <-. pose proof (fw1_rcv _ _ _ _ Hf) as Hok. cbn [v_rx rxst] in Hok.
  pose proof (ro_used _ _ _ _ _ Hok). unfold arrives_fw1. cbn [v_rx rxst].
  assert ((h_seq h =? ack_num (rx c)) = (p =? a)) as Ep.
  { rewrite Hseq, (ro_ack _ _ _ _ _ Hok). pose proof (seq_diff irs p a ltac:(lia)) as Hd.
    destruct (Z.eqb_spec p a) as [->|Hne]; [apply Z.eqb_refl|]. apply Z.eqb_neq. intros E. rewrite E, Z.sub_diag in Hd.
    change (s32 0) with 0 in Hd. lia. }
  rewrite Hz, Ep. destruct (Z.ltb_spec 0 len) as [Hl|Hl]; cbn [andb].
  2:{ replace len with 0 by lia. rewrite Z.min_l, Z.add_0_r by lia. replace (if p =? a then a else a) with a by (by case_if).
      eapply holds_weaken; [apply (fin_wait_1_fin_ok b a held) | by intros x -> | done]. }
  destruct (Z.eqb_spec p a) as [->|Hne].
  - destruct (handle_data_fw1 b a held c len Hf Hlen) as (r' & E & Hf'). rewrite Hpay, E.
    set (k := Z.min len (recv_buffer_size (rx c) - recv_buffer_used (rx c))) in *.
    eapply holds_bind; [apply (holds_upd _ (fun x => x = mk_rview r' TCP_STATE_FIN_WAIT_1 (data_callback c)))|].
    { intros d [= Hr Hs Hb]. unfold rxst; cbn. destruct Hf as [_ Hst]. cbn in Hst. by rewrite Hs, Hb, Hst. }
    intros []. eapply holds_bind; [apply holds_keeps, keeps_stat_rx, _|]. intros [].
    eapply holds_bind; [apply (holds_upd _ (fw1_inv b (a + k) held))|].
    { intros d [= Hr Hs Hb]. unfold rxst; cbn. rewrite Hr, Hs, Hb. exact Hf'. }
    intros []. case_if; [|apply fin_wait_1_fin_ok].
    eapply holds_bind; [apply holds_keeps, keeps_ack_now, _|]. intros []. intros d [Hd _]. exact Hd.
  - eapply holds_bind; [apply holds_keeps, keeps_ack_now, _|]. intros [].
    apply holds_frame; [apply keeps_ret | intros x ->; apply Hf].
Qed.

(** ** The whole receive path *)

(** Where the receiver is after a segment. *)
Definition rx_next (x : rview) (flags a : Z) (held : list (Z * Z)) (p len : Z) : Z * list (Z * Z) :=
  if has flags TCP_FLAG_RST then (a, held)
  else match v_state x with
       | TCP_STATE_ESTABLISHED => arrives x a held p len
       | TCP_STATE_FIN_WAIT_1 => (arrives_fw1 x a p len, held)
       | _ => (a, held)
       end.

Lemma handle_rst_ok b a held : holds (stream_inv b a held) (handle_rst (W := W)) (fun _ => stream_inv b a held).
Proof.
  unfold handle_rst. eapply holds_bind with (Q := fun _ => stream_inv b a held).
  { apply holds_upd. intros c Hinv. by apply (inv_closed b a held (rx c) (state c) TCP_STATE_CLOSED (data_callback c) 0). }
  intros []. eapply holds_bind; [apply holds_keeps, keeps_flush, _|]. intros [].
  apply holds_frame; [|done]. apply keeps_seq; [apply keeps_conn_is | intros; apply keeps_ret].
Qed.

Lemma last_ack_ok b a held h : holds (stream_inv b a held) (last_ack (W := W) h) (fun _ => stream_inv b a held).
Proof.
  unfold last_ack. destruct (has _ _); [|apply holds_frame; [apply keeps_ret | done]].
  eapply holds_bind; [apply holds_keeps, keeps_flush, _|]. intros [].
  eapply holds_bind with (Q := fun _ => stream_inv b a held).
  { apply holds_upd. intros c Hinv. by apply (inv_closed b a held (rx c) (state c) TCP_STATE_CLOSED (data_callback c) 0). }
  intros []. apply holds_frame; [|done]. apply keeps_seq; [apply keeps_conn_is | intros; apply keeps_ret].
Qed.

Lemma tcp_input_ok b a held p len x0 h :
  stream_inv b a held x0 -> genuine a p len h ->
  let '(a', held') := rx_next x0 (h_flags h) a held p len in
  holds (fun x => x = x0) (tcp_input (W := W) h) (fun _ => stream_inv b a' held').
Proof.
  intros Hinv Hgen. unfold rx_next, tcp_input. destruct (has (h_flags h) TCP_FLAG_RST).
  { eapply holds_weaken; [apply (handle_rst_ok b a held) | by intros x -> | done]. }
  match goal with |- context [let '(_, _) := ?e in _] => destruct e as [a' held'] eqn:E end.
  apply holds_conn_is. intros c Hc. subst x0.
  eapply holds_bind; [apply holds_keeps, keeps_on_tx, _|]. intros [].
  apply holds_conn_is. intros c2 Hc2.
  eapply holds_bind; [apply holds_keeps, keeps_when, keeps_retransmit_ack, _|]. intros [].
  eapply holds_bind; [apply holds_keeps, keeps_when, keeps_on_tx, _|]. intros [].
  apply holds_conn_is. intros c3 Hc3. rewrite Hc2 in Hc3. rewrite Hc3.
  assert (state c3 = v_state (rxst c)) as Es by (rewrite <- Hc3; done). rewrite Es.
  pose proof Hinv as (_ & _ & Hst).
  destruct (v_state (rxst c)) eqn:Est; try done; try (injection E as <- <-; apply holds_frame; [apply keeps_ret | by intros x ->]).
  - eapply holds_bind; [|intros d; apply holds_frame; [apply keeps_ret | intros x Hx; exact Hx]].
    pose proof (established_ok b a held p len (rxst c) h Hinv Est Hgen) as He. rewrite E in He. exact He.
  - injection E as <- <-. apply (fin_wait_1_ok b a held p len (rxst c) h); [by split | done].
  - injection E as <- <-. eapply holds_weaken; [apply (last_ack_ok b a held) | by intros x -> | done].
Qed.

(** ** Conversations *)

Lemma rtx_scan_ok b a held now before todo :
  holds (stream_inv b a held) (rtx_scan (W := W) now before todo) (fun _ => stream_inv b a held).
Proof.
  revert before. induction todo as [|e todo IH]; intros before; cbn [rtx_scan].
  { apply holds_keeps, keeps_on_tx, _. }
  destruct (_ <=? _); [|apply IH]. destruct (_ <=? _).
  - eapply holds_bind with (Q := fun _ => stream_inv b a held).
    { apply holds_upd. intros c Hinv. by apply (inv_closed b a held (rx c) (state c) TCP_STATE_CLOSED (data_callback c) 0). }
    intros []. eapply holds_bind; [apply holds_keeps, keeps_on_tx, _|]. intros []. apply holds_keeps, keeps_flush, _.
  - eapply holds_bind; [apply holds_keeps, keeps_rtx_resend, _|]. intros e'. apply IH.
Qed.

Lemma retransmit_conn_ok b a held now :
  holds (stream_inv b a held) (retransmit_conn (W := W) now) (fun _ => stream_inv b a held).
Proof.
  unfold retransmit_conn. apply holds_conn_is. intros c Hc.
  eapply holds_bind; [apply holds_keeps, keeps_when, keeps_on_stat, _|]. intros [].
  eapply holds_weaken; [apply (rtx_scan_ok b a held) | by intros x -> | done].
Qed.

(** Our FIN, from the states in which [tcp_close] and [tcp_socket_shutdown_wr]
    send one. *)
Definition fin_state (st : tcp_state_t) : option tcp_state_t :=
  match st with
  | TCP_STATE_ESTABLISHED => Some TCP_STATE_FIN_WAIT_1
  | TCP_STATE_CLOSE_WAIT => Some TCP_STATE_LAST_ACK
  | _ => None
  end.

Lemma shutdown_ok b a held c st' :
  stream_inv b a held (rxst c) -> fin_state (state c) = Some st' ->
  holds (fun x => x = rxst c) (_ ← upd (set_state st'); send_fin (W := W)) (fun _ => stream_inv b a held).
Proof.
  intros Hinv Hf. eapply holds_bind with (Q := fun _ => stream_inv b a held); [|intros []; apply holds_keeps, keeps_send_fin, _].
  apply holds_upd. intros d [= Hr Hs Hb]. unfold rxst; cbn. rewrite Hr, Hb. destruct Hinv as (Hok & Hu & Hst). split; [done|]. split; [done|].
  cbn [v_state rxst] in *. destruct (state c); try done; injection Hf as <-; [apply Hst | done].
Qed.

(** The bytes in order that wait in the ring. *)
Definition unread (r : rcv_t) : list Z := (tcp_ring_read_locked (recv_buffer_used r) r).1.

(** Reading does not depend on the acknowledgement number. *)
Lemma ring_read_ack n v r :
  tcp_ring_read_locked n (set_ack_num v r) = let '(out, r') := tcp_ring_read_locked n r in (out, set_ack_num v r').
Proof. unfold tcp_ring_read_locked. cbn -[u32]. by destruct ((if recv_buffer_used r <? n then _ else _) =? 0). Qed.

Lemma unread_ok b a held x : stream_inv b a held x -> unread (v_rx x) = slice str (a - recv_buffer_used (v_rx x)) (recv_buffer_used (v_rx x)).
Proof.
  intros (Hok & _ & _). pose proof (ro_used _ _ _ _ _ Hok) as Hu. cbn in Hu.
  destruct (ring_read_ok _ _ _ _ _ (recv_buffer_used (v_rx x)) Hok) as (r' & E & _); [lia|].
  unfold unread. rewrite ring_read_ack in E. cbn [recv_buffer_used set_ack_num] in E. rewrite Z.min_l in E by lia.
  destruct (tcp_ring_read_locked _ _) as [out r1]. by injection E as -> _.
Qed.

Lemma conn_read_ok b a held n x0 :
  stream_inv b a held x0 -> 0 <= n ->
  let k := Z.min (a - b) n in
  holds (fun x => x = x0) (conn_read (W := W) n) (fun out x => out = slice str b k /\ stream_inv (b + k) a held x).
Proof.
  intros (Hok & Hb & Hst) Hn k. unfold conn_read. apply holds_conn_is. intros c <-. cbn [v_rx v_state rxst] in *.
  destruct (ring_read_ok _ _ _ _ _ n Hok Hn) as (r' & E & Hok' & Eu & _). rewrite ring_read_ack in E.
  destruct (tcp_ring_read_locked n (rx c)) as [out r1] eqn:E1. cbn [recv_buffer_used set_ack_num] in *. injection E as -> <-.
  assert (recv_buffer_used (rx c) = a - b) as Eub by lia. rewrite Eub in *.
  replace (a - (a - b)) with b in * by lia. fold k in Eu |- *.
  cbn [recv_buffer_used set_ack_num] in Eu.
  eapply holds_bind with (Q := fun _ => stream_inv (b + k) a held).
  { apply holds_upd. intros d [= Hr Hs Hcb]. unfold rxst. cbn. split; [exact Hok'|]. cbn. split; [lia|].
    rewrite Hs. assert (ack_num r1 = ack_num (rx c)) as Ea; [|by rewrite Ea].
    clear -E1. unfold tcp_ring_read_locked in E1. repeat case_if; by injection E1 as _ <-. }
  intros []. eapply holds_bind; [apply holds_keeps, keeps_when, keeps_window_update, _|]. intros [].
  intros s Hs. split; [done | exact Hs].
Qed.

(** A connection that was just established, and what can happen to it: segments
    with the peer's bytes arrive, the application reads, writes and shuts down,
    timers run, the socket layer changes its flags.  The state of the rest of
    the kernel ([g]) is arbitrary at every step.  [a] and [held] are the next
    position and the ranges beyond it by the reference [rx_next]; [segs] are the
    ranges that arrived and [out] what the application read. *)
Inductive conversation : tcp_connection_t -> Z -> list (Z * Z) -> list (Z * Z) -> list Z -> Prop :=
| conv_start c :
    state c = TCP_STATE_ESTABLISHED -> recv_buffer (rx c) <> 0 -> zlen (recv_bytes (rx c)) = recv_buffer_size (rx c) ->
    0 < recv_buffer_size (rx c) < 2 ^ 30 -> recv_buffer_used (rx c) = 0 -> recv_head (rx c) = 0 -> ooo (rx c) = [] ->
    ack_num (rx c) = seq_of irs 0 ->
    conversation c 0 [] [] []
| conv_segment c a held segs out h p len (g : glob (W := W)) :
    conversation c a held segs out -> genuine a p len h ->
    conversation (tcp_input h (c, g)).2.1 (rx_next (rxst c) (h_flags h) a held p len).1
      (rx_next (rxst c) (h_flags h) a held p len).2 (segs ++ [(p, p + len)]) out
| conv_read c a held segs out n (g : glob (W := W)) :
    conversation c a held segs out -> 0 <= n ->
    conversation (conn_read n (c, g)).2.1 a held segs (out ++ (conn_read n (c, g)).1)
| conv_send c a held segs out data (g : glob (W := W)) :
    conversation c a held segs out -> conversation (tcp_send data (c, g)).2.1 a held segs out
| conv_timer c a held segs out now (g : glob (W := W)) :
    conversation c a held segs out -> conversation (retransmit_conn now (c, g)).2.1 a held segs out
| conv_shutdown c a held segs out st' (g : glob (W := W)) :
    conversation c a held segs out -> fin_state (state c) = Some st' ->
    conversation ((_ ← upd (set_state st'); send_fin) (c, g)).2.1 a held segs out
| conv_owner c a held segs out f :
    conversation c a held segs out -> conversation (on_own f c) a held segs out.

(** Positions the reference counts as received are among those that arrived. *)
Lemma absorb_sub a held q :
  let '(a', held') := absorb a held in (a <= q < a' \/ cover held' q) -> cover held q.
Proof.
  pose proof (absorb_spec a held) as Hs. destruct (absorb a held) as [a' held']. destruct Hs as (_ & [gone ->] & Hc).
  intros [Hq|Hq]; [by apply Hc|]. rewrite cover_app. by right.
Qed.

Lemma accept_sub room a held p len q :
  nonempty held -> asc_apart held -> 0 <= room -> 0 <= len ->
  let '(a', held') := accept room a held p len in
  a <= q < a' \/ cover held' q -> cover held q \/ p <= q < p + len.
Proof.
  intros Hn Ha Hr Hl. unfold accept. case_if; [intros [?|?]; [lia | by left]|]. bool_hyps. destruct (Z.leb_spec p a).
  - set (k := Z.min (p + len - a) room). pose proof (absorb_sub (a + k) held q) as Hs.
    destruct (absorb (a + k) held) as [a' held']. intros Hq.
    destruct (decide (a <= q < a + k)); [right; lia|]. left. apply Hs. destruct Hq; [left; lia | by right].
  - case_if; bool_hyps; (intros [?|Hq]; [lia|]); [by left|].
    destruct (hold_spec p (Z.min len (a + room - p)) held Hn Ha ltac:(lia)) as (_ & _ & _ & [E|E]).
    + rewrite E in Hq. by left.
    + apply E in Hq as [|]; [by left | right; lia].
Qed.

(** The receiver only moves forward. *)
Lemma rx_next_forward x flags a held p len :
  0 <= recv_buffer_size (v_rx x) - recv_buffer_used (v_rx x) -> 0 <= len -> a <= (rx_next x flags a held p len).1.
Proof.
  intros Hr Hl. unfold rx_next, arrives, arrives_fw1, accept. case_if; [cbn; lia|].
  destruct (v_state x); cbn; try lia; repeat case_if; bool_hyps; cbn; try lia.
  pose proof (absorb_spec (a + Z.min (p + len - a) (recv_buffer_size (v_rx x) - recv_buffer_used (v_rx x))) held) as Hs.
  destruct (absorb _ held). cbn. lia.
Qed.

Lemma rx_next_sub b x flags a held p len q :
  stream_inv b a held x -> 0 <= len ->
  a <= q < (rx_next x flags a held p len).1 \/ cover (rx_next x flags a held p len).2 q -> cover held q \/ p <= q < p + len.
Proof.
  intros Hinv Hl. unfold rx_next. case_if; [cbn; intros [?|?]; [lia | by left]|].
  destruct (v_state x) eqn:Est; cbn; try (intros [?|?]; [lia | by left]).
  - destruct (inv_established _ _ _ _ Hinv Est) as [Hok Hg]. pose proof (ro_used _ _ _ _ _ Hok).
    unfold arrives. case_if; [cbn; intros [?|?]; [lia | by left]|].
    pose proof (accept_sub (recv_buffer_size (v_rx x) - recv_buffer_used (v_rx x)) a held p len q) as Ha.
    destruct (accept _ _ _ _ _) as [a' held']. apply Ha; [apply Hok | apply Hg | lia | lia].
  - unfold arrives_fw1. case_if; bool_hyps; intros [?|?]; [right; lia | by left | lia | by left].
Qed.

Theorem conversation_ok c a held segs out :
  conversation c a held segs out ->
  exists b, 0 <= b /\ stream_inv b a held (rxst c) /\ out = slice str 0 b /\
    forall q, 0 <= q < a \/ cover held q -> cover segs q.
Proof.
  induction 1 as [c Hst Hbuf Hlen Hsz Hu Hh Ho Ha | c a held segs out h p len g _ (b & Hb & Hinv & Hout & Hsub) Hgen
    | c a held segs out n g _ (b & Hb & Hinv & Hout & Hsub) Hn | c a held segs out data g _ (b & Hb & Hinv & Hout & Hsub)
    | c a held segs out now g _ (b & Hb & Hinv & Hout & Hsub) | c a held segs out st' g _ (b & Hb & Hinv & Hout & Hsub) Hf
    | c a held segs out f _ (b & Hb & Hinv & Hout & Hsub)].
  - exists 0. split; [done|]. split; [|split; [done | intros q [?|[]%cover_nil]; lia]].
    unfold rxst. rewrite Hst. apply established_inv; [|split; [done | constructor | done] | lia].
    constructor; try done; try lia; try apply Forall_nil_2. intros q [?|[_ []%cover_nil]]; lia.
  - exists b. split; [done|]. split; [|split; [done|]].
    + pose proof (tcp_input_ok b a held p len (rxst c) h Hinv Hgen) as Ht.
      destruct (rx_next (rxst c) (h_flags h) a held p len) as [a' held']. exact (Ht (c, g) eq_refl).
    + intros q Hq. rewrite cover_app, cover_cons, cover_nil. cbn.
      pose proof (rx_next_sub b (rxst c) (h_flags h) a held p len q Hinv ltac:(apply Hgen)) as Hr.
      destruct (decide (0 <= q < a)); [left; apply Hsub; by left|].
      destruct Hr as [Hr|Hr]; [destruct Hq; [left; lia | by right] | left; apply Hsub; by right | right; by left].
  - exists (b + Z.min (a - b) n). destruct (conn_read_ok b a held n (rxst c) Hinv Hn (c, g) eq_refl) as [E Hinv'].
    pose proof Hinv as (Hok & Hb' & _). pose proof (ro_used _ _ _ _ _ Hok) as Hu. cbn in Hu, Hb'.
    split; [lia|]. split; [done|]. split; [|done]. rewrite E, Hout, slice_app by lia. done.
  - exists b. split; [done|]. split; [|done]. by rewrite (keeps_tcp_send rxst data).
  - exists b. split; [done|]. split; [|done]. by apply (retransmit_conn_ok b a held now (c, g)).
  - exists b. split; [done|]. split; [|done]. by apply (shutdown_ok b a held c st' Hinv Hf (c, g)).
  - exists b. split; [done|]. split; [|done]. exact Hinv.
Qed.

(** C5 The peer's byte stream arrives intact.  Take a connection that was just
    established and let segments with the peer's bytes arrive in any order, any
    number of times, cut in any way and with sequence numbers that wrap around,
    while the application reads, writes and shuts down and timers expire.  Then
    what the application read followed by what waits in the ring is the stream
    from its beginning up to a position [a], and every byte before [a] has
    arrived.  While the connection is established the acknowledgement number is
    that position, so no byte is acknowledged that did not arrive, and no byte
    that is held beyond a gap could already be delivered.  (Nothing is said of
    the acknowledgement number in later states; [fin_acks_beyond_gap] in
    [TcpDemo] shows why.) *)
Theorem tcp_stream_intact c a held segs out :
  conversation c a held segs out ->
  out ++ unread (rx c) = slice str 0 a /\
  (forall q, 0 <= q < a -> cover segs q) /\
  (state c = TCP_STATE_ESTABLISHED -> ack_num (rx c) = seq_of irs a /\ forall q, cover held q -> a < q).
Proof.
  intros Hc. destruct (conversation_ok _ _ _ _ _ Hc) as (b & Hb & Hinv & -> & Hsub).
  pose proof (unread_ok _ _ _ _ Hinv) as Hu. cbn [v_rx rxst] in Hu. pose proof Hinv as (Hok & Hab & Hst).
  pose proof (ro_used _ _ _ _ _ Hok) as Hus. cbn in Hab, Hus.
  split; [|split; [intros q Hq; apply Hsub; by left|]].
  - rewrite Hu, Hab. replace a with (b + recv_buffer_used (rx c)) at 1 by lia. rewrite slice_app by lia. done.
  - intros E. cbn in Hst. rewrite E in Hst. destruct Hst as [Ha [Hg _ _]]. split; [done|]. intros q. by apply cover_from.
Qed.
End stream.
