(* ===== verification/TcpWire.v ===== *)
(** * TCP: segments survive the wire

    The checksum of src/net_tcp.c is the one of RFC 1071, and a segment that
    [tcp_packet] built is accepted by the receive path with the same fields. *)
From S2P Require Import Prelude TcpRecv TcpConn TcpSeg.

Definition bytes_ok (l : list Z) : Prop := Forall is_u8 l.

(** ** The checksum *)

(** The sum of the 16-bit words in network order, unbounded. *)
Fixpoint words (l : list Z) : Z :=
  match l with
  | a :: b :: rest => a * 256 + b + words rest
  | [a] => a * 256
  | [] => 0
  end.

(** The ones' complement sum: carries are added back until none is left. *)
Definition ones_sum (x : Z) : Z := if x =? 0 then 0 else (x - 1) mod 65535 + 1.

Lemma list_two_ind {A} (P : list A -> Prop) :
  P [] -> (forall a, P [a]) -> (forall a b l, P l -> P (a :: b :: l)) -> forall l, P l.
Proof.
  intros H0 H1 H2 l. enough (P l /\ forall a, P (a :: l)) as [? _] by done.
  induction l as [|b l [IH1 IH2]]; split; intros; auto.
Qed.

Lemma lor_low a b k : 0 <= k -> 0 <= a < 2 ^ k -> Z.lor (b * 2 ^ k) a = b * 2 ^ k + a.
Proof.
  intros Hk Ha. rewrite <- Z.add_lor_land, (Z.bits_inj' (Z.land _ _) 0); [lia|]. intros i Hi.
  rewrite Z.land_spec, Z.bits_0. destruct (decide (a = 0)) as [->|]; [by rewrite Z.bits_0, andb_false_r|].
  destruct (Z.ltb_spec i k); [by rewrite Z.mul_pow2_bits_low|].
  rewrite (Z.bits_above_log2 a i), andb_false_r; [done | lia|]. apply Z.log2_lt_pow2; [lia|].
  eapply Z.lt_le_trans; [apply Ha|]. by apply Z.pow_le_mono_r.
Qed.

Lemma lor_bytes a b : is_u8 a -> is_u8 b -> Z.lor (Z.shiftl a 8) b = a * 256 + b.
Proof. intros Ha Hb. rewrite Z.shiftl_mul_pow2 by lia. by apply lor_low. Qed.

Lemma words_bounds l : bytes_ok l -> 0 <= words l <= 65535 * ((zlen l + 1) / 2).
Proof.
  induction l as [|a|a b l IH] using list_two_ind; intros Hb.
  - change ((zlen [] + 1) / 2) with 0. cbn [words]. lia.
  - apply Forall_cons in Hb as [Ha _]. unfold is_u8 in Ha. change ((zlen [a] + 1) / 2) with 1. cbn [words]. lia.
  - apply Forall_cons in Hb as [Ha Hb]. apply Forall_cons in Hb as [Hb Hl]. unfold is_u8 in *. specialize (IH Hl). cbn [words].
    rewrite !zlen_cons. replace (zlen l + 1 + 1 + 1) with (zlen l + 1 + 1 * 2) by lia. rewrite Z.div_add by lia. lia.
Qed.

Lemma sum_words_spec l s : bytes_ok l -> sum_words s l = (if decide (l = []) then s else u32 (s + words l)).
Proof.
  revert s. induction l as [|a|a b l IH] using list_two_ind; intros s Hb; cbn [sum_words words]; [done| |].
  - apply Forall_cons in Hb as [Ha _]. rewrite decide_False by done. do 2 f_equal. rewrite Z.shiftl_mul_pow2 by lia. lia.
  - apply Forall_cons in Hb as [Ha Hb]. apply Forall_cons in Hb as [Hb Hl]. rewrite (decide_False (P := a :: b :: l = [])) by done.
    rewrite IH, lor_bytes by done. destruct (decide (l = [])) as [->|].
    + cbn. f_equal. lia.
    + rewrite u32_add_l. f_equal. lia.
Qed.

Lemma fold_carry_spec x : 0 <= x < 2 ^ 32 -> fold_carry x = x / 65536 + x mod 65536.
Proof.
  intros Hx. unfold fold_carry. change 0xFFFF with (Z.ones 16). rewrite Z.land_ones, Z.shiftr_div_pow2 by lia.
  change (2 ^ 16) with 65536. pose proof (Z.mod_pos_bound x 65536). apply u32_small. Z.to_euclidean_division_equations. lia.
Qed.

(** Two foldings are enough for any 32-bit sum. *)
Lemma fold_carry_twice x : 0 <= x < 2 ^ 32 -> fold_carry (fold_carry x) = ones_sum x.
Proof.
  intros Hx. pose proof (Z.mod_pos_bound x 65536 ltac:(lia)) as Hm.
  assert (0 <= x / 65536 < 65536) as Hd by (split; [apply Z.div_pos; lia | apply Z.div_lt_upper_bound; lia]).
  pose proof (Z.div_mod x 65536 ltac:(lia)) as Hdm.
  rewrite fold_carry_spec by (rewrite fold_carry_spec; lia). rewrite fold_carry_spec by done.
  set (y := x / 65536 + x mod 65536) in *. unfold ones_sum. destruct (Z.eqb_spec x 0) as [->|Hx0]; [done|].
  assert (1 <= y <= 131070) as Hy by lia.
  assert ((x - 1) mod 65535 = (y - 1) mod 65535) as ->.
  { unfold y. replace (x - 1) with (x / 65536 + x mod 65536 - 1 + (x / 65536) * 65535) by lia. by rewrite Z.mod_add by lia. }
  destruct (decide (y < 65536)).
  - rewrite (Z.div_small y), (Z.mod_small y), (Z.mod_small (y - 1)) by lia. lia.
  - assert (y / 65536 = 1) as -> by (symmetry; apply (Z.div_unique _ _ _ (y - 65536)); lia).
    assert (y mod 65536 = y - 65536) as -> by (symmetry; apply (Z.mod_unique _ _ 1); lia).
    destruct (decide (y = 131070)) as [->|]; [done|].
    assert ((y - 1) mod 65535 = y - 65536) as -> by (symmetry; apply (Z.mod_unique _ _ 1); lia). lia.
Qed.

Lemma ones_sum_bounds x : 0 <= x -> 0 <= ones_sum x <= 65535.
Proof. intros. unfold ones_sum. pose proof (Z.mod_pos_bound (x - 1) 65535). case_if; lia. Qed.

Lemma u16_lnot x : 0 <= x <= 65535 -> u16 (Z.lnot x) = 65535 - x.
Proof. intros. unfold u16. unfold Z.lnot. symmetry. apply (Z.mod_unique _ _ (-1)); lia. Qed.

(** What a segment of [len] bytes between two addresses sums up to. *)
Definition segment_sum (src_ip dst_ip packet : list Z) (len : Z) : Z :=
  words src_ip + words dst_ip + 6 + len + words (ztake len packet).

Lemma quad (l : list Z) : zlen l = 4 -> exists a b c d, l = [a; b; c; d].
Proof.
  intros Hl. unfold zlen in Hl. destruct l as [|a [|b [|c [|d [|]]]]]; cbn in Hl; try lia. by exists a, b, c, d.
Qed.

Lemma net16_quad a b c d : bytes_ok [a; b; c; d] -> net16 [a; b; c; d] 0 = a * 256 + b /\ net16 [a; b; c; d] 2 = c * 256 + d.
Proof.
  unfold bytes_ok. rewrite !Forall_cons. intros (Ha & Hb & Hc & Hd & _).
  split; by rewrite <- lor_bytes.
Qed.

Lemma segment_sum_bounds src dst pkt len :
  bytes_ok src -> bytes_ok dst -> bytes_ok pkt -> zlen src = 4 -> zlen dst = 4 -> 0 <= len <= 65535 ->
  6 <= segment_sum src dst pkt len < 2 ^ 32.
Proof.
  intros Hs Hd Hp Hls Hld Hlen. unfold segment_sum.
  pose proof (words_bounds src Hs) as B1. pose proof (words_bounds dst Hd) as B2.
  assert (bytes_ok (ztake len pkt)) as Hp' by (by apply Forall_take).
  pose proof (words_bounds _ Hp') as B3. rewrite Hls in B1. rewrite Hld in B2. change ((4 + 1) / 2) with 2 in *.
  rewrite zlen_ztake in B3 by lia. assert ((Z.min len (zlen pkt) + 1) / 2 <= 32768) by (apply Z.div_le_upper_bound; lia). lia.
Qed.

(** Drop the conversions of values in range, innermost first. *)
Ltac small32 :=
  repeat match goal with
  | |- context [u32 ?x] => lazymatch x with context [u32 _] => fail | _ => rewrite (u32_small x) by lia end
  end.

Lemma tcp_checksum_sum src dst pkt len :
  bytes_ok src -> bytes_ok dst -> bytes_ok pkt -> zlen src = 4 -> zlen dst = 4 -> 0 <= len <= 65535 ->
  tcp_checksum src dst pkt len = 65535 - ones_sum (segment_sum src dst pkt len).
Proof.
  intros Hs Hd Hp Hls Hld Hlen. pose proof (segment_sum_bounds src dst pkt len Hs Hd Hp Hls Hld Hlen) as Hb.
  rewrite <- u16_lnot by (apply ones_sum_bounds; lia). unfold tcp_checksum. do 2 f_equal.
  rewrite <- fold_carry_twice by lia. do 2 f_equal.
  assert (bytes_ok (ztake len pkt)) as Hp' by (by apply Forall_take).
  rewrite sum_words_spec by done. unfold segment_sum in *.
  destruct (quad src Hls) as (a & b & c & d & ->), (quad dst Hld) as (a' & b' & c' & d' & ->).
  destruct (net16_quad a b c d Hs) as [-> ->], (net16_quad a' b' c' d' Hd) as [-> ->].
  pose proof (words_bounds _ Hp') as B3. unfold bytes_ok in Hs, Hd. rewrite !Forall_cons in Hs, Hd. unfold is_u8 in *.
  cbn [words] in *. case_decide as E; [rewrite E in *; cbn [words] in *|]; small32; lia.
Qed.

(** ** Byte order *)

Lemma land_byte x k : 0 <= k -> Z.land x (Z.shiftl 0xFF k) = Z.shiftl (u8 (Z.shiftr x k)) k.
Proof.
  intros Hk. unfold u8. change 0xFF with (Z.ones 8). rewrite <- (Z.land_ones _ 8) by lia. apply Z.bits_inj'. intros i Hi.
  rewrite Z.land_spec, !Z.shiftl_spec, Z.land_spec by lia. destruct (Z.ltb_spec i k).
  - rewrite (Z.testbit_neg_r (Z.ones 8)) by lia. by rewrite !andb_false_r.
  - rewrite Z.shiftr_spec by lia. by replace (i - k + k) with i by lia.
Qed.

(** The bytes of a word, most significant first. *)
Definition be16 (x : Z) : list Z := [u8 (Z.shiftr x 8); u8 x].
Definition be32 (x : Z) : list Z := [u8 (Z.shiftr x 24); u8 (Z.shiftr x 16); u8 (Z.shiftr x 8); u8 x].

Lemma bswap16_add x : bswap16 x = u8 x * 2 ^ 8 + u8 (Z.shiftr x 8).
Proof.
  unfold bswap16. rewrite Z.lor_comm. change 0xFF with (Z.shiftl 0xFF 0) at 1 2. rewrite !land_byte by lia.
  rewrite !Z.shiftl_0_r, !Z.shiftr_0_r, Z.shiftl_mul_pow2 by lia. apply lor_low; [lia | apply u8_bound].
Qed.
Lemma bswap32_add x :
  bswap32 x = u8 x * 2 ^ 24 + (u8 (Z.shiftr x 8) * 2 ^ 16 + (u8 (Z.shiftr x 16) * 2 ^ 8 + u8 (Z.shiftr x 24))).
Proof.
  unfold bswap32. change 0xFF with (Z.shiftl 0xFF 0). change 0xFF00 with (Z.shiftl 0xFF 8). rewrite !land_byte by lia.
  rewrite !Z.shiftl_0_r, !Z.shiftr_0_r, !Z.shiftr_shiftr, !Z.shiftl_shiftl by lia.
  change (24 + 0) with 24. change (8 + 8) with 16.
  pose proof (u8_bound x). pose proof (u8_bound (Z.shiftr x 8)). pose proof (u8_bound (Z.shiftr x 16)). pose proof (u8_bound (Z.shiftr x 24)).
  rewrite !Z.shiftl_mul_pow2 by lia. rewrite !u32_small by lia.
  rewrite (Z.lor_comm _ (u8 x * 2 ^ 24)), (Z.lor_comm _ (u8 (Z.shiftr x 8) * 2 ^ 16)), (Z.lor_comm _ (u8 (Z.shiftr x 16) * 2 ^ 8)).
  rewrite (lor_low _ _ 8), (lor_low _ _ 16), (lor_low _ _ 24) by lia. done.
Qed.

Lemma u8_add_high a b k : 0 <= b -> 8 <= b -> u8 (k * 2 ^ b + a) = u8 a.
Proof.
  intros Hb0 Hb. unfold u8. replace (k * 2 ^ b + a) with (a + k * 2 ^ (b - 8) * 2 ^ 8).
  2:{ rewrite <- Z.mul_assoc, <- Z.pow_add_r by lia. replace (b - 8 + 8) with b by lia. lia. }
  apply Z.mod_add. lia.
Qed.
Lemma shiftr_add_high a b k : 0 <= b -> 0 <= a < 2 ^ b -> Z.shiftr (k * 2 ^ b + a) b = k.
Proof. intros. rewrite Z.shiftr_div_pow2 by lia. rewrite Z.add_comm, Z.div_add by lia. rewrite Z.div_small; lia. Qed.

Lemma le16_bswap16 x : le16 (bswap16 x) = be16 x.
Proof.
  rewrite bswap16_add. unfold le16, be16. pose proof (u8_bound x). pose proof (u8_bound (Z.shiftr x 8)).
  rewrite u8_add_high, shiftr_add_high by lia. by rewrite !(u8_small (u8 _)) by lia.
Qed.
(** The bytes of a word that is put together from four bytes. *)
Lemma word_bytes b3 b2 b1 b0 :
  is_u8 b3 -> is_u8 b2 -> is_u8 b1 -> is_u8 b0 ->
  let y := b3 * 2 ^ 24 + (b2 * 2 ^ 16 + (b1 * 2 ^ 8 + b0)) in
  u8 y = b0 /\ u8 (Z.shiftr y 8) = b1 /\ u8 (Z.shiftr y 16) = b2 /\ u8 (Z.shiftr y 24) = b3.
Proof.
  intros H3 H2 H1 H0 y. unfold is_u8 in H3, H2, H1, H0.
  assert (Z.shiftr y 24 = b3) as -> by (apply shiftr_add_high; lia).
  assert (Z.shiftr y 16 = b3 * 2 ^ 8 + b2) as ->.
  { unfold y. rewrite Z.shiftr_div_pow2 by lia. symmetry. apply (Z.div_unique _ _ _ (b1 * 2 ^ 8 + b0)); lia. }
  assert (Z.shiftr y 8 = b3 * 2 ^ 16 + (b2 * 2 ^ 8 + b1)) as ->.
  { unfold y. rewrite Z.shiftr_div_pow2 by lia. symmetry. apply (Z.div_unique _ _ _ b0); lia. }
  unfold y. rewrite !u8_add_high by lia. by rewrite !u8_small by lia.
Qed.
Lemma le32_bswap32 x : le32 (bswap32 x) = be32 x.
Proof.
  rewrite bswap32_add. unfold le32, be32.
  destruct (word_bytes (u8 x) (u8 (Z.shiftr x 8)) (u8 (Z.shiftr x 16)) (u8 (Z.shiftr x 24))) as (-> & -> & -> & ->); [apply u8_bound..|done].
Qed.

Lemma be16_value x : 0 <= x < 2 ^ 16 -> u8 (Z.shiftr x 8) * 2 ^ 8 + u8 x = x.
Proof.
  intros Hx. unfold u8. rewrite Z.shiftr_div_pow2, (Z.mod_small (x / 2 ^ 8)) by (Z.to_euclidean_division_equations; lia).
  pose proof (Z.div_mod x (2 ^ 8)). lia.
Qed.
Lemma be32_value x :
  0 <= x < 2 ^ 32 ->
  u8 (Z.shiftr x 24) * 2 ^ 24 + (u8 (Z.shiftr x 16) * 2 ^ 16 + (u8 (Z.shiftr x 8) * 2 ^ 8 + u8 x)) = x.
Proof.
  intros Hx. unfold u8. rewrite !Z.shiftr_div_pow2 by lia.
  pose proof (Z.div_mod x (2 ^ 8) ltac:(lia)). pose proof (Z.div_mod (x / 2 ^ 8) (2 ^ 8) ltac:(lia)) as H2.
  rewrite Z.div_div in H2 by lia. change (2 ^ 8 * 2 ^ 8) with (2 ^ 16) in H2.
  pose proof (Z.div_mod (x / 2 ^ 16) (2 ^ 8) ltac:(lia)) as H3. rewrite Z.div_div in H3 by lia. change (2 ^ 16 * 2 ^ 8) with (2 ^ 24) in H3.
  rewrite (Z.mod_small (x / 2 ^ 24)) by (split; [apply Z.div_pos; lia | apply Z.div_lt_upper_bound; lia]). lia.
Qed.

Section fields.
Context (l : list Z) (Hl : bytes_ok l).

Lemma byte_at i : 0 <= i < zlen l -> is_u8 (zget l i).
Proof. intros Hi. unfold bytes_ok in Hl. rewrite Forall_forall in Hl. apply Hl. eapply list_elem_of_lookup_2, lookup_zget, Hi. Qed.

Lemma net16_value i : 0 <= i -> i + 1 < zlen l -> net16 l i = zget l i * 2 ^ 8 + zget l (i + 1).
Proof. intros H1 H2. unfold net16. rewrite Z.shiftl_mul_pow2 by lia. apply lor_low; [lia | apply byte_at; lia]. Qed.
Lemma net32_value i :
  0 <= i -> i + 3 < zlen l ->
  net32 l i = zget l i * 2 ^ 24 + (zget l (i + 1) * 2 ^ 16 + (zget l (i + 2) * 2 ^ 8 + zget l (i + 3))).
Proof.
  intros H1 H2. unfold net32. pose proof (byte_at (i + 1) ltac:(lia)). pose proof (byte_at (i + 2) ltac:(lia)).
  pose proof (byte_at (i + 3) ltac:(lia)). unfold is_u8 in *. rewrite !Z.shiftl_mul_pow2 by lia.
  rewrite <- !Z.lor_assoc. rewrite (lor_low _ _ 8), (lor_low _ _ 16), (lor_low _ _ 24) by lia. done.
Qed.

Lemma get16_swap i : 0 <= i -> i + 1 < zlen l -> bswap16 (get16 l i) = net16 l i.
Proof.
  intros H1 H2. rewrite bswap16_add, net16_value by lia. unfold get16. pose proof (byte_at i ltac:(lia)). pose proof (byte_at (i + 1) ltac:(lia)).
  unfold is_u8 in *. rewrite Z.shiftl_mul_pow2, Z.lor_comm, lor_low by lia. rewrite u8_add_high, shiftr_add_high by lia.
  by rewrite !u8_small by lia.
Qed.
Lemma get32_swap i : 0 <= i -> i + 3 < zlen l -> bswap32 (get32 l i) = net32 l i.
Proof.
  intros H1 H2. rewrite bswap32_add, net32_value by lia. unfold get32.
  pose proof (byte_at i ltac:(lia)). pose proof (byte_at (i + 1) ltac:(lia)). pose proof (byte_at (i + 2) ltac:(lia)). pose proof (byte_at (i + 3) ltac:(lia)).
  unfold is_u8 in *. set (b0 := zget l i) in *. set (b1 := zget l (i + 1)) in *. set (b2 := zget l (i + 2)) in *. set (b3 := zget l (i + 3)) in *.
  assert (Z.lor (Z.lor (Z.lor b0 (Z.shiftl b1 8)) (Z.shiftl b2 16)) (Z.shiftl b3 24) = b3 * 2 ^ 24 + (b2 * 2 ^ 16 + (b1 * 2 ^ 8 + b0))) as ->.
  { rewrite !Z.shiftl_mul_pow2 by lia. rewrite (Z.lor_comm _ (b3 * _)), (Z.lor_comm _ (b2 * _)), (Z.lor_comm _ (b1 * _)).
    rewrite (lor_low _ _ 8), (lor_low _ _ 16), (lor_low _ _ 24) by lia. done. }
  by destruct (word_bytes b3 b2 b1 b0) as (-> & -> & -> & ->).
Qed.
End fields.

(** ** A segment in a frame *)

Lemma header_bytes_be sp dp seq ack hs flags w cs :
  tcp_header_bytes sp dp seq ack hs flags w cs =
  be16 sp ++ be16 dp ++ be32 seq ++ be32 ack ++ [u8 (Z.shiftl (hs / 4) 4); flags] ++ be16 w ++ be16 cs ++ [0; 0].
Proof. unfold tcp_header_bytes. by rewrite !le16_bswap16, !le32_bswap32. Qed.

Lemma be16_ok x : bytes_ok (be16 x).
Proof. repeat constructor; apply u8_bound. Qed.
Lemma be32_ok x : bytes_ok (be32 x).
Proof. repeat constructor; apply u8_bound. Qed.

Lemma header_bytes_ok sp dp seq ack hs flags w cs : is_u8 flags -> bytes_ok (tcp_header_bytes sp dp seq ack hs flags w cs).
Proof.
  intros Hf. rewrite header_bytes_be. repeat apply Forall_app_2; try apply be16_ok; try apply be32_ok.
  - apply Forall_cons_2; [apply u8_bound|]. apply Forall_cons_2; [exact Hf | apply Forall_nil_2].
  - repeat apply Forall_cons_2; try apply Forall_nil_2; unfold is_u8; lia.
Qed.
Lemma header_bytes_len sp dp seq ack hs flags w cs : zlen (tcp_header_bytes sp dp seq ack hs flags w cs) = 20.
Proof. done. Qed.

Lemma words_app l1 l2 : Z.even (zlen l1) = true -> words (l1 ++ l2) = words l1 + words l2.
Proof.
  induction l1 as [|a|a b l1 IH] using list_two_ind; intros He; [done | done |].
  cbn [words app]. rewrite !zlen_cons in He. replace (zlen l1 + 1 + 1) with (zlen l1 + 2) in He by lia.
  rewrite Z.even_add in He. cbn in He. rewrite IH; [lia|]. by destruct (Z.even (zlen l1)).
Qed.

(** The checksum field contributes its value. *)
Lemma header_words sp dp seq ack hs flags w cs rest :
  0 <= cs < 2 ^ 16 ->
  words (tcp_header_bytes sp dp seq ack hs flags w cs ++ rest) = words (tcp_header_bytes sp dp seq ack hs flags w 0 ++ rest) + cs.
Proof.
  intros Hcs. rewrite !(words_app (tcp_header_bytes _ _ _ _ _ _ _ _)) by done. rewrite !header_bytes_be.
  pose proof (be16_value cs Hcs). cbn [be16 be32 app words]. change (u8 (Z.shiftr 0 8)) with 0. change (u8 0) with 0. lia.
Qed.

(** A connection with its fields in range. *)
Record wire_conn (c : tcp_connection_t) : Prop := {
  wc_local : zlen (local_ip c) = 4 /\ bytes_ok (local_ip c);
  wc_remote : zlen (remote_ip c) = 4 /\ bytes_ok (remote_ip c);
  wc_ports : 0 <= local_port c < 2 ^ 16 /\ 0 <= remote_port c < 2 ^ 16;
  wc_seq : is_u32 (seq_num (tx c));
  wc_ack : is_u32 (ack_num (rx c));
}.

(** The 34 bytes in front of a segment of [n] bytes: Ethernet, and an IPv4
    header without options from [src] to [dst]. *)
Record ip_prefix (pre src dst : list Z) (n : Z) : Prop := {
  ip_len : zlen pre = 34;
  ip_bytes : bytes_ok pre;
  ip_ihl : Z.land (zget pre 14) 0x0F = 5;
  ip_total : net16 pre 16 = 20 + n;
  ip_src : ztake 4 (zdrop 26 pre) = src;
  ip_dst : ztake 4 (zdrop 30 pre) = dst;
}.

Lemma padding_bounds options : 0 <= padding_of options <= 3 /\ header_size_of options mod 4 = 0.
Proof.
  unfold padding_of, header_size_of, padding_of. set (n := tcp_header_size + zlen options).
  pose proof (Z.mod_pos_bound n 4). pose proof (Z.mod_pos_bound (4 - n mod 4) 4). split; [lia|].
  rewrite Z.add_mod_idemp_r by lia. replace (n + (4 - n mod 4)) with (n - n mod 4 + 1 * 4) by lia.
  rewrite Z.mod_add, Zminus_mod_idemp_r, Z.sub_diag by lia. done.
Qed.

(** The packet with an arbitrary checksum field. *)
Definition packet_with (c : tcp_connection_t) (flags wfield : Z) (options data : list Z) (checksum : Z) : list Z :=
  tcp_header_bytes (local_port c) (remote_port c) (seq_num (tx c)) (ack_num (rx c)) (header_size_of options) flags wfield checksum ++
  options ++ replicate (Z.to_nat (padding_of options)) 0 ++ data.

Lemma zlen_pad {A} (x : A) n : 0 <= n -> zlen (replicate (Z.to_nat n) x) = n.
Proof. intros. unfold zlen. rewrite length_replicate. lia. Qed.

Lemma packet_with_len c flags w options data cs : zlen (packet_with c flags w options data cs) = header_size_of options + zlen data.
Proof.
  unfold packet_with. destruct (padding_bounds options) as [Hp _]. rewrite !zlen_app, zlen_pad, header_bytes_len by lia.
  unfold header_size_of, tcp_header_size. lia.
Qed.
Lemma packet_with_ok c flags w options data cs : is_u8 flags -> bytes_ok options -> bytes_ok data -> bytes_ok (packet_with c flags w options data cs).
Proof.
  intros Hf Ho Hd. unfold packet_with. apply Forall_app_2; [by apply header_bytes_ok|]. apply Forall_app_2; [done|].
  apply Forall_app_2; [|done]. apply Forall_replicate. unfold is_u8. lia.
Qed.

(** The sender's checksum makes the receiver's come out as zero. *)
Lemma packet_checksum c flags w options data :
  wire_conn c -> is_u8 flags -> bytes_ok options -> bytes_ok data -> header_size_of options + zlen data <= 65535 ->
  let n := header_size_of options + zlen data in
  exists cs, 0 <= cs < 2 ^ 16 /\ tcp_packet c flags w options data = packet_with c flags w options data cs /\
    forall post, bytes_ok post -> tcp_checksum (local_ip c) (remote_ip c) (packet_with c flags w options data cs ++ post) n = 0.
Proof.
  intros [[Hl1 Hl2] [Hr1 Hr2] _ _ _] Hf Ho Hd Hn n. destruct (padding_bounds options) as [Hp _].
  pose proof (zlen_nonneg options). pose proof (zlen_nonneg data).
  assert (0 <= n <= 65535) as Hn' by (unfold n; split; [unfold header_size_of, tcp_header_size|]; lia).
  assert (forall cs post, ztake n (packet_with c flags w options data cs ++ post) = packet_with c flags w options data cs) as Htk.
  { intros cs post. unfold n. rewrite <- (packet_with_len c flags w options data cs). apply ztake_app_len. }
  set (S0 := segment_sum (local_ip c) (remote_ip c) (packet_with c flags w options data 0) n).
  pose proof (packet_with_ok c flags w options data 0 Hf Ho Hd) as Hok0.
  pose proof (segment_sum_bounds _ _ _ n Hl2 Hr2 Hok0 Hl1 Hr1 Hn') as HS. fold S0 in HS.
  pose proof (ones_sum_bounds S0 ltac:(lia)) as Hos.
  exists (65535 - ones_sum S0). split; [lia|]. split.
  - unfold tcp_packet. fold (packet_with c flags w options data). rewrite (u32_small (_ + _)) by (fold n; lia). fold n.
    unfold u16. rewrite Z.mod_small by lia. fold (packet_with c flags w options data 0).
    rewrite tcp_checksum_sum by done. done.
  - intros post Hpost. set (cs := 65535 - ones_sum S0).
    assert (bytes_ok (packet_with c flags w options data cs ++ post)) by (apply Forall_app_2; [by apply packet_with_ok | done]).
    rewrite tcp_checksum_sum by done.
    unfold segment_sum. rewrite Htk.
    assert (words (packet_with c flags w options data cs) = words (packet_with c flags w options data 0) + cs) as ->
      by (apply header_words; unfold cs; lia).
    assert (words (local_ip c) + words (remote_ip c) + 6 + n + (words (packet_with c flags w options data 0) + cs) = S0 + cs) as ->.
    { unfold S0, segment_sum. rewrite <- (app_nil_r (packet_with c flags w options data 0)) at 2. rewrite Htk. lia. }
    unfold cs, ones_sum at 1. rewrite (proj2 (Z.eqb_neq _ _)) by lia. unfold ones_sum. rewrite (proj2 (Z.eqb_neq S0 0)) by lia.
    pose proof (Z.div_mod (S0 - 1) 65535 ltac:(lia)) as Hdm.
    replace (S0 + (65535 - ((S0 - 1) mod 65535 + 1)) - 1) with (65534 + ((S0 - 1) / 65535) * 65535) by lia.
    rewrite Z.mod_add by lia. done.
Qed.

Lemma ztake_zdrop_app {A} (l r : list A) i k : 0 <= i -> 0 <= k -> i + k <= zlen l -> ztake k (zdrop i (l ++ r)) = ztake k (zdrop i l).
Proof.
  intros Hi Hk Hl. unfold ztake, zdrop, zlen in *. rewrite drop_app_le by lia. rewrite take_app_le; [done|]. rewrite length_drop. lia.
Qed.

Section frame.
Context (c : tcp_connection_t) (flags w : Z) (options data pre post : list Z).
Hypothesis Hc : wire_conn c.
Hypothesis Hflags : is_u8 flags.
Hypothesis Hw : 0 <= w < 2 ^ 16.
Hypothesis Hoptions : bytes_ok options /\ zlen options <= 40.
Hypothesis Hdata : bytes_ok data.
Hypothesis Hpost : bytes_ok post.
Hypothesis Hsize : header_size_of options + zlen data <= 65515.
Hypothesis Hpre : ip_prefix pre (local_ip c) (remote_ip c) (header_size_of options + zlen data).
Context (cs : Z).
Hypothesis Hcs : 0 <= cs < 2 ^ 16.

#[local] Abbreviation pkt := (packet_with c flags w options data cs).
#[local] Abbreviation header :=
  (tcp_header_bytes (local_port c) (remote_port c) (seq_num (tx c)) (ack_num (rx c)) (header_size_of options) flags w cs).
#[local] Abbreviation frame := (pre ++ pkt ++ post).

Lemma header_size_range : 20 <= header_size_of options <= 60.
Proof.
  destruct (padding_bounds options) as [Hp Hm]. pose proof (zlen_nonneg options).
  assert (header_size_of options = 20 + zlen options + padding_of options) as E by done.
  apply Z.mod_divide in Hm; [|lia]. destruct Hm as [k Hk]. lia.
Qed.

Lemma frame_bytes : bytes_ok frame.
Proof.
  apply Forall_app_2; [apply Hpre|]. apply Forall_app_2; [|done]. apply packet_with_ok; [done | apply Hoptions | done].
Qed.
Lemma frame_len : zlen frame = 34 + (header_size_of options + zlen data) + zlen post.
Proof. rewrite !zlen_app, packet_with_len, (ip_len _ _ _ _ Hpre). lia. Qed.

Lemma frame_pre i : 0 <= i < 34 -> zget frame i = zget pre i.
Proof. intros. apply zget_app_l. rewrite (ip_len _ _ _ _ Hpre). lia. Qed.
Lemma frame_header k : 0 <= k < 20 -> zget frame (34 + k) = zget header k.
Proof.
  intros Hk. pose proof (ip_len _ _ _ _ Hpre) as Hl. rewrite zget_app_r by lia. rewrite Hl. replace (34 + k - 34) with k by lia.
  unfold packet_with. rewrite <- app_assoc. apply zget_app_l. rewrite header_bytes_len. lia.
Qed.
Lemma frame_from : zdrop 34 frame = pkt ++ post.
Proof. rewrite <- (ip_len _ _ _ _ Hpre) at 1. apply zdrop_app_len. Qed.

Lemma frame_net16 k v : 0 <= v < 2 ^ 16 -> 0 <= k -> k + 1 < 20 ->
  zget header k = u8 (Z.shiftr v 8) -> zget header (k + 1) = u8 v -> net16 frame (34 + k) = v.
Proof.
  intros Hv H0 H1 E0 E1. pose proof frame_len. pose proof header_size_range. pose proof (zlen_nonneg data). pose proof (zlen_nonneg post).
  rewrite net16_value by (apply frame_bytes || lia). replace (34 + k + 1) with (34 + (k + 1)) by lia.
  rewrite !frame_header, E0, E1 by lia. by apply be16_value.
Qed.
Lemma frame_net32 k v : 0 <= v < 2 ^ 32 -> 0 <= k -> k + 3 < 20 ->
  zget header k = u8 (Z.shiftr v 24) -> zget header (k + 1) = u8 (Z.shiftr v 16) ->
  zget header (k + 2) = u8 (Z.shiftr v 8) -> zget header (k + 3) = u8 v -> net32 frame (34 + k) = v.
Proof.
  intros Hv H0 H1 E0 E1 E2 E3. pose proof frame_len. pose proof header_size_range. pose proof (zlen_nonneg data). pose proof (zlen_nonneg post).
  rewrite net32_value by (apply frame_bytes || lia). rewrite <- !Z.add_assoc.
  rewrite !frame_header, E0, E1, E2, E3 by lia. by apply be32_value.
Qed.

(** A field of the header, by computation. *)
Ltac field := first [done | lia | rewrite header_bytes_be; reflexivity].

Lemma frame_accept :
  tcp_checksum (local_ip c) (remote_ip c) (pkt ++ post) (header_size_of options + zlen data) = 0 ->
  tcp_accept_frame frame =
  Some (mk_seg (local_ip c) (remote_ip c) (local_port c) (remote_port c) (Z.land flags 0x3F) (seq_num (tx c)) (ack_num (rx c))
    34 (header_size_of options + zlen data)).
Proof.
  intros Hsum. pose proof frame_len as Hl. pose proof header_size_range. pose proof (zlen_nonneg data). pose proof (zlen_nonneg post).
  pose proof (ip_len _ _ _ _ Hpre) as Hlp. unfold tcp_accept_frame.
  rewrite Hl, frame_pre, (ip_ihl _ _ _ _ Hpre) by lia. rewrite !ztake_zdrop_app, (ip_src _ _ _ _ Hpre), (ip_dst _ _ _ _ Hpre) by lia.
  assert (net16 frame 16 = 20 + (header_size_of options + zlen data)) as ->.
  { unfold net16. rewrite !frame_pre by lia. apply (ip_total _ _ _ _ Hpre). }
  change (5 * 4) with 20. change (14 + 20) with 34. rewrite frame_from.
  set (n := header_size_of options + zlen data) in *.
  rewrite (proj2 (Z.ltb_ge _ 34)) by lia. cbn [Z.ltb Z.compare orb]. rewrite (proj2 (Z.ltb_ge _ (34 + 20))) by lia. cbn [orb].
  rewrite (proj2 (Z.leb_le (20 + 20) _)), (proj2 (Z.leb_le (14 + _) _)) by lia. cbn [andb].
  rewrite (u32_small (20 + n - 20)) by lia. replace (20 + n - 20) with n by lia.
  unfold u16. rewrite (Z.mod_small n), Hsum by lia. cbn [Z.eqb negb]. rewrite andb_false_r.
  destruct Hc as [_ _ [Hp1 Hp2] Hs Ha].
  rewrite <- (Z.add_0_r 34) at 1. rewrite (frame_net16 0 (local_port c)) by field.
  rewrite (frame_net16 2 (remote_port c)) by field. rewrite (frame_net32 4 (seq_num (tx c))) by field.
  rewrite (frame_net32 8 (ack_num (rx c))) by field. rewrite (frame_header 13) by lia. done.
Qed.

Lemma header_offset : u8 (Z.shiftr (u8 (Z.shiftl (header_size_of options / 4) 4)) 4 * 4) = header_size_of options.
Proof.
  pose proof header_size_range as Hr. destruct (padding_bounds options) as [_ Hm]. apply Z.mod_divide in Hm; [|lia].
  destruct Hm as [k Hk]. rewrite Hk, Z.div_mul by lia. rewrite Z.shiftl_mul_pow2 by lia. rewrite (u8_small (k * _)) by lia.
  rewrite Z.shiftr_div_pow2, Z.div_mul by lia. apply u8_small. lia.
Qed.

Lemma frame_read sg :
  sg_start sg = 34 -> sg_seg_len sg = header_size_of options + zlen data ->
  tcp_read_header frame sg =
  Some (mk_hdr (seq_num (tx c)) (ack_num (rx c)) (header_size_of options) flags w
    (options ++ replicate (Z.to_nat (padding_of options)) 0) data).
Proof.
  intros Est Elen. pose proof header_size_range as Hr. pose proof frame_len as Hl. pose proof (zlen_nonneg data). pose proof (zlen_nonneg post).
  destruct (padding_bounds options) as [Hp _]. destruct Hc as [_ _ _ Hs Ha].
  unfold tcp_read_header. rewrite Est, Elen, Hl, frame_from.
  assert (ztake tcp_header_size (pkt ++ post) = header) as ->.
  { unfold packet_with. rewrite <- !app_assoc. unfold tcp_header_size.
    exact (ztake_app_len header (options ++ replicate (Z.to_nat (padding_of options)) 0 ++ data ++ post)). }
  assert (zget header 12 = u8 (Z.shiftl (header_size_of options / 4) 4)) as -> by done.
  rewrite header_offset, (proj2 (Z.ltb_ge _ 20)), (proj2 (Z.ltb_ge _ (34 + _))), (proj2 (Z.leb_le (header_size_of options) _)) by lia.
  rewrite (u32_small (_ - _)) by lia. replace (header_size_of options + zlen data - header_size_of options) with (zlen data) by lia.
  assert (bytes_ok header) as Hh by by apply header_bytes_ok.
  pose proof (header_bytes_len (local_port c) (remote_port c) (seq_num (tx c)) (ack_num (rx c)) (header_size_of options) flags w cs) as Hhl.
  rewrite get16_swap, !get32_swap by (done || rewrite Hhl; lia). do 2 f_equal.
  - rewrite net32_value by (done || rewrite Hhl; lia). rewrite header_bytes_be. by apply (be32_value (seq_num (tx c))).
  - rewrite net32_value by (done || rewrite Hhl; lia). rewrite header_bytes_be. by apply (be32_value (ack_num (rx c))).
  - rewrite net16_value by (done || rewrite Hhl; lia). rewrite header_bytes_be. by apply (be16_value w).
  - set (pad := replicate (Z.to_nat (padding_of options)) 0).
    replace frame with ((pre ++ header) ++ (options ++ pad) ++ data ++ post) by (unfold packet_with; by rewrite <- !app_assoc).
    replace (34 + tcp_header_size) with (zlen (pre ++ header)) by (rewrite zlen_app, Hhl, (ip_len _ _ _ _ Hpre); done).
    rewrite zdrop_app_len. replace (header_size_of options - tcp_header_size) with (zlen (options ++ pad)).
    2:{ rewrite zlen_app. unfold pad. rewrite zlen_pad by lia. unfold header_size_of. lia. }
    apply ztake_app_len.
  - set (pad := replicate (Z.to_nat (padding_of options)) 0).
    replace frame with ((pre ++ header ++ options ++ pad) ++ data ++ post) by (unfold packet_with; by rewrite <- !app_assoc).
    replace (34 + header_size_of options) with (zlen (pre ++ header ++ options ++ pad)).
    2:{ rewrite !zlen_app, Hhl, (ip_len _ _ _ _ Hpre). unfold pad. rewrite zlen_pad by lia. unfold header_size_of, tcp_header_size. lia. }
    rewrite zdrop_app_len. apply ztake_app_len.
Qed.
End frame.

(** The segment that a packet is read as. *)
Definition segment_of (c : tcp_connection_t) (flags n : Z) : segment :=
  mk_seg (local_ip c) (remote_ip c) (local_port c) (remote_port c) (Z.land flags 0x3F) (seq_num (tx c)) (ack_num (rx c)) 34 n.

Lemma segment_read c flags w options data pre post :
  wire_conn c -> is_u8 flags -> 0 <= w < 2 ^ 16 -> bytes_ok options -> zlen options <= 40 -> bytes_ok data -> bytes_ok post ->
  header_size_of options + zlen data <= 65515 ->
  ip_prefix pre (local_ip c) (remote_ip c) (header_size_of options + zlen data) ->
  let frame := pre ++ tcp_packet c flags w options data ++ post in
  let sg := segment_of c flags (header_size_of options + zlen data) in
  tcp_accept_frame frame = Some sg /\
  tcp_read_header frame sg =
    Some (mk_hdr (seq_num (tx c)) (ack_num (rx c)) (header_size_of options) flags w
      (options ++ replicate (Z.to_nat (padding_of options)) 0) data).
Proof.
  intros Hc Hf Hw Ho Hol Hd Hp Hsz Hpre. cbv zeta.
  destruct (packet_checksum c flags w options data Hc Hf Ho Hd ltac:(lia)) as (cs & Hcs & -> & Hsum).
  split; [by apply frame_accept, Hsum | by apply frame_read].
Qed.

(** C22 A segment survives the wire.  Whatever a connection sends, flags, window,
    options and data, put behind an IPv4 header and followed by any padding of
    the Ethernet frame, passes the checks of the receive path, checksum
    included, and is read back with the same addresses, ports, sequence and
    acknowledgement numbers, flags, window, options and data. *)
Theorem tcp_segment_roundtrip c flags w options data pre post :
  wire_conn c -> is_u8 flags -> 0 <= w < 2 ^ 16 -> bytes_ok options -> zlen options <= 40 -> bytes_ok data -> bytes_ok post ->
  header_size_of options + zlen data <= 65515 ->
  ip_prefix pre (local_ip c) (remote_ip c) (header_size_of options + zlen data) ->
  exists sg, tcp_accept_frame (pre ++ tcp_packet c flags w options data ++ post) = Some sg /\
    sg_src_ip sg = local_ip c /\ sg_dst_ip sg = remote_ip c /\ sg_src_port sg = local_port c /\ sg_dst_port sg = remote_port c /\
    sg_rx_flags sg = Z.land flags 0x3F /\ sg_rx_seq sg = seq_num (tx c) /\ sg_rx_ack sg = ack_num (rx c) /\
    tcp_read_header (pre ++ tcp_packet c flags w options data ++ post) sg =
    Some (mk_hdr (seq_num (tx c)) (ack_num (rx c)) (header_size_of options) flags w
      (options ++ replicate (Z.to_nat (padding_of options)) 0) data).
Proof.
  intros Hc Hf Hw Ho Hol Hd Hp Hsz Hpre. destruct (segment_read c flags w options data pre post) as [E1 E2]; try done.
  eexists. split; [exact E1|]. by do 7 (split; [done|]).
Qed.
