(* ===== verification/TcpMem.v ===== *)
(** * TCP: the memory of a connection

    Which heap blocks a connection owns, and that every operation on it keeps
    exactly those: nothing is lost, freed twice or taken from somebody else. *)
From S2P Require Import Prelude Heap TcpRecv TcpConn TcpSeg Tcp TcpTable TcpFrame.

(** Sending a datagram leaves the blocks of its callers alone. *)
Class NetDownLaws (W : Type) `{!KHeap W} `{!NetDown W} := {
  ip_send_heap (w : W) dst proto pkt :
    heap_ok w -> heap_ok (ip_send_packet dst proto pkt w).2 /\
    forall q n, heap_live (ip_send_packet dst proto pkt w).2 q n <-> heap_live w q n;
}.

Section mem.
Context {W : Type} `{!KHeap W} `{!KHeapLaws W} `{!NetDown W} `{!NetDownLaws W}.
Abbreviation act := (act (W := W)).

(** The live blocks are those of [F], which belong to others, and those of [B]
    (address and the size that is needed), each once. *)
Record mem_ok (F : Z -> Z -> Prop) (w : W) (B : list (Z * Z)) : Prop := {
  mo_heap : heap_ok w;
  mo_nodup : NoDup (fst <$> B);
  mo_live p k : (p, k) ∈ B -> exists n, k <= n /\ heap_live w p n;
  mo_frame q n : F q n -> heap_live w q n /\ q ∉ fst <$> B;
  mo_all q n : heap_live w q n -> F q n \/ q ∈ fst <$> B;
}.

Lemma owned_perm F w B B' : mem_ok F w B -> B ≡ₚ B' -> mem_ok F w B'.
Proof. intros [H1 H2 H3 H4 H5] Hp. constructor; try done; try setoid_rewrite <- Hp; try done. Qed.

#[export] Instance mem_ok_proper F w : Proper ((≡ₚ) ==> iff) (mem_ok F w).
Proof. intros B B' Hp. split; intros; eapply owned_perm; done. Qed.

Lemma owned_alloc F w B n p w' :
  mem_ok F w B -> 0 <= n -> hp_kalloc n w = (p, w') -> mem_ok F w' (if p =? 0 then B else (p, n) :: B).
Proof.
  intros [H1 H2 H3 H4 H5] Hn Ha. destruct (Z.eqb_spec p 0) as [->|Hp].
  - destruct (kalloc_fail _ _ _ H1 Hn Ha) as [Hok Hl]. constructor; try done; try setoid_rewrite Hl; try done.
  - destruct (kalloc_fresh _ _ _ _ H1 Hn Ha Hp) as (Hok & m & Hm & Hfresh & Hl).
    constructor; try done; try setoid_rewrite Hl; cbn.
    + apply NoDup_cons. split; [|done]. intros ([? k] & -> & Hin)%list_elem_of_fmap. destruct (H3 _ _ Hin) as (? & _ & ?). by eapply Hfresh.
    + intros q k [[= -> ->]|Hin]%elem_of_cons; [exists m; split; [done | by left]|]. destruct (H3 _ _ Hin) as (j & ? & ?). exists j. auto.
    + intros q k HF. destruct (H4 _ _ HF) as [Hq Hn']. split; [by right|]. intros [->|]%elem_of_cons; [by eapply Hfresh | done].
    + intros q k [[-> ->]|Hq]; [right; by constructor|]. destruct (H5 _ _ Hq); [by left | right; by constructor].
Qed.

Lemma owned_free F w B p k : mem_ok F w ((p, k) :: B) -> mem_ok F (hp_kfree p w) B.
Proof.
  intros [H1 H2 H3 H4 H5]. apply NoDup_cons in H2 as [Hp H2]. destruct (H3 p k) as (n & _ & Hl); [by constructor|].
  destruct (kfree_live _ _ _ H1 Hl) as [Hok Hiff]. constructor; try done; try setoid_rewrite Hiff.
  - intros q j Hin. destruct (H3 q j) as (m & ? & ?); [by constructor|]. exists m. split_and!; try done. intros ->.
    apply Hp. apply list_elem_of_fmap. by exists (p, j).
  - intros q j HF. destruct (H4 _ _ HF) as [Hq Hn]. cbn in Hn. rewrite not_elem_of_cons in Hn. tauto.
  - intros q j [Hq Hne]. destruct (H5 _ _ Hq) as [|Hin]; [by left|]. right. by apply elem_of_cons in Hin as [|].
Qed.

Lemma owned_send F w B dst proto pkt : mem_ok F w B -> mem_ok F (ip_send_packet dst proto pkt w).2 B.
Proof.
  intros [H1 H2 H3 H4 H5]. destruct (ip_send_heap w dst proto pkt H1) as [Hok Hl]. constructor; try done; try setoid_rewrite Hl; try done.
Qed.

(** ** What a connection owns *)

Definition entry_blocks (e : rtx_t) : list (Z * Z) :=
  (e_self e, rtx_size) :: (if e_data e =? 0 then [] else [(e_data e, zlen (e_bytes e))]).
Definition queue_blocks (q : list rtx_t) : list (Z * Z) := concat (entry_blocks <$> q).
Definition ptr_block (p n : Z) : list (Z * Z) := if p =? 0 then [] else [(p, n)].
Definition conn_blocks (c : tcp_connection_t) : list (Z * Z) :=
  (self c, conn_size) :: ptr_block (send_buffer c) TCP_DEFAULT_BUFFER_SIZE ++ ptr_block (recv_buffer (rx c)) (recv_buffer_size (rx c)) ++
  queue_blocks (retransmit_queue (tx c)).

(** An action that keeps the ownership as it is. *)
Definition tidy {A} (m : act A) : Prop := forall F R c g,
  mem_ok F (g_world g) (conn_blocks c ++ R) -> mem_ok F (g_world (m (c, g)).2.2) (conn_blocks (m (c, g)).2.1 ++ R).

Lemma tidy_ret {A} (a : A) : tidy (mret a).
Proof. by intros F R c g Hok. Qed.
Lemma tidy_bind {A B} (m : act A) (k : A -> act B) : tidy m -> (forall a, tidy (k a)) -> tidy (m ≫= k).
Proof.
  intros Hm Hk F R c g Hok. unfold mbind, act_bind. specialize (Hm F R c g Hok). destruct (m (c, g)) as [a [c' g']]. by apply Hk.
Qed.
Lemma tidy_upd u : (forall c, conn_blocks (u c) = conn_blocks c) -> tidy (upd u).
Proof. intros Hu F R c g Hok. unfold upd. cbn [fst snd]. by rewrite Hu. Qed.
Lemma tidy_conn_is : tidy conn_is.
Proof. by intros F R c g Hok. Qed.
Lemma tidy_now : tidy tcp_now_ms.
Proof. by intros F R c g Hok. Qed.
Lemma tidy_when b (m : act unit) : tidy m -> tidy (when b m).
Proof. intros Hm. destruct b; [done | by intros F R c g Hok]. Qed.
Lemma tidy_send dst proto pkt : tidy (world (ip_send_packet dst proto pkt)).
Proof.
  intros F R c g Hok. unfold world. pose proof (owned_send _ _ _ dst proto pkt Hok) as Hs. by destruct (ip_send_packet dst proto pkt (g_world g)).
Qed.
Lemma tidy_isn : tidy (on_glob tcp_new_isn).
Proof. intros F R c g Hok. unfold on_glob, tcp_new_isn. by destruct (_ =? 0). Qed.

(** An action that takes over the blocks [E] as well. *)
Definition takes {A} (E : list (Z * Z)) (m : act A) : Prop := forall F R c g,
  mem_ok F (g_world g) (E ++ conn_blocks c ++ R) -> mem_ok F (g_world (m (c, g)).2.2) (conn_blocks (m (c, g)).2.1 ++ R).

Lemma takes_tidy {A} (m : act A) : takes [] m -> tidy m.
Proof. done. Qed.
Lemma tidy_takes {A} (m : act A) : tidy m -> takes [] m.
Proof. done. Qed.
Lemma takes_after {A B} E (m : act A) (k : A -> act B) : tidy m -> (forall a, takes E (k a)) -> takes E (m ≫= k).
Proof.
  intros Hm Hk F R c g Hok. unfold mbind, act_bind. specialize (Hm F (E ++ R) c g). destruct (m (c, g)) as [a [c' g']].
  apply Hk. eapply owned_perm; [apply Hm; eapply owned_perm; [exact Hok|] |]; cbn; solve_Permutation.
Qed.
Lemma takes_before {A B} E (m : act A) (k : A -> act B) : takes E m -> (forall a, tidy (k a)) -> takes E (m ≫= k).
Proof.
  intros Hm Hk F R c g Hok. unfold mbind, act_bind. specialize (Hm F R c g Hok). destruct (m (c, g)) as [a [c' g']]. by apply Hk.
Qed.
Lemma takes_alloc {B} E n (k : Z -> act B) :
  0 <= n -> takes E (k 0) -> (forall p, p <> 0 -> takes ((p, n) :: E) (k p)) -> takes E (kalloc_t n ≫= k).
Proof.
  intros Hn H0 Hp F R c g Hok. unfold mbind, act_bind, kalloc_t, world.
  destruct (hp_kalloc n (g_world g)) as [p w'] eqn:Ha. pose proof (owned_alloc _ _ _ _ _ _ Hok Hn Ha) as Hm.
  destruct (Z.eqb_spec p 0) as [->|Hne]; [by apply H0 | by apply Hp].
Qed.
Lemma takes_free p n : takes [(p, n)] (kfree_t p).
Proof. intros F R c g Hok. unfold kfree_t, world. cbn [fst snd g_world set_world]. by eapply owned_free. Qed.
End mem.

(** Walk through an action; what is left are the updates. *)
Ltac tidy :=
  repeat lazymatch goal with
  | |- forall _, _ => intro
  | |- tidy (mret _) => apply tidy_ret
  | |- tidy (_ ≫= _) => apply tidy_bind
  | |- tidy conn_is => apply tidy_conn_is
  | |- tidy tcp_now_ms => apply tidy_now
  | |- tidy (world (ip_send_packet _ _ _)) => apply tidy_send
  | |- tidy (on_glob tcp_new_isn) => apply tidy_isn
  | |- tidy (when _ _) => apply tidy_when
  | |- tidy (if ?b then _ else _) => destruct b
  | |- tidy (match ?x with _ => _ end) => destruct x
  | |- tidy (upd _) => first [solve [eauto 2 with tcpmem] | apply tidy_upd]
  | |- tidy _ => solve [eauto 2 with tcpmem]
  | |- _ = _ => reflexivity
  end.

Create HintDb tcpmem.

Section ops.
Context {W : Type} `{!KHeap W} `{!KHeapLaws W} `{!NetDown W} `{!NetDownLaws W}.
Abbreviation act := (act (W := W)).
Abbreviation tidy := (tidy (W := W)).

Lemma tidy_send_options flags data options : tidy (tcp_send_packet_with_options flags data options).
Proof.
  unfold tcp_send_packet_with_options. apply takes_tidy. apply takes_after; [apply tidy_conn_is|]. intros c.
  apply takes_alloc; [apply u32_bound | apply tidy_takes, tidy_ret |]. intros p Hp. rewrite (proj2 (Z.eqb_neq _ _) Hp).
  destruct (window_field c flags) as [wfield bytes].
  apply takes_after; [tidy|]. intros _. apply takes_after; [tidy|]. intros result.
  apply takes_before; [apply takes_free|]. intros _. tidy.
Qed.
#[local] Hint Resolve tidy_send_options : tcpmem.
Lemma tidy_send_packet flags data : tidy (tcp_send_packet flags data).
Proof. apply tidy_send_options. Qed.
#[local] Hint Resolve tidy_send_packet : tcpmem.
Lemma tidy_resend seq flags data options : tidy (resend seq flags data options).
Proof. unfold resend. tidy. Qed.
Lemma tidy_ack_now : tidy ack_now.
Proof. unfold ack_now. tidy. Qed.
#[local] Hint Resolve tidy_resend tidy_ack_now : tcpmem.

Lemma queue_blocks_app q1 q2 : queue_blocks (q1 ++ q2) = queue_blocks q1 ++ queue_blocks q2.
Proof. unfold queue_blocks. by rewrite fmap_app, concat_app. Qed.
Lemma queue_blocks_one e : queue_blocks [e] = entry_blocks e.
Proof. apply app_nil_r. Qed.
Lemma conn_blocks_queue c q : conn_blocks (on_tx (set_retransmit_queue q) c) ≡ₚ queue_blocks q ++ conn_blocks (on_tx (set_retransmit_queue []) c).
Proof. unfold conn_blocks. cbn. solve_Permutation. Qed.
Lemma conn_blocks_split c : conn_blocks c ≡ₚ queue_blocks (retransmit_queue (tx c)) ++ conn_blocks (on_tx (set_retransmit_queue []) c).
Proof. rewrite <- conn_blocks_queue. destruct c as [? ? ? ? ? ? ? [] ? ? ? ? ? ? ? ?]. done. Qed.

Lemma tidy_enqueue seq flags data : tidy (tcp_retransmit_enqueue seq flags data).
Proof.
  unfold tcp_retransmit_enqueue. apply takes_tidy. apply takes_alloc; [by unfold rtx_size | apply tidy_takes, tidy_ret |]. intros entry He.
  rewrite (proj2 (Z.eqb_neq _ _) He). apply takes_after; [tidy|]. intros now. apply takes_after; [tidy|]. intros c.
  assert (forall copy, takes (W := W) (ptr_block copy (zlen data) ++ [(entry, rtx_size)])
    (upd (on_tx (fun t => set_retransmit_queue (retransmit_queue t ++ [mk_rtx entry seq (seq +32 consumed flags (zlen data)) copy
       (if copy =? 0 then [] else data) flags now (rto_ms (tx c)) 0]) t)))) as Hlast.
  { intros copy F R d g Hok. unfold upd. cbn [fst snd]. eapply owned_perm; [exact Hok|].
    transitivity (conn_blocks (on_tx (set_retransmit_queue (retransmit_queue (tx d) ++ [mk_rtx entry seq (seq +32 consumed flags (zlen data)) copy
       (if copy =? 0 then [] else data) flags now (rto_ms (tx c)) 0])) d) ++ R); [|done].
    rewrite conn_blocks_queue, conn_blocks_split, queue_blocks_app, queue_blocks_one. unfold ptr_block, entry_blocks. cbn [e_self e_data e_bytes].
    destruct (copy =? 0); cbn [app]; solve_Permutation. }
  destruct (0 <? zlen data).
  - apply takes_alloc; [apply zlen_nonneg | exact (Hlast 0)|]. intros copy Hc. specialize (Hlast copy). unfold ptr_block in Hlast.
    by rewrite (proj2 (Z.eqb_neq _ _) Hc) in Hlast |- *.
  - exact (Hlast 0).
Qed.
#[local] Hint Resolve tidy_enqueue : tcpmem.

(** Freeing entries that are not in the connection's queue any more. *)
Lemma free_entry_mem F B e c (g : glob (W := W)) :
  mem_ok F (g_world g) (entry_blocks e ++ B) ->
  exists g', free_entry e (c, g) = (tt, (c, g')) /\ mem_ok F (g_world g') B.
Proof.
  intros Hok. unfold free_entry, entry_blocks in *. unfold mbind, act_bind, when, kfree_t, world, mret, act_ret.
  destruct (Z.eqb_spec (e_data e) 0); cbn [negb] in *; eexists; (split; [done|]); cbn [g_world set_world].
  - by eapply owned_free.
  - eapply owned_free, owned_free, owned_perm; [exact Hok | solve_Permutation].
Qed.
Lemma free_entries_mem F B q c (g : glob (W := W)) :
  mem_ok F (g_world g) (queue_blocks q ++ B) ->
  exists g', free_entries q (c, g) = (tt, (c, g')) /\ mem_ok F (g_world g') B.
Proof.
  revert g. induction q as [|e q IH]; intros g Hok; [by exists g|].
  change (queue_blocks (e :: q)) with (entry_blocks e ++ queue_blocks q) in Hok. rewrite <- app_assoc in Hok.
  destruct (free_entry_mem F _ e c g Hok) as (g1 & E1 & Hok1). destruct (IH g1 Hok1) as (g2 & E2 & Hok2).
  exists g2. split; [|done]. cbn [free_entries]. unfold mbind, act_bind. by rewrite E1.
Qed.

Lemma tidy_flush : tidy tcp_retransmit_flush.
Proof.
  intros F R c g Hok. unfold tcp_retransmit_flush, mbind, act_bind, conn_is. cbn [fst].
  rewrite conn_blocks_split, <- app_assoc in Hok. destruct (free_entries_mem F _ _ c g Hok) as (g' & -> & Hok'). exact Hok'.
Qed.

Lemma drop_acked_mem F R ack q c (g : glob (W := W)) :
  mem_ok F (g_world g) (queue_blocks q ++ conn_blocks (on_tx (set_retransmit_queue []) c) ++ R) ->
  mem_ok F (g_world (drop_acked ack q (c, g)).2.2) (conn_blocks (drop_acked ack q (c, g)).2.1 ++ R).
Proof.
  revert g. induction q as [|e q IH]; intros g Hok; [exact Hok|].
  cbn [drop_acked]. destruct (0 <=? _).
  - change (queue_blocks (e :: q)) with (entry_blocks e ++ queue_blocks q) in Hok. rewrite <- app_assoc in Hok.
    destruct (free_entry_mem F _ e c g Hok) as (g1 & E1 & Hok1). specialize (IH g1 Hok1).
    unfold mbind, act_bind. rewrite E1. destruct (drop_acked ack q (c, g1)) as [b [c2 g2]]. exact IH.
  - unfold mbind, act_bind, upd, mret, act_ret. cbn [fst snd]. eapply owned_perm; [exact Hok|].
    rewrite app_assoc. by rewrite <- conn_blocks_queue.
Qed.
#[local] Hint Resolve tidy_flush : tcpmem.

(** ** Updates of the queue

    Triples about the queue as well as the blocks. *)
Definition queue_of (c : tcp_connection_t) : list rtx_t := retransmit_queue (tx c).
Definition tri {A} (P : tcp_connection_t -> Prop) (m : act A) (Q : A -> tcp_connection_t -> Prop) : Prop := forall F R c g,
  P c -> mem_ok F (g_world g) (conn_blocks c ++ R) ->
  Q (m (c, g)).1 (m (c, g)).2.1 /\ mem_ok F (g_world (m (c, g)).2.2) (conn_blocks (m (c, g)).2.1 ++ R).

Lemma tri_bind {A B} P (m : act A) (k : A -> act B) Q S : tri P m Q -> (forall a, tri (Q a) (k a) S) -> tri P (m ≫= k) S.
Proof.
  intros Hm Hk F R c g HP Hok. unfold mbind, act_bind. destruct (Hm F R c g HP Hok) as [HQ Hok'].
  destruct (m (c, g)) as [a [c' g']]. by apply Hk.
Qed.
Lemma tri_tidy {A} P (m : act A) : tidy m -> tri P m (fun _ _ => True).
Proof. intros Hm F R c g _ Hok. by split; [|apply Hm]. Qed.
Lemma tidy_tri {A} (m : act A) Q : tri (fun _ => True) m Q -> tidy m.
Proof. intros Hm F R c g Hok. by apply Hm. Qed.
Lemma tri_keeps {A X} (f : tcp_connection_t -> X) (v : X) (m : act A) :
  tidy m -> keeps f m -> tri (fun c => f c = v) m (fun _ c => f c = v).
Proof. intros Hm Hk F R c g HP Hok. split; [|by apply Hm]. by rewrite (Hk (c, g)). Qed.
Lemma tri_conn_is {B} P (k : tcp_connection_t -> act B) Q :
  (forall c, P c -> tri (fun d => queue_of d = queue_of c) (k c) Q) -> tri P (conn_is ≫= k) Q.
Proof. intros Hk F R c g HP Hok. by apply (Hk c HP F R c g). Qed.
(** Putting back entries with the same blocks. *)
Lemma tri_put_queue q q' : queue_blocks q' = queue_blocks q ->
  tri (fun c => queue_of c = q) (upd (on_tx (set_retransmit_queue q'))) (fun _ c => queue_of c = q').
Proof.
  intros Hq F R c g Hc Hok. unfold upd. cbn [fst snd]. split; [done|]. rewrite conn_blocks_split in Hok.
  rewrite conn_blocks_queue, Hq, <- Hc. exact Hok.
Qed.

Lemma queue_keeps_send flags data options : keeps (W := W) queue_of (tcp_send_packet_with_options flags data options).
Proof. unfold tcp_send_packet_with_options. keep. Qed.
#[local] Hint Resolve queue_keeps_send : tcp.
Lemma queue_keeps_resend seq flags data options : keeps (W := W) queue_of (resend seq flags data options).
Proof. unfold resend. keep. Qed.
#[local] Hint Resolve queue_keeps_resend : tcp.
Lemma queue_keeps_rtx_resend now e : keeps (W := W) queue_of (rtx_resend now e).
Proof. unfold rtx_resend. keep. Qed.

Lemma tidy_fast_retransmit mss : tidy (fast_retransmit mss).
Proof.
  unfold fast_retransmit. apply tidy_bind; [tidy|]. intros _.
  apply (tidy_tri _ (fun _ _ => True)). apply tri_conn_is. intros c _. unfold queue_of at 1.
  destruct (retransmit_queue (tx c)) as [|first rest] eqn:Eq; [by intros F R d g|].
  assert (queue_of c = first :: rest) as Eq' by done. rewrite Eq'.
  eapply tri_bind; [apply tri_keeps; [tidy | apply queue_keeps_resend]|]. intros [].
  eapply tri_bind; [apply tri_keeps; [tidy | keep]|]. intros now.
  eapply tri_bind; [apply tri_keeps; [tidy | keep]|]. intros [].
  intros F R d g Hd Hok. split; [done|]. by eapply (tri_put_queue (first :: rest)).
Qed.
#[local] Hint Resolve tidy_fast_retransmit : tcpmem.

Lemma tidy_retransmit_ack ack pure : tidy (tcp_retransmit_ack ack pure).
Proof.
  unfold tcp_retransmit_ack. apply (tidy_tri _ (fun _ _ => True)), tri_conn_is. intros c _.
  destruct (_ && _ && _); [apply tri_tidy; tidy|].
  eapply tri_bind with (Q := fun _ _ => True).
  - intros F R d g Hd Hok. split; [done|]. rewrite conn_blocks_split, <- app_assoc in Hok.
    change (retransmit_queue (tx d)) with (queue_of d) in Hok. rewrite Hd in Hok. by apply drop_acked_mem.
  - intros b. apply tri_tidy. apply tidy_bind; [tidy|]. intros _. apply tidy_when, tidy_upd. intros d.
    unfold grow_cwnd, on_tx. by repeat case_if.
Qed.
#[local] Hint Resolve tidy_retransmit_ack : tcpmem.

Lemma queue_blocks_set q1 e e' q2 :
  e_self e' = e_self e -> e_data e' = e_data e -> e_bytes e' = e_bytes e -> queue_blocks (q1 ++ e' :: q2) = queue_blocks (q1 ++ e :: q2).
Proof.
  intros E1 E2 E3. rewrite !queue_blocks_app. f_equal. unfold queue_blocks. cbn. unfold entry_blocks. by rewrite E1, E2, E3.
Qed.

(** The entry that [rtx_resend] puts back. *)
Lemma rtx_resend_entry now e s :
  let e' := (rtx_resend (W := W) now e s).1 in e_self e' = e_self e /\ e_data e' = e_data e /\ e_bytes e' = e_bytes e.
Proof.
  unfold rtx_resend, mbind, act_bind. destruct (upd _ s) as [[] s1]. destruct (conn_is s1) as [c s2].
  destruct (resend _ _ _ _ s2) as [[] s3]. by destruct (upd _ s3) as [[] s4].
Qed.
Lemma tidy_rtx_resend now e : tidy (rtx_resend now e).
Proof. unfold rtx_resend. tidy. Qed.

Lemma tidy_rtx_scan now before todo q :
  queue_blocks (before ++ todo) = queue_blocks q ->
  tri (fun c => queue_of c = q) (rtx_scan now before todo) (fun _ _ => True).
Proof.
  revert before. induction todo as [|e todo IH]; intros before Hq; cbn [rtx_scan].
  { rewrite app_nil_r in Hq. intros F R c g Hc Hok. split; [done|]. by eapply (tri_put_queue q before). }
  assert (queue_blocks ((before ++ [e]) ++ todo) = queue_blocks q) as Hq' by (by rewrite <- app_assoc).
  destruct (_ <=? _); [|by apply IH]. destruct (_ <=? _).
  - eapply tri_bind; [apply tri_keeps; [tidy | keep]|]. intros [].
    eapply tri_bind; [by apply (tri_put_queue q)|]. intros []. apply tri_tidy. tidy.
  - eapply tri_bind with (Q := fun e' c => queue_of c = q /\ queue_blocks ((before ++ [e']) ++ todo) = queue_blocks q).
    + intros F R c g Hc Hok. split; [|by apply tidy_rtx_resend]. split; [by rewrite (queue_keeps_rtx_resend now e (c, g))|].
      rewrite <- app_assoc. cbn [app]. destruct (rtx_resend_entry now e (c, g)) as (E1 & E2 & E3). by rewrite (queue_blocks_set before e).
    + intros e' F R c g [Hc He] Hok. by apply (IH (before ++ [e']) He F R c g).
Qed.

Lemma tidy_retransmit_conn now : tidy (retransmit_conn now).
Proof.
  unfold retransmit_conn. apply (tidy_tri _ (fun _ _ => True)), tri_conn_is. intros c _.
  eapply tri_bind; [apply tri_keeps; [tidy | keep]|]. intros []. by apply tidy_rtx_scan.
Qed.

(** ** The receive ring keeps its buffer *)

Definition ring_of (r : rcv_t) : Z * Z := (recv_buffer r, recv_buffer_size r).
Lemma ring_handle_data data r : ring_of (tcp_handle_data data r).2 = ring_of r.
Proof. unfold tcp_handle_data. by repeat case_if. Qed.
Lemma ring_store off data r : ring_of (tcp_ooo_store off data r) = ring_of r.
Proof. unfold tcp_ooo_store. by repeat case_if. Qed.
Lemma ring_merge r : ring_of (tcp_ooo_merge r).2 = ring_of r.
Proof.
  unfold tcp_ooo_merge. generalize (ooo r), (@nil (Z * Z)), 0. intros held. revert r.
  induction held as [|[x y] held IH]; intros r kept gained; [done|]. cbn -[s32 u32]. repeat case_if; by rewrite IH.
Qed.
Lemma ring_read n r : ring_of (tcp_ring_read_locked n r).2 = ring_of r.
Proof. unfold tcp_ring_read_locked. by repeat case_if. Qed.

Lemma tri_conn_eq {B} P (k : tcp_connection_t -> act B) Q :
  (forall c, P c -> tri (fun d => d = c) (k c) Q) -> tri P (conn_is ≫= k) Q.
Proof. intros Hk F R c g HP Hok. by apply (Hk c HP F R c g). Qed.
Lemma tri_set_rx r c : ring_of r = ring_of (rx c) -> tri (fun d => d = c) (upd (set_rx r)) (fun _ _ => True).
Proof.
  intros [= E1 E2] F R d g -> Hok. split; [done|]. unfold upd, conn_blocks in *. cbn in *. rewrite E1, E2. exact Hok.
Qed.
Lemma tidy_on_rx f : (forall r, ring_of (f r) = ring_of r) -> tidy (upd (on_rx f)).
Proof. intros Hf. apply tidy_upd. intros c. unfold conn_blocks. cbn. specialize (Hf (rx c)). injection Hf as E1 E2. by rewrite E1, E2. Qed.

Lemma tidy_stat_rx n : tidy (tcp_stat_rx n).
Proof. unfold tcp_stat_rx. tidy. Qed.
Lemma tidy_send_segments fuel mss len sent data : tidy (send_segments fuel mss len sent data).
Proof. revert sent. induction fuel; intros; cbn; tidy. Qed.
#[local] Hint Resolve tidy_stat_rx tidy_send_segments : tcpmem.
Lemma tidy_tcp_send data : tidy (tcp_send data).
Proof. unfold tcp_send. tidy. Qed.
Lemma tidy_window_update : tidy tcp_rx_window_update.
Proof. unfold tcp_rx_window_update. tidy. Qed.
Lemma tidy_send_fin : tidy send_fin.
Proof. unfold send_fin. tidy. Qed.
#[local] Hint Resolve tidy_window_update tidy_send_fin : tcpmem.

Lemma tidy_conn_read n : tidy (conn_read n).
Proof.
  unfold conn_read. apply (tidy_tri _ (fun _ _ => True)), tri_conn_eq. intros c _. pose proof (ring_read n (rx c)) as Hr.
  destruct (tcp_ring_read_locked n (rx c)) as [out r]. eapply tri_bind; [by apply tri_set_rx|]. intros []. apply tri_tidy. tidy.
Qed.

Lemma tidy_handle_syn h : tidy (tcp_handle_syn h).
Proof. unfold tcp_handle_syn. tidy. Qed.
Lemma tidy_initial_window : tidy (upd (on_tx initial_window)).
Proof. apply tidy_upd. intros. unfold initial_window, on_tx. by repeat case_if. Qed.
#[local] Hint Resolve tidy_handle_syn tidy_initial_window : tcpmem.
Lemma tidy_syn_sent h : tidy (syn_sent h).
Proof. unfold syn_sent. tidy. Qed.
Lemma tidy_syn_received h : tidy (syn_received h).
Proof. unfold syn_received. tidy. Qed.
Lemma tidy_established_fin h seq len : tidy (established_fin h seq len).
Proof. unfold established_fin. tidy. Qed.
#[local] Hint Resolve tidy_syn_sent tidy_syn_received tidy_established_fin : tcpmem.
Lemma tidy_take_data seq payload : tidy (take_data seq payload).
Proof.
  unfold take_data. apply (tidy_tri _ (fun _ _ => True)), tri_conn_eq. intros c _. pose proof (ring_handle_data payload (rx c)) as H1.
  destruct (tcp_handle_data payload (rx c)) as [taken r1]. set (r2 := set_ack_num _ r1).
  assert (ring_of (if ooo_n r2 =? 0 then (0, r2) else tcp_ooo_merge r2).2 = ring_of (rx c)) as H2.
  { rewrite <- H1. case_if; [done|]. rewrite ring_merge. done. }
  destruct (if ooo_n r2 =? 0 then (0, r2) else tcp_ooo_merge r2) as [merged r3].
  eapply tri_bind; [by apply tri_set_rx|]. intros []. apply tri_tidy. tidy.
Qed.
#[local] Hint Resolve tidy_take_data : tcpmem.
Lemma tidy_established h : tidy (established h).
Proof.
  unfold established. apply tidy_bind; [tidy|]. intros c. destruct (_ =? 0); [tidy|]. destruct (trim _ h) as [seq payload].
  destruct (negb _).
  - apply tidy_bind; [|tidy]. apply tidy_when. apply tidy_bind; [tidy|]. intros _. apply tidy_when, tidy_on_rx. intros. apply ring_store.
  - tidy.
Qed.
Lemma tidy_fin_wait_1_fin h d : tidy (fin_wait_1_fin h d).
Proof. unfold fin_wait_1_fin. tidy. Qed.
#[local] Hint Resolve tidy_established tidy_fin_wait_1_fin : tcpmem.
Lemma tidy_fin_wait_1 h : tidy (fin_wait_1 h).
Proof.
  unfold fin_wait_1. apply (tidy_tri _ (fun _ _ => True)), tri_conn_eq. intros c _. destruct (_ && _).
  - pose proof (ring_handle_data (h_payload h) (rx c)) as H1. destruct (tcp_handle_data (h_payload h) (rx c)) as [taken r].
    eapply tri_bind; [by apply tri_set_rx|]. intros []. apply tri_tidy. tidy.
  - apply tri_tidy. tidy.
Qed.
Lemma tidy_last_ack h : tidy (last_ack h).
Proof. unfold last_ack. tidy. Qed.
Lemma tidy_handle_rst : tidy handle_rst.
Proof. unfold handle_rst. tidy. Qed.
#[local] Hint Resolve tidy_fin_wait_1 tidy_last_ack tidy_handle_rst : tcpmem.

Lemma parse_options_queue fuel opts i t : retransmit_queue (parse_options fuel opts i t) = retransmit_queue t.
Proof. revert i t. induction fuel as [|fuel IH]; intros i t; [done|]. cbn -[u32]. repeat case_if; rewrite ?IH; done. Qed.

Lemma tidy_tcp_input h : tidy (tcp_input h).
Proof.
  unfold tcp_input. destruct (has _ _); [tidy|]. do 3 (apply tidy_bind; [tidy|]; intros ?). apply tidy_bind; [tidy|]. intros _.
  apply tidy_bind.
  - apply tidy_when, tidy_upd. intros d. unfold conn_blocks, on_tx, tcp_parse_options. cbn. by rewrite parse_options_queue.
  - tidy.
Qed.

Lemma tidy_connect_conn cb isn : tidy (connect_conn cb isn).
Proof. unfold connect_conn. tidy. Qed.

(** Destroying a connection gives back all it owns. *)
Lemma release_mem F R c (g : glob (W := W)) :
  mem_ok F (g_world g) (conn_blocks c ++ R) -> mem_ok F (g_world (release (c, g)).2.2) R.
Proof.
  intros Hok. unfold release, tcp_retransmit_flush, mbind, act_bind, conn_is. cbn [fst].
  rewrite conn_blocks_split, <- app_assoc in Hok. destruct (free_entries_mem F _ _ c g Hok) as (g' & -> & Hok').
  unfold conn_blocks, ptr_block in Hok'. cbn in Hok'. unfold upd, when, kfree_t, world, mret, act_ret. cbn [fst snd].
  destruct (send_buffer c =? 0), (recv_buffer (rx c) =? 0); cbn [negb g_world set_world app] in *; rewrite ?app_nil_r in *; repeat eapply owned_free;
    (eapply owned_perm; [exact Hok' | solve_Permutation]).
Qed.
End ops.
