(* ===== verification/TcpSend.v ===== *)
(** * TCP: what the sender puts on the wire

    Every segment a connection sends, new or repeated, carries the bytes the
    application wrote at the position its sequence number stands for. *)
From stdpp Require Import sorting.
From S2P Require Import Prelude Heap TcpRecv TcpRanges TcpWindow TcpConn TcpSeg Tcp TcpFrame TcpWire TcpMem.

(** The datagrams handed to the layer below: destination, protocol, bytes. *)
Abbreviation datagram := (list Z * Z * list Z)%type.
Class NetTrace (W : Type) := sent : W -> list datagram.
Class NetTraceLaws (W : Type) `{!KHeap W} `{!NetDown W} `{!NetTrace W} := {
  sent_send (w : W) dst proto pkt :
    sent (ip_send_packet dst proto pkt w).2 = sent w ++ [(dst, proto, pkt)] \/ sent (ip_send_packet dst proto pkt w).2 = sent w;
  sent_alloc (w : W) n : sent (hp_kalloc n w).2 = sent w;
  sent_free (w : W) p : sent (hp_kfree p w) = sent w;
}.

(** The largest segment that fits an IPv4 datagram without options. *)
Definition max_payload : Z := 65495.

Definition quad (c : tcp_connection_t) : list Z * list Z * Z * Z := (local_ip c, remote_ip c, local_port c, remote_port c).
Definition data_state (st : tcp_state_t) : bool := bool_decide (st = TCP_STATE_ESTABLISHED) || bool_decide (st = TCP_STATE_CLOSE_WAIT).
Definition open_state (st : tcp_state_t) : bool :=
  match st with TCP_STATE_LISTEN | TCP_STATE_SYN_SENT | TCP_STATE_SYN_RECEIVED => false | _ => true end.

Section sender.
Context {W : Type} `{!KHeap W} `{!NetDown W} `{!NetTrace W} `{!NetTraceLaws W}.
Abbreviation act := (act (W := W)).
(** What the application writes, the sequence number of its first byte, and the
    addresses and ports. *)
Context (msg : list Z) (iss : Z) (Q : list Z * list Z * Z * Z).
Abbreviation str := (zget msg).

(** [n] bytes from [p] on, of the first [m] bytes. *)
Definition piece (m p n : Z) : Prop := 0 <= n <= max_payload /\ 0 <= p /\ (n = 0 \/ p + n <= m).

(** A segment of the connection that carries such a piece. *)
Definition posted (m : Z) (pk : datagram) : Prop := exists c flags w options p n,
  wire_conn c /\ quad c = Q /\ is_u8 flags /\ 0 <= w < 2 ^ 16 /\ bytes_ok options /\ zlen options <= 40 /\
  header_size_of options + n <= 65515 /\ piece m p n /\ p <= m + 1 /\ seq_num (tx c) = seq_of iss p /\
  pk = (remote_ip c, 6, tcp_packet c flags w options (slice str p n)).

Definition entry_ok (m : Z) (e : rtx_t) : Prop := exists p n,
  piece m p n /\ p <= m /\ seq_start e = seq_of iss p /\ e_bytes e = slice str p n /\ is_u8 (e_flags e) /\
  (has (e_flags e) TCP_FLAG_SYN = true -> n = 0).

(** [n] bytes were accepted from the application, [m] at most were offered. *)
Record base (m n : Z) (c : tcp_connection_t) : Prop := {
  ba_wire : wire_conn c;
  ba_quad : quad c = Q;
  ba_n : 0 <= n <= m;
  ba_pos : exists p, n <= p <= n + 1 /\ seq_num (tx c) = seq_of iss p;
  ba_open : open_state (state c) = true;
  ba_queue : Forall (entry_ok m) (retransmit_queue (tx c));
  ba_mss : 0 <= remote_mss (tx c) <= max_payload;
  ba_wnd : 0 <= snd_wnd (tx c) < 2 ^ 31;
  ba_scale : 0 <= snd_wscale (tx c) <= 14;
}.
Definition sender (m n : Z) (c : tcp_connection_t) : Prop :=
  base m n c /\ (data_state (state c) = true -> seq_num (tx c) = seq_of iss n).

(** ** Triples *)

Definition emits {A} (m : Z) (P : tcp_connection_t -> Prop) (a : act A) (R : A -> tcp_connection_t -> Prop) : Prop :=
  forall c g, P c -> R (a (c, g)).1 (a (c, g)).2.1 /\
    exists new, sent (g_world (a (c, g)).2.2) = sent (g_world g) ++ new /\ Forall (posted m) new.

Lemma emits_bind {A B} m P (a : act A) (k : A -> act B) R S : emits m P a R -> (forall x, emits m (R x) (k x) S) -> emits m P (a ≫= k) S.
Proof.
  intros Ha Hk c g Hc. destruct (Ha c g Hc) as (Hr & l1 & E1 & F1). unfold mbind, act_bind. destruct (a (c, g)) as [x [c1 g1]]. cbn in *.
  destruct (Hk x c1 g1 Hr) as (Hs & l2 & E2 & F2). split; [done|]. exists (l1 ++ l2). rewrite E2, E1, app_assoc. split; [done|]. by apply Forall_app_2.
Qed.
Lemma emits_quiet {A} m P (a : act A) R :
  (forall c g, P c -> R (a (c, g)).1 (a (c, g)).2.1 /\ sent (g_world (a (c, g)).2.2) = sent (g_world g)) -> emits m P a R.
Proof. intros Ha c g Hc. destruct (Ha c g Hc) as [Hr E]. split; [done|]. exists []. by rewrite app_nil_r. Qed.
Lemma emits_ret {A} m (P : tcp_connection_t -> Prop) (x : A) (R : A -> tcp_connection_t -> Prop) : (forall c, P c -> R x c) -> emits m P (mret x) R.
Proof. intros H. apply emits_quiet. intros c g Hc. split; [by apply H | done]. Qed.
Lemma emits_upd m (P : tcp_connection_t -> Prop) u (R : unit -> tcp_connection_t -> Prop) : (forall c, P c -> R tt (u c)) -> emits m P (upd u) R.
Proof. intros H. apply emits_quiet. intros c g Hc. split; [by apply H | done]. Qed.
Lemma emits_conn_is {B} m P (k : tcp_connection_t -> act B) R :
  (forall c, P c -> emits m (fun d => d = c) (k c) R) -> emits m P (conn_is ≫= k) R.
Proof. intros Hk c g Hc. by apply (Hk c Hc c g). Qed.
Lemma emits_now {B} m P (k : Z -> act B) R : (forall now, emits m P (k now) R) -> emits m P (tcp_now_ms ≫= k) R.
Proof. intros Hk c g Hc. by apply Hk. Qed.
Lemma emits_pre {A} m (P P' : tcp_connection_t -> Prop) (a : act A) R : (forall c, P c -> P' c) -> emits m P' a R -> emits m P a R.
Proof. intros Hp Ha c g Hc. by apply Ha, Hp. Qed.
Lemma emits_post {A} m P (a : act A) (R R' : A -> tcp_connection_t -> Prop) : (forall x c, R' x c -> R x c) -> emits m P a R' -> emits m P a R.
Proof. intros Hr Ha c g Hc. destruct (Ha c g Hc) as [H1 H2]. split; [by apply Hr | done]. Qed.
Lemma emits_when m P b (a : act unit) : emits m P a (fun _ => P) -> emits m P (when b a) (fun _ => P).
Proof. intros Ha. destruct b; [done | by apply emits_ret]. Qed.
Lemma emits_alloc {B} m P n (k : Z -> act B) R : (forall p, emits m P (k p) R) -> emits m P (kalloc_t n ≫= k) R.
Proof.
  intros Hk c g Hc. unfold mbind, act_bind, kalloc_t, world. pose proof (sent_alloc (g_world g) n) as E.
  destruct (hp_kalloc n (g_world g)) as [p w]. cbn in E. destruct (Hk p c (set_world w g) Hc) as (Hr & new & E' & Hf).
  split; [done|]. exists new. split; [|done]. etrans; [exact E'|]. cbn. by rewrite E.
Qed.
Lemma emits_free m P p : emits m P (kfree_t p) (fun _ => P).
Proof. apply emits_quiet. intros c g Hc. split; [done|]. apply sent_free. Qed.
Lemma emits_keep {A X} m (f : tcp_connection_t -> X) (v : X) P (a : act A) R :
  emits m P a R -> keeps f a -> emits m (fun c => P c /\ f c = v) a (fun x c => R x c /\ f c = v).
Proof. intros Ha Hk c g [Hc <-]. destruct (Ha c g Hc) as [H1 H2]. split; [|done]. split; [done|]. apply (Hk (c, g)). Qed.

(** ** One segment *)

Lemma window_field_u16 c flags : 0 <= (window_field c flags).1 < 2 ^ 16.
Proof.
  unfold window_field. assert (0 <= recv_buffer_size (rx c) -32 recv_buffer_used (rx c)) as Ha by apply u32_bound.
  set (a := recv_buffer_size (rx c) -32 recv_buffer_used (rx c)) in *. clearbody a. destruct (has flags TCP_FLAG_SYN); cbv zeta; cbn [fst].
  - case_if; bool_hyps; lia.
  - assert (0 <= Z.shiftr a (if ws_ok (adv c) then rcv_wscale (adv c) else 0)) by (by apply Z.shiftr_nonneg). repeat case_if; bool_hyps; lia.
Qed.

(** The connection after a segment was sent: the advertised window and, if it
    went out, the sequence number. *)
Definition after_send (a : adv_t) (seq : Z) (c : tcp_connection_t) : tcp_connection_t := set_adv a (on_tx (set_seq_num seq) c).
Lemma after_send_id c : after_send (adv c) (seq_num (tx c)) c = c.
Proof. by destruct c as [? ? ? ? ? ? ? [] ? ? ? ? ? ? ? ?]. Qed.

Lemma send_step m p k flags options c g :
  wire_conn c -> quad c = Q -> seq_num (tx c) = seq_of iss p -> piece m p k -> p <= m + 1 -> is_u8 flags ->
  bytes_ok options -> zlen options <= 40 -> header_size_of options + k <= 65515 ->
  let r := tcp_send_packet_with_options flags (slice str p k) options (c, g) in
  exists a, r.2.1 = after_send a (if r.1 =? 0 then seq_num (tx c) +32 seq_advance flags k else seq_num (tx c)) c /\
    exists new, sent (g_world r.2.2) = sent (g_world g) ++ new /\ Forall (posted m) new.
Proof.
  intros Hw Hq Hs Hp Hpm Hf Ho Hol Hsz. assert (zlen (slice str p k) = k) as Hz by (apply zlen_slice, Hp).
  unfold tcp_send_packet_with_options, mbind, act_bind, conn_is, kalloc_t, kfree_t, world. cbn [fst]. rewrite Hz.
  pose proof (sent_alloc (g_world g) (u32 (header_size_of options + k))) as Ea.
  destruct (hp_kalloc _ (g_world g)) as [packet w] eqn:Eal. cbn [snd] in Ea.
  destruct (packet =? 0).
  - exists (adv c). cbn. rewrite after_send_id. split; [done|]. exists []. rewrite app_nil_r. cbn. by rewrite Ea.
  - pose proof (window_field_u16 c flags) as Hwf. destruct (window_field c flags) as [wfield bytes]. cbn [fst] in Hwf. unfold upd. cbn [g_world set_world].
    assert (ztake (u16 (header_size_of options + k)) (tcp_packet c flags wfield options (slice str p k)) = tcp_packet c flags wfield options (slice str p k)) as ->.
    { destruct (padding_bounds options) as [Hpad _]. pose proof (zlen_nonneg options).
      assert (0 <= header_size_of options + k <= 65515) by (split; [unfold header_size_of, tcp_header_size; destruct Hp as [? _]; lia | done]).
      unfold u16. rewrite Z.mod_small by lia.
      apply ztake_all, Z.eq_le_incl. rewrite <- Hz at 2. exact (packet_with_len c flags wfield options (slice str p k) _). }
    set (pk := tcp_packet c flags wfield options (slice str p k)).
    assert (posted m (remote_ip c, 6, pk)) as Hpk by (exists c, flags, wfield, options, p, k; repeat (split; [assumption|]); reflexivity).
    pose proof (sent_send w (remote_ip c) 6 pk) as Es. destruct (ip_send_packet (remote_ip c) 6 pk w) as [rc w']. cbn [snd] in Es. cbn [g_world set_world].
    destruct (rc =? 0) eqn:Erc; cbn; rewrite ?Erc; eexists (set_last_wnd_adv bytes (adv c)); (split; [by destruct c as [? ? ? ? ? ? ? [] ? ? ? ? ? ? ? ?]|]);
      rewrite sent_free; (destruct Es as [->| ->]; rewrite Ea; [eexists; split; [done | by constructor] | exists []; by rewrite app_nil_r]).
Qed.

Lemma slice_none p : slice str p 0 = [].
Proof. done. Qed.

Lemma seq_of_u32 p : is_u32 (seq_of iss p).
Proof. apply u32_bound. Qed.

Lemma base_after m n a seq c : base m n c -> (exists p, n <= p <= n + 1 /\ seq = seq_of iss p) -> base m n (after_send a seq c).
Proof.
  intros [[H1 H2 H3 H4 H5] Hq Hn _ Ho Hf Hm Hw Hs] (p & Hp & ->). constructor; try done; [|by exists p].
  constructor; try done. apply seq_of_u32.
Qed.
Lemma sender_after m n a c : sender m n c -> sender m n (after_send a (seq_num (tx c)) c).
Proof. intros [Hb Hd]. split; [|exact Hd]. apply base_after; [done|]. apply Hb. Qed.

Lemma piece_none m p : 0 <= p -> piece m p 0.
Proof. unfold piece, max_payload. lia. Qed.

(** An acknowledgement. *)
Lemma emits_ack m n : emits m (sender m n) (tcp_send_packet TCP_FLAG_ACK []) (fun _ => sender m n).
Proof.
  intros c g Hc. pose proof Hc as [Hb _]. destruct (ba_pos _ _ _ Hb) as (p & Hp & Hs). pose proof (ba_n _ _ _ Hb) as Hn.
  destruct (send_step m p 0 TCP_FLAG_ACK [] c g) as (a & E & Hnew); try done; try apply Hb; try lia.
  { apply piece_none. lia. } { constructor. }
  rewrite slice_none in E, Hnew. split; [|exact Hnew]. unfold tcp_send_packet. rewrite E.
  assert ((if (tcp_send_packet_with_options TCP_FLAG_ACK [] [] (c, g)).1 =? 0 then seq_num (tx c) +32 seq_advance TCP_FLAG_ACK 0 else seq_num (tx c)) = seq_num (tx c)) as ->.
  { case_if; [|done]. unfold seq_advance. cbn -[u32]. rewrite Z.add_0_r. apply u32_small, Hb. }
  by apply sender_after.
Qed.

(** A segment at its own sequence number. *)
Lemma emits_resend m n p k flags options :
  piece m p k -> p <= m -> is_u8 flags -> bytes_ok options -> zlen options <= 40 -> header_size_of options + k <= 65515 ->
  emits m (sender m n) (resend (seq_of iss p) flags (slice str p k) options) (fun _ => sender m n).
Proof.
  intros Hp Hpm Hf Ho Hol Hsz c g Hc. pose proof Hc as [Hb _]. set (c1 := on_tx (set_seq_num (seq_of iss p)) c).
  assert (wire_conn c1) as Hw1. { destruct (ba_wire _ _ _ Hb) as [H1 H2 H3 H4 H5]. constructor; try done. apply seq_of_u32. }
  destruct (send_step m p k flags options c1 g Hw1 (ba_quad _ _ _ Hb) eq_refl Hp ltac:(lia) Hf Ho Hol Hsz) as (a & E & Hnew).
  unfold resend, mbind, act_bind, conn_is, upd. cbn [fst]. fold c1.
  destruct (tcp_send_packet_with_options flags (slice str p k) options (c1, g)) as [rc [c2 g2]]. cbn [fst snd] in *. split; [|exact Hnew].
  rewrite E. exact (sender_after m n a c Hc).
Qed.

Lemma syn_options_ok c b : bytes_ok (tcp_syn_options c b) /\ zlen (tcp_syn_options c b) <= 8 /\ header_size_of (tcp_syn_options c b) <= 28.
Proof.
  unfold tcp_syn_options. set (mss := if _ =? 0 then _ else _). split; [|by case_if].
  case_if; repeat (apply Forall_cons_2 || apply Forall_app_2); try apply Forall_nil_2; try apply u8_bound; by unfold is_u8, TCP_RCV_WSCALE.
Qed.

Lemma emits_resend_entry m n e options :
  entry_ok m e -> bytes_ok options -> zlen options <= 40 -> header_size_of options <= 28 -> (header_size_of options = 20 \/ has (e_flags e) TCP_FLAG_SYN = true) ->
  emits m (sender m n) (resend (seq_start e) (e_flags e) (e_bytes e) options) (fun _ => sender m n).
Proof.
  intros (p & k & Hp & Hpm & -> & -> & Hf & Hk) Ho Hol Hsz Hor. apply emits_resend; try done.
  destruct Hp as [[? ?] _]. unfold max_payload in *. destruct Hor as [->|Hsyn]; [lia|]. rewrite (Hk Hsyn). lia.
Qed.

(** ** Updates *)

Lemma sender_tx m n t c :
  sender m n c -> seq_num t = seq_num (tx c) -> Forall (entry_ok m) (retransmit_queue t) -> 0 <= remote_mss t <= max_payload ->
  0 <= snd_wnd t < 2 ^ 31 -> 0 <= snd_wscale t <= 14 -> sender m n (set_tx t c).
Proof.
  intros [[[H1 H2 H3 H4 H5] Hq Hn Hp Ho Hf Hm Hw Hs] Hd] E1 E2 E3 E4 E5. split; [|cbn; by rewrite E1].
  constructor; cbn; try done; [|by rewrite E1]. constructor; cbn; try done. by rewrite E1.
Qed.
Lemma sender_view m n c d :
  sender m n c -> tx d = tx c -> quad d = quad c -> is_u32 (ack_num (rx d)) -> open_state (state d) = true ->
  (data_state (state d) = true -> data_state (state c) = true) -> sender m n d.
Proof.
  intros [[[H1 H2 H3 H4 H5] Hq Hn Hp Ho Hf Hm Hw Hs] Hd] Et Eq Ha Eo Ed. split; [|rewrite Et; intros H; by apply Hd, Ed].
  constructor; rewrite ?Et; try done; [|by rewrite Eq]. unfold quad in Eq. injection Eq as E1 E2 E3 E4.
  constructor; rewrite ?E1, ?E2, ?E3, ?E4, ?Et; done.
Qed.
Lemma sender_ack m n c : sender m n c -> is_u32 (ack_num (rx c)).
Proof. intros [Hb _]. apply Hb. Qed.
Lemma sender_queue m n c : sender m n c -> Forall (entry_ok m) (retransmit_queue (tx c)).
Proof. intros [Hb _]. apply Hb. Qed.
Lemma sender_n m n c : sender m n c -> 0 <= n <= m.
Proof. intros [Hb _]. apply Hb. Qed.

(** Parts that do not matter to the sender. *)
Lemma emits_stat m n f : emits m (sender m n) (upd (on_stat f)) (fun _ => sender m n).
Proof. apply emits_upd. intros c Hc. eapply sender_view; try done; [exact (sender_ack _ _ _ Hc) | apply Hc]. Qed.
Lemma emits_adv m n f : emits m (sender m n) (upd (on_adv f)) (fun _ => sender m n).
Proof. apply emits_upd. intros c Hc. eapply sender_view; try done; [exact (sender_ack _ _ _ Hc) | apply Hc]. Qed.
Lemma emits_rx m n f :
  (forall r, is_u32 (ack_num r) -> is_u32 (ack_num (f r))) -> emits m (sender m n) (upd (on_rx f)) (fun _ => sender m n).
Proof. intros Hf. apply emits_upd. intros c Hc. eapply sender_view; try done; [apply Hf; exact (sender_ack _ _ _ Hc) | apply Hc]. Qed.
Lemma emits_state m n st : open_state st = true -> data_state st = false -> emits m (sender m n) (upd (set_state st)) (fun _ => sender m n).
Proof.
  intros Ho Hd. apply emits_upd. intros c Hc. eapply sender_view; try done; [exact (sender_ack _ _ _ Hc)|]. cbn. by rewrite Hd.
Qed.
(** Congestion control. *)
Lemma emits_tx m n u :
  (forall t, seq_num (u t) = seq_num t /\ retransmit_queue (u t) = retransmit_queue t /\ remote_mss (u t) = remote_mss t /\
     snd_wnd (u t) = snd_wnd t /\ snd_wscale (u t) = snd_wscale t) ->
  emits m (sender m n) (upd (on_tx u)) (fun _ => sender m n).
Proof.
  intros Hu. apply emits_upd. intros c Hc. destruct (Hu (tx c)) as (E1 & E2 & E3 & E4 & E5). pose proof Hc as [Hb _].
  apply sender_tx; rewrite ?E1, ?E2, ?E3, ?E4, ?E5; try done; apply Hb.
Qed.
Lemma emits_queue m n q : Forall (entry_ok m) q -> emits m (sender m n) (upd (on_tx (set_retransmit_queue q))) (fun _ => sender m n).
Proof. intros Hq. apply emits_upd. intros c Hc. pose proof Hc as [Hb _]. by apply sender_tx; try apply Hb. Qed.

(** ** The retransmission queue *)

Lemma emits_enqueue m n p k flags :
  piece m p k -> p <= m -> is_u8 flags -> (has flags TCP_FLAG_SYN = true -> k = 0) ->
  emits m (sender m n) (tcp_retransmit_enqueue (seq_of iss p) flags (slice str p k)) (fun _ => sender m n).
Proof.
  intros Hp Hpm Hf Hsyn. unfold tcp_retransmit_enqueue. apply emits_alloc. intros entry. destruct (entry =? 0); [by apply emits_ret|].
  apply emits_now. intros now. apply emits_conn_is. intros c Hc. eapply (emits_pre _ _ (sender m n)); [by intros d ->|].
  assert (forall copy, emits m (sender m n) (upd (on_tx (fun t => set_retransmit_queue (retransmit_queue t ++
    [mk_rtx entry (seq_of iss p) (seq_of iss p +32 consumed flags (zlen (slice str p k))) copy (if copy =? 0 then [] else slice str p k) flags now (rto_ms (tx c)) 0]) t))) (fun _ => sender m n)) as Hput.
  { intros copy. apply emits_upd. intros d Hd. pose proof Hd as [Hb _]. apply sender_tx; try done; try apply Hb. cbn.
    apply Forall_app_2; [by apply (sender_queue m n)|]. apply Forall_cons_2; [|apply Forall_nil_2].
    destruct (copy =? 0); [exists p, 0; split; [apply piece_none, Hp|] | exists p, k; split; [done|]]; by repeat (split; [done|]). }
  cbv zeta. case_if; [apply emits_alloc; intros copy; apply Hput | apply (emits_bind _ _ _ _ (fun _ => sender m n)); [by apply emits_ret | intros; apply Hput]].
Qed.

Lemma emits_free_entry m P e : emits m P (free_entry e) (fun _ => P).
Proof. unfold free_entry. eapply emits_bind; [apply emits_when, emits_free | intros; apply emits_free]. Qed.
Lemma emits_free_entries m P q : emits m P (free_entries q) (fun _ => P).
Proof. induction q as [|e q IH]; cbn; [by apply emits_ret|]. eapply emits_bind; [apply emits_free_entry | intros; apply IH]. Qed.
Lemma emits_flush m n : emits m (sender m n) tcp_retransmit_flush (fun _ => sender m n).
Proof.
  unfold tcp_retransmit_flush. apply emits_conn_is. intros c Hc. eapply emits_bind; [apply emits_free_entries|]. intros [].
  eapply emits_pre; [|apply emits_queue, Forall_nil_2]. by intros d ->.
Qed.
Lemma emits_drop_acked m n ack q : Forall (entry_ok m) q -> emits m (sender m n) (drop_acked ack q) (fun _ => sender m n).
Proof.
  induction 1 as [|e q He Hq IH]; cbn [drop_acked].
  - eapply emits_bind; [apply emits_queue, Forall_nil_2 | intros; by apply emits_ret].
  - case_if.
    + eapply emits_bind; [apply emits_free_entry|]. intros []. eapply emits_bind; [apply IH|]. intros b. by apply emits_ret.
    + eapply emits_bind; [apply emits_queue; by constructor | intros; by apply emits_ret].
Qed.

Lemma entry_ok_same m e e' : seq_start e' = seq_start e -> e_bytes e' = e_bytes e -> e_flags e' = e_flags e -> entry_ok m e -> entry_ok m e'.
Proof. intros E1 E2 E3 (p & k & H). exists p, k. by rewrite E1, E2, E3. Qed.

Lemma emits_fast_retransmit m n mss : emits m (sender m n) (fast_retransmit mss) (fun _ => sender m n).
Proof.
  unfold fast_retransmit. eapply emits_bind; [by apply emits_tx|]. intros []. apply emits_conn_is. intros c Hc.
  pose proof (sender_queue _ _ _ Hc) as Hq. eapply (emits_pre _ _ (sender m n)); [by intros d ->|].
  destruct (retransmit_queue (tx c)) as [|e rest]; [by apply emits_ret|]. apply Forall_cons in Hq as [He Hr].
  eapply emits_bind; [apply emits_resend_entry; [done | constructor | done | done | by left]|]. intros []. apply emits_now. intros now.
  eapply emits_bind; [apply emits_stat|]. intros []. apply emits_queue. constructor; [by apply (entry_ok_same m e) | done].
Qed.

Lemma emits_retransmit_ack m n ack pure : emits m (sender m n) (tcp_retransmit_ack ack pure) (fun _ => sender m n).
Proof.
  unfold tcp_retransmit_ack. apply emits_conn_is. intros c Hc. eapply (emits_pre _ _ (sender m n)); [by intros d ->|]. cbv zeta.
  case_if; [case_if; [by apply emits_ret|]|].
  - eapply emits_bind; [by apply emits_tx|]. intros []. case_if; [apply emits_fast_retransmit|]. case_if; [by apply emits_tx | by apply emits_ret].
  - eapply emits_bind; [by apply emits_drop_acked, (sender_queue m n)|]. intros b. eapply emits_bind; [by apply emits_tx|]. intros [].
    apply emits_when, emits_tx. intros t. unfold grow_cwnd. by repeat case_if.
Qed.

Lemma emits_rtx_resend m n now e : entry_ok m e ->
  emits m (sender m n) (rtx_resend now e) (fun e' c => sender m n c /\ entry_ok m e').
Proof.
  intros He. unfold rtx_resend. eapply emits_bind; [by apply emits_tx|]. intros []. apply emits_conn_is. intros c Hc.
  eapply (emits_pre _ _ (sender m n)); [by intros d ->|]. cbv zeta.
  apply emits_bind with (R := fun _ => sender m n);
    [|intros []; eapply emits_bind; [apply emits_stat|]; intros []; apply emits_ret; intros d Hd; split; [exact Hd|]; by apply (entry_ok_same m e)].
  destruct (has (e_flags e) TCP_FLAG_SYN) eqn:Esyn; apply emits_resend_entry; try done; try apply syn_options_ok; try (by constructor); try (by left).
  pose proof (syn_options_ok c (has (e_flags e) TCP_FLAG_ACK)). lia.
Qed.

Lemma emits_rtx_scan m n now before todo : Forall (entry_ok m) before -> Forall (entry_ok m) todo ->
  emits m (sender m n) (rtx_scan now before todo) (fun _ => sender m n).
Proof.
  intros Hb Ht. revert before Hb. induction Ht as [|e todo He Ht IH]; intros before Hb; cbn [rtx_scan]; [by apply emits_queue|].
  assert (forall e', entry_ok m e' -> Forall (entry_ok m) (before ++ [e'])) as Happ by (intros; apply Forall_app_2; [done | by constructor]).
  case_if; [case_if|].
  - eapply emits_bind; [by apply emits_state|]. intros []. apply emits_bind with (R := fun _ => sender m n); [|intros []; apply emits_flush].
    apply emits_queue, Forall_app_2; [done | by constructor].
  - eapply emits_bind; [by apply emits_rtx_resend|]. intros e' c g [Hc He']. by apply IH; [apply Happ|].
  - by apply IH, Happ.
Qed.
Lemma emits_retransmit_conn m n now : emits m (sender m n) (retransmit_conn now) (fun _ => sender m n).
Proof.
  unfold retransmit_conn. apply emits_conn_is. intros c Hc. eapply (emits_pre _ _ (sender m n)); [by intros d ->|].
  eapply emits_bind; [apply emits_when, emits_stat|]. intros []. apply emits_rtx_scan; [constructor | by eapply sender_queue].
Qed.

(** ** New data *)

Definition sending (m n : Z) (c : tcp_connection_t) : Prop := sender m n c /\ data_state (state c) = true.

Lemma emits_data m n k flags :
  0 < k <= max_payload -> n + k <= m -> is_u8 flags -> has flags TCP_FLAG_SYN = false ->
  emits m (sending m n) (tcp_send_packet flags (slice str n k)) (fun rc => sending m (if rc =? 0 then n + k else n)).
Proof.
  intros Hk Hn Hf Hsyn c g [Hc Hd]. pose proof Hc as [Hb Hs]. specialize (Hs Hd). pose proof (ba_n _ _ _ Hb) as Hn0.
  destruct (send_step m n k flags [] c g) as (a & E & Hnew); try done; try apply Hb; try lia.
  { unfold piece. lia. } { constructor. } { change (header_size_of []) with 20. unfold max_payload in Hk. lia. }
  unfold tcp_send_packet. split; [|exact Hnew]. rewrite E. destruct (_ =? 0).
  - split; [|exact Hd]. assert (seq_num (tx c) +32 seq_advance flags k = seq_of iss (n + k)) as ->.
    { unfold seq_advance. rewrite (proj2 (Z.ltb_lt 0 k)), Hsyn by lia. cbn [andb]. rewrite Hs. apply seq_of_add. }
    split; [|done]. destruct Hb as [[H1 H2 H3 H4 H5] Hq _ _ Ho Hfq Hm Hw Hsc].
    constructor; try done; [|lia|exists (n + k); split; [lia | done]]. constructor; try done. apply seq_of_u32.
  - split; [by apply sender_after | exact Hd].
Qed.

Lemma emits_send_segments m n0 mss len data :
  data = slice str n0 (zlen data) -> len <= zlen data -> n0 + zlen data <= m -> 1 <= mss <= max_payload -> len < 2 ^ 31 ->
  forall fuel sent, 0 <= sent <= len -> len - sent <= Z.of_nat fuel ->
  emits m (sending m (n0 + sent)) (send_segments fuel mss len sent data) (fun r => sender m (n0 + Z.max 0 r)).
Proof.
  intros Hdata Hlen Hm Hmss Hl fuel. induction fuel as [|fuel IH]; intros sent Hs Hf; cbn [send_segments].
  { apply emits_ret. intros c [Hc _]. rewrite s32_small, Z.max_r by lia. done. }
  case_if; bool_hyps; [apply emits_ret; intros c [Hc _]; rewrite s32_small, Z.max_r by lia; done|].
  rewrite (u32_small (len - sent)) by lia. set (chunk := if mss <? len - sent then mss else len - sent).
  assert (0 < chunk <= max_payload /\ chunk <= len - sent) as Hc by (unfold chunk; case_if; bool_hyps; lia).
  rewrite (u32_small (sent + chunk)) by lia. set (flags := if _ <=? _ then _ else _).
  assert (is_u8 flags /\ has flags TCP_FLAG_SYN = false) as [Hf8 Hsyn] by (unfold flags; by case_if).
  assert (ztake chunk (zdrop sent data) = slice str (n0 + sent) chunk) as ->.
  { rewrite Hdata, zdrop_slice, ztake_slice by lia. done. }
  apply emits_conn_is. intros c [Hsnd Hd]. pose proof Hsnd as [Hb Hseq]. pose proof (ba_n _ _ _ Hb) as Hn0. rewrite (Hseq Hd).
  eapply (emits_pre _ _ (fun d => sender m (n0 + sent) d /\ state d = state c)); [by intros d ->|].
  eapply emits_bind; [apply (emits_keep m state (state c)); [|apply keeps_enqueue, _]; apply emits_enqueue; try done; [unfold piece; lia | lia | by rewrite Hsyn]|].
  intros []. eapply (emits_pre _ _ (sending m (n0 + sent))); [by intros d [Hx E]; split; [|rewrite E]|].
  eapply emits_bind; [apply emits_data; [lia | lia | done | done]|]. intros rc. cbn beta. destruct (rc =? 0); cbn [negb].
  - rewrite <- Z.add_assoc. apply IH; lia.
  - apply emits_ret. intros d [Hx _]. case_if; bool_hyps.
    + rewrite s32_small, Z.max_r by lia. done.
    + assert (sent = 0) as -> by lia. by rewrite Z.add_0_r in *.
Qed.

Lemma emits_tcp_send m n data : data = slice str n (zlen data) -> n + zlen data <= m ->
  emits m (sender m n) (tcp_send data) (fun r => sender m (n + Z.max 0 r)).
Proof.
  intros Hdata Hm. unfold tcp_send. apply emits_conn_is. intros c Hc.
  fold (data_state (state c)). destruct (data_state (state c)) eqn:Hd; cbn [negb].
  2:{ apply emits_ret. intros d ->. by rewrite Z.add_0_r. }
  cbv zeta. destruct (send_limit (tx c) =? 0) eqn:El; [apply emits_ret; intros d ->; by rewrite Z.add_0_r|]. bool_hyps.
  pose proof Hc as [Hb _]. pose proof (ba_wnd _ _ _ Hb) as Hw. pose proof (ba_mss _ _ _ Hb) as Hmss. pose proof (zlen_nonneg data).
  assert (0 < send_limit (tx c) < 2 ^ 31) as Hlim.
  { unfold send_limit in *. pose proof (u32_bound (seq_num (tx c) - snd_una (tx c))). revert El.
    set (w := if snd_wnd (tx c) <? cwnd (tx c) then _ else _). assert (w <= snd_wnd (tx c)) by (unfold w; case_if; bool_hyps; lia).
    case_if; [|done]. bool_hyps. rewrite u32_small by lia. lia. }
  set (len := if send_limit (tx c) <? zlen data then _ else _).
  assert (0 <= len <= zlen data /\ len < 2 ^ 31) as Hlen by (unfold len; case_if; bool_hyps; lia).
  eapply (emits_pre _ _ (sending m (n + 0))); [intros d ->; rewrite Z.add_0_r; by split|].
  apply emits_send_segments; try done; try lia. unfold peer_mss, TCP_DEFAULT_MSS, max_payload in *. case_if; bool_hyps; lia.
Qed.

(** ** FIN *)

Lemma base_sender m n c : base m n c -> data_state (state c) = false -> sender m n c.
Proof. intros Hb Hd. split; [done|]. by rewrite Hd. Qed.

Lemma emits_fin m n :
  emits m (fun c => base m n c /\ seq_num (tx c) = seq_of iss n) (tcp_send_packet (Z.lor TCP_FLAG_FIN TCP_FLAG_ACK) []) (fun _ => base m n).
Proof.
  intros c g [Hb Hs]. pose proof (ba_n _ _ _ Hb) as Hn.
  destruct (send_step m n 0 (Z.lor TCP_FLAG_FIN TCP_FLAG_ACK) [] c g) as (a & E & Hnew); try done; try apply Hb; try lia.
  { apply piece_none. lia. } { constructor. }
  rewrite slice_none in E, Hnew. split; [|exact Hnew]. unfold tcp_send_packet. rewrite E. apply base_after; [done|]. destruct (_ =? 0).
  - exists (n + 1). split; [lia|]. rewrite Hs. apply seq_of_add.
  - exists n. split; [lia | done].
Qed.

Lemma emits_send_fin m n st : open_state st = true -> data_state st = false ->
  emits m (sending m n) (_ ← upd (set_state st); send_fin) (fun _ => sender m n).
Proof.
  intros Ho Hd. apply emits_bind with (R := fun _ c => sender m n c /\ (seq_num (tx c), state c) = (seq_of iss n, st)).
  { apply emits_upd. intros c [Hc Hdc]. pose proof Hc as [Hb Hs]. rewrite <- (Hs Hdc). split; [|done].
    eapply sender_view; try done. exact (sender_ack _ _ _ Hc). }
  intros []. unfold send_fin. apply emits_conn_is. intros c [Hc [= Hs Hst]]. rewrite Hs. pose proof (sender_n _ _ _ Hc) as Hn.
  eapply emits_bind with (R := fun _ d => sender m n d /\ (seq_num (tx d), state d) = (seq_of iss n, st)).
  { eapply (emits_pre _ _ (fun d => sender m n d /\ (seq_num (tx d), state d) = (seq_of iss n, st))); [intros d ->; split; [done|]; by rewrite Hs, Hst|].
    apply (emits_keep m (fun c => (seq_num (tx c), state c))).
    - rewrite <- (slice_none n). apply emits_enqueue; try done; [apply piece_none; lia | lia].
    - unfold tcp_retransmit_enqueue. keep. }
  intros []. apply emits_bind with (R := fun _ d => base m n d /\ state d = st); [|intros rc; apply emits_ret; intros d [Hd' E]; apply base_sender; [done | by rewrite E]].
  eapply emits_pre; [|apply (emits_keep m state st); [apply emits_fin | apply keeps_send, _]].
  intros d [[Hd' _] [= E1 E2]]. done.
Qed.

(** ** Receiving *)

Lemma handle_data_ack data r : ack_num (tcp_handle_data data r).2 = ack_num r.
Proof. unfold tcp_handle_data. by repeat case_if. Qed.
Lemma ooo_store_ack off data r : ack_num (tcp_ooo_store off data r) = ack_num r.
Proof. unfold tcp_ooo_store. by repeat case_if. Qed.
Lemma ooo_absorb_ack held kept g r : is_u32 (ack_num r) -> is_u32 (ack_num (ooo_absorb held kept g r).2).
Proof.
  revert kept g r. induction held as [|[s e] held IH]; intros kept g r Hr; [done|]. cbn [ooo_absorb].
  case_if; [by apply IH|]. case_if; [|by apply IH]. apply IH. apply u32_bound.
Qed.
Lemma ring_read_ack_num len r : ack_num (tcp_ring_read_locked len r).2 = ack_num r.
Proof. unfold tcp_ring_read_locked. by repeat case_if. Qed.

Lemma emits_set_rx m n r : is_u32 (ack_num r) -> emits m (sender m n) (upd (set_rx r)) (fun _ => sender m n).
Proof. intros Hr. apply emits_upd. intros c Hc. eapply sender_view; try done. apply Hc. Qed.
Lemma emits_ack_now m n : emits m (sender m n) ack_now (fun _ => sender m n).
Proof. unfold ack_now. eapply emits_bind; [apply emits_ack | intros; by apply emits_ret]. Qed.
Lemma emits_stat_rx m n k : emits m (sender m n) (tcp_stat_rx k) (fun _ => sender m n).
Proof. unfold tcp_stat_rx. case_if; [by apply emits_ret|]. apply emits_now. intros. apply emits_stat. Qed.
Lemma emits_window_update m n : emits m (sender m n) tcp_rx_window_update (fun _ => sender m n).
Proof.
  unfold tcp_rx_window_update. apply emits_conn_is. intros c Hc. eapply (emits_pre _ _ (sender m n)); [by intros d ->|]. cbv zeta.
  destruct (_ && _); [apply emits_ack_now | by apply emits_ret].
Qed.
Lemma emits_conn_read m n len : emits m (sender m n) (conn_read len) (fun _ => sender m n).
Proof.
  unfold conn_read. apply emits_conn_is. intros c Hc. eapply (emits_pre _ _ (sender m n)); [by intros d ->|].
  pose proof (ring_read_ack_num len (rx c)) as Ea. destruct (tcp_ring_read_locked len (rx c)) as [out r]. cbn in Ea.
  eapply emits_bind; [apply emits_set_rx; rewrite Ea; by eapply sender_ack|]. intros [].
  eapply emits_bind; [apply emits_when, emits_window_update|]. intros []. by apply emits_ret.
Qed.

Lemma emits_established_fin m n h seq len :
  emits m (sending m n) (established_fin h seq len) (fun _ => sender m n).
Proof.
  unfold established_fin. apply emits_conn_is. intros c [Hc Hd]. eapply (emits_pre _ _ (fun d => sender m n d /\ state d = state c)); [by intros d ->|].
  case_if; [|eapply (emits_pre _ _ (sender m n)); [by intros d [? _]|]; apply emits_when, emits_ack_now].
  cbv zeta. case_if; [eapply (emits_pre _ _ (sender m n)); [by intros d [? _]|]; apply emits_ack_now|].
  eapply emits_bind; [apply (emits_keep m state (state c)); [apply emits_rx; intros; apply u32_bound | apply keeps_upd; done]|]. intros [].
  eapply emits_bind; [apply (emits_keep m state (state c)); [apply emits_ack_now | apply keeps_ack_now, _]|]. intros [].
  apply emits_bind with (R := fun _ => sending m n).
  { apply emits_upd. intros d [Hx E]. split; [|done]. eapply sender_view; try done; [exact (sender_ack _ _ _ Hx)|]. cbn. by rewrite E. }
  intros []. unfold when. case_if; [|apply emits_ret; by intros d [? _]].
  eapply (emits_pre _ _ (fun d => base m n d /\ seq_num (tx d) = seq_of iss n)); [intros d [[Hb Hs] Hx]; split; [done | by apply Hs]|].
  eapply emits_bind; [apply emits_fin|]. intros rc. apply emits_upd. intros d Hb. apply base_sender; [|done].
  destruct Hb as [[H1 H2 H3 H4 H5] Hq Hn Hp Ho Hf Hm Hw Hsc]. by constructor.
Qed.

Lemma emits_take_data m n seq payload : emits m (sender m n) (take_data seq payload) (fun _ => sender m n).
Proof.
  unfold take_data. apply emits_conn_is. intros c Hc. eapply (emits_pre _ _ (sender m n)); [by intros d ->|].
  destruct (tcp_handle_data payload (rx c)) as [taken r]. cbv zeta.
  assert (is_u32 (ack_num (if ooo_n (set_ack_num (seq +32 taken) r) =? 0 then (0, set_ack_num (seq +32 taken) r) else tcp_ooo_merge (set_ack_num (seq +32 taken) r)).2)) as Ha.
  { case_if; [apply u32_bound|]. apply ooo_absorb_ack, u32_bound. }
  destruct (if ooo_n _ =? 0 then _ else _) as [merged r']. cbn [snd] in Ha. eapply emits_bind; [by apply emits_set_rx|]. intros [].
  eapply emits_bind; [apply emits_stat_rx|]. intros []. by apply emits_ret.
Qed.

Definition in_state (m n : Z) (st : tcp_state_t) (c : tcp_connection_t) : Prop := sender m n c /\ state c = st.

Lemma emits_established m n h : emits m (in_state m n TCP_STATE_ESTABLISHED) (established h) (fun _ => sender m n).
Proof.
  assert (forall seq len, emits m (in_state m n TCP_STATE_ESTABLISHED) (established_fin h seq len) (fun _ => sender m n)) as Hfin.
  { intros. eapply emits_pre; [|apply emits_established_fin]. intros c [Hc E]. split; [done | by rewrite E]. }
  assert (emits m (in_state m n TCP_STATE_ESTABLISHED) ack_now (fun _ => sender m n)) as Hack.
  { eapply emits_pre; [|apply emits_ack_now]. by intros c [? _]. }
  unfold established. apply emits_conn_is. intros c Hc. eapply (emits_pre _ _ (in_state m n TCP_STATE_ESTABLISHED)); [by intros d ->|].
  destruct (zlen (h_payload h) =? 0); [eapply emits_bind; [apply Hfin | intros; by apply emits_ret]|].
  destruct (trim (ack_num (rx c)) h) as [seq payload]. cbv zeta. destruct (negb _).
  - eapply (emits_pre _ _ (sender m n)); [by intros d [? _]|].
    eapply emits_bind with (R := fun _ => sender m n); [|intros []; eapply emits_bind; [apply emits_ack_now | intros; by apply emits_ret]].
    apply emits_when. eapply emits_bind; [apply emits_stat|]. intros []. apply emits_when, emits_rx. intros r Hr. by rewrite ooo_store_ack.
  - eapply emits_bind; [apply (emits_keep m state TCP_STATE_ESTABLISHED); [apply emits_take_data | unfold take_data; keep]|].
    intros [taken merged]. apply emits_bind with (R := fun _ => sender m n); [|intros; by apply emits_ret].
    destruct (_ <? _); [apply Hack|]. destruct (negb _); [apply Hack | apply Hfin].
Qed.

Lemma emits_fin_wait_1_fin m n h d : emits m (sender m n) (fin_wait_1_fin h d) (fun _ => sender m n).
Proof.
  unfold fin_wait_1_fin. apply emits_conn_is. intros c Hc. eapply (emits_pre _ _ (sender m n)); [by intros x ->|].
  assert (forall v, emits m (sender m n) (upd (on_rx (set_ack_num (u32 v)))) (fun _ => sender m n)) as Hrx by (intros; apply emits_rx; intros; apply u32_bound).
  destruct (_ =? _); [|destruct (has _ _); [|by apply emits_ret]].
  - eapply emits_bind; [apply Hrx|]. intros []. eapply emits_bind; [apply emits_ack_now|]. intros [].
    eapply emits_bind; [by apply emits_state|]. intros []. eapply emits_bind; [apply emits_flush|]. intros []. by apply emits_ret.
  - eapply emits_bind; [apply Hrx|]. intros []. eapply emits_bind; [apply emits_ack_now|]. intros [].
    eapply emits_bind; [by apply emits_state|]. intros []. by apply emits_ret.
Qed.
Lemma emits_fin_wait_1 m n h : emits m (sender m n) (fin_wait_1 h) (fun _ => sender m n).
Proof.
  unfold fin_wait_1. apply emits_conn_is. intros c Hc. eapply (emits_pre _ _ (sender m n)); [by intros x ->|].
  pose proof (handle_data_ack (h_payload h) (rx c)) as Ea. destruct (_ && _).
  - destruct (tcp_handle_data (h_payload h) (rx c)) as [taken r]. cbn in Ea.
    eapply emits_bind; [apply emits_set_rx; rewrite Ea; by eapply sender_ack|]. intros [].
    eapply emits_bind; [apply emits_stat_rx|]. intros []. cbv zeta.
    eapply emits_bind; [apply emits_rx; intros; apply u32_bound|]. intros [].
    destruct (_ || _); [|apply emits_fin_wait_1_fin]. eapply emits_bind; [apply emits_ack_now | intros; by apply emits_ret].
  - case_if; [|apply emits_fin_wait_1_fin]. eapply emits_bind; [apply emits_ack_now | intros; by apply emits_ret].
Qed.
Lemma emits_last_ack m n h : emits m (sender m n) (last_ack h) (fun _ => sender m n).
Proof.
  unfold last_ack. case_if; [|by apply emits_ret]. eapply emits_bind; [apply emits_flush|]. intros [].
  eapply emits_bind; [by apply emits_state|]. intros []. apply emits_conn_is. intros c Hc. apply emits_ret. by intros d ->.
Qed.
Lemma emits_handle_rst m n : emits m (sender m n) handle_rst (fun _ => sender m n).
Proof.
  unfold handle_rst. eapply emits_bind; [by apply emits_state|]. intros []. eapply emits_bind; [apply emits_flush|]. intros [].
  apply emits_conn_is. intros c Hc. apply emits_ret. by intros d ->.
Qed.

(** What may arrive: any header with a 16-bit window whose MSS option, if it
    has one that counts, leaves room for the headers. *)
Record header_ok (h : tcp_header_t) : Prop := {
  ho_window : 0 <= h_window h < 2 ^ 16;
  ho_mss t : 0 <= remote_mss t <= max_payload -> 0 <= remote_mss (tcp_parse_options (h_opts h) t) <= max_payload;
  ho_opts : bytes_ok (h_opts h);
}.

Lemma parse_options_others fuel opts i t :
  seq_num (parse_options fuel opts i t) = seq_num t /\ retransmit_queue (parse_options fuel opts i t) = retransmit_queue t /\
  snd_wnd (parse_options fuel opts i t) = snd_wnd t.
Proof.
  revert i t. induction fuel as [|fuel IH]; intros i t; [done|]. cbn -[u32]. repeat case_if; try done;
    match goal with |- context [parse_options fuel opts ?j ?u] => by destruct (IH j u) as (-> & -> & ->) end.
Qed.
Lemma zget_byte l i : bytes_ok l -> 0 <= zget l i.
Proof.
  intros Hl. unfold zget. rewrite list_lookup_total_alt. destruct (l !! Z.to_nat i) eqn:E; [|done]. by apply (Forall_lookup_1 _ _ _ _ Hl) in E as [? _].
Qed.
Lemma parse_options_scale fuel opts i t : bytes_ok opts -> 0 <= snd_wscale t <= 14 -> 0 <= snd_wscale (parse_options fuel opts i t) <= 14.
Proof.
  intros Ho. revert i t. induction fuel as [|fuel IH]; intros i t Ht; [done|]. pose proof (zget_byte opts (i + 2) Ho).
  cbn -[u32]. repeat case_if; try done; apply IH; cbn; bool_hyps; lia.
Qed.

Lemma emits_tcp_input m n h : header_ok h -> emits m (sender m n) (tcp_input h) (fun _ => sender m n).
Proof.
  intros [Hw Hmss Hopts]. unfold tcp_input. case_if; [apply emits_handle_rst|]. apply emits_conn_is. intros c Hc.
  eapply (emits_pre _ _ (sender m n)); [by intros d ->|]. cbv zeta. apply emits_bind with (R := fun _ => sender m n).
  { apply emits_upd. intros d Hd. pose proof Hd as [Hb _]. apply sender_tx; try done; try apply Hb. cbn.
    destruct (has (h_flags h) TCP_FLAG_SYN); [lia|]. pose proof (ba_scale _ _ _ Hb) as Hsc.
    assert (0 <= (if ws_ok (adv c) then snd_wscale (tx d) else 0) <= 14) as Hsh by (case_if; lia). revert Hsh. generalize (if ws_ok (adv c) then snd_wscale (tx d) else 0). intros sh Hsh.
    rewrite Z.shiftl_mul_pow2 by lia. assert (2 ^ sh <= 2 ^ 14) by (apply Z.pow_le_mono_r; lia). assert (0 < 2 ^ sh) by (apply Z.pow_pos_nonneg; lia).
    rewrite u32_small by nia. nia. }
  intros []. apply emits_conn_is. intros c1 Hc1. eapply (emits_pre _ _ (sender m n)); [by intros d ->|].
  eapply emits_bind; [apply emits_when, emits_retransmit_ack|]. intros [].
  apply emits_bind with (R := fun _ => sender m n).
  { apply emits_when, emits_upd. intros d Hd. pose proof Hd as [Hb _]. unfold on_tx, tcp_parse_options.
    destruct (parse_options_others (length (h_opts h)) (h_opts h) 0 (tx d)) as (E1 & E2 & E3).
    apply sender_tx; rewrite ?E1, ?E2, ?E3; try done; try apply Hb; [apply Hmss, Hb | apply parse_options_scale; [done | apply Hb]]. }
  intros []. apply emits_conn_is. intros c2 Hc2. eapply (emits_pre _ _ (fun d => in_state m n (state c2) d)); [by intros d ->|].
  assert (forall A (a : act A) (k : A -> act outcome), emits m (in_state m n (state c2)) a (fun _ => sender m n) -> (forall x, emits m (sender m n) (k x) (fun _ => sender m n)) ->
    emits m (in_state m n (state c2)) (a ≫= k) (fun _ => sender m n)) as Hseq by (intros; by eapply emits_bind).
  assert (forall A (x : A), emits m (in_state m n (state c2)) (mret x) (fun _ => sender m n)) as Hret by (intros; apply emits_ret; by intros d [? _]).
  pose proof (ba_open _ _ _ (proj1 Hc2)) as Hopen. destruct (state c2); try done; try apply Hret.
  - eapply emits_bind; [apply emits_established | intros; by apply emits_ret].
  - eapply emits_pre; [|apply emits_fin_wait_1]. by intros d [? _].
  - eapply emits_pre; [|apply emits_last_ack]. by intros d [? _].
Qed.
End sender.
