(* ===== verification/TcpEnd.v ===== *)
(** * TCP: from one application to the other

    Two hosts run src/net_tcp.c over a network that loses, repeats, delays and
    reorders datagrams.  What the receiving application reads is a prefix of
    what the sending application wrote. *)
From stdpp Require Import sorting.
From S2P Require Import Prelude Heap TcpRecv TcpRanges TcpWindow TcpConn TcpSeg Tcp TcpFrame TcpStream TcpWire TcpMem TcpSend.

Section mono.
Context (msg : list Z) (iss : Z) (Q : list Z * list Z * Z * Z).

Lemma piece_mono m m' p n : m <= m' -> piece m p n -> piece m' p n.
Proof. unfold piece. lia. Qed.
Lemma posted_mono m m' pk : m <= m' -> posted msg iss Q m pk -> posted msg iss Q m' pk.
Proof.
  intros Hm (c & flags & w & options & p & n & H1 & H2 & H3 & H4 & H5 & H6 & H7 & H8 & H9 & H10 & H11).
  exists c, flags, w, options, p, n. do 7 (split; [done|]). split; [by eapply piece_mono|]. split; [lia|]. done.
Qed.
Lemma entry_ok_mono m m' e : m <= m' -> entry_ok msg iss m e -> entry_ok msg iss m' e.
Proof. intros Hm (p & n & H1 & H2 & H3). exists p, n. split; [by eapply piece_mono|]. split; [lia | done]. Qed.
Lemma sender_mono m m' n c : m <= m' -> sender msg iss Q m n c -> sender msg iss Q m' n c.
Proof.
  intros Hm [[H1 H2 H3 H4 H5 H6 H7 H8 H9] Hd]. split; [|done]. constructor; try done; [lia|].
  eapply Forall_impl; [exact H6|]. intros e. by apply entry_ok_mono.
Qed.
End mono.

Lemma slice_msg (msg : list Z) p n : 0 <= p -> 0 <= n -> p + n <= zlen msg -> slice (zget msg) p n = ztake n (zdrop p msg).
Proof.
  intros Hp Hn Hl. apply zlist_eq.
  - rewrite zlen_slice by lia. rewrite zlen_ztake, zlen_zdrop; lia.
  - intros i Hi. rewrite zlen_slice in Hi by lia. rewrite zget_slice, zget_ztake, zget_zdrop by lia. done.
Qed.

Section transfer.
Context {W : Type} `{!KHeap W} `{!NetDown W} `{!NetTrace W} `{!NetTraceLaws W}.
Abbreviation act := (act (W := W)).
Abbreviation glob := (glob (W := W)).
Context (msg : list Z) (iss : Z).

(** What was handed to the network between two states of a host. *)
Definition emitted (g g' : glob) : list datagram := zdrop (zlen (sent (g_world g))) (sent (g_world g')).

(** Timers, shutdown and the owner's flags, on either host. *)
Inductive local_op := Timer (now : Z) | Shutdown (st : tcp_state_t) | Owner (f : own_t -> own_t).
Definition local_step (op : local_op) : act unit :=
  match op with
  | Timer now => retransmit_conn now
  | Shutdown st => _ ← upd (set_state st); send_fin
  | Owner f => upd (on_own f)
  end.
Definition local_allowed (op : local_op) (c : tcp_connection_t) : Prop :=
  match op with Shutdown st => fin_state (state c) = Some st | _ => True end.

(** A connection that was just established on the sending side, and one on the
    receiving side. *)
Record sends_from (c : tcp_connection_t) : Prop := {
  sf_state : state c = TCP_STATE_ESTABLISHED;
  sf_wire : wire_conn c;
  sf_seq : seq_num (tx c) = seq_of iss 0;
  sf_queue : retransmit_queue (tx c) = [];
  sf_mss : 0 <= remote_mss (tx c) <= max_payload;
  sf_wnd : 0 <= snd_wnd (tx c) < 2 ^ 31;
  sf_scale : 0 <= snd_wscale (tx c) <= 14;
}.
Record receives_from (c : tcp_connection_t) : Prop := {
  rf_state : state c = TCP_STATE_ESTABLISHED;
  rf_buffer : recv_buffer (rx c) <> 0;
  rf_len : zlen (recv_bytes (rx c)) = recv_buffer_size (rx c);
  rf_size : 0 < recv_buffer_size (rx c) < 2 ^ 30;
  rf_empty : recv_buffer_used (rx c) = 0 /\ recv_head (rx c) = 0 /\ ooo (rx c) = [];
  rf_ack : ack_num (rx c) = seq_of iss 0;
}.

(** [transfer src dst a n m net b out]: the sender's connection is [a], it has
    accepted [n] bytes and was offered [m]; [net] are the datagrams it has sent so
    far, each of which may be delivered any number of times, or never; the
    receiver's connection is [b] and its application has read [out].  The rest of
    each host ([g]) is arbitrary at every step. *)
Inductive transfer (src dst : list Z) : tcp_connection_t -> Z -> Z -> list datagram -> tcp_connection_t -> list Z -> Prop :=
| tr_start a b :
    local_ip a = src -> remote_ip a = dst -> sends_from a -> receives_from b -> transfer src dst a 0 0 [] b []
| tr_write a n m net b out data (g : glob) :
    transfer src dst a n m net b out -> n + zlen data <= zlen msg -> data = ztake (zlen data) (zdrop n msg) ->
    let r := tcp_send data (a, g) in
    transfer src dst r.2.1 (n + Z.max 0 r.1) (Z.max m (n + zlen data)) (net ++ emitted g r.2.2) b out
| tr_segment_back a n m net b out h (g : glob) :
    transfer src dst a n m net b out -> header_ok h ->
    let r := tcp_input h (a, g) in transfer src dst r.2.1 n m (net ++ emitted g r.2.2) b out
| tr_read_back a n m net b out len (g : glob) :
    transfer src dst a n m net b out ->
    let r := conn_read len (a, g) in transfer src dst r.2.1 n m (net ++ emitted g r.2.2) b out
| tr_local_a a n m net b out op (g : glob) :
    transfer src dst a n m net b out -> local_allowed op a ->
    let r := local_step op (a, g) in transfer src dst r.2.1 n m (net ++ emitted g r.2.2) b out
| tr_deliver a n m net b out pkt pre post sg h (g : glob) :
    transfer src dst a n m net b out ->
    (dst, 6, pkt) ∈ net -> ip_prefix pre src dst (zlen pkt) -> bytes_ok post ->
    tcp_accept_frame (pre ++ pkt ++ post) = Some sg -> tcp_read_header (pre ++ pkt ++ post) sg = Some h ->
    transfer src dst a n m net (tcp_input h (b, g)).2.1 out
| tr_read a n m net b out len (g : glob) :
    transfer src dst a n m net b out -> 0 <= len ->
    let r := conn_read len (b, g) in transfer src dst a n m net r.2.1 (out ++ r.1)
| tr_write_back a n m net b out data (g : glob) :
    transfer src dst a n m net b out -> transfer src dst a n m net (tcp_send data (b, g)).2.1 out
| tr_local_b a n m net b out op (g : glob) :
    transfer src dst a n m net b out -> local_allowed op b -> transfer src dst a n m net (local_step op (b, g)).2.1 out.

Lemma emits_emitted {A} Q m P (x : act A) R c g :
  emits msg iss Q m P x R -> P c -> R (x (c, g)).1 (x (c, g)).2.1 /\ Forall (posted msg iss Q m) (emitted g (x (c, g)).2.2).
Proof.
  intros Hx Hc. destruct (Hx c g Hc) as (Hr & new & E & Hnew). split; [done|]. unfold emitted. rewrite E. by rewrite zdrop_app_len.
Qed.

Lemma local_emits Q m n op c : sender msg iss Q m n c -> local_allowed op c ->
  emits msg iss Q m (fun d => d = c) (local_step op) (fun _ => sender msg iss Q m n).
Proof.
  intros Hc Hop. destruct op as [now|st|f]; cbn [local_step].
  - eapply emits_pre; [|apply emits_retransmit_conn]. by intros d ->.
  - assert (open_state st = true /\ data_state st = false /\ data_state (state c) = true) as (Ho & Hd & Hdc).
    { cbn in Hop. unfold fin_state in Hop. by destruct (state c); try done; injection Hop as <-. }
    eapply emits_pre; [|by apply emits_send_fin]. by intros d ->.
  - apply emits_upd. intros d ->. eapply sender_view; try done; [exact (sender_ack _ _ _ _ _ _ Hc) | apply Hc].
Qed.

(** A datagram of the sender is a piece of the stream to the receiver. *)
Lemma deliver_genuine Q m a dst pkt pre post sg h :
  bytes_ok msg -> zlen msg < 2 ^ 31 - 1 -> m <= zlen msg -> 0 <= a <= m ->
  posted msg iss Q m (dst, 6, pkt) -> Q.1.1.2 = dst -> ip_prefix pre Q.1.1.1 dst (zlen pkt) -> bytes_ok post ->
  tcp_accept_frame (pre ++ pkt ++ post) = Some sg -> tcp_read_header (pre ++ pkt ++ post) sg = Some h ->
  exists p n, genuine (zget msg) iss a p n h /\ (n = 0 \/ 0 <= p /\ p + n <= m).
Proof.
  intros Hmsg Hlen Hm Ha (c & flags & w & options & p & n & Hw & <- & Hf & Hwf & Ho & Hol & Hsz & Hp & Hpm & Hs & [= Hdst Hpkt]) Hq Hpre Hpost Hacc Hread.
  cbn in Hq, Hpre. subst dst. destruct Hp as (Hn & Hp & Hpn). unfold max_payload in Hn.
  assert (zlen (slice (zget msg) p n) = n) as Hz by (apply zlen_slice; lia).
  assert (zlen pkt = header_size_of options + zlen (slice (zget msg) p n)) as Hlp.
  { rewrite Hpkt. exact (packet_with_len c flags w options (slice (zget msg) p n) _). }
  assert (bytes_ok (slice (zget msg) p n)) as Hb.
  { destruct Hpn as [->|Hpn]; [constructor|]. rewrite slice_msg by lia. by apply Forall_take, Forall_drop. }
  rewrite Hpkt in Hacc, Hread. rewrite Hlp in Hpre.
  destruct (segment_read c flags w options (slice (zget msg) p n) pre post) as [E1 E2]; try done; [by rewrite Hz|].
  rewrite E1 in Hacc. injection Hacc as <-. rewrite E2 in Hread. injection Hread as <-.
  exists p, n. split; [|lia]. constructor; cbn; [done | done | lia | lia].
Qed.

Definition transfer_inv (src dst : list Z) (a : tcp_connection_t) (n m : Z) (net : list datagram) (b : tcp_connection_t) (out : list Z) : Prop :=
  m <= zlen msg /\ exists Q, Q.1.1 = (src, dst) /\ sender msg iss Q m n a /\ Forall (posted msg iss Q m) net /\
  exists p held segs, conversation (W := W) (zget msg) iss b p held segs out /\ Forall (fun s => s.1 = s.2 \/ 0 <= s.1 /\ s.2 <= m) segs.

(** The receiver is never ahead of what was offered. *)
Lemma conversation_within m b p held segs out :
  0 <= m -> conversation (W := W) (zget msg) iss b p held segs out -> Forall (fun s => s.1 = s.2 \/ 0 <= s.1 /\ s.2 <= m) segs -> 0 <= p <= m.
Proof.
  intros Hm Hc Hs. destruct (conversation_ok _ _ _ _ _ _ _ Hc) as (k & Hk & (Hok & Hu & _) & _ & Hcov).
  pose proof (ro_used _ _ _ _ _ Hok) as Hus. cbn in Hus, Hu. split; [lia|]. destruct (Z_le_gt_dec p m) as [|Hgt]; [done|].
  destruct (proj1 (Exists_exists _ _) (Hcov m ltac:(left; lia))) as (s & Hin & Hr). rewrite Forall_forall in Hs. destruct (Hs s Hin); lia.
Qed.

(** A step of the sender that takes no new bytes. *)
Lemma inv_sender_step {A} src dst a n m net b out (x : act A) g :
  transfer_inv src dst a n m net b out ->
  (forall Q, sender msg iss Q m n a -> emits msg iss Q m (fun d => d = a) x (fun _ => sender msg iss Q m n)) ->
  transfer_inv src dst (x (a, g)).2.1 n m (net ++ emitted g (x (a, g)).2.2) b out.
Proof.
  intros (Hm & Q & HQ & Ha & Hnet & Hb) Hx. destruct (emits_emitted Q m _ x _ a g (Hx Q Ha) eq_refl) as [Ha' Hnew].
  split; [done|]. exists Q. split; [done|]. split; [done|]. split; [by apply Forall_app_2 | done].
Qed.

Lemma emits_at {A} Q m n (x : act A) a : emits msg iss Q m (sender msg iss Q m n) x (fun _ => sender msg iss Q m n) ->
  sender msg iss Q m n a -> emits msg iss Q m (fun d => d = a) x (fun _ => sender msg iss Q m n).
Proof. intros Hx Ha. eapply emits_pre; [|exact Hx]. by intros d ->. Qed.

(** A step of the receiver that takes no segment. *)
Lemma inv_receiver_step src dst a n m net b b' out out' :
  transfer_inv src dst a n m net b out ->
  (forall p held segs, conversation (W := W) (zget msg) iss b p held segs out -> conversation (W := W) (zget msg) iss b' p held segs out') ->
  transfer_inv src dst a n m net b' out'.
Proof.
  intros (Hm & Q & HQ & Ha & Hnet & p & held & segs & Hc & Hs) Hb. split; [done|]. exists Q. split; [done|]. split; [done|]. split; [done|].
  exists p, held, segs. auto.
Qed.

Lemma start_inv src dst a b : local_ip a = src -> remote_ip a = dst -> sends_from a -> receives_from b -> transfer_inv src dst a 0 0 [] b [].
Proof.
  intros H1 H2 [A1 A2 A3 A4 A5 A6 A7] [B1 B2 B3 B4 (B5 & B6 & B7) B8]. split; [apply zlen_nonneg|]. exists (quad a).
  split; [unfold quad; cbn; by rewrite H1, H2|]. split; [|split; [constructor|]].
  - split; [|done]. constructor; try done; [exists 0; split; [lia | done] | by rewrite A1 | rewrite A4; constructor].
  - exists 0, [], []. split; [by apply conv_start | constructor].
Qed.

Lemma write_inv src dst a n m net b out data g :
  transfer_inv src dst a n m net b out -> n + zlen data <= zlen msg -> data = ztake (zlen data) (zdrop n msg) ->
  let r := tcp_send data (a, g) in
  transfer_inv src dst r.2.1 (n + Z.max 0 r.1) (Z.max m (n + zlen data)) (net ++ emitted g r.2.2) b out.
Proof.
  intros (Hm & Q & HQ & Ha & Hnet & p & held & segs & Hc & Hs) Hl Hd. pose proof (sender_n _ _ _ _ _ _ Ha) as Hn. pose proof (zlen_nonneg data).
  set (m' := Z.max m (n + zlen data)). assert (m <= m') as Hmm by lia.
  assert (data = slice (zget msg) n (zlen data)) as Hd' by (rewrite slice_msg by lia; done).
  destruct (emits_emitted Q m' _ _ _ a g (emits_tcp_send msg iss Q m' n data Hd' ltac:(lia)) (sender_mono _ _ _ _ _ _ _ Hmm Ha)) as [Ha' Hnew].
  split; [lia|]. exists Q. split; [done|]. split; [done|]. split.
  - apply Forall_app_2; [|done]. eapply Forall_impl; [exact Hnet|]. intros pk. by apply posted_mono.
  - exists p, held, segs. split; [done|]. eapply Forall_impl; [exact Hs|]. intros s. cbn. lia.
Qed.

Lemma deliver_inv src dst a n m net b out pkt pre post sg h g :
  bytes_ok msg -> zlen msg < 2 ^ 31 - 1 -> transfer_inv src dst a n m net b out ->
  (dst, 6, pkt) ∈ net -> ip_prefix pre src dst (zlen pkt) -> bytes_ok post ->
  tcp_accept_frame (pre ++ pkt ++ post) = Some sg -> tcp_read_header (pre ++ pkt ++ post) sg = Some h ->
  transfer_inv src dst a n m net (tcp_input h (b, g)).2.1 out.
Proof.
  intros Hmsg Hlen (Hm & Q & HQ & Ha & Hnet & p & held & segs & Hc & Hs) Hin Hpre Hpost Hacc Hread. pose proof (sender_n _ _ _ _ _ _ Ha) as Hn.
  pose proof (conversation_within m b p held segs out ltac:(lia) Hc Hs) as Hp.
  rewrite Forall_forall in Hnet. pose proof (Hnet _ Hin) as Hpk.
  destruct (deliver_genuine Q m p dst pkt pre post sg h Hmsg Hlen Hm Hp Hpk) as (q & k & Hg & Hq); try done; [by rewrite HQ | by rewrite HQ |].
  split; [done|]. exists Q. split; [done|]. split; [done|]. split; [by apply Forall_forall|].
  eexists _, _, _. split; [by eapply conv_segment|]. apply Forall_app_2; [done|]. apply Forall_cons_2; [cbn; lia | constructor].
Qed.

Lemma transfer_ok src dst a n m net b out : bytes_ok msg -> zlen msg < 2 ^ 31 - 1 ->
  transfer src dst a n m net b out -> transfer_inv src dst a n m net b out.
Proof.
  intros Hmsg Hlen. induction 1 as [a b H1 H2 Ha Hb | a n m net b out data g _ IH Hl Hd r | a n m net b out h g _ IH Hh r
    | a n m net b out len g _ IH r | a n m net b out op g _ IH Hop r | a n m net b out pkt pre post sg h g _ IH Hin Hpre Hpost Hacc Hread
    | a n m net b out len g _ IH Hl r | a n m net b out data g _ IH | a n m net b out op g _ IH Hop].
  - by apply start_inv.
  - by apply write_inv.
  - apply inv_sender_step; [done|]. intros Q. by apply emits_at, emits_tcp_input.
  - apply inv_sender_step; [done|]. intros Q. apply emits_at, emits_conn_read.
  - apply inv_sender_step; [done|]. intros Q Ha. by apply local_emits.
  - by eapply deliver_inv.
  - eapply inv_receiver_step; [exact IH|]. intros p held segs Hc. by apply conv_read.
  - eapply inv_receiver_step; [exact IH|]. intros p held segs Hc. by apply conv_send.
  - eapply inv_receiver_step; [exact IH|]. intros p held segs Hc. destruct op as [now|st|f]; cbn.
    + by apply conv_timer.
    + by apply (conv_shutdown _ _ b p held segs out st g).
    + by apply conv_owner.
Qed.

(** C4 End to end, TCP delivers a prefix of what was written.  Two hosts run the
    code on a connection that was just established, with a segment size that
    fits a datagram.  The sending application writes a message of less than two gigabytes
    in pieces of any size, going on after what each call accepted.  The network
    delivers the datagrams of the sender any number of times, in any order, or
    not at all, and the sender gets any segments back, genuine or forged;
    retransmission timers run and either side may shut down.  Then what the
    receiving application has read, followed by what waits in its ring, is a
    prefix of the message, of the bytes the sender was offered. *)
Theorem tcp_end_to_end src dst a n m net b out : bytes_ok msg -> zlen msg < 2 ^ 31 - 1 ->
  transfer src dst a n m net b out ->
  exists p, 0 <= p <= m /\ m <= zlen msg /\ out ++ unread (rx b) = ztake p msg.
Proof.
  intros Hmsg Hlen Ht. destruct (transfer_ok _ _ _ _ _ _ _ _ Hmsg Hlen Ht) as (Hm & Q & _ & Ha & _ & p & held & segs & Hc & Hs).
  pose proof (sender_n _ _ _ _ _ _ Ha) as Hn. pose proof (conversation_within m b p held segs out ltac:(lia) Hc Hs) as Hp.
  exists p. split; [done|]. split; [done|]. destruct (conversation_ok _ _ _ _ _ _ _ Hc) as (k & Hk & Hinv & -> & _).
  pose proof (unread_ok _ _ _ _ _ _ Hinv) as Hr. pose proof Hinv as (Hok & Hu & _). pose proof (ro_used _ _ _ _ _ Hok) as Hus. cbn in Hr, Hu, Hus.
  rewrite Hr, Hu. transitivity (slice (zget msg) 0 (k + recv_buffer_used (rx b))); [symmetry; apply slice_app; lia|].
  replace (k + recv_buffer_used (rx b)) with p by lia. rewrite slice_msg by lia. done.
Qed.
End transfer.
