(* ===== verification/TcpShape.v ===== *)
(** * TCP: the connection list as a resource

    Which connections exist, who owns them and which blocks of the heap they
    take, and what the elementary steps of src/net_tcp.c do to them.  [safe] is
    total correctness: the code does not follow a dangling pointer. *)
From S2P Require Import Prelude Heap TcpRecv TcpConn TcpSeg Tcp TcpTable TcpFrame TcpMem.

(** * TCP: which connection belongs to whom

    The address and the ownership flags of a connection are set when it is
    created, accepted and closed; no segment or timer changes them, and the
    receive path never destroys a connection that a socket holds. *)

Definition ident (c : tcp_connection_t) : Z * own_t := (self c, own c).
#[export] Instance ident_steady : steady ident.
Proof. done. Qed.

(** A connection that a socket may hold: opened, bound or accepted by a
    program that has not closed it. *)
Definition sock_owned (o : own_t) : Prop :=
  owned o = true /\ disowned o = false /\ (user_child o = true -> accepted o = true).
(** A child that is waiting to be accepted belongs to nobody. *)
Definition own_ok (o : own_t) : Prop :=
  user_child o = true -> accepted o = false -> owned o = false /\ disowned o = false.

Section ident.
Context {W : Type} `{!KHeap W} `{!NetDown W}.
Abbreviation act := (act (W := W)).
Abbreviation kept := (keeps (W := W) ident).

Lemma ident_rx u : kept (upd (on_rx u)).
Proof. by apply keeps_upd. Qed.
Lemma ident_state st : kept (upd (set_state st)).
Proof. by apply keeps_upd. Qed.
#[local] Hint Resolve ident_rx ident_state : tcp.

Lemma ident_conn_read len : kept (conn_read len).
Proof. unfold conn_read. keep. Qed.
Lemma ident_rtx_scan now before todo : kept (rtx_scan now before todo).
Proof. revert before. induction todo as [|e todo IH]; intros before; cbn [rtx_scan]; [keep|]. keep. Qed.
#[local] Hint Resolve ident_rtx_scan : tcp.
Lemma ident_retransmit_conn now : kept (retransmit_conn now).
Proof. unfold retransmit_conn. keep. Qed.
Lemma ident_connect_conn cb isn : kept (connect_conn cb isn).
Proof. unfold connect_conn. keep. Qed.
Lemma ident_handle_syn h : kept (tcp_handle_syn h).
Proof. unfold tcp_handle_syn. keep. Qed.
Lemma ident_syn_sent h : kept (syn_sent h).
Proof. unfold syn_sent. keep. Qed.
Lemma ident_syn_received h : kept (syn_received h).
Proof. unfold syn_received. keep. Qed.
Lemma ident_established_fin h seq len : kept (established_fin h seq len).
Proof. unfold established_fin. keep. Qed.
Lemma ident_take_data seq payload : kept (take_data seq payload).
Proof. unfold take_data. keep. Qed.
#[local] Hint Resolve ident_handle_syn ident_syn_sent ident_syn_received ident_established_fin ident_take_data : tcp.
Lemma ident_established h : kept (established h).
Proof. unfold established. keep. Qed.
Lemma ident_fin_wait_1_fin h d : kept (fin_wait_1_fin h d).
Proof. unfold fin_wait_1_fin. keep. Qed.
#[local] Hint Resolve ident_established ident_fin_wait_1_fin : tcp.
Lemma ident_fin_wait_1 h : kept (fin_wait_1 h).
Proof. unfold fin_wait_1. keep. Qed.
Lemma ident_last_ack h : kept (last_ack h).
Proof. unfold last_ack. keep. Qed.
Lemma ident_handle_rst : kept handle_rst.
Proof. unfold handle_rst. keep. Qed.
#[local] Hint Resolve ident_fin_wait_1 ident_last_ack ident_handle_rst : tcp.
Lemma ident_tcp_input h : kept (tcp_input h).
Proof. unfold tcp_input. keep. Qed.

Lemma keeps_release : keeps (W := W) self release.
Proof. unfold release. keep. Qed.

(** ** Destruction on input *)

(** [m] asks for the destruction only of a connection that no socket holds. *)
Definition spares (o : own_t) (m : act outcome) : Prop := forall s, own s.1 = o -> (m s).1 = Destroy -> ~ sock_owned o.

Lemma spares_bind {A} o (m : act A) k : kept m -> (forall a, spares o (k a)) -> spares o (m ≫= k).
Proof.
  intros Hm Hk s Hs. unfold mbind, act_bind. specialize (Hm s). destruct (m s) as [a s']. apply Hk. by injection Hm as _ ->.
Qed.
Lemma spares_conn_is o k : (forall c, own c = o -> spares o (k c)) -> spares o (conn_is ≫= k).
Proof. intros Hk s Hs. by apply Hk. Qed.
Lemma spares_ret o v : (v = Destroy -> ~ sock_owned o) -> spares o (mret v).
Proof. intros Hv s _. exact Hv. Qed.

Lemma spares_handle_rst o : spares o handle_rst.
Proof.
  do 2 (apply spares_bind; [keep|]; intros ?). apply spares_conn_is. intros c ->. apply spares_ret.
  unfold sock_owned. destruct (disowned o), (user_child o), (accepted o); cbn; intros ?; naive_solver.
Qed.
Lemma spares_last_ack o h : spares o (last_ack h).
Proof.
  unfold last_ack. case_if; [|by apply spares_ret]. do 2 (apply spares_bind; [keep|]; intros ?). apply spares_conn_is. intros c ->.
  apply spares_ret. unfold sock_owned. destruct (disowned o); naive_solver.
Qed.
Lemma spares_fin_wait_1_fin o h d : spares o (fin_wait_1_fin h d).
Proof.
  apply spares_conn_is. intros c ->. case_if.
  - do 4 (apply spares_bind; [keep|]; intros ?). apply spares_ret. unfold sock_owned. destruct (owned o); naive_solver.
  - case_if; [|by apply spares_ret]. do 3 (apply spares_bind; [keep|]; intros ?). by apply spares_ret.
Qed.
Lemma spares_fin_wait_1 o h : spares o (fin_wait_1 h).
Proof.
  apply spares_conn_is. intros c _. case_if.
  - destruct (tcp_handle_data _ _) as [taken r]. do 3 (apply spares_bind; [keep|]; intros ?).
    case_if; [apply spares_bind; [keep|]; intros ?; by apply spares_ret | apply spares_fin_wait_1_fin].
  - case_if; [apply spares_bind; [keep|]; intros ?; by apply spares_ret | apply spares_fin_wait_1_fin].
Qed.
Lemma spares_tcp_input o h : spares o (tcp_input h).
Proof.
  unfold tcp_input. case_if; [apply spares_handle_rst|]. do 6 (apply spares_bind; [keep|]; intros ?).
  destruct (state _); try (by apply spares_ret); try apply spares_fin_wait_1; try apply spares_last_ack;
    (apply spares_bind; [keep|]; intros ?; by apply spares_ret).
Qed.
End ident.

(** The addresses and owners of the connections in the list. *)
Abbreviation idents := (list (Z * own_t)).

Definition own_at (p : Z) (f : own_t -> own_t) (I : idents) : idents := (fun x => if x.1 =? p then (x.1, f x.2) else x) <$> I.
Definition without (p : Z) (I : idents) : idents := List.filter (fun x => negb (x.1 =? p)) I.

(** [K]: the connections that sockets hold. *)
Record idents_ok (I : idents) (K : list Z) : Prop := {
  io_max : zlen I <= TCP_MAX_CONNECTIONS;
  io_keys : NoDup I.*1;
  io_own : Forall (fun x => own_ok x.2) I;
  io_nodup : NoDup K;
  io_held p : p ∈ K -> exists o, (p, o) ∈ I /\ sock_owned o;
}.

Lemma idents_functional (I : idents) p o o' : NoDup I.*1 -> (p, o) ∈ I -> (p, o') ∈ I -> o = o'.
Proof.
  induction I as [|[q oq] I IH]; [by intros _ ?%elem_of_nil|]. cbn. intros [Hq Hnd]%NoDup_cons.
  assert (forall o, (q, o) ∈ I -> False) as Hno.
  { intros o1 Hin. apply Hq, list_elem_of_fmap. by exists (q, o1). }
  rewrite !elem_of_cons. intros [E1|H1] [E2|H2]; simplify_eq; try done; try (by exfalso; eapply Hno); auto.
Qed.

Lemma own_at_keys p f I : (own_at p f I).*1 = I.*1.
Proof. unfold own_at. rewrite <- list_fmap_compose. apply list_fmap_ext. intros _ [q o] _. cbn. by destruct (q =? p). Qed.
Lemma own_at_in p f I q o : (q, o) ∈ own_at p f I <-> exists o', (q, o') ∈ I /\ o = (if q =? p then f o' else o').
Proof.
  unfold own_at. rewrite list_elem_of_fmap. split.
  - intros ([q' o'] & E & Hin). cbn in E. exists o'. destruct (q' =? p) eqn:Ep; injection E as -> ->; by rewrite Ep.
  - intros (o' & Hin & ->). exists (q, o'). split; [|done]. cbn. by destruct (q =? p).
Qed.
Lemma without_in p I q o : (q, o) ∈ without p I <-> (q, o) ∈ I /\ q <> p.
Proof. unfold without. rewrite !list_elem_of_In, filter_In. cbn. by rewrite negb_true_iff, Z.eqb_neq. Qed.
Lemma without_sublist p I : without p I `sublist_of` I.
Proof. unfold without. induction I as [|x I IH]; cbn; [done|]. destruct (negb _); by constructor. Qed.

Lemma sublist_map {A B} (f : A -> B) l k : l `sublist_of` k -> f <$> l `sublist_of` f <$> k.
Proof. induction 1; cbn; by constructor. Qed.

(** What the operations do to it. *)
Lemma idents_own_at p f I K :
  idents_ok I K ->
  (forall o, (p, o) ∈ I -> own_ok (f o) /\ (p ∈ K -> sock_owned (f o))) ->
  idents_ok (own_at p f I) K.
Proof.
  intros [H1 H2 H3 H4 H5] Hf. constructor; [by unfold own_at, zlen; rewrite length_fmap | by rewrite own_at_keys | | done |].
  - apply Forall_forall. intros [q o]. rewrite own_at_in. intros (o' & Hin & ->). cbn. destruct (Z.eqb_spec q p) as [->|].
    + by apply Hf.
    + by apply (proj1 (Forall_forall _ _) H3 (q, o')).
  - intros q Hq. destruct (H5 q Hq) as (o & Hin & Ho). eexists. rewrite own_at_in. split; [by exists o|].
    destruct (Z.eqb_spec q p) as [->|]; [by apply Hf | done].
Qed.

Lemma idents_without p I K : idents_ok I K -> p ∉ K -> idents_ok (without p I) K.
Proof.
  intros [H1 H2 H3 H4 H5] Hp. pose proof (without_sublist p I) as Hs. constructor; [| | | done |].
  - apply sublist_length in Hs. unfold zlen in *. lia.
  - eapply sublist_NoDup; [exact H2 | by apply sublist_map].
  - rewrite Forall_forall in *. intros x Hx. apply H3. by eapply elem_of_sublist.
  - intros q Hq. destruct (H5 q Hq) as (o & Hin & Ho). exists o. rewrite without_in. split; [|done]. split; [done|]. by intros ->.
Qed.

Lemma idents_fewer I K K' : idents_ok I K -> NoDup K' -> K' ⊆ K -> idents_ok I K'.
Proof. intros [H1 H2 H3 H4 H5] Hnd Hs. constructor; auto. Qed.

Lemma idents_new p o I K : idents_ok I K -> zlen I < TCP_MAX_CONNECTIONS -> p ∉ I.*1 -> own_ok o -> idents_ok ((p, o) :: I) K.
Proof.
  intros [H1 H2 H3 H4 H5] Hl Hp Ho. constructor; [rewrite zlen_cons; lia | by constructor | by constructor | done |].
  intros q Hq. destruct (H5 q Hq) as (o' & ? & ?). exists o'. split; [by right | done].
Qed.

(** Handing a connection to a socket. *)
Lemma idents_hold p o I K : idents_ok I K -> p ∉ K -> (p, o) ∈ I -> sock_owned o -> idents_ok I (p :: K).
Proof.
  intros [H1 H2 H3 H4 H5] Hp Hin Ho. constructor; [done | done | done | by constructor |].
  intros q [->|Hq]%elem_of_cons; eauto.
Qed.

Lemma idents_not_held I K p o : idents_ok I K -> (p, o) ∈ I -> ~ sock_owned o -> p ∉ K.
Proof.
  intros Hok Hin Ho Hp. destruct (io_held _ _ Hok p Hp) as (o' & Hin' & Ho').
  by rewrite (idents_functional I p o o') in Ho by (done || apply Hok).
Qed.

(** ** The list of connections *)

Lemma elsewhere {A} (key : A -> Z) p l : p ∉ (key <$> l) -> Forall (fun x => (key x =? p) = false) l.
Proof.
  intros Hp. apply Forall_forall. intros x Hx. apply Z.eqb_neq. intros <-. apply Hp. apply list_elem_of_fmap. by exists x.
Qed.
Lemma find_skip {A} (f : A -> bool) l1 l2 : Forall (fun x => f x = false) l1 -> List.find f (l1 ++ l2) = List.find f l2.
Proof. induction 1 as [|x l Hx _ IH]; [done|]. cbn. by rewrite Hx. Qed.
Lemma map_skip {A} (f : A -> bool) g l : Forall (fun x => f x = false) l -> (fun x => if f x then g x else x) <$> l = l.
Proof. induction 1 as [|x l Hx _ IH]; [done|]. cbn. by rewrite Hx, IH. Qed.
Lemma filter_skip {A} (f : A -> bool) l : Forall (fun x => f x = false) l -> List.filter (fun x => negb (f x)) l = l.
Proof. induction 1 as [|x l Hx _ IH]; [done|]. cbn. by rewrite Hx, IH. Qed.

(** An element of a list with distinct keys. *)
Lemma key_split {A} (key : A -> Z) p l :
  NoDup (key <$> l) -> p ∈ (key <$> l) ->
  exists x l1 l2, l = l1 ++ x :: l2 /\ key x = p /\
    Forall (fun x => (key x =? p) = false) l1 /\ Forall (fun x => (key x =? p) = false) l2.
Proof.
  intros Hnd (x & -> & Hin)%list_elem_of_fmap. destruct (list_elem_of_split _ _ Hin) as (l1 & l2 & ->).
  exists x, l1, l2. rewrite fmap_app in Hnd. apply NoDup_app in Hnd as (H1 & H12 & [H2 H3]%NoDup_cons).
  split; [done|]. split; [done|]. split; apply elsewhere; [|done]. intros Hx. apply (H12 _ Hx). by left.
Qed.

Section shape.
Context {W : Type} `{!KHeap W} `{!KHeapLaws W} `{!NetDown W} `{!NetDownLaws W}.
Abbreviation act := (act (W := W)).
Abbreviation tcp := (tcp (W := W)).
Abbreviation M := (M (W := W)).

Definition list_blocks (cs : list tcp_connection_t) : list (Z * Z) := concat (conn_blocks <$> cs).
Lemma list_blocks_mid cs1 c cs2 : list_blocks (cs1 ++ c :: cs2) ≡ₚ conn_blocks c ++ list_blocks (cs1 ++ cs2).
Proof. unfold list_blocks. rewrite !fmap_app, fmap_cons, !concat_app. cbn [concat]. solve_Permutation. Qed.
Lemma list_blocks_selfs cs : (self <$> cs) `sublist_of` (list_blocks cs).*1.
Proof.
  unfold list_blocks. induction cs as [|c cs IH]; [done|]. cbn [fmap list_fmap concat]. rewrite fmap_app. cbn [conn_blocks fmap list_fmap app fst].
  constructor. by apply sublist_inserts_l.
Qed.

(** The connections are [I], the sockets are [L], the blocks of the sockets
    are [S] and everything else that is allocated is [F]. *)
Record shape (F : Z -> Z -> Prop) (S : list (Z * Z)) (I : idents) (L : list (Z * tcp_socket_t)) (s : tcp) : Prop := {
  sh_mem : mem_ok F (g_world (t_glob s)) (list_blocks (tcp_connections s) ++ S);
  sh_ident : ident <$> tcp_connections s = I;
  sh_sockets : tcp_sockets s = L;
}.

Lemma shape_keys F S I L s : shape F S I L s -> I.*1 = self <$> tcp_connections s.
Proof. intros [_ <- _]. by rewrite <- list_fmap_compose. Qed.
Lemma shape_selfs F S I L s : shape F S I L s -> NoDup (self <$> tcp_connections s).
Proof.
  intros [Hm _ _]. apply (mo_nodup _ _ _) in Hm. rewrite fmap_app in Hm. apply NoDup_app in Hm as (Hm & _).
  eapply sublist_NoDup; [exact Hm | apply list_blocks_selfs].
Qed.
Lemma shape_nonnull F S I L s p : shape F S I L s -> p ∈ I.*1 -> p <> 0.
Proof.
  intros Hs Hp. rewrite (shape_keys _ _ _ _ _ Hs) in Hp. destruct Hs as [Hm _ _].
  apply list_elem_of_fmap in Hp as (c & -> & (l1 & l2 & E)%list_elem_of_split). rewrite E, list_blocks_mid in Hm.
  destruct (mo_live _ _ _ Hm (self c) conn_size) as (n & _ & Hn); [by left|].
  pose proof (live_nonnull _ _ _ (mo_heap _ _ _ Hm) Hn). lia.
Qed.

(** The connection at an address. *)
Lemma shape_at F S I L s p : shape F S I L s -> p ∈ I.*1 ->
  exists c l1 l2, tcp_connections s = l1 ++ c :: l2 /\ self c = p /\ (p, own c) ∈ I /\ conn_at p (tcp_connections s) = Some c /\
    Forall (fun d => (self d =? p) = false) l1 /\ Forall (fun d => (self d =? p) = false) l2.
Proof.
  intros Hs Hp. rewrite (shape_keys _ _ _ _ _ Hs) in Hp. destruct (key_split self p _ (shape_selfs _ _ _ _ _ Hs) Hp) as (c & l1 & l2 & E & Hc & H1 & H2).
  exists c, l1, l2. split; [done|]. split; [done|]. split; [|split; [|done]].
  - rewrite <- (sh_ident _ _ _ _ _ Hs), E, <- Hc. apply list_elem_of_fmap. exists c. split; [done|]. apply elem_of_app. right. by left.
  - unfold conn_at. rewrite E, find_skip by done. cbn. by rewrite Hc, Z.eqb_refl.
Qed.

(** ** Total correctness: no access to freed memory *)

Definition safe {A} (P : tcp -> Prop) (m : M A) (Q : A -> tcp -> Prop) : Prop :=
  forall s, P s -> exists a s', m s = Some (a, s') /\ Q a s'.

Lemma safe_ret {A} (P : tcp -> Prop) (a : A) (Q : A -> tcp -> Prop) : (forall s, P s -> Q a s) -> safe P (mret a) Q.
Proof. intros H s Hs. exists a, s. auto. Qed.
Lemma safe_bind {A B} P (m : M A) (k : A -> M B) Q R : safe P m Q -> (forall a, safe (Q a) (k a) R) -> safe P (m ≫= k) R.
Proof. intros Hm Hk s Hs. destruct (Hm s Hs) as (a & s' & E & Ha). unfold mbind, M_bind. rewrite E. by apply Hk. Qed.
Lemma safe_conseq {A} (P P' : tcp -> Prop) (m : M A) (Q Q' : A -> tcp -> Prop) :
  safe P' m Q' -> (forall s, P s -> P' s) -> (forall a s, Q' a s -> Q a s) -> safe P m Q.
Proof. intros Hm Hp Hq s Hs. destruct (Hm s (Hp s Hs)) as (a & s' & ? & ?). exists a, s'. auto. Qed.
Lemma safe_pre {A} (P P' : tcp -> Prop) (m : M A) Q : (forall s, P s -> P' s) -> safe P' m Q -> safe P m Q.
Proof. intros Hp Hm s Hs. by apply Hm, Hp. Qed.
Lemma safe_state_is {B} (P : tcp -> Prop) (k : tcp -> M B) R :
  (forall s0, P s0 -> safe (fun s => s = s0) (k s0) R) -> safe P (state_is ≫= k) R.
Proof. intros Hk s Hs. by apply (Hk s Hs). Qed.
Lemma safe_skip {A B} (P : tcp -> Prop) (a : A) (k : A -> M B) R : safe P (k a) R -> safe P (mret a ≫= k) R.
Proof. done. Qed.
Lemma safe_now {B} (P : tcp -> Prop) (k : Z -> M B) R : (forall now, safe P (k now) R) -> safe P (now_m ≫= k) R.
Proof. intros Hk s Hs. by apply (Hk _). Qed.
Lemma safe_pull {A} (X : Prop) (P : tcp -> Prop) (m : M A) Q : (X -> safe P m Q) -> safe (fun s => X /\ P s) m Q.
Proof. intros H s [HX Hs]. by apply H. Qed.
Lemma safe_ex {A T} (P : T -> tcp -> Prop) (m : M A) Q : (forall x, safe (P x) m Q) -> safe (fun s => exists x, P x s) m Q.
Proof. intros H s [x Hs]. by apply (H x). Qed.
Lemma safe_when (P : tcp -> Prop) b (m : M unit) (Q : unit -> tcp -> Prop) :
  (b = true -> safe P m Q) -> (b = false -> forall s, P s -> Q tt s) -> safe P (whenM b m) Q.
Proof. destruct b; intros H1 H2; [by apply H1 | by apply safe_ret, H2]. Qed.
Lemma safe_each (P : list Z -> tcp -> Prop) body ps :
  (forall p ps, safe (P (p :: ps)) (body p) (fun _ => P ps)) -> safe (P ps) (each body ps) (fun _ => P []).
Proof.
  intros Hb. induction ps as [|p ps IH]; [by apply safe_ret|]. cbn. eapply safe_bind; [apply Hb | intros []; apply IH].
Qed.

(** ** The steps *)

Lemma safe_deref {B} F S I L p (k : tcp_connection_t -> M B) R :
  p ∈ I.*1 -> (forall c, self c = p -> (p, own c) ∈ I -> safe (shape F S I L) (k c) R) -> safe (shape F S I L) (deref p ≫= k) R.
Proof.
  intros Hp Hk s Hs. destruct (shape_at _ _ _ _ _ _ Hs Hp) as (c & l1 & l2 & E & Hc & Hin & Hat & _).
  unfold mbind, M_bind, deref. rewrite Hat. by apply (Hk c Hc Hin s).
Qed.

(** An action on a connection that may change its owner. *)
Lemma safe_on_conn_own {A} F S I L p (m : act A) f :
  tidy m -> keeps self m -> (forall s, own (m s).2.1 = f (own s.1)) -> p ∈ I.*1 ->
  safe (shape F S I L) (on_conn p m) (fun a s => (exists c g, (p, own c) ∈ I /\ a = (m (c, g)).1) /\ shape F S (own_at p f I) L s).
Proof.
  intros Ht Hself Hown Hp s Hs. destruct (shape_at _ _ _ _ _ _ Hs Hp) as (c & l1 & l2 & E & Hc & Hin & Hat & H1 & H2).
  unfold on_conn. rewrite Hat. destruct (m (c, t_glob s)) as [a [c' g']] eqn:Em.
  assert (self c' = p) as Hc' by (rewrite <- Hc; specialize (Hself (c, t_glob s)); by rewrite Em in Hself).
  assert (own c' = f (own c)) as Ho by (specialize (Hown (c, t_glob s)); by rewrite Em in Hown).
  exists a. eexists. split; [done|]. split; [exists c, (t_glob s); by rewrite Em|].
  assert (put_conn c' (tcp_connections s) = l1 ++ c' :: l2) as Hput.
  { unfold put_conn. rewrite E, fmap_app, fmap_cons, Hc', Hc, Z.eqb_refl. f_equal; [by apply (map_skip (fun d => self d =? p) (fun _ => c'))|].
    f_equal. by apply (map_skip (fun d => self d =? p) (fun _ => c')). }
  destruct Hs as [Hm Hi Hl]. constructor; cbn [t_glob tcp_connections tcp_sockets set_connections set_glob]; [| |done].
  - rewrite Hput, list_blocks_mid, <- app_assoc. specialize (Ht F (list_blocks (l1 ++ l2) ++ S) c (t_glob s)). rewrite Em in Ht. apply Ht.
    by rewrite E, list_blocks_mid, <- app_assoc in Hm.
  - assert (forall l, Forall (fun d => (self d =? p) = false) l -> own_at p f (ident <$> l) = ident <$> l) as Hskip.
    { intros l Hf. apply map_skip. by apply Forall_fmap. }
    rewrite Hput, <- Hi, E, !fmap_app, !fmap_cons. unfold own_at. rewrite fmap_app, fmap_cons.
    setoid_rewrite (Hskip l1 H1). setoid_rewrite (Hskip l2 H2). cbn. rewrite Hc, Z.eqb_refl. unfold ident. by rewrite Hc', Ho.
Qed.

Lemma own_at_id p I : own_at p (fun o => o) I = I.
Proof. unfold own_at. rewrite <- (list_fmap_id I) at 2. apply list_fmap_ext. intros _ [q o] _. by case_if. Qed.

Lemma safe_on_conn_result {A} F S I L p (m : act A) :
  tidy m -> keeps ident m -> p ∈ I.*1 ->
  safe (shape F S I L) (on_conn p m) (fun a s => (exists c g, (p, own c) ∈ I /\ a = (m (c, g)).1) /\ shape F S I L s).
Proof.
  intros Ht Hk Hp. eapply safe_conseq; [apply (safe_on_conn_own F S I L p m (fun o => o)) | done | intros a s; by rewrite own_at_id]; try done;
    intros s; specialize (Hk s); by injection Hk.
Qed.
Lemma safe_on_conn {A} F S I L p (m : act A) :
  tidy m -> keeps ident m -> p ∈ I.*1 -> safe (shape F S I L) (on_conn p m) (fun _ => shape F S I L).
Proof. intros Ht Hk Hp. eapply safe_conseq; [by apply safe_on_conn_result | done | by intros a s [_ H]]. Qed.
Lemma safe_own F S I L p u f :
  (forall c, self (u c) = self c) -> (forall c, own (u c) = f (own c)) -> (forall c, conn_blocks (u c) = conn_blocks c) -> p ∈ I.*1 ->
  safe (shape F S I L) (updM p u) (fun _ => shape F S (own_at p f I) L).
Proof.
  intros H1 H2 H3 Hp. eapply safe_conseq; [|done|].
  - apply (safe_on_conn_own F S I L p (upd u) f); [by apply tidy_upd | by apply keeps_upd | | done]. intros [c g]. apply H2.
  - by intros a s [_ H].
Qed.
Lemma safe_upd F S I L p u :
  (forall c, ident (u c) = ident c) -> (forall c, conn_blocks (u c) = conn_blocks c) -> p ∈ I.*1 ->
  safe (shape F S I L) (updM p u) (fun _ => shape F S I L).
Proof. intros H1 H2 Hp. by apply safe_on_conn; [apply tidy_upd | apply keeps_upd |]. Qed.

Lemma safe_destroy F S I L p : p ∈ I.*1 ->
  safe (shape F S I L) (tcp_destroy_connection_locked p) (fun _ => shape F S (without p I) L).
Proof.
  intros Hp s Hs. destruct (shape_at _ _ _ _ _ _ Hs Hp) as (c & l1 & l2 & E & Hc & Hin & Hat & H1 & H2).
  unfold tcp_destroy_connection_locked, mbind, M_bind, on_conn. rewrite Hat.
  destruct Hs as [Hm Hi Hl]. rewrite E, list_blocks_mid, <- app_assoc in Hm.
  pose proof (release_mem F _ c (t_glob s) Hm) as Hr. pose proof (keeps_release (c, t_glob s)) as Hself.
  destruct (release (c, t_glob s)) as [[] [c' g']]. cbn [fst snd] in *.
  exists tt. eexists. split; [done|].
  assert (List.filter (fun d => negb (self d =? p)) (put_conn c' (tcp_connections s)) = l1 ++ l2) as Hf.
  { unfold put_conn. rewrite E, fmap_app, fmap_cons, Hself, Hc, Z.eqb_refl, List.filter_app. cbn. rewrite Hself, Hc, Z.eqb_refl. cbn.
    rewrite !(map_skip (fun d => self d =? p) (fun _ => c')) by done. by rewrite !(filter_skip (fun d => self d =? p)) by done. }
  constructor; cbn [t_glob tcp_connections tcp_sockets set_connections set_glob]; [by rewrite Hf | | done].
  rewrite Hf, <- Hi, E, !fmap_app, fmap_cons. unfold without. rewrite List.filter_app. cbn. rewrite Hc, Z.eqb_refl. cbn.
  f_equal; symmetry; apply (filter_skip (fun x => x.1 =? p)); by apply Forall_fmap.
Qed.

Lemma safe_glob {A} F S I L (f : glob -> A * glob) : (forall g, g_world (f g).2 = g_world g) ->
  safe (shape F S I L) (globally f) (fun _ => shape F S I L).
Proof.
  intros Hf s [Hm Hi Hl]. unfold globally. specialize (Hf (t_glob s)). destruct (f (t_glob s)) as [a g]. exists a. eexists. split; [done|].
  constructor; [|done|done]. cbn in *. by rewrite Hf.
Qed.
Lemma safe_event F S I L e : safe (shape F S I L) (event e) (fun _ => shape F S I L).
Proof. by apply safe_glob. Qed.

Lemma safe_tworld {A} F S S' I L (f : W -> A * W) (Q : A -> Prop) :
  (forall w B, mem_ok F w (B ++ S) -> mem_ok F (f w).2 (B ++ S') /\ Q (f w).1) ->
  safe (shape F S I L) (tworld f) (fun a s => Q a /\ shape F S' I L s).
Proof.
  intros Hf s [Hm Hi Hl]. unfold tworld, globally. destruct (Hf _ _ Hm) as [Hm' HQ].
  destruct (f (g_world (t_glob s))) as [a w]. exists a. eexists. split; [done|]. by split.
Qed.
Lemma safe_free F S I L p n : safe (shape F ((p, n) :: S) I L) (tworld (fun w => (tt, hp_kfree p w))) (fun _ => shape F S I L).
Proof.
  eapply safe_conseq; [apply (safe_tworld F ((p, n) :: S) S I L _ (fun _ => True)) | done | by intros ? ? [_ H]].
  intros w B Hm. split; [|done]. cbn [snd]. eapply (owned_free _ _ _ p n), owned_perm; [exact Hm | solve_Permutation].
Qed.
Lemma safe_alloc {B} F S I L n (k : Z -> M B) R : 0 <= n ->
  safe (shape F S I L) (k 0) R -> (forall p, p <> 0 -> p ∉ I.*1 -> safe (shape F ((p, n) :: S) I L) (k p) R) ->
  safe (shape F S I L) (tworld (hp_kalloc n) ≫= k) R.
Proof.
  intros Hn H0 Hp s Hs. pose proof Hs as [Hm Hi Hl]. unfold mbind, M_bind, tworld, globally.
  destruct (hp_kalloc n (g_world (t_glob s))) as [p w] eqn:Ea. pose proof (owned_alloc _ _ _ _ _ _ Hm Hn Ea) as Hm'.
  destruct (Z.eqb_spec p 0) as [->|Hne]; [by apply H0|].
  apply Hp; [done | | constructor; [|done|done]; eapply owned_perm; [exact Hm'|]; cbn; solve_Permutation].
  rewrite (shape_keys _ _ _ _ _ Hs). intros Hin. apply (mo_nodup _ _ _) in Hm'. cbn in Hm'. apply NoDup_cons in Hm' as [Hp' _].
  apply Hp'. rewrite fmap_app. apply elem_of_app. left. eapply elem_of_sublist; [exact Hin | apply list_blocks_selfs].
Qed.

Definition nobody : own_t := mk_own false false false false false.

Definition created (F : Z -> Z -> Prop) (S : list (Z * Z)) (I : idents) (L : list (Z * tcp_socket_t)) (p : Z) (s : tcp) : Prop :=
  (p = 0 /\ shape F S I L s) \/
  (p <> 0 /\ (p ∉ I.*1) /\ zlen I < TCP_MAX_CONNECTIONS /\ shape F S ((p, nobody) :: I) L s).

(** Nothing is leaked when a part of the connection cannot be allocated. *)
Lemma safe_create F S I L lip lport rip rport :
  safe (shape F S I L) (tcp_create_connection lip lport rip rport) (created F S I L).
Proof.
  unfold tcp_create_connection. apply safe_state_is. intros s0 Hs0. case_if; [apply safe_ret; intros s ->; by left|].
  assert (zlen I < TCP_MAX_CONNECTIONS) as Hmax.
  { bool_hyps. rewrite <- (sh_ident _ _ _ _ _ Hs0). unfold zlen in *. rewrite length_fmap. lia. }
  apply (safe_pre _ (shape F S I L)); [by intros s ->|]. clear Hs0.
  apply safe_alloc; [done | apply safe_ret; by left |]. intros p Hp Hnew. rewrite (proj2 (Z.eqb_neq _ _) Hp).
  assert (forall sb rb, sb <> 0 -> rb <> 0 -> safe (shape F ((rb, TCP_RECV_BUFFER_SIZE) :: (sb, TCP_DEFAULT_BUFFER_SIZE) :: (p, conn_size) :: S) I L)
    (now ← now_m; _ ← modify (fun s => set_connections (new_conn p sb rb now lip lport rip rport :: tcp_connections s) s); mret p) (created F S I L)) as Hgood.
  { intros sb rb Hsb Hrb. apply safe_now. intros now s [Hm Hi Hl]. exists p. eexists. split; [done|]. right. split; [done|]. split; [done|]. split; [done|].
    constructor; cbn [t_glob tcp_connections tcp_sockets set_connections]; [|by rewrite <- Hi|done]. eapply owned_perm; [exact Hm|].
    unfold list_blocks. cbn [fmap list_fmap concat]. unfold conn_blocks at 2, ptr_block. cbn [self send_buffer recv_buffer recv_buffer_size rx tx retransmit_queue new_conn].
    rewrite (proj2 (Z.eqb_neq _ _) Hsb), (proj2 (Z.eqb_neq _ _) Hrb). unfold queue_blocks. cbn. solve_Permutation. }
  apply safe_alloc; [done | |].
  - apply safe_alloc; [done | |].
    + cbn. do 2 apply safe_skip. eapply safe_bind; [apply safe_free|]. intros []. apply safe_ret. by left.
    + intros rb Hrb _. rewrite (proj2 (Z.eqb_neq _ _) Hrb). cbn. apply safe_skip. eapply safe_bind; [apply safe_free|]. intros [].
      eapply safe_bind; [apply safe_free|]. intros []. apply safe_ret. by left.
  - intros sb Hsb _. apply safe_alloc; [done | |].
    + rewrite (proj2 (Z.eqb_neq _ _) Hsb). cbn. eapply safe_bind; [apply safe_free|]. intros []. apply safe_skip.
      eapply safe_bind; [apply safe_free|]. intros []. apply safe_ret. by left.
    + intros rb Hrb _. rewrite (proj2 (Z.eqb_neq _ _) Hsb), (proj2 (Z.eqb_neq _ _) Hrb). cbn [negb orb whenM]. by apply Hgood.
Qed.
End shape.
