(* ===== verification/TcpSafe.v ===== *)
(** * TCP: connections and sockets are used only while they are allocated

    Every entry point of src/net_tcp.c over the connection list and the
    sockets, and every sequence of frames, timer ticks and calls. *)
From S2P Require Import Prelude Heap TcpRecv TcpConn TcpSeg Tcp TcpTable TcpFrame TcpMem TcpShape.

Section entry.
Context {W : Type} `{!KHeap W} `{!KHeapLaws W} `{!NetDown W} `{!NetDownLaws W}.
Abbreviation act := (act (W := W)).
Abbreviation tcp := (tcp (W := W)).
Abbreviation M := (M (W := W)).
Context (F : Z -> Z -> Prop) (S : list (Z * Z)).

Definition inv (K : list Z) (L : list (Z * tcp_socket_t)) (s : tcp) : Prop := exists I, idents_ok I K /\ shape F S I L s.

Lemma held_key I K p : idents_ok I K -> p ∈ K -> p ∈ I.*1.
Proof. intros Hok Hp. destruct (io_held _ _ Hok p Hp) as (o & Hin & _). apply list_elem_of_fmap. by exists (p, o). Qed.
Lemma in_key (I : idents) p o : (p, o) ∈ I -> p ∈ I.*1.
Proof. intros Hin. apply list_elem_of_fmap. by exists (p, o). Qed.
Lemma without_key I p q : q ∈ I.*1 -> q <> p -> q ∈ (without p I).*1.
Proof. intros ([? o] & -> & Hin)%list_elem_of_fmap Hne. apply (in_key _ _ o), without_in. done. Qed.
Lemma own_ok_nobody : own_ok nobody.
Proof. done. Qed.
Hint Resolve own_ok_nobody : core.

(** ** Loops over the list *)

Definition walking (K : list Z) (L : list (Z * tcp_socket_t)) (I0 : idents -> Prop) (ps : list Z) (s : tcp) : Prop :=
  exists I, (idents_ok I K /\ NoDup ps /\ ps ⊆ I.*1 /\ I0 I) /\ shape F S I L s.

Lemma safe_walk K L I0 body :
  (forall I p ps, idents_ok I K -> NoDup (p :: ps) -> (p :: ps) ⊆ I.*1 -> I0 I ->
     safe (shape F S I L) (body p) (fun _ => walking K L I0 ps)) ->
  forall I s0, idents_ok I K -> I0 I -> shape F S I L s0 ->
  safe (shape F S I L) (each body (self <$> tcp_connections s0)) (fun _ s => exists I, I0 I /\ idents_ok I K /\ shape F S I L s).
Proof.
  intros Hb I s0 Hok HI Hs0. eapply safe_conseq.
  - apply (safe_each (walking K L I0)). intros p ps. apply safe_ex. intros I'. apply safe_pull. intros (H1 & H2 & H3 & H4). by apply Hb.
  - intros s Hs. exists I. split; [|done]. rewrite <- (shape_keys _ _ _ _ _ Hs0). split; [done|]. split; [apply Hok|]. done.
  - intros [] s (I' & (H1 & _ & _ & H4) & Hs). by exists I'.
Qed.

Lemma safe_walk_inv K L body :
  (forall I p ps, idents_ok I K -> NoDup (p :: ps) -> (p :: ps) ⊆ I.*1 ->
     safe (shape F S I L) (body p) (fun _ => walking K L (fun _ => True) ps)) ->
  forall I s0, idents_ok I K -> shape F S I L s0 ->
  safe (shape F S I L) (each body (self <$> tcp_connections s0)) (fun _ => inv K L).
Proof.
  intros Hb I s0 Hok Hs0. eapply safe_conseq; [apply (safe_walk K L (fun _ => True)) with (I := I); try done; intros; by apply Hb | done |].
  intros [] s (I' & _ & ? & ?). by exists I'.
Qed.

(** Dropping a connection that no socket holds, in a loop. *)
Lemma walk_destroy K L I0 I p ps :
  idents_ok I K -> NoDup (p :: ps) -> (p :: ps) ⊆ I.*1 -> p ∉ K -> I0 (without p I) ->
  safe (shape F S I L) (tcp_destroy_connection_locked p) (fun _ => walking K L I0 ps).
Proof.
  intros Hok [Hp Hnd]%NoDup_cons Hsub HpK HI. eapply safe_conseq; [apply safe_destroy, Hsub; by left | done |].
  intros [] s Hs. exists (without p I). split; [|done]. split; [by apply idents_without|]. split; [done|]. split; [|done].
  intros q Hq. apply without_key; [apply Hsub; by right | by intros ->].
Qed.
Lemma walk_on K L I0 I p ps : idents_ok I K -> NoDup (p :: ps) -> (p :: ps) ⊆ I.*1 -> I0 I ->
  forall s, shape F S I L s -> walking K L I0 ps s.
Proof.
  intros Hok [Hp Hnd]%NoDup_cons Hsub HI s Hs. exists I. split; [|done]. split; [done|]. split; [done|]. split; [|done].
  intros q Hq. apply Hsub. by right.
Qed.

Lemma safe_cleanup K L : safe (inv K L) tcp_cleanup_stale_connections (fun _ => inv K L).
Proof.
  unfold tcp_cleanup_stale_connections. apply safe_state_is. intros s0 (I & Hok & Hs0). apply safe_now. intros now.
  apply (safe_pre _ (shape F S I L)); [by intros s ->|]. apply (safe_walk_inv K L) with (I := I); [|done..].
  clear I Hok s0 Hs0. intros I p ps Hok Hnd Hsub.
  apply safe_deref; [apply Hsub; by left|]. intros c Hc Hin. apply safe_when; intros E; [|intros s Hs; by eapply walk_on].
  apply walk_destroy; try done. apply (idents_not_held I K p (own c)); [done | done |].
  unfold stale in E. intros (Ho & _). by rewrite Ho in E.
Qed.

Lemma safe_retransmit K L : safe (inv K L) tcp_retransmit_check (fun _ => inv K L).
Proof.
  unfold tcp_retransmit_check. apply safe_state_is. intros s0 (I & Hok & Hs0). apply safe_now. intros now.
  apply (safe_pre _ (shape F S I L)); [by intros s ->|]. apply (safe_walk_inv K L) with (I := I); [|done..].
  clear I Hok s0 Hs0. intros I p ps Hok Hnd Hsub.
  eapply safe_conseq; [apply safe_on_conn; [apply tidy_retransmit_conn | apply ident_retransmit_conn | apply Hsub; by left] | done |].
  intros [] s Hs. by eapply walk_on.
Qed.

(** ** Opening *)

Lemma pick_ephemeral_world ip cs (g : glob (W := W)) : g_world (tcp_pick_ephemeral ip cs g).2 = g_world g.
Proof.
  assert (forall n (g : glob (W := W)), g_world (pick_port n ip cs g).2 = g_world g) as Hp.
  { intros n. induction n as [|n IH]; intros g'; [done|]. cbn [pick_port]. cbv zeta. destruct (port_used _ _ _); [by rewrite IH | done]. }
  unfold tcp_pick_ephemeral. cbv zeta. rewrite Hp. by destruct (_ =? _).
Qed.
Lemma new_isn_world (g : glob (W := W)) : g_world (tcp_new_isn g).2 = g_world g.
Proof. unfold tcp_new_isn. by destruct (_ =? _). Qed.

(** A connection that nobody holds yet, or the null pointer. *)
Definition opened (K : list Z) (L : list (Z * tcp_socket_t)) (p : Z) (s : tcp) : Prop :=
  exists I, (idents_ok I K /\ (p = 0 \/ p <> 0 /\ (p, nobody) ∈ I /\ p ∉ K)) /\ shape F S I L s.

Lemma created_opened I K L p s : idents_ok I K -> created F S I L p s -> opened K L p s.
Proof.
  intros Hok [[-> Hs]|(Hp & Hnew & Hmax & Hs)]; [exists I; auto|].
  exists ((p, nobody) :: I). split; [|done]. split; [by apply idents_new|]. right. split; [done|]. split; [by left|].
  intros HK. by apply Hnew, (held_key I K).
Qed.

Lemma safe_tcp_connect K L ip port cb : safe (inv K L) (tcp_connect ip port cb) (opened K L).
Proof.
  unfold tcp_connect. apply safe_state_is. intros s0 (I & Hok & Hs0). cbv zeta. apply (safe_pre _ (shape F S I L)); [by intros s ->|].
  eapply safe_bind; [apply safe_glob; intros; apply pick_ephemeral_world|]. intros lport.
  destruct (lport =? 0); [apply safe_ret; intros s Hs; exists I; auto|].
  eapply safe_bind; [apply safe_create|]. intros p. apply (safe_pre _ (opened K L p)); [intros s; by apply created_opened|].
  apply safe_ex. intros J. apply safe_pull. intros [HJ HpJ].
  destruct (Z.eqb_spec p 0) as [->|Hp]; [apply safe_ret; intros s Hs; exists J; auto|].
  destruct HpJ as [->|(_ & Hin & HpK)]; [done|]. pose proof (in_key _ _ _ Hin) as Hkey.
  eapply safe_bind; [apply safe_glob, new_isn_world|]. intros isn.
  eapply safe_bind; [apply safe_on_conn; [apply tidy_connect_conn | apply ident_connect_conn | done]|]. intros rc.
  case_if; [apply safe_ret; intros s Hs; exists J; auto 7|].
  eapply safe_bind; [apply safe_on_conn; [apply tidy_flush | apply keeps_flush, _ | done]|]. intros [].
  eapply safe_bind; [by apply safe_destroy|]. intros []. apply safe_ret. intros s Hs. exists (without p J). split; [|done].
  split; [by apply idents_without | by left].
Qed.

(** ** Closing *)

Lemma safe_close_state K L I p st :
  idents_ok I K -> p ∉ K -> p ∈ I.*1 ->
  safe (shape F S I L)
    (match st with
     | TCP_STATE_ESTABLISHED => on_conn p (_ ← upd (set_state TCP_STATE_FIN_WAIT_1); send_fin)
     | TCP_STATE_CLOSE_WAIT => on_conn p (_ ← upd (set_state TCP_STATE_LAST_ACK); send_fin)
     | TCP_STATE_LAST_ACK => mret tt
     | _ => tcp_destroy_connection_locked p
     end) (fun _ => inv K L).
Proof.
  intros Hok HpK Hp.
  assert (safe (shape F S I L) (tcp_destroy_connection_locked p) (fun _ => inv K L)).
  { eapply safe_conseq; [by apply safe_destroy | done |]. intros [] s Hs. exists (without p I). split; [by apply idents_without | done]. }
  assert (forall st, safe (shape F S I L) (on_conn p (_ ← upd (set_state st); send_fin)) (fun _ => inv K L)).
  { intros st'. eapply safe_conseq; [apply safe_on_conn | done | intros [] s Hs; by exists I]; [| |done].
    - apply tidy_bind; [by apply tidy_upd | intros; apply tidy_send_fin].
    - apply keeps_seq; [by apply keeps_upd | intros; apply keeps_send_fin, _]. }
  destruct st; try done. apply safe_ret. intros s Hs. by exists I.
Qed.

Lemma safe_tcp_close K K' L I p :
  idents_ok I K -> NoDup K' -> K' ⊆ K -> p ∉ K' -> p ∈ I.*1 -> safe (shape F S I L) (tcp_close p) (fun _ => inv K' L).
Proof.
  intros Hok0 Hnd Hsub HpK Hp. pose proof (idents_fewer _ _ _ Hok0 Hnd Hsub) as Hok. unfold tcp_close.
  destruct (p =? 0); [apply safe_ret; intros s Hs; by exists I|].
  eapply safe_bind; [by apply safe_own with (f := fun o => set_half_close false (set_owned false (if owned o then set_disowned true o else o)))|].
  intros []. set (J := own_at p _ I).
  assert (idents_ok J K') as HJ.
  { apply idents_own_at; [done|]. intros o Hin. split; [|done]. intros Hu Ha. cbn in *.
    pose proof (proj1 (Forall_forall _ _) (io_own _ _ Hok) _ Hin) as Ho. unfold own_ok in Ho. cbn in Ho.
    destruct (owned o) eqn:Eo; cbn in *; [destruct Ho; done|]. split; [done|]. by apply Ho. }
  assert (p ∈ J.*1) as HpJ by (unfold J; by rewrite own_at_keys). clearbody J. clear I Hok0 Hok Hp.
  apply safe_deref; [done|]. intros c Hc Hin. apply safe_state_is. intros s0 Hs0. apply (safe_pre _ (shape F S J L)); [by intros s ->|].
  apply safe_bind with (Q := fun _ s => exists I, (p ∈ I.*1 /\ idents_ok I K') /\ shape F S I L s).
  - apply safe_when; intros _; [|intros s Hs; by exists J].
    eapply safe_conseq; [apply safe_walk with (I0 := fun I => p ∈ I.*1) (K := K') (I := J); [|done..] | done | intros [] s (I & ? & ? & ?); by exists I].
    intros I q qs HI Hqnd Hqs HpI. apply safe_deref; [apply Hqs; by left|]. intros d Hd Hdin. apply safe_when; intros E; [|intros s Hs; by eapply walk_on].
    unfold orphan_of in E. bool_hyps. apply walk_destroy; try done.
    + apply (idents_not_held I K' q (own d)); [done | done |]. unfold sock_owned. intros (_ & _ & Hacc). rewrite Hacc in *; done.
    + apply without_key; [done|]. subst. done.
  - intros []. apply safe_ex. intros I. apply safe_pull. intros [HpI HI].
    eapply safe_bind; [by apply safe_close_state|]. intros []. by apply safe_ret.
Qed.

(** ** A frame *)

Lemma safe_send_rst I L lip lport rip rport seq ack flags :
  safe (shape F S I L) (tcp_send_rst_raw lip lport rip rport seq ack flags) (fun _ => shape F S I L).
Proof.
  unfold tcp_send_rst_raw. eapply safe_bind.
  - apply (safe_tworld F S S I L _ (fun _ => True)). intros w B Hm. split; [by apply owned_send | done].
  - intros rc. apply safe_ret. by intros s [_ Hs].
Qed.

(** The receive path has a connection, or nothing to do. *)
Definition found (K : list Z) (L : list (Z * tcp_socket_t)) (p : Z) (s : tcp) : Prop :=
  exists I, (idents_ok I K /\ (p = 0 \/ p ∈ I.*1)) /\ shape F S I L s.

Lemma opened_then K L p u f :
  (forall c, self (u c) = self c) -> (forall c, own (u c) = f (own c)) -> (forall c, conn_blocks (u c) = conn_blocks c) -> own_ok (f nobody) ->
  safe (opened K L p) (if p =? 0 then mret 0 else _ ← updM p u; mret p) (found K L).
Proof.
  intros H1 H2 H3 Hf. apply safe_ex. intros I. apply safe_pull. intros [Hok Hp]. destruct (Z.eqb_spec p 0) as [->|Hne].
  - apply safe_ret. intros s Hs. exists I. auto.
  - destruct Hp as [->|(_ & Hin & HpK)]; [done|]. eapply safe_bind; [apply safe_own with (f := f); try done; by eapply in_key|].
    intros []. apply safe_ret. intros s Hs. exists (own_at p f I). split; [|done]. split; [|right; rewrite own_at_keys; by eapply in_key].
    apply idents_own_at; [done|]. intros o Ho. split; [|done]. rewrite (idents_functional I p o nobody); [done | apply Hok | done | done].
Qed.

Lemma find_self (f : tcp_connection_t -> bool) I L s :
  shape F S I L s -> match List.find f (tcp_connections s) with Some c => (self c, own c) ∈ I | None => True end.
Proof.
  intros Hs. destruct (List.find f _) as [c|] eqn:E; [|done]. apply find_some in E as [Hin _]. apply list_elem_of_In in Hin.
  rewrite <- (sh_ident _ _ _ _ _ Hs). apply list_elem_of_fmap. by exists c.
Qed.

Lemma safe_rx_conn K L sg : safe (inv K L) (tcp_rx_conn sg) (found K L).
Proof.
  unfold tcp_rx_conn. apply safe_state_is. intros s0 (I & Hok & Hs0). cbv zeta. apply (safe_pre _ (shape F S I L)); [by intros s ->|].
  assert (forall s, shape F S I L s -> found K L 0 s) as Hnone by (intros s Hs; exists I; auto).
  assert (forall lip lport rip rport u f, (forall c, self (u c) = self c) -> (forall c, own (u c) = f (own c)) ->
    (forall c, conn_blocks (u c) = conn_blocks c) -> own_ok (f nobody) ->
    safe (shape F S I L) (p ← tcp_create_connection lip lport rip rport; if p =? 0 then mret 0 else _ ← updM p u; mret p) (found K L)) as Hnew.
  { intros. eapply safe_bind; [apply safe_create|]. intros p. apply (safe_pre _ (opened K L p)); [intros s; by apply created_opened|].
    by eapply opened_then. }
  assert (forall lip lport rip rport seq ack flags,
    safe (shape F S I L) (_ ← tcp_send_rst_raw lip lport rip rport seq ack flags; mret 0) (found K L)) as Hrst.
  { intros. eapply safe_bind; [apply safe_send_rst|]. intros []. by apply safe_ret. }
  unfold tcp_find_connection. pose proof (find_self (conn_matches (sg_dst_ip sg) (sg_dst_port sg) (sg_src_ip sg) (sg_src_port sg)) I L s0 Hs0) as Hf.
  destruct (List.find _ _) as [c|]; cbn [negb].
  - pose proof (in_key _ _ _ Hf) as Hk. rewrite (proj2 (Z.eqb_neq _ _) (shape_nonnull _ _ _ _ _ _ Hs0 Hk)). cbn [negb].
    apply safe_ret. intros s Hs. exists I. auto.
  - cbn [Z.eqb negb]. case_if.
    + destruct (tcp_find_listener _ _) as [[port cb]|]; [by apply (Hnew _ _ _ _ _ (fun o => o))|].
      case_if; [apply Hrst|]. by apply (Hnew _ _ _ _ _ (fun o => set_half_close true (set_user_child true o))).
    + case_if; [by apply safe_ret | apply Hrst].
Qed.

Lemma safe_rx_input K L I frame sg p : idents_ok I K -> p ∈ I.*1 ->
  safe (shape F S I L) (tcp_rx_conn_input frame sg p) (fun _ => inv K L).
Proof.
  intros Hok Hp. unfold tcp_rx_conn_input. assert (forall s, shape F S I L s -> inv K L s) as Hend by (intros s Hs; by exists I).
  apply safe_now. intros now. eapply safe_bind; [by apply safe_upd|]. intros [].
  destruct (tcp_read_header frame sg) as [h|]; [|by apply safe_ret].
  eapply safe_bind; [apply safe_on_conn_result; [apply tidy_tcp_input | apply ident_tcp_input | done]|].
  intros o. apply safe_pull. intros (c & g & Hin & Ho). destruct o as [cb data|].
  - apply safe_bind with (Q := fun _ => shape F S I L); [by apply safe_when; [intros _; apply safe_event|]|]. intros [].
    destruct data as [bytes|]; [|by apply safe_ret]. apply safe_deref; [done|]. intros d _ _.
    apply safe_when; [|done]. intros _. eapply safe_conseq; [apply safe_event | done | by intros []].
  - eapply safe_conseq; [by apply safe_destroy | done |]. intros [] s Hs. exists (without p I). split; [|done].
    apply idents_without; [done|]. apply (idents_not_held I K p (own c)); [done | done |].
    by eapply (spares_tcp_input (own c) h (c, g)).
Qed.

Lemma safe_handle_packet K L frame : safe (inv K L) (tcp_handle_packet frame) (fun _ => inv K L).
Proof.
  unfold tcp_handle_packet. eapply safe_bind with (Q := fun _ => inv K L).
  - unfold tcp_handle_packet_in. destruct (tcp_accept_frame frame) as [sg|]; [|by apply safe_ret].
    eapply safe_bind; [apply safe_rx_conn|]. intros p. apply safe_ex. intros I. apply safe_pull. intros [Hok Hp].
    destruct (Z.eqb_spec p 0) as [->|Hne]; [apply safe_ret; intros s Hs; by exists I|]. destruct Hp; [done|]. by apply safe_rx_input.
  - intros []. apply safe_ex. intros I. apply safe_pull. intros Hok. eapply safe_conseq; [apply safe_event | done | intros [] s Hs; by exists I].
Qed.
End entry.
