(* ===== verification/TcpSock.v ===== *)
(** * TCP: sockets

    The socket layer of src/net_tcp.c, and the safety of every sequence of
    frames, timer ticks and calls. *)
From S2P Require Import Prelude Heap TcpRecv TcpConn TcpSeg Tcp TcpTable TcpFrame TcpMem TcpShape TcpSafe.

Abbreviation sockets := (list (Z * tcp_socket_t)).

Definition sock_blocks (L : sockets) : list (Z * Z) := (fun x => (x.1, sock_size)) <$> L.
Definition handle (x : Z * tcp_socket_t) : list Z := if connection x.2 =? 0 then [] else [connection x.2].
(** The connections that the sockets hold. *)
Definition handles (L : sockets) : list Z := concat (handle <$> L).
Definition put_at (sock : Z) (k : tcp_socket_t) (L : sockets) : sockets := (fun x => if x.1 =? sock then (sock, k) else x) <$> L.
Definition drop_at (sock : Z) (L : sockets) : sockets := List.filter (fun x => negb (x.1 =? sock)) L.

Lemma handles_mid l1 x l2 : handles (l1 ++ x :: l2) ≡ₚ handle x ++ handles (l1 ++ l2).
Proof. unfold handles. rewrite !fmap_app, fmap_cons, !concat_app. cbn [concat]. solve_Permutation. Qed.
Lemma blocks_mid l1 x l2 : sock_blocks (l1 ++ x :: l2) ≡ₚ (x.1, sock_size) :: sock_blocks (l1 ++ l2).
Proof. unfold sock_blocks. rewrite !fmap_app, fmap_cons. by rewrite Permutation_middle. Qed.
Lemma put_blocks sock k L : sock_blocks (put_at sock k L) = sock_blocks L.
Proof.
  unfold sock_blocks, put_at. rewrite <- list_fmap_compose. apply list_fmap_ext. intros _ [q j] _. cbn. by destruct (Z.eqb_spec q sock) as [->|].
Qed.
Lemma blocks_keys L : (sock_blocks L).*1 = L.*1.
Proof. unfold sock_blocks. by rewrite <- list_fmap_compose. Qed.

Lemma idents_perm I K K' : idents_ok I K -> K ≡ₚ K' -> idents_ok I K'.
Proof. intros Hok HK. eapply idents_fewer; [done | rewrite <- HK; apply Hok | intros p; by rewrite HK]. Qed.

Section sockets.
Context {W : Type} `{!KHeap W} `{!KHeapLaws W} `{!NetDown W} `{!NetDownLaws W}.
Abbreviation act := (act (W := W)).
Abbreviation tcp := (tcp (W := W)).
Abbreviation M := (M (W := W)).
Context (F : Z -> Z -> Prop).

Abbreviation sshape I L := (shape F (sock_blocks L) I L).
Definition sinv (L : sockets) (s : tcp) : Prop := inv F (sock_blocks L) (handles L) L s.
Definition tcp_ok (s : tcp) : Prop := exists L, sinv L s.

Lemma shape_perm S S' I L s : S ≡ₚ S' -> shape F S I L s -> shape F S' I L s.
Proof. intros HS [Hm Hi Hl]. constructor; [|done|done]. by rewrite <- HS. Qed.

Lemma sock_split S I L s sock : shape F S I L s -> S = sock_blocks L -> sock ∈ L.*1 ->
  exists k l1 l2, L = l1 ++ (sock, k) :: l2 /\ sock_at sock L = Some k /\
    (forall j, put_at sock j L = l1 ++ (sock, j) :: l2) /\ drop_at sock L = l1 ++ l2.
Proof.
  intros [Hm _ _] -> Hin. apply (mo_nodup _ _ _) in Hm. rewrite fmap_app, blocks_keys in Hm. apply NoDup_app in Hm as (_ & _ & Hnd).
  destruct (key_split fst sock L Hnd Hin) as ([q k] & l1 & l2 & -> & Hq & H1 & H2). cbn in Hq. subst q. exists k, l1, l2.
  split; [done|]. split; [|split; [intros j|]].
  - unfold sock_at. rewrite find_skip by done. cbn. by rewrite Z.eqb_refl.
  - unfold put_at. rewrite fmap_app, fmap_cons. cbn [fst]. rewrite Z.eqb_refl.
    by rewrite !(map_skip (fun x => x.1 =? sock) (fun _ => (sock, j))) by done.
  - unfold drop_at. rewrite List.filter_app. cbn [List.filter fst]. rewrite Z.eqb_refl. cbn [negb].
    by rewrite !(filter_skip (fun x => x.1 =? sock)) by done.
Qed.

Lemma safe_sock_is {B} I L sock (k : tcp_socket_t -> M B) R :
  sock ∈ L.*1 ->
  (forall j l1 l2, L = l1 ++ (sock, j) :: l2 -> (forall j, put_at sock j L = l1 ++ (sock, j) :: l2) -> drop_at sock L = l1 ++ l2 ->
     safe (sshape I L) (k j) R) ->
  safe (sshape I L) (sock_is sock ≫= k) R.
Proof.
  intros Hin Hk s Hs. destruct (sock_split _ _ _ _ _ Hs eq_refl Hin) as (j & l1 & l2 & E & Hat & Hput & Hdrop).
  unfold mbind, M_bind, sock_is. rewrite (sh_sockets _ _ _ _ _ Hs), Hat. by apply (Hk j l1 l2).
Qed.

Lemma safe_put_sock I L sock k : safe (sshape I L) (put_sock sock k) (fun _ => sshape I (put_at sock k L)).
Proof.
  intros s [Hm Hi Hl]. exists tt. eexists. split; [done|]. constructor; cbn; [by rewrite put_blocks | done |]. by rewrite Hl.
Qed.

(** The connection of a socket. *)
Lemma safe_sock_conn L sock : (sock = 0 \/ sock ∈ L.*1) -> safe (sinv L) (sock_conn sock) (found F (sock_blocks L) (handles L) L).
Proof.
  intros Hsock. apply safe_ex. intros I. apply safe_pull. intros Hok. unfold sock_conn.
  destruct (Z.eqb_spec sock 0) as [->|Hne]; [apply safe_ret; intros s Hs; exists I; auto|]. destruct Hsock as [|Hin]; [done|].
  apply safe_sock_is; [done|]. intros j l1 l2 E _ _. apply safe_ret. intros s Hs. exists I. split; [|done]. split; [done|].
  destruct (Z.eqb_spec (connection j) 0) as [|Hj]; [by left|right]. apply (held_key I (handles L)); [done|].
  rewrite E, handles_mid. unfold handle. cbn [snd]. rewrite (proj2 (Z.eqb_neq _ _) Hj). by left.
Qed.

(** A fresh connection is given to a socket. *)
Lemma safe_attach I L sock fd p u f :
  idents_ok I (handles L) -> sock ∈ L.*1 -> p <> 0 -> (p, nobody) ∈ I -> p ∉ handles L ->
  (forall c, self (u c) = self c) -> (forall c, own (u c) = f (own c)) -> (forall c, conn_blocks (u c) = conn_blocks c) ->
  own_ok (f nobody) -> sock_owned (f nobody) ->
  safe (sshape I L) (_ ← updM p u; _ ← sock_is sock; _ ← put_sock sock (mk_sock fd p); mret 0) (fun _ => tcp_ok).
Proof.
  intros Hok Hsock Hp Hin HpK H1 H2 H3 Hown Hheld. eapply safe_bind; [apply safe_own with (f := f); try done; by eapply in_key|]. intros [].
  apply safe_sock_is; [done|]. intros j l1 l2 E Hput _. eapply safe_bind; [apply safe_put_sock|]. intros [].
  apply safe_ret. intros s Hs. eexists. eexists. split; [|exact Hs].
  assert (idents_ok (own_at p f I) (handles L)) as HI.
  { apply idents_own_at; [done|]. intros o Ho. split; [|done]. rewrite (idents_functional I p o nobody); [done | apply Hok | done | done]. }
  rewrite E, handles_mid in HpK. eapply idents_perm with (K := p :: handles (l1 ++ l2)).
  - eapply idents_hold with (o := f nobody); [| set_solver | apply own_at_in; exists nobody; by rewrite Z.eqb_refl | done].
    eapply idents_fewer; [exact HI | |].
    + pose proof (io_nodup _ _ HI) as Hnd. rewrite E, handles_mid in Hnd. by apply NoDup_app in Hnd as (_ & _ & ?).
    + intros q. rewrite E, handles_mid. set_solver.
  - rewrite Hput, handles_mid. unfold handle. cbn [snd connection]. by rewrite (proj2 (Z.eqb_neq _ _) Hp).
Qed.

Lemma sinv_ok L s : sinv L s -> tcp_ok s.
Proof. by exists L. Qed.
Lemma sshape_ok I L s : idents_ok I (handles L) -> sshape I L s -> tcp_ok s.
Proof. intros HI Hs. exists L, I. done. Qed.

Lemma safe_bind_sock L sock port : (sock = 0 \/ sock ∈ L.*1) -> safe (sinv L) (tcp_socket_bind sock port) (fun _ => tcp_ok).
Proof.
  intros Hsock. unfold tcp_socket_bind. destruct (Z.eqb_spec sock 0) as [->|Hne]; [apply safe_ret; intros s; apply sinv_ok|]. destruct Hsock as [|Hin]; [done|].
  apply safe_state_is. intros s0 (I & Hok & Hs0). apply (safe_pre _ (sshape I L)); [by intros s ->|].
  eapply safe_bind; [apply safe_create|]. intros p. apply (safe_pre _ (opened F (sock_blocks L) (handles L) L p)); [intros s; by apply created_opened|].
  apply safe_ex. intros J. apply safe_pull. intros [HJ HpJ].
  destruct (Z.eqb_spec p 0) as [->|Hp]; [apply safe_ret; intros s; by apply sshape_ok|]. destruct HpJ as [|(_ & HpJ & HpK)]; [done|].
  by eapply safe_attach with (f := set_owned true).
Qed.

Lemma safe_connect_sock L sock ip port : (sock = 0 \/ sock ∈ L.*1) -> safe (sinv L) (tcp_socket_connect sock ip port) (fun _ => tcp_ok).
Proof.
  intros Hsock. unfold tcp_socket_connect. destruct (Z.eqb_spec sock 0) as [->|Hne]; [apply safe_ret; intros s; apply sinv_ok|]. destruct Hsock as [|Hin]; [done|].
  eapply safe_bind; [apply safe_tcp_connect|]. intros p. apply safe_ex. intros J. apply safe_pull. intros [HJ HpJ].
  destruct (Z.eqb_spec p 0) as [->|Hp]; [apply safe_ret; intros s; by apply sshape_ok|]. destruct HpJ as [|(_ & HpJ & HpK)]; [done|].
  by eapply safe_attach with (f := fun o => set_half_close true (set_owned true o)).
Qed.

(** ** Calls on the connection of a socket *)

Lemma safe_on_found L sock {A} (k : Z -> M A) :
  (sock = 0 \/ sock ∈ L.*1) ->
  (forall I p, idents_ok I (handles L) -> p = 0 \/ p ∈ I.*1 -> safe (sshape I L) (k p) (fun _ => tcp_ok)) ->
  safe (sinv L) (p ← sock_conn sock; k p) (fun _ => tcp_ok).
Proof.
  intros Hsock Hk. eapply safe_bind; [by apply safe_sock_conn|]. intros p. apply safe_ex. intros I. apply safe_pull. intros [Hok Hp]. by apply Hk.
Qed.

Lemma safe_then_ret {A B} I L (m : M A) (b : A -> B) :
  idents_ok I (handles L) -> safe (sshape I L) m (fun _ => sshape I L) -> safe (sshape I L) (a ← m; mret (b a)) (fun _ => tcp_ok).
Proof. intros HI Hm. eapply safe_bind; [exact Hm|]. intros a. apply safe_ret. intros s. by apply sshape_ok. Qed.

Lemma safe_listen_sock L sock : (sock = 0 \/ sock ∈ L.*1) -> safe (sinv L) (tcp_socket_listen sock) (fun _ => tcp_ok).
Proof.
  intros Hsock. apply safe_on_found; [done|]. intros I p HI Hp.
  destruct (Z.eqb_spec p 0) as [->|Hne]; [apply safe_ret; intros s; by apply sshape_ok|]. destruct Hp as [|Hp]; [done|].
  apply (safe_then_ret I L _ (fun _ => 0)); [done|]. by apply safe_upd.
Qed.

Lemma safe_on_conn_ok {A} I L p (m : act A) :
  idents_ok I (handles L) -> tidy m -> keeps ident m -> p ∈ I.*1 -> safe (sshape I L) (on_conn p m) (fun _ => tcp_ok).
Proof. intros HI Ht Hk Hp. eapply safe_conseq; [by apply safe_on_conn | done | intros a s; by apply sshape_ok]. Qed.

Lemma safe_send_sock L sock data : (sock = 0 \/ sock ∈ L.*1) -> safe (sinv L) (tcp_socket_send sock data) (fun _ => tcp_ok).
Proof.
  intros Hsock. apply safe_on_found; [done|]. intros I p HI Hp.
  destruct (Z.eqb_spec p 0) as [->|Hne]; [apply safe_ret; intros s; by apply sshape_ok|]. destruct Hp as [|Hp]; [done|].
  apply safe_on_conn_ok; [done | apply tidy_tcp_send | apply keeps_tcp_send, _ | done].
Qed.

Lemma safe_recv_sock L sock n : (sock = 0 \/ sock ∈ L.*1) -> safe (sinv L) (tcp_socket_recv sock n) (fun _ => tcp_ok).
Proof.
  intros Hsock. apply safe_on_found; [done|]. intros I p HI Hp.
  destruct (Z.eqb_spec p 0) as [->|Hne]; [apply safe_ret; intros s; by apply sshape_ok|]. destruct Hp as [|Hp]; [done|].
  apply safe_deref; [done|]. intros c _ _. case_if; [apply safe_ret; intros s; by apply sshape_ok|].
  apply (safe_then_ret I L _ (fun out => (s32 (zlen out), out))); [done|].
  by apply safe_on_conn; [apply tidy_conn_read | apply ident_conn_read |].
Qed.

Lemma safe_ready_sock L sock : (sock = 0 \/ sock ∈ L.*1) -> safe (sinv L) (tcp_socket_accept_ready sock) (fun _ => tcp_ok).
Proof.
  intros Hsock. apply safe_on_found; [done|]. intros I p HI Hp.
  destruct (Z.eqb_spec p 0) as [->|Hne]; [apply safe_ret; intros s; by apply sshape_ok|]. destruct Hp as [|Hp]; [done|].
  apply safe_deref; [done|]. intros c _ _. apply safe_state_is. intros s0 Hs0. apply safe_ret. intros s ->. by eapply sshape_ok.
Qed.

Lemma safe_shutdown_sock L sock : (sock = 0 \/ sock ∈ L.*1) -> safe (sinv L) (tcp_socket_shutdown_wr sock) (fun _ => tcp_ok).
Proof.
  intros Hsock. apply safe_on_found; [done|]. intros I p HI Hp.
  destruct (Z.eqb_spec p 0) as [->|Hne]; [apply safe_ret; intros s; by apply sshape_ok|]. destruct Hp as [|Hp]; [done|].
  apply safe_deref; [done|]. intros c _ _. apply (safe_then_ret I L _ (fun _ => 0)); [done|].
  assert (forall st, safe (sshape I L) (on_conn p (_ ← upd (set_state st); send_fin)) (fun _ => sshape I L)) as Hfin.
  { intros st. apply safe_on_conn; [| |done].
    - apply tidy_bind; [by apply tidy_upd | intros; apply tidy_send_fin].
    - apply keeps_seq; [by apply keeps_upd | intros; apply keeps_send_fin, _]. }
  destruct (state c); try done; by apply safe_ret.
Qed.

(** ** Creating, accepting, closing *)

Lemma safe_create_sock I L : safe (sshape I L) tcp_socket_create (fun p s =>
  (p = 0 /\ sshape I L s) \/ (p <> 0 /\ (p ∉ L.*1) /\ sshape I ((p, mk_sock (-1) 0) :: L) s)).
Proof.
  unfold tcp_socket_create. apply safe_alloc; [done | apply safe_ret; by left |]. intros p Hp _. rewrite (proj2 (Z.eqb_neq _ _) Hp).
  intros s [Hm Hi Hl]. exists p. eexists. split; [done|]. right. split; [done|]. split; [|constructor; cbn; [done | done | by rewrite Hl]].
  apply (mo_nodup _ _ _) in Hm. rewrite fmap_app in Hm. apply NoDup_app in Hm as (_ & _ & [Hnew _]%NoDup_cons). by rewrite blocks_keys in Hnew.
Qed.

Lemma put_fresh p j k L : p ∉ L.*1 -> put_at p k ((p, j) :: L) = (p, k) :: L.
Proof. intros Hp. unfold put_at. cbn. rewrite Z.eqb_refl. f_equal. by apply (map_skip (fun x => x.1 =? p) (fun _ => (p, k))), elsewhere. Qed.

Lemma own_ok_accept o : own_ok o -> user_child o = true -> accepted o = false -> sock_owned (set_owned true (set_accepted true o)).
Proof. intros Ho Hu Ha. destruct (Ho Hu Ha) as [_ Hd]. done. Qed.

Lemma safe_accept_sock L sock : (sock = 0 \/ sock ∈ L.*1) -> safe (sinv L) (tcp_socket_accept sock) (fun _ => tcp_ok).
Proof.
  intros Hsock. apply safe_on_found; [done|]. intros I p HI Hp.
  destruct (Z.eqb_spec p 0) as [->|Hne]; [apply safe_ret; intros s; by apply sshape_ok|]. destruct Hp as [|Hp]; [done|].
  apply safe_deref; [done|]. intros l _ _. apply safe_state_is. intros s0 Hs0. apply (safe_pre _ (sshape I L)); [by intros s ->|].
  pose proof (find_self F (sock_blocks L) (acceptable p (local_port l)) I L s0 Hs0) as Hin. pose proof (find_some (acceptable p (local_port l)) (tcp_connections s0)) as Hfs.
  destruct (List.find _ _) as [c|]; [|apply safe_ret; intros s; by apply sshape_ok].
  destruct (Hfs c eq_refl) as [_ Hacc]. clear Hfs. unfold acceptable in Hacc. bool_hyps.
  assert (self c ∉ handles L) as HcK.
  { apply (idents_not_held I _ _ (own c)); [done | done |]. unfold sock_owned. intros (_ & _ & Ha). rewrite Ha in *; done. }
  pose proof (proj1 (Forall_forall _ _) (io_own _ _ HI) _ Hin) as Hown. cbn in Hown.
  pose proof (shape_nonnull _ _ _ _ _ _ Hs0 (in_key _ _ _ Hin)) as Hc0.
  eapply safe_bind; [apply safe_own with (f := fun o => set_owned true (set_accepted true o)); try done; by eapply in_key|]. intros [].
  set (J := own_at _ _ I). assert (idents_ok J (handles L)) as HJ by (by apply idents_own_at).
  assert ((self c, set_owned true (set_accepted true (own c))) ∈ J) as HcJ by (apply own_at_in; exists (own c); by rewrite Z.eqb_refl).
  clearbody J. eapply safe_bind; [apply safe_create_sock|]. intros ns. destruct (Z.eqb_spec ns 0) as [->|Hns].
  - apply (safe_pre _ (sshape J L)); [by intros s [[_ ?]|[? _]]|]. eapply safe_bind; [eapply safe_tcp_close with (K' := handles L); try done; [apply HJ | by eapply in_key]|].
    intros rc. apply safe_ret. intros s. apply sinv_ok.
  - apply (safe_pre _ (fun s => (ns ∉ L.*1) /\ sshape J ((ns, mk_sock (-1) 0) :: L) s)); [by intros s [[? _]|[_ ?]]|].
    apply safe_pull. intros Hnew. eapply safe_bind; [apply safe_put_sock|]. intros [].
    apply safe_ret. rewrite put_fresh by done. intros s Hs. eapply (sshape_ok J); [|exact Hs].
    change (handles ((ns, mk_sock 1 (self c)) :: L)) with (handle (ns, mk_sock 1 (self c)) ++ handles L). unfold handle. cbn [snd connection].
    rewrite (proj2 (Z.eqb_neq _ _) Hc0). cbn [app]. eapply idents_hold; [done | done | exact HcJ | by apply own_ok_accept].
Qed.

Lemma safe_close_sock L sock : (sock = 0 \/ sock ∈ L.*1) -> safe (sinv L) (tcp_socket_close sock) (fun _ => tcp_ok).
Proof.
  intros Hsock. unfold tcp_socket_close. destruct (Z.eqb_spec sock 0) as [->|Hne]; [apply safe_ret; intros s; apply sinv_ok|]. destruct Hsock as [|Hin]; [done|].
  apply safe_ex. intros I. apply safe_pull. intros HI. apply safe_sock_is; [done|]. intros k l1 l2 E _ Hdrop.
  set (K := handles (l1 ++ l2)). assert (handles L ≡ₚ handle (sock, k) ++ K) as HK by (by rewrite E, handles_mid).
  assert (NoDup (handle (sock, k) ++ K)) as Hnd by (rewrite <- HK; apply HI). apply NoDup_app in Hnd as (_ & Hdis & HndK).
  assert (K ⊆ handles L) as Hsub by (intros q; rewrite HK; set_solver).
  apply safe_bind with (Q := fun _ => inv F (sock_blocks L) K L).
  - apply safe_when; intros Ek; [|intros s Hs; exists I; split; [by eapply idents_fewer | done]].
    assert (connection k ∈ handle (sock, k)) as Hk.
    { unfold handle. cbn [snd]. destruct (connection k =? 0); [done | by left]. }
    eapply safe_bind; [eapply safe_tcp_close with (K' := K); [exact HI | done | done | by apply Hdis | apply (held_key I (handles L)); [done|]; rewrite HK; set_solver]|].
    intros rc. by apply safe_ret.
  - intros []. apply safe_ex. intros J. apply safe_pull. intros HJ. eapply safe_bind.
    { eapply safe_pre; [|apply (safe_free F (sock_blocks (l1 ++ l2)) J L sock sock_size)]. intros s. apply shape_perm. by rewrite E, blocks_mid. }
    intros [] s [Hm Hi Hl]. exists 0. eexists. split; [done|]. eapply (sshape_ok J (l1 ++ l2)); [done|].
    constructor; cbn; [done | done |]. rewrite Hl. exact Hdrop.
Qed.

(** ** Every call *)

Lemma safe_kernel {A} (m : M A) : (forall S K L, safe (inv F S K L) m (fun _ => inv F S K L)) -> forall L, safe (sinv L) m (fun _ => tcp_ok).
Proof. intros Hm L. eapply safe_conseq; [apply Hm | done | intros a s; apply sinv_ok]. Qed.

Lemma safe_tcp_listen L port cb : safe (sinv L) (tcp_listen port cb) (fun _ => tcp_ok).
Proof.
  apply safe_ex. intros I. apply safe_pull. intros HI s [Hm Hi Hl].
  assert (forall ls (rc : Z), exists a s', Some (rc, set_listeners ls s) = Some (a, s') /\ tcp_ok s') as Hset.
  { intros ls rc. exists rc, (set_listeners ls s). split; [done|]. by eapply (sshape_ok I L). }
  assert (forall rc : Z, exists a s', Some (rc, s) = Some (a, s') /\ tcp_ok s') as Hsame.
  { intros rc. exists rc, s. split; [done|]. by eapply (sshape_ok I L). }
  unfold tcp_listen, mbind, M_bind, state_is. case_if; [apply Hsame|]. case_if; [apply Hsame|].
  destruct (tcp_find_listener port (tcp_listeners s)); apply Hset.
Qed.

(** A kernel client's connection: on the list and not held by a socket. *)
Definition kernel_conn (p : Z) (s : tcp) : Prop := p ∈ (self <$> tcp_connections s) /\ p ∉ handles (tcp_sockets s).

Lemma safe_kernel_conn {A} L p (m : Z -> M A) :
  (forall I, idents_ok I (handles L) -> p = 0 \/ p ∈ I.*1 /\ p ∉ handles L -> safe (sshape I L) (m p) (fun _ => tcp_ok)) ->
  safe (fun s => sinv L s /\ (p = 0 \/ kernel_conn p s)) (m p) (fun _ => tcp_ok).
Proof.
  intros Hm s [(I & HI & Hs) Hp]. apply (Hm I); [done| |done].
  destruct Hp as [|[Hp HK]]; [by left|right]. by rewrite (shape_keys _ _ _ _ _ Hs), <- (sh_sockets _ _ _ _ _ Hs).
Qed.

Lemma safe_conn_send L p data : safe (fun s => sinv L s /\ (p = 0 \/ kernel_conn p s)) (tcp_conn_send p data) (fun _ => tcp_ok).
Proof.
  apply (safe_kernel_conn L p (fun p => tcp_conn_send p data)). intros I HI Hp. unfold tcp_conn_send.
  destruct (Z.eqb_spec p 0) as [->|Hne]; [apply safe_ret; intros s; by apply sshape_ok|]. destruct Hp as [|[Hp _]]; [done|].
  apply safe_on_conn_ok; [done | apply tidy_tcp_send | apply keeps_tcp_send, _ | done].
Qed.

Lemma safe_conn_read L p n : safe (fun s => sinv L s /\ (p = 0 \/ kernel_conn p s)) (tcp_conn_read p n) (fun _ => tcp_ok).
Proof.
  apply (safe_kernel_conn L p (fun p => tcp_conn_read p n)). intros I HI Hp. unfold tcp_conn_read.
  destruct (Z.eqb_spec p 0) as [->|Hne]; [apply safe_ret; intros s; by apply sshape_ok|]. destruct Hp as [|[Hp _]]; [done|].
  apply safe_deref; [done|]. intros c _ _. case_if; [apply safe_ret; intros s; by apply sshape_ok|].
  by apply safe_on_conn_ok; [|apply tidy_conn_read | apply ident_conn_read |].
Qed.

Lemma safe_conn_close L p : safe (fun s => sinv L s /\ (p = 0 \/ kernel_conn p s)) (tcp_close p) (fun _ => tcp_ok).
Proof.
  apply (safe_kernel_conn L p tcp_close). intros I HI Hp. destruct (Z.eqb_spec p 0) as [->|Hne].
  - unfold tcp_close. cbn. apply safe_ret. intros s. by apply sshape_ok.
  - destruct Hp as [|[Hp HpK]]; [done|]. eapply safe_conseq; [by eapply (safe_tcp_close F _ _ (handles L)); [|apply HI| | |] | done |].
    intros a s. apply sinv_ok.
Qed.
End sockets.

(** The entry points of the network thread, the timer, the kernel clients and
    the socket system calls. *)
Inductive tcp_call :=
| HandlePacket (frame : list Z)
| RetransmitCheck
| CleanupStale
| Listen (port accept_callback : Z)
| Connect (ip : list Z) (port connect_callback : Z)
| ConnSend (conn : Z) (data : list Z)
| ConnRead (conn len : Z)
| ConnClose (conn : Z)
| SocketCreate
| SocketBind (sock port : Z)
| SocketListen (sock : Z)
| SocketAccept (sock : Z)
| SocketConnect (sock : Z) (ip : list Z) (port : Z)
| SocketSend (sock : Z) (data : list Z)
| SocketRecv (sock max_len : Z)
| SocketAcceptReady (sock : Z)
| SocketShutdown (sock : Z)
| SocketClose (sock : Z).

Section calls.
Context {W : Type} `{!KHeap W} `{!KHeapLaws W} `{!NetDown W} `{!NetDownLaws W}.
Abbreviation tcp := (tcp (W := W)).
Abbreviation M := (M (W := W)).

Definition ignore {A} (m : M A) : M unit := _ ← m; mret tt.
Definition perform (call : tcp_call) : M unit :=
  match call with
  | HandlePacket frame => tcp_handle_packet frame
  | RetransmitCheck => tcp_retransmit_check
  | CleanupStale => tcp_cleanup_stale_connections
  | Listen port cb => ignore (tcp_listen port cb)
  | Connect ip port cb => ignore (tcp_connect ip port cb)
  | ConnSend conn data => ignore (tcp_conn_send conn data)
  | ConnRead conn len => ignore (tcp_conn_read conn len)
  | ConnClose conn => ignore (tcp_close conn)
  | SocketCreate => ignore tcp_socket_create
  | SocketBind sock port => ignore (tcp_socket_bind sock port)
  | SocketListen sock => ignore (tcp_socket_listen sock)
  | SocketAccept sock => ignore (tcp_socket_accept sock)
  | SocketConnect sock ip port => ignore (tcp_socket_connect sock ip port)
  | SocketSend sock data => ignore (tcp_socket_send sock data)
  | SocketRecv sock n => ignore (tcp_socket_recv sock n)
  | SocketAcceptReady sock => ignore (tcp_socket_accept_ready sock)
  | SocketShutdown sock => ignore (tcp_socket_shutdown_wr sock)
  | SocketClose sock => ignore (tcp_socket_close sock)
  end.

(** What a caller may pass: a socket it has created and not closed, a
    connection of its own, or the null pointer. *)
Definition allowed (s : tcp) (call : tcp_call) : Prop :=
  match call with
  | ConnSend p _ | ConnRead p _ | ConnClose p => p = 0 \/ kernel_conn p s
  | SocketBind sock _ | SocketListen sock | SocketAccept sock | SocketConnect sock _ _ | SocketSend sock _ | SocketRecv sock _
  | SocketAcceptReady sock | SocketShutdown sock | SocketClose sock => sock = 0 \/ sock ∈ (tcp_sockets s).*1
  | _ => True
  end.

Lemma safe_ignore {A} P (m : M A) Q : safe P m (fun _ => Q) -> safe P (ignore m) (fun _ => Q).
Proof. intros Hm. eapply safe_bind; [exact Hm|]. intros a. by apply safe_ret. Qed.

Lemma perform_ok F call : safe (fun s => tcp_ok F s /\ allowed s call) (perform call) (fun _ => tcp_ok F).
Proof.
  intros s [[L Hinv] Hall]. assert (tcp_sockets s = L) as HL by (destruct Hinv as (I & _ & Hs); apply Hs).
  destruct call; cbn [perform allowed] in *; rewrite ?HL in Hall;
    (lazymatch goal with |- exists _ _, ignore ?m _ = _ /\ _ => apply (safe_ignore (fun s' => s' = s)); [|done]; intros ? -> | _ => idtac end).
  - by eapply (safe_kernel F _ (fun S K L => safe_handle_packet F S K L frame)).
  - by eapply (safe_kernel F _ (safe_retransmit F)).
  - by eapply (safe_kernel F _ (safe_cleanup F)).
  - by eapply (safe_tcp_listen F L).
  - eapply (safe_conseq (sinv F L)); [apply (safe_tcp_connect F) | done | | done]. intros p s' (I & [HI _] & Hs). exists L, I. done.
  - by eapply (safe_conn_send F L).
  - by eapply (safe_conn_read F L).
  - by eapply (safe_conn_close F L).
  - destruct Hinv as (I & HI & Hs). destruct (safe_create_sock F I L s Hs) as (p & s' & E & Hs'). exists p, s'. split; [done|].
    destruct Hs' as [[_ H]|(_ & _ & H)]; [by eapply sshape_ok|]. eapply (sshape_ok F I); [|exact H]. exact HI.
  - by eapply (safe_bind_sock F L).
  - by eapply (safe_listen_sock F L).
  - by eapply (safe_accept_sock F L).
  - by eapply (safe_connect_sock F L).
  - by eapply (safe_send_sock F L).
  - by eapply (safe_recv_sock F L).
  - by eapply (safe_ready_sock F L).
  - by eapply (safe_shutdown_sock F L).
  - by eapply (safe_close_sock F L).
Qed.

(** ** Every sequence of calls *)

(** What the connections and sockets of [s] occupy. *)
Definition tcp_blocks (s : tcp) : list (Z * Z) := list_blocks (tcp_connections s) ++ sock_blocks (tcp_sockets s).
Definition heap_of (s : tcp) : W := g_world (t_glob s).

(** [tcp_run F s]: [s] is reached from boot; [F] is what the rest of the kernel
    has allocated.  Between the calls the rest of the kernel runs: time passes,
    it allocates and frees, but not the blocks of TCP. *)
Inductive tcp_run : (Z -> Z -> Prop) -> tcp -> Prop :=
| run_start F s :
    heap_ok (heap_of s) -> (forall q n, F q n <-> heap_live (heap_of s) q n) ->
    tcp_connections s = [] -> tcp_sockets s = [] -> tcp_run F s
| run_call F s call s' :
    tcp_run F s -> allowed s call -> perform call s = Some (tt, s') -> tcp_run F s'
| run_others F s F' w' :
    tcp_run F s -> heap_ok w' ->
    (forall q n, q ∈ (tcp_blocks s).*1 -> heap_live w' q n <-> heap_live (heap_of s) q n) ->
    (forall q n, F' q n <-> heap_live w' q n /\ (q ∉ (tcp_blocks s).*1)) ->
    tcp_run F' (set_glob (set_world w' (t_glob s)) s).

Lemma tcp_ok_mem F s : tcp_ok F s -> mem_ok F (heap_of s) (tcp_blocks s).
Proof. intros (L & I & _ & [Hm _ Hl]). unfold tcp_blocks. by rewrite Hl. Qed.

Lemma others_mem F s F' w' :
  mem_ok F (heap_of s) (tcp_blocks s) -> heap_ok w' ->
  (forall q n, q ∈ (tcp_blocks s).*1 -> heap_live w' q n <-> heap_live (heap_of s) q n) ->
  (forall q n, F' q n <-> heap_live w' q n /\ (q ∉ (tcp_blocks s).*1)) -> mem_ok F' w' (tcp_blocks s).
Proof.
  intros [H1 H2 H3 H4 H5] Hok Hsame HF. constructor; [done | done | | by intros q n ?%HF |].
  - intros p k Hin. destruct (H3 p k Hin) as (n & ? & ?). exists n. split; [done|]. apply Hsame; [|done].
    apply list_elem_of_fmap. by exists (p, k).
  - intros q n Hq. destruct (decide (q ∈ (tcp_blocks s).*1)); [by right | left; by apply HF].
Qed.

Lemma tcp_run_ok F s : tcp_run F s -> tcp_ok F s.
Proof.
  induction 1 as [F s Hok HF Hc Hs | F s call s' _ IH Hall E | F s F' w' _ IH Hok Hsame HF].
  - exists []. exists []. split.
    + constructor; [done | constructor | constructor | constructor | by intros ? ?%elem_of_nil].
    + constructor; rewrite ?Hc; [|done|done]. constructor; [done | constructor | by intros ? ? ?%elem_of_nil | |].
      * intros q n Hq. split; [by apply HF | apply not_elem_of_nil].
      * intros q n Hq. left. by apply HF.
  - destruct (perform_ok F call s (conj IH Hall)) as ([] & s'' & E' & Hs''). rewrite E in E'. by injection E' as <-.
  - pose proof (others_mem F s F' w' (tcp_ok_mem _ _ IH) Hok Hsame HF) as Hm. destruct IH as (L & I & HI & [_ Hi Hl]).
    exists L, I. split; [done|]. constructor; [|done|done]. unfold tcp_blocks in Hm. by rewrite Hl in Hm.
Qed.

(** C8 The connection table and the sockets are memory safe over every sequence
    of received frames, timer ticks, socket calls and kernel clients' calls on
    connections that are still on the list:
    a call on a live socket never follows a pointer to a freed connection, a
    socket's connection is on the list and belongs to it alone, at most 16
    connections exist, and the live heap blocks are exactly those of the rest
    of the kernel and those of the connections and sockets, each owned once
    (nothing is leaked and nothing freed twice). *)
Theorem tcp_sockets_safe F s : tcp_run F s ->
  (forall call, allowed s call -> exists s', perform call s = Some (tt, s') /\ tcp_run F s') /\
  (forall sock k, (sock, k) ∈ tcp_sockets s -> connection k <> 0 ->
     exists c, conn_at (connection k) (tcp_connections s) = Some c /\ owned (own c) = true /\ disowned (own c) = false) /\
  NoDup (handles (tcp_sockets s)) /\
  zlen (tcp_connections s) <= TCP_MAX_CONNECTIONS /\
  NoDup (tcp_blocks s).*1 /\
  (forall q, (exists n, heap_live (heap_of s) q n) <-> (exists n, F q n) \/ (q ∈ (tcp_blocks s).*1)).
Proof.
  intros Hrun. pose proof (tcp_run_ok F s Hrun) as Hok. pose proof (tcp_ok_mem F s Hok) as Hm. split_and!.
  - intros call Hall. destruct (perform_ok F call s (conj Hok Hall)) as ([] & s' & E & _). exists s'. split; [done|]. by eapply run_call.
  - intros sock k Hin Hk. destruct Hok as (L & I & HI & Hs). pose proof (sh_sockets _ _ _ _ _ Hs) as Hl. rewrite Hl in Hin.
    assert (connection k ∈ handles L) as Hheld.
    { destruct (list_elem_of_split _ _ Hin) as (l1 & l2 & ->). rewrite handles_mid. unfold handle. cbn [snd].
      rewrite (proj2 (Z.eqb_neq _ _) Hk). by left. }
    destruct (io_held _ _ HI _ Hheld) as (o & Ho & Hown & Hdis & _).
    destruct (shape_at _ _ _ _ _ _ Hs (in_key _ _ _ Ho)) as (c & _ & _ & _ & _ & Hc & Hat & _).
    exists c. split; [done|]. by rewrite (idents_functional I _ (own c) o (io_keys _ _ HI) Hc Ho).
  - destruct Hok as (L & I & HI & Hs). rewrite (sh_sockets _ _ _ _ _ Hs). apply HI.
  - destruct Hok as (L & I & HI & Hs). pose proof (io_max _ _ HI) as Hmax. rewrite <- (sh_ident _ _ _ _ _ Hs) in Hmax.
    unfold zlen in *. by rewrite length_fmap in Hmax.
  - apply Hm.
  - intros q. split.
    + intros [n Hn]. destruct (mo_all _ _ _ Hm q n Hn); [left; by exists n | by right].
    + intros [[n Hn]|([p k] & -> & Hin)%list_elem_of_fmap]; [exists n; by apply (mo_frame _ _ _ Hm)|].
      destruct (mo_live _ _ _ Hm p k Hin) as (n & _ & ?). by exists n.
Qed.
End calls.
