(* ===== verification/TcpDemo.v ===== *)
(** * Concrete TCP connections

    The theorems on src/net_tcp.c at concrete states: the kernel heap of
    src/mem.c over a link that takes every datagram. *)
From S2P Require Import Prelude Heap Pmm PmmInit Slab TcpRecv TcpRanges TcpWindow TcpConn TcpSeg Tcp TcpTable TcpStream TcpWire TcpMem TcpSend TcpEnd TcpShape TcpSafe TcpSock.

(** A heap, the datagrams sent (destination, protocol, bytes) and the time. *)
Record link := mk_link { ln_heap : kmem; ln_sent : list (list Z * Z * list Z); ln_ms : Z }.
Definition our_ip : list Z := [10; 0; 2; 15].

#[global] Instance link_heap : KHeap link := {|
  hp_kalloc n w := let '(p, h) := hp_kalloc n (ln_heap w) in (p, mk_link h (ln_sent w) (ln_ms w));
  hp_kfree p w := mk_link (hp_kfree p (ln_heap w)) (ln_sent w) (ln_ms w);
  hp_pages_available w := hp_pages_available (ln_heap w);
  heap_ok w := heap_ok (ln_heap w);
  heap_live w := heap_live (ln_heap w);
|}.
#[global] Instance link_heap_laws : KHeapLaws link.
Proof.
  split; cbn.
  - intros h. exact (live_nonnull (H := kmem) (ln_heap h)).
  - intros h. exact (live_functional (H := kmem) (ln_heap h)).
  - intros h. exact (live_disjoint (H := kmem) (ln_heap h)).
  - intros h h' n Hok Hn. destruct (kalloc n (ln_heap h)) as [p k] eqn:E. intros [= -> <-]. exact (kalloc_fail (H := kmem) (ln_heap h) k n Hok Hn E).
  - intros h h' n p Hok Hn. destruct (kalloc n (ln_heap h)) as [p' k] eqn:E. intros [= -> <-] Hp. exact (kalloc_fresh (H := kmem) (ln_heap h) k n p Hok Hn E Hp).
  - intros h p n. exact (kfree_live (H := kmem) (ln_heap h) p n).
Qed.
#[global] Instance link_down : NetDown link := {|
  ip_send_packet dst proto pkt w := (0, mk_link (ln_heap w) (ln_sent w ++ [(dst, proto, pkt)]) (ln_ms w));
  ip_select_src _ _ := our_ip;
  net_get_ip_address _ := our_ip;
  ktime_now_ms w := ln_ms w;
  ktime_now_us w := 1000 * ln_ms w;
  rdtsc w := 2000000 * ln_ms w;
|}.
#[global] Instance link_down_laws : NetDownLaws link.
Proof. by split. Qed.

#[global] Instance link_trace : NetTrace link := ln_sent.
#[global] Instance link_trace_laws : NetTraceLaws link.
Proof. split; [by left | intros w n; cbn; by destruct (kalloc n (ln_heap w)) | done]. Qed.

(** 128 free pages. *)
Definition pages128 : pmm := mk_pmm 128 0x1000 0xFFFF800000000000 128 (replicate 16 0) 0 128 (replicate 128 0).
Lemma pages128_ok : heap_ok (kmem_boot pages128).
Proof.
  assert (forall i, 0 <= i < 128 -> entry pages128 i = 0) as Hz by (intros i Hi; apply (lookup_total_replicate_2 128); lia).
  apply kmem_boot_ok; [|done]. apply fresh_pmm_ok; done.
Qed.
Definition demo_link : link := mk_link (kmem_boot pages128) [] 1000.
Definition demo_glob : glob (W := link) := mk_glob demo_link 0 0 [].

(** ** A stream whose second segment arrives first *)

Definition demo_conn : tcp_connection_t :=
  let c := new_conn 4096 8192 12288 1000 our_ip 49152 [10; 0; 2; 2] 80 in
  set_state TCP_STATE_ESTABLISHED (set_rx (mk_rcv 12288 (replicate 16 0) 16 0 0 (seq_of (2 ^ 32 - 2) 0) []) c).
Definition demo_str (i : Z) : Z := i mod 256.
Definition demo_seg (p len : Z) : tcp_header_t :=
  mk_hdr (seq_of (2 ^ 32 - 2) p) 1 20 TCP_FLAG_ACK 4096 [] (slice demo_str p len).
Definition demo_conn1 : tcp_connection_t := (tcp_input (demo_seg 4 4) (demo_conn, demo_glob)).2.1.
Definition demo_conn2 : tcp_connection_t := (tcp_input (demo_seg 0 4) (demo_conn1, demo_glob)).2.1.
Definition demo_conn3 : tcp_connection_t := (conn_read 6 (demo_conn2, demo_glob)).2.1.

Lemma demo_genuine a p len : 0 <= a <= 8 -> 0 <= p <= 8 -> 0 <= len <= 8 -> genuine demo_str (2 ^ 32 - 2) a p len (demo_seg p len).
Proof. intros. split; [done | done | lia | lia]. Qed.

Lemma tcp_stream_intact_witness :
  (conn_read 6 (demo_conn2, demo_glob)).1 = [0; 1; 2; 3; 4; 5] /\
  (conn_read 6 (demo_conn2, demo_glob)).1 ++ unread (rx demo_conn3) = slice demo_str 0 8.
Proof.
  split; [by vm_compute|].
  apply (tcp_stream_intact (W := link) demo_str (2 ^ 32 - 2) demo_conn3 8 [] [(4, 8); (0, 4)]).
  refine (conv_read _ _ demo_conn2 8 [] [(4, 8); (0, 4)] [] 6 demo_glob _ _); [|lia].
  refine (conv_segment _ _ demo_conn1 0 [(4, 8)] [(4, 8)] [] (demo_seg 0 4) 0 4 demo_glob _ (demo_genuine 0 0 4 _ _ _)); try lia.
  refine (conv_segment _ _ demo_conn 0 [] [] [] (demo_seg 4 4) 4 4 demo_glob _ (demo_genuine 0 4 4 _ _ _)); try lia.
  by apply conv_start.
Defined.

(** After a shutdown a FIN without data is acknowledged whatever its sequence
    number: four bytes of the stream are missing, and are acknowledged. *)
Definition demo_fin : tcp_header_t := mk_hdr (seq_of (2 ^ 32 - 2) 4) 1 20 (Z.lor TCP_FLAG_FIN TCP_FLAG_ACK) 4096 [] [].
Lemma fin_acks_beyond_gap :
  let c := (tcp_input demo_fin (set_state TCP_STATE_FIN_WAIT_1 demo_conn, demo_glob)).2.1 in
  ack_num (rx demo_conn) = seq_of (2 ^ 32 - 2) 0 /\ ack_num (rx c) = seq_of (2 ^ 32 - 2) 5 /\ unread (rx c) = [].
Proof. vm_compute. done. Qed.

(** ** A SYN with its options on the wire *)

Definition wire_demo : tcp_connection_t := new_conn 4096 8192 12288 1000 our_ip 49152 [10; 0; 2; 2] 80.
(** Ethernet and IPv4 headers in front of 28 bytes. *)
Definition demo_prefix : list Z :=
  replicate 12 0 ++ [8; 0] ++ [0x45; 0; 0; 48; 0; 1; 0; 0; 64; 6; 0; 0] ++ our_ip ++ [10; 0; 2; 2].

Lemma tcp_segment_roundtrip_witness :
  exists sg, tcp_accept_frame (demo_prefix ++ tcp_packet wire_demo TCP_FLAG_SYN 65535 (tcp_syn_options wire_demo false) [] ++ [0; 0]) = Some sg /\
    sg_src_port sg = 49152.
Proof.
  destruct (tcp_segment_roundtrip wire_demo TCP_FLAG_SYN 65535 (tcp_syn_options wire_demo false) [] demo_prefix [0; 0])
    as (sg & E & _ & _ & Hp & _);
    [repeat split; by (lia || apply (bool_decide_unpack _)) | done | lia | by apply (bool_decide_unpack _) | done | constructor
    | by apply (bool_decide_unpack _) | by vm_compute | split; by (apply (bool_decide_unpack _) || vm_compute) |].
  exists sg. exact (conj E Hp).
Defined.

(** ** Eight bytes from one host to another, in two segments, the second first and twice *)

Definition e2e_msg : list Z := [104; 105; 32; 116; 104; 101; 114; 101].
Definition e2e_iss : Z := 2 ^ 32 - 2.
Definition e2e_src : tcp_connection_t :=
  let c := new_conn 4096 8192 12288 1000 our_ip 49152 [10; 0; 2; 2] 80 in
  set_state TCP_STATE_ESTABLISHED (set_tx (mk_snd e2e_iss e2e_iss e2e_iss 4096 4 4096 65535 0 e2e_iss false [] 1000 4096 0 false) c).
Definition e2e_dst : tcp_connection_t :=
  let c := new_conn 4096 8192 12288 1000 [10; 0; 2; 2] 80 our_ip 49152 in
  set_state TCP_STATE_ESTABLISHED (set_rx (mk_rcv 12288 (replicate 16 0) 16 0 0 e2e_iss []) c).
Definition e2e_sent : Z * (tcp_connection_t * glob (W := link)) := tcp_send e2e_msg (e2e_src, demo_glob).
Definition e2e_net : list datagram := emitted demo_glob e2e_sent.2.2.
(** Ethernet and IPv4 headers in front of 24 bytes. *)
Definition e2e_prefix : list Z :=
  replicate 12 0 ++ [8; 0] ++ [0x45; 0; 0; 44; 0; 1; 0; 0; 64; 6; 0; 0] ++ our_ip ++ [10; 0; 2; 2].
Definition e2e_packet (i : nat) : list Z := default [] (snd <$> e2e_net !! i).
Definition e2e_frame (i : nat) : list Z := e2e_prefix ++ e2e_packet i ++ [].
Definition e2e_header (i : nat) : option tcp_header_t := sg ← tcp_accept_frame (e2e_frame i); tcp_read_header (e2e_frame i) sg.
Definition e2e_input (i : nat) (b : tcp_connection_t) : tcp_connection_t :=
  match e2e_header i with Some h => (tcp_input h (b, demo_glob)).2.1 | None => b end.

Lemma first_write msg iss src dst a b (g : glob (W := link)) r n net :
  local_ip a = src -> remote_ip a = dst -> sends_from iss a -> receives_from iss b ->
  tcp_send msg (a, g) = r -> r.1 = n -> 0 <= n -> emitted g r.2.2 = net -> transfer msg iss src dst r.2.1 n (zlen msg) net b [].
Proof.
  intros H1 H2 Ha Hb <- <- Hn <-. pose proof (zlen_nonneg msg).
  pose proof (tr_write msg iss src dst a 0 0 [] b [] msg g (tr_start msg iss src dst a b H1 H2 Ha Hb)) as Ht. cbv zeta in Ht.
  rewrite !Z.add_0_l, !Z.max_r in Ht by lia. apply Ht; [lia|]. change (msg = ztake (zlen msg) msg). symmetry. by apply ztake_all.
Qed.
Lemma e2e_start : transfer (W := link) e2e_msg e2e_iss our_ip [10; 0; 2; 2] e2e_sent.2.1 8 8 e2e_net e2e_dst [].
Proof.
  apply (first_write e2e_msg e2e_iss our_ip [10; 0; 2; 2] e2e_src e2e_dst demo_glob e2e_sent 8 e2e_net);
    [reflexivity | reflexivity | | | unfold e2e_sent; reflexivity | vm_compute; reflexivity | lia | unfold e2e_net; reflexivity].
  - split; [reflexivity | | reflexivity | reflexivity | | |]; [|by vm_compute..].
    split; [split; [reflexivity | by apply (bool_decide_unpack _)].. | | |]; [by vm_compute..].
  - split; [reflexivity | done | reflexivity | by vm_compute | done | reflexivity].
Qed.
Lemma e2e_packets : Forall (fun i => (([10; 0; 2; 2], 6, e2e_packet i) ∈ e2e_net) /\ zlen (e2e_packet i) = 24) [0; 1]%nat.
Proof. apply (bool_decide_unpack _). vm_compute. exact I. Qed.
Lemma e2e_deliver i b out : i ∈ [0; 1]%nat ->
  transfer (W := link) e2e_msg e2e_iss our_ip [10; 0; 2; 2] e2e_sent.2.1 8 8 e2e_net b out ->
  transfer (W := link) e2e_msg e2e_iss our_ip [10; 0; 2; 2] e2e_sent.2.1 8 8 e2e_net (e2e_input i b) out.
Proof.
  intros Hi Ht. destruct (proj1 (Forall_forall _ _) e2e_packets i Hi) as [Hin Hlen].
  unfold e2e_input, e2e_header. destruct (tcp_accept_frame (e2e_frame i)) as [sg|] eqn:E; [|exact Ht]. cbn [mbind option_bind].
  destruct (tcp_read_header (e2e_frame i) sg) as [h|] eqn:Eh; [|exact Ht]. unfold e2e_frame in E, Eh.
  eapply tr_deliver; [exact Ht | exact Hin | | apply Forall_nil_2 | exact E | exact Eh].
  rewrite Hlen. split; by (apply (bool_decide_unpack _) || vm_compute).
Qed.

Definition e2e_end : tcp_connection_t := e2e_input 1 (e2e_input 0 (e2e_input 1 e2e_dst)).
Definition e2e_read : list Z * (tcp_connection_t * glob (W := link)) := conn_read 8 (e2e_end, demo_glob).
Lemma e2e_transfer : transfer (W := link) e2e_msg e2e_iss our_ip [10; 0; 2; 2] e2e_sent.2.1 8 8 e2e_net e2e_read.2.1 e2e_read.1.
Proof.
  assert (transfer (W := link) e2e_msg e2e_iss our_ip [10; 0; 2; 2] e2e_sent.2.1 8 8 e2e_net e2e_end []) as Ht.
  { unfold e2e_end. do 3 (apply e2e_deliver; [apply (bool_decide_unpack _); exact I|]). exact e2e_start. }
  unfold e2e_read. revert Ht. generalize e2e_end, e2e_sent.2.1, e2e_net. intros b a net Ht.
  rewrite <- (app_nil_l (conn_read 8 (b, demo_glob)).1). exact (tr_read _ _ _ _ a 8 8 net b [] 8 demo_glob Ht ltac:(lia)).
Qed.

Lemma tcp_end_to_end_witness :
  e2e_read.1 = e2e_msg /\ exists p, 0 <= p <= 8 /\ 8 <= zlen e2e_msg /\ e2e_read.1 ++ unread (rx e2e_read.2.1) = ztake p e2e_msg.
Proof.
  split; [vm_compute; reflexivity|].
  refine (tcp_end_to_end (W := link) e2e_msg e2e_iss our_ip [10; 0; 2; 2] e2e_sent.2.1 8 8 e2e_net e2e_read.2.1 e2e_read.1 _ _ e2e_transfer);
    [by apply (bool_decide_unpack _) | vm_compute; reflexivity].
Defined.

(** ** A program opens a connection *)

Definition after (call : tcp_call) (s : tcp (W := link)) : tcp :=
  match perform call s with Some (_, s') => s' | None => s end.
Definition returns (call : tcp_call) (s : tcp (W := link)) : bool := match perform call s with Some _ => true | None => false end.
Lemma after_eq call s : returns call s = true -> perform call s = Some (tt, after call s).
Proof. unfold returns, after. by destruct (perform call s) as [[[] s']|]. Qed.

Definition demo_tcp0 : tcp (W := link) := mk_tcp demo_glob [] [] [].
Definition demo_tcp1 : tcp (W := link) := after SocketCreate demo_tcp0.
Definition demo_sock : Z := match tcp_sockets demo_tcp1 with x :: _ => x.1 | [] => 0 end.
Definition demo_tcp2 : tcp (W := link) := after (SocketConnect demo_sock [10; 0; 2; 2] 80) demo_tcp1.
Definition demo_tcp3 : tcp (W := link) := after RetransmitCheck demo_tcp2.

Definition demo_F : Z -> Z -> Prop := heap_live demo_link.
Lemma demo_run : tcp_run demo_F demo_tcp3.
Proof.
  apply (run_call _ demo_tcp2 RetransmitCheck); [|done | by apply after_eq; vm_compute].
  apply (run_call _ demo_tcp1 (SocketConnect demo_sock [10; 0; 2; 2] 80)); [| right; apply (bool_decide_unpack _); by vm_compute | by apply after_eq; vm_compute].
  apply (run_call _ demo_tcp0 SocketCreate); [|done | by apply after_eq; vm_compute].
  by apply run_start; [exact pages128_ok | | |].
Qed.

Lemma tcp_sockets_safe_witness :
  zlen (tcp_connections demo_tcp3) = 1 /\ exists s', perform (SocketClose demo_sock) demo_tcp3 = Some (tt, s').
Proof.
  split; [by vm_compute|]. destruct (tcp_sockets_safe demo_F demo_tcp3 demo_run) as (Hcalls & _).
  destruct (Hcalls (SocketClose demo_sock)) as (s' & E & _); [right; apply (bool_decide_unpack _); by vm_compute|]. exists s'. exact E.
Defined.
