(* ===== verification/Net.v ===== *)
(** * The network device and the state of the stack

    src/net_device.c, the drop counters of src/net_ethernet.c, and the data that
    src/net_arp.c and src/net_ip.c keep.  What the drivers, the clocks and the
    heap do is a parameter. *)
From S2P Require Import Prelude Heap TcpSeg.

(** The driver of the current device and the clocks.  [drv_receive_packet]
    returns no bytes when no frame waits. *)
Class NetHw (B : Type) := {
  drv_send_packet : list Z -> B -> Z * B;
  drv_receive_packet : Z -> B -> list Z * B;
  hpet_get_ticks : B -> Z;
  hw_now_us : B -> Z;
  hw_rdtsc : B -> Z;
}.

(** ** Data *)

(** [ops_send] and [ops_receive] say whether the driver has these operations;
    [ops_mac] is what its [get_mac_address] returns, if it has one. *)
Record net_device_t := mk_dev {
  mac_address : list Z;
  ip_address : list Z;
  subnet_mask : list Z;
  gateway : list Z;
  dns_server : list Z;
  initialized : bool;
  ops_send : bool;
  ops_receive : bool;
  ops_mac : option (list Z);
}.

Record arp_entry := mk_arp { ae_ip : list Z; ae_mac : list Z; ae_timestamp : Z; ae_valid : bool; ae_permanent : bool }.
Record arp_pending := mk_pend { ap_target_ip : list Z; ap_timestamp : Z; ap_retry_count : Z; ap_valid : bool }.

(** A datagram that waits for an ARP reply; [aq_payload] is the address of its
    copy, [aq_bytes] what is there. *)
Record ip_arpq_entry_t := mk_arpq {
  aq_valid : bool;
  aq_next_hop : list Z;
  aq_dst_ip : list Z;
  aq_protocol : Z;
  aq_payload : Z;
  aq_bytes : list Z;
  aq_queued_at : Z;
}.

(** A fragment; [pc_self] and [pc_data] are the addresses of the record and of
    the copy of its data, [pc_bytes]. *)
Record ip_frag_piece_t := mk_piece { pc_self : Z; pc_offset : Z; pc_length : Z; pc_data : Z; pc_bytes : list Z }.

Record ip_frag_slot_t := mk_slot {
  fs_src_ip : list Z;
  fs_dst_ip : list Z;
  fs_id : Z;
  fs_protocol : Z;
  fs_active : bool;
  fs_total_len : Z;
  fs_received_bytes : Z;
  fs_first_seen_ms : Z;
  fs_pieces : list ip_frag_piece_t;
}.

(** The loopback ring: addresses with the bytes there, and lengths. *)
Record lo_ring := mk_lo {
  ip_lo_frame : list (Z * list Z);
  ip_lo_flen : list Z;
  ip_lo_head : Z;
  ip_lo_tail : Z;
  ip_lo_count : Z;
  ip_lo_draining : bool;
}.

(** Counters of dropped frames. *)
Record drop_stats := mk_drops {
  g_drop_unknown_l2 : Z;
  g_drop_igmp : Z;
  g_drop_unknown_ip : Z;
  g_drop_malformed : Z;
  g_last_ethertype : Z;
  g_last_ip_proto : Z;
}.

#[export] Instance arp_entry_inhabited : Inhabited arp_entry := populate (mk_arp [] [] 0 false false).
#[export] Instance arp_pending_inhabited : Inhabited arp_pending := populate (mk_pend [] 0 0 false).
#[export] Instance ip_arpq_inhabited : Inhabited ip_arpq_entry_t := populate (mk_arpq false [] [] 0 0 [] 0).
#[export] Instance ip_slot_inhabited : Inhabited ip_frag_slot_t := populate (mk_slot [] [] 0 0 false 0 0 0 []).

Section net.
Context {B : Type} `{!KHeap B} `{!NetHw B}.

(** A read or write of the [acc_len] bytes at [acc_ptr], and the heap then. *)
Record access := mk_access { acc_ptr : Z; acc_len : Z; acc_heap : B }.

(** [accesses] is no variable of the code: it lists the accesses made so far, the last one first, to
    the buffers on the heap, so that their safety can be stated. *)
Record net := mk_net {
  device : option net_device_t;
  arp_cache : list arp_entry;
  arp_pending_requests : list arp_pending;
  ip_id_counter : Z;
  ip_lo : lo_ring;
  ip_arpq : list ip_arpq_entry_t;
  ip_frag_slots : list ip_frag_slot_t;
  drops : drop_stats;
  accesses : list access;
  below : B;
}.

Definition set_device v (n : net) : net :=
  mk_net v (arp_cache n) (arp_pending_requests n) (ip_id_counter n) (ip_lo n) (ip_arpq n) (ip_frag_slots n) (drops n) (accesses n) (below n).
Definition set_arp_cache v (n : net) : net :=
  mk_net (device n) v (arp_pending_requests n) (ip_id_counter n) (ip_lo n) (ip_arpq n) (ip_frag_slots n) (drops n) (accesses n) (below n).
Definition set_arp_pending v (n : net) : net :=
  mk_net (device n) (arp_cache n) v (ip_id_counter n) (ip_lo n) (ip_arpq n) (ip_frag_slots n) (drops n) (accesses n) (below n).
Definition set_ip_id v (n : net) : net :=
  mk_net (device n) (arp_cache n) (arp_pending_requests n) v (ip_lo n) (ip_arpq n) (ip_frag_slots n) (drops n) (accesses n) (below n).
Definition set_ip_lo v (n : net) : net :=
  mk_net (device n) (arp_cache n) (arp_pending_requests n) (ip_id_counter n) v (ip_arpq n) (ip_frag_slots n) (drops n) (accesses n) (below n).
Definition set_ip_arpq v (n : net) : net :=
  mk_net (device n) (arp_cache n) (arp_pending_requests n) (ip_id_counter n) (ip_lo n) v (ip_frag_slots n) (drops n) (accesses n) (below n).
Definition set_ip_frag v (n : net) : net :=
  mk_net (device n) (arp_cache n) (arp_pending_requests n) (ip_id_counter n) (ip_lo n) (ip_arpq n) v (drops n) (accesses n) (below n).
Definition set_drops v (n : net) : net :=
  mk_net (device n) (arp_cache n) (arp_pending_requests n) (ip_id_counter n) (ip_lo n) (ip_arpq n) (ip_frag_slots n) v (accesses n) (below n).
Definition set_below v (n : net) : net :=
  mk_net (device n) (arp_cache n) (arp_pending_requests n) (ip_id_counter n) (ip_lo n) (ip_arpq n) (ip_frag_slots n) (drops n) (accesses n) v.
Definition set_accesses v (n : net) : net :=
  mk_net (device n) (arp_cache n) (arp_pending_requests n) (ip_id_counter n) (ip_lo n) (ip_arpq n) (ip_frag_slots n) (drops n) v (below n).

(** Actions on the stack. *)
Definition nact (A : Type) : Type := net -> A * net.
#[export] Instance nact_ret : MRet nact := fun A a s => (a, s).
#[export] Instance nact_bind : MBind nact := fun A C f m s => let '(a, s) := m s in f a s.
Definition get {A} (f : net -> A) : nact A := fun n => (f n, n).
Definition put (f : net -> net) : nact unit := fun n => (tt, f n).
Definition down {A} (f : B -> A * B) : nact A := fun n => let '(a, b) := f (below n) in (a, set_below b n).
Definition kalloc_n (k : Z) : nact Z := down (hp_kalloc k).
Definition kfree_n (p : Z) : nact unit := down (fun b => (tt, hp_kfree p b)).
Definition touch (p k : Z) : nact unit := put (fun n => set_accesses (mk_access p k (below n) :: accesses n) n).
(** The [k] bytes at [p] are in use from the beginning to the end of [m]. *)
Definition in_use_n {A} (p k : Z) (m : nact A) : nact A :=
  _ ← touch p k;
  r ← m;
  _ ← touch p k;
  mret r.
(** The same for a pointer that may be [NULL], with nothing to read then. *)
Definition in_use_opt {A} (p k : Z) (m : nact A) : nact A := if p =? 0 then m else in_use_n p k m.
Definition only_if (b : bool) (m : nact unit) : nact unit := if b then m else mret tt.
Definition now_ms : nact Z := get (fun n => hpet_get_ticks (below n)).

(** [for (i = i0; i < i0 + k; i++)] *)
Fixpoint loop (k : nat) (i : Z) (body : Z -> nact unit) : nact unit :=
  match k with
  | O => mret tt
  | S k => _ ← body i; loop k (i + 1) body
  end.

(** ** The current device *)

Definition zeros (k : nat) : list Z := replicate k 0.

Definition net_device_register (dev : net_device_t) : nact Z :=
  cur ← get device;
  _ ← only_if (match cur with None => true | Some d => negb (initialized d) end) (put (set_device (Some dev)));
  mret 0.

Definition net_send_packet (data : list Z) : nact Z :=
  cur ← get device;
  match cur with
  | None => mret (-1)
  | Some d => if ops_send d then down (drv_send_packet data) else mret (-1)
  end.

Definition net_receive_packet (max_length : Z) : nact (list Z) :=
  cur ← get device;
  match cur with
  | None => mret []
  | Some d => if ops_receive d then down (drv_receive_packet max_length) else mret []
  end.

Definition net_get_mac_address (n : net) : list Z :=
  match device n with
  | None => zeros 6
  | Some d => match ops_mac d with Some mac => mac | None => mac_address d end
  end.
Definition net_get_ip_address (n : net) : list Z := match device n with None => zeros 4 | Some d => ip_address d end.
Definition net_get_subnet_mask (n : net) : list Z := match device n with None => zeros 4 | Some d => subnet_mask d end.
Definition net_get_gateway (n : net) : list Z := match device n with None => zeros 4 | Some d => gateway d end.
Definition net_get_dns_server (n : net) : list Z := match device n with None => zeros 4 | Some d => dns_server d end.

Definition set_dev (f : net_device_t -> net_device_t) : nact unit := put (fun n => set_device (f <$> device n) n).
Definition net_set_ip_address (ip : list Z) : nact unit :=
  set_dev (fun d => mk_dev (mac_address d) ip (subnet_mask d) (gateway d) (dns_server d) (initialized d) (ops_send d) (ops_receive d) (ops_mac d)).
Definition net_set_subnet_mask (mask : list Z) : nact unit :=
  set_dev (fun d => mk_dev (mac_address d) (ip_address d) mask (gateway d) (dns_server d) (initialized d) (ops_send d) (ops_receive d) (ops_mac d)).
Definition net_set_gateway (gw : list Z) : nact unit :=
  set_dev (fun d => mk_dev (mac_address d) (ip_address d) (subnet_mask d) gw (dns_server d) (initialized d) (ops_send d) (ops_receive d) (ops_mac d)).
Definition net_set_dns_server (dns : list Z) : nact unit :=
  set_dev (fun d => mk_dev (mac_address d) (ip_address d) (subnet_mask d) (gateway d) dns (initialized d) (ops_send d) (ops_receive d) (ops_mac d)).

(** ** Drop counters *)

Definition on_drops (f : drop_stats -> drop_stats) : nact unit := put (fun n => set_drops (f (drops n)) n).
Definition net_rx_count_unknown_l2 (ethertype : Z) : nact unit :=
  on_drops (fun d => mk_drops (g_drop_unknown_l2 d +32 1) (g_drop_igmp d) (g_drop_unknown_ip d) (g_drop_malformed d) ethertype (g_last_ip_proto d)).
Definition net_rx_count_ip_proto (proto : Z) : nact unit :=
  on_drops (fun d =>
    if proto =? 2
    then mk_drops (g_drop_unknown_l2 d) (g_drop_igmp d +32 1) (g_drop_unknown_ip d) (g_drop_malformed d) (g_last_ethertype d) (g_last_ip_proto d)
    else mk_drops (g_drop_unknown_l2 d) (g_drop_igmp d) (g_drop_unknown_ip d +32 1) (g_drop_malformed d) (g_last_ethertype d) proto).
Definition net_rx_count_malformed : nact unit :=
  on_drops (fun d => mk_drops (g_drop_unknown_l2 d) (g_drop_igmp d) (g_drop_unknown_ip d) (g_drop_malformed d +32 1) (g_last_ethertype d) (g_last_ip_proto d)).
End net.
Arguments net B : clear implicits.

(** * Triples for the actions of the network stack *)

Section logic.
Context {B : Type}.
Abbreviation nact := (nact (B := B)).
Abbreviation net := (net B).

Definition ht {A} (P : net -> Prop) (m : nact A) (Q : A -> net -> Prop) : Prop := forall n, P n -> Q (m n).1 (m n).2.
Lemma ht_ret {A} (a : A) P : ht P (mret a) (fun r n => r = a /\ P n).
Proof. by intros n Hn. Qed.
Lemma ht_bind {A C} P (m : nact A) R (f : A -> nact C) Q : ht P m R -> (forall a, ht (R a) (f a) Q) -> ht P (mbind f m) Q.
Proof. intros Hm Hf n Hn. unfold mbind, nact_bind. specialize (Hm n Hn). destruct (m n) as [a n']. by apply Hf. Qed.
Lemma ht_pre {A} (P P' : net -> Prop) (m : nact A) Q : (forall n, P' n -> P n) -> ht P m Q -> ht P' m Q.
Proof. intros Hp Hm n Hn. by apply Hm, Hp. Qed.
Lemma ht_pure {A} (X : Prop) P (m : nact A) Q : (X -> ht P m Q) -> ht (fun n => X /\ P n) m Q.
Proof. intros H n [Hx Hn]. by apply H. Qed.
Lemma ht_post {A} P (m : nact A) (Q Q' : A -> net -> Prop) : (forall a n, Q a n -> Q' a n) -> ht P m Q -> ht P m Q'.
Proof. intros Hq Hm n Hn. by apply Hq, Hm. Qed.
Lemma ht_ex {A X} (P : X -> net -> Prop) (m : nact A) Q : (forall x, ht (P x) m Q) -> ht (fun n => exists x, P x n) m Q.
Proof. intros H n [x Hx]. by apply (H x). Qed.
Lemma ht_get {A} (f : net -> A) P : ht P (get f) (fun r n => r = f n /\ P n).
Proof. by intros n Hn. Qed.
Lemma ht_only_if P b (m : nact unit) Q : (b = true -> ht P m (fun _ => Q)) -> (b = false -> forall n, P n -> Q n) -> ht P (only_if b m) (fun _ => Q).
Proof. destruct b; [auto|]. intros _ H n Hn. cbn. by apply H. Qed.
Lemma ht_loop P k i body : (forall j, i <= j < i + Z.of_nat k -> ht P (body j) (fun _ => P)) -> ht P (loop k i body) (fun _ => P).
Proof.
  revert i. induction k as [|k IH]; intros i Hb; cbn [loop]; [by intros n Hn|]. eapply ht_bind; [apply Hb; lia|].
  intros u. apply IH. intros j Hj. apply Hb. lia.
Qed.
End logic.
