(* ===== verification/Arp.v ===== *)
(** * ARP: the cache and the pending requests

    src/net_arp.c up to the flush of the datagrams that wait for a reply, which
    goes through src/net_ip.c. *)
From S2P Require Import Prelude Heap TcpSeg Net.

Definition ARP_CACHE_SIZE : Z := 16.
Definition ARP_TIMEOUT_MS : Z := 30000.
Definition ARP_RETRY_COUNT : Z := 5.
Definition ARP_RETRY_TIMEOUT_MS : Z := 100.
Definition ARP_REQUEST : Z := 1.
Definition ARP_REPLY : Z := 2.

Definition htons (x : Z) : Z := bswap16 x.

(** An Ethernet header and the fields of [struct arp_packet]. *)
Definition arp_frame (dst src : list Z) (opcode : Z) (sender_mac sender_ip target_mac target_ip : list Z) (padding : nat) : list Z :=
  dst ++ src ++ [0x08; 0x06] ++
  le16 (htons 0x0001) ++ le16 (htons 0x0800) ++ [6; 4] ++ le16 (htons opcode) ++
  sender_mac ++ sender_ip ++ target_mac ++ target_ip ++ zeros padding.

(** ** The cache as a list *)

Definition caches (ip : list Z) (e : arp_entry) : bool := ae_valid e && bool_decide (ae_ip e = ip).
Definition expired (now : Z) (e : arp_entry) : bool := negb (ae_permanent e) && (ARP_TIMEOUT_MS <? now -64 ae_timestamp e).
Definition invalidate (e : arp_entry) : arp_entry := mk_arp (ae_ip e) (ae_mac e) (ae_timestamp e) false (ae_permanent e).

(** The loop of [arp_lookup]: expired entries on the way are dropped. *)
Fixpoint lookup_scan (now : Z) (ip : list Z) (l : list arp_entry) : option (list Z) * list arp_entry :=
  match l with
  | [] => (None, [])
  | e :: l =>
      if caches ip e && negb (expired now e) then (Some (ae_mac e), e :: l)
      else let '(r, l) := lookup_scan now ip l in (r, (if caches ip e then invalidate e else e) :: l)
  end.

(** The entry with the smallest timestamp, the first of them. *)
Definition oldest_entry (l : list arp_entry) : Z :=
  (zfor 15 1 (fun i best => if ae_timestamp (zget l i) <? best.2 then (i, ae_timestamp (zget l i)) else best)
    (0, ae_timestamp (zget l 0))).1.

Definition cache_store (now : Z) (ip mac : list Z) (l : list arp_entry) : list arp_entry :=
  match zfind 16 0 (fun i => caches ip (zget l i)) with
  | Some i => let e := zget l i in zset l i (mk_arp (ae_ip e) mac now (ae_valid e) (ae_permanent e))
  | None =>
      let new := mk_arp ip mac now true false in
      match zfind 16 0 (fun i => negb (ae_valid (zget l i))) with
      | Some i => zset l i new
      | None => zset l (oldest_entry l) new
      end
  end.

Definition cleanup_expired (now : Z) (l : list arp_entry) : list arp_entry :=
  (fun e => if ae_valid e && expired now e then invalidate e else e) <$> l.

Definition awaits (ip : list Z) (p : arp_pending) : bool := ap_valid p && bool_decide (ap_target_ip p = ip).
Definition settle (p : arp_pending) : arp_pending := mk_pend (ap_target_ip p) (ap_timestamp p) (ap_retry_count p) false.

Section arp.
Context {B : Type} `{!KHeap B} `{!NetHw B}.
Abbreviation nact := (nact (B := B)).

Definition arp_init : nact unit :=
  put (fun n => set_arp_pending (replicate 16 inhabitant) (set_arp_cache (replicate 16 inhabitant) n)).

Definition arp_send_request (target_ip : list Z) : nact unit :=
  our_mac ← get net_get_mac_address;
  our_ip ← get net_get_ip_address;
  _ ← net_send_packet (arp_frame (replicate 6 0xFF) our_mac ARP_REQUEST our_mac our_ip (zeros 6) target_ip 18);
  mret tt.

Definition arp_lookup (ip : list Z) : nact (option (list Z)) :=
  current_time ← now_ms;
  l ← get arp_cache;
  let '(r, l) := lookup_scan current_time ip l in
  _ ← put (set_arp_cache l);
  mret r.

Definition arp_cache_store (ip mac : list Z) : nact unit :=
  current_time ← now_ms;
  put (fun n => set_arp_cache (cache_store current_time ip mac (arp_cache n)) n).

Definition arp_cleanup_expired : nact unit :=
  current_time ← now_ms;
  put (fun n => set_arp_cache (cleanup_expired current_time (arp_cache n)) n).

Definition set_pending (i : Z) (p : arp_pending) : nact unit :=
  put (fun n => set_arp_pending (zset (arp_pending_requests n) i p) n).

(** The MAC address, or nothing while it is not known; then a request is sent
    at most every [ARP_RETRY_TIMEOUT_MS]. *)
Definition arp_resolve (ip : list Z) : nact (option (list Z)) :=
  r ← arp_lookup ip;
  match r with
  | Some mac => mret (Some mac)
  | None =>
      current_time ← now_ms;
      l ← get arp_pending_requests;
      match zfind 16 0 (fun i => awaits ip (zget l i)) with
      | Some i =>
          let p := zget l i in
          let age_ms := current_time -64 ap_timestamp p in
          _ ← only_if (ARP_RETRY_TIMEOUT_MS <? age_ms)
                (if ap_retry_count p <? ARP_RETRY_COUNT then
                   _ ← set_pending i (mk_pend (ap_target_ip p) current_time (ap_retry_count p + 1) true);
                   arp_send_request ip
                 else set_pending i (settle p));
          mret None
      | None =>
          match zfind 16 0 (fun i => negb (ap_valid (zget l i))) with
          | Some i =>
              _ ← set_pending i (mk_pend ip current_time 0 true);
              _ ← arp_send_request ip;
              mret None
          | None => mret None
          end
      end
  end.

Definition arp_is_pending (ip : list Z) (n : net B) : bool :=
  match zfind 16 0 (fun i => awaits ip (zget (arp_pending_requests n) i)) with Some _ => true | None => false end.

(** Of the 16 entries, how many are in use. *)
Definition arp_get_cache_info (n : net B) : Z := zcount 16 (fun i => ae_valid (zget (arp_cache n) i)).
Definition arp_get_pending_info (n : net B) : Z := zcount 16 (fun i => ap_valid (zget (arp_pending_requests n) i)).

(** The first pending request for an address that answered is over. *)
Definition clear_pending (ip : list Z) : nact unit :=
  l ← get arp_pending_requests;
  match zfind 16 0 (fun i => awaits ip (zget l i)) with
  | Some i => set_pending i (settle (zget l i))
  | None => mret tt
  end.
End arp.
