(* ===== verification/ArpProps.v ===== *)
(** * The ARP cache is a bounded map

    The sixteen entries of src/net_arp.c hold at most one address per host; what
    [arp_lookup] finds is what was stored last and has not expired. *)
From S2P Require Import Prelude Heap TcpSeg Net Arp.

Record cache_ok (l : list arp_entry) : Prop := {
  co_len : zlen l = ARP_CACHE_SIZE;
  co_unique i j ip : 0 <= i < ARP_CACHE_SIZE -> 0 <= j < ARP_CACHE_SIZE ->
    caches ip (zget l i) = true -> caches ip (zget l j) = true -> i = j;
}.
(** What [arp_lookup] finds. *)
Definition found (now : Z) (ip : list Z) (l : list arp_entry) : option (list Z) := (lookup_scan now ip l).1.

(** ** What a scan finds *)

Lemma zget_cons_succ {A} `{!Inhabited A} (x : A) l i : 0 <= i -> zget (x :: l) (i + 1) = zget l i.
Proof. intros Hi. unfold zget. by replace (Z.to_nat (i + 1)) with (S (Z.to_nat i)) by lia. Qed.

Lemma scan_miss now ip l : (forall i, 0 <= i < zlen l -> caches ip (zget l i) && negb (expired now (zget l i)) = false) -> found now ip l = None.
Proof.
  unfold found. induction l as [|e l IH]; intros Hno; cbn [lookup_scan]; [done|]. pose proof (zlen_nonneg l). rewrite zlen_cons in Hno.
  pose proof (Hno 0 ltac:(lia)) as H0. change (zget (e :: l) 0) with e in H0. rewrite H0. destruct (lookup_scan now ip l) as [r l'] eqn:E.
  apply IH. intros i Hi. pose proof (Hno (i + 1) ltac:(lia)) as Hi'. by rewrite zget_cons_succ in Hi' by lia.
Qed.
Lemma scan_hit now ip l i : 0 <= i < zlen l -> caches ip (zget l i) = true -> expired now (zget l i) = false ->
  (forall j, 0 <= j < zlen l -> caches ip (zget l j) = true -> j = i) -> found now ip l = Some (ae_mac (zget l i)).
Proof.
  unfold found. revert i. induction l as [|e l IH]; intros i Hi Hc He Hu; [unfold zlen in Hi; cbn in Hi; lia|]. pose proof (zlen_nonneg l). rewrite zlen_cons in Hi, Hu.
  cbn [lookup_scan]. destruct (decide (i = 0)) as [->|Hne].
  - change (zget (e :: l) 0) with e in *. by rewrite Hc, He.
  - destruct (caches ip e) eqn:Ec; [by rewrite <- (Hu 0) in Hne by (done || lia)|]. cbn [andb]. destruct (lookup_scan now ip l) as [r l'] eqn:E.
    replace i with (i - 1 + 1) in Hc, He |- * by lia. rewrite zget_cons_succ in Hc, He |- * by lia. apply (IH (i - 1)); [lia | done | done|].
    intros j Hj Hcj. assert (j + 1 = i); [|lia]. apply Hu; [lia|]. by rewrite zget_cons_succ by lia.
Qed.

(** The address of an entry is found until the entry expires. *)
Lemma found_at now ip l i : cache_ok l -> 0 <= i < ARP_CACHE_SIZE -> caches ip (zget l i) = true ->
  found now ip l = if expired now (zget l i) then None else Some (ae_mac (zget l i)).
Proof.
  intros [Hl Hu] Hi Hc. destruct (expired now (zget l i)) eqn:E.
  - apply scan_miss. intros j Hj. rewrite Hl in Hj. destruct (caches ip (zget l j)) eqn:Ej; [|done]. rewrite (Hu j i ip) by done. by rewrite E.
  - apply scan_hit; [by rewrite Hl | done | done|]. intros j Hj Hcj. rewrite Hl in Hj. by eapply Hu.
Qed.
Lemma found_none now ip l : cache_ok l -> (forall i, 0 <= i < ARP_CACHE_SIZE -> caches ip (zget l i) = false) -> found now ip l = None.
Proof. intros [Hl _] Hno. apply scan_miss. intros i Hi. rewrite Hno by (by rewrite <- Hl). done. Qed.

(** Two caches with the same entries for [ip] give the same. *)
Lemma found_same now ip l l' : cache_ok l -> cache_ok l' ->
  (forall i, 0 <= i < ARP_CACHE_SIZE -> caches ip (zget l i) = true -> zget l' i = zget l i \/ expired now (zget l i) = true /\ zget l' i = invalidate (zget l i)) ->
  (forall i, 0 <= i < ARP_CACHE_SIZE -> caches ip (zget l' i) = true -> zget l' i = zget l i) ->
  found now ip l' = found now ip l.
Proof.
  intros Hl Hl' H1 H2. pose proof (zfind_spec 16 0 (fun i => caches ip (zget l i))) as Hz. destruct (zfind 16 0 _) as [i|].
  - destruct Hz as (Hi' & Hc & _). assert (0 <= i < ARP_CACHE_SIZE) as Hi by (unfold ARP_CACHE_SIZE; lia). rewrite (found_at now ip l i) by done. destruct (H1 i Hi Hc) as [E|[He E]].
    + rewrite (found_at now ip l' i); [by rewrite E | done | done | by rewrite E].
    + rewrite He. apply found_none; [done|]. intros j Hj. destruct (caches ip (zget l' j)) eqn:Ej; [|done].
      pose proof (H2 j Hj Ej) as Es. rewrite Es in Ej. assert (j = i) as -> by by apply (co_unique _ Hl j i ip). rewrite Es in E.
      unfold caches in Hc. rewrite E in Hc. done.
  - rewrite (found_none now ip l); [|done|intros i Hi; apply Hz; unfold ARP_CACHE_SIZE in Hi; lia]. apply found_none; [done|]. intros j Hj.
    destruct (caches ip (zget l' j)) eqn:Ej; [|done]. rewrite (H2 j Hj Ej) in Ej. by rewrite Hz in Ej by (unfold ARP_CACHE_SIZE in Hj; lia).
Qed.

(** ** Expired entries are dropped *)

(** [l'] is [l] with some entries dropped that had expired. *)
Definition fades (now : Z) (l l' : list arp_entry) : Prop :=
  zlen l' = zlen l /\ forall i, 0 <= i < zlen l -> zget l' i = zget l i \/ expired now (zget l i) = true /\ zget l' i = invalidate (zget l i).

Lemma fades_ok now l l' : fades now l l' -> cache_ok l -> cache_ok l' /\ forall ip, found now ip l' = found now ip l.
Proof.
  intros [Hlen Hf] Hok. pose proof (co_len _ Hok) as Hl. rewrite Hl in Hf.
  assert (forall i ip, 0 <= i < ARP_CACHE_SIZE -> caches ip (zget l' i) = true -> zget l' i = zget l i) as Hkeep.
  { intros i ip Hi Hc. destruct (Hf i Hi) as [|[_ E]]; [done|]. by rewrite E in Hc. }
  assert (cache_ok l') as Hok'.
  { split; [lia|]. intros i j ip Hi Hj Hci Hcj. rewrite (Hkeep i ip) in Hci by done. rewrite (Hkeep j ip) in Hcj by done. by apply (co_unique _ Hok i j ip). }
  split; [done|]. intros ip. apply found_same; [done | done | by intros i Hi _; apply Hf | intros i; apply Hkeep].
Qed.

Lemma fades_cons now e e' l l' : e' = e \/ expired now e = true /\ e' = invalidate e -> fades now l l' -> fades now (e :: l) (e' :: l').
Proof.
  intros He [Hl Hf]. split; [rewrite !zlen_cons; lia|]. rewrite zlen_cons. intros i Hi. destruct (decide (i = 0)) as [->|]; [exact He|].
  replace i with (i - 1 + 1) by lia. rewrite !zget_cons_succ by lia. apply Hf. lia.
Qed.
Lemma fades_refl now l : fades now l l.
Proof. split; [done|]. by left. Qed.
Lemma lookup_fades now ip l : fades now l (lookup_scan now ip l).2.
Proof.
  induction l as [|e l IH]; cbn [lookup_scan]; [apply fades_refl|]. destruct (caches ip e) eqn:Ec; cbn [andb].
  - destruct (expired now e) eqn:Ee; cbn [negb]; [|apply fades_refl]. destruct (lookup_scan now ip l). apply fades_cons; auto.
  - destruct (lookup_scan now ip l). apply fades_cons; auto.
Qed.
Lemma cleanup_fades now l : fades now l (cleanup_expired now l).
Proof.
  unfold cleanup_expired. induction l as [|e l IH]; cbn [fmap list_fmap]; [apply fades_refl|]. apply fades_cons; [|exact IH].
  destruct (ae_valid e), (expired now e) eqn:Ee; auto.
Qed.

(** ** Storing *)

Lemma caches_ip ip ip' e : caches ip e = true -> caches ip' e = true -> ip = ip'.
Proof. unfold caches. intros [_ H1%bool_decide_eq_true]%andb_true_iff [_ H2%bool_decide_eq_true]%andb_true_iff. congruence. Qed.

(** Entry [i] is replaced by one for [ip], which no other entry is for. *)
Lemma entry_set_ok l i ip e : cache_ok l -> 0 <= i < ARP_CACHE_SIZE -> caches ip e = true ->
  (forall j, 0 <= j < ARP_CACHE_SIZE -> caches ip (zget l j) = true -> j = i) -> cache_ok (zset l i e).
Proof.
  intros [Hl Hu] Hi He Hno. split; [by rewrite zlen_zset|]. intros j k ip' Hj Hk.
  assert (forall m, 0 <= m < ARP_CACHE_SIZE -> m <> i -> caches ip' (zget l m) = true -> caches ip' e = true -> False) as Hx.
  { intros m Hm Hne Hc Hc'. apply Hne, Hno; [done|]. by rewrite (caches_ip ip ip' e). }
  destruct (decide (j = i)) as [->|Hj']; destruct (decide (k = i)) as [->|Hk']; rewrite ?zget_zset_eq, ?zget_zset_ne by lia; intros H1 H2;
    [done | destruct (Hx k) | destruct (Hx j) | by eapply Hu]; done.
Qed.
(** Other addresses than those of the old and the new entry are not affected. *)
Lemma zset_others now l i ip ip' e : cache_ok l -> cache_ok (zset l i e) -> 0 <= i < ARP_CACHE_SIZE -> caches ip e = true -> ip' <> ip ->
  caches ip' (zget l i) = false -> found now ip' (zset l i e) = found now ip' l.
Proof.
  intros Hok Hok' Hi He Hne Hold. pose proof (co_len _ Hok). apply found_same; [done | done | |]; intros j Hj Hc; destruct (decide (j = i)) as [->|].
  - by rewrite Hc in Hold.
  - left. apply zget_zset_ne; lia.
  - rewrite zget_zset_eq in Hc by lia. by destruct Hne; apply (caches_ip _ _ e).
  - apply zget_zset_ne; lia.
Qed.

Lemma oldest_spec l : 0 <= oldest_entry l < ARP_CACHE_SIZE /\
  forall j, 0 <= j < ARP_CACHE_SIZE -> ae_timestamp (zget l (oldest_entry l)) <= ae_timestamp (zget l j).
Proof.
  unfold oldest_entry. set (body := fun i best => _). set (start := (0, _)).
  pose proof (zfor_ind (fun i (best : Z * Z) => 0 <= best.1 < i /\ best.2 = ae_timestamp (zget l best.1) /\
    forall j, 0 <= j < i -> best.2 <= ae_timestamp (zget l j)) body 15 1 start) as Hz. cbn beta in Hz.
  destruct Hz as (H1 & H2 & H3).
  - split_and!; cbn; [lia.. | done|]. intros j Hj. by replace j with 0 by lia.
  - intros i [b t] Hi (Hb & Ht & Hj). cbn [fst snd] in *. unfold body. cbn [fst snd]. destruct (Z.ltb_spec (ae_timestamp (zget l i)) t); cbn [fst snd].
    + split_and!; [lia.. | done|]. intros j Hj'. destruct (decide (j = i)) as [->|]; [lia|]. specialize (Hj j ltac:(lia)). lia.
    + split_and!; [lia.. | done|]. intros j Hj'. destruct (decide (j = i)) as [->|]; [lia|]. apply Hj. lia.
  - rewrite <- H2. split; [exact H1 | exact H3].
Qed.

(** Where an address is stored: in its own entry, a free one, or the oldest. *)
Lemma store_spec now ip mac l : cache_ok l -> exists i e,
  cache_store now ip mac l = zset l i e /\ 0 <= i < ARP_CACHE_SIZE /\
  caches ip e = true /\ ae_mac e = mac /\ ae_timestamp e = now /\
  (forall j, 0 <= j < ARP_CACHE_SIZE -> caches ip (zget l j) = true -> j = i) /\
  (caches ip (zget l i) = true \/ ae_valid (zget l i) = false \/
   i = oldest_entry l /\ forall j, 0 <= j < ARP_CACHE_SIZE -> ae_valid (zget l j) = true).
Proof.
  intros Hok. unfold cache_store. pose proof (zfind_spec 16 0 (fun i => caches ip (zget l i))) as Hz.
  assert (forall t, caches ip (mk_arp ip mac t true false) = true) as Hnew by (intros; unfold caches; cbn; by rewrite bool_decide_eq_true_2).
  destruct (zfind 16 0 (fun i => caches ip (zget l i))) as [i|].
  - destruct Hz as (Hi & Hc & _). eexists i, _. split; [done|]. split_and!; [unfold ARP_CACHE_SIZE; lia..|exact Hc|done|done| |by left].
    intros j Hj Hcj. apply (co_unique _ Hok j i ip); [done | unfold ARP_CACHE_SIZE; lia | done | done].
  - assert (forall j i, 0 <= j < ARP_CACHE_SIZE -> caches ip (zget l j) = true -> j = i) as Hno.
    { intros j i Hj Hc. by rewrite Hz in Hc by (unfold ARP_CACHE_SIZE in Hj; lia). }
    pose proof (zfind_spec 16 0 (fun i => negb (ae_valid (zget l i)))) as Hf. destruct (zfind 16 0 _) as [i|].
    + destruct Hf as (Hi & Hv & _). eexists i, _. split; [done|]. split_and!; [unfold ARP_CACHE_SIZE; lia..|apply Hnew|done|done|intros j; apply Hno|].
      right. left. by apply negb_true_iff.
    + eexists (oldest_entry l), _. split; [done|]. destruct (oldest_spec l) as [Hr _]. split_and!; [lia..|apply Hnew|done|done|intros j; apply Hno|].
      right. right. split; [done|]. intros j Hj. apply negb_false_iff, Hf. unfold ARP_CACHE_SIZE in Hj. lia.
Qed.

Lemma store_ok now ip mac l : cache_ok l -> cache_ok (cache_store now ip mac l).
Proof. intros Hok. destruct (store_spec now ip mac l Hok) as (i & e & -> & Hi & He & _ & _ & Hno & _). by apply (entry_set_ok l i ip). Qed.

Lemma fresh_entry now later e : 0 <= now <= later -> later < 2 ^ 64 -> ae_timestamp e = now -> later - now <= ARP_TIMEOUT_MS -> expired later e = false.
Proof.
  intros Hn Hl He Ha. unfold expired, u64. rewrite He, Z.mod_small by lia. rewrite (proj2 (Z.ltb_ge _ _)) by done. apply andb_false_r.
Qed.

(** ** Every sequence of operations *)

(** The operations on the cache, with the time at which they run. *)
Inductive cache_op :=
| CacheLookup (ip : list Z)
| CacheStore (ip mac : list Z)
| CacheCleanup.
Definition cache_step (l : list arp_entry) (op : Z * cache_op) : list arp_entry :=
  match op.2 with
  | CacheLookup ip => (lookup_scan op.1 ip l).2
  | CacheStore ip mac => cache_store op.1 ip mac l
  | CacheCleanup => cleanup_expired op.1 l
  end.
Definition cache_after (ops : list (Z * cache_op)) : list arp_entry := foldl cache_step (replicate 16 inhabitant) ops.

Lemma cache_boot_ok : cache_ok (replicate 16 inhabitant).
Proof.
  assert (forall i ip, 0 <= i < ARP_CACHE_SIZE -> caches ip (zget (replicate 16 inhabitant) i) = false) as Hz.
  { intros i ip Hi. erewrite (zget_lookup _ i); [|apply lookup_replicate_2; unfold ARP_CACHE_SIZE in Hi; lia]. done. }
  split; [done|]. intros i j ip Hi Hj Hc. by rewrite Hz in Hc.
Qed.
Lemma cache_after_ok ops : cache_ok (cache_after ops).
Proof.
  unfold cache_after. generalize cache_boot_ok. generalize (replicate 16 (inhabitant : arp_entry)). induction ops as [|[now op] ops IH]; intros l Hok; [done|].
  apply IH. destruct op; cbn [cache_step fst snd].
  - eapply fades_ok; [apply lookup_fades | done].
  - by apply store_ok.
  - eapply fades_ok; [apply cleanup_fades | done].
Qed.

(** C24 The ARP cache is a bounded map from addresses to stations.  After any
    sequence of lookups, insertions and cleanups: a station that is stored is
    found for the next 30 seconds; storing it does not change what is found for
    any other address, except for the one with the oldest timestamp when all
    sixteen entries are in use, which is forgotten; looking up an address and
    cleaning up change nothing of what is found. *)
Theorem arp_cache_correct (ops : list (Z * cache_op)) (now later : Z) (ip mac : list Z) :
  0 <= now <= later -> later < 2 ^ 64 -> later - now <= ARP_TIMEOUT_MS ->
  let l := cache_after ops in
  found later ip (cache_store now ip mac l) = Some mac /\
  (forall ip', ip' <> ip ->
     found later ip' (cache_store now ip mac l) = found later ip' l \/
     (forall j, 0 <= j < ARP_CACHE_SIZE -> ae_valid (zget l j) = true /\ ae_timestamp (zget l (oldest_entry l)) <= ae_timestamp (zget l j)) /\
     caches ip' (zget l (oldest_entry l)) = true /\ found later ip' (cache_store now ip mac l) = None) /\
  (forall ip', found now ip' (lookup_scan now ip l).2 = found now ip' l) /\
  (forall ip', found now ip' (cleanup_expired now l) = found now ip' l).
Proof.
  intros Hn Hl Ha l. pose proof (cache_after_ok ops) as Hok. fold l in Hok. pose proof (store_ok now ip mac l Hok) as Hok'.
  destruct (store_spec now ip mac l Hok) as (i & e & E & Hi & He & Hm & Ht & Hno & Hwhere). rewrite E in *. pose proof (co_len _ Hok) as Hlen.
  assert (zget (zset l i e) i = e) as Ei by (apply zget_zset_eq; lia). split_and!.
  - rewrite (found_at _ ip _ i) by (rewrite ?Ei; done). rewrite Ei, (fresh_entry now) by done. by rewrite Hm.
  - intros ip' Hne. destruct (caches ip' (zget l i)) eqn:Hold; [right|left; by apply (zset_others _ _ _ ip)].
    destruct Hwhere as [Hc|[Hv|[-> Hfull]]]; [by destruct Hne; apply (caches_ip _ _ (zget l i)) | unfold caches in Hold; by rewrite Hv in Hold|].
    split; [intros j Hj; split; [by apply Hfull | by apply oldest_spec]|]. split; [done|]. apply found_none; [done|]. intros j Hj.
    destruct (decide (j = oldest_entry l)) as [->|Hj'].
    + rewrite Ei. destruct (caches ip' e) eqn:Ec; [|done]. by destruct Hne; apply (caches_ip _ _ e).
    + rewrite zget_zset_ne by lia. destruct (caches ip' (zget l j)) eqn:Ec; [|done]. destruct Hj'. by apply (co_unique _ Hok j (oldest_entry l) ip').
  - intros ip'. eapply fades_ok; [apply lookup_fades | done].
  - intros ip'. eapply fades_ok; [apply cleanup_fades | done].
Qed.

(** The theorem at a cache with two entries, one of which has expired. *)
Lemma arp_cache_correct_witness :
  let l := cache_after [(5, CacheStore [10; 0; 0; 2] [2; 0; 0; 0; 0; 2]); (40000, CacheStore [10; 0; 0; 3] [2; 0; 0; 0; 0; 3])] in
  found 60000 [10; 0; 0; 4] (cache_store 50000 [10; 0; 0; 4] [2; 0; 0; 0; 0; 4] l) = Some [2; 0; 0; 0; 0; 4] /\
  found 60000 [10; 0; 0; 3] l = Some [2; 0; 0; 0; 0; 3] /\ found 60000 [10; 0; 0; 2] l = None.
Proof.
  split; [|split; vm_compute; reflexivity].
  apply (arp_cache_correct [(5, CacheStore [10; 0; 0; 2] [2; 0; 0; 0; 0; 2]); (40000, CacheStore [10; 0; 0; 3] [2; 0; 0; 0; 0; 3])] 50000 60000); [lia | lia|].
  unfold ARP_TIMEOUT_MS. lia.
Defined.
