(* ===== verification/Ip.v ===== *)
(** * IPv4

    src/net_ip.c: sending with routing, fragmentation and the queue of
    datagrams that wait for ARP, the loopback ring, reassembly, and the receive
    path up to the call of the transport.  The operations of src/net_arp.c that
    flush the queue are at the end. *)
From S2P Require Import Prelude Heap TcpSeg Net Arp.

Definition IP_PROTO_ICMP : Z := 1.
Definition IP_PROTO_TCP : Z := 6.
Definition IP_PROTO_UDP : Z := 17.
Definition IP_FLAG_DF : Z := 0x4000.
Definition IP_FLAG_MF : Z := 0x2000.
Definition IP_FRAG_MAX_SLOTS : Z := 8.
Definition IP_FRAG_MAX_SIZE : Z := 65535.
Definition IP_FRAG_TIMEOUT_MS : Z := 15000.
Definition IP_MTU : Z := 1500.
Definition IP_LO_MAX : Z := 512.
Definition IP_ARPQ_SLOTS : Z := 16.
Definition IP_ARPQ_MAX_AGE_MS : Z := 3000.
(** [sizeof(ip_frag_piece_t)] *)
Definition piece_size : Z := 24.

(** ** Header checksum *)

(** [while (sum >> 16)] *)
Fixpoint fold_carries (fuel : nat) (sum : Z) : Z :=
  match fuel with
  | O => sum
  | S fuel => if Z.shiftr sum 16 =? 0 then sum else fold_carries fuel (fold_carry sum)
  end.
(** Two rounds reduce any 32-bit sum. *)
Definition ip_header_checksum_bytes (header_bytes : list Z) : Z :=
  u16 (Z.lnot (fold_carries 3 (sum_words 0 header_bytes))).

(** ** The frame of a datagram or fragment *)

(** The IPv4 header with the given checksum field, as stored; [flags_nbo] is
    already swapped. *)
Definition ip_header_with (total_len ip_id flags_nbo protocol checksum : Z) (src dst : list Z) : list Z :=
  [0x45; 0] ++ le16 (bswap16 total_len) ++ le16 (bswap16 ip_id) ++ le16 flags_nbo ++ [64; protocol] ++
  le16 (bswap16 checksum) ++ src ++ dst.
Definition ip_header (total_len ip_id flags_nbo protocol : Z) (src dst : list Z) : list Z :=
  ip_header_with total_len ip_id flags_nbo protocol
    (ip_header_checksum_bytes (ip_header_with total_len ip_id flags_nbo protocol 0 src dst)) src dst.
Definition ip_frame (dst_mac our_mac our_ip dst_ip : list Z) (protocol ip_id flags_nbo : Z) (payload : list Z) : list Z :=
  dst_mac ++ our_mac ++ [0x08; 0x00] ++ ip_header (u16 (20 + zlen payload)) ip_id flags_nbo protocol our_ip dst_ip ++ payload.

Definition is_zero_ip (ip : list Z) : bool := Z.lor (Z.lor (Z.lor (zget ip 0) (zget ip 1)) (zget ip 2)) (zget ip 3) =? 0.
Definition is_broadcast (ip : list Z) : bool := (zget ip 0 =? 255) && (zget ip 1 =? 255) && (zget ip 2 =? 255) && (zget ip 3 =? 255).

(** Whether two addresses differ under the mask. *)
Definition off_subnet (our_ip dst_ip mask : list Z) : bool :=
  negb (Z.land (zget our_ip 0) (zget mask 0) =? Z.land (zget dst_ip 0) (zget mask 0)) ||
  negb (Z.land (zget our_ip 1) (zget mask 1) =? Z.land (zget dst_ip 1) (zget mask 1)) ||
  negb (Z.land (zget our_ip 2) (zget mask 2) =? Z.land (zget dst_ip 2) (zget mask 2)) ||
  negb (Z.land (zget our_ip 3) (zget mask 3) =? Z.land (zget dst_ip 3) (zget mask 3)).

Definition next_hop (our_ip mask gw dst_ip : list Z) : list Z :=
  if negb (is_broadcast dst_ip) && (is_zero_ip mask || off_subnet our_ip dst_ip mask) && negb (is_zero_ip gw) then gw else dst_ip.

(** ** Slots *)

Definition free_arpq (q : list ip_arpq_entry_t) : option Z := zfind 16 0 (fun i => negb (aq_valid (zget q i))).
(** The entry that waits longest, the first of them. *)
Definition oldest_arpq (q : list ip_arpq_entry_t) : Z :=
  zfor 16 0 (fun i oldest => if aq_queued_at (zget q i) <? aq_queued_at (zget q oldest) then i else oldest) 0.
Definition release_arpq (e : ip_arpq_entry_t) : ip_arpq_entry_t :=
  mk_arpq false (aq_next_hop e) (aq_dst_ip e) (aq_protocol e) 0 [] (aq_queued_at e).

Definition slot_for (src dst : list Z) (id protocol : Z) (s : ip_frag_slot_t) : bool :=
  fs_active s && (fs_id s =? id) && (fs_protocol s =? protocol) && bool_decide (fs_src_ip s = src) && bool_decide (fs_dst_ip s = dst).
Definition new_slot (src dst : list Z) (id protocol now : Z) : ip_frag_slot_t := mk_slot src dst id protocol true 0 0 now [].
Definition freed_slot (s : ip_frag_slot_t) : ip_frag_slot_t :=
  mk_slot (fs_src_ip s) (fs_dst_ip s) (fs_id s) (fs_protocol s) false 0 0 (fs_first_seen_ms s) [].
Definition oldest_slot (l : list ip_frag_slot_t) : Z :=
  (zfor 7 1 (fun i best => if fs_first_seen_ms (zget l i) <? best.2 then (i, fs_first_seen_ms (zget l i)) else best)
    (0, fs_first_seen_ms (zget l 0))).1.

(** A piece goes in front of the first one that does not start before it. *)
Fixpoint insert_piece (p : ip_frag_piece_t) (l : list ip_frag_piece_t) : list ip_frag_piece_t :=
  match l with
  | [] => [p]
  | q :: l' => if pc_offset q <? pc_offset p then q :: insert_piece p l' else p :: l
  end.

(** The check for gaps: where the pieces end, if each starts where the one
    before it ends. *)
Fixpoint contiguous_end (expected_offset : Z) (l : list ip_frag_piece_t) : option Z :=
  match l with
  | [] => Some expected_offset
  | p :: l => if pc_offset p =? expected_offset then contiguous_end (u16 (expected_offset + pc_length p)) l else None
  end.

Definition enough_bytes (s : ip_frag_slot_t) : bool := (0 <? fs_total_len s) && (fs_total_len s <=? fs_received_bytes s).
Definition slot_complete (s : ip_frag_slot_t) : bool :=
  enough_bytes s &&
  match contiguous_end 0 (fs_pieces s) with Some e => e =? fs_total_len s | None => false end.

Definition slot_add (p : ip_frag_piece_t) (more_fragments : bool) (s : ip_frag_slot_t) : ip_frag_slot_t :=
  mk_slot (fs_src_ip s) (fs_dst_ip s) (fs_id s) (fs_protocol s) (fs_active s)
    (if more_fragments then fs_total_len s else u16 (pc_offset p + pc_length p))
    (u16 (fs_received_bytes s + pc_length p)) (fs_first_seen_ms s) (insert_piece p (fs_pieces s)).

(** The copies into the new buffer, whose first content is arbitrary. *)
Definition copy_pieces (buf : list Z) (l : list ip_frag_piece_t) : list Z :=
  foldl (fun buf p => splice buf (pc_offset p) (ztake (pc_length p) (pc_bytes p))) buf l.

(** What the receive path hands to the transports. *)
Inductive upcall :=
| EchoRequest (src_ip packet : list Z)
| IcmpPacket (packet : list Z)
| TcpFrame (frame : list Z)
| UdpFrame (frame : list Z).

(** The two switches on the protocol, for a frame whose transport payload of
    [payload_len] bytes starts at [start]. *)
Definition dispatch (frame : list Z) (start protocol payload_len : Z) : option upcall :=
  if protocol =? IP_PROTO_ICMP then
    if 8 <=? payload_len then
      let packet := ztake payload_len (zdrop start frame) in
      if zget packet 0 =? 8 then Some (EchoRequest (ztake 4 (zdrop 26 frame)) packet) else Some (IcmpPacket packet)
    else None
  else if protocol =? IP_PROTO_TCP then Some (TcpFrame frame)
  else if protocol =? IP_PROTO_UDP then Some (UdpFrame frame)
  else None.

(** How far into its frame the receiver of the call reads. *)
Definition extent (u : upcall) : Z :=
  match u with
  | EchoRequest _ packet | IcmpPacket packet => 34 + zlen packet
  | TcpFrame frame | UdpFrame frame => zlen frame
  end.

Definition known_protocol (protocol : Z) : bool := (protocol =? IP_PROTO_ICMP) || (protocol =? IP_PROTO_TCP) || (protocol =? IP_PROTO_UDP).

(** The frame built for a reassembled datagram. *)
Definition synth_frame (frame reassembled : list Z) : list Z :=
  let synth_total := u16 (20 + zlen reassembled) in
  let h := ztake 34 frame in
  let h := zset (zset h 16 (u8 (Z.shiftr synth_total 8))) 17 (u8 (Z.land synth_total 0xFF)) in
  zset (zset h 20 0) 21 0 ++ reassembled.

Section ip.
Context {B : Type} `{!KHeap B} `{!NetHw B}.
Abbreviation nact := (nact (B := B)).

Definition ip_init : nact unit := put (set_ip_id 0).

(** [__atomic_fetch_add(&ip_id_counter, 1)] *)
Definition next_id : nact Z :=
  id ← get ip_id_counter;
  _ ← put (set_ip_id (u16 (id + 1)));
  mret id.

(** ** Loopback *)

Definition ip_is_local_dst (dst : list Z) (n : net B) : bool :=
  if zget dst 0 =? 127 then true
  else
    let our := net_get_ip_address n in
    if is_zero_ip our then false else bool_decide (dst = our).

Definition ip_select_src (dst : list Z) (n : net B) : list Z := if zget dst 0 =? 127 then dst else net_get_ip_address n.

(** The frame is complete before it is queued; a full ring drops it. *)
Definition ip_lo_enqueue (dst_ip : list Z) (protocol : Z) (payload : list Z) : nact Z :=
  let total := 20 + zlen payload in
  if 0xFFFF <? total then mret (-1)
  else
    f ← kalloc_n (14 + total);
    if f =? 0 then mret (-1)
    else
      mac ← get net_get_mac_address;
      id ← next_id;
      src ← get (ip_select_src dst_ip);
      let bytes := ip_frame mac mac src dst_ip protocol id (bswap16 IP_FLAG_DF) payload in
      _ ← touch f (34 + zlen payload);
      lo ← get ip_lo;
      if IP_LO_MAX <=? ip_lo_count lo then
        _ ← kfree_n f;
        mret 0
      else
        _ ← put (set_ip_lo (mk_lo (zset (ip_lo_frame lo) (ip_lo_tail lo) (f, bytes)) (zset (ip_lo_flen lo) (ip_lo_tail lo) (14 + total))
              (ip_lo_head lo) ((ip_lo_tail lo +32 1) mod IP_LO_MAX) (ip_lo_count lo +32 1) (ip_lo_draining lo)));
        mret 0.

Definition ip_loopback_pending (n : net B) : bool := negb (ip_lo_count (ip_lo n) =? 0).

(** Taking the frame at the head off the ring. *)
Definition lo_dequeue : nact (option (Z * list Z)) :=
  lo ← get ip_lo;
  if ip_lo_count lo =? 0 then mret None
  else
    let '(f, bytes) := zget (ip_lo_frame lo) (ip_lo_head lo) in
    let len := zget (ip_lo_flen lo) (ip_lo_head lo) in
    _ ← put (set_ip_lo (mk_lo (zset (ip_lo_frame lo) (ip_lo_head lo) (0, [])) (ip_lo_flen lo)
          ((ip_lo_head lo +32 1) mod IP_LO_MAX) (ip_lo_tail lo) (ip_lo_count lo -32 1) (ip_lo_draining lo)));
    mret (Some (f, ztake len bytes)).

(** ** Sending *)

Definition ip_send_frame (dst_mac our_ip dst_ip : list Z) (protocol ip_id flags_frag_nbo : Z) (payload : list Z) : nact Z :=
  let total_len := u16 (20 + zlen payload) in
  packet ← kalloc_n (14 + total_len);
  if packet =? 0 then mret (-1)
  else
    our_mac ← get net_get_mac_address;
    _ ← touch packet (34 + zlen payload);
    result ← in_use_n packet (14 + total_len) (net_send_packet (ip_frame dst_mac our_mac our_ip dst_ip protocol ip_id flags_frag_nbo payload));
    _ ← kfree_n packet;
    mret result.

Definition max_frag_payload : Z := (IP_MTU - 20) / 8 * 8.

(** The fragment at [offset]: its size and its flags in host order. *)
Definition frag_chunk (payload_len offset : Z) : Z := let chunk := payload_len - offset in if max_frag_payload <? chunk then max_frag_payload else chunk.
Definition frag_flags (payload_len offset : Z) : Z :=
  if max_frag_payload <? payload_len - offset then Z.lor (offset / 8) IP_FLAG_MF else offset / 8.

Fixpoint send_fragments (fuel : nat) (dst_mac our_ip dst_ip : list Z) (protocol id : Z) (payload : list Z) (offset : Z) : nact Z :=
  match fuel with
  | O => mret 0
  | S fuel =>
      if negb (offset <? zlen payload) then mret 0
      else
        let chunk := frag_chunk (zlen payload) offset in
        result ← ip_send_frame dst_mac our_ip dst_ip protocol id (bswap16 (frag_flags (zlen payload) offset))
                   (ztake chunk (zdrop offset payload));
        if negb (result =? 0) then mret (-1)
        else send_fragments fuel dst_mac our_ip dst_ip protocol id payload (u16 (offset + chunk))
  end.

Definition ip_arpq_enqueue (hop dst_ip : list Z) (protocol : Z) (payload : list Z) : nact Z :=
  copy ← (if 0 <? zlen payload then kalloc_n (zlen payload) else mret 0);
  if (0 <? zlen payload) && (copy =? 0) then mret (-1)
  else
    _ ← only_if (0 <? zlen payload) (touch copy (zlen payload));
    q ← get ip_arpq;
    now ← now_ms;
    let slot := match free_arpq q with Some i => i | None => oldest_arpq q end in
    let evicted := match free_arpq q with Some _ => 0 | None => aq_payload (zget q slot) end in
    _ ← put (set_ip_arpq (zset q slot (mk_arpq true hop dst_ip protocol copy payload now)));
    _ ← only_if (negb (evicted =? 0)) (kfree_n evicted);
    mret 0.

(** The datagram goes out in one frame or in fragments to a known MAC address. *)
Definition ip_transmit (dst_mac our_ip dst_ip : list Z) (protocol : Z) (payload : list Z) : nact Z :=
  current_id ← next_id;
  if zlen payload <=? IP_MTU - 20 then
    ip_send_frame dst_mac our_ip dst_ip protocol current_id (bswap16 IP_FLAG_DF) payload
  else send_fragments (length payload) dst_mac our_ip dst_ip protocol current_id payload 0.

Definition ip_send_packet (dst_ip : list Z) (protocol : Z) (payload : list Z) : nact Z :=
  local ← get (ip_is_local_dst dst_ip);
  if (local : bool) then ip_lo_enqueue dst_ip protocol payload
  else
    our_ip ← get net_get_ip_address;
    mask ← get net_get_subnet_mask;
    gw ← get net_get_gateway;
    let hop := next_hop our_ip mask gw dst_ip in
    dst_mac ← (if is_broadcast dst_ip then mret (Some (replicate 6 0xFF)) else arp_resolve hop);
    match dst_mac with
    | None => ip_arpq_enqueue hop dst_ip protocol payload
    | Some dst_mac => ip_transmit dst_mac our_ip dst_ip protocol payload
    end.

(** ** Datagrams that wait for ARP *)

Definition resolved_slot (ip : list Z) (i : Z) : nact unit :=
  q ← get ip_arpq;
  let e := zget q i in
  if negb (aq_valid e) || negb (bool_decide (aq_next_hop e = ip)) then mret tt
  else
    _ ← put (set_ip_arpq (zset q i (release_arpq e)));
    _ ← in_use_opt (aq_payload e) (zlen (aq_bytes e)) (ip_send_packet (aq_dst_ip e) (aq_protocol e) (aq_bytes e));
    only_if (negb (aq_payload e =? 0)) (kfree_n (aq_payload e)).
Definition ip_arp_resolved (ip : list Z) : nact unit := loop 16 0 (resolved_slot ip).

Definition tick_slot (now i : Z) : nact unit :=
  q ← get ip_arpq;
  let e := zget q i in
  if negb (aq_valid e) then mret tt
  else
    let expired := IP_ARPQ_MAX_AGE_MS <? now -64 aq_queued_at e in
    let drop := if expired then aq_payload e else 0 in
    _ ← only_if expired (put (set_ip_arpq (zset q i (release_arpq e))));
    if negb (drop =? 0) then kfree_n drop
    else
      mac ← arp_resolve (aq_next_hop e);
      match mac with Some _ => ip_arp_resolved (aq_next_hop e) | None => mret tt end.
Definition ip_arpq_tick : nact unit :=
  now ← now_ms;
  loop 16 0 (tick_slot now).

(** The part of src/net_arp.c that learns an address: the datagrams that wait
    for it go out. *)
Definition arp_insert (ip mac : list Z) : nact unit :=
  _ ← arp_cache_store ip mac;
  ip_arp_resolved ip.

Definition arp_add_static (ip mac : list Z) : nact unit :=
  now ← now_ms;
  l ← get arp_cache;
  match zfind 16 0 (fun i => caches ip (zget l i)) with
  | Some i => put (set_arp_cache (zset l i (mk_arp (ae_ip (zget l i)) mac now true true)))
  | None =>
      _ ← arp_insert ip mac;
      l ← get arp_cache;
      match zfind 16 0 (fun i => caches ip (zget l i)) with
      | Some i => let e := zget l i in put (set_arp_cache (zset l i (mk_arp (ae_ip e) (ae_mac e) (ae_timestamp e) (ae_valid e) true)))
      | None => mret tt
      end
  end.

Definition arp_handle_packet (frame : list Z) : nact unit :=
  if zlen frame <? 42 then mret tt
  else
    let opcode := bswap16 (get16 frame 20) in
    let sender_mac := ztake 6 (zdrop 22 frame) in
    let sender_ip := ztake 4 (zdrop 28 frame) in
    let target_ip := ztake 4 (zdrop 38 frame) in
    our_ip ← get net_get_ip_address;
    if negb (bool_decide (target_ip = our_ip)) then mret tt
    else if opcode =? ARP_REQUEST then
      _ ← arp_insert sender_ip sender_mac;
      our_mac ← get net_get_mac_address;
      _ ← net_send_packet (arp_frame sender_mac our_mac ARP_REPLY our_mac our_ip sender_mac sender_ip 22);
      mret tt
    else if opcode =? ARP_REPLY then
      _ ← clear_pending sender_ip;
      arp_insert sender_ip sender_mac
    else mret tt.

(** ** Reassembly *)

Definition slot_at (i : Z) : nact ip_frag_slot_t := get (fun n => zget (ip_frag_slots n) i).
Definition set_slot (i : Z) (s : ip_frag_slot_t) : nact unit := put (fun n => set_ip_frag (zset (ip_frag_slots n) i s) n).

(** A walk along the list reads every piece. *)
Fixpoint touch_pieces (l : list ip_frag_piece_t) : nact unit :=
  match l with
  | [] => mret tt
  | p :: l => _ ← touch (pc_self p) piece_size; touch_pieces l
  end.
(** The copies of [ip_frag_reassemble]. *)
Fixpoint touch_copies (buf : Z) (l : list ip_frag_piece_t) : nact unit :=
  match l with
  | [] => mret tt
  | p :: l =>
      _ ← touch (pc_self p) piece_size;
      _ ← touch (pc_data p) (pc_length p);
      _ ← touch buf (pc_offset p + pc_length p);
      touch_copies buf l
  end.

Fixpoint free_pieces (l : list ip_frag_piece_t) : nact unit :=
  match l with
  | [] => mret tt
  | p :: l =>
      _ ← touch (pc_self p) piece_size;
      _ ← only_if (negb (pc_data p =? 0)) (kfree_n (pc_data p));
      _ ← kfree_n (pc_self p);
      free_pieces l
  end.
Definition ip_frag_slot_free (i : Z) : nact unit :=
  s ← slot_at i;
  _ ← free_pieces (fs_pieces s);
  set_slot i (freed_slot s).

(** The slot of a datagram: its own, a free one, or the oldest. *)
Definition ip_frag_find_or_create (src dst : list Z) (id protocol : Z) : nact Z :=
  l ← get ip_frag_slots;
  match zfind 8 0 (fun i => slot_for src dst id protocol (zget l i)) with
  | Some i => mret i
  | None =>
      now ← now_ms;
      match zfind 8 0 (fun i => negb (fs_active (zget l i))) with
      | Some i => _ ← set_slot i (new_slot src dst id protocol now); mret i
      | None =>
          let i := oldest_slot l in
          _ ← ip_frag_slot_free i;
          _ ← set_slot i (new_slot src dst id protocol now);
          mret i
      end
  end.

Definition ip_frag_add (i offset : Z) (data : list Z) (more_fragments : bool) : nact bool :=
  piece ← kalloc_n piece_size;
  if piece =? 0 then mret false
  else
    _ ← touch piece piece_size;
    copy ← kalloc_n (zlen data);
    if copy =? 0 then _ ← kfree_n piece; mret false
    else
      _ ← touch copy (zlen data);
      s ← slot_at i;
      _ ← touch_pieces (fs_pieces s);
      _ ← touch piece piece_size;
      let s := slot_add (mk_piece piece offset (zlen data) copy data) more_fragments s in
      _ ← set_slot i s;
      _ ← only_if (enough_bytes s) (touch_pieces (fs_pieces s));
      mret (slot_complete s).

(** The buffer and what is in it, or no buffer. *)
Definition ip_frag_reassemble (i : Z) : nact (Z * list Z) :=
  s ← slot_at i;
  if fs_total_len s =? 0 then mret (0, [])
  else
    buf ← kalloc_n (fs_total_len s);
    if buf =? 0 then mret (0, [])
    else
      _ ← touch_copies buf (fs_pieces s);
      mret (buf, copy_pieces (zeros (Z.to_nat (fs_total_len s))) (fs_pieces s)).

Definition cleanup_slot (now i : Z) : nact unit :=
  s ← slot_at i;
  only_if (fs_active s && (IP_FRAG_TIMEOUT_MS <? now -64 fs_first_seen_ms s)) (ip_frag_slot_free i).
Definition ip_fragment_cleanup : nact unit :=
  now ← now_ms;
  loop 8 0 (cleanup_slot now).

(** ** The receive path *)

(** What is to be handed up, and the buffer that is freed afterwards. *)
Definition delivery : Type := option upcall * Z.

(** A fragment of [payload_len] bytes at [start] in the frame. *)
Definition ip_fragment_input (frame : list Z) (start payload_len frag_offset id : Z) (more_fragments : bool) : nact delivery :=
  let protocol := zget frame 23 in
  i ← ip_frag_find_or_create (ztake 4 (zdrop 26 frame)) (ztake 4 (zdrop 30 frame)) id protocol;
  if IP_FRAG_MAX_SIZE <? frag_offset + payload_len then mret (None, 0)
  else
    complete ← ip_frag_add i frag_offset (ztake payload_len (zdrop start frame)) more_fragments;
    if negb complete then mret (None, 0)
    else
      r ← ip_frag_reassemble i;
      _ ← ip_frag_slot_free i;
      if r.1 =? 0 then mret (None, 0)
      else
        synth ← kalloc_n (34 + zlen r.2);
        if synth =? 0 then _ ← kfree_n r.1; mret (None, 0)
        else
          let f := synth_frame frame r.2 in
          _ ← touch synth 34;
          _ ← touch r.1 (zlen r.2);
          _ ← touch synth (34 + zlen r.2);
          _ ← kfree_n r.1;
          mret (dispatch f 34 protocol (zlen r.2), synth).

(** The checks of [ip_handle_packet] that end in a count of malformed frames;
    the header checksum is computed with its field zeroed. *)
Definition ip_header_ok (frame : list Z) : bool :=
  let header_len := Z.land (zget frame 14) 0xF * 4 in
  bool_decide (bswap16 (get16 frame 24) = ip_header_checksum_bytes (ztake header_len (zdrop 14 (zset (zset frame 24 0) 25 0)))).
(** The bytes of the checksum field are put back in the other order. *)
Definition swap_checksum (frame : list Z) : list Z := zset (zset frame 24 (zget frame 25)) 25 (zget frame 24).

Definition for_us (frame our_ip : list Z) : bool :=
  let dst := ztake 4 (zdrop 30 frame) in
  is_broadcast dst || is_zero_ip our_ip || (zget dst 0 =? 127) || bool_decide (dst = our_ip).

Definition malformed : nact delivery := _ ← net_rx_count_malformed; mret (None, 0).

Definition ip_input (frame : list Z) : nact delivery :=
  let len := zlen frame in
  if len <? 34 then malformed
  else
    let version := Z.land (Z.shiftr (zget frame 14) 4) 0xF in
    let header_len := Z.land (zget frame 14) 0xF * 4 in
    if negb (version =? 4) then malformed
    else if (header_len <? 20) || (len <? 14 + header_len) then malformed
    else
      our_ip ← get net_get_ip_address;
      if negb (for_us frame our_ip) then mret (None, 0)
      else if negb (ip_header_ok frame) then malformed
      else
        let frame := swap_checksum frame in
        let total_len := bswap16 (get16 frame 16) in
        if total_len <? header_len then malformed
        else if len <? 14 + total_len then malformed
        else
          let payload_len := total_len - header_len in
          let src_ip := ztake 4 (zdrop 26 frame) in
          _ ← only_if (negb (zget frame 30 =? 127) && negb (zget src_ip 0 =? 127) && negb (bool_decide (src_ip = our_ip)))
                (arp_insert src_ip (ztake 6 (zdrop 6 frame)));
          let flags_frag_raw := net16 frame 20 in
          let more_fragments := has flags_frag_raw IP_FLAG_MF in
          let frag_offset := Z.land flags_frag_raw 0x1FFF * 8 in
          if more_fragments || (0 <? frag_offset) then
            ip_fragment_input frame (14 + header_len) payload_len frag_offset (net16 frame 18) more_fragments
          else
            let protocol := zget frame 23 in
            _ ← only_if (negb (known_protocol protocol)) (net_rx_count_ip_proto protocol);
            mret (dispatch frame (14 + header_len) protocol payload_len, 0).
End ip.
