(* ===== verification/IpFrag.v ===== *)
(** * IPv4: fragments and reassembly

    The pieces that [ip_send_packet] of src/net_ip.c cuts a datagram into, and
    the slot in which the receiver collects them in any order. *)
From stdpp Require Import sorting.
From S2P Require Import Prelude Heap TcpSeg TcpWire Net Arp Ip.

(** * IPv4 frames as bytes

    What the receive path of src/net_ip.c reads from a frame that the sending
    path built. *)

(** ** The header checksum *)

Lemma shiftr16_zero x : 0 <= x -> (Z.shiftr x 16 =? 0) = (x <? 65536).
Proof.
  intros Hx. rewrite Z.shiftr_div_pow2 by lia. change (2 ^ 16) with 65536.
  destruct (Z.ltb_spec x 65536) as [Hlt|Hge].
  - rewrite Z.div_small by lia. done.
  - apply Z.eqb_neq. pose proof (Z.div_le_lower_bound x 65536 1). lia.
Qed.

(** The loop ends after at most two rounds, with the ones' complement sum. *)
Lemma fold_carries_spec k x : 0 <= x < 2 ^ 32 -> fold_carries (S (S k)) x = ones_sum x.
Proof.
  intros Hx. assert (forall j y, 0 <= y < 65536 -> fold_carries j y = y) as Hsmall.
  { intros [|j] y Hy; cbn [fold_carries]; [done|]. rewrite shiftr16_zero by lia. destruct (Z.ltb_spec y 65536); [done | lia]. }
  assert (forall y, 0 <= y < 65536 -> ones_sum y = y) as Hones.
  { intros y Hy. unfold ones_sum. destruct (Z.eqb_spec y 0); [lia|]. destruct (decide (y = 65535)) as [->|]; [done|].
    rewrite Z.mod_small; lia. }
  cbn [fold_carries]. rewrite shiftr16_zero by lia. destruct (Z.ltb_spec x 65536); [by rewrite Hones by lia|].
  pose proof (fold_carry_spec x Hx) as Hf. pose proof (Z.mod_pos_bound x 65536 ltac:(lia)).
  assert (0 <= x / 65536 < 65536) by (split; [apply Z.div_pos; lia | apply Z.div_lt_upper_bound; lia]).
  rewrite shiftr16_zero by lia. destruct (Z.ltb_spec (fold_carry x) 65536) as [Hlt|Hge].
  - rewrite <- fold_carry_twice by done. rewrite (fold_carry_spec (fold_carry x)) by lia. rewrite Z.div_small, Z.mod_small by lia. lia.
  - rewrite fold_carry_twice by done. apply Hsmall. pose proof (ones_sum_bounds x). lia.
Qed.

Lemma ip_checksum_sum l : bytes_ok l -> zlen l <= 65535 -> ip_header_checksum_bytes l = 65535 - ones_sum (words l).
Proof.
  intros Hl Hz. pose proof (words_bounds l Hl) as Hw.
  assert ((zlen l + 1) / 2 <= 32768) by (apply Z.div_le_upper_bound; lia).
  unfold ip_header_checksum_bytes. rewrite sum_words_spec by done.
  rewrite fold_carries_spec by (case_decide; [lia | apply u32_bound]).
  rewrite u16_lnot by (apply ones_sum_bounds; case_decide; [lia | apply u32_bound]).
  case_decide as E; [by rewrite E|]. rewrite u32_small by lia. done.
Qed.
Lemma ip_checksum_u16 l : 0 <= ip_header_checksum_bytes l < 2 ^ 16.
Proof. unfold ip_header_checksum_bytes, u16. apply Z.mod_pos_bound. lia. Qed.

(** ** The 34 bytes in front of the payload *)

(** Ethernet and IPv4 header; [flags] and [checksum] in host order. *)
Definition ip_pre (dm om : list Z) (total id flags protocol checksum : Z) (src dst : list Z) : list Z :=
  dm ++ om ++ [0x08; 0x00] ++ [0x45; 0] ++ be16 total ++ be16 id ++ be16 flags ++ [64; protocol] ++ be16 checksum ++ src ++ dst.

Lemma ip_frame_pre dm om src dst protocol id flags payload :
  ip_frame dm om src dst protocol id (bswap16 flags) payload =
  ip_pre dm om (u16 (20 + zlen payload)) id flags protocol
    (ip_header_checksum_bytes (ip_header_with (u16 (20 + zlen payload)) id (bswap16 flags) protocol 0 src dst)) src dst ++ payload.
Proof.
  unfold ip_frame, ip_header, ip_pre. set (cs := ip_header_checksum_bytes _). unfold ip_header_with. rewrite !le16_bswap16.
  rewrite <- !app_assoc. done.
Qed.

Lemma six (l : list Z) : zlen l = 6 -> exists a b c d e f, l = [a; b; c; d; e; f].
Proof.
  intros Hl. unfold zlen in Hl. destruct l as [|a [|b [|c [|d [|e [|f [|]]]]]]]; cbn in Hl; try lia. by exists a, b, c, d, e, f.
Qed.

(** Addresses of the right length. *)
Record addresses (dm om src dst : list Z) : Prop := {
  ad_dm : zlen dm = 6 /\ bytes_ok dm;
  ad_om : zlen om = 6 /\ bytes_ok om;
  ad_src : zlen src = 4 /\ bytes_ok src;
  ad_dst : zlen dst = 4 /\ bytes_ok dst;
}.

Ltac explode_addresses :=
  match goal with H : addresses ?dm ?om ?src ?dst |- _ =>
    let H1 := fresh in let H2 := fresh in let H3 := fresh in let H4 := fresh in
    let B1 := fresh in let B2 := fresh in let B3 := fresh in let B4 := fresh in
    destruct H as [[H1 B1] [H2 B2] [H3 B3] [H4 B4]];
    destruct (six dm H1) as (? & ? & ? & ? & ? & ? & ->), (six om H2) as (? & ? & ? & ? & ? & ? & ->),
      (quad src H3) as (? & ? & ? & ? & ->), (quad dst H4) as (? & ? & ? & ? & ->)
  end.

Lemma be16_join x : 0 <= x < 2 ^ 16 -> Z.lor (Z.shiftl (u8 (Z.shiftr x 8)) 8) (u8 x) = x.
Proof. intros Hx. rewrite lor_bytes by apply u8_bound. exact (be16_value x Hx). Qed.
Lemma be16_swap x : 0 <= x < 2 ^ 16 -> bswap16 (Z.lor (u8 (Z.shiftr x 8)) (Z.shiftl (u8 x) 8)) = x.
Proof.
  intros Hx. rewrite Z.lor_comm, lor_bytes by apply u8_bound. rewrite bswap16_add.
  pose proof (u8_bound x). pose proof (u8_bound (Z.shiftr x 8)). change 256 with (2 ^ 8).
  rewrite u8_add_high, shiftr_add_high, !(u8_small (u8 _)) by lia. by apply be16_value.
Qed.
Lemma be16_bswap16 x : be16 (bswap16 x) = [u8 x; u8 (Z.shiftr x 8)].
Proof.
  rewrite bswap16_add. unfold be16. pose proof (u8_bound x). pose proof (u8_bound (Z.shiftr x 8)).
  rewrite u8_add_high, shiftr_add_high, !(u8_small (u8 _)) by lia. done.
Qed.

Section pre.
Context (dm om src dst : list Z) (total id flags protocol checksum : Z) (rest : list Z).
Context (Ha : addresses dm om src dst).
Abbreviation frame := (ip_pre dm om total id flags protocol checksum src dst ++ rest).

Lemma pre_len : zlen (ip_pre dm om total id flags protocol checksum src dst) = 34.
Proof. explode_addresses. done. Qed.
Lemma pre_bytes : is_u8 protocol -> bytes_ok (ip_pre dm om total id flags protocol checksum src dst).
Proof.
  intros Hp. destruct Ha as [[_ B1] [_ B2] [_ B3] [_ B4]]. unfold ip_pre.
  assert (is_u8 8 /\ is_u8 0 /\ is_u8 0x45 /\ is_u8 64) as (? & ? & ? & ?) by (unfold is_u8; lia).
  repeat first [apply Forall_app_2 | apply be16_ok | apply Forall_cons_2 | apply Forall_nil_2 | assumption].
Qed.
Lemma pre_ihl : zget frame 14 = 0x45.
Proof. explode_addresses. done. Qed.
Lemma pre_total : 0 <= total < 2 ^ 16 -> bswap16 (get16 frame 16) = total.
Proof. explode_addresses. apply be16_swap. Qed.
Lemma pre_id : 0 <= id < 2 ^ 16 -> net16 frame 18 = id.
Proof. explode_addresses. apply be16_join. Qed.
Lemma pre_flags : 0 <= flags < 2 ^ 16 -> net16 frame 20 = flags.
Proof. explode_addresses. apply be16_join. Qed.
Lemma pre_protocol : zget frame 23 = protocol.
Proof. explode_addresses. done. Qed.
Lemma pre_checksum : 0 <= checksum < 2 ^ 16 -> bswap16 (get16 frame 24) = checksum.
Proof. explode_addresses. apply be16_swap. Qed.
Lemma pre_mac : ztake 6 (zdrop 6 frame) = om.
Proof. explode_addresses. done. Qed.
Lemma pre_src : ztake 4 (zdrop 26 frame) = src.
Proof. explode_addresses. done. Qed.
Lemma pre_dst : ztake 4 (zdrop 30 frame) = dst.
Proof. explode_addresses. done. Qed.
Lemma pre_dst0 : zget frame 30 = zget dst 0.
Proof. explode_addresses. done. Qed.
Lemma pre_rest : zdrop 34 frame = rest.
Proof. explode_addresses. done. Qed.
Lemma pre_swap : swap_checksum frame = ip_pre dm om total id flags protocol (bswap16 checksum) src dst ++ rest.
Proof. unfold ip_pre. rewrite be16_bswap16. explode_addresses. done. Qed.
Lemma pre_zeroed : ztake 20 (zdrop 14 (zset (zset frame 24 0) 25 0)) = ip_header_with total id (bswap16 flags) protocol 0 src dst.
Proof. unfold ip_header_with. rewrite !le16_bswap16. explode_addresses. done. Qed.
Lemma pre_synth body :
  synth_frame frame body = ip_pre dm om (u16 (20 + zlen body)) id 0 protocol checksum src dst ++ body.
Proof.
  unfold synth_frame. set (t := u16 (20 + zlen body)). replace (Z.land t 0xFF) with (u8 t); [|change 0xFF with (Z.ones 8); by rewrite Z.land_ones by lia].
  rewrite (u8_small (u8 t)) by apply u8_bound. explode_addresses. done.
Qed.
End pre.

(** A frame that carries [n] bytes without a fragment offset is the prefix the
    transports expect. *)
Lemma pre_prefix dm om src dst id flags protocol checksum n : addresses dm om src dst -> is_u8 protocol -> 0 <= n <= 65515 ->
  ip_prefix (ip_pre dm om (20 + n) id flags protocol checksum src dst) src dst n.
Proof.
  intros Ha Hp Hn. pose proof (pre_bytes dm om src dst (20 + n) id flags protocol checksum Ha Hp) as Hb.
  pose proof (pre_len dm om src dst (20 + n) id flags protocol checksum Ha) as Hl.
  split; [done | done | | | |].
  - by rewrite <- (app_nil_r (ip_pre _ _ _ _ _ _ _ _ _)), pre_ihl.
  - rewrite <- get16_swap by (done || lia). rewrite <- (app_nil_r (ip_pre _ _ _ _ _ _ _ _ _)). apply pre_total; [done | lia].
  - rewrite <- (app_nil_r (ip_pre _ _ _ _ _ _ _ _ _)). by apply pre_src.
  - rewrite <- (app_nil_r (ip_pre _ _ _ _ _ _ _ _ _)). by apply pre_dst.
Qed.

(** ** The pieces of a datagram *)

(** Offset and length of the pieces from [offset] on. *)
Fixpoint cuts (fuel : nat) (len offset : Z) : list (Z * Z) :=
  match fuel with
  | O => []
  | S fuel => if negb (offset <? len) then [] else (offset, frag_chunk len offset) :: cuts fuel len (offset + frag_chunk len offset)
  end.
Definition part (payload : list Z) (c : Z * Z) : list Z := ztake c.2 (zdrop c.1 payload).

Lemma frag_chunk_bounds len offset : offset < len -> 0 < frag_chunk len offset <= len - offset.
Proof. unfold frag_chunk. change max_frag_payload with 1480. case_if; lia. Qed.

(** A piece: it lies in the datagram, at a multiple of eight, and all but the
    last are as long as a frame allows. *)
Record is_cut (len : Z) (c : Z * Z) : Prop := {
  ct_off : 0 <= c.1;
  ct_len : 0 < c.2;
  ct_end : c.1 + c.2 <= len;
  ct_eight : c.1 mod 8 = 0;
  ct_more : c.1 + c.2 < len -> c.2 = max_frag_payload;
  ct_chunk : c.2 = frag_chunk len c.1;
}.

Lemma cuts_ok fuel len offset : 0 <= offset -> offset mod 8 = 0 -> Forall (is_cut len) (cuts fuel len offset).
Proof.
  revert offset. induction fuel as [|fuel IH]; intros offset Ho H8; cbn [cuts]; [constructor|].
  destruct (Z.ltb_spec offset len) as [Hlt|]; cbn [negb]; [|constructor].
  pose proof (frag_chunk_bounds len offset Hlt) as Hc.
  assert (offset + frag_chunk len offset < len -> frag_chunk len offset = max_frag_payload) as Hmore.
  { unfold frag_chunk. change max_frag_payload with 1480. case_if; lia. }
  constructor; [by split; cbn; try lia|].
  destruct (decide (offset + frag_chunk len offset < len)) as [Hl|Hl].
  - apply IH; [lia|]. rewrite Hmore by done. change max_frag_payload with (185 * 8). by rewrite Z.mod_add by lia.
  - destruct fuel; cbn [cuts]; [constructor|]. destruct (Z.ltb_spec (offset + frag_chunk len offset) len); [lia | constructor].
Qed.

(** The pieces follow each other from [offset] to the end of the datagram. *)
Fixpoint chain (from to : Z) (l : list (Z * Z)) : Prop :=
  match l with
  | [] => from = to
  | c :: l => c.1 = from /\ 0 < c.2 /\ chain (from + c.2) to l
  end.

Lemma cuts_chain fuel len offset : 0 <= offset <= len -> len - offset <= Z.of_nat fuel -> chain offset len (cuts fuel len offset).
Proof.
  revert offset. induction fuel as [|fuel IH]; intros offset Ho Hf; cbn [cuts chain]; [lia|].
  destruct (Z.ltb_spec offset len) as [Hlt|]; cbn [negb chain]; [|lia].
  pose proof (frag_chunk_bounds len offset Hlt) as Hc. cbn. split_and!; [done | lia|]. apply IH; lia.
Qed.

Lemma chain_ge from to l : chain from to l -> from <= to.
Proof. revert from. induction l as [|c l IH]; intros from; cbn; [lia|]. intros (_ & Hc & H). apply IH in H. lia. Qed.
Lemma chain_total from to l : chain from to l -> foldr Z.add 0 l.*2 = to - from.
Proof. revert from. induction l as [|c l IH]; intros from; cbn; [lia|]. intros (_ & _ & H). rewrite (IH _ H). lia. Qed.
Lemma chain_above from to l c : chain from to l -> c ∈ l -> from <= c.1 /\ c.1 + c.2 <= to.
Proof.
  revert from. induction l as [|d l IH]; intros from; cbn; [by intros _ ?%not_elem_of_nil|].
  intros (<- & Hd & H) [->|Hin]%elem_of_cons; [split; [lia|]; by apply chain_ge in H|].
  destruct (IH _ H Hin). lia.
Qed.
Lemma chain_sorted from to l : chain from to l -> StronglySorted (fun c d => c.1 < d.1) l.
Proof.
  revert from. induction l as [|c l IH]; intros from; cbn; [constructor|]. intros (<- & Hc & H). constructor; [by eapply IH|].
  apply Forall_forall. intros d Hd. destruct (chain_above _ _ _ _ H Hd). lia.
Qed.

(** ** The flags of a fragment *)

Lemma frag_flags_read len offset : 0 <= offset < len -> len <= 65535 -> offset mod 8 = 0 ->
  let f := frag_flags len offset in
  0 <= f < 2 ^ 16 /\ Z.land f 0x1FFF * 8 = offset /\ has f IP_FLAG_MF = bool_decide (offset + frag_chunk len offset < len).
Proof.
  intros Ho Hl H8 f. assert (0 <= offset / 8 < 2 ^ 13) as Hq by (split; [apply Z.div_pos; lia | apply Z.div_lt_upper_bound; lia]).
  assert (offset / 8 * 8 = offset) as Hd by (pose proof (Z.div_mod offset 8 ltac:(lia)); lia).
  assert (forall b : bool, let g := Z.lor (Z.b2z b * 2 ^ 13) (offset / 8) in
    0 <= g < 2 ^ 16 /\ Z.land g 0x1FFF = offset / 8 /\ has g IP_FLAG_MF = b) as Hg.
  { intros b. cbn zeta. rewrite lor_low by lia. split; [destruct b; cbn; lia|]. split.
    - change 0x1FFF with (Z.ones 13). rewrite Z.land_ones by lia. rewrite Z.add_comm, Z.mod_add by lia. by apply Z.mod_small.
    - unfold has. change IP_FLAG_MF with (2 ^ 13). destruct (Z.eqb_spec (Z.land (Z.b2z b * 2 ^ 13 + offset / 8) (2 ^ 13)) 0) as [E|E].
      + destruct b; [|done]. exfalso. apply (f_equal (fun x => Z.testbit x 13)) in E.
        rewrite Z.land_spec, Z.pow2_bits_true, Z.bits_0, andb_true_r in E by lia. cbn [Z.b2z] in E.
        apply Z.testbit_false in E; [|lia]. rewrite <- (Z.div_unique _ (2 ^ 13) 1 (offset / 8)) in E by lia. done.
      + destruct b; [done|]. exfalso. apply E. cbn [Z.b2z]. rewrite Z.mul_0_l, Z.add_0_l. apply Z.bits_inj'. intros i Hi.
        rewrite Z.land_spec, Z.pow2_bits_eqb, Z.bits_0 by lia. destruct (Z.eqb_spec 13 i) as [<-|]; [|by rewrite andb_false_r].
        rewrite andb_true_r. rewrite Z.testbit_false by lia. by rewrite Z.div_small by lia. }
  unfold f, frag_flags, frag_chunk. change max_frag_payload with 1480. destruct (Z.ltb_spec 1480 (len - offset)).
  - destruct (Hg true) as (H1 & H2 & H3). rewrite Z.lor_comm in H1, H2, H3. change (Z.b2z true * 2 ^ 13) with IP_FLAG_MF in *.
    rewrite bool_decide_eq_true_2 by lia. rewrite H2, Hd. done.
  - destruct (Hg false) as (H1 & H2 & H3). cbn [Z.b2z] in *. rewrite Z.mul_0_l, Z.lor_0_l in *. rewrite bool_decide_eq_false_2 by lia. rewrite H2, Hd. done.
Qed.

(** ** A slot while the pieces come in *)

Definition pc_abs (p : ip_frag_piece_t) : Z * Z * list Z := (pc_offset p, pc_length p, pc_bytes p).
Definition before (p q : ip_frag_piece_t) : Prop := pc_offset p < pc_offset q.

Section collect.
Context (payload : list Z).
Abbreviation len := (zlen payload).
Definition cut_abs (c : Z * Z) : Z * Z * list Z := (c.1, c.2, part payload c).

(** The slot has the pieces [got], in order of their offsets. *)
Record collects (got : list (Z * Z)) (s : ip_frag_slot_t) : Prop := {
  cl_pieces : pc_abs <$> fs_pieces s ≡ₚ cut_abs <$> got;
  cl_sorted : StronglySorted before (fs_pieces s);
  cl_received : fs_received_bytes s = foldr Z.add 0 got.*2;
  cl_total : fs_total_len s = if decide (Exists (fun c => c.1 + c.2 = len) got) then len else 0;
}.

Lemma insert_piece_perm p l : insert_piece p l ≡ₚ p :: l.
Proof.
  induction l as [|q l IH]; cbn [insert_piece]; [done|]. case_if; [|done]. rewrite IH. apply Permutation_swap.
Qed.
Lemma insert_piece_sorted p l : StronglySorted before l -> (forall q, q ∈ l -> pc_offset q <> pc_offset p) -> StronglySorted before (insert_piece p l).
Proof.
  induction 1 as [|q l Hl IH Hq]; intros Hne; cbn [insert_piece]; [repeat constructor|]. destruct (Z.ltb_spec (pc_offset q) (pc_offset p)) as [Hlt|Hge].
  - constructor; [apply IH; set_solver|]. rewrite (insert_piece_perm p l). by constructor.
  - assert (pc_offset q <> pc_offset p) by (apply Hne; left). constructor; [by constructor|].
    constructor; [unfold before; lia|]. eapply Forall_impl; [exact Hq|]. unfold before. lia.
Qed.

Lemma sum_perm (l l' : list (Z * Z)) : l ≡ₚ l' -> foldr Z.add 0 l.*2 = foldr Z.add 0 l'.*2.
Proof. induction 1; cbn; lia. Qed.
Lemma sum_app (l l' : list (Z * Z)) : foldr Z.add 0 (l ++ l').*2 = foldr Z.add 0 l.*2 + foldr Z.add 0 l'.*2.
Proof. induction l; cbn; lia. Qed.
Lemma sum_pos (l : list (Z * Z)) : Forall (is_cut len) l -> 0 <= foldr Z.add 0 l.*2 /\ (l <> [] -> 0 < foldr Z.add 0 l.*2).
Proof.
  induction 1 as [|c l Hc Hl IH]; cbn; [done|]. pose proof (ct_len _ _ Hc). split; [lia | intros _; lia].
Qed.

Definition abs_before (x y : Z * Z * list Z) : Prop := x.1.1 < y.1.1.
#[local] Instance abs_before_antisym : AntiSymm (=) abs_before.
Proof. intros x y Hxy Hyx. unfold abs_before in *. lia. Qed.

Lemma sorted_map {A C} (R : A -> A -> Prop) (R' : C -> C -> Prop) (f : A -> C) l :
  (forall x y, R x y -> R' (f x) (f y)) -> StronglySorted R l -> StronglySorted R' (f <$> l).
Proof.
  intros Hf. induction 1 as [|x l Hl IH Hx]; cbn; constructor; [done|]. apply Forall_fmap. eapply Forall_impl; [exact Hx|]. intros y. apply Hf.
Qed.

(** When every piece is there, they are the datagram's pieces in order. *)
Lemma collected_all all s : chain 0 len all -> collects all s -> pc_abs <$> fs_pieces s = cut_abs <$> all.
Proof.
  intros Hch [Hp Hs _ _]. apply (StronglySorted_unique abs_before); [| |done].
  - eapply sorted_map; [|exact Hs]. done.
  - eapply sorted_map; [|by eapply chain_sorted]. done.
Qed.

Lemma contiguous_chain l cs from : 0 <= from -> len <= 65535 -> pc_abs <$> l = cut_abs <$> cs -> chain from len cs -> contiguous_end from l = Some len.
Proof.
  intros Hf Hl. revert from Hf cs. induction l as [|p l IH]; intros from Hf [|c cs]; cbn; try done; [by intros _ ->|].
  intros [= E1 E2 E3 E4] (<- & Hc & Hch). rewrite E1, E2, Z.eqb_refl. pose proof (chain_ge _ _ _ Hch).
  unfold u16. rewrite Z.mod_small by lia. by eapply IH; [lia|..].
Qed.

Lemma copy_chain l cs from buf :
  0 <= from -> pc_abs <$> l = cut_abs <$> cs -> chain from len cs -> zlen buf = len -> ztake from buf = ztake from payload ->
  copy_pieces buf l = payload.
Proof.
  revert cs from buf. induction l as [|p l IH]; intros [|c cs] from buf Hf; cbn; try done.
  - intros _ -> Hz Ht. by rewrite !ztake_all in Ht by lia.
  - intros [= E1 E2 E3 E4] (<- & Hc & Hch) Hz Ht. pose proof (chain_ge _ _ _ Hch). rewrite E1, E2, E3.
    assert (zlen (part payload c) = c.2) as Hpl by (unfold part; rewrite zlen_ztake, zlen_zdrop; lia).
    rewrite (ztake_all c.2) by lia. eapply (IH cs (c.1 + c.2)); [lia | done | done | |].
    + rewrite zlen_splice; lia.
    + apply zlist_eq; [rewrite !zlen_ztake, zlen_splice by lia; lia|]. intros i Hi. rewrite zlen_ztake, zlen_splice in Hi by lia.
      rewrite !zget_ztake, zget_splice by lia. destruct (decide (i < c.1)).
      * rewrite <- (zget_ztake c.1 payload) by lia. rewrite <- Ht, zget_ztake by lia. rewrite decide_False by lia. done.
      * rewrite decide_True by lia. unfold part. rewrite zget_ztake, zget_zdrop by lia. f_equal. lia.
Qed.

Lemma collects_perm got all s : got ≡ₚ all -> collects got s -> collects all s.
Proof.
  intros Hp [X1 X2 X3 X4]. split; [by rewrite X1, Hp | done | by rewrite X3, (sum_perm _ _ Hp)|]. rewrite X4. apply decide_ext. by rewrite Hp.
Qed.

Section step.
Context (all got rest : list (Z * Z)) (c : Z * Z) (s : ip_frag_slot_t) (p : ip_frag_piece_t).
Context (Hch : chain 0 len all) (Hcuts : Forall (is_cut len) all) (Hall : c :: got ++ rest ≡ₚ all) (Hlen : len <= 65535).
Context (Hs : collects got s) (Hp : pc_abs p = cut_abs c).

Lemma step_cut : is_cut len c.
Proof. rewrite <- Hall in Hcuts. by apply Forall_cons in Hcuts as [? _]. Qed.
Lemma step_sum : c.2 + foldr Z.add 0 got.*2 + foldr Z.add 0 rest.*2 = len.
Proof. pose proof (chain_total _ _ _ Hch) as Ht. rewrite <- (sum_perm _ _ Hall) in Ht. cbn in Ht. rewrite sum_app in Ht. lia. Qed.
Lemma step_rest : 0 <= foldr Z.add 0 rest.*2 /\ (rest <> [] -> 0 < foldr Z.add 0 rest.*2).
Proof. apply sum_pos. rewrite <- Hall in Hcuts. apply Forall_cons in Hcuts as [_ H]. by apply Forall_app in H as [_ H]. Qed.
Lemma step_fresh d : d ∈ got -> d.1 <> c.1.
Proof.
  intros Hd E. assert (NoDup all.*1) as Hnd.
  { pose proof (chain_sorted _ _ _ Hch) as Hso. clear -Hso. induction Hso as [|x l Hl IH Hx]; cbn; constructor; [|done].
    intros (y & Ey & Hy)%list_elem_of_fmap. rewrite Forall_forall in Hx. specialize (Hx y Hy). cbn in Hx. lia. }
  rewrite <- Hall in Hnd. cbn in Hnd. apply NoDup_cons in Hnd as [Hn _]. apply Hn. rewrite <- E. apply list_elem_of_fmap. exists d. set_solver.
Qed.

Lemma collects_add : collects (c :: got) (slot_add p (bool_decide (c.1 + c.2 < len)) s).
Proof.
  pose proof step_cut as [C1 C2 C3 _ _ _]. pose proof step_sum. pose proof step_rest. pose proof Hp as Hp'. injection Hp' as E1 E2 E3. destruct Hs as [H1 H2 H3 H4].
  split; cbn [slot_add fs_pieces fs_received_bytes fs_total_len].
  - rewrite insert_piece_perm. cbn. by rewrite Hp, H1.
  - apply insert_piece_sorted; [done|]. intros q Hq. rewrite E1.
    assert (pc_abs q ∈ pc_abs <$> fs_pieces s) as Hin by (apply list_elem_of_fmap; by exists q).
    rewrite H1 in Hin. apply list_elem_of_fmap in Hin as (d & Ed & Hd). apply (f_equal (fun x => x.1.1)) in Ed. cbn in Ed. rewrite Ed. by apply step_fresh.
  - assert (Forall (is_cut len) got) as Hg by (rewrite <- Hall in Hcuts; apply Forall_cons in Hcuts as [_ H']; by apply Forall_app in H' as [H' _]).
    pose proof (sum_pos _ Hg). rewrite H3, E2. cbn. unfold u16. rewrite Z.mod_small; lia.
  - rewrite E1, E2. case_bool_decide as Hm.
    + rewrite H4. destruct (decide (Exists _ got)) as [He|He]; [rewrite decide_True by (by right); done|].
      rewrite decide_False; [done|]. intros [Hc|Hc]%Exists_cons; [lia | done].
    + unfold u16. rewrite Z.mod_small by lia. rewrite decide_True by (left; lia). lia.
Qed.

Lemma complete_add : slot_complete (slot_add p (bool_decide (c.1 + c.2 < len)) s) = bool_decide (rest = []).
Proof.
  pose proof collects_add as Hs'. pose proof step_sum as Hsum. pose proof step_rest as [_ Hr].
  set (s' := slot_add _ _ _) in *. pose proof (cl_total _ _ Hs') as Ht. assert (fs_received_bytes s' = c.2 + foldr Z.add 0 got.*2) as Hre by exact (cl_received _ _ Hs').
  pose proof step_cut as [C1 C2 C3 _ _ _]. unfold slot_complete, enough_bytes. case_bool_decide as E.
  - assert (c :: got ≡ₚ all) as Hall' by (rewrite <- Hall, E, app_nil_r; done). pose proof (collects_perm _ _ _ Hall' Hs') as Ha.
    assert (fs_total_len s' = len) as Htl.
    { rewrite (cl_total _ _ Ha). rewrite decide_True; [done|]. clear -Hch C1 C2 C3.
      assert (0 < len) as Hpos by lia. clear C1 C2 C3. revert Hpos Hch. generalize 0 as from. induction all as [|d l IH]; cbn; intros from Hpos; [lia|].
      intros (Hd & Hd2 & Hl). destruct (decide (from + d.2 = len)); [left; lia|]. right. apply (IH (from + d.2)); [|done]. apply chain_ge in Hl. lia. }
    rewrite (contiguous_chain _ all 0), Htl; [|lia | done | by apply collected_all | done]. rewrite Hre, Z.eqb_refl.
    rewrite E in Hsum. cbn in Hsum. destruct (Z.ltb_spec 0 len), (Z.leb_spec len (c.2 + foldr Z.add 0 got.*2)); done || lia.
  - specialize (Hr E). rewrite Ht, Hre. case_decide; [|done]. destruct (Z.leb_spec len (c.2 + foldr Z.add 0 got.*2)); [lia|]. by rewrite andb_false_r.
Qed.

Lemma copy_add : rest = [] -> copy_pieces (zeros (Z.to_nat len)) (fs_pieces (slot_add p (bool_decide (c.1 + c.2 < len)) s)) = payload.
Proof.
  intros E. assert (c :: got ≡ₚ all) as Hall' by (rewrite <- Hall, E, app_nil_r; done). eapply (copy_chain _ all 0); [done | | done | |done].
  - apply collected_all; [done|]. eapply collects_perm; [exact Hall' | apply collects_add].
  - unfold zlen, zeros. rewrite length_replicate. lia.
Qed.
End step.
End collect.
