(* ===== verification/IpPath.v ===== *)
(** * IPv4: from one host to another

    A datagram that [ip_send_packet] of src/net_ip.c sends, in one frame or in
    fragments, is handed up by the receiving host exactly once, whatever the
    order in which the frames arrive. *)
From S2P Require Import Prelude Heap TcpSeg TcpWire Net Arp Ip IpFrag.

(** A machine whose driver sends what it is given and whose allocations
    succeed; [wire] is what it sent. *)
Class NetLab (B : Type) := { healthy : B -> Prop; wire : B -> list (list Z) }.
Class NetLabLaws (B : Type) `{!KHeap B} `{!NetHw B} `{!NetLab B} := {
  lab_alloc (b : B) k :
    healthy b -> 0 <= k -> (hp_kalloc k b).1 <> 0 /\ healthy (hp_kalloc k b).2 /\ wire (hp_kalloc k b).2 = wire b;
  lab_alloc_clock (b : B) k : hpet_get_ticks (hp_kalloc k b).2 = hpet_get_ticks b;
  lab_free (b : B) p : healthy b -> healthy (hp_kfree p b) /\ wire (hp_kfree p b) = wire b;
  lab_send (b : B) f :
    healthy b -> (drv_send_packet f b).1 = 0 /\ healthy (drv_send_packet f b).2 /\ wire (drv_send_packet f b).2 = wire b ++ [f];
}.

Section path.
Context {B : Type} `{!KHeap B} `{!NetHw B} `{!NetLab B} `{!NetLabLaws B}.
Abbreviation nact := (nact (B := B)).
Abbreviation net := (net B).

(** ** What sending leaves alone *)

Definition calm (n n' : net) : Prop :=
  device n' = device n /\ ip_frag_slots n' = ip_frag_slots n /\ (healthy (below n) -> healthy (below n')).
Definition calmly {A} (m : nact A) : Prop := forall n, calm n (m n).2.

Lemma calm_refl n : calm n n.
Proof. done. Qed.
Lemma calm_trans n1 n2 n3 : calm n1 n2 -> calm n2 n3 -> calm n1 n3.
Proof. intros (D1 & S1 & H1) (D2 & S2 & H2). split_and!; [congruence | congruence | auto]. Qed.

Lemma calm_ret {A} (a : A) : calmly (mret a).
Proof. intros n. apply calm_refl. Qed.
Lemma calm_bind {A C} (m : nact A) (f : A -> nact C) : calmly m -> (forall a, calmly (f a)) -> calmly (mbind f m).
Proof.
  intros Hm Hf n. unfold mbind, nact_bind. specialize (Hm n). destruct (m n) as [a n']. eapply calm_trans; [exact Hm | apply Hf].
Qed.
Lemma calm_get {A} (f : net -> A) : calmly (get f).
Proof. intros n. apply calm_refl. Qed.
Lemma calm_put f : (forall n, device (f n) = device n) -> (forall n, ip_frag_slots (f n) = ip_frag_slots n) -> (forall n, below (f n) = below n) -> calmly (put f).
Proof. intros H1 H2 H3 n. unfold calm. cbn. by rewrite H1, H2, H3. Qed.
Lemma calm_alloc k : 0 <= k -> calmly (kalloc_n k).
Proof.
  intros Hk n. unfold kalloc_n, down. pose proof (fun H => lab_alloc (below n) k H Hk) as Hl. destruct (hp_kalloc k (below n)) as [p b].
  split_and!; [done | done|]. intros Hh. by destruct (Hl Hh) as (_ & Hb & _).
Qed.
Lemma calm_free p : calmly (kfree_n p).
Proof. intros n. split_and!; [done | done|]. intros Hh. by destruct (lab_free (below n) p Hh). Qed.
Lemma calm_only_if b (m : nact unit) : calmly m -> calmly (only_if b m).
Proof. destruct b; [done | intros _; apply calm_ret]. Qed.
Lemma calm_loop k i body : (forall j, calmly (body j)) -> calmly (loop k i body).
Proof. intros Hb. revert i. induction k as [|k IH]; intros i; cbn [loop]; [apply calm_ret|]. by apply calm_bind. Qed.
Lemma calm_send f : calmly (net_send_packet f).
Proof.
  apply calm_bind; [apply calm_get|]. intros [d|]; [|apply calm_ret]. destruct (ops_send d); [|apply calm_ret].
  intros n. unfold down. pose proof (lab_send (below n) f) as Hl. destruct (drv_send_packet f (below n)) as [r b].
  split_and!; [done | done|]. intros Hh. by destruct (Hl Hh) as (_ & Hb & _).
Qed.

Lemma calm_touch p k : calmly (touch p k).
Proof. by apply calm_put. Qed.
Lemma calm_in_use {A} p k (m : nact A) : calmly m -> calmly (in_use_n p k m).
Proof. intros Hm. apply calm_bind; [apply calm_touch|]. intros u. apply calm_bind; [done|]. intros r. apply calm_bind; [apply calm_touch|]. intros u'. apply calm_ret. Qed.
Lemma calm_in_use_opt {A} p k (m : nact A) : calmly m -> calmly (in_use_opt p k m).
Proof. intros Hm. unfold in_use_opt. destruct (p =? 0); [done | by apply calm_in_use]. Qed.

Create HintDb calm.
#[local] Hint Resolve calm_ret calm_get calm_free calm_send calm_touch : calm.
Ltac calm :=
  repeat first
    [ solve [auto 1 with calm nocore] | apply calm_ret | apply calm_get | apply calm_free | apply calm_send | apply calm_alloc; rewrite ?zlen_nonneg; auto with zarith
    | apply calm_put; [done | done | done] | apply calm_only_if | apply calm_in_use | apply calm_in_use_opt | apply calm_loop; intros | apply calm_bind; [|intros ?]
    | match goal with
      | |- calmly (match ?x with _ => _ end) => destruct x
      | |- calmly (let _ := _ in _) => cbn zeta
      end ].

Lemma calm_request ip : calmly (arp_send_request (B := B) ip).
Proof. unfold arp_send_request. calm. Qed.
#[local] Hint Resolve calm_request : calm.
Lemma calm_lookup ip : calmly (arp_lookup (B := B) ip).
Proof. unfold arp_lookup, now_ms. calm. Qed.
#[local] Hint Resolve calm_lookup : calm.
Lemma calm_resolve ip : calmly (arp_resolve (B := B) ip).
Proof. unfold arp_resolve, now_ms, set_pending. calm. Qed.
#[local] Hint Resolve calm_resolve : calm.
Lemma calm_send_frame dm src dst protocol id fl body : calmly (ip_send_frame (B := B) dm src dst protocol id fl body).
Proof.
  unfold ip_send_frame. calm. unfold u16. pose proof (Z.mod_pos_bound (20 + zlen body) (2 ^ 16)). lia.
Qed.
#[local] Hint Resolve calm_send_frame : calm.
Lemma calm_fragments k dm src dst protocol id body off : calmly (send_fragments (B := B) k dm src dst protocol id body off).
Proof. revert off. induction k as [|k IH]; intros off; cbn [send_fragments]; calm. Qed.
#[local] Hint Resolve calm_fragments : calm.
Lemma calm_send_packet dst protocol body : calmly (ip_send_packet (B := B) dst protocol body).
Proof.
  pose proof (zlen_nonneg body). unfold ip_send_packet, ip_lo_enqueue, ip_arpq_enqueue, ip_transmit, next_id, now_ms. calm.
  all: lia.
Qed.
#[local] Hint Resolve calm_send_packet : calm.
Lemma calm_insert ip mac : calmly (arp_insert (B := B) ip mac).
Proof.
  unfold arp_insert, arp_cache_store, ip_arp_resolved, resolved_slot, now_ms. calm.
Qed.
#[local] Hint Resolve calm_insert : calm.

(** ** What sending puts on the wire *)

(** The frames of a datagram. *)
Definition datagram_frames (dm om src dst : list Z) (protocol id : Z) (payload : list Z) : list (list Z) :=
  if zlen payload <=? IP_MTU - 20 then [ip_frame dm om src dst protocol id (bswap16 IP_FLAG_DF) payload]
  else (fun c => ip_frame dm om src dst protocol id (bswap16 (frag_flags (zlen payload) c.1)) (part payload c)) <$>
         cuts (length payload) (zlen payload) 0.

(** A device that can send, with our address [our]. *)
Definition can_send (n : net) : Prop := healthy (below n) /\ exists d, device n = Some d /\ ops_send d = true.

Lemma can_send_calm n n' : can_send n -> calm n n' -> can_send n'.
Proof. intros (Hh & d & Hd & Ho) (D & _ & Hc). split; [auto|]. exists d. by rewrite D. Qed.
Lemma mac_calm n n' : calm n n' -> net_get_mac_address n' = net_get_mac_address n.
Proof. intros (D & _). unfold net_get_mac_address. by rewrite D. Qed.
Lemma our_ip_calm n n' : calm n n' -> net_get_ip_address n' = net_get_ip_address n.
Proof. intros (D & _). unfold net_get_ip_address. by rewrite D. Qed.

Lemma send_frame_wire dm src dst protocol id fl body n : can_send n ->
  let r := ip_send_frame dm src dst protocol id fl body n in
  r.1 = 0 /\ wire (below r.2) = wire (below n) ++ [ip_frame dm (net_get_mac_address n) src dst protocol id fl body].
Proof.
  intros (Hh & d & Hd & Ho). unfold ip_send_frame, kalloc_n, kfree_n, net_send_packet, in_use_n, touch, put, down, get, mbind, nact_bind, mret, nact_ret.
  assert (0 <= 14 + u16 (20 + zlen body)) as Hk by (unfold u16; pose proof (Z.mod_pos_bound (20 + zlen body) (2 ^ 16)); lia).
  destruct (lab_alloc (below n) _ Hh Hk) as (Ha & Hh1 & Hw1). destruct (hp_kalloc _ (below n)) as [p b]. cbn [fst snd] in *.
  destruct (Z.eqb_spec p 0); [done|]. cbn [device set_below below set_accesses accesses]. rewrite Hd, Ho. cbn zeta. cbn [fst snd below set_below set_accesses accesses].
  set (f := ip_frame _ _ _ _ _ _ _ _). destruct (lab_send b f Hh1) as (Hr & Hh2 & Hw2). destruct (drv_send_packet f b) as [r b']. cbn [fst snd below set_below set_accesses accesses] in *.
  cbn zeta. cbn [fst snd below set_below set_accesses accesses]. destruct (lab_free b' p Hh2) as [_ ->]. by rewrite Hw2, Hw1.
Qed.

Lemma send_fragments_wire k dm src dst protocol id payload off n : can_send n -> 0 <= off -> zlen payload <= 65535 ->
  let r := send_fragments k dm src dst protocol id payload off n in
  r.1 = 0 /\ wire (below r.2) = wire (below n) ++
    ((fun c => ip_frame dm (net_get_mac_address n) src dst protocol id (bswap16 (frag_flags (zlen payload) c.1)) (part payload c)) <$> cuts k (zlen payload) off).
Proof.
  intros Hn Ho Hz. revert off n Hn Ho. induction k as [|k IH]; intros off n Hn Ho; cbn [send_fragments cuts].
  - split; [done|]. by rewrite app_nil_r.
  - destruct (Z.ltb_spec off (zlen payload)) as [Hlt|]; cbn [negb]; [|split; [done | by rewrite app_nil_r]].
    pose proof (frag_chunk_bounds _ _ Hlt). set (c := frag_chunk _ _) in *. unfold mbind, nact_bind.
    destruct (send_frame_wire dm src dst protocol id (bswap16 (frag_flags (zlen payload) off)) (ztake c (zdrop off payload)) n Hn) as [Hr Hw].
    pose proof (calm_send_frame dm src dst protocol id (bswap16 (frag_flags (zlen payload) off)) (ztake c (zdrop off payload)) n) as Hc.
    destruct (ip_send_frame _ _ _ _ _ _ _ n) as [r n1]. cbn [fst snd] in *. subst r. cbn [Z.eqb negb].
    unfold u16. rewrite (Z.mod_small (off + c)) by lia. destruct (IH (off + c) n1 ltac:(by eapply can_send_calm) ltac:(lia)) as [Hr' Hw'].
    split; [done|]. rewrite Hw', Hw, (mac_calm _ _ Hc). cbn. by rewrite <- app_assoc.
Qed.

Lemma transmit_wire dm src dst protocol payload n : can_send n -> zlen payload <= 65535 ->
  let r := ip_transmit dm src dst protocol payload n in
  r.1 = 0 /\ wire (below r.2) = wire (below n) ++ datagram_frames dm (net_get_mac_address n) src dst protocol (ip_id_counter n) payload.
Proof.
  intros Hn Hz. unfold ip_transmit, datagram_frames, next_id, get, put, mbind, nact_bind, mret, nact_ret. cbn [fst snd].
  assert (can_send (set_ip_id (u16 (ip_id_counter n + 1)) n)) as Hn' by done.
  destruct (Z.leb_spec (zlen payload) (IP_MTU - 20)); [exact (send_frame_wire dm src dst protocol (ip_id_counter n) _ payload _ Hn')|].
  exact (send_fragments_wire (length payload) dm src dst protocol (ip_id_counter n) payload 0 _ Hn' ltac:(lia) Hz).
Qed.

(** ** Receiving *)

Definition accepts (n : net) (dst : list Z) : Prop := is_broadcast dst || is_zero_ip (net_get_ip_address n) || (zget dst 0 =? 127) || bool_decide (dst = net_get_ip_address n) = true.

(** What the host learns of the sender. *)
Definition learn (src mac our : list Z) (dst0 : Z) : nact unit :=
  only_if (negb (dst0 =? 127) && negb (zget src 0 =? 127) && negb (bool_decide (src = our))) (arp_insert src mac).
Lemma calm_learn src mac our dst0 : calmly (learn src mac our dst0).
Proof. apply calm_only_if, calm_insert. Qed.

(** The frame with the checksum bytes the other way round. *)
Definition seen_pre (dm om src dst : list Z) (protocol id fl n : Z) : list Z :=
  ip_pre dm om (20 + n) id fl protocol
    (bswap16 (ip_header_checksum_bytes (ip_header_with (20 + n) id (bswap16 fl) protocol 0 src dst))) src dst.

Lemma input_frame dm om src dst protocol id fl body post n :
  addresses dm om src dst -> is_u8 protocol -> 0 <= id < 2 ^ 16 -> 0 <= fl < 2 ^ 16 -> zlen body <= 65515 -> accepts n dst ->
  let F := seen_pre dm om src dst protocol id fl (zlen body) ++ body ++ post in
  let n1 := (learn src om (net_get_ip_address n) (zget dst 0) n).2 in
  ip_input (ip_frame dm om src dst protocol id (bswap16 fl) body ++ post) n =
  (if has fl IP_FLAG_MF || (0 <? Z.land fl 0x1FFF * 8)
   then ip_fragment_input F 34 (zlen body) (Z.land fl 0x1FFF * 8) id (has fl IP_FLAG_MF) n1
   else (_ ← only_if (negb (known_protocol protocol)) (net_rx_count_ip_proto protocol);
         mret (dispatch F 34 protocol (zlen body), 0)) n1).
Proof.
  intros Ha Hp Hid Hfl Hb Hacc F n1. pose proof (zlen_nonneg body). pose proof (zlen_nonneg post).
  rewrite ip_frame_pre. unfold u16. rewrite (Z.mod_small (20 + zlen body)) by lia. rewrite <- app_assoc.
  set (cs := ip_header_checksum_bytes _). assert (0 <= cs < 2 ^ 16) as Hcs by apply ip_checksum_u16.
  set (G := ip_pre _ _ _ _ _ _ _ _ _ ++ body ++ post). assert (zlen G = 34 + zlen body + zlen post) as HG.
  { unfold G. rewrite !zlen_app, pre_len by done. lia. }
  unfold ip_input. rewrite HG. destruct (Z.ltb_spec (34 + zlen body + zlen post) 34); [lia|].
  assert (zget G 14 = 0x45) as -> by (by apply pre_ihl). change (Z.land (Z.shiftr 0x45 4) 0xF) with 4. change (Z.land 0x45 0xF * 4) with 20.
  cbn [Z.eqb Pos.eqb negb]. change (20 <? 20) with false. cbn [orb]. destruct (Z.ltb_spec (34 + zlen body + zlen post) (14 + 20)); [lia|].
  unfold mbind at 1, nact_bind at 1, get at 1. unfold for_us. assert (ztake 4 (zdrop 30 G) = dst) as -> by (by apply pre_dst).
  rewrite Hacc. cbn [negb]. assert (ip_header_ok G = true) as ->.
  { unfold ip_header_ok. assert (zget G 14 = 0x45) as -> by (by apply pre_ihl). change (Z.land 0x45 0xF * 4) with 20. unfold G.
    rewrite pre_checksum, pre_zeroed by done. by apply bool_decide_eq_true_2. }
  cbn [negb]. assert (swap_checksum G = F) as -> by (by apply pre_swap). unfold F, seen_pre. rewrite pre_total by (done || lia).
  destruct (Z.ltb_spec (20 + zlen body) 20); [lia|]. destruct (Z.ltb_spec (34 + zlen body + zlen post) (14 + (20 + zlen body))); [lia|].
  rewrite pre_src, pre_dst0, pre_mac, pre_id, pre_flags, pre_protocol by done. replace (20 + zlen body - 20) with (zlen body) by lia.
  change (14 + 20) with 34. unfold mbind at 1, nact_bind at 1. fold (learn src om (net_get_ip_address n) (zget dst 0)).
  subst n1. destruct (learn _ _ _ _ n) as [[] n1]. cbn [snd]. by destruct (has fl IP_FLAG_MF || _).
Qed.

(** ** Collecting the fragments *)

(** The part of the state that matters: the device and the reassembly slots of
    a healthy machine. *)
Definition view (d : option net_device_t) (l : list ip_frag_slot_t) (n : net) : Prop :=
  device n = d /\ ip_frag_slots n = l /\ healthy (below n).

Lemma ht_calm {A} d l (m : nact A) : calmly m -> ht (view d l) m (fun _ => view d l).
Proof. intros Hm n (Hd & Hs & Hh). destruct (Hm n) as (D & S & H). split_and!; [congruence | congruence | auto]. Qed.
Lemma ht_alloc d l k : 0 <= k -> ht (view d l) (kalloc_n k) (fun p n => p <> 0 /\ view d l n).
Proof.
  intros Hk n (Hd & Hs & Hh). unfold kalloc_n, down. destruct (lab_alloc (below n) k Hh Hk) as (Hp & Hb & _).
  destruct (hp_kalloc k (below n)) as [p b]. done.
Qed.
Lemma ht_slot d l i : ht (view d l) (slot_at i) (fun s n => s = zget l i /\ view d l n).
Proof. intros n (Hd & Hs & Hh). unfold slot_at, get. cbn. by rewrite Hs. Qed.
Lemma ht_set_slot d l i s : ht (view d l) (set_slot i s) (fun _ => view d (zset l i s)).
Proof. intros n (Hd & Hs & Hh). unfold set_slot, put. cbn. split_and!; [done | by rewrite <- Hs | done]. Qed.
Lemma calm_touch_pieces l : calmly (touch_pieces l).
Proof. induction l as [|p l IH]; cbn [touch_pieces]; calm. Qed.
Lemma calm_touch_copies buf l : calmly (touch_copies buf l).
Proof. induction l as [|p l IH]; cbn [touch_copies]; calm. Qed.
Lemma calm_free_pieces l : calmly (free_pieces l).
Proof. induction l as [|p l IH]; cbn [free_pieces]; calm. Qed.
Lemma ht_slot_free d l i : ht (view d l) (ip_frag_slot_free i) (fun _ => view d (zset l i (freed_slot (zget l i)))).
Proof.
  eapply ht_bind; [apply ht_slot|]. intros s. apply ht_pure. intros E. rewrite E. clear E s.
  eapply ht_bind; [apply ht_calm, calm_free_pieces|]. intros u. apply ht_set_slot.
Qed.

(** The frames that arrive, one after the other; a buffer is freed when the
    transport is done with it. *)
Fixpoint ip_inputs (frames : list (list Z)) : nact (list upcall) :=
  match frames with
  | [] => mret []
  | f :: frames =>
      r ← ip_input f;
      _ ← only_if (negb (r.2 =? 0)) (kfree_n r.2);
      us ← ip_inputs frames;
      mret (option_list r.1 ++ us)
  end.
Definition padded (f g : list Z) : Prop := exists post, g = f ++ post.

Section datagram.
Context (dm om src dst : list Z) (protocol id : Z) (payload : list Z).
Context (Haddr : addresses dm om src dst) (Hproto : is_u8 protocol) (Hid : 0 <= id < 2 ^ 16).
Context (Hbig : IP_MTU - 20 < zlen payload) (Hlen : zlen payload <= 65515).
Abbreviation mine := (slot_for src dst id protocol).
Abbreviation all := (cuts (length payload) (zlen payload) 0).

(** Slot [i] has the pieces [got] of this datagram, or is the one it will get. *)
Definition own_slot (i : Z) (got : list (Z * Z)) (l : list ip_frag_slot_t) : Prop :=
  zlen l = 8 /\ 0 <= i < 8 /\ (forall j, 0 <= j < 8 -> j <> i -> mine (zget l j) = false) /\
  mine (zget l i) = true /\ collects payload got (zget l i).
Definition free_slot (i : Z) (l : list ip_frag_slot_t) : Prop :=
  zlen l = 8 /\ (forall j, 0 <= j < 8 -> mine (zget l j) = false) /\ zfind 8 0 (fun j => negb (fs_active (zget l j))) = Some i.

Lemma find_own d l i got : own_slot i got l -> ht (view d l) (ip_frag_find_or_create src dst id protocol) (fun r n => r = i /\ view d l n).
Proof.
  intros (Hl & Hi & Hoth & Hme & _) n (Hd & Hs & Hh). unfold ip_frag_find_or_create, mbind, nact_bind, get. rewrite Hs.
  assert (zfind 8 0 (fun j => mine (zget l j)) = Some i) as ->; [|done].
  apply zfind_same. split; [lia|]. split; [done|]. intros j Hj. apply Hoth; lia.
Qed.

Lemma find_free d l i : free_slot i l -> ht (view d l) (ip_frag_find_or_create src dst id protocol) (fun r n => r = i /\ exists l', own_slot i [] l' /\ view d l' n).
Proof.
  intros (Hl & Hno & Hf) n (Hd & Hs & Hh). unfold ip_frag_find_or_create, now_ms, mbind, nact_bind, get. rewrite Hs.
  assert (zfind 8 0 (fun j => mine (zget l j)) = None) as ->.
  { destruct (zfind 8 0 (fun j => mine (zget l j))) as [j|] eqn:E; [|done]. apply zfind_same in E as (Hj & Ht & _). by rewrite Hno in Ht by lia. }
  rewrite Hf. cbn. split; [done|]. apply zfind_same in Hf as (Hi & _).
  eexists. split; [|split_and!; [done | cbn; by rewrite Hs | done]].
  split; [by rewrite zlen_zset|]. split; [lia|]. split.
  { intros j Hj Hne. rewrite zget_zset_ne by lia. by apply Hno. }
  rewrite zget_zset_eq by lia. split; [|split; cbn; [done | constructor | done | done]].
  unfold slot_for. cbn. rewrite !Z.eqb_refl, !bool_decide_eq_true_2 by done. done.
Qed.

Definition holding (d : option net_device_t) (i : Z) (got : list (Z * Z)) (n : net) : Prop := exists l, own_slot i got l /\ view d l n.
(** Before the first fragment, or with the pieces [got]. *)
Definition waiting (d : option net_device_t) (i : Z) (got : list (Z * Z)) (n : net) : Prop :=
  holding d i got n \/ got = [] /\ exists l, free_slot i l /\ view d l n.

Lemma find_slot d i got : ht (waiting d i got) (ip_frag_find_or_create src dst id protocol) (fun r n => r = i /\ holding d i got n).
Proof.
  intros n [(l & Ho & Hv)|(-> & l & Hf & Hv)].
  - destruct (find_own d l i got Ho n Hv) as [Hr Hv']. split; [done|]. by exists l.
  - exact (find_free d l i Hf n Hv).
Qed.
Lemma ht_holding {A} d i got (m : nact A) Q : (forall l, own_slot i got l -> ht (view d l) m Q) -> ht (holding d i got) m Q.
Proof. intros H n (l & Ho & Hv). by eapply H. Qed.

Lemma all_chain : chain 0 (zlen payload) all.
Proof. pose proof (zlen_nonneg payload). apply cuts_chain; [lia|]. unfold zlen. lia. Qed.
Lemma all_cuts : Forall (is_cut (zlen payload)) all.
Proof. by apply cuts_ok. Qed.

Lemma add_step d i got c rest : c :: got ++ rest ≡ₚ all ->
  ht (holding d i got) (ip_frag_add i c.1 (part payload c) (bool_decide (c.1 + c.2 < zlen payload)))
    (fun r n => r = bool_decide (rest = []) /\ exists l, own_slot i (c :: got) l /\ view d l n /\
      (rest = [] -> fs_total_len (zget l i) = zlen payload /\ copy_pieces (zeros (Z.to_nat (zlen payload))) (fs_pieces (zget l i)) = payload)).
Proof.
  intros Hall. pose proof (step_cut payload all got rest c all_cuts Hall) as Hc. destruct Hc as [C1 C2 C3 _ _ _].
  assert (zlen (part payload c) = c.2) as Hpl by (unfold part; rewrite zlen_ztake, zlen_zdrop; lia).
  apply ht_holding. intros l Ho. unfold ip_frag_add. eapply ht_bind; [by apply ht_alloc|]. intros p. apply ht_pure. intros Hp.
  destruct (Z.eqb_spec p 0) as [|_]; [done|]. eapply ht_bind; [apply ht_calm, calm_touch|]. intros u1.
  eapply ht_bind; [apply ht_alloc, zlen_nonneg|]. intros q. apply ht_pure. intros Hq.
  destruct (Z.eqb_spec q 0) as [|_]; [done|]. eapply ht_bind; [apply ht_calm, calm_touch|]. intros u2. eapply ht_bind; [apply ht_slot|]. intros s. apply ht_pure. intros Es. rewrite Es. clear Es s.
  eapply ht_bind; [apply ht_calm, calm_touch_pieces|]. intros u3. eapply ht_bind; [apply ht_calm, calm_touch|]. intros u4.
  rewrite Hpl. set (pc := mk_piece p c.1 c.2 q (part payload c)). cbn zeta. destruct Ho as (Hl & Hi & Hoth & Hme & Hcol).
  pose proof (collects_add payload all got rest c (zget l i) pc all_chain all_cuts Hall ltac:(lia) Hcol eq_refl) as Hcol'.
  pose proof (complete_add payload all got rest c (zget l i) pc all_chain all_cuts Hall ltac:(lia) Hcol eq_refl) as Hcom.
  pose proof (copy_add payload all got rest c (zget l i) pc all_chain all_cuts Hall ltac:(lia) Hcol eq_refl) as Hcopy.
  set (s' := slot_add _ _ _) in *.
  eapply ht_bind; [apply ht_set_slot|]. intros u. eapply ht_bind; [apply ht_calm, calm_only_if, calm_touch_pieces|]. intros u5 n Hv. split; [exact Hcom|]. exists (zset l i s').
  rewrite zget_zset_eq by lia. split; [|split; [done|]].
  - split; [by rewrite zlen_zset|]. split; [done|]. rewrite zget_zset_eq by lia. split; [|by split].
    intros j Hj Hne. rewrite zget_zset_ne by lia. by apply Hoth.
  - intros Hr. split; [|by apply Hcopy]. unfold slot_complete, enough_bytes in Hcom. rewrite (bool_decide_eq_true_2 _ Hr) in Hcom.
    rewrite (contiguous_chain payload _ all 0) in Hcom; [bool_hyps; lia | lia | lia | | apply all_chain].
    apply collected_all; [apply all_chain|]. eapply collects_perm; [|exact Hcol']. rewrite <- Hall, Hr, app_nil_r. done.
Qed.

(** The datagram is complete: what is handed up, and the buffer it is in. *)
Definition handed_up (r : delivery) : Prop :=
  r.2 <> 0 /\ exists cs, r.1 = dispatch (ip_pre dm om (20 + zlen payload) id 0 protocol cs src dst ++ payload) 34 protocol (zlen payload).

Lemma fragment_step d i got c rest cs tl fl post : c :: got ++ rest ≡ₚ all ->
  ht (waiting d i got)
    (ip_fragment_input (ip_pre dm om tl id fl protocol cs src dst ++ part payload c ++ post) 34 c.2 c.1 id (bool_decide (c.1 + c.2 < zlen payload)))
    (fun r n => if decide (rest = []) then handed_up r else r = (None, 0) /\ holding d i (c :: got) n).
Proof.
  intros Hall. pose proof (step_cut payload all got rest c all_cuts Hall) as Hc. destruct Hc as [C1 C2 C3 _ _ _].
  assert (zlen (part payload c) = c.2) as Hpl by (unfold part; rewrite zlen_ztake, zlen_zdrop; lia).
  unfold ip_fragment_input. rewrite pre_src, pre_dst, pre_protocol, pre_rest by done.
  replace (ztake c.2 (part payload c ++ post)) with (part payload c) by (rewrite <- Hpl; by rewrite ztake_app_len).
  cbn zeta. eapply ht_bind; [apply find_slot|]. intros k. apply ht_pure. intros Ek. rewrite Ek. clear Ek k.
  destruct (Z.ltb_spec IP_FRAG_MAX_SIZE (c.1 + c.2)) as [Hgt|_]; [unfold IP_FRAG_MAX_SIZE in Hgt; lia|].
  eapply ht_bind; [by eapply add_step|]. intros complete. apply ht_pure. intros Ec. rewrite Ec. clear Ec complete.
  case_bool_decide as Hr; cbn [negb].
  2:{ intros n (l & Ho & Hv & _). rewrite decide_False by done. split; [done|]. by exists l. }
  eapply (ht_post _ _ (fun r _ => handed_up r)); [intros r n Hu; by rewrite decide_True|].
  apply ht_ex. intros l. eapply (ht_pre (fun n => (fs_total_len (zget l i) = zlen payload /\ copy_pieces (zeros (Z.to_nat (zlen payload))) (fs_pieces (zget l i)) = payload) /\ view d l n));
    [intros n (_ & Hv & Hd); auto|]. apply ht_pure. intros [Htl Hcp].
  eapply ht_bind with (R := fun r n => (r.1 <> 0 /\ r.2 = payload) /\ view d l n).
  { unfold ip_frag_reassemble. eapply ht_bind; [apply ht_slot|]. intros s. apply ht_pure. intros Es. rewrite Es, Htl, Hcp. clear Es s.
    destruct (Z.eqb_spec (zlen payload) 0) as [|_]; [lia|]. eapply ht_bind; [apply ht_alloc; lia|]. intros b. apply ht_pure. intros Hb.
    destruct (Z.eqb_spec b 0) as [|_]; [done|]. eapply ht_bind; [apply ht_calm, calm_touch_copies|]. intros u n Hn. done. }
  intros [b bytes]. apply ht_pure. cbn [fst snd]. intros [Hb ->]. eapply ht_bind; [apply ht_slot_free|]. intros u.
  destruct (Z.eqb_spec b 0) as [|_]; [done|]. eapply ht_bind; [apply ht_alloc; lia|]. intros sy. apply ht_pure. intros Hsy.
  destruct (Z.eqb_spec sy 0) as [|_]; [done|]. do 3 (eapply ht_bind; [apply ht_calm, calm_touch|]; intros ?). eapply ht_bind; [apply ht_calm, calm_free|]. intros u' n _.
  rewrite pre_synth by done. unfold u16. rewrite Z.mod_small by lia. split; [done|]. by exists cs.
Qed.

Abbreviation fragment := (fun c : Z * Z => ip_frame dm om src dst protocol id (bswap16 (frag_flags (zlen payload) c.1)) (part payload c)).

Lemma waiting_calm d i got n n' : waiting d i got n -> calm n n' -> waiting d i got n'.
Proof.
  assert (forall l, view d l n -> calm n n' -> view d l n') as Hv.
  { intros l (Hd & Hs & Hh) (Hd' & Hs' & Hh'). split_and!; [congruence | congruence | auto]. }
  intros [(l & Ho & Hw)|(-> & l & Hf & Hw)] Hc; [left | right; split; [done|]]; exists l; auto.
Qed.
Lemma waiting_device d i got n : waiting d i got n -> device n = d.
Proof. by intros [(l & _ & Hd & _)|(_ & l & _ & Hd & _)]. Qed.

(** The host accepts datagrams for [dst]. *)
Definition takes (d : option net_device_t) : Prop := forall n, device n = d -> accepts n dst.

Lemma input_step d i got c rest g : takes d -> c :: got ++ rest ≡ₚ all -> padded (fragment c) g ->
  ht (waiting d i got) (ip_input g) (fun r n => if decide (rest = []) then handed_up r else r = (None, 0) /\ holding d i (c :: got) n).
Proof.
  intros Ht Hall [post ->] n Hn. pose proof (step_cut payload all got rest c all_cuts Hall) as Hc. destruct Hc as [C1 C2 C3 C4 _ C6].
  assert (zlen (part payload c) = c.2) as Hpl by (unfold part; rewrite zlen_ztake, zlen_zdrop; lia).
  destruct (frag_flags_read (zlen payload) c.1 ltac:(lia) ltac:(lia) C4) as (Hf & Hoff & Hmf). rewrite <- C6 in Hmf.
  rewrite input_frame by (try done; try lia; apply Ht; by eapply waiting_device). rewrite Hoff, Hmf, Hpl.
  destruct (bool_decide (c.1 + c.2 < zlen payload) || (0 <? c.1)) eqn:E.
  - apply fragment_step; [done|]. eapply waiting_calm; [exact Hn | apply calm_learn].
  - exfalso. apply orb_false_iff in E as [E1 E2]. apply bool_decide_eq_false in E1. apply Z.ltb_ge in E2.
    unfold frag_chunk in C6. change max_frag_payload with 1480 in C6. change (IP_MTU - 20) with 1480 in Hbig.
    destruct (Z.ltb_spec 1480 (zlen payload - c.1)); lia.
Qed.

Lemma run_fragments d i rest got gs : takes d -> got ++ rest ≡ₚ all -> rest <> [] -> Forall2 padded (fragment <$> rest) gs ->
  ht (waiting d i got) (ip_inputs gs)
    (fun us _ => exists cs, us = option_list (dispatch (ip_pre dm om (20 + zlen payload) id 0 protocol cs src dst ++ payload) 34 protocol (zlen payload))).
Proof.
  intros Ht. revert got gs. induction rest as [|c rest IH]; intros got gs Hall Hne Hgs; [done|].
  apply Forall2_cons_inv_l in Hgs as (g & gs' & Hg & Hgs & ->). assert (c :: got ++ rest ≡ₚ all) as Hall' by (rewrite <- Hall; by rewrite Permutation_middle).
  cbn [ip_inputs]. eapply ht_bind; [by eapply input_step|]. intros r. destruct (decide (rest = [])) as [->|Hr].
  - apply Forall2_nil_inv_l in Hgs as ->. intros n (_ & cs & Hu). exists cs. unfold mbind, nact_bind. cbn.
    destruct (only_if _ _ n) as [u n']. cbn. by rewrite Hu, app_nil_r.
  - apply ht_pure. intros ->. cbn [fst snd Z.eqb negb only_if]. eapply ht_bind with (R := fun _ => waiting d i (c :: got)).
    { intros n Hn. by left. }
    intros u. eapply ht_bind; [apply (IH (c :: got)); [by rewrite <- Hall' | done | done]|]. intros us n (cs & ->). by exists cs.
Qed.
End datagram.

(** ** A datagram from host to host *)

(** A slot is free and none is in use for a datagram of this identity. *)
Definition room_for (src dst : list Z) (id protocol : Z) (n : net) : Prop :=
  zlen (ip_frag_slots n) = 8 /\ Forall (fun s => slot_for src dst id protocol s = false) (ip_frag_slots n) /\
  Exists (fun s => fs_active s = false) (ip_frag_slots n).

Lemma room_slot src dst id protocol n : room_for src dst id protocol n -> exists i, free_slot src dst protocol id i (ip_frag_slots n).
Proof.
  intros (Hl & Hno & Hex). set (l := ip_frag_slots n) in *. destruct (zfind 8 0 (fun j => negb (fs_active (zget l j)))) as [i|] eqn:E.
  - exists i. split; [done|]. split; [|done]. intros j Hj. rewrite Forall_forall in Hno. apply Hno. eapply list_elem_of_lookup_2, lookup_zget. lia.
  - exfalso. apply Exists_exists in Hex as (s & Hin & Hs). apply list_elem_of_lookup in Hin as [k Hk].
    pose proof (zfind_spec 8 0 (fun j => negb (fs_active (zget l j)))) as Hz. rewrite E in Hz. specialize (Hz (Z.of_nat k)).
    apply lookup_lt_Some in Hk as Hlt. rewrite (zget_lookup l (Z.of_nat k) s) in Hz by (by rewrite Nat2Z.id). rewrite Hs in Hz.
    unfold zlen in Hl. discriminate Hz. lia.
Qed.

(** An Ethernet and IPv4 header with these addresses, protocol and length. *)
Definition header_for (pre src dst : list Z) (protocol len : Z) : Prop := ip_prefix pre src dst len /\ zget pre 23 = protocol.
Lemma pre_header dm om id fl protocol cs src dst len : addresses dm om src dst -> is_u8 protocol -> 0 <= len <= 65515 ->
  header_for (ip_pre dm om (20 + len) id fl protocol cs src dst) src dst protocol len.
Proof.
  intros Ha Hp Hl. split; [by apply pre_prefix|]. rewrite <- (app_nil_r (ip_pre _ _ _ _ _ _ _ _ _)). by apply pre_protocol.
Qed.

Lemma single_delivered dm om src dst protocol id payload g n :
  addresses dm om src dst -> is_u8 protocol -> 0 <= id < 2 ^ 16 -> zlen payload <= 65515 -> accepts n dst ->
  padded (ip_frame dm om src dst protocol id (bswap16 IP_FLAG_DF) payload) g ->
  exists pre post, header_for pre src dst protocol (zlen payload) /\
    (ip_inputs [g] n).1 = option_list (dispatch (pre ++ payload ++ post) 34 protocol (zlen payload)).
Proof.
  intros Ha Hp Hid Hl Hacc [post ->]. pose proof (zlen_nonneg payload). cbn [ip_inputs]. unfold mbind, nact_bind.
  rewrite input_frame by done. change (has IP_FLAG_DF IP_FLAG_MF || (0 <? Z.land IP_FLAG_DF 0x1FFF * 8)) with false. cbn iota.
  destruct (learn _ _ _ _ n) as [[] n1]. cbn [snd]. unfold mbind, nact_bind, mret, nact_ret.
  destruct (only_if (negb (known_protocol protocol)) _ n1) as [[] n2]. cbn [fst snd Z.eqb negb only_if]. rewrite app_nil_r.
  eexists _, post. split; [|done]. by apply pre_header.
Qed.

Lemma fragments_delivered dm om src dst protocol id payload fs gs n :
  addresses dm om src dst -> is_u8 protocol -> 0 <= id < 2 ^ 16 -> IP_MTU - 20 < zlen payload -> zlen payload <= 65515 ->
  accepts n dst -> healthy (below n) -> room_for src dst id protocol n ->
  fs ≡ₚ datagram_frames dm om src dst protocol id payload -> Forall2 padded fs gs ->
  exists pre post, header_for pre src dst protocol (zlen payload) /\
    (ip_inputs gs n).1 = option_list (dispatch (pre ++ payload ++ post) 34 protocol (zlen payload)).
Proof.
  intros Ha Hp Hid Hbig Hl Hacc Hh Hroom Hfs Hgs. pose proof (zlen_nonneg payload). unfold datagram_frames in Hfs.
  destruct (Z.leb_spec (zlen payload) (IP_MTU - 20)) as [|_]; [lia|].
  apply Permutation_map_inv in Hfs as (cs & -> & Hcs).
  destruct (room_slot _ _ _ _ _ Hroom) as [i Hfree].
  assert (takes dst (device n)) as Ht.
  { intros n' Hd. unfold accepts, net_get_ip_address in *. by rewrite Hd. }
  assert (cs <> []) as Hne.
  { intros ->. apply Permutation_nil_r in Hcs. pose proof (all_chain payload) as Hch. rewrite Hcs in Hch. cbn in Hch. unfold IP_MTU in Hbig. lia. }
  destruct (run_fragments dm om src dst protocol id payload Ha Hp Hid Hbig Hl (device n) i cs [] gs Ht (Permutation_sym Hcs) Hne Hgs n) as [k Hk].
  { right. split; [done|]. by exists (ip_frag_slots n). }
  eexists _, []. rewrite app_nil_r. split; [|exact Hk]. by apply pre_header.
Qed.

(** The sender [a] can send to [dst]: the next hop is in its ARP cache. *)
Record routed (a : net) (dm src dst : list Z) : Prop := {
  rt_src : src = net_get_ip_address a;
  rt_addresses : addresses dm (net_get_mac_address a) src dst;
  rt_id : 0 <= ip_id_counter a < 2 ^ 16;
  rt_can : can_send a;
  rt_local : ip_is_local_dst dst a = false;
  rt_unicast : is_broadcast dst = false;
  rt_arp : (arp_lookup (next_hop src (net_get_subnet_mask a) (net_get_gateway a) dst) a).1 = Some dm;
}.
(** The receiver [b] gets the frames [gs]: those of [frames] in some order,
    padded; it accepts datagrams for [dst] and has a free reassembly slot. *)
Record arrives (frames gs : list (list Z)) (b : net) (src dst : list Z) (id protocol : Z) : Prop := {
  av_frames : exists fs, fs ≡ₚ frames /\ Forall2 padded fs gs;
  av_accepts : accepts b dst;
  av_healthy : healthy (below b);
  av_room : room_for src dst id protocol b;
}.

Lemma datagram_delivered (a : net) (dm src dst : list Z) (protocol : Z) (payload : list Z) :
  routed a dm src dst -> is_u8 protocol -> zlen payload <= 65515 ->
  exists frames,
    (ip_send_packet dst protocol payload a).1 = 0 /\
    wire (below (ip_send_packet dst protocol payload a).2) = wire (below a) ++ frames /\
    healthy (below (ip_send_packet dst protocol payload a).2) /\
    forall (b : net) gs, arrives frames gs b src dst (ip_id_counter a) protocol ->
      exists pre post, header_for pre src dst protocol (zlen payload) /\
        (ip_inputs gs b).1 = option_list (dispatch (pre ++ payload ++ post) 34 protocol (zlen payload)).
Proof.
  intros [Hsrc Ha Hid Hcan Hloc Hbc Harp] Hp Hl. pose proof (zlen_nonneg payload).
  exists (datagram_frames dm (net_get_mac_address a) src dst protocol (ip_id_counter a) payload).
  assert (exists a1, arp_resolve (next_hop src (net_get_subnet_mask a) (net_get_gateway a) dst) a = (Some dm, a1) /\
    can_send a1 /\ wire (below a1) = wire (below a) /\ net_get_mac_address a1 = net_get_mac_address a /\ ip_id_counter a1 = ip_id_counter a) as (a1 & Er & Hcan1 & Hw & Hm & Hi).
  { unfold arp_resolve, mbind, nact_bind. revert Harp. unfold arp_lookup, now_ms, get, put, mbind, nact_bind. cbn.
    destruct (lookup_scan _ _ _) as [r l]. cbn. intros ->. by eexists. }
  assert (ip_send_packet dst protocol payload a = ip_transmit dm src dst protocol payload a1) as E.
  { unfold ip_send_packet, mbind, nact_bind, get. rewrite Hloc, Hbc, <- Hsrc. by rewrite Er. }
  destruct (calm_send_packet dst protocol payload a) as (_ & _ & Hh).
  rewrite E in *. destruct (transmit_wire dm src dst protocol payload a1 Hcan1 ltac:(lia)) as [Hr Hf]. rewrite Hw, Hm, Hi in Hf.
  split; [done|]. split; [done|]. split; [apply Hh, Hcan|]. intros b gs [(fs & Hfs & Hgs) Hacc Hhb Hroom].
  destruct (Z.leb_spec (zlen payload) (IP_MTU - 20)) as [Hsmall|Hbig]; [|by eapply fragments_delivered].
  unfold datagram_frames in Hfs. destruct (Z.leb_spec (zlen payload) (IP_MTU - 20)); [|lia].
  apply Permutation_singleton_r in Hfs as ->.
  apply Forall2_cons_inv_l in Hgs as (g & gs' & Hg & Hgs & ->). apply Forall2_nil_inv_l in Hgs as ->. by eapply single_delivered.
Qed.

Lemma routed_alloc (a : net) dm src dst k : 0 <= k -> routed a dm src dst -> routed (kalloc_n k a).2 dm src dst /\ (kalloc_n k a).1 <> 0 /\
  wire (below (kalloc_n k a).2) = wire (below a) /\ ip_id_counter (kalloc_n k a).2 = ip_id_counter a.
Proof.
  intros Hk [R1 R2 R3 [Rh Rd] R5 R6 R7]. destruct (lab_alloc (below a) k Rh Hk) as (Hp & Hh & Hw). pose proof (lab_alloc_clock (below a) k) as Hc.
  unfold kalloc_n, down. destruct (hp_kalloc k (below a)) as [p b]. cbn [fst snd] in *. split; [|done].
  split; [done | done | done | done | done | done|]. revert R7. unfold arp_lookup, now_ms, get, put, mbind, nact_bind. cbn.
  rewrite Hc. by destruct (lookup_scan _ _ _).
Qed.

Lemma routed_accesses (a : net) dm src dst l : routed a dm src dst -> routed (set_accesses l a) dm src dst.
Proof.
  intros [R1 R2 R3 R4 R5 R6 R7]. split; [done | done | done | done | done | done|]. revert R7. unfold arp_lookup, now_ms, get, put, mbind, nact_bind. cbn.
  by destruct (lookup_scan _ _ _).
Qed.

(** A datagram in a buffer of its own, which is freed when it has been sent. *)
Lemma packet_delivered (a : net) (dm src dst : list Z) (protocol : Z) (payload : list Z) k w c e :
  routed a dm src dst -> is_u8 protocol -> zlen payload <= 65515 -> 0 <= k ->
  let m := p ← kalloc_n k; if p =? 0 then mret e else
           _ ← touch p w; r ← in_use_n p c (ip_send_packet dst protocol payload); _ ← kfree_n p; mret r in
  exists frames,
    (m a).1 = 0 /\ wire (below (m a).2) = wire (below a) ++ frames /\
    forall (b : net) gs, arrives frames gs b src dst (ip_id_counter a) protocol ->
      exists pre post, header_for pre src dst protocol (zlen payload) /\
        (ip_inputs gs b).1 = option_list (dispatch (pre ++ payload ++ post) 34 protocol (zlen payload)).
Proof.
  intros Hr Hp Hl Hk m. destruct (routed_alloc a dm src dst k Hk Hr) as (Hr1 & Hne & Hw & Hi).
  unfold m, mbind, nact_bind. destruct (kalloc_n k a) as [p a1]. cbn [fst snd] in *. rewrite (proj2 (Z.eqb_neq p 0) Hne).
  set (a1' := set_accesses (mk_access p c (below a1) :: mk_access p w (below a1) :: accesses a1) a1).
  assert (routed a1' dm src dst) as Hr1' by (by apply routed_accesses).
  destruct (datagram_delivered a1' dm src dst protocol payload Hr1' Hp Hl) as (frames & Hrc & Hf & Hh & Hd).
  unfold in_use_n, touch, put, mbind, nact_bind, mret, nact_ret. cbn [below accesses set_accesses]. fold a1'.
  change (set_accesses _ (set_accesses _ a1)) with a1'. destruct (ip_send_packet dst protocol payload a1') as [rc a2]. cbn [fst snd] in *. exists frames. split; [done|].
  split; [unfold kfree_n, down; cbn; destruct (lab_free (below a2) p Hh) as [_ ->]; rewrite Hf; by rewrite <- Hw|]. rewrite <- Hi. exact Hd.
Qed.

(** C7 A datagram of at most 65515 bytes goes from one host to another.  The
    sender has the next hop in its ARP cache; it sends one frame, or fragments.
    Whatever the order in which the receiver gets these frames, each with any
    padding, it hands the payload up exactly once, behind a header with the
    right addresses, protocol and length.  (On both hosts allocations and the
    driver's sending succeed; the receiver has a free reassembly slot and none
    for a datagram of the same identity.) *)
Theorem ip_datagram_delivered (a : net) (dm src dst : list Z) (protocol : Z) (payload : list Z) :
  routed a dm src dst -> is_u8 protocol -> zlen payload <= 65515 ->
  exists frames,
    (ip_send_packet dst protocol payload a).1 = 0 /\
    wire (below (ip_send_packet dst protocol payload a).2) = wire (below a) ++ frames /\
    forall (b : net) gs, arrives frames gs b src dst (ip_id_counter a) protocol ->
      exists pre post, header_for pre src dst protocol (zlen payload) /\
        (ip_inputs gs b).1 = option_list (dispatch (pre ++ payload ++ post) 34 protocol (zlen payload)).
Proof.
  intros Hr Hp Hl. destruct (datagram_delivered a dm src dst protocol payload Hr Hp Hl) as (frames & H0 & Hw & _ & Hd). by exists frames.
Qed.
End path.
