(* ===== verification/IpMem.v ===== *)
(** * The memory of ARP and IPv4

    Which heap blocks the queues and reassembly slots of src/net_ip.c own, and
    that every operation keeps exactly those: nothing is lost, freed twice or
    taken from somebody else. *)
From S2P Require Import Prelude Heap TcpSeg Tcp TcpMem Net Arp Ip IpFrag.

(** The driver leaves the blocks of the kernel alone. *)
Class NetHwLaws (B : Type) `{!KHeap B} `{!NetHw B} := {
  drv_send_heap (b : B) f : heap_ok b -> heap_ok (drv_send_packet f b).2 /\
    forall q n, heap_live (drv_send_packet f b).2 q n <-> heap_live b q n;
  drv_receive_heap (b : B) k : heap_ok b -> heap_ok (drv_receive_packet k b).2 /\
    forall q n, heap_live (drv_receive_packet k b).2 q n <-> heap_live b q n;
}.

(** ** What is owned *)

Definition ptr_blk (p n : Z) : list (Z * Z) := if p =? 0 then [] else [(p, n)].
Definition lo_blk (x : Z * list Z * Z) : list (Z * Z) := ptr_blk x.1.1 x.2.
Definition lo_blocks (lo : lo_ring) : list (Z * Z) := zip (ip_lo_frame lo) (ip_lo_flen lo) ≫= lo_blk.
Definition aq_blk (e : ip_arpq_entry_t) : list (Z * Z) := ptr_blk (aq_payload e) (zlen (aq_bytes e)).
Definition pc_blk (p : ip_frag_piece_t) : list (Z * Z) := (pc_self p, piece_size) :: ptr_blk (pc_data p) (zlen (pc_bytes p)).
Definition fs_blk (s : ip_frag_slot_t) : list (Z * Z) := fs_pieces s ≫= pc_blk.

(** The loopback ring: the [count] places from [head] on are taken. *)
Record ring_ok (lo : lo_ring) : Prop := {
  rg_frames : zlen (ip_lo_frame lo) = IP_LO_MAX;
  rg_flen : zlen (ip_lo_flen lo) = IP_LO_MAX;
  rg_head : 0 <= ip_lo_head lo < IP_LO_MAX;
  rg_count : 0 <= ip_lo_count lo <= IP_LO_MAX;
  rg_tail : ip_lo_tail lo = (ip_lo_head lo + ip_lo_count lo) mod IP_LO_MAX;
  rg_taken k : 0 <= k < ip_lo_count lo -> (zget (ip_lo_frame lo) ((ip_lo_head lo + k) mod IP_LO_MAX)).1 <> 0;
  rg_pos : Forall (fun k => 0 <= k) (ip_lo_flen lo);
  rg_free k : ip_lo_count lo <= k < IP_LO_MAX -> (zget (ip_lo_frame lo) ((ip_lo_head lo + k) mod IP_LO_MAX)).1 = 0;
}.

(** One entry of a table is replaced. *)
Lemma bind_zset {A C} `{!Inhabited A} (f : A -> list C) (l : list A) i : 0 <= i < zlen l ->
  exists R, l ≫= f ≡ₚ f (zget l i) ++ R /\ forall y, zset l i y ≫= f ≡ₚ f y ++ R.
Proof.
  intros Hi. pose proof (lookup_zget l i Hi) as E. exists ((take (Z.to_nat i) l ++ drop (S (Z.to_nat i)) l) ≫= f).
  assert (forall y, (take (Z.to_nat i) l ++ y :: drop (S (Z.to_nat i)) l) ≫= f ≡ₚ f y ++ ((take (Z.to_nat i) l ++ drop (S (Z.to_nat i)) l) ≫= f)) as H.
  { intros y. rewrite !bind_app. rewrite bind_cons. rewrite Permutation_app_swap_app. done. }
  split.
  - rewrite <- H. by rewrite (take_drop_middle l _ _ E).
  - intros y. rewrite <- H. unfold zset. rewrite insert_take_drop; [done|]. unfold zlen in Hi. lia.
Qed.
Lemma perm_pull {A} (b X L R S : list A) : X ++ L ++ (b ++ R) ++ S ≡ₚ b ++ X ++ L ++ R ++ S.
Proof. rewrite <- app_assoc, (Permutation_app_swap_app L b), (Permutation_app_swap_app X b). done. Qed.
Lemma perm_exchange {A} (a b X L R S : list A) : (a ++ X) ++ L ++ (b ++ R) ++ S ≡ₚ (b ++ X) ++ L ++ (a ++ R) ++ S.
Proof. rewrite !perm_pull, <- !app_assoc. apply Permutation_app_swap_app. Qed.
Lemma Forall_zset {A} (P : A -> Prop) l i y : Forall P l -> P y -> Forall P (zset l i y).
Proof. intros Hl Hy. unfold zset. by apply Forall_insert. Qed.

(** ** The loopback ring *)

Definition lo_push (f : Z) (bytes : list Z) (len : Z) (lo : lo_ring) : lo_ring :=
  mk_lo (zset (ip_lo_frame lo) (ip_lo_tail lo) (f, bytes)) (zset (ip_lo_flen lo) (ip_lo_tail lo) len)
    (ip_lo_head lo) ((ip_lo_tail lo +32 1) mod IP_LO_MAX) (ip_lo_count lo +32 1) (ip_lo_draining lo).
Definition lo_pop (lo : lo_ring) : lo_ring :=
  mk_lo (zset (ip_lo_frame lo) (ip_lo_head lo) (0, [])) (ip_lo_flen lo)
    ((ip_lo_head lo +32 1) mod IP_LO_MAX) (ip_lo_tail lo) (ip_lo_count lo -32 1) (ip_lo_draining lo).

Lemma lo_blocks_zset lo i : ring_ok lo -> 0 <= i < IP_LO_MAX ->
  exists R, lo_blocks lo ≡ₚ ptr_blk (zget (ip_lo_frame lo) i).1 (zget (ip_lo_flen lo) i) ++ R /\
    forall x len h t c d, lo_blocks (mk_lo (zset (ip_lo_frame lo) i x) (zset (ip_lo_flen lo) i len) h t c d) ≡ₚ ptr_blk x.1 len ++ R.
Proof.
  intros [H1 H2 _ _ _ _ _ _] Hi. set (l := zip (ip_lo_frame lo) (ip_lo_flen lo)).
  assert (zlen l = IP_LO_MAX) as Hl by (unfold zlen in *; unfold l; rewrite length_zip_with; lia).
  destruct (bind_zset lo_blk l i ltac:(lia)) as (R & HR & Hset). exists R. split.
  - unfold lo_blocks. fold l. rewrite HR. f_equiv. unfold lo_blk.
    assert (zget l i = (zget (ip_lo_frame lo) i, zget (ip_lo_flen lo) i)) as ->; [|done].
    apply zget_lookup. unfold l. apply lookup_zip_Some. split; apply lookup_zget; lia.
  - intros x len h t c d. rewrite <- (Hset (x, len)). unfold lo_blocks, l, zset. cbn. by rewrite insert_zip_with.
Qed.
Lemma lo_places_ne h i j : 0 <= i < IP_LO_MAX -> 0 <= j < IP_LO_MAX -> i <> j -> (h + i) mod IP_LO_MAX <> (h + j) mod IP_LO_MAX.
Proof. unfold IP_LO_MAX. intros. Z.to_euclidean_division_equations. lia. Qed.

Lemma ring_push f bytes len lo : ring_ok lo -> ip_lo_count lo < IP_LO_MAX -> f <> 0 -> 0 <= len ->
  ring_ok (lo_push f bytes len lo) /\ lo_blocks (lo_push f bytes len lo) ≡ₚ (f, len) :: lo_blocks lo.
Proof.
  intros Hr Hc Hf Hlen. pose proof Hr as [H1 H2 H3 H4 H5 H6 H8 H7]. unfold IP_LO_MAX in *.
  assert (0 <= ip_lo_tail lo < 512) as Ht by (rewrite H5; apply Z.mod_pos_bound; lia). split.
  - unfold lo_push. rewrite !u32_small by lia. split; cbn; unfold IP_LO_MAX; rewrite ?zlen_zset; try done; try lia.
    + rewrite H5, Zplus_mod_idemp_l. f_equal. lia.
    + intros k Hk. destruct (decide (k = ip_lo_count lo)) as [->|].
      * rewrite <- H5, zget_zset_eq by lia. done.
      * rewrite zget_zset_ne; [apply H6; lia | lia | apply Z.mod_pos_bound; lia|]. rewrite H5. apply lo_places_ne; unfold IP_LO_MAX; lia.
    + by apply Forall_zset.
    + intros k Hk. rewrite zget_zset_ne; [apply H7; lia | lia | apply Z.mod_pos_bound; lia|]. rewrite H5. apply lo_places_ne; unfold IP_LO_MAX; lia.
  - destruct (lo_blocks_zset lo (ip_lo_tail lo) Hr Ht) as (R & HR & Hset). unfold lo_push. rewrite Hset, HR. cbn [fst].
    assert ((zget (ip_lo_frame lo) (ip_lo_tail lo)).1 = 0) as -> by (rewrite H5; apply H7; lia).
    unfold ptr_blk. destruct (Z.eqb_spec f 0); done.
Qed.
Lemma ring_pop lo : ring_ok lo -> ip_lo_count lo <> 0 ->
  let x := zget (ip_lo_frame lo) (ip_lo_head lo) in
  x.1 <> 0 /\ ring_ok (lo_pop lo) /\ lo_blocks lo ≡ₚ (x.1, zget (ip_lo_flen lo) (ip_lo_head lo)) :: lo_blocks (lo_pop lo).
Proof.
  intros Hr Hc x. pose proof Hr as [H1 H2 H3 H4 H5 H6 H8 H7]. unfold IP_LO_MAX in *.
  assert (x.1 <> 0) as Hx by (unfold x; specialize (H6 0 ltac:(lia)); rewrite Z.add_0_r, Z.mod_small in H6 by lia; done).
  split; [done|]. split.
  - unfold lo_pop. rewrite !u32_small by lia.
    assert (forall k, ((ip_lo_head lo + 1) mod 512 + k) mod 512 = (ip_lo_head lo + (k + 1)) mod 512) as Hs.
    { intros k. rewrite Zplus_mod_idemp_l. f_equal. lia. }
    split; cbn; unfold IP_LO_MAX; rewrite ?zlen_zset; try done; try lia.
    + apply Z.mod_pos_bound. lia.
    + rewrite H5, Hs. f_equal. lia.
    + intros k Hk. rewrite Hs, zget_zset_ne; [apply H6; lia | lia | apply Z.mod_pos_bound; lia|].
      pose proof (lo_places_ne (ip_lo_head lo) 0 (k + 1)) as Hne. unfold IP_LO_MAX in Hne. rewrite Z.add_0_r, (Z.mod_small (ip_lo_head lo)) in Hne by lia. apply Hne; lia.
    + intros k Hk. rewrite Hs. destruct (decide (k = 511)) as [->|].
      * replace (ip_lo_head lo + (511 + 1)) with (ip_lo_head lo + 1 * 512) by lia. rewrite Z.mod_add, Z.mod_small by lia. by rewrite zget_zset_eq by lia.
      * rewrite zget_zset_ne; [apply H7; lia | lia | apply Z.mod_pos_bound; lia|].
        pose proof (lo_places_ne (ip_lo_head lo) 0 (k + 1)) as Hne. unfold IP_LO_MAX in Hne. rewrite Z.add_0_r, (Z.mod_small (ip_lo_head lo)) in Hne by lia. apply Hne; lia.
  - destruct (lo_blocks_zset lo (ip_lo_head lo) Hr H3) as (R & HR & Hset). rewrite HR. fold x. unfold ptr_blk at 1. destruct (Z.eqb_spec x.1 0); [done|].
    cbn [app]. f_equiv. unfold lo_pop. rewrite <- (zset_zget (ip_lo_flen lo) (ip_lo_head lo)) at 1 by lia. rewrite Hset. done.
Qed.

Section mem.
Context {B : Type} `{!KHeap B} `{!KHeapLaws B} `{!NetHw B} `{!NetHwLaws B}.
Abbreviation nact := (nact (B := B)).
Abbreviation net := (net B).

Definition ip_blocks (n : net) : list (Z * Z) :=
  lo_blocks (ip_lo n) ++ (ip_arpq n ≫= aq_blk) ++ (ip_frag_slots n ≫= fs_blk).

(** The bytes of an access lie in a block that is live at that time. *)
Definition in_block (a : access) : Prop := exists j, 0 <= acc_len a <= j /\ heap_live (acc_heap a) (acc_ptr a) j.
Definition piece_wf (p : ip_frag_piece_t) : Prop :=
  pc_data p <> 0 /\ pc_length p = zlen (pc_bytes p) /\ 0 <= pc_offset p /\ pc_offset p + pc_length p <= IP_FRAG_MAX_SIZE.
Record slot_wf (s : ip_frag_slot_t) : Prop := {
  sw_inactive : fs_active s = false -> fs_pieces s = [];
  sw_total : 0 <= fs_total_len s;
  sw_pieces : Forall piece_wf (fs_pieces s);
}.

Record net_wf (n : net) : Prop := {
  nw_ring : ring_ok (ip_lo n);
  nw_arpq : zlen (ip_arpq n) = IP_ARPQ_SLOTS;
  nw_unused : Forall (fun e => aq_valid e = false -> aq_payload e = 0) (ip_arpq n);
  nw_slots : zlen (ip_frag_slots n) = IP_FRAG_MAX_SLOTS;
  nw_frags : Forall slot_wf (ip_frag_slots n);
  nw_accesses : Forall in_block (accesses n);
}.

(** The stack owns its queues and, on top of them, [X]; the rest of the live
    blocks is [F]. *)
Definition nst (F : Z -> Z -> Prop) (X : list (Z * Z)) (n : net) : Prop := net_wf n /\ mem_ok F (below n) (X ++ ip_blocks n).
Definition keeping {A} (m : nact A) : Prop := forall F X, ht (nst F X) m (fun _ => nst F X).

(** ** The heap and the driver *)

Lemma keep_ret {A} (a : A) : keeping (mret a).
Proof. by intros F X n Hn. Qed.
Lemma keep_bind {A C} (m : nact A) (f : A -> nact C) : keeping m -> (forall a, keeping (f a)) -> keeping (mbind f m).
Proof. intros Hm Hf F X. eapply ht_bind; [apply Hm|]. intros a. apply Hf. Qed.
Lemma keep_get {A} (f : net -> A) : keeping (get f).
Proof. by intros F X n Hn. Qed.
Lemma keep_only_if b m : keeping m -> keeping (only_if b m).
Proof. destruct b; [done | intros _; apply keep_ret]. Qed.
Lemma keep_loop k i body : (forall j, i <= j < i + Z.of_nat k -> keeping (body j)) -> keeping (loop k i body).
Proof. intros Hb F X. apply ht_loop. intros j Hj. by apply Hb. Qed.
(** The fields of ARP, the identification, the counters and the device. *)
Lemma keep_put f : (forall n, ip_lo (f n) = ip_lo n) -> (forall n, ip_arpq (f n) = ip_arpq n) ->
  (forall n, ip_frag_slots (f n) = ip_frag_slots n) -> (forall n, below (f n) = below n) ->
  (forall n, accesses (f n) = accesses n) -> keeping (put f).
Proof.
  intros H1 H2 H3 H4 H5 F X n [[W1 W2 W3 W4 W5 W6] Hm]. unfold put. cbn [fst snd]. split.
  - split; rewrite ?H1, ?H2, ?H3, ?H5; done.
  - unfold ip_blocks. by rewrite H1, H2, H3, H4.
Qed.
Lemma ht_kalloc F X k : 0 <= k -> ht (nst F X) (kalloc_n k) (fun p => nst F (ptr_blk p k ++ X)).
Proof.
  intros Hk n [[W1 W2 W3 W4 W5 W6] Hm]. unfold kalloc_n, down. destruct (hp_kalloc k (below n)) as [p b] eqn:E.
  pose proof (owned_alloc _ _ _ _ _ _ Hm Hk E) as Ha. cbn [fst snd]. split; [by split|]. unfold ptr_blk. cbn. by destruct (p =? 0).
Qed.
Lemma ht_kfree F X p k : ht (nst F ((p, k) :: X)) (kfree_n p) (fun _ => nst F X).
Proof. intros n [[W1 W2 W3 W4 W5 W6] Hm]. unfold kfree_n, down. cbn [fst snd]. split; [by split|]. by eapply owned_free. Qed.
Lemma keep_send f : keeping (net_send_packet f).
Proof.
  apply keep_bind; [apply keep_get|]. intros [d|]; [|apply keep_ret]. destruct (ops_send d); [|apply keep_ret].
  intros F X n [[W1 W2 W3 W4 W5 W6] [M1 M2 M3 M4 M5]]. unfold down. pose proof (drv_send_heap (below n) f M1) as [Hok Hl].
  destruct (drv_send_packet f (below n)) as [r b]. cbn [fst snd] in *. split; [by split|]. constructor; try done; cbn; try setoid_rewrite Hl; done.
Qed.
Lemma keep_receive k : keeping (net_receive_packet k).
Proof.
  apply keep_bind; [apply keep_get|]. intros [d|]; [|apply keep_ret]. destruct (ops_receive d); [|apply keep_ret].
  intros F X n [[W1 W2 W3 W4 W5 W6] [M1 M2 M3 M4 M5]]. unfold down. pose proof (drv_receive_heap (below n) k M1) as [Hok Hl].
  destruct (drv_receive_packet k (below n)) as [r b]. cbn [fst snd] in *. split; [by split|]. constructor; try done; cbn; try setoid_rewrite Hl; done.
Qed.

(** Accesses to a block that is held. *)
Lemma nst_touch F X n p k k0 : nst F X n -> (p, k0) ∈ X ++ ip_blocks n -> 0 <= k <= k0 ->
  nst F X (set_accesses (mk_access p k (below n) :: accesses n) n).
Proof.
  intros [[W1 W2 W3 W4 W5 W6] Hm] Hin Hk. split; [|exact Hm]. split; try done. cbn [accesses set_accesses]. constructor; [|done].
  destruct (mo_live _ _ _ Hm _ _ Hin) as (j & Hj & Hl). exists j. cbn. split; [lia | done].
Qed.
Lemma ht_touch F X p k k0 : 0 <= k <= k0 -> (p, k0) ∈ X -> ht (nst F X) (touch p k) (fun _ => nst F X).
Proof. intros Hk Hin n Hn. unfold touch, put. cbn [fst snd]. eapply nst_touch; [done | apply elem_of_app; by left | done]. Qed.
Lemma ht_in_use {A} F X p k k0 (m : nact A) : 0 <= k <= k0 -> (p, k0) ∈ X -> keeping m -> ht (nst F X) (in_use_n p k m) (fun _ => nst F X).
Proof.
  intros Hk Hin Hm. eapply ht_bind; [by eapply ht_touch|]. intros u. eapply ht_bind; [apply Hm|]. intros r.
  eapply ht_bind; [by eapply ht_touch|]. intros u'. apply keep_ret.
Qed.
Lemma ht_in_use_opt {A} F X p k (m : nact A) : 0 <= k -> keeping m -> ht (nst F (ptr_blk p k ++ X)) (in_use_opt p k m) (fun _ => nst F (ptr_blk p k ++ X)).
Proof.
  intros Hk Hm. unfold in_use_opt, ptr_blk. destruct (p =? 0); [apply Hm|]. apply (ht_in_use F _ p k k); [lia | by left | done].
Qed.

(** A block for the time of an action. *)
Lemma keep_alloc {A} k (m0 : nact A) (m : Z -> nact A) : 0 <= k -> keeping m0 ->
  (forall p F X, p <> 0 -> ht (nst F ((p, k) :: X)) (m p) (fun _ => nst F X)) ->
  keeping (p ← kalloc_n k; if p =? 0 then m0 else m p).
Proof.
  intros Hk H0 Hm F X. eapply ht_bind; [by apply ht_kalloc|]. intros p. unfold ptr_blk.
  destruct (Z.eqb_spec p 0) as [->|Hp]; [apply H0 | by apply Hm].
Qed.
Lemma ht_write_read {A} p k w r (m : nact A) F X : 0 <= w <= k -> 0 <= r <= k -> keeping m ->
  ht (nst F ((p, k) :: X)) (_ ← touch p w; x ← in_use_n p r m; _ ← kfree_n p; mret x) (fun _ => nst F X).
Proof.
  intros Hw Hr Hm. eapply ht_bind; [eapply (ht_touch _ _ p w k); [done | by left]|]. intros u.
  eapply ht_bind; [eapply (ht_in_use _ _ p r k); [done | by left | done]|]. intros x.
  eapply ht_bind; [apply ht_kfree|]. intros u'. apply keep_ret.
Qed.

Create HintDb keep.
#[local] Hint Resolve keep_ret keep_get keep_send : keep.
Ltac keep_step :=
  first
    [ solve [auto 1 with keep nocore] | apply keep_put; [done | done | done | done | done] | apply keep_only_if | apply keep_loop; intros ? ?
    | apply keep_bind; [|intros ?]
    | match goal with
      | |- keeping (match ?x with _ => _ end) => destruct x
      | |- keeping (let _ := _ in _) => cbn zeta
      end ].
Ltac keep := repeat keep_step.

(** ** ARP *)

Lemma keep_request ip : keeping (arp_send_request (B := B) ip).
Proof. unfold arp_send_request. keep. Qed.
Lemma keep_lookup ip : keeping (arp_lookup (B := B) ip).
Proof. unfold arp_lookup, now_ms. keep. Qed.
#[local] Hint Resolve keep_request keep_lookup : keep.
Lemma keep_resolve ip : keeping (arp_resolve (B := B) ip).
Proof. unfold arp_resolve, now_ms, set_pending. keep. Qed.
Lemma keep_store ip mac : keeping (arp_cache_store (B := B) ip mac).
Proof. unfold arp_cache_store, now_ms. keep. Qed.
Lemma keep_cleanup_expired : keeping (arp_cleanup_expired (B := B)).
Proof. unfold arp_cleanup_expired, now_ms. keep. Qed.
Lemma keep_clear_pending ip : keeping (clear_pending (B := B) ip).
Proof. unfold clear_pending, set_pending. keep. Qed.
Lemma keep_next_id : keeping (next_id (B := B)).
Proof. unfold next_id. keep. Qed.
#[local] Hint Resolve keep_resolve keep_store keep_clear_pending keep_next_id : keep.

(** ** Sending *)

Lemma keep_send_frame dm src dst protocol id fl body : zlen body <= 65515 -> keeping (ip_send_frame (B := B) dm src dst protocol id fl body).
Proof.
  intros Hb. pose proof (zlen_nonneg body). unfold ip_send_frame, u16. cbn zeta. rewrite (Z.mod_small (20 + zlen body)) by lia. apply keep_alloc; [lia | apply keep_ret|].
  intros p F X Hp. eapply ht_bind; [apply keep_get|]. intros mac. apply ht_write_read; [lia | lia | keep].
Qed.
Lemma chunk_small (payload : list Z) off : zlen (ztake (frag_chunk (zlen payload) off) (zdrop off payload)) <= 65515.
Proof.
  assert (frag_chunk (zlen payload) off <= 1480). { unfold frag_chunk. change max_frag_payload with 1480. cbn zeta. case_if; bool_hyps; lia. }
  generalize dependent (frag_chunk (zlen payload) off). intros c Hc. unfold ztake, zlen. rewrite length_take. lia.
Qed.
Lemma keep_fragments k dm src dst protocol id body off : keeping (send_fragments (B := B) k dm src dst protocol id body off).
Proof.
  revert off. induction k as [|k IH]; intros off; cbn [send_fragments]; [apply keep_ret|]. destruct (negb _); [apply keep_ret|].
  apply keep_bind; [apply keep_send_frame, chunk_small|]. intros r. destruct (negb _); [apply keep_ret | apply IH].
Qed.
#[local] Hint Resolve keep_fragments : keep.
Lemma keep_transmit dm src dst protocol body : keeping (ip_transmit (B := B) dm src dst protocol body).
Proof.
  unfold ip_transmit. apply keep_bind; [apply keep_next_id|]. intros id. destruct (Z.leb_spec (zlen body) (IP_MTU - 20)); [|apply keep_fragments].
  apply keep_send_frame. unfold IP_MTU in *. lia.
Qed.
#[local] Hint Resolve keep_transmit : keep.

Lemma nst_push F X n p bytes k : nst F ((p, k) :: X) n -> ip_lo_count (ip_lo n) < IP_LO_MAX -> p <> 0 -> 0 <= k ->
  nst F X (set_ip_lo (lo_push p bytes k (ip_lo n)) n).
Proof.
  intros [[W1 W2 W3 W4 W5 W6] Hm] Hc Hp Hk. destruct (ring_push p bytes k _ W1 Hc Hp Hk) as [Hr Hb]. split; [by split|].
  eapply owned_perm; [exact Hm|]. unfold ip_blocks. cbn. rewrite Hb. cbn. apply Permutation_middle.
Qed.
Lemma nst_pop F X n : nst F X n -> ip_lo_count (ip_lo n) <> 0 ->
  let x := zget (ip_lo_frame (ip_lo n)) (ip_lo_head (ip_lo n)) in
  x.1 <> 0 /\ nst F ((x.1, zget (ip_lo_flen (ip_lo n)) (ip_lo_head (ip_lo n))) :: X) (set_ip_lo (lo_pop (ip_lo n)) n).
Proof.
  intros [[W1 W2 W3 W4 W5 W6] Hm] Hc x. destruct (ring_pop _ W1 Hc) as (Hx & Hr & Hb). split; [done|]. split; [by split|].
  eapply owned_perm; [exact Hm|]. unfold ip_blocks. cbn. rewrite Hb. cbn. symmetry. apply Permutation_middle.
Qed.

Lemma keep_lo_enqueue dst protocol payload : keeping (ip_lo_enqueue (B := B) dst protocol payload).
Proof.
  pose proof (zlen_nonneg payload). unfold ip_lo_enqueue. cbn zeta. destruct (0xFFFF <? 20 + zlen payload); [keep|].
  apply keep_alloc; [lia | keep|]. intros p F X Hp.
  eapply ht_bind; [apply keep_get|]. intros mac. eapply ht_bind; [apply keep_next_id|]. intros id.
  eapply ht_bind; [apply keep_get|]. intros src.
  eapply ht_bind; [eapply (ht_touch _ _ p _ (14 + (20 + zlen payload))); [lia | by left]|]. intros u0. eapply ht_bind; [apply ht_get|]. intros lo.
  destruct (Z.leb_spec IP_LO_MAX (ip_lo_count lo)).
  - eapply (ht_pre (nst F ((p, 14 + (20 + zlen payload)) :: X))); [by intros n [_ Hn]|].
    eapply ht_bind; [apply ht_kfree|]. intros u. apply keep_ret.
  - intros n [-> Hn]. apply nst_push; [done | done | done | lia].
Qed.

(** The frame at the head is the caller's then. *)
Lemma ht_dequeue F X : ht (nst F X) (lo_dequeue (B := B))
  (fun r => match r with None => nst F X | Some (f, bytes) => fun n => f <> 0 /\ exists k, zlen bytes <= k /\ nst F ((f, k) :: X) n end).
Proof.
  intros n Hn. unfold lo_dequeue, mbind, nact_bind, get, put, mret, nact_ret. destruct (Z.eqb_spec (ip_lo_count (ip_lo n)) 0); [done|].
  destruct (nst_pop F X n Hn n0) as [Hx Hp]. destruct (zget (ip_lo_frame (ip_lo n)) (ip_lo_head (ip_lo n))) as [f bytes]. cbn [fst snd] in *.
  split; [done|]. eexists. split; [|exact Hp]. destruct Hn as [[W1 _ _ _ _ _] _]. pose proof (rg_pos _ W1) as Hpos. rewrite Forall_forall in Hpos.
  specialize (Hpos (zget (ip_lo_flen (ip_lo n)) (ip_lo_head (ip_lo n)))). rewrite zlen_ztake; [lia|]; apply Hpos; eapply list_elem_of_lookup_2, lookup_zget; destruct W1; lia.
Qed.

(** An entry of the ARP queue is replaced. *)
Lemma nst_arpq F X n i e : nst F (aq_blk e ++ X) n -> 0 <= i < IP_ARPQ_SLOTS -> (aq_valid e = false -> aq_payload e = 0) ->
  nst F (aq_blk (zget (ip_arpq n) i) ++ X) (set_ip_arpq (zset (ip_arpq n) i e) n).
Proof.
  intros [[W1 W2 W3 W4 W5 W6] Hm] Hi He. split.
  - split; cbn; rewrite ?zlen_zset; try done. by apply Forall_zset.
  - eapply owned_perm; [exact Hm|]. unfold ip_blocks. cbn. destruct (bind_zset aq_blk (ip_arpq n) i ltac:(lia)) as (R & HR & Hset).
    rewrite HR, Hset. apply perm_exchange.
Qed.

Lemma oldest_arpq_bound q : 0 <= oldest_arpq q < IP_ARPQ_SLOTS.
Proof.
  unfold oldest_arpq, IP_ARPQ_SLOTS. apply (zfor_ind (fun _ o => 0 <= o < 16)); [lia|]. intros k o Hk Ho. case_if; lia.
Qed.
Lemma ht_free_opt F X p k : ht (nst F (ptr_blk p k ++ X)) (only_if (negb (p =? 0)) (kfree_n p)) (fun _ => nst F X).
Proof. unfold ptr_blk. destruct (p =? 0); [by intros n Hn | apply ht_kfree]. Qed.
Lemma unused_payload n i : net_wf n -> 0 <= i < IP_ARPQ_SLOTS -> aq_valid (zget (ip_arpq n) i) = false -> aq_payload (zget (ip_arpq n) i) = 0.
Proof.
  intros [_ W2 W3 _ _] Hi. rewrite Forall_forall in W3. apply W3. eapply list_elem_of_lookup_2, lookup_zget. lia.
Qed.

Lemma keep_arpq_enqueue hop dst protocol payload : keeping (ip_arpq_enqueue (B := B) hop dst protocol payload).
Proof.
  pose proof (zlen_nonneg payload) as Hz. intros F X. eapply (ht_bind _ _ (fun p => nst F (ptr_blk p (zlen payload) ++ X))).
  { destruct (0 <? zlen payload); [by apply ht_kalloc | by intros n Hn]. }
  intros copy. destruct ((0 <? zlen payload) && (copy =? 0)) eqn:E.
  { apply andb_true_iff in E as [_ E]. unfold ptr_blk. rewrite E. apply keep_ret. }
  eapply (ht_bind _ _ (fun _ => nst F (ptr_blk copy (zlen payload) ++ X))).
  { apply ht_only_if; [|done]. intros E0. rewrite E0 in E. cbn in E. unfold ptr_blk. rewrite E. eapply (ht_touch _ _ copy _ (zlen payload)); [lia | by left]. }
  intros u0 n Hn. unfold now_ms, mbind, nact_bind, get, put, mret, nact_ret. cbn [fst snd].
  set (q := ip_arpq n). set (slot := match free_arpq q with Some i => i | None => oldest_arpq q end).
  assert (0 <= slot < IP_ARPQ_SLOTS) as Hs.
  { unfold slot, free_arpq. destruct (zfind 16 0 _) as [i|] eqn:Ei; [apply zfind_same in Ei as (Hi & _); unfold IP_ARPQ_SLOTS; lia | apply oldest_arpq_bound]. }
  assert (match free_arpq q with Some _ => 0 | None => aq_payload (zget q slot) end = aq_payload (zget q slot)) as ->.
  { destruct (free_arpq q) as [i|] eqn:Ei; [|done]. symmetry. apply unused_payload; [apply Hn | done|].
    apply zfind_same in Ei as (_ & Hi & _). by apply negb_true_iff in Hi. }
  set (e := mk_arpq true hop dst protocol copy payload (hpet_get_ticks (below n))). assert (nst F (aq_blk e ++ X) n) as Hn' by exact Hn.
  pose proof (ht_free_opt F X (aq_payload (zget q slot)) (zlen (aq_bytes (zget q slot))) _ (nst_arpq F X n slot e Hn' Hs ltac:(done))) as Hf.
  by destruct (only_if _ _ _) as [u n'].
Qed.
#[local] Hint Resolve keep_arpq_enqueue keep_lo_enqueue : keep.

Lemma keep_send_packet dst protocol payload : keeping (ip_send_packet (B := B) dst protocol payload).
Proof. unfold ip_send_packet. keep. Qed.
#[local] Hint Resolve keep_send_packet : keep.

(** ** The datagrams that wait for ARP *)

Lemma nst_release F X n i : nst F X n -> 0 <= i < IP_ARPQ_SLOTS ->
  nst F (aq_blk (zget (ip_arpq n) i) ++ X) (set_ip_arpq (zset (ip_arpq n) i (release_arpq (zget (ip_arpq n) i))) n).
Proof. intros Hn Hi. by apply nst_arpq. Qed.

Lemma keep_resolved_slot ip i : 0 <= i < IP_ARPQ_SLOTS -> keeping (resolved_slot (B := B) ip i).
Proof.
  intros Hi F X n Hn. unfold resolved_slot. unfold mbind at 1, nact_bind at 1, get at 1. set (e := zget (ip_arpq n) i).
  destruct (negb (aq_valid e) || _); [done|]. unfold mbind at 1, nact_bind at 1, put at 1.
  assert (ht (nst F (aq_blk e ++ X)) (_ ← in_use_opt (aq_payload e) (zlen (aq_bytes e)) (ip_send_packet (B := B) (aq_dst_ip e) (aq_protocol e) (aq_bytes e));
    only_if (negb (aq_payload e =? 0)) (kfree_n (aq_payload e))) (fun _ => nst F X)) as Hk.
  { eapply ht_bind; [apply ht_in_use_opt; [apply zlen_nonneg | apply keep_send_packet]|]. intros u. apply ht_free_opt. }
  exact (Hk _ (nst_release F X n i Hn Hi)).
Qed.
Lemma keep_arp_resolved ip : keeping (ip_arp_resolved (B := B) ip).
Proof. apply keep_loop. intros j Hj. apply keep_resolved_slot. unfold IP_ARPQ_SLOTS. lia. Qed.
#[local] Hint Resolve keep_arp_resolved : keep.

Definition retry_hop (hop : list Z) : nact unit :=
  mac ← arp_resolve hop; match mac with Some _ => ip_arp_resolved hop | None => mret tt end.
Lemma keep_retry hop : keeping (retry_hop hop).
Proof. unfold retry_hop. keep. Qed.
Lemma keep_tick_slot now i : 0 <= i < IP_ARPQ_SLOTS -> keeping (tick_slot (B := B) now i).
Proof.
  intros Hi F X n Hn. unfold tick_slot. unfold mbind at 1, nact_bind at 1, get at 1. set (e := zget (ip_arpq n) i).
  fold (retry_hop (aq_next_hop e)). destruct (negb (aq_valid e)); [done|]. cbn zeta.
  destruct (IP_ARPQ_MAX_AGE_MS <? now -64 aq_queued_at e); cbn [only_if].
  - unfold mbind at 1, nact_bind at 1, put at 1. pose proof (nst_release F X n i Hn Hi) as Hr. fold e in Hr. unfold aq_blk, ptr_blk in Hr.
    destruct (Z.eqb_spec (aq_payload e) 0) as [E|E]; cbn [negb] in *; [exact (keep_retry _ F X _ Hr) | exact (ht_kfree F X _ _ _ Hr)].
  - exact (keep_retry _ F X n Hn).
Qed.
Lemma keep_arpq_tick : keeping (ip_arpq_tick (B := B)).
Proof. unfold ip_arpq_tick, now_ms. apply keep_bind; [apply keep_get|]. intros now. apply keep_loop. intros j Hj. apply keep_tick_slot. unfold IP_ARPQ_SLOTS. lia. Qed.

Lemma keep_insert ip mac : keeping (arp_insert (B := B) ip mac).
Proof. unfold arp_insert. keep. Qed.
#[local] Hint Resolve keep_insert : keep.
Lemma keep_add_static ip mac : keeping (arp_add_static (B := B) ip mac).
Proof. unfold arp_add_static, now_ms. keep. Qed.
Lemma keep_arp_handle frame : keeping (arp_handle_packet (B := B) frame).
Proof. unfold arp_handle_packet. keep. Qed.

(** ** Reassembly *)

Lemma nst_slot F X X' n i s : nst F X n -> 0 <= i < IP_FRAG_MAX_SLOTS -> slot_wf s ->
  fs_blk s ++ X' ≡ₚ fs_blk (zget (ip_frag_slots n) i) ++ X -> nst F X' (set_ip_frag (zset (ip_frag_slots n) i s) n).
Proof.
  intros [[W1 W2 W3 W4 W5 W6] Hm] Hi Hs Hp. split.
  - split; cbn; rewrite ?zlen_zset; try done. by apply Forall_zset.
  - eapply owned_perm; [exact Hm|]. unfold ip_blocks. cbn. destruct (bind_zset fs_blk (ip_frag_slots n) i ltac:(lia)) as (R & HR & Hset).
    rewrite HR, Hset. rewrite !(Permutation_app_swap_app _ (fs_blk _) R), !(Permutation_app_swap_app _ (fs_blk _)).
    rewrite !(app_assoc (fs_blk _)), Hp. done.
Qed.
Lemma slot_facts n i : net_wf n -> 0 <= i < IP_FRAG_MAX_SLOTS -> slot_wf (zget (ip_frag_slots n) i).
Proof.
  intros [_ _ _ W4 W5 _] Hi. rewrite Forall_forall in W5. apply W5. eapply list_elem_of_lookup_2, lookup_zget. lia.
Qed.
Lemma freed_wf s : slot_wf (freed_slot s).
Proof. by split. Qed.
Lemma new_wf src dst id protocol now : slot_wf (new_slot src dst id protocol now).
Proof. by split. Qed.

(** The blocks of the pieces of a slot. *)
Definition held (X : list (Z * Z)) (n : net) (p : ip_frag_piece_t) : Prop :=
  piece_wf p /\ (pc_self p, piece_size) ∈ X ++ ip_blocks n /\ (pc_data p, zlen (pc_bytes p)) ∈ X ++ ip_blocks n.
Lemma slot_held X n i : net_wf n -> 0 <= i < IP_FRAG_MAX_SLOTS -> Forall (held X n) (fs_pieces (zget (ip_frag_slots n) i)).
Proof.
  intros Hw Hi. pose proof (sw_pieces _ (slot_facts n i Hw Hi)) as Hwf. rewrite Forall_forall in *. intros p Hp. specialize (Hwf p Hp).
  assert (forall b, b ∈ pc_blk p -> b ∈ X ++ ip_blocks n) as Hin.
  { intros b Hb. apply elem_of_app. right. unfold ip_blocks. rewrite !elem_of_app. right. right. apply list_elem_of_bind.
    exists (zget (ip_frag_slots n) i). split; [apply list_elem_of_bind; by exists p|].
    destruct Hw as [_ _ _ W4 _ _]. eapply list_elem_of_lookup_2, lookup_zget. lia. }
  split; [done|]. split; apply Hin; unfold pc_blk; [by left|]. right. unfold ptr_blk. destruct Hwf as [Hd _]. destruct (Z.eqb_spec (pc_data p) 0); [done | by left].
Qed.
Lemma touch_pieces_ok F X l n : nst F X n -> Forall (held X n) l ->
  exists a, touch_pieces l n = (tt, set_accesses a n) /\ nst F X (set_accesses a n).
Proof.
  revert n. induction l as [|p l IH]; intros n Hn Hl.
  - exists (accesses n). by destruct n.
  - apply Forall_cons in Hl as [(_ & Hp & _) Hl]. pose proof (nst_touch F X n _ piece_size _ Hn Hp ltac:(done)) as Hn1.
    destruct (IH _ Hn1 Hl) as (a & E & Ha). exists a. split; [|exact Ha]. cbn [touch_pieces]. unfold mbind, nact_bind, touch, put. by rewrite E.
Qed.
Lemma touch_copies_ok F X buf k l n : nst F X n -> (buf, k) ∈ X -> Forall (held X n) l -> Forall (fun p => pc_offset p + pc_length p <= k) l ->
  exists a, touch_copies buf l n = (tt, set_accesses a n) /\ nst F X (set_accesses a n).
Proof.
  intros Hn Hb. revert n Hn. induction l as [|p l IH]; intros n Hn Hl Hk.
  - exists (accesses n). by destruct n.
  - apply Forall_cons in Hl as [((_ & Hz & Ho & _) & Hp & Hd) Hl]. apply Forall_cons in Hk as [Hpk Hk]. pose proof (zlen_nonneg (pc_bytes p)).
    pose proof (nst_touch F X n _ piece_size _ Hn Hp ltac:(done)) as Hn1.
    pose proof (nst_touch F X _ _ (pc_length p) _ Hn1 Hd ltac:(lia)) as Hn2.
    pose proof (nst_touch F X _ buf (pc_offset p + pc_length p) k Hn2 ltac:(apply elem_of_app; by left) ltac:(lia)) as Hn3.
    destruct (IH _ Hn3 Hl Hk) as (a & E & Ha). exists a. split; [|exact Ha]. cbn [touch_copies]. unfold mbind, nact_bind, touch, put. by rewrite E.
Qed.

(** Freeing the pieces of a slot changes nothing but the heap. *)
Definition free_opt (p : Z) (b : B) : B := if negb (p =? 0) then hp_kfree p b else b.
Definition free_piece (x : list access * B) (p : ip_frag_piece_t) : list access * B :=
  (mk_access (pc_self p) piece_size x.2 :: x.1, hp_kfree (pc_self p) (free_opt (pc_data p) x.2)).
Definition free_all (l : list ip_frag_piece_t) (x : list access * B) : list access * B := foldl free_piece x l.
Definition with_mem (x : list access * B) (n : net) : net := set_below x.2 (set_accesses x.1 n).
Lemma free_pieces_eq l n : free_pieces l n = (tt, with_mem (free_all l (accesses n, below n)) n).
Proof.
  revert n. induction l as [|p l IH]; intros n; cbn [free_pieces].
  - unfold mret, nact_ret, free_all. cbn. by destruct n.
  - unfold mbind, nact_bind, only_if. unfold free_all. cbn [foldl]. fold (free_all l). unfold free_piece, free_opt. destruct (negb (pc_data p =? 0)); cbn; by rewrite IH.
Qed.
Lemma free_all_mem F l Y x : Forall in_block x.1 -> mem_ok F x.2 ((l ≫= pc_blk) ++ Y) ->
  Forall in_block (free_all l x).1 /\ mem_ok F (free_all l x).2 Y.
Proof.
  revert x. induction l as [|p l IH]; intros x Ha; [done|]. rewrite bind_cons, <- app_assoc. intros Hm. unfold free_all. cbn [foldl]. fold (free_all l).
  apply IH.
  - constructor; [|done]. destruct (mo_live _ _ _ Hm (pc_self p) piece_size) as (j & ? & ?); [by left|]. exists j. by split.
  - unfold pc_blk in Hm. cbn in Hm. eapply owned_free. unfold free_opt, ptr_blk in *. destruct (pc_data p =? 0); cbn in *; [exact Hm|].
    eapply owned_free. eapply owned_perm; [exact Hm|]. apply Permutation_swap.
Qed.
Lemma nst_free_all F X l n : nst F ((l ≫= pc_blk) ++ X) n -> nst F X (with_mem (free_all l (accesses n, below n)) n).
Proof.
  intros [[W1 W2 W3 W4 W5 W6] Hm]. rewrite <- app_assoc in Hm. destruct (free_all_mem F l _ (accesses n, below n) W6 Hm) as [Ha Hf]. by split; [split|].
Qed.

Lemma slot_free_eq i n : ip_frag_slot_free i n =
  (tt, with_mem (free_all (fs_pieces (zget (ip_frag_slots n) i)) (accesses n, below n)) (set_ip_frag (zset (ip_frag_slots n) i (freed_slot (zget (ip_frag_slots n) i))) n)).
Proof. unfold ip_frag_slot_free, slot_at, get, set_slot, put, mbind, nact_bind. by rewrite free_pieces_eq. Qed.
Lemma keep_slot_free i : 0 <= i < IP_FRAG_MAX_SLOTS -> keeping (ip_frag_slot_free (B := B) i).
Proof.
  intros Hi F X n Hn. rewrite slot_free_eq. cbn [fst snd]. apply (nst_free_all F X _ (set_ip_frag _ n)).
  by eapply nst_slot; [| | apply freed_wf|].
Qed.
Lemma keep_fragment_cleanup : keeping (ip_fragment_cleanup (B := B)).
Proof.
  unfold ip_fragment_cleanup, now_ms. apply keep_bind; [apply keep_get|]. intros now. apply keep_loop. intros j Hj. unfold cleanup_slot, slot_at.
  apply keep_bind; [apply keep_get|]. intros s. apply keep_only_if, keep_slot_free. unfold IP_FRAG_MAX_SLOTS. lia.
Qed.

(** The slot of the fragment at hand is active. *)
Definition slot_st (i : Z) (F : Z -> Z -> Prop) (X : list (Z * Z)) (n : net) : Prop :=
  (0 <= i < IP_FRAG_MAX_SLOTS /\ fs_active (zget (ip_frag_slots n) i) = true) /\ nst F X n.

Lemma oldest_slot_bound l : 0 <= oldest_slot l < IP_FRAG_MAX_SLOTS.
Proof.
  unfold oldest_slot, IP_FRAG_MAX_SLOTS. apply (zfor_ind (fun _ o => 0 <= o.1 < 8)); [cbn; lia|]. intros k o Hk Ho. case_if; cbn; lia.
Qed.
Lemma nst_new_slot F X n i src dst id protocol now : nst F X n -> 0 <= i < IP_FRAG_MAX_SLOTS -> fs_pieces (zget (ip_frag_slots n) i) = [] ->
  slot_st i F X (set_ip_frag (zset (ip_frag_slots n) i (new_slot src dst id protocol now)) n).
Proof.
  intros Hn Hi Hp. split.
  - split; [done|]. cbn [ip_frag_slots set_ip_frag]. destruct Hn as [[_ _ _ W4 _] _]. by rewrite zget_zset_eq by lia.
  - eapply nst_slot; [exact Hn | done | apply new_wf |]. unfold fs_blk. by rewrite Hp.
Qed.
Lemma ht_find F X src dst id protocol : ht (nst F X) (ip_frag_find_or_create (B := B) src dst id protocol) (fun i => slot_st i F X).
Proof.
  eapply ht_bind; [apply ht_get|]. intros l. destruct (zfind 8 0 (fun i => slot_for src dst id protocol (zget l i))) as [i|] eqn:E1.
  { intros n [-> Hn]. apply zfind_same in E1 as (Hi & Hs & _). change (slot_st i F X n). split; [|exact Hn]. split; [unfold IP_FRAG_MAX_SLOTS; lia|]. unfold slot_for in Hs. by bool_hyps. }
  eapply ht_bind; [apply ht_get|]. intros now. destruct (zfind 8 0 (fun i => negb (fs_active (zget l i)))) as [i|] eqn:E2.
  { intros n (_ & -> & Hn). apply zfind_same in E2 as (Hi & Hs & _). apply negb_true_iff in Hs.
    apply nst_new_slot; [done | unfold IP_FRAG_MAX_SLOTS; lia|]. apply (slot_facts n i (proj1 Hn)); [unfold IP_FRAG_MAX_SLOTS; lia | done]. }
  intros n (_ & -> & Hn). set (i := oldest_slot _). pose proof (oldest_slot_bound (ip_frag_slots n)) as Hi. fold i in Hi.
  pose proof (keep_slot_free i Hi F X n Hn) as Hk. unfold mbind, nact_bind. rewrite slot_free_eq in *. cbn [fst snd] in *.
  apply (nst_new_slot F X _ i src dst id protocol _ Hk Hi). cbn [ip_frag_slots set_ip_frag set_below set_accesses with_mem].
  destruct (proj1 Hn) as [_ _ _ W4 _]. by rewrite zget_zset_eq by lia.
Qed.

(** An action that leaves the slots alone. *)
Lemma slot_lift {A} i F X (X' : A -> list (Z * Z)) (m : nact A) : ht (nst F X) m (fun r => nst F (X' r)) ->
  (forall n, ip_frag_slots (m n).2 = ip_frag_slots n) -> ht (slot_st i F X) m (fun r => slot_st i F (X' r)).
Proof. intros Hm Hs n [[Hi Ha] Hn]. split; [by rewrite Hs | by apply Hm]. Qed.
Lemma ht_touch_slot i F X p k k0 : 0 <= k <= k0 -> (p, k0) ∈ X -> ht (slot_st i F X) (touch p k) (fun _ => slot_st i F X).
Proof. intros Hk Hin. apply (slot_lift i F X (fun _ => X)); [by eapply ht_touch | done]. Qed.
Lemma kalloc_slots k n : ip_frag_slots (kalloc_n (B := B) k n).2 = ip_frag_slots n.
Proof. unfold kalloc_n, down. by destruct (hp_kalloc k (below n)). Qed.

(** The new piece is linked into the list of the slot. *)
Definition link_piece (i : Z) (pc : ip_frag_piece_t) (more : bool) : nact bool :=
  s ← slot_at i;
  _ ← touch_pieces (fs_pieces s);
  _ ← touch (pc_self pc) piece_size;
  let s := slot_add pc more s in
  _ ← set_slot i s;
  _ ← only_if (enough_bytes s) (touch_pieces (fs_pieces s));
  mret (slot_complete s).
(** A slot to which a fragment was added. *)
Definition added (i : Z) (F : Z -> Z -> Prop) (X : list (Z * Z)) (complete : bool) (n : net) : Prop :=
  slot_st i F X n /\ (complete = true -> slot_complete (zget (ip_frag_slots n) i) = true).
Lemma slot_add_wf pc more s : slot_wf s -> fs_active s = true -> piece_wf pc -> slot_wf (slot_add pc more s).
Proof.
  intros [S1 S2 S3] Ha Hp. split; cbn.
  - by rewrite Ha.
  - destruct more; [done|]. unfold u16. apply Z.mod_pos_bound. lia.
  - rewrite insert_piece_perm. by constructor.
Qed.
Lemma nst_link F X n i pc more : slot_st i F (pc_blk pc ++ X) n -> piece_wf pc ->
  slot_st i F X (set_ip_frag (zset (ip_frag_slots n) i (slot_add pc more (zget (ip_frag_slots n) i))) n) /\
  zget (zset (ip_frag_slots n) i (slot_add pc more (zget (ip_frag_slots n) i))) i = slot_add pc more (zget (ip_frag_slots n) i).
Proof.
  intros [[Hi Ha] Hn] Hp. assert (forall x, zget (zset (ip_frag_slots n) i x) i = x) as Hz.
  { intros x. destruct (proj1 Hn) as [_ _ _ W4 _ _]. by rewrite zget_zset_eq by lia. }
  split; [|apply Hz]. split; [split; [done|]; cbn [ip_frag_slots set_ip_frag]; by rewrite Hz|].
  eapply nst_slot; [exact Hn | done | apply slot_add_wf; [apply slot_facts; [apply Hn | done] | done | done] |].
  unfold fs_blk at 1. cbn [slot_add fs_pieces]. rewrite insert_piece_perm, bind_cons. fold (fs_blk (zget (ip_frag_slots n) i)).
  rewrite <- app_assoc. apply Permutation_app_swap_app.
Qed.
Lemma ht_link i F X pc more : piece_wf pc -> ht (slot_st i F (pc_blk pc ++ X)) (link_piece i pc more) (added i F X).
Proof.
  intros Hp n [[Hi Ha] Hn]. destruct (touch_pieces_ok F _ _ n Hn (slot_held _ n i (proj1 Hn) Hi)) as (a & E1 & Hn1).
  pose proof (nst_touch F _ _ (pc_self pc) piece_size piece_size Hn1 ltac:(apply elem_of_app; left; unfold pc_blk; by left) ltac:(done)) as Hn2.
  set (n2 := set_accesses _ (set_accesses a n)) in *. destruct (nst_link F X n2 i pc more (conj (conj Hi Ha) Hn2) Hp) as [[Hs3 Hn3] Hz].
  set (s' := slot_add pc more (zget (ip_frag_slots n2) i)) in *. set (n3 := set_ip_frag _ n2) in *.
  assert (zget (ip_frag_slots n3) i = s') as Hz3 by exact Hz. pose proof (slot_held X n3 i (proj1 Hn3) Hi) as Hh. rewrite Hz3 in Hh.
  assert (exists a', only_if (enough_bytes s') (touch_pieces (fs_pieces s')) n3 = (tt, set_accesses a' n3) /\ nst F X (set_accesses a' n3)) as (a' & E3 & Hn4).
  { destruct (enough_bytes s'); [by apply touch_pieces_ok|]. by exists (accesses n3). }
  assert (link_piece i pc more n = (slot_complete s', set_accesses a' n3)) as ->.
  { unfold link_piece, slot_at, get, mbind, nact_bind. rewrite E1. unfold touch, put at 1, set_slot, put at 1.
    change (slot_add pc more (zget (ip_frag_slots n) i)) with s'. fold n2. fold n3. by rewrite E3. }
  split; [by split|]. intros Hc. change (slot_complete (zget (ip_frag_slots n3) i) = true). by rewrite Hz3.
Qed.

Lemma ht_frag_add i F X offset data more : 0 <= offset -> offset + zlen data <= IP_FRAG_MAX_SIZE ->
  ht (slot_st i F X) (ip_frag_add (B := B) i offset data more) (added i F X).
Proof.
  intros Ho Hd. pose proof (zlen_nonneg data) as Hz. unfold ip_frag_add.
  eapply ht_bind; [apply slot_lift; [by apply ht_kalloc | apply kalloc_slots]|]. intros p. unfold ptr_blk. destruct (Z.eqb_spec p 0) as [->|Hp]; [by intros n Hn|].
  eapply ht_bind; [apply (ht_touch_slot _ _ _ p _ piece_size); [done | by left]|]. intros u.
  eapply ht_bind; [apply slot_lift; [by apply ht_kalloc | apply kalloc_slots]|]. intros q. unfold ptr_blk. destruct (Z.eqb_spec q 0) as [->|Hq].
  { intros n [Hs Hn]. split; [|done]. split; [done|]. exact (ht_kfree F X p piece_size n Hn). }
  eapply ht_bind; [apply (ht_touch_slot _ _ _ q _ (zlen data)); [lia | by left]|]. intros u'.
  eapply ht_pre; [|apply (ht_link i F X (mk_piece p offset (zlen data) q data)); by split_and!]. intros n [Hs Hn]. split; [done|].
  destruct Hn as [Hw Hm]. split; [done|]. eapply owned_perm; [exact Hm|]. unfold pc_blk, ptr_blk. cbn [pc_self pc_data pc_bytes].
  destruct (Z.eqb_spec q 0); [done|]. cbn. apply Permutation_swap.
Qed.

(** The pieces of a complete slot lie in its buffer. *)
Lemma contiguous_within l : forall e t, 0 <= e -> Forall piece_wf l -> contiguous_end e l = Some t ->
  e <= t /\ Forall (fun p => pc_offset p + pc_length p <= t) l.
Proof.
  induction l as [|p l IH]; intros e t He Hl E; cbn [contiguous_end] in E; [injection E as ->; done|].
  apply Forall_cons in Hl as [(_ & Hz & Ho & Hend) Hl]. destruct (Z.eqb_spec (pc_offset p) e) as [Epo|]; [|done].
  pose proof (zlen_nonneg (pc_bytes p)). unfold IP_FRAG_MAX_SIZE in *. unfold u16 in E. rewrite Z.mod_small in E by lia.
  destruct (IH (e + pc_length p) t ltac:(lia) Hl E) as [H1 H2]. split; [lia|]. constructor; [lia | done].
Qed.
Lemma complete_within s : slot_wf s -> slot_complete s = true -> Forall (fun p => pc_offset p + pc_length p <= fs_total_len s) (fs_pieces s).
Proof.
  intros Hs. unfold slot_complete. destruct (contiguous_end 0 (fs_pieces s)) as [t|] eqn:E; [|by rewrite andb_false_r].
  intros [_ <-%Z.eqb_eq]%andb_true_iff. by apply (contiguous_within _ 0 t); [lia | apply Hs|].
Qed.
Lemma copy_pieces_length l : forall buf, Forall piece_wf l -> Forall (fun p => pc_offset p + pc_length p <= zlen buf) l -> zlen (copy_pieces buf l) = zlen buf.
Proof.
  induction l as [|p l IH]; intros buf Hw Hl; [done|]. apply Forall_cons in Hw as [(_ & Hz & Ho & _) Hw]. apply Forall_cons in Hl as [Hp Hl].
  unfold copy_pieces. cbn [foldl]. fold (copy_pieces (splice buf (pc_offset p) (ztake (pc_length p) (pc_bytes p))) l).
  assert (zlen (splice buf (pc_offset p) (ztake (pc_length p) (pc_bytes p))) = zlen buf) as Hs.
  { rewrite Hz, ztake_all by done. apply zlen_splice; lia. }
  rewrite IH; [done | done | by rewrite Hs].
Qed.

(** The buffer holds what is copied into it. *)
Definition reassembled (F : Z -> Z -> Prop) (X : list (Z * Z)) (r : Z * list Z) (n : net) : Prop := nst F (ptr_blk r.1 (zlen r.2) ++ X) n.
Lemma ht_reassemble i F X : ht (added i F X true) (ip_frag_reassemble (B := B) i) (fun r n => 0 <= i < IP_FRAG_MAX_SLOTS /\ reassembled F X r n).
Proof.
  eapply ht_bind; [apply ht_get|]. intros s n (-> & ((Hi & Ha) & Hn) & Hc). specialize (Hc eq_refl). set (s := zget (ip_frag_slots n) i) in *.
  destruct (fs_total_len s =? 0); [by split|]. pose proof (slot_facts n i (proj1 Hn) Hi) as Hwf. fold s in Hwf. unfold mbind, nact_bind.
  pose proof (ht_kalloc F X _ (sw_total _ Hwf) n Hn) as Hk. pose proof (kalloc_slots (fs_total_len s) n) as Hsl. destruct (kalloc_n _ n) as [p n']. cbn [fst snd] in *.
  destruct (Z.eqb_spec p 0) as [->|Hp]; [by split|]. unfold ptr_blk in Hk. rewrite (proj2 (Z.eqb_neq p 0)) in Hk by done.
  pose proof (slot_held ((p, fs_total_len s) :: X) n' i (proj1 Hk) Hi) as Hh. rewrite Hsl in Hh. fold s in Hh.
  pose proof (complete_within s Hwf Hc) as Hin.
  destruct (touch_copies_ok F _ p (fs_total_len s) _ n' Hk ltac:(by left) Hh Hin) as (a & -> & Hna). split; [done|].
  assert (zlen (zeros (Z.to_nat (fs_total_len s))) = fs_total_len s) as Hlen.
  { unfold zlen, zeros. rewrite length_replicate. pose proof (sw_total _ Hwf). lia. }
  unfold reassembled, mret, nact_ret. cbn [fst snd]. rewrite copy_pieces_length, Hlen; [|apply Hwf | by rewrite Hlen].
  unfold ptr_blk. rewrite (proj2 (Z.eqb_neq p 0)) by done. exact Hna.
Qed.

(** What is handed up is in a buffer of its own, if any, that is large enough. *)
Definition handing (F : Z -> Z -> Prop) (X : list (Z * Z)) (r : delivery) (n : net) : Prop :=
  exists k, nst F (ptr_blk r.2 k ++ X) n /\ forall u, r.1 = Some u -> r.2 <> 0 -> 0 <= extent u <= k.
Lemma ht_none F X : ht (nst F X) (mret (None, 0) : nact delivery) (handing F X).
Proof. intros n Hn. by exists 0. Qed.
Lemma dispatch_extent f protocol len u : dispatch f 34 protocol len = Some u -> 34 <= zlen f -> 0 <= extent u <= zlen f.
Proof.
  intros E Hf. assert (34 + zlen (ztake len (zdrop 34 f)) <= zlen f).
  { unfold ztake, zdrop, zlen in *. rewrite length_take, length_drop. lia. }
  pose proof (zlen_nonneg (ztake len (zdrop 34 f))). unfold dispatch in E. repeat case_match; simplify_eq; cbn [extent]; lia.
Qed.
Lemma zlen_synth frame r : 34 <= zlen frame -> zlen (synth_frame frame r) = 34 + zlen r.
Proof. intros Hf. unfold synth_frame. cbn zeta. rewrite zlen_app, !zlen_zset, zlen_ztake by lia. lia. Qed.

Lemma ht_synth F X frame protocol buf bytes : buf <> 0 -> 34 <= zlen frame ->
  ht (nst F ((buf, zlen bytes) :: X))
    (synth ← kalloc_n (34 + zlen bytes);
     if synth =? 0 then _ ← kfree_n buf; mret (None, 0)
     else
       _ ← touch synth 34;
       _ ← touch buf (zlen bytes);
       _ ← touch synth (34 + zlen bytes);
       _ ← kfree_n buf;
       mret (dispatch (synth_frame frame bytes) 34 protocol (zlen bytes), synth)) (handing F X).
Proof.
  intros Hb Hf. pose proof (zlen_nonneg bytes). eapply ht_bind; [apply ht_kalloc; lia|]. intros sy. unfold ptr_blk. destruct (Z.eqb_spec sy 0) as [->|Hsy].
  - eapply ht_bind; [apply ht_kfree|]. intros u'. apply ht_none.
  - eapply ht_bind; [apply (ht_touch F _ sy _ (34 + zlen bytes)); [lia | by left]|]. intros u1.
    eapply ht_bind; [apply (ht_touch F _ buf _ (zlen bytes)); [lia | right; by left]|]. intros u2.
    eapply ht_bind; [apply (ht_touch F _ sy _ (34 + zlen bytes)); [lia | by left]|]. intros u3.
    eapply (ht_bind _ _ (fun _ => nst F ((sy, 34 + zlen bytes) :: X))).
    { eapply ht_pre; [|apply (ht_kfree F _ buf (zlen bytes))]. intros m [Hw Hm]. split; [done|]. eapply owned_perm; [exact Hm|]. apply Permutation_swap. }
    intros u4 m Hm. exists (34 + zlen bytes). cbn [fst snd mret nact_ret]. unfold ptr_blk. rewrite (proj2 (Z.eqb_neq sy 0)) by done. split; [exact Hm|].
    intros u Hu _. rewrite <- (zlen_synth frame bytes Hf). eapply dispatch_extent; [exact Hu|]. rewrite zlen_synth; [lia | done].
Qed.

Lemma ht_fragment_input F X frame start plen off id more : 34 <= zlen frame -> 0 <= plen -> 0 <= off ->
  ht (nst F X) (ip_fragment_input (B := B) frame start plen off id more) (handing F X).
Proof.
  intros Hf Hpl Hoff. assert (forall i n, slot_st i F X n -> nst F X n) as Hdrop by (by intros i n [_ ?]).
  unfold ip_fragment_input. cbn zeta. eapply ht_bind; [apply ht_find|]. intros i. destruct (Z.ltb_spec IP_FRAG_MAX_SIZE (off + plen)) as [|Hle].
  { eapply ht_pre; [apply Hdrop | apply ht_none]. }
  eapply ht_bind; [apply ht_frag_add; [done|]; unfold ztake, zlen; rewrite length_take; lia|].
  intros complete. destruct complete; cbn [negb]; [|eapply ht_pre; [intros n [Hn _]; by eapply Hdrop | apply ht_none]].
  eapply ht_bind; [apply ht_reassemble|]. intros [buf bytes]. apply ht_pure. intros Hi. unfold reassembled. cbn [fst snd].
  eapply ht_bind; [by apply keep_slot_free|]. intros u. unfold ptr_blk at 1. destruct (Z.eqb_spec buf 0); [apply ht_none | by apply ht_synth].
Qed.

Lemma keep_count_malformed : keeping (net_rx_count_malformed (B := B)).
Proof. unfold net_rx_count_malformed, on_drops. keep. Qed.
Lemma keep_count_proto p : keeping (net_rx_count_ip_proto (B := B) p).
Proof. unfold net_rx_count_ip_proto, on_drops. keep. Qed.
Lemma keep_count_l2 t : keeping (net_rx_count_unknown_l2 (B := B) t).
Proof. unfold net_rx_count_unknown_l2, on_drops. keep. Qed.

Lemma ht_input F X frame : ht (nst F X) (ip_input (B := B) frame) (handing F X).
Proof.
  assert (ht (nst F X) (malformed (B := B)) (handing F X)) as Hbad.
  { eapply ht_bind; [apply keep_count_malformed|]. intros u. apply ht_none. }
  unfold ip_input. cbn zeta. destruct (Z.ltb_spec (zlen frame) 34) as [|Hlen]; [done|]. destruct (negb (_ =? 4)); [done|]. destruct (_ || _); [done|].
  eapply ht_bind; [apply keep_get|]. intros our. destruct (negb (for_us _ _)); [apply ht_none|]. destruct (negb (ip_header_ok _)); [done|].
  match goal with |- context [?a <? ?b] => destruct (Z.ltb_spec a b) as [|Htot]; [done|] end. destruct (_ <? _); [done|].
  eapply ht_bind; [apply keep_only_if, keep_insert|]. intros u. destruct (_ || _).
  { apply ht_fragment_input; [unfold swap_checksum; by rewrite !zlen_zset | lia|].
    match goal with |- 0 <= Z.land ?x _ * 8 => pose proof (proj2 (Z.land_nonneg x 0x1FFF) ltac:(right; lia)) end. lia. }
  eapply ht_bind; [apply keep_only_if, keep_count_proto|]. intros u' n Hn. exists 0. by split.
Qed.
End mem.

(** * IPv4 as the layer below the transports

    The stack of src/net_ip.c and src/net_arp.c provides what src/net_tcp.c is
    verified against: the classes [NetDown] and [NetDownLaws].  The blocks in its
    queues and reassembly slots are hidden from its clients. *)

Section instances.
Context {B : Type} `{!KHeap B} `{!NetHw B}.

#[export] Instance net_heap : KHeap (net B) := {|
  hp_kalloc k n := kalloc_n k n;
  hp_kfree p n := (kfree_n p n).2;
  hp_pages_available n := hp_pages_available (below n);
  heap_ok n := net_wf n /\ exists F, mem_ok F (below n) (ip_blocks n);
  heap_live n q k := heap_live (below n) q k /\ q ∉ (ip_blocks n).*1;
|}.

#[export] Instance net_down : NetDown (net B) := {|
  Tcp.ip_send_packet dst protocol pkt n := Ip.ip_send_packet dst protocol pkt n;
  Tcp.ip_select_src dst n := Ip.ip_select_src dst n;
  Tcp.net_get_ip_address n := Net.net_get_ip_address n;
  Tcp.ktime_now_ms n := hpet_get_ticks (below n);
  Tcp.ktime_now_us n := hw_now_us (below n);
  Tcp.rdtsc n := hw_rdtsc (below n);
|}.
End instances.

Section laws.
Context {B : Type} `{!KHeap B} `{!KHeapLaws B} `{!NetHw B} `{!NetHwLaws B}.
Abbreviation net := (net B).
Implicit Types (n : net).

Lemma nst_live F n q k : nst F [] n -> heap_live n q k <-> F q k.
Proof.
  intros [_ [M1 M2 M3 M4 M5]]. cbn in *. split.
  - intros [Hl Hn]. by destruct (M5 _ _ Hl).
  - intros HF. by apply M4.
Qed.
Lemma nst_ok F n : nst F [] n -> heap_ok n.
Proof. intros [Hw Hm]. split; [done|]. by exists F. Qed.
Lemma ok_nst n : heap_ok n -> nst (heap_live n) [] n.
Proof.
  intros [Hw [F [M1 M2 M3 M4 M5]]]. split; [done|]. constructor; try done.
  intros q k Hl. destruct (decide (q ∈ (ip_blocks n).*1)); [by right | by left].
Qed.

(** An operation that keeps the ownership is invisible to the clients. *)
Lemma keeping_hidden {A} (m : nact A) n : keeping m -> heap_ok n ->
  heap_ok (m n).2 /\ forall q k, heap_live (m n).2 q k <-> heap_live n q k.
Proof.
  intros Hm Hok. pose proof (Hm _ _ n (ok_nst n Hok)) as Hn. split; [exact (nst_ok _ _ Hn)|]. intros q k. exact (nst_live _ _ q k Hn).
Qed.

#[export] Instance net_heap_laws : KHeapLaws net.
Proof.
  split.
  - intros n p k [_ [F Hm]] [Hl _]. exact (live_nonnull _ _ _ (mo_heap _ _ _ Hm) Hl).
  - intros n p k m [_ [F Hm]] [Hl _] [Hl' _]. exact (live_functional _ _ _ _ (mo_heap _ _ _ Hm) Hl Hl').
  - intros n p k q m [_ [F Hm]] [Hl _] [Hl' _] Hne. exact (live_disjoint _ _ _ _ _ (mo_heap _ _ _ Hm) Hl Hl' Hne).
  - intros n n' k Hok Hk E. pose proof (ht_kalloc _ _ k Hk n (ok_nst n Hok)) as Hn. change (kalloc_n k n = (0, n')) in E. rewrite E in Hn. cbn in Hn.
    split; [exact (nst_ok _ _ Hn)|]. intros q j. exact (nst_live _ _ q j Hn).
  - intros n n' k p Hok Hk E Hp. change (kalloc_n k n = (p, n')) in E. unfold kalloc_n, down in E.
    destruct (hp_kalloc k (below n)) as [p' b] eqn:Eb. injection E as -> <-. pose proof Hok as [Hw [F Hm]].
    destruct (kalloc_fresh _ _ _ _ (mo_heap _ _ _ Hm) Hk Eb Hp) as (Hok' & m & Hkm & Hfresh & Hl). destruct Hm as [M1 M2 M3 M4 M5].
    assert (p ∉ (ip_blocks n).*1) as Hnp.
    { intros ([? j] & -> & Hin)%list_elem_of_fmap. destruct (M3 _ _ Hin) as (i & _ & Hi). exact (Hfresh _ Hi). }
    split.
    { destruct Hw as [W1 W2 W3 W4 W5 W6]. split; [by split|]. exists (fun q j => (q = p /\ j = m) \/ F q j). change (mem_ok (fun q j => (q = p /\ j = m) \/ F q j) b (ip_blocks n)). constructor; [done | done | | |].
      - intros q j Hin. destruct (M3 _ _ Hin) as (i & ? & Hi). exists i. split; [done|]. apply Hl. by right.
      - intros q j [[-> ->]|HF]; [split; [apply Hl; by left | done]|]. destruct (M4 _ _ HF). split; [apply Hl; by right | done].
      - intros q j [?|Hq]%Hl; [by left; left|]. destruct (M5 _ _ Hq); [by left; right | by right]. }
    exists m. split; [done|]. split.
    { intros j [Hj _]. exact (Hfresh _ Hj). }
    intros q j. cbn. change (ip_blocks (set_below b n)) with (ip_blocks n). rewrite Hl. split.
    + intros [[?|Hq] Hn]; [by left | by right].
    + intros [[-> ->]|[Hq Hn]]; split; auto.
  - intros n p k Hok [Hl Hn]. pose proof Hok as [Hw [F Hm]]. destruct (kfree_live _ _ _ (mo_heap _ _ _ Hm) Hl) as [Hok' Hiff].
    destruct Hm as [M1 M2 M3 M4 M5]. split.
    { destruct Hw as [W1 W2 W3 W4 W5 W6]. split; [by split|]. exists (fun q j => F q j /\ q <> p).
      change (mem_ok (fun q j => F q j /\ q <> p) (hp_kfree p (below n)) (ip_blocks n)). constructor; [done | done | | |].
      - intros q j Hin. destruct (M3 _ _ Hin) as (i & ? & Hi). exists i. split; [done|]. apply Hiff. split; [done|]. intros ->. apply Hn. apply list_elem_of_fmap. by exists (p, j).
      - intros q j [HF Hne]. destruct (M4 _ _ HF). split; [by apply Hiff | done].
      - intros q j [Hq Hne]%Hiff. destruct (M5 _ _ Hq); [by left | by right]. }
    intros q j. cbn. change (ip_blocks (set_below _ n)) with (ip_blocks n). rewrite Hiff. tauto.
Qed.

#[export] Instance net_down_laws : NetDownLaws net.
Proof. split. intros n dst protocol pkt Hok. apply keeping_hidden; [apply keep_send_packet | done]. Qed.
End laws.
