(* ===== verification/Icmp.v ===== *)
(** * ICMP echo

    src/net_icmp.c: echo requests, replies and the reply a ping waits for. *)
From S2P Require Import Prelude Heap TcpSeg TcpWire Net Arp Ip IpFrag IpPath.

Definition ICMP_TYPE_ECHO_REQUEST : Z := 8.
Definition ICMP_TYPE_ECHO_REPLY : Z := 0.

Record icmp_state := mk_icmp { icmp_id_counter : Z; expect_id : Z; expect_seq : Z; expect_hit : bool }.
Definition icmp_init (s : icmp_state) : icmp_state := mk_icmp 0 (expect_id s) (expect_seq s) (expect_hit s).

(** The sum over the 16-bit words as they are in memory. *)
Fixpoint sum_words_le (sum : Z) (bytes : list Z) : Z :=
  match bytes with
  | a :: b :: rest => sum_words_le (sum +32 Z.lor a (Z.shiftl b 8)) rest
  | [a] => sum +32 a
  | [] => sum
  end.
Definition icmp_checksum (data : list Z) : Z := u16 (Z.lnot (fold_carries 3 (sum_words_le 0 data))).

Definition icmp_set_echo_expect (id seq : Z) (s : icmp_state) : icmp_state := mk_icmp (icmp_id_counter s) id seq false.
Definition icmp_check_echo_reply (s : icmp_state) : bool * icmp_state :=
  if expect_hit s then (true, mk_icmp (icmp_id_counter s) (expect_id s) (expect_seq s) false) else (false, s).

(** Only the reply that is waited for changes anything. *)
Definition icmp_handle_packet (data : list Z) (s : icmp_state) : icmp_state :=
  if zlen data <? 8 then s
  else if (zget data 0 =? ICMP_TYPE_ECHO_REPLY) &&
          ((bswap16 (get16 data 4) =? expect_id s) && (bswap16 (get16 data 6) =? expect_seq s))
  then mk_icmp (icmp_id_counter s) (expect_id s) (expect_seq s) true
  else s.

(** The packet of an echo request; its length is kept in 16 bits. *)
Definition echo_request (id seq : Z) (data : list Z) : list Z :=
  let total_len := u16 (8 + zlen data) in
  let build checksum := [ICMP_TYPE_ECHO_REQUEST; 0] ++ le16 checksum ++ le16 (bswap16 id) ++ le16 (bswap16 seq) ++ data in
  ztake total_len (build (icmp_checksum (ztake total_len (build 0)))).
(** The reply: the request with its type and checksum changed. *)
Definition echo_reply (packet : list Z) : list Z :=
  let build checksum := splice (zset packet 0 ICMP_TYPE_ECHO_REPLY) 2 (le16 checksum) in
  build (icmp_checksum (build 0)).

Section icmp.
Context {B : Type} `{!KHeap B} `{!NetHw B}.
Abbreviation nact := (nact (B := B)).

Definition icmp_send_echo_request (dst_ip : list Z) (id seq : Z) (data : list Z) : nact Z :=
  icmp_packet ← kalloc_n (u16 (8 + zlen data));
  if icmp_packet =? 0 then mret (-1)
  else
    _ ← touch icmp_packet (8 + zlen data);
    result ← in_use_n icmp_packet (u16 (8 + zlen data)) (ip_send_packet dst_ip IP_PROTO_ICMP (echo_request id seq data));
    _ ← kfree_n icmp_packet;
    mret result.

Definition icmp_send_echo_reply_to (dst_ip original_packet : list Z) : nact Z :=
  if zlen original_packet <? 8 then mret (-1)
  else
    reply_packet ← kalloc_n (zlen original_packet);
    if reply_packet =? 0 then mret (-1)
    else
      _ ← touch reply_packet (zlen original_packet);
      result ← in_use_n reply_packet (zlen original_packet) (ip_send_packet dst_ip IP_PROTO_ICMP (echo_reply original_packet));
      _ ← kfree_n reply_packet;
      mret result.

(** The identifier, and the call that sends the request. *)
Definition icmp_ping (dst_ip data : list Z) (s : icmp_state) : icmp_state * nact Z :=
  let id := icmp_id_counter s in
  let s := mk_icmp (u16 (id + 1)) (expect_id s) (expect_seq s) (expect_hit s) in
  (icmp_set_echo_expect id 1 s, icmp_send_echo_request dst_ip id 1 data).
End icmp.

(** ** The checksum *)

(** The sum of the 16-bit words as they are in memory. *)
Fixpoint le_words (l : list Z) : Z :=
  match l with
  | a :: b :: l => a + 256 * b + le_words l
  | [a] => a
  | [] => 0
  end.
Lemma le_words_bounds l : bytes_ok l -> 0 <= le_words l <= 65535 * ((zlen l + 1) / 2).
Proof.
  induction l as [|a|a b l IH] using list_two_ind; intros Hb; cbn [le_words]; [done| |].
  - apply Forall_cons in Hb as [Ha _]. unfold is_u8 in Ha. change ((zlen [a] + 1) / 2) with 1. lia.
  - apply Forall_cons in Hb as [Ha Hb]. apply Forall_cons in Hb as [Hb Hl]. unfold is_u8 in *. specialize (IH Hl).
    rewrite !zlen_cons. replace (zlen l + 1 + 1 + 1) with (zlen l + 1 + 1 * 2) by lia. rewrite Z.div_add by lia. lia.
Qed.
Lemma sum_words_le_spec l s : bytes_ok l -> 0 <= s -> s + le_words l < 2 ^ 32 -> sum_words_le s l = s + le_words l.
Proof.
  revert s. induction l as [|a|a b l IH] using list_two_ind; intros s Hb Hs Hlt; cbn [sum_words_le le_words] in *; [lia| |].
  - apply Forall_cons in Hb as [Ha _]. unfold is_u8 in Ha. apply u32_small. lia.
  - apply Forall_cons in Hb as [Ha Hb]. apply Forall_cons in Hb as [Hb Hl]. pose proof (le_words_bounds l Hl) as Hwl.
    rewrite (Z.lor_comm a), lor_bytes by done. unfold is_u8 in *. rewrite u32_small by lia. rewrite IH by (done || lia). lia.
Qed.
Lemma le_words_app l1 l2 : Z.even (zlen l1) = true -> le_words (l1 ++ l2) = le_words l1 + le_words l2.
Proof.
  induction l1 as [|a|a b l1 IH] using list_two_ind; intros He; cbn [le_words app]; [done | done|].
  rewrite IH; [lia|]. rewrite !zlen_cons in He. replace (zlen l1 + 1 + 1) with (zlen l1 + 2) in He by lia. by rewrite Z.even_add in He; destruct (Z.even (zlen l1)).
Qed.
Lemma icmp_checksum_sum l : bytes_ok l -> zlen l <= 65535 -> icmp_checksum l = 65535 - ones_sum (le_words l).
Proof.
  intros Hb Hl. pose proof (le_words_bounds l Hb) as Hw. assert ((zlen l + 1) / 2 <= 32768) by (apply Z.div_le_upper_bound; lia).
  unfold icmp_checksum. rewrite sum_words_le_spec by (done || lia). rewrite fold_carries_spec by lia. apply u16_lnot, ones_sum_bounds. lia.
Qed.

Lemma ones_sum_complement x : 0 <= x -> ones_sum (x + (65535 - ones_sum x)) = 65535.
Proof.
  intros Hx. assert (exists k, 0 < k /\ x + (65535 - ones_sum x) = k * 65535) as (k & Hk & ->).
  { unfold ones_sum. destruct (Z.eqb_spec x 0) as [->|Hne]; [by exists 1|]. pose proof (Z.div_mod (x - 1) 65535 ltac:(lia)) as Hdm.
    assert (0 <= (x - 1) / 65535) by (apply Z.div_pos; lia). exists ((x - 1) / 65535 + 1). lia. }
  unfold ones_sum. rewrite (proj2 (Z.eqb_neq _ _)) by lia. replace (k * 65535 - 1) with (65534 + (k - 1) * 65535) by lia. by rewrite Z.mod_add by lia.
Qed.

(** A packet with the checksum of the packet whose field is zero has checksum zero. *)
Lemma icmp_checksum_closes (a b : Z) (l : list Z) : let pkt cs := [a; b] ++ le16 cs ++ l in
  bytes_ok (pkt 0) -> zlen l <= 65531 -> icmp_checksum (pkt (icmp_checksum (pkt 0))) = 0.
Proof.
  intros pkt Hok Hl. assert (forall cs, bytes_ok (pkt cs)) as Hoks.
  { intros cs. unfold pkt, bytes_ok, le16 in *. rewrite !Forall_app in *. destruct Hok as (H1 & _ & H2). split_and!; [done | | done].
    repeat constructor; apply u8_bound. }
  assert (forall cs, zlen (pkt cs) = zlen l + 4) as Hlen by (intros; unfold pkt; rewrite !zlen_app; change (zlen [a; b]) with 2; change (zlen (le16 cs)) with 2; lia).
  pose proof (le_words_bounds (pkt 0) Hok) as Hb. pose proof (ones_sum_bounds (le_words (pkt 0)) ltac:(lia)) as Ho.
  rewrite (icmp_checksum_sum (pkt 0)) by (done || rewrite Hlen; lia). set (cs := 65535 - ones_sum (le_words (pkt 0))).
  rewrite icmp_checksum_sum by (done || rewrite Hlen; lia). assert (le_words (pkt cs) = le_words (pkt 0) + cs) as ->.
  { unfold pkt. rewrite !(le_words_app [a; b]), !(le_words_app (le16 _)) by done. pose proof (be16_value cs ltac:(unfold cs; lia)).
    cbn [le16 le_words]. change (u8 0) with 0. change (u8 (Z.shiftr 0 8)) with 0. lia. }
  unfold cs. rewrite ones_sum_complement by lia. done.
Qed.

(** ** Requests and replies *)

(** What follows the checksum. *)
Definition echo_rest (id seq : Z) (data : list Z) : list Z := be16 id ++ be16 seq ++ data.
(** An echo packet of the given type. *)
Definition echo_packet (type id seq : Z) (data : list Z) : list Z :=
  let pkt cs := [type; 0] ++ le16 cs ++ echo_rest id seq data in pkt (icmp_checksum (pkt 0)).

Lemma echo_layout_len type cs id seq (data : list Z) : zlen ([type; 0] ++ le16 cs ++ be16 id ++ be16 seq ++ data) = 8 + zlen data.
Proof. rewrite !zlen_app. change (zlen [type; 0]) with 2. change (zlen (le16 cs)) with 2. change (zlen (be16 id)) with 2. change (zlen (be16 seq)) with 2. lia. Qed.
Lemma echo_len type id seq data : zlen (echo_packet type id seq data) = 8 + zlen data.
Proof. apply echo_layout_len. Qed.
Lemma echo_request_is id seq data : zlen data <= 65507 -> echo_request id seq data = echo_packet ICMP_TYPE_ECHO_REQUEST id seq data.
Proof.
  intros Hl. pose proof (zlen_nonneg data). unfold echo_request, echo_packet, echo_rest. rewrite !le16_bswap16. unfold u16. rewrite Z.mod_small by lia.
  rewrite !ztake_all; [done | rewrite echo_layout_len; lia..].
Qed.
Lemma echo_reply_is id seq data : echo_reply (echo_packet ICMP_TYPE_ECHO_REQUEST id seq data) = echo_packet ICMP_TYPE_ECHO_REPLY id seq data.
Proof. unfold echo_packet. generalize (icmp_checksum ([ICMP_TYPE_ECHO_REQUEST; 0] ++ le16 0 ++ echo_rest id seq data)). intros cs. reflexivity. Qed.
Lemma echo_checksum type id seq data : is_u8 type -> bytes_ok data -> zlen data <= 65507 -> icmp_checksum (echo_packet type id seq data) = 0.
Proof.
  intros Ht Hd Hl. unfold echo_packet. apply icmp_checksum_closes.
  - unfold echo_rest, bytes_ok. rewrite !Forall_app. split_and!; [| repeat constructor; apply u8_bound | apply be16_ok | apply be16_ok | done].
    apply Forall_cons_2; [done|]. by apply Forall_cons_2.
  - unfold echo_rest. rewrite !zlen_app. change (zlen (be16 id)) with 2. change (zlen (be16 seq)) with 2. lia.
Qed.
Lemma echo_fields type id seq data : 0 <= id < 2 ^ 16 -> 0 <= seq < 2 ^ 16 ->
  let p := echo_packet type id seq data in zget p 0 = type /\ bswap16 (get16 p 4) = id /\ bswap16 (get16 p 6) = seq /\ zdrop 8 p = data.
Proof. intros Hid Hseq p. split_and!; [done | by apply be16_swap | by apply be16_swap | done]. Qed.

(** A reply with the identifier that is waited for is noticed. *)
Lemma reply_noticed id seq data s : 0 <= id < 2 ^ 16 -> 0 <= seq < 2 ^ 16 ->
  (icmp_check_echo_reply (icmp_handle_packet (echo_packet ICMP_TYPE_ECHO_REPLY id seq data) (icmp_set_echo_expect id seq s))).1 = true.
Proof.
  intros Hid Hseq. destruct (echo_fields ICMP_TYPE_ECHO_REPLY id seq data Hid Hseq) as (H0 & H4 & H6 & _). pose proof (zlen_nonneg data).
  unfold icmp_handle_packet. rewrite echo_len, H0, H4, H6. destruct (Z.ltb_spec (8 + zlen data) 8); [lia|]. cbn [icmp_set_echo_expect expect_id expect_seq].
  rewrite !Z.eqb_refl. done.
Qed.

(** ** From host to host *)

Lemma dispatch_icmp pre src dst payload post : ip_prefix pre src dst (zlen payload) -> 8 <= zlen payload ->
  dispatch (pre ++ payload ++ post) 34 IP_PROTO_ICMP (zlen payload) =
    Some (if zget payload 0 =? 8 then EchoRequest src payload else IcmpPacket payload).
Proof.
  intros [P1 P2 P3 P4 P5 P6] Hl. unfold dispatch. change (IP_PROTO_ICMP =? IP_PROTO_ICMP) with true. cbn iota. rewrite (proj2 (Z.leb_le _ _) Hl).
  assert (ztake (zlen payload) (zdrop 34 (pre ++ payload ++ post)) = payload) as -> by (rewrite <- P1, zdrop_app_len; apply ztake_app_len).
  assert (ztake 4 (zdrop 26 (pre ++ payload ++ post)) = src) as -> by (rewrite ztake_zdrop_app by lia; done). by case_if.
Qed.

Section ping.
Context {B : Type} `{!KHeap B} `{!NetHw B} `{!NetLab B} `{!NetLabLaws B}.
Abbreviation net := (net B).

(** C10 A ping of at most 65507 bytes is answered.  [a] has [b]'s station in its ARP cache and pings it;
    when [b] has got the frames, in any order, it is handed an echo request with
    the data; if it then has [a]'s station in its cache, it sends a reply, and
    when [a] has got the frames of the reply, in any order, the reply carries a
    right checksum and the same data, and [icmp_check_echo_reply] reports it.
    (On both hosts allocations and sending succeed and a reassembly slot is
    free.) *)
Theorem ping_answered (a b : net) (i : icmp_state) (ma mb ip_a ip_b data : list Z) :
  routed a mb ip_a ip_b -> 0 <= icmp_id_counter i < 2 ^ 16 -> bytes_ok data -> zlen data <= 65507 ->
  exists frames,
    ((icmp_ping ip_b data i).2 a).1 = 0 /\ wire (below ((icmp_ping ip_b data i).2 a).2) = wire (below a) ++ frames /\
    forall gs, arrives frames gs b ip_a ip_b (ip_id_counter a) IP_PROTO_ICMP ->
      exists request, (ip_inputs gs b).1 = [EchoRequest ip_a request] /\
        forall b', b' = (ip_inputs gs b).2 -> routed b' ma ip_b ip_a ->
        exists frames',
          (icmp_send_echo_reply_to ip_a request b').1 = 0 /\
          wire (below (icmp_send_echo_reply_to ip_a request b').2) = wire (below b') ++ frames' /\
          forall (a' : net) gs', arrives frames' gs' a' ip_b ip_a (ip_id_counter b') IP_PROTO_ICMP ->
            exists answer, (ip_inputs gs' a').1 = [IcmpPacket answer] /\
              icmp_checksum answer = 0 /\ zdrop 8 answer = data /\
              (icmp_check_echo_reply (icmp_handle_packet answer (icmp_ping (B := B) ip_b data i).1)).1 = true.
Proof.
  intros Hr Hid Hd Hl. pose proof (zlen_nonneg data). unfold icmp_ping, icmp_send_echo_request. cbn [fst snd]. rewrite echo_request_is by done.
  set (id := icmp_id_counter i) in *. set (req := echo_packet ICMP_TYPE_ECHO_REQUEST id 1 data).
  assert (zlen req = 8 + zlen data) as Hlen by apply echo_len.
  destruct (packet_delivered a mb ip_a ip_b IP_PROTO_ICMP req (u16 (8 + zlen data)) (8 + zlen data) (u16 (8 + zlen data)) (-1) Hr ltac:(done) ltac:(lia) ltac:(unfold u16; apply Z.mod_pos_bound; lia))
    as (frames & Hrc & Hw & Harr). exists frames. split; [exact Hrc|]. split; [exact Hw|]. clear Hrc Hw.
  intros gs Hgs. destruct (Harr b gs Hgs) as (pre & post & [Hpre _] & Hin). rewrite (dispatch_icmp _ _ _ _ _ Hpre) in Hin by lia. exists req. split; [exact Hin|].
  intros b' _ Hrb. unfold icmp_send_echo_reply_to. rewrite Hlen. destruct (Z.ltb_spec (8 + zlen data) 8); [lia|].
  unfold req at 1 2. rewrite echo_reply_is. set (rep := echo_packet ICMP_TYPE_ECHO_REPLY id 1 data).
  assert (zlen rep = 8 + zlen data) as Hlen' by apply echo_len.
  destruct (packet_delivered b' ma ip_b ip_a IP_PROTO_ICMP rep (8 + zlen data) (8 + zlen data) (8 + zlen data) (-1) Hrb ltac:(done) ltac:(lia) ltac:(lia))
    as (frames' & Hrc & Hw & Harr'). exists frames'. split; [exact Hrc|]. split; [exact Hw|].
  intros a' gs' Hgs'. destruct (Harr' a' gs' Hgs') as (pre' & post' & [Hpre' _] & Hin'). rewrite (dispatch_icmp _ _ _ _ _ Hpre') in Hin' by lia.
  exists rep. split; [exact Hin'|]. destruct (echo_fields ICMP_TYPE_ECHO_REPLY id 1 data Hid ltac:(lia)) as (_ & _ & _ & Hdata).
  split; [by apply echo_checksum|]. split; [exact Hdata|]. apply reply_noticed; [done | lia].
Qed.
End ping.
