(* ===== verification/Udp.v ===== *)
(** * UDP

    src/net_udp.c: datagrams as bytes, the table of kernel handlers and the
    protocol control blocks of SOCK_DGRAM sockets. *)
From S2P Require Import Prelude Heap TcpSeg Net Arp Ip.

Abbreviation EACCES := 13 (only parsing).
Abbreviation EDESTADDRREQ := 89 (only parsing).
Abbreviation EMSGSIZE := 90 (only parsing).
Abbreviation EADDRINUSE := 98 (only parsing).

Definition UDP_PCB_MAX : Z := 32.
Definition UDP_RX_MAX : Z := 8.
Definition UDP_RX_PAYLOAD : Z := 1472.
Definition UDP_EPHEMERAL_LO : Z := 49152.

(** ** Datagrams *)

Definition udp_checksum (src_ip dst_ip udp : list Z) (len : Z) : Z :=
  let sum := 0 +32 net16 src_ip 0 in
  let sum := sum +32 net16 src_ip 2 in
  let sum := sum +32 net16 dst_ip 0 in
  let sum := sum +32 net16 dst_ip 2 in
  let sum := sum +32 0x0011 in
  let sum := sum +32 len in
  u16 (Z.lnot (fold_carries 3 (sum_words sum (ztake len udp)))).

Definition udp_header_bytes (src_port dst_port udp_len checksum : Z) : list Z :=
  le16 (bswap16 src_port) ++ le16 (bswap16 dst_port) ++ le16 (bswap16 udp_len) ++ le16 (bswap16 checksum).
(** A zero checksum is sent as all ones. *)
Definition udp_packet (src_ip dst_ip : list Z) (src_port dst_port : Z) (payload : list Z) : list Z :=
  let udp_len := u16 (8 + zlen payload) in
  let cs := udp_checksum src_ip dst_ip (udp_header_bytes src_port dst_port udp_len 0 ++ payload) udp_len in
  udp_header_bytes src_port dst_port udp_len (if cs =? 0 then 0xFFFF else cs) ++ payload.

(** What [udp_handle_packet] extracts of a frame it accepts. *)
Record udp_datagram := mk_udp { ud_src_ip : list Z; ud_src_port : Z; ud_dst_port : Z; ud_payload : list Z }.

(** How many bytes the checksum covers. *)
Definition udp_csum_len (ihl ip_total total_len : Z) : Z :=
  if (ihl + 8 <=? ip_total) && (u16 (ip_total - ihl) <? total_len) then u16 (ip_total - ihl) else total_len.

Definition udp_accept_frame (frame : list Z) : option udp_datagram :=
  let len := zlen frame in
  if len <? 42 then None
  else
    let ihl := Z.land (zget frame 14) 0x0F * 4 in
    if len <? 14 + ihl + 8 then None
    else
      let udp := zdrop (14 + ihl) frame in
      let total_len := net16 udp 4 in
      if total_len <? 8 then None
      else if len <? 14 + ihl + total_len then None
      else
        let src_port := net16 udp 0 in
        let dst_port := net16 udp 2 in
        let src_ip := ztake 4 (zdrop 26 frame) in
        let dst_ip := ztake 4 (zdrop 30 frame) in
        let rx_csum := net16 udp 6 in
        if negb (rx_csum =? 0) &&
           negb (udp_checksum src_ip dst_ip udp (udp_csum_len ihl (net16 frame 16) total_len) =? 0) &&
           negb ((src_port =? 67) && (dst_port =? 68))
        then None
        else Some (mk_udp src_ip src_port dst_port (ztake (total_len - 8) (zdrop 8 udp))).

(** ** Sockets *)

Record udp_rx_pkt_t := mk_rx { rx_src_ip : list Z; rx_src_port : Z; rx_data : list Z }.
#[export] Instance udp_rx_inhabited : Inhabited udp_rx_pkt_t := populate (mk_rx [0; 0; 0; 0] 0 []).

Record udp_pcb := mk_pcb {
  in_use : bool;
  bound : bool;
  pcb_connected : bool;
  pcb_local_port : Z;
  dest_ip : list Z;
  dest_port : Z;
  rx_ring : list udp_rx_pkt_t;
  rx_head : Z;
  rx_tail : Z;
  rx_count : Z;
}.
(** The control block after [memset]. *)
Definition pcb_zero : udp_pcb := mk_pcb false false false 0 (zeros 4) 0 (replicate 8 inhabitant) 0 0 0.
#[export] Instance udp_pcb_inhabited : Inhabited udp_pcb := populate pcb_zero.

Definition set_in_use v s := mk_pcb v (bound s) (pcb_connected s) (pcb_local_port s) (dest_ip s) (dest_port s) (rx_ring s) (rx_head s) (rx_tail s) (rx_count s).
Definition set_bound port s := mk_pcb (in_use s) true (pcb_connected s) port (dest_ip s) (dest_port s) (rx_ring s) (rx_head s) (rx_tail s) (rx_count s).
Definition set_dest ip port s := mk_pcb (in_use s) (bound s) true (pcb_local_port s) ip port (rx_ring s) (rx_head s) (rx_tail s) (rx_count s).

(** The queue of a control block: the oldest packet makes room. *)
Definition rx_push (p : udp_rx_pkt_t) (s : udp_pcb) : udp_pcb :=
  let full := UDP_RX_MAX <=? rx_count s in
  let head := if full then (rx_head s + 1) mod UDP_RX_MAX else rx_head s in
  let count := if full then rx_count s - 1 else rx_count s in
  mk_pcb (in_use s) (bound s) (pcb_connected s) (pcb_local_port s) (dest_ip s) (dest_port s)
    (zset (rx_ring s) (rx_tail s) p) head ((rx_tail s + 1) mod UDP_RX_MAX) (count + 1).
Definition rx_pop (s : udp_pcb) : udp_pcb :=
  mk_pcb (in_use s) (bound s) (pcb_connected s) (pcb_local_port s) (dest_ip s) (dest_port s)
    (rx_ring s) ((rx_head s + 1) mod UDP_RX_MAX) (rx_tail s) (rx_count s - 1).

(** Handlers by port (zero: none), control blocks, the next ephemeral port. *)
Record udp_state := mk_udps { udp_handlers : Z -> Z; udp_pcbs : list udp_pcb; udp_next : Z }.
Definition set_pcb (i : Z) (s : udp_pcb) (u : udp_state) : udp_state := mk_udps (udp_handlers u) (zset (udp_pcbs u) i s) (udp_next u).
Definition set_handler (port h : Z) (u : udp_state) : udp_state :=
  mk_udps (fun p => if p =? port then h else udp_handlers u p) (udp_pcbs u) (udp_next u).
Definition set_udp_next (v : Z) (u : udp_state) : udp_state := mk_udps (udp_handlers u) (udp_pcbs u) v.

Definition reserved_port (port : Z) : bool := (port <? 1024) && negb (port =? 68) && negb (port =? 53).
Definition udp_register_handler (port handler : Z) (u : udp_state) : Z * udp_state :=
  if reserved_port port then (- EACCES, u)
  else if handler =? 0 then (- EINVAL, u)
  else if negb (udp_handlers u port =? 0) then (- EADDRINUSE, u)
  else (0, set_handler port handler u).
Definition udp_unregister_handler (port : Z) (u : udp_state) : udp_state := if reserved_port port then u else set_handler port 0 u.

Definition listens (port : Z) (s : udp_pcb) : bool := in_use s && bound s && (pcb_local_port s =? port).
Definition find_pcb (port : Z) (u : udp_state) : option Z := zfind 32 0 (fun i => listens port (zget (udp_pcbs u) i)).
Definition udp_port_taken_unlocked (port : Z) (u : udp_state) : bool :=
  negb (udp_handlers u port =? 0) || match find_pcb port u with Some _ => true | None => false end.

(** The next port that is free, after at most [k] tries; 0 if there is none. *)
Fixpoint alloc_ephemeral (k : nat) (u : udp_state) : Z * udp_state :=
  match k with
  | O => (0, u)
  | S k =>
      let p := udp_next u in
      let next := u16 (p + 1) in
      let u := set_udp_next (if next <? UDP_EPHEMERAL_LO then UDP_EPHEMERAL_LO else next) u in
      if udp_port_taken_unlocked p u then alloc_ephemeral k u else (p, u)
  end.
Definition udp_alloc_ephemeral_unlocked (u : udp_state) : Z * udp_state := alloc_ephemeral (Z.to_nat 16384) u.

Definition udp_pcb_deliver (d : udp_datagram) (u : udp_state) : bool * udp_state :=
  match find_pcb (ud_dst_port d) u with
  | None => (false, u)
  | Some i =>
      let data := if UDP_RX_PAYLOAD <? zlen (ud_payload d) then ztake UDP_RX_PAYLOAD (ud_payload d) else ud_payload d in
      (true, set_pcb i (rx_push (mk_rx (ud_src_ip d) (ud_src_port d) data) (zget (udp_pcbs u) i)) u)
  end.

(** A control block is given by its index; [-1] is no block. *)
Definition udp_pcb_create (u : udp_state) : Z * udp_state :=
  match zfind 32 0 (fun i => negb (in_use (zget (udp_pcbs u) i))) with
  | Some i => (i, set_pcb i (set_in_use true pcb_zero) u)
  | None => (-1, u)
  end.

Definition pcb_usable (i : Z) (u : udp_state) : bool := (0 <=? i) && in_use (zget (udp_pcbs u) i).

Definition udp_pcb_bind (i port : Z) (u : udp_state) : Z * udp_state :=
  if negb (pcb_usable i u) then (- EINVAL, u)
  else
    let s := zget (udp_pcbs u) i in
    if bound s then (- EINVAL, u)
    else if port =? 0 then
      let '(port, u) := udp_alloc_ephemeral_unlocked u in
      if port =? 0 then (- EADDRINUSE, u) else (0, set_pcb i (set_bound port s) u)
    else if udp_port_taken_unlocked port u then (- EADDRINUSE, u)
    else (0, set_pcb i (set_bound port s) u).

(** A block that is not bound gets an ephemeral port; whether it has one now. *)
Definition bind_ephemeral (i : Z) (u : udp_state) : bool * udp_state :=
  let s := zget (udp_pcbs u) i in
  if bound s then (true, u)
  else
    let '(eph, u) := udp_alloc_ephemeral_unlocked u in
    if eph =? 0 then (false, u) else (true, set_pcb i (set_bound eph s) u).

Definition udp_pcb_connect (i : Z) (ip : list Z) (port : Z) (u : udp_state) : Z * udp_state :=
  if negb (pcb_usable i u) || (port =? 0) then (- EINVAL, u)
  else
    let '(ok, u) := bind_ephemeral i u in
    if negb ok then (- EADDRINUSE, u) else (0, set_pcb i (set_dest ip port (zget (udp_pcbs u) i)) u).

Definition udp_pcb_recvfrom (i len : Z) (u : udp_state) : (Z + list Z * list Z * Z) * udp_state :=
  if negb (pcb_usable i u) then (inl (- EINVAL), u)
  else
    let s := zget (udp_pcbs u) i in
    if rx_count s <=? 0 then (inl (- EAGAIN), u)
    else
      let p := zget (rx_ring s) (rx_head s) in
      (inr (ztake len (rx_data p), rx_src_ip p, rx_src_port p), set_pcb i (rx_pop s) u).

Definition udp_pcb_local_port (i : Z) (u : udp_state) : Z := if pcb_usable i u then pcb_local_port (zget (udp_pcbs u) i) else 0.
Definition udp_pcb_rx_ready (i : Z) (u : udp_state) : Z := if pcb_usable i u then rx_count (zget (udp_pcbs u) i) else 0.
Definition udp_pcb_close (i : Z) (u : udp_state) : udp_state := if 0 <=? i then set_pcb i pcb_zero u else u.

(** What a frame does: a call of a kernel handler, or a packet in a queue. *)
Inductive udp_outcome :=
| UdpHandler (handler : Z) (d : udp_datagram)
| UdpQueued
| UdpDropped.

Definition udp_handle_packet (frame : list Z) (u : udp_state) : udp_outcome * udp_state :=
  match udp_accept_frame frame with
  | None => (UdpDropped, u)
  | Some d =>
      let handler := udp_handlers u (ud_dst_port d) in
      if negb (handler =? 0) then (UdpHandler handler d, u)
      else let '(queued, u) := udp_pcb_deliver d u in ((if queued then UdpQueued else UdpDropped), u)
  end.

Section udp.
Context {B : Type} `{!KHeap B} `{!NetHw B}.
Abbreviation nact := (nact (B := B)).

Definition udp_send (dst_ip : list Z) (src_port dst_port : Z) (payload : list Z) : nact Z :=
  if 65527 <? zlen payload then mret (- EMSGSIZE)
  else
    packet ← kalloc_n (u16 (8 + zlen payload));
    if packet =? 0 then mret (- ENOMEM)
    else
      src_ip ← get (ip_select_src dst_ip);
      _ ← touch packet (8 + zlen payload);
      rc ← in_use_n packet (u16 (8 + zlen payload)) (ip_send_packet dst_ip IP_PROTO_UDP (udp_packet src_ip dst_ip src_port dst_port payload));
      _ ← kfree_n packet;
      mret rc.

(** The state of the blocks, then the datagram that is sent. *)
Definition udp_pcb_sendto (i : Z) (data ip : list Z) (port : Z) (u : udp_state) : udp_state * nact Z :=
  if negb (pcb_usable i u) then (u, mret (- EINVAL))
  else if port =? 0 then (u, mret (- EDESTADDRREQ))
  else
    let '(ok, u) := bind_ephemeral i u in
    if negb ok then (u, mret (- EADDRINUSE))
    else
      (u, rc ← udp_send ip (pcb_local_port (zget (udp_pcbs u) i)) port data;
          mret (if rc <? 0 then rc else zlen data)).
End udp.
