(* ===== verification/UdpProps.v ===== *)
(** * UDP: sockets and datagrams

    Over every sequence of calls a port has at most one socket and a socket gives
    out its datagrams in order; a datagram that is sent reaches the socket bound
    to its port on the other host. *)
From S2P Require Import Prelude Heap TcpSeg TcpWire Net Arp Ip IpFrag IpPath Udp.

(** * UDP: datagrams survive the wire

    The checksum of src/net_udp.c is the one of RFC 1071, and a datagram that
    [udp_send] builds is accepted by [udp_handle_packet] with the same ports and
    payload. *)

(** What a datagram of [len] bytes between two addresses sums up to. *)
Definition udp_sum (src dst udp : list Z) (len : Z) : Z := words src + words dst + 17 + len + words (ztake len udp).

Lemma udp_sum_bounds src dst udp len :
  bytes_ok src -> bytes_ok dst -> bytes_ok udp -> zlen src = 4 -> zlen dst = 4 -> 0 <= len <= 65535 -> 17 <= udp_sum src dst udp len < 2 ^ 32.
Proof.
  intros Hs Hd Hp Hls Hld Hlen. unfold udp_sum. pose proof (segment_sum_bounds src dst udp len Hs Hd Hp Hls Hld Hlen) as Hb. unfold segment_sum in Hb.
  pose proof (words_bounds src Hs) as B1. pose proof (words_bounds dst Hd) as B2.
  assert (bytes_ok (ztake len udp)) as Hp' by (by apply Forall_take).
  pose proof (words_bounds _ Hp') as B3. rewrite Hls in B1. rewrite Hld in B2. change ((4 + 1) / 2) with 2 in *.
  rewrite zlen_ztake in B3 by lia. assert ((Z.min len (zlen udp) + 1) / 2 <= 32768) by (apply Z.div_le_upper_bound; lia). lia.
Qed.

Lemma udp_checksum_sum src dst udp len :
  bytes_ok src -> bytes_ok dst -> bytes_ok udp -> zlen src = 4 -> zlen dst = 4 -> 0 <= len <= 65535 ->
  udp_checksum src dst udp len = 65535 - ones_sum (udp_sum src dst udp len).
Proof.
  intros Hs Hd Hp Hls Hld Hlen. pose proof (udp_sum_bounds src dst udp len Hs Hd Hp Hls Hld Hlen) as Hb.
  assert (bytes_ok (ztake len udp)) as Hp' by (by apply Forall_take).
  rewrite <- u16_lnot by (apply ones_sum_bounds; lia). unfold udp_checksum. do 2 f_equal. rewrite sum_words_spec by done. unfold udp_sum in *.
  destruct (quad src Hls) as (a & b & c & d & ->), (quad dst Hld) as (a' & b' & c' & d' & ->).
  destruct (net16_quad a b c d Hs) as [-> ->], (net16_quad a' b' c' d' Hd) as [-> ->].
  pose proof (words_bounds _ Hp') as B3. unfold bytes_ok in Hs, Hd. rewrite !Forall_cons in Hs, Hd. unfold is_u8 in *.
  cbn [words] in *. rewrite fold_carries_spec; (case_decide as E; [rewrite E in *; cbn [words] in *|]); small32; f_equal; lia.
Qed.

(** A sum and its complement give zero; a zero complement may be replaced by
    all ones. *)
Lemma ones_sum_closes x : 0 < x -> let cs := 65535 - ones_sum x in ones_sum (x + (if cs =? 0 then 0xFFFF else cs)) = 65535.
Proof.
  intros Hx cs. assert (exists k, 0 < k /\ x + (if cs =? 0 then 0xFFFF else cs) = k * 65535) as (k & Hk & ->).
  { unfold cs, ones_sum. rewrite (proj2 (Z.eqb_neq x 0)) by lia. pose proof (Z.div_mod (x - 1) 65535 ltac:(lia)) as Hdm.
    pose proof (Z.mod_pos_bound (x - 1) 65535 ltac:(lia)). assert (0 <= (x - 1) / 65535) by (apply Z.div_pos; lia).
    destruct (Z.eqb_spec (65535 - ((x - 1) mod 65535 + 1)) 0); [exists ((x - 1) / 65535 + 2) | exists ((x - 1) / 65535 + 1)]; lia. }
  unfold ones_sum. rewrite (proj2 (Z.eqb_neq _ _)) by lia. replace (k * 65535 - 1) with (65534 + (k - 1) * 65535) by lia. rewrite Z.mod_add by lia. done.
Qed.

Lemma udp_header_be sp dp len cs : udp_header_bytes sp dp len cs = be16 sp ++ be16 dp ++ be16 len ++ be16 cs.
Proof. unfold udp_header_bytes. by rewrite !le16_bswap16. Qed.
Lemma udp_header_ok sp dp len cs : bytes_ok (udp_header_bytes sp dp len cs).
Proof. rewrite udp_header_be. repeat apply Forall_app_2; apply be16_ok. Qed.

(** What follows the datagram does not count. *)
Lemma udp_checksum_app src dst u post len : zlen u = len -> udp_checksum src dst (u ++ post) len = udp_checksum src dst u len.
Proof. intros <-. unfold udp_checksum. by rewrite ztake_app_len, ztake_all by lia. Qed.

Section datagram.
Context (src dst : list Z) (sp dp : Z) (payload pre post : list Z).
Context (Hsrc : zlen src = 4) (Hsrcb : bytes_ok src) (Hdst : zlen dst = 4) (Hdstb : bytes_ok dst).
Context (Hsp : 0 <= sp < 2 ^ 16) (Hdp : 0 <= dp < 2 ^ 16) (Hpay : bytes_ok payload) (Hlen : zlen payload <= 65507).
Abbreviation len := (8 + zlen payload).
Abbreviation udp_with cs := (udp_header_bytes sp dp len cs ++ payload).

Lemma udp_packet_checksum : exists cs, 0 < cs < 2 ^ 16 /\ udp_packet src dst sp dp payload = udp_with cs /\
  udp_checksum src dst (udp_with cs ++ post) len = 0.
Proof.
  pose proof (zlen_nonneg payload). assert (forall cs, bytes_ok (udp_with cs)) as Hok by (intros; apply Forall_app_2; [apply udp_header_ok | done]).
  assert (forall cs, zlen (udp_with cs) = len) as Hl by (intros; rewrite zlen_app; done).
  set (S0 := udp_sum src dst (udp_with 0) len). pose proof (udp_sum_bounds src dst (udp_with 0) len Hsrcb Hdstb (Hok 0) Hsrc Hdst ltac:(lia)) as HS. fold S0 in HS.
  pose proof (ones_sum_bounds S0 ltac:(lia)) as Hos. pose proof (ones_sum_closes S0 ltac:(lia)) as Hcl. cbn zeta in Hcl.
  set (cs0 := 65535 - ones_sum S0) in *. set (cs := if cs0 =? 0 then 0xFFFF else cs0) in *.
  assert (0 < cs < 2 ^ 16) as Hcs by (unfold cs; destruct (Z.eqb_spec cs0 0); lia). exists cs. split; [done|]. split.
  - unfold udp_packet. unfold u16. rewrite Z.mod_small by lia. rewrite (udp_checksum_sum src dst (udp_with 0)) by (done || lia). done.
  - rewrite udp_checksum_app, udp_checksum_sum by (done || lia). unfold udp_sum. rewrite ztake_all by (rewrite Hl; lia).
    assert (words (udp_with cs) = words (udp_with 0) + cs) as ->.
    { rewrite !(words_app (udp_header_bytes _ _ _ _)) by done. rewrite !udp_header_be. pose proof (be16_value cs ltac:(lia)). cbn [be16 app words].
      change (u8 (Z.shiftr 0 8)) with 0. change (u8 0) with 0. lia. }
    replace (words src + words dst + 17 + len + (words (udp_with 0) + cs)) with (S0 + cs); [by rewrite Hcl|].
    unfold S0, udp_sum. rewrite ztake_all by (rewrite Hl; lia). lia.
Qed.

Lemma udp_read : ip_prefix pre src dst len -> udp_accept_frame (pre ++ udp_packet src dst sp dp payload ++ post) = Some (mk_udp src sp dp payload).
Proof.
  intros [P1 P2 P3 P4 P5 P6]. pose proof (zlen_nonneg payload). pose proof (zlen_nonneg post). destruct udp_packet_checksum as (cs & Hcs & -> & Hsum).
  set (u := udp_with cs ++ post) in *. assert (zlen u = len + zlen post) as Hu by (unfold u; rewrite !zlen_app; done).
  assert (zdrop 34 (pre ++ u) = u) as Hd by (rewrite <- P1; apply zdrop_app_len).
  unfold udp_accept_frame. rewrite zlen_app, P1, Hu. destruct (Z.ltb_spec (34 + (len + zlen post)) 42); [lia|].
  rewrite zget_app_l by lia. change 0x0F with 15 in P3. rewrite P3. change (14 + 5 * 4) with 34. rewrite Hd.
  destruct (Z.ltb_spec (34 + (len + zlen post)) (34 + 8)); [lia|].
  assert (net16 u 4 = len /\ net16 u 0 = sp /\ net16 u 2 = dp /\ net16 u 6 = cs) as (-> & -> & -> & ->).
  { unfold u. rewrite udp_header_be. split_and!; apply be16_join; lia. }
  destruct (Z.ltb_spec len 8); [lia|]. destruct (Z.ltb_spec (34 + (len + zlen post)) (34 + len)); [lia|].
  assert (ztake 4 (zdrop 26 (pre ++ u)) = src) as -> by (rewrite ztake_zdrop_app by lia; done).
  assert (ztake 4 (zdrop 30 (pre ++ u)) = dst) as -> by (rewrite ztake_zdrop_app by lia; done).
  assert (net16 (pre ++ u) 16 = 20 + len) as -> by (unfold net16 in *; rewrite !zget_app_l by lia; done).
  assert (udp_csum_len (5 * 4) (20 + len) len = len) as ->.
  { unfold udp_csum_len. replace (20 + len - 5 * 4) with len by lia. unfold u16. rewrite Z.mod_small by lia. rewrite Z.ltb_irrefl, andb_false_r. done. }
  rewrite Hsum. cbn [Z.eqb negb]. rewrite andb_false_r. cbn [andb]. do 2 f_equal. replace (len - 8) with (zlen payload) by lia.
  assert (zdrop 8 u = payload ++ post) as -> by (unfold u; rewrite <- app_assoc; apply (zdrop_app_len (udp_header_bytes sp dp len cs))).
  apply ztake_app_len.
Qed.
End datagram.

(** * UDP: sockets

    The protocol control blocks of src/net_udp.c: at most one of them listens on
    a port, and each has a queue of at most eight datagrams. *)

(** ** The queue of a control block *)

Record rx_ok (s : udp_pcb) : Prop := {
  ro_ring : zlen (rx_ring s) = UDP_RX_MAX;
  ro_head : 0 <= rx_head s < UDP_RX_MAX;
  ro_count : 0 <= rx_count s <= UDP_RX_MAX;
  ro_tail : rx_tail s = (rx_head s + rx_count s) mod UDP_RX_MAX;
}.
(** The datagrams that wait, the oldest first. *)
Definition rx_queue (s : udp_pcb) : list udp_rx_pkt_t := (fun k => zget (rx_ring s) ((rx_head s + k) mod UDP_RX_MAX)) <$> seqZ 0 (rx_count s).

Lemma rx_queue_len s : rx_ok s -> zlen (rx_queue s) = rx_count s.
Proof. intros [_ _ Hc _]. unfold rx_queue, zlen. rewrite length_fmap, length_seqZ. lia. Qed.

Lemma mod8_ne h i j : 0 <= i < 8 -> 0 <= j < 8 -> i <> j -> (h + i) mod 8 <> (h + j) mod 8.
Proof. intros. Z.to_euclidean_division_equations. lia. Qed.

Lemma rx_pop_spec s : rx_ok s -> 0 < rx_count s ->
  rx_ok (rx_pop s) /\ rx_queue s = zget (rx_ring s) (rx_head s) :: rx_queue (rx_pop s).
Proof.
  intros [H1 H2 H3 H4] Hc. unfold UDP_RX_MAX in *. split.
  - split; cbn; unfold UDP_RX_MAX; [done | apply Z.mod_pos_bound; lia | lia|]. rewrite H4, Zplus_mod_idemp_l. f_equal. lia.
  - unfold rx_queue. cbn [rx_pop rx_ring rx_head rx_count]. unfold UDP_RX_MAX. rewrite (seqZ_cons 0) by lia. cbn [fmap list_fmap].
    rewrite Z.add_0_r, (Z.mod_small (rx_head s)) by lia. f_equal.
    replace (seqZ (Z.succ 0) (Z.pred (rx_count s))) with (Z.add 1 <$> seqZ 0 (rx_count s - 1)) by (rewrite fmap_add_seqZ; f_equal; lia).
    rewrite <- list_fmap_compose. apply list_fmap_ext. intros _ k _. cbn. f_equal. rewrite Zplus_mod_idemp_l. f_equal. lia.
Qed.

Lemma rx_push_room s p : rx_ok s -> rx_count s < UDP_RX_MAX -> rx_ok (rx_push p s) /\ rx_queue (rx_push p s) = rx_queue s ++ [p].
Proof.
  intros [H1 H2 H3 H4] Hc. unfold UDP_RX_MAX in *. unfold rx_push. unfold UDP_RX_MAX. rewrite (proj2 (Z.leb_gt 8 (rx_count s))) by lia. split.
  - split; cbn; unfold UDP_RX_MAX; [by rewrite zlen_zset | done | lia|]. rewrite H4, Zplus_mod_idemp_l. f_equal. lia.
  - unfold rx_queue. cbn [rx_ring rx_head rx_count]. unfold UDP_RX_MAX. rewrite seqZ_app, fmap_app by lia. f_equal.
    + apply list_fmap_ext. intros n k Hk. apply list_elem_of_lookup_2, elem_of_seqZ in Hk.
      rewrite zget_zset_ne; [done | rewrite H4; apply Z.mod_pos_bound; lia | apply Z.mod_pos_bound; lia|]. rewrite H4. apply mod8_ne; lia.
    + change (seqZ (0 + rx_count s) 1) with [0 + rx_count s]. cbn [fmap list_fmap]. rewrite Z.add_0_l, <- H4, zget_zset_eq; [done|].
      rewrite H1, H4. apply Z.mod_pos_bound. lia.
Qed.

(** A full queue loses its oldest datagram. *)
Lemma rx_push_full s p : rx_count s = UDP_RX_MAX -> rx_push p s = rx_push p (rx_pop s).
Proof. intros Hc. unfold rx_push, rx_pop. cbn. rewrite Hc. done. Qed.
Lemma rx_push_spec s p : rx_ok s ->
  rx_ok (rx_push p s) /\ rx_queue (rx_push p s) = (if rx_count s <? UDP_RX_MAX then rx_queue s else zdrop 1 (rx_queue s)) ++ [p].
Proof.
  intros Hok. pose proof (ro_count _ Hok). destruct (Z.ltb_spec (rx_count s) UDP_RX_MAX); [by apply rx_push_room|].
  rewrite rx_push_full by lia. destruct (rx_pop_spec s Hok ltac:(unfold UDP_RX_MAX in *; lia)) as [Hp E]. rewrite E.
  apply rx_push_room; [done|]. cbn. lia.
Qed.

(** ** The table *)

Record udp_ok (u : udp_state) : Prop := {
  uo_pcbs : zlen (udp_pcbs u) = UDP_PCB_MAX;
  uo_next : UDP_EPHEMERAL_LO <= udp_next u < 2 ^ 16;
  uo_rings i : 0 <= i < UDP_PCB_MAX -> rx_ok (zget (udp_pcbs u) i);
  uo_unique i j port : 0 <= i < UDP_PCB_MAX -> 0 <= j < UDP_PCB_MAX ->
    listens port (zget (udp_pcbs u) i) = true -> listens port (zget (udp_pcbs u) j) = true -> i = j;
}.

Lemma find_pcb_spec u port : udp_ok u ->
  match find_pcb port u with
  | Some i => 0 <= i < UDP_PCB_MAX /\ listens port (zget (udp_pcbs u) i) = true
  | None => forall i, 0 <= i < UDP_PCB_MAX -> listens port (zget (udp_pcbs u) i) = false
  end.
Proof.
  intros Hok. unfold find_pcb, UDP_PCB_MAX. pose proof (zfind_spec 32 0 (fun i => listens port (zget (udp_pcbs u) i))) as Hz.
  destruct (zfind 32 0 _) as [i|]; [|intros i Hi; apply Hz; lia]. destruct Hz as (Hi & Hl & _). split; [lia | done].
Qed.

(** A block is replaced by one that listens on nothing new. *)
Lemma udp_ok_set u i s : udp_ok u -> rx_ok s ->
  (forall port, listens port s = true -> listens port (zget (udp_pcbs u) i) = true \/
     forall j, 0 <= j < UDP_PCB_MAX -> j <> i -> listens port (zget (udp_pcbs u) j) = false) ->
  0 <= i < UDP_PCB_MAX -> udp_ok (set_pcb i s u).
Proof.
  intros [H1 H2 H3 H4] Hs Hnew Hi. split; cbn [set_pcb udp_pcbs udp_next].
  - by rewrite zlen_zset.
  - done.
  - intros j Hj. destruct (decide (j = i)) as [->|]; [rewrite zget_zset_eq by lia; done | rewrite zget_zset_ne by lia; by apply H3].
  - intros j k port Hj Hk. assert (forall m, 0 <= m < UDP_PCB_MAX -> m <> i -> listens port s = true -> listens port (zget (udp_pcbs u) m) = true -> False) as Hx.
    { intros m Hm Hne Hl Hlm. destruct (Hnew port Hl) as [Hold|Hno]; [apply Hne; by eapply H4 | by rewrite Hno in Hlm]. }
    destruct (decide (j = i)) as [->|Hj']; destruct (decide (k = i)) as [->|Hk']; rewrite ?zget_zset_eq, ?zget_zset_ne by lia; intros Hl1 Hl2;
      [done | destruct (Hx k) | destruct (Hx j) | by eapply H4]; done.
Qed.

(** ** Ephemeral ports *)

Lemma alloc_ephemeral_spec k u : udp_ok u ->
  let '(p, u') := alloc_ephemeral k u in
  udp_ok u' /\ udp_pcbs u' = udp_pcbs u /\ udp_handlers u' = udp_handlers u /\
  (p = 0 \/ UDP_EPHEMERAL_LO <= p < 2 ^ 16 /\ udp_port_taken_unlocked p u = false).
Proof.
  revert u. induction k as [|k IH]; intros u Hok; cbn [alloc_ephemeral]; [auto|]. cbn zeta. set (u1 := set_udp_next _ u).
  assert (udp_ok u1) as Hok1.
  { destruct Hok as [H1 H2 H3 H4]. split; try done. cbn. unfold u16, UDP_EPHEMERAL_LO in *. pose proof (Z.mod_pos_bound (udp_next u + 1) (2 ^ 16)).
    destruct (Z.ltb_spec ((udp_next u + 1) mod 2 ^ 16) 49152); lia. }
  destruct (udp_port_taken_unlocked (udp_next u) u1) eqn:E.
  - specialize (IH u1 Hok1). destruct (alloc_ephemeral k u1) as [p u']. exact IH.
  - split; [done|]. split; [done|]. split; [done|]. right. split; [apply Hok | exact E].
Qed.

Lemma not_taken u port : udp_ok u -> udp_port_taken_unlocked port u = false -> forall j, 0 <= j < UDP_PCB_MAX -> listens port (zget (udp_pcbs u) j) = false.
Proof.
  intros Hok. unfold udp_port_taken_unlocked. pose proof (find_pcb_spec u port Hok) as Hf. destruct (find_pcb port u); [by rewrite orb_true_r|]. auto.
Qed.

(** Binding a block to a port that is free. *)
Lemma udp_ok_bound u i port : udp_ok u -> 0 <= i < UDP_PCB_MAX -> udp_port_taken_unlocked port u = false ->
  udp_ok (set_pcb i (set_bound port (zget (udp_pcbs u) i)) u).
Proof.
  intros Hok Hi Ht. apply udp_ok_set; [done | | | done].
  - destruct (uo_rings _ Hok i Hi). by split.
  - intros q Hq. right. unfold listens in Hq. cbn in Hq. bool_hyps. subst q. intros j Hj _. by apply not_taken.
Qed.

Lemma usable_range u i : udp_ok u -> pcb_usable i u = true -> 0 <= i < UDP_PCB_MAX.
Proof.
  intros Hok. unfold pcb_usable. intros [Hi Hu]%andb_true_iff. apply Z.leb_le in Hi. split; [done|].
  destruct (Z_lt_ge_dec i UDP_PCB_MAX) as [|Hge]; [done|]. exfalso. rewrite <- (uo_pcbs _ Hok) in Hge.
  unfold zget in Hu. rewrite list_lookup_total_alt, lookup_ge_None_2 in Hu; [done|]. unfold zlen in Hge. lia.
Qed.

Lemma bind_ephemeral_ok u i : udp_ok u -> 0 <= i < UDP_PCB_MAX -> udp_ok (bind_ephemeral i u).2.
Proof.
  intros Hok Hi. unfold bind_ephemeral. destruct (bound _); [done|]. unfold udp_alloc_ephemeral_unlocked.
  pose proof (alloc_ephemeral_spec (Z.to_nat 16384) u Hok) as Ha. destruct (alloc_ephemeral _ u) as [p u']. destruct Ha as (Hok' & Hp & Hh & Hpt).
  destruct (Z.eqb_spec p 0) as [|Hne]; [done|]. destruct Hpt as [|[_ Ht]]; [done|]. cbn. rewrite <- Hp. apply udp_ok_bound; [done | done|].
  unfold udp_port_taken_unlocked, find_pcb in *. by rewrite Hp, Hh.
Qed.

(** ** Every operation keeps the table *)

Lemma rx_ok_zero : rx_ok pcb_zero.
Proof. by split. Qed.

Lemma pcb_create_ok u : udp_ok u -> udp_ok (udp_pcb_create u).2.
Proof.
  intros Hok. unfold udp_pcb_create. pose proof (zfind_spec 32 0 (fun i => negb (in_use (zget (udp_pcbs u) i)))) as Hz.
  destruct (zfind 32 0 _) as [i|]; [|done]. cbn. apply udp_ok_set; [done | by split | | unfold UDP_PCB_MAX; lia].
  intros port Hl. by destruct port.
Qed.

Lemma pcb_bind_ok u i port : udp_ok u -> udp_ok (udp_pcb_bind i port u).2.
Proof.
  intros Hok. unfold udp_pcb_bind. destruct (pcb_usable i u) eqn:Hu; [|done]. cbn [negb]. apply usable_range in Hu; [|done].
  destruct (bound (zget (udp_pcbs u) i)) eqn:Hb; [done|]. destruct (Z.eqb_spec port 0).
  - pose proof (bind_ephemeral_ok u i Hok Hu) as He. unfold bind_ephemeral in He. rewrite Hb in He.
    destruct (udp_alloc_ephemeral_unlocked u) as [p u']. by destruct (p =? 0).
  - destruct (udp_port_taken_unlocked port u) eqn:Ht; [done|]. by apply udp_ok_bound.
Qed.

Lemma connect_ok u i ip port : udp_ok u -> udp_ok (udp_pcb_connect i ip port u).2.
Proof.
  intros Hok. unfold udp_pcb_connect. destruct (pcb_usable i u) eqn:Hu; [|done]. apply usable_range in Hu; [|done]. destruct (port =? 0); [done|].
  cbn [negb orb]. pose proof (bind_ephemeral_ok u i Hok Hu) as He. destruct (bind_ephemeral i u) as [[] u']; [|done]. cbn [negb snd] in *.
  apply udp_ok_set; [done | | | done]; [|by left]. destruct (uo_rings _ He i Hu). by split.
Qed.

Lemma pcb_deliver_ok u d : udp_ok u -> udp_ok (udp_pcb_deliver d u).2.
Proof.
  intros Hok. unfold udp_pcb_deliver. pose proof (find_pcb_spec u (ud_dst_port d) Hok) as Hf. destruct (find_pcb _ u) as [i|]; [|done].
  destruct Hf as [Hi Hl]. cbn [snd]. apply udp_ok_set; [done | | | done]; [|by left]. by apply rx_push_spec, Hok.
Qed.

Lemma handle_ok u frame : udp_ok u -> udp_ok (udp_handle_packet frame u).2.
Proof.
  intros Hok. unfold udp_handle_packet. destruct (udp_accept_frame frame) as [d|]; [|done]. destruct (negb _); [done|].
  pose proof (pcb_deliver_ok u d Hok). by destruct (udp_pcb_deliver d u).
Qed.

Lemma recvfrom_ok u i len : udp_ok u -> udp_ok (udp_pcb_recvfrom i len u).2.
Proof.
  intros Hok. unfold udp_pcb_recvfrom. destruct (pcb_usable i u) eqn:Hu; [|done]. apply usable_range in Hu; [|done]. cbn [negb].
  destruct (Z.leb_spec (rx_count (zget (udp_pcbs u) i)) 0); [done|]. cbn [snd]. apply udp_ok_set; [done | | | done]; [|by left]. apply rx_pop_spec; [by apply Hok | lia].
Qed.

Lemma zset_out {A} (l : list A) i x : zlen l <= i -> zset l i x = l.
Proof. intros. unfold zset. apply list_insert_ge. unfold zlen in *. lia. Qed.
Lemma pcb_close_ok u i : udp_ok u -> udp_ok (udp_pcb_close i u).
Proof.
  intros Hok. unfold udp_pcb_close. destruct (Z.leb_spec 0 i); [|done]. destruct (Z_lt_ge_dec i UDP_PCB_MAX) as [Hlt|Hge].
  - apply udp_ok_set; [done | apply rx_ok_zero | by intros [] | lia].
  - unfold set_pcb. rewrite zset_out by (rewrite (uo_pcbs _ Hok); lia). by destruct u.
Qed.

Lemma sendto_ok {B} `{!KHeap B} `{!NetHw B} u i data ip port : udp_ok u -> udp_ok (udp_pcb_sendto (B := B) i data ip port u).1.
Proof.
  intros Hok. unfold udp_pcb_sendto. destruct (pcb_usable i u) eqn:Hu; [|done]. apply usable_range in Hu; [|done]. cbn [negb].
  destruct (port =? 0); [done|]. pose proof (bind_ephemeral_ok u i Hok Hu) as He. by destruct (bind_ephemeral i u) as [[] u'].
Qed.

Lemma handler_ok u port h : udp_ok u -> udp_ok (set_handler port h u).
Proof. intros []. by split. Qed.

(** ** The next free port *)

(** The [j]th port tried. *)
Definition nth_ephemeral (next j : Z) : Z := UDP_EPHEMERAL_LO + (next - UDP_EPHEMERAL_LO + j) mod 16384.

Lemma taken_next v port u : udp_port_taken_unlocked port (set_udp_next v u) = udp_port_taken_unlocked port u.
Proof. done. Qed.
Lemma next_ephemeral p : UDP_EPHEMERAL_LO <= p < 2 ^ 16 ->
  (if u16 (p + 1) <? UDP_EPHEMERAL_LO then UDP_EPHEMERAL_LO else u16 (p + 1)) = nth_ephemeral p 1.
Proof.
  intros Hp. unfold nth_ephemeral, UDP_EPHEMERAL_LO, u16 in *. destruct (decide (p = 65535)) as [->|]; [done|].
  rewrite Z.mod_small by lia. destruct (Z.ltb_spec (p + 1) 49152); [lia|]. rewrite Z.mod_small by lia. lia.
Qed.
Lemma alloc_ephemeral_all k u : udp_ok u -> (alloc_ephemeral k u).1 = 0 ->
  forall j, 0 <= j < Z.of_nat k -> udp_port_taken_unlocked (nth_ephemeral (udp_next u) j) u = true.
Proof.
  revert u. induction k as [|k IH]; intros u Hok; [lia|]. cbn [alloc_ephemeral]. cbn zeta. rewrite taken_next, next_ephemeral by apply Hok.
  pose proof (uo_next _ Hok) as Hn. destruct (udp_port_taken_unlocked (udp_next u) u) eqn:E; [|cbn; unfold UDP_EPHEMERAL_LO in Hn; lia].
  intros H0 j Hj. destruct (decide (j = 0)) as [->|].
  - unfold nth_ephemeral, UDP_EPHEMERAL_LO in *. rewrite Z.mod_small by lia. replace (49152 + (udp_next u - 49152 + 0)) with (udp_next u) by lia. done.
  - assert (udp_ok (set_udp_next (nth_ephemeral (udp_next u) 1) u)) as Hok'.
    { destruct Hok as [H1 H2 H3 H4]. split; try done. cbn. unfold nth_ephemeral, UDP_EPHEMERAL_LO.
      pose proof (Z.mod_pos_bound (udp_next u - 49152 + 1) 16384 ltac:(lia)). lia. }
    pose proof (IH _ Hok' H0 (j - 1) ltac:(lia)) as Ht. rewrite taken_next in Ht. cbn [set_udp_next udp_next] in Ht.
    replace (nth_ephemeral (nth_ephemeral (udp_next u) 1) (j - 1)) with (nth_ephemeral (udp_next u) j) in Ht; [done|].
    unfold nth_ephemeral, UDP_EPHEMERAL_LO. f_equal. replace (49152 + (udp_next u - 49152 + 1) mod 16384 - 49152 + (j - 1)) with ((udp_next u - 49152 + 1) mod 16384 + (j - 1)) by lia.
    rewrite Zplus_mod_idemp_l. f_equal. lia.
Qed.

(** No ephemeral port is given out only if all of them are taken. *)
Lemma alloc_complete k u : Z.of_nat k = 16384 -> udp_ok u -> (alloc_ephemeral k u).1 = 0 ->
  forall port, UDP_EPHEMERAL_LO <= port < 2 ^ 16 -> udp_port_taken_unlocked port u = true.
Proof.
  intros Hk Hok H0 port Hp. pose proof (uo_next _ Hok) as Hn. unfold UDP_EPHEMERAL_LO in *.
  pose proof (alloc_ephemeral_all k u Hok H0 ((port - udp_next u) mod 16384)) as Ht.
  replace port with (nth_ephemeral (udp_next u) ((port - udp_next u) mod 16384)).
  - apply Ht. pose proof (Z.mod_pos_bound (port - udp_next u) 16384). lia.
  - unfold nth_ephemeral, UDP_EPHEMERAL_LO. rewrite Zplus_mod_idemp_r. replace (udp_next u - 49152 + (port - udp_next u)) with (port - 49152) by lia.
    rewrite Z.mod_small by lia. lia.
Qed.

(** ** What the calls do *)

Definition socket (u : udp_state) (i : Z) : udp_pcb := zget (udp_pcbs u) i.

Lemma socket_set u i s : udp_ok u -> 0 <= i < UDP_PCB_MAX -> socket (set_pcb i s u) i = s.
Proof. intros Hok Hi. unfold socket. cbn [set_pcb udp_pcbs]. apply zget_zset_eq. rewrite (uo_pcbs _ Hok). done. Qed.
Lemma socket_set_ne u i j s : 0 <= i -> 0 <= j -> i <> j -> socket (set_pcb i s u) j = socket u j.
Proof. intros. by apply zget_zset_ne. Qed.

Lemma taken_same port u u' : udp_pcbs u' = udp_pcbs u -> udp_handlers u' = udp_handlers u -> udp_port_taken_unlocked port u' = udp_port_taken_unlocked port u.
Proof. intros Hp Hh. unfold udp_port_taken_unlocked, find_pcb. by rewrite Hp, Hh. Qed.

(** What [udp_pcb_bind] gives for a socket without a port. *)
Definition bind_result (u : udp_state) (i port : Z) (r : Z * udp_state) : Prop :=
  (r.1 = 0 /\ exists p, (if port =? 0 then UDP_EPHEMERAL_LO <= p < 2 ^ 16 else p = port) /\
     udp_port_taken_unlocked p u = false /\ listens p (socket r.2 i) = true) \/
  (r.1 = - EADDRINUSE /\ udp_pcbs r.2 = udp_pcbs u /\
     forall p, (if port =? 0 then UDP_EPHEMERAL_LO <= p < 2 ^ 16 else p = port) -> udp_port_taken_unlocked p u = true).

Lemma listens_bound port s : in_use s = true -> listens port (set_bound port s) = true.
Proof. intros H. unfold listens. cbn. by rewrite H, Z.eqb_refl. Qed.

Lemma bind_spec u i port : udp_ok u -> pcb_usable i u = true -> bound (socket u i) = false -> bind_result u i port (udp_pcb_bind i port u).
Proof.
  intros Hok Hu Hb. pose proof (usable_range _ _ Hok Hu) as Hi. assert (in_use (socket u i) = true) as Hin by (unfold pcb_usable in Hu; by bool_hyps).
  unfold bind_result, udp_pcb_bind. fold (socket u i). rewrite Hu, Hb. cbn [negb]. destruct (Z.eqb_spec port 0) as [->|Hne].
  - unfold udp_alloc_ephemeral_unlocked. assert (Z.of_nat (Z.to_nat 16384) = 16384) as Hk by (apply Z2Nat.id; lia). revert Hk. generalize (Z.to_nat 16384). intros k Hk.
    pose proof (alloc_ephemeral_spec k u Hok) as Hs. pose proof (alloc_complete k u Hk Hok) as Hall.
    destruct (alloc_ephemeral k u) as [p u']. destruct Hs as (Hok' & Hp & Hh & Hpt). cbn [fst] in Hall. destruct (Z.eqb_spec p 0) as [->|Hp0].
    + right. split; [done|]. split; [done|]. by apply Hall.
    + left. split; [done|]. destruct Hpt as [|[Hr Ht]]; [done|]. exists p. split; [done|]. split; [done|]. cbn [snd].
      rewrite socket_set by done. by apply listens_bound.
  - destruct (udp_port_taken_unlocked port u) eqn:E; [right; split; [done|]; split; [done|]; by intros p ->|].
    left. split; [done|]. exists port. split; [done|]. split; [done|]. cbn [snd]. rewrite socket_set by done. by apply listens_bound.
Qed.

(** The queue of socket [i] after the datagram [p] comes in. *)
Definition enqueue (p : udp_rx_pkt_t) (q : list udp_rx_pkt_t) : list udp_rx_pkt_t :=
  (if zlen q <? UDP_RX_MAX then q else zdrop 1 q) ++ [p].
Definition as_packet (d : udp_datagram) : udp_rx_pkt_t := mk_rx (ud_src_ip d) (ud_src_port d) (ztake UDP_RX_PAYLOAD (ud_payload d)).

Lemma deliver_spec u d i : udp_ok u -> 0 <= i < UDP_PCB_MAX -> listens (ud_dst_port d) (socket u i) = true ->
  (udp_pcb_deliver d u).1 = true /\
  rx_queue (socket (udp_pcb_deliver d u).2 i) = enqueue (as_packet d) (rx_queue (socket u i)) /\
  (forall j, 0 <= j -> j <> i -> socket (udp_pcb_deliver d u).2 j = socket u j).
Proof.
  intros Hok Hi Hl. unfold udp_pcb_deliver. pose proof (find_pcb_spec u (ud_dst_port d) Hok) as Hf. destruct (find_pcb (ud_dst_port d) u) as [k|].
  - destruct Hf as [Hk Hlk]. assert (k = i) as -> by by eapply uo_unique. cbn [fst snd]. split; [done|]. split.
    + rewrite socket_set by done. destruct (rx_push_spec (socket u i) (as_packet d) (uo_rings _ Hok i Hi)) as [_ Hq].
      unfold enqueue. rewrite rx_queue_len by (by apply Hok). rewrite <- Hq. fold (socket u i). do 3 f_equal. unfold as_packet.
      case_if; [done|]. rewrite ztake_all; [done|]. by apply Z.ltb_ge.
    + intros j Hj Hne. apply socket_set_ne; lia.
  - unfold socket in Hl. by rewrite (Hf i Hi) in Hl.
Qed.

Lemma recvfrom_spec u i len : udp_ok u -> pcb_usable i u = true ->
  match rx_queue (socket u i) with
  | [] => udp_pcb_recvfrom i len u = (inl (- EAGAIN), u)
  | p :: q => (udp_pcb_recvfrom i len u).1 = inr (ztake len (rx_data p), rx_src_ip p, rx_src_port p) /\
      rx_queue (socket (udp_pcb_recvfrom i len u).2 i) = q
  end.
Proof.
  intros Hok Hu. pose proof (usable_range _ _ Hok Hu) as Hi. pose proof (uo_rings _ Hok i Hi) as Hr. unfold udp_pcb_recvfrom. rewrite Hu. cbn [negb].
  fold (socket u i) in *. pose proof (rx_queue_len _ Hr) as Hl. destruct (Z.leb_spec (rx_count (socket u i)) 0).
  - destruct (rx_queue (socket u i)); [done|]. rewrite zlen_cons in Hl. pose proof (zlen_nonneg l). lia.
  - destruct (rx_pop_spec _ Hr ltac:(lia)) as [_ E]. rewrite E. cbn [fst snd]. split; [done|]. by rewrite socket_set.
Qed.

Section udp.
Context {B : Type} `{!KHeap B} `{!NetHw B}.

(** ** Every sequence of calls *)

Inductive udp_call :=
| URegister (port handler : Z)
| UUnregister (port : Z)
| UCreate
| UBind (i port : Z)
| UConnect (i : Z) (ip : list Z) (port : Z)
| USendto (i : Z) (data ip : list Z) (port : Z)
| URecvfrom (i len : Z)
| UClose (i : Z)
| UFrame (frame : list Z).
Definition udp_perform (call : udp_call) (u : udp_state) : udp_state :=
  match call with
  | URegister port handler => (udp_register_handler port handler u).2
  | UUnregister port => udp_unregister_handler port u
  | UCreate => (udp_pcb_create u).2
  | UBind i port => (udp_pcb_bind i port u).2
  | UConnect i ip port => (udp_pcb_connect i ip port u).2
  | USendto i data ip port => (udp_pcb_sendto (B := B) i data ip port u).1
  | URecvfrom i len => (udp_pcb_recvfrom i len u).2
  | UClose i => udp_pcb_close i u
  | UFrame frame => (udp_handle_packet frame u).2
  end.
(** The static variables at boot, then the calls. *)
Definition udp_boot : udp_state := mk_udps (fun _ => 0) (replicate (Z.to_nat UDP_PCB_MAX) pcb_zero) UDP_EPHEMERAL_LO.
Definition udp_after (calls : list udp_call) : udp_state := foldl (fun u c => udp_perform c u) udp_boot calls.

Lemma udp_boot_ok : udp_ok udp_boot.
Proof.
  assert (forall i, 0 <= i < UDP_PCB_MAX -> zget (udp_pcbs udp_boot) i = pcb_zero) as Hz.
  { intros i Hi. apply zget_lookup, lookup_replicate_2. unfold UDP_PCB_MAX in *. lia. }
  split; [done | done | |].
  - intros i Hi. rewrite Hz by done. apply rx_ok_zero.
  - intros i j port Hi Hj. by rewrite Hz.
Qed.
Lemma udp_perform_ok call u : udp_ok u -> udp_ok (udp_perform call u).
Proof.
  intros Hok. destruct call; cbn [udp_perform].
  - unfold udp_register_handler. repeat (case_if; [done|]). by apply handler_ok.
  - unfold udp_unregister_handler. case_if; [done|]. by apply handler_ok.
  - by apply pcb_create_ok.
  - by apply pcb_bind_ok.
  - by apply connect_ok.
  - by apply sendto_ok.
  - by apply recvfrom_ok.
  - by apply pcb_close_ok.
  - by apply handle_ok.
Qed.
Lemma udp_after_ok calls : udp_ok (udp_after calls).
Proof.
  unfold udp_after. assert (forall l u, udp_ok u -> udp_ok (foldl (fun u c => udp_perform c u) u l)) as H; [|apply H, udp_boot_ok].
  induction l as [|c l IH]; intros u Hok; [done|]. apply IH. by apply udp_perform_ok.
Qed.

(** C23 The sockets of UDP, after any sequence of calls and received frames: at
    most one socket has a port; binding gives a port that no handler and no
    socket has (an ephemeral one on request) and fails only if there is none; a
    datagram for the port of a socket joins the end of its queue, where at most
    eight wait and the oldest is dropped, and changes no other socket; receiving
    takes the oldest, or says that there is none. *)
Theorem udp_sockets_correct (calls : list udp_call) :
  let u := udp_after calls in
  (forall i j port, 0 <= i < UDP_PCB_MAX -> 0 <= j < UDP_PCB_MAX ->
     listens port (socket u i) = true -> listens port (socket u j) = true -> i = j) /\
  (forall i port, pcb_usable i u = true -> bound (socket u i) = false -> bind_result u i port (udp_pcb_bind i port u)) /\
  (forall d i, 0 <= i < UDP_PCB_MAX -> listens (ud_dst_port d) (socket u i) = true ->
     rx_queue (socket (udp_pcb_deliver d u).2 i) = enqueue (as_packet d) (rx_queue (socket u i)) /\
     forall j, 0 <= j -> j <> i -> socket (udp_pcb_deliver d u).2 j = socket u j) /\
  (forall i len, pcb_usable i u = true ->
     match rx_queue (socket u i) with
     | [] => udp_pcb_recvfrom i len u = (inl (- EAGAIN), u)
     | p :: q => (udp_pcb_recvfrom i len u).1 = inr (ztake len (rx_data p), rx_src_ip p, rx_src_port p) /\
         rx_queue (socket (udp_pcb_recvfrom i len u).2 i) = q
     end).
Proof.
  cbn zeta. pose proof (udp_after_ok calls) as Hok. split_and!.
  - intros i j port. apply (uo_unique _ Hok).
  - intros i port. by apply bind_spec.
  - intros d i Hi Hl. by destruct (deliver_spec _ d i Hok Hi Hl) as (_ & ? & ?).
  - intros i len. by apply recvfrom_spec.
Qed.

(** ** From host to host *)

Context `{!NetLab B} `{!NetLabLaws B}.
Abbreviation net := (net B).

Lemma select_src (a : net) dm src dst : routed a dm src dst -> ip_select_src dst a = src.
Proof.
  intros [-> _ _ _ Hl _ _]. unfold ip_is_local_dst in Hl. unfold ip_select_src. by destruct (zget dst 0 =? 127).
Qed.

Lemma udp_sent (a : net) dm src dst sp dp payload : routed a dm src dst -> zlen payload <= 65507 ->
  exists frames,
    (udp_send dst sp dp payload a).1 = 0 /\
    wire (below (udp_send dst sp dp payload a).2) = wire (below a) ++ frames /\
    forall (b : net) gs, arrives frames gs b src dst (ip_id_counter a) IP_PROTO_UDP ->
      exists pre post, ip_prefix pre src dst (8 + zlen payload) /\
        (ip_inputs gs b).1 = [UdpFrame (pre ++ udp_packet src dst sp dp payload ++ post)].
Proof.
  intros Hr Hl. pose proof (zlen_nonneg payload).
  assert (zlen (udp_packet src dst sp dp payload) = 8 + zlen payload) as Hp by (unfold udp_packet; rewrite zlen_app; done).
  assert (u16 (8 + zlen payload) = 8 + zlen payload) as Hu by (unfold u16; rewrite Z.mod_small; lia).
  destruct (packet_delivered a dm src dst IP_PROTO_UDP (udp_packet src dst sp dp payload) (8 + zlen payload) (8 + zlen payload) (8 + zlen payload) (- ENOMEM) Hr ltac:(done) ltac:(lia) ltac:(lia))
    as (frames & Hrc & Hw & Hd).
  match type of Hrc with (?m a).1 = 0 => assert (udp_send dst sp dp payload a = m a) as -> end.
  { destruct (routed_alloc a dm src dst (8 + zlen payload) ltac:(lia) Hr) as (Hr1 & _).
    unfold udp_send. destruct (Z.ltb_spec 65527 (zlen payload)); [lia|]. rewrite Hu. unfold mbind, nact_bind, get.
    destruct (kalloc_n (8 + zlen payload) a) as [p a1]. cbn [snd] in Hr1. destruct (p =? 0); [done|]. by rewrite (select_src _ _ _ _ Hr1). }
  exists frames. split; [done|]. split; [done|]. intros b gs Ha. destruct (Hd b gs Ha) as (pre & post & [Hpre _] & Hin). exists pre, post. rewrite Hp in Hpre. done.
Qed.

(** C9 A UDP datagram of at most 65507 bytes reaches the socket of its port on
    another host.  The sender has the next hop in its ARP cache; [udp_send]
    sends one frame, or fragments.  When the receiver, which has no handler for
    the port and a socket bound to it, has got these frames, in whatever order
    and each with any padding, the first 1472 bytes of the payload, all that a
    queue entry has room for, have joined the queue of that socket, with the
    address and port of the sender; the checksum does not fail.  No other
    socket changes.  (On both hosts allocations and the driver's sending
    succeed; the receiver has a free reassembly slot.) *)
Theorem udp_datagram_received (a : net) (dm src dst : list Z) (sp dp : Z) (payload : list Z) :
  routed a dm src dst -> 0 <= sp < 2 ^ 16 -> 0 <= dp < 2 ^ 16 -> bytes_ok payload -> zlen payload <= 65507 ->
  exists frames,
    (udp_send dst sp dp payload a).1 = 0 /\
    wire (below (udp_send dst sp dp payload a).2) = wire (below a) ++ frames /\
    forall (b : net) gs calls i, arrives frames gs b src dst (ip_id_counter a) IP_PROTO_UDP ->
      let u := udp_after calls in
      udp_handlers u dp = 0 -> 0 <= i < UDP_PCB_MAX -> listens dp (socket u i) = true ->
      exists frame, (ip_inputs gs b).1 = [UdpFrame frame] /\
        let '(outcome, u') := udp_handle_packet frame u in
        outcome = UdpQueued /\
        rx_queue (socket u' i) = enqueue (mk_rx src sp (ztake UDP_RX_PAYLOAD payload)) (rx_queue (socket u i)) /\
        forall j, 0 <= j -> j <> i -> socket u' j = socket u j.
Proof.
  intros Hr Hsp Hdp Hpay Hl. destruct (udp_sent a dm src dst sp dp payload Hr Hl) as (frames & Hrc & Hw & Hd).
  exists frames. split; [done|]. split; [done|]. intros b gs calls i Ha u Hh Hi Hli. destruct (Hd b gs Ha) as (pre & post & Hpre & Hin).
  eexists. split; [exact Hin|]. destruct (rt_addresses _ _ _ _ Hr) as [_ _ [Hs1 Hs2] [Hd1 Hd2]].
  unfold udp_handle_packet. rewrite udp_read by done. cbn [ud_dst_port]. rewrite Hh. cbn [Z.eqb negb].
  destruct (deliver_spec u (mk_udp src sp dp payload) i (udp_after_ok calls) Hi Hli) as (Hq & Hqueue & Hoth).
  destruct (udp_pcb_deliver _ u) as [queued u']. cbn [fst snd] in *. by rewrite Hq.
Qed.
End udp.
