(* ===== verification/Stack.v ===== *)
(** * The network stack

    ARP, IPv4, ICMP, UDP and TCP put together: the dispatch of
    src/net_ethernet.c and the second half of [ip_handle_packet], the delivery
    of loopback frames, and the receive service of src/net_thread.c. *)
From S2P Require Import Prelude Heap TcpRecv TcpConn TcpSeg Tcp TcpTable TcpSock Net Arp Ip IpFrag IpMem Icmp Udp.

Definition NET_RX_BATCH_SIZE : Z := 8.
Definition NET_FALLBACK_POLL_MS : Z := 50.
Definition NET_ARP_CLEANUP_MS : Z := 10000.
Definition NET_ARPQ_TICK_MS : Z := 50.

(** Code that is not modelled and is handed bytes: the handlers of UDP ports
    and IPv6. *)
Inductive stack_event :=
| UdpHandlerCall (handler : Z) (d : udp_datagram)
| Ipv6Packet (bytes : list Z).

(** The static variables of src/net_thread.c. *)
Record rx_state := mk_rxs {
  net_rx_event : bool;
  net_rx_packets_total : Z;
  last_fallback_poll : Z;
  last_arp_cleanup : Z;
  last_arpq_tick : Z;
}.

Section stack.
Context {B : Type} `{!KHeap B} `{!NetHw B}.
Abbreviation nact := (nact (B := B)).

(** The state below the transports is the world of TCP. *)
Record stack := mk_stack {
  st_tcp : tcp (W := net B);
  st_udp : udp_state;
  st_icmp : icmp_state;
  st_rx : rx_state;
  st_ipv6_enabled : bool;
  st_events : list stack_event;
}.
Definition net_of (s : stack) : net B := heap_of (st_tcp s).
Definition set_tcp v (s : stack) : stack := mk_stack v (st_udp s) (st_icmp s) (st_rx s) (st_ipv6_enabled s) (st_events s).
Definition set_udp v (s : stack) : stack := mk_stack (st_tcp s) v (st_icmp s) (st_rx s) (st_ipv6_enabled s) (st_events s).
Definition set_icmp v (s : stack) : stack := mk_stack (st_tcp s) (st_udp s) v (st_rx s) (st_ipv6_enabled s) (st_events s).
Definition set_rxs v (s : stack) : stack := mk_stack (st_tcp s) (st_udp s) (st_icmp s) v (st_ipv6_enabled s) (st_events s).
Definition set_net (n : net B) (s : stack) : stack := set_tcp (set_glob (set_world n (t_glob (st_tcp s))) (st_tcp s)) s.
Definition log_event e (s : stack) : stack := mk_stack (st_tcp s) (st_udp s) (st_icmp s) (st_rx s) (st_ipv6_enabled s) (st_events s ++ [e]).

(** Actions; [None] if TCP follows a pointer to freed memory. *)
Definition sact (A : Type) : Type := stack -> option (A * stack).
#[export] Instance sact_ret : MRet sact := fun A a s => Some (a, s).
#[export] Instance sact_bind : MBind sact := fun A C f m s => match m s with Some (a, s) => f a s | None => None end.
Definition lower {A} (m : nact A) : sact A := fun s => let '(a, n) := m (net_of s) in Some (a, set_net n s).
Definition in_tcp {A} (m : TcpTable.M (W := net B) A) : sact A :=
  fun s => match m (st_tcp s) with Some (a, t) => Some (a, set_tcp t s) | None => None end.
Definition in_udp {A} (f : udp_state -> A * udp_state) : sact A := fun s => let '(a, u) := f (st_udp s) in Some (a, set_udp u s).
Definition on_stack (f : stack -> stack) : sact unit := fun s => Some (tt, f s).
Definition look {A} (f : stack -> A) : sact A := fun s => Some (f s, s).
Definition unless (b : bool) (m : sact unit) : sact unit := if b then mret tt else m.

(** The buffer at [p], if there is one, is in use while [m] runs. *)
Definition during {A} (p k : Z) (m : sact A) : sact A :=
  _ ← lower (only_if (negb (p =? 0)) (touch p k));
  r ← m;
  _ ← lower (only_if (negb (p =? 0)) (touch p k));
  mret r.

(** ** The receive path *)

Definition hand_up (u : upcall) : sact unit :=
  match u with
  | EchoRequest src_ip packet => _ ← lower (icmp_send_echo_reply_to src_ip packet); mret tt
  | IcmpPacket packet => on_stack (fun s => set_icmp (icmp_handle_packet packet (st_icmp s)) s)
  | TcpFrame frame => in_tcp (tcp_handle_packet frame)
  | UdpFrame frame =>
      o ← in_udp (udp_handle_packet frame);
      match o with UdpHandler h d => on_stack (log_event (UdpHandlerCall h d)) | _ => mret tt end
  end.

Definition ip_handle_packet (frame : list Z) : sact unit :=
  r ← lower (ip_input frame);
  _ ← match r.1 with Some u => during r.2 (extent u) (hand_up u) | None => mret tt end;
  lower (only_if (negb (r.2 =? 0)) (kfree_n r.2)).

Definition ethernet_process_frame (frame : list Z) : sact unit :=
  if zlen frame <? 14 then mret tt
  else
    let ethertype := net16 frame 12 in
    if ethertype =? 0x0806 then lower (arp_handle_packet frame)
    else if ethertype =? 0x0800 then ip_handle_packet frame
    else if ethertype =? 0x86dd then
      on_stack (fun s => if st_ipv6_enabled s then log_event (Ipv6Packet (zdrop 14 frame)) s else s)
    else lower (net_rx_count_unknown_l2 ethertype).

(** ** Loopback *)

(** The loop of [ip_loopback_drain] with at most [k] rounds left. *)
Fixpoint drain (k : nat) (n : Z) : sact Z :=
  match k with
  | O => mret n
  | S k =>
      r ← lower lo_dequeue;
      match r with
      | None => mret n
      | Some (f, bytes) =>
          _ ← during f (zlen bytes) (ip_handle_packet bytes);
          _ ← lower (kfree_n f);
          drain k (n + 1)
      end
  end.
Definition set_draining (v : bool) : nact unit :=
  put (fun n => let lo := ip_lo n in set_ip_lo (mk_lo (ip_lo_frame lo) (ip_lo_flen lo) (ip_lo_head lo) (ip_lo_tail lo) (ip_lo_count lo) v) n).
Definition ip_loopback_drain : sact Z :=
  lo ← lower (get ip_lo);
  if ip_lo_draining lo then mret 0
  else
    _ ← lower (set_draining true);
    n ← drain 1024 0;
    _ ← lower (set_draining false);
    mret n.

(** ** The service of the main loop *)

Definition net_thread_notify_rx : sact unit :=
  on_stack (fun s => let r := st_rx s in set_rxs (mk_rxs true (net_rx_packets_total r) (last_fallback_poll r) (last_arp_cleanup r) (last_arpq_tick r)) s).

(** The batch; how many frames were processed. *)
Fixpoint rx_batch (k : nat) (processed : Z) : sact Z :=
  match k with
  | O => mret processed
  | S k =>
      packet ← lower (net_receive_packet 2048);
      if zlen packet <=? 0 then mret processed
      else _ ← ethernet_process_frame packet; rx_batch k (processed + 1)
  end.

Definition on_rx_state (f : rx_state -> rx_state) : sact unit := on_stack (fun s => set_rxs (f (st_rx s)) s).

Definition net_rx_service : sact Z :=
  now ← lower now_ms;
  r ← look st_rx;
  processed ←
    (if net_rx_event r || (NET_FALLBACK_POLL_MS <=? now -64 last_fallback_poll r) then
       _ ← on_rx_state (fun r => mk_rxs false (net_rx_packets_total r) now (last_arp_cleanup r) (last_arpq_tick r));
       n ← rx_batch 8 0;
       _ ← on_rx_state (fun r => mk_rxs (net_rx_event r) (net_rx_packets_total r +64 n) (last_fallback_poll r) (last_arp_cleanup r) (last_arpq_tick r));
       mret n
     else mret 0);
  pending ← lower (get ip_loopback_pending);
  processed ← (if (pending : bool) then n ← ip_loopback_drain; mret (processed + n) else mret processed);
  r ← look st_rx;
  _ ← unless (now -64 last_arpq_tick r <? NET_ARPQ_TICK_MS)
        (_ ← lower ip_arpq_tick;
         on_rx_state (fun r => mk_rxs (net_rx_event r) (net_rx_packets_total r) (last_fallback_poll r) (last_arp_cleanup r) now));
  r ← look st_rx;
  _ ← unless (now -64 last_arp_cleanup r <=? NET_ARP_CLEANUP_MS)
        (_ ← lower arp_cleanup_expired;
         on_rx_state (fun r => mk_rxs (net_rx_event r) (net_rx_packets_total r) (last_fallback_poll r) now (last_arpq_tick r)));
  mret processed.

(** ** The calls of the rest of the kernel *)

Inductive stack_call :=
| RxService
| NotifyRx
| FrameIn (frame : list Z)
| FragmentCleanup
| ArpqTick
| ArpAddStatic (ip mac : list Z)
| SetIpAddress (ip : list Z)
| SetSubnetMask (mask : list Z)
| SetGateway (gw : list Z)
| Ping (dst_ip data : list Z)
| CheckEchoReply
| UdpRegister (port handler : Z)
| UdpUnregister (port : Z)
| UdpSend (dst_ip : list Z) (src_port dst_port : Z) (payload : list Z)
| UdpCreate
| UdpBind (pcb port : Z)
| UdpConnect (pcb : Z) (ip : list Z) (port : Z)
| UdpSendto (pcb : Z) (data ip : list Z) (port : Z)
| UdpRecvfrom (pcb len : Z)
| UdpClose (pcb : Z)
| TcpCall (call : tcp_call).

Definition quietly {A} (m : sact A) : sact unit := _ ← m; mret tt.
Definition stack_perform (call : stack_call) : sact unit :=
  match call with
  | RxService => quietly net_rx_service
  | NotifyRx => net_thread_notify_rx
  | FrameIn frame => ethernet_process_frame frame
  | FragmentCleanup => lower ip_fragment_cleanup
  | ArpqTick => lower ip_arpq_tick
  | ArpAddStatic ip mac => lower (arp_add_static ip mac)
  | SetIpAddress ip => lower (net_set_ip_address ip)
  | SetSubnetMask mask => lower (net_set_subnet_mask mask)
  | SetGateway gw => lower (net_set_gateway gw)
  | Ping dst_ip data =>
      i ← look st_icmp;
      let '(i, send) := icmp_ping dst_ip data i in
      _ ← on_stack (set_icmp i);
      quietly (lower send)
  | CheckEchoReply => on_stack (fun s => set_icmp (icmp_check_echo_reply (st_icmp s)).2 s)
  | UdpRegister port handler => quietly (in_udp (udp_register_handler port handler))
  | UdpUnregister port => on_stack (fun s => set_udp (udp_unregister_handler port (st_udp s)) s)
  | UdpSend dst_ip src_port dst_port payload => quietly (lower (udp_send dst_ip src_port dst_port payload))
  | UdpCreate => quietly (in_udp udp_pcb_create)
  | UdpBind pcb port => quietly (in_udp (udp_pcb_bind pcb port))
  | UdpConnect pcb ip port => quietly (in_udp (udp_pcb_connect pcb ip port))
  | UdpSendto pcb data ip port =>
      u ← look st_udp;
      let '(u, send) := udp_pcb_sendto pcb data ip port u in
      _ ← on_stack (set_udp u);
      quietly (lower send)
  | UdpRecvfrom pcb len => quietly (in_udp (udp_pcb_recvfrom pcb len))
  | UdpClose pcb => on_stack (fun s => set_udp (udp_pcb_close pcb (st_udp s)) s)
  | TcpCall call => in_tcp (perform call)
  end.
End stack.
