(* ===== verification/StackSafe.v ===== *)
(** * The network stack and its memory

    Over every sequence of received frames, timer ticks and calls of the rest of
    the kernel, the layers below TCP access their buffers only while they are
    allocated and inside their bounds, TCP follows no freed connection, and the
    heap holds exactly what the queues, reassembly slots, connections and
    sockets own. *)
From S2P Require Import Prelude Heap TcpConn TcpSeg Tcp TcpTable TcpMem TcpShape TcpSafe TcpSock Net Arp Ip IpFrag IpMem Icmp Udp Stack.

(** * The memory of the network stack

    A buffer that the lower layers hand up belongs to neither TCP nor the queues
    while it is processed, and is freed afterwards. *)

Section worlds.
Context {W : Type} `{!KHeap W} `{!KHeapLaws W}.

(** [F] and one more block. *)
Definition plus (F : Z -> Z -> Prop) (p j : Z) (q k : Z) : Prop := F q k \/ (q = p /\ k = j).

Lemma owned_lend F (w : W) p k Bl : mem_ok F w ((p, k) :: Bl) -> exists j, k <= j /\ mem_ok (plus F p j) w Bl /\ forall i, ~ F p i.
Proof.
  intros [H1 H2 H3 H4 H5]. cbn in *. apply NoDup_cons in H2 as [Hp H2]. destruct (H3 p k) as (j & Hkj & Hj); [by left|]. exists j. split; [done|]. split.
  - constructor; [done | done | | |].
    + intros q i Hin. apply H3. by right.
    + intros q i [HF|[-> ->]]; [|done]. destruct (H4 _ _ HF) as [Hl Hn]. split; [done|]. set_solver.
    + intros q i Hq. destruct (H5 _ _ Hq) as [HF|[->|Hin]%elem_of_cons]; [by left; left | | by right].
      left. right. split; [done|]. by eapply live_functional.
  - intros i HF. destruct (H4 _ _ HF) as [_ Hn]. set_solver.
Qed.
Lemma owned_return F (w : W) p j Bl : mem_ok (plus F p j) w Bl -> (forall i, ~ F p i) -> mem_ok F w ((p, j) :: Bl).
Proof.
  intros [H1 H2 H3 H4 H5] Hp. destruct (H4 p j) as [Hl Hn]; [by right|]. constructor; [done | | | |]; cbn.
  - by apply NoDup_cons.
  - intros q i [[= -> ->]|Hin]%elem_of_cons; [by exists j | by apply H3].
  - intros q i HF. destruct (H4 q i) as [Hq Hqn]; [by left|]. split; [done|]. intros [->|?]%elem_of_cons; [by eapply Hp | done].
  - intros q i Hq. destruct (H5 _ _ Hq) as [[HF|[-> ->]]|Hin]; [by left | right; by left | right; by right].
Qed.
End worlds.

Section mem.
Context {B : Type} `{!KHeap B} `{!KHeapLaws B} `{!NetHw B} `{!NetHwLaws B}.
Abbreviation nact := (nact (B := B)).
Abbreviation net := (net B).

(** ** Actions of the lower layers, seen from above *)

Lemma owned_keep {A} F (n : net) Bl (m : nact A) : keeping m -> mem_ok F n Bl -> mem_ok F (m n).2 Bl.
Proof.
  intros Hm [H1 H2 H3 H4 H5]. destruct (keeping_hidden m n Hm H1) as [Hok Hl]. constructor; try done; try setoid_rewrite Hl; done.
Qed.

Lemma owned_same F (n n' : net) Bl : mem_ok F n Bl -> nst (heap_live n) [] n' -> mem_ok F n' Bl.
Proof.
  intros [H1 H2 H3 H4 H5] Hn. assert (forall q i, heap_live n' q i <-> heap_live n q i) as Hl by (intros; by apply nst_live).
  constructor; [by eapply nst_ok | done | | |]; setoid_rewrite Hl; done.
Qed.
(** A block leaves the lower layers. *)
Lemma owned_acquire F (n n' : net) p k Bl : mem_ok F n Bl -> nst (heap_live n) [(p, k)] n' -> mem_ok F n' ((p, k) :: Bl).
Proof.
  intros [H1 H2 H3 H4 H5] [Hw [M1 M2 M3 M4 M5]]. cbn in M2, M3, M4, M5. apply NoDup_cons in M2 as [Hp M2].
  destruct (M3 p k) as (j & Hkj & Hj); [by left|].
  assert (forall q i, heap_live n q i -> heap_live n' q i /\ q <> p) as Hup.
  { intros q i Hq. destruct (M4 q i Hq) as [Hl Hn]. rewrite not_elem_of_cons in Hn. destruct Hn. by split; [split|]. }
  assert (heap_ok n') as Hok.
  { split; [done|]. exists (fun q i => heap_live (below n') q i /\ q ∉ (ip_blocks n').*1). constructor; [done | done | | done |].
    - intros q i Hin. apply M3. by right.
    - intros q i Hq. destruct (decide (q ∈ (ip_blocks n').*1)); [by right | by left]. }
  constructor; [done | | | |]; cbn [fmap list_fmap fst].
  - apply NoDup_cons. split; [|done]. intros ([q i] & -> & Hin)%list_elem_of_fmap. destruct (H3 _ _ Hin) as (l & _ & Hl). by destruct (Hup _ _ Hl).
  - intros q i [[= -> ->]|Hin]%elem_of_cons; [exists j; by split; [|split]|]. destruct (H3 _ _ Hin) as (l & ? & Hl). exists l. split; [done|]. by apply Hup.
  - intros q i HF. destruct (H4 _ _ HF) as [Hl Hn]. destruct (Hup _ _ Hl) as [Hl' Hne]. split; [done|]. by rewrite not_elem_of_cons.
  - intros q i [Hq Hn]. destruct (M5 _ _ Hq) as [Hl|[->|Hin]%elem_of_cons]; [|right; by left | done].
    destruct (H5 _ _ Hl); [by left | right; by right].
Qed.

(** ** The state of the transports over a changed world *)

Abbreviation stack := (stack (B := B)).

Lemma tcp_ok_world F F' (t : tcp (W := net)) n : tcp_ok F t -> mem_ok F' n (tcp_blocks t) -> tcp_ok F' (set_glob (set_world n (t_glob t)) t).
Proof.
  intros (L & I & HI & [_ Hi Hl]) Hm. exists L, I. split; [done|]. constructor; [|done|done]. unfold tcp_blocks in Hm. by rewrite Hl in Hm.
Qed.

(** Memory of the stack: what is live is [F] and what the layers own. *)
Definition stack_ok (F : Z -> Z -> Prop) (s : stack) : Prop := tcp_ok F (st_tcp s).

Definition ssafe {A} (P : stack -> Prop) (m : sact A) (Q : A -> stack -> Prop) : Prop :=
  forall s, P s -> exists a s', m s = Some (a, s') /\ Q a s'.
Definition sound {A} (m : sact A) : Prop := forall F, ssafe (stack_ok F) m (fun _ => stack_ok F).

Lemma ssafe_bind {A C} P (m : sact A) R (f : A -> sact C) Q : ssafe P m R -> (forall a, ssafe (R a) (f a) Q) -> ssafe P (mbind f m) Q.
Proof. intros Hm Hf s Hs. unfold mbind, sact_bind. destruct (Hm s Hs) as (a & s' & -> & Ha). by apply Hf. Qed.
Lemma ssafe_ret {A} (a : A) (P : stack -> Prop) Q : (forall s, P s -> Q a s) -> ssafe P (mret a) Q.
Proof. intros H s Hs. exists a, s. split; [done | by apply H]. Qed.
Lemma sound_ret {A} (a : A) : sound (mret a).
Proof. intros F. by apply ssafe_ret. Qed.
Lemma sound_bind {A C} (m : sact A) (f : A -> sact C) : sound m -> (forall a, sound (f a)) -> sound (mbind f m).
Proof. intros Hm Hf F. eapply ssafe_bind; [apply Hm|]. intros a. apply Hf. Qed.
Lemma sound_lower {A} (m : nact A) : keeping m -> sound (lower m).
Proof.
  intros Hm F s Hs. unfold lower. pose proof (owned_keep F _ _ m Hm (tcp_ok_mem _ _ Hs)) as Hk. fold (net_of s) in Hk.
  destruct (m (net_of s)) as [a n]. cbn in Hk. exists a. eexists. split; [done|]. by eapply tcp_ok_world.
Qed.
Lemma sound_on_stack f : (forall s, st_tcp (f s) = st_tcp s) -> sound (on_stack f).
Proof. intros Hf F s Hs. exists tt, (f s). split; [done|]. unfold stack_ok. by rewrite Hf. Qed.
Lemma sound_look {A} (f : stack -> A) : sound (look f).
Proof. intros F s Hs. by exists (f s), s. Qed.
Lemma sound_in_udp {A} (f : udp_state -> A * udp_state) : sound (in_udp f).
Proof. intros F s Hs. unfold in_udp. destruct (f (st_udp s)) as [a u]. by eexists _, _. Qed.
Lemma sound_unless b m : sound m -> sound (unless b m).
Proof. destruct b; [intros _; apply sound_ret | done]. Qed.

(** A block is handed up, used and freed. *)
Definition lent (F : Z -> Z -> Prop) (p k : Z) (s : stack) : Prop := exists j, k <= j /\ stack_ok (plus F p j) s /\ forall i, ~ F p i.

Lemma lend_lower {A} F p k (m : nact A) a n' s : stack_ok F s -> m (net_of s) = (a, n') -> nst (heap_live (net_of s)) [(p, k)] n' ->
  lent F p k (set_net n' s).
Proof.
  intros Hs E Hn. pose proof (owned_acquire F _ n' p k _ (tcp_ok_mem _ _ Hs) Hn) as Hm.
  destruct (owned_lend _ _ _ _ _ Hm) as (j & Hkj & Hj & Hf). exists j. split; [done|]. split; [|done]. by eapply tcp_ok_world.
Qed.
Lemma lent_free F p k : ssafe (lent F p k) (lower (kfree_n p)) (fun _ => stack_ok F).
Proof.
  intros s (j & _ & Hs & Hf). exists tt. eexists. split; [done|]. pose proof (owned_return _ _ _ _ _ (tcp_ok_mem _ _ Hs) Hf) as Hm.
  apply owned_free in Hm. by eapply tcp_ok_world.
Qed.
Lemma lent_sound {A} F p k (m : sact A) : sound m -> ssafe (lent F p k) m (fun _ => lent F p k).
Proof.
  intros Hm s (j & Hk & Hs & Hf). destruct (Hm _ s Hs) as (a & s' & E & Hs'). exists a, s'. split; [done|]. by exists j.
Qed.
Lemma lent_touch F p k e : 0 <= e <= k -> ssafe (lent F p k) (lower (touch p e)) (fun _ => lent F p k).
Proof.
  intros He s (j & Hk & Hs & Hf). exists tt. eexists. split; [done|]. exists j. split; [done|]. split; [|done].
  pose proof (tcp_ok_mem _ _ Hs) as Hm. eapply tcp_ok_world; [exact Hs|]. destruct Hm as [[Hw [G HG]] H2 H3 H4 H5]. fold (net_of s) in *.
  destruct (H4 p j) as [[Hl _] _]; [by right|]. constructor; [| done | done | done | done]. split; [|by exists G].
  destruct Hw as [W1 W2 W3 W4 W5 W6]. split; try done. cbn [accesses set_accesses]. constructor; [|done]. exists j. cbn. split; [lia | done].
Qed.
Lemma lent_during {A} F p k e (m : sact A) : p <> 0 -> 0 <= e <= k -> sound m -> ssafe (lent F p k) (during p e m) (fun _ => lent F p k).
Proof.
  intros Hp He Hm. unfold during. rewrite (proj2 (Z.eqb_neq p 0)) by done. cbn [negb only_if].
  eapply ssafe_bind; [by apply lent_touch|]. intros []. eapply ssafe_bind; [by apply lent_sound|]. intros r.
  eapply ssafe_bind; [by apply lent_touch|]. intros []. by apply ssafe_ret.
Qed.
Lemma sound_during_none {A} e (m : sact A) : sound m -> sound (during 0 e m).
Proof.
  intros Hm. apply sound_bind; [apply sound_lower, keep_ret|]. intros []. apply sound_bind; [done|]. intros r.
  apply sound_bind; [apply sound_lower, keep_ret|]. intros []. apply sound_ret.
Qed.
End mem.

Section safe.
Context {B : Type} `{!KHeap B} `{!KHeapLaws B} `{!NetHw B} `{!NetHwLaws B}.
Abbreviation nact := (nact (B := B)).
Abbreviation net := (net B).
Abbreviation stack := (stack (B := B)).

(** ** ICMP, UDP and the device *)

(** A packet in a buffer of its own, sent and freed. *)
Lemma keep_packet k w r (m : nact Z) (e : Z) : 0 <= w <= k -> 0 <= r <= k -> keeping m ->
  keeping (p ← kalloc_n k; if p =? 0 then mret e else _ ← touch p w; x ← in_use_n p r m; _ ← kfree_n p; mret x).
Proof. intros Hw Hr Hm. apply keep_alloc; [lia | apply keep_ret|]. intros p F X Hp. by apply ht_write_read. Qed.
Lemma u16_length k (l : list Z) : 0 <= k -> k + zlen l < 2 ^ 16 -> u16 (k + zlen l) = k + zlen l.
Proof. intros Hk Hl. pose proof (zlen_nonneg l). unfold u16. apply Z.mod_small. lia. Qed.

Lemma keep_echo_request dst id seq data : zlen data <= 65527 -> keeping (icmp_send_echo_request (B := B) dst id seq data).
Proof.
  intros Hd. pose proof (zlen_nonneg data). unfold icmp_send_echo_request. rewrite u16_length by lia.
  apply keep_packet; [lia | lia | apply keep_send_packet].
Qed.
Lemma keep_echo_reply dst packet : keeping (icmp_send_echo_reply_to (B := B) dst packet).
Proof.
  unfold icmp_send_echo_reply_to. destruct (zlen packet <? 8); [apply keep_ret|]. pose proof (zlen_nonneg packet).
  apply keep_packet; [lia | lia | apply keep_send_packet].
Qed.
Lemma keep_udp_send dst sp dp payload : keeping (udp_send (B := B) dst sp dp payload).
Proof.
  unfold udp_send. destruct (Z.ltb_spec 65527 (zlen payload)); [apply keep_ret|]. pose proof (zlen_nonneg payload).
  rewrite u16_length by lia. apply keep_alloc; [lia | apply keep_ret|].
  intros p F X Hp. eapply ht_bind; [apply keep_get|]. intros src. apply ht_write_read; [lia | lia | apply keep_send_packet].
Qed.
Lemma keep_sendto i data ip port u : keeping (udp_pcb_sendto (B := B) i data ip port u).2.
Proof.
  unfold udp_pcb_sendto. destruct (negb (pcb_usable i u)); [apply keep_ret|]. destruct (port =? 0); [apply keep_ret|].
  destruct (bind_ephemeral i u) as [ok u']. destruct (negb ok); [apply keep_ret|]. apply keep_bind; [apply keep_udp_send|]. intros rc. apply keep_ret.
Qed.
Lemma keep_set_dev f : keeping (set_dev (B := B) f).
Proof. by apply keep_put. Qed.
Lemma keep_draining v : keeping (set_draining (B := B) v).
Proof.
  intros F X n [[W1 W2 W3 W4 W5 W6] Hm]. unfold set_draining, put. cbn [fst snd]. split; [|exact Hm].
  split; try done. destruct W1 as [R1 R2 R3 R4 R5 R6 R7 R8]. by split.
Qed.

(** ** The receive path *)

Lemma sound_handle_tcp frame : sound (in_tcp (B := B) (tcp_handle_packet frame)).
Proof.
  intros F s Hs. destruct (perform_ok F (HandlePacket frame) (st_tcp s) (conj Hs I)) as (a & t & E & Ht). cbn [perform] in E.
  unfold in_tcp. rewrite E. by eexists _, _.
Qed.
Lemma sound_hand_up u : sound (hand_up (B := B) u).
Proof.
  destruct u as [src packet|packet|frame|frame]; cbn [hand_up].
  - apply sound_bind; [apply sound_lower, keep_echo_reply|]. intros r. apply sound_ret.
  - by apply sound_on_stack.
  - apply sound_handle_tcp.
  - apply sound_bind; [apply sound_in_udp|]. intros [h d| |]; [by apply sound_on_stack | apply sound_ret..].
Qed.

Lemma sound_ip_handle frame : sound (Stack.ip_handle_packet (B := B) frame).
Proof.
  intros F. unfold Stack.ip_handle_packet.
  apply (ssafe_bind _ _ (fun (r : delivery) s => if r.2 =? 0 then stack_ok F s else exists k, lent F r.2 k s /\ forall u, r.1 = Some u -> 0 <= extent u <= k)).
  - intros s Hs. unfold lower. pose proof (ht_input (heap_live (net_of s)) [] frame (net_of s)) as Hi.
    destruct (ip_input frame (net_of s)) as [r n'] eqn:E. eexists _, _. split; [done|].
    assert (heap_ok (net_of s)) as Hok by apply (mo_heap _ _ _ (tcp_ok_mem _ _ Hs)).
    destruct (Hi (ok_nst _ Hok)) as (k & Hn' & Hext). cbn [fst snd] in Hn', Hext. unfold ptr_blk in Hn'. rewrite app_nil_r in Hn'.
    destruct (Z.eqb_spec r.2 0) as [|Hne]; [|exists k; split; [by eapply lend_lower | by eauto]].
    eapply tcp_ok_world; [exact Hs|]. exact (owned_same _ _ _ _ (tcp_ok_mem _ _ Hs) Hn').
  - intros [u p]. cbn [fst snd].
    destruct (Z.eqb_spec p 0) as [->|Hp]; cbn [negb only_if].
    + eapply ssafe_bind; [destruct u; [apply sound_during_none, sound_hand_up | apply sound_ret]|]. intros []. apply sound_lower, keep_ret.
    + intros s (k & Hs & Hext). revert s Hs. change (ssafe (lent F p k) (_ ← match u with Some u => during p (extent u) (hand_up u) | None => mret tt end; lower (kfree_n p)) (fun _ => stack_ok F)).
      apply (ssafe_bind _ _ (fun _ => lent F p k)); [|intros []; apply lent_free]. destruct u as [u|]; [apply lent_during; [done | by apply Hext | apply sound_hand_up] | by apply ssafe_ret].
Qed.

Lemma sound_ethernet frame : sound (ethernet_process_frame (B := B) frame).
Proof.
  unfold ethernet_process_frame. cbn zeta. destruct (_ <? 14); [apply sound_ret|]. destruct (_ =? 0x0806); [apply sound_lower, keep_arp_handle|].
  destruct (_ =? 0x0800); [apply sound_ip_handle|]. destruct (_ =? 0x86dd); [|apply sound_lower, keep_count_l2].
  apply sound_on_stack. intros s. by destruct (st_ipv6_enabled s).
Qed.

(** ** Loopback and the service *)

Lemma sound_drain k n : sound (drain (B := B) k n).
Proof.
  revert n. induction k as [|k IH]; intros n; cbn [drain]; [apply sound_ret|]. intros F.
  apply (ssafe_bind _ _ (fun r s => match r with None => stack_ok F s | Some (f, bytes) => f <> 0 /\ lent F f (zlen bytes) s end)).
  - intros s Hs. unfold lower. pose proof (ht_dequeue (heap_live (net_of s)) [] (net_of s)) as Hd.
    destruct (lo_dequeue (net_of s)) as [r n'] eqn:E. eexists _, _. split; [done|].
    assert (heap_ok (net_of s)) as Hok by apply (mo_heap _ _ _ (tcp_ok_mem _ _ Hs)). pose proof (Hd (ok_nst _ Hok)) as Hn'. cbn [fst snd] in Hn'.
    destruct r as [[f bytes]|]; [destruct Hn' as (Hf & j & Hle & Hj); split; [done|]; destruct (lend_lower F f j _ _ _ s Hs E Hj) as (i & Hi & ?); exists i; split; [lia | done]|].
    eapply tcp_ok_world; [exact Hs|]. exact (owned_same _ _ _ _ (tcp_ok_mem _ _ Hs) Hn').
  - intros [[f bytes]|]; [|apply sound_ret]. intros s [Hf Hs]. revert s Hs. pose proof (zlen_nonneg bytes).
    eapply ssafe_bind; [apply lent_during; [done | lia | apply sound_ip_handle]|]. intros [].
    eapply ssafe_bind; [apply lent_free|]. intros []. apply IH.
Qed.
Lemma sound_loopback : sound (ip_loopback_drain (B := B)).
Proof.
  apply sound_bind; [apply sound_lower, keep_get|]. intros lo. destruct (ip_lo_draining lo); [apply sound_ret|].
  apply sound_bind; [apply sound_lower, keep_draining|]. intros []. apply sound_bind; [apply sound_drain|]. intros n.
  apply sound_bind; [apply sound_lower, keep_draining|]. intros []. apply sound_ret.
Qed.
Lemma sound_batch k n : sound (rx_batch (B := B) k n).
Proof.
  revert n. induction k as [|k IH]; intros n; cbn [rx_batch]; [apply sound_ret|]. apply sound_bind; [apply sound_lower, keep_receive|].
  intros packet. destruct (_ <=? 0); [apply sound_ret|]. apply sound_bind; [apply sound_ethernet|]. intros []. apply IH.
Qed.
Lemma sound_rx_state f : sound (on_rx_state (B := B) f).
Proof. by apply sound_on_stack. Qed.
Lemma sound_service : sound (net_rx_service (B := B)).
Proof.
  apply sound_bind; [apply sound_lower, keep_get|]. intros now. apply sound_bind; [apply sound_look|]. intros r. apply sound_bind.
  { destruct (_ || _); [|apply sound_ret]. apply sound_bind; [apply sound_rx_state|]. intros []. apply sound_bind; [apply sound_batch|]. intros n.
    apply sound_bind; [apply sound_rx_state|]. intros []. apply sound_ret. }
  intros processed. apply sound_bind; [apply sound_lower, keep_get|]. intros pending. apply sound_bind.
  { destruct pending; [|apply sound_ret]. apply sound_bind; [apply sound_loopback|]. intros n. apply sound_ret. }
  intros processed'. apply sound_bind; [apply sound_look|]. intros r'. apply sound_bind.
  { apply sound_unless, sound_bind; [apply sound_lower, keep_arpq_tick|]. intros []. apply sound_rx_state. }
  intros []. apply sound_bind; [apply sound_look|]. intros r''. apply sound_bind.
  { apply sound_unless, sound_bind; [apply sound_lower, keep_cleanup_expired|]. intros []. apply sound_rx_state. }
  intros []. apply sound_ret.
Qed.

(** ** Every call *)

(** TCP's callers pass connections and sockets of their own; a ping has data
    that fits a datagram. *)
Definition stack_allowed (s : stack) (call : stack_call) : Prop :=
  match call with
  | TcpCall call => allowed (st_tcp s) call
  | Ping _ data => zlen data <= 65527
  | _ => True
  end.

Lemma sound_quietly {A} (m : sact A) : sound m -> sound (quietly m).
Proof. intros Hm. apply sound_bind; [done|]. intros a. apply sound_ret. Qed.

Lemma stack_perform_ok F call : ssafe (fun s => stack_ok F s /\ stack_allowed s call) (stack_perform (B := B) call) (fun _ => stack_ok F).
Proof.
  assert (forall m : sact (B := B) unit, sound m -> ssafe (fun s => stack_ok F s /\ stack_allowed s call) m (fun _ => stack_ok F)) as Hm.
  { intros m Hm s [Hs _]. by apply Hm. }
  destruct call; cbn [stack_perform];
    try (apply Hm; first [by apply sound_on_stack | apply sound_quietly, sound_in_udp | apply sound_lower, keep_set_dev]).
  - apply Hm, sound_quietly, sound_service.
  - apply Hm, sound_ethernet.
  - apply Hm, sound_lower, keep_fragment_cleanup.
  - apply Hm, sound_lower, keep_arpq_tick.
  - apply Hm, sound_lower, keep_add_static.
  - intros s [Hs Hd]. change (zlen data <= 65527) in Hd. revert s Hs. change (ssafe (stack_ok F) (stack_perform (B := B) (Ping dst_ip data)) (fun _ => stack_ok F)). cbn [stack_perform].
    apply sound_bind; [apply sound_look|]. intros i. cbn. apply sound_bind; [by apply sound_on_stack|]. intros []. by apply sound_quietly, sound_lower, keep_echo_request.
  - apply Hm, sound_quietly, sound_lower, keep_udp_send.
  - apply Hm. apply sound_bind; [apply sound_look|]. intros u. pose proof (keep_sendto pcb data ip port u) as Hk.
    destruct (udp_pcb_sendto pcb data ip port u) as [u' send]. cbn in Hk. apply sound_bind; [by apply sound_on_stack|]. intros []. by apply sound_quietly, sound_lower.
  - intros s [Hs Ha]. destruct (perform_ok F call (st_tcp s) (conj Hs Ha)) as (a & t & E & Ht). unfold in_tcp. rewrite E. by eexists _, _.
Qed.

(** ** Every sequence of calls *)

Definition kheap_of (s : stack) : B := below (net_of s).
(** What the layers occupy. *)
Definition stack_blocks (s : stack) : list (Z * Z) := tcp_blocks (st_tcp s) ++ ip_blocks (net_of s).

(** [stack_run F s]: [s] is reached from a state without connections and with
    empty queues; [F] is what the rest of the kernel has allocated.  Between the
    calls the rest of the kernel runs: it allocates and frees, but not the
    blocks of the stack. *)
Inductive stack_run : (Z -> Z -> Prop) -> stack -> Prop :=
| stack_start F s :
    net_wf (net_of s) -> ip_blocks (net_of s) = [] -> accesses (net_of s) = [] -> tcp_connections (st_tcp s) = [] -> tcp_sockets (st_tcp s) = [] ->
    heap_ok (kheap_of s) -> (forall q n, F q n <-> heap_live (kheap_of s) q n) -> stack_run F s
| stack_step F s call s' :
    stack_run F s -> stack_allowed s call -> stack_perform call s = Some (tt, s') -> stack_run F s'
| stack_others F s F' b' :
    stack_run F s -> heap_ok b' ->
    (forall q n, q ∈ (stack_blocks s).*1 -> heap_live b' q n <-> heap_live (kheap_of s) q n) ->
    (forall q n, F' q n <-> heap_live b' q n /\ (q ∉ (stack_blocks s).*1)) ->
    stack_run F' (set_net (set_below b' (net_of s)) s).

(** Seen from the heap of the kernel. *)
Lemma stack_ok_mem F s : stack_ok F s -> net_wf (net_of s) /\ mem_ok F (kheap_of s) (stack_blocks s).
Proof.
  intros Hs. pose proof (tcp_ok_mem _ _ Hs) as [[Hw [G [M1 M2 M3 M4 M5]]] H2 H3 H4 H5]. fold (net_of s) in *. split; [done|].
  unfold stack_blocks. constructor; [done | | | |].
  - rewrite fmap_app. apply NoDup_app. split; [done|]. split; [|done]. intros q ([p k] & -> & Hin)%list_elem_of_fmap.
    destruct (H3 _ _ Hin) as (n & _ & _ & Hn). done.
  - intros p k [Hin|Hin]%elem_of_app; [|by apply M3]. destruct (H3 _ _ Hin) as (n & ? & Hl & _). by exists n.
  - intros q n HF. destruct (H4 _ _ HF) as [[Hl Hn] Hq]. split; [done|]. rewrite fmap_app, not_elem_of_app. done.
  - intros q n Hq. rewrite fmap_app, elem_of_app. destruct (decide (q ∈ (ip_blocks (net_of s)).*1)); [by right; right|].
    destruct (H5 q n); [by split | by left | by right; left].
Qed.
Lemma mem_stack_ok F s b : stack_ok F s -> forall F', net_wf (net_of s) -> mem_ok F' b (stack_blocks s) -> stack_ok F' (set_net (set_below b (net_of s)) s).
Proof.
  intros Hs F' Hw [M1 M2 M3 M4 M5]. eapply tcp_ok_world; [exact Hs|]. unfold stack_blocks in *. rewrite fmap_app in M2, M4, M5.
  apply NoDup_app in M2 as (N1 & N2 & N3). set (n := set_below b (net_of s)). change (ip_blocks (net_of s)) with (ip_blocks n) in *.
  assert (net_wf n) as Hwn by (destruct Hw; by split).
  constructor; [| done | | |].
  - split; [done|]. exists (fun q k => heap_live b q k /\ q ∉ (ip_blocks n).*1). constructor; [done | done | | done |].
    + intros p k Hin. apply M3. apply elem_of_app. by right.
    + intros q k Hq. destruct (decide (q ∈ (ip_blocks n).*1)); [by right | by left].
  - intros p k Hin. destruct (M3 p k) as (j & ? & ?); [apply elem_of_app; by left|]. exists j. split; [done|]. split; [done|].
    apply N2. apply list_elem_of_fmap. by exists (p, k).
  - intros q k HF. destruct (M4 _ _ HF) as [Hl Hn]. rewrite not_elem_of_app in Hn. destruct Hn. done.
  - intros q k [Hl Hn]. destruct (M5 _ _ Hl) as [|Hin]; [by left|]. rewrite elem_of_app in Hin. destruct Hin; [by right | done].
Qed.

Lemma stack_run_ok F s : stack_run F s -> stack_ok F s.
Proof.
  induction 1 as [F s Hw Hb _ Hc Hk Hok HF | F s call s' _ IH Hall E | F s F' b' _ IH Hok Hsame HF].
  - assert (heap_ok (net_of s)) as Hn.
    { split; [done|]. exists F. rewrite Hb. constructor; [done | constructor | by intros ? ? ?%elem_of_nil | |].
      - intros q n Hq. split; [by apply HF | apply not_elem_of_nil].
      - intros q n Hq. left. by apply HF. }
    apply tcp_run_ok, run_start; [done | | done | done]. intros q n. rewrite HF. change (heap_of (st_tcp s)) with (net_of s). cbn. rewrite Hb.
    split; [|by intros [? _]]. intros Hl. split; [done | apply not_elem_of_nil].
  - destruct (stack_perform_ok F call s (conj IH Hall)) as ([] & s'' & E' & Hs''). rewrite E in E'. by injection E' as <-.
  - destruct (stack_ok_mem _ _ IH) as [Hw [M1 M2 M3 M4 M5]]. apply (mem_stack_ok F); [done | done|]. constructor; [done | done | | by intros q n ?%HF |].
    + intros p k Hin. destruct (M3 _ _ Hin) as (n & ? & ?). exists n. split; [done|]. apply Hsame; [|done]. apply list_elem_of_fmap. by exists (p, k).
    + intros q n Hq. destruct (decide (q ∈ (stack_blocks s).*1)); [by right | left; by apply HF].
Qed.

(** C6 The layers of the network stack together own their memory.  Over every
    sequence of received frames (ARP, IPv4 with fragments, ICMP, UDP, TCP),
    timer ticks, loopback deliveries and calls of the rest of the kernel,
    every allowed call returns, TCP without following a pointer to a freed
    connection or socket; every access of the layers below TCP to a buffer on
    the heap (frames and packets that are built, sent, queued or handed up,
    copies that wait for ARP, fragments, reassembled datagrams) lies inside a
    block that was live at that moment; and the live heap blocks are exactly
    those of the rest of the kernel and those that the connections, sockets,
    transmit and loopback queues and reassembly slots hold, each held once:
    nothing is leaked and nothing is freed twice.  (Allowed: TCP's callers pass
    connections and sockets of their own, a ping has at most 65527 bytes.) *)
Theorem network_stack_safe F s : stack_run F s ->
  (forall call, stack_allowed s call -> exists s', stack_perform call s = Some (tt, s') /\ stack_run F s') /\
  Forall in_block (accesses (net_of s)) /\
  NoDup (stack_blocks s).*1 /\
  (forall q, (exists n, heap_live (kheap_of s) q n) <-> (exists n, F q n) \/ (q ∈ (stack_blocks s).*1)) /\
  (forall q n, F q n -> heap_live (kheap_of s) q n /\ q ∉ (stack_blocks s).*1).
Proof.
  intros Hrun. pose proof (stack_run_ok F s Hrun) as Hok. destruct (stack_ok_mem F s Hok) as [Hw Hm]. split_and!.
  - intros call Hall. destruct (stack_perform_ok F call s (conj Hok Hall)) as ([] & s' & E & _). exists s'. split; [done|]. by eapply stack_step.
  - apply Hw.
  - apply Hm.
  - intros q. split.
    + intros [n Hn]. destruct (mo_all _ _ _ Hm q n Hn); [left; by exists n | by right].
    + intros [[n Hn]|([p k] & -> & Hin)%list_elem_of_fmap]; [exists n; by apply (mo_frame _ _ _ Hm)|].
      destruct (mo_live _ _ _ Hm p k Hin) as (n & _ & ?). by exists n.
  - apply (mo_frame _ _ _ Hm).
Qed.
End safe.
