(* ===== verification/NetDemo.v ===== *)
(** * Concrete networks

    The theorems on the network stack at concrete states: two hosts with a driver
    that sends every frame, and a stack over the kernel heap of src/mem.c. *)
From S2P Require Import Prelude Heap Pmm PmmInit Slab TcpConn TcpSeg Tcp TcpTable TcpWire TcpDemo Net Arp Ip IpFrag IpPath IpMem Icmp Udp UdpProps Stack StackSafe.

Definition ring0 : lo_ring := mk_lo (replicate 512 (0, [])) (replicate 512 0) 0 0 0 false.
Definition host {B} (ip mac : list Z) (cache : list arp_entry) (b : B) : net B :=
  mk_net (Some (mk_dev mac ip [255; 255; 255; 0] [10; 0; 2; 2] [10; 0; 2; 3] true true true None))
    cache (replicate 16 inhabitant) 7 ring0 (replicate 16 inhabitant) (replicate 8 inhabitant) (mk_drops 0 0 0 0 0 0) [] b.

(** ** Two hosts *)

(** A machine with memory without end; the frames it has sent. *)
Record lab := mk_lab { lb_next : Z; lb_sent : list (list Z) }.
#[global] Instance lab_heap : KHeap lab := {|
  hp_kalloc n b := (lb_next b, mk_lab (lb_next b + n) (lb_sent b));
  hp_kfree _ b := b;
  hp_pages_available _ := 0;
  heap_ok b := 0 < lb_next b;
  heap_live b p n := 0 < p /\ 0 < n /\ p + n <= lb_next b;
|}.
#[global] Instance lab_hw : NetHw lab := {|
  drv_send_packet f b := (0, mk_lab (lb_next b) (lb_sent b ++ [f]));
  drv_receive_packet _ b := ([], b);
  hpet_get_ticks _ := 1000;
  hw_now_us _ := 1000000;
  hw_rdtsc _ := 0;
|}.
#[global] Instance lab_net : NetLab lab := {| healthy b := 0 < lb_next b; wire := lb_sent |}.
#[global] Instance lab_net_laws : NetLabLaws lab.
Proof. split; cbn; intros; split_and?; done || lia. Qed.

Definition ip_a : list Z := [10; 0; 2; 15].
Definition ip_b : list Z := [10; 0; 2; 16].
Definition mac_a : list Z := [82; 84; 0; 18; 52; 86].
Definition mac_b : list Z := [82; 84; 0; 18; 52; 87].
Definition host_a : net lab := host ip_a mac_a (mk_arp ip_b mac_b 900 true false :: replicate 15 inhabitant) (mk_lab 4096 []).
Definition host_b : net lab := host ip_b mac_b (replicate 16 inhabitant) (mk_lab 4096 []).
(** More than fits in a frame. *)
Definition long_message : list Z := (fun k => k mod 256) <$> seqZ 0 1600.

Lemma bytes_check l : forallb (fun x => (0 <=? x) && (x <? 256)) l = true -> bytes_ok l.
Proof. rewrite forallb_forall. intros H. apply Forall_forall. intros x Hx. apply list_elem_of_In in Hx. specialize (H x Hx). bool_hyps. unfold is_u8. lia. Qed.

Lemma a_to_b : routed host_a mac_b ip_a ip_b.
Proof.
  split; [done | | cbn; lia | split; [cbn; lia | by eexists] | done | done | by vm_compute].
  split; (split; [done | by apply bytes_check]).
Qed.
Lemma padded_refl l : Forall2 padded l l.
Proof. apply Forall2_same_length_lookup. split; [done|]. intros i x y Hx Hy. rewrite Hx in Hy. injection Hy as <-. exists []. by rewrite app_nil_r. Qed.
(** Host [b] gets the frames in the reverse order. *)
Lemma b_gets frames protocol : arrives frames (reverse frames) host_b ip_a ip_b (ip_id_counter host_a) protocol.
Proof.
  split; [exists (reverse frames); split; [apply reverse_Permutation | apply padded_refl] | done | cbn; lia|].
  split; [done|]. split; [repeat constructor | by constructor].
Qed.

Definition raw_sent : Z * net lab := ip_send_packet ip_b 17 long_message host_a.
Lemma ip_datagram_delivered_witness :
  raw_sent.1 = 0 /\ zlen (wire (below raw_sent.2)) = 2 /\
  exists pre post, header_for pre ip_a ip_b 17 1600 /\
    (ip_inputs (reverse (wire (below raw_sent.2))) host_b).1 = [UdpFrame (pre ++ long_message ++ post)].
Proof.
  destruct (ip_datagram_delivered host_a mac_b ip_a ip_b 17 long_message a_to_b) as (frames & H0 & Hw & Hd); [done | by vm_compute|].
  split; [exact H0|]. split; [by vm_compute|]. unfold raw_sent. rewrite Hw. exact (Hd host_b (reverse frames) (b_gets frames 17)).
Defined.

(** A socket of host [b] is bound to port 7000. *)
Definition b_calls : list udp_call := [UCreate; UCreate; UBind 1 7000].
Definition udp_sent_a : Z * net lab := udp_send ip_b 50000 7000 long_message host_a.

Lemma udp_datagram_received_witness :
  exists frame, (ip_inputs (reverse (wire (below udp_sent_a.2))) host_b).1 = [UdpFrame frame] /\
    rx_queue (socket (udp_handle_packet frame (udp_after (B := lab) b_calls)).2 1) = [mk_rx ip_a 50000 (ztake 1472 long_message)].
Proof.
  destruct (udp_datagram_received host_a mac_b ip_a ip_b 50000 7000 long_message a_to_b) as (frames & H0 & Hw & Hd);
    [lia | lia | by apply bytes_check; vm_compute | by vm_compute|].
  destruct (Hd host_b (reverse frames) b_calls 1 (b_gets frames IP_PROTO_UDP)) as (frame & Hin & Hq); [done | done | by vm_compute|].
  unfold udp_sent_a. rewrite Hw. exists frame. split; [exact Hin|].
  destruct (udp_handle_packet frame (udp_after b_calls)) as [o u']. destruct Hq as (_ & Hq & _). cbn [snd]. rewrite Hq. by vm_compute.
Defined.

(** Host [a] pings host [b] with more than fits in a frame. *)
Definition icmp0 : icmp_state := mk_icmp 41 0xFFFF 0xFFFF false.
Definition pinged : net lab := ((icmp_ping ip_b long_message icmp0).2 host_a).2.
Definition b_pinged : net lab := (ip_inputs (reverse (wire (below pinged))) host_b).2.

Lemma b_to_a : routed b_pinged mac_a ip_b ip_a.
Proof.
  assert (device b_pinged = device host_b) as Hd by (vm_compute; reflexivity).
  assert (ip_id_counter b_pinged = 7) as Hi by (vm_compute; reflexivity).
  assert (lb_next (below b_pinged) = 9002) as Hn by (vm_compute; reflexivity).
  split; [vm_compute; reflexivity | | rewrite Hi; lia | | vm_compute; reflexivity | reflexivity | vm_compute; reflexivity].
  - unfold net_get_mac_address. rewrite Hd. split; (split; [reflexivity | by apply bytes_check]).
  - split; [cbn [healthy lab_net]; rewrite Hn; lia|]. rewrite Hd. eexists. split; reflexivity.
Qed.

Lemma ping_answered_witness : exists request,
  (ip_inputs (reverse (wire (below pinged))) host_b).1 = [EchoRequest ip_a request] /\
  exists frames, (icmp_send_echo_reply_to ip_a request b_pinged).1 = 0 /\
    forall (a' : net lab) gs', arrives frames gs' a' ip_b ip_a (ip_id_counter b_pinged) IP_PROTO_ICMP ->
      exists answer, (ip_inputs gs' a').1 = [IcmpPacket answer] /\ zdrop 8 answer = long_message /\
        (icmp_check_echo_reply (icmp_handle_packet answer (icmp_ping (B := lab) ip_b long_message icmp0).1)).1 = true.
Proof.
  destruct (ping_answered host_a host_b icmp0 mac_a mac_b ip_a ip_b long_message a_to_b) as (frames & _ & Hw & Hd);
    [cbn; lia | by apply bytes_check; vm_compute | by vm_compute|].
  assert (wire (below pinged) = frames) as Ef by exact Hw.
  destruct (Hd (reverse frames) (b_gets frames IP_PROTO_ICMP)) as (request & Hin & Hrep). exists request. rewrite Ef. split; [exact Hin|].
  destruct (Hrep b_pinged) as (frames' & H0 & _ & Ha); [by rewrite <- Ef | exact b_to_a|]. exists frames'. split; [exact H0|].
  intros a' gs' Hgs. destruct (Ha a' gs' Hgs) as (answer & H1 & _ & H2 & H3). exists answer. exact (conj H1 (conj H2 H3)).
Defined.

(** ** A stack over the heap of the kernel *)

(** A heap, the frames that wait in the device and those sent. *)
Record nic := mk_nic { nic_heap : kmem; nic_in : list (list Z); nic_out : list (list Z) }.
#[global] Instance nic_kheap : KHeap nic := {|
  hp_kalloc n w := let '(p, h) := hp_kalloc n (nic_heap w) in (p, mk_nic h (nic_in w) (nic_out w));
  hp_kfree p w := mk_nic (hp_kfree p (nic_heap w)) (nic_in w) (nic_out w);
  hp_pages_available w := hp_pages_available (nic_heap w);
  heap_ok w := heap_ok (nic_heap w);
  heap_live w := heap_live (nic_heap w);
|}.
#[global] Instance nic_kheap_laws : KHeapLaws nic.
Proof.
  split; cbn.
  - intros h. exact (live_nonnull (H := kmem) (nic_heap h)).
  - intros h. exact (live_functional (H := kmem) (nic_heap h)).
  - intros h. exact (live_disjoint (H := kmem) (nic_heap h)).
  - intros h h' n Hok Hn. destruct (kalloc n (nic_heap h)) as [p k] eqn:E. intros [= -> <-]. exact (kalloc_fail (H := kmem) (nic_heap h) k n Hok Hn E).
  - intros h h' n p Hok Hn. destruct (kalloc n (nic_heap h)) as [p' k] eqn:E. intros [= -> <-] Hp. exact (kalloc_fresh (H := kmem) (nic_heap h) k n p Hok Hn E Hp).
  - intros h p n. exact (kfree_live (H := kmem) (nic_heap h) p n).
Qed.
#[global] Instance nic_hw : NetHw nic := {|
  drv_send_packet f w := (0, mk_nic (nic_heap w) (nic_in w) (nic_out w ++ [f]));
  drv_receive_packet n w := (ztake n (default [] (head (nic_in w))), mk_nic (nic_heap w) (tail (nic_in w)) (nic_out w));
  hpet_get_ticks _ := 1000;
  hw_now_us _ := 1000000;
  hw_rdtsc _ := 0;
|}.
#[global] Instance nic_hw_laws : NetHwLaws nic.
Proof. by split. Qed.

(** The first fragment of the message waits in the device. *)
Definition demo_nic : nic := mk_nic (kmem_boot pages128) (take 1 (wire (below udp_sent_a.2))) [].
Definition demo_net : net nic := host ip_b mac_b (replicate 16 inhabitant) demo_nic.
Definition demo_stack : stack (B := nic) :=
  mk_stack (mk_tcp (mk_glob demo_net 0 0 []) [] [] []) (udp_after (B := nic) b_calls) (mk_icmp 0 0 0 false) (mk_rxs true 0 0 0 0) false [].

Lemma ring0_ok : ring_ok ring0.
Proof.
  assert (forall k, 0 <= k < 512 -> (zget (ip_lo_frame ring0) (k mod IP_LO_MAX)).1 = 0) as Hz.
  { intros k Hk. rewrite Z.mod_small by (unfold IP_LO_MAX; lia). by rewrite (zget_lookup _ k (0, [])) by (apply lookup_replicate_2; lia). }
  split; cbn [ring0 ip_lo_frame ip_lo_flen ip_lo_head ip_lo_tail ip_lo_count]; [done | done | done | done | done | lia | by repeat constructor|].
  intros k Hk. rewrite Z.add_0_l. by apply Hz.
Qed.
Lemma demo_net_wf : net_wf demo_net.
Proof. split; [apply ring0_ok | done | by repeat constructor | done | by repeat constructor | constructor]. Qed.
Lemma demo_start : stack_run (heap_live demo_nic) demo_stack.
Proof. apply stack_start; [apply demo_net_wf | done | done | done | done | exact pages128_ok | done]. Qed.

(** The service takes the fragment, which then waits in a reassembly slot; the
    record of the piece and the copy of its data are written. *)
Definition accesses_after (r : option (unit * stack (B := nic))) : nat := match r with Some (_, s) => length (accesses (net_of s)) | None => O end.
Lemma count_accesses r s : r = Some (tt, s) -> accesses_after r = 3%nat -> length (accesses (net_of s)) = 3%nat.
Proof. intros -> E. exact E. Qed.
Lemma service_accesses : accesses_after (stack_perform RxService demo_stack) = 3%nat.
Proof. vm_compute. reflexivity. Qed.
Lemma network_stack_safe_witness : exists s,
  stack_perform RxService demo_stack = Some (tt, s) /\ length (accesses (net_of s)) = 3%nat /\ Forall in_block (accesses (net_of s)) /\ NoDup (stack_blocks s).*1 /\
  forall q n, heap_live demo_nic q n -> heap_live (kheap_of s) q n /\ q ∉ (stack_blocks s).*1.
Proof.
  destruct (network_stack_safe (heap_live demo_nic) demo_stack demo_start) as (Hall & _).
  destruct (Hall RxService I) as (s & E & Hrun). exists s. split; [exact E|].
  split; [exact (count_accesses _ _ E service_accesses)|].
  destruct (network_stack_safe (heap_live demo_nic) s Hrun) as (_ & Ha & Hn & _ & Hf). exact (conj Ha (conj Hn Hf)).
Defined.
